(* ===== verification/_CoqProject ===== *)
-Q . S2P
Prelude.v
GoStrings.v
Identifier.v
GoTime.v
Protocol.v
Presentation.v
ObservationStore.v
AttentionSelector.v
LocalState.v
AttentionState.v
GoJson.v
ProtocolSession.v
LiveSession.v
InputDispatcher.v
InputRouter.v
InputCoordinator.v
EventBus.v
EventBusSessions.v
SessionCoordinator.v
SessionRuntime.v
AttentionRetention.v
Engine.v
EngineClaims.v
EngineDeadlines.v
EngineMemory.v
EngineRun.v
Recorder.v
RecorderFiles.v
RecorderLedger.v
RecorderRestart.v
RecorderDemo.v
Supervisor.v
SupervisorRuns.v
SupervisorSafe.v
SupervisorCommands.v
SupervisorClaims.v
GoEncoding.v
Actions.v
Compiler.v
Gateway.v
GatewayCanvas.v
GatewayClaims.v
Assets.v
AssetsSafe.v
AssetsRuns.v
AssetsClaims.v
JsonText.v
JsonNames.v
CheckpointEnvelope.v
Checkpoint.v
CheckpointSafe.v
CheckpointClaims.v
GoText.v
CodexUsage.v
CodexReducer.v
CodexCards.v
CodexScenes.v
CodexPublisher.v
CodexInteraction.v
CodexInvariant.v
CodexSessions.v
CodexClaims.v
