(* ===== verification/Prelude.v ===== *)
(** * bsbctl: a verification library for the daemon's attention core

    bsbctl is a daemon that shows what plugins observe on a small display and routes the
    keys of the device to them. This library models, function by function, the part of it
    that decides: what a plugin may say, what is remembered, what is displayed, who owns
    the foreground, where input goes, and what survives a restart.

    ** The parts and how they interact

    A plugin publishes observations; the protocol validates them and the observation store
    keeps the latest of each identity. The attention selector turns the store's records into
    candidates and asks the display arbiter for a winner; the engine draws the winner
    through the renderer, which is the gateway of the device, remembers what was shown,
    acknowledged or dismissed, persists it through the attention state and the local state files, and gives every decision to the
    attention recorder. An event of the device goes through the input dispatcher to the
    input coordinator, which hands it to the launcher, to the interactive session that owns
    the foreground (through the session broker, whose workers call the plugin) or to the
    engine's Back. The session coordinator arbitrates the foreground between sessions,
    launches and critical presentations; the session runtime joins its decisions to the
    calls they require. A plugin runs under a supervisor, keeps checkpoints in the store and
    its image files on the device through the asset reconciler. One plugin is modelled too,
    at the other end of the protocol: Codex reduces the events of an app server to a state,
    shows it as cards, publishes these as observations, and answers the app server's requests
    in sessions on the device.

    ** Files, and the code they model (paths under [src/])

    - this file: integers of Go's width, error values, the sorting functions, and the
      library's tactics and hints;
    - [GoStrings], [GoTime], [GoJson]: what the code uses of the packages [strings],
      [unicode], [strconv], [net/url], [time] and [encoding/json] (encoding only);
    - [Identifier]: [internal/identifier/identifier.go];
    - [Protocol], [ProtocolSession]: the validators of [sdk/protocol];
    - [Presentation]: [internal/presentation/model.go], [policy.go], [arbiter.go];
    - [ObservationStore]: [internal/observation/store.go];
    - [AttentionSelector], [AttentionState]: [internal/attention/selector.go], [state.go];
    - [Recorder], with [RecorderFiles] (what the file operations are documented to do),
      [RecorderLedger] (the invariant of the ledger), [RecorderRestart] (its recovery) and
      [RecorderDemo] (an in-memory file system for the witnesses):
      [internal/attention/recorder.go];
    - [LocalState]: [internal/localstate/replace.go], [remove.go];
    - [LiveSession]: [internal/livesession/session.go];
    - [InputDispatcher], [InputRouter], [InputCoordinator]: [internal/input/dispatcher.go],
      [router.go], [coordinator.go];
    - [EventBus], [EventBusSessions]: [internal/eventbus/broker.go];
    - [SessionCoordinator], [SessionRuntime]: [internal/daemon/session_owner.go],
      [session_runtime.go] and the launch of [reconciler_operations.go];
    - [AttentionRetention]: [internal/daemon/attention_state.go];
    - [Engine], with [EngineClaims], [EngineDeadlines] and [EngineMemory] (theorems) and
      [EngineRun] (the engine's goroutine): [internal/daemon/engine.go].
    - [Supervisor], with [SupervisorRuns] (the protocol of one child, and the calculus of
      actions), [SupervisorSafe] and [SupervisorCommands] (the invariant) and
      [SupervisorClaims] (theorems and a concrete plugin):
      [internal/pluginhost/supervisor.go], [supervisor_lifecycle.go],
      [supervisor_retry.go], [supervisor_sessions.go], [supervisor_state.go];
    - [Actions]: code over a state of its own that makes calls, as a monad with weakest
      preconditions;
    - [Compiler]: [internal/presentation/compiler.go];
    - [Gateway], with [GatewayCanvas] (what it leaves on a device) and [GatewayClaims]
      (theorems and a concrete device): [internal/device/gateway.go];
    - [GoEncoding]: what the code uses of [encoding/hex], [encoding/base64] and
      [path/filepath];
    - [Assets], with [AssetsSafe] and [AssetsRuns] (what is observed is on the device) and
      [AssetsClaims] (theorems and a concrete device): [internal/assets/reconciler.go];
    - [JsonText]: JSON texts as [encoding/json] reads them: tokens, values, [Valid],
      [Compact];
    - [JsonNames]: [sdk/internal/jsonnames/names.go], [fields.go], [sdk/protocol/strictjson.go]
      and the raw objects of [validation.go];
    - [CheckpointEnvelope] (the bytes of a file) and [Checkpoint] (the store), with
      [CheckpointSafe] (the map behind the files) and [CheckpointClaims] (theorems and a
      concrete directory): [internal/checkpoint/store.go], [open_unix.go];
    - [GoText]: texts as lists of runes ([utf8.EncodeRune], [strings.Fields], [strings.Map]);
    - [CodexUsage]: [internal/codexusage/usage.go]; [CodexReducer]: [plugins/codex/reducer.go],
      [types.go]; [CodexCards]: [cards.go]; [CodexScenes]: [view.go]; [CodexPublisher]:
      [publisher.go]; [CodexInteraction]: what [interaction.go] decides and shows;
      [CodexInvariant]: [config.go], and the invariant of the reducer; [CodexSessions]
      (theorems on sessions) and [CodexClaims] (theorems on what is published).

    A definition has the name of the function it models; where a function is long, its
    parts are definitions named for what they do, and the function is their composition.
    State is passed explicitly. A Go interface or a table of functions is a record of
    operations over an abstract world [W]; what the code relies on of it is a class
    ([Presentation.Arbiter], [LocalState.FileSystem], [SessionRuntime.InputController],
    [RecorderFiles.LedgerFiles], [EngineRun.Signalling], [EngineClaims.FinitelyPublished],
    [GatewayCanvas.Screen], [AssetsSafe.Storage], [CheckpointSafe.CheckpointFiles]), with an
    instance that shows the class can be inhabited. Code that runs concurrently is a
    transition system whose steps are the critical sections and channel operations of the
    source.

    ** What the theorems show

    - Selection: the arbiter meets its contract and holds exactly as stated; the selection
      is a contender that nothing outranks; the reasons given to the losers are true.
    - Memory: publication refines insertion into a map; an exclusion is permanent; every
      capacity holds; pruning keeps the newest entries; what is persisted is what is
      restored.
    - Display: the engine's claim about the display is true in every reachable state; a step
      makes its calls in the one order allowed and terminates; no change is slept through;
      no deadline is missed; a Back press dismisses for good; an acknowledgement is durable
      before it takes effect.
    - Foreground: no session is lost, ended twice, or left running; one owner at a time.
    - Input: exact order, one answer per waiting publisher, bounded queues, delivery to the
      addressed session only, calls in protocol order.
    - Files: a replacement reports its commit outcome truthfully whichever calls fail; the
      recorder's ledger survives every failure of a file operation and every crash.
    - Plugins: whatever a plugin, the clock and the callbacks answer, a supervisor calls only
      the one child that is alive, opens and closes each session once, forgets no resident
      plugin, quarantines the fifth exit, bounds the clean-ups it owes, and shuts down to
      nothing.
    - The device: through failures, reconnections and scenes that the firmware closes, what
      the gateway reports is what is shown; its results are those that the engine accepts; it
      draws a scene once, and clears before it replaces one; a valid scene is compiled
      element by element.
    - Assets: a plugin that is ready has its files on the device whatever fails and whenever
      the connection is invalidated, a resolved scene refers to files that are there, and over
      a device that works a valid package becomes ready.
    - JSON: the streaming check of names agrees with the tree of the value it reads; a struct
      accepts a name by the dominance of its fields; raw objects are validated exactly.
    - Checkpoints: what a store writes it reads back, what it reads is well formed, and
      through every failure of a call and every restart it refines a finite map whose size it
      accounts for and bounds.
    - The Codex plugin: whatever the app server sends, its cards are observations that the
      daemon accepts, and its publisher knows what the host shows; a session on the device
      never indexes out of range, answers every question of a request with an offered option,
      and sends an action only after the card that asks to confirm it.

    ** Bounds, fuel and approximations

    A decimal number has at most 20 digits ([format_uint]). A loop that is not structural
    takes fuel: a step of the engine needs one unit per record, one per observation that is
    published during its calls, and one more ([step_terminates] proves it enough, and
    [FinitelyPublished] says that those are finitely many), the router's publication loop one more than the
    changes that are pending ([Router_Handle_safe]). The counters of the observation store
    and of local changes do not wrap in an execution of [EngineRun] (a 64-bit counter), and
    the sequences and generations of the recorder stay below their bound by hypothesis.
    - Errors are compared by the text they are created with.
    - A method that holds a mutex is atomic; other goroutines act in the calls it makes out.
      [ReconcileConsumedBack] and the step that follows it are taken without interleaving,
      and a selection reads each record's policy once.
    - Iteration over a Go map is in the order of [map_to_list]; where the order could matter
      a theorem states that it does not.
    - The asset reconciler is seen between its operations; the connection may be invalidated
      at any call within one. The epoch of the connection does not wrap, and the truncated
      hashes of the packages in use do not collide.
    - A callback of the supervisor does not call it back; a timeout is an answer of the call
      it bounds; the wait of its shutdown for the child's exit ends.
    - A nil slice and an empty one are the same, but where a package is fingerprinted.
    - Nobody but the recorder touches its files, a failed operation leaves them as they
      were, except that a write may be partial, and the hashes of the two ledgers it
      compares do not collide.
    - Nobody but the checkpoint store touches its directory, the file names of the keys in
      use do not collide, and the data it is given is nested less deeply than the limit of
      the decoder.
    - The clock of the host agrees with that of the Codex plugin; the digests in the keys of
      its cards (eight bytes of SHA-256) do not collide, and its publisher makes fewer than
      2^64 calls.

    ** Not modelled

    The client library of the device is a third-party package; its validators and constants
    are parameters, and the device's output queue, its status stream and the commands that
    call it are left out. The processes of plugins, the control API, installation, release
    and secrets are input and output over pipes, sockets and external tools. Configuration is
    parsed by third-party packages. Decoding JSON
    into Go types is a parameter but for the envelope of a checkpoint. Within
    modelled components: waiting on the channels of stopped broker workers, the payload of
    the broker's failure callback, the requests of the protocol that carry raw JSON, the engine's
    one-line delegations to the recorder, the channels of the supervisor.

    Not modelled: the manager of the supervisors and the process behind the pipes, the
    device's output queue and the daemon's reconcilers (orchestration of the parts above over
    I/O); the worker goroutine of the Codex plugin and the other plugins; the JSON-RPC
    transport of the SDK; configuration, control API, commands, installation and release
    (parsing by other packages, file-system and operating-system calls). *)

From Stdlib Require Import ZArith Lia ZifyBool Sorted Permutation.
From Stdlib Require Export Ascii.
From Stdlib Require String.
From stdpp Require Export base gmap strings list sets fin_maps sorting.

Open Scope Z_scope.

(** ** Machine integers

    Go's [uint64] and [int64] arithmetic wraps; a value of either type is
    represented by the [Z] it denotes, and every operation of the source that can
    leave the range goes through one of these functions. *)

Definition two63 : Z := 9223372036854775808.
Definition two64 : Z := 18446744073709551616.

Definition u64 (z : Z) : Z := z mod two64.
Definition u64_succ (z : Z) : Z := u64 (z + 1).
Definition u64_pred (z : Z) : Z := u64 (z - 1).

Definition i64 (z : Z) : Z := (z + two63) mod two64 - two63.

Lemma u64_small z : 0 <= z < two64 -> u64 z = z.
Proof. apply Z.mod_small. Qed.

Lemma u64_range z : 0 <= u64 z < two64.
Proof. apply Z.mod_pos_bound; reflexivity. Qed.

Lemma u64_succ_small z : 0 <= z < two64 - 1 -> u64_succ z = z + 1.
Proof. intros ?. apply u64_small. lia. Qed.

Lemma i64_small z : - two63 <= z < two63 -> i64 z = z.
Proof. intros ?. unfold i64. rewrite Z.mod_small; unfold two63, two64 in *; lia. Qed.

Lemma i64_range z : - two63 <= i64 z < two63.
Proof.
  unfold i64. pose proof (Z.mod_pos_bound (z + two63) two64 eq_refl).
  unfold two63, two64 in *; lia.
Qed.

(** ** Go errors

    [error] is the non-nil part of Go's [error] interface: [Errorf] is
    [errors.New] and [fmt.Errorf] (the format string and its arguments), [Wrapf]
    is [fmt.Errorf] with a [%w] verb, [Join] is a non-empty [errors.Join]. A Go
    result of type [error] is an [option error], [None] being [nil]. *)

Inductive earg :=
  | EStr (s : string)
  | EInt (z : Z).

Inductive error :=
  | Errorf (format : string) (args : list earg)
  | Wrapf (format : string) (args : list earg) (inner : error)
  | Join (errs : list error).

Definition errors_New (text : string) : option error := Some (Errorf text []).

(** [errors.Join]: nil errors are discarded, and joining nothing is nil. *)
Definition errors_Join (errs : list (option error)) : option error :=
  match omap id errs with
  | [] => None
  | es => Some (Join es)
  end.

(** [if cond { errs = append(errs, e) }] *)
Definition err_if (cond : bool) (e : error) : option error :=
  if cond then Some e else None.

(** Every accumulated error is nil. *)
Definition all_nil (errs : list (option error)) : Prop := Forall (fun e => e = None) errs.

Lemma all_nil_nil : all_nil [] <-> True.
Proof. apply (Forall_nil (fun e => e = None)). Qed.

Lemma all_nil_cons e errs : all_nil (e :: errs) <-> e = None /\ all_nil errs.
Proof. apply (Forall_cons (fun e => e = None)). Qed.

Lemma all_nil_app xs ys : all_nil (xs ++ ys) <-> all_nil xs /\ all_nil ys.
Proof. apply (Forall_app (fun e => e = None)). Qed.

Lemma errors_Join_None errs : errors_Join errs = None <-> all_nil errs.
Proof.
  unfold errors_Join. induction errs as [|[e|] errs IH]; simpl.
  - by rewrite all_nil_nil.
  - rewrite all_nil_cons. split; [done|]. by intros [? _].
  - rewrite IH, all_nil_cons. tauto.
Qed.

Lemma err_if_None cond e : err_if cond e = None <-> cond = false.
Proof. destruct cond; simpl; split; congruence. Qed.

Lemma errors_New_None text : errors_New text = None <-> False.
Proof. done. Qed.

(** ** Switch statements over string-typed enumerations *)

Definition one_of (value : string) (cases : list string) : bool :=
  existsb (String.eqb value) cases.

Lemma one_of_spec value cases : one_of value cases = true <-> value ∈ cases.
Proof.
  unfold one_of. rewrite existsb_exists. split.
  - intros (x & Hin & Heq%String.eqb_eq). subst. by apply list_elem_of_In.
  - intros Hin. exists value. split; [by apply list_elem_of_In|apply String.eqb_refl].
Qed.

(** ** [slices.SortStableFunc] and [slices.SortFunc]

    Go's comparison functions return an [int]; a stable sort is determined by the
    comparator when it is a strict weak order, and an unstable one when no two
    elements compare equal. Both are modelled by stable insertion. *)

Section Sorting.
Context {A : Type} (cmp : A -> A -> Z).

Fixpoint sort_insert (x : A) (l : list A) : list A :=
  match l with
  | [] => [x]
  | y :: l' => if cmp y x <? 0 then y :: sort_insert x l' else x :: l
  end.

Fixpoint SortFunc (l : list A) : list A :=
  match l with
  | [] => []
  | x :: l' => sort_insert x (SortFunc l')
  end.

Lemma sort_insert_perm x l : sort_insert x l ≡ₚ x :: l.
Proof.
  induction l as [|y l IH]; simpl; [done|].
  destruct (cmp y x <? 0); [|done]. rewrite IH. constructor.
Qed.

Lemma SortFunc_perm l : SortFunc l ≡ₚ l.
Proof. induction l as [|x l IH]; simpl; [done|]. by rewrite sort_insert_perm, IH. Qed.

Lemma elem_of_SortFunc x l : x ∈ SortFunc l <-> x ∈ l.
Proof. by rewrite SortFunc_perm. Qed.

Lemma length_SortFunc l : length (SortFunc l) = length l.
Proof. by rewrite SortFunc_perm. Qed.

(** [x] may stay in front of [y]. *)
Definition not_after (x y : A) : Prop := ~ cmp y x < 0.

Context (Hasym : forall x y, cmp x y < 0 -> ~ cmp y x < 0)
        (Htrans : forall x y z, not_after x y -> not_after y z -> not_after x z).

Lemma sort_insert_sorted x l :
  StronglySorted not_after l -> StronglySorted not_after (sort_insert x l).
Proof.
  induction 1 as [|y l Hl IH Hy]; simpl.
  - repeat constructor.
  - destruct (Z.ltb_spec (cmp y x) 0) as [Hlt|Hge].
    + constructor; [done|]. rewrite sort_insert_perm. constructor; [|done].
      by apply Hasym.
    + constructor; [by constructor|]. constructor; [unfold not_after; lia|].
      eapply Forall_impl; [exact Hy|]. intros z ?.
      eapply Htrans; [|done]. unfold not_after; lia.
Qed.

Lemma SortFunc_sorted l : StronglySorted not_after (SortFunc l).
Proof. induction l; simpl; [constructor|by apply sort_insert_sorted]. Qed.

(** Sorting is independent of the input order when the comparator separates
    the elements. *)
Lemma SortFunc_unique l1 l2 :
  l1 ≡ₚ l2 ->
  (forall x y, x ∈ l1 -> y ∈ l1 -> not_after x y -> not_after y x -> x = y) ->
  SortFunc l1 = SortFunc l2.
Proof.
  intros Hp Hsep. apply (StronglySorted_unique_strong not_after).
  - intros x y Hx Hy. apply Hsep; [by apply elem_of_SortFunc|].
    rewrite Hp. by apply elem_of_SortFunc.
  - apply SortFunc_sorted.
  - apply SortFunc_sorted.
  - by rewrite !SortFunc_perm.
Qed.
End Sorting.

(** ** Results of calls that may panic

    A [Panic] is a Go run-time panic; [OutOfFuel] is a loop cut short. *)

Inductive result (A : Type) := Done (value : A) | Panic | OutOfFuel.
Arguments Done {A}.
Arguments Panic {A}.
Arguments OutOfFuel {A}.

Definition bind {A B} (m : result A) (k : A -> result B) : result B :=
  match m with Done value => k value | Panic => Panic | OutOfFuel => OutOfFuel end.

(** [slice[index]] *)
Definition index {A} (slice : list A) (i : Z) : result A :=
  if (i <? 0) then Panic else match slice !! Z.to_nat i with Some value => Done value | None => Panic end.

(** ** Lists without duplicates *)

Lemma NoDup_map_inj {A B} (f : A -> B) (l : list A) a b :
  NoDup (map f l) -> a ∈ l -> b ∈ l -> f a = f b -> a = b.
Proof.
  intros Hnd Ha Hb Hid. apply list_elem_of_lookup in Ha as [i Hi], Hb as [j Hj].
  assert (i = j) as ->; [|congruence].
  eapply (NoDup_lookup (map f l)); [exact Hnd| |]; rewrite list_lookup_fmap;
    [rewrite Hi|rewrite Hj]; simpl; [done|by rewrite Hid].
Qed.

(** ** Automation *)

Create HintDb errs.
#[export] Hint Rewrite errors_Join_None all_nil_nil all_nil_cons all_nil_app err_if_None
  errors_New_None negb_false_iff negb_true_iff andb_true_iff andb_false_iff orb_false_iff
  orb_true_iff one_of_spec Z.ltb_ge Z.ltb_lt Z.leb_gt Z.leb_le Z.eqb_neq Z.eqb_eq
  String.eqb_eq String.eqb_neq : errs.

(** Reduces [errors_Join checks = None] to the conjunction of the checks. *)
Ltac errs := autorewrite with errs in *.

(** Splits on the test of the innermost conditional of the goal. *)
Ltac case_if :=
  match goal with
  | |- context [if ?b then _ else _] =>
      lazymatch b with context [if _ then _ else _] => fail | _ => destruct b eqn:? end
  end.
