(* ===== verification/GoStrings.v ===== *)
(** * Go strings

    A Go string is a sequence of bytes: a [String.string], one [ascii] per byte.
    This file models what the sources use of the standard library's [strings],
    [unicode], [unicode/utf8], [cmp] and [net/url] packages, and the character
    classes of the anchored regular expressions of [sdk/protocol]. *)

From Stdlib Require Import ZArith Lia ZifyBool.
From Stdlib Require Import OrderedTypeEx.
From S2P Require Import Prelude.

Declare Scope gostring_scope.
Delimit Scope gostring_scope with gs.
Open Scope gostring_scope.

Infix "=s" := String.eqb (at level 70, no associativity) : gostring_scope.
Infix "+:+" := String.append (at level 60, right associativity) : gostring_scope.
#[global] Arguments String.append : simpl nomatch.

Definition byte (a : ascii) : Z := Z.of_N (Ascii.N_of_ascii a).
Definition ascii_of_byte (z : Z) : ascii := Ascii.ascii_of_N (Z.to_N z).

(** [len(s)] *)
Definition len (s : string) : Z := Z.of_nat (String.length s).

Definition between (lo hi z : Z) : bool := (lo <=? z) && (z <=? hi).

(** Every byte satisfies [f]. *)
Fixpoint forall_bytes (f : Z -> bool) (s : string) : bool :=
  match s with
  | EmptyString => true
  | String a s' => f (byte a) && forall_bytes f s'
  end.

(** ** [unicode/utf8] *)

Definition RuneError : Z := 65533.

Definition cont (b : Z) : bool := between 128 191 b.

(** The bounds on the second byte of three- and four-byte forms exclude overlong
    encodings, surrogates and code points above U+10FFFF. *)
Definition second_of_three (b0 b1 : Z) : bool :=
  if b0 =? 224 then between 160 191 b1
  else if b0 =? 237 then between 128 159 b1
  else cont b1.

Definition second_of_four (b0 b1 : Z) : bool :=
  if b0 =? 240 then between 144 191 b1
  else if b0 =? 244 then between 128 143 b1
  else cont b1.

Definition DecodeRuneInString (s : string) : Z * nat :=
  match s with
  | EmptyString => (RuneError, 0%nat)
  | String a0 s1 =>
    let b0 := byte a0 in
    if b0 <? 128 then (b0, 1%nat) else
    match s1 with
    | EmptyString => (RuneError, 1%nat)
    | String a1 s2 =>
      let b1 := byte a1 in
      if between 194 223 b0 && cont b1 then ((b0 - 192) * 64 + (b1 - 128), 2%nat) else
      match s2 with
      | EmptyString => (RuneError, 1%nat)
      | String a2 s3 =>
        let b2 := byte a2 in
        if between 224 239 b0 && second_of_three b0 b1 && cont b2
        then ((b0 - 224) * 4096 + (b1 - 128) * 64 + (b2 - 128), 3%nat) else
        match s3 with
        | EmptyString => (RuneError, 1%nat)
        | String a3 _ =>
          let b3 := byte a3 in
          if between 240 244 b0 && second_of_four b0 b1 && cont b2 && cont b3
          then ((b0 - 240) * 262144 + (b1 - 128) * 4096 + (b2 - 128) * 64 + (b3 - 128), 4%nat)
          else (RuneError, 1%nat)
        end
      end
    end
  end.

(** [for _, r := range s]: the runes of [s] with their widths. [skip] bytes belong
    to the rune already produced. *)
Fixpoint range_runes (skip : nat) (s : string) : list (Z * nat) :=
  match s with
  | EmptyString => []
  | String _ s' =>
    match skip with
    | S k => range_runes k s'
    | O => let '(r, n) := DecodeRuneInString s in (r, n) :: range_runes (n - 1) s'
    end
  end.

Definition runes (s : string) : list (Z * nat) := range_runes 0 s.

(** A decoded U+FFFD has width three; width one marks an invalid byte. *)
Definition valid_rune (rn : Z * nat) : bool :=
  negb ((rn.1 =? RuneError) && Nat.eqb rn.2 1).

Definition ValidString (s : string) : bool := forallb valid_rune (runes s).

(** ** [unicode] *)

Definition IsControl (r : Z) : bool := between 0 31 r || between 127 159 r.

Definition IsSpace (r : Z) : bool :=
  between 9 13 r || (r =? 32) || (r =? 133) || (r =? 160) || (r =? 5760)
  || between 8192 8202 r || (r =? 8232) || (r =? 8233) || (r =? 8239)
  || (r =? 8287) || (r =? 12288).

(** ** [strings] *)

Fixpoint drop_bytes (n : nat) (s : string) : string :=
  match n, s with
  | S n', String _ s' => drop_bytes n' s'
  | _, _ => s
  end.

Fixpoint take_bytes (n : nat) (s : string) : string :=
  match n, s with
  | S n', String a s' => String a (take_bytes n' s')
  | _, _ => EmptyString
  end.

(** The width of the longest prefix of runes that are white space. *)
Fixpoint space_width (rs : list (Z * nat)) : nat :=
  match rs with
  | (r, n) :: rs' => if IsSpace r then (n + space_width rs')%nat else 0%nat
  | [] => 0%nat
  end.

Definition TrimSpace (s : string) : string :=
  let left := space_width (runes s) in
  let s' := drop_bytes left s in
  take_bytes (String.length s' - space_width (rev (runes s'))) s'.

Fixpoint HasPrefix (s prefix : string) : bool :=
  match prefix, s with
  | EmptyString, _ => true
  | String b p', String a s' => Ascii.eqb a b && HasPrefix s' p'
  | String _ _, EmptyString => false
  end.

Definition HasSuffix (s suffix : string) : bool :=
  (String.length suffix <=? String.length s)%nat
  && (drop_bytes (String.length s - String.length suffix) s =s suffix).

(** [strings.Contains(s, c)] for a one-byte needle. *)
Definition contains_byte (c : ascii) (s : string) : bool :=
  negb (forall_bytes (fun b => negb (b =? byte c)) s).

(** [strings.Join] *)
Fixpoint join_strings (sep : string) (parts : list string) : string :=
  match parts with
  | [] => EmptyString
  | [p] => p
  | p :: ps => p +:+ sep +:+ join_strings sep ps
  end.

(** [strings.Split] at a one-byte separator. *)
Fixpoint split_byte (c : ascii) (s : string) : list string :=
  match s with
  | EmptyString => [EmptyString]
  | String a s' =>
    if Ascii.eqb a c then EmptyString :: split_byte c s'
    else match split_byte c s' with
         | p :: ps => String a p :: ps
         | [] => [String a EmptyString]
         end
  end.

(** [cmp.Compare] on strings is the bytewise lexicographic order. *)
Definition cmp_strings (a b : string) : Z :=
  match String.compare a b with Lt => -1 | Eq => 0 | Gt => 1 end.

(** ** [net/url.PathEscape] *)

Definition is_alnum (b : Z) : bool :=
  between 97 122 b || between 65 90 b || between 48 57 b.

(** [shouldEscape(c, encodePathSegment)]: unreserved characters and
    [$ & + : = @] stay as they are. *)
Definition shouldEscape (b : Z) : bool :=
  negb (is_alnum b || one_of (String (ascii_of_byte b) EmptyString)
         ["-"; "_"; "."; "~"; "$"; "&"; "+"; ":"; "="; "@"]%string).

Definition upperhex (n : Z) : ascii :=
  if n <? 10 then ascii_of_byte (48 + n) else ascii_of_byte (55 + n).

Fixpoint PathEscape (s : string) : string :=
  match s with
  | EmptyString => EmptyString
  | String a s' =>
    if shouldEscape (byte a) then
      String "%" (String (upperhex (byte a / 16)) (String (upperhex (byte a mod 16)) (PathEscape s')))
    else String a (PathEscape s')
  end.

Definition unhex (a : ascii) : Z :=
  let b := byte a in if b <? 58 then b - 48 else b - 55.

(** [url.PathUnescape] on well-formed input. *)
Fixpoint PathUnescape (s : string) : string :=
  match s with
  | EmptyString => EmptyString
  | String a s' =>
    if Ascii.eqb a "%" then
      match s' with
      | String h (String l s'') =>
        String (ascii_of_byte (unhex h * 16 + unhex l)) (PathUnescape s'')
      | _ => s
      end
    else String a (PathUnescape s')
  end.

(** ** Character classes *)

Definition is_lower (b : Z) : bool := between 97 122 b.
Definition is_digit (b : Z) : bool := between 48 57 b.
Definition byte_in (set : string) (b : Z) : bool := negb (forall_bytes (fun c => negb (c =? b)) set).

(** [^H T{0,max}$] for two byte classes [H] and [T]. *)
Definition match_head_tail (head tail : Z -> bool) (max : Z) (s : string) : bool :=
  match s with
  | EmptyString => false
  | String a s' => head (byte a) && forall_bytes tail s' && (len s' <=? max)
  end.

(** ** Lemmas *)

(** Case analysis on one byte: 256 closed goals. *)
Ltac byte_cases a :=
  let b := fresh "b" in
  destruct a as [b b0 b1 b2 b3 b4 b5 b6];
  destruct b, b0, b1, b2, b3, b4, b5, b6.

Lemma byte_range a : 0 <= byte a < 256.
Proof. unfold byte. pose proof (Ascii.N_ascii_bounded a). lia. Qed.

Lemma ascii_of_byte_byte a : ascii_of_byte (byte a) = a.
Proof. unfold ascii_of_byte, byte. rewrite N2Z.id. apply Ascii.ascii_N_embedding. Qed.

Lemma byte_ascii_of_byte z : 0 <= z < 256 -> byte (ascii_of_byte z) = z.
Proof. intros ?. unfold byte, ascii_of_byte. rewrite Ascii.N_ascii_embedding; lia. Qed.

Lemma byte_inj a b : byte a = byte b -> a = b.
Proof. intros H. rewrite <- (ascii_of_byte_byte a), <- (ascii_of_byte_byte b). by rewrite H. Qed.

Lemma len_nonneg s : 0 <= len s.
Proof. unfold len. lia. Qed.

Lemma len_app s t : len (s +:+ t) = len s + len t.
Proof.
  unfold len. rewrite <- Nat2Z.inj_add. f_equal.
  induction s as [|a s IH]; [done|]. simpl. by rewrite IH.
Qed.

Lemma append_assoc s t u : (s +:+ t) +:+ u = s +:+ (t +:+ u).
Proof. induction s; simpl; congruence. Qed.

Lemma append_nil_r s : s +:+ EmptyString = s.
Proof. induction s; simpl; congruence. Qed.

Lemma HasPrefix_app s prefix : HasPrefix s prefix = true <-> exists rest, s = prefix +:+ rest.
Proof.
  revert s. induction prefix as [|b prefix IH]; intros s; simpl.
  - split; [by exists s|by destruct s].
  - destruct s as [|a s]; simpl; [split; [done|by intros [rest [=]]]|]. rewrite andb_true_iff, IH. split.
    + intros [->%Ascii.eqb_eq [rest ->]]. by exists rest.
    + intros [rest [= -> ->]]. split; [apply Ascii.eqb_refl|by exists rest].
Qed.

Lemma take_bytes_app s t : take_bytes (String.length s) (s +:+ t) = s.
Proof. induction s as [|a s IH]; simpl; [by destruct t|by rewrite IH]. Qed.

Lemma take_bytes_all s : take_bytes (String.length s) s = s.
Proof. rewrite <- (append_nil_r s) at 2. apply take_bytes_app. Qed.

Lemma take_bytes_0 s : take_bytes 0 s = EmptyString.
Proof. done. Qed.

Lemma append_inj_l s t u : s +:+ t = s +:+ u -> t = u.
Proof. induction s as [|a s IH]; simpl; [done|]. intros [=]. auto. Qed.

Lemma len_0 s : len s = 0 -> s = EmptyString.
Proof. destruct s; [done|]. unfold len. simpl. lia. Qed.

Lemma forall_bytes_app f s t : forall_bytes f (s +:+ t) = forall_bytes f s && forall_bytes f t.
Proof. induction s; simpl; [done|]. by rewrite IHs, andb_assoc. Qed.

Lemma PathUnescape_PathEscape s : PathUnescape (PathEscape s) = s.
Proof.
  induction s as [|a s IH]; [done|]. simpl.
  destruct (shouldEscape (byte a)) eqn:He.
  - simpl. rewrite IH. f_equal. clear. byte_cases a; reflexivity.
  - simpl. rewrite IH. clear IH. byte_cases a; first [reflexivity | discriminate He].
Qed.

(** An escaped segment never contains the separator. *)
Lemma PathEscape_no_slash s : forall_bytes (fun b => negb (b =? 47)) (PathEscape s) = true.
Proof.
  induction s as [|a s IH]; [done|]. simpl.
  destruct (shouldEscape (byte a)) eqn:He; simpl; rewrite IH; clear IH.
  - clear. byte_cases a; reflexivity.
  - byte_cases a; first [reflexivity | discriminate He].
Qed.

Lemma split_byte_nonempty c s : split_byte c s <> [].
Proof. destruct s; simpl; [done|]. destruct (Ascii.eqb a c); [done|]. by destruct (split_byte c s). Qed.

Lemma split_byte_none c s :
  forall_bytes (fun b => negb (b =? byte c)) s = true -> split_byte c s = [s].
Proof.
  induction s as [|a s IH]; simpl; [done|]. intros [Ha Hs]%andb_true_iff.
  destruct (Ascii.eqb_spec a c) as [->|Hne]; [lia|]. by rewrite (IH Hs).
Qed.

Lemma split_byte_app c s t :
  forall_bytes (fun b => negb (b =? byte c)) s = true ->
  split_byte c (s +:+ String c t) = s :: split_byte c t.
Proof.
  induction s as [|a s IH]; simpl.
  - by rewrite Ascii.eqb_refl.
  - intros [Ha Hs]%andb_true_iff.
    destruct (Ascii.eqb_spec a c) as [->|Hne]; [lia|]. by rewrite (IH Hs).
Qed.

(** Splitting undoes joining when no part contains the separator. *)
Lemma split_join c parts :
  parts <> [] ->
  Forall (fun p => forall_bytes (fun b => negb (b =? byte c)) p = true) parts ->
  split_byte c (join_strings (String c EmptyString) parts) = parts.
Proof.
  intros Hne Hall. induction Hall as [|p ps Hp Hps IH]; [done|].
  destruct ps as [|q ps]; [by apply split_byte_none|].
  change (join_strings _ (p :: q :: ps))
    with (p +:+ String c (join_strings (String c EmptyString) (q :: ps))).
  rewrite split_byte_app by done. by rewrite IH.
Qed.

Lemma join_split c s : join_strings (String c EmptyString) (split_byte c s) = s.
Proof.
  induction s as [|a s IH]; [done|]. simpl.
  pose proof (split_byte_nonempty c s).
  destruct (Ascii.eqb_spec a c) as [->|Hne], (split_byte c s) as [|p [|q ps]] eqn:E;
    try done; simpl in *; congruence.
Qed.

(** *** Runes and white space *)

Lemma DecodeRune_width a s :
  let n := (DecodeRuneInString (String a s)).2 in
  (1 <= n)%nat /\ (n <= S (String.length s))%nat.
Proof.
  unfold DecodeRuneInString.
  destruct (byte a <? 128); [simpl; lia|].
  destruct s as [|a1 s]; [simpl; lia|].
  destruct (between 194 223 (byte a) && cont (byte a1)); [simpl; lia|].
  destruct s as [|a2 s]; [simpl; lia|].
  destruct (between 224 239 (byte a) && _ && _); [simpl; lia|].
  destruct s as [|a3 s]; [simpl; lia|].
  destruct (between 240 244 (byte a) && _ && _ && _); simpl; lia.
Qed.

Lemma range_runes_skip k s : range_runes k s = runes (drop_bytes k s).
Proof.
  unfold runes. revert k. induction s as [|a s IH]; intros [|k]; simpl; auto.
Qed.

(** One step of the range loop. *)
Lemma runes_step a s :
  runes (String a s) =
    DecodeRuneInString (String a s)
      :: runes (drop_bytes (DecodeRuneInString (String a s)).2 (String a s)).
Proof.
  unfold runes at 1. cbn [range_runes].
  pose proof (DecodeRune_width a s) as Hw. cbv zeta in Hw.
  destruct (DecodeRuneInString (String a s)) as [r [|n]]; cbn [snd] in *; [lia|].
  rewrite range_runes_skip. simpl. by rewrite Nat.sub_0_r.
Qed.

Lemma length_drop_bytes k s : String.length (drop_bytes k s) = (String.length s - k)%nat.
Proof. revert k. induction s as [|a s IH]; intros [|k]; simpl; auto. Qed.

Lemma drop_bytes_app s t : drop_bytes (String.length s) (s +:+ t) = t.
Proof. by induction s. Qed.

Lemma HasSuffix_app s suffix : HasSuffix (s +:+ suffix) suffix = true.
Proof.
  unfold HasSuffix. assert (Hl : forall t, String.length (t +:+ suffix) = (String.length t + String.length suffix)%nat).
  { intros t. induction t; simpl; congruence. }
  rewrite Hl. replace (_ + _ - _)%nat with (String.length s) by lia.
  rewrite drop_bytes_app, String.eqb_refl, andb_true_r. apply Nat.leb_le. lia.
Qed.

Lemma drop_bytes_add j k s : drop_bytes j (drop_bytes k s) = drop_bytes (k + j) s.
Proof. revert k. induction s as [|a s IH]; intros [|k]; simpl; auto; by destruct j. Qed.

(** Induction that follows the range loop. *)
Lemma runes_ind (P : string -> Prop) :
  P EmptyString ->
  (forall a s, P (drop_bytes (DecodeRuneInString (String a s)).2 (String a s)) -> P (String a s)) ->
  forall s, P s.
Proof.
  intros H0 HS s. remember (String.length s) as n eqn:Hn. revert s Hn.
  induction (lt_wf n) as [n _ IH]. intros [|a s] ->; [done|].
  apply HS. eapply IH; [|reflexivity]. rewrite length_drop_bytes.
  pose proof (DecodeRune_width a s) as Hw. cbv zeta in Hw.
  change (String.length (String a s)) with (S (String.length s)). lia.
Qed.

Definition total_width (rs : list (Z * nat)) : nat := foldr (fun rn w => (rn.2 + w)%nat) 0%nat rs.

Fixpoint drop_spaces (rs : list (Z * nat)) : list (Z * nat) :=
  match rs with
  | rn :: rs' => if IsSpace rn.1 then drop_spaces rs' else rs
  | [] => []
  end.

Lemma total_width_cons rn rs : total_width (rn :: rs) = (rn.2 + total_width rs)%nat.
Proof. done. Qed.

Lemma total_width_runes s : total_width (runes s) = String.length s.
Proof.
  induction s as [|a s IH] using runes_ind; [done|].
  rewrite runes_step, total_width_cons, IH, length_drop_bytes.
  pose proof (DecodeRune_width a s) as Hw. cbv zeta in Hw.
  change (String.length (String a s)) with (S (String.length s)). lia.
Qed.

Lemma total_width_app xs ys : total_width (xs ++ ys) = (total_width xs + total_width ys)%nat.
Proof. induction xs as [|x xs IH]; simpl; [done|]. rewrite IH. lia. Qed.

Lemma total_width_rev xs : total_width (rev xs) = total_width xs.
Proof. induction xs as [|x xs IH]; simpl; [done|]. rewrite total_width_app, IH. simpl. lia. Qed.

Lemma runes_widths s : Forall (fun rn => (1 <= rn.2)%nat) (runes s).
Proof.
  induction s as [|a s IH] using runes_ind; [constructor|].
  rewrite runes_step. constructor; [|done].
  pose proof (DecodeRune_width a s) as Hw. cbv zeta in Hw. lia.
Qed.

Lemma runes_drop_spaces s : runes (drop_bytes (space_width (runes s)) s) = drop_spaces (runes s).
Proof.
  induction s as [|a s IH] using runes_ind; [done|].
  rewrite runes_step in *. cbn [space_width drop_spaces].
  destruct (DecodeRuneInString (String a s)) as [r n] eqn:Hd. cbn [fst snd] in *.
  destruct (IsSpace r) eqn:Hsp.
  - by rewrite <- drop_bytes_add.
  - cbn [drop_bytes]. by rewrite runes_step, Hd.
Qed.

Lemma space_width_all rs :
  forallb (fun rn => IsSpace rn.1) rs = true -> space_width rs = total_width rs.
Proof.
  induction rs as [|[r n] rs IH]; simpl; [done|].
  intros [-> H]%andb_true_iff. by rewrite (IH H).
Qed.

Lemma space_width_bound rs r n rs' :
  (space_width (rs ++ (r, n) :: rs') <= total_width rs)%nat \/ IsSpace r = true.
Proof.
  destruct (IsSpace r) eqn:Hr; [by right|left].
  induction rs as [|[r' n'] rs IH]; simpl; [by rewrite Hr|].
  destruct (IsSpace r'); lia.
Qed.

Lemma take_bytes_empty k s : take_bytes k s = EmptyString <-> k = 0%nat \/ s = EmptyString.
Proof. destruct k, s; simpl; naive_solver. Qed.

(** [strings.TrimSpace(s) == ""] says that every rune of [s] is white space. *)
Lemma TrimSpace_empty s :
  TrimSpace s = EmptyString <-> forallb (fun rn => IsSpace rn.1) (runes s) = true.
Proof.
  unfold TrimSpace. set (s' := drop_bytes _ s).
  assert (Hs' : runes s' = drop_spaces (runes s)) by apply runes_drop_spaces.
  rewrite take_bytes_empty. split.
  - intros Htrim. clearbody s'. revert Hs'. induction (runes s) as [|[r n] rs IH]; simpl; [done|].
    destruct (IsSpace r) eqn:Hr; simpl; [done|]. intros Hs'. exfalso.
    pose proof (total_width_runes s') as Hw. pose proof (runes_widths s') as Hpos.
    rewrite Hs' in *. simpl rev in Htrim.
    destruct (space_width_bound (rev rs) r n []) as [Hb|Hb]; [|congruence].
    apply Forall_cons in Hpos as [Hpos _]. rewrite total_width_rev in Hb. simpl in Hw, Hpos.
    destruct Htrim as [H|H].
    + unfold total_width in *. lia.
    + rewrite H in Hw. simpl in Hw. lia.
  - intros Hall. right. apply space_width_all in Hall. subst s'.
    rewrite Hall, total_width_runes. clear. by induction s.
Qed.

(** *** The byte order on strings *)

Lemma cmp_strings_eq a b : cmp_strings a b = 0 <-> a = b.
Proof.
  pose proof (String_as_OT.cmp_eq a b) as Heq. unfold String_as_OT.cmp in Heq.
  rewrite <- Heq. unfold cmp_strings.
  destruct (String.compare a b); split; congruence.
Qed.

Lemma cmp_strings_refl a : cmp_strings a a = 0.
Proof. by apply cmp_strings_eq. Qed.

Lemma cmp_strings_antisym a b : cmp_strings b a = - cmp_strings a b.
Proof.
  unfold cmp_strings. rewrite (String.compare_antisym a b).
  by destruct (String.compare b a).
Qed.

Lemma cmp_strings_lt a b : cmp_strings a b < 0 <-> String_as_OT.lt a b.
Proof.
  pose proof (String_as_OT.cmp_lt a b) as Hlt. unfold String_as_OT.cmp in Hlt.
  rewrite <- Hlt. unfold cmp_strings.
  destruct (String.compare a b); simpl; split; intros H; first [done | discriminate H | lia].
Qed.

Lemma cmp_strings_lt_trans a b c :
  cmp_strings a b < 0 -> cmp_strings b c < 0 -> cmp_strings a c < 0.
Proof. rewrite !cmp_strings_lt. apply String_as_OT.lt_trans. Qed.

Lemma cmp_strings_le_trans a b c :
  ~ cmp_strings b a < 0 -> ~ cmp_strings c b < 0 -> ~ cmp_strings c a < 0.
Proof.
  intros Hab Hbc Hca.
  destruct (Z.eq_dec (cmp_strings a b) 0) as [->%cmp_strings_eq|Hne]; [done|].
  pose proof (cmp_strings_antisym a b).
  apply Hbc. apply (cmp_strings_lt_trans c a b); lia.
Qed.

(** Sorting by a string key. *)
Section SortByKey.
Context {A : Type} (key : A -> string).

Definition cmp_key (x y : A) : Z := cmp_strings (key x) (key y).

Lemma SortFunc_key_sorted l : StronglySorted (not_after cmp_key) (SortFunc cmp_key l).
Proof.
  apply SortFunc_sorted; unfold not_after, cmp_key.
  - intros x y Hlt. rewrite (cmp_strings_antisym (key x) (key y)). lia.
  - intros x y z. apply cmp_strings_le_trans.
Qed.

Lemma cmp_key_not_after_antisym x y :
  not_after cmp_key x y -> not_after cmp_key y x -> key x = key y.
Proof.
  unfold not_after, cmp_key. intros H1 H2. apply cmp_strings_eq.
  rewrite (cmp_strings_antisym (key x) (key y)) in H1. lia.
Qed.
Lemma SortFunc_key_unique l1 l2 :
  l1 ≡ₚ l2 -> NoDup (map key l1) -> SortFunc cmp_key l1 = SortFunc cmp_key l2.
Proof.
  intros Hp Hnd. apply SortFunc_unique; [..|done|].
  - unfold cmp_key. intros x y Hlt. rewrite (cmp_strings_antisym (key x) (key y)). lia.
  - unfold not_after, cmp_key. intros x y z. apply cmp_strings_le_trans.
  - intros x y Hx Hy H1 H2. apply (NoDup_map_inj key l1); [done..|]. by apply cmp_key_not_after_antisym.
Qed.
End SortByKey.

Create HintDb gostrings.
#[export] Hint Resolve cmp_strings_refl len_nonneg PathEscape_no_slash : gostrings.
#[export] Hint Rewrite len_app append_assoc append_nil_r forall_bytes_app PathUnescape_PathEscape : gostrings.
