(* ===== verification/Identifier.v ===== *)
(** * Identifiers at trust boundaries

    Models [src/internal/identifier/identifier.go]: the validation of one
    identifier and the encoding of an identifier tuple into the string that keys
    every map of the attention core. *)

From Stdlib Require Import ZArith Lia ZifyBool.
From S2P Require Import Prelude GoStrings.

Definition MaxBytes : Z := 128.

Definition Validate (name value : string) : option error :=
  if TrimSpace value =s EmptyString then
    Some (Errorf "%s must not be empty" [EStr name])
  else if MaxBytes <? len value then
    Some (Errorf "%s exceeds %d bytes" [EStr name; EInt MaxBytes])
  else if negb (ValidString value) then
    Some (Errorf "%s must be valid UTF-8" [EStr name])
  else if existsb (fun rn => IsControl rn.1) (runes value) then
    Some (Errorf "%s contains a control character" [EStr name])
  else None.

Definition Encode (parts : list string) : string * option error :=
  match parts with
  | [] => (EmptyString, errors_New "identifier requires at least one part")
  | _ => (join_strings "/" (map PathEscape parts), None)
  end.

(** ** Specification *)

(** What an accepted identifier is: a non-blank, bounded, well-formed UTF-8 string
    without control characters. *)
Record ValidIdentifier (value : string) : Prop := {
  vi_not_blank : exists rn, rn ∈ runes value /\ IsSpace rn.1 = false;
  vi_bounded : len value <= MaxBytes;
  vi_utf8 : ValidString value = true;
  vi_no_control : forall rn, rn ∈ runes value -> IsControl rn.1 = false;
}.

(** The left inverse of [Encode]. *)
Definition decode_parts (encoded : string) : list string :=
  map PathUnescape (split_byte "/" encoded).

Lemma not_blank_spec value :
  (TrimSpace value =s EmptyString) = false <-> exists rn, rn ∈ runes value /\ IsSpace rn.1 = false.
Proof.
  rewrite String.eqb_neq, TrimSpace_empty, forallb_forall. split.
  - intros H. destruct (decide (Exists (fun rn => IsSpace rn.1 = false) (runes value))) as [He|Hn].
    + apply Exists_exists in He as (rn & ? & ?). by exists rn.
    + exfalso. apply H. intros rn Hin. apply not_false_iff_true. intros Hf. apply Hn.
      apply Exists_exists. exists rn. split; [by apply list_elem_of_In|done].
  - intros (rn & Hin & Hf) H. rewrite H in Hf; [done|]. by apply list_elem_of_In.
Qed.

Lemma Validate_None name value : Validate name value = None <-> ValidIdentifier value.
Proof.
  unfold Validate. split.
  - destruct (TrimSpace value =s EmptyString) eqn:Hb; [done|].
    destruct (Z.ltb_spec MaxBytes (len value)); [done|].
    destruct (ValidString value) eqn:Hu; [|done]. simpl.
    destruct (existsb _ _) eqn:Hc; [done|]. intros _.
    split; [by apply not_blank_spec|lia|done|].
    intros rn Hin. apply not_true_iff_false. intros Ht.
    apply not_true_iff_false in Hc. apply Hc. apply existsb_exists.
    exists rn. split; [by apply list_elem_of_In|done].
  - intros [Hb%not_blank_spec Hlen Hu Hc]. rewrite Hb, Hu.
    destruct (Z.ltb_spec MaxBytes (len value)); [lia|]. simpl.
    destruct (existsb _ _) eqn:He; [|done].
    apply existsb_exists in He as (rn & Hin & Ht).
    rewrite Hc in Ht; [done|]. by apply list_elem_of_In.
Qed.

Lemma decode_parts_Encode parts : parts <> [] -> decode_parts (Encode parts).1 = parts.
Proof.
  intros Hne. unfold decode_parts, Encode. destruct parts as [|p ps]; [done|]. cbn [fst].
  rewrite split_join.
  - rewrite map_map. rewrite <- map_id. apply map_ext. intros s. apply PathUnescape_PathEscape.
  - done.
  - apply Forall_forall. intros e Hin. apply list_elem_of_In, in_map_iff in Hin as (x & <- & _).
    apply PathEscape_no_slash.
Qed.

Lemma Encode_inj parts parts' :
  parts <> [] -> parts' <> [] -> (Encode parts).1 = (Encode parts').1 -> parts = parts'.
Proof.
  intros H H' He. by rewrite <- (decode_parts_Encode parts), <- (decode_parts_Encode parts'), He.
Qed.

(** ** Properties *)

(** [identifier.Validate] accepts exactly the non-blank UTF-8 strings of at most
    128 bytes without control characters, whatever name labels the error. *)
Theorem Validate_iff name value : Validate name value = None <-> ValidIdentifier value.
Proof. apply Validate_None. Qed.

(** Decoding the result of [identifier.Encode] gives the parts back, so two
    identifier tuples never share an encoding. *)
Theorem Encode_roundtrip parts :
  parts <> [] -> (Encode parts).2 = None /\ decode_parts (Encode parts).1 = parts.
Proof. intros H. split; [by destruct parts|by apply decode_parts_Encode]. Qed.

Lemma Encode_roundtrip_witness :
  ["a/b"; "%2F"; EmptyString]%string <> [] /\
  (Encode ["a/b"; "%2F"; EmptyString]%string).2 = None /\
  decode_parts (Encode ["a/b"; "%2F"; EmptyString]%string).1 = ["a/b"; "%2F"; EmptyString]%string.
Proof.
  split; [discriminate|]. apply (Encode_roundtrip ["a/b"; "%2F"; EmptyString]%string). discriminate.
Defined.
