(* ===== verification/GoTime.v ===== *)
(** * Go times and durations

    [time.Time] is an instant, in nanoseconds since the zero time (January 1 of
    year 1, UTC), and the offset of its location in seconds east of UTC.
    Instants are unbounded integers and carry no monotonic clock reading, so two
    times that agree here are the same wall-clock value. [time.Duration] is an
    [int64] number of nanoseconds whose arithmetic wraps. *)

From Stdlib Require Import ZArith Lia ZifyBool.
From S2P Require Import Prelude.

Record Time := mkTime { instant : Z; zone_offset : Z }.

#[export] Instance Time_eq_dec : EqDecision Time.
Proof. solve_decision. Defined.

(** [time.Time{}] *)
Definition zero_time : Time := mkTime 0 0.

Definition IsZero (t : Time) : bool := instant t =? 0.
Definition Before (t u : Time) : bool := instant t <? instant u.
Definition After (t u : Time) : bool := instant u <? instant t.
Definition UTC (t : Time) : Time := mkTime (instant t) 0.
(** [t.Zone()]'s second result. *)
Definition Zone (t : Time) : Z := zone_offset t.
Definition Add (t : Time) (d : Z) : Time := mkTime (instant t + d) (zone_offset t).

(** [t.Sub(u)] saturates at the bounds of [int64]. *)
Definition Sub (t u : Time) : Z :=
  let d := instant t - instant u in
  if d <? - two63 then - two63 else if two63 - 1 <? d then two63 - 1 else d.

Definition Millisecond : Z := 1000000.
Definition Second : Z := 1000000000.
Definition Hour : Z := 3600000000000.

(** [time.Duration(a) * b], [a / b] and [a + b] on [int64]. *)
Definition dur_mul (a b : Z) : Z := i64 (a * b).
Definition dur_div (a b : Z) : Z := i64 (Z.quot a b).
Definition dur_add (a b : Z) : Z := i64 (a + b).

Lemma Before_spec t u : Before t u = true <-> instant t < instant u.
Proof. unfold Before. lia. Qed.

Lemma Before_false t u : Before t u = false <-> instant u <= instant t.
Proof. unfold Before. lia. Qed.

Lemma After_spec t u : After t u = true <-> instant u < instant t.
Proof. unfold After. lia. Qed.

Lemma IsZero_spec t : IsZero t = true <-> instant t = 0.
Proof. unfold IsZero. lia. Qed.

Lemma dur_mul_small a b : - two63 <= a * b < two63 -> dur_mul a b = a * b.
Proof. apply i64_small. Qed.

Lemma dur_add_small a b : - two63 <= a + b < two63 -> dur_add a b = a + b.
Proof. apply i64_small. Qed.
