(* ===== verification/Protocol.v ===== *)
(** * The plugin protocol: observations and presentations

    Models the data and the validation of [src/sdk/protocol]: [types.go],
    [validation.go] (identifiers, timestamps, log text), [lifecycle.go] (instance
    references and execution modes), [presentation.go] and [observations.go].
    The string-typed enumerations of the wire contract are strings here too, so
    unsupported values exist and are rejected where the code rejects them.
    Ranging over a Go map literal has no fixed order; the checks below follow the
    literal's order, which only fixes the order of joined messages. *)

From Stdlib Require Import ZArith Lia ZifyBool.
From S2P Require Import Prelude GoStrings GoTime Identifier.

(** ** [types.go] *)

Definition Version : string := "1.0".
Definition MaxMessageBytes : Z := 1048576.
Definition MaxJSONObjectBytes : Z := 65536.
Definition MaxSessionInputBytes : Z := 16384.
Definition MaxSceneElements : Z := 64.
Definition MaxTextBytes : Z := 512.
Definition MaxBusyTimerDuration : Z := 24 * Hour.

(** ** [validation.go] *)

Definition validateIdentifier (name value : string) : option error :=
  if TrimSpace value =s EmptyString then
    Some (Errorf "%s must not be empty" [EStr name])
  else if 128 <? len value then
    Some (Errorf "%s exceeds 128 bytes" [EStr name])
  else if negb (ValidString value) then
    Some (Errorf "%s must be valid UTF-8" [EStr name])
  else if existsb (fun rn => IsControl rn.1) (runes value) then
    Some (Errorf "%s contains a control character" [EStr name])
  else None.

Definition validateOptionalTimestamp (name : string) (value : Time) : option error :=
  if IsZero value then None
  else if negb (Zone value =? 0) then Some (Errorf "%s must be UTC" [EStr name])
  else None.

Definition validateRequiredTimestamp (name : string) (value : Time) : option error :=
  if IsZero value then Some (Errorf "%s is required" [EStr name])
  else validateOptionalTimestamp name value.

Definition validateLogText (value : string) (maxBytes : Z) : option error :=
  if maxBytes <? len value then Some (Errorf "exceeds %d bytes" [EInt maxBytes])
  else if negb (ValidString value) then errors_New "must be valid UTF-8"
  else if existsb (fun rn => IsControl rn.1 || (rn.1 =? 8232) || (rn.1 =? 8233)) (runes value) then
    errors_New "must not contain control characters"
  else None.

Definition countTrue (values : list bool) : Z :=
  foldr (fun (v : bool) count => if v then count + 1 else count) 0 values.

(** ** [lifecycle.go]: references and execution modes *)

Definition ExecutionModeResident : string := "resident".
Definition ExecutionModeInteractive : string := "interactive".

Record InstanceRef := mkInstanceRef { ref_ID : string; ref_Generation : Z }.

#[export] Instance InstanceRef_eq_dec : EqDecision InstanceRef.
Proof. solve_decision. Defined.

Definition InstanceRef_Validate (ref : InstanceRef) : option error :=
  match validateIdentifier "instance id" (ref_ID ref) with
  | Some err => Some err
  | None =>
    if ref_Generation ref =? 0 then errors_New "instance generation must be greater than zero"
    else None
  end.

(** The body of the loop of [ValidateExecutionModes]: [seen] holds the modes
    already visited. *)
Fixpoint check_modes (seen modes : list string) : list (option error) :=
  match modes with
  | [] => []
  | mode :: modes' =>
    err_if (negb (one_of mode [ExecutionModeResident; ExecutionModeInteractive]))
      (Errorf "unsupported execution mode %q" [EStr mode])
    :: err_if (one_of mode seen) (Errorf "execution mode %q is duplicated" [EStr mode])
    :: check_modes (mode :: seen) modes'
  end.

Definition ValidateExecutionModes (modes : list string) : option error :=
  match modes with
  | [] => errors_New "at least one execution mode is required"
  | _ => errors_Join (check_modes [] modes)
  end.

(** ** [presentation.go]: asset references *)

(** [path.Clean]: one path component against the components kept so far, latest
    first. *)
Definition clean_step (rooted : bool) (out : list string) (component : string) : list string :=
  if one_of component [EmptyString; "."%string] then out
  else if component =s ".." then
    match out with
    | [] => if rooted then [] else [".."%string]
    | d :: out' => if d =s ".." then (".."%string) :: out else out'
    end
  else component :: out.

Definition clean_components (rooted : bool) (path : string) : list string :=
  rev (fold_left (clean_step rooted) (split_byte "/" path) []).

Definition Clean (path : string) : string :=
  if path =s EmptyString then "."%string else
  let rooted := HasPrefix path "/" in
  let body := join_strings "/" (clean_components rooted path) in
  if rooted then String "/" body
  else if body =s EmptyString then "."%string else body.

(** [^[A-Za-z0-9][A-Za-z0-9._/-]*$] *)
Definition relativeAssetPathPattern (s : string) : bool :=
  match s with
  | EmptyString => false
  | String a s' =>
    is_alnum (byte a) && forall_bytes (fun b => is_alnum b || byte_in "._/-" b) s'
  end.

(** [^#[A-Fa-f0-9]{8}$] *)
Definition colorPattern (s : string) : bool :=
  match s with
  | String a s' =>
    (byte a =? 35) && (len s' =? 8)
    && forall_bytes (fun b => between 65 70 b || between 97 102 b || is_digit b) s'
  | EmptyString => false
  end.

(** [^[a-z0-9][a-z0-9_-]{0,54}\.(image|anim|snd)$]: the base cannot contain a dot,
    so the match splits the name at its only dot. *)
Definition stockNamePattern (s : string) : bool :=
  match split_byte "." s with
  | [base; extension] =>
    match_head_tail (fun b => is_lower b || is_digit b)
      (fun b => is_lower b || is_digit b || byte_in "_-" b) 54 base
    && one_of extension ["image"; "anim"; "snd"]%string
  | _ => false
  end.

Record AssetRef := mkAssetRef { asset_PackagePath : string; asset_StockName : string }.

Definition ValidatePackagePath (value : string) : option error :=
  if (255 <? len value) || negb (Clean value =s value) || HasPrefix value "/"
     || contains_byte "\" value || negb (relativeAssetPathPattern value)
  then errors_New "package path must be a canonical package-relative path"
  else None.

Definition AssetRef_Validate (asset : AssetRef) : option error :=
  if Bool.eqb (asset_PackagePath asset =s EmptyString) (asset_StockName asset =s EmptyString) then
    errors_New "asset must contain exactly one of package_path or stock_name"
  else if negb (asset_PackagePath asset =s EmptyString) then
    ValidatePackagePath (asset_PackagePath asset)
  else if negb (stockNamePattern (asset_StockName asset)) then
    errors_New "stock_name must be a safe firmware basename with a supported extension"
  else None.

(** ** [presentation.go]: scenes *)

Definition DisplayFront : string := "front".
Definition DisplayBack : string := "back".

Record Marquee := mkMarquee {
  mq_PixelsPerMinute : Z;
  mq_StartDelayMilliseconds : Z;
  mq_RepeatDelayMilliseconds : Z;
}.

Record TextElement := mkTextElement {
  text_Value : string;
  text_Font : string;
  text_Color : string;
  text_Align : string;
  text_Width : Z;
  text_Marquee : option Marquee;
}.

Record ImageElement := mkImageElement { image_Asset : AssetRef }.

Record AnimationElement := mkAnimationElement {
  animation_Asset : AssetRef;
  animation_Loop : bool;
}.

Record RectangleElement := mkRectangleElement {
  rect_Width : Z;
  rect_Height : Z;
  rect_Color : string;
}.

Definition CountdownShowHoursWhenNonZero : string := "when_non_zero".
Definition CountdownShowHoursAlways : string := "always".

Record CountdownElement := mkCountdownElement {
  countdown_EndsAtUnixSeconds : Z;
  countdown_ShowHours : string;
  countdown_Color : string;
  countdown_Align : string;
}.

Record Element := mkElement {
  elem_ID : string;
  elem_Display : string;
  elem_X : Z;
  elem_Y : Z;
  elem_Text : option TextElement;
  elem_Image : option ImageElement;
  elem_Animation : option AnimationElement;
  elem_Rectangle : option RectangleElement;
  elem_Countdown : option CountdownElement;
}.

Record Scene := mkScene { scene_Elements : list Element }.

Record BusyTimerPresentation := mkBusyTimerPresentation { busy_Theme : string }.

Record AudioCue := mkAudioCue {
  audio_ID : string;
  audio_Asset : AssetRef;
  audio_ExpiresAt : Time;
}.

Definition validFont (value : string) : bool :=
  one_of value ["tiny"; "small"; "normal"; "condensed"; "bold"; "large"; "extra_large"; "global"]%string.

Definition validAlign (value : string) : bool :=
  one_of value [EmptyString; "top_left"; "top_mid"; "top_right"; "mid_left"; "center"; "mid_right";
    "bottom_left"; "bottom_mid"; "bottom_right"]%string.

Definition MaxUint32 : Z := 4294967295.
Definition MaxInt32 : Z := 2147483647.

Definition AudioCue_Validate (audio : AudioCue) (now validUntil : Time) : option error :=
  errors_Join
    ([ validateIdentifier "audio id" (audio_ID audio);
       (match AssetRef_Validate (audio_Asset audio) with
        | Some err => Some err
        | None =>
          if negb (asset_PackagePath (audio_Asset audio) =s EmptyString) then
            errors_New "audio assets must use stock_name in protocol 1.0"
          else if negb (asset_StockName (audio_Asset audio) =s EmptyString)
                  && negb (HasSuffix (asset_StockName (audio_Asset audio)) ".snd") then
            errors_New "audio stock_name must end in .snd"
          else None
        end) ]
     ++ match validateRequiredTimestamp "audio expires_at" (audio_ExpiresAt audio) with
        | Some err => [Some err]
        | None =>
          [ err_if (negb (IsZero now) && negb (After (audio_ExpiresAt audio) now))
              (Errorf "audio expires_at must be in the future" []);
            err_if (negb (IsZero validUntil) && After (audio_ExpiresAt audio) validUntil)
              (Errorf "audio expires_at must not exceed valid_until" []) ]
        end).

(** The checks of one text payload, in order. *)
Definition check_text (text : TextElement) : list (option error) :=
  [ err_if ((MaxTextBytes <? len (text_Value text)) || negb (ValidString (text_Value text)))
      (Errorf "text must be valid UTF-8 no larger than %d bytes" [EInt MaxTextBytes]);
    (match text_Marquee text with
     | Some marquee =>
       err_if (mq_PixelsPerMinute marquee =? 0)
         (Errorf "marquee pixels_per_minute must be greater than zero" [])
     | None => None
     end);
    err_if (negb (validFont (text_Font text)))
      (Errorf "unsupported text font %q" [EStr (text_Font text)]);
    err_if (negb (text_Color text =s EmptyString) && negb (colorPattern (text_Color text)))
      (Errorf "text color must use #RRGGBBAA" []);
    err_if (negb (validAlign (text_Align text)))
      (Errorf "unsupported text align %q" [EStr (text_Align text)]);
    err_if ((text_Width text <? 0) || (MaxUint32 <? u64 (text_Width text)))
      (Errorf "text width must be omitted or fit an unsigned 32-bit integer" []) ].

(** An image or animation asset whose stock name must end in [suffix]. *)
Definition check_media (asset : AssetRef) (suffix message : string) : option error :=
  match AssetRef_Validate asset with
  | Some err => Some err
  | None =>
    err_if (negb (asset_StockName asset =s EmptyString) && negb (HasSuffix (asset_StockName asset) suffix))
      (Errorf message [])
  end.

Definition check_rectangle (rectangle : RectangleElement) : list (option error) :=
  [ err_if ((rect_Width rectangle <=? 0) || (MaxInt32 <? rect_Width rectangle)
            || (rect_Height rectangle <=? 0) || (MaxInt32 <? rect_Height rectangle))
      (Errorf "rectangle width and height must be positive signed 32-bit integers" []);
    err_if (negb (colorPattern (rect_Color rectangle)))
      (Errorf "rectangle color must use #RRGGBBAA" []) ].

Definition check_countdown (countdown : CountdownElement) : list (option error) :=
  [ err_if (countdown_EndsAtUnixSeconds countdown <=? 0)
      (Errorf "countdown ends_at_unix_seconds must be greater than zero" []);
    err_if (negb (countdown_ShowHours countdown =s CountdownShowHoursWhenNonZero)
            && negb (countdown_ShowHours countdown =s CountdownShowHoursAlways))
      (Errorf "unsupported countdown show_hours %q" [EStr (countdown_ShowHours countdown)]);
    err_if (negb (colorPattern (countdown_Color countdown)))
      (Errorf "countdown color must use #RRGGBBAA" []);
    err_if (negb (validAlign (countdown_Align countdown)))
      (Errorf "unsupported countdown align %q" [EStr (countdown_Align countdown)]) ].

Definition display_bounds (display : string) : Z * Z :=
  if display =s DisplayBack then (160, 80) else (72, 16).

Definition is_some {A} (o : option A) : bool := match o with Some _ => true | None => false end.

(** [if p != nil { checks }] *)
Definition on_some {A} (o : option A) (checks : A -> list (option error)) : list (option error) :=
  match o with Some a => checks a | None => [] end.

Definition Element_Validate (element : Element) : option error :=
  errors_Join
    ([ validateIdentifier "element id" (elem_ID element);
       (if negb (elem_Display element =s DisplayFront) && negb (elem_Display element =s DisplayBack) then
          Some (Errorf "unsupported element display %q" [EStr (elem_Display element)])
        else
          let '(width, height) := display_bounds (elem_Display element) in
          err_if ((elem_X element <? 0) || (width <=? elem_X element)
                  || (elem_Y element <? 0) || (height <=? elem_Y element))
            (Errorf "element coordinates must fit the %dx%d %s display"
               [EInt width; EInt height; EStr (elem_Display element)]));
       err_if (negb (countTrue [is_some (elem_Text element); is_some (elem_Image element);
                                is_some (elem_Animation element); is_some (elem_Rectangle element);
                                is_some (elem_Countdown element)] =? 1))
         (Errorf "element must contain exactly one of text, image, animation, rectangle, or countdown" []) ]
     ++ on_some (elem_Text element) check_text
     ++ on_some (elem_Image element) (fun image =>
          [check_media (image_Asset image) ".image" "image stock_name must end in .image"])
     ++ on_some (elem_Animation element) (fun animation =>
          [check_media (animation_Asset animation) ".anim" "animation stock_name must end in .anim"])
     ++ on_some (elem_Rectangle element) check_rectangle
     ++ on_some (elem_Countdown element) check_countdown).

(** The loop of [Scene.Validate]; [ids] are the identities already visited. *)
Fixpoint check_elements (index : Z) (ids : list string) (elements : list Element) : list (option error) :=
  match elements with
  | [] => []
  | element :: elements' =>
    (match Element_Validate element with
     | Some err => Some (Wrapf "scene element %d: %w" [EInt index] err)
     | None => None
     end)
    :: err_if (one_of (elem_ID element) ids)
         (Errorf "scene element id %q is duplicated" [EStr (elem_ID element)])
    :: check_elements (index + 1) (elem_ID element :: ids) elements'
  end.

Definition Scene_Validate (scene : Scene) : option error :=
  let n := Z.of_nat (length (scene_Elements scene)) in
  if (n =? 0) || (MaxSceneElements <? n) then
    Some (Errorf "scene must contain between 1 and %d elements" [EInt MaxSceneElements])
  else errors_Join (check_elements 0 [] (scene_Elements scene)).

(** ** [observations.go] *)

Definition DispositionSnapshot : string := "snapshot".
Definition DispositionNotable : string := "notable".
Definition DispositionActionable : string := "actionable".
Definition DispositionResolved : string := "resolved".

Definition ImpactLow : string := "low".
Definition ImpactNormal : string := "normal".
Definition ImpactNotable : string := "notable".
Definition ImpactCritical : string := "critical".

(** [^[a-z0-9][a-z0-9._-]{0,63}$] *)
Definition reasonCodePattern (s : string) : bool :=
  match_head_tail (fun b => is_lower b || is_digit b)
    (fun b => is_lower b || is_digit b || byte_in "._-" b) 63 s.

(** [^[a-z0-9][a-z0-9_-]{0,63}$] *)
Definition themePattern (s : string) : bool :=
  match_head_tail (fun b => is_lower b || is_digit b)
    (fun b => is_lower b || is_digit b || byte_in "_-" b) 63 s.

Record Observation := mkObservation {
  obs_Instance : InstanceRef;
  obs_Channel : string;
  obs_Key : string;
  obs_Revision : Z;
  obs_Disposition : string;
  obs_Impact : string;
  obs_ReasonCode : string;
  obs_ObservedAt : Time;
  obs_UpdatedAt : Time;
  obs_ValidUntil : Time;
  obs_Scene : option Scene;
  obs_BusyTimer : option BusyTimerPresentation;
  obs_Audio : option AudioCue;
}.

(** The checks common to every disposition. *)
Definition check_observation_common (observation : Observation) : list (option error) :=
  [ InstanceRef_Validate (obs_Instance observation);
    validateIdentifier "channel" (obs_Channel observation);
    validateIdentifier "key" (obs_Key observation);
    err_if (obs_Revision observation =? 0) (Errorf "revision must be greater than zero" []);
    err_if (negb (one_of (obs_Disposition observation)
              [DispositionSnapshot; DispositionNotable; DispositionActionable; DispositionResolved]))
      (Errorf "unsupported disposition %q" [EStr (obs_Disposition observation)]);
    err_if (negb (one_of (obs_Impact observation)
              [ImpactLow; ImpactNormal; ImpactNotable; ImpactCritical]))
      (Errorf "unsupported impact %q" [EStr (obs_Impact observation)]);
    err_if (negb (reasonCodePattern (obs_ReasonCode observation)))
      (Errorf "reason_code must be a safe lowercase identifier of at most 64 bytes" []);
    validateRequiredTimestamp "observed_at" (obs_ObservedAt observation);
    validateRequiredTimestamp "updated_at" (obs_UpdatedAt observation) ].

(** The checks of an unresolved observation. *)
Definition check_observation_live (observation : Observation) (now : Time) : list (option error) :=
  [ (match validateRequiredTimestamp "valid_until" (obs_ValidUntil observation) with
     | Some err => Some err
     | None => err_if (negb (After (obs_ValidUntil observation) now))
                 (Errorf "valid_until must be in the future" [])
     end);
    err_if (Bool.eqb (negb (is_some (obs_Scene observation))) (negb (is_some (obs_BusyTimer observation))))
      (Errorf "unresolved observation must contain exactly one of scene or busy_timer" []) ]
  ++ on_some (obs_Scene observation) (fun scene => [Scene_Validate scene])
  ++ on_some (obs_BusyTimer observation) (fun timer =>
       [ err_if (negb (themePattern (busy_Theme timer)))
           (Errorf "busy_timer theme must be a safe lowercase firmware directory name of at most 64 bytes" []);
         err_if (MaxBusyTimerDuration <? Sub (obs_ValidUntil observation) now)
           (Errorf "busy_timer duration must not exceed 24 hours" []) ])
  ++ on_some (obs_Audio observation) (fun audio =>
       [AudioCue_Validate audio now (obs_ValidUntil observation)]).

Definition Observation_Validate (observation : Observation) (now : Time) : option error :=
  if obs_Disposition observation =s DispositionResolved then
    errors_Join (check_observation_common observation
      ++ [err_if (is_some (obs_Scene observation) || is_some (obs_BusyTimer observation)
                  || is_some (obs_Audio observation))
            (Errorf "resolved observation must not contain a presentation" [])])
  else
    errors_Join (check_observation_common observation ++ check_observation_live observation now).

(** Structural equality of observations, Go's [reflect.DeepEqual]. *)
#[export] Instance AssetRef_eq_dec : EqDecision AssetRef.
Proof. solve_decision. Defined.
#[export] Instance Marquee_eq_dec : EqDecision Marquee.
Proof. solve_decision. Defined.
#[export] Instance TextElement_eq_dec : EqDecision TextElement.
Proof. solve_decision. Defined.
#[export] Instance ImageElement_eq_dec : EqDecision ImageElement.
Proof. solve_decision. Defined.
#[export] Instance AnimationElement_eq_dec : EqDecision AnimationElement.
Proof. solve_decision. Defined.
#[export] Instance RectangleElement_eq_dec : EqDecision RectangleElement.
Proof. solve_decision. Defined.
#[export] Instance CountdownElement_eq_dec : EqDecision CountdownElement.
Proof. solve_decision. Defined.
#[export] Instance Element_eq_dec : EqDecision Element.
Proof. solve_decision. Defined.
#[export] Instance Scene_eq_dec : EqDecision Scene.
Proof. solve_decision. Defined.
#[export] Instance BusyTimerPresentation_eq_dec : EqDecision BusyTimerPresentation.
Proof. solve_decision. Defined.
#[export] Instance AudioCue_eq_dec : EqDecision AudioCue.
Proof. solve_decision. Defined.
#[export] Instance Observation_eq_dec : EqDecision Observation.
Proof. solve_decision. Defined.

(** ** Specification *)

(** A canonical package-relative path: no empty, [.] or [..] component and no root,
    so it cannot name anything outside the package directory. *)
Definition normal_component (c : string) : Prop :=
  c <> EmptyString /\ c <> "."%string /\ c <> ".."%string.

Record CanonicalPath (p : string) : Prop := {
  cp_bounded : len p <= 255;
  cp_components : Forall normal_component (split_byte "/" p);
  cp_class : relativeAssetPathPattern p = true;
}.

Definition ValidAsset (asset : AssetRef) : Prop :=
  (asset_StockName asset = EmptyString /\ CanonicalPath (asset_PackagePath asset))
  \/ (asset_PackagePath asset = EmptyString /\ stockNamePattern (asset_StockName asset) = true).

(** An asset whose stock name, if any, has the suffix of its kind. *)
Definition ValidMedia (suffix : string) (asset : AssetRef) : Prop :=
  ValidAsset asset
  /\ (asset_StockName asset = EmptyString \/ HasSuffix (asset_StockName asset) suffix = true).

(** The tagged union that the five optional fields of [Element] encode. *)
Inductive Payload :=
  | PText (text : TextElement)
  | PImage (image : ImageElement)
  | PAnimation (animation : AnimationElement)
  | PRectangle (rectangle : RectangleElement)
  | PCountdown (countdown : CountdownElement).

Definition payloads (element : Element) : list Payload :=
  option_list (PText <$> elem_Text element)
  ++ option_list (PImage <$> elem_Image element)
  ++ option_list (PAnimation <$> elem_Animation element)
  ++ option_list (PRectangle <$> elem_Rectangle element)
  ++ option_list (PCountdown <$> elem_Countdown element).

Definition ValidPayload (payload : Payload) : Prop :=
  match payload with
  | PText text =>
    len (text_Value text) <= MaxTextBytes /\ ValidString (text_Value text) = true
    /\ (forall marquee, text_Marquee text = Some marquee -> mq_PixelsPerMinute marquee <> 0)
    /\ validFont (text_Font text) = true
    /\ (text_Color text = EmptyString \/ colorPattern (text_Color text) = true)
    /\ validAlign (text_Align text) = true
    /\ 0 <= text_Width text /\ u64 (text_Width text) <= MaxUint32
  | PImage image => ValidMedia ".image" (image_Asset image)
  | PAnimation animation => ValidMedia ".anim" (animation_Asset animation)
  | PRectangle rectangle =>
    0 < rect_Width rectangle <= MaxInt32 /\ 0 < rect_Height rectangle <= MaxInt32
    /\ colorPattern (rect_Color rectangle) = true
  | PCountdown countdown =>
    0 < countdown_EndsAtUnixSeconds countdown
    /\ countdown_ShowHours countdown ∈ [CountdownShowHoursWhenNonZero; CountdownShowHoursAlways]
    /\ colorPattern (countdown_Color countdown) = true
    /\ validAlign (countdown_Align countdown) = true
  end.

(** The canvas of a display, in pixels. *)
Definition on_canvas (display : string) (x y : Z) : Prop :=
  (display = DisplayFront /\ 0 <= x < 72 /\ 0 <= y < 16)
  \/ (display = DisplayBack /\ 0 <= x < 160 /\ 0 <= y < 80).

Record ValidElement (element : Element) : Prop := {
  ve_id : ValidIdentifier (elem_ID element);
  ve_canvas : on_canvas (elem_Display element) (elem_X element) (elem_Y element);
  ve_payload : exists payload, payloads element = [payload] /\ ValidPayload payload;
}.

Record ValidScene (scene : Scene) : Prop := {
  vs_count : 1 <= Z.of_nat (length (scene_Elements scene)) <= MaxSceneElements;
  vs_elements : Forall ValidElement (scene_Elements scene);
  vs_ids : NoDup (map elem_ID (scene_Elements scene));
}.

Definition required_UTC (t : Time) : Prop := IsZero t = false /\ Zone t = 0.

Record ValidAudio (audio : AudioCue) (now validUntil : Time) : Prop := {
  va_id : ValidIdentifier (audio_ID audio);
  va_stock : asset_PackagePath (audio_Asset audio) = EmptyString
             /\ stockNamePattern (asset_StockName (audio_Asset audio)) = true
             /\ HasSuffix (asset_StockName (audio_Asset audio)) ".snd" = true;
  va_expiry : required_UTC (audio_ExpiresAt audio);
  va_future : IsZero now = true \/ After (audio_ExpiresAt audio) now = true;
  va_bounded : IsZero validUntil = true \/ After (audio_ExpiresAt audio) validUntil = false;
}.

Record ValidCommon (observation : Observation) : Prop := {
  vc_instance : ValidIdentifier (ref_ID (obs_Instance observation))
                /\ ref_Generation (obs_Instance observation) <> 0;
  vc_channel : ValidIdentifier (obs_Channel observation);
  vc_key : ValidIdentifier (obs_Key observation);
  vc_revision : obs_Revision observation <> 0;
  vc_disposition : obs_Disposition observation
    ∈ [DispositionSnapshot; DispositionNotable; DispositionActionable; DispositionResolved];
  vc_impact : obs_Impact observation ∈ [ImpactLow; ImpactNormal; ImpactNotable; ImpactCritical];
  vc_reason : reasonCodePattern (obs_ReasonCode observation) = true;
  vc_observed : required_UTC (obs_ObservedAt observation);
  vc_updated : required_UTC (obs_UpdatedAt observation);
}.

(** The presentation of an observation that is not resolved. *)
Record ValidLive (observation : Observation) (now : Time) : Prop := {
  vl_until : required_UTC (obs_ValidUntil observation);
  vl_future : After (obs_ValidUntil observation) now = true;
  vl_shown : (exists scene, obs_Scene observation = Some scene /\ obs_BusyTimer observation = None
               /\ ValidScene scene)
             \/ (exists timer, obs_Scene observation = None /\ obs_BusyTimer observation = Some timer
                 /\ themePattern (busy_Theme timer) = true
                 /\ Sub (obs_ValidUntil observation) now <= MaxBusyTimerDuration);
  vl_audio : forall audio, obs_Audio observation = Some audio ->
             ValidAudio audio now (obs_ValidUntil observation);
}.

Definition ValidObservation (observation : Observation) (now : Time) : Prop :=
  ValidCommon observation
  /\ (if decide (obs_Disposition observation = DispositionResolved)
      then obs_Scene observation = None /\ obs_BusyTimer observation = None
           /\ obs_Audio observation = None
      else ValidLive observation now).

(** ** Lemmas *)

Lemma validateIdentifier_eq name value :
  match validateIdentifier name value, Validate name value with
  | Some _, Some _ | None, None => True
  | _, _ => False
  end.
Proof. unfold validateIdentifier, Validate, MaxBytes. repeat case_if; exact I. Qed.

Lemma validateIdentifier_None name value :
  validateIdentifier name value = None <-> ValidIdentifier value.
Proof.
  rewrite <- (Validate_None name). pose proof (validateIdentifier_eq name value).
  destruct (validateIdentifier name value), (Validate name value); done.
Qed.

Lemma required_timestamp_None name t : validateRequiredTimestamp name t = None <-> required_UTC t.
Proof.
  unfold validateRequiredTimestamp, validateOptionalTimestamp, required_UTC.
  destruct (IsZero t), (Zone t =? 0) eqn:E; simpl; split; try done; lia.
Qed.

Lemma InstanceRef_Validate_None ref :
  InstanceRef_Validate ref = None <-> ValidIdentifier (ref_ID ref) /\ ref_Generation ref <> 0.
Proof.
  unfold InstanceRef_Validate. rewrite <- (validateIdentifier_None "instance id").
  destruct (validateIdentifier _ _); [by split; [|intros [? _]]|].
  destruct (Z.eqb_spec (ref_Generation ref) 0); [split; [done|naive_solver]|split; done].
Qed.

(** *** Canonical paths *)

(** What [clean_step] keeps: only [..] may be an abnormal component, and only below
    every other one. *)
Definition clean_out (out : list string) : Prop :=
  Forall (fun c => c <> EmptyString /\ c <> "."%string) out
  /\ (".."%string ∈ out -> last out = Some ".."%string).

Lemma clean_step_out c out : clean_out out -> clean_out (clean_step false out c).
Proof.
  intros [Hall Hlast]. unfold clean_step.
  destruct (one_of c [EmptyString; "."%string]) eqn:Hdot; [done|].
  assert (Hc : c <> EmptyString /\ c <> "."%string).
  { split; intros ->; discriminate Hdot. }
  destruct (String.eqb_spec c "..") as [->|Hne].
  - destruct out as [|d out]; [split; [by repeat constructor|done]|].
    destruct (String.eqb_spec d "..") as [->|Hd].
    + split; [by constructor|]. intros _. specialize (Hlast ltac:(left)).
      by destruct out.
    + apply Forall_cons in Hall as [_ Hall]. split; [done|].
      intros Hin. specialize (Hlast ltac:(by right)). by destruct out; [inversion Hin|].
  - split; [by constructor|].
    intros [Heq|Hin]%elem_of_cons; [congruence|]. specialize (Hlast Hin).
    by destruct out; [inversion Hin|].
Qed.

Lemma clean_components_out comps out :
  clean_out out -> clean_out (fold_left (clean_step false) comps out).
Proof.
  revert out. induction comps as [|c comps IH]; intros out Hout; simpl; [done|].
  by apply IH, clean_step_out.
Qed.

(** Normal components are kept as they are. *)
Lemma clean_normal comps out :
  Forall normal_component comps -> fold_left (clean_step false) comps out = rev comps ++ out.
Proof.
  revert out. induction comps as [|c comps IH]; intros out Hall; [done|]. simpl.
  apply Forall_cons in Hall as [(H1 & H2 & H3) Hall].
  unfold clean_step at 2. unfold one_of, existsb.
  apply String.eqb_neq in H1, H2, H3. rewrite H1, H2, H3. simpl.
  rewrite IH by done. by rewrite <- app_assoc.
Qed.

Lemma split_byte_pieces c s :
  Forall (fun p => forall_bytes (fun b => negb (b =? byte c)) p = true) (split_byte c s).
Proof.
  induction s as [|a s IH]; simpl; [by repeat constructor|].
  destruct (Ascii.eqb_spec a c) as [->|Hne]; [by constructor|].
  destruct (split_byte c s) as [|p ps]; [repeat constructor|];
    [|inversion IH; subst; constructor; [|done]]; simpl.
  - rewrite andb_true_r, negb_true_iff, Z.eqb_neq. intros H. by apply Hne, byte_inj.
  - apply andb_true_iff. split; [|done].
    rewrite negb_true_iff, Z.eqb_neq. intros H'. by apply Hne, byte_inj.
Qed.

Lemma clean_step_subset c out (P : string -> Prop) :
  P ".."%string -> P c -> Forall P out -> Forall P (clean_step false out c).
Proof.
  intros Hdd Hc Hout. unfold clean_step.
  destruct (one_of c _), (c =s ".."); [done..| |by constructor].
  destruct out as [|d out]; [by repeat constructor|].
  destruct (d =s ".."); [by constructor|]. by apply Forall_cons in Hout as [_ ?].
Qed.

Lemma clean_subset comps out (P : string -> Prop) :
  P ".."%string -> Forall P comps -> Forall P out -> Forall P (fold_left (clean_step false) comps out).
Proof.
  intros Hdd. revert out. induction comps as [|c comps IH]; intros out Hc Hout; simpl; [done|].
  apply Forall_cons in Hc as [Hc Hcs]. by apply IH, clean_step_subset.
Qed.

Lemma rooted_head s : HasPrefix s "/" = true -> relativeAssetPathPattern s = false.
Proof.
  destruct s as [|a s]; [done|]. simpl. destruct (Ascii.eqb_spec a "/") as [->|]; [done|].
  by destruct s.
Qed.

Lemma dot_head p ps :
  p = "."%string \/ p = ".."%string ->
  relativeAssetPathPattern (join_strings "/" (p :: ps)) = false.
Proof. intros [-> | ->]; by destruct ps. Qed.

(** A clean path that starts with a letter or digit has only normal components. *)
Lemma Clean_normal p :
  Clean p = p -> relativeAssetPathPattern p = true -> Forall normal_component (split_byte "/" p).
Proof.
  intros Hclean Hpat. unfold Clean in Hclean.
  destruct (p =s EmptyString) eqn:He; [apply String.eqb_eq in He; by subst|].
  destruct (HasPrefix p "/") eqn:Hroot; [by rewrite rooted_head in Hpat|].
  unfold clean_components in Hclean. set (out := fold_left _ _ _) in Hclean.
  assert (Hout : clean_out out) by (apply clean_components_out; split; [constructor|by intros ?%elem_of_nil]).
  assert (Hslash : Forall (fun q => forall_bytes (fun b => negb (b =? 47)) q = true) (rev out)).
  { apply Forall_rev, clean_subset; [done|exact (split_byte_pieces "/" p)|constructor]. }
  assert (Hjoin : join_strings "/" (rev out) = p).
  { destruct (_ =s EmptyString) in Hclean; [by rewrite <- Hclean in Hpat|done]. }
  destruct (decide (rev out = [])) as [Hnil|Hne]; [by rewrite <- Hjoin, Hnil in Hpat|].
  assert (Hsplit : split_byte "/" p = rev out) by (rewrite <- Hjoin; by apply split_join).
  rewrite Hsplit. destruct Hout as [Hnd Hlast]. apply Forall_rev in Hnd.
  destruct (decide (".."%string ∈ out)) as [Hin|Hnin].
  - exfalso. apply Hlast in Hin. apply last_Some in Hin as [out' Hin].
    rewrite Hin, rev_app_distr in Hjoin.
    change (join_strings "/" (".."%string :: rev out') = p) in Hjoin.
    rewrite <- Hjoin, dot_head in Hpat; [done|by right].
  - apply Forall_forall. intros c Hc. rewrite Forall_forall in Hnd.
    destruct (Hnd _ Hc) as [H1 H2]. repeat split; [done..|].
    intros ->. apply Hnin. apply list_elem_of_In. apply in_rev. by apply list_elem_of_In.
Qed.

Lemma normal_Clean p :
  relativeAssetPathPattern p = true -> Forall normal_component (split_byte "/" p) -> Clean p = p.
Proof.
  intros Hpat Hall. unfold Clean.
  destruct (p =s EmptyString) eqn:He; [apply String.eqb_eq in He; by subst|].
  destruct (HasPrefix p "/") eqn:Hroot; [by rewrite rooted_head in Hpat|].
  unfold clean_components. rewrite clean_normal, app_nil_r, rev_involutive, join_split by done.
  by rewrite He.
Qed.

Lemma pattern_no_backslash p : relativeAssetPathPattern p = true -> contains_byte "\" p = false.
Proof.
  unfold contains_byte. rewrite negb_false_iff. destruct p as [|a p]; [done|].
  simpl. intros [Ha Hp]%andb_true_iff. apply andb_true_iff. split.
  - destruct (Z.eqb_spec (byte a) (byte "\")) as [E|]; [by rewrite E in Ha|done].
  - clear Ha. induction p as [|b p IH]; [done|]. simpl in *.
    apply andb_true_iff in Hp as [Hb Hp]. rewrite (IH Hp), andb_true_r.
    destruct (Z.eqb_spec (byte b) (byte "\")) as [E|]; [by rewrite E in Hb|done].
Qed.

Lemma ValidatePackagePath_None value : ValidatePackagePath value = None <-> CanonicalPath value.
Proof.
  unfold ValidatePackagePath. split.
  - destruct (_ || _ || _ || _ || _) eqn:Hc; [done|]. intros _. errs.
    destruct Hc as [[[[Hlen Hclean] Hroot] Hback] Hpat].
    split; [done|by apply Clean_normal|done].
  - intros [Hlen Hcomps Hpat].
    rewrite normal_Clean, String.eqb_refl, Hpat, pattern_no_backslash by done.
    destruct (HasPrefix value "/") eqn:Hroot; [by rewrite rooted_head in Hpat|].
    by rewrite (proj2 (Z.ltb_ge _ _) Hlen).
Qed.

Lemma AssetRef_Validate_None asset : AssetRef_Validate asset = None <-> ValidAsset asset.
Proof.
  unfold AssetRef_Validate, ValidAsset.
  destruct (String.eqb_spec (asset_PackagePath asset) EmptyString) as [Hp|Hp],
    (String.eqb_spec (asset_StockName asset) EmptyString) as [Hs|Hs]; simpl.
  - rewrite Hp, Hs. split; [done|]. intros [[_ [_ _ Hpat]]|[_ Hst]]; done.
  - destruct (stockNamePattern _); simpl; naive_solver.
  - rewrite ValidatePackagePath_None. naive_solver.
  - naive_solver.
Qed.

(** *** Scenes *)

Lemma check_media_None asset suffix message :
  check_media asset suffix message = None <-> ValidMedia suffix asset.
Proof.
  unfold check_media, ValidMedia. rewrite <- AssetRef_Validate_None.
  destruct (AssetRef_Validate asset); [naive_solver|].
  rewrite err_if_None. errs. naive_solver.
Qed.

Lemma check_text_None text : all_nil (check_text text) <-> ValidPayload (PText text).
Proof.
  unfold check_text. simpl.
  assert (Hm : (match text_Marquee text with
                | Some marquee => err_if (mq_PixelsPerMinute marquee =? 0)
                    (Errorf "marquee pixels_per_minute must be greater than zero" [])
                | None => None end) = None
      <-> forall marquee, text_Marquee text = Some marquee -> mq_PixelsPerMinute marquee <> 0).
  { destruct (text_Marquee text); [|naive_solver]. rewrite err_if_None. errs. naive_solver. }
  errs. tauto.
Qed.

Lemma check_rectangle_None r : all_nil (check_rectangle r) <-> ValidPayload (PRectangle r).
Proof. unfold check_rectangle. simpl. errs. intuition lia. Qed.

Lemma check_countdown_None c : all_nil (check_countdown c) <-> ValidPayload (PCountdown c).
Proof.
  unfold check_countdown. simpl. errs.
  rewrite elem_of_cons, list_elem_of_singleton. intuition lia.
Qed.

Lemma canvas_None display x y :
  (if negb (display =s DisplayFront) && negb (display =s DisplayBack) then
     Some (Errorf "unsupported element display %q" [EStr display])
   else
     let '(width, height) := display_bounds display in
     err_if ((x <? 0) || (width <=? x) || (y <? 0) || (height <=? y))
       (Errorf "element coordinates must fit the %dx%d %s display"
          [EInt width; EInt height; EStr display])) = None
  <-> on_canvas display x y.
Proof.
  unfold on_canvas, display_bounds.
  destruct (String.eqb_spec display DisplayFront) as [->|Hf]; simpl.
  - rewrite err_if_None. errs. split; [left; split; [done|lia]|].
    intros [(_ & ? & ?)|[H ?]]; [lia|discriminate H].
  - destruct (String.eqb_spec display DisplayBack) as [->|Hb]; simpl.
    + rewrite err_if_None. errs. split; [right; split; [done|lia]|].
      intros [[? _]|(_ & ? & ?)]; [done|lia].
    + naive_solver.
Qed.

(** The nested checks are those of the payloads present. *)
Lemma on_some_payload {A} (o : option A) (checks : A -> list (option error)) (mk : A -> Payload) :
  (forall a, all_nil (checks a) <-> ValidPayload (mk a)) ->
  all_nil (on_some o checks) <-> Forall ValidPayload (option_list (mk <$> o)).
Proof.
  intros H. destruct o as [a|]; simpl; [|by rewrite all_nil_nil, Forall_nil].
  by rewrite H, Forall_singleton.
Qed.

Lemma count_payloads element :
  countTrue [is_some (elem_Text element); is_some (elem_Image element);
             is_some (elem_Animation element); is_some (elem_Rectangle element);
             is_some (elem_Countdown element)] = Z.of_nat (length (payloads element)).
Proof.
  unfold payloads. by destruct (elem_Text element), (elem_Image element), (elem_Animation element),
    (elem_Rectangle element), (elem_Countdown element).
Qed.

Lemma singleton_Forall {A} (P : A -> Prop) (l : list A) :
  (length l = 1%nat /\ Forall P l) <-> exists x, l = [x] /\ P x.
Proof.
  split.
  - intros [H1 H2]. destruct l as [|x [|y l]]; try discriminate H1.
    exists x. split; [done|]. by inversion H2.
  - intros (x & -> & Hx). by repeat constructor.
Qed.

Lemma Element_Validate_None element : Element_Validate element = None <-> ValidElement element.
Proof.
  assert (Hspec : ValidElement element <->
    ValidIdentifier (elem_ID element) /\ on_canvas (elem_Display element) (elem_X element) (elem_Y element)
    /\ exists payload, payloads element = [payload] /\ ValidPayload payload).
  { split; [by intros [? ? ?]|by intros (? & ? & ?)]. }
  rewrite Hspec, <- singleton_Forall. unfold Element_Validate.
  rewrite errors_Join_None, !all_nil_app, !all_nil_cons, validateIdentifier_None, canvas_None,
    all_nil_nil, count_payloads, err_if_None, negb_false_iff, Z.eqb_eq.
  rewrite (on_some_payload _ _ PText), (on_some_payload _ _ PImage), (on_some_payload _ _ PAnimation),
    (on_some_payload _ _ PRectangle), (on_some_payload _ _ PCountdown).
  - unfold payloads at 3. rewrite !Forall_app.
    assert (Hlen : Z.of_nat (length (payloads element)) = 1 <-> length (payloads element) = 1%nat) by lia.
    rewrite Hlen. tauto.
  - apply check_countdown_None.
  - apply check_rectangle_None.
  - intros a. rewrite all_nil_cons, all_nil_nil, check_media_None. simpl. tauto.
  - intros i. rewrite all_nil_cons, all_nil_nil, check_media_None. simpl. tauto.
  - apply check_text_None.
Qed.

Lemma check_elements_None index ids elements :
  all_nil (check_elements index ids elements) <->
  Forall ValidElement elements /\ NoDup (map elem_ID elements)
  /\ Forall (fun e => elem_ID e ∉ ids) elements.
Proof.
  revert index ids. induction elements as [|e es IH]; intros index ids; simpl.
  - rewrite all_nil_nil. repeat split; intros; constructor.
  - rewrite !all_nil_cons, IH, err_if_None, NoDup_cons, !Forall_cons, <- Element_Validate_None.
    rewrite <- not_true_iff_false, one_of_spec.
    assert (Hids : Forall (fun e' => elem_ID e' ∉ elem_ID e :: ids) es
                   <-> elem_ID e ∉ map elem_ID es /\ Forall (fun e' => elem_ID e' ∉ ids) es).
    { rewrite !Forall_forall, list_elem_of_fmap. setoid_rewrite not_elem_of_cons. split.
      - intros H. split; [|naive_solver]. intros (e' & Heq & Hin).
        destruct (H _ Hin); congruence.
      - intros [H1 H2] e' Hin. split; [|by apply H2]. intros Heq. apply H1.
        by exists e'. }
    rewrite Hids. destruct (Element_Validate e); naive_solver.
Qed.

Lemma Scene_Validate_None scene : Scene_Validate scene = None <-> ValidScene scene.
Proof.
  unfold Scene_Validate. split.
  - destruct ((_ =? 0) || _) eqn:Hn; [done|].
    rewrite errors_Join_None, check_elements_None. intros (He & Hd & _).
    split; [unfold MaxSceneElements in *; lia|done|done].
  - intros [Hn He Hd]. unfold MaxSceneElements in *.
    destruct ((_ =? 0) || _) eqn:E; [lia|].
    apply errors_Join_None, check_elements_None. repeat split; [done..|].
    apply Forall_forall. intros ? _. apply not_elem_of_nil.
Qed.

(** *** Observations *)

Lemma audio_asset_None asset :
  match AssetRef_Validate asset with
  | Some err => Some err
  | None =>
    if negb (asset_PackagePath asset =s EmptyString) then
      errors_New "audio assets must use stock_name in protocol 1.0"
    else if negb (asset_StockName asset =s EmptyString) && negb (HasSuffix (asset_StockName asset) ".snd")
    then errors_New "audio stock_name must end in .snd"
    else None
  end = None
  <-> asset_PackagePath asset = EmptyString /\ stockNamePattern (asset_StockName asset) = true
      /\ HasSuffix (asset_StockName asset) ".snd" = true.
Proof.
  pose proof (AssetRef_Validate_None asset) as Hv. unfold ValidAsset in Hv.
  destruct (AssetRef_Validate asset); [naive_solver|].
  destruct (proj1 Hv eq_refl) as [[Hs [_ _ Hpat]]|[Hp Hst]]; clear Hv.
  - destruct (String.eqb_spec (asset_PackagePath asset) EmptyString) as [E|E]; [by rewrite E in Hpat|].
    simpl. naive_solver.
  - rewrite Hp, Hst. simpl.
    destruct (String.eqb_spec (asset_StockName asset) EmptyString) as [E|E]; [by rewrite E in Hst|].
    destruct (HasSuffix _ _); naive_solver.
Qed.

Lemma AudioCue_Validate_None audio now validUntil :
  AudioCue_Validate audio now validUntil = None <-> ValidAudio audio now validUntil.
Proof.
  unfold AudioCue_Validate.
  rewrite errors_Join_None, all_nil_app, !all_nil_cons, all_nil_nil, validateIdentifier_None, audio_asset_None.
  pose proof (required_timestamp_None "audio expires_at" (audio_ExpiresAt audio)) as Ht.
  destruct (validateRequiredTimestamp _ _).
  - rewrite all_nil_cons. split; [intros (_ & ? & _); done|].
    intros [_ _ He _ _]. by apply Ht in He.
  - errs. split.
    + intros ((? & ? & _) & ? & ? & _). split; [done|done|by apply Ht|tauto|tauto].
    + intros [? ? ? ? ?]. tauto.
Qed.

Lemma check_common_None observation :
  all_nil (check_observation_common observation) <-> ValidCommon observation.
Proof.
  unfold check_observation_common.
  rewrite !all_nil_cons, all_nil_nil, InstanceRef_Validate_None, !validateIdentifier_None,
    !required_timestamp_None.
  errs. split.
  - intros ([? ?] & ? & ? & ? & ? & ? & ? & ? & ? & _). by constructor.
  - intros [[? ?] ? ? ? ? ? ? ? ?]. tauto.
Qed.

Lemma check_live_None observation now :
  all_nil (check_observation_live observation now) <-> ValidLive observation now.
Proof.
  unfold check_observation_live. rewrite !all_nil_app, !all_nil_cons, all_nil_nil.
  pose proof (required_timestamp_None "valid_until" (obs_ValidUntil observation)) as Ht.
  destruct (validateRequiredTimestamp _ _) as [e|];
    [split; [by intros [[? _] _]|intros [Hu _ _ _]; by apply Ht in Hu]|].
  rewrite !err_if_None, negb_false_iff.
  assert (Ha : all_nil (on_some (obs_Audio observation)
                 (fun audio => [AudioCue_Validate audio now (obs_ValidUntil observation)]))
               <-> forall audio, obs_Audio observation = Some audio ->
                   ValidAudio audio now (obs_ValidUntil observation)).
  { destruct (obs_Audio observation); simpl; rewrite ?all_nil_cons, all_nil_nil; [|naive_solver].
    rewrite AudioCue_Validate_None. naive_solver. }
  rewrite Ha.
  assert (Hl : ValidLive observation now <->
    required_UTC (obs_ValidUntil observation) /\ After (obs_ValidUntil observation) now = true
    /\ ((exists scene, obs_Scene observation = Some scene /\ obs_BusyTimer observation = None
           /\ ValidScene scene)
        \/ (exists timer, obs_Scene observation = None /\ obs_BusyTimer observation = Some timer
           /\ themePattern (busy_Theme timer) = true
           /\ Sub (obs_ValidUntil observation) now <= MaxBusyTimerDuration))
    /\ forall audio, obs_Audio observation = Some audio ->
       ValidAudio audio now (obs_ValidUntil observation)).
  { split; [by intros []|by intros (? & ? & ? & ?)]. }
  rewrite Hl. clear Ha Hl.
  destruct (obs_Scene observation) as [s|], (obs_BusyTimer observation) as [t|]; simpl;
    rewrite ?all_nil_cons, ?all_nil_nil, ?err_if_None, ?negb_false_iff, ?Z.ltb_ge, ?Scene_Validate_None;
    naive_solver.
Qed.

Lemma Observation_Validate_None observation now :
  Observation_Validate observation now = None <-> ValidObservation observation now.
Proof.
  unfold Observation_Validate, ValidObservation.
  destruct (String.eqb_spec (obs_Disposition observation) DispositionResolved) as [E|E];
    (case_decide; [|]; try done); rewrite errors_Join_None, all_nil_app, check_common_None.
  - rewrite all_nil_cons, all_nil_nil, err_if_None. apply and_iff_compat_l.
    destruct (obs_Scene observation), (obs_BusyTimer observation), (obs_Audio observation); simpl; naive_solver.
  - by rewrite check_live_None.
Qed.

(** ** Properties *)

(** The SDK's [validateIdentifier] and the daemon's [identifier.Validate] accept
    the same strings, so an identifier a plugin may send is one the daemon may key
    its maps with. *)
Theorem validateIdentifier_agrees name name' value :
  validateIdentifier name value = None <-> Identifier.Validate name' value = None.
Proof. by rewrite validateIdentifier_None, Validate_None. Qed.

(** [ValidatePackagePath] accepts exactly the bounded relative paths whose
    components are all proper names: no accepted path has an empty, [.] or [..]
    component, so none escapes the package root. *)
Theorem ValidatePackagePath_canonical value :
  ValidatePackagePath value = None <-> CanonicalPath value.
Proof. apply ValidatePackagePath_None. Qed.

(** [Element.Validate] accepts an element exactly when its identifier is valid,
    it lies on its display, and its five optional payload fields hold exactly one
    payload, which is valid for its kind. *)
Theorem Element_Validate_iff element :
  Element_Validate element = None <-> ValidElement element.
Proof. apply Element_Validate_None. Qed.

(** [Observation.Validate] returns no error exactly for the observations of the
    specification: valid identity and timestamps, and, unless resolved, a future UTC
    expiry, exactly one of a valid scene (1 to 64 valid elements with distinct ids)
    or a bounded busy timer, and a valid audio cue if there is one. *)
Theorem Observation_Validate_iff observation now :
  Observation_Validate observation now = None <-> ValidObservation observation now.
Proof. apply Observation_Validate_None. Qed.
