(* ===== verification/Presentation.v ===== *)
(** * Presentation: candidates and the display arbiter

    Models [src/internal/presentation/model.go], [policy.go] and [arbiter.go]: the
    semantic bands, one plugin channel's display offer ([Candidate]) with its
    derived hold, cooldown and priority, its validation, and the arbiter [Select]
    that picks the winner among the candidates. *)

From Stdlib Require Import ZArith Lia ZifyBool.
From S2P Require Import Prelude GoStrings GoTime Identifier Protocol.

(** ** [model.go]: policies and bands *)

Definition PolicyAttention : string := "attention".
Definition PolicyInteractive : string := "interactive".
Definition PolicyWhenRelevant : string := "when_relevant".
Definition PolicyRotation : string := "rotation".

Definition BandCriticalActionable : string := "critical_actionable".
Definition BandInteractive : string := "interactive".
Definition BandActionable : string := "actionable".
Definition BandRelevant : string := "relevant".
Definition BandRotation : string := "rotation".

Definition BandFor (policy impact : string) : string :=
  if policy =s PolicyAttention then
    if impact =s ImpactCritical then BandCriticalActionable else BandActionable
  else if policy =s PolicyInteractive then BandInteractive
  else if policy =s PolicyWhenRelevant then BandRelevant
  else if policy =s PolicyRotation then BandRotation
  else EmptyString.

Definition comparePriority (left right : Z) : Z :=
  if left <? right then -1 else if right <? left then 1 else 0.

Definition bandPriority (band : string) : Z :=
  if band =s BandCriticalActionable then 5
  else if band =s BandInteractive then 4
  else if band =s BandActionable then 3
  else if band =s BandRelevant then 2
  else if band =s BandRotation then 1
  else 0.

Definition impactPriority (impact : string) : Z :=
  if impact =s ImpactCritical then 4
  else if impact =s ImpactNotable then 3
  else if impact =s ImpactNormal then 2
  else if impact =s ImpactLow then 1
  else 0.

Definition CompareBand (left right : string) : Z :=
  comparePriority (bandPriority left) (bandPriority right).

Definition CompareImpact (left right : string) : Z :=
  comparePriority (impactPriority left) (impactPriority right).

(** ** Resolved presentations *)

Record ResolvedElement := mkResolvedElement { resolved_Element : Element; resolved_Path : string }.

Record ResolvedScene := mkResolvedScene { resolved_Elements : list ResolvedElement }.

Definition ResolveScene (scene : Scene) : ResolvedScene :=
  mkResolvedScene (map (fun element => mkResolvedElement element EmptyString) (scene_Elements scene)).

Record ResolvedAudioCue := mkResolvedAudioCue { resolved_Cue : AudioCue; resolved_CuePath : string }.

Definition ResolveAudioCue (cue : AudioCue) : ResolvedAudioCue := mkResolvedAudioCue cue EmptyString.

(** ** [policy.go] *)

Record PolicyConfig := mkPolicyConfig {
  pc_Policy : string;
  pc_DevicePriority : Z;
  pc_HoldMS : Z;
  pc_CooldownMS : Z;
  pc_RequiresAck : bool;
  pc_ActivationInput : string;
  pc_ActivationAction : string;
  pc_RotationIntervalMS : Z;
  pc_RotationJitterPercent : Z;
}.

(** ** Candidates *)

Record Candidate := mkCandidate {
  cand_PluginID : string;
  cand_InstanceID : string;
  cand_Channel : string;
  cand_Key : string;
  cand_Revision : Z;
  cand_Generation : Z;
  cand_Policy : string;
  cand_Band : string;
  cand_Impact : string;
  cand_AdmissionSequence : Z;
  cand_Reason : string;
  cand_CreatedAt : Time;
  cand_UpdatedAt : Time;
  cand_ExpiresAt : Time;
  cand_HoldMS : Z;
  cand_CooldownMS : Z;
  cand_RequiresAck : bool;
  cand_Acknowledged : bool;
  cand_DevicePriority : Z;
  cand_Scene : Scene;
  cand_BusyTimer : option BusyTimerPresentation;
  cand_AudioCue : option AudioCue;
}.

Record Identity := mkIdentity {
  id_PluginID : string;
  id_InstanceID : string;
  id_Channel : string;
  id_Key : string;
}.

#[export] Instance Identity_eq_dec : EqDecision Identity.
Proof. solve_decision. Defined.

#[export] Instance Identity_countable : Countable Identity.
Proof.
  apply (inj_countable'
    (fun i => (id_PluginID i, id_InstanceID i, id_Channel i, id_Key i))
    (fun '(p, i, c, k) => mkIdentity p i c k)).
  by intros [].
Defined.

Definition Identity_String (i : Identity) : string :=
  (Encode [id_PluginID i; id_InstanceID i; id_Channel i; id_Key i]).1.

Definition Candidate_Identity (c : Candidate) : Identity :=
  mkIdentity (cand_PluginID c) (cand_InstanceID c) (cand_Channel c) (cand_Key c).

Definition Candidate_ID (c : Candidate) : string := Identity_String (Candidate_Identity c).

Definition Hold (c : Candidate) : Z :=
  if 0 <? cand_HoldMS c then dur_mul (cand_HoldMS c) Millisecond
  else if one_of (cand_Policy c) [PolicyAttention; PolicyRotation] then 8 * Second
  else if cand_Policy c =s PolicyWhenRelevant then 6 * Second
  else 0.

Definition Cooldown (c : Candidate) : Z :=
  if 0 <? cand_CooldownMS c then dur_mul (cand_CooldownMS c) Millisecond
  else if cand_Policy c =s PolicyAttention then 30 * Second
  else if cand_Policy c =s PolicyWhenRelevant then 60 * Second
  else 0.

Definition EffectiveDevicePriority (c : Candidate) : Z :=
  if (1 <=? cand_DevicePriority c) && (cand_DevicePriority c <=? 100) then cand_DevicePriority c
  else if one_of (cand_Policy c) [PolicyAttention; PolicyInteractive] then 100
  else if cand_Policy c =s PolicyWhenRelevant then 60
  else if cand_Policy c =s PolicyRotation then 20
  else 0.

Definition Eligible (c : Candidate) (now : Time) : bool :=
  if negb (IsZero (cand_ExpiresAt c)) && negb (Before now (cand_ExpiresAt c)) then false
  else if (cand_Policy c =s PolicyAttention) && cand_RequiresAck c && cand_Acknowledged c then false
  else true.

(** [^[a-z0-9][a-z0-9_-]{0,63}$], the pattern of [protocol] under another name. *)
Definition busyTimerThemePattern (s : string) : bool :=
  match_head_tail (fun b => is_lower b || is_digit b)
    (fun b => is_lower b || is_digit b || byte_in "_-" b) 63 s.

Definition Candidate_Validate (c : Candidate) : option error :=
  let validPolicy := one_of (cand_Policy c)
    [PolicyAttention; PolicyInteractive; PolicyWhenRelevant; PolicyRotation] in
  let validBand := one_of (cand_Band c)
    [BandCriticalActionable; BandInteractive; BandActionable; BandRelevant; BandRotation] in
  let validImpact := one_of (cand_Impact c) [ImpactLow; ImpactNormal; ImpactNotable; ImpactCritical] in
  let hasScene := negb (Z.of_nat (length (scene_Elements (cand_Scene c))) =? 0) in
  let hasBusyTimer := is_some (cand_BusyTimer c) in
  errors_Join
    ([ Validate "plugin_id" (cand_PluginID c);
       Validate "instance_id" (cand_InstanceID c);
       Validate "channel" (cand_Channel c);
       Validate "key" (cand_Key c);
       err_if (negb validPolicy) (Errorf "unsupported policy %q" [EStr (cand_Policy c)]);
       err_if (negb validBand) (Errorf "unsupported presentation band %q" [EStr (cand_Band c)]);
       err_if (negb validImpact) (Errorf "unsupported impact %q" [EStr (cand_Impact c)]);
       err_if (validPolicy && validBand && validImpact
               && negb (cand_Band c =s BandFor (cand_Policy c) (cand_Impact c)))
         (Errorf "presentation band %q does not match policy %q and impact %q; want %q"
            [EStr (cand_Band c); EStr (cand_Policy c); EStr (cand_Impact c);
             EStr (BandFor (cand_Policy c) (cand_Impact c))]);
       err_if (cand_Revision c =? 0) (Errorf "revision must be greater than zero" []);
       err_if (cand_Generation c =? 0) (Errorf "generation must be greater than zero" []);
       err_if (cand_AdmissionSequence c =? 0)
         (Errorf "admission_sequence must be greater than zero" []);
       err_if ((cand_DevicePriority c <? 0) || (100 <? cand_DevicePriority c))
         (Errorf "device_priority must be between 1 and 100 when set" []);
       err_if ((cand_HoldMS c <? 0) || (cand_CooldownMS c <? 0))
         (Errorf "hold_ms and cooldown_ms must not be negative" []);
       err_if (Bool.eqb hasScene hasBusyTimer)
         (Errorf "candidate must contain exactly one of scene or busy_timer" []) ]
     ++ on_some (cand_BusyTimer c) (fun timer =>
          [err_if (negb (busyTimerThemePattern (busy_Theme timer)))
             (Errorf "busy_timer theme must be a safe lowercase identifier of at most 64 bytes" [])])
     ++ (if hasScene then [Scene_Validate (cand_Scene c)] else [])
     ++ on_some (cand_AudioCue c) (fun cue =>
          [AudioCue_Validate cue (cand_UpdatedAt c) (cand_ExpiresAt c)])).

(** ** [arbiter.go] *)

Record History := mkHistory {
  CurrentID : string;
  CurrentSince : Time;
  LastShown : gmap string Time;
}.

(** Reading a missing key of a Go map gives the zero value. *)
Definition last_shown (history : History) (id : string) : Time :=
  default zero_time (LastShown history !! id).

Record Decision := mkDecision { decided : option Candidate }.

Fixpoint findEligible (candidates : list Candidate) (id : string) (now : Time) : option Candidate :=
  match candidates with
  | [] => None
  | candidate :: candidates' =>
    if (Candidate_ID candidate =s id) && Eligible candidate now then Some candidate
    else findEligible candidates' id now
  end.

Definition better (a b : Candidate) : bool :=
  let band := CompareBand (cand_Band a) (cand_Band b) in
  if negb (band =? 0) then 0 <? band else
  let impact := CompareImpact (cand_Impact a) (cand_Impact b) in
  if negb (impact =? 0) then 0 <? impact else
  if negb (cand_AdmissionSequence a =? cand_AdmissionSequence b) then
    cand_AdmissionSequence a <? cand_AdmissionSequence b
  else cmp_strings (Candidate_ID a) (Candidate_ID b) <? 0.

Definition mayInterrupt (next current : Candidate) : bool :=
  let order := CompareBand (cand_Band next) (cand_Band current) in
  if negb (order =? 0) then 0 <? order
  else (cand_Band next =s BandActionable)
       && (0 <? CompareImpact (cand_Impact next) (cand_Impact current)).

(** The comparison passed to [slices.SortStableFunc]. *)
Definition compare_better (left right : Candidate) : Z :=
  if better left right then -1 else if better right left then 1 else 0.

(** The candidates that reach the sort: eligible, and current or out of their
    cooldown. *)
Definition in_cooldown (history : History) (now : Time) (candidate : Candidate) : bool :=
  let lastShown := last_shown history (Candidate_ID candidate) in
  negb (Candidate_ID candidate =s CurrentID history) && negb (IsZero lastShown)
  && Before now (Add lastShown (Cooldown candidate)).

Definition competes (history : History) (now : Time) (candidate : Candidate) : bool :=
  Eligible candidate now && negb (in_cooldown history now candidate).

Definition Select (candidates : list Candidate) (history : History) (now : Time) : Decision :=
  let current := findEligible candidates (CurrentID history) now in
  let eligible := List.filter (competes history now) candidates in
  match SortFunc compare_better eligible with
  | [] => mkDecision None
  | winner :: _ =>
    match current with
    | Some cur =>
      if Before now (Add (CurrentSince history) (Hold cur)) && negb (mayInterrupt winner cur)
      then mkDecision (Some cur) else mkDecision (Some winner)
    | None => mkDecision (Some winner)
    end
  end.

(** ** Specification of the arbiter

    What the rest of the daemon relies on, as a class: any selection function with
    these laws can replace [Select] in the attention engine. *)

Class Arbiter (select : list Candidate -> History -> Time -> Decision) : Prop := {
  (** The winner competes. *)
  arbiter_competes candidates history now w :
    decided (select candidates history now) = Some w ->
    w ∈ candidates /\ competes history now w = true;
  (** There is a winner as soon as something competes. *)
  arbiter_total candidates history now c :
    c ∈ candidates -> competes history now c = true ->
    decided (select candidates history now) <> None;
  (** A competitor better than the winner is kept out only by the hold of the
      current candidate, which it may not interrupt. *)
  arbiter_best candidates history now w c :
    decided (select candidates history now) = Some w ->
    c ∈ candidates -> competes history now c = true -> better c w = true ->
    Candidate_ID w = CurrentID history /\ Before now (Add (CurrentSince history) (Hold w)) = true
    /\ mayInterrupt c w = false;
}.

(** ** Lemmas *)

(** *** Identities *)

Lemma Identity_String_inj i j : Identity_String i = Identity_String j -> i = j.
Proof.
  intros H. apply Encode_inj in H; [|done..].
  destruct i, j. simpl in H. congruence.
Qed.

#[export] Instance Identity_String_Inj : Inj (=) (=) Identity_String.
Proof. exact Identity_String_inj. Qed.

Lemma Candidate_ID_Identity a b : Candidate_ID a = Candidate_ID b <-> Candidate_Identity a = Candidate_Identity b.
Proof. unfold Candidate_ID. split; [apply Identity_String_inj|congruence]. Qed.

(** *** The order [better] *)

Lemma comparePriority_spec l r :
  (comparePriority l r = -1 /\ l < r) \/ (comparePriority l r = 0 /\ l = r)
  \/ (comparePriority l r = 1 /\ r < l).
Proof. unfold comparePriority. repeat case_if; lia. Qed.

(** [better] is the lexicographic order on band, impact, admission and identity. *)
Definition ranks_below (a b : Candidate) : Prop :=
  bandPriority (cand_Band b) < bandPriority (cand_Band a)
  \/ (bandPriority (cand_Band b) = bandPriority (cand_Band a)
      /\ (impactPriority (cand_Impact b) < impactPriority (cand_Impact a)
          \/ (impactPriority (cand_Impact b) = impactPriority (cand_Impact a)
              /\ (cand_AdmissionSequence a < cand_AdmissionSequence b
                  \/ (cand_AdmissionSequence a = cand_AdmissionSequence b
                      /\ cmp_strings (Candidate_ID a) (Candidate_ID b) < 0))))).

Lemma better_spec a b : better a b = true <-> ranks_below a b.
Proof.
  unfold better, CompareBand, CompareImpact, ranks_below.
  destruct (comparePriority_spec (bandPriority (cand_Band a)) (bandPriority (cand_Band b)))
    as [[-> ?]|[[-> ?]|[-> ?]]]; simpl; [lia| |lia].
  destruct (comparePriority_spec (impactPriority (cand_Impact a)) (impactPriority (cand_Impact b)))
    as [[-> ?]|[[-> ?]|[-> ?]]]; simpl; [lia| |lia].
  destruct (Z.eqb_spec (cand_AdmissionSequence a) (cand_AdmissionSequence b)); simpl; lia.
Qed.

Lemma better_asym a b : better a b = true -> better b a = false.
Proof.
  intros H. apply not_true_iff_false. revert H. rewrite !better_spec. unfold ranks_below.
  rewrite (cmp_strings_antisym (Candidate_ID a) (Candidate_ID b)). lia.
Qed.

Lemma better_irrefl a : better a a = false.
Proof. destruct (better a a) eqn:H; [|done]. by rewrite (better_asym _ _ H) in H. Qed.

Lemma better_trans a b c : better a b = true -> better b c = true -> better a c = true.
Proof.
  rewrite !better_spec. unfold ranks_below.
  pose proof (cmp_strings_lt_trans (Candidate_ID a) (Candidate_ID b) (Candidate_ID c)). lia.
Qed.

(** Candidates that do not outrank each other are the same observation. *)
Lemma better_total a b : better a b = false -> better b a = false -> Candidate_ID a = Candidate_ID b.
Proof.
  rewrite <- !not_true_iff_false, !better_spec. unfold ranks_below. intros H1 H2.
  apply cmp_strings_eq.
  pose proof (cmp_strings_antisym (Candidate_ID a) (Candidate_ID b)). lia.
Qed.

Lemma not_better_trans a b c : better b a = false -> better c b = false -> better c a = false.
Proof.
  rewrite <- !not_true_iff_false, !better_spec. unfold ranks_below.
  pose proof (cmp_strings_le_trans (Candidate_ID a) (Candidate_ID b) (Candidate_ID c)). lia.
Qed.

Lemma not_after_better a b : not_after compare_better a b <-> better b a = false.
Proof.
  unfold not_after, compare_better.
  destruct (better b a); [|destruct (better a b)]; (split; [intros|intros ?]); done || lia.
Qed.

Lemma compare_better_asym x y : compare_better x y < 0 -> ~ compare_better y x < 0.
Proof.
  unfold compare_better. intros H.
  destruct (better x y) eqn:Hx; [rewrite (better_asym _ _ Hx)|destruct (better y x)]; lia.
Qed.

Lemma sorted_by_better l : StronglySorted (not_after compare_better) (SortFunc compare_better l).
Proof.
  apply SortFunc_sorted; [apply compare_better_asym|].
  intros x y z. rewrite !not_after_better. apply not_better_trans.
Qed.

(** The head of the sorted list is one of its elements and nothing outranks it. *)
Lemma sort_head l w ws :
  SortFunc compare_better l = w :: ws -> w ∈ l /\ forall c, c ∈ l -> better c w = false.
Proof.
  intros Hs. assert (Hin : forall c, c ∈ l <-> c ∈ w :: ws).
  { intros c. by rewrite <- Hs, elem_of_SortFunc. }
  split; [apply Hin; by left|]. intros c Hc.
  pose proof (sorted_by_better l) as Hsorted. rewrite Hs in Hsorted.
  apply StronglySorted_inv in Hsorted as [_ Hle]. rewrite Forall_forall in Hle.
  apply Hin, elem_of_cons in Hc as [->|Hc]; [apply better_irrefl|].
  by apply not_after_better, Hle.
Qed.

(** *** [findEligible] *)

Lemma findEligible_Some candidates id now c :
  findEligible candidates id now = Some c ->
  c ∈ candidates /\ Candidate_ID c = id /\ Eligible c now = true.
Proof.
  induction candidates as [|d ds IH]; simpl; [done|].
  destruct (_ && _) eqn:E; [intros [= <-]|].
  - errs. split; [by left|done].
  - intros H. destruct (IH H) as (? & ? & ?). split; [by right|done].
Qed.

Lemma findEligible_None candidates id now :
  findEligible candidates id now = None ->
  forall c, c ∈ candidates -> Candidate_ID c = id -> Eligible c now = false.
Proof.
  induction candidates as [|d ds IH]; simpl; intros Hf c Hc Hid; [by apply elem_of_nil in Hc|].
  destruct (_ && _) eqn:E in Hf; [done|].
  apply elem_of_cons in Hc as [->|Hc]; [|by apply IH].
  rewrite Hid, String.eqb_refl in E. done.
Qed.

Lemma competes_current history now c :
  Candidate_ID c = CurrentID history -> Eligible c now = true -> competes history now c = true.
Proof. intros Hid He. unfold competes, in_cooldown. by rewrite He, Hid, String.eqb_refl. Qed.

Lemma elem_of_List_filter {A} (f : A -> bool) (l : list A) (x : A) :
  x ∈ List.filter f l <-> x ∈ l /\ f x = true.
Proof. rewrite !list_elem_of_In. apply filter_In. Qed.

(** *** [Select] *)

Lemma Select_cases candidates history now :
  let ready := List.filter (competes history now) candidates in
  match decided (Select candidates history now) with
  | None => ready = []
  | Some w =>
    exists head, head ∈ ready /\ (forall c, c ∈ ready -> better c head = false)
    /\ (w = head
        \/ (findEligible candidates (CurrentID history) now = Some w
            /\ Before now (Add (CurrentSince history) (Hold w)) = true
            /\ mayInterrupt head w = false))
    /\ (forall cur, findEligible candidates (CurrentID history) now = Some cur ->
        Before now (Add (CurrentSince history) (Hold cur)) = true ->
        mayInterrupt head cur = false -> w = cur)
    /\ (forall cur, findEligible candidates (CurrentID history) now = Some cur ->
        mayInterrupt head cur = true -> w = head)
  end.
Proof.
  cbv zeta. unfold Select.
  destruct (SortFunc compare_better _) as [|h hs] eqn:Hs.
  - simpl. apply (f_equal length) in Hs. rewrite length_SortFunc in Hs. by apply nil_length_inv.
  - apply sort_head in Hs as [Hh Hbest].
    destruct (findEligible candidates (CurrentID history) now) as [cur|] eqn:Hcur.
    + destruct (Before now (Add (CurrentSince history) (Hold cur))) eqn:Hb,
        (mayInterrupt h cur) eqn:Hm; simpl; exists h; (split; [done|]); (split; [done|]);
        (split; [tauto|]); split; intros ? [= <-]; congruence.
    + simpl. exists h. split; [done|]. split; [done|]. split; [by left|]. by split.
Qed.

Lemma findEligible_competes candidates history now cur :
  findEligible candidates (CurrentID history) now = Some cur ->
  cur ∈ List.filter (competes history now) candidates.
Proof.
  intros (Hin & Hid & He)%findEligible_Some. apply elem_of_List_filter.
  split; [done|by apply competes_current].
Qed.

Lemma bandPriority_actionable band : bandPriority band = 3 -> band = BandActionable.
Proof.
  unfold bandPriority. repeat (case_if; [try done|]); [|done].
  intros _. by apply String.eqb_eq.
Qed.

(** An interrupting competitor is at most outranked by another interrupting one. *)
Lemma mayInterrupt_mono h c cur :
  better c h = false -> mayInterrupt c cur = true -> mayInterrupt h cur = true.
Proof.
  rewrite <- not_true_iff_false, better_spec. unfold ranks_below, mayInterrupt, CompareBand, CompareImpact.
  intros Hb Hm.
  destruct (comparePriority_spec (bandPriority (cand_Band c)) (bandPriority (cand_Band cur)))
    as [[E1 L1]|[[E1 L1]|[E1 L1]]]; rewrite E1 in Hm; simpl in Hm; [done| |];
  destruct (comparePriority_spec (bandPriority (cand_Band h)) (bandPriority (cand_Band cur)))
    as [[E2 L2]|[[E2 L2]|[E2 L2]]]; rewrite E2; simpl; try done; try lia.
  apply andb_true_iff in Hm as [Hact Himp].
  destruct (comparePriority_spec (impactPriority (cand_Impact c)) (impactPriority (cand_Impact cur))) as [[E3 L3]|[[E3 L3]|[E3 L3]]];
    rewrite E3 in Himp; simpl in Himp; try done.
  apply String.eqb_eq in Hact. apply andb_true_iff. split.
  - apply String.eqb_eq, bandPriority_actionable. rewrite L2, <- L1, Hact. done.
  - destruct (comparePriority_spec (impactPriority (cand_Impact h)) (impactPriority (cand_Impact cur))) as [[E4 L4]|[[E4 L4]|[E4 L4]]];
      rewrite E4; simpl; lia.
Qed.

#[export] Instance Select_Arbiter : Arbiter Select.
Proof.
  split.
  - intros candidates history now w Hw. pose proof (Select_cases candidates history now) as H.
    cbv zeta in H. rewrite Hw in H. destruct H as (h & Hh & _ & Hor & _).
    apply elem_of_List_filter. destruct Hor as [->|(Hf & _)]; [done|by apply findEligible_competes].
  - intros candidates history now c Hc Hcomp Hnone.
    pose proof (Select_cases candidates history now) as H. cbv zeta in H. rewrite Hnone in H.
    assert (Hin : c ∈ List.filter (competes history now) candidates) by (by apply elem_of_List_filter).
    rewrite H in Hin. by apply elem_of_nil in Hin.
  - intros candidates history now w c Hw Hc Hcomp Hbetter.
    pose proof (Select_cases candidates history now) as H. cbv zeta in H. rewrite Hw in H.
    destruct H as (h & _ & Hbest & Hor & _).
    destruct Hor as [->|(Hf & Hb & Hm)].
    + rewrite Hbest in Hbetter; [done|by apply elem_of_List_filter].
    + apply findEligible_Some in Hf as (_ & Hid & _). split_and!; [done|done|]. apply not_true_iff_false. intros Hc'.
      apply not_true_iff_false in Hm. apply Hm. eapply mayInterrupt_mono; [|exact Hc']. by apply Hbest, elem_of_List_filter.
Qed.

(** *** Order independence *)

Lemma Permutation_filter_bool {A} (f : A -> bool) (l1 l2 : list A) :
  l1 ≡ₚ l2 -> List.filter f l1 ≡ₚ List.filter f l2.
Proof.
  induction 1 as [|x l1 l2 H IH|x y l|l1 l2 l3 H1 IH1 H2 IH2]; simpl; [done| | |by etrans].
  - destruct (f x); by rewrite IH.
  - destruct (f x), (f y); try done. constructor.
Qed.

Lemma findEligible_perm l1 l2 id now :
  l1 ≡ₚ l2 -> NoDup (map Candidate_ID l1) -> findEligible l1 id now = findEligible l2 id now.
Proof.
  intros Hp Hnd.
  assert (Huniq : forall a b, a ∈ l1 -> b ∈ l1 -> Candidate_ID a = Candidate_ID b -> a = b).
  { intros a b. by apply NoDup_map_inj. }
  destruct (findEligible l1 id now) as [a|] eqn:H1, (findEligible l2 id now) as [b|] eqn:H2; try done.
  - apply findEligible_Some in H1 as (Ha & Hia & _), H2 as (Hb & Hib & _).
    rewrite <- Hp in Hb. f_equal. apply Huniq; congruence.
  - apply findEligible_Some in H1 as (Ha & Hia & He). rewrite Hp in Ha.
    by rewrite (findEligible_None _ _ _ H2 a Ha Hia) in He.
  - apply findEligible_Some in H2 as (Hb & Hib & He). rewrite <- Hp in Hb.
    by rewrite (findEligible_None _ _ _ H1 b Hb Hib) in He.
Qed.


(** *** Valid candidates *)

Record ValidCandidate (c : Candidate) : Prop := {
  vcd_ids : Forall ValidIdentifier [cand_PluginID c; cand_InstanceID c; cand_Channel c; cand_Key c];
  vcd_policy : cand_Policy c ∈ [PolicyAttention; PolicyInteractive; PolicyWhenRelevant; PolicyRotation];
  vcd_impact : cand_Impact c ∈ [ImpactLow; ImpactNormal; ImpactNotable; ImpactCritical];
  vcd_band : cand_Band c = BandFor (cand_Policy c) (cand_Impact c);
  vcd_revision : cand_Revision c <> 0;
  vcd_generation : cand_Generation c <> 0;
  vcd_admission : cand_AdmissionSequence c <> 0;
  vcd_priority : 0 <= cand_DevicePriority c <= 100;
  vcd_times : 0 <= cand_HoldMS c /\ 0 <= cand_CooldownMS c;
  vcd_shown : (ValidScene (cand_Scene c) /\ cand_BusyTimer c = None)
              \/ (exists timer, scene_Elements (cand_Scene c) = [] /\ cand_BusyTimer c = Some timer
                  /\ busyTimerThemePattern (busy_Theme timer) = true);
  vcd_audio : forall cue, cand_AudioCue c = Some cue ->
              ValidAudio cue (cand_UpdatedAt c) (cand_ExpiresAt c);
}.

Lemma BandFor_supported policy impact :
  policy ∈ [PolicyAttention; PolicyInteractive; PolicyWhenRelevant; PolicyRotation] ->
  one_of (BandFor policy impact)
    [BandCriticalActionable; BandInteractive; BandActionable; BandRelevant; BandRotation] = true.
Proof.
  intros Hp. repeat (apply elem_of_cons in Hp as [->|Hp]); [| | | |by apply elem_of_nil in Hp];
    try reflexivity. unfold BandFor. simpl. by destruct (impact =s ImpactCritical).
Qed.

Lemma candidate_shown_None c :
  let hasScene := negb (Z.of_nat (length (scene_Elements (cand_Scene c))) =? 0) in
  (Bool.eqb hasScene (is_some (cand_BusyTimer c)) = false
   /\ all_nil (on_some (cand_BusyTimer c) (fun timer =>
        [err_if (negb (busyTimerThemePattern (busy_Theme timer)))
           (Errorf "busy_timer theme must be a safe lowercase identifier of at most 64 bytes" [])]))
   /\ all_nil (if hasScene then [Scene_Validate (cand_Scene c)] else []))
  <-> (ValidScene (cand_Scene c) /\ cand_BusyTimer c = None)
      \/ (exists timer, scene_Elements (cand_Scene c) = [] /\ cand_BusyTimer c = Some timer
          /\ busyTimerThemePattern (busy_Theme timer) = true).
Proof.
  cbv zeta. destruct (cand_Scene c) as [[|e es]] eqn:Hs; simpl scene_Elements; simpl length.
  - change (negb (Z.of_nat 0 =? 0)) with false. rewrite all_nil_nil.
    assert (Hns : ~ ValidScene (mkScene [])) by (intros [H _ _]; simpl in H; lia).
    destruct (cand_BusyTimer c); simpl; rewrite ?all_nil_cons, ?all_nil_nil, ?err_if_None, ?negb_false_iff;
      naive_solver.
  - replace (negb (Z.of_nat (S (length es)) =? 0)) with true by lia.
    rewrite all_nil_cons, all_nil_nil, Scene_Validate_None.
    destruct (cand_BusyTimer c); simpl; rewrite ?all_nil_cons, ?all_nil_nil; naive_solver.
Qed.

Lemma Candidate_Validate_None c : Candidate_Validate c = None <-> ValidCandidate c.
Proof.
  unfold Candidate_Validate. rewrite errors_Join_None, !all_nil_app, !all_nil_cons, !Validate_None, all_nil_nil.
  pose proof (candidate_shown_None c) as Hshown. cbv zeta in Hshown.
  assert (Ha : all_nil (on_some (cand_AudioCue c)
                 (fun cue => [AudioCue_Validate cue (cand_UpdatedAt c) (cand_ExpiresAt c)]))
               <-> forall cue, cand_AudioCue c = Some cue -> ValidAudio cue (cand_UpdatedAt c) (cand_ExpiresAt c)).
  { destruct (cand_AudioCue c); simpl; rewrite ?all_nil_cons, all_nil_nil; [|naive_solver].
    rewrite AudioCue_Validate_None. naive_solver. }
  rewrite Ha. pose proof (BandFor_supported (cand_Policy c) (cand_Impact c)) as Hband.
  split.
  - intros ((? & ? & ? & ? & Hp & Hb & Hi & Hm & H1 & H2 & H3 & H4 & H5 & H6 & _) & ? & ? & ?).
    apply err_if_None in Hp, Hb, Hi, Hm, H1, H2, H3, H4, H5, H6.
    apply negb_false_iff in Hp, Hb, Hi. rewrite Hp, Hb, Hi in Hm. simpl in Hm.
    apply negb_false_iff, String.eqb_eq in Hm. apply one_of_spec in Hp, Hi.
    split; try done; try lia; [by rewrite !Forall_cons|by apply Hshown].
  - intros [Hids Hp Hi Hb ? ? ? ? ? Hs ?].
    apply Hshown in Hs as (? & ? & ?). repeat (apply Forall_cons in Hids as [? Hids]).
    rewrite Hb, String.eqb_refl, andb_false_r, (Hband Hp).
    rewrite (proj2 (one_of_spec _ _) Hp), (proj2 (one_of_spec _ _) Hi).
    split_and!; try done; apply err_if_None; (done || lia).
Qed.

(** ** Properties *)

(** Two candidates have the same string identity exactly when plugin, instance,
    channel and key all agree: the string keys of history, acknowledgements and
    cooldowns never confuse two observations. *)
Theorem Candidate_ID_identifies a b :
  Candidate_ID a = Candidate_ID b <->
  cand_PluginID a = cand_PluginID b /\ cand_InstanceID a = cand_InstanceID b
  /\ cand_Channel a = cand_Channel b /\ cand_Key a = cand_Key b.
Proof.
  rewrite Candidate_ID_Identity. unfold Candidate_Identity. split; [by intros [=]|].
  by intros (-> & -> & -> & ->).
Qed.

(** [better] is a strict total order on observations: irreflexive, transitive,
    and two candidates neither of which is better than the other are the same
    observation. *)
Theorem better_strict_total_order a b c :
  better a a = false
  /\ (better a b = true -> better b c = true -> better a c = true)
  /\ (better a b = false -> better b a = false -> Candidate_ID a = Candidate_ID b).
Proof. split; [apply better_irrefl|]. split; [apply better_trans|apply better_total]. Qed.

(** C14: the arbiter obeys its contract: the winner is one of the competing
    candidates, there is one whenever a candidate competes, and only the hold of
    the current candidate can keep a better competitor out. *)
Theorem Select_refines_Arbiter : Arbiter Select.
Proof. exact Select_Arbiter. Qed.

(** The hold rule is exact. During the hold of a still eligible current candidate,
    the winner is the current candidate if no competitor may interrupt it, and
    otherwise a competitor that may interrupt it and that no competitor outranks. *)
Theorem Select_hold_rule candidates history now cur :
  findEligible candidates (CurrentID history) now = Some cur ->
  Before now (Add (CurrentSince history) (Hold cur)) = true ->
  exists w, decided (Select candidates history now) = Some w
  /\ ((forall c, c ∈ candidates -> competes history now c = true -> mayInterrupt c cur = false) -> w = cur)
  /\ (forall c, c ∈ candidates -> competes history now c = true -> mayInterrupt c cur = true ->
      mayInterrupt w cur = true
      /\ forall d, d ∈ candidates -> competes history now d = true -> better d w = false).
Proof.
  intros Hcur Hhold. pose proof (Select_cases candidates history now) as H. cbv zeta in H.
  pose proof (findEligible_competes _ _ _ _ Hcur) as Hready.
  destruct (decided _) as [w|]; [|rewrite H in Hready; by apply elem_of_nil in Hready].
  destruct H as (h & Hh & Hbest & _ & Hheld & Hint). exists w. split; [done|].
  assert (Hbest' : forall d, d ∈ candidates -> competes history now d = true -> better d h = false).
  { intros d Hd Hc. by apply Hbest, elem_of_List_filter. }
  apply elem_of_List_filter in Hh as [Hh Hhc]. split.
  - intros Hnone. by apply Hheld, Hnone.
  - intros c Hc Hcc Hm. assert (Hhm : mayInterrupt h cur = true).
    { eapply mayInterrupt_mono; [|exact Hm]. by apply Hbest'. }
    by rewrite (Hint cur Hcur Hhm).
Qed.

(** The decision does not depend on the order in which candidates are listed. *)
Theorem Select_order_independent l1 l2 history now :
  l1 ≡ₚ l2 -> NoDup (map Candidate_ID l1) ->
  decided (Select l1 history now) = decided (Select l2 history now).
Proof.
  intros Hp Hnd. unfold Select. rewrite (findEligible_perm l1 l2) by done.
  rewrite (SortFunc_unique compare_better compare_better_asym
    (fun x y z Hxy Hyz => proj2 (not_after_better x z)
       (not_better_trans x y z (proj1 (not_after_better x y) Hxy) (proj1 (not_after_better y z) Hyz)))
    (List.filter (competes history now) l1) (List.filter (competes history now) l2)).
  - done.
  - by apply Permutation_filter_bool.
  - intros x y [Hx _]%elem_of_List_filter [Hy _]%elem_of_List_filter.
    rewrite !not_after_better. intros H1 H2. apply (NoDup_map_inj Candidate_ID l1); [done..|].
    by apply better_total.
Qed.

(** [Candidate.Validate] accepts exactly the candidates with valid identifiers,
    supported policy and impact, the band those two determine, positive revision,
    generation and admission, bounded priority and times, and exactly one valid
    presentation. *)
Theorem Candidate_Validate_iff c : Candidate_Validate c = None <-> ValidCandidate c.
Proof. apply Candidate_Validate_None. Qed.

(** ** Witnesses *)

Definition demo_candidate (key policy band impact : string) (admission : Z) : Candidate :=
  mkCandidate "dev.bsbctl.test" "test" "main" key 1 1 policy band impact admission EmptyString
    zero_time zero_time zero_time 0 0 false false 0 (mkScene []) None None.

Definition demo_interactive : Candidate :=
  demo_candidate "session" PolicyInteractive BandInteractive ImpactLow 4.
Definition demo_relevant : Candidate :=
  demo_candidate "relevant" PolicyWhenRelevant BandRelevant ImpactNotable 2.
Definition demo_critical : Candidate :=
  demo_candidate "critical" PolicyAttention BandCriticalActionable ImpactCritical 5.

Definition demo_history : History :=
  mkHistory (Candidate_ID demo_relevant) (mkTime 1000 0) ∅.

Lemma Select_hold_rule_witness :
  exists w, decided (Select [demo_relevant; demo_interactive] demo_history (mkTime 2000 0)) = Some w.
Proof.
  destruct (Select_hold_rule [demo_relevant; demo_interactive] demo_history (mkTime 2000 0) demo_relevant)
    as (w & Hw & _); [reflexivity|reflexivity|].
  exists w. exact Hw.
Defined.

Lemma Select_order_independent_witness :
  decided (Select [demo_relevant; demo_critical] demo_history (mkTime 2000 0))
  = decided (Select [demo_critical; demo_relevant] demo_history (mkTime 2000 0)).
Proof.
  apply (Select_order_independent [demo_relevant; demo_critical] [demo_critical; demo_relevant]).
  - constructor.
  - apply NoDup_cons. split; [|apply NoDup_singleton].
    intros H. apply list_elem_of_singleton in H. discriminate H.
Defined.
