(* ===== verification/ObservationStore.v ===== *)
(** * The observation store

    Models [src/internal/observation/store.go]: the latest unresolved observation
    of each identity, the exclusion watermarks that keep dismissed revisions out of
    arbitration, expiry, and the capacity limits. Every exported method runs under
    one mutex, so each is one function from the store to the store and its results;
    [now] and the generation lookup, which the code reads before taking the lock,
    are arguments. The one-slot [changes] channel is the flag [store_signal]. *)

From Stdlib Require Import ZArith Lia ZifyBool.
From S2P Require Import Prelude GoStrings GoTime Identifier Protocol Presentation.

(** ** State *)

Definition ErrStaleRevision : error := Errorf "observation revision is stale" [].
Definition ErrStaleGeneration : error := Errorf "observation generation is stale" [].
Definition ErrNotFound : error := Errorf "observation not found" [].
Definition ErrCapacity : error := Errorf "observation capacity exceeded" [].

Definition globalCapacity : Z := 2048.
Definition pluginCapacity : Z := 512.
Definition pluginInstanceCapacity : Z := 256.
Definition pluginInstanceChannelCapacity : Z := 128.
Definition CapacityRejectionCode : string := "observation_capacity".

Record StoreDiagnostics := mkStoreDiagnostics {
  diag_LiveCount : Z;
  diag_CapacityRejections : Z;
  diag_LastRejectionAt : Time;
  diag_LastRejectionCode : string;
}.

(** [Generation(pluginID, instanceID)]: the current generation, if the instance
    exists. *)
Definition Generation : Type := string -> string -> option Z.

Record Source := mkSource { src_PluginID : string; src_Generation : Z }.

(** Go's [Record]. *)
Record ObservationRecord := mkRecord {
  rec_PluginID : string;
  rec_Generation : Z;
  rec_AdmissionSequence : Z;
  rec_Observation : Observation;
}.

Record exclusionKey := mkExclusionKey { ek_identity : Identity; ek_generation : Z }.
Record exclusionState := mkExclusionState { es_through : Z; es_reserved : Z }.

#[export] Instance exclusionKey_eq_dec : EqDecision exclusionKey.
Proof. solve_decision. Defined.
#[export] Instance exclusionKey_countable : Countable exclusionKey.
Proof.
  apply (inj_countable' (fun k => (ek_identity k, ek_generation k)) (fun '(i, g) => mkExclusionKey i g)).
  by intros [].
Defined.

Definition Record_Identity (r : ObservationRecord) : Identity :=
  mkIdentity (rec_PluginID r) (ref_ID (obs_Instance (rec_Observation r)))
    (obs_Channel (rec_Observation r)) (obs_Key (rec_Observation r)).

Definition Record_ID (r : ObservationRecord) : string := Identity_String (Record_Identity r).

Record Store := mkStore {
  store_records : gmap Identity ObservationRecord;
  store_watermarks : gmap exclusionKey exclusionState;
  store_signal : bool;
  store_sequence : Z;
  store_rejections : Z;
  store_rejectedAt : Time;
  store_rejected : string;
}.

Definition NewStore : Store := mkStore ∅ ∅ false 0 0 zero_time EmptyString.

Definition set_records (records : gmap Identity ObservationRecord) (s : Store) : Store :=
  mkStore records (store_watermarks s) (store_signal s) (store_sequence s) (store_rejections s)
    (store_rejectedAt s) (store_rejected s).

Definition set_watermarks (watermarks : gmap exclusionKey exclusionState) (s : Store) : Store :=
  mkStore (store_records s) watermarks (store_signal s) (store_sequence s) (store_rejections s)
    (store_rejectedAt s) (store_rejected s).

(** [s.sequence++] *)
Definition bump (s : Store) : Store :=
  mkStore (store_records s) (store_watermarks s) (store_signal s) (u64_succ (store_sequence s))
    (store_rejections s) (store_rejectedAt s) (store_rejected s).

(** A non-blocking send on the one-slot channel. *)
Definition notify (s : Store) : Store :=
  mkStore (store_records s) (store_watermarks s) true (store_sequence s) (store_rejections s)
    (store_rejectedAt s) (store_rejected s).

Definition notify_if (cond : bool) (s : Store) : Store := if cond then notify s else s.
Definition bump_if (cond : bool) (s : Store) : Store := if cond then bump s else s.

Definition reject (now : Time) (s : Store) : Store :=
  mkStore (store_records s) (store_watermarks s) (store_signal s) (store_sequence s)
    (u64_succ (store_rejections s)) (UTC now) CapacityRejectionCode.

(** ** Helpers *)

(** The pointer fields are copied one by one; values cannot alias here, so the
    copy is the value. *)
Definition cloneElement (element : Element) : Element :=
  mkElement (elem_ID element) (elem_Display element) (elem_X element) (elem_Y element)
    ((fun text => mkTextElement (text_Value text) (text_Font text) (text_Color text) (text_Align text)
        (text_Width text)
        ((fun q => mkMarquee (mq_PixelsPerMinute q) (mq_StartDelayMilliseconds q)
            (mq_RepeatDelayMilliseconds q)) <$> text_Marquee text)) <$> elem_Text element)
    ((fun i => mkImageElement (image_Asset i)) <$> elem_Image element)
    ((fun a => mkAnimationElement (animation_Asset a) (animation_Loop a)) <$> elem_Animation element)
    ((fun r => mkRectangleElement (rect_Width r) (rect_Height r) (rect_Color r)) <$> elem_Rectangle element)
    ((fun c => mkCountdownElement (countdown_EndsAtUnixSeconds c) (countdown_ShowHours c)
        (countdown_Color c) (countdown_Align c)) <$> elem_Countdown element).

Definition cloneObservation (value : Observation) : Observation :=
  mkObservation (obs_Instance value) (obs_Channel value) (obs_Key value) (obs_Revision value)
    (obs_Disposition value) (obs_Impact value) (obs_ReasonCode value) (obs_ObservedAt value)
    (obs_UpdatedAt value) (obs_ValidUntil value)
    ((fun scene => mkScene (map cloneElement (scene_Elements scene))) <$> obs_Scene value)
    ((fun timer => mkBusyTimerPresentation (busy_Theme timer)) <$> obs_BusyTimer value)
    ((fun audio => mkAudioCue (audio_ID audio) (audio_Asset audio) (audio_ExpiresAt audio))
       <$> obs_Audio value).

Definition live_at (now : Time) (r : ObservationRecord) : bool :=
  After (obs_ValidUntil (rec_Observation r)) now.

(** Removes the expired records; the flag tells whether there was one. *)
Definition pruneLocked (now : Time) (s : Store) : bool * Store :=
  let kept := filter (fun '(_, r) => live_at now r = true) (store_records s) in
  (negb (size kept =? size (store_records s))%nat, set_records kept s).

(** The scopes of the capacity limits, relative to a candidate identity. *)
Definition same_plugin (c i : Identity) : bool := id_PluginID i =s id_PluginID c.
Definition same_instance (c i : Identity) : bool :=
  same_plugin c i && (id_InstanceID i =s id_InstanceID c).
Definition same_channel (c i : Identity) : bool :=
  same_instance c i && (id_Channel i =s id_Channel c).

(** Watermarks in scope plus records in scope that no watermark tracks. *)
Definition tracked_count (s : Store) (scope : Identity -> bool) : Z :=
  Z.of_nat (length (List.filter (fun kv => scope (ek_identity kv.1)) (map_to_list (store_watermarks s))))
  + Z.of_nat (length (List.filter
      (fun kv => negb (is_some (store_watermarks s !! mkExclusionKey kv.1 (rec_Generation kv.2)))
                 && scope kv.1)
      (map_to_list (store_records s)))).

Definition atCapacityLocked (s : Store) (candidate : exclusionKey) : bool :=
  if is_some (store_records s !! ek_identity candidate) then false
  else if is_some (store_watermarks s !! candidate) then false
  else
    let global := tracked_count s (fun _ => true) in
    let plugin := tracked_count s (same_plugin (ek_identity candidate)) in
    let instance := tracked_count s (same_instance (ek_identity candidate)) in
    let channel := tracked_count s (same_channel (ek_identity candidate)) in
    (globalCapacity <=? global) || (pluginCapacity <=? plugin)
    || (pluginInstanceCapacity <=? instance) || (pluginInstanceChannelCapacity <=? channel).

Definition excludeThroughLocked (id : Identity) (generation revision : Z) (s : Store) : Store :=
  let key := mkExclusionKey id generation in
  let state := default (mkExclusionState 0 0) (store_watermarks s !! key) in
  let through := if es_through state <? revision then revision else es_through state in
  let reserved := if es_reserved state =? revision then 0 else es_reserved state in
  set_watermarks (<[key := mkExclusionState through reserved]> (store_watermarks s)) s.

(** ** Operations *)

(** The critical section of [Publish], once the observation and its generation are
    accepted. *)
Definition admitRecord (record : ObservationRecord) (now : Time) (s : Store) : option error * Store :=
  let value := rec_Observation record in
  let id := Record_Identity record in
  let identityKey := mkExclusionKey id (rec_Generation record) in
  let '(pruned, s) := pruneLocked now s in
  let s := bump_if pruned s in
  match store_records s !! id with
  | Some current =>
    if obs_Revision value <? obs_Revision (rec_Observation current) then
      (Some ErrStaleRevision, notify_if pruned s)
    else if obs_Revision value =? obs_Revision (rec_Observation current) then
      if bool_decide (value = rec_Observation current) then (None, notify_if pruned s)
      else (Some ErrStaleRevision, notify_if pruned s)
    else if obs_Disposition value =s DispositionResolved then
      (None, notify (bump (set_records (delete id (store_records s)) s)))
    else
      (None, notify (bump (set_records
        (<[id := mkRecord (rec_PluginID record) (rec_Generation record)
             (u64_succ (store_sequence s)) value]> (store_records s)) s)))
  | None =>
    if negb (obs_Disposition value =s DispositionResolved) && atCapacityLocked s identityKey then
      (Some ErrCapacity, notify_if pruned (reject now s))
    else if obs_Disposition value =s DispositionResolved then
      (None, notify (bump (set_records (delete id (store_records s)) s)))
    else
      (None, notify (bump (set_records
        (<[id := mkRecord (rec_PluginID record) (rec_Generation record)
             (u64_succ (store_sequence s)) value]> (store_records s)) s)))
  end.

Definition Publish (generation : option Generation) (source : Source) (value : Observation) (now : Time)
    (s : Store) : option error * Store :=
  match Observation_Validate value now with
  | Some err => (Some err, s)
  | None =>
    if (src_PluginID source =s EmptyString) || (src_Generation source =? 0) then
      (Some ErrStaleGeneration, s)
    else
      let current :=
        match generation with
        | None => true
        | Some g =>
          match g (src_PluginID source) (ref_ID (obs_Instance value)) with
          | None => false
          | Some current => current =? src_Generation source
          end
        end in
      if negb current then (Some ErrStaleGeneration, s)
      else admitRecord (mkRecord (src_PluginID source) (src_Generation source) 0 (cloneObservation value)) now s
  end.

Definition Withdraw (pluginID instanceID channel key : string) (s : Store) : option error * Store :=
  let id := mkIdentity pluginID instanceID channel key in
  match store_records s !! id with
  | None => (Some ErrNotFound, s)
  | Some _ => (None, notify (bump (set_records (delete id (store_records s)) s)))
  end.

Definition WithdrawInstance (pluginID instanceID : string) (throughGeneration : Z) (s : Store) : Store :=
  let of_instance (id : Identity) := (id_PluginID id =s pluginID) && (id_InstanceID id =s instanceID) in
  let records := filter (fun '(id, r) =>
    of_instance id && (rec_Generation r <=? throughGeneration) = false) (store_records s) in
  let watermarks := filter (fun '(key, _) =>
    of_instance (ek_identity key) && (ek_generation key <=? throughGeneration) = false)
    (store_watermarks s) in
  let removed := negb (size records =? size (store_records s))%nat in
  notify_if removed (bump_if removed (set_watermarks watermarks (set_records records s))).

Definition WithdrawGeneration (pluginID : string) (generation : Z) (s : Store) : Store :=
  let records := filter (fun '(_, r) =>
    (rec_PluginID r =s pluginID) && (rec_Generation r =? generation) = false) (store_records s) in
  let changed := negb (size records =? size (store_records s))%nat in
  notify_if changed (bump_if changed (set_records records s)).

(** A record the watermarks keep out of arbitration. *)
Definition excluded (watermarks : gmap exclusionKey exclusionState) (id : Identity)
    (record : ObservationRecord) : bool :=
  match watermarks !! mkExclusionKey id (rec_Generation record) with
  | Some exclusion => obs_Revision (rec_Observation record) <=? es_through exclusion
  | None => false
  end.

Definition cloneRecord (r : ObservationRecord) : ObservationRecord :=
  mkRecord (rec_PluginID r) (rec_Generation r) (rec_AdmissionSequence r)
    (cloneObservation (rec_Observation r)).

Definition SnapshotWithSequence (now : Time) (s : Store) : list ObservationRecord * Z * Store :=
  let '(pruned, s) := pruneLocked now s in
  let s := bump_if pruned s in
  let result := map (fun kv => cloneRecord kv.2)
    (List.filter (fun kv => negb (excluded (store_watermarks s) kv.1 kv.2)) (map_to_list (store_records s))) in
  (SortFunc (cmp_key Record_ID) result, store_sequence s, notify_if pruned s).

Definition Snapshot (now : Time) (s : Store) : list ObservationRecord * Store :=
  let '(result, _, s) := SnapshotWithSequence now s in (result, s).

Definition matches_revision (record : option ObservationRecord) (generation revision : Z) : bool :=
  match record with
  | Some r => (rec_Generation r =? generation) && (obs_Revision (rec_Observation r) =? revision)
  | None => false
  end.

Definition ExcludeRevisionWithoutSignal (id : Identity) (generation revision : Z) (s : Store) : bool * Store :=
  if negb (matches_revision (store_records s !! id) generation revision) then (false, s)
  else (true, excludeThroughLocked id generation revision s).

Definition ReserveExactRevisionWithoutSignal (id : Identity) (generation revision : Z) (s : Store)
    : bool * Store :=
  if negb (matches_revision (store_records s !! id) generation revision) then (false, s)
  else
    let key := mkExclusionKey id generation in
    let state := default (mkExclusionState 0 0) (store_watermarks s !! key) in
    (true, set_watermarks (<[key := mkExclusionState (es_through state) revision]> (store_watermarks s)) s).

Definition ReleaseExactRevisionReservationWithoutSignal (id : Identity) (generation revision : Z)
    (s : Store) : Store :=
  let key := mkExclusionKey id generation in
  match store_watermarks s !! key with
  | None => s
  | Some state =>
    if negb (es_reserved state =? revision) then s
    else if es_through state =? 0 then set_watermarks (delete key (store_watermarks s)) s
    else set_watermarks (<[key := mkExclusionState (es_through state) 0]> (store_watermarks s)) s
  end.

Definition ExcludeExactRevisionWithoutSignal (lookup : option Generation) (id : Identity)
    (generation revision : Z) (s : Store) : bool * Store :=
  if (id_PluginID id =s EmptyString) || (id_InstanceID id =s EmptyString) || (id_Channel id =s EmptyString)
     || (id_Key id =s EmptyString) || (generation =? 0) || (revision =? 0)
  then (false, s)
  else
    let current :=
      match lookup with
      | None => true
      | Some g => match g (id_PluginID id) (id_InstanceID id) with
                  | None => false
                  | Some current => current =? generation
                  end
      end in
    if negb current then (false, s)
    else
      let reserved := match store_watermarks s !! mkExclusionKey id generation with
                      | Some state => es_reserved state =? revision
                      | None => false
                      end in
      if negb reserved && negb (matches_revision (store_records s !! id) generation revision)
      then (false, s)
      else (true, excludeThroughLocked id generation revision s).

Definition Diagnostics (now : Time) (s : Store) : StoreDiagnostics * Store :=
  let '(pruned, s) := pruneLocked now s in
  let s := bump_if pruned s in
  (mkStoreDiagnostics (Z.of_nat (size (store_records s))) (store_rejections s) (store_rejectedAt s)
     (store_rejected s), notify_if pruned s).

(** ** Executions

    One constructor per exported method that changes the store, and the receive on
    the [Changes] channel. *)

Inductive StoreOp :=
  | OpPublish (generation : option Generation) (source : Source) (value : Observation) (now : Time)
  | OpWithdraw (pluginID instanceID channel key : string)
  | OpWithdrawInstance (pluginID instanceID : string) (throughGeneration : Z)
  | OpWithdrawGeneration (pluginID : string) (generation : Z)
  | OpSnapshot (now : Time)
  | OpExclude (id : Identity) (generation revision : Z)
  | OpReserve (id : Identity) (generation revision : Z)
  | OpRelease (id : Identity) (generation revision : Z)
  | OpExcludeExact (lookup : option Generation) (id : Identity) (generation revision : Z)
  | OpDiagnostics (now : Time)
  | OpSignal
  | OpReceive.

Definition apply_op (s : Store) (op : StoreOp) : Store :=
  match op with
  | OpPublish generation source value now => (Publish generation source value now s).2
  | OpWithdraw p i c k => (Withdraw p i c k s).2
  | OpWithdrawInstance p i g => WithdrawInstance p i g s
  | OpWithdrawGeneration p g => WithdrawGeneration p g s
  | OpSnapshot now => (Snapshot now s).2
  | OpExclude id g r => (ExcludeRevisionWithoutSignal id g r s).2
  | OpReserve id g r => (ReserveExactRevisionWithoutSignal id g r s).2
  | OpRelease id g r => ReleaseExactRevisionReservationWithoutSignal id g r s
  | OpExcludeExact lookup id g r => (ExcludeExactRevisionWithoutSignal lookup id g r s).2
  | OpDiagnostics now => (Diagnostics now s).2
  | OpSignal => notify s
  | OpReceive =>
    mkStore (store_records s) (store_watermarks s) false (store_sequence s) (store_rejections s)
      (store_rejectedAt s) (store_rejected s)
  end.

Definition run (ops : list StoreOp) (s : Store) : Store := fold_left apply_op ops s.

(** ** Specification *)

(** A store is well formed when every record is filed under its own identity and
    is unresolved. *)
Definition WellFormed (s : Store) : Prop :=
  forall id r, store_records s !! id = Some r ->
    Record_Identity r = id /\ obs_Disposition (rec_Observation r) <> DispositionResolved.

(** The abstract store: the observations live at [now], by identity. *)
Definition view (now : Time) (s : Store) : gmap Identity Observation :=
  rec_Observation <$> filter (fun '(_, r) => live_at now r = true) (store_records s).

(** Publishing on the abstract store. *)
Definition abstract_put (id : Identity) (value : Observation) (m : gmap Identity Observation)
    : gmap Identity Observation :=
  if decide (obs_Disposition value = DispositionResolved) then delete id m else <[id := value]> m.

Definition observation_identity (source : Source) (value : Observation) : Identity :=
  mkIdentity (src_PluginID source) (ref_ID (obs_Instance value)) (obs_Channel value) (obs_Key value).

(** Every identity the store holds something about. *)
Definition identities (s : Store) : gset Identity :=
  dom (store_records s) ∪ set_map ek_identity (dom (store_watermarks s)).

Definition in_scope (scope : Identity -> bool) (ids : gset Identity) : gset Identity :=
  filter (fun id => scope id = true) ids.

Record WithinCapacity (s : Store) : Prop := {
  wc_global : Z.of_nat (size (identities s)) <= globalCapacity;
  wc_plugin c : Z.of_nat (size (in_scope (same_plugin c) (identities s))) <= pluginCapacity;
  wc_instance c : Z.of_nat (size (in_scope (same_instance c) (identities s))) <= pluginInstanceCapacity;
  wc_channel c : Z.of_nat (size (in_scope (same_channel c) (identities s))) <= pluginInstanceChannelCapacity;
}.

(** ** Lemmas *)

Lemma cloneElement_id e : cloneElement e = e.
Proof.
  destruct e as [? ? ? ? [[? ? ? ? ? [[]|]]|] [[]|] [[]|] [[]|] [[]|]]; done.
Qed.

Lemma cloneObservation_id o : cloneObservation o = o.
Proof.
  destruct o as [? ? ? ? ? ? ? ? ? ? [[es]|] [[]|] [[]|]]; unfold cloneObservation; simpl; try done;
    do 2 f_equal; f_equal; rewrite <- (map_id es) at 2; apply map_ext, cloneElement_id.
Qed.

Lemma cloneRecord_id r : cloneRecord r = r.
Proof. destruct r. unfold cloneRecord. simpl. by rewrite cloneObservation_id. Qed.

(** *** Projections of the small updates *)

Lemma records_bump_if b s : store_records (bump_if b s) = store_records s.
Proof. by destruct b. Qed.
Lemma records_notify_if b s : store_records (notify_if b s) = store_records s.
Proof. by destruct b. Qed.
Lemma watermarks_bump_if b s : store_watermarks (bump_if b s) = store_watermarks s.
Proof. by destruct b. Qed.
Lemma watermarks_notify_if b s : store_watermarks (notify_if b s) = store_watermarks s.
Proof. by destruct b. Qed.

Lemma records_prune now s :
  store_records (pruneLocked now s).2 = filter (fun '(_, r) => live_at now r = true) (store_records s).
Proof. done. Qed.

Lemma watermarks_prune now s : store_watermarks (pruneLocked now s).2 = store_watermarks s.
Proof. done. Qed.

Create HintDb store.
#[export] Hint Rewrite records_bump_if records_notify_if watermarks_bump_if watermarks_notify_if
  records_prune watermarks_prune : store.

Lemma lookup_live now s id r :
  (filter (fun '(_, r) => live_at now r = true) (store_records s)) !! id = Some r <->
  store_records s !! id = Some r /\ live_at now r = true.
Proof. rewrite map_lookup_filter_Some. done. Qed.

(** The store after the pruning step that opens most operations. *)
Definition pruned_store (now : Time) (s : Store) : Store :=
  bump_if (pruneLocked now s).1 (pruneLocked now s).2.

Lemma records_pruned now s :
  store_records (pruned_store now s) = filter (fun '(_, r) => live_at now r = true) (store_records s).
Proof. unfold pruned_store. by autorewrite with store. Qed.

Lemma watermarks_pruned now s : store_watermarks (pruned_store now s) = store_watermarks s.
Proof. unfold pruned_store. by autorewrite with store. Qed.

#[export] Hint Rewrite records_pruned watermarks_pruned : store.

(** *** The critical section of [Publish], by cases *)

Inductive admit_result (record : ObservationRecord) (now : Time) (s : Store) : option error -> Store -> Prop :=
  | admit_stale current b :
      store_records (pruned_store now s) !! Record_Identity record = Some current ->
      obs_Revision (rec_Observation record) <= obs_Revision (rec_Observation current) ->
      rec_Observation record <> rec_Observation current ->
      admit_result record now s (Some ErrStaleRevision) (notify_if b (pruned_store now s))
  | admit_same current b :
      store_records (pruned_store now s) !! Record_Identity record = Some current ->
      rec_Observation record = rec_Observation current ->
      admit_result record now s None (notify_if b (pruned_store now s))
  | admit_capacity b :
      store_records (pruned_store now s) !! Record_Identity record = None ->
      obs_Disposition (rec_Observation record) <> DispositionResolved ->
      atCapacityLocked (pruned_store now s)
        (mkExclusionKey (Record_Identity record) (rec_Generation record)) = true ->
      admit_result record now s (Some ErrCapacity) (notify_if b (reject now (pruned_store now s)))
  | admit_resolved :
      (forall current, store_records (pruned_store now s) !! Record_Identity record = Some current ->
        obs_Revision (rec_Observation current) < obs_Revision (rec_Observation record)) ->
      obs_Disposition (rec_Observation record) = DispositionResolved ->
      admit_result record now s None
        (notify (bump (set_records (delete (Record_Identity record) (store_records (pruned_store now s)))
          (pruned_store now s))))
  | admit_stored :
      (forall current, store_records (pruned_store now s) !! Record_Identity record = Some current ->
        obs_Revision (rec_Observation current) < obs_Revision (rec_Observation record)) ->
      (store_records (pruned_store now s) !! Record_Identity record = None ->
        atCapacityLocked (pruned_store now s)
          (mkExclusionKey (Record_Identity record) (rec_Generation record)) = false) ->
      obs_Disposition (rec_Observation record) <> DispositionResolved ->
      admit_result record now s None
        (notify (bump (set_records
          (<[Record_Identity record := mkRecord (rec_PluginID record) (rec_Generation record)
               (u64_succ (store_sequence (pruned_store now s))) (rec_Observation record)]>
             (store_records (pruned_store now s))) (pruned_store now s)))).

Lemma admit_cases record now s : admit_result record now s (admitRecord record now s).1 (admitRecord record now s).2.
Proof.
  unfold admitRecord. destruct (pruneLocked now s) as [b s1] eqn:Hp.
  assert (Hs : bump_if b s1 = pruned_store now s) by (unfold pruned_store; by rewrite Hp).
  rewrite Hs. clear Hs Hp s1.
  destruct (String.eqb_spec (obs_Disposition (rec_Observation record)) DispositionResolved) as [Hr|Hr];
  destruct (store_records (pruned_store now s) !! Record_Identity record) as [current|] eqn:Hl; simpl.
  all: try (destruct (Z.ltb_spec (obs_Revision (rec_Observation record)) (obs_Revision (rec_Observation current))) as [Hlt|Hge]; simpl;
    [apply (admit_stale _ _ _ current); [done|lia|intros Heq; rewrite Heq in Hlt; lia]|];
    destruct (Z.eqb_spec (obs_Revision (rec_Observation record)) (obs_Revision (rec_Observation current))) as [Heq|Hne]; simpl;
    [case_bool_decide; simpl; [by apply (admit_same _ _ _ current)|apply (admit_stale _ _ _ current); [done|lia|done]]|]).
  - apply admit_resolved; [|done]. intros c Hc. assert (c = current) as -> by congruence. lia.
  - apply admit_resolved; [|done]. intros c Hc. congruence.
  - apply admit_stored; [|congruence|done]. intros c Hc. assert (c = current) as -> by congruence. lia.
  - destruct (atCapacityLocked _ _) eqn:Hcap; simpl; [by apply admit_capacity|].
    apply admit_stored; [congruence|done|done].
Qed.

(** [Publish] either refuses before touching the store or runs [admitRecord] on an
    accepted observation. *)
Definition current_generation (generation : option Generation) (source : Source) (value : Observation) : bool :=
  match generation with
  | None => true
  | Some g => match g (src_PluginID source) (ref_ID (obs_Instance value)) with
              | None => false
              | Some current => current =? src_Generation source
              end
  end.

Lemma Publish_cases generation source value now s :
  ((exists err, Publish generation source value now s = (Some err, s)))
  \/ (Observation_Validate value now = None
      /\ src_PluginID source <> EmptyString /\ src_Generation source <> 0
      /\ current_generation generation source value = true
      /\ Publish generation source value now s
         = admitRecord (mkRecord (src_PluginID source) (src_Generation source) 0 value) now s).
Proof.
  unfold Publish. destruct (Observation_Validate value now) as [e|]; [left; by eexists|].
  destruct ((src_PluginID source =s EmptyString) || (src_Generation source =? 0)) eqn:Hs; [left; by eexists|].
  fold (current_generation generation source value).
  destruct (current_generation generation source value) eqn:Hg; simpl; [right|left; by eexists].
  rewrite cloneObservation_id. errs. destruct Hs. done.
Qed.

(** *** Well-formedness *)

Lemma WellFormed_subset s s' :
  store_records s' ⊆ store_records s -> WellFormed s -> WellFormed s'.
Proof. intros Hsub Hwf id r Hl. apply Hwf. by eapply lookup_weaken. Qed.

Lemma filter_subset {A} (P : Identity * A -> Prop) `{!forall x, base.Decision (P x)} (m : gmap Identity A) :
  filter P m ⊆ m.
Proof. apply map_filter_subseteq. Qed.

Lemma WellFormed_pruned now s : WellFormed s -> WellFormed (pruned_store now s).
Proof. apply WellFormed_subset. rewrite records_pruned. apply filter_subset. Qed.

Lemma WellFormed_same_records s s' : store_records s' = store_records s -> WellFormed s -> WellFormed s'.
Proof. intros H. apply WellFormed_subset. by rewrite H. Qed.

Lemma admit_WellFormed record now s :
  WellFormed s -> WellFormed (admitRecord record now s).2.
Proof.
  intros Hwf. apply (WellFormed_pruned now) in Hwf.
  destruct (admit_cases record now s) as [c b _ _ _|c b _ _|b _ _ _|Hc Hr|Hc Hcap Hr].
  - eapply WellFormed_same_records; [|exact Hwf]. apply records_notify_if.
  - eapply WellFormed_same_records; [|exact Hwf]. apply records_notify_if.
  - eapply WellFormed_same_records; [|exact Hwf]. by rewrite records_notify_if.
  - eapply WellFormed_subset; [|exact Hwf]. apply delete_subseteq.
  - intros id r. simpl. rewrite lookup_insert_Some. intros [[<- <-]|[_ Hl]]; [|by apply Hwf].
    split; [done|]. done.
Qed.

Lemma apply_op_WellFormed op s : WellFormed s -> WellFormed (apply_op s op).
Proof.
  intros Hwf. destruct op; simpl; try done.
  - destruct (Publish_cases generation source value now s) as [[err ->]|(_ & _ & _ & _ & ->)]; [done|].
    by apply admit_WellFormed.
  - unfold Withdraw. destruct (_ !! _); [|done]. eapply WellFormed_subset; [|done]. apply delete_subseteq.
  - unfold WithdrawInstance. eapply WellFormed_subset; [|done].
    autorewrite with store. simpl. apply filter_subset.
  - unfold WithdrawGeneration. eapply WellFormed_subset; [|done].
    autorewrite with store. simpl. apply filter_subset.
  - unfold Snapshot, SnapshotWithSequence. simpl. eapply WellFormed_subset; [|done].
    autorewrite with store. apply filter_subset.
  - unfold ExcludeRevisionWithoutSignal. by destruct (negb _).
  - unfold ReserveExactRevisionWithoutSignal. by destruct (negb _).
  - unfold ReleaseExactRevisionReservationWithoutSignal. repeat case_match; done.
  - unfold ExcludeExactRevisionWithoutSignal. repeat (case_if; [done|]); done.
  - unfold Diagnostics. simpl. eapply WellFormed_subset; [|done]. autorewrite with store. apply filter_subset.
Qed.

Lemma run_ind (P : Store -> Prop) s ops :
  P s -> (forall s op, P s -> P (apply_op s op)) -> P (run ops s).
Proof. intros H0 HS. unfold run. revert s H0. induction ops; simpl; auto. Qed.

Lemma run_WellFormed ops : WellFormed (run ops NewStore).
Proof. apply run_ind; [intros id r H; simpl in H; by apply lookup_empty_Some in H|auto using apply_op_WellFormed]. Qed.

(** *** Refinement of the abstract store *)

Lemma view_lookup now s id o :
  view now s !! id = Some o <->
  exists r, store_records s !! id = Some r /\ live_at now r = true /\ rec_Observation r = o.
Proof.
  unfold view. rewrite lookup_fmap_Some. setoid_rewrite lookup_live. naive_solver.
Qed.

Lemma view_pruned now s : view now (pruned_store now s) = view now s.
Proof.
  unfold view. rewrite records_pruned, map_filter_filter. f_equal.
  apply map_filter_ext. intros id r _. tauto.
Qed.

Lemma view_notify_if now b s : view now (notify_if b s) = view now s.
Proof. by destruct b. Qed.

Lemma view_delete now s id :
  view now (notify (bump (set_records (delete id (store_records s)) s))) = delete id (view now s).
Proof. unfold view. simpl. by rewrite map_filter_delete, fmap_delete. Qed.

Lemma view_insert now s id r :
  live_at now r = true ->
  view now (notify (bump (set_records (<[id := r]> (store_records s)) s)))
  = <[id := rec_Observation r]> (view now s).
Proof. intros Hlive. unfold view. simpl. by rewrite map_filter_insert_True, fmap_insert. Qed.

Lemma validated_live value now :
  Observation_Validate value now = None -> obs_Disposition value <> DispositionResolved ->
  After (obs_ValidUntil value) now = true.
Proof.
  intros Hv Hr. apply Observation_Validate_None in Hv as [_ Hv].
  case_decide; [done|]. by destruct Hv.
Qed.

Lemma pruned_lookup_view now s id r :
  store_records (pruned_store now s) !! id = Some r -> view now s !! id = Some (rec_Observation r).
Proof. rewrite records_pruned, lookup_live. intros [? ?]. apply view_lookup. by exists r. Qed.

Lemma pruned_lookup_none now s id :
  store_records (pruned_store now s) !! id = None <-> view now s !! id = None.
Proof.
  rewrite records_pruned. unfold view. rewrite lookup_fmap. by rewrite fmap_None.
Qed.

(** What [admitRecord] does to the abstract store, and when it refuses. *)
Lemma admit_view source value now s :
  WellFormed s -> Observation_Validate value now = None ->
  let record := mkRecord (src_PluginID source) (src_Generation source) 0 value in
  view now (admitRecord record now s).2 =
    match (admitRecord record now s).1 with
    | Some _ => view now s
    | None => abstract_put (observation_identity source value) value (view now s)
    end.
Proof.
  intros Hwf Hv record. apply (WellFormed_pruned now) in Hwf.
  change (observation_identity source value) with (Record_Identity record).
  destruct (admit_cases record now s) as [c b _ _ _|c b Hl Heq|b _ _ _|_ Hr|_ _ Hr];
    unfold abstract_put.
  - by rewrite view_notify_if, view_pruned.
  - rewrite view_notify_if, view_pruned. simpl in Heq.
    destruct (Hwf _ _ Hl) as [_ Hr]. rewrite <- Heq in Hr. rewrite decide_False by done.
    rewrite insert_id; [done|]. rewrite Heq. by apply (pruned_lookup_view now).
  - rewrite view_notify_if. apply view_pruned.
  - rewrite view_delete, view_pruned. simpl in Hr. by rewrite decide_True.
  - rewrite view_insert, view_pruned; simpl in *; [by rewrite decide_False|].
    unfold live_at. simpl. by apply validated_live.
Qed.

Lemma admit_accepts source value now s :
  let record := mkRecord (src_PluginID source) (src_Generation source) 0 value in
  let id := observation_identity source value in
  (admitRecord record now s).1 = None <->
  match view now s !! id with
  | Some current => obs_Revision current < obs_Revision value \/ value = current
  | None => obs_Disposition value = DispositionResolved
            \/ atCapacityLocked (pruned_store now s) (mkExclusionKey id (src_Generation source)) = false
  end.
Proof.
  intros record id. change id with (Record_Identity record).
  destruct (admit_cases record now s) as [c b Hl Hr Hne|c b Hl Heq|b Hl Hr Hcap|Hc Hr|Hc Hcap Hr];
    simpl in *.
  - rewrite (pruned_lookup_view _ _ _ _ Hl). split; [done|]. intros [?|?]; [lia|done].
  - rewrite (pruned_lookup_view _ _ _ _ Hl). split; [by right|done].
  - rewrite (proj1 (pruned_lookup_none _ _ _) Hl). split; [done|]. intros [?|?]; [done|].
    unfold id, observation_identity, Record_Identity in *. simpl in *. congruence.
  - split; [intros _|done]. destruct (store_records (pruned_store now s) !! Record_Identity record) as [c|] eqn:Hl.
    + rewrite (pruned_lookup_view _ _ _ _ Hl). left. by apply Hc.
    + rewrite (proj1 (pruned_lookup_none _ _ _) Hl). by left.
  - split; [intros _|done]. destruct (store_records (pruned_store now s) !! Record_Identity record) as [c|] eqn:Hl.
    + rewrite (pruned_lookup_view _ _ _ _ Hl). left. by apply Hc.
    + rewrite (proj1 (pruned_lookup_none _ _ _) Hl). right. by apply Hcap.
Qed.

(** *** Capacity *)

Lemma size_le_list (X : gset Identity) (l : list Identity) :
  (forall x, x ∈ X -> x ∈ l) -> (size X <= length l)%nat.
Proof.
  intros Hsub. rewrite <- (length_map id), map_id. unfold size, set_size. simpl.
  apply submseteq_length, NoDup_submseteq; [apply NoDup_elements|].
  intros x Hx. apply Hsub. by apply elem_of_elements.
Qed.

(** The count that the admission check compares with a limit bounds the identities
    in its scope. *)
Lemma tracked_count_bounds s scope :
  Z.of_nat (size (in_scope scope (identities s))) <= tracked_count s scope.
Proof.
  unfold tracked_count.
  set (l1 := List.filter _ (map_to_list (store_watermarks s))).
  set (l2 := List.filter _ (map_to_list (store_records s))).
  rewrite <- Nat2Z.inj_add, <- Nat2Z.inj_le.
  rewrite <- (length_map (fun kv => ek_identity kv.1) l1), <- (length_map fst l2), <- length_app.
  apply size_le_list. intros i Hi. unfold in_scope, identities in Hi.
  rewrite elem_of_filter, elem_of_union, elem_of_dom, elem_of_map in Hi.
  destruct Hi as [Hscope Hi]. rewrite elem_of_app.
  assert (Hwm : forall k, is_Some (store_watermarks s !! k) -> ek_identity k = i ->
            i ∈ map (fun kv => ek_identity kv.1) l1).
  { intros k [st Hk] <-. apply list_elem_of_fmap. exists (k, st). split; [done|].
    apply elem_of_List_filter. split; [by apply elem_of_map_to_list|done]. }
  destruct Hi as [[r Hr]|(k & -> & Hk)].
  - destruct (store_watermarks s !! mkExclusionKey i (rec_Generation r)) as [st|] eqn:Hst.
    + left. by apply (Hwm (mkExclusionKey i (rec_Generation r))).
    + right. apply list_elem_of_fmap. exists (i, r). split; [done|].
      apply elem_of_List_filter. split; [by apply elem_of_map_to_list|].
      simpl. by rewrite Hst, Hscope.
  - left. apply (Hwm k); [|done]. by apply elem_of_dom in Hk.
Qed.

Lemma elem_of_in_scope scope X i : i ∈ in_scope scope X <-> scope i = true /\ i ∈ X.
Proof. unfold in_scope. by rewrite elem_of_filter. Qed.

Lemma in_scope_mono scope X Y : X ⊆ Y -> (size (in_scope scope X) <= size (in_scope scope Y))%nat.
Proof.
  intros H. apply subseteq_size. intros i. rewrite !elem_of_in_scope. intros [? ?]. auto.
Qed.

Lemma WithinCapacity_subset s s' : identities s' ⊆ identities s -> WithinCapacity s -> WithinCapacity s'.
Proof.
  intros Hsub [Hg Hp Hi Hc].
  split; [pose proof (subseteq_size _ _ Hsub); lia|intros c..];
    match goal with |- context [in_scope ?f _] => pose proof (in_scope_mono f _ _ Hsub) end;
    [specialize (Hp c)|specialize (Hi c)|specialize (Hc c)]; lia.
Qed.

(** Adding one identity to a scope that has room. *)
Lemma in_scope_add scope id X limit :
  Z.of_nat (size (in_scope scope X)) <= limit ->
  (scope id = true -> Z.of_nat (size (in_scope scope X)) < limit) ->
  Z.of_nat (size (in_scope scope ({[id]} ∪ X))) <= limit.
Proof.
  intros Hle Hlt. destruct (scope id) eqn:Hs.
  - assert (Hsub : in_scope scope ({[id]} ∪ X) ⊆ {[id]} ∪ in_scope scope X).
    { intros i. rewrite elem_of_union, !elem_of_in_scope, elem_of_union. tauto. }
    apply subseteq_size in Hsub.
    pose proof (size_union_alt {[id]} (in_scope scope X)) as Hu. rewrite size_singleton in Hu.
    assert (Hd : (size (in_scope scope X ∖ {[id]}) <= size (in_scope scope X))%nat)
      by (apply subseteq_size, subseteq_difference_l; done).
    specialize (Hlt eq_refl). lia.
  - assert (Hsub : in_scope scope ({[id]} ∪ X) ⊆ in_scope scope X).
    { intros i. rewrite !elem_of_in_scope, elem_of_union, elem_of_singleton. intros [? [->|?]]; [congruence|done]. }
    apply subseteq_size in Hsub. lia.
Qed.

Lemma in_scope_ext f g X : (forall i, f i = g i) -> in_scope f X = in_scope g X.
Proof. intros H. unfold in_scope. apply set_eq. intros i. rewrite !elem_of_filter, H. done. Qed.

Lemma same_plugin_swap c id : same_plugin c id = true -> forall i, same_plugin c i = same_plugin id i.
Proof. unfold same_plugin. intros H i. errs. by rewrite H. Qed.

Lemma same_instance_swap c id : same_instance c id = true -> forall i, same_instance c i = same_instance id i.
Proof. unfold same_instance, same_plugin. intros H i. errs. destruct H as [-> ->]. done. Qed.

Lemma same_channel_swap c id : same_channel c id = true -> forall i, same_channel c i = same_channel id i.
Proof.
  unfold same_channel, same_instance, same_plugin. intros H i. errs. destruct H as [[-> ->] ->]. done.
Qed.

Lemma in_scope_true X : in_scope (fun _ => true) X = X.
Proof. unfold in_scope. apply set_eq. intros i. rewrite elem_of_filter. tauto. Qed.

(** The admission check leaves room for one more identity in every scope. *)
Lemma admission_has_room s key :
  WithinCapacity s -> store_records s !! ek_identity key = None ->
  store_watermarks s !! key = None -> atCapacityLocked s key = false ->
  forall s', identities s' ⊆ {[ek_identity key]} ∪ identities s -> WithinCapacity s'.
Proof.
  intros [Hg Hp Hi Hc] Hr Hw Hcap s' Hsub. unfold atCapacityLocked in Hcap. rewrite Hr, Hw in Hcap.
  simpl in Hcap. errs. destruct Hcap as [[[H1 H2] H3] H4].
  pose proof (tracked_count_bounds s (fun _ => true)) as B1. rewrite in_scope_true in B1.
  pose proof (tracked_count_bounds s (same_plugin (ek_identity key))) as B2.
  pose proof (tracked_count_bounds s (same_instance (ek_identity key))) as B3.
  pose proof (tracked_count_bounds s (same_channel (ek_identity key))) as B4.
  pose proof (in_scope_add (fun _ => true) (ek_identity key) (identities s) globalCapacity) as A.
  rewrite !in_scope_true in A.
  split.
  - pose proof (subseteq_size _ _ Hsub). specialize (A Hg). lia.
  - intros c. pose proof (in_scope_mono (same_plugin c) _ _ Hsub) as Hm.
    pose proof (in_scope_add (same_plugin c) (ek_identity key) (identities s) _ (Hp c)) as A2.
    assert (Hx : same_plugin c (ek_identity key) = true ->
      Z.of_nat (size (in_scope (same_plugin c) (identities s))) < pluginCapacity).
    { intros Hs. rewrite (in_scope_ext _ _ _ (same_plugin_swap _ _ Hs)). lia. }
    specialize (A2 Hx). lia.
  - intros c. pose proof (in_scope_mono (same_instance c) _ _ Hsub) as Hm.
    pose proof (in_scope_add (same_instance c) (ek_identity key) (identities s) _ (Hi c)) as A2.
    assert (Hx : same_instance c (ek_identity key) = true ->
      Z.of_nat (size (in_scope (same_instance c) (identities s))) < pluginInstanceCapacity).
    { intros Hs. rewrite (in_scope_ext _ _ _ (same_instance_swap _ _ Hs)). lia. }
    specialize (A2 Hx). lia.
  - intros c. pose proof (in_scope_mono (same_channel c) _ _ Hsub) as Hm.
    pose proof (in_scope_add (same_channel c) (ek_identity key) (identities s) _ (Hc c)) as A2.
    assert (Hx : same_channel c (ek_identity key) = true ->
      Z.of_nat (size (in_scope (same_channel c) (identities s))) < pluginInstanceChannelCapacity).
    { intros Hs. rewrite (in_scope_ext _ _ _ (same_channel_swap _ _ Hs)). lia. }
    specialize (A2 Hx). lia.
Qed.

Lemma elem_of_identities s i :
  i ∈ identities s <->
  is_Some (store_records s !! i) \/ exists g, is_Some (store_watermarks s !! mkExclusionKey i g).
Proof.
  unfold identities. rewrite elem_of_union, elem_of_dom, elem_of_map. apply or_iff_compat_l. split.
  - intros (k & -> & Hk%elem_of_dom). exists (ek_generation k). by destruct k.
  - intros (g & Hg). exists (mkExclusionKey i g). split; [done|]. by apply elem_of_dom.
Qed.

Lemma identities_subset s s' :
  store_records s' ⊆ store_records s -> store_watermarks s' ⊆ store_watermarks s ->
  identities s' ⊆ identities s.
Proof.
  intros Hr Hw i. rewrite !elem_of_identities. intros [H|(g & H)]; [left|right; exists g];
    eapply lookup_weaken_is_Some; done.
Qed.

Lemma identities_pruned now s : identities (pruned_store now s) ⊆ identities s.
Proof.
  apply identities_subset; autorewrite with store; [apply filter_subset|done].
Qed.

(** Writing a watermark for an identity already held. *)
Lemma identities_watermark s key st :
  ek_identity key ∈ identities s ->
  identities (set_watermarks (<[key := st]> (store_watermarks s)) s) ⊆ identities s.
Proof.
  intros Hin i. rewrite !elem_of_identities. simpl. intros [H|(g & H)]; [by left|].
  destruct (decide (key = mkExclusionKey i g)) as [->|Hne]; [by apply elem_of_identities in Hin|].
  rewrite lookup_insert_ne in H by done. eauto.
Qed.

Lemma matches_revision_held s id g r :
  matches_revision (store_records s !! id) g r = true -> id ∈ identities s.
Proof. intros H. apply elem_of_identities. left. by destruct (store_records s !! id). Qed.

Lemma admit_WithinCapacity record now s : WithinCapacity s -> WithinCapacity (admitRecord record now s).2.
Proof.
  intros Hcap. apply (WithinCapacity_subset _ (pruned_store now s)) in Hcap; [|apply identities_pruned].
  destruct (admit_cases record now s) as [c b _ _ _|c b _ _|b _ _ _|Hc Hr|Hc Hroom Hr].
  - eapply WithinCapacity_subset; [|done]. apply identities_subset; by autorewrite with store.
  - eapply WithinCapacity_subset; [|done]. apply identities_subset; by autorewrite with store.
  - eapply WithinCapacity_subset; [|done]. apply identities_subset; by destruct b.
  - eapply WithinCapacity_subset; [|done]. apply identities_subset; simpl; [apply delete_subseteq|done].
  - match goal with |- WithinCapacity ?s2 =>
      assert (Hsub : identities s2 ⊆ {[Record_Identity record]} ∪ identities (pruned_store now s)) end.
    { intros i. rewrite elem_of_union, elem_of_singleton, !elem_of_identities. simpl.
      intros [[r Hl]|Hw]; [|by right; right]. apply lookup_insert_Some in Hl as [[-> _]|[_ Hl]]; [by left|].
      right. left. by eexists. }
    destruct (decide (Record_Identity record ∈ identities (pruned_store now s))) as [Hin|Hnin].
    + eapply WithinCapacity_subset; [|done]. set_solver.
    + rewrite elem_of_identities in Hnin.
      assert (Hn : store_records (pruned_store now s) !! Record_Identity record = None).
      { apply eq_None_not_Some. tauto. }
      eapply (admission_has_room _ (mkExclusionKey (Record_Identity record) (rec_Generation record)));
        [done|done| |by apply Hroom|done].
      apply eq_None_not_Some. intros H. apply Hnin. right. by exists (rec_Generation record).
Qed.

Lemma apply_op_WithinCapacity op s : WithinCapacity s -> WithinCapacity (apply_op s op).
Proof.
  intros Hcap. destruct op; simpl; try done.
  1: { destruct (Publish_cases generation source value now s) as [[err ->]|(_ & _ & _ & _ & ->)]; [done|].
       by apply admit_WithinCapacity. }
  all: eapply WithinCapacity_subset; [|exact Hcap].
  - unfold Withdraw. destruct (_ !! _); [|done]. apply identities_subset; [apply delete_subseteq|done].
  - unfold WithdrawInstance. apply identities_subset; autorewrite with store; simpl; [apply filter_subset|].
    apply map_filter_subseteq.
  - unfold WithdrawGeneration. apply identities_subset; autorewrite with store; simpl; [apply filter_subset|done].
  - unfold Snapshot, SnapshotWithSequence. simpl.
    apply identities_subset; autorewrite with store; [apply filter_subset|done].
  - unfold ExcludeRevisionWithoutSignal. destruct (matches_revision _ _ _) eqn:Hm; [|done].
    apply identities_watermark. by eapply matches_revision_held.
  - unfold ReserveExactRevisionWithoutSignal. destruct (matches_revision _ _ _) eqn:Hm; [|done].
    apply identities_watermark. by eapply matches_revision_held.
  - unfold ReleaseExactRevisionReservationWithoutSignal. destruct (_ !! _) as [st|] eqn:Hl; [|done].
    repeat case_if; [done|apply identities_subset; [done|apply delete_subseteq]|].
    apply identities_watermark. apply elem_of_identities. right. exists generation. by exists st.
  - unfold ExcludeExactRevisionWithoutSignal. do 2 (case_if; [done|]).
    destruct (matches_revision (store_records s !! id) generation revision) eqn:Hm.
    + rewrite andb_false_r. apply identities_watermark. by eapply matches_revision_held.
    + destruct (store_watermarks s !! mkExclusionKey id generation) as [st|] eqn:Hl; [|done].
      case_if; [done|]. apply identities_watermark. apply elem_of_identities.
      right. exists generation. by exists st.
  - unfold Diagnostics. simpl. apply identities_subset; autorewrite with store; [apply filter_subset|done].
  - done.
  - done.
Qed.

Lemma NewStore_WithinCapacity : WithinCapacity NewStore.
Proof. split; intros; vm_compute; discriminate. Qed.

Lemma run_WithinCapacity ops : WithinCapacity (run ops NewStore).
Proof. apply run_ind; [apply NewStore_WithinCapacity|auto using apply_op_WithinCapacity]. Qed.

Lemma dom_records_identities s : dom (store_records s) ⊆ identities s.
Proof. intros i. rewrite elem_of_dom, elem_of_identities. by left. Qed.

(** *** Exclusion *)

(** Some watermark keeps every revision of [id] up to [revision] out. *)
Definition excluded_through (id : Identity) (generation revision : Z) (s : Store) : Prop :=
  exists st, store_watermarks s !! mkExclusionKey id generation = Some st /\ revision <= es_through st.

(** The operations that forget a dismissal: the removal of the app instance. *)
Definition forgets (id : Identity) (generation : Z) (op : StoreOp) : Prop :=
  match op with
  | OpWithdrawInstance p i g => p = id_PluginID id /\ i = id_InstanceID id /\ generation <= g
  | _ => False
  end.

Lemma excluded_through_watermarks id g r s s' :
  store_watermarks s' = store_watermarks s -> excluded_through id g r s -> excluded_through id g r s'.
Proof. unfold excluded_through. by intros ->. Qed.

Lemma excludeThrough_through id g r s : excluded_through id g r (excludeThroughLocked id g r s).
Proof.
  unfold excluded_through, excludeThroughLocked. simpl. rewrite lookup_insert_eq. eexists. split; [done|].
  simpl. destruct (Z.ltb_spec (es_through (default (mkExclusionState 0 0)
    (store_watermarks s !! mkExclusionKey id g))) r); lia.
Qed.

Lemma excludeThrough_mono id g r s id' g' r' :
  excluded_through id g r s -> excluded_through id g r (excludeThroughLocked id' g' r' s).
Proof.
  unfold excluded_through, excludeThroughLocked. simpl. intros (st & Hst & Hle).
  destruct (decide (mkExclusionKey id' g' = mkExclusionKey id g)) as [E|Hne].
  - rewrite E, lookup_insert_eq, Hst. eexists. split; [done|]. simpl. case_if; lia.
  - rewrite lookup_insert_ne by done. by exists st.
Qed.

Lemma watermarks_admit record now s : store_watermarks (admitRecord record now s).2 = store_watermarks s.
Proof.
  rewrite <- (watermarks_pruned now s).
  by destruct (admit_cases record now s) as [c b _ _ _|c b _ _|b _ _ _|Hc Hr|Hc Hroom Hr];
    rewrite ?watermarks_notify_if.
Qed.

Lemma apply_op_excluded id g r op s :
  0 < r -> ~ forgets id g op -> excluded_through id g r s -> excluded_through id g r (apply_op s op).
Proof.
  intros Hr Hf Hex. destruct op; simpl; try done.
  - apply (excluded_through_watermarks _ _ _ s); [|done].
    destruct (Publish_cases generation source value now s) as [[err ->]|(_ & _ & _ & _ & ->)]; [done|].
    apply watermarks_admit.
  - unfold Withdraw. by destruct (_ !! _).
  - apply (excluded_through_watermarks _ _ _ (set_watermarks (filter (fun '(key, _) =>
      (id_PluginID (ek_identity key) =s pluginID) && (id_InstanceID (ek_identity key) =s instanceID)
      && (ek_generation key <=? throughGeneration) = false) (store_watermarks s)) s)).
    { unfold WithdrawInstance. by autorewrite with store. }
    destruct Hex as (st & Hst & Hle). exists st. split; [|done]. simpl.
    apply map_lookup_filter_Some. split; [done|]. simpl. apply not_true_iff_false. intros Ht.
    apply Hf. errs. destruct Ht as [[? ?] ?]. done.
  - unfold WithdrawGeneration. eapply excluded_through_watermarks; [|done]. by autorewrite with store.
  - eapply excluded_through_watermarks; [|done]. by autorewrite with store.
  - unfold ExcludeRevisionWithoutSignal. case_if; [done|]. by apply excludeThrough_mono.
  - unfold ReserveExactRevisionWithoutSignal. case_if; [done|].
    destruct Hex as (st & Hst & Hle). unfold excluded_through. simpl.
    destruct (decide (mkExclusionKey id0 generation = mkExclusionKey id g)) as [E|Hne].
    + rewrite E, lookup_insert_eq, Hst. by eexists.
    + rewrite lookup_insert_ne by done. by exists st.
  - unfold ReleaseExactRevisionReservationWithoutSignal.
    destruct (store_watermarks s !! mkExclusionKey id0 generation) as [st0|] eqn:Hst0; [|done].
    destruct Hex as (st & Hst & Hle). unfold excluded_through.
    destruct (decide (mkExclusionKey id0 generation = mkExclusionKey id g)) as [E|Hne].
    + rewrite E in *. assert (st0 = st) as -> by congruence.
      case_if; [by exists st|]. case_if; [lia|]. simpl. rewrite lookup_insert_eq. by eexists.
    + repeat case_if; simpl; rewrite ?lookup_insert_ne, ?lookup_delete_ne by done; by exists st.
  - unfold ExcludeExactRevisionWithoutSignal. repeat (case_if; [done|]). by apply excludeThrough_mono.
  - eapply excluded_through_watermarks; [|done]. by autorewrite with store.
Qed.

(** *** Snapshots *)

Lemma Snapshot_result now s :
  (Snapshot now s).1 = SortFunc (cmp_key Record_ID)
    (map snd (List.filter (fun kv => negb (excluded (store_watermarks s) kv.1 kv.2))
       (map_to_list (store_records (pruned_store now s))))).
Proof.
  unfold Snapshot, SnapshotWithSequence. simpl. autorewrite with store.
  unfold pruned_store. autorewrite with store. f_equal. apply map_ext. intros kv. apply cloneRecord_id.
Qed.

Lemma elem_of_Snapshot now s r :
  WellFormed s ->
  r ∈ (Snapshot now s).1 <->
  store_records s !! Record_Identity r = Some r /\ live_at now r = true
  /\ excluded (store_watermarks s) (Record_Identity r) r = false.
Proof.
  intros Hwf. rewrite Snapshot_result, elem_of_SortFunc, list_elem_of_fmap. split.
  - intros ([id r'] & Heq & Hin). simpl in Heq. subst r'.
    apply elem_of_List_filter in Hin as [Hin Hex]. apply elem_of_map_to_list in Hin.
    rewrite records_pruned, lookup_live in Hin. destruct Hin as [Hl Hlive]. simpl in *.
    destruct (Hwf _ _ Hl) as [-> _]. apply negb_true_iff in Hex. done.
  - intros (Hl & Hlive & Hex). exists (Record_Identity r, r). split; [done|].
    apply elem_of_List_filter. split; [|simpl; by rewrite Hex].
    apply elem_of_map_to_list. rewrite records_pruned. by apply lookup_live.
Qed.

Lemma Snapshot_sorted now s : StronglySorted (not_after (cmp_key Record_ID)) (Snapshot now s).1.
Proof. rewrite Snapshot_result. apply SortFunc_key_sorted. Qed.

(** *** Admission sequences *)

(** After [n] operations the sequence is at most twice [n], and admissions are
    distinct positive numbers up to it. *)
Record Admissions (n : Z) (s : Store) : Prop := {
  ad_sequence : 0 <= store_sequence s <= 2 * n;
  ad_range id r : store_records s !! id = Some r -> 0 < rec_AdmissionSequence r <= store_sequence s;
  ad_unique i j r q : store_records s !! i = Some r -> store_records s !! j = Some q ->
    rec_AdmissionSequence r = rec_AdmissionSequence q -> i = j;
}.

Lemma Admissions_weaken n m s s' :
  store_records s' ⊆ store_records s -> store_sequence s <= store_sequence s' <= 2 * m ->
  Admissions n s -> Admissions m s'.
Proof.
  intros Hsub Hseq [Hs Hr Hu]. split; [lia| |].
  - intros id r Hl. eapply lookup_weaken in Hl; [|done]. specialize (Hr _ _ Hl). lia.
  - intros i j r q Hi Hj. eapply lookup_weaken in Hi, Hj; [|done..]. by apply Hu.
Qed.

Lemma sequence_notify_if b s : store_sequence (notify_if b s) = store_sequence s.
Proof. by destruct b. Qed.

Lemma sequence_bump_if b s :
  0 <= store_sequence s < two64 - 1 ->
  store_sequence s <= store_sequence (bump_if b s) <= store_sequence s + 1.
Proof. intros H. destruct b; simpl; [rewrite u64_succ_small by done|]; lia. Qed.

Lemma sequence_mutation m s : store_sequence (notify (bump (set_records m s))) = u64_succ (store_sequence s).
Proof. done. Qed.

Lemma sequence_pruned now s :
  0 <= store_sequence s < two64 - 1 ->
  store_sequence s <= store_sequence (pruned_store now s) <= store_sequence s + 1.
Proof. apply (sequence_bump_if (pruneLocked now s).1 (pruneLocked now s).2). Qed.

Lemma admit_Admissions n record now s :
  2 * (n + 1) < two64 -> Admissions n s -> Admissions (n + 1) (admitRecord record now s).2.
Proof.
  intros Hn Had. pose proof (ad_sequence _ _ Had) as Hs.
  pose proof (sequence_pruned now s ltac:(lia)) as Hb.
  assert (Hsub : store_records (pruned_store now s) ⊆ store_records s)
    by (rewrite records_pruned; apply filter_subset).
  destruct (admit_cases record now s) as [c b _ _ _|c b _ _|b _ _ _|Hc Hr|Hc Hroom Hr].
  1-2: eapply (Admissions_weaken n _ s); [rewrite records_notify_if; exact Hsub|rewrite sequence_notify_if; lia|done].
  - eapply (Admissions_weaken n _ s); [rewrite records_notify_if; exact Hsub|rewrite sequence_notify_if; change (store_sequence (reject now (pruned_store now s)))
      with (store_sequence (pruned_store now s)); lia|done].
  - eapply (Admissions_weaken n _ s); [|rewrite sequence_mutation, u64_succ_small by lia; lia|done].
    simpl. etrans; [apply delete_subseteq|done].
  - rewrite u64_succ_small by lia. destruct Had as [_ Hrange Huniq]. split;
      rewrite ?sequence_mutation, ?u64_succ_small by lia; cbn [store_records notify bump set_records].
    + lia.
    + intros id r [[<- <-]|[_ Hl]]%lookup_insert_Some; [cbn [rec_AdmissionSequence]; lia|].
      eapply lookup_weaken in Hl; [|done]. specialize (Hrange _ _ Hl). lia.
    + intros i j r q [[<- <-]|[_ Hi]]%lookup_insert_Some [[<- <-]|[_ Hj]]%lookup_insert_Some;
        cbn [rec_AdmissionSequence]; intros Heq.
      * done.
      * eapply lookup_weaken in Hj; [|done]. specialize (Hrange _ _ Hj). lia.
      * eapply lookup_weaken in Hi; [|done]. specialize (Hrange _ _ Hi). lia.
      * eapply lookup_weaken in Hi, Hj; [|done..]. by eapply Huniq.
Qed.

Lemma apply_op_Admissions n op s :
  0 <= n -> 2 * (n + 1) < two64 -> Admissions n s -> Admissions (n + 1) (apply_op s op).
Proof.
  intros H0 Hn Had. pose proof (ad_sequence _ _ Had) as Hs.
  assert (Hprune : forall now b, Admissions (n + 1)
            (notify_if b (bump_if (pruneLocked now s).1 (pruneLocked now s).2))).
  { intros now b. eapply (Admissions_weaken n _ s); [rewrite records_notify_if, records_bump_if, records_prune;
      apply filter_subset| |done].
    rewrite sequence_notify_if. pose proof (sequence_pruned now s ltac:(lia)) as Hb.
    unfold pruned_store in Hb. lia. }
  assert (Hsame : forall s', store_records s' ⊆ store_records s ->
            store_sequence s' = store_sequence s -> Admissions (n + 1) s').
  { intros s' Hr Hq. eapply (Admissions_weaken n _ s); [done|rewrite Hq; lia|done]. }
  destruct op; simpl; try (by apply Hsame); try apply Hprune.
  - destruct (Publish_cases generation source value now s) as [[err ->]|(_ & _ & _ & _ & ->)];
      [by apply Hsame|by apply admit_Admissions].
  - unfold Withdraw. destruct (_ !! _); [|by apply Hsame].
    eapply (Admissions_weaken n _ s); [apply delete_subseteq|simpl; rewrite u64_succ_small by lia; lia|done].
  - unfold WithdrawInstance. eapply (Admissions_weaken n _ s); [|rewrite sequence_notify_if|done].
    + autorewrite with store. apply filter_subset.
    + match goal with |- context [bump_if ?b ?t] =>
        pose proof (sequence_bump_if b t ltac:(change (store_sequence t) with (store_sequence s); lia)) as Hb;
        change (store_sequence t) with (store_sequence s) in Hb end.
      lia.
  - unfold WithdrawGeneration. eapply (Admissions_weaken n _ s); [|rewrite sequence_notify_if|done].
    + autorewrite with store. apply filter_subset.
    + match goal with |- context [bump_if ?b ?t] =>
        pose proof (sequence_bump_if b t ltac:(change (store_sequence t) with (store_sequence s); lia)) as Hb;
        change (store_sequence t) with (store_sequence s) in Hb end.
      lia.
  - unfold ExcludeRevisionWithoutSignal. case_if; by apply Hsame.
  - unfold ReserveExactRevisionWithoutSignal. case_if; by apply Hsame.
  - unfold ReleaseExactRevisionReservationWithoutSignal. repeat case_match; by apply Hsame.
  - unfold ExcludeExactRevisionWithoutSignal. repeat (case_if; [by apply Hsame|]). by apply Hsame.
Qed.

Lemma run_app ops ops' s : run (ops ++ ops') s = run ops' (run ops s).
Proof. apply fold_left_app. Qed.

Lemma run_Admissions ops :
  2 * Z.of_nat (length ops) < two64 -> Admissions (Z.of_nat (length ops)) (run ops NewStore).
Proof.
  induction ops as [|op ops IH] using rev_ind; intros Hn.
  - split; [done|intros ? ? H; simpl in H; by apply lookup_empty_Some in H|].
    intros ? ? ? ? H. simpl in H. by apply lookup_empty_Some in H.
  - rewrite length_app in *. simpl in *. rewrite run_app, Nat2Z.inj_add in *. simpl run.
    apply apply_op_Admissions; [lia|lia|]. apply IH. lia.
Qed.

(** ** Properties *)

(** C20: publishing refines insertion into a map of live observations. On success the
    live observations become those of the abstract store with the new value put in
    (or, for a resolved value, its identity removed); on any error they are
    unchanged. *)
Theorem Publish_refines generation source value now s :
  WellFormed s ->
  view now (Publish generation source value now s).2 =
    match (Publish generation source value now s).1 with
    | Some _ => view now s
    | None => abstract_put (observation_identity source value) value (view now s)
    end.
Proof.
  intros Hwf.
  destruct (Publish_cases generation source value now s) as [[err ->]|(Hv & _ & _ & _ & ->)]; [done|].
  by apply admit_view.
Qed.

(** [Publish] succeeds exactly on a valid observation from the current generation
    of its instance whose revision is newer than the live one (or which repeats it
    verbatim), and which, when its identity is new, is resolved or finds room. *)
Theorem Publish_accepts generation source value now s :
  (Publish generation source value now s).1 = None <->
  ValidObservation value now
  /\ src_PluginID source <> EmptyString /\ src_Generation source <> 0
  /\ current_generation generation source value = true
  /\ match view now s !! observation_identity source value with
     | Some current => obs_Revision current < obs_Revision value \/ value = current
     | None => obs_Disposition value = DispositionResolved
               \/ atCapacityLocked (pruned_store now s)
                    (mkExclusionKey (observation_identity source value) (src_Generation source)) = false
     end.
Proof.
  rewrite <- Observation_Validate_None, <- admit_accepts.
  unfold Publish. fold (current_generation generation source value). rewrite cloneObservation_id.
  destruct (Observation_Validate value now); [naive_solver|].
  destruct (String.eqb_spec (src_PluginID source) EmptyString), (Z.eqb_spec (src_Generation source) 0),
    (current_generation generation source value); simpl; naive_solver.
Qed.

(** In every store reached from the empty one, at most 2048 identities are held,
    live or excluded, at most 512 of one plugin, 256 of one instance and 128 of one
    channel; so the number of live observations obeys the same limits. *)
Theorem store_capacity ops :
  WithinCapacity (run ops NewStore)
  /\ Z.of_nat (size (store_records (run ops NewStore))) <= globalCapacity.
Proof.
  pose proof (run_WithinCapacity ops) as H. split; [done|].
  rewrite <- size_dom. pose proof (subseteq_size _ _ (dom_records_identities (run ops NewStore))).
  pose proof (wc_global _ H). lia.
Qed.

(** A snapshot lists, in the order of their string identities, exactly the live
    records that no watermark excludes, each once. *)
Theorem Snapshot_spec ops now :
  let s := run ops NewStore in
  StronglySorted (not_after (cmp_key Record_ID)) (Snapshot now s).1
  /\ forall r, r ∈ (Snapshot now s).1 <->
     store_records s !! Record_Identity r = Some r /\ live_at now r = true
     /\ excluded (store_watermarks s) (Record_Identity r) r = false.
Proof.
  split; [apply Snapshot_sorted|]. intros r. apply elem_of_Snapshot, run_WellFormed.
Qed.

(** A dismissed revision stays out. Once [ExcludeRevisionWithoutSignal] has
    excluded a revision, no later snapshot contains that or an earlier revision of
    the observation's generation, whatever happens in between short of removing the
    app instance. *)
Theorem exclusion_is_permanent ops1 id generation revision ops2 now r :
  (ExcludeRevisionWithoutSignal id generation revision (run ops1 NewStore)).1 = true ->
  0 < revision ->
  Forall (fun op => ~ forgets id generation op) ops2 ->
  r ∈ (Snapshot now (run ops2
        (ExcludeRevisionWithoutSignal id generation revision (run ops1 NewStore)).2)).1 ->
  Record_Identity r = id -> rec_Generation r = generation ->
  revision < obs_Revision (rec_Observation r).
Proof.
  intros Hok Hpos Hops Hin Hid Hgen.
  set (s1 := (ExcludeRevisionWithoutSignal _ _ _ _).2) in *.
  assert (Hex1 : excluded_through id generation revision s1).
  { subst s1. unfold ExcludeRevisionWithoutSignal in *. destruct (negb _); [done|].
    apply excludeThrough_through. }
  assert (Hwf : WellFormed (run ops2 s1)).
  { apply run_ind; [|auto using apply_op_WellFormed]. subst s1.
    apply (apply_op_WellFormed (OpExclude id generation revision)), run_WellFormed. }
  assert (Hex2 : excluded_through id generation revision (run ops2 s1)).
  { clear Hin Hwf. revert Hex1. generalize s1. clear s1 Hok.
    induction Hops as [|op ops2 Hop _ IH]; intros s Hs; [done|]. simpl. by apply IH, apply_op_excluded. }
  apply elem_of_Snapshot in Hin as (_ & _ & Hout); [|done].
  unfold excluded in Hout. destruct Hex2 as (st & Hst & Hle).
  rewrite Hid, Hgen, Hst in Hout. lia.
Qed.

(** Admission sequences are unique, so ties between equally important candidates
    are broken by order of admission. The counter cannot wrap in fewer than 2^63
    operations. *)
Theorem admissions_unique ops i j r q :
  2 * Z.of_nat (length ops) < two64 ->
  store_records (run ops NewStore) !! i = Some r -> store_records (run ops NewStore) !! j = Some q ->
  rec_AdmissionSequence r = rec_AdmissionSequence q -> i = j.
Proof. intros Hn. apply (ad_unique _ _ (run_Admissions ops Hn)). Qed.

(** ** Witnesses *)

#[export] Instance ObservationRecord_eq_dec : EqDecision ObservationRecord.
Proof. solve_decision. Defined.

Definition demo_now : Time := mkTime 5000 0.

Definition demo_scene : Scene :=
  mkScene [mkElement "title" DisplayFront 0 0 (Some (mkTextElement "Ready" "normal" EmptyString EmptyString 0 None))
    None None None None].

Definition demo_observation (key : string) (revision : Z) (disposition : string) : Observation :=
  mkObservation (mkInstanceRef "test" 1) "main" key revision disposition ImpactNormal "ready"
    (mkTime 1000 0) (mkTime 1000 0) (mkTime 9000 0)
    (if disposition =s DispositionResolved then None else Some demo_scene) None None.

Definition demo_source : Source := mkSource "dev.bsbctl.test" 1.

Definition demo_publish (key : string) (revision : Z) : StoreOp :=
  OpPublish None demo_source (demo_observation key revision DispositionNotable) demo_now.

Definition demo_id (key : string) : Identity := mkIdentity "dev.bsbctl.test" "test" "main" key.

Definition demo_record (key : string) (revision admission : Z) : ObservationRecord :=
  mkRecord "dev.bsbctl.test" 1 admission (demo_observation key revision DispositionNotable).

Lemma Publish_refines_witness :
  let s := run [demo_publish "a" 1] NewStore in
  view demo_now (Publish None demo_source (demo_observation "a" 2 DispositionResolved) demo_now s).2
  = match (Publish None demo_source (demo_observation "a" 2 DispositionResolved) demo_now s).1 with
    | Some _ => view demo_now s
    | None => abstract_put (demo_id "a") (demo_observation "a" 2 DispositionResolved) (view demo_now s)
    end.
Proof.
  exact (Publish_refines None demo_source (demo_observation "a" 2 DispositionResolved) demo_now
    (run [demo_publish "a" 1] NewStore) (run_WellFormed _)).
Defined.

Lemma exclusion_is_permanent_witness : 1 < obs_Revision (rec_Observation (demo_record "a" 2 2)).
Proof.
  apply (exclusion_is_permanent [demo_publish "a" 1] (demo_id "a") 1 1 [demo_publish "a" 2] demo_now
    (demo_record "a" 2 2)).
  - vm_compute. reflexivity.
  - reflexivity.
  - apply Forall_singleton. intros [].
  - apply (bool_decide_unpack _). vm_compute. exact I.
  - reflexivity.
  - reflexivity.
Defined.

Lemma admissions_unique_witness : demo_id "a" = demo_id "a".
Proof.
  apply (admissions_unique [demo_publish "a" 1; demo_publish "b" 1] _ _ (demo_record "a" 1 1) (demo_record "a" 1 1));
    vm_compute; reflexivity.
Defined.
