(* ===== verification/AttentionSelector.v ===== *)
(** * Attention: eligibility, explanation and selection

    Models [src/internal/attention/selector.go]: the mode eligibility of each
    observation record, the rotation schedule, the candidate derived from an
    eligible record, and [Select], which delegates the choice to the display
    arbiter and explains every record's outcome. [SelectWith] is the body over any
    arbiter; the theorems that only need the arbiter's contract are proved for
    every instance of [Presentation.Arbiter]. *)

From Stdlib Require Import ZArith Lia ZifyBool.
From S2P Require Import Prelude GoStrings GoTime Identifier Protocol Presentation ObservationStore.

(** ** Reasons, rules and evaluations *)

Definition ReasonSelected : string := "selected".
Definition ReasonDisabled : string := "disabled".
Definition ReasonAssetsPending : string := "assets_pending".
Definition ReasonExpired : string := "expired".
Definition ReasonResolved : string := "resolved".
Definition ReasonNotActionableForAttention : string := "not_actionable_for_attention".
Definition ReasonNotRelevant : string := "not_relevant".
Definition ReasonNotDue : string := "not_due".
Definition ReasonAcknowledged : string := "acknowledged".
Definition ReasonCooldownUntil : string := "cooldown_until".
Definition ReasonHeldByCurrent : string := "held_by_current".
Definition ReasonLowerBand : string := "lower_band".
Definition ReasonLowerImpact : string := "lower_impact".
Definition ReasonFairnessWait : string := "fairness_wait".
Definition ReasonForegroundInactive : string := "foreground_inactive".
Definition ReasonBlockedByAtomicExecution : string := "blocked_by_atomic_execution".

Record Rule := mkRule {
  rule_Enabled : bool;
  rule_AssetsReady : bool;
  rule_Policy : string;
  rule_DevicePriority : Z;
  rule_HoldMS : Z;
  rule_CooldownMS : Z;
  rule_RequiresAck : bool;
  rule_Acknowledged : bool;
  rule_Foreground : bool;
  rule_RotationIntervalMS : Z;
  rule_RotationJitterPercent : Z;
  rule_BlockedByAtomicExecution : bool;
}.

(** [Resolver]: the rule of a record, and whether there is one. *)
Definition Resolver : Type := ObservationRecord -> Rule * bool.

Record Evaluation := mkEvaluation {
  ev_ObservationID : string;
  ev_PluginID : string;
  ev_InstanceID : string;
  ev_Channel : string;
  ev_Policy : string;
  ev_Disposition : string;
  ev_Impact : string;
  ev_Band : string;
  ev_ReasonCode : string;
  ev_Reason : string;
  ev_EvaluatedAt : Time;
  ev_CooldownUntil : Time;
  ev_NextDue : Time;
}.

Record AttentionDecision := mkAttentionDecision {
  ad_Candidate : option Candidate;
  ad_Evaluations : list Evaluation;
}.

Definition with_Reason (reason : string) (e : Evaluation) : Evaluation :=
  mkEvaluation (ev_ObservationID e) (ev_PluginID e) (ev_InstanceID e) (ev_Channel e) (ev_Policy e)
    (ev_Disposition e) (ev_Impact e) (ev_Band e) (ev_ReasonCode e) reason (ev_EvaluatedAt e)
    (ev_CooldownUntil e) (ev_NextDue e).

(** ** Mode eligibility *)

Definition ineligibleReason (rule : Rule) (disposition : string) : string :=
  let relevant := one_of disposition [DispositionNotable; DispositionActionable] in
  if rule_Policy rule =s PolicyAttention then
    if negb (disposition =s DispositionActionable) then ReasonNotActionableForAttention else EmptyString
  else if rule_Policy rule =s PolicyInteractive then
    if negb (rule_Foreground rule) then ReasonForegroundInactive else EmptyString
  else if rule_Policy rule =s PolicyWhenRelevant then
    if negb relevant then ReasonNotRelevant else EmptyString
  else if rule_Policy rule =s PolicyRotation then
    if negb relevant then ReasonNotRelevant else EmptyString
  else ReasonDisabled.

(** ** The rotation schedule *)

(** [hash/fnv]'s 64-bit FNV-1a hash. *)
Fixpoint fnv64a_from (hash : Z) (s : string) : Z :=
  match s with
  | EmptyString => hash
  | String c s' => fnv64a_from (u64 (Z.lxor hash (byte c) * 1099511628211)) s'
  end.

Definition fnv64a (s : string) : Z := fnv64a_from 14695981039346656037 s.

(** [jitterPercent] after its two clamps. *)
Definition clamp_jitter (jitterPercent : Z) : Z :=
  let jitterPercent := if jitterPercent <? 0 then 0 else jitterPercent in
  if 50 <? jitterPercent then 50 else jitterPercent.

Definition offset_basis_points (id : string) (jitterPercent : Z) : Z :=
  let maximumBasisPoints := jitterPercent * 100 in
  let span := 2 * maximumBasisPoints + 1 in
  fnv64a id mod span - maximumBasisPoints.

Definition rotationNextDue (id : string) (lastShown : Time) (intervalMS jitterPercent : Z) : Time :=
  if IsZero lastShown then zero_time else
  let interval := dur_mul intervalMS Millisecond in
  if interval <=? 0 then lastShown else
  let jitterPercent := clamp_jitter jitterPercent in
  if jitterPercent =? 0 then Add lastShown interval else
  let jitter := dur_mul (dur_div interval 10000) (offset_basis_points id jitterPercent) in
  Add lastShown (dur_add interval jitter).

(** ** Candidates *)

Definition derive (record : ObservationRecord) (rule : Rule) : Candidate :=
  let value := rec_Observation record in
  let scene := default (mkScene []) (obs_Scene value) in
  {| cand_PluginID := rec_PluginID record;
     cand_InstanceID := ref_ID (obs_Instance value);
     cand_Channel := obs_Channel value;
     cand_Key := obs_Key value;
     cand_Revision := obs_Revision value;
     cand_Generation := rec_Generation record;
     cand_Policy := rule_Policy rule;
     cand_Band := BandFor (rule_Policy rule) (obs_Impact value);
     cand_Impact := obs_Impact value;
     cand_AdmissionSequence := rec_AdmissionSequence record;
     cand_Reason := obs_ReasonCode value;
     cand_CreatedAt := obs_ObservedAt value;
     cand_UpdatedAt := obs_UpdatedAt value;
     cand_ExpiresAt := obs_ValidUntil value;
     cand_HoldMS := rule_HoldMS rule;
     cand_CooldownMS := rule_CooldownMS rule;
     cand_RequiresAck := rule_RequiresAck rule;
     cand_Acknowledged := rule_Acknowledged rule;
     cand_DevicePriority := rule_DevicePriority rule;
     cand_Scene := scene;
     cand_BusyTimer := obs_BusyTimer value;
     cand_AudioCue := obs_Audio value |}.

(** ** Selection *)

(** One iteration of the first loop: the evaluation stored at the record's index,
    and the candidate appended when no [continue] was taken. *)
Definition evaluate (resolve : Resolver) (history : History) (now : Time)
    (record : ObservationRecord) : Evaluation * option Candidate :=
  let value := rec_Observation record in
  let '(rule, exists_) := resolve record in
  let evaluation band reason cooldownUntil nextDue :=
    mkEvaluation (Record_ID record) (rec_PluginID record) (ref_ID (obs_Instance value))
      (obs_Channel value) (rule_Policy rule) (obs_Disposition value) (obs_Impact value) band
      (obs_ReasonCode value) reason now cooldownUntil nextDue in
  let stop reason := (evaluation EmptyString reason zero_time zero_time, None) in
  if negb exists_ || negb (rule_Enabled rule) then stop ReasonDisabled
  else if negb (rule_AssetsReady rule) then stop ReasonAssetsPending
  else if obs_Disposition value =s DispositionResolved then stop ReasonResolved
  else if IsZero (obs_ValidUntil value) || negb (Before now (obs_ValidUntil value)) then
    stop ReasonExpired
  else if rule_RequiresAck rule && rule_Acknowledged rule then stop ReasonAcknowledged
  else if rule_BlockedByAtomicExecution rule then stop ReasonBlockedByAtomicExecution
  else
  let reason := ineligibleReason rule (obs_Disposition value) in
  if negb (reason =s EmptyString) then stop reason else
  let candidate := derive record rule in
  let lastShown := last_shown history (Candidate_ID candidate) in
  let is_current := Candidate_ID candidate =s CurrentID history in
  let nextDue :=
    if rule_Policy rule =s PolicyRotation then
      rotationNextDue (Candidate_ID candidate) lastShown (rule_RotationIntervalMS rule)
        (rule_RotationJitterPercent rule)
    else zero_time in
  let withinCurrentHold := is_current && Before now (Add (CurrentSince history) (Hold candidate)) in
  if (rule_Policy rule =s PolicyRotation) && negb withinCurrentHold && negb (IsZero nextDue)
     && Before now nextDue then
    (evaluation (cand_Band candidate) ReasonNotDue zero_time nextDue, None)
  else if negb is_current && negb (IsZero lastShown)
          && Before now (Add lastShown (Cooldown candidate)) then
    (evaluation (cand_Band candidate) ReasonCooldownUntil (Add lastShown (Cooldown candidate)) nextDue, None)
  else (evaluation (cand_Band candidate) EmptyString zero_time nextDue, Some candidate).

(** The entries [{candidate, index}] of [eligible], in order. *)
Fixpoint eligible_from (index : nat) (results : list (Evaluation * option Candidate)) : list (nat * Candidate) :=
  match results with
  | [] => []
  | (_, None) :: results' => eligible_from (S index) results'
  | (_, Some candidate) :: results' => (index, candidate) :: eligible_from (S index) results'
  end.

(** The reason the second loop gives to an eligible candidate. *)
Definition outcome_reason (selected : Candidate) (history : History) (now : Time) (candidate : Candidate) : string :=
  if Candidate_ID candidate =s Candidate_ID selected then ReasonSelected
  else if CompareBand (cand_Band candidate) (cand_Band selected) <? 0 then ReasonLowerBand
  else if CompareImpact (cand_Impact candidate) (cand_Impact selected) <? 0 then ReasonLowerImpact
  else if (Candidate_ID selected =s CurrentID history)
          && Before now (Add (CurrentSince history) (Hold selected)) then ReasonHeldByCurrent
  else ReasonFairnessWait.

(** The second loop. *)
Definition explain (reason : Candidate -> string) (eligible : list (nat * Candidate))
    (evaluations : list Evaluation) : list Evaluation :=
  fold_left (fun evaluations value => alter (with_Reason (reason value.2)) value.1 evaluations)
    eligible evaluations.

Definition SelectWith (select : list Candidate -> History -> Time -> Decision)
    (records : list ObservationRecord) (resolve : Resolver) (history : History) (now : Time)
    : AttentionDecision :=
  let results := map (evaluate resolve history now) records in
  let evaluations := map fst results in
  let eligible := eligible_from 0 results in
  match decided (select (map snd eligible) history now) with
  | None => mkAttentionDecision None evaluations
  | Some selected =>
    mkAttentionDecision (Some selected) (explain (outcome_reason selected history now) eligible evaluations)
  end.

(** [attention.Select], over [presentation.Select]. *)
Definition Select : list ObservationRecord -> Resolver -> History -> Time -> AttentionDecision :=
  SelectWith Presentation.Select.

(** ** Specification *)

(** What makes a record a contender for the display: the record's rule allows it in
    its mode, it is live, and neither the rotation schedule nor its cooldown holds
    it back. *)
Definition mode_allows (rule : Rule) (disposition : string) : Prop :=
  (rule_Policy rule = PolicyAttention /\ disposition = DispositionActionable)
  \/ (rule_Policy rule = PolicyInteractive /\ rule_Foreground rule = true)
  \/ ((rule_Policy rule = PolicyWhenRelevant \/ rule_Policy rule = PolicyRotation)
      /\ (disposition = DispositionNotable \/ disposition = DispositionActionable)).

Record Contender (resolve : Resolver) (history : History) (now : Time)
    (record : ObservationRecord) (rule : Rule) (candidate : Candidate) : Prop := mkContender {
  cont_resolves : resolve record = (rule, true);
  cont_enabled : rule_Enabled rule = true;
  cont_ready : rule_AssetsReady rule = true;
  cont_unblocked : rule_BlockedByAtomicExecution rule = false;
  cont_unacknowledged : rule_RequiresAck rule && rule_Acknowledged rule = false;
  cont_mode : mode_allows rule (obs_Disposition (rec_Observation record));
  cont_unresolved : obs_Disposition (rec_Observation record) <> DispositionResolved;
  cont_expires : IsZero (obs_ValidUntil (rec_Observation record)) = false;
  cont_live : instant now < instant (obs_ValidUntil (rec_Observation record));
  cont_candidate : candidate = derive record rule;
  cont_cooled : in_cooldown history now candidate = false;
  cont_due : rule_Policy rule = PolicyRotation ->
    let nextDue := rotationNextDue (Candidate_ID candidate) (last_shown history (Candidate_ID candidate))
         (rule_RotationIntervalMS rule) (rule_RotationJitterPercent rule) in
    (Candidate_ID candidate = CurrentID history
     /\ Before now (Add (CurrentSince history) (Hold candidate)) = true)
    \/ IsZero nextDue = true \/ instant nextDue <= instant now;
}.

(** ** Lemmas *)

Lemma mode_allows_spec rule disposition :
  ineligibleReason rule disposition = EmptyString <-> mode_allows rule disposition.
Proof.
  unfold ineligibleReason, mode_allows, one_of. cbn [existsb]. rewrite orb_false_r.
  destruct (String.eqb_spec (rule_Policy rule) PolicyAttention) as [->|Ha];
    [destruct (String.eqb_spec disposition DispositionActionable); naive_solver|].
  destruct (String.eqb_spec (rule_Policy rule) PolicyInteractive) as [->|Hi];
    [destruct (rule_Foreground rule); naive_solver|].
  destruct (String.eqb_spec (rule_Policy rule) PolicyWhenRelevant) as [->|Hw];
    [|destruct (String.eqb_spec (rule_Policy rule) PolicyRotation) as [->|Hr]; [|naive_solver]];
    destruct (String.eqb_spec disposition DispositionNotable), (String.eqb_spec disposition DispositionActionable);
    naive_solver.
Qed.

Lemma derive_ID record rule : Candidate_ID (derive record rule) = Record_ID record.
Proof. reflexivity. Qed.

(** The reasons of a record that is not a contender. *)
Definition stop_reasons : list string :=
  [ReasonDisabled; ReasonAssetsPending; ReasonResolved; ReasonExpired; ReasonAcknowledged;
   ReasonBlockedByAtomicExecution; ReasonNotActionableForAttention; ReasonForegroundInactive;
   ReasonNotRelevant; ReasonNotDue; ReasonCooldownUntil].

(** The reasons of a contender. *)
Definition contender_reasons : list string :=
  [ReasonSelected; ReasonLowerBand; ReasonLowerImpact; ReasonHeldByCurrent; ReasonFairnessWait].

Lemma ineligibleReason_stop rule disposition :
  (ineligibleReason rule disposition =s EmptyString) = false ->
  one_of (ineligibleReason rule disposition) stop_reasons = true.
Proof. unfold ineligibleReason. repeat case_if; done. Qed.

(** What the evaluation of a record is, as the candidate it yields. *)
Definition evaluates (resolve : Resolver) (history : History) (now : Time) (record : ObservationRecord)
    (result : Evaluation * option Candidate) : Prop :=
  ev_ObservationID result.1 = Record_ID record
  /\ match result.2 with
     | Some c => ev_Reason result.1 = EmptyString /\ exists rule, Contender resolve history now record rule c
     | None => one_of (ev_Reason result.1) stop_reasons = true
               /\ forall rule c, ~ Contender resolve history now record rule c
     end.

(** Refutes a contender with the guard that stopped the evaluation. *)
Ltac no_contender Hr :=
  split; [reflexivity|]; split; [reflexivity || assumption|];
  intros rule' c' [Hres Hen Hready Hblock Hack Hmode Hopen Hexp Hlive Hc Hcool Hdue];
  rewrite Hr in Hres; first [injection Hres as <- -> | injection Hres as <-]; try subst c'; cbv zeta in Hdue.

Lemma evaluate_spec resolve history now record :
  evaluates resolve history now record (evaluate resolve history now record).
Proof.
  unfold evaluate. destruct (resolve record) as [rule present] eqn:Hr.
  destruct (negb present || negb (rule_Enabled rule)) eqn:H1; [no_contender Hr; by rewrite Hen in H1|].
  destruct (negb (rule_AssetsReady rule)) eqn:H2; [no_contender Hr; by rewrite Hready in H2|].
  destruct (obs_Disposition (rec_Observation record) =s DispositionResolved) eqn:H3.
  { no_contender Hr. by apply String.eqb_eq in H3. }
  destruct (IsZero _ || _) eqn:H4.
  { no_contender Hr. rewrite Hexp in H4. unfold Before in H4. lia. }
  destruct (rule_RequiresAck rule && rule_Acknowledged rule) eqn:H5; [no_contender Hr; congruence|].
  destruct (rule_BlockedByAtomicExecution rule) eqn:H6; [no_contender Hr; congruence|].
  destruct (ineligibleReason rule _ =s EmptyString) eqn:H7; cbn [negb].
  2: { pose proof (ineligibleReason_stop _ _ H7). no_contender Hr.
       apply mode_allows_spec in Hmode. by rewrite Hmode in H7. }
  apply String.eqb_eq, mode_allows_spec in H7.
  apply orb_false_iff in H1 as [Hp%negb_false_iff He%negb_false_iff]. subst present.
  apply negb_false_iff in H2. apply String.eqb_neq in H3.
  apply orb_false_iff in H4 as [H4 H4'%negb_false_iff%Before_spec].
  set (c := derive record rule). set (shown := last_shown history (Candidate_ID c)).
  destruct ((rule_Policy rule =s PolicyRotation) && _ && _ && _) eqn:H8.
  - rewrite !andb_true_iff, !negb_true_iff in H8. destruct H8 as [[[Hrot Hhold] Hz] Hb].
    rewrite Hrot in Hz, Hb. apply String.eqb_eq in Hrot. apply Before_spec in Hb.
    no_contender Hr. destruct (Hdue Hrot) as [[Hid Hb']|[Hz'|Hle]].
    + fold c in Hid, Hb'. rewrite Hid, String.eqb_refl, Hb' in Hhold. done.
    + fold c shown in Hz'. congruence.
    + fold c shown in Hle. lia.
  - destruct (_ && _ && Before now (Add shown (Cooldown c))) eqn:H9.
    + no_contender Hr. unfold in_cooldown in Hcool. fold c shown in Hcool. congruence.
    + split; [reflexivity|]. split; [reflexivity|]. exists rule. constructor; try done.
      intros Hrot. rewrite Hrot in H8. cbn [String.eqb] in H8.
      revert H8. change (PolicyRotation =s PolicyRotation) with true. cbn iota.
      rewrite !andb_false_iff, !negb_false_iff. fold c shown.
      unfold Before at 2. rewrite Z.ltb_ge. rewrite andb_true_iff, String.eqb_eq.
      intros [[[?|?]|?]|?]; [done|by left|by right; left|by right; right].
Qed.

Lemma contender_unique resolve history now record rule rule' c c' :
  Contender resolve history now record rule c -> Contender resolve history now record rule' c' -> c = c'.
Proof. intros [] []. congruence. Qed.

Lemma evaluate_Some resolve history now record c :
  (evaluate resolve history now record).2 = Some c
  <-> exists rule, Contender resolve history now record rule c.
Proof.
  destruct (evaluate_spec resolve history now record) as [_ H].
  destruct (evaluate resolve history now record) as [ev [c'|]]; simpl in *.
  - destruct H as (_ & rule & Hc). split; [intros [= <-]; by exists rule|].
    intros [rule' Hc']. f_equal. by eapply contender_unique.
  - split; [done|]. intros [rule Hc]. by destruct (proj2 H rule c).
Qed.

(** A contender passes every filter of the arbiter. *)
Lemma contender_competes resolve history now record rule c :
  Contender resolve history now record rule c -> competes history now c = true.
Proof.
  intros [_ _ _ _ Hack _ _ Hexp Hlive -> Hcool _]. unfold competes. rewrite Hcool, andb_true_r.
  unfold Eligible. cbn [cand_ExpiresAt derive cand_Policy cand_RequiresAck cand_Acknowledged].
  rewrite Hexp, (proj2 (Before_spec _ _) Hlive). simpl.
  by rewrite <- andb_assoc, Hack, andb_false_r.
Qed.

(** *** The second loop *)

Lemma elem_of_eligible_from k results i c :
  (i, c) ∈ eligible_from k results
  <-> exists j ev, i = (k + j)%nat /\ results !! j = Some (ev, Some c).
Proof.
  revert k. induction results as [|[ev [d|]] results IH]; intros k; simpl.
  - rewrite elem_of_nil. split; [done|]. by intros (j & ev & _ & [=]).
  - rewrite elem_of_cons, IH. split.
    + intros [[= -> ->]|(j & ev' & -> & Hj)]; [by exists 0%nat, ev; rewrite Nat.add_0_r|].
      exists (S j), ev'. split; [lia|done].
    + intros ([|j] & ev' & -> & Hj); [left; simpl in Hj; rewrite Nat.add_0_r; congruence|right].
      exists j, ev'. split; [lia|done].
  - rewrite IH. split.
    + intros (j & ev' & -> & Hj). exists (S j), ev'. split; [lia|done].
    + intros ([|j] & ev' & -> & Hj); [discriminate|]. exists j, ev'. split; [lia|done].
Qed.

Lemma length_explain reason eligible evaluations :
  length (explain reason eligible evaluations) = length evaluations.
Proof.
  revert evaluations. induction eligible as [|v vs IH]; intros evs; simpl; [done|].
  rewrite IH. apply length_alter.
Qed.

Lemma explain_other reason eligible evaluations i :
  (forall c, (i, c) ∉ eligible) -> explain reason eligible evaluations !! i = evaluations !! i.
Proof.
  revert evaluations. induction eligible as [|[j d] vs IH]; intros evs Hn; simpl; [done|].
  rewrite IH by (intros c Hc; apply (Hn c); by right).
  apply list_lookup_alter_ne. intros ->. apply (Hn d). by left.
Qed.

Lemma explain_lookup reason k results evaluations j ev c :
  results !! j = Some (ev, Some c) ->
  explain reason (eligible_from k results) evaluations !! (k + j)%nat
  = with_Reason (reason c) <$> evaluations !! (k + j)%nat.
Proof.
  revert k j evaluations. induction results as [|[ev' [d|]] results IH]; intros k j evs Hj; [discriminate| |].
  - destruct j as [|j]; simpl in *.
    + injection Hj as -> ->. rewrite Nat.add_0_r, explain_other, list_lookup_alter_eq; [done|].
      intros c' (j & ev' & Hk & _)%elem_of_eligible_from. lia.
    + rewrite Nat.add_succ_r. change (S (k + j)) with (S k + j)%nat. rewrite IH by done.
      f_equal. apply list_lookup_alter_ne. lia.
  - destruct j as [|j]; simpl in *; [done|].
    rewrite Nat.add_succ_r. change (S (k + j)) with (S k + j)%nat. by rewrite IH.
Qed.

Section over_any_arbiter.
Context (select : list Candidate -> History -> Time -> Decision) {Hselect : Arbiter select}.
Context (records : list ObservationRecord) (resolve : Resolver) (history : History) (now : Time).

Notation results := (map (evaluate resolve history now) records).
Notation candidates := (map snd (eligible_from 0 results)).
Notation decision := (SelectWith select records resolve history now).

Lemma elem_of_candidates c :
  c ∈ candidates
  <-> exists record rule, record ∈ records /\ Contender resolve history now record rule c.
Proof.
  rewrite list_elem_of_fmap. split.
  - intros ([i d] & -> & (j & ev & _ & Hj)%elem_of_eligible_from). simpl.
    rewrite list_lookup_fmap in Hj. apply fmap_Some in Hj as (record & Hrec & Hev).
    destruct (proj1 (evaluate_Some resolve history now record d)) as [rule Hc]; [by rewrite <- Hev|].
    exists record, rule. split; [by eapply list_elem_of_lookup_2|done].
  - intros (record & rule & [j Hj]%list_elem_of_lookup & Hc).
    exists (j, c). split; [done|]. apply elem_of_eligible_from.
    exists j, (evaluate resolve history now record).1. split; [done|].
    rewrite list_lookup_fmap, Hj. simpl.
    assert (He : (evaluate resolve history now record).2 = Some c) by (apply evaluate_Some; by exists rule).
    rewrite <- He. by destruct (evaluate resolve history now record).
Qed.

Lemma SelectWith_Candidate : ad_Candidate decision = decided (select candidates history now).
Proof. unfold SelectWith. by destruct (decided _). Qed.

Lemma SelectWith_None :
  ad_Candidate decision = None ->
  forall record rule c, record ∈ records -> ~ Contender resolve history now record rule c.
Proof.
  rewrite SelectWith_Candidate. intros Hnone record rule c Hin Hc.
  apply (arbiter_total candidates history now c); [|by eapply contender_competes|done].
  apply elem_of_candidates. by exists record, rule.
Qed.

Lemma SelectWith_Some w :
  ad_Candidate decision = Some w ->
  exists record rule, record ∈ records /\ Contender resolve history now record rule w.
Proof.
  rewrite SelectWith_Candidate. intros Hw. apply elem_of_candidates.
  by apply (arbiter_competes candidates history now w) in Hw as [? _].
Qed.

(** The evaluation reported for the record at index [i]. *)
Lemma SelectWith_lookup i record :
  records !! i = Some record ->
  let '(ev, candidate) := evaluate resolve history now record in
  match candidate with
  | None => ad_Evaluations decision !! i = Some ev
  | Some c => exists w, ad_Candidate decision = Some w
      /\ ad_Evaluations decision !! i = Some (with_Reason (outcome_reason w history now c) ev)
  end.
Proof.
  intros Hi. destruct (evaluate resolve history now record) as [ev candidate] eqn:He.
  assert (Hres : results !! i = Some (ev, candidate)) by (by rewrite list_lookup_fmap, Hi; simpl; rewrite He).
  assert (Hev : map fst results !! i = Some ev) by (by rewrite list_lookup_fmap, Hres).
  destruct candidate as [c|].
  - destruct (ad_Candidate decision) as [w|] eqn:Hw.
    + exists w. split; [done|]. rewrite SelectWith_Candidate in Hw. unfold SelectWith. rewrite Hw.
      cbn [ad_Evaluations]. pose proof (explain_lookup (outcome_reason w history now) 0 results
        (map fst results) i ev c Hres) as Hl. simpl in Hl. by rewrite Hl, Hev.
    + destruct (evaluate_Some resolve history now record c) as [[rule Hc] _]; [by rewrite He|].
      destruct (SelectWith_None Hw record rule c); [by eapply list_elem_of_lookup_2|done].
  - unfold SelectWith. destruct (decided _); [|done]. cbn [ad_Evaluations].
    rewrite explain_other; [done|]. intros d (j & ev' & -> & Hj)%elem_of_eligible_from.
    simpl in Hres. congruence.
Qed.

Lemma length_Evaluations : length (ad_Evaluations decision) = length records.
Proof.
  unfold SelectWith. destruct (decided _); cbn [ad_Evaluations]; rewrite ?length_explain, !length_map; done.
Qed.
End over_any_arbiter.

Lemma reasons_disjoint reason :
  one_of reason contender_reasons = true -> one_of reason stop_reasons = false.
Proof.
  rewrite one_of_spec. intros H.
  repeat (apply elem_of_cons in H as [->|H]; [reflexivity|]). by apply elem_of_nil in H.
Qed.

Lemma outcome_reason_contender w history now c :
  one_of (outcome_reason w history now c) contender_reasons = true.
Proof. unfold outcome_reason. by repeat case_if. Qed.

Lemma outcome_reason_selected w history now c :
  outcome_reason w history now c = ReasonSelected <-> Candidate_ID c = Candidate_ID w.
Proof.
  unfold outcome_reason. destruct (String.eqb_spec (Candidate_ID c) (Candidate_ID w)); [done|].
  by repeat case_if.
Qed.

Lemma contender_ID resolve history now record rule c :
  Contender resolve history now record rule c -> Candidate_ID c = Record_ID record.
Proof. by intros [_ _ _ _ _ _ _ _ _ -> _ _]. Qed.

(** *** The jitter *)

Lemma offset_bounds id jitterPercent :
  0 <= jitterPercent ->
  - (jitterPercent * 100) <= offset_basis_points id jitterPercent <= jitterPercent * 100.
Proof.
  intros Hj. unfold offset_basis_points.
  pose proof (Z.mod_pos_bound (fnv64a id) (2 * (jitterPercent * 100) + 1)). lia.
Qed.

Lemma clamp_jitter_range jitterPercent : 0 <= clamp_jitter jitterPercent <= 50.
Proof. unfold clamp_jitter. repeat case_if; lia. Qed.

(** The jitter stays within [j] percent of the interval, and nothing wraps. *)
Lemma jitter_bounds x j o :
  0 < x -> x * 3 <= two63 -> 0 <= j <= 50 -> - (j * 100) <= o <= j * 100 ->
  let y := dur_mul (dur_div x 10000) o in
  dur_add x y = x + y /\ 100 * Z.abs y <= x * j.
Proof.
  intros Hx Hbig Hj Ho. cbv zeta. unfold dur_div. rewrite Z.quot_div_nonneg by lia.
  set (q := x / 10000). assert (Hq : 0 <= q /\ q * 10000 <= x) by (unfold q; pose proof (Z.mul_div_le x 10000); pose proof (Z.div_pos x 10000); lia).
  rewrite (i64_small q) by (unfold two63 in *; lia).
  assert (Hqo : 100 * Z.abs (q * o) <= x * j).
  { rewrite Z.abs_mul, (Z.abs_eq q) by lia.
    assert (q * Z.abs o <= q * (j * 100)) by (apply Z.mul_le_mono_nonneg_l; lia).
    assert (q * 10000 * j <= x * j) by (apply Z.mul_le_mono_nonneg_r; lia). lia. }
  assert (Hxj : x * j <= x * 50) by nia. unfold two63 in *.
  rewrite dur_mul_small by (unfold two63; lia). split; [|done].
  apply dur_add_small. unfold two63. lia.
Qed.

(** The mode, band, priority and times the rule gives a record are in range. *)
Record ValidRule (rule : Rule) : Prop := {
  vr_policy : rule_Policy rule ∈ [PolicyAttention; PolicyInteractive; PolicyWhenRelevant; PolicyRotation];
  vr_priority : 0 <= rule_DevicePriority rule <= 100;
  vr_times : 0 <= rule_HoldMS rule /\ 0 <= rule_CooldownMS rule;
}.

(** ** Properties *)

(** A record yields a candidate exactly when it is a contender, and then the
    candidate derived from it: enabled, its assets ready, its mode satisfied,
    unacknowledged, live, and neither waiting for its rotation slot nor in cooldown. *)
Theorem evaluate_contender resolve history now record c :
  (evaluate resolve history now record).2 = Some c
  <-> exists rule, Contender resolve history now record rule c.
Proof. apply evaluate_Some. Qed.

(** C19: over any arbiter that obeys the contract, the selection is a contender of the
    records; another contender outranks it only while the selection is the current one,
    holds, and may not be interrupted by that other; and nothing is selected only when no
    record is a contender. *)
Theorem SelectWith_selects_contender select (Hs : Arbiter select) records resolve history now :
  match ad_Candidate (SelectWith select records resolve history now) with
  | Some w =>
    (exists record rule, record ∈ records /\ Contender resolve history now record rule w)
    /\ forall record rule c, record ∈ records -> Contender resolve history now record rule c -> better c w = true ->
         Candidate_ID w = CurrentID history /\ Before now (Add (CurrentSince history) (Hold w)) = true /\ mayInterrupt c w = false
  | None => forall record rule c, record ∈ records -> ~ Contender resolve history now record rule c
  end.
Proof.
  destruct (ad_Candidate _) as [w|] eqn:Hw; [|by eapply SelectWith_None]. split; [by eapply SelectWith_Some|].
  intros record rule c Hin Hc Hb. rewrite SelectWith_Candidate in Hw. eapply arbiter_best; [exact Hw| |by eapply contender_competes|exact Hb].
  apply elem_of_candidates. by exists record, rule.
Qed.

(** Over any arbiter that obeys the contract, every record gets exactly one
    evaluation, at its own index, with a reason that says on which side it fell:
    [selected] for the selection alone, a losing reason for the other contenders, a
    stopping reason for the rest. *)
Theorem SelectWith_explains_all select (Hs : Arbiter select) records resolve history now i record :
  NoDup (map Record_ID records) -> records !! i = Some record ->
  let decision := SelectWith select records resolve history now in
  length (ad_Evaluations decision) = length records
  /\ exists ev, ad_Evaluations decision !! i = Some ev
  /\ ev_ObservationID ev = Record_ID record
  /\ (ev_Reason ev ∈ contender_reasons <-> exists rule c, Contender resolve history now record rule c)
  /\ (ev_Reason ev ∈ stop_reasons <-> ~ exists rule c, Contender resolve history now record rule c)
  /\ (ev_Reason ev = ReasonSelected
      <-> exists w, ad_Candidate decision = Some w /\ Candidate_ID w = Record_ID record).
Proof.
  intros Hnd Hi. cbv zeta. split; [apply length_Evaluations|].
  pose proof (SelectWith_lookup select records resolve history now i record Hi) as Hl.
  destruct (evaluate_spec resolve history now record) as [Hid Hspec].
  destruct (evaluate resolve history now record) as [ev [c|]]; cbn [fst snd] in Hid, Hspec.
  - destruct Hl as (w & Hw & Hl). destruct Hspec as (_ & rule & Hc).
    exists (with_Reason (outcome_reason w history now c) ev). split; [done|]. split; [done|].
    cbn [ev_Reason with_Reason]. pose proof (outcome_reason_contender w history now c) as Hr.
    split; [|split].
    + split; [intros _; by exists rule, c|intros _; by apply one_of_spec].
    + split; [|intros Hn; destruct Hn; by exists rule, c]. intros Hstop%one_of_spec _.
      by rewrite (reasons_disjoint _ Hr) in Hstop.
    + rewrite outcome_reason_selected, (contender_ID _ _ _ _ _ _ Hc), Hw. naive_solver.
  - exists ev. destruct Hspec as [Hstop Hn]. split; [done|]. split; [done|]. split; [|split].
    + split; [|by intros (rule & c & Hc); destruct (Hn rule c)]. intros Hr%one_of_spec. exfalso.
      by rewrite (reasons_disjoint _ Hr) in Hstop.
    + split; [intros _ (rule & c & Hc); by destruct (Hn rule c)|intros _; by apply one_of_spec].
    + split; [intros Hsel; by rewrite Hsel in Hstop|]. intros (w & Hw & Heq). exfalso.
      apply SelectWith_Some in Hw as (record' & rule & Hin & Hc); [|done].
      rewrite (contender_ID _ _ _ _ _ _ Hc) in Heq.
      apply (NoDup_map_inj Record_ID records) in Heq as ->; [by destruct (Hn rule w)|done|done|].
      by eapply list_elem_of_lookup_2.
Qed.

(** A losing contender is told the truth. [lower_band] means a lower band than the
    selection, [lower_impact] a lower impact, [held_by_current] that the selection is the current
    candidate within its hold, and [fairness_wait] that both have the same band and
    impact and the selection was admitted earlier. *)
Theorem losing_reasons_truthful resolve history now records i record c w :
  records !! i = Some record -> (evaluate resolve history now record).2 = Some c ->
  ad_Candidate (Select records resolve history now) = Some w -> Candidate_ID c <> Candidate_ID w ->
  exists ev, ad_Evaluations (Select records resolve history now) !! i = Some ev
  /\ (ev_Reason ev = ReasonLowerBand /\ bandPriority (cand_Band c) < bandPriority (cand_Band w)
      \/ ev_Reason ev = ReasonLowerImpact /\ impactPriority (cand_Impact c) < impactPriority (cand_Impact w)
      \/ ev_Reason ev = ReasonHeldByCurrent /\ Candidate_ID w = CurrentID history
         /\ Before now (Add (CurrentSince history) (Hold w)) = true
      \/ ev_Reason ev = ReasonFairnessWait /\ bandPriority (cand_Band c) = bandPriority (cand_Band w)
         /\ impactPriority (cand_Impact c) = impactPriority (cand_Impact w) /\ better w c = true).
Proof.
  intros Hi Hc Hw Hne. pose proof (SelectWith_lookup Presentation.Select records resolve history now i record Hi) as Hl.
  destruct (evaluate resolve history now record) as [ev candidate] eqn:He. simpl in Hc. subst candidate.
  destruct Hl as (w' & Hw' & Hl). change (ad_Candidate (Select records resolve history now) = Some w') in Hw'.
  assert (w' = w) as -> by congruence. eexists. split; [exact Hl|]. cbn [ev_Reason with_Reason].
  unfold outcome_reason, CompareBand, CompareImpact.
  rewrite (proj2 (String.eqb_neq _ _) Hne).
  destruct (comparePriority_spec (bandPriority (cand_Band c)) (bandPriority (cand_Band w)))
    as [[-> Hb]|Hb]; [by left|].
  destruct (comparePriority_spec (impactPriority (cand_Impact c)) (impactPriority (cand_Impact w)))
    as [[-> Hm]|Hm]; [right; left; destruct Hb as [[-> ?]|[-> ?]]; done|].
  right; right. destruct ((Candidate_ID w =s CurrentID history) && _) eqn:Hh.
  - left. apply andb_true_iff in Hh as [Hid%String.eqb_eq Hh].
    destruct Hb as [[-> ?]|[-> ?]], Hm as [[-> ?]|[-> ?]]; done.
  - right. assert (Hbw : better c w = false).
    { apply not_true_iff_false. intros Hbw.
      unfold Select in Hw. rewrite SelectWith_Candidate in Hw.
      destruct (proj1 (evaluate_Some resolve history now record c)) as [rule Hcont]; [by rewrite He|].
      destruct (arbiter_best _ _ _ w c Hw) as (Hid & Hbf & _); [|by eapply contender_competes|done|].
      - apply elem_of_candidates. exists record, rule. split; [by eapply list_elem_of_lookup_2|done].
      - by rewrite Hid, String.eqb_refl, Hbf in Hh. }
    assert (Hwc : better w c = true).
    { apply not_false_iff_true. intros Hwc. by apply Hne, better_total. }
    pose proof (proj1 (better_spec w c) Hwc) as Hrank. unfold ranks_below in Hrank.
    split; [by destruct Hb as [[-> ?]|[-> ?]], Hm as [[-> ?]|[-> ?]]|]. lia.
Qed.

(** A rotation entry that was shown is next due within its jitter of the
    configured interval, at most half of it, and never before it was last shown,
    for every interval that leaves room for the jitter in 64 bits. *)
Theorem rotationNextDue_bounds id lastShown intervalMS jitterPercent :
  IsZero lastShown = false -> 0 < intervalMS -> intervalMS * Millisecond * 3 <= two63 ->
  let interval := intervalMS * Millisecond in
  let due := instant (rotationNextDue id lastShown intervalMS jitterPercent) in
  100 * Z.abs (due - (instant lastShown + interval)) <= interval * clamp_jitter jitterPercent
  /\ instant lastShown + interval / 2 <= due.
Proof.
  intros Hz Hi Hbig. cbv zeta. unfold rotationNextDue. rewrite Hz.
  unfold Millisecond in *. rewrite (dur_mul_small intervalMS) by (unfold two63 in *; lia).
  destruct (Z.leb_spec (intervalMS * 1000000) 0); [lia|].
  pose proof (clamp_jitter_range jitterPercent) as Hj.
  destruct (Z.eqb_spec (clamp_jitter jitterPercent) 0) as [->|Hnz]; [cbn [Add instant]; split; [lia|]; pose proof (Z.mul_div_le (intervalMS * 1000000) 2); pose proof (Z.div_pos (intervalMS * 1000000) 2); lia|].
  pose proof (offset_bounds id (clamp_jitter jitterPercent) ltac:(lia)) as Ho.
  destruct (jitter_bounds (intervalMS * 1000000) _ _ ltac:(lia) Hbig Hj Ho) as [-> Hy].
  cbn [Add instant]. pose proof (Z.mul_div_le (intervalMS * 1000000) 2). split; nia.
Qed.

(** Deriving a candidate loses nothing the arbiter and the compiler rely on: a
    valid, admitted, unresolved observation under a valid rule gives a candidate that
    [Candidate.Validate] accepts, provided it was not updated in the future. *)
Theorem derive_valid record rule now :
  ValidIdentifier (rec_PluginID record) -> IsZero now = false ->
  Observation_Validate (rec_Observation record) now = None ->
  obs_Disposition (rec_Observation record) <> DispositionResolved ->
  instant (obs_UpdatedAt (rec_Observation record)) <= instant now ->
  rec_Generation record <> 0 -> rec_AdmissionSequence record <> 0 -> ValidRule rule ->
  Candidate_Validate (derive record rule) = None.
Proof.
  intros Hplugin Hnow [Hcommon Hlive]%Observation_Validate_None Hres Hupd Hgen Hadm [Hpol Hprio Htimes].
  destruct (decide _) as [|_]; [done|].
  destruct Hcommon as [[Hid _] Hch Hkey Hrev _ Himp _ _ _].
  destruct Hlive as [_ _ Hshown Haudio].
  apply Candidate_Validate_None. constructor; cbn; try done.
  - by rewrite !Forall_cons.
  - destruct Hshown as [(scene & -> & -> & Hs)|(timer & -> & -> & Ht & _)]; [by left|].
    right. exists timer. by split_and!.
  - intros cue Hcue. destruct (Haudio cue Hcue) as [? ? ? Hf ?]. constructor; try done.
    right. destruct Hf as [Hf|Hf%After_spec]; [congruence|]. apply After_spec. lia.
Qed.

(** ** Witnesses *)

Definition demo_rule (policy : string) : Rule :=
  mkRule true true policy 0 0 0 false false false 60000 10 false.

Definition demo_resolver : Resolver := fun record =>
  (demo_rule (if obs_Key (rec_Observation record) =s "b" then PolicyRotation else PolicyWhenRelevant), true).

Definition demo_records : list ObservationRecord := [demo_record "b" 1 1; demo_record "a" 1 2].

Definition demo_idle : History := mkHistory EmptyString zero_time ∅.

Lemma SelectWith_selects_contender_witness :
  exists w, ad_Candidate (Select demo_records demo_resolver demo_idle demo_now) = Some w
  /\ (exists record rule, record ∈ demo_records /\ Contender demo_resolver demo_idle demo_now record rule w)
  /\ forall record rule c, record ∈ demo_records -> Contender demo_resolver demo_idle demo_now record rule c -> better c w = true ->
       Candidate_ID w = CurrentID demo_idle /\ Before demo_now (Add (CurrentSince demo_idle) (Hold w)) = true /\ mayInterrupt c w = false.
Proof.
  pose proof (SelectWith_selects_contender Presentation.Select Select_Arbiter demo_records demo_resolver
    demo_idle demo_now) as H.
  exists (derive (demo_record "a" 1 2) (demo_rule PolicyWhenRelevant)). split; [vm_compute; reflexivity|exact H].
Defined.

Lemma SelectWith_explains_all_witness :
  exists ev, ad_Evaluations (Select demo_records demo_resolver demo_idle demo_now) !! 0%nat = Some ev
  /\ ev_Reason ev ∈ contender_reasons.
Proof.
  destruct (SelectWith_explains_all Presentation.Select Select_Arbiter demo_records demo_resolver
    demo_idle demo_now 0 (demo_record "b" 1 1)) as (_ & ev & Hev & _).
  - apply (bool_decide_unpack _). vm_compute. exact I.
  - reflexivity.
  - exists ev. split; [exact Hev|]. apply one_of_spec. vm_compute in Hev. injection Hev as <-. reflexivity.
Defined.

Lemma losing_reasons_truthful_witness :
  exists ev, ad_Evaluations (Select demo_records demo_resolver demo_idle demo_now) !! 0%nat = Some ev.
Proof.
  destruct (losing_reasons_truthful demo_resolver demo_idle demo_now demo_records 0 (demo_record "b" 1 1)
    (derive (demo_record "b" 1 1) (demo_rule PolicyRotation))
    (derive (demo_record "a" 1 2) (demo_rule PolicyWhenRelevant))) as (ev & Hev & _).
  - reflexivity.
  - vm_compute. reflexivity.
  - vm_compute. reflexivity.
  - vm_compute. discriminate.
  - exists ev. exact Hev.
Defined.

Lemma rotationNextDue_bounds_witness :
  100 * Z.abs (instant (rotationNextDue "a" (mkTime 1000 0) 60000 10) - (1000 + 60000 * Millisecond))
  <= 60000 * Millisecond * clamp_jitter 10.
Proof.
  apply (rotationNextDue_bounds "a" (mkTime 1000 0) 60000 10); [reflexivity|reflexivity|discriminate].
Defined.

Lemma derive_valid_witness :
  Candidate_Validate (derive (demo_record "a" 1 2) (demo_rule PolicyWhenRelevant)) = None.
Proof.
  apply (derive_valid (demo_record "a" 1 2) (demo_rule PolicyWhenRelevant) demo_now).
  - apply (Validate_None "plugin_id"). vm_compute. reflexivity.
  - reflexivity.
  - vm_compute. reflexivity.
  - discriminate.
  - vm_compute. discriminate.
  - discriminate.
  - discriminate.
  - constructor; [apply (bool_decide_unpack _); vm_compute; exact I|cbn; lia|cbn; lia].
Defined.
