(* ===== verification/LocalState.v ===== *)
(** * Local state: atomic replacement with a truthful commit outcome

    Models [src/internal/localstate/replace.go] and [remove.go]. The file-system
    calls are the fields of [operations], as in the source, over an abstract world
    [W]; the values written are an abstract type [V], and what JSON encoding makes
    of them is the parameter [encoded]. The class [FileSystem] states the documented
    behaviour of those calls on the visible contents of files (failures included);
    [Disk] is an in-memory instance with scripted failures. *)

From Stdlib Require Import ZArith Lia.
From S2P Require Import Prelude GoStrings Protocol.

(** ** Commit outcomes *)

Definition NotCommitted : string := "not_committed".
Definition Committed : string := "committed".
Definition CommittedDurabilityUncertain : string := "committed_durability_uncertain".

Definition IsCommitted (o : string) : bool :=
  (o =s Committed) || (o =s CommittedDurabilityUncertain).

(** [CommitError{Outcome, Op, Err}]. *)
Definition commitError (outcome operation : string) (err : error) : option error :=
  Some (Wrapf "CommitError" [EStr outcome; EStr operation] err).

(** [errors.Join] of a non-nil error and another. *)
Definition join_err (err : option error) (other : option error) : option error :=
  errors_Join [err; other].

(** [filepath.Dir]: everything up to the last slash, cleaned. *)
Definition Dir (path : string) : string :=
  match removelast (split_byte "/" path) with
  | [] => Clean EmptyString
  | components => Clean (join_strings "/" components +:+ "/")
  end.

(** ** The operations *)

Record operations (W V : Type) := mkOperations {
  mkdirAll : string -> W -> option error * W;
  createTemp : string -> string -> W -> (string + error) * W;
  chmod : string -> W -> option error * W;
  encode : string -> V -> W -> option error * W;
  syncFile : string -> W -> option error * W;
  closeFile : string -> W -> option error * W;
  rename : string -> string -> W -> option error * W;
  openDirectory : string -> W -> (string + error) * W;
  syncDirectory : string -> W -> option error * W;
  closeDirectory : string -> W -> option error * W;
  remove : string -> W -> option error * W;
  isNotExist : error -> bool;
}.
Arguments mkdirAll {W V}.
Arguments createTemp {W V}.
Arguments chmod {W V}.
Arguments encode {W V}.
Arguments syncFile {W V}.
Arguments closeFile {W V}.
Arguments rename {W V}.
Arguments openDirectory {W V}.
Arguments syncDirectory {W V}.
Arguments closeDirectory {W V}.
Arguments remove {W V}.
Arguments isNotExist {W V}.

(** What the body leaves to the deferred function: the results, the [closed] and
    [promoted] flags, and the world. *)
Record attempt (W : Type) := mkAttempt {
  at_outcome : string;
  at_err : option error;
  at_closed : bool;
  at_promoted : bool;
  at_world : W;
}.
Arguments mkAttempt {W}.
Arguments at_outcome {W}.
Arguments at_err {W}.
Arguments at_closed {W}.
Arguments at_promoted {W}.
Arguments at_world {W}.

Section Replace.
Context {W V : Type} (ops : operations W V).

(** The part after the rename: making the directory entry durable. *)
Definition sync_parent (open_op sync_op close_op : string) (directory : string) (w : W)
    : string * option error * W :=
  match openDirectory ops directory w with
  | (inr err, w) => (CommittedDurabilityUncertain, commitError CommittedDurabilityUncertain open_op err, w)
  | (inl directoryFile, w) =>
    match syncDirectory ops directoryFile w with
    | (Some err, w) =>
      let '(closeErr, w) := closeDirectory ops directoryFile w in
      (CommittedDurabilityUncertain,
       commitError CommittedDurabilityUncertain sync_op (Join (err :: option_list closeErr)), w)
    | (None, w) =>
      match closeDirectory ops directoryFile w with
      | (Some err, w) =>
        (CommittedDurabilityUncertain, commitError CommittedDurabilityUncertain close_op err, w)
      | (None, w) => (Committed, None, w)
      end
    end
  end.

Definition failBeforeRename (operation : string) (err : error) (closed : bool) (w : W) : attempt W :=
  mkAttempt NotCommitted (commitError NotCommitted operation err) closed false w.

(** The body of [replaceJSON] between the creation of the temporary file and the
    deferred clean-up. *)
Definition replace_with (directory path temporaryPath : string) (value : V) (w : W) : attempt W :=
  match chmod ops temporaryPath w with
  | (Some err, w) => failBeforeRename "set temporary state permissions" err false w
  | (None, w) =>
  match encode ops temporaryPath value w with
  | (Some err, w) => failBeforeRename "encode temporary state" err false w
  | (None, w) =>
  match syncFile ops temporaryPath w with
  | (Some err, w) => failBeforeRename "sync temporary state" err false w
  | (None, w) =>
  match closeFile ops temporaryPath w with
  | (Some err, w) => failBeforeRename "close temporary state" err true w
  | (None, w) =>
  match rename ops temporaryPath path w with
  | (Some err, w) => failBeforeRename "replace state" err true w
  | (None, w) =>
    let '(outcome, err, w) :=
      sync_parent "open state directory for sync" "sync state directory" "close state directory" directory w in
    mkAttempt outcome err true true w
  end end end end end.

(** The deferred function. *)
Definition clean_up (temporaryPath : string) (a : attempt W) : string * option error * W :=
  let '(err, w) :=
    if at_closed a then (at_err a, at_world a)
    else let '(closeErr, w) := closeFile ops temporaryPath (at_world a) in (join_err (at_err a) closeErr, w) in
  if at_promoted a then (at_outcome a, err, w)
  else match remove ops temporaryPath w with
       | (Some removeErr, w) =>
         (at_outcome a, (if isNotExist ops removeErr then err else join_err err (Some removeErr)), w)
       | (None, w) => (at_outcome a, err, w)
       end.

Definition replaceJSON (path : string) (value : V) (w : W) : string * option error * W :=
  let directory := Dir path in
  match mkdirAll ops directory w with
  | (Some err, w) => (NotCommitted, commitError NotCommitted "create state directory" err, w)
  | (None, w) =>
    match createTemp ops directory ".bsbctl-state-*" w with
    | (inr err, w) => (NotCommitted, commitError NotCommitted "create temporary state" err, w)
    | (inl temporaryPath, w) =>
      clean_up temporaryPath (replace_with directory path temporaryPath value w)
    end
  end.

Definition RemoveAndSync (path : string) (w : W) : string * option error * W :=
  match remove ops path w with
  | (Some err, w) =>
    if isNotExist ops err then (NotCommitted, None, w)
    else (NotCommitted, commitError NotCommitted "remove local state" err, w)
  | (None, w) =>
    sync_parent "open local state directory for sync" "sync local state directory"
      "close local state directory" (Dir path) w
  end.
End Replace.

(** ** The documented behaviour of the operations

    [content w path] is what a reader sees at [path], [encoded v] the bytes JSON
    encoding writes for [v], and [temporary] the names [createTemp] hands out. Every
    operation may fail; a failed [encode] may leave any bytes in its own file. *)

Class FileSystem {W V : Type} (ops : operations W V) (content : W -> string -> option string)
    (encoded : V -> string) (temporary : string -> Prop) : Prop := {
  mkdirAll_spec d w p : content (mkdirAll ops d w).2 p = content w p;
  chmod_spec f w p : content (chmod ops f w).2 p = content w p;
  syncFile_spec f w p : content (syncFile ops f w).2 p = content w p;
  closeFile_spec f w p : content (closeFile ops f w).2 p = content w p;
  openDirectory_spec d w p : content (openDirectory ops d w).2 p = content w p;
  syncDirectory_spec d w p : content (syncDirectory ops d w).2 p = content w p;
  closeDirectory_spec d w p : content (closeDirectory ops d w).2 p = content w p;
  createTemp_spec d pattern w :
    match createTemp ops d pattern w with
    | (inl f, w') => temporary f /\ content w f = None
        /\ content w' f = Some EmptyString /\ forall p, p <> f -> content w' p = content w p
    | (inr _, w') => forall p, content w' p = content w p
    end;
  encode_spec f v w :
    content w f = Some EmptyString ->
    (forall p, p <> f -> content (encode ops f v w).2 p = content w p)
    /\ ((encode ops f v w).1 = None -> content (encode ops f v w).2 f = Some (encoded v));
  rename_spec old new w :
    old <> new ->
    match rename ops old new w with
    | (None, w') => content w' new = content w old /\ content w' old = None
        /\ forall p, p <> old -> p <> new -> content w' p = content w p
    | (Some _, w') => forall p, content w' p = content w p
    end;
  remove_spec f w :
    match remove ops f w with
    | (None, w') => content w' f = None /\ forall p, p <> f -> content w' p = content w p
    | (Some _, w') => forall p, content w' p = content w p
    end;
}.

(** ** Lemmas *)

Lemma join_err_Some e other : join_err (Some e) other <> None.
Proof. unfold join_err. rewrite errors_Join_None, all_nil_cons. by intros [? _]. Qed.

Section FileSystemLemmas.
Context {W V : Type} {ops : operations W V} {content : W -> string -> option string}
  {encoded : V -> string} {temporary : string -> Prop} {Hfs : FileSystem ops content encoded temporary}.

(** Two worlds show the same files, one path apart. *)
Definition same_but (f : string) (w w' : W) : Prop := forall p, p <> f -> content w' p = content w p.

Lemma sync_parent_spec open_op sync_op close_op d w :
  let '(outcome, err, w') := sync_parent ops open_op sync_op close_op d w in
  IsCommitted outcome = true /\ (outcome = Committed <-> err = None)
  /\ forall p, content w' p = content w p.
Proof.
  unfold sync_parent. pose proof (openDirectory_spec d w) as Ho.
  destruct (openDirectory ops d w) as [[f|err] w1]; [|done].
  pose proof (syncDirectory_spec f w1) as Hs. destruct (syncDirectory ops f w1) as [[err|] w2];
    pose proof (closeDirectory_spec f w2) as Hc; destruct (closeDirectory ops f w2) as [[err'|] w3];
    simpl in *; split_and!; try done; intros p; by rewrite Hc, Hs.
Qed.

(** A failed attempt touches only the temporary file; a promoted one has moved the
    complete encoding into place. *)
Lemma replace_with_spec d path f v w :
  f <> path -> content w f = Some EmptyString ->
  let a := replace_with ops d path f v w in
  at_promoted a = IsCommitted (at_outcome a)
  /\ (at_promoted a = true -> at_closed a = true /\ (at_outcome a = Committed <-> at_err a = None))
  /\ (at_promoted a = true -> content (at_world a) path = Some (encoded v) /\ content (at_world a) f = None
      /\ forall p, p <> f -> p <> path -> content (at_world a) p = content w p)
  /\ (at_promoted a = false -> at_outcome a = NotCommitted /\ at_err a <> None /\ same_but f w (at_world a)).
Proof.
  intros Hne H0. cbv zeta. unfold replace_with.
  pose proof (chmod_spec f w) as H1. destruct (chmod ops f w) as [[err|] w1]; simpl in H1.
  { split_and!; try done. intros _. split_and!; try done. by intros p _; simpl. }
  destruct (encode_spec f v w1) as [H2 H2']; [by rewrite H1|].
  destruct (encode ops f v w1) as [[err|] w2]; simpl in H2, H2'.
  { split_and!; try done. intros _. split_and!; try done. intros p Hp; simpl. by rewrite H2, H1. }
  specialize (H2' eq_refl).
  pose proof (syncFile_spec f w2) as H3. destruct (syncFile ops f w2) as [[err|] w3]; simpl in H3.
  { split_and!; try done. intros _. split_and!; try done. intros p Hp; simpl. by rewrite H3, H2, H1. }
  pose proof (closeFile_spec f w3) as H4. destruct (closeFile ops f w3) as [[err|] w4]; simpl in H4.
  { split_and!; try done. intros _. split_and!; try done. intros p Hp; simpl. by rewrite H4, H3, H2, H1. }
  pose proof (rename_spec f path w4 Hne) as H5. destruct (rename ops f path w4) as [[err|] w5].
  { split_and!; try done. intros _. split_and!; try done. intros p Hp; simpl. by rewrite H5, H4, H3, H2, H1. }
  destruct H5 as (H5 & H5' & H5'').
  pose proof (sync_parent_spec "open state directory for sync" "sync state directory" "close state directory" d w5) as H6.
  destruct (sync_parent _ _ _ _ _ _) as [[outcome err] w6]. destruct H6 as (Hc & He & H6). simpl.
  split_and!; [done|done| |done]. intros _. rewrite !H6. split_and!; [|done|].
  - by rewrite H5, H4, H3.
  - intros p Hp Hp'. by rewrite H6, H5'', H4, H3, H2, H1.
Qed.

Lemma clean_up_failed f a w0 :
  at_promoted a = false -> at_err a <> None -> same_but f w0 (at_world a) ->
  let '(outcome, err, w') := clean_up ops f a in
  outcome = at_outcome a /\ err <> None /\ same_but f w0 w'.
Proof.
  intros Hp He Hs. unfold clean_up. rewrite Hp.
  destruct (at_err a) as [e|] eqn:Hae; [|done].
  pose proof (closeFile_spec f (at_world a)) as Hc.
  destruct (closeFile ops f (at_world a)) as [closeErr w1]. simpl in Hc.
  pose proof (remove_spec f (at_world a)) as Hr1. pose proof (remove_spec f w1) as Hr2.
  pose proof (join_err_Some e closeErr) as Hj.
  destruct (at_closed a).
  - destruct (remove ops f (at_world a)) as [[re|] w2]; [destruct (isNotExist ops re)|];
      (split; [done|]; split; [done || apply join_err_Some|]).
    + intros p Hp'. by rewrite Hr1, Hs.
    + intros p Hp'. by rewrite Hr1, Hs.
    + intros p Hp'. destruct Hr1 as [_ Hr1]. by rewrite Hr1, Hs.
  - destruct (join_err (Some e) closeErr) as [e'|] eqn:Hje; [|done].
    destruct (remove ops f w1) as [[re|] w2]; [destruct (isNotExist ops re)|];
      (split; [done|]; split; [done || apply join_err_Some|]).
    + intros p Hp'. by rewrite Hr2, Hc, Hs.
    + intros p Hp'. by rewrite Hr2, Hc, Hs.
    + intros p Hp'. destruct Hr2 as [_ Hr2]. by rewrite Hr2, Hc, Hs.
Qed.

Lemma replaceJSON_spec path v w :
  ~ temporary path ->
  let '(outcome, err, w') := replaceJSON ops path v w in
  (outcome = Committed <-> err = None)
  /\ (IsCommitted outcome = true -> content w' path = Some (encoded v)
      /\ forall p, p <> path -> content w' p = content w p)
  /\ (IsCommitted outcome = false -> outcome = NotCommitted
      /\ forall p, content w p <> None \/ ~ temporary p -> content w' p = content w p).
Proof.
  intros Hpath. unfold replaceJSON.
  pose proof (mkdirAll_spec (Dir path) w) as H1. destruct (mkdirAll ops (Dir path) w) as [[err|] w1]; [done|].
  pose proof (createTemp_spec (Dir path) ".bsbctl-state-*" w1) as H2.
  destruct (createTemp ops (Dir path) ".bsbctl-state-*" w1) as [[f|err] w2].
  2: { split_and!; try done. intros _. split; [done|]. intros p _. by rewrite H2, H1. }
  destruct H2 as (Hf & Hfresh & Hempty & H2). simpl in H1.
  assert (Hne : f <> path) by (by intros ->).
  destruct (replace_with_spec (Dir path) path f v w2 Hne Hempty) as (Hprom & Hok & Hdone & Hfail).
  set (a := replace_with ops (Dir path) path f v w2) in *.
  destruct (at_promoted a) eqn:Hp.
  - destruct (Hok eq_refl) as [Hcl He], (Hdone eq_refl) as (Hc1 & Hc2 & Hc3).
    unfold clean_up. rewrite Hcl, Hp. split; [done|]. rewrite <- Hprom. split; [|done].
    intros _. split; [done|]. intros p Hpp. destruct (decide (p = f)) as [->|Hpf].
    + by rewrite Hc2, <- H1, Hfresh.
    + by rewrite Hc3, H2, H1.
  - destruct (Hfail eq_refl) as (Ho & He & Hs).
    pose proof (clean_up_failed f a w2 Hp He Hs) as Hclean.
    destruct (clean_up ops f a) as [[outcome err] w']. destruct Hclean as (-> & He' & Hs').
    rewrite Ho. split; [done|]. split; [done|]. intros _. split; [done|]. intros p Hpp.
    assert (Hpf : p <> f).
    { intros ->. rewrite <- H1, Hfresh in Hpp. by destruct Hpp. }
    by rewrite (Hs' p Hpf), H2, H1.
Qed.
End FileSystemLemmas.

(** ** Properties *)

(** C36: the commit outcome of [replaceJSON] is truthful, whichever file-system calls
    fail. A committed outcome means the path holds the whole encoding of the value
    and every other file is untouched; [not_committed] means that no file that
    existed before has changed; and the error is nil exactly for [committed]. *)
Theorem replaceJSON_truthful {W V} (ops : operations W V) content encoded temporary
    (Hfs : FileSystem ops content encoded temporary) path v w :
  ~ temporary path ->
  let '(outcome, err, w') := replaceJSON ops path v w in
  (outcome = Committed <-> err = None)
  /\ (IsCommitted outcome = true -> content w' path = Some (encoded v)
      /\ forall p, p <> path -> content w' p = content w p)
  /\ (IsCommitted outcome = false -> outcome = NotCommitted
      /\ forall p, content w p <> None \/ ~ temporary p -> content w' p = content w p).
Proof. apply replaceJSON_spec. Qed.

(** [RemoveAndSync] is truthful too: committed means the file is gone and nothing
    else changed, not committed that nothing changed; an error with a committed
    outcome only says that durability is uncertain. *)
Theorem RemoveAndSync_truthful {W V} (ops : operations W V) content encoded temporary
    (Hfs : FileSystem ops content encoded temporary) path w :
  let '(outcome, err, w') := RemoveAndSync ops path w in
  (IsCommitted outcome = true -> content w' path = None
   /\ (outcome = Committed <-> err = None)
   /\ forall p, p <> path -> content w' p = content w p)
  /\ (IsCommitted outcome = false -> forall p, content w' p = content w p).
Proof.
  unfold RemoveAndSync. pose proof (remove_spec path w) as Hr.
  destruct (remove ops path w) as [[err|] w1]; [by destruct (isNotExist ops err)|].
  destruct Hr as [Hr1 Hr2].
  pose proof (sync_parent_spec "open local state directory for sync" "sync local state directory"
    "close local state directory" (Dir path) w1) as Hs.
  destruct (sync_parent _ _ _ _ _ _) as [[outcome err] w']. destruct Hs as (Hc & He & Hs).
  rewrite Hc. split; [|done]. intros _. split; [by rewrite Hs|]. split; [done|].
  intros p Hp. by rewrite Hs, Hr2.
Qed.

(** ** An in-memory disk with scripted failures *)

Record Disk := mkDisk { disk_files : gmap string string; disk_faults : list bool }.

Definition disk_error : error := Errorf "input/output error" [].
Definition disk_missing : error := Errorf "file does not exist" [].

(** The next operation fails when the script says so. *)
Definition disk_op (run : gmap string string -> option error * gmap string string) (w : Disk)
    : option error * Disk :=
  match disk_faults w with
  | true :: faults => (Some disk_error, mkDisk (disk_files w) faults)
  | faults =>
    let '(err, files) := run (disk_files w) in (err, mkDisk files (tail faults))
  end.

Definition disk_temporary (directory : string) : string := directory +:+ "/.bsbctl-state-1".

Definition disk_ops {V : Type} (encoded : V -> string) : operations Disk V := {|
  mkdirAll := fun _ => disk_op (fun files => (None, files));
  createTemp := fun directory _ w =>
    let f := disk_temporary directory in
    match disk_files w !! f with
    | Some _ => (inr disk_error, w)
    | None => match disk_op (fun files => (None, <[f := EmptyString]> files)) w with
              | (Some err, w) => (inr err, w)
              | (None, w) => (inl f, w)
              end
    end;
  chmod := fun _ => disk_op (fun files => (None, files));
  encode := fun f v => disk_op (fun files => (None, <[f := encoded v]> files));
  syncFile := fun _ => disk_op (fun files => (None, files));
  closeFile := fun _ => disk_op (fun files => (None, files));
  rename := fun old new => disk_op (fun files =>
    match files !! old with
    | Some bytes => (None, <[new := bytes]> (delete old files))
    | None => (Some disk_missing, files)
    end);
  openDirectory := fun d w =>
    match disk_op (fun files => (None, files)) w with
    | (Some err, w) => (inr err, w)
    | (None, w) => (inl d, w)
    end;
  syncDirectory := fun _ => disk_op (fun files => (None, files));
  closeDirectory := fun _ => disk_op (fun files => (None, files));
  remove := fun f => disk_op (fun files =>
    match files !! f with
    | Some _ => (None, delete f files)
    | None => (Some disk_missing, files)
    end);
  isNotExist := fun err => match err with Errorf "file does not exist" _ => true | _ => false end;
|}.

Definition disk_content (w : Disk) (p : string) : option string := disk_files w !! p.
Definition disk_is_temporary (p : string) : Prop := exists d, p = disk_temporary d.

Lemma disk_op_spec run w :
  (exists err, disk_op run w = (Some err, mkDisk (disk_files w) (tail (disk_faults w))) )
  \/ disk_op run w = (let '(err, files) := run (disk_files w) in (err, mkDisk files (tail (disk_faults w)))).
Proof.
  unfold disk_op. destruct (disk_faults w) as [|[] faults]; [by right|left; by eexists|by right].
Qed.

Ltac disk run w := destruct (disk_op_spec run w) as [[? ->]| ->]; try done.

#[export] Instance disk_FileSystem {V : Type} (encoded : V -> string) :
  FileSystem (disk_ops encoded) disk_content encoded disk_is_temporary.
Proof.
  split; unfold disk_content; cbn [mkdirAll chmod syncFile closeFile openDirectory syncDirectory
    closeDirectory createTemp encode rename remove disk_ops].
  1-4,6-7: intros ? w ?; by disk (fun files : gmap string string => (@None error, files)) w.
  - intros d w p. by disk (fun files : gmap string string => (@None error, files)) w.
  - intros d _ w. destruct (disk_files w !! disk_temporary d) eqn:Hf; [done|].
    disk (fun files : gmap string string => (@None error, <[disk_temporary d := EmptyString]> files)) w. simpl.
    split_and!; [by exists d|done|by rewrite lookup_insert_eq|].
    intros p Hp. by rewrite lookup_insert_ne.
  - intros f v w _. disk (fun files : gmap string string => (@None error, <[f := encoded v]> files)) w. simpl.
    split; [intros p Hp; by rewrite lookup_insert_ne|intros _; by rewrite lookup_insert_eq].
  - intros old new w Hne. disk (fun files : gmap string string => match files !! old with
      | Some bytes => (@None error, <[new := bytes]> (delete old files))
      | None => (Some disk_missing, files) end) w.
    destruct (disk_files w !! old) eqn:Ho; [simpl|done]. split_and!.
    + by rewrite lookup_insert_eq.
    + by rewrite lookup_insert_ne, lookup_delete_eq.
    + intros p Hp Hp'. by rewrite lookup_insert_ne, lookup_delete_ne.
  - intros f w. disk (fun files : gmap string string => match files !! f with
      | Some _ => (@None error, delete f files) | None => (Some disk_missing, files) end) w.
    destruct (disk_files w !! f) eqn:Ho; [simpl|done].
    split; [by rewrite lookup_delete_eq|intros p Hp; by rewrite lookup_delete_ne].
Qed.

(** ** Witnesses *)

Definition demo_disk (faults : list bool) : Disk :=
  mkDisk {[ "state/attention.json"%string := "old"%string ]} faults.

Lemma demo_path_not_temporary : ~ disk_is_temporary "state/attention.json".
Proof.
  intros [d Hd]. pose proof (HasSuffix_app d "/.bsbctl-state-1") as H.
  change (d +:+ "/.bsbctl-state-1") with (disk_temporary d) in H. rewrite <- Hd in H. discriminate.
Qed.

(** A failed rename: the old contents stay. *)
Lemma replaceJSON_truthful_witness :
  let '(outcome, err, w') :=
    replaceJSON (disk_ops id) "state/attention.json" "new"%string
      (demo_disk [false; false; false; false; false; false; true]) in
  outcome = NotCommitted /\ disk_content w' "state/attention.json" = Some "old"%string.
Proof.
  pose proof (replaceJSON_truthful (disk_ops id) disk_content id disk_is_temporary (disk_FileSystem id)
    "state/attention.json" "new"%string (demo_disk [false; false; false; false; false; false; true])
    demo_path_not_temporary) as H.
  revert H. vm_compute. intros (_ & _ & H). destruct (H eq_refl) as [Ho Hc].
  split; [exact Ho|]. apply (Hc "state/attention.json"%string). left. discriminate.
Defined.

Lemma RemoveAndSync_truthful_witness :
  disk_content (RemoveAndSync (@disk_ops string id) "state/attention.json" (demo_disk [])).2 "state/attention.json" = None.
Proof.
  pose proof (RemoveAndSync_truthful (@disk_ops string id) disk_content id disk_is_temporary (disk_FileSystem id)
    "state/attention.json" (demo_disk [])) as H.
  destruct (RemoveAndSync (@disk_ops string id) "state/attention.json" (demo_disk [])) as [[o e] w'] eqn:E.
  destruct H as [H _]. apply H. vm_compute in E. injection E as <- _ _. reflexivity.
Defined.
