(* ===== verification/AttentionState.v ===== *)
(** * The attention state document: acknowledgements and last-shown times

    Models [src/internal/attention/state.go]. The daemon's attention memory is one
    bounded JSON document; [validateStateDocument] decides which documents may be
    loaded or saved, [sortStateDocument] makes what is written canonical, and
    [Load]/[Save] keep the store's status. File reads are an observation record
    ([LoadIO]): what each call of [Load] returned, the decoded document included.
    [Save] writes through the [replace] function of [LocalState]. *)

From Stdlib Require Import ZArith Lia ZifyBool.
From S2P Require Import Prelude GoStrings GoTime Identifier Protocol LocalState.

(** ** Data *)

Definition StateVersion : Z := 1.
Definition MaxStateEntries : Z := 2048.
Definition maxStateBytes : Z := Z.shiftl 2 20.

Record StateIdentity := mkStateIdentity {
  si_PluginID : string;
  si_InstanceID : string;
  si_Generation : Z;
  si_Channel : string;
  si_Key : string;
}.

(** The source ranges over a Go map, so the four identifier errors are joined in any
    order; no caller looks at more than whether there is one. *)
Definition StateIdentity_Validate (i : StateIdentity) : option error :=
  errors_Join
    [ Validate "plugin ID" (si_PluginID i);
      Validate "instance ID" (si_InstanceID i);
      Validate "channel" (si_Channel i);
      Validate "key" (si_Key i);
      err_if (si_Generation i =? 0) (Errorf "generation must be greater than zero" []) ].

Definition StateIdentity_key (i : StateIdentity) : string :=
  (Encode [si_PluginID i; si_InstanceID i; si_Channel i; si_Key i]).1.

Record AcknowledgementState := mkAcknowledgementState {
  ack_Identity : StateIdentity;
  ack_ObservedAt : Time;
  ack_TouchedAt : Time;
}.

Record LastShownState := mkLastShownState { ls_Identity : StateIdentity; ls_ShownAt : Time }.

Record StateDocument := mkStateDocument {
  sd_Version : Z;
  sd_Acknowledgements : list AcknowledgementState;
  sd_LastShown : list LastShownState;
}.

Definition empty_document : StateDocument := mkStateDocument 0 [] [].

Record StateStoreStatus := mkStateStoreStatus {
  ss_Phase : string;
  ss_LastErrorCode : string;
  ss_LastReadAt : Time;
  ss_LastWriteAt : Time;
  ss_Failures : Z;
}.

Record StateError := mkStateError { se_Code : string; se_Err : error }.

Record StateStore := mkStateStore { st_path : string; st_status : StateStoreStatus }.

Definition NewStateStore (path : string) : StateStore :=
  mkStateStore path (mkStateStoreStatus "unavailable" EmptyString zero_time zero_time 0).

(** ** Validation and canonical order *)

Section CheckEntries.
Context {A : Type} (valid : A -> bool) (identity : A -> StateIdentity) (invalid duplicated : error).

(** One of the two loops of [validateStateDocument]. *)
Fixpoint check_entries (seen : gset string) (entries : list A) : option error :=
  match entries with
  | [] => None
  | entry :: entries' =>
    if negb (valid entry) then Some invalid
    else
      let key := StateIdentity_key (identity entry) in
      if bool_decide (key ∈ seen) then Some duplicated
      else check_entries ({[key]} ∪ seen) entries'
  end.
End CheckEntries.

Definition valid_acknowledgement (entry : AcknowledgementState) : bool :=
  negb (is_some (StateIdentity_Validate (ack_Identity entry)) || IsZero (ack_ObservedAt entry)
        || IsZero (ack_TouchedAt entry)).

Definition valid_last_shown (entry : LastShownState) : bool :=
  negb (is_some (StateIdentity_Validate (ls_Identity entry)) || IsZero (ls_ShownAt entry)).

Definition validateStateDocument (document : StateDocument) : option error :=
  if negb (sd_Version document =? StateVersion) then
    errors_New "attention state version is unsupported"
  else if MaxStateEntries <? Z.of_nat (length (sd_Acknowledgements document))
                             + Z.of_nat (length (sd_LastShown document)) then
    Some (Errorf "attention state exceeds %d entries" [EInt MaxStateEntries])
  else
    match check_entries valid_acknowledgement ack_Identity
            (Errorf "attention acknowledgement is invalid" [])
            (Errorf "attention acknowledgement identity is duplicated" [])
            ∅ (sd_Acknowledgements document) with
    | Some err => Some err
    | None =>
      check_entries valid_last_shown ls_Identity
        (Errorf "attention last-shown entry is invalid" [])
        (Errorf "attention last-shown identity is duplicated" [])
        ∅ (sd_LastShown document)
    end.

Definition ack_key (entry : AcknowledgementState) : string := StateIdentity_key (ack_Identity entry).
Definition shown_key (entry : LastShownState) : string := StateIdentity_key (ls_Identity entry).

Definition sortStateDocument (document : StateDocument) : StateDocument :=
  mkStateDocument (sd_Version document)
    (SortFunc (cmp_key ack_key) (sd_Acknowledgements document))
    (SortFunc (cmp_key shown_key) (sd_LastShown document)).

(** ** Status *)

Definition failLocked (code : string) (err : error) (s : StateStore) : option StateError * StateStore :=
  let status := st_status s in
  (Some (mkStateError code err),
   mkStateStore (st_path s)
     (mkStateStoreStatus "degraded" code (ss_LastReadAt status) (ss_LastWriteAt status)
        (u64_succ (ss_Failures status)))).

Definition read_ok (now : Time) (s : StateStore) : StateStore :=
  mkStateStore (st_path s)
    (mkStateStoreStatus "loaded" EmptyString now (ss_LastWriteAt (st_status s)) (ss_Failures (st_status s))).

Definition write_ok (now : Time) (s : StateStore) : StateStore :=
  mkStateStore (st_path s)
    (mkStateStoreStatus "loaded" EmptyString (ss_LastReadAt (st_status s)) now (ss_Failures (st_status s))).

(** ** Load *)

(** What the calls made by [Load] return. *)
Record LoadIO := mkLoadIO {
  io_now : Time;
  io_lstat : option error;       (** [os.Lstat]'s error *)
  io_missing : bool;             (** that error is [os.ErrNotExist] *)
  io_path_regular : bool;
  io_open : option error;
  io_stat : option error;
  io_file_regular : bool;
  io_same_file : bool;
  io_chmod : option error;
  io_decode : StateDocument + error;
  io_trailing : bool;            (** the next token is not [io.EOF] *)
  io_size : Z;
}.

Definition not_regular : error := Errorf "attention state is not a regular file" [].

(** [errors.Join(err, errors.New(...))] *)
Definition join_not_regular (err : option error) : error := Join (option_list err ++ [not_regular]).

Definition Load (io : LoadIO) (s : StateStore) : StateDocument * option StateError * StateStore :=
  let now := UTC (io_now io) in
  let fail code err := let '(e, s') := failLocked code err s in (empty_document, e, s') in
  if is_some (io_lstat io) && io_missing io then
    (mkStateDocument StateVersion [] [], None, read_ok now s)
  else if is_some (io_lstat io) || negb (io_path_regular io) then
    fail "attention_state_read_failed" (join_not_regular (io_lstat io))
  else match io_open io with Some err => fail "attention_state_read_failed" err | None =>
  if is_some (io_stat io) || negb (io_file_regular io) || negb (io_same_file io) then
    fail "attention_state_read_failed" (join_not_regular (io_stat io))
  else match io_chmod io with Some err => fail "attention_state_read_failed" err | None =>
  match io_decode io with inr err => fail "attention_state_corrupt" err | inl document =>
  if io_trailing io then
    fail "attention_state_corrupt" (Errorf "attention state has trailing JSON" [])
  else if maxStateBytes <? io_size io then
    fail "attention_state_corrupt" (Errorf "attention state exceeds the byte limit" [])
  else if negb (sd_Version document =? StateVersion) then
    fail "attention_state_incompatible" (Errorf "attention state version is unsupported" [])
  else match validateStateDocument document with
       | Some err => fail "attention_state_corrupt" err
       | None => (document, None, read_ok now s)
       end
  end end end.

(** ** Save *)

Section Save.
Context {W : Type} (replace : string -> StateDocument -> W -> string * option error * W).

Definition Save (now : Time) (document : StateDocument) (s : StateStore) (w : W)
    : string * option StateError * StateStore * W :=
  let document :=
    if sd_Version document =? 0 then
      mkStateDocument StateVersion (sd_Acknowledgements document) (sd_LastShown document)
    else document in
  match validateStateDocument document with
  | Some err =>
    let '(e, s) := failLocked "attention_state_invalid" err s in (NotCommitted, e, s, w)
  | None =>
    let '(outcome, err, w) := replace (st_path s) (sortStateDocument document) w in
    match err with
    | Some err =>
      let code := if outcome =s CommittedDurabilityUncertain
                  then "attention_state_durability_uncertain"%string
                  else "attention_state_write_failed"%string in
      let '(e, s) := failLocked code err s in (outcome, e, s, w)
    | None => (outcome, None, write_ok (UTC now) s, w)
    end
  end.
End Save.

(** ** Specification *)

Record ValidStateIdentity (i : StateIdentity) : Prop := {
  vsi_ids : Forall ValidIdentifier [si_PluginID i; si_InstanceID i; si_Channel i; si_Key i];
  vsi_generation : si_Generation i <> 0;
}.

(** The observation a stored entry is about; its generation is not part of it. *)
Definition subject (i : StateIdentity) : string * string * string * string :=
  (si_PluginID i, si_InstanceID i, si_Channel i, si_Key i).

Record ValidDocument (d : StateDocument) : Prop := {
  vd_version : sd_Version d = StateVersion;
  vd_bounded : Z.of_nat (length (sd_Acknowledgements d)) + Z.of_nat (length (sd_LastShown d)) <= MaxStateEntries;
  vd_acks : forall a, a ∈ sd_Acknowledgements d -> ValidStateIdentity (ack_Identity a)
            /\ IsZero (ack_ObservedAt a) = false /\ IsZero (ack_TouchedAt a) = false;
  vd_shown : forall l, l ∈ sd_LastShown d -> ValidStateIdentity (ls_Identity l)
            /\ IsZero (ls_ShownAt l) = false;
  vd_acks_unique : NoDup (map (subject ∘ ack_Identity) (sd_Acknowledgements d));
  vd_shown_unique : NoDup (map (subject ∘ ls_Identity) (sd_LastShown d));
}.

(** The observations for which [Load] has a document to return. *)
Definition readable (io : LoadIO) (d : StateDocument) : Prop :=
  io_lstat io = None /\ io_path_regular io = true /\ io_open io = None /\ io_stat io = None
  /\ io_file_regular io = true /\ io_same_file io = true /\ io_chmod io = None
  /\ io_decode io = inl d /\ io_trailing io = false /\ io_size io <= maxStateBytes.

Definition missing (io : LoadIO) : Prop := is_some (io_lstat io) = true /\ io_missing io = true.

(** ** Lemmas *)

Lemma StateIdentity_Validate_None i : StateIdentity_Validate i = None <-> ValidStateIdentity i.
Proof.
  unfold StateIdentity_Validate.
  rewrite errors_Join_None, !all_nil_cons, all_nil_nil, !Validate_None, err_if_None, Z.eqb_neq.
  split; [|intros [Hids ?]; rewrite !Forall_cons in Hids; tauto].
  intros (? & ? & ? & ? & ? & _). constructor; [by rewrite !Forall_cons|done].
Qed.

Lemma StateIdentity_key_subject i j : StateIdentity_key i = StateIdentity_key j <-> subject i = subject j.
Proof.
  unfold StateIdentity_key, subject. split; [|by intros [= -> -> -> ->]].
  intros H. apply Encode_inj in H; [|done..]. by injection H as -> -> -> ->.
Qed.

Section CheckEntriesLemmas.
Context {A : Type} (valid : A -> bool) (identity : A -> StateIdentity) (invalid duplicated : error).
Notation key := (StateIdentity_key ∘ identity).

Lemma check_entries_None seen entries :
  check_entries valid identity invalid duplicated seen entries = None
  <-> Forall (fun e => valid e = true) entries /\ NoDup (map key entries)
      /\ Forall (fun e => key e ∉ seen) entries.
Proof.
  revert seen. induction entries as [|e es IH]; intros seen; simpl.
  - rewrite !Forall_nil. split; [intros _; split_and!; try done; constructor|done].
  - rewrite !Forall_cons, NoDup_cons. destruct (valid e); simpl; [|split; [done|by intros [[? _] _]]].
    case_bool_decide as Hin; [split; [done|by intros (_ & _ & ? & _)]|].
    rewrite IH, list_elem_of_fmap, !Forall_forall. split.
    + intros (Hv & Hnd & Hs). split_and!; try done.
      * intros (e' & He & Hin'). apply (Hs e' Hin'). set_solver.
      * intros e' Hin'. specialize (Hs e' Hin'). set_solver.
    + intros ([_ Hv] & [Hn Hnd] & _ & Hs). split_and!; try done.
      intros e' Hin'. specialize (Hs e' Hin'). simpl in *.
      rewrite not_elem_of_union, not_elem_of_singleton. split; [|done]. intros He. apply Hn. by exists e'.
Qed.
End CheckEntriesLemmas.

Lemma NoDup_subject {A} (identity : A -> StateIdentity) (l : list A) :
  NoDup (map (StateIdentity_key ∘ identity) l) <-> NoDup (map (subject ∘ identity) l).
Proof.
  induction l as [|x l IH]; simpl; [split; constructor|].
  rewrite !NoDup_cons, IH, !list_elem_of_fmap. simpl.
  assert (Hsame : (exists y, StateIdentity_key (identity x) = StateIdentity_key (identity y) /\ y ∈ l)
    <-> exists y, subject (identity x) = subject (identity y) /\ y ∈ l).
  { split; intros (y & H & ?); exists y; (split; [by apply StateIdentity_key_subject|done]). }
  by rewrite Hsame.
Qed.

Lemma valid_acknowledgement_spec a :
  valid_acknowledgement a = true <-> ValidStateIdentity (ack_Identity a)
    /\ IsZero (ack_ObservedAt a) = false /\ IsZero (ack_TouchedAt a) = false.
Proof.
  unfold valid_acknowledgement. rewrite negb_true_iff, !orb_false_iff, <- StateIdentity_Validate_None.
  destruct (StateIdentity_Validate _); simpl; naive_solver.
Qed.

Lemma valid_last_shown_spec l :
  valid_last_shown l = true <-> ValidStateIdentity (ls_Identity l) /\ IsZero (ls_ShownAt l) = false.
Proof.
  unfold valid_last_shown. rewrite negb_true_iff, !orb_false_iff, <- StateIdentity_Validate_None.
  destruct (StateIdentity_Validate _); simpl; naive_solver.
Qed.

Lemma validate_document_None d : validateStateDocument d = None <-> ValidDocument d.
Proof.
  unfold validateStateDocument.
  destruct (Z.eqb_spec (sd_Version d) StateVersion) as [Hv|Hv]; simpl; [|split; [done|by intros []]].
  destruct (Z.ltb_spec MaxStateEntries
    (Z.of_nat (length (sd_Acknowledgements d)) + Z.of_nat (length (sd_LastShown d)))) as [Hl|Hl];
    [split; [done|intros []; lia]|].
  pose proof (check_entries_None valid_acknowledgement ack_Identity
    (Errorf "attention acknowledgement is invalid" [])
    (Errorf "attention acknowledgement identity is duplicated" []) ∅ (sd_Acknowledgements d)) as Ha.
  pose proof (check_entries_None valid_last_shown ls_Identity
    (Errorf "attention last-shown entry is invalid" [])
    (Errorf "attention last-shown identity is duplicated" []) ∅ (sd_LastShown d)) as Hs.
  rewrite NoDup_subject, !Forall_forall in Ha. rewrite NoDup_subject, !Forall_forall in Hs.
  setoid_rewrite valid_acknowledgement_spec in Ha. setoid_rewrite valid_last_shown_spec in Hs.
  destruct (check_entries valid_acknowledgement _ _ _ _ _).
  - split; [done|]. intros []. apply Ha. by split_and!.
  - destruct Ha as [(Ha1 & Ha2 & _) _]; [done|]. rewrite Hs. split.
    + intros (Hs1 & Hs2 & _). by constructor.
    + intros []. by split_and!.
Qed.

(** Validity does not depend on the order of the entries. *)
#[export] Instance ValidDocument_perm v :
  Proper (Permutation ==> Permutation ==> iff) (fun acks shown => ValidDocument (mkStateDocument v acks shown)).
Proof.
  assert (Himp : Proper (Permutation ==> Permutation ==> impl)
    (fun acks shown => ValidDocument (mkStateDocument v acks shown))).
  { intros a1 a2 Ha s1 s2 Hs [? ? H1 H2 H3 H4]. simpl in *. constructor; simpl; [done|..].
    - by rewrite <- Ha, <- Hs.
    - intros a. rewrite <- Ha. apply H1.
    - intros s. rewrite <- Hs. apply H2.
    - by rewrite <- Ha.
    - by rewrite <- Hs. }
  intros a1 a2 Ha s1 s2 Hs. split; by apply Himp.
Qed.

Lemma sort_valid d : ValidDocument (sortStateDocument d) <-> ValidDocument d.
Proof.
  unfold sortStateDocument. destruct d as [v acks shown]. simpl.
  apply ValidDocument_perm; apply SortFunc_perm.
Qed.

Lemma sort_key_unique {A} (identity : A -> StateIdentity) l1 l2 :
  l1 ≡ₚ l2 -> NoDup (map (subject ∘ identity) l1) ->
  SortFunc (cmp_key (StateIdentity_key ∘ identity)) l1 = SortFunc (cmp_key (StateIdentity_key ∘ identity)) l2.
Proof.
  intros Hp Hnd. apply SortFunc_key_unique; [done|]. by apply NoDup_subject.
Qed.

Lemma Save_sorted_document (document : StateDocument) :
  sd_Version document = 0 \/ sd_Version document = StateVersion ->
  (if sd_Version document =? 0
   then mkStateDocument StateVersion (sd_Acknowledgements document) (sd_LastShown document)
   else document)
  = mkStateDocument StateVersion (sd_Acknowledgements document) (sd_LastShown document).
Proof. destruct document as [v a l]. simpl. by intros [-> | ->]. Qed.

(** A failing branch of [Load]: no readable document. *)
Ltac load_fails :=
  right; right; split; [done|]; split; [|by do 2 eexists];
  intros (d' & Hr & _); unfold readable in Hr; destruct_and?; (congruence || lia).

(** The three ways through [Load]. *)
Lemma Load_cases io s :
  let '(document, err, s') := Load io s in
  (missing io /\ document = mkStateDocument StateVersion [] [] /\ err = None /\ s' = read_ok (UTC (io_now io)) s)
  \/ (~ missing io /\ readable io document /\ ValidDocument document /\ err = None
      /\ s' = read_ok (UTC (io_now io)) s)
  \/ (~ missing io /\ ~ (exists d, readable io d /\ ValidDocument d)
      /\ exists code e, document = empty_document /\ (err, s') = failLocked code e s).
Proof.
  unfold Load, missing. cbv zeta.
  destruct (is_some (io_lstat io) && io_missing io) eqn:H1.
  { apply andb_true_iff in H1 as [? ?]. left. by split_and!. }
  assert (Hm : ~ (is_some (io_lstat io) = true /\ io_missing io = true)).
  { by rewrite <- andb_true_iff, H1. }
  destruct (io_lstat io) as [e|] eqn:H2; [load_fails|]. simpl (_ || _).
  destruct (io_path_regular io) eqn:H3; simpl (negb _); [|load_fails].
  destruct (io_open io) as [e|] eqn:H4; [load_fails|].
  destruct (io_stat io) as [e|] eqn:H5; [load_fails|]. simpl (is_some _).
  destruct (io_file_regular io) eqn:H6; simpl (_ || _); [|load_fails].
  destruct (io_same_file io) eqn:H7; simpl (negb _); [|load_fails].
  destruct (io_chmod io) as [e|] eqn:H8; [load_fails|].
  destruct (io_decode io) as [d|e] eqn:H9; [|load_fails].
  destruct (io_trailing io) eqn:H10; [load_fails|].
  destruct (Z.ltb_spec maxStateBytes (io_size io)); [load_fails|].
  destruct (Z.eqb_spec (sd_Version d) StateVersion) as [Hv|Hv]; simpl (negb _).
  2: { right; right. split; [done|]. split; [|by do 2 eexists].
       intros (d' & Hr & [? _ _ _ _ _]). unfold readable in Hr.
       destruct_and?. congruence. }
  destruct (validateStateDocument d) as [e|] eqn:H11.
  - right; right. split; [done|]. split; [|by do 2 eexists].
    intros (d' & Hr & Hd%validate_document_None). unfold readable in Hr.
    destruct_and?. congruence.
  - right; left. apply validate_document_None in H11. by unfold readable.
Qed.

(** ** Properties *)

(** [validateStateDocument] accepts exactly the documents of the current version
    with at most 2048 entries, all of them valid, and at most one acknowledgement and
    one last-shown time per observation, generations notwithstanding. *)
Theorem validateStateDocument_iff d : validateStateDocument d = None <-> ValidDocument d.
Proof. apply validate_document_None. Qed.

(** [Load] returns no error exactly when the file is missing, and then an empty
    document, or is a readable bounded regular file that decodes to a valid document,
    and then that document. Every error leaves an empty document and a degraded
    status with a code, and counts one failure. *)
Theorem Load_exact io s :
  let '(document, err, s') := Load io s in
  (err = None <-> missing io \/ (~ missing io /\ exists d, readable io d /\ ValidDocument d))
  /\ (err = None -> ValidDocument document /\ ss_Phase (st_status s') = "loaded"%string
      /\ ss_Failures (st_status s') = ss_Failures (st_status s)
      /\ (~ missing io -> readable io document))
  /\ (forall e, err = Some e -> document = empty_document
      /\ ss_Phase (st_status s') = "degraded"%string
      /\ ss_LastErrorCode (st_status s') = se_Code e
      /\ ss_Failures (st_status s') = u64_succ (ss_Failures (st_status s))).
Proof.
  pose proof (Load_cases io s) as H. destruct (Load io s) as [[document err] s'].
  destruct H as [(Hm & -> & -> & ->)|[(Hm & Hr & Hv & -> & ->)|(Hm & Hn & code & e & -> & [= -> ->])]].
  - split; [by split; [left|]|]. split; [|done]. intros _. split_and!; try done.
    by apply validate_document_None.
  - split; [split; [right; split; [done|by exists document]|done]|]. by split.
  - split; [split; [done|intros [?|[_ Hd]]; done]|]. split; [done|]. by intros ? [= <-].
Qed.

(** [Save] hands the storage layer only valid documents in canonical order, and
    none at all for an invalid one; a nil error means the storage layer reported none,
    and any error degrades the status. *)
Theorem Save_exact {W} replace now document s (w : W) :
  let '(outcome, err, s', w') := Save replace now document s w in
  let current := if sd_Version document =? 0
    then mkStateDocument StateVersion (sd_Acknowledgements document) (sd_LastShown document)
    else document in
  (~ ValidDocument current /\ outcome = NotCommitted /\ w' = w
   /\ exists e, err = Some (mkStateError "attention_state_invalid" e))
  \/ (ValidDocument (sortStateDocument current)
      /\ (outcome, w') = (let '(o, _, w1) := replace (st_path s) (sortStateDocument current) w in (o, w1))
      /\ (err = None <-> (replace (st_path s) (sortStateDocument current) w).1.2 = None)
      /\ ss_Phase (st_status s') = (if decide (err = None) then "loaded" else "degraded")%string).
Proof.
  unfold Save. cbv zeta.
  set (current := if sd_Version document =? 0 then _ else document).
  pose proof (validate_document_None current) as Hv. destruct (validateStateDocument current) as [e|].
  - simpl. left. split; [by intros Hc%Hv|]. split_and!; try done. by exists e.
  - assert (Hsv : ValidDocument (sortStateDocument current)) by (by apply sort_valid, Hv).
    destruct (replace _ _ w) as [[o [e|]] w1]; simpl; right; by split_and!.
Qed.

(** Over an atomic file system, a save that reports no error has put the canonical
    document in place, one that reports uncertain durability too, and any other
    failure leaves the previous file as it was. *)
Theorem Save_durable {W} (ops : operations W StateDocument) content encoded temporary
    (Hfs : FileSystem ops content encoded temporary) now document s w :
  ~ temporary (st_path s) ->
  let '(outcome, err, s', w') := Save (replaceJSON ops) now document s w in
  let written := sortStateDocument
    (mkStateDocument StateVersion (sd_Acknowledgements document) (sd_LastShown document)) in
  (err = None -> outcome = Committed)
  /\ (IsCommitted outcome = true ->
      ValidDocument written /\ content w' (st_path s) = Some (encoded written))
  /\ (IsCommitted outcome = false -> content w' (st_path s) = content w (st_path s)).
Proof.
  intros Hpath. pose proof (replaceJSON_spec (ops := ops) (st_path s)
    (sortStateDocument (mkStateDocument StateVersion (sd_Acknowledgements document) (sd_LastShown document))) w Hpath) as Hr.
  unfold Save. cbv zeta.
  set (current := if sd_Version document =? 0 then _ else document).
  pose proof (validate_document_None current) as Hv. destruct (validateStateDocument current) as [e|]; [done|].
  destruct Hv as [Hv _]. specialize (Hv eq_refl).
  assert (Hcur : current = mkStateDocument StateVersion (sd_Acknowledgements document) (sd_LastShown document)).
  { destruct Hv as [Hversion _ _ _ _ _]. revert Hversion. unfold current. destruct (_ =? 0); [done|].
    destruct document; simpl. by intros ->. }
  rewrite Hcur in *. apply sort_valid in Hv.
  destruct (replaceJSON _ _ _ w) as [[outcome err] w'].
  destruct Hr as (Hok & Hc & Hn). destruct err as [e|]; simpl; (split; [naive_solver|]); split.
  1,3: intros Ho; destruct (Hc Ho); done.
  all: intros Ho; destruct (Hn Ho) as [_ Hsame]; apply Hsame; by right.
Qed.

(** The bytes written do not depend on the order in which the daemon lists its
    acknowledgements and last-shown times. *)
Theorem Save_canonical {W} replace now d1 d2 s (w : W) :
  ValidDocument d1 -> sd_Version d2 = StateVersion ->
  sd_Acknowledgements d1 ≡ₚ sd_Acknowledgements d2 -> sd_LastShown d1 ≡ₚ sd_LastShown d2 ->
  Save replace now d1 s w = Save replace now d2 s w.
Proof.
  intros Hv Hv2 Ha Hs. pose proof (vd_version _ Hv) as Hv1. unfold Save. rewrite Hv1, Hv2. cbn [Z.eqb StateVersion].
  destruct d1 as [v1 a1 s1], d2 as [v2 a2 s2]. simpl in *. subst v1 v2.
  assert (Hd2 : ValidDocument (mkStateDocument StateVersion a2 s2)).
  { by rewrite <- (ValidDocument_perm StateVersion a1 a2 Ha s1 s2 Hs). }
  rewrite (proj2 (validate_document_None _) Hv), (proj2 (validate_document_None _) Hd2).
  assert (sortStateDocument (mkStateDocument StateVersion a1 s1)
          = sortStateDocument (mkStateDocument StateVersion a2 s2)) as ->; [|done].
  unfold sortStateDocument. simpl. f_equal; apply sort_key_unique; (done || apply Hv).
Qed.

(** ** Witnesses *)

Definition demo_identity (key : string) : StateIdentity :=
  mkStateIdentity "dev.bsbctl.test" "test" 1 "main" key.

Definition demo_document (keys : list string) : StateDocument :=
  mkStateDocument 1 (map (fun k => mkAcknowledgementState (demo_identity k) (mkTime 5 0) (mkTime 6 0)) keys) [].

Definition demo_encoded (d : StateDocument) : string := join_strings ", " (map ack_key (sd_Acknowledgements d)).

Lemma Save_durable_witness :
  disk_content
    (Save (replaceJSON (disk_ops demo_encoded)) zero_time (demo_document ["b"; "a"]%string)
       (NewStateStore "state/attention.json") (demo_disk [])).2 "state/attention.json"
  = Some (demo_encoded (demo_document ["a"; "b"]%string)).
Proof.
  pose proof (Save_durable (disk_ops demo_encoded) disk_content demo_encoded disk_is_temporary
    (disk_FileSystem demo_encoded) zero_time (demo_document ["b"; "a"]%string)
    (NewStateStore "state/attention.json") (demo_disk []) demo_path_not_temporary) as H.
  destruct (Save _ _ _ _ _) as [[[outcome err] s'] w'] eqn:E.
  destruct H as (_ & H & _). transitivity (disk_content w' (st_path (NewStateStore "state/attention.json"))); [reflexivity|].
  rewrite (proj2 (H ltac:(vm_compute in E; injection E as <- _ _ _; reflexivity))).
  vm_compute. reflexivity.
Defined.

Lemma Save_canonical_witness :
  Save (replaceJSON (disk_ops demo_encoded)) zero_time (demo_document ["b"; "a"]%string)
    (NewStateStore "state/attention.json") (demo_disk [])
  = Save (replaceJSON (disk_ops demo_encoded)) zero_time (demo_document ["a"; "b"]%string)
    (NewStateStore "state/attention.json") (demo_disk []).
Proof.
  apply (Save_canonical (replaceJSON (disk_ops demo_encoded)) zero_time (demo_document ["b"; "a"]%string)
    (demo_document ["a"; "b"]%string)).
  - apply validate_document_None. vm_compute. reflexivity.
  - reflexivity.
  - constructor.
  - reflexivity.
Defined.
