(* ===== verification/GoJson.v ===== *)
(** * JSON encoding of strings, integers and times

    The part of [encoding/json] and [time] the protocol's wire-size checks depend
    on: [json.Marshal] of a string (with HTML escaping, the default), of an
    integer, and of a [time.Time] (RFC 3339 with nanoseconds), byte for byte. *)

From Stdlib Require Import ZArith Lia ZifyBool.
From S2P Require Import Prelude GoStrings GoTime.

(** The double quote, the backslash, and the encoding of a quoted body. *)
Definition dq : string := String (ascii_of_byte 34) EmptyString.
Definition quoted (body : string) : string := dq +:+ body +:+ dq.

(** ** Integers *)

Definition digit (n : Z) : string := String (ascii_of_byte (48 + n)) EmptyString.

(** [strconv.FormatUint] for numbers of at most [fuel] + 1 digits. *)
Fixpoint format_uint_from (fuel : nat) (n : Z) : string :=
  match fuel with
  | O => digit (n mod 10)
  | S fuel' => if n <? 10 then digit n else format_uint_from fuel' (n / 10) +:+ digit (n mod 10)
  end.

(** Twenty digits hold every 64-bit number. *)
Definition format_uint (n : Z) : string := format_uint_from 19 n.
Definition format_int (n : Z) : string :=
  if n <? 0 then "-" +:+ format_uint (- n) else format_uint n.

(** Exactly [k] decimal digits of [n]. *)
Fixpoint pad (k : nat) (n : Z) : string :=
  match k with
  | O => EmptyString
  | S k' => pad k' (n / 10) +:+ digit (n mod 10)
  end.

(** ** Strings *)

Definition hex_digit (n : Z) : string :=
  String (ascii_of_byte (if n <? 10 then 48 + n else 87 + n)) EmptyString.

Definition escape_byte (b : Z) : string :=
  if b =? 34 then "\" +:+ dq
  else if b =? 92 then "\\"
  else if b =? 8 then "\b" else if b =? 12 then "\f" else if b =? 10 then "\n"
  else if b =? 13 then "\r" else if b =? 9 then "\t"
  else if (b <? 32) || (b =? 60) || (b =? 62) || (b =? 38) then
    "\u00" +:+ hex_digit (b / 16) +:+ hex_digit (b mod 16)
  else String (ascii_of_byte b) EmptyString.

(** The string with [escape] for its bytes below 128; [skip] bytes belong to the rune
    already handled, and they are copied when [copy] holds. *)
Fixpoint escape_with (escape : Z -> string) (copy : bool) (skip : nat) (s : string) : string :=
  match s with
  | EmptyString => EmptyString
  | String a s' =>
    match skip with
    | S k => if copy then String a (escape_with escape copy k s') else escape_with escape copy k s'
    | O =>
      if byte a <? 128 then escape (byte a) +:+ escape_with escape true 0 s'
      else
        let '(r, n) := DecodeRuneInString s in
        if (r =? RuneError) && Nat.eqb n 1 then "\ufffd" +:+ escape_with escape true 0 s'
        else if (r =? 8232) || (r =? 8233) then
          "\u202" +:+ hex_digit (r mod 16) +:+ escape_with escape false (n - 1) s'
        else String a (escape_with escape true (n - 1) s')
    end
  end.

Definition escape_from : bool -> nat -> string -> string := escape_with escape_byte.

Definition json_string (s : string) : string := quoted (escape_from true 0 s).

(** ** Times *)

Definition day_ns : Z := 24 * Hour.

(** The civil date of a day counted from January 1 of year 1: the day of a
    400-year era starting on March 1, then its year and month. *)
Definition civil (day : Z) : Z * Z * Z :=
  let z := day + 306 in
  let era := z / 146097 in
  let doe := z mod 146097 in
  let yoe := (doe - doe / 1460 + doe / 36524 - doe / 146096) / 365 in
  let doy := doe - (365 * yoe + yoe / 4 - yoe / 100) in
  let mp := (5 * doy + 2) / 153 in
  let d := doy - (153 * mp + 2) / 5 + 1 in
  let m := if mp <? 10 then mp + 3 else mp - 9 in
  (yoe + era * 400 + (if m <=? 2 then 1 else 0), m, d).

(** The fraction of a second without trailing zeros, and its point. *)
Fixpoint trim_zeros (k : nat) (n : Z) : string :=
  match k with
  | O => EmptyString
  | S k' => if n mod 10 =? 0 then trim_zeros k' (n / 10) else "." +:+ pad k n
  end.

Definition format_offset (offset : Z) : string :=
  if offset =? 0 then "Z"
  else
    let zone := Z.quot offset 60 in
    (if zone <? 0 then "-" else "+") +:+ pad 2 (Z.abs zone / 60) +:+ ":" +:+ pad 2 (Z.abs zone mod 60).

(** [Time.MarshalJSON]: the year has four digits and the zone less than 24 hours. *)
Definition Time_MarshalJSON (t : Time) : string + error :=
  let local := instant t + zone_offset t * Second in
  let '(year, month, day) := civil (local / day_ns) in
  let ns := local mod day_ns in
  if negb (between 0 9999 year) then
    inr (Errorf "Time.MarshalJSON: year outside of range [0,9999]" [])
  else if 24 * 60 <=? Z.abs (Z.quot (zone_offset t) 60) then
    inr (Errorf "Time.MarshalJSON: timezone hour outside of range [0,23]" [])
  else inl (quoted
    (pad 4 year +:+ "-" +:+ pad 2 month +:+ "-" +:+ pad 2 day +:+ "T"
     +:+ pad 2 (ns / Hour) +:+ ":" +:+ pad 2 (ns / (60 * Second) mod 60)
     +:+ ":" +:+ pad 2 (ns / Second mod 60) +:+ trim_zeros 9 (ns mod Second)
     +:+ format_offset (zone_offset t))).

(** ** Lemmas *)

Lemma len_digit n : len (digit n) = 1.
Proof. reflexivity. Qed.

Lemma len_hex_digit n : len (hex_digit n) = 1.
Proof. reflexivity. Qed.

Lemma len_quoted s : len (quoted s) = len s + 2.
Proof. unfold quoted. rewrite !len_app. change (len dq) with 1. lia. Qed.

Lemma len_format_uint_from fuel n : 1 <= len (format_uint_from fuel n) <= Z.of_nat fuel + 1.
Proof.
  revert n. induction fuel as [|fuel IH]; intros n; simpl; [rewrite len_digit; lia|].
  destruct (n <? 10); [rewrite len_digit; lia|]. rewrite len_app, len_digit.
  specialize (IH (n / 10)). lia.
Qed.

Lemma len_format_uint n : 1 <= len (format_uint n) <= 20.
Proof. apply (len_format_uint_from 19). Qed.

(** The value of a string of decimal digits, read from [acc]. *)
Fixpoint decimal_value (acc : Z) (s : string) : Z :=
  match s with
  | EmptyString => acc
  | String c s => decimal_value (10 * acc + (byte c - 48)) s
  end.

Lemma decimal_value_digit s n : 0 <= n < 10 ->
  forall acc, decimal_value acc (s +:+ digit n) = 10 * decimal_value acc s + n.
Proof.
  intros Hn. induction s as [|c s IH]; intros acc; simpl; [|apply IH].
  rewrite byte_ascii_of_byte; lia.
Qed.

Lemma decimal_value_format_from fuel n :
  0 <= n < 10 ^ (Z.of_nat fuel + 1) -> decimal_value 0 (format_uint_from fuel n) = n.
Proof.
  revert n. induction fuel as [|fuel IH]; intros n Hn.
  - change (10 ^ (Z.of_nat 0 + 1)) with 10 in Hn. cbn [format_uint_from]. rewrite Z.mod_small by lia.
    apply (decimal_value_digit EmptyString n); lia.
  - cbn [format_uint_from]. destruct (Z.ltb_spec n 10); [apply (decimal_value_digit EmptyString n); lia|].
    rewrite decimal_value_digit by (apply Z.mod_pos_bound; lia). rewrite IH.
    + symmetry. apply Z.div_mod. lia.
    + split; [apply Z.div_pos; lia|]. apply Z.div_lt_upper_bound; [lia|].
      replace (Z.of_nat (S fuel) + 1) with (Z.succ (Z.of_nat fuel + 1)) in Hn by lia.
      rewrite Z.pow_succ_r in Hn by lia. lia.
Qed.

(** Decimal representations of 64-bit numbers are distinct. *)
Lemma format_uint_inj a b :
  0 <= a < two64 -> 0 <= b < two64 -> format_uint a = format_uint b -> a = b.
Proof.
  intros Ha Hb Heq. assert (two64 <= 10 ^ (Z.of_nat 19 + 1)) by (vm_compute; discriminate).
  rewrite <- (decimal_value_format_from 19 a), <- (decimal_value_format_from 19 b) by lia.
  unfold format_uint in Heq. by rewrite Heq.
Qed.

Lemma len_format_int n : 1 <= len (format_int n) <= 21.
Proof.
  unfold format_int. destruct (n <? 0); [rewrite len_app; change (len "-") with 1|];
    match goal with |- context [format_uint ?m] => pose proof (len_format_uint m) end; lia.
Qed.

Lemma len_pad k n : len (pad k n) = Z.of_nat k.
Proof.
  revert n. induction k as [|k IH]; intros n; [done|]. cbn [pad]. rewrite len_app, IH, len_digit. lia.
Qed.

Lemma len_trim_zeros k n : len (trim_zeros k n) <= Z.of_nat k + 1.
Proof.
  revert n. induction k as [|k IH]; intros n; [done|]. cbn [trim_zeros].
  destruct (n mod 10 =? 0); [specialize (IH (n / 10)); lia|].
  rewrite len_app, len_pad. change (len ".") with 1. lia.
Qed.

Lemma len_escape_byte b : len (escape_byte b) <= 6.
Proof. unfold escape_byte. repeat case_if; unfold len; simpl; lia. Qed.

Lemma len_String a s : len (String a s) = len s + 1.
Proof. unfold len. simpl. lia. Qed.

(** Escaping a byte takes at most six bytes. *)
Lemma len_escape_from copy skip s : len (escape_from copy skip s) <= 6 * len s.
Proof.
  revert copy skip. induction s as [|a s IH]; intros copy skip; [done|].
  rewrite len_String. unfold escape_from in *. cbn [escape_with]. destruct skip as [|k].
  - destruct (byte a <? 128).
    { rewrite len_app. pose proof (len_escape_byte (byte a)). specialize (IH true 0%nat). lia. }
    destruct (DecodeRuneInString (String a s)) as [r n].
    destruct ((r =? RuneError) && Nat.eqb n 1).
    { rewrite len_app. change (len "\ufffd") with 6. specialize (IH true 0%nat). lia. }
    destruct ((r =? 8232) || (r =? 8233)).
    + rewrite !len_app, len_hex_digit. change (len "\u202") with 5. specialize (IH false (n - 1)%nat). lia.
    + rewrite len_String. specialize (IH true (n - 1)%nat). pose proof (len_nonneg s). lia.
  - specialize (IH copy k). pose proof (len_nonneg s). destruct copy; [rewrite len_String|]; lia.
Qed.

Lemma len_json_string s : len (json_string s) <= 6 * len s + 2.
Proof. unfold json_string. rewrite len_quoted. pose proof (len_escape_from true 0 s). lia. Qed.

Lemma len_format_offset offset : len (format_offset offset) <= 6.
Proof.
  unfold format_offset. destruct (offset =? 0); [done|]. rewrite !len_app, !len_pad.
  destruct (_ <? 0); unfold len; simpl; lia.
Qed.

Lemma len_Time_MarshalJSON t s : Time_MarshalJSON t = inl s -> len s <= 40.
Proof.
  unfold Time_MarshalJSON. destruct (civil _) as [[year month] day].
  destruct (between 0 9999 year); [|done]. destruct (24 * 60 <=? _); [done|]. intros H. apply (inj inl) in H as <-.
  rewrite len_quoted, !len_app, !len_pad.
  pose proof (len_trim_zeros 9 ((instant t + zone_offset t * Second) mod day_ns mod Second)).
  pose proof (len_format_offset (zone_offset t)).
  change (len "-") with 1. change (len "T") with 1. change (len ":") with 1. lia.
Qed.

Create HintDb gojson.
#[export] Hint Rewrite len_app len_quoted len_String len_digit len_pad : gojson.

(** Concrete encodings. *)
Example json_string_escapes : json_string "a<\b" = dq +:+ "a\u003c\\b" +:+ dq.
Proof. reflexivity. Qed.

Example Time_MarshalJSON_epoch :
  Time_MarshalJSON (mkTime (719162 * day_ns + 1500000000) 0) = inl (dq +:+ "1970-01-01T00:00:01.5Z" +:+ dq).
Proof. vm_compute. reflexivity. Qed.

Example Time_MarshalJSON_leap :
  Time_MarshalJSON (mkTime (738944 * day_ns) 3600) = inl (dq +:+ "2024-02-29T01:00:00+01:00" +:+ dq).
Proof. vm_compute. reflexivity. Qed.
