(* ===== verification/ProtocolSession.v ===== *)
(** * Session, input, host and handshake messages of the protocol

    Models [src/sdk/protocol/input.go], the session requests of [sessions.go], the
    withdraw, health and log messages of [host.go], the handshake of [lifecycle.go]
    and the domain errors of [errors.go], with their validators. The requests that
    carry raw JSON (actions, operations, checkpoints) are not here. *)

From Stdlib Require Import ZArith Lia ZifyBool.
From S2P Require Import Prelude GoStrings GoTime Identifier GoJson Protocol.

(** ** [input.go] *)

Definition SessionInputConsumed : string := "consumed".
Definition SessionInputNotConsumed : string := "not_consumed".

Record SessionInputResult := mkSessionInputResult { sir_Disposition : string }.

Definition SessionInputResult_Validate (result : SessionInputResult) : option error :=
  if one_of (sir_Disposition result) [SessionInputConsumed; SessionInputNotConsumed] then None
  else Some (Errorf "unsupported session input disposition %q" [EStr (sir_Disposition result)]).

Definition ButtonOK : string := "ok".
Definition ButtonBack : string := "back".
Definition ButtonStart : string := "start".
Definition ButtonPress : string := "press".
Definition ButtonRelease : string := "release".

Record ButtonInput := mkButtonInput { bi_Button : string; bi_Action : string }.
Record EncoderInput := mkEncoderInput { ei_Delta : Z }.
Record SessionInput := mkSessionInput { in_Button : option ButtonInput; in_Encoder : option EncoderInput }.

#[export] Instance ButtonInput_eq_dec : EqDecision ButtonInput.
Proof. solve_decision. Defined.
#[export] Instance EncoderInput_eq_dec : EqDecision EncoderInput.
Proof. solve_decision. Defined.
#[export] Instance SessionInput_eq_dec : EqDecision SessionInput.
Proof. solve_decision. Defined.

Definition SessionInput_Validate (input : SessionInput) : option error :=
  if Bool.eqb (negb (is_some (in_Button input))) (negb (is_some (in_Encoder input))) then
    errors_New "session input must contain exactly one of button or encoder"
  else
    let button_error :=
      match in_Button input with
      | None => None
      | Some button =>
        if negb (one_of (bi_Button button) [ButtonOK; ButtonBack; ButtonStart]) then
          Some (Errorf "unsupported button %q" [EStr (bi_Button button)])
        else if negb (one_of (bi_Action button) [ButtonPress; ButtonRelease]) then
          Some (Errorf "unsupported button action %q" [EStr (bi_Action button)])
        else None
      end in
    match button_error with
    | Some err => Some err
    | None =>
      match in_Encoder input with
      | Some encoder =>
        if ei_Delta encoder =? 0 then errors_New "encoder delta must not be zero" else None
      | None => None
      end
    end.

Record SessionInputRequest := mkSessionInputRequest {
  sq_Sequence : Z;
  sq_OccurredAt : Time;
  sq_Instance : InstanceRef;
  sq_SessionToken : string;
  sq_Input : SessionInput;
}.

(** ** Session requests *)

Definition validateSessionRequest (instance : InstanceRef) (token : string) : option error :=
  errors_Join [InstanceRef_Validate instance; validateIdentifier "session token" token].

Record SessionEndRequest := mkSessionEndRequest { se_Instance : InstanceRef; se_SessionToken : string }.
Record CompleteSessionRequest := mkCompleteSessionRequest { cs_Instance : InstanceRef; cs_SessionToken : string }.
Record SessionExecutionRequest := mkSessionExecutionRequest { sx_Instance : InstanceRef; sx_SessionToken : string }.

Definition SessionEndRequest_Validate (r : SessionEndRequest) : option error :=
  validateSessionRequest (se_Instance r) (se_SessionToken r).
Definition CompleteSessionRequest_Validate (r : CompleteSessionRequest) : option error :=
  validateSessionRequest (cs_Instance r) (cs_SessionToken r).
Definition SessionExecutionRequest_Validate (r : SessionExecutionRequest) : option error :=
  validateSessionRequest (sx_Instance r) (sx_SessionToken r).

(** ** The wire form of a session input request *)

Definition field (name value : string) : string := quoted name +:+ ":" +:+ value.

Definition InstanceRef_JSON (ref : InstanceRef) : string :=
  "{" +:+ field "id" (json_string (ref_ID ref)) +:+ ","
  +:+ field "generation" (format_uint (ref_Generation ref)) +:+ "}".

Definition ButtonInput_JSON (button : ButtonInput) : string :=
  "{" +:+ field "button" (json_string (bi_Button button)) +:+ ","
  +:+ field "action" (json_string (bi_Action button)) +:+ "}".

Definition EncoderInput_JSON (encoder : EncoderInput) : string :=
  "{" +:+ field "delta" (format_int (ei_Delta encoder)) +:+ "}".

(** Both fields are [omitempty] pointers. *)
Definition SessionInput_JSON (input : SessionInput) : string :=
  "{" +:+ join_strings ","
    (option_list ((fun b => field "button" (ButtonInput_JSON b)) <$> in_Button input)
     ++ option_list ((fun e => field "encoder" (EncoderInput_JSON e)) <$> in_Encoder input)) +:+ "}".

(** [json.Marshal(request)]. *)
Definition SessionInputRequest_JSON (request : SessionInputRequest) : string + error :=
  match Time_MarshalJSON (sq_OccurredAt request) with
  | inr err => inr err
  | inl occurred_at => inl (
    "{" +:+ field "sequence" (format_uint (sq_Sequence request)) +:+ ","
    +:+ field "occurred_at" occurred_at +:+ ","
    +:+ field "instance" (InstanceRef_JSON (sq_Instance request)) +:+ ","
    +:+ field "session_token" (json_string (sq_SessionToken request)) +:+ ","
    +:+ field "input" (SessionInput_JSON (sq_Input request)) +:+ "}")
  end.

Definition SessionInputRequest_Validate (request : SessionInputRequest) : option error :=
  errors_Join
    [ err_if (sq_Sequence request =? 0)
        (Errorf "session input sequence must be greater than zero" []);
      validateRequiredTimestamp "occurred_at" (sq_OccurredAt request);
      validateSessionRequest (sq_Instance request) (sq_SessionToken request);
      SessionInput_Validate (sq_Input request);
      (match SessionInputRequest_JSON request with
       | inr err => Some err
       | inl wire => err_if (MaxSessionInputBytes <? len wire) (Errorf "session input exceeds 16 KiB" [])
       end) ].

(** ** [host.go] *)

Record WithdrawRequest := mkWithdrawRequest { wr_Instance : InstanceRef; wr_Channel : string; wr_Key : string }.

Definition WithdrawRequest_Validate (request : WithdrawRequest) : option error :=
  errors_Join
    [ InstanceRef_Validate (wr_Instance request);
      validateIdentifier "withdraw channel" (wr_Channel request);
      validateIdentifier "withdraw key" (wr_Key request) ].

Record HealthResult := mkHealthResult { hr_Healthy : bool; hr_ObservedAt : Time }.

Definition HealthResult_Validate (result : HealthResult) : option error :=
  validateRequiredTimestamp "health observed_at" (hr_ObservedAt result).

Definition LogLevelDebug : string := "debug".
Definition LogLevelInfo : string := "info".
Definition LogLevelWarn : string := "warn".
Definition LogLevelError : string := "error".

(** [^[a-z0-9][a-z0-9._-]{0,63}$] *)
Definition logIdentifierPattern (s : string) : bool :=
  match_head_tail (fun b => is_lower b || is_digit b)
    (fun b => is_lower b || is_digit b || byte_in "._-" b) 63 s.

Record LogNotification := mkLogNotification {
  ln_Level : string;
  ln_Event : string;
  ln_Instance : InstanceRef;
  ln_Message : string;
  ln_Fields : gmap string string;
}.

Definition zero_ref : InstanceRef := mkInstanceRef EmptyString 0.

(** The loop over the fields; Go's order is unspecified, here it is the map's. *)
Fixpoint check_fields (fields : list (string * string)) : option error :=
  match fields with
  | [] => None
  | (key, value) :: fields' =>
    if negb (logIdentifierPattern key) then
      Some (Errorf "log field key %q must be a safe lowercase identifier of at most 64 bytes" [EStr key])
    else match validateLogText value 256 with
         | Some err => Some (Wrapf "log field %q: %w" [EStr key] err)
         | None => check_fields fields'
         end
  end.

Definition LogNotification_Validate (notification : LogNotification) : option error :=
  if negb (one_of (ln_Level notification) [LogLevelDebug; LogLevelInfo; LogLevelWarn; LogLevelError]) then
    Some (Errorf "unsupported log level %q" [EStr (ln_Level notification)])
  else if negb (logIdentifierPattern (ln_Event notification)) then
    errors_New "log event must be a safe lowercase identifier of at most 64 bytes"
  else
    match (if bool_decide (ln_Instance notification = zero_ref) then None
           else InstanceRef_Validate (ln_Instance notification)) with
    | Some err => Some err
    | None =>
      match validateLogText (ln_Message notification) 1024 with
      | Some err => Some (Wrapf "log message: %w" [] err)
      | None =>
        if 16 <? Z.of_nat (size (ln_Fields notification)) then errors_New "log fields exceed 16 entries"
        else check_fields (map_to_list (ln_Fields notification))
      end
    end.

(** ** [errors.go] *)

Definition ErrorInvalidArgument : string := "invalid_argument".
Definition ErrorNotReady : string := "not_ready".
Definition ErrorGenerationConflict : string := "generation_conflict".
Definition ErrorSessionNotActive : string := "session_not_active".
Definition ErrorSessionCanceled : string := "session_canceled".
Definition ErrorSessionGenerationMismatch : string := "session_generation_mismatch".

Definition ErrorData_Validate (kind : string) : option error :=
  if one_of kind [ErrorInvalidArgument; ErrorNotReady; ErrorGenerationConflict;
                  ErrorSessionNotActive; ErrorSessionCanceled; ErrorSessionGenerationMismatch]
  then None else Some (Errorf "unknown error kind %q" [EStr kind]).

(** ** [lifecycle.go]: the handshake *)

Definition OperationQuery : string := "query".
Definition OperationCommand : string := "command".

Record OperationDescriptor := mkOperationDescriptor { od_ID : string; od_Kind : string }.

Definition OperationDescriptor_Validate (d : OperationDescriptor) : option error :=
  match validateIdentifier "operation id" (od_ID d) with
  | Some err => Some err
  | None =>
    if negb (od_Kind d =s OperationQuery) && negb (od_Kind d =s OperationCommand) then
      Some (Errorf "operation %q has unsupported kind %q" [EStr (od_ID d); EStr (od_Kind d)])
    else None
  end.

Record InitializeRequest := mkInitializeRequest {
  irq_CoreVersion : string;
  irq_PluginID : string;
  irq_PluginVersion : string;
  irq_ProtocolVersion : string;
}.

Definition InitializeRequest_Validate (r : InitializeRequest) : option error :=
  if negb (irq_ProtocolVersion r =s Version) then
    Some (Errorf "protocol version %q is unsupported" [EStr (irq_ProtocolVersion r)])
  else match validateIdentifier "plugin id" (irq_PluginID r) with
       | Some err => Some err
       | None =>
         if (TrimSpace (irq_CoreVersion r) =s EmptyString) || (TrimSpace (irq_PluginVersion r) =s EmptyString)
         then errors_New "core_version and plugin_version are required" else None
       end.

Record InitializeResult := mkInitializeResult {
  irs_PluginID : string;
  irs_PluginVersion : string;
  irs_ProtocolVersion : string;
  irs_ExecutionModes : list string;
  irs_Channels : list string;
  irs_Operations : list OperationDescriptor;
}.

(** A loop that validates entries and rejects repeated identifiers. *)
Fixpoint check_unique {A} (validate : A -> option error) (id : A -> string) (format : string)
    (seen : gset string) (entries : list A) : list (option error) :=
  match entries with
  | [] => []
  | entry :: entries' =>
    validate entry
    :: err_if (bool_decide (id entry ∈ seen)) (Errorf format [EStr (id entry)])
    :: check_unique validate id format ({[id entry]} ∪ seen) entries'
  end.

Definition InitializeResult_Validate (r : InitializeResult) : option error :=
  errors_Join
    ([ validateIdentifier "plugin id" (irs_PluginID r);
       err_if (TrimSpace (irs_PluginVersion r) =s EmptyString) (Errorf "plugin_version is required" []);
       err_if (negb (irs_ProtocolVersion r =s Version))
         (Errorf "protocol version %q is unsupported" [EStr (irs_ProtocolVersion r)]);
       ValidateExecutionModes (irs_ExecutionModes r) ]
     ++ check_unique (validateIdentifier "channel id") (fun channel => channel)
          "channel %q is duplicated" ∅ (irs_Channels r)
     ++ check_unique OperationDescriptor_Validate od_ID
          "operation %q is duplicated" ∅ (irs_Operations r)).

(** ** Specification *)

Definition ValidRef (ref : InstanceRef) : Prop := ValidIdentifier (ref_ID ref) /\ ref_Generation ref <> 0.

(** Exactly one supported button transition or one non-zero encoder step. *)
Definition ValidSessionInput (input : SessionInput) : Prop :=
  (exists button, input = mkSessionInput (Some button) None
     /\ bi_Button button ∈ [ButtonOK; ButtonBack; ButtonStart]
     /\ bi_Action button ∈ [ButtonPress; ButtonRelease])
  \/ (exists delta, input = mkSessionInput None (Some (mkEncoderInput delta)) /\ delta <> 0).

(** The years RFC 3339 can write, in UTC. *)
Definition writable_time (t : Time) : Prop :=
  exists wire, Time_MarshalJSON t = inl wire.

Record ValidSessionInputRequest (request : SessionInputRequest) : Prop := {
  vsr_sequence : sq_Sequence request <> 0;
  vsr_occurred : required_UTC (sq_OccurredAt request) /\ writable_time (sq_OccurredAt request);
  vsr_instance : ValidRef (sq_Instance request);
  vsr_token : ValidIdentifier (sq_SessionToken request);
  vsr_input : ValidSessionInput (sq_Input request);
}.

Record ValidLog (n : LogNotification) : Prop := {
  vlg_level : ln_Level n ∈ [LogLevelDebug; LogLevelInfo; LogLevelWarn; LogLevelError];
  vlg_event : logIdentifierPattern (ln_Event n) = true;
  vlg_instance : ln_Instance n = zero_ref \/ ValidRef (ln_Instance n);
  vlg_message : validateLogText (ln_Message n) 1024 = None;
  vlg_fields : (size (ln_Fields n) <= 16)%nat;
  vlg_each : map_Forall (fun key value =>
    logIdentifierPattern key = true /\ validateLogText value 256 = None) (ln_Fields n);
}.

Record ValidInitializeResult (r : InitializeResult) : Prop := {
  vir_plugin : ValidIdentifier (irs_PluginID r);
  vir_version : TrimSpace (irs_PluginVersion r) <> EmptyString;
  vir_protocol : irs_ProtocolVersion r = Version;
  vir_modes : irs_ExecutionModes r <> [] /\ NoDup (irs_ExecutionModes r)
    /\ forall mode, mode ∈ irs_ExecutionModes r -> mode ∈ [ExecutionModeResident; ExecutionModeInteractive];
  vir_channels : NoDup (irs_Channels r) /\ Forall ValidIdentifier (irs_Channels r);
  vir_operations : NoDup (map od_ID (irs_Operations r))
    /\ Forall (fun d => ValidIdentifier (od_ID d) /\ od_Kind d ∈ [OperationQuery; OperationCommand])
         (irs_Operations r);
}.

(** ** Lemmas *)

Lemma validateSessionRequest_None instance token :
  validateSessionRequest instance token = None <-> ValidRef instance /\ ValidIdentifier token.
Proof.
  unfold validateSessionRequest, ValidRef.
  rewrite errors_Join_None, !all_nil_cons, all_nil_nil, InstanceRef_Validate_None, validateIdentifier_None.
  tauto.
Qed.

Lemma SessionInputResult_Validate_None r :
  SessionInputResult_Validate r = None <-> sir_Disposition r ∈ [SessionInputConsumed; SessionInputNotConsumed].
Proof. unfold SessionInputResult_Validate. rewrite <- one_of_spec. by destruct (one_of _ _). Qed.

Lemma SessionInput_Validate_None input : SessionInput_Validate input = None <-> ValidSessionInput input.
Proof.
  unfold SessionInput_Validate, ValidSessionInput.
  destruct input as [[button|] [[d]|]]; cbn [in_Button in_Encoder is_some negb Bool.eqb];
    [naive_solver| | |naive_solver].
  - pose proof (one_of_spec (bi_Button button) [ButtonOK; ButtonBack; ButtonStart]) as Hb.
    pose proof (one_of_spec (bi_Action button) [ButtonPress; ButtonRelease]) as Ha.
    destruct (one_of (bi_Button button) _), (one_of (bi_Action button) _); simpl; naive_solver.
  - simpl. destruct (Z.eqb_spec d 0); naive_solver.
Qed.

Lemma len_one_of s cases n :
  s ∈ cases -> Forall (fun c => len c <= n) cases -> len s <= n.
Proof. intros Hin Hall. by eapply Forall_forall in Hall. Qed.

Lemma len_field name value : len (field name value) = len name + 3 + len value.
Proof. unfold field. rewrite !len_app, len_quoted. change (len ":") with 1. lia. Qed.

#[local] Opaque field.

Lemma len_SessionInput_JSON input : ValidSessionInput input -> len (SessionInput_JSON input) <= 200.
Proof.
  intros [([b a] & -> & Hb & Ha)|(d & -> & _)].
  - change (len ("{" +:+ field "button" ("{" +:+ field "button" (json_string b) +:+ ","
      +:+ field "action" (json_string a) +:+ "}") +:+ "}") <= 200).
    simpl bi_Button in *. simpl bi_Action in *.
    pose proof (len_json_string b). pose proof (len_json_string a).
    pose proof (len_one_of b _ 7 Hb ltac:(repeat constructor; by vm_compute)).
    pose proof (len_one_of a _ 7 Ha ltac:(repeat constructor; by vm_compute)).
    rewrite !len_app, !len_field, !len_app, !len_field.
    change (len "{") with 1. change (len "}") with 1. change (len ",") with 1.
    change (len "button") with 6. change (len "action") with 6. lia.
  - change (len ("{" +:+ field "encoder" ("{" +:+ field "delta" (format_int d) +:+ "}") +:+ "}") <= 200).
    pose proof (len_format_int d).
    rewrite !len_app, !len_field, !len_app, !len_field.
    change (len "{") with 1. change (len "}") with 1. change (len "encoder") with 7.
    change (len "delta") with 5. lia.
Qed.

(** The wire form of a request whose parts are valid is far below the limit. *)
Lemma SessionInputRequest_small request wire :
  SessionInputRequest_JSON request = inl wire ->
  len (ref_ID (sq_Instance request)) <= 128 -> len (sq_SessionToken request) <= 128 ->
  ValidSessionInput (sq_Input request) -> len wire <= MaxSessionInputBytes.
Proof.
  unfold SessionInputRequest_JSON. destruct (Time_MarshalJSON _) as [t|] eqn:Ht; [|done].
  intros H Hid Htok Hin. apply (inj inl) in H as <-.
  apply len_Time_MarshalJSON in Ht. apply len_SessionInput_JSON in Hin.
  pose proof (len_format_uint (sq_Sequence request)).
  pose proof (len_format_uint (ref_Generation (sq_Instance request))).
  pose proof (len_json_string (ref_ID (sq_Instance request))).
  pose proof (len_json_string (sq_SessionToken request)).
  unfold InstanceRef_JSON. rewrite !len_app, !len_field, !len_app, !len_field.
  change (len "{") with 1. change (len "}") with 1. change (len ",") with 1.
  change (len "sequence") with 8. change (len "occurred_at") with 11. change (len "instance") with 8.
  change (len "session_token") with 13. change (len "input") with 5. change (len "id") with 2.
  change (len "generation") with 10. unfold MaxSessionInputBytes. lia.
Qed.

Lemma check_unique_nil {A} (validate : A -> option error) (id : A -> string) format seen entries :
  all_nil (check_unique validate id format seen entries)
  <-> Forall (fun e => validate e = None) entries /\ NoDup (map id entries)
      /\ Forall (fun e => id e ∉ seen) entries.
Proof.
  revert seen. induction entries as [|e es IH]; intros seen; simpl.
  - rewrite all_nil_nil, !Forall_nil. split; [intros _; split_and!; try done; constructor|done].
  - rewrite !all_nil_cons, err_if_None, bool_decide_eq_false, IH, !Forall_cons, NoDup_cons,
      list_elem_of_fmap, !Forall_forall. split.
    + intros (Hv & Hs & Hvs & Hnd & Hss). split_and!; try done.
      * intros (e' & He & Hin). apply (Hss e' Hin). set_solver.
      * intros e' Hin. specialize (Hss e' Hin). set_solver.
    + intros ([Hv Hvs] & [Hn Hnd] & Hs & Hss). split_and!; try done.
      intros e' Hin. specialize (Hss e' Hin). rewrite not_elem_of_union, not_elem_of_singleton.
      split; [|done]. intros He. apply Hn. by exists e'.
Qed.

Lemma OperationDescriptor_Validate_None d :
  OperationDescriptor_Validate d = None
  <-> ValidIdentifier (od_ID d) /\ od_Kind d ∈ [OperationQuery; OperationCommand].
Proof.
  unfold OperationDescriptor_Validate. rewrite <- (validateIdentifier_None "operation id").
  destruct (validateIdentifier _ _); [naive_solver|].
  destruct (String.eqb_spec (od_Kind d) OperationQuery), (String.eqb_spec (od_Kind d) OperationCommand);
    simpl; set_solver.
Qed.

Lemma check_modes_nil seen modes :
  all_nil (check_modes seen modes)
  <-> (forall mode, mode ∈ modes -> mode ∈ [ExecutionModeResident; ExecutionModeInteractive])
      /\ NoDup modes /\ forall mode, mode ∈ modes -> mode ∉ seen.
Proof.
  revert seen. induction modes as [|m ms IH]; intros seen; cbn [check_modes].
  - rewrite all_nil_nil. split; [intros _; split_and!; [set_solver|constructor|set_solver]|done].
  - rewrite !all_nil_cons, !err_if_None, negb_false_iff, one_of_spec, IH, NoDup_cons.
    rewrite <- (not_true_iff_false (one_of m seen)), one_of_spec. set_solver.
Qed.

Lemma check_fields_None fields :
  check_fields fields = None
  <-> Forall (fun kv => logIdentifierPattern kv.1 = true /\ validateLogText kv.2 256 = None) fields.
Proof.
  induction fields as [|[k v] fields IH]; simpl; [by rewrite Forall_nil|].
  rewrite Forall_cons. simpl. destruct (logIdentifierPattern k); simpl; [|naive_solver].
  destruct (validateLogText v 256); naive_solver.
Qed.

Lemma ValidateExecutionModes_None modes :
  ValidateExecutionModes modes = None
  <-> modes <> [] /\ NoDup modes
      /\ forall mode, mode ∈ modes -> mode ∈ [ExecutionModeResident; ExecutionModeInteractive].
Proof.
  unfold ValidateExecutionModes. destruct modes as [|m ms]; [naive_solver|].
  rewrite errors_Join_None, check_modes_nil. split; [naive_solver|]. intros (_ & ? & ?). split_and!; try done.
  intros mode _. apply not_elem_of_nil.
Qed.

(** ** Properties *)

(** A session input request is valid exactly when its sequence, UTC time, session
    and input are, and the time can be written: the 16 KiB wire limit the validator
    also checks is implied by the limits on the identifiers. *)
Theorem SessionInputRequest_Validate_iff request :
  SessionInputRequest_Validate request = None <-> ValidSessionInputRequest request.
Proof.
  unfold SessionInputRequest_Validate.
  rewrite errors_Join_None, !all_nil_cons, all_nil_nil, err_if_None, required_timestamp_None,
    validateSessionRequest_None, SessionInput_Validate_None, Z.eqb_neq.
  pose proof (SessionInputRequest_small request) as Hsmall.
  assert (Hw : writable_time (sq_OccurredAt request) <-> exists wire, SessionInputRequest_JSON request = inl wire).
  { unfold writable_time, SessionInputRequest_JSON. destruct (Time_MarshalJSON _); naive_solver. }
  split.
  - intros (Hs & Ht & [Hr Htok] & Hin & Hjson & _). constructor; try done. split; [done|].
    apply Hw. destruct (SessionInputRequest_JSON request); [by eexists|done].
  - intros [Hs [Ht Htw] [Hid Hg] Htok Hin]. apply Hw in Htw as [wire Hwire]. rewrite Hwire.
    split_and!; try done. rewrite err_if_None. apply Z.ltb_ge. apply Hsmall; try done;
      [apply (vi_bounded _ Hid)|apply (vi_bounded _ Htok)].
Qed.

(** A log notification is valid exactly when its level, event and optional instance
    are, its message is bounded clean text, and it carries at most sixteen fields, each
    with a safe key and bounded clean text; the order of the fields is irrelevant. *)
Theorem LogNotification_Validate_iff n : LogNotification_Validate n = None <-> ValidLog n.
Proof.
  assert (Hf : check_fields (map_to_list (ln_Fields n)) = None <-> map_Forall (fun key value =>
    logIdentifierPattern key = true /\ validateLogText value 256 = None) (ln_Fields n)).
  { rewrite check_fields_None, map_Forall_to_list. apply Forall_iff. by intros []. }
  unfold LogNotification_Validate.
  pose proof (one_of_spec (ln_Level n) [LogLevelDebug; LogLevelInfo; LogLevelWarn; LogLevelError]) as Hl.
  destruct (one_of _ _); simpl; [|split; [done|intros []; naive_solver]].
  destruct (logIdentifierPattern (ln_Event n)) eqn:He; simpl; [|split; [done|intros []; congruence]].
  pose proof (InstanceRef_Validate_None (ln_Instance n)) as Hi. fold (ValidRef (ln_Instance n)) in Hi.
  case_bool_decide as Hz; [|destruct (InstanceRef_Validate (ln_Instance n));
    [split; [done|intros [_ _ [?|?] _ _ _]; naive_solver]|]].
  all: destruct (validateLogText (ln_Message n) 1024) eqn:Hm; [split; [done|intros []; congruence]|].
  all: destruct (Z.ltb_spec 16 (Z.of_nat (size (ln_Fields n)))); [split; [done|intros []; lia]|].
  all: rewrite Hf; split; [intros ?; constructor; try done; try lia; naive_solver|by intros []].
Qed.

(** A plugin's initialize result is valid exactly when its identity and version
    match, it declares supported execution modes, and no mode, channel or operation
    twice. *)
Theorem InitializeResult_Validate_iff r : InitializeResult_Validate r = None <-> ValidInitializeResult r.
Proof.
  unfold InitializeResult_Validate.
  rewrite errors_Join_None, !all_nil_app, !all_nil_cons, all_nil_nil, !check_unique_nil, !err_if_None,
    validateIdentifier_None, ValidateExecutionModes_None, negb_false_iff, String.eqb_eq, String.eqb_neq.
  assert (Hc : Forall (fun e => validateIdentifier "channel id" e = None) (irs_Channels r)
    <-> Forall ValidIdentifier (irs_Channels r)) by (apply Forall_iff; intros; apply validateIdentifier_None).
  assert (Ho : Forall (fun e => OperationDescriptor_Validate e = None) (irs_Operations r)
    <-> Forall (fun d => ValidIdentifier (od_ID d) /\ od_Kind d ∈ [OperationQuery; OperationCommand])
          (irs_Operations r)) by (apply Forall_iff; intros; apply OperationDescriptor_Validate_None).
  rewrite Hc, Ho, map_id. split.
  - intros ((? & ? & ? & ? & _) & (? & ? & _) & (? & ? & _)). by constructor.
  - intros []. destruct_and?. split_and!; try done; apply Forall_forall; set_solver.
Qed.
