(* ===== verification/LiveSession.v ===== *)
(** * The shared foreground-session lifecycle of plugins

    Models [src/internal/livesession/session.go]: one session per plugin instance,
    published as revisions of a single observation. The host's two calls are the
    fields of [Host], over an abstract world [W]. *)

From Stdlib Require Import ZArith Lia.
From S2P Require Import Prelude GoStrings GoTime Protocol ProtocolSession.

Record Host (W : Type) := mkHost {
  PublishObservation : Observation -> W -> option error * W;
  CompleteSession : CompleteSessionRequest -> W -> option error * W;
}.
Arguments mkHost {W}.
Arguments PublishObservation {W}.
Arguments CompleteSession {W}.

Record Session := mkSession {
  ses_instance : InstanceRef;
  ses_channel : string;
  ses_key : string;
  ses_validFor : Z;
  ses_token : string;
  ses_revision : Z;
  ses_current : option Scene;
}.

Definition New (instance : InstanceRef) (channel key : string) (validFor : Z) : Session :=
  mkSession instance channel key validFor EmptyString 0 None.

Definition with_token (token : string) (s : Session) : Session :=
  mkSession (ses_instance s) (ses_channel s) (ses_key s) (ses_validFor s) token (ses_revision s) (ses_current s).
Definition with_revision (revision : Z) (s : Session) : Session :=
  mkSession (ses_instance s) (ses_channel s) (ses_key s) (ses_validFor s) (ses_token s) revision (ses_current s).
Definition with_current (scene : Scene) (s : Session) : Session :=
  mkSession (ses_instance s) (ses_channel s) (ses_key s) (ses_validFor s) (ses_token s) (ses_revision s) (Some scene).

Section Operations.
Context {W : Type} (host : option (Host W)).

Definition session_observation (s : Session) (scene : option Scene) (disposition reason : string) (now : Time)
    : Observation :=
  mkObservation (ses_instance s) (ses_channel s) (ses_key s) (ses_revision s) disposition ImpactNormal reason
    (UTC now) (UTC now)
    (match scene with Some _ => UTC (Add now (ses_validFor s)) | None => zero_time end) scene None None.

Definition publishLocked (scene : option Scene) (disposition reason : string) (now : Time) (s : Session) (w : W)
    : option error * Session * W :=
  match host with
  | None => (errors_New "live session host is unavailable", s, w)
  | Some h =>
    let s := with_revision (u64_succ (ses_revision s)) s in
    let '(err, w) := PublishObservation h (session_observation s scene disposition reason now) w in
    (err, s, w)
  end.

Definition Start (token : string) (fallback : Scene) (reason : string) (now : Time) (s : Session) (w : W)
    : option error * Session * W :=
  if negb (ses_token s =s EmptyString) then
    (errors_New "interaction session is already active", s, w)
  else
    let s := with_token token s in
    let scene := default fallback (ses_current s) in
    match publishLocked (Some scene) DispositionSnapshot reason (UTC now) s w with
    | (Some err, s, w) => (Some err, with_token EmptyString s, w)
    | (None, s, w) => (None, s, w)
    end.

Definition SetCurrent (scene : Scene) (reason : string) (observedAt : Time) (s : Session) (w : W)
    : option error * Session * W :=
  let s := with_current scene s in
  if ses_token s =s EmptyString then (None, s, w)
  else publishLocked (ses_current s) DispositionSnapshot reason (UTC observedAt) s w.

Definition PublishTransient (scene : Scene) (reason : string) (now : Time) (s : Session) (w : W)
    : option error * Session * W :=
  if ses_token s =s EmptyString then (None, s, w)
  else publishLocked (Some scene) DispositionSnapshot reason (UTC now) s w.

Definition Finish (token : string) (notify : bool) (reason : string) (now : Time) (s : Session) (w : W)
    : option error * Session * W :=
  if (ses_token s =s EmptyString) || (negb (token =s EmptyString) && negb (ses_token s =s token)) then
    (None, s, w)
  else
    let completedToken := ses_token s in
    let s := with_token EmptyString s in
    let '(resolveErr, s, w) := publishLocked None DispositionResolved reason (UTC now) s w in
    match host with
    | Some h =>
      if negb notify then (resolveErr, s, w)
      else
        let '(completeErr, w) :=
          CompleteSession h (mkCompleteSessionRequest (ses_instance s) completedToken) w in
        (errors_Join [resolveErr; completeErr], s, w)
    | None => (resolveErr, s, w)
    end.
End Operations.

(** ** Executions *)

Inductive SessionOp :=
  | OpStart (token : string) (fallback : Scene) (reason : string) (now : Time)
  | OpSetCurrent (scene : Scene) (reason : string) (observedAt : Time)
  | OpPublishTransient (scene : Scene) (reason : string) (now : Time)
  | OpFinish (token : string) (notify : bool) (reason : string) (now : Time).

Definition apply_op {W} (host : option (Host W)) (op : SessionOp) (sw : Session * W) : Session * W :=
  let '(s, w) := sw in
  let '(_, s, w) :=
    match op with
    | OpStart token fallback reason now => Start host token fallback reason now s w
    | OpSetCurrent scene reason at_ => SetCurrent host scene reason at_ s w
    | OpPublishTransient scene reason now => PublishTransient host scene reason now s w
    | OpFinish token notify reason now => Finish host token notify reason now s w
    end in
  (s, w).

Definition run {W} (host : option (Host W)) (ops : list SessionOp) (sw : Session * W) : Session * W :=
  fold_left (fun sw op => apply_op host op sw) ops sw.

(** What is needed of a host to speak of what it was sent: a log of the observations
    offered to it and of the completions, whatever the calls answer. *)
Class LoggingHost {W : Type} (h : Host W) (offered : W -> list Observation)
    (completed : W -> list CompleteSessionRequest) : Prop := {
  publish_offered o w : offered (PublishObservation h o w).2 = offered w ++ [o]
    /\ completed (PublishObservation h o w).2 = completed w;
  complete_offered r w : offered (CompleteSession h r w).2 = offered w
    /\ completed (CompleteSession h r w).2 = completed w ++ [r];
}.

(** ** Specification *)

(** The observations are revisions [n + 1], [n + 2], ... of the session's own
    observation, each either a live snapshot or a bare resolution. *)
Inductive RevisionsFrom (s : Session) : Z -> list Observation -> Prop :=
  | revisions_nil n : RevisionsFrom s n []
  | revisions_cons n o os :
      obs_Instance o = ses_instance s -> obs_Channel o = ses_channel s -> obs_Key o = ses_key s ->
      obs_Revision o = u64_succ n ->
      (obs_Disposition o = DispositionSnapshot /\ is_some (obs_Scene o) = true
       \/ obs_Disposition o = DispositionResolved /\ obs_Scene o = None) ->
      RevisionsFrom s (u64_succ n) os -> RevisionsFrom s n (o :: os).

(** Two states of the same session: only token, revision and scene may differ. *)
Definition same_session (s s' : Session) : Prop :=
  ses_instance s = ses_instance s' /\ ses_channel s = ses_channel s' /\ ses_key s = ses_key s'.

(** ** Lemmas *)

#[export] Instance same_session_equivalence : Equivalence same_session.
Proof. unfold same_session. split; [done|intros ? ?; naive_solver|intros ? ? ?; naive_solver congruence]. Qed.

Lemma RevisionsFrom_same s s' n os : same_session s s' -> RevisionsFrom s n os -> RevisionsFrom s' n os.
Proof. intros (H1 & H2 & H3). induction 1; constructor; congruence || done. Qed.

(** The revision reached after the observations. *)
Definition last_revision (n : Z) (os : list Observation) : Z := fold_left (fun n _ => u64_succ n) os n.

Lemma RevisionsFrom_app s n os os' :
  RevisionsFrom s n os -> RevisionsFrom s (last_revision n os) os' -> RevisionsFrom s n (os ++ os').
Proof. induction 1; simpl; [done|]. intros. constructor; auto. Qed.

Section Logged.
Context {W : Type} (h : Host W) {offered : W -> list Observation}
  {completed : W -> list CompleteSessionRequest} {Hlog : LoggingHost h offered completed}.

(** One step offers some next revisions and keeps the identity. *)
Definition extends (sw sw' : Session * W) : Prop :=
  same_session sw.1 sw'.1
  /\ exists os, offered sw'.2 = offered sw.2 ++ os
     /\ RevisionsFrom sw.1 (ses_revision sw.1) os
     /\ ses_revision sw'.1 = last_revision (ses_revision sw.1) os.

Lemma extends_refl sw : extends sw sw.
Proof. split; [done|]. exists []. rewrite app_nil_r. split_and!; constructor. Qed.

Lemma extends_trans sw1 sw2 sw3 : extends sw1 sw2 -> extends sw2 sw3 -> extends sw1 sw3.
Proof.
  intros [Hs (os & Ho & Hr & Hl)] [Hs' (os' & Ho' & Hr' & Hl')]. split; [by etrans|].
  exists (os ++ os'). rewrite Ho', Ho, app_assoc. split_and!; [done| |].
  - apply RevisionsFrom_app; [done|]. rewrite <- Hl. eapply RevisionsFrom_same; [by symmetry|done].
  - unfold last_revision in *. rewrite fold_left_app. congruence.
Qed.

Lemma publishLocked_extends scene disposition reason now s w :
  (disposition = DispositionSnapshot /\ is_some scene = true
   \/ disposition = DispositionResolved /\ scene = None) ->
  let '(_, s', w') := publishLocked (Some h) scene disposition reason now s w in
  extends (s, w) (s', w') /\ ses_token s' = ses_token s /\ ses_current s' = ses_current s
  /\ completed w' = completed w.
Proof.
  intros Hd. unfold publishLocked.
  set (o := session_observation _ _ _ _ _). destruct (publish_offered o w) as [Ho Hc].
  destruct (PublishObservation h o w) as [err w']. simpl in Ho, Hc. split_and!; try done.
  split; [done|]. exists [o]. split_and!; [done| |done]. constructor; try done. constructor.
Qed.

(** Changes of token and scene alone. *)
Lemma extends_local s s' s'' w w' :
  same_session s s' -> ses_revision s = ses_revision s' ->
  extends (s', w) (s'', w') -> extends (s, w) (s'', w').
Proof.
  intros Hs Hr [Hs' (os & Ho & Hrev & Hl)]. split; [by etrans|]. exists os. simpl in *.
  rewrite Hr. split_and!; try done. eapply RevisionsFrom_same; [by symmetry|done].
Qed.

Lemma apply_op_extends op sw : extends sw (apply_op (Some h) op sw).
Proof.
  destruct sw as [s w]. unfold apply_op. destruct op as [token fallback reason now|scene reason now|scene reason now|token notify reason now].
  - unfold Start. destruct (negb _); [apply extends_refl|].
    pose proof (publishLocked_extends (Some (default fallback (ses_current (with_token token s))))
      DispositionSnapshot reason (UTC now) (with_token token s) w ltac:(by left)) as H.
    destruct (publishLocked _ _ _ _ _ _ _) as [[[err|] s'] w']; destruct H as (H & _).
    + eapply extends_trans; [by apply (extends_local s (with_token token s))|].
      by apply (extends_local s' (with_token EmptyString s')), extends_refl.
    + by apply (extends_local s (with_token token s)).
  - unfold SetCurrent. destruct (_ =s _).
    + by apply (extends_local s (with_current scene s)), extends_refl.
    + pose proof (publishLocked_extends (ses_current (with_current scene s))
        DispositionSnapshot reason (UTC now) (with_current scene s) w ltac:(by left)) as H.
      destruct (publishLocked _ _ _ _ _ _ _) as [[err s'] w']. destruct H as (H & _).
      by apply (extends_local s (with_current scene s)).
  - unfold PublishTransient. destruct (_ =s _); [apply extends_refl|].
    pose proof (publishLocked_extends (Some scene) DispositionSnapshot reason (UTC now) s w ltac:(by left)) as H.
    by destruct (publishLocked _ _ _ _ _ _ _) as [[err s'] w'], H as (H & _).
  - unfold Finish. destruct (_ || _); [apply extends_refl|].
    pose proof (publishLocked_extends None DispositionResolved reason (UTC now) (with_token EmptyString s) w
      ltac:(by right)) as H.
    destruct (publishLocked _ _ _ _ _ _ _) as [[err s'] w']. destruct H as (H & _).
    eapply (extends_local s (with_token EmptyString s)) in H; [|done..].
    destruct (negb notify); [done|].
    pose proof (complete_offered (mkCompleteSessionRequest (ses_instance s') (ses_token s)) w') as [Hc _].
    destruct (CompleteSession h _ w') as [cerr w'']. simpl in Hc.
    destruct H as [Hs (os & Ho & Hr & Hl)]. split; [done|]. exists os. simpl in *. by rewrite Hc.
Qed.

Lemma run_extends ops sw : extends sw (run (Some h) ops sw).
Proof.
  unfold run. revert sw. induction ops as [|op ops IH]; intros sw; [apply extends_refl|].
  simpl. eapply extends_trans; [apply apply_op_extends|apply IH].
Qed.
End Logged.

(** ** Properties *)

(** Over every sequence of operations, and whatever the host answers, a session
    publishes only its own observation, with revisions 1, 2, 3, ... in order, each
    either a live snapshot or a resolution without a presentation. *)
Theorem session_revisions {W} (h : Host W) offered completed (Hlog : LoggingHost h offered completed)
    instance channel key validFor ops w :
  let s := New instance channel key validFor in
  let '(_, w') := run (Some h) ops (s, w) in
  exists os, offered w' = offered w ++ os /\ RevisionsFrom s 0 os.
Proof.
  cbv zeta. pose proof (run_extends h ops (New instance channel key validFor, w)) as [_ (os & Ho & Hr & _)].
  destruct (run _ _ _) as [s' w']. by exists os.
Qed.

(** [Finish] ends exactly the session it names, or whichever is active for an empty
    token: it resolves the observation, frees the session for a new start, and
    completes the session's own token once if asked to. A stale token, or no session,
    changes nothing; so finishing again does nothing. *)
Theorem Finish_exact {W} (h : Host W) offered completed (Hlog : LoggingHost h offered completed)
    token notify reason now s w :
  let '(err, s', w') := Finish (Some h) token notify reason now s w in
  if decide (ses_token s <> EmptyString /\ (token = EmptyString \/ token = ses_token s)) then
    ses_token s' = EmptyString
    /\ (exists o, offered w' = offered w ++ [o] /\ obs_Disposition o = DispositionResolved
        /\ obs_Revision o = u64_succ (ses_revision s))
    /\ completed w' = completed w
         ++ (if notify then [mkCompleteSessionRequest (ses_instance s) (ses_token s)] else [])
    /\ forall token' notify' reason' now', Finish (Some h) token' notify' reason' now' s' w' = (None, s', w')
  else err = None /\ s' = s /\ w' = w.
Proof.
  unfold Finish at 1.
  destruct (decide (ses_token s <> EmptyString /\ (token = EmptyString \/ token = ses_token s))) as [[Hn Ht]|Hd].
  2: { destruct (String.eqb_spec (ses_token s) EmptyString) as [He|He]; [done|].
       destruct (String.eqb_spec token EmptyString); [naive_solver|].
       destruct (String.eqb_spec (ses_token s) token); [naive_solver|done]. }
  rewrite (proj2 (String.eqb_neq _ _) Hn).
  assert (negb (token =s EmptyString) && negb (ses_token s =s token) = false) as ->.
  { destruct Ht as [-> | ->]; [done|]. by rewrite String.eqb_refl, andb_false_r. }
  simpl (_ || _). cbv iota.
  unfold publishLocked. set (o := session_observation _ _ _ _ _).
  destruct (publish_offered o w) as [Ho Hc]. destruct (PublishObservation h o w) as [err w1]. simpl in Ho, Hc.
  destruct notify; simpl (negb _); cbv iota.
  - destruct (complete_offered (mkCompleteSessionRequest (ses_instance s) (ses_token s)) w1) as [Ho' Hc'].
    simpl ses_instance. destruct (CompleteSession h _ w1) as [cerr w2]. simpl in Ho', Hc'.
    split_and!; [done| |by rewrite Hc', Hc|done]. exists o. by rewrite Ho', Ho.
  - split_and!; [done| |by rewrite Hc, app_nil_r|done]. by exists o.
Qed.

(** ** Witnesses *)

(** A host that records every call; its first publication fails. *)
Definition demo_world : Type := list Observation * list CompleteSessionRequest.
Definition demo_host : Host demo_world := {|
  PublishObservation := fun o w =>
    (match w.1 with [] => errors_New "offline" | _ => None end, (w.1 ++ [o], w.2));
  CompleteSession := fun r w => (None, (w.1, w.2 ++ [r]));
|}.

#[export] Instance demo_host_logging : LoggingHost demo_host fst snd.
Proof. by split. Qed.

Definition demo_ref : InstanceRef := mkInstanceRef "calendar" 3.
Definition demo_ops : list SessionOp :=
  [OpStart "t1" (mkScene []) "started" zero_time; OpStart "t2" (mkScene []) "started" zero_time;
   OpFinish "t1" true "stale" zero_time; OpFinish "t2" true "done" zero_time].

Lemma session_revisions_witness :
  RevisionsFrom (New demo_ref "main" "session" Hour) 0
    (run (Some demo_host) demo_ops (New demo_ref "main" "session" Hour, ([], []))).2.1.
Proof.
  pose proof (session_revisions demo_host fst snd demo_host_logging demo_ref "main" "session" Hour demo_ops ([], [])) as H.
  cbv zeta in H. destruct (run _ _ _) as [s w]. destruct H as (os & Ho & Hr). simpl in *. by rewrite Ho.
Defined.

Lemma Finish_exact_witness :
  let s := with_token "t1" (New demo_ref "main" "session" Hour) in
  (Finish (Some demo_host) EmptyString true "done" zero_time s ([], [])).2.2 = [mkCompleteSessionRequest demo_ref "t1"].
Proof.
  pose proof (Finish_exact demo_host fst snd demo_host_logging EmptyString true "done" zero_time
    (with_token "t1" (New demo_ref "main" "session" Hour)) ([], [])) as H.
  cbv zeta. destruct (Finish _ _ _ _ _ _ _) as [[err s'] w'] eqn:E.
  rewrite decide_True in H by (split; [discriminate|by left]). by destruct H as (_ & _ & H & _).
Defined.
