(* ===== verification/InputDispatcher.v ===== *)
(** * Input: device events and their dispatcher

    Models [src/internal/input/dispatcher.go]. The protobuf events come from a
    library outside the repository, so their type and its accessors are the class
    [InputPB]. The dispatcher is a state machine: each operation is the critical
    section or channel operation of the source, the goroutine of [Run] carries a
    program counter, and [step] interleaves it with concurrent callers of [Submit]
    and [InvalidateContext]. *)

From Stdlib Require Import ZArith Lia ZifyBool.
From S2P Require Import Prelude GoStrings.

(** ** Device events *)

(** The [oneof] of an input event, as the source switches on it. *)
Inductive EventCase :=
  | SwitchEvent (position : Z)
  | EncoderEvent (delta : Z)
  | ButtonEvent (button action : Z)
  | NoEvent.

(** [proto/inputpb]: the event type and the enumeration values the source names. *)
Class InputPB := {
  InputEvent : Type;
  Event : InputEvent -> EventCase;
  Button_OK : Z;
  Button_BACK : Z;
  Button_START : Z;
  ButtonAction_PRESS : Z;
  ButtonAction_RELEASE : Z;
  SwitchPosition_APPS : Z;
  buttons_distinct : NoDup [Button_OK; Button_BACK; Button_START];
  actions_distinct : NoDup [ButtonAction_PRESS; ButtonAction_RELEASE];
}.

Definition InputQueueCapacity : Z := 64.

Section Dispatcher.
Context {PB : InputPB}.
(** The type of a captured clean-up function. *)
Context {Clear : Type}.

Record DispatcherStatus := mkDispatcherStatus {
  ds_QueueDepth : Z;
  ds_Accepted : Z;
  ds_Handled : Z;
  ds_Discarded : Z;
  ds_Overruns : Z;
  ds_LastErrorCode : string;
}.

Record queuedInput := mkQueuedInput { qi_context : Z; qi_event : InputEvent }.

(** Where the goroutine of [Run] is: before either [select], between receiving
    from [cancel] or [queue] and the work that follows, in the handler, or gone. *)
Inductive runner :=
  | AtFirstSelect
  | AtSecondSelect
  | AtClear
  | AtClearThen (value : queuedInput)
  | AtCheck (value : queuedInput)
  | Handling (value : queuedInput)
  | Returned.

(** [d_signals] counts the callers of [Submit] between their unlock and their
    [signalInvalidation]. *)
Record Dispatcher := mkDispatcher {
  d_queue : list queuedInput;
  d_cancel : bool;
  d_context : Z;
  d_pendingClear : option Clear;
  d_status : DispatcherStatus;
  d_startHeld : bool;
  d_signals : nat;
  d_runner : runner;
}.

Definition NewDispatcherWithClearCapture : Dispatcher :=
  mkDispatcher [] false 0 None (mkDispatcherStatus 0 0 0 0 0 EmptyString) false 0 AtFirstSelect.

Definition set_status (status : DispatcherStatus) (d : Dispatcher) : Dispatcher :=
  mkDispatcher (d_queue d) (d_cancel d) (d_context d) (d_pendingClear d) status (d_startHeld d)
    (d_signals d) (d_runner d).
Definition set_runner (r : runner) (d : Dispatcher) : Dispatcher :=
  mkDispatcher (d_queue d) (d_cancel d) (d_context d) (d_pendingClear d) (d_status d) (d_startHeld d)
    (d_signals d) r.
Definition set_startHeld (held : bool) (d : Dispatcher) : Dispatcher :=
  mkDispatcher (d_queue d) (d_cancel d) (d_context d) (d_pendingClear d) (d_status d) held
    (d_signals d) (d_runner d).
Definition set_cancel (cancel : bool) (d : Dispatcher) : Dispatcher :=
  mkDispatcher (d_queue d) cancel (d_context d) (d_pendingClear d) (d_status d) (d_startHeld d)
    (d_signals d) (d_runner d).
Definition set_signals (signals : nat) (d : Dispatcher) : Dispatcher :=
  mkDispatcher (d_queue d) (d_cancel d) (d_context d) (d_pendingClear d) (d_status d) (d_startHeld d)
    signals (d_runner d).

Definition depth (d : Dispatcher) : Z := Z.of_nat (length (d_queue d)).

(** *** Submit *)

Definition advanceContextLocked (d : Dispatcher) : Dispatcher :=
  let st := d_status d in
  mkDispatcher [] (d_cancel d) (u64_succ (d_context d)) (d_pendingClear d)
    (mkDispatcherStatus 0 (ds_Accepted st) (ds_Handled st) (u64 (ds_Discarded st + depth d))
       (ds_Overruns st) (ds_LastErrorCode st))
    (d_startHeld d) (d_signals d) (d_runner d).

(** The START latch: whether the press is swallowed, and the new latch. *)
Definition observe_start (event : InputEvent) (startHeld : bool) : bool * bool :=
  match Event event with
  | ButtonEvent button action =>
    if button =? Button_START then
      if action =? ButtonAction_RELEASE then (false, false)
      else if action =? ButtonAction_PRESS then
        if startHeld then (true, true) else (false, true)
      else (false, startHeld)
    else (false, startHeld)
  | _ => (false, startHeld)
  end.

(** The [default] branch of the queue admission. [captureClear] is [None] when no
    function was configured, and otherwise what it returned. *)
Definition overrun (captureClear : option (option Clear)) (d : Dispatcher) : Dispatcher :=
  let st := d_status d in
  let pendingClear := match captureClear with Some clear => clear | None => d_pendingClear d end in
  let signals := match pendingClear with Some _ => S (d_signals d) | None => d_signals d end in
  advanceContextLocked
    (mkDispatcher (d_queue d) (d_cancel d) (d_context d) pendingClear
       (mkDispatcherStatus (ds_QueueDepth st) (ds_Accepted st) (ds_Handled st) (ds_Discarded st)
          (u64_succ (ds_Overruns st)) "input_overrun")
       (d_startHeld d) signals (d_runner d)).

Definition enqueue (event : InputEvent) (d : Dispatcher) : Dispatcher :=
  let queue := d_queue d ++ [mkQueuedInput (d_context d) event] in
  let st := d_status d in
  mkDispatcher queue (d_cancel d) (d_context d) (d_pendingClear d)
    (mkDispatcherStatus (Z.of_nat (length queue)) (u64_succ (ds_Accepted st)) (ds_Handled st)
       (ds_Discarded st) (ds_Overruns st) (ds_LastErrorCode st))
    (d_startHeld d) (d_signals d) (d_runner d).

Inductive submission := Admitted_ | Swallowed | Overran.

(** The critical section of [Submit]; it returns false exactly for [Overran]. *)
Definition Submit (event : InputEvent) (captureClear : option (option Clear)) (d : Dispatcher)
    : submission * Dispatcher :=
  let '(swallowed, held) := observe_start event (d_startHeld d) in
  let d := set_startHeld held d in
  if swallowed then (Swallowed, d)
  else if depth d <? InputQueueCapacity then (Admitted_, enqueue event d)
  else (Overran, overrun captureClear d).

Definition InvalidateContext (d : Dispatcher) : Dispatcher := advanceContextLocked d.

Definition signalInvalidation (d : Dispatcher) : Dispatcher := set_signals (pred (d_signals d)) (set_cancel true d).

(** *** Run *)

(** The critical section of [clearPendingContext]; the captured function then runs
    outside the lock. *)
Definition clearPendingContext (d : Dispatcher) : Dispatcher :=
  let st := d_status d in
  mkDispatcher (d_queue d) (d_cancel d) (d_context d) None
    (mkDispatcherStatus (depth d) (ds_Accepted st) (ds_Handled st) (ds_Discarded st) (ds_Overruns st)
       (ds_LastErrorCode st))
    (d_startHeld d) (d_signals d) (d_runner d).

(** The stale check: a value of an older context is discarded. *)
Definition check_stale (value : queuedInput) (d : Dispatcher) : bool * Dispatcher :=
  if negb (qi_context value =? d_context d) then
    let st := d_status d in
    (true, set_status
       (mkDispatcherStatus (depth d) (ds_Accepted st) (ds_Handled st) (u64_succ (ds_Discarded st))
          (ds_Overruns st) (ds_LastErrorCode st)) d)
  else (false, d).

Definition finish_handler (err : option error) (d : Dispatcher) : Dispatcher :=
  let st := d_status d in
  set_status
    (mkDispatcherStatus (depth d) (ds_Accepted st) (u64_succ (ds_Handled st)) (ds_Discarded st)
       (ds_Overruns st)
       (match err with Some _ => "input_handler_failed" | None => ds_LastErrorCode st end)) d.

(** [Status()] *)
Definition Status (d : Dispatcher) : DispatcherStatus :=
  let st := d_status d in
  mkDispatcherStatus (depth d) (ds_Accepted st) (ds_Handled st) (ds_Discarded st) (ds_Overruns st)
    (ds_LastErrorCode st).

(** *** Interleavings *)

Inductive label :=
  | LSubmit (event : InputEvent) (outcome : submission)
  | LInvalidate
  | LHandle (event : InputEvent)
  | LInternal.

Inductive step : Dispatcher -> label -> Dispatcher -> Prop :=
  | step_submit d event captureClear outcome d' :
      Submit event captureClear d = (outcome, d') -> step d (LSubmit event outcome) d'
  | step_invalidate d : step d LInvalidate (InvalidateContext d)
  | step_signal d n : d_signals d = S n -> step d LInternal (signalInvalidation d)
  | step_done d :
      d_runner d = AtFirstSelect \/ d_runner d = AtSecondSelect -> step d LInternal (set_runner Returned d)
  | step_cancel d :
      d_runner d = AtFirstSelect \/ d_runner d = AtSecondSelect -> d_cancel d = true ->
      step d LInternal (set_runner AtClear (set_cancel false d))
  | step_default d :
      d_runner d = AtFirstSelect -> d_cancel d = false -> step d LInternal (set_runner AtSecondSelect d)
  | step_clear d :
      d_runner d = AtClear -> step d LInternal (set_runner AtFirstSelect (clearPendingContext d))
  | step_receive d value queue :
      d_runner d = AtSecondSelect -> d_queue d = value :: queue ->
      step d LInternal
        (mkDispatcher queue (d_cancel d) (d_context d) (d_pendingClear d) (d_status d) (d_startHeld d)
           (d_signals d) (AtClearThen value))
  | step_clear_then d value :
      d_runner d = AtClearThen value -> step d LInternal (set_runner (AtCheck value) (clearPendingContext d))
  | step_stale d value d' :
      d_runner d = AtCheck value -> check_stale value d = (true, d') ->
      step d LInternal (set_runner AtFirstSelect d')
  | step_handle d value d' :
      d_runner d = AtCheck value -> check_stale value d = (false, d') ->
      step d (LHandle (qi_event value)) (set_runner (Handling value) d')
  | step_finish d value err :
      d_runner d = Handling value -> step d LInternal (set_runner AtFirstSelect (finish_handler err d)).

Inductive steps : list label -> Dispatcher -> Prop :=
  | steps_nil : steps [] NewDispatcherWithClearCapture
  | steps_snoc trace d l d' : steps trace d -> step d l d' -> steps (trace ++ [l]) d'.

(** ** Specification

    What a trace says about the current context: the events admitted and the
    events handed to the handler since the last invalidation, their number, and
    the physical state of START. *)

Definition epoch_step (since : list InputEvent * list InputEvent) (l : label) : list InputEvent * list InputEvent :=
  match l with
  | LSubmit event Admitted_ => (since.1 ++ [event], since.2)
  | LSubmit _ Swallowed => since
  | LSubmit _ Overran | LInvalidate => ([], [])
  | LHandle event => (since.1, since.2 ++ [event])
  | LInternal => since
  end.

Definition since_invalidation (trace : list label) : list InputEvent * list InputEvent :=
  fold_left epoch_step trace ([], []).
Definition accepted_since (trace : list label) : list InputEvent := (since_invalidation trace).1.
Definition handled_since (trace : list label) : list InputEvent := (since_invalidation trace).2.

Definition invalidates (l : label) : bool :=
  match l with LSubmit _ Overran | LInvalidate => true | _ => false end.
Definition invalidations (trace : list label) : Z := Z.of_nat (length (List.filter invalidates trace)).

Definition start_action (event : InputEvent) (action : Z) : bool :=
  match Event event with
  | ButtonEvent button action' => (button =? Button_START) && (action' =? action)
  | _ => false
  end.

Definition press_step (pressed : bool) (l : label) : bool :=
  match l with
  | LSubmit event _ =>
    if start_action event ButtonAction_RELEASE then false
    else if start_action event ButtonAction_PRESS then true else pressed
  | _ => pressed
  end.
Definition pressed (trace : list label) : bool := fold_left press_step trace false.

(** The event the runner has received and not yet checked, if still current. *)
Definition waiting (d : Dispatcher) : list InputEvent :=
  match d_runner d with
  | AtClearThen value | AtCheck value =>
    if qi_context value =? d_context d then [qi_event value] else []
  | _ => []
  end.

(** The events received and neither handled nor discarded. *)
Definition in_flight (d : Dispatcher) : Z :=
  match d_runner d with AtClearThen _ | AtCheck _ | Handling _ => 1 | _ => 0 end.

Record Accounted (d : Dispatcher) : Prop := {
  acc_sum : u64 (ds_Accepted (d_status d))
    = u64 (ds_Handled (d_status d) + ds_Discarded (d_status d) + depth d + in_flight d);
  acc_bounded : depth d <= InputQueueCapacity;
  (** a captured clean-up is never forgotten *)
  acc_clear : d_pendingClear d <> None ->
    d_cancel d = true \/ (d_signals d > 0)%nat
    \/ d_runner d = AtClear \/ exists value, d_runner d = AtClearThen value;
}.

Record Current (trace : list label) (d : Dispatcher) : Prop := {
  cur_context : d_context d = invalidations trace;
  cur_queue : Forall (fun value => qi_context value = d_context d) (d_queue d);
  cur_waiting : forall value, d_runner d = AtClearThen value \/ d_runner d = AtCheck value ->
    qi_context value <= d_context d;
  cur_fifo : accepted_since trace = handled_since trace ++ waiting d ++ map qi_event (d_queue d);
}.

(** ** Lemmas *)

Lemma u64_add_succ a b : u64 a = u64 b -> u64 (u64_succ a) = u64 (b + 1).
Proof.
  unfold u64_succ, u64. rewrite Zmod_mod. intros H. by rewrite Zplus_mod, H, <- Zplus_mod.
Qed.

Lemma u64_sum a b c : u64 a = u64 b -> b = c -> u64 a = u64 c.
Proof. congruence. Qed.

Lemma u64_u64 x y z : u64 (x + u64 y + z) = u64 (x + y + z).
Proof. unfold u64. rewrite <- (Zplus_mod_idemp_l (x + y mod two64)), Zplus_mod_idemp_r, Zplus_mod_idemp_l. done. Qed.

Lemma u64_discarded x y z f : u64 (x + u64 y + z + f) = u64 (x + y + z + f).
Proof. rewrite <- Z.add_assoc, u64_u64. f_equal. lia. Qed.

Lemma u64_handled x y z f : u64 (u64 x + y + z + f) = u64 (x + y + z + f).
Proof. replace (u64 x + y + z + f) with (0 + u64 x + (y + z + f)) by lia. rewrite u64_u64. f_equal. lia. Qed.

Lemma initial_accounted : Accounted NewDispatcherWithClearCapture.
Proof. split; [reflexivity|vm_compute; done|done]. Qed.

Lemma advance_accounted d : Accounted d -> Accounted (advanceContextLocked d).
Proof.
  intros [Hs _ Hc]. split; [|done|exact Hc].
  cbn [advanceContextLocked d_status ds_Accepted ds_Handled ds_Discarded].
  change (in_flight (advanceContextLocked d)) with (in_flight d).
  change (depth (advanceContextLocked d)) with 0.
  rewrite Hs. rewrite u64_discarded. f_equal. lia.
Qed.

Lemma observe_start_spec event held :
  observe_start event held
  = if start_action event ButtonAction_RELEASE then (false, false)
    else if start_action event ButtonAction_PRESS then (held, true) else (false, held).
Proof.
  unfold observe_start, start_action. destruct (Event event) as [| |button action|]; try done.
  destruct (button =? Button_START), (action =? ButtonAction_RELEASE), (action =? ButtonAction_PRESS), held; done.
Qed.

Lemma set_startHeld_accounted held d : Accounted d -> Accounted (set_startHeld held d).
Proof. by intros []. Qed.

Lemma enqueue_accounted event d :
  Accounted d -> depth d < InputQueueCapacity -> Accounted (enqueue event d).
Proof.
  intros [Hs Hb Hc] Hd.
  assert (Hdepth : depth (enqueue event d) = depth d + 1).
  { unfold depth, enqueue. cbn [d_queue]. rewrite length_app. simpl. lia. }
  split; [|lia|exact Hc]. rewrite Hdepth. change (in_flight (enqueue event d)) with (in_flight d).
  cbn [enqueue d_status ds_Accepted ds_Handled ds_Discarded].
  rewrite (u64_add_succ _ _ Hs). f_equal. lia.
Qed.

Lemma overrun_accounted captureClear d : Accounted d -> Accounted (overrun captureClear d).
Proof.
  intros [Hs Hb Hc]. unfold overrun. apply advance_accounted. split; [exact Hs|exact Hb|].
  cbn [d_pendingClear d_cancel d_signals d_runner]. intros Hp.
  destruct captureClear as [[clear|]|]; [right; left; lia|done|].
  destruct (d_pendingClear d); [right; left; lia|done].
Qed.

Lemma Submit_accounted event captureClear outcome d d' :
  Submit event captureClear d = (outcome, d') -> Accounted d -> Accounted d'.
Proof.
  unfold Submit. destruct (observe_start _ _) as [swallowed held]. intros H Hd.
  apply (set_startHeld_accounted held) in Hd.
  destruct swallowed; [by injection H as _ <-|].
  destruct (Z.ltb_spec (depth (set_startHeld held d)) InputQueueCapacity); injection H as _ <-.
  - by apply enqueue_accounted.
  - by apply overrun_accounted.
Qed.

(** Moves the runner; the accounts change only by what was in flight. *)
Lemma move_accounted d r status cancel pendingClear queue signals :
  u64 (ds_Accepted status) = u64 (ds_Handled status + ds_Discarded status + Z.of_nat (length queue)
    + in_flight (set_runner r d)) ->
  Z.of_nat (length queue) <= InputQueueCapacity ->
  (pendingClear <> None -> cancel = true \/ (signals > 0)%nat \/ r = AtClear \/ exists value, r = AtClearThen value) ->
  Accounted (mkDispatcher queue cancel (d_context d) pendingClear status (d_startHeld d) signals r).
Proof. by split. Qed.

Lemma step_accounted d l d' : step d l d' -> Accounted d -> Accounted d'.
Proof.
  destruct 1 as [d event cc outcome d' Hsub|d|d n Hn|d Hr|d Hr Hcan|d Hr Hcan|d Hr|d v q Hr Hq|d v Hr
    |d v d' Hr Hch|d v d' Hr Hch|d v err Hr]; intros Hacc.
  - by eapply Submit_accounted.
  - by apply advance_accounted.
  - destruct Hacc as [Hs Hb Hc]. apply move_accounted; [exact Hs|exact Hb|by left].
  - destruct Hacc as [Hs Hb Hc]. apply move_accounted; [|exact Hb|].
    + cbn [clearPendingContext set_status set_runner set_cancel d_status ds_Accepted ds_Handled ds_Discarded d_queue]; rewrite Hs. f_equal. unfold depth, in_flight. by destruct Hr as [-> | ->].
    + intros Hp. destruct (Hc Hp) as [?|[?|[Hr'|[v Hr']]]]; [by left|by right; left|..];
        destruct Hr; congruence.
  - destruct Hacc as [Hs Hb Hc]. apply move_accounted; [|exact Hb|by right; right; left].
    cbn [clearPendingContext set_status set_runner set_cancel d_status ds_Accepted ds_Handled ds_Discarded d_queue]; rewrite Hs. f_equal. unfold depth, in_flight. by destruct Hr as [-> | ->].
  - destruct Hacc as [Hs Hb Hc]. apply move_accounted; [|exact Hb|].
    + cbn [clearPendingContext set_status set_runner set_cancel d_status ds_Accepted ds_Handled ds_Discarded d_queue]; rewrite Hs. f_equal. unfold depth, in_flight. by rewrite Hr.
    + intros Hp. destruct (Hc Hp) as [?|[?|[Hr'|[v Hr']]]]; [by left|by right; left|..]; congruence.
  - destruct Hacc as [Hs Hb Hc]. apply move_accounted; [|exact Hb|done].
    cbn [clearPendingContext set_status set_runner set_cancel d_status ds_Accepted ds_Handled ds_Discarded d_queue]; rewrite Hs. f_equal. unfold depth, in_flight. by rewrite Hr.
  - destruct Hacc as [Hs Hb Hc]. unfold depth in *. rewrite Hq in Hs, Hb. simpl length in Hs, Hb.
    apply move_accounted; [|lia|by right; right; right; exists v].
    cbn [clearPendingContext set_status set_runner set_cancel d_status ds_Accepted ds_Handled ds_Discarded d_queue]; rewrite Hs. f_equal. unfold in_flight. rewrite Hr. simpl. lia.
  - destruct Hacc as [Hs Hb Hc]. apply move_accounted; [|exact Hb|done].
    cbn [clearPendingContext set_status set_runner set_cancel d_status ds_Accepted ds_Handled ds_Discarded d_queue]; rewrite Hs. f_equal. unfold depth, in_flight. by rewrite Hr.
  - destruct Hacc as [Hs Hb Hc]. unfold check_stale in Hch. destruct (negb _); [|done]. injection Hch as <-.
    apply move_accounted; [|exact Hb|].
    + cbn [set_status set_runner d_status d_queue d_runner ds_Accepted ds_Handled ds_Discarded]. rewrite Hs. unfold u64_succ.
      rewrite u64_discarded. f_equal. unfold depth, in_flight. rewrite Hr. simpl. lia.
    + intros Hp. destruct (Hc Hp) as [?|[?|[Hr'|[v' Hr']]]]; [by left|by right; left|..]; simpl in Hr'; congruence.
  - destruct Hacc as [Hs Hb Hc]. unfold check_stale in Hch. destruct (negb _); [done|]. injection Hch as <-.
    apply move_accounted; [|exact Hb|].
    + cbn [clearPendingContext set_status set_runner set_cancel d_status ds_Accepted ds_Handled ds_Discarded d_queue]; rewrite Hs. f_equal. unfold depth, in_flight. by rewrite Hr.
    + intros Hp. destruct (Hc Hp) as [?|[?|[Hr'|[v' Hr']]]]; [by left|by right; left|..]; congruence.
  - destruct Hacc as [Hs Hb Hc]. apply move_accounted; [|exact Hb|].
    + cbn [finish_handler set_status set_runner d_status d_queue d_runner ds_Accepted ds_Handled ds_Discarded]. rewrite Hs. unfold u64_succ.
      rewrite u64_handled. f_equal. unfold depth, in_flight. rewrite Hr. simpl. lia.
    + intros Hp. destruct (Hc Hp) as [?|[?|[Hr'|[v' Hr']]]]; [by left|by right; left|..]; simpl in Hr'; congruence.
Qed.

Lemma steps_accounted trace d : steps trace d -> Accounted d.
Proof. induction 1; [apply initial_accounted|by eapply step_accounted]. Qed.

(** *** The current context *)

Lemma since_snoc trace l : since_invalidation (trace ++ [l]) = epoch_step (since_invalidation trace) l.
Proof. unfold since_invalidation. by rewrite fold_left_app. Qed.

Lemma invalidations_snoc trace l :
  invalidations (trace ++ [l]) = invalidations trace + (if invalidates l then 1 else 0).
Proof.
  unfold invalidations. rewrite List.filter_app, length_app, Nat2Z.inj_add. f_equal. simpl.
  by destruct (invalidates l).
Qed.

(** Steps that touch neither the context nor the queue, and move the runner without
    dropping what waits. *)
Lemma internal_current trace d d' :
  Current trace d -> d_context d' = d_context d -> d_queue d' = d_queue d ->
  waiting d' = waiting d ->
  (forall value, d_runner d' = AtClearThen value \/ d_runner d' = AtCheck value ->
    qi_context value <= d_context d) ->
  Current (trace ++ [LInternal]) d'.
Proof.
  intros [Hc Hq _ Hf] Hctx Hqueue Hw Hwait. split.
  - rewrite Hctx, Hc, invalidations_snoc. simpl. lia.
  - by rewrite Hqueue, Hctx.
  - by rewrite Hctx.
  - unfold accepted_since, handled_since in *. rewrite since_snoc. simpl. by rewrite Hw, Hqueue.
Qed.

Lemma waiting_older d c :
  (forall value, d_runner d = AtClearThen value \/ d_runner d = AtCheck value -> qi_context value <= d_context d) ->
  c = d_context d + 1 ->
  match d_runner d with
  | AtClearThen value | AtCheck value => if qi_context value =? c then [qi_event value] else []
  | _ => []
  end = [].
Proof.
  intros Hw ->. destruct (d_runner d) as [| | |v|v|v|]; try done;
    (destruct (Z.eqb_spec (qi_context v) (d_context d + 1)); [|done]).
  - specialize (Hw v (or_introl eq_refl)). lia.
  - specialize (Hw v (or_intror eq_refl)). lia.
Qed.

Lemma advance_current trace d l :
  Current trace d -> invalidates l = true -> invalidations trace + 1 < two64 ->
  Current (trace ++ [l]) (advanceContextLocked d).
Proof.
  intros [Hc Hq Hw Hf] Hl Hbound.
  assert (Hctx : d_context (advanceContextLocked d) = d_context d + 1).
  { cbn [advanceContextLocked d_context]. apply u64_succ_small. unfold invalidations in *. lia. }
  split.
  - rewrite Hctx, Hc, invalidations_snoc, Hl. done.
  - constructor.
  - intros value Hv. rewrite Hctx. specialize (Hw value Hv). lia.
  - unfold accepted_since, handled_since. rewrite since_snoc. unfold waiting. rewrite Hctx.
    change (d_runner (advanceContextLocked d)) with (d_runner d). rewrite (waiting_older d _ Hw eq_refl).
    destruct l as [e []| | |]; done.
Qed.

Lemma Submit_current trace d event captureClear outcome d' :
  Submit event captureClear d = (outcome, d') -> Current trace d ->
  invalidations (trace ++ [LSubmit event outcome]) < two64 ->
  Current (trace ++ [LSubmit event outcome]) d'.
Proof.
  intros H Hcur Hbound. unfold Submit in H. destruct (observe_start _ _) as [swallowed held].
  assert (Hcur' : Current trace (set_startHeld held d)) by (by destruct Hcur; split).
  generalize dependent (set_startHeld held d). clear Hcur. intros d0 H Hcur.
  rewrite invalidations_snoc in Hbound.
  destruct swallowed.
  { injection H as <- <-. destruct Hcur as [Hc Hq Hw Hf]. split; [|done|done|].
    - rewrite invalidations_snoc, Hc. simpl. lia.
    - unfold accepted_since, handled_since in *. by rewrite since_snoc. }
  destruct (depth d0 <? InputQueueCapacity); injection H as <- <-.
  - destruct Hcur as [Hc Hq Hw Hf]. split.
    + rewrite invalidations_snoc. simpl. lia.
    + cbn [enqueue d_queue d_context]. apply Forall_app. split; [done|]. by apply Forall_singleton.
    + exact Hw.
    + unfold accepted_since, handled_since in *. rewrite since_snoc. cbn [epoch_step fst snd].
      rewrite Hf. cbn [enqueue d_queue]. rewrite map_app. simpl.
      change (waiting (enqueue event d0)) with (waiting d0). by rewrite <- !app_assoc.
  - apply advance_current; [by destruct Hcur; split|done|done].
Qed.

Lemma step_current trace d l d' :
  step d l d' -> Current trace d -> invalidations (trace ++ [l]) < two64 -> Current (trace ++ [l]) d'.
Proof.
  destruct 1 as [d event cc outcome d' Hsub|d|d n Hn|d Hr|d Hr Hcan|d Hr Hcan|d Hr|d v q Hr Hq|d v Hr
    |d v d' Hr Hch|d v d' Hr Hch|d v err Hr]; intros Hcur Hbound.
  - by eapply Submit_current.
  - apply advance_current; [done..|]. by rewrite invalidations_snoc in Hbound.
  - by apply (internal_current trace d); [..|apply Hcur].
  - apply (internal_current trace d); try done; [|by intros v [|]].
    unfold waiting. by destruct Hr as [-> | ->].
  - apply (internal_current trace d); try done; [|by intros v [|]].
    unfold waiting. by destruct Hr as [-> | ->].
  - apply (internal_current trace d); try done; [|by intros v [|]]. unfold waiting. by rewrite Hr.
  - apply (internal_current trace d); try done; [|by intros v [|]]. unfold waiting. by rewrite Hr.
  - destruct Hcur as [Hc Hqs Hw Hf]. rewrite Hq in Hqs, Hf. apply Forall_cons in Hqs as [Hv Hqs]. split.
    + rewrite invalidations_snoc. simpl. lia.
    + done.
    + simpl. intros v' [[= <-]|?]; [lia|done].
    + unfold accepted_since, handled_since in *. rewrite since_snoc. simpl. rewrite Hf.
      unfold waiting. rewrite Hr. simpl. rewrite Hv, Z.eqb_refl. done.
  - apply (internal_current trace d); try done.
    + unfold waiting. rewrite Hr. done.
    + intros v' [?|[= <-]]; [done|]. apply (cur_waiting _ _ Hcur). by left.
  - unfold check_stale in Hch. destruct (Z.eqb_spec (qi_context v) (d_context d)) as [|Hne]; [done|].
    injection Hch as <-. apply (internal_current trace d); try done; [|by intros v' [|]].
    unfold waiting. rewrite Hr. simpl. by destruct (Z.eqb_spec (qi_context v) (d_context d)).
  - unfold check_stale in Hch. destruct (Z.eqb_spec (qi_context v) (d_context d)) as [He|]; [|done].
    injection Hch as <-. destruct Hcur as [Hc Hqs Hw Hf]. split; [|done|by intros v' [|]|].
    + rewrite invalidations_snoc. simpl. lia.
    + unfold accepted_since, handled_since in *. rewrite since_snoc. cbn [epoch_step fst snd].
      rewrite Hf. unfold waiting. rewrite Hr. simpl. rewrite He, Z.eqb_refl. by rewrite <- app_assoc.
  - apply (internal_current trace d); try done; [|by intros v' [|]]. unfold waiting. by rewrite Hr.
Qed.

Lemma steps_current trace d : steps trace d -> invalidations trace < two64 -> Current trace d.
Proof.
  induction 1 as [|trace d l d' Hsteps IH Hstep]; intros Hb; [split; [done|constructor|by intros ? []|done]|].
  eapply step_current; [done| |done]. apply IH. rewrite invalidations_snoc in Hb.
  destruct (invalidates l); lia.
Qed.

(** *** The latch *)

Lemma Submit_latch event captureClear outcome d d' :
  Submit event captureClear d = (outcome, d') ->
  d_startHeld d' = press_step (d_startHeld d) (LSubmit event outcome)
  /\ (outcome = Swallowed <->
      start_action event ButtonAction_RELEASE = false
      /\ start_action event ButtonAction_PRESS = true /\ d_startHeld d = true).
Proof.
  unfold Submit. rewrite observe_start_spec. cbn [press_step].
  destruct (start_action event ButtonAction_RELEASE), (start_action event ButtonAction_PRESS);
    [..|]; destruct (d_startHeld d); cbn zeta;
    try destruct (_ <? _); intros [= <- <-]; cbn; naive_solver.
Qed.

Lemma check_stale_startHeld value d b d' : check_stale value d = (b, d') -> d_startHeld d' = d_startHeld d.
Proof. unfold check_stale. destruct (negb _); by intros [= _ <-]. Qed.

Lemma steps_latch trace d : steps trace d -> d_startHeld d = pressed trace.
Proof.
  induction 1 as [|trace d l d' Hsteps IH Hstep]; [done|].
  unfold pressed. rewrite fold_left_app. fold (pressed trace). rewrite <- IH. simpl.
  destruct Hstep; try done.
  - match goal with H : Submit _ _ _ = _ |- _ => by apply Submit_latch in H as [-> _] end.
  - match goal with H : check_stale _ _ = _ |- _ => by apply check_stale_startHeld in H end.
  - match goal with H : check_stale _ _ = _ |- _ => by apply check_stale_startHeld in H end.
Qed.
End Dispatcher.

Arguments Dispatcher {PB} Clear.
Arguments step {PB Clear}.
Arguments steps {PB Clear}.

(** ** Properties *)

(** In every interleaving of submissions, invalidations and the runner, the counters
    add up (every accepted event is handled, discarded, queued or in flight), the
    queue never exceeds 64 events, and a captured clean-up is always on its way to the
    runner. *)
Theorem dispatcher_accounting {PB : InputPB} {Clear} trace (d : Dispatcher Clear) :
  steps trace d -> Accounted d.
Proof. apply steps_accounted. Qed.

(** C35: since the last foreground change or overflow, the events handed to the handler
    are exactly the admitted ones, in order, up to those still waiting: an event
    admitted before the change is never handled after it, and within one context none
    is lost, repeated or reordered. *)
Theorem dispatcher_exact_fifo {PB : InputPB} {Clear} trace (d : Dispatcher Clear) :
  steps trace d -> invalidations trace < two64 ->
  accepted_since trace = handled_since trace ++ waiting d ++ map qi_event (d_queue d).
Proof. intros Hs Hb. by destruct (steps_current trace d Hs Hb). Qed.

(** A START press is swallowed exactly while an earlier press has not been released,
    whatever overflows and foreground changes happened in between. *)
Theorem dispatcher_start_latch {PB : InputPB} {Clear} trace (d : Dispatcher Clear) event outcome d' :
  steps trace d -> step d (LSubmit event outcome) d' ->
  (outcome = Swallowed <->
   start_action event ButtonAction_PRESS = true /\ pressed trace = true)
  /\ d_startHeld d' = pressed (trace ++ [LSubmit event outcome]).
Proof.
  intros Hs Hstep. pose proof (steps_latch _ _ (steps_snoc _ _ _ _ Hs Hstep)) as Hl.
  split; [|exact Hl]. rewrite <- (steps_latch _ _ Hs). inversion Hstep; subst.
  destruct (Submit_latch event captureClear outcome d d') as [_ Ho]; [done|]. rewrite Ho.
  split; [tauto|]. intros [Hp Hh]. split_and!; try done.
  unfold start_action in *. destruct (Event event); try done.
  pose proof actions_distinct as Hd. apply NoDup_cons in Hd as [Hd _].
  rewrite list_elem_of_singleton in Hd. lia.
Qed.

(** ** Witnesses *)

Definition demo_pb : InputPB.
Proof.
  refine {| InputEvent := EventCase; Event := fun e => e; Button_OK := 0; Button_BACK := 1; Button_START := 2;
            ButtonAction_PRESS := 0; ButtonAction_RELEASE := 1; SwitchPosition_APPS := 3 |};
    apply (bool_decide_unpack _); vm_compute; exact I.
Defined.

Definition demo_press : @InputEvent demo_pb := ButtonEvent 2 0.

Lemma demo_steps :
  exists d : @Dispatcher demo_pb unit, steps [LSubmit (demo_press : @InputEvent demo_pb) Admitted_; LInvalidate] d
  /\ step d (LSubmit (demo_press : @InputEvent demo_pb) Swallowed) d.
Proof.
  eexists. split.
  - eapply (@steps_snoc demo_pb unit [LSubmit (demo_press : @InputEvent demo_pb) Admitted_]).
    + eapply (@steps_snoc demo_pb unit []); [constructor|].
      eapply (@step_submit demo_pb unit _ demo_press None). reflexivity.
    + apply step_invalidate.
  - eapply (@step_submit demo_pb unit _ demo_press None). reflexivity.
Defined.

Lemma dispatcher_accounting_witness : exists d : @Dispatcher demo_pb unit, depth d <= InputQueueCapacity.
Proof.
  destruct demo_steps as (d & Hs & _). exists d. apply acc_bounded.
  apply (dispatcher_accounting [LSubmit (demo_press : @InputEvent demo_pb) Admitted_; LInvalidate] d Hs).
Defined.

Lemma dispatcher_exact_fifo_witness :
  exists d : @Dispatcher demo_pb unit,
  accepted_since [LSubmit (demo_press : @InputEvent demo_pb) Admitted_; LInvalidate]
  = handled_since [LSubmit (demo_press : @InputEvent demo_pb) Admitted_; LInvalidate]
    ++ waiting d ++ map qi_event (d_queue d).
Proof.
  destruct demo_steps as (d & Hs & _). exists d.
  apply (dispatcher_exact_fifo [LSubmit (demo_press : @InputEvent demo_pb) Admitted_; LInvalidate] d Hs).
  reflexivity.
Defined.

Lemma dispatcher_start_latch_witness :
  @pressed demo_pb [LSubmit (demo_press : @InputEvent demo_pb) Admitted_; LInvalidate] = true.
Proof.
  destruct demo_steps as (d & Hs & Hstep).
  apply (proj1 (dispatcher_start_latch [LSubmit (demo_press : @InputEvent demo_pb) Admitted_; LInvalidate] d
    (demo_press : @InputEvent demo_pb) Swallowed d Hs Hstep)). reflexivity.
Defined.
