(* ===== verification/InputRouter.v ===== *)
(** * Input: the APPS launcher

    Models [src/internal/input/router.go]: the launcher menu state, the card it
    publishes, and its event handler. Callbacks run without the mutex, so while one
    runs other goroutines may change the menu: each callback returns the router
    state found afterwards along with its own result. An index out of range is the
    result [Panic], and the republishing loop takes fuel. *)

From Stdlib Require Import ZArith Lia ZifyBool.
From S2P Require Import Prelude GoStrings GoTime GoJson Protocol InputDispatcher.

(** ** Strings of the card *)

(** [utf8.AppendRune]. *)
Definition AppendRune (r : Z) : string :=
  let b z := String (ascii_of_byte z) in
  if between 0 127 r then b r EmptyString
  else if between 128 2047 r then b (192 + r / 64) (b (128 + r mod 64) EmptyString)
  else if (between 2048 55295 r) || (between 57344 65535 r) then
    b (224 + r / 4096) (b (128 + r / 64 mod 64) (b (128 + r mod 64) EmptyString))
  else if between 65536 1114111 r then
    b (240 + r / 262144) (b (128 + r / 4096 mod 64) (b (128 + r / 64 mod 64) (b (128 + r mod 64) EmptyString)))
  else b 239 (b 191 (b 189 EmptyString)).

(** [strings.ReplaceAll] of one byte by another. *)
Fixpoint ReplaceAll (old new : ascii) (s : string) : string :=
  match s with
  | EmptyString => EmptyString
  | String a s' => String (if Ascii.eqb a old then new else a) (ReplaceAll old new s')
  end.

Section ToUpper.
(** [unicode.ToUpper] outside ASCII, a table of the Go distribution. *)
Context (unicode_upper : Z -> Z).

Definition upper_rune (r : Z) : Z :=
  if r <? 128 then (if is_lower r then r - 32 else r) else unicode_upper r.

(** [strings.ToUpper] maps every rune; an invalid byte becomes U+FFFD. *)
Definition ToUpper (s : string) : string :=
  join_strings EmptyString (map (fun rn => AppendRune (upper_rune rn.1)) (runes s)).
End ToUpper.

(** ** The card *)

Record App := mkApp { app_ID : string; app_DisplayName : string; app_Action : string }.

Definition launcherCanvas : string := "#071522FF".
Definition launcherSurface : string := "#171A21FF".
Definition launcherBorder : string := "#2B3940FF".
Definition launcherText : string := "#EAF4F2FF".
Definition launcherSecondary : string := "#9AAFB2FF".
Definition launcherAccent : string := "#2AC7B5FF".

Definition launcherTextElement (id display value font color : string) (x y : Z) (align : string) : Element :=
  mkElement id display x y (Some (mkTextElement value font color align 0 None)) None None None None.

Definition launcherMarquee (id display value font color : string) (x y width : Z) (align : string) : Element :=
  mkElement id display x y
    (Some (mkTextElement value font color align width (Some (mkMarquee 1000 1000 2500)))) None None None None.

Definition launcherRectangle (id display : string) (x y width height : Z) (color : string) : Element :=
  mkElement id display x y None None None (Some (mkRectangleElement width height color)) None.

Definition launcherScene (app position : string) : Scene :=
  mkScene
    [ launcherRectangle "front-background" DisplayFront 0 0 72 16 launcherCanvas;
      launcherRectangle "front-accent" DisplayFront 1 1 3 14 launcherAccent;
      launcherMarquee "front-app" DisplayFront app "normal" launcherText 36 0 64 "top_mid";
      launcherTextElement "front-position" DisplayFront position "tiny" launcherAccent 36 15 "bottom_mid";
      launcherRectangle "back-background" DisplayBack 0 0 160 80 launcherCanvas;
      launcherRectangle "back-surface" DisplayBack 4 13 140 60 launcherSurface;
      launcherRectangle "back-accent" DisplayBack 1 1 4 78 launcherAccent;
      launcherTextElement "back-eyebrow" DisplayBack "APPS / LAUNCHER" "tiny" launcherSecondary 8 3 EmptyString;
      launcherMarquee "back-app" DisplayBack app "large" launcherText 8 20 132 EmptyString;
      launcherRectangle "back-divider" DisplayBack 8 45 132 1 launcherBorder;
      launcherTextElement "back-position" DisplayBack position "small" launcherSecondary 8 52 EmptyString;
      launcherTextElement "back-action" DisplayBack "PLAY: OPEN" "small" launcherAccent 140 65 "top_right" ].

(** ** The router *)

Record Router := mkRouter {
  rt_active : bool;
  rt_apps : list App;
  rt_selected : Z;
  rt_revision : Z;
  rt_created : Time;
}.

Definition NewRouter : Router := mkRouter false [] 0 0 zero_time.

Definition Active (r : Router) : bool := rt_active r.

(** The Go remainder has the sign of the dividend. *)
Definition wrap (value size : Z) : Z :=
  let value := Z.rem value size in
  if value <? 0 then value + size else value.

(** The callbacks: [Launcher], [publish], [withdraw] and [now]. *)
Record RouterCalls (W : Type) := mkRouterCalls {
  Apps : Router -> W -> list App * Router * W;
  Launch : string -> string -> Router -> W -> option error * Router * W;
  publish : option (Observation -> Router -> W -> option error * Router * W);
  withdraw : option (W -> W);
  clock : W -> Time;
  router_upper : Z -> Z;
}.
Arguments Apps {W}.
Arguments Launch {W}.
Arguments publish {W}.
Arguments withdraw {W}.
Arguments clock {W}.
Arguments router_upper {W}.

Section Router.
Context {PB : InputPB} {W : Type} (calls : RouterCalls W).

Definition observationLocked (r : Router) (w : W) : result Observation :=
  let card text position :=
    let now := UTC (clock calls w) in
    Done (mkObservation (mkInstanceRef "launcher" 1) "apps" "menu" (rt_revision r) DispositionSnapshot
            ImpactNormal "launcher_active" (rt_created r) now (Add now (24 * Hour))
            (Some (launcherScene text position)) None None) in
  match rt_apps r with
  | [] => card "No available apps"%string "0 / 0"%string
  | apps =>
    bind (index apps (rt_selected r)) (fun app =>
      let text := TrimSpace (app_DisplayName app) in
      let text := if text =s EmptyString then app_ID app else text in
      let text := ToUpper (router_upper calls) (ReplaceAll "-" " " text) in
      card text (format_int (rt_selected r + 1) +:+ " / " +:+ format_int (Z.of_nat (length apps))))
  end.

Definition bump (r : Router) : Router :=
  mkRouter (rt_active r) (rt_apps r) (rt_selected r) (u64_succ (rt_revision r)) (rt_created r).

Definition showLocked (r : Router) (w : W) : result (Observation * Z * Router) :=
  let r := bump r in
  bind (observationLocked r w) (fun observation => Done (observation, rt_revision r, r)).

(** [r.active = false; r.apps = nil; r.selected = 0; r.revision++] *)
Definition deactivate (r : Router) : Router := mkRouter false [] 0 (u64_succ (rt_revision r)) (rt_created r).

Definition call_withdraw (w : W) : W := match withdraw calls with Some f => f w | None => w end.

Definition close (r : Router) (w : W) : option error * Router * W :=
  if negb (rt_active r) then (None, r, w) else (None, deactivate r, call_withdraw w).

Definition closeIfCurrent (token : Z) (r : Router) (w : W) : option error * Router * W :=
  if negb (rt_active r) || negb (rt_revision r =? token) then (None, r, w)
  else (None, deactivate r, call_withdraw w).

(** The loop of [publishCurrent]. *)
Fixpoint publish_loop (fuel : nat) (pub : Observation -> Router -> W -> option error * Router * W)
    (value : Observation) (token : Z) (firstErr : option error) (r : Router) (w : W)
    : result (option error * Router * W) :=
  match fuel with
  | O => OutOfFuel
  | S fuel' =>
    let '(publishErr, r, w) := pub value r w in
    let firstErr := match firstErr with Some _ => firstErr | None => publishErr end in
    if rt_active r && (rt_revision r =? token) then
      match publishErr with
      | Some _ => Done (firstErr, deactivate r, call_withdraw w)
      | None => Done (firstErr, r, w)
      end
    else if negb (rt_active r) then Done (firstErr, r, call_withdraw w)
    else
      bind (observationLocked r w) (fun value =>
        publish_loop fuel' pub value (rt_revision r) firstErr r w)
  end.

Definition publishCurrent (fuel : nat) (value : Observation) (token : Z) (r : Router) (w : W)
    : result (option error * Router * W) :=
  match publish calls with
  | None => Done (errors_New "launcher publisher is not configured", r, w)
  | Some pub => publish_loop fuel pub value token None r w
  end.

(** The critical section that opens the menu on the APPS position. *)
Definition open_menu (apps : list App) (r : Router) (w : W) : Router :=
  mkRouter true apps 0 (rt_revision r) (UTC (clock calls w)).

(** The critical section of an encoder step. *)
Definition turn (delta : Z) (r : Router) : Router :=
  mkRouter (rt_active r) (rt_apps r) (wrap (rt_selected r + delta) (Z.of_nat (length (rt_apps r))))
    (rt_revision r) (rt_created r).

Definition Router_Handle (fuel : nat) (event : InputEvent) (r : Router) (w : W)
    : result (option error * Router * W) :=
  match Event event with
  | SwitchEvent position =>
    if position =? SwitchPosition_APPS then
      let '(apps, r, w) := Apps calls r w in
      bind (showLocked (open_menu apps r w) w) (fun '(observation, token, r) =>
        publishCurrent fuel observation token r w)
    else Done (close r w)
  | EncoderEvent delta =>
    if negb (rt_active r) || (Z.of_nat (length (rt_apps r)) =? 0) || (delta =? 0) then Done (None, r, w)
    else
      bind (showLocked (turn delta r) w) (fun '(observation, token, r) =>
        publishCurrent fuel observation token r w)
  | ButtonEvent button action =>
    if negb (action =? ButtonAction_PRESS) then Done (None, r, w)
    else if button =? Button_START then
      if negb (rt_active r) || (Z.of_nat (length (rt_apps r)) =? 0) then Done (None, r, w)
      else
        bind (index (rt_apps r) (rt_selected r)) (fun selected =>
          let token := rt_revision r in
          match Launch calls (app_ID selected) (app_Action selected) r w with
          | (Some err, r, w) => Done (Some err, r, w)
          | (None, r, w) => Done (closeIfCurrent token r w)
          end)
    else Done (None, r, w)
  | NoEvent => Done (None, r, w)
  end.
End Router.

(** ** Specification *)

(** The menu points at one of its applications; a closed menu has none. *)
Definition RouterInv (r : Router) : Prop :=
  (rt_active r = false -> rt_apps r = [])
  /\ (rt_apps r = [] -> rt_selected r = 0)
  /\ (rt_apps r <> [] -> 0 <= rt_selected r < Z.of_nat (length (rt_apps r))).

(** What other goroutines may do to the menu while a callback runs: any sequence of
    the router's own critical sections, each of which takes a new revision (so an
    unchanged revision means an unchanged menu), and finitely many of them. [shown]
    is the launcher card the observation store holds; [pending] bounds the changes
    still to come. *)
Class RouterWorld {W : Type} (calls : RouterCalls W) (shown : W -> option Observation)
    (pending : W -> nat) : Prop := {
  apps_rely r w : RouterInv r ->
    let '(_, r', w') := Apps calls r w in RouterInv r' /\ (pending w' <= pending w)%nat;
  launch_rely id action r w : RouterInv r ->
    let '(_, r', w') := Launch calls id action r w in RouterInv r';
  publish_rely pub value r w : publish calls = Some pub -> RouterInv r ->
    let '(err, r', w') := pub value r w in
    RouterInv r'
    /\ (rt_revision r' = rt_revision r -> r' = r /\ (err = None -> shown w' = Some value))
    /\ (pending w' <= pending w)%nat
    /\ (rt_revision r' <> rt_revision r -> (pending w' < pending w)%nat);
  withdraw_shown w : exists f, withdraw calls = Some f /\ shown (f w) = None;
}.

(** ** Lemmas *)

Lemma wrap_mod value size : 0 < size -> wrap value size = value mod size.
Proof.
  intros Hs. unfold wrap. cbv zeta. pose proof (Z.mod_pos_bound value size Hs).
  destruct (Z.ltb_spec (Z.rem value size) 0) as [Hn|Hn].
  - apply (Z.mod_unique_pos _ _ (Z.quot value size - 1)); [pose proof (Z.rem_bound_abs value size); lia|].
    pose proof (Z.quot_rem value size). lia.
  - apply (Z.mod_unique_pos _ _ (Z.quot value size)); [pose proof (Z.rem_bound_abs value size); lia|].
    pose proof (Z.quot_rem value size). lia.
Qed.

Lemma index_Done {A} (l : list A) i : 0 <= i < Z.of_nat (length l) -> exists x, index l i = Done x /\ x ∈ l.
Proof.
  intros Hi. unfold index. destruct (Z.ltb_spec i 0); [lia|].
  destruct (lookup_lt_is_Some_2 l (Z.to_nat i)) as [x Hx]; [lia|]. rewrite Hx.
  exists x. split; [done|by eapply list_elem_of_lookup_2].
Qed.

Lemma NewRouter_inv : RouterInv NewRouter.
Proof. by split_and!. Qed.

Lemma bump_inv r : RouterInv r -> RouterInv (bump r).
Proof. done. Qed.

Lemma deactivate_inv r : RouterInv (deactivate r).
Proof. by split_and!. Qed.

Section RouterLemmas.
Context {PB : InputPB} {W : Type} (calls : RouterCalls W) {shown : W -> option Observation}
  {pending : W -> nat} {Hworld : RouterWorld calls shown pending}.

Lemma open_menu_inv apps r w : RouterInv (open_menu calls apps r w).
Proof.
  split_and!; try done. cbn [open_menu rt_apps rt_selected].
  destruct apps; [done|]. simpl. lia.
Qed.

Lemma turn_inv delta r :
  RouterInv r -> rt_apps r <> [] ->
  RouterInv (turn delta r)
  /\ rt_selected (turn delta r) = (rt_selected r + delta) mod Z.of_nat (length (rt_apps r)).
Proof.
  intros (Ha & Hn & Hs) Hne. assert (Hl : 0 < Z.of_nat (length (rt_apps r))) by (destruct (rt_apps r); simpl; [done|lia]).
  unfold RouterInv. cbn [turn rt_active rt_apps rt_selected]. rewrite wrap_mod by done.
  split_and!; try done. intros _. by apply Z.mod_pos_bound.
Qed.

Lemma observationLocked_Done r w :
  RouterInv r -> exists o, observationLocked calls r w = Done o /\ obs_Revision o = rt_revision r.
Proof.
  intros (_ & _ & Hs). unfold observationLocked. destruct (rt_apps r) as [|app apps]; [by eexists|].
  destruct (index_Done (app :: apps) (rt_selected r)) as (x & -> & _); [by apply Hs|]. by eexists.
Qed.

Lemma call_withdraw_shown w : shown (call_withdraw calls w) = None.
Proof. unfold call_withdraw. destruct (withdraw_shown w) as (f & -> & Hf). done. Qed.

(** The store agrees with the menu: it shows the current revision, or nothing. *)
Definition synchronised (r : Router) (w : W) : Prop :=
  if rt_active r then exists o, shown w = Some o /\ obs_Revision o = rt_revision r
  else shown w = None.

Lemma publish_loop_spec fuel pub value firstErr r w :
  publish calls = Some pub -> RouterInv r -> obs_Revision value = rt_revision r ->
  (pending w < fuel)%nat ->
  exists err r' w', publish_loop calls fuel pub value (rt_revision r) firstErr r w = Done (err, r', w')
  /\ RouterInv r' /\ synchronised r' w'.
Proof.
  intros Hpub. revert value firstErr r w. induction fuel as [|fuel IH]; intros value firstErr r w Hinv Hv Hf; [lia|].
  simpl. pose proof (publish_rely pub value r w Hpub Hinv) as Hp.
  destruct (pub value r w) as [[publishErr r1] w1]. destruct Hp as (Hinv1 & Hsame & Hle & Hless).
  set (err := match firstErr with Some _ => firstErr | None => publishErr end).
  destruct (rt_active r1) eqn:Hact; simpl.
  - destruct (Z.eqb_spec (rt_revision r1) (rt_revision r)) as [He|He].
    + destruct (Hsame He) as [-> Hshown]. destruct publishErr as [e|].
      * do 3 eexists. split; [done|]. split; [apply deactivate_inv|]. apply call_withdraw_shown.
      * do 3 eexists. split; [done|]. split; [done|]. unfold synchronised. rewrite Hact.
        exists value. split; [by apply Hshown|done].
    + destruct (observationLocked_Done r1 w1 Hinv1) as (o & -> & Ho). simpl.
      apply IH; [done|done|]. specialize (Hless He). lia.
  - do 3 eexists. split; [done|]. split; [done|]. unfold synchronised. rewrite Hact. apply call_withdraw_shown.
Qed.

(** Publishing a new revision of the menu. *)
Lemma show_and_publish fuel pub r w :
  publish calls = Some pub -> RouterInv r -> (pending w < fuel)%nat ->
  exists err r' w',
  bind (showLocked calls r w) (fun '(observation, token, r) => publishCurrent calls fuel observation token r w)
  = Done (err, r', w') /\ RouterInv r' /\ synchronised r' w'.
Proof.
  intros Hpub Hinv Hf. unfold showLocked. apply bump_inv in Hinv.
  destruct (observationLocked_Done (bump r) w Hinv) as (o & -> & Ho). cbn [bind].
  unfold publishCurrent. rewrite Hpub. by eapply publish_loop_spec.
Qed.

Lemma close_spec r w :
  RouterInv r -> synchronised r w ->
  let '(_, r', w') := close calls r w in RouterInv r' /\ synchronised r' w' /\ rt_active r' = false.
Proof.
  intros Hi Hs. unfold close. destruct (rt_active r) eqn:Ha; simpl; [|by rewrite Ha].
  split; [apply deactivate_inv|]. split; [apply call_withdraw_shown|done].
Qed.
End RouterLemmas.

(** The texts a card may carry. *)
Definition card_text (text : string) : Prop := len text <= MaxTextBytes /\ ValidString text = true.

Lemma check_card_text text rest :
  all_nil (err_if ((MaxTextBytes <? len text) || negb (ValidString text))
    (Errorf "text must be valid UTF-8 no larger than %d bytes" [EInt MaxTextBytes]) :: rest)
  <-> card_text text /\ all_nil rest.
Proof.
  rewrite all_nil_cons, err_if_None, orb_false_iff, negb_false_iff, Z.ltb_ge. done.
Qed.

(** The value of a text element only has to be a card text; the rest is checked as
    for any other value. *)
Lemma text_element_valid id display x y value font color align width marquee :
  Element_Validate (mkElement id display x y (Some (mkTextElement value font color align width marquee)) None None None None) = None
  <-> Element_Validate (mkElement id display x y (Some (mkTextElement "x" font color align width marquee)) None None None None) = None
      /\ card_text value.
Proof.
  assert (Hx : card_text "x") by (by vm_compute). revert Hx. generalize "x"%string. intros v Hv.
  unfold Element_Validate. rewrite !errors_Join_None, !all_nil_app.
  cbn [elem_ID elem_Display elem_X elem_Y elem_Text elem_Image elem_Animation elem_Rectangle elem_Countdown on_some].
  unfold check_text. cbn [text_Value text_Font text_Color text_Align text_Width text_Marquee].
  rewrite !check_card_text. tauto.
Qed.

(** ** Properties *)

(** C39: whatever the launcher, the store and other goroutines do meanwhile, handling an
    event never indexes outside the menu and always returns: fuel above the number of
    pending concurrent changes is enough. Showing the menu or turning the encoder
    leaves the store in step with the menu: its current revision if it is open, no
    card if it has been closed. *)
Theorem Router_Handle_safe {PB : InputPB} {W} (calls : RouterCalls W) shown pending
    (Hworld : RouterWorld calls shown pending) pub fuel event r w :
  publish calls = Some pub -> RouterInv r -> (pending w < fuel)%nat ->
  exists err r' w', Router_Handle calls fuel event r w = Done (err, r', w')
  /\ RouterInv r'
  /\ (synchronised (shown := shown) r w ->
      match Event event with
      | SwitchEvent _ | EncoderEvent _ => synchronised (shown := shown) r' w'
      | _ => True
      end).
Proof.
  intros Hpub Hinv Hf. unfold Router_Handle. destruct (Event event) as [position|delta|button action|].
  - destruct (position =? SwitchPosition_APPS).
    + pose proof (apps_rely r w Hinv) as Ha. destruct (Apps calls r w) as [[apps r1] w1]. destruct Ha as [_ Hle].
      destruct (show_and_publish calls fuel pub (open_menu calls apps r1 w1) w1 Hpub) as (err & r' & w' & Heq & Hi & Hs);
        [apply open_menu_inv|lia|]. exists err, r', w'. by split_and!.
    + pose proof (close_spec calls r w Hinv) as Hc. destruct (close calls r w) as [[err r'] w'] eqn:Heq.
      exists err, r', w'. split; [done|]. split; [|naive_solver].
      revert Heq. unfold close. destruct (negb _); intros [= _ <- _]; [done|apply deactivate_inv].
  - destruct (negb (rt_active r) || _ || _) eqn:Hg.
    + exists None, r, w. by split_and!.
    + apply orb_false_iff in Hg as [[_ Hl]%orb_false_iff _].
      assert (Hne : rt_apps r <> []) by (by intros Hn; rewrite Hn in Hl).
      destruct (show_and_publish calls fuel pub (turn delta r) w Hpub) as (err & r' & w' & Heq & Hi & Hs);
        [by apply turn_inv|done|]. exists err, r', w'. by split_and!.
  - destruct (negb (action =? ButtonAction_PRESS)); [exists None, r, w; by split_and!|].
    destruct (button =? Button_START); [|exists None, r, w; by split_and!].
    destruct (negb (rt_active r) || _) eqn:Hg; [exists None, r, w; by split_and!|].
    apply orb_false_iff in Hg as [_ Hl].
    assert (Hne : rt_apps r <> []) by (by intros Hn; rewrite Hn in Hl).
    destruct (index_Done (rt_apps r) (rt_selected r)) as (x & -> & _); [by apply Hinv|]. cbn [bind].
    pose proof (launch_rely (app_ID x) (app_Action x) r w Hinv) as Hlaunch.
    destruct (Launch calls _ _ r w) as [[[err|] r1] w1]; [by exists (Some err), r1, w1|].
    unfold closeIfCurrent. destruct (_ || _); [by exists None, r1, w1|].
    exists None, (deactivate r1), (call_withdraw calls w1). split_and!; try done; apply deactivate_inv.
  - exists None, r, w. by split_and!.
Qed.

(** Turning the encoder moves the selection cyclically through the menu, in both
    directions and by any number of steps. *)
Theorem turn_cycles delta r :
  RouterInv r -> rt_apps r <> [] ->
  rt_selected (turn delta r) = (rt_selected r + delta) mod Z.of_nat (length (rt_apps r))
  /\ RouterInv (turn delta r).
Proof. intros Hi Hne. by destruct (turn_inv delta r Hi Hne). Qed.

(** The launcher card is a valid scene exactly when its two texts are: the layout
    itself is always accepted by the protocol. *)
Theorem launcherScene_valid app position :
  Scene_Validate (launcherScene app position) = None <-> card_text app /\ card_text position.
Proof.
  rewrite Scene_Validate_None. split.
  - intros [_ Hall _]. unfold launcherScene in Hall. cbn [scene_Elements] in Hall. rewrite !Forall_cons in Hall.
    destruct Hall as (_ & _ & Happ & Hposition & _).
    apply Element_Validate_None, text_element_valid in Happ as [_ Happ].
    by apply Element_Validate_None, text_element_valid in Hposition as [_ Hposition].
  - intros [Happ Hposition]. constructor.
    + by vm_compute.
    + unfold launcherScene. cbn [scene_Elements]. repeat apply Forall_cons_2; [..|by apply Forall_nil];
        apply Element_Validate_None;
        first [by apply text_element_valid; split; [vm_compute; reflexivity|]|by vm_compute].
    + apply (bool_decide_unpack _). vm_compute. exact I.
Qed.

(** ** Witnesses *)

(** A store that holds the launcher card, with no concurrent change. *)
Definition demo_calls : RouterCalls (option Observation) := {|
  Apps := fun r w => ([mkApp "a" "Alpha" "open"; mkApp "b" "Beta-2" "open"], r, w);
  Launch := fun _ _ r w => (None, r, w);
  publish := Some (fun value r _ => (None, r, Some value));
  withdraw := Some (fun _ => None);
  clock := fun _ => mkTime 7 0;
  router_upper := fun r => r;
|}.

#[export] Instance demo_router_world : RouterWorld demo_calls id (fun _ => 0%nat).
Proof.
  split; cbn; [done|done| |intros w; by exists (fun _ => None)].
  intros pub value r w [= <-] Hi. by split_and!.
Qed.

Definition demo_menu : Router := mkRouter true [mkApp "a" "Alpha" "open"; mkApp "b" "Beta-2" "open"] 1 5 zero_time.

Lemma Router_Handle_safe_witness :
  exists err r' w',
  @Router_Handle demo_pb _ demo_calls 1 (SwitchEvent 3 : @InputEvent demo_pb) NewRouter None = Done (err, r', w')
  /\ RouterInv r' /\ synchronised (shown := id) r' w'.
Proof.
  destruct (@Router_Handle_safe demo_pb _ demo_calls id (fun _ => 0%nat) demo_router_world
    (fun value r _ => (None, r, Some value)) 1 (SwitchEvent 3 : @InputEvent demo_pb) NewRouter None
    eq_refl NewRouter_inv (Nat.lt_0_succ 0)) as (err & r' & w' & Heq & Hi & Hs).
  exists err, r', w'. split; [exact Heq|]. split; [exact Hi|]. apply Hs. reflexivity.
Defined.

Lemma turn_cycles_witness : rt_selected (turn (-4) demo_menu) = 1.
Proof.
  rewrite (proj1 (turn_cycles (-4) demo_menu ltac:(split_and!; [discriminate|discriminate|intros _; cbn; lia]) ltac:(discriminate))).
  reflexivity.
Defined.
