(* ===== verification/InputCoordinator.v ===== *)
(** * Input: the coordinator

    Models [src/internal/input/coordinator.go], the ordered decision point for every
    physical event. Its collaborators (the launcher, the session controller, the
    activator, the publishers and the Back hooks) are the fields of [Coordinator],
    each of them optional where the source compares it with nil, over an abstract
    world [W]. *)

From Stdlib Require Import ZArith Lia ZifyBool.
From S2P Require Import Prelude GoStrings GoTime Protocol ProtocolSession InputDispatcher.

(** ** Collaborators *)

Record SessionTarget := mkSessionTarget { tg_InstanceID : string; tg_Token : string }.
Record ActivationResult := mkActivationResult { ar_Activated : bool; ar_InputTarget : SessionTarget }.

Record BackAttempt (W : Type) := mkBackAttempt {
  Consumed : option (W -> option error * W);
  Fallback : option (string -> W -> option error * W);
}.
Arguments mkBackAttempt {W}.
Arguments Consumed {W}.
Arguments Fallback {W}.

Definition BackPublish (W : Type) : Type :=
  string -> string -> SessionInput -> Time -> W -> (SessionInputResult * option error) * W.

Record BackHandling (W : Type) := mkBackHandling {
  bh_Publish : option (BackPublish W);
  bh_Begin : option (W -> BackAttempt W * W);
}.
Arguments mkBackHandling {W}.
Arguments bh_Publish {W}.
Arguments bh_Begin {W}.

Record SessionController (W : Type) := mkSessionController {
  ForegroundSession : W -> string * string;
  ClearForegroundSessionContext : string -> string -> W -> W;
  BeginLauncherAdmission : W -> (Z * bool) * W;
  LauncherAdmissionCurrent : Z -> W -> bool;
}.
Arguments mkSessionController {W}.
Arguments ForegroundSession {W}.
Arguments ClearForegroundSessionContext {W}.
Arguments BeginLauncherAdmission {W}.
Arguments LauncherAdmissionCurrent {W}.

Section Coordinator.
Context {PB : InputPB} {W : Type}.

(** The three methods of [*Router] the coordinator calls. *)
Record Launcher := mkLauncher {
  lr_Active : W -> bool;
  lr_Handle : InputEvent -> W -> option error * W;
  lr_Close : W -> W;
}.

Record Coordinator := mkCoordinator {
  co_launcher : option Launcher;
  co_activate : option (SessionInput -> W -> (ActivationResult * option error) * W);
  co_sessions : option (SessionController W);
  co_publish : option (string -> string -> SessionInput -> Time -> W -> option error * W);
  co_back_Publish : BackPublish W;
  co_back_Begin : W -> BackAttempt W * W;
  co_invalidate : option (W -> W);
  co_reconcile : option (W -> option error * W);
  co_now : W -> Time;
}.

(** [NewCoordinator] panics without Back handling. *)
Definition NewCoordinator launcher activate sessions publish (back : BackHandling W) invalidate reconcile now
    : result Coordinator :=
  match bh_Publish back, bh_Begin back with
  | Some pub, Some begin =>
    Done (mkCoordinator launcher activate sessions publish pub begin invalidate reconcile now)
  | _, _ => Panic
  end.

Context (c : Coordinator).

(** *** Reading the event *)

Definition button_is (event : InputEvent) (button action : Z) : bool :=
  match Event event with
  | ButtonEvent b a => (b =? button) && (a =? action)
  | _ => false
  end.

Definition isBackPress (event : InputEvent) : bool := button_is event Button_BACK ButtonAction_PRESS.
Definition isBackRelease (event : InputEvent) : bool := button_is event Button_BACK ButtonAction_RELEASE.

Definition closesFirmwareCanvas (event : InputEvent) : bool :=
  match Event event with SwitchEvent _ => true | _ => false end.

Definition map_button (button : Z) : option string :=
  if button =? Button_OK then Some ButtonOK
  else if button =? Button_BACK then Some ButtonBack
  else if button =? Button_START then Some ButtonStart
  else None.

Definition map_action (action : Z) : option string :=
  if action =? ButtonAction_PRESS then Some ButtonPress
  else if action =? ButtonAction_RELEASE then Some ButtonRelease
  else None.

Definition sessionInput (event : InputEvent) : option SessionInput :=
  match Event event with
  | ButtonEvent button action =>
    match map_button button, map_action action with
    | Some button, Some action => Some (mkSessionInput (Some (mkButtonInput button action)) None)
    | _, _ => None
    end
  | EncoderEvent delta =>
    if delta =? 0 then None else Some (mkSessionInput None (Some (mkEncoderInput delta)))
  | _ => None
  end.

Definition has_session (session : string * string) : bool :=
  negb (session.1 =s EmptyString) && negb (session.2 =s EmptyString).

Definition foreground (w : W) : string * string :=
  match co_sessions c with Some sessions => ForegroundSession sessions w | None => (EmptyString, EmptyString) end.

Definition clearForeground (w : W) : W :=
  let session := foreground w in
  match co_sessions c with
  | Some sessions =>
    if has_session session then ClearForegroundSessionContext sessions session.1 session.2 w else w
  | None => w
  end.

Definition launcher_active (w : W) : bool :=
  match co_launcher c with Some launcher => lr_Active launcher w | None => false end.

Definition close_launcher (w : W) : W :=
  match co_launcher c with Some launcher => lr_Close launcher w | None => w end.

(** *** Back *)

Definition handleBack (event : InputEvent) (w : W) : result (option error * W) :=
  match sessionInput event with
  | None => Done (None, w)
  | Some payload =>
    let session := foreground w in
    let launcherActive := launcher_active w in
    let '(attempt, w) := co_back_Begin c w in
    match Consumed attempt, Fallback attempt with
    | Some consumed, Some fallback =>
      let fall_back reason w :=
        let '(err, w) := fallback reason w in
        let w := match co_sessions c with
                 | Some sessions =>
                   if has_session session then ClearForegroundSessionContext sessions session.1 session.2 w else w
                 | None => w
                 end in
        Done (err, if launcherActive then close_launcher w else w) in
      if has_session session then
        let '((result, err), w) := co_back_Publish c session.1 session.2 payload (UTC (co_now c w)) w in
        let err := match err with Some _ => err | None => SessionInputResult_Validate result end in
        match err with
        | None =>
          if sir_Disposition result =s SessionInputConsumed then Done (consumed w)
          else fall_back "back_not_consumed"%string w
        | Some _ => fall_back "back_session_input_failed"%string w
        end
      else fall_back "back_no_session"%string w
    | _, _ => Panic
    end
  end.

(** *** Everything else *)

Definition handle_apps (event : InputEvent) (w : W) : option error * W :=
  let w := clearForeground w in
  match co_sessions c with
  | Some sessions =>
    let '((admission, admitted), w) := BeginLauncherAdmission sessions w in
    if negb admitted then (None, close_launcher w)
    else match co_launcher c with
         | None => (None, w)
         | Some launcher =>
           let '(err, w) := lr_Handle launcher event w in
           (err, if LauncherAdmissionCurrent sessions admission w then w else lr_Close launcher w)
         end
  | None =>
    match co_launcher c with
    | None => (None, w)
    | Some launcher => lr_Handle launcher event w
    end
  end.

Definition handle_session (event : InputEvent) (w : W) : option error * W :=
  match sessionInput event with
  | None => (None, w)
  | Some payload =>
    let session := foreground w in
    if has_session session then
      match co_publish c with
      | None => (None, w)
      | Some publish => publish session.1 session.2 payload (UTC (co_now c w)) w
      end
    else
      let start := match in_Button payload with
                   | Some button => (bi_Button button =s ButtonStart) && (bi_Action button =s ButtonPress)
                   | None => false
                   end in
      match co_activate c with
      | Some activate =>
        if start || is_some (in_Encoder payload) then
          let occurredAt := UTC (co_now c w) in
          let '((result, err), w) := activate payload w in
          match err with
          | Some _ => (err, w)
          | None =>
            let target := ar_InputTarget result in
            if ar_Activated result && has_session (tg_InstanceID target, tg_Token target) then
              match co_publish c with
              | Some publish => publish (tg_InstanceID target) (tg_Token target) payload occurredAt w
              | None => (None, w)
              end
            else (None, w)
          end
        else (None, w)
      | None => (None, w)
      end
  end.

Definition handle (event : InputEvent) (w : W) : option error * W :=
  let to_launcher w :=
    match co_launcher c with Some launcher => lr_Handle launcher event w | None => (None, w) end in
  match Event event with
  | SwitchEvent position =>
    if position =? SwitchPosition_APPS then handle_apps event w
    else
      let w := clearForeground w in
      if launcher_active w then to_launcher w else (None, w)
  | _ => if launcher_active w then to_launcher w else handle_session event w
  end.

Definition Handle (event : InputEvent) (w : W) : result (option error * W) :=
  if isBackPress event then handleBack event w
  else if isBackRelease event then Done (None, w)
  else
    let canvasLost := closesFirmwareCanvas event in
    let w := match co_invalidate c with Some f => if canvasLost then f w else w | None => w end in
    let '(err, w) := handle event w in
    match co_reconcile c with
    | Some reconcile =>
      if canvasLost then let '(err', w) := reconcile w in Done (errors_Join [err; err'], w) else Done (err, w)
    | None => Done (err, w)
    end.
End Coordinator.

Arguments Coordinator {PB} W.
Arguments Launcher {PB} W.

(** ** Specification

    The calls the coordinator makes and what they are answered, as a log, and the protocol
    they follow. *)

Section Protocol.
Context {PB : InputPB} {W : Type}.

Inductive call :=
  | CHandle (event : InputEvent)
  | CClose
  | CActivate (payload : SessionInput) (result : ActivationResult) (err : option error)
  | CPublish (session : string * string) (payload : SessionInput)
  | CBackPublish (session : string * string) (payload : SessionInput) (result : SessionInputResult) (err : option error)
  | CBegin
  | CConsumed
  | CFallback (reason : string)
  | CClear (session : string * string)
  | CAdmission (admission : Z) (admitted : bool)
  | CInvalidate
  | CReconcile.

(** Every collaborator appends its own call to the log, whatever it answers, and
    [Begin] returns a complete attempt. *)
Class LoggedCoordinator (c : Coordinator W) (log : W -> list call) : Prop := {
  log_launcher l : co_launcher c = Some l ->
    (forall event w, log (lr_Handle l event w).2 = log w ++ [CHandle event])
    /\ forall w, log (lr_Close l w) = log w ++ [CClose];
  log_activate f payload w : co_activate c = Some f -> log (f payload w).2 = log w ++ [CActivate payload (f payload w).1.1 (f payload w).1.2];
  log_sessions s : co_sessions c = Some s ->
    (forall id token w, log (ClearForegroundSessionContext s id token w) = log w ++ [CClear (id, token)])
    /\ forall w, log (BeginLauncherAdmission s w).2
      = log w ++ [CAdmission (BeginLauncherAdmission s w).1.1 (BeginLauncherAdmission s w).1.2];
  log_publish f id token payload t w : co_publish c = Some f ->
    log (f id token payload t w).2 = log w ++ [CPublish (id, token) payload];
  log_back_publish id token payload t w :
    log (co_back_Publish c id token payload t w).2
    = log w ++ [CBackPublish (id, token) payload (co_back_Publish c id token payload t w).1.1 (co_back_Publish c id token payload t w).1.2];
  log_begin w : log (co_back_Begin c w).2 = log w ++ [CBegin]
    /\ exists consumed fallback,
       Consumed (co_back_Begin c w).1 = Some consumed /\ Fallback (co_back_Begin c w).1 = Some fallback
       /\ (forall w', log (consumed w').2 = log w' ++ [CConsumed])
       /\ forall reason w', log (fallback reason w').2 = log w' ++ [CFallback reason];
  log_invalidate f w : co_invalidate c = Some f -> log (f w) = log w ++ [CInvalidate];
  log_reconcile f w : co_reconcile c = Some f -> log (f w).2 = log w ++ [CReconcile];
}.

Definition clears (session : string * string) : list call := if has_session session then [CClear session] else [].
Definition closes (c : Coordinator W) : list call := if is_some (co_launcher c) then [CClose] else [].

(** The answer of a session that has consumed a Back press. *)
Definition consumes (result : SessionInputResult) (err : option error) : Prop :=
  err = None /\ SessionInputResult_Validate result = None /\ sir_Disposition result = SessionInputConsumed.
Definition failed_input (result : SessionInputResult) (err : option error) : Prop :=
  err <> None \/ SessionInputResult_Validate result <> None.

(** A Back press: the session in the foreground has the first refusal. The press is
    consumed exactly if that session answers so; otherwise the fallback runs, with the
    reason, and then that same session, and the launcher if it was open, are closed. *)
Inductive back_protocol (session : string * string) (active : bool) (payload : SessionInput) : list call -> Prop :=
  | back_consumed result err :
      has_session session = true -> consumes result err ->
      back_protocol session active payload [CBegin; CBackPublish session payload result err; CConsumed]
  | back_refused result err reason :
      has_session session = true -> ~ consumes result err ->
      (failed_input result err /\ reason = "back_session_input_failed"%string)
      \/ (~ failed_input result err /\ reason = "back_not_consumed"%string) ->
      back_protocol session active payload
        (CBegin :: CBackPublish session payload result err :: CFallback reason :: CClear session :: if active then [CClose] else [])
  | back_alone :
      has_session session = false ->
      back_protocol session active payload (CBegin :: CFallback "back_no_session" :: if active then [CClose] else []).

(** A switch, in the state [w], with the state it leaves: any session in the foreground is
    cleared first. On the APPS position an admission decides: if it is refused the launcher
    is closed, and if it is granted the launcher handles the event, and is closed again
    exactly if the admission has lapsed meanwhile. On another position an open launcher
    hears of it, and nobody else. *)
Inductive switch_protocol (c : Coordinator W) (event : InputEvent) (w : W) : list call -> W -> Prop :=
  | switch_refused sessions admission w' :
      Event event = SwitchEvent SwitchPosition_APPS -> co_sessions c = Some sessions ->
      switch_protocol c event w (clears (foreground c w) ++ CAdmission admission false :: closes c) w'
  | switch_no_launcher sessions admission w' :
      Event event = SwitchEvent SwitchPosition_APPS -> co_sessions c = Some sessions -> co_launcher c = None ->
      switch_protocol c event w (clears (foreground c w) ++ [CAdmission admission true]) w'
  | switch_handled sessions launcher admission w' :
      Event event = SwitchEvent SwitchPosition_APPS -> co_sessions c = Some sessions -> co_launcher c = Some launcher ->
      LauncherAdmissionCurrent sessions admission w' = true ->
      switch_protocol c event w (clears (foreground c w) ++ [CAdmission admission true; CHandle event]) w'
  | switch_lapsed sessions launcher admission w1 :
      Event event = SwitchEvent SwitchPosition_APPS -> co_sessions c = Some sessions -> co_launcher c = Some launcher ->
      LauncherAdmissionCurrent sessions admission w1 = false ->
      switch_protocol c event w (clears (foreground c w) ++ [CAdmission admission true; CHandle event; CClose]) (lr_Close launcher w1)
  | switch_no_sessions w' :
      Event event = SwitchEvent SwitchPosition_APPS -> co_sessions c = None ->
      switch_protocol c event w (if is_some (co_launcher c) then [CHandle event] else []) w'
  | switch_elsewhere position w' :
      Event event = SwitchEvent position -> position <> SwitchPosition_APPS ->
      switch_protocol c event w
        (clears (foreground c w) ++ if launcher_active c (clearForeground c w) then [CHandle event] else []) w'.

(** START pressed, or a turn of the encoder. *)
Definition activates (payload : SessionInput) : bool :=
  match in_Button payload with
  | Some button => (bi_Button button =s ButtonStart) && (bi_Action button =s ButtonPress)
  | None => false
  end || is_some (in_Encoder payload).

(** Any other event: an open launcher takes it; otherwise the session in the foreground;
    otherwise a START press or an encoder step activates the rendered card, and the same
    input goes to the session that this reports, if it does. *)
Definition forwarded (c : Coordinator W) (payload : SessionInput) (result : ActivationResult) (err : option error) : list call :=
  let target := (tg_InstanceID (ar_InputTarget result), tg_Token (ar_InputTarget result)) in
  if negb (is_some err) && ar_Activated result && has_session target && is_some (co_publish c) then [CPublish target payload] else [].
Inductive input_protocol (c : Coordinator W) (session : string * string) (active : bool) (event : InputEvent) : list call -> Prop :=
  | input_launcher : active = true -> input_protocol c session active event [CHandle event]
  | input_unmapped : active = false -> sessionInput event = None -> input_protocol c session active event []
  | input_session payload :
      active = false -> sessionInput event = Some payload -> has_session session = true ->
      input_protocol c session active event (if is_some (co_publish c) then [CPublish session payload] else [])
  | input_ignored payload :
      active = false -> sessionInput event = Some payload -> has_session session = false ->
      is_some (co_activate c) && activates payload = false -> input_protocol c session active event []
  | input_activate payload result err :
      active = false -> sessionInput event = Some payload -> has_session session = false ->
      is_some (co_activate c) && activates payload = true ->
      input_protocol c session active event (CActivate payload result err :: forwarded c payload result err).

(** What [Handle] does with an event in the state [w]; [w'] is the state it leaves, before
    the reconciliation. *)
Definition invalidated (c : Coordinator W) (w : W) : W := match co_invalidate c with Some f => f w | None => w end.
Definition protocol (c : Coordinator W) (event : InputEvent) (w : W) (calls : list call) (w' : W) : Prop :=
  if isBackPress event then
    exists payload, sessionInput event = Some payload /\ back_protocol (foreground c w) (launcher_active c w) payload calls
  else if isBackRelease event then calls = [] /\ w' = w
  else if closesFirmwareCanvas event then
    exists inner, switch_protocol c event (invalidated c w) inner w'
      /\ calls = (if is_some (co_invalidate c) then [CInvalidate] else []) ++ inner
                 ++ (if is_some (co_reconcile c) then [CReconcile] else [])
  else input_protocol c (foreground c w) (launcher_active c w) event calls.

(** The calls that hand the event, or its payload, to someone. *)
Definition delivers (k : call) : bool :=
  match k with CHandle _ | CPublish _ _ | CBackPublish _ _ _ _ => true | _ => false end.
Definition deliveries (calls : list call) : nat := length (List.filter delivers calls).

(** ** Lemmas *)

Section Logged.
Context (c : Coordinator W) {log : W -> list call} {Hlog : LoggedCoordinator c log}.

(** [calls] were made between two worlds. *)
Definition made (calls : list call) (w w' : W) : Prop := log w' = log w ++ calls.

Lemma made_nil w : made [] w w.
Proof. unfold made. by rewrite app_nil_r. Qed.

Lemma made_trans calls calls' w w' w'' : made calls w w' -> made calls' w' w'' -> made (calls ++ calls') w w''.
Proof. unfold made. intros H ->. by rewrite H, app_assoc. Qed.

Lemma made_clear sessions session w :
  co_sessions c = Some sessions ->
  made [CClear session] w (ClearForegroundSessionContext sessions session.1 session.2 w).
Proof. intros Hs. unfold made. destruct session. by apply log_sessions. Qed.

Lemma clearForeground_made w : made (clears (foreground c w)) w (clearForeground c w).
Proof.
  unfold clearForeground, clears. destruct (co_sessions c) as [s|] eqn:Hs.
  - destruct (has_session (foreground c w)); [by apply made_clear|apply made_nil].
  - unfold foreground. rewrite Hs. apply made_nil.
Qed.

Lemma close_launcher_made w : made (closes c) w (close_launcher c w).
Proof.
  unfold close_launcher, closes. destruct (co_launcher c) as [l|] eqn:Hl; [by apply (log_launcher l Hl)|apply made_nil].
Qed.

Lemma active_launcher w : launcher_active c w = true -> exists l, co_launcher c = Some l.
Proof. unfold launcher_active. destruct (co_launcher c); [by eexists|done]. Qed.

Lemma foreground_sessions w : has_session (foreground c w) = true -> exists s, co_sessions c = Some s.
Proof. unfold foreground. destruct (co_sessions c); [by eexists|done]. Qed.

Lemma handle_made l event w :
  co_launcher c = Some l -> made [CHandle event] w (lr_Handle l event w).2.
Proof. intros Hl. by apply (log_launcher l Hl). Qed.

(** The calls of a fallback, from the session and launcher read beforehand. *)
Lemma fall_back_made session active w w0 :
  session = foreground c w0 -> active = launcher_active c w0 ->
  made (clears session ++ (if active then [CClose] else [])) w
    (let w := match co_sessions c with
              | Some sessions => if has_session session then ClearForegroundSessionContext sessions session.1 session.2 w else w
              | None => w
              end in if active then close_launcher c w else w).
Proof.
  intros Hs Ha. cbv zeta.
  assert (Hclear : made (clears session) w
    match co_sessions c with
    | Some sessions => if has_session session then ClearForegroundSessionContext sessions session.1 session.2 w else w
    | None => w
    end).
  { unfold clears. destruct (has_session session) eqn:Hh.
    - rewrite Hs in Hh. destruct (foreground_sessions w0 Hh) as [s Hss]. rewrite Hss. by apply made_clear.
    - destruct (co_sessions c); apply made_nil. }
  eapply made_trans; [exact Hclear|]. destruct active; [|apply made_nil].
  destruct (active_launcher w0) as [l Hl]; [done|]. unfold close_launcher. rewrite Hl. by apply (log_launcher l Hl).
Qed.

Lemma handleBack_made event payload w :
  sessionInput event = Some payload ->
  exists err w' calls, handleBack c event w = Done (err, w') /\ made calls w w'
  /\ back_protocol (foreground c w) (launcher_active c w) payload calls.
Proof.
  intros Hp. unfold handleBack. rewrite Hp.
  destruct (log_begin w) as (Hb & consumed & fallback & Hc & Hf & Hlc & Hlf).
  destruct (co_back_Begin c w) as [attempt w1]. simpl in Hb, Hc, Hf. rewrite Hc, Hf.
  set (session := foreground c w). set (active := launcher_active c w).
  assert (Hfall : forall reason w2 before, made before w w2 ->
    back_protocol session active payload (before ++ CFallback reason :: clears session ++ (if active then [CClose] else [])) ->
    exists err w' calls,
      (let '(err, w) := fallback reason w2 in
       let w := match co_sessions c with
                | Some sessions =>
                  if has_session session then ClearForegroundSessionContext sessions session.1 session.2 w else w
                | None => w
                end in
       Done (err, if active then close_launcher c w else w)) = Done (err, w')
      /\ made calls w w' /\ back_protocol session active payload calls).
  { intros reason w2 before Hmade Hproto. specialize (Hlf reason w2).
    destruct (fallback reason w2) as [err w3]. simpl in Hlf.
    pose proof (fall_back_made session active w3 w eq_refl eq_refl) as Hmade4.
    do 3 eexists. split; [reflexivity|]. split; [|exact Hproto].
    eapply made_trans; [exact Hmade|]. exact (made_trans [_] _ _ _ _ Hlf Hmade4). }
  destruct (has_session session) eqn:Hh.
  - pose proof (log_back_publish session.1 session.2 payload (UTC (co_now c w1)) w1) as Hpub.
    destruct (co_back_Publish c _ _ _ _ w1) as [[result err] w2]. simpl in Hpub.
    rewrite <- surjective_pairing in Hpub.
    assert (Hbefore : made [CBegin; CBackPublish session payload result err] w w2).
    { apply (made_trans [CBegin] [_] w w1); [exact Hb|exact Hpub]. }
    assert (Hclears : clears session = [CClear session]) by (unfold clears; by rewrite Hh).
    destruct (match err with Some _ => err | None => SessionInputResult_Validate result end) as [e|] eqn:He.
    { apply (Hfall _ _ _ Hbefore). rewrite Hclears. assert (Hfailed : failed_input result err).
      { unfold failed_input. destruct err; [by left|right; congruence]. }
      apply (back_refused _ _ _ result err "back_session_input_failed"); [done| |by left].
      intros (-> & Hv & _). destruct Hfailed; congruence. }
    assert (Hok : err = None /\ SessionInputResult_Validate result = None) by (by destruct err).
    destruct Hok as [-> Hv]. destruct (String.eqb_spec (sir_Disposition result) SessionInputConsumed) as [Hd|Hd].
    + specialize (Hlc w2). destruct (consumed w2) as [err' w3]. simpl in Hlc.
      do 3 eexists. split; [reflexivity|]. split; [exact (made_trans [CBegin; CBackPublish session payload result None] [CConsumed] w w2 w3 Hbefore Hlc)|].
      by apply back_consumed.
    + apply (Hfall _ _ _ Hbefore). rewrite Hclears.
      apply (back_refused _ _ _ result None "back_not_consumed"); [done|by intros (_ & _ & ?)|right; split; [|done]].
      intros [?|?]; done.
  - apply (Hfall _ _ [CBegin] Hb). unfold clears. rewrite Hh. by apply back_alone.
Qed.

Lemma handle_apps_made event w :
  Event event = SwitchEvent SwitchPosition_APPS ->
  exists calls, made calls w (handle_apps c event w).2 /\ switch_protocol c event w calls (handle_apps c event w).2.
Proof.
  intros He. unfold handle_apps. pose proof (clearForeground_made w) as Hcl. set (w1 := clearForeground c w) in *.
  destruct (co_sessions c) as [s|] eqn:Hs.
  2:{ assert (Hw : w1 = w) by (unfold w1, clearForeground; by rewrite Hs). rewrite Hw.
      eexists. split; [|by apply switch_no_sessions]. destruct (co_launcher c) as [l|] eqn:Hl; [by apply handle_made|apply made_nil]. }
  pose proof (proj2 (log_sessions s Hs) w1) as Hadm.
  destruct (BeginLauncherAdmission s w1) as [[admission admitted] w2]. simpl in Hadm.
  assert (H2 : made (clears (foreground c w) ++ [CAdmission admission admitted]) w w2) by (eapply made_trans; [exact Hcl|exact Hadm]).
  destruct admitted; cbn [negb]; cbv iota.
  - destruct (co_launcher c) as [l|] eqn:Hl.
    + pose proof (handle_made l event w2 Hl) as Hh. destruct (lr_Handle l event w2) as [err w3]. simpl in Hh.
      pose proof (made_trans _ _ _ _ _ H2 Hh) as H3. rewrite <- app_assoc in H3. cbn [snd].
      destruct (LauncherAdmissionCurrent s admission w3) eqn:Hcur.
      * eexists. split; [exact H3|]. by eapply switch_handled.
      * eexists. split; [eapply made_trans; [exact H3|by apply (log_launcher l Hl)]|]. rewrite <- app_assoc. by eapply switch_lapsed.
    + eexists. split; [exact H2|]. by eapply switch_no_launcher.
  - eexists. split; [eapply made_trans; [exact H2|apply close_launcher_made]|]. rewrite <- app_assoc. by eapply switch_refused.
Qed.

Lemma handle_session_made event w :
  launcher_active c w = false ->
  exists calls, made calls w (handle_session c event w).2
  /\ input_protocol c (foreground c w) false event calls.
Proof.
  intros Ha. unfold handle_session.
  destruct (sessionInput event) as [payload|] eqn:Hp; [|exists []; split; [apply made_nil|by apply input_unmapped]].
  destruct (has_session (foreground c w)) eqn:Hh.
  - eexists. split; [|by eapply input_session]. destruct (co_publish c) as [f|] eqn:Hf; [|apply made_nil].
    cbn [is_some]. unfold made. rewrite (log_publish f _ _ _ _ w Hf). by rewrite <- surjective_pairing.
  - change (match in_Button payload with Some button => _ | None => false end || is_some (in_Encoder payload)) with (activates payload).
    assert (Hno : is_some (co_activate c) && activates payload = false ->
      exists calls, made calls w w /\ input_protocol c (foreground c w) false event calls).
    { intros Hact. exists []. split; [apply made_nil|by eapply input_ignored]. }
    destruct (co_activate c) as [f|] eqn:Hf; [|by apply Hno]. destruct (activates payload) eqn:Hact; [|by apply Hno].
    pose proof (log_activate f payload w Hf) as Hcall. destruct (f payload w) as [[result err] w1]. simpl in Hcall.
    exists (CActivate payload result err :: forwarded c payload result err).
    split; [|apply input_activate; try done; by rewrite Hf, Hact].
    apply (made_trans [_] _ _ w1); [exact Hcall|]. unfold forwarded.
    destruct err as [err|]; [apply made_nil|]. cbn [is_some negb andb].
    destruct (ar_Activated result && has_session _); [|apply made_nil].
    destruct (co_publish c) as [g|] eqn:Hg; [|apply made_nil]. by apply log_publish.
Qed.

Lemma handle_made_protocol event w :
  exists calls, made calls w (handle c event w).2
  /\ if closesFirmwareCanvas event then switch_protocol c event w calls (handle c event w).2
     else input_protocol c (foreground c w) (launcher_active c w) event calls.
Proof.
  assert (Hto : forall w0, launcher_active c w0 = true ->
    made [CHandle event] w0
      (match co_launcher c with Some launcher => lr_Handle launcher event w0 | None => (None, w0) end).2).
  { intros w0 Ha. destruct (active_launcher w0 Ha) as [l Hl]. rewrite Hl. by apply handle_made. }
  unfold handle, closesFirmwareCanvas. destruct (Event event) as [position|delta|button action|] eqn:He.
  1: { destruct (Z.eqb_spec position SwitchPosition_APPS) as [->|Hne]; [by apply handle_apps_made|].
       eexists. split; [|by eapply switch_elsewhere]. eapply made_trans; [apply clearForeground_made|].
       destruct (launcher_active c (clearForeground c w)) eqn:Ha; [by apply Hto|apply made_nil]. }
  all: destruct (launcher_active c w) eqn:Ha;
    [exists [CHandle event]; split; [by apply Hto|by apply input_launcher]|by apply handle_session_made].
Qed.

Lemma Handle_made event w :
  exists err w' w1 calls, Handle c event w = Done (err, w') /\ made calls w w'
  /\ protocol c event w calls w1
  /\ w' = (if closesFirmwareCanvas event then match co_reconcile c with Some f => (f w1).2 | None => w1 end else w1).
Proof.
  unfold Handle, protocol. destruct (isBackPress event) eqn:Hb.
  { assert (Hcanvas : closesFirmwareCanvas event = false).
    { revert Hb. unfold isBackPress, button_is, closesFirmwareCanvas. by destruct (Event event). }
    rewrite Hcanvas. destruct (sessionInput event) as [payload|] eqn:Hp.
    - destruct (handleBack_made event payload w Hp) as (err & w' & calls & ? & ? & ?).
      exists err, w', w', calls. split_and!; try done. by exists payload.
    - exfalso. revert Hb Hp. unfold isBackPress, button_is, sessionInput, map_button, map_action.
      destruct (Event event) as [| |b a|]; try done. intros [->%Z.eqb_eq ->%Z.eqb_eq]%andb_true_iff.
      rewrite !Z.eqb_refl. by destruct (_ =? Button_OK). }
  destruct (isBackRelease event) eqn:Hrel.
  { assert (Hcanvas : closesFirmwareCanvas event = false).
    { revert Hrel. unfold isBackRelease, button_is, closesFirmwareCanvas. by destruct (Event event). }
    rewrite Hcanvas. exists None, w, w, []. split_and!; [done|apply made_nil|done..]. }
  destruct (closesFirmwareCanvas event) eqn:Hc.
  - change (match co_invalidate c with Some f => f w | None => w end) with (invalidated c w).
    assert (H1 : made (if is_some (co_invalidate c) then [CInvalidate] else []) w (invalidated c w)).
    { unfold invalidated. destruct (co_invalidate c) as [f|] eqn:Hf; [by apply log_invalidate|apply made_nil]. }
    pose proof (handle_made_protocol event (invalidated c w)) as (inner & Hinner & Hsw).
    rewrite Hc in Hsw. destruct (handle c event (invalidated c w)) as [err w2]. cbn [snd] in *.
    assert (H2 : made (match co_reconcile c with Some _ => [CReconcile] | None => [] end) w2
                   (match co_reconcile c with Some f => (f w2).2 | None => w2 end)).
    { destruct (co_reconcile c) as [g|] eqn:Hg; [by apply log_reconcile|apply made_nil]. }
    destruct (co_reconcile c) as [g|]; [destruct (g w2) as [err' w3] eqn:Hg|]; cbn [snd is_some] in *;
      (do 4 eexists; split; [reflexivity|]; split; [eapply made_trans; [exact H1|eapply made_trans; [exact Hinner|exact H2]]|];
       split; [exists inner; by split|by rewrite ?Hg]).
  - pose proof (handle_made_protocol event w) as (calls & Hcalls & Hin). rewrite Hc in Hin.
    assert ((match co_invalidate c with Some f => if false then f w else w | None => w end) = w) as ->
      by (by destruct (co_invalidate c)).
    destruct (handle c event w) as [err w2]. simpl in Hcalls.
    destruct (co_reconcile c); (do 4 eexists; split; [reflexivity|]; by split_and!).
Qed.
End Logged.
End Protocol.

Lemma deliveries_app {PB : InputPB} (l1 l2 : list call) :
  deliveries (l1 ++ l2) = (deliveries l1 + deliveries l2)%nat.
Proof. unfold deliveries. by rewrite List.filter_app, length_app. Qed.

Lemma switch_deliveries {PB : InputPB} {W} (c : Coordinator W) event w calls w' :
  switch_protocol c event w calls w' -> (deliveries calls <= 1)%nat.
Proof.
  assert (Hclears : deliveries (clears (foreground c w)) = 0%nat) by (unfold clears; by repeat case_match).
  intros []; rewrite ?deliveries_app, ?Hclears; unfold closes; repeat case_match; unfold deliveries; cbn; lia.
Qed.

Lemma protocol_deliveries {PB : InputPB} {W} (c : Coordinator W) event w calls w' :
  protocol c event w calls w' -> (deliveries calls <= 1)%nat.
Proof.
  unfold protocol. destruct (isBackPress event).
  { intros (payload & _ & []); try (destruct (launcher_active c w)); unfold deliveries; cbn; lia. }
  destruct (isBackRelease event); [intros [-> _]; unfold deliveries; simpl; lia|].
  destruct (closesFirmwareCanvas event).
  - intros (inner & Hsw & ->). rewrite !deliveries_app. apply switch_deliveries in Hsw.
    destruct (is_some (co_invalidate c)), (is_some (co_reconcile c)); unfold deliveries at 1 3; cbn; lia.
  - intros []; unfold forwarded; repeat case_match; unfold deliveries; cbn; lia.
Qed.

(** ** Properties *)

(** C31: whatever the collaborators answer, handling an event returns, makes the calls of the
    input protocol in its order, and heeds the answers. Back is offered to the session in
    the foreground, and falls back, with the reason, exactly if that session does not
    consume it; a switch invalidates, clears the foreground, closes the launcher if its
    admission is refused, lets it handle the event if granted and closes it again exactly
    if the admission lapsed, and reconciles last; any other event goes to the open launcher,
    else to the foreground session, else activates the rendered card, and then goes to the
    session that the activation reports. No event reaches two recipients. *)
Theorem Handle_follows_protocol {PB : InputPB} {W} (c : Coordinator W) log
    (Hlog : LoggedCoordinator c log) event w :
  exists err w' w1 calls, Handle c event w = Done (err, w') /\ log w' = log w ++ calls
  /\ protocol c event w calls w1
  /\ w' = (if closesFirmwareCanvas event then match co_reconcile c with Some f => (f w1).2 | None => w1 end else w1)
  /\ (deliveries calls <= 1)%nat.
Proof.
  destruct (Handle_made c event w) as (err & w' & w1 & calls & Heq & Hmade & Hp & Hw).
  exists err, w', w1, calls. split_and!; try done. by eapply protocol_deliveries.
Qed.

(** ** Witnesses *)

Section DemoCoordinator.
Existing Instance demo_pb.

Definition demo_log : Type := list (@call demo_pb).

(** A foreground session that refuses the press, and an open launcher. *)
Definition demo_coordinator : @Coordinator demo_pb demo_log := {|
  co_launcher := Some {|
    lr_Active := fun _ => true;
    lr_Handle := fun event w => (None, w ++ [CHandle event]);
    lr_Close := fun w => w ++ [CClose] |};
  co_activate := Some (fun payload w =>
    ((mkActivationResult false (mkSessionTarget EmptyString EmptyString), None), w ++ [CActivate payload (mkActivationResult false (mkSessionTarget EmptyString EmptyString)) None]));
  co_sessions := Some {|
    ForegroundSession := fun _ => ("calendar", "t1")%string;
    ClearForegroundSessionContext := fun id token w => w ++ [CClear (id, token)];
    BeginLauncherAdmission := fun w => ((1, true), w ++ [CAdmission 1 true]);
    LauncherAdmissionCurrent := fun _ _ => true |};
  co_publish := Some (fun id token payload _ w => (None, w ++ [CPublish (id, token) payload]));
  co_back_Publish := fun id token payload _ w =>
    ((mkSessionInputResult SessionInputNotConsumed, None),
     w ++ [CBackPublish (id, token) payload (mkSessionInputResult SessionInputNotConsumed) None]);
  co_back_Begin := fun w =>
    (mkBackAttempt (Some (fun w => (None, w ++ [CConsumed])))
       (Some (fun reason w => (None, w ++ [CFallback reason]))), w ++ [CBegin]);
  co_invalidate := Some (fun w => w ++ [CInvalidate]);
  co_reconcile := Some (fun w => (None, w ++ [CReconcile]));
  co_now := fun _ => zero_time |}.

#[export] Instance demo_coordinator_logged : LoggedCoordinator demo_coordinator id.
Proof.
  split; cbn; try (by intros; simplify_eq); try (intros; simplify_eq; by split).
  intros w. split; [done|]. by do 2 eexists.
Qed.
End DemoCoordinator.

Definition demo_back : @InputEvent demo_pb := ButtonEvent 1 0.

Lemma Handle_follows_protocol_witness :
  exists calls payload,
  Handle demo_coordinator demo_back [] = Done (None, calls)
  /\ back_protocol ("calendar", "t1")%string true payload calls.
Proof.
  destruct (Handle_follows_protocol demo_coordinator id demo_coordinator_logged demo_back [])
    as (err & w' & w1 & calls & Heq & Hlog & (payload & _ & Hp) & _).
  exists calls, payload. split; [|exact Hp]. simpl in Hlog. rewrite <- Hlog. rewrite Heq.
  f_equal. f_equal. vm_compute in Heq. by injection Heq as <- _.
Defined.
