(* ===== verification/EventBus.v ===== *)
(** * The session input broker

    Models [src/internal/eventbus/broker.go]. The broker and each session worker
    have their own mutex, and each worker its own goroutine; a definition here is
    one critical section (or channel operation) of the source, and [step]
    interleaves them: publishers hold an admitted input between the broker's lock
    and the worker's ([sys_transit]), then between the worker's lock and its wake-up
    ([sys_waking]) or its failure report ([sys_failing]). Workers and response
    channels are referred to by address, as the source compares worker pointers.
    Waiting for the [done] channels of stopped workers is not modelled. *)

From Stdlib Require Import ZArith Lia ZifyBool.
From S2P Require Import Prelude GoStrings GoTime Identifier Protocol ProtocolSession.

Definition InteractionQueueSize : Z := 64.

Definition ErrClosed : error := Errorf "session input queue is closed" [].
Definition ErrTargetUnavailable : error := Errorf "session input target is not configured" [].
Definition ErrSessionInvalidated : error := Errorf "session input session is invalidated" [].
Definition ErrSessionInputOverrun : error := Errorf "session input queue overrun" [].

Definition FailureDelivery : string := "delivery_failed".
Definition FailureOverrun : string := "overrun".

Record TargetSet := mkTargetSet { ts_PluginID : string; ts_InstanceIDs : list string }.

Record Status := mkStatus {
  bs_PluginID : string;
  bs_QueueDepth : Z;
  bs_LastSequence : Z;
  bs_Overruns : Z;
  bs_LastErrorCode : string;
}.

Record sessionKey := mkSessionKey {
  sk_pluginID : string;
  sk_instanceID : string;
  sk_generation : Z;
  sk_token : string;
}.

#[export] Instance sessionKey_eq_dec : EqDecision sessionKey.
Proof. solve_decision. Defined.
#[export] Instance sessionKey_countable : Countable sessionKey.
Proof.
  apply (inj_countable' (fun k => (sk_pluginID k, sk_instanceID k, sk_generation k, sk_token k))
    (fun '(p, i, g, t) => mkSessionKey p i g t)).
  by intros [].
Defined.

Record deliveryResult := mkDeliveryResult { dr_result : SessionInputResult; dr_err : option error }.

(** A queued request, and the address of its response channel. *)
Record queuedDelivery := mkQueuedDelivery { qd_request : SessionInputRequest; qd_response : option nat }.

(** Where a worker's goroutine is in [run]. *)
Inductive position :=
  | AtSelect
  | AtBegin
  | Delivering (delivery : queuedDelivery)
  | AtFinish (delivery : queuedDelivery) (result : SessionInputResult) (err : option error)
  | AtRespond (delivery : queuedDelivery) (result : SessionInputResult) (err : option error) (stop : bool)
  | AtComplete (delivery : queuedDelivery) (err : error)
  | Returned
  | Exited.

Record worker := mkWorker {
  w_key : sessionKey;
  w_cancelled : bool;
  w_notify : bool;
  w_queue : list queuedDelivery;
  w_inFlight : bool;
  w_completing : bool;
  w_stopped : bool;
  w_position : position;
}.

Record Broker := mkBroker {
  b_next : Z;
  b_targets : gmap string string;
  b_workers : gmap sessionKey nat;
  b_invalid : gset sessionKey;
  b_stats : gmap string Status;
  b_closed : bool;
}.

Definition New : Broker := mkBroker 0 ∅ ∅ ∅ ∅ false.

(** ** One worker *)

Definition newWorker (key : sessionKey) : worker := mkWorker key false false [] false false false AtSelect.

Definition set_position (p : position) (w : worker) : worker :=
  mkWorker (w_key w) (w_cancelled w) (w_notify w) (w_queue w) (w_inFlight w) (w_completing w) (w_stopped w) p.
Definition set_notify (notify : bool) (w : worker) : worker :=
  mkWorker (w_key w) (w_cancelled w) notify (w_queue w) (w_inFlight w) (w_completing w) (w_stopped w) (w_position w).

Definition depth (w : worker) : Z := Z.of_nat (length (w_queue w)).
Definition isUnavailable (w : worker) : bool := w_stopped w || w_completing w.

(** The critical section of [enqueue]; [wake] follows it. *)
Definition enqueue (delivery : queuedDelivery) (w : worker) : option error * worker :=
  if w_stopped w || w_completing w then (Some ErrSessionInvalidated, w)
  else if InteractionQueueSize <=? depth w then (Some ErrSessionInputOverrun, w)
  else (None, mkWorker (w_key w) (w_cancelled w) (w_notify w) (w_queue w ++ [delivery]) (w_inFlight w)
                (w_completing w) (w_stopped w) (w_position w)).

Definition wake (w : worker) : worker := set_notify true w.

Definition begin (w : worker) : option queuedDelivery * worker :=
  match w_queue w with
  | delivery :: _ =>
    if w_stopped w || w_inFlight w then (None, w)
    else (Some delivery, mkWorker (w_key w) (w_cancelled w) (w_notify w) (w_queue w) true
                           (w_completing w) (w_stopped w) (w_position w))
  | [] => (None, w)
  end.

(** [finish] returns [(accepted, stop)]. *)
Definition finish (sequence : Z) (err : option error) (w : worker) : (bool * bool) * worker :=
  if w_stopped w then ((false, true), w)
  else match w_queue w with
       | [] => ((false, true), w)
       | delivery :: queue =>
         if negb (sq_Sequence (qd_request delivery) =? sequence) then ((false, true), w)
         else if w_completing w then
           ((true, true), mkWorker (w_key w) true (w_notify w) [] false true true (w_position w))
         else
           ((true, is_some err), mkWorker (w_key w) (w_cancelled w) (w_notify w) queue false false false (w_position w))
       end.

(** [completeNoWait] and [stopNoWait] return the deliveries they discard. *)
Definition completeNoWait (w : worker) : list queuedDelivery * worker :=
  if w_stopped w || w_completing w then ([], w)
  else if w_inFlight w then
    (drop 1 (w_queue w), mkWorker (w_key w) (w_cancelled w) (w_notify w) (take 1 (w_queue w)) true true false (w_position w))
  else
    (w_queue w, mkWorker (w_key w) true (w_notify w) [] false true true (w_position w)).

Definition stopNoWait (w : worker) : list queuedDelivery * worker :=
  if w_stopped w then ([], w)
  else (w_queue w, mkWorker (w_key w) true (w_notify w) [] (w_inFlight w) (w_completing w) true (w_position w)).

(** ** The system *)

Record System := mkSystem {
  sys_broker : Broker;
  sys_heap : gmap nat worker;
  (** what each response channel has received *)
  sys_channels : gmap nat (list deliveryResult);
  sys_transit : list (nat * queuedDelivery);
  sys_waking : list nat;
  sys_failing : list (nat * queuedDelivery);
}.

Definition initial : System := mkSystem New ∅ ∅ [] [] [].

Definition set_broker (b : Broker) (s : System) : System :=
  mkSystem b (sys_heap s) (sys_channels s) (sys_transit s) (sys_waking s) (sys_failing s).
Definition set_worker (wid : nat) (w : worker) (s : System) : System :=
  mkSystem (sys_broker s) (<[wid := w]> (sys_heap s)) (sys_channels s) (sys_transit s) (sys_waking s) (sys_failing s).

(** A send on a response channel, which has a buffer of one. *)
Definition send (channel : nat) (r : deliveryResult) (s : System) : System :=
  mkSystem (sys_broker s) (sys_heap s) (alter (fun rs => rs ++ [r]) channel (sys_channels s))
    (sys_transit s) (sys_waking s) (sys_failing s).

Definition rejectDeliveries (deliveries : list queuedDelivery) (s : System) : System :=
  fold_left (fun s delivery =>
    match qd_response delivery with
    | None => s
    | Some channel => send channel (mkDeliveryResult (mkSessionInputResult EmptyString) (Some ErrSessionInvalidated)) s
    end) deliveries s.

(** A worker operation that discards deliveries, applied to the worker at [wid]. *)
Definition on_worker (op : worker -> list queuedDelivery * worker) (wid : nat) (s : System) : System :=
  match sys_heap s !! wid with
  | Some w => let '(discarded, w) := op w in rejectDeliveries discarded (set_worker wid w s)
  | None => s
  end.

Definition stop_worker (wid : nat) (s : System) : System := on_worker stopNoWait wid s.
Definition complete_worker (wid : nat) (s : System) : System := on_worker completeNoWait wid s.

Definition unavailable_at (s : System) (wid : nat) : bool :=
  match sys_heap s !! wid with Some w => isUnavailable w | None => false end.

(** ** Broker operations *)

Definition routes (targets : gmap string string) (key : sessionKey) : bool :=
  default EmptyString (targets !! sk_instanceID key) =s sk_pluginID key.

Definition targets_of (values : list TargetSet) : gmap string string :=
  fold_left (fun next value =>
    fold_left (fun next instanceID => <[instanceID := ts_PluginID value]> next) (ts_InstanceIDs value) next)
    values ∅.

Definition empty_status (pluginID : string) : Status := mkStatus pluginID 0 0 0 EmptyString.

(** The critical section of [Apply]. *)
Definition Apply (values : list TargetSet) (s : System) : System :=
  let b := sys_broker s in
  if b_closed b then s else
  let next := targets_of values in
  let plugins := map ts_PluginID values in
  let retired := List.filter (fun kw => negb (routes next kw.1)) (map_to_list (b_workers b)) in
  let invalid := filter (fun key => routes next key = true) (b_invalid b ∖ list_to_set (map fst retired)) in
  let kept := filter (fun kv => kv.1 ∈ plugins) (b_stats b) in
  let stats := fold_left (fun stats pluginID =>
    match stats !! pluginID with Some _ => stats | None => <[pluginID := empty_status pluginID]> stats end)
    plugins kept in
  let s := fold_left (fun s kw => stop_worker kw.2 s) retired s in
  set_broker (mkBroker (b_next b) next (b_workers b) invalid stats false) s.

Definition cloneInput (input : SessionInput) : SessionInput :=
  mkSessionInput
    ((fun button => mkButtonInput (bi_Button button) (bi_Action button)) <$> in_Button input)
    ((fun encoder => mkEncoderInput (ei_Delta encoder)) <$> in_Encoder input).

Definition cloneRequest (request : SessionInputRequest) : SessionInputRequest :=
  mkSessionInputRequest (sq_Sequence request) (sq_OccurredAt request) (sq_Instance request)
    (sq_SessionToken request) (cloneInput (sq_Input request)).

Definition with_sequence (sequence : Z) (request : SessionInputRequest) : SessionInputRequest :=
  mkSessionInputRequest sequence (sq_OccurredAt request) (sq_Instance request) (sq_SessionToken request)
    (sq_Input request).

(** [b.stats[pluginID]], created when missing, updated. *)
Definition update_status (pluginID : string) (f : Status -> Status) (stats : gmap string Status) : gmap string Status :=
  <[pluginID := f (default (empty_status pluginID) (stats !! pluginID))]> stats.

Definition session_request (target : InstanceRef) (sessionToken : string) (input : option SessionInput)
    (occurredAt : Time) : SessionInputRequest :=
  mkSessionInputRequest 0 (UTC occurredAt) target sessionToken
    (match input with Some i => cloneInput i | None => mkSessionInput None None end).

(** The critical section of [publishSessionInput]: an error, or the worker and the
    delivery to enqueue. A new worker is allocated at an address not in use. *)
Definition publish_admit (target : InstanceRef) (sessionToken : string) (input : option SessionInput)
    (occurredAt : Time) (response : option nat) (s : System) : error + (nat * queuedDelivery * System) :=
  let request := session_request target sessionToken input occurredAt in
  let b := sys_broker s in
  if b_closed b then inl ErrClosed else
  let pluginID := default EmptyString (b_targets b !! ref_ID target) in
  if pluginID =s EmptyString then inl ErrTargetUnavailable else
  let key := mkSessionKey pluginID (ref_ID target) (ref_Generation target) sessionToken in
  if bool_decide (key ∈ b_invalid b) then inl ErrSessionInvalidated else
  let current := b_workers b !! key in
  if (match current with Some wid => unavailable_at s wid | None => false end) then inl ErrSessionInvalidated else
  let next := u64_succ (b_next b) in
  let request := with_sequence next request in
  match SessionInputRequest_Validate request with
  | Some err => inl err
  | None =>
    let stats := update_status pluginID (fun st =>
      mkStatus (bs_PluginID st) (bs_QueueDepth st) next (bs_Overruns st) (bs_LastErrorCode st)) (b_stats b) in
    match current with
    | Some wid =>
      inr (wid, mkQueuedDelivery request response,
           set_broker (mkBroker next (b_targets b) (b_workers b) (b_invalid b) stats false) s)
    | None =>
      let wid := fresh (dom (sys_heap s)) in
      inr (wid, mkQueuedDelivery request response,
           set_worker wid (newWorker key)
             (set_broker (mkBroker next (b_targets b) (<[key := wid]> (b_workers b)) (b_invalid b) stats false) s))
    end
  end.

Definition session_key (pluginID : string) (target : InstanceRef) (sessionToken : string) : sessionKey :=
  mkSessionKey pluginID (ref_ID target) (ref_Generation target) sessionToken.

Definition set_invalid (invalid : gset sessionKey) (b : Broker) : Broker :=
  mkBroker (b_next b) (b_targets b) (b_workers b) invalid (b_stats b) (b_closed b).

Definition Cancel (pluginID : string) (target : InstanceRef) (sessionToken : string) (s : System) : System :=
  let key := session_key pluginID target sessionToken in
  let s := match b_workers (sys_broker s) !! key with Some wid => stop_worker wid s | None => s end in
  set_broker (set_invalid (b_invalid (sys_broker s) ∖ {[key]}) (sys_broker s)) s.

Definition Complete (pluginID : string) (target : InstanceRef) (sessionToken : string) (s : System) : System :=
  let key := session_key pluginID target sessionToken in
  let s := match b_workers (sys_broker s) !! key with Some wid => complete_worker wid s | None => s end in
  set_broker (set_invalid (b_invalid (sys_broker s) ∖ {[key]}) (sys_broker s)) s.

Definition Close (s : System) : System :=
  let b := sys_broker s in
  if b_closed b then s else
  let s := fold_left (fun s kw => stop_worker kw.2 s) (map_to_list (b_workers b)) s in
  set_broker (mkBroker (b_next b) (b_targets b) (b_workers b) ∅ (b_stats b) true) s.

(** The critical section of [fail]; it returns whether the failure is reported. *)
Definition fail (wid : nat) (reason : string) (s : System) : bool * System :=
  match sys_heap s !! wid with
  | None => (false, s)
  | Some current =>
    let b := sys_broker s in
    if negb (bool_decide (b_workers b !! w_key current = Some wid)) || isUnavailable current then (false, s)
    else
      let stats := update_status (sk_pluginID (w_key current)) (fun st =>
        mkStatus (bs_PluginID st) (bs_QueueDepth st) (bs_LastSequence st)
          (if reason =s FailureOverrun then u64_succ (bs_Overruns st) else bs_Overruns st) reason) (b_stats b) in
      (true, stop_worker wid
         (set_broker (mkBroker (b_next b) (b_targets b) (b_workers b) ({[w_key current]} ∪ b_invalid b) stats (b_closed b)) s))
  end.

(** The critical section at the end of [runWorker]. *)
Definition retire (wid : nat) (w : worker) (s : System) : System :=
  let b := sys_broker s in
  let workers := if bool_decide (b_workers b !! w_key w = Some wid) then delete (w_key w) (b_workers b)
                 else b_workers b in
  set_worker wid (set_position Exited w)
    (set_broker (mkBroker (b_next b) (b_targets b) workers (b_invalid b) (b_stats b) (b_closed b)) s).

(** [Status()]: the queue depth of a plugin is the sum over its workers. *)
Definition plugin_depth (s : System) (pluginID : string) : Z :=
  foldr (fun (kw : sessionKey * nat) total =>
    match sys_heap s !! kw.2 with
    | Some w => if sk_pluginID (w_key w) =s pluginID then total + depth w else total
    | None => total
    end) 0 (map_to_list (b_workers (sys_broker s))).

Definition Broker_Status (s : System) : list Status :=
  SortFunc (cmp_key bs_PluginID)
    (map (fun kv => let st := kv.2 in
       mkStatus (bs_PluginID st) (plugin_depth s (bs_PluginID st)) (bs_LastSequence st) (bs_Overruns st)
         (bs_LastErrorCode st)) (map_to_list (b_stats (sys_broker s)))).

(** ** Interleavings *)

Inductive label :=
  | LEnqueued (wid : nat) (delivery : queuedDelivery)
  | LBegun (wid : nat) (delivery : queuedDelivery)
  | LInternal.

Definition set_transit (transit : list (nat * queuedDelivery)) (s : System) : System :=
  mkSystem (sys_broker s) (sys_heap s) (sys_channels s) transit (sys_waking s) (sys_failing s).
Definition set_waking (waking : list nat) (s : System) : System :=
  mkSystem (sys_broker s) (sys_heap s) (sys_channels s) (sys_transit s) waking (sys_failing s).
Definition set_failing (failing : list (nat * queuedDelivery)) (s : System) : System :=
  mkSystem (sys_broker s) (sys_heap s) (sys_channels s) (sys_transit s) (sys_waking s) failing.

(** [make(chan deliveryResult, 1)] *)
Definition make_channel (response : option nat) (s : System) : System :=
  match response with
  | Some channel => mkSystem (sys_broker s) (sys_heap s) (<[channel := []]> (sys_channels s)) (sys_transit s)
      (sys_waking s) (sys_failing s)
  | None => s
  end.

(** [errors.Is(err, ErrSessionInputOverrun)] *)
Definition is_overrun (err : error) : bool :=
  match err with Errorf text _ => text =s "session input queue overrun" | _ => false end.

(** Moves the goroutine of the worker at [wid]. *)
Definition move (wid : nat) (p : position) (s : System) : System :=
  match sys_heap s !! wid with Some w => set_worker wid (set_position p w) s | None => s end.

Inductive step : System -> label -> System -> Prop :=
  | step_publish s target token input at_ response wid delivery s' :
      (forall channel, response = Some channel -> sys_channels s !! channel = None) ->
      publish_admit target token input at_ response s = inr (wid, delivery, s') ->
      step s LInternal (make_channel response (set_transit ((wid, delivery) :: sys_transit s') s'))
  | step_enqueue s before wid delivery after w w' :
      sys_transit s = before ++ (wid, delivery) :: after -> sys_heap s !! wid = Some w ->
      enqueue delivery w = (None, w') ->
      step s (LEnqueued wid delivery)
        (set_waking (wid :: sys_waking s) (set_transit (before ++ after) (set_worker wid w' s)))
  | step_refused s before wid delivery after w err w' :
      sys_transit s = before ++ (wid, delivery) :: after -> sys_heap s !! wid = Some w ->
      enqueue delivery w = (Some err, w') ->
      step s LInternal
        (set_failing (if is_overrun err then (wid, delivery) :: sys_failing s else sys_failing s)
           (set_transit (before ++ after) s))
  | step_wake s before wid after w :
      sys_waking s = before ++ wid :: after -> sys_heap s !! wid = Some w ->
      step s LInternal (set_waking (before ++ after) (set_worker wid (wake w) s))
  | step_overrun s before wid delivery after :
      sys_failing s = before ++ (wid, delivery) :: after ->
      step s LInternal (fail wid FailureOverrun (set_failing (before ++ after) s)).2
  | step_apply s values : step s LInternal (Apply values s)
  | step_cancel s pluginID target token : step s LInternal (Cancel pluginID target token s)
  | step_session_complete s pluginID target token : step s LInternal (Complete pluginID target token s)
  | step_close s : step s LInternal (Close s)
  | step_done s wid w :
      sys_heap s !! wid = Some w -> w_position w = AtSelect -> w_cancelled w = true ->
      step s LInternal (set_worker wid (set_position Returned w) s)
  | step_notified s wid w :
      sys_heap s !! wid = Some w -> w_position w = AtSelect -> w_notify w = true ->
      step s LInternal (set_worker wid (set_position AtBegin (set_notify false w)) s)
  | step_begin s wid w delivery w' :
      sys_heap s !! wid = Some w -> w_position w = AtBegin -> begin w = (Some delivery, w') ->
      step s (LBegun wid delivery) (set_worker wid (set_position (Delivering delivery) w') s)
  | step_idle s wid w w' :
      sys_heap s !! wid = Some w -> w_position w = AtBegin -> begin w = (None, w') ->
      step s LInternal (set_worker wid (set_position AtSelect w') s)
  | step_deliver s wid w delivery result err :
      sys_heap s !! wid = Some w -> w_position w = Delivering delivery ->
      step s LInternal
        (set_worker wid (set_position (AtFinish delivery result
          (match err with Some _ => err | None => SessionInputResult_Validate result end)) w) s)
  | step_finish s wid w delivery result err accepted stop w' :
      sys_heap s !! wid = Some w -> w_position w = AtFinish delivery result err ->
      finish (sq_Sequence (qd_request delivery)) err w = ((accepted, stop), w') ->
      step s LInternal
        (set_worker wid (set_position (if accepted then AtRespond delivery result err stop else Returned) w') s)
  | step_respond s wid w delivery result err stop :
      sys_heap s !! wid = Some w -> w_position w = AtRespond delivery result err stop ->
      step s LInternal
        (set_worker wid
           (set_position (match err with
                          | Some e => AtComplete delivery e
                          | None => if stop then Returned else AtBegin
                          end) w)
           (match qd_response delivery with
            | Some channel => send channel (mkDeliveryResult result err) s
            | None => s
            end))
  | step_failed s wid w delivery err :
      sys_heap s !! wid = Some w -> w_position w = AtComplete delivery err ->
      step s LInternal (move wid Returned (fail wid FailureDelivery s).2)
  | step_retire s wid w :
      sys_heap s !! wid = Some w -> w_position w = Returned -> step s LInternal (retire wid w s).

Inductive steps : list label -> System -> Prop :=
  | steps_nil : steps [] initial
  | steps_snoc trace s l s' : steps trace s -> step s l s' -> steps (trace ++ [l]) s'.

(** ** Specification *)

Definition enqueued_to (wid : nat) (trace : list label) : list queuedDelivery :=
  omap (fun l => match l with
                 | LEnqueued wid' delivery => if decide (wid' = wid) then Some delivery else None
                 | _ => None
                 end) trace.
Definition begun_by (wid : nat) (trace : list label) : list queuedDelivery :=
  omap (fun l => match l with
                 | LBegun wid' delivery => if decide (wid' = wid) then Some delivery else None
                 | _ => None
                 end) trace.

(** The deliveries a worker has not begun. *)
Definition remaining (w : worker) : list queuedDelivery :=
  if w_inFlight w then drop 1 (w_queue w) else w_queue w.

(** The delivery being handled, if its worker has not been stopped. *)
Definition handling (w : worker) : option queuedDelivery :=
  match w_position w with
  | Delivering delivery | AtFinish delivery _ _ => Some delivery
  | _ => None
  end.

(** The response channels a worker still has to answer. *)
Definition owed (w : worker) : list nat :=
  omap qd_response (w_queue w)
  ++ match w_position w with
     | AtRespond delivery _ _ _ => option_list (qd_response delivery)
     | _ => []
     end.

Record WorkerOK (w : worker) : Prop := {
  wo_bounded : depth w <= InteractionQueueSize;
  wo_flight : w_stopped w = false -> w_inFlight w = is_some (handling w);
  wo_head : forall delivery, w_stopped w = false -> handling w = Some delivery ->
            exists queue, w_queue w = delivery :: queue;
  wo_completing : w_stopped w = false -> w_completing w = true -> w_inFlight w = true /\ length (w_queue w) = 1%nat;
  wo_stopped : w_stopped w = true -> w_queue w = [] /\ w_cancelled w = true;
}.

(** Who has to answer a response channel. *)
Inductive owner := Publisher | Worker (wid : nat) | Nobody.

Record ChannelsOK (owners : nat -> owner) (s : System) : Prop := {
  co_fresh : forall channel, sys_channels s !! channel = None -> owners channel = Nobody;
  co_once : forall channel results, sys_channels s !! channel = Some results ->
            (length results <= 1)%nat /\ (owners channel <> Nobody -> results = []);
  co_transit : NoDup (omap (fun td => qd_response td.2) (sys_transit s))
            /\ forall channel, channel ∈ omap (fun td => qd_response td.2) (sys_transit s) -> owners channel = Publisher;
  co_workers : forall wid w, sys_heap s !! wid = Some w ->
            NoDup (owed w) /\ forall channel, channel ∈ owed w -> owners channel = Worker wid;
}.

(** An idle worker with work to do has been woken, or is about to be. *)
Definition woken (s : System) (wid : nat) (w : worker) : Prop :=
  w_position w = AtSelect -> w_queue w <> [] -> w_notify w = true \/ wid ∈ sys_waking s.

(** ** Lemmas *)

(** *** One worker *)

Lemma newWorker_ok key : WorkerOK (newWorker key).
Proof. by split. Qed.

Lemma enqueue_spec delivery w err w' :
  enqueue delivery w = (err, w') ->
  match err with
  | Some e => w' = w
  | None => w_stopped w = false /\ w_completing w = false /\ depth w < InteractionQueueSize
      /\ w' = mkWorker (w_key w) (w_cancelled w) (w_notify w) (w_queue w ++ [delivery]) (w_inFlight w)
                (w_completing w) (w_stopped w) (w_position w)
  end.
Proof.
  unfold enqueue. destruct (w_stopped w) eqn:Hs, (w_completing w) eqn:Hc; simpl; try by intros [= <- <-].
  destruct (Z.leb_spec InteractionQueueSize (depth w)); intros [= <- <-]; done.
Qed.

Lemma enqueue_ok delivery w w' : enqueue delivery w = (None, w') -> WorkerOK w -> WorkerOK w'.
Proof.
  intros (Hs & Hc & Hd & ->)%enqueue_spec [Hb Hf Hh Hco Hst]. split; cbn [w_stopped w_inFlight w_completing w_queue w_position w_cancelled] in *.
  - unfold depth in *. cbn [w_queue]. rewrite length_app. simpl. lia.
  - exact Hf.
  - intros d Hs' Hd'. destruct (Hh d Hs' Hd') as [queue ->]. by eexists.
  - congruence.
  - congruence.
Qed.

Lemma begin_spec w delivery w' :
  begin w = (Some delivery, w') ->
  w_stopped w = false /\ w_inFlight w = false /\ (exists queue, w_queue w = delivery :: queue)
  /\ w' = mkWorker (w_key w) (w_cancelled w) (w_notify w) (w_queue w) true (w_completing w) (w_stopped w) (w_position w).
Proof.
  unfold begin. destruct (w_queue w) as [|d queue] eqn:Hq; [done|].
  destruct (w_stopped w) eqn:Hs, (w_inFlight w) eqn:Hf; simpl; try done. intros [= <- <-].
  split_and!; try done. by eexists.
Qed.

Lemma begin_None w w' : begin w = (None, w') -> w' = w /\ (w_queue w = [] \/ w_stopped w || w_inFlight w = true).
Proof.
  unfold begin. destruct (w_queue w) as [|d queue]; [by intros [= <-]; auto|].
  destruct (w_stopped w || w_inFlight w); [by intros [= <-]; auto|done].
Qed.

Lemma set_position_ok p w :
  WorkerOK w -> (w_stopped w = false -> handling (set_position p w) = handling w) -> WorkerOK (set_position p w).
Proof.
  intros [Hb Hf Hh Hco Hst] Hp. split; try done.
  - intros Hs. rewrite (Hp Hs). by apply Hf.
  - intros d Hs. rewrite (Hp Hs). by apply Hh.
Qed.

Lemma begin_ok w delivery w' :
  w_position w = AtBegin -> begin w = (Some delivery, w') -> WorkerOK w ->
  WorkerOK (set_position (Delivering delivery) w').
Proof.
  intros Hp (Hs & Hi & (queue & Hq) & ->)%begin_spec [Hb Hf Hh Hco Hst].
  split; cbn [set_position w_stopped w_inFlight w_completing w_queue w_cancelled]; try done.
  - intros d _ [= <-]. by eexists.
  - intros _ Hc. destruct (Hco Hs Hc). congruence.
Qed.

Lemma finish_spec w delivery result err accepted stop w' :
  WorkerOK w -> w_position w = AtFinish delivery result err ->
  finish (sq_Sequence (qd_request delivery)) err w = ((accepted, stop), w') ->
  (w_stopped w = true /\ accepted = false /\ w' = w)
  \/ (w_stopped w = false /\ accepted = true /\ w_inFlight w = true
      /\ exists queue, w_queue w = delivery :: queue
      /\ w' = (if w_completing w
                then mkWorker (w_key w) true (w_notify w) [] false true true (w_position w)
                else mkWorker (w_key w) (w_cancelled w) (w_notify w) queue false false false (w_position w))
      /\ (w_completing w = true -> queue = [])).
Proof.
  intros [Hb Hf Hh Hco Hst] Hp. unfold finish. destruct (w_stopped w) eqn:Hs; [intros [= <- <- <-]; by left|].
  assert (Hhandling : handling w = Some delivery) by (unfold handling; by rewrite Hp).
  destruct (Hh delivery eq_refl Hhandling) as [queue Hq]. rewrite Hq, Z.eqb_refl. simpl.
  pose proof (Hf eq_refl) as Hfl. rewrite Hhandling in Hfl.
  destruct (w_completing w) eqn:Hc; intros [= <- <- <-]; right; split_and!; try done; exists queue; split_and!; try done.
  intros _. destruct (Hco eq_refl eq_refl) as [_ Hl]. rewrite Hq in Hl. by destruct queue.
Qed.

Lemma finish_ok w delivery result err accepted stop w' :
  WorkerOK w -> w_position w = AtFinish delivery result err ->
  finish (sq_Sequence (qd_request delivery)) err w = ((accepted, stop), w') ->
  WorkerOK (set_position (if accepted then AtRespond delivery result err stop else Returned) w').
Proof.
  intros Hok Hp Hfin. pose proof Hok as [Hb _ _ _ Hst].
  destruct (finish_spec _ _ _ _ _ _ _ Hok Hp Hfin) as [(Hs & -> & ->)|(Hs & -> & _ & queue & Hq & -> & Hc)].
  - apply set_position_ok; [done|congruence].
  - unfold depth in Hb. rewrite Hq in Hb. simpl in Hb.
    destruct (w_completing w); split; cbn; try done; unfold depth; cbn; lia.
Qed.

Lemma completeNoWait_spec w discarded w' :
  completeNoWait w = (discarded, w') -> WorkerOK w ->
  WorkerOK w' /\ w_queue w = w_queue w' ++ discarded /\ w_position w' = w_position w
  /\ w_notify w' = w_notify w.
Proof.
  unfold completeNoWait. intros H Hok. pose proof Hok as [Hb Hf Hh Hco Hst].
  destruct (w_stopped w) eqn:Hs; [injection H as <- <-; by rewrite app_nil_r|].
  destruct (w_completing w) eqn:Hc; [injection H as <- <-; by rewrite app_nil_r|].
  simpl in H. destruct (w_inFlight w) eqn:Hi; injection H as <- <-.
  - pose proof (Hf eq_refl) as Hfl. destruct (handling w) as [d|] eqn:Hd; [|done].
    destruct (Hh d eq_refl eq_refl) as [queue Hq]. rewrite Hq. split_and!; try done.
    split; cbn [w_stopped w_inFlight w_completing w_queue w_cancelled take].
    + unfold depth. cbn. done.
    + intros _. unfold handling in *. cbn [w_position]. by rewrite Hd.
    + intros d' _ Hd'. unfold handling in *. cbn [w_position] in Hd'. rewrite Hd in Hd'. injection Hd' as <-. by eexists.
    + done.
    + done.
  - split_and!; try done; by split.
Qed.

Lemma stopNoWait_spec w discarded w' :
  stopNoWait w = (discarded, w') -> WorkerOK w ->
  WorkerOK w' /\ w_queue w = w_queue w' ++ discarded /\ w_position w' = w_position w
  /\ w_notify w' = w_notify w.
Proof.
  unfold stopNoWait. intros H Hok. pose proof Hok as [Hb Hf Hh Hco Hst].
  destruct (w_stopped w) eqn:Hs; injection H as <- <-.
  - by rewrite app_nil_r.
  - split_and!; try done; by split.
Qed.

Lemma wake_ok notify w : WorkerOK w -> WorkerOK (set_notify notify w).
Proof. by intros []. Qed.

(** *** Response channels *)

Notation response_channels := (omap qd_response).

Lemma owed_queue w w' :
  w_position w' = w_position w -> forall queue, w_queue w = w_queue w' ++ queue ->
  owed w ≡ₚ owed w' ++ response_channels queue.
Proof.
  intros Hp queue Hq. unfold owed. rewrite Hp, Hq, omap_app.
  rewrite <- !app_assoc. apply Permutation_app_head. apply Permutation_app_comm.
Qed.

Lemma send_lookup channel r s channel' :
  sys_channels (send channel r s) !! channel'
  = if decide (channel = channel') then (fun rs => rs ++ [r]) <$> sys_channels s !! channel'
    else sys_channels s !! channel'.
Proof.
  unfold send. cbn [sys_channels]. case_decide as Hc; [subst; apply lookup_alter_eq|by apply lookup_alter_ne].
Qed.

Lemma reject_frame deliveries s :
  sys_broker (rejectDeliveries deliveries s) = sys_broker s
  /\ sys_heap (rejectDeliveries deliveries s) = sys_heap s
  /\ sys_transit (rejectDeliveries deliveries s) = sys_transit s
  /\ sys_waking (rejectDeliveries deliveries s) = sys_waking s
  /\ sys_failing (rejectDeliveries deliveries s) = sys_failing s.
Proof.
  unfold rejectDeliveries. revert s. induction deliveries as [|d ds IH]; intros s; [done|].
  simpl. destruct (qd_response d) as [channel|]; [|apply IH].
  destruct (IH (send channel (mkDeliveryResult (mkSessionInputResult EmptyString) (Some ErrSessionInvalidated)) s))
    as (-> & -> & -> & -> & ->). done.
Qed.

(** Rejecting deliveries answers each of their channels once, and no other. *)
Lemma reject_channels deliveries s channel :
  NoDup (response_channels deliveries) ->
  (channel ∉ response_channels deliveries ->
   sys_channels (rejectDeliveries deliveries s) !! channel = sys_channels s !! channel)
  /\ (channel ∈ response_channels deliveries ->
      exists r, sys_channels (rejectDeliveries deliveries s) !! channel = (fun rs => rs ++ [r]) <$> sys_channels s !! channel).
Proof.
  unfold rejectDeliveries. revert s. induction deliveries as [|d ds IH]; intros s Hnd; [split; [done|set_solver]|].
  simpl in *. destruct (qd_response d) as [channel'|]; [|by apply IH].
  apply NoDup_cons in Hnd as [Hn Hnd].
  destruct (IH (send channel' (mkDeliveryResult (mkSessionInputResult EmptyString) (Some ErrSessionInvalidated)) s) Hnd)
    as [IHn IHy].
  rewrite send_lookup in IHn, IHy. split.
  - intros [Hne Hnot]%not_elem_of_cons. rewrite (IHn Hnot). by rewrite decide_False.
  - intros [->|Hin]%elem_of_cons.
    + eexists. rewrite (IHn Hn). by rewrite decide_True.
    + destruct (IHy Hin) as [r' Hr']. exists r'. rewrite Hr'. rewrite decide_False; [done|]. by intros ->.
Qed.

(** A worker answers some of the channels it owes. *)
Lemma answer_ok owners s s' wid w w' channels :
  ChannelsOK owners s -> sys_heap s !! wid = Some w -> owed w ≡ₚ owed w' ++ channels ->
  sys_heap s' = <[wid := w']> (sys_heap s) -> sys_transit s' = sys_transit s ->
  (forall channel, channel ∉ channels -> sys_channels s' !! channel = sys_channels s !! channel) ->
  (forall channel, channel ∈ channels ->
     exists r, sys_channels s' !! channel = (fun rs => rs ++ [r]) <$> sys_channels s !! channel) ->
  exists owners', ChannelsOK owners' s'.
Proof.
  intros [Hf Ho [Ht Ht'] Hw] Hwid Howed Hheap Htransit Hsame Hanswer.
  destruct (Hw wid w Hwid) as [Hnd Hown]. rewrite Howed in Hnd. apply NoDup_app in Hnd as (Hnd' & Hdisj & Hndc).
  assert (Hown' : forall channel, channel ∈ channels -> owners channel = Worker wid).
  { intros channel Hc. apply Hown. rewrite Howed. apply elem_of_app. by right. }
  exists (fun channel => if decide (channel ∈ channels) then Nobody else owners channel). split.
  - intros channel Hn. case_decide as Hc; [done|]. apply Hf. by rewrite <- Hsame.
  - intros channel results Hr. case_decide as Hc.
    + destruct (Hanswer channel Hc) as [r Hr']. rewrite Hr' in Hr. apply fmap_Some in Hr as (results0 & Hr0 & ->).
      destruct (Ho channel results0 Hr0) as [_ He]. rewrite He by (by rewrite (Hown' channel Hc)). by split.
    + rewrite Hsame in Hr by done. by apply Ho.
  - rewrite Htransit. split; [done|]. intros channel Hc. rewrite decide_False; [by apply Ht'|].
    intros Hc'. specialize (Ht' channel Hc). by rewrite (Hown' channel Hc') in Ht'.
  - rewrite Hheap. intros wid0 w0 Hl. destruct (decide (wid0 = wid)) as [->|Hne].
    + rewrite lookup_insert_eq in Hl. injection Hl as <-. split; [done|].
      intros channel Hc. rewrite decide_False by (intros Hc'; by apply (Hdisj channel)).
      apply Hown. rewrite Howed. apply elem_of_app. by left.
    + rewrite lookup_insert_ne in Hl by done. destruct (Hw wid0 w0 Hl) as [Hnd0 Hown0]. split; [done|].
      intros channel Hc. rewrite decide_False; [by apply Hown0|].
      intros Hc'. specialize (Hown0 channel Hc). rewrite (Hown' channel Hc') in Hown0. congruence.
Qed.

(** Steps that answer nothing and keep what the worker owes. *)
Lemma keep_ok owners s s' wid w w' :
  ChannelsOK owners s -> sys_heap s !! wid = Some w -> owed w ≡ₚ owed w' ->
  sys_heap s' = <[wid := w']> (sys_heap s) -> sys_transit s' = sys_transit s ->
  sys_channels s' = sys_channels s -> exists owners', ChannelsOK owners' s'.
Proof.
  intros Hok Hw Howed Hh Ht Hc. apply (answer_ok owners s s' wid w w' []); try done.
  - by rewrite app_nil_r.
  - intros channel _. by rewrite Hc.
  - intros channel Hin. by apply elem_of_nil in Hin.
Qed.

(** Steps of the broker alone. *)
Lemma same_ok owners s s' :
  ChannelsOK owners s -> sys_heap s' = sys_heap s -> sys_transit s' = sys_transit s ->
  sys_channels s' = sys_channels s -> ChannelsOK owners s'.
Proof. intros [? ? ? ?] Hh Ht Hc. split; by rewrite ?Hh, ?Ht, ?Hc. Qed.

(** *** The invariant *)

Record Inv (trace : list label) (s : System) : Prop := {
  inv_workers : forall wid w, sys_heap s !! wid = Some w -> WorkerOK w;
  inv_channels : exists owners, ChannelsOK owners s;
  inv_woken : forall wid w, sys_heap s !! wid = Some w -> woken s wid w;
  inv_fifo : forall wid w, sys_heap s !! wid = Some w ->
    exists dropped, enqueued_to wid trace = begun_by wid trace ++ remaining w ++ dropped
    /\ (isUnavailable w = false -> dropped = []);
  inv_absent : forall wid, sys_heap s !! wid = None -> enqueued_to wid trace = [] /\ begun_by wid trace = [];
}.

Lemma initial_inv : Inv [] initial.
Proof.
  assert (He : forall wid, sys_heap initial !! wid = None) by (intros; apply lookup_empty).
  split; try (intros wid w; by rewrite He).
  - exists (fun _ => Nobody). split; [done| | |].
    + intros channel results Hr. change ((∅ : gmap nat (list deliveryResult)) !! channel = Some results) in Hr. by rewrite lookup_empty in Hr.
    + split; [constructor|]. intros channel Hin. by apply elem_of_nil in Hin.
    + intros wid w. by rewrite He.
  - done.
Qed.

Lemma enqueued_snoc wid trace l :
  enqueued_to wid (trace ++ [l]) = enqueued_to wid trace
    ++ match l with LEnqueued wid' d => if decide (wid' = wid) then [d] else [] | _ => [] end.
Proof. unfold enqueued_to. rewrite omap_app. f_equal. destruct l; simpl; try done. by case_decide. Qed.

Lemma begun_snoc wid trace l :
  begun_by wid (trace ++ [l]) = begun_by wid trace
    ++ match l with LBegun wid' d => if decide (wid' = wid) then [d] else [] | _ => [] end.
Proof. unfold begun_by. rewrite omap_app. f_equal. destruct l; simpl; try done. by case_decide. Qed.

(** An internal step that replaces one worker. *)
Lemma replace_inv trace s s' wid w w' :
  Inv trace s -> sys_heap s !! wid = Some w ->
  sys_heap s' = <[wid := w']> (sys_heap s) ->
  (forall wid0, wid0 <> wid -> wid0 ∈ sys_waking s -> wid0 ∈ sys_waking s') ->
  WorkerOK w' -> (exists owners, ChannelsOK owners s') -> woken s' wid w' ->
  (exists dropped, remaining w = remaining w' ++ dropped /\ (isUnavailable w' = false -> dropped = [])) ->
  (isUnavailable w' = false -> isUnavailable w = false) ->
  Inv (trace ++ [LInternal]) s'.
Proof.
  intros [Hw Hc Hk Hf Ha] Hwid Hheap Hwaking Hok Hc' Hwoken (dropped & Hrem & Hnone) Hav. split; [|done|..].
  - rewrite Hheap. intros wid0 w0 Hl. destruct (decide (wid0 = wid)) as [->|Hne].
    + rewrite lookup_insert_eq in Hl. by injection Hl as <-.
    + rewrite lookup_insert_ne in Hl by done. by apply (Hw wid0).
  - rewrite Hheap. intros wid0 w0 Hl. destruct (decide (wid0 = wid)) as [->|Hne].
    + rewrite lookup_insert_eq in Hl. by injection Hl as <-.
    + rewrite lookup_insert_ne in Hl by done. intros Hp Hq.
      destruct (Hk wid0 w0 Hl Hp Hq); [by left|right; by apply Hwaking].
  - rewrite Hheap. intros wid0 w0 Hl. rewrite enqueued_snoc, begun_snoc, !app_nil_r.
    destruct (decide (wid0 = wid)) as [->|Hne].
    + rewrite lookup_insert_eq in Hl. injection Hl as <-. destruct (Hf wid w Hwid) as (dropped0 & Heq & Hnone0).
      exists (dropped ++ dropped0). rewrite Heq, Hrem, <- app_assoc. split; [done|].
      intros Hu. by rewrite (Hnone Hu), (Hnone0 (Hav Hu)).
    + rewrite lookup_insert_ne in Hl by done. by apply Hf.
  - rewrite Hheap. intros wid0 Hl. rewrite enqueued_snoc, begun_snoc, !app_nil_r.
    apply Ha. destruct (decide (wid0 = wid)) as [->|Hne]; [by rewrite lookup_insert_eq in Hl|].
    by rewrite lookup_insert_ne in Hl.
Qed.

(** An internal step that changes no worker. *)
Lemma same_inv trace s s' :
  Inv trace s -> sys_heap s' = sys_heap s -> sys_waking s ⊆ sys_waking s' ->
  (exists owners, ChannelsOK owners s') -> Inv (trace ++ [LInternal]) s'.
Proof.
  intros [Hw Hc Hk Hf Ha] Hheap Hwaking Hc'. split; rewrite ?Hheap; try done.
  - intros wid w Hl Hp Hq. destruct (Hk wid w Hl Hp Hq); [by left|right; by apply Hwaking].
  - intros wid w Hl. rewrite enqueued_snoc, begun_snoc, !app_nil_r. by apply Hf.
  - intros wid Hl. rewrite enqueued_snoc, begun_snoc, !app_nil_r. by apply Ha.
Qed.

(** Internal steps compose. *)
Lemma inv_internal_drop trace s : Inv (trace ++ [LInternal]) s -> Inv trace s.
Proof.
  intros [Hw Hc Hk Hf Ha]. split; try done.
  - intros wid w Hl. destruct (Hf wid w Hl) as (dropped & Heq & Hn). rewrite enqueued_snoc, begun_snoc, !app_nil_r in Heq.
    by exists dropped.
  - intros wid Hl. specialize (Ha wid Hl). by rewrite enqueued_snoc, begun_snoc, !app_nil_r in Ha.
Qed.

(** *** Operations that discard deliveries *)

Definition Discards (op : worker -> list queuedDelivery * worker) : Prop :=
  forall w discarded w', op w = (discarded, w') -> WorkerOK w ->
  WorkerOK w' /\ w_queue w = w_queue w' ++ discarded /\ w_position w' = w_position w
  /\ w_notify w' = w_notify w
  /\ (exists dropped, remaining w = remaining w' ++ dropped)
  /\ (w' = w \/ isUnavailable w' = true).

Lemma stop_Discards : Discards stopNoWait.
Proof.
  intros w discarded w' H Hok. destruct (stopNoWait_spec w discarded w' H Hok) as (? & ? & ? & ?).
  split_and!; try done; unfold stopNoWait in H; destruct (w_stopped w); injection H as <- <-;
    try (by left); try (by right).
  - exists []. by rewrite app_nil_r.
  - exists (remaining w). unfold remaining at 2. cbn. by destruct (w_inFlight w).
Qed.

Lemma complete_Discards : Discards completeNoWait.
Proof.
  intros w discarded w' H Hok. destruct (completeNoWait_spec w discarded w' H Hok) as (? & ? & ? & ?).
  split_and!; try done; unfold completeNoWait in H;
    destruct (w_stopped w) eqn:Hs, (w_completing w) eqn:Hc; simpl in H; try injection H as <- <-;
    try (by left); try (exists []; by rewrite app_nil_r);
    destruct (w_inFlight w) eqn:Hi; injection H as <- <-; try (by right).
  - exists (remaining w). unfold remaining at 2. cbn. by destruct (w_queue w).
  - exists (remaining w). done.
Qed.

Lemma on_worker_frame op wid s :
  sys_broker (on_worker op wid s) = sys_broker s /\ sys_transit (on_worker op wid s) = sys_transit s
  /\ sys_waking (on_worker op wid s) = sys_waking s /\ sys_failing (on_worker op wid s) = sys_failing s
  /\ sys_heap (on_worker op wid s)
     = match sys_heap s !! wid with Some w => <[wid := (op w).2]> (sys_heap s) | None => sys_heap s end.
Proof.
  unfold on_worker. destruct (sys_heap s !! wid) as [w|]; [|done].
  destruct (op w) as [discarded w']. by destruct (reject_frame discarded (set_worker wid w' s)) as (-> & -> & -> & -> & ->).
Qed.

Lemma on_worker_inv op trace wid s : Discards op -> Inv trace s -> Inv trace (on_worker op wid s).
Proof.
  intros Hop Hinv. destruct (on_worker_frame op wid s) as (_ & Ht & Hwk & _ & Hh).
  destruct (sys_heap s !! wid) as [w|] eqn:Hwid; [|unfold on_worker in *; by rewrite Hwid in *].
  destruct (op w) as [discarded w'] eqn:Heq.
  destruct (Hop w discarded w' Heq (inv_workers _ _ Hinv wid w Hwid)) as (Hok & Hq & Hp & Hn & (dropped & Hrem) & Hu).
  apply inv_internal_drop. apply (replace_inv trace s _ wid w w'); try done.
  - by rewrite Hwk.
  - destruct (inv_channels _ _ Hinv) as [owners Hch].
    pose proof (owed_queue w w' Hp discarded Hq) as Howed.
    assert (Hnd : NoDup (response_channels discarded)).
    { destruct (co_workers _ _ Hch wid w Hwid) as [Hnd _]. rewrite Howed in Hnd. by apply NoDup_app in Hnd as (_ & _ & ?). }
    assert (Hdef : on_worker op wid s = rejectDeliveries discarded (set_worker wid w' s)).
    { unfold on_worker. by rewrite Hwid, Heq. }
    apply (answer_ok owners s _ wid w w' (response_channels discarded)); try done; rewrite Hdef; intros channel Hc.
    + by rewrite (proj1 (reject_channels discarded (set_worker wid w' s) channel Hnd) Hc).
    + by destruct (proj2 (reject_channels discarded (set_worker wid w' s) channel Hnd) Hc) as [r ->]; exists r.
  - intros Hpos Hne. rewrite Hn, Hwk. apply (inv_woken _ _ Hinv wid w Hwid); [congruence|].
    rewrite Hq. by destruct (w_queue w').
  - exists dropped. split; [done|]. intros Hav. destruct Hu as [->|Hu]; [|congruence].
    by apply (f_equal length) in Hrem; rewrite length_app in Hrem; destruct dropped; [|simpl in Hrem; lia].
  - intros Hav. destruct Hu as [->|Hu]; [done|congruence].
Qed.

Lemma stop_all_inv trace (workers : list (sessionKey * nat)) s :
  Inv trace s -> Inv trace (fold_left (fun s kw => stop_worker kw.2 s) workers s).
Proof.
  revert s. induction workers as [|kw kws IH]; intros s Hinv; [done|].
  simpl. apply IH. by apply on_worker_inv; [apply stop_Discards|].
Qed.

Lemma broker_inv trace b s : Inv trace s -> Inv trace (set_broker b s).
Proof.
  intros Hinv. apply inv_internal_drop. apply (same_inv trace s); try done.
  destruct (inv_channels _ _ Hinv) as [owners Hch]. exists owners. by apply (same_ok owners s).
Qed.

Lemma internal_inv trace s : Inv trace s -> Inv (trace ++ [LInternal]) s.
Proof. intros Hinv. apply (same_inv trace s); try done. apply Hinv. Qed.

Lemma fail_inv trace wid reason s : Inv trace s -> Inv trace (fail wid reason s).2.
Proof.
  intros Hinv. unfold fail. destruct (sys_heap s !! wid) as [w|] eqn:Hwid; [|done].
  destruct (negb _ || _); [done|]. simpl. by apply on_worker_inv, broker_inv; [apply stop_Discards|].
Qed.

Lemma failing_inv trace failing s : Inv trace s -> Inv trace (set_failing failing s).
Proof.
  intros Hinv. apply inv_internal_drop. apply (same_inv trace s); try done.
  destruct (inv_channels _ _ Hinv) as [owners Hch]. exists owners. by apply (same_ok owners s).
Qed.

(** *** Moves of one worker *)

(** A move of the goroutine that keeps queue and flags, and what is owed. *)
Lemma move_inv trace s wid w p notify :
  Inv trace s -> sys_heap s !! wid = Some w ->
  (w_stopped w = false -> handling (set_position p w) = handling w) ->
  owed w ≡ₚ owed (set_position p w) ->
  (p = AtSelect -> w_queue w = [] \/ (w_position w = AtSelect /\ notify = w_notify w)) ->
  Inv (trace ++ [LInternal]) (set_worker wid (set_position p (set_notify notify w)) s).
Proof.
  intros Hinv Hwid Hh Howed Hsel. pose proof (inv_workers _ _ Hinv wid w Hwid) as Hok.
  apply (replace_inv trace s _ wid w (set_position p (set_notify notify w))); try done.
  - by apply set_position_ok; [apply wake_ok|].
  - destruct (inv_channels _ _ Hinv) as [owners Hch]. apply (keep_ok owners s _ wid w (set_position p (set_notify notify w))); try done.
  - intros Hp Hq. simpl in Hp. destruct (Hsel Hp) as [He|[Hpos ->]]; [done|].
    by apply (inv_woken _ _ Hinv wid w Hwid).
  - exists []. by rewrite app_nil_r.
Qed.

Lemma move_inv' trace s wid w p :
  Inv trace s -> sys_heap s !! wid = Some w -> p <> AtSelect ->
  (w_stopped w = false -> handling (set_position p w) = handling w) ->
  owed w ≡ₚ owed (set_position p w) ->
  Inv (trace ++ [LInternal]) (set_worker wid (set_position p w) s).
Proof.
  intros Hinv Hwid Hp Hh Howed. pose proof (move_inv trace s wid w p (w_notify w) Hinv Hwid Hh Howed) as H.
  destruct w. by apply H.
Qed.

Lemma new_worker_inv trace key wid s :
  Inv trace s -> sys_heap s !! wid = None -> Inv trace (set_worker wid (newWorker key) s).
Proof.
  intros [Hw [owners Hc] Hk Hf Ha] Hwid.
  assert (Hl : forall wid0 w0, sys_heap (set_worker wid (newWorker key) s) !! wid0 = Some w0 ->
    (wid0 = wid /\ w0 = newWorker key) \/ sys_heap s !! wid0 = Some w0).
  { intros wid0 w0. cbn [set_worker sys_heap]. intros [[-> <-]|[_ ?]]%lookup_insert_Some; [by left|by right]. }
  split.
  - intros wid0 w0 [[-> ->]|H]%Hl; [apply newWorker_ok|by apply (Hw wid0)].
  - exists owners. destruct Hc as [? ? ? Hcw]. split; try done.
    intros wid0 w0 [[-> ->]|H]%Hl; [|by apply Hcw]. split; [constructor|].
    intros channel Hin. by apply elem_of_nil in Hin.
  - intros wid0 w0 [[-> ->]|H]%Hl; [by intros _ ?|by apply (Hk wid0)].
  - intros wid0 w0 [[-> ->]|H]%Hl; [|by apply Hf]. destruct (Ha wid Hwid) as [-> ->]. by exists [].
  - intros wid0 H. apply Ha. cbn [set_worker sys_heap] in H. by apply lookup_insert_None in H as [? _].
Qed.

Lemma transit_inv trace wid delivery s :
  Inv trace s -> (forall channel, qd_response delivery = Some channel -> sys_channels s !! channel = None) ->
  Inv trace (make_channel (qd_response delivery) (set_transit ((wid, delivery) :: sys_transit s) s)).
Proof.
  intros Hinv Hfresh. destruct (inv_channels _ _ Hinv) as [owners [Hf Ho [Ht Ht'] Hw]].
  apply inv_internal_drop. apply (same_inv trace s); try done; [by destruct (qd_response delivery)..|].
  destruct (qd_response delivery) as [channel|] eqn:Hr.
  - specialize (Hfresh channel eq_refl). pose proof (Hf channel Hfresh) as Hnobody.
    exists (fun c => if decide (c = channel) then Publisher else owners c).
    split; cbn [make_channel set_transit sys_channels sys_transit sys_heap omap list_omap snd].
    + intros c Hc. apply lookup_insert_None in Hc as [Hc Hne]. rewrite decide_False by done. by apply Hf.
    + intros c results [[<- <-]|[Hne Hc]]%lookup_insert_Some; [simpl; split; [lia|done]|].
      rewrite decide_False by done. by apply Ho.
    + rewrite Hr. split.
      * apply NoDup_cons. split; [|done]. intros Hin. specialize (Ht' channel Hin). congruence.
      * intros c [->|Hin]%elem_of_cons; [by rewrite decide_True|].
        case_decide; [done|]. by apply Ht'.
    + intros wid0 w0 Hl. destruct (Hw wid0 w0 Hl) as [Hnd Hown]. split; [done|].
      intros c Hc. rewrite decide_False; [by apply Hown|]. intros ->. specialize (Hown channel Hc). congruence.
  - exists owners. split; try done. cbn [make_channel set_transit sys_transit omap list_omap snd]. by rewrite Hr.
Qed.

Lemma publish_admit_spec target token input at_ response s wid delivery s' :
  publish_admit target token input at_ response s = inr (wid, delivery, s') ->
  qd_response delivery = response /\ sys_channels s' = sys_channels s /\ exists b,
  s' = set_broker b s
  \/ (exists key, sys_heap s !! wid = None /\ s' = set_worker wid (newWorker key) (set_broker b s)).
Proof.
  unfold publish_admit. destruct (b_closed _); [done|]. destruct (_ =s EmptyString); [done|].
  case_bool_decide; [done|].
  destruct (b_workers (sys_broker s) !! _) as [wid0|].
  - destruct (unavailable_at s wid0); [done|]. destruct (SessionInputRequest_Validate _); [done|].
    intros [= <- <- <-]. split_and!; try done. eexists. by left.
  - destruct (SessionInputRequest_Validate _); [done|]. intros [= <- <- <-]. split_and!; try done.
    eexists. right. eexists. split; [|done]. apply not_elem_of_dom, is_fresh.
Qed.

(** A delivery leaves the publishers. *)
Lemma untransit_channels owners s before wid delivery after :
  ChannelsOK owners s -> sys_transit s = before ++ (wid, delivery) :: after ->
  ChannelsOK owners (set_transit (before ++ after) s)
  /\ forall channel, qd_response delivery = Some channel ->
      owners channel = Publisher /\ channel ∉ omap (fun td => qd_response td.2) (before ++ after).
Proof.
  intros [Hf Ho [Ht Ht'] Hw] Htr. rewrite Htr, omap_app in Ht, Ht'. cbn [omap list_omap snd] in Ht, Ht'.
  destruct (qd_response delivery) as [channel|] eqn:Hr; cbn in Ht, Ht'.
  - apply NoDup_app in Ht as (Hb & Hd & [Hn Ha]%NoDup_cons). split.
    + split; try done. cbn [set_transit sys_transit]. rewrite omap_app. split.
      * apply NoDup_app. split_and!; try done. intros c Hc Hc'. apply (Hd c Hc). by right.
      * intros c Hc. apply Ht'. set_solver.
    + intros c [= <-]. split; [apply Ht'; set_solver|]. rewrite omap_app, not_elem_of_app. split; [|done].
      intros Hc. apply (Hd channel Hc). by left.
  - split; [|done]. split; try done. cbn [set_transit sys_transit]. by rewrite omap_app.
Qed.

(** *** Steps that hand deliveries over *)

Lemma remaining_enqueue delivery w w' :
  enqueue delivery w = (None, w') -> WorkerOK w -> remaining w' = remaining w ++ [delivery].
Proof.
  intros (Hs & _ & _ & ->)%enqueue_spec [_ Hf Hh _ _]. unfold remaining. cbn.
  destruct (w_inFlight w) eqn:Hi; [|done]. pose proof (Hf Hs) as Hfl.
  destruct (handling w) as [d|]; [|done]. by destruct (Hh d Hs eq_refl) as [queue ->].
Qed.

Lemma enqueue_channels s before wid delivery after w w' :
  (exists owners, ChannelsOK owners s) -> sys_transit s = before ++ (wid, delivery) :: after ->
  sys_heap s !! wid = Some w -> enqueue delivery w = (None, w') ->
  exists owners, ChannelsOK owners
    (set_waking (wid :: sys_waking s) (set_transit (before ++ after) (set_worker wid w' s))).
Proof.
  intros [owners Hch] Htr Hwid Henq.
  destruct (untransit_channels owners s before wid delivery after Hch Htr) as [[Hf Ho [Ht Ht'] Hw] Hout].
  cbn [set_transit sys_channels sys_transit sys_heap] in Hf, Ho, Ht, Ht', Hw.
  assert (Howed : owed w' ≡ₚ option_list (qd_response delivery) ++ owed w).
  { apply enqueue_spec in Henq as (_ & _ & _ & ->). unfold owed. cbn [w_queue w_position]. rewrite omap_app. simpl.
    destruct (qd_response delivery); cbn; [|by rewrite app_nil_r].
    rewrite <- app_assoc. simpl. by rewrite <- Permutation_middle. }
  exists (fun c => if decide (qd_response delivery = Some c) then Worker wid else owners c).
  split; cbn [set_waking set_transit set_worker sys_channels sys_transit sys_heap].
  - intros c Hc. case_decide as Hd; [|by apply Hf]. destruct (Hout c Hd) as [Hp _]. specialize (Hf c Hc). congruence.
  - intros c results Hc. destruct (Ho c results Hc) as [Hl He]. split; [done|].
    case_decide as Hd; [|done]. intros _. apply He. by destruct (Hout c Hd) as [-> _].
  - split; [done|]. intros c Hc. rewrite decide_False; [by apply Ht'|]. intros Hd. by destruct (Hout c Hd).
  - intros wid0 w0 [[<- <-]|[Hne Hl]]%lookup_insert_Some.
    + destruct (Hw wid w Hwid) as [Hnd Hown]. split.
      * rewrite Howed. destruct (qd_response delivery) as [c|]; [|done]. simpl. apply NoDup_cons. split; [|done].
        intros Hc. destruct (Hout c eq_refl) as [Hp _]. specialize (Hown c Hc). congruence.
      * intros c. rewrite Howed, elem_of_app. intros [Hc|Hc].
        -- rewrite decide_True; [done|]. destruct (qd_response delivery); [|by apply elem_of_nil in Hc].
           by apply list_elem_of_singleton in Hc as ->.
        -- case_decide; [done|by apply Hown].
    + destruct (Hw wid0 w0 Hl) as [Hnd Hown]. split; [done|]. intros c Hc. rewrite decide_False; [by apply Hown|].
      intros Hd. destruct (Hout c Hd) as [Hp _]. specialize (Hown c Hc). congruence.
Qed.

Lemma enqueue_inv trace s before wid delivery after w w' :
  Inv trace s -> sys_transit s = before ++ (wid, delivery) :: after ->
  sys_heap s !! wid = Some w -> enqueue delivery w = (None, w') ->
  Inv (trace ++ [LEnqueued wid delivery])
    (set_waking (wid :: sys_waking s) (set_transit (before ++ after) (set_worker wid w' s))).
Proof.
  intros [Hw Hc Hk Hf Ha] Htr Hwid Henq. pose proof (remaining_enqueue delivery w w' Henq (Hw wid w Hwid)) as Hrem.
  split; [| | | |].
  - intros wid0 w0. cbn. intros [[<- <-]|[_ Hl]]%lookup_insert_Some; [|by apply (Hw wid0)].
    apply (enqueue_ok delivery w); [done|by apply (Hw wid)].
  - by eapply enqueue_channels.
  - intros wid0 w0. cbn. intros [[<- <-]|[_ Hl]]%lookup_insert_Some Hp Hq; [right; by left|].
    destruct (Hk wid0 w0 Hl Hp Hq); [by left|right; by right].
  - intros wid0 w0. cbn. rewrite enqueued_snoc, begun_snoc, app_nil_r.
    intros [[<- <-]|[Hne Hl]]%lookup_insert_Some.
    + rewrite decide_True by done. destruct (Hf wid w Hwid) as (dropped & Heq & Hn).
      assert (dropped = []) as ->.
      { apply Hn. apply enqueue_spec in Henq as (Hs & Hco & _). unfold isUnavailable. by rewrite Hs, Hco. }
      exists []. rewrite Heq, Hrem, !app_nil_r. by rewrite app_assoc.
    + rewrite decide_False by done. rewrite app_nil_r. by apply Hf.
  - intros wid0. cbn. intros [Hl Hne]%lookup_insert_None.
    rewrite enqueued_snoc, begun_snoc, decide_False, !app_nil_r by done. by apply Ha.
Qed.

Lemma begin_inv trace s wid w delivery w' :
  Inv trace s -> sys_heap s !! wid = Some w -> w_position w = AtBegin -> begin w = (Some delivery, w') ->
  Inv (trace ++ [LBegun wid delivery]) (set_worker wid (set_position (Delivering delivery) w') s).
Proof.
  intros [Hw Hc Hk Hf Ha] Hwid Hp Hb. pose proof (begin_spec w delivery w' Hb) as (Hs & Hi & (queue & Hq) & Hw').
  split.
  - intros wid0 w0. cbn. intros [[<- <-]|[_ Hl]]%lookup_insert_Some; [|by apply (Hw wid0)].
    apply (begin_ok w); [done|done|by apply (Hw wid)].
  - destruct Hc as [owners Hch]. apply (keep_ok owners s _ wid w (set_position (Delivering delivery) w')); try done.
    unfold owed. rewrite Hp, Hw'. done.
  - intros wid0 w0. cbn. intros [[<- <-]|[_ Hl]]%lookup_insert_Some; [by intros ?|by apply (Hk wid0)].
  - intros wid0 w0. cbn. rewrite enqueued_snoc, begun_snoc, app_nil_r.
    intros [[<- <-]|[Hne Hl]]%lookup_insert_Some.
    + rewrite decide_True by done. destruct (Hf wid w Hwid) as (dropped & Heq & Hn). exists dropped.
      rewrite Heq, Hw'. unfold remaining. cbn. rewrite Hi, Hq. simpl. rewrite <- app_assoc. split; [done|].
      intros Hu. by apply Hn.
    + rewrite decide_False by done. rewrite app_nil_r. by apply Hf.
  - intros wid0. cbn. intros [Hl Hne]%lookup_insert_None.
    rewrite enqueued_snoc, begun_snoc, decide_False, !app_nil_r by done. by apply Ha.
Qed.

Lemma finish_inv trace s wid w delivery result err accepted stop w' :
  Inv trace s -> sys_heap s !! wid = Some w -> w_position w = AtFinish delivery result err ->
  finish (sq_Sequence (qd_request delivery)) err w = ((accepted, stop), w') ->
  Inv (trace ++ [LInternal])
    (set_worker wid (set_position (if accepted then AtRespond delivery result err stop else Returned) w') s).
Proof.
  intros Hinv Hwid Hp Hfin. pose proof (inv_workers _ _ Hinv wid w Hwid) as Hok.
  pose proof (finish_ok _ _ _ _ _ _ _ Hok Hp Hfin) as Hok'.
  destruct (inv_channels _ _ Hinv) as [owners Hch].
  destruct (finish_spec _ _ _ _ _ _ _ Hok Hp Hfin) as [(Hs & -> & ->)|(Hs & -> & Hi & queue & Hq & Hw' & Hc)].
  - apply (replace_inv trace s _ wid w (set_position Returned w)); try done.
    + apply (keep_ok owners s _ wid w (set_position Returned w)); try done. unfold owed. cbn. by rewrite Hp.
    + exists []. by rewrite app_nil_r.
  - apply (replace_inv trace s _ wid w (set_position (AtRespond delivery result err stop) w')); try done.
    + apply (keep_ok owners s _ wid w (set_position (AtRespond delivery result err stop) w')); try done.
      assert (Hq' : w_queue w' = queue) by (rewrite Hw'; destruct (w_completing w); [by rewrite Hc|done]).
      unfold owed. cbn. rewrite Hp, Hq, Hq'. simpl. destruct (qd_response delivery); cbn; rewrite ?app_nil_r; [|done].
      apply Permutation_cons_append.
    + exists []. rewrite app_nil_r. split; [|done]. unfold remaining. cbn. rewrite Hi, Hq, Hw'.
      destruct (w_completing w); simpl; [by apply Hc|done].
    + rewrite Hw'. unfold isUnavailable. destruct (w_completing w); cbn; [done|]. by rewrite Hs.
Qed.

Lemma respond_inv trace s wid w delivery result err stop p :
  Inv trace s -> sys_heap s !! wid = Some w -> w_position w = AtRespond delivery result err stop ->
  handling (set_position p w) = None -> (forall d r e b, p <> AtRespond d r e b) -> p <> AtSelect ->
  Inv (trace ++ [LInternal])
    (set_worker wid (set_position p w)
       (match qd_response delivery with
        | Some channel => send channel (mkDeliveryResult result err) s
        | None => s
        end)).
Proof.
  intros Hinv Hwid Hp Hh Hne Hns. pose proof (inv_workers _ _ Hinv wid w Hwid) as Hok.
  set (s1 := match qd_response delivery with Some channel => _ | None => s end).
  assert (Hheap : sys_heap s1 = sys_heap s) by (unfold s1; by destruct (qd_response delivery)).
  assert (Hwaking : sys_waking s1 = sys_waking s) by (unfold s1; by destruct (qd_response delivery)).
  assert (Htransit : sys_transit s1 = sys_transit s) by (unfold s1; by destruct (qd_response delivery)).
  apply (replace_inv trace s _ wid w (set_position p w)); try done.
  - cbn. by rewrite Hheap.
  - cbn. by rewrite Hwaking.
  - apply set_position_ok; [done|]. intros _. rewrite Hh. unfold handling. by rewrite Hp.
  - destruct (inv_channels _ _ Hinv) as [owners Hch].
    apply (answer_ok owners s _ wid w (set_position p w) (option_list (qd_response delivery))); try done.
    + unfold owed. cbn. rewrite Hp. destruct p; rewrite ?app_nil_r; try done. by destruct (Hne delivery0 result0 err0 stop0).
    + cbn. by rewrite Hheap.
    + intros channel Hc. cbn. unfold s1. destruct (qd_response delivery) as [channel'|]; [|done].
      rewrite send_lookup, decide_False; [done|]. intros ->. apply Hc. by left.
    + intros channel Hc. cbn. unfold s1. destruct (qd_response delivery) as [channel'|]; [|by apply elem_of_nil in Hc].
      apply list_elem_of_singleton in Hc as ->. eexists. by rewrite send_lookup, decide_True.
  - by intros ?.
  - exists []. by rewrite app_nil_r.
Qed.

Lemma fail_position wid reason s w :
  sys_heap s !! wid = Some w ->
  exists w', sys_heap (fail wid reason s).2 !! wid = Some w' /\ w_position w' = w_position w.
Proof.
  intros Hwid. unfold fail. rewrite Hwid. destruct (negb _ || _); [by exists w|]. cbn [snd]. unfold stop_worker.
  set (b := mkBroker _ _ _ _ _ _).
  destruct (on_worker_frame stopNoWait wid (set_broker b s)) as (_ & _ & _ & _ & ->).
  cbn [set_broker sys_heap]. rewrite Hwid, lookup_insert_eq. eexists. split; [done|].
  unfold stopNoWait. by destruct (w_stopped w).
Qed.

Lemma step_inv trace s l s' : Inv trace s -> step s l s' -> Inv (trace ++ [l]) s'.
Proof.
  intros Hinv Hstep. destruct Hstep as [s target token input at_ response wid delivery s' Hfresh Hadm
    |s before wid delivery after w w' Htr Hwid Henq|s before wid delivery after w err w' Htr Hwid Henq
    |s before wid after w Hwk Hwid|s before wid delivery after Hfl|s values|s pluginID target token
    |s pluginID target token|s|s wid w Hwid Hp Hcan|s wid w Hwid Hp Hn|s wid w delivery w' Hwid Hp Hb
    |s wid w w' Hwid Hp Hb|s wid w delivery result err Hwid Hp|s wid w delivery result err accepted stop w' Hwid Hp Hfin
    |s wid w delivery result err stop Hwid Hp|s wid w delivery err Hwid Hp|s wid w Hwid Hp].
  - apply internal_inv. destruct (publish_admit_spec _ _ _ _ _ _ _ _ _ Hadm) as (Hr & Hch & b & Hs').
    rewrite <- Hr in Hfresh. rewrite <- Hr. apply transit_inv; [|intros channel Hc; rewrite Hch; by apply Hfresh].
    destruct Hs' as [->|(key & Hnone & ->)]; [by apply broker_inv|].
    by apply new_worker_inv; [apply broker_inv|].
  - by eapply enqueue_inv.
  - apply (same_inv trace s); try done. destruct (inv_channels _ _ Hinv) as [owners Hch]. exists owners.
    eapply same_ok; [by eapply untransit_channels|done..].
  - apply (replace_inv trace s _ wid w (wake w)); try done.
    + cbn. intros wid0 Hne. rewrite Hwk. set_solver.
    + by apply wake_ok, (inv_workers _ _ Hinv wid).
    + destruct (inv_channels _ _ Hinv) as [owners Hch]. by apply (keep_ok owners s _ wid w (wake w)).
    + intros _ _. by left.
    + exists []. by rewrite app_nil_r.
  - by apply internal_inv, fail_inv, failing_inv.
  - apply internal_inv. unfold Apply. destruct (b_closed _); [done|]. by apply broker_inv, stop_all_inv.
  - apply internal_inv. unfold Cancel. apply broker_inv. destruct (_ !! _); [|done].
    by apply on_worker_inv; [apply stop_Discards|].
  - apply internal_inv. unfold Complete. apply broker_inv. destruct (_ !! _); [|done].
    by apply on_worker_inv; [apply complete_Discards|].
  - apply internal_inv. unfold Close. destruct (b_closed _); [done|]. by apply broker_inv, stop_all_inv.
  - apply move_inv'; try done; [intros _|]; unfold handling, owed; cbn; by rewrite Hp.
  - apply move_inv; try done; [intros _|]; unfold handling, owed; cbn; by rewrite Hp.
  - by eapply begin_inv.
  - apply begin_None in Hb as [-> Hb].
    assert (Hq : w_queue w = []).
    { destruct Hb as [|Hb]; [done|]. destruct (inv_workers _ _ Hinv wid w Hwid) as [_ Hf _ _ Hst].
      destruct (w_stopped w) eqn:Hs; [by apply Hst|]. simpl in Hb. rewrite (Hf eq_refl) in Hb.
      unfold handling in Hb. by rewrite Hp in Hb. }
    pose proof (move_inv trace s wid w AtSelect (w_notify w) Hinv Hwid) as Hm. destruct w. cbn in *. apply Hm.
    + intros _. unfold handling. cbn. by rewrite Hp.
    + unfold owed. cbn. by rewrite Hp.
    + by left.
  - apply move_inv'; try done; [intros _|]; unfold handling, owed; cbn; by rewrite Hp.
  - by eapply finish_inv.
  - eapply respond_inv; try done; destruct err, stop; done.
  - unfold move. destruct (fail_position wid FailureDelivery s w Hwid) as (w' & Hw' & Hp').
    rewrite Hw'. apply move_inv'; [by apply fail_inv|done|done|intros _|]; unfold handling, owed; cbn; by rewrite Hp', Hp.
  - unfold retire. apply move_inv'; [by apply broker_inv|done|done|intros _|]; unfold handling, owed; cbn; by rewrite Hp.
Qed.

Lemma steps_inv trace s : steps trace s -> Inv trace s.
Proof. induction 1; [apply initial_inv|by eapply step_inv]. Qed.
