(* ===== verification/EventBusSessions.v ===== *)
(** * Sessions of the input broker

    The theorems about [EventBus], for every interleaving of publishers, broker
    operations and worker goroutines: delivery in exact order, one response per
    waiting publisher, no stranded input, and delivery to the addressed session
    only. The first part is a second invariant, on the life of a worker from its
    creation to the end of [runWorker]. *)

From Stdlib Require Import ZArith Lia ZifyBool.
From S2P Require Import Prelude GoStrings GoTime Identifier Protocol ProtocolSession EventBus.

(** ** Specification *)

Definition answered (s : System) (channel : nat) : Prop :=
  exists r, sys_channels s !! channel = Some [r].

Definition ended (w : worker) : Prop := w_position w = Returned \/ w_position w = Exited.

(** The delivery is a valid request of the session the worker serves. *)
Definition addressed (delivery : queuedDelivery) (w : worker) : Prop :=
  let request := qd_request delivery in
  SessionInputRequest_Validate request = None
  /\ sk_instanceID (w_key w) = ref_ID (sq_Instance request)
  /\ sk_generation (w_key w) = ref_Generation (sq_Instance request)
  /\ sk_token (w_key w) = sq_SessionToken request.

(** A goroutine ends only after its worker was stopped. *)
Record Alive (w : worker) : Prop := {
  al_cancelled : w_cancelled w = true -> w_stopped w = true;
  al_ended : ended w -> w_stopped w = true;
  al_stop : forall delivery result, w_position w = AtRespond delivery result None true -> w_stopped w = true;
}.

(** [workers] holds exactly the workers whose goroutine has not ended. *)
Record Life (s : System) : Prop := {
  lf_alive : forall wid w, sys_heap s !! wid = Some w -> Alive w;
  lf_registered : forall wid w, sys_heap s !! wid = Some w -> w_position w <> Exited ->
    b_workers (sys_broker s) !! w_key w = Some wid;
  lf_table : forall key wid, b_workers (sys_broker s) !! key = Some wid ->
    exists w, sys_heap s !! wid = Some w /\ w_key w = key;
}.

(** What a later state keeps of an earlier one. *)
Record Evolves (s s' : System) : Prop := {
  ev_worker : forall wid w, sys_heap s !! wid = Some w -> exists w', sys_heap s' !! wid = Some w'
    /\ w_key w' = w_key w /\ forall channel, channel ∈ owed w -> channel ∈ owed w' \/ answered s' channel;
  ev_answered : forall channel, answered s channel -> answered s' channel;
}.

(** ** Lemmas *)

(** *** The life of a worker *)

Lemma life_replace s s' wid w w' :
  Life s -> sys_heap s !! wid = Some w -> sys_heap s' = <[wid := w']> (sys_heap s) ->
  b_workers (sys_broker s') = b_workers (sys_broker s) -> w_key w' = w_key w ->
  (w_position w = Exited -> w_position w' = Exited) -> Alive w' -> Life s'.
Proof.
  intros [Ha Hr Ht] Hwid Hh Hb Hk Hp Hw'. split; rewrite Hh, ?Hb.
  - intros wid0 w0 [[<- <-]|[_ Hl]]%lookup_insert_Some; [done|by apply (Ha wid0)].
  - intros wid0 w0 [[<- <-]|[_ Hl]]%lookup_insert_Some Hne; [|by apply Hr].
    rewrite Hk. apply Hr; [done|]. intros He. by apply Hne, Hp.
  - intros key wid0 Hl. destruct (Ht key wid0 Hl) as (w0 & Hw0 & <-).
    destruct (decide (wid0 = wid)) as [->|Hne].
    + exists w'. rewrite lookup_insert_eq. split; [done|]. congruence.
    + exists w0. by rewrite lookup_insert_ne.
Qed.

Lemma life_same s s' :
  Life s -> sys_heap s' = sys_heap s -> b_workers (sys_broker s') = b_workers (sys_broker s) -> Life s'.
Proof. intros [Ha Hr Ht] Hh Hb. by split; rewrite ?Hh, ?Hb. Qed.

(** Positions without a condition of their own. *)
Lemma alive_move p w :
  Alive w -> (p = Returned \/ p = Exited -> w_stopped w = true) ->
  (forall delivery result, p = AtRespond delivery result None true -> w_stopped w = true) ->
  Alive (set_position p w).
Proof. intros [Hc _ _] He Hr. by split. Qed.

Lemma alive_op op w :
  op = stopNoWait \/ op = completeNoWait -> Alive w -> Alive (op w).2.
Proof.
  intros [-> | ->] [Hc He Hs]; unfold stopNoWait, completeNoWait;
    destruct (w_stopped w) eqn:Hst; simpl; try (by split; rewrite ?Hst).
  destruct (w_completing w); [by split; simpl; rewrite ?Hst|].
  destruct (w_inFlight w); [|by split]. by split; cbn; rewrite ?Hst in *.
Qed.

Lemma op_frame op w :
  op = stopNoWait \/ op = completeNoWait ->
  w_key (op w).2 = w_key w /\ w_position (op w).2 = w_position w.
Proof.
  intros [-> | ->]; unfold stopNoWait, completeNoWait; [by destruct (w_stopped w)|].
  by destruct (w_stopped w || w_completing w); [|destruct (w_inFlight w)].
Qed.

Lemma on_worker_life op wid s :
  op = stopNoWait \/ op = completeNoWait -> Life s -> Life (on_worker op wid s).
Proof.
  intros Hop Hl. destruct (on_worker_frame op wid s) as (Hb & _ & _ & _ & Hh).
  destruct (sys_heap s !! wid) as [w|] eqn:Hwid; [|unfold on_worker; by rewrite Hwid].
  destruct (op_frame op w Hop) as [Hk Hp].
  apply (life_replace s _ wid w (op w).2); try done; [by rewrite Hb|congruence|].
  apply alive_op; [done|by apply (lf_alive _ Hl wid)].
Qed.

Lemma stop_all_life (workers : list (sessionKey * nat)) s :
  Life s -> Life (fold_left (fun s kw => stop_worker kw.2 s) workers s).
Proof.
  revert s. induction workers as [|kw kws IH]; intros s Hl; [done|]. simpl. apply IH, on_worker_life; [by left|done].
Qed.

Lemma stop_all_broker (workers : list (sessionKey * nat)) s :
  sys_broker (fold_left (fun s kw => stop_worker kw.2 s) workers s) = sys_broker s.
Proof.
  revert s. induction workers as [|kw kws IH]; intros s; [done|]. simpl. rewrite IH. apply on_worker_frame.
Qed.

Lemma fail_life wid reason s : Life s -> Life (fail wid reason s).2.
Proof.
  intros Hl. unfold fail. destruct (sys_heap s !! wid); [|done]. destruct (negb _ || _); [done|].
  apply on_worker_life; [by left|]. by apply (life_same s).
Qed.

(** A failed worker is stopped: [complete] finds it registered and available. *)
Lemma fail_stops trace s wid w delivery err :
  Inv trace s -> Life s -> sys_heap s !! wid = Some w -> w_position w = AtComplete delivery err ->
  exists w', sys_heap (fail wid FailureDelivery s).2 !! wid = Some w' /\ w_stopped w' = true.
Proof.
  intros Hinv Hl Hwid Hp. unfold fail. rewrite Hwid.
  rewrite bool_decide_eq_true_2 by (apply (lf_registered _ Hl wid w Hwid); by rewrite Hp). cbn [negb orb].
  pose proof (inv_workers _ _ Hinv wid w Hwid) as [_ Hf _ Hco _].
  destruct (isUnavailable w) eqn:Hu.
  - exists w. split; [done|]. unfold isUnavailable in Hu. destruct (w_stopped w); [done|].
    destruct (Hco eq_refl Hu) as [Hi _]. rewrite (Hf eq_refl) in Hi. unfold handling in Hi. by rewrite Hp in Hi.
  - cbn [snd]. unfold stop_worker. set (b := mkBroker _ _ _ _ _ _).
    destruct (on_worker_frame stopNoWait wid (set_broker b s)) as (_ & _ & _ & _ & ->).
    cbn [set_broker sys_heap]. rewrite Hwid, lookup_insert_eq. eexists. split; [done|].
    unfold stopNoWait. by destruct (w_stopped w) eqn:Hs.
Qed.

Lemma move_life s wid w p notify :
  Life s -> sys_heap s !! wid = Some w -> w_position w <> Exited -> (p = Returned \/ p = Exited -> w_stopped w = true) ->
  (forall delivery result, p = AtRespond delivery result None true -> w_stopped w = true) ->
  Life (set_worker wid (set_position p (set_notify notify w)) s).
Proof.
  intros Hl Hwid Hne Hp Hr. apply (life_replace s _ wid w (set_position p (set_notify notify w))); try done.
  apply alive_move; [|done..]. by destruct (lf_alive _ Hl wid w Hwid).
Qed.

Lemma move_life' s wid w p :
  Life s -> sys_heap s !! wid = Some w -> w_position w <> Exited -> (p = Returned \/ p = Exited -> w_stopped w = true) ->
  (forall delivery result, p = AtRespond delivery result None true -> w_stopped w = true) ->
  Life (set_worker wid (set_position p w) s).
Proof. intros Hl Hwid Hne Hp Hr. pose proof (move_life s wid w p (w_notify w) Hl Hwid Hne Hp Hr) as H. by destruct w. Qed.

Lemma publish_admit_table target token input at_ response s wid delivery s' :
  publish_admit target token input at_ response s = inr (wid, delivery, s') ->
  exists key, SessionInputRequest_Validate (qd_request delivery) = None
  /\ sk_instanceID key = ref_ID (sq_Instance (qd_request delivery))
  /\ sk_generation key = ref_Generation (sq_Instance (qd_request delivery))
  /\ sk_token key = sq_SessionToken (qd_request delivery)
  /\ ((b_workers (sys_broker s) !! key = Some wid /\ sys_heap s' = sys_heap s
       /\ b_workers (sys_broker s') = b_workers (sys_broker s))
      \/ (b_workers (sys_broker s) !! key = None /\ sys_heap s !! wid = None
          /\ sys_heap s' = <[wid := newWorker key]> (sys_heap s)
          /\ b_workers (sys_broker s') = <[key := wid]> (b_workers (sys_broker s)))).
Proof.
  unfold publish_admit. destruct (b_closed _); [done|]. destruct (_ =s EmptyString); [done|].
  case_bool_decide; [done|]. set (key := mkSessionKey _ _ _ _).
  destruct (b_workers (sys_broker s) !! key) as [wid0|] eqn:Hkey.
  - destruct (unavailable_at s wid0); [done|]. destruct (SessionInputRequest_Validate _) eqn:Hv; [done|].
    intros [= <- <- <-]. exists key. split_and!; try done. by left.
  - destruct (SessionInputRequest_Validate _) eqn:Hv; [done|]. intros [= <- <- <-]. exists key.
    split_and!; try done. right. split_and!; try done. apply not_elem_of_dom, is_fresh.
Qed.

Lemma new_worker_life s s' key wid :
  Life s -> b_workers (sys_broker s) !! key = None -> sys_heap s !! wid = None ->
  sys_heap s' = <[wid := newWorker key]> (sys_heap s) ->
  b_workers (sys_broker s') = <[key := wid]> (b_workers (sys_broker s)) -> Life s'.
Proof.
  intros [Ha Hr Ht] Hkey Hwid Hh Hb. split; rewrite Hh, ?Hb.
  - intros wid0 w0 [[<- <-]|[_ Hl]]%lookup_insert_Some; [|by apply (Ha wid0)].
    split; [done| |done]. by intros [?|?].
  - intros wid0 w0 [[<- <-]|[_ Hl]]%lookup_insert_Some Hne; [by rewrite lookup_insert_eq|].
    pose proof (Hr wid0 w0 Hl Hne) as Hreg. rewrite lookup_insert_ne; [done|]. congruence.
  - intros key0 wid0 [[<- <-]|[_ Hl]]%lookup_insert_Some; [exists (newWorker key); by rewrite lookup_insert_eq|].
    destruct (Ht key0 wid0 Hl) as (w0 & Hw0 & <-). exists w0. rewrite lookup_insert_ne; [done|]. congruence.
Qed.

Lemma retire_life s wid w :
  Life s -> sys_heap s !! wid = Some w -> w_position w = Returned -> Life (retire wid w s).
Proof.
  intros Hl Hwid Hp. pose proof Hl as [Ha Hr Ht]. pose proof (Hr wid w Hwid ltac:(by rewrite Hp)) as Hreg.
  unfold retire. rewrite bool_decide_eq_true_2 by done. split; cbn [set_worker set_broker sys_heap sys_broker b_workers].
  - intros wid0 w0 [[<- <-]|[_ Hw0]]%lookup_insert_Some; [|by apply (Ha wid0)].
    apply alive_move; [by apply (Ha wid)|intros _; apply (al_ended w (Ha wid w Hwid)); by left|done].
  - intros wid0 w0 [[<- <-]|[Hne Hw0]]%lookup_insert_Some Hne0; [done|].
    pose proof (Hr wid0 w0 Hw0 Hne0) as Hreg0. rewrite lookup_delete_ne; [done|]. congruence.
  - intros key wid0 [Hne Hl0]%lookup_delete_Some. destruct (Ht key wid0 Hl0) as (w0 & Hw0 & <-).
    destruct (decide (wid0 = wid)) as [->|Hne']; [congruence|]. exists w0. by rewrite lookup_insert_ne.
Qed.

Lemma finish_life trace s wid w delivery result err accepted stop w' :
  Inv trace s -> Life s -> sys_heap s !! wid = Some w -> w_position w = AtFinish delivery result err ->
  finish (sq_Sequence (qd_request delivery)) err w = ((accepted, stop), w') ->
  Life (set_worker wid (set_position (if accepted then AtRespond delivery result err stop else Returned) w') s).
Proof.
  intros Hinv Hl Hwid Hp Hfin. pose proof (inv_workers _ _ Hinv wid w Hwid) as Hok.
  pose proof (lf_alive _ Hl wid w Hwid) as Hal.
  destruct (finish_spec _ _ _ _ _ _ _ Hok Hp Hfin) as [(Hs & -> & ->)|(Hs & -> & Hi & queue & Hq & Hw' & Hc)].
  - apply move_life'; try done. by rewrite Hp.
  - apply (life_replace s _ wid w (set_position (AtRespond delivery result err stop) w')); try done.
    + rewrite Hw'. by destruct (w_completing w).
    + by rewrite Hp.
    + unfold finish in Hfin. rewrite Hs, Hq, Z.eqb_refl in Hfin. simpl in Hfin. destruct Hal as [Hca _ _].
      destruct (w_completing w); injection Hfin as Hst <-; split; simpl; try done; try (by intros [?|?]).
      * intros Ht. specialize (Hca Ht). congruence.
      * intros d r [= _ _ -> Heq]. by subst stop.
Qed.

Lemma step_life trace s l s' : Inv trace s -> Life s -> step s l s' -> Life s'.
Proof.
  intros Hinv Hl Hstep. destruct Hstep as [s target token input at_ response wid delivery s' Hfresh Hadm
    |s before wid delivery after w w' Htr Hwid Henq|s before wid delivery after w err w' Htr Hwid Henq
    |s before wid after w Hwk Hwid|s before wid delivery after Hfl|s values|s pluginID target token
    |s pluginID target token|s|s wid w Hwid Hp Hcan|s wid w Hwid Hp Hn|s wid w delivery w' Hwid Hp Hb
    |s wid w w' Hwid Hp Hb|s wid w delivery result err Hwid Hp|s wid w delivery result err accepted stop w' Hwid Hp Hfin
    |s wid w delivery result err stop Hwid Hp|s wid w delivery err Hwid Hp|s wid w Hwid Hp].
  - apply (life_same s'); [|by destruct response..].
    destruct (publish_admit_table _ _ _ _ _ _ _ _ _ Hadm) as (key & _ & _ & _ & _ & [(_ & Hh & Hb)|(Hk & Hn & Hh & Hb)]);
      [by apply (life_same s)|by apply (new_worker_life s _ key wid)].
  - apply (life_replace s _ wid w w'); try done; apply enqueue_spec in Henq as (_ & _ & _ & ->); try done.
    by destruct (lf_alive _ Hl wid w Hwid) as [? ? ?].
  - by apply (life_same s).
  - apply (life_replace s _ wid w (wake w)); try done. by destruct (lf_alive _ Hl wid w Hwid).
  - by apply fail_life, (life_same s).
  - unfold Apply. destruct (b_closed _); [done|].
    by eapply life_same; [by apply stop_all_life| |cbn; by rewrite stop_all_broker].
  - unfold Cancel. destruct (_ !! _) as [wid|]; [|by apply (life_same s)].
    by apply (life_same (stop_worker wid s)); [apply on_worker_life; [left|]|..].
  - unfold Complete. destruct (_ !! _) as [wid|]; [|by apply (life_same s)].
    by apply (life_same (complete_worker wid s)); [apply on_worker_life; [right|]|..].
  - unfold Close. destruct (b_closed _); [done|].
    by eapply life_same; [by apply stop_all_life| |cbn; by rewrite stop_all_broker].
  - apply move_life'; try done; [by rewrite Hp|]. intros _. by apply (al_cancelled w (lf_alive _ Hl wid w Hwid)).
  - apply move_life; try done; [by rewrite Hp|by intros [?|?]].
  - apply (life_replace s _ wid w (set_position (Delivering delivery) w')); try done;
      apply begin_spec in Hb as (_ & _ & _ & ->); try done; [by rewrite Hp|].
    destruct (lf_alive _ Hl wid w Hwid) as [? _ _]. split; [done|by intros [?|?]|done].
  - apply begin_None in Hb as [-> _]. apply move_life'; try done; [by rewrite Hp|by intros [?|?]].
  - apply move_life'; try done; [by rewrite Hp|by intros [?|?]].
  - by eapply finish_life.
  - set (s1 := match qd_response delivery with Some channel => _ | None => s end).
    assert (sys_heap s1 = sys_heap s) as Hh by (unfold s1; by destruct (qd_response delivery)).
    apply move_life'; [by apply (life_same s); unfold s1; destruct (qd_response delivery)|by rewrite Hh|by rewrite Hp|..].
    + intros He. destruct err; [by destruct He|]. destruct stop; [|by destruct He].
      by eapply (al_stop w (lf_alive _ Hl wid w Hwid)).
    + by destruct err, stop.
  - destruct (fail_stops trace s wid w delivery err Hinv Hl Hwid Hp) as (w' & Hw' & Hs).
    destruct (fail_position wid FailureDelivery s w Hwid) as (w'' & Hw'' & Hp''). simplify_eq.
    unfold move. rewrite Hw'. apply move_life'; [by apply fail_life|done|by rewrite Hp'', Hp|done|done].
  - by apply retire_life.
Qed.

Lemma steps_life trace s : steps trace s -> Life s.
Proof.
  induction 1 as [|trace s l s' Hs IH Hstep].
  - split; intros *; try (change (sys_heap initial) with (∅ : gmap nat worker); by rewrite lookup_empty).
  - eapply step_life; [by apply steps_inv|done..].
Qed.

(** *** What a step keeps *)

Lemma evolves_refl s : Evolves s s.
Proof. split; [|done]. intros wid w Hw. exists w. split_and!; try done. intros channel Hc. by left. Qed.

Lemma evolves_trans s s' s'' : Evolves s s' -> Evolves s' s'' -> Evolves s s''.
Proof.
  intros [Hw Ha] [Hw' Ha']. split; [|by auto]. intros wid w Hl.
  destruct (Hw wid w Hl) as (w1 & Hl1 & Hk1 & Hc1). destruct (Hw' wid w1 Hl1) as (w2 & Hl2 & Hk2 & Hc2).
  exists w2. split_and!; [done|congruence|]. intros channel Hc. destruct (Hc1 channel Hc) as [Hc'|Hc']; [by apply Hc2|].
  right. by apply Ha'.
Qed.

Lemma evolves_same s s' : sys_heap s' = sys_heap s -> sys_channels s' = sys_channels s -> Evolves s s'.
Proof.
  intros Hh Hc. split; rewrite ?Hh; unfold answered; rewrite ?Hc; [|done].
  intros wid w Hw. exists w. split_and!; try done. intros channel Hin. by left.
Qed.

(** A step that answers [channels] and nothing else. *)
Lemma evolves_answer trace s s' wid w w' (channels : list nat) :
  Inv trace s -> sys_heap s !! wid = Some w -> sys_heap s' = <[wid := w']> (sys_heap s) -> w_key w' = w_key w ->
  (forall channel, channel ∈ owed w -> channel ∈ owed w' \/ channel ∈ channels) ->
  (forall channel, channel ∈ channels -> channel ∈ owed w) ->
  (forall channel, channel ∉ channels -> sys_channels s' !! channel = sys_channels s !! channel) ->
  (forall channel, channel ∈ channels ->
     exists r, sys_channels s' !! channel = (fun rs => rs ++ [r]) <$> sys_channels s !! channel) ->
  Evolves s s'.
Proof.
  intros Hinv Hwid Hh Hk Howed Hsub Hsame Hanswer. destruct (inv_channels _ _ Hinv) as [owners [Hf Ho _ Hw]].
  destruct (Hw wid w Hwid) as [_ Hown].
  assert (Hempty : forall channel, channel ∈ channels -> sys_channels s !! channel = Some []).
  { intros channel Hc. apply Hsub, Hown in Hc. destruct (sys_channels s !! channel) as [results|] eqn:Hr.
    - destruct (Ho channel results Hr) as [_ He]. f_equal. apply He. congruence.
    - specialize (Hf channel Hr). congruence. }
  assert (Hnew : forall channel, channel ∈ channels -> answered s' channel).
  { intros channel Hc. destruct (Hanswer channel Hc) as [r Hr]. exists r. by rewrite Hr, Hempty. }
  split.
  - intros wid0 w0 Hl. rewrite Hh. destruct (decide (wid0 = wid)) as [->|Hne].
    + exists w'. rewrite lookup_insert_eq. simplify_eq. split_and!; try done.
      intros channel Hc. destruct (Howed channel Hc); [by left|right; by apply Hnew].
    + exists w0. rewrite lookup_insert_ne by done. split_and!; try done. intros channel Hc. by left.
  - intros channel [r Hr]. destruct (decide (channel ∈ channels)) as [Hc|Hc]; [by apply Hnew|].
    exists r. by rewrite Hsame.
Qed.

Lemma evolves_keep trace s s' wid w w' :
  Inv trace s -> sys_heap s !! wid = Some w -> sys_heap s' = <[wid := w']> (sys_heap s) -> w_key w' = w_key w ->
  owed w ⊆ owed w' -> sys_channels s' = sys_channels s -> Evolves s s'.
Proof.
  intros Hinv Hwid Hh Hk Howed Hc. apply (evolves_answer trace s s' wid w w' []); try done.
  - intros channel Hin. left. by apply Howed.
  - by intros channel ?%elem_of_nil.
  - by rewrite Hc.
  - by intros channel ?%elem_of_nil.
Qed.

Lemma on_worker_evolves op trace wid s :
  op = stopNoWait \/ op = completeNoWait -> Inv trace s -> Evolves s (on_worker op wid s).
Proof.
  intros Hop Hinv. destruct (on_worker_frame op wid s) as (_ & _ & _ & _ & Hh).
  destruct (sys_heap s !! wid) as [w|] eqn:Hwid; [|unfold on_worker; rewrite Hwid; apply evolves_refl].
  destruct (op_frame op w Hop) as [Hk Hp]. destruct (op w) as [discarded w'] eqn:Heq. cbn [fst snd] in *.
  assert (Hd : Discards op) by (destruct Hop as [-> | ->]; [apply stop_Discards|apply complete_Discards]).
  destruct (Hd w discarded w' Heq (inv_workers _ _ Hinv wid w Hwid)) as (_ & Hq & _).
  pose proof (owed_queue w w' Hp discarded Hq) as Howed.
  assert (Hnd : NoDup (omap qd_response discarded)).
  { destruct (inv_channels _ _ Hinv) as [owners Hch]. destruct (co_workers _ _ Hch wid w Hwid) as [Hnd _].
    rewrite Howed in Hnd. by apply NoDup_app in Hnd as (_ & _ & ?). }
  apply (evolves_answer trace s _ wid w w' (omap qd_response discarded)); try done.
  - intros channel. rewrite Howed, elem_of_app. done.
  - intros channel Hc. rewrite Howed, elem_of_app. by right.
  - intros channel Hc. unfold on_worker. rewrite Hwid, Heq.
    by rewrite (proj1 (reject_channels discarded (set_worker wid w' s) channel Hnd) Hc).
  - intros channel Hc. unfold on_worker. rewrite Hwid, Heq.
    by destruct (proj2 (reject_channels discarded (set_worker wid w' s) channel Hnd) Hc) as [r ->]; exists r.
Qed.

Lemma stop_all_evolves trace (workers : list (sessionKey * nat)) s :
  Inv trace s -> Evolves s (fold_left (fun s kw => stop_worker kw.2 s) workers s).
Proof.
  revert s. induction workers as [|kw kws IH]; intros s Hinv; [apply evolves_refl|]. simpl.
  eapply evolves_trans; [by eapply on_worker_evolves; [left|]|]. apply IH. by apply on_worker_inv; [apply stop_Discards|].
Qed.

Lemma fail_evolves trace wid reason s : Inv trace s -> Evolves s (fail wid reason s).2.
Proof.
  intros Hinv. unfold fail. destruct (sys_heap s !! wid); [|apply evolves_refl].
  destruct (negb _ || _); [apply evolves_refl|]. cbn [snd].
  eapply evolves_trans; [|by eapply on_worker_evolves; [left|apply broker_inv]]. by apply evolves_same.
Qed.

Lemma publish_evolves target token input at_ response s wid delivery s' :
  (forall channel, response = Some channel -> sys_channels s !! channel = None) ->
  publish_admit target token input at_ response s = inr (wid, delivery, s') ->
  Evolves s (make_channel response (set_transit ((wid, delivery) :: sys_transit s') s')).
Proof.
  intros Hfresh Hadm. destruct (publish_admit_spec _ _ _ _ _ _ _ _ _ Hadm) as (_ & Hch & b & Hs').
  apply (evolves_trans _ s').
  - destruct Hs' as [->|(key & Hnone & ->)]; [by apply evolves_same|]. split; [|done].
    intros wid0 w0 Hl. exists w0. cbn. rewrite lookup_insert_ne by congruence. split_and!; try done.
    intros channel Hc. by left.
  - split.
    + intros wid0 w0 Hl. exists w0. split_and!; [by destruct response|done|]. intros channel Hc. by left.
    + intros channel [r Hr]. exists r. destruct response as [channel'|]; [|done]. cbn.
      rewrite lookup_insert_ne; [done|]. intros ->. rewrite Hch in Hr. rewrite (Hfresh channel eq_refl) in Hr. done.
Qed.

Lemma respond_evolves trace s wid w delivery result err stop p :
  Inv trace s -> sys_heap s !! wid = Some w -> w_position w = AtRespond delivery result err stop ->
  Evolves s (set_worker wid (set_position p w)
    (match qd_response delivery with Some channel => send channel (mkDeliveryResult result err) s | None => s end)).
Proof.
  intros Hinv Hwid Hp.
  apply (evolves_answer trace s _ wid w (set_position p w) (option_list (qd_response delivery))); try done.
  - by destruct (qd_response delivery).
  - intros channel. unfold owed. rewrite Hp, !elem_of_app. cbn. tauto.
  - intros channel Hc. unfold owed. rewrite Hp. apply elem_of_app. by right.
  - intros channel Hc. cbn. destruct (qd_response delivery) as [channel'|]; [|done].
    rewrite send_lookup, decide_False; [done|]. intros ->. apply Hc. by left.
  - intros channel Hc. cbn. destruct (qd_response delivery) as [channel'|]; [|by apply elem_of_nil in Hc].
    apply list_elem_of_singleton in Hc as ->. eexists. by rewrite send_lookup, decide_True.
Qed.

Lemma finish_evolves trace s wid w delivery result err accepted stop w' :
  Inv trace s -> sys_heap s !! wid = Some w -> w_position w = AtFinish delivery result err ->
  finish (sq_Sequence (qd_request delivery)) err w = ((accepted, stop), w') ->
  Evolves s (set_worker wid (set_position (if accepted then AtRespond delivery result err stop else Returned) w') s).
Proof.
  intros Hinv Hwid Hp Hfin. pose proof (inv_workers _ _ Hinv wid w Hwid) as Hok.
  destruct (finish_spec _ _ _ _ _ _ _ Hok Hp Hfin) as [(Hs & -> & ->)|(Hs & -> & Hi & queue & Hq & Hw' & Hc)];
    eapply evolves_keep; try done.
  - intros channel. unfold owed. rewrite Hp, app_nil_r. cbn. set_solver.
  - rewrite Hw'. by destruct (w_completing w).
  - intros channel. unfold owed. rewrite Hp, app_nil_r, Hq. cbn [set_position w_position w_queue].
    assert (w_queue w' = queue) as -> by (rewrite Hw'; destruct (w_completing w); [by rewrite Hc|done]).
    rewrite elem_of_app. simpl. destruct (qd_response delivery); cbn; set_solver.
Qed.

Lemma step_evolves trace s l s' : Inv trace s -> step s l s' -> Evolves s s'.
Proof.
  intros Hinv Hstep. destruct Hstep as [s target token input at_ response wid delivery s' Hfresh Hadm
    |s before wid delivery after w w' Htr Hwid Henq|s before wid delivery after w err w' Htr Hwid Henq
    |s before wid after w Hwk Hwid|s before wid delivery after Hfl|s values|s pluginID target token
    |s pluginID target token|s|s wid w Hwid Hp Hcan|s wid w Hwid Hp Hn|s wid w delivery w' Hwid Hp Hb
    |s wid w w' Hwid Hp Hb|s wid w delivery result err Hwid Hp|s wid w delivery result err accepted stop w' Hwid Hp Hfin
    |s wid w delivery result err stop Hwid Hp|s wid w delivery err Hwid Hp|s wid w Hwid Hp].
  - by eapply publish_evolves.
  - eapply evolves_keep; try done; apply enqueue_spec in Henq as (_ & _ & _ & ->); [done|].
    intros channel. unfold owed. cbn. rewrite omap_app, !elem_of_app. tauto.
  - by apply evolves_same.
  - by eapply evolves_keep.
  - eapply evolves_trans; [|by eapply fail_evolves, failing_inv]. by apply evolves_same.
  - unfold Apply. destruct (b_closed _); [apply evolves_refl|].
    eapply evolves_trans; [by eapply stop_all_evolves|by apply evolves_same].
  - unfold Cancel. destruct (_ !! _) as [wid|]; [|by apply evolves_same].
    eapply evolves_trans; [by eapply (on_worker_evolves _ _ wid); [left|]|by apply evolves_same].
  - unfold Complete. destruct (_ !! _) as [wid|]; [|by apply evolves_same].
    eapply evolves_trans; [by eapply (on_worker_evolves _ _ wid); [right|]|by apply evolves_same].
  - unfold Close. destruct (b_closed _); [apply evolves_refl|].
    eapply evolves_trans; [by eapply stop_all_evolves|by apply evolves_same].
  - eapply evolves_keep; try done. unfold owed. rewrite Hp. cbn. set_solver.
  - eapply evolves_keep; try done. unfold owed. rewrite Hp. cbn. set_solver.
  - apply begin_spec in Hb as (_ & _ & _ & ->). eapply evolves_keep; try done. unfold owed. rewrite Hp. cbn. set_solver.
  - apply begin_None in Hb as [-> _]. eapply evolves_keep; try done. unfold owed. rewrite Hp. cbn. set_solver.
  - eapply evolves_keep; try done. unfold owed. rewrite Hp. cbn. set_solver.
  - by eapply finish_evolves.
  - by eapply respond_evolves.
  - eapply evolves_trans; [by eapply fail_evolves|]. unfold move.
    destruct (fail_position wid FailureDelivery s w Hwid) as (w' & Hw' & Hp'). rewrite Hw'.
    eapply evolves_keep; [by eapply fail_inv|try done..]. unfold owed. rewrite Hp', Hp. cbn. set_solver.
  - unfold retire. set (b := mkBroker _ _ _ _ _ _). apply (evolves_trans _ (set_broker b s)); [by apply evolves_same|].
    eapply evolves_keep; [by apply broker_inv|try done..]. unfold owed. rewrite Hp. cbn. set_solver.
Qed.

(** *** Deliveries and their session *)

(** Where a publisher's delivery may be sent, and what became of one that was queued. *)
Record Tracked (trace : list label) (s : System) : Prop := {
  tr_transit : forall wid delivery, (wid, delivery) ∈ sys_transit s ->
    exists w, sys_heap s !! wid = Some w /\ addressed delivery w;
  tr_queued : forall wid delivery, LEnqueued wid delivery ∈ trace ->
    exists w, sys_heap s !! wid = Some w /\ addressed delivery w
    /\ forall channel, qd_response delivery = Some channel -> answered s channel \/ channel ∈ owed w;
}.

Lemma evolves_addressed s s' wid w delivery :
  Evolves s s' -> sys_heap s !! wid = Some w -> addressed delivery w ->
  exists w', sys_heap s' !! wid = Some w' /\ addressed delivery w'.
Proof.
  intros Hev Hl Ha. destruct (ev_worker _ _ Hev wid w Hl) as (w' & Hl' & Hk & _). exists w'. split; [done|].
  unfold addressed in *. by rewrite Hk.
Qed.

Lemma evolves_queued s s' wid w delivery :
  Evolves s s' -> sys_heap s !! wid = Some w -> addressed delivery w ->
  (forall channel, qd_response delivery = Some channel -> answered s channel \/ channel ∈ owed w) ->
  exists w', sys_heap s' !! wid = Some w' /\ addressed delivery w'
  /\ forall channel, qd_response delivery = Some channel -> answered s' channel \/ channel ∈ owed w'.
Proof.
  intros Hev Hl Ha Hc. destruct (ev_worker _ _ Hev wid w Hl) as (w' & Hl' & Hk & Ho). exists w'.
  split_and!; [done|unfold addressed in *; by rewrite Hk|]. intros channel Hr.
  destruct (Hc channel Hr) as [Han|Hin]; [left; by apply (ev_answered _ _ Hev)|].
  destruct (Ho channel Hin); [by right|by left].
Qed.

(** The deliveries publishers hold afterwards were held before or are admitted by the step. *)
Lemma stop_all_transit (workers : list (sessionKey * nat)) s :
  sys_transit (fold_left (fun s kw => stop_worker kw.2 s) workers s) = sys_transit s.
Proof.
  revert s. induction workers as [|kw kws IH]; intros s; [done|]. simpl. rewrite IH. apply on_worker_frame.
Qed.

Lemma fail_transit wid reason s : sys_transit (fail wid reason s).2 = sys_transit s.
Proof.
  unfold fail. destruct (sys_heap s !! wid); [|done]. destruct (negb _ || _); [done|].
  cbn [snd]. unfold stop_worker. set (b := mkBroker _ _ _ _ _ _).
  by destruct (on_worker_frame stopNoWait wid (set_broker b s)) as (_ & -> & _).
Qed.

Lemma step_transit s l s' wid delivery :
  Life s -> step s l s' -> (wid, delivery) ∈ sys_transit s' ->
  (wid, delivery) ∈ sys_transit s \/ exists w, sys_heap s' !! wid = Some w /\ addressed delivery w.
Proof.
  intros Hl Hstep. destruct Hstep as [s target token input at_ response wid0 delivery0 s' Hfresh Hadm
    |s before wid0 delivery0 after w w' Htr|s before wid0 delivery0 after w err w' Htr
    |s before wid0 after w|s before wid0 delivery0 after|s values|s pluginID target token
    |s pluginID target token|s|s wid0 w|s wid0 w|s wid0 w delivery0 w'
    |s wid0 w w'|s wid0 w delivery0 result err|s wid0 w delivery0 result err accepted stop w'
    |s wid0 w delivery0 result err stop|s wid0 w delivery0 err|s wid0 w]; cbn [set_worker set_waking set_transit
      set_failing sys_transit]; try (by left).
  - destruct (publish_admit_spec _ _ _ _ _ _ _ _ _ Hadm) as (_ & _ & b & Hs').
    assert (Ht : sys_transit s' = sys_transit s) by (by destruct Hs' as [->|(key & _ & ->)]).
    intros Hin. assert (Hin' : (wid, delivery) ∈ (wid0, delivery0) :: sys_transit s) by
      (destruct response; cbn in Hin; by rewrite Ht in Hin).
    apply elem_of_cons in Hin' as [[= -> ->]|Hin']; [right|by left].
    destruct (publish_admit_table _ _ _ _ _ _ _ _ _ Hadm) as (key & Hv & Hi & Hg & Hk & Hcase).
    assert (Hheap : sys_heap (make_channel response (set_transit ((wid0, delivery0) :: sys_transit s') s')) = sys_heap s')
      by (by destruct response). rewrite Hheap.
    destruct Hcase as [(Hb & -> & _)|(_ & _ & -> & _)].
    + destruct (lf_table _ Hl key wid0 Hb) as (w & Hw & <-). by exists w.
    + exists (newWorker key). by rewrite lookup_insert_eq.
  - rewrite Htr. set_solver.
  - rewrite Htr. set_solver.
  - intros Hin. left. by rewrite fail_transit in Hin.
  - unfold Apply. destruct (b_closed _); [by left|]. cbn. rewrite stop_all_transit. by left.
  - unfold Cancel. destruct (_ !! _) as [wid1|]; [|by left]. cbn. unfold stop_worker.
    destruct (on_worker_frame stopNoWait wid1 s) as (_ & -> & _). by left.
  - unfold Complete. destruct (_ !! _) as [wid1|]; [|by left]. cbn. unfold complete_worker.
    destruct (on_worker_frame completeNoWait wid1 s) as (_ & -> & _). by left.
  - unfold Close. destruct (b_closed _); [by left|]. cbn. rewrite stop_all_transit. by left.
  - by destruct (qd_response delivery0); left.
  - unfold move. intros Hin. left. rewrite <- (fail_transit wid0 FailureDelivery s).
    by destruct (sys_heap (fail wid0 FailureDelivery s).2 !! wid0).
Qed.

Lemma steps_tracked trace s : steps trace s -> Tracked trace s.
Proof.
  induction 1 as [|trace s l s' Hsteps [Ht Hq] Hstep]; [by split; intros wid delivery ?%elem_of_nil|].
  pose proof (steps_inv _ _ Hsteps) as Hinv. pose proof (steps_life _ _ Hsteps) as Hlife.
  pose proof (step_evolves _ _ _ _ Hinv Hstep) as Hev. split.
  - intros wid delivery Hin. destruct (step_transit s l s' wid delivery Hlife Hstep Hin) as [Hin'|?]; [|done].
    destruct (Ht wid delivery Hin') as (w & Hw & Ha). by apply (evolves_addressed s s' wid w).
  - intros wid delivery [Hin|Heq%list_elem_of_singleton]%elem_of_app.
    + destruct (Hq wid delivery Hin) as (w & Hw & Ha & Hc). by apply (evolves_queued s s' wid w).
    + subst l. inversion Hstep as [|s0 before wid0 delivery0 after w w' Htr Hwid Henq| | | | | | | | | | | | | | | |]. subst.
      destruct (Ht wid delivery) as (w0 & Hw0 & Ha); [rewrite Htr; set_solver|]. simplify_eq.
      exists w'. cbn. rewrite lookup_insert_eq. apply enqueue_spec in Henq as (_ & _ & _ & ->).
      split_and!; [done|done|]. intros channel Hr. right. unfold owed. cbn. rewrite omap_app. simpl. rewrite Hr. set_solver.
Qed.

(** *** The mark of a failed session *)

Lemma fail_invalid wid reason s key :
  key ∈ b_invalid (sys_broker s) -> key ∈ b_invalid (sys_broker (fail wid reason s).2).
Proof.
  intros Hin. unfold fail. destruct (sys_heap s !! wid); [|done]. destruct (negb _ || _); [done|]. cbn [snd].
  unfold stop_worker. set (b := mkBroker _ _ _ _ _ _).
  destruct (on_worker_frame stopNoWait wid (set_broker b s)) as (-> & _). cbn. set_solver.
Qed.

Lemma publish_invalid target token input at_ response s wid delivery s' :
  publish_admit target token input at_ response s = inr (wid, delivery, s') ->
  b_invalid (sys_broker s') = b_invalid (sys_broker s).
Proof.
  unfold publish_admit. destruct (b_closed _); [done|]. destruct (_ =s EmptyString); [done|].
  case_bool_decide; [done|]. destruct (b_workers (sys_broker s) !! _) as [wid0|].
  - destruct (unavailable_at s wid0); [done|]. destruct (SessionInputRequest_Validate _); [done|]. by intros [= <- <- <-].
  - destruct (SessionInputRequest_Validate _); [done|]. by intros [= <- <- <-].
Qed.

(** A run that queues one request and begins its delivery. *)
Definition demo_target : InstanceRef := mkInstanceRef "timer" 1.
Definition demo_input : SessionInput := mkSessionInput (Some (mkButtonInput ButtonBack ButtonPress)) None.
Definition demo_now : Time := mkTime 63000000000000000000 0.
Definition demo_key : sessionKey := mkSessionKey "clock" "timer" 1 "token-1".
Definition demo_delivery : queuedDelivery :=
  mkQueuedDelivery (mkSessionInputRequest 1 demo_now demo_target "token-1" demo_input) (Some 7%nat).
Definition demo_worker (notify : bool) (queue : list queuedDelivery) (flight : bool) (p : position) : worker :=
  mkWorker demo_key false notify queue flight false false p.

Definition demo_ready : System := Apply [mkTargetSet "clock" ["timer"]] initial.
Definition demo_admitted : System :=
  match publish_admit demo_target "token-1" (Some demo_input) demo_now (Some 7%nat) demo_ready with
  | inr (_, _, s) => s
  | inl _ => demo_ready
  end.
Definition demo_published : System :=
  make_channel (Some 7%nat) (set_transit ((0%nat, demo_delivery) :: sys_transit demo_admitted) demo_admitted).
Definition demo_queued : System :=
  set_waking [0%nat] (set_transit [] (set_worker 0 (demo_worker false [demo_delivery] false AtSelect) demo_published)).
Definition demo_woken : System :=
  set_waking [] (set_worker 0 (demo_worker true [demo_delivery] false AtSelect) demo_queued).
Definition demo_running : System := set_worker 0 (demo_worker false [demo_delivery] false AtBegin) demo_woken.
Definition demo_begun : System :=
  set_worker 0 (demo_worker false [demo_delivery] true (Delivering demo_delivery)) demo_running.

Definition demo_trace : list label :=
  [LInternal; LInternal; LEnqueued 0 demo_delivery; LInternal; LInternal; LBegun 0 demo_delivery].

Lemma demo_delivery_steps : steps demo_trace demo_begun.
Proof.
  assert (H1 : steps [LInternal] demo_ready) by (apply (steps_snoc [] _ _ _ steps_nil), step_apply).
  assert (H2 : steps [LInternal; LInternal] demo_published).
  { apply (steps_snoc _ _ _ _ H1).
    apply (step_publish demo_ready demo_target "token-1" (Some demo_input) demo_now (Some 7%nat) 0 demo_delivery demo_admitted);
      [by intros channel [= <-]|]. vm_compute. reflexivity. }
  assert (H3 : steps [LInternal; LInternal; LEnqueued 0 demo_delivery] demo_queued).
  { apply (steps_snoc _ _ _ _ H2).
    by apply (step_enqueue demo_published [] 0 demo_delivery [] (newWorker demo_key)
      (demo_worker false [demo_delivery] false AtSelect)). }
  assert (H4 : steps [LInternal; LInternal; LEnqueued 0 demo_delivery; LInternal] demo_woken).
  { apply (steps_snoc _ _ _ _ H3).
    by apply (step_wake demo_queued [] 0 [] (demo_worker false [demo_delivery] false AtSelect)). }
  assert (H5 : steps [LInternal; LInternal; LEnqueued 0 demo_delivery; LInternal; LInternal] demo_running).
  { apply (steps_snoc _ _ _ _ H4). by apply (step_notified demo_woken 0 (demo_worker true [demo_delivery] false AtSelect)). }
  apply (steps_snoc _ _ _ _ H5).
  by apply (step_begin demo_running 0 (demo_worker false [demo_delivery] false AtBegin) demo_delivery
    (demo_worker false [demo_delivery] true AtBegin)).
Qed.

(** ** Properties *)

(** C1: in every interleaving, a session worker begins deliveries in exactly the order in
    which they were queued, each at most once: what was queued is what was begun,
    followed by what still waits, followed by what a stop or completion dropped,
    and nothing is dropped while the worker accepts input. *)
Theorem broker_exact_fifo trace s wid w :
  steps trace s -> sys_heap s !! wid = Some w ->
  exists dropped, enqueued_to wid trace = begun_by wid trace ++ remaining w ++ dropped
  /\ (isUnavailable w = false -> dropped = []).
Proof. intros Hs. by apply (inv_fifo _ _ (steps_inv _ _ Hs)). Qed.

(** In every interleaving, a session's queue holds at most sixty-four inputs, a
    response channel receives at most one result (so no send on it blocks), no wake-up
    is lost (an idle worker with queued input has been or is about to be notified), and
    a session has at most one worker whose goroutine runs. *)
Theorem broker_bounded trace s :
  steps trace s ->
  (forall wid w, sys_heap s !! wid = Some w -> depth w <= InteractionQueueSize /\ woken s wid w)
  /\ (forall channel results, sys_channels s !! channel = Some results -> (length results <= 1)%nat)
  /\ (forall wid w wid' w', sys_heap s !! wid = Some w -> sys_heap s !! wid' = Some w' -> w_key w = w_key w' ->
        w_position w <> Exited -> w_position w' <> Exited -> wid = wid').
Proof.
  intros Hs. pose proof (steps_inv _ _ Hs) as Hinv. pose proof (steps_life _ _ Hs) as Hl. split_and!.
  - intros wid w Hw. split; [by apply (wo_bounded _ (inv_workers _ _ Hinv wid w Hw))|by apply (inv_woken _ _ Hinv)].
  - intros channel results Hr. destruct (inv_channels _ _ Hinv) as [owners Hch]. by apply (co_once _ _ Hch channel).
  - intros wid w wid' w' Hw Hw' Hk He He'. pose proof (lf_registered _ Hl wid w Hw He).
    pose proof (lf_registered _ Hl wid' w' Hw' He'). congruence.
Qed.

(** C26: every publisher that waits for the disposition of a queued input is answered:
    its channel either holds its one result already, or is still owed by a worker whose
    goroutine has not ended; once the goroutine has ended, for whatever reason, the
    worker was stopped, has an empty queue and has answered everything. *)
Theorem waiting_publishers_answered trace s wid delivery channel :
  steps trace s -> LEnqueued wid delivery ∈ trace -> qd_response delivery = Some channel ->
  exists w, sys_heap s !! wid = Some w
  /\ (answered s channel \/ (~ ended w /\ channel ∈ owed w))
  /\ (ended w -> w_stopped w = true /\ w_queue w = [] /\ answered s channel).
Proof.
  intros Hs Hin Hr. destruct (tr_queued _ _ (steps_tracked _ _ Hs) wid delivery Hin) as (w & Hw & _ & Hc).
  assert (Hend : ended w -> w_stopped w = true /\ w_queue w = [] /\ answered s channel).
  { intros He. pose proof (al_ended w (lf_alive _ (steps_life _ _ Hs) wid w Hw) He) as Hst.
    destruct (wo_stopped w (inv_workers _ _ (steps_inv _ _ Hs) wid w Hw) Hst) as [Hq _]. split_and!; [done..|].
    destruct (Hc channel Hr) as [|Ho]; [done|]. unfold owed in Ho. rewrite Hq in Ho. destruct He as [He|He];
      rewrite He in Ho; by apply elem_of_nil in Ho. }
  exists w. split_and!; [done| |done].
  destruct (Hc channel Hr) as [|Ho]; [by left|].
  destruct (w_position w) eqn:Hp; try (right; split; [intros [?|?]; congruence|done]); left; apply Hend;
    unfold ended; rewrite Hp; auto.
Qed.

(** An input is only ever delivered, as a valid request, to the worker of the exact
    session it was addressed to: same instance, generation and session token. *)
Theorem deliveries_session_bound trace s wid delivery :
  steps trace s -> LBegun wid delivery ∈ trace ->
  exists w, sys_heap s !! wid = Some w /\ addressed delivery w.
Proof.
  intros Hs Hin. pose proof (steps_inv _ _ Hs) as Hinv.
  assert (Hb : delivery ∈ begun_by wid trace).
  { apply list_elem_of_omap. eexists. split; [done|]. simpl. by rewrite decide_True. }
  destruct (sys_heap s !! wid) as [w|] eqn:Hw.
  - destruct (inv_fifo _ _ Hinv wid w Hw) as (dropped & Heq & _).
    assert (He : delivery ∈ enqueued_to wid trace) by (rewrite Heq; apply elem_of_app; by left).
    apply list_elem_of_omap in He as ([wid' d| |] & Hl & Hd); try done. case_decide; [|done]. simplify_eq.
    destruct (tr_queued _ _ (steps_tracked _ _ Hs) wid delivery Hl) as (w0 & Hw0 & Ha & _).
    rewrite Hw in Hw0. by exists w0.
  - destruct (inv_absent _ _ Hinv wid Hw) as [_ He]. rewrite He in Hb. by apply elem_of_nil in Hb.
Qed.

(** A recorded failure (an overrun or a failed delivery) stops the worker and empties
    its queue, leaves the reason in the plugin's status and counts an overrun exactly
    when there was one, and every further input to the session, still routed to the
    plugin, is refused as invalidated. *)
Theorem failed_session_refuses wid reason s s' w :
  sys_heap s !! wid = Some w -> fail wid reason s = (true, s') ->
  b_closed (sys_broker s) = false ->
  b_targets (sys_broker s) !! sk_instanceID (w_key w) = Some (sk_pluginID (w_key w)) ->
  sk_pluginID (w_key w) <> EmptyString ->
  (exists w', sys_heap s' !! wid = Some w' /\ w_stopped w' = true /\ w_queue w' = [])
  /\ (exists status, b_stats (sys_broker s') !! sk_pluginID (w_key w) = Some status /\ bs_LastErrorCode status = reason
      /\ bs_Overruns status =
         (let before := match b_stats (sys_broker s) !! sk_pluginID (w_key w) with
                        | Some st => bs_Overruns st | None => 0 end in
          if decide (reason = FailureOverrun) then u64_succ before else before))
  /\ forall input at_ response,
     publish_admit (mkInstanceRef (sk_instanceID (w_key w)) (sk_generation (w_key w))) (sk_token (w_key w))
       input at_ response s' = inl ErrSessionInvalidated.
Proof.
  intros Hw Hfail Hopen Htarget Hplugin. unfold fail in Hfail. rewrite Hw in Hfail.
  destruct (negb _ || isUnavailable w) eqn:Hu; [done|]. injection Hfail as Hs'.
  set (b := mkBroker _ _ _ _ _ _) in Hs'. unfold stop_worker in Hs'.
  destruct (on_worker_frame stopNoWait wid (set_broker b s)) as (Hb & _ & _ & _ & Hh). rewrite Hs' in Hb, Hh.
  cbn [set_broker sys_broker sys_heap] in Hb, Hh. rewrite Hw in Hh. split_and!.
  - rewrite Hh, lookup_insert_eq. eexists. split; [done|]. apply orb_false_iff in Hu as [_ Hu].
    unfold isUnavailable in Hu. apply orb_false_iff in Hu as [Hst _]. unfold stopNoWait. by rewrite Hst.
  - rewrite Hb. unfold b, update_status. cbn [b_stats]. rewrite lookup_insert_eq. eexists. split_and!; [done..|].
    cbn [bs_Overruns]. destruct (b_stats (sys_broker s) !! _); cbn [default bs_Overruns];
      destruct (decide (reason = FailureOverrun)), (String.eqb_spec reason FailureOverrun); done.
  - intros input at_ response. unfold publish_admit. rewrite Hb. cbn [b b_closed b_targets b_invalid ref_ID ref_Generation].
    rewrite Hopen, Htarget. unfold default, id. destruct (String.eqb_spec (sk_pluginID (w_key w)) EmptyString); [done|].
    rewrite bool_decide_eq_true_2; [done|]. destruct (w_key w). set_solver.
Qed.

(** The mark of a failed session outlives every step but its own retirement: it is
    lifted only by [Cancel] or [Complete] of exactly this session, by an [Apply] that no
    longer routes the instance to the plugin, or by closing the broker. *)
Theorem failure_mark_persists s l s' key :
  key ∈ b_invalid (sys_broker s) -> step s l s' ->
  key ∈ b_invalid (sys_broker s')
  \/ (exists pluginID target token, session_key pluginID target token = key
      /\ (s' = Cancel pluginID target token s \/ s' = Complete pluginID target token s))
  \/ (exists values, s' = Apply values s /\ routes (targets_of values) key = false)
  \/ s' = Close s.
Proof.
  intros Hin Hstep. destruct Hstep as [s target token input at_ response wid delivery s' Hfresh Hadm
    |s before wid delivery after w w' Htr|s before wid delivery after w err w' Htr
    |s before wid after w|s before wid delivery after|s values|s pluginID target token
    |s pluginID target token|s|s wid w|s wid w|s wid w delivery w'
    |s wid w w'|s wid w delivery result err|s wid w delivery result err accepted stop w'
    |s wid w delivery result err stop|s wid w delivery err|s wid w]; try (by left); try (by right; right; right).
  - left. assert (b_invalid (sys_broker s') = b_invalid (sys_broker s)) as Heq by (by eapply publish_invalid).
    destruct response; cbn; by rewrite Heq.
  - left. by apply fail_invalid.
  - destruct (routes (targets_of values) key) eqn:Hr; [left|right; right; left; by exists values].
    unfold Apply. destruct (b_closed _); [done|]. cbn. apply elem_of_filter. split; [done|]. apply elem_of_difference.
    split; [done|]. rewrite elem_of_list_to_set, list_elem_of_In, in_map_iff. intros ([key' wid] & <- & Hf).
    apply filter_In in Hf as [_ Hf]. cbn in Hf, Hr. by rewrite Hr in Hf.
  - destruct (decide (session_key pluginID target token = key)) as [He|He]; [right; left; eauto 6|left].
    unfold Cancel. cbn. apply elem_of_difference. split; [|set_solver].
    destruct (_ !! _) as [wid|]; [|done]. unfold stop_worker. by destruct (on_worker_frame stopNoWait wid s) as (-> & _).
  - destruct (decide (session_key pluginID target token = key)) as [He|He]; [right; left; eauto 6|left].
    unfold Complete. cbn. apply elem_of_difference. split; [|set_solver].
    destruct (_ !! _) as [wid|]; [|done]. unfold complete_worker. by destruct (on_worker_frame completeNoWait wid s) as (-> & _).
  - left. by destruct (qd_response delivery).
  - left. unfold move. pose proof (fail_invalid wid FailureDelivery s key Hin).
    by destruct (sys_heap (fail wid FailureDelivery s).2 !! wid).
Qed.

(** ** Witnesses *)

Lemma broker_exact_fifo_witness :
  exists s w dropped, sys_heap s !! 0%nat = Some w
  /\ enqueued_to 0 demo_trace = begun_by 0 demo_trace ++ remaining w ++ dropped.
Proof.
  destruct (broker_exact_fifo demo_trace demo_begun 0
    (demo_worker false [demo_delivery] true (Delivering demo_delivery)) demo_delivery_steps eq_refl) as (dropped & H & _).
  exists demo_begun, (demo_worker false [demo_delivery] true (Delivering demo_delivery)), dropped.
  split; [reflexivity|exact H].
Defined.

Lemma broker_bounded_witness :
  depth (demo_worker false [demo_delivery] true (Delivering demo_delivery)) <= InteractionQueueSize.
Proof. by apply (proj1 (broker_bounded demo_trace demo_begun demo_delivery_steps) 0%nat). Defined.

Lemma waiting_publishers_answered_witness : exists w, sys_heap demo_begun !! 0%nat = Some w.
Proof.
  destruct (waiting_publishers_answered demo_trace demo_begun 0 demo_delivery 7 demo_delivery_steps
    ltac:(right; right; left) eq_refl) as (w & Hw & _).
  by exists w.
Defined.

Lemma deliveries_session_bound_witness : exists w, sys_heap demo_begun !! 0%nat = Some w /\ addressed demo_delivery w.
Proof. apply (deliveries_session_bound demo_trace demo_begun 0 demo_delivery demo_delivery_steps). do 5 right. left. Defined.

Lemma failed_session_refuses_witness :
  publish_admit demo_target "token-1" (Some demo_input) demo_now None (fail 0 FailureOverrun demo_begun).2
  = inl ErrSessionInvalidated.
Proof.
  apply (failed_session_refuses 0 FailureOverrun demo_begun (fail 0 FailureOverrun demo_begun).2
    (demo_worker false [demo_delivery] true (Delivering demo_delivery))); try reflexivity; discriminate.
Defined.

Lemma failure_mark_persists_witness :
  exists s s', demo_key ∈ b_invalid (sys_broker s) /\ (demo_key ∈ b_invalid (sys_broker s') \/ s' = Close s).
Proof.
  set (s := (fail 0 FailureOverrun demo_begun).2).
  assert (Hin : demo_key ∈ b_invalid (sys_broker s)) by (apply (bool_decide_unpack _); vm_compute; reflexivity).
  destruct (failure_mark_persists s LInternal (Close s) demo_key Hin (step_close s)) as [H|H].
  - by exists s, (Close s); split; [|left].
  - exists s, (Close s). split; [done|by right].
Defined.
