(* ===== verification/SessionCoordinator.v ===== *)
(** * The session coordinator

    Models [src/internal/daemon/session_owner.go]: which interactive session owns the
    foreground, which launch is pending, whether the foreground executes, whether a
    critical presentation has taken over, and the lifecycle errors of plugins. Each
    operation is one critical section of [o.mu]. The context's error, the clock and
    the fields the code reads of the live state and of the configuration are
    arguments. *)

From Stdlib Require Import ZArith Lia ZifyBool.
From S2P Require Import Prelude GoStrings GoTime Identifier Protocol ProtocolSession GoJson Presentation ObservationStore.

(** ** Data *)

Definition foregroundIdle : string := "idle".
Definition foregroundPending : string := "pending".
Definition foregroundInteractive : string := "interactive".
Definition foregroundExecuting : string := "executing".
Definition foregroundCriticalOwned : string := "critical_owned".

Definition SessionEndFailedCode : string := "end_session_failed".
Definition ErrorCodeEndSessionFailed : string := "end_session_failed".

(** [protocol.NewDomainError]: its text is the kind, and it wraps the cause. *)
Definition NewDomainError (kind : string) (cause : error) : error := Wrapf kind [] cause.

Record observationSessionSource := mkSessionSource {
  ss_pluginID : string;
  ss_instanceID : string;
  ss_channel : string;
  ss_key : string;
  ss_generation : Z;
  ss_revision : Z;
}.

Record pluginSessionLifecycleState := mkLifecycle {
  lc_sequence : Z;
  lc_errorCode : string;
  lc_errorAt : Time;
  lc_fallbackAfterSequence : Z;
}.

Record sessionAdmission := mkAdmission {
  ad_pluginID : string;
  ad_instanceID : string;
  ad_token : string;
  ad_generation : Z;
}.

Record sessionTermination := mkTermination {
  tm_pluginID : string;
  tm_instanceID : string;
  tm_generation : Z;
  tm_token : string;
}.

#[export] Instance sessionTermination_eq_dec : EqDecision sessionTermination.
Proof. solve_decision. Defined.

Definition no_termination : sessionTermination := mkTermination EmptyString EmptyString 0 EmptyString.

(** [config.App] *)
Record App := mkApp {
  app_ID : string;
  app_PluginID : string;
  app_Generation : Z;
  app_Enabled : bool;
  app_LaunchAction : string;
  app_Config : string;
  app_Secrets : gmap string string;
  app_Policies : gmap string PolicyConfig;
}.

(** [pluginhost.SessionInvalidation] and [pluginhost.SessionCleanup] *)
Record SessionInvalidation := mkInvalidation {
  iv_PluginID : string;
  iv_InstanceID : string;
  iv_Generation : Z;
  iv_Token : string;
  iv_Reason : string;
}.
Record SessionCleanup := mkCleanup {
  cl_PluginID : string;
  cl_Sequence : Z;
  cl_At : Time;
  cl_PendingCount : Z;
  cl_ErrorCode : string;
}.

Inductive sessionChangeKind := sessionChanged | sessionCanceled | sessionCompleted.
Record SessionChange := mkSessionChange {
  ch_kind : sessionChangeKind;
  ch_pluginID : string;
  ch_target : InstanceRef;
  ch_token : string;
}.

Record SessionDiagnostics := mkSessionDiagnostics {
  sd_ActiveInstanceID : string;
  sd_State : string;
  sd_LastLifecycleErrorCode : string;
  sd_LastLifecycleErrorAt : Time;
}.

Record SessionCoordinator := mkCoordinator {
  foreground : string;
  foregroundPlugin : string;
  foregroundSession : string;
  foregroundGeneration : Z;
  foregroundSource : option observationSessionSource;
  executing : bool;
  pendingForeground : string;
  pendingPlugin : string;
  pendingGeneration : Z;
  pendingSession : string;
  nextSession : Z;
  criticalIdentity : string;
  criticalSequence : Z;
  lifecycles : gmap string pluginSessionLifecycleState;
}.

Definition NewSessionCoordinator : SessionCoordinator :=
  mkCoordinator EmptyString EmptyString EmptyString 0 None false EmptyString EmptyString 0 EmptyString 0 EmptyString 0 ∅.

(** ** Updates *)

Definition clearForegroundLocked (o : SessionCoordinator) : SessionCoordinator :=
  mkCoordinator EmptyString EmptyString EmptyString 0 None false (pendingForeground o) (pendingPlugin o)
    (pendingGeneration o) (pendingSession o) (nextSession o) (criticalIdentity o) (criticalSequence o) (lifecycles o).

Definition set_pending (instanceID pluginID : string) (generation : Z) (token : string) (o : SessionCoordinator)
    : SessionCoordinator :=
  mkCoordinator (foreground o) (foregroundPlugin o) (foregroundSession o) (foregroundGeneration o) (foregroundSource o)
    (executing o) instanceID pluginID generation token (nextSession o) (criticalIdentity o) (criticalSequence o)
    (lifecycles o).

Definition clearPendingLocked (o : SessionCoordinator) : SessionCoordinator :=
  set_pending EmptyString EmptyString 0 EmptyString o.

Definition set_nextSession (next : Z) (o : SessionCoordinator) : SessionCoordinator :=
  mkCoordinator (foreground o) (foregroundPlugin o) (foregroundSession o) (foregroundGeneration o) (foregroundSource o)
    (executing o) (pendingForeground o) (pendingPlugin o) (pendingGeneration o) (pendingSession o) next
    (criticalIdentity o) (criticalSequence o) (lifecycles o).

Definition set_foreground (admission : sessionAdmission) (pluginID : string) (source : option observationSessionSource)
    (o : SessionCoordinator) : SessionCoordinator :=
  mkCoordinator (ad_instanceID admission) pluginID (ad_token admission) (ad_generation admission) source false
    (pendingForeground o) (pendingPlugin o) (pendingGeneration o) (pendingSession o) (nextSession o)
    (criticalIdentity o) (criticalSequence o) (lifecycles o).

Definition set_executing (value : bool) (o : SessionCoordinator) : SessionCoordinator :=
  mkCoordinator (foreground o) (foregroundPlugin o) (foregroundSession o) (foregroundGeneration o) (foregroundSource o)
    value (pendingForeground o) (pendingPlugin o) (pendingGeneration o) (pendingSession o) (nextSession o)
    (criticalIdentity o) (criticalSequence o) (lifecycles o).

Definition set_critical (identity : string) (sequence : Z) (o : SessionCoordinator) : SessionCoordinator :=
  mkCoordinator (foreground o) (foregroundPlugin o) (foregroundSession o) (foregroundGeneration o) (foregroundSource o)
    (executing o) (pendingForeground o) (pendingPlugin o) (pendingGeneration o) (pendingSession o) (nextSession o)
    identity sequence (lifecycles o).

Definition set_lifecycle (pluginID : string) (state : pluginSessionLifecycleState) (o : SessionCoordinator)
    : SessionCoordinator :=
  mkCoordinator (foreground o) (foregroundPlugin o) (foregroundSession o) (foregroundGeneration o) (foregroundSource o)
    (executing o) (pendingForeground o) (pendingPlugin o) (pendingGeneration o) (pendingSession o) (nextSession o)
    (criticalIdentity o) (criticalSequence o) (<[pluginID := state]> (lifecycles o)).

Definition foreground_termination (o : SessionCoordinator) : sessionTermination :=
  mkTermination (foregroundPlugin o) (foreground o) (foregroundGeneration o) (foregroundSession o).

Definition pendingMatchesAdmission (admission : sessionAdmission) (o : SessionCoordinator) : bool :=
  (pendingPlugin o =s ad_pluginID admission) && (pendingForeground o =s ad_instanceID admission)
  && (pendingGeneration o =? ad_generation admission) && (pendingSession o =s ad_token admission).

(** ** Admission *)

(** [fmt.Sprintf("interactive-%d", n)] *)
Definition session_token (n : Z) : string := "interactive-" +:+ format_uint n.

Definition begin (pluginID instanceID : string) (generation : Z) (o : SessionCoordinator)
    : option sessionAdmission * SessionCoordinator :=
  if negb (criticalIdentity o =s EmptyString) || executing o then (None, o)
  else
    let next := u64_succ (nextSession o) in
    let admission := mkAdmission pluginID instanceID (session_token next) generation in
    (Some admission, set_pending instanceID pluginID generation (ad_token admission) (set_nextSession next o)).

Definition cancel (admission : sessionAdmission) (o : SessionCoordinator) : SessionCoordinator :=
  if pendingMatchesAdmission admission o then clearPendingLocked o else o.

Definition promote (admission : sessionAdmission) (pluginID : string) (source : option observationSessionSource)
    (o : SessionCoordinator) : option sessionTermination * SessionCoordinator :=
  if negb (pendingMatchesAdmission admission o) || negb (pluginID =s ad_pluginID admission) then (None, o)
  else (Some (foreground_termination o), set_foreground admission pluginID source (clearPendingLocked o)).

(** ** The end of a session *)

Definition detach (app : App) (o : SessionCoordinator) : (sessionTermination * bool) * SessionCoordinator :=
  let pending := (pendingForeground o =s app_ID app) && (pendingPlugin o =s app_PluginID app) in
  let o := if pending then clearPendingLocked o else o in
  if (foreground o =s app_ID app) && (foregroundPlugin o =s app_PluginID app) then
    ((mkTermination (app_PluginID app) (app_ID app) (foregroundGeneration o) (foregroundSession o), true),
     clearForegroundLocked o)
  else ((no_termination, pending), o).

Definition clear (expected expectedToken : string) (o : SessionCoordinator) : option sessionTermination * SessionCoordinator :=
  let activeMatch := ((expected =s EmptyString) || (foreground o =s expected))
                     && ((expectedToken =s EmptyString) || (foregroundSession o =s expectedToken)) in
  let pendingMatch := ((expected =s EmptyString) || (pendingForeground o =s expected))
                      && ((expectedToken =s EmptyString) || (pendingSession o =s expectedToken)) in
  let o := if pendingMatch && negb (pendingForeground o =s EmptyString) then clearPendingLocked o else o in
  if negb activeMatch || (foreground o =s EmptyString) then (None, o)
  else (Some (foreground_termination o), clearForegroundLocked o).

(** The session [(pluginID, instanceID, generation, token)] is the pending, or the foreground one. *)
Definition is_pending (pluginID instanceID : string) (generation : Z) (token : string) (o : SessionCoordinator) : bool :=
  (pendingPlugin o =s pluginID) && (pendingForeground o =s instanceID) && (pendingSession o =s token)
  && (pendingGeneration o =? generation).
Definition is_foreground (pluginID instanceID : string) (generation : Z) (token : string) (o : SessionCoordinator) : bool :=
  (foregroundPlugin o =s pluginID) && (foreground o =s instanceID) && (foregroundSession o =s token)
  && (foregroundGeneration o =? generation).

Definition invalidate (value : SessionInvalidation) (o : SessionCoordinator) : bool * SessionCoordinator :=
  let pendingChanged := is_pending (iv_PluginID value) (iv_InstanceID value) (iv_Generation value) (iv_Token value) o in
  let foregroundChanged :=
    is_foreground (iv_PluginID value) (iv_InstanceID value) (iv_Generation value) (iv_Token value) o in
  let o := if pendingChanged then clearPendingLocked o else o in
  (pendingChanged || foregroundChanged, if foregroundChanged then clearForegroundLocked o else o).

Definition complete (pluginID instanceID : string) (generation : Z) (token : string) (pendingEligible : bool)
    (o : SessionCoordinator) : (bool * bool) * SessionCoordinator :=
  let foregroundChanged := is_foreground pluginID instanceID generation token o in
  let pendingChanged := pendingEligible && is_pending pluginID instanceID generation token o in
  let o := if pendingChanged then clearPendingLocked o else o in
  ((foregroundChanged, pendingChanged || foregroundChanged), if foregroundChanged then clearForegroundLocked o else o).

Definition configurationChanged (apps : gmap string App) (o : SessionCoordinator) : SessionCoordinator :=
  let pendingStillCurrent :=
    match apps !! pendingForeground o with
    | Some app => app_Enabled app && (app_PluginID app =s pendingPlugin o) && (app_Generation app =? pendingGeneration o)
    | None => false
    end in
  if negb (pendingForeground o =s EmptyString) && negb pendingStillCurrent then clearPendingLocked o else o.

(** ** Execution and critical presentations *)

Definition foregroundSnapshot (o : SessionCoordinator) : string * string := (foreground o, foregroundSession o).

Definition inputForegroundSnapshot (o : SessionCoordinator) : string * Z * string :=
  if executing o || negb (criticalIdentity o =s EmptyString) then (EmptyString, 0, EmptyString)
  else (foreground o, foregroundGeneration o, foregroundSession o).

Definition beginExecution (ctx_err : option error) (pluginID : string) (request : SessionExecutionRequest)
    (o : SessionCoordinator) : option error * SessionCoordinator :=
  let instance := sx_Instance request in
  let token := sx_SessionToken request in
  if negb (criticalIdentity o =s EmptyString) then
    (Some (NewDomainError ErrorSessionCanceled (Errorf "critical presentation owns the foreground" [])), o)
  else if (foregroundPlugin o =s pluginID) && (foreground o =s ref_ID instance) && (foregroundSession o =s token)
          && negb (foregroundGeneration o =? ref_Generation instance) then
    (Some (NewDomainError ErrorSessionGenerationMismatch (Errorf "session generation is no longer current" [])), o)
  else if executing o || negb (foregroundPlugin o =s pluginID) || negb (foreground o =s ref_ID instance)
          || negb (foregroundGeneration o =? ref_Generation instance) || negb (foregroundSession o =s token) then
    (Some (NewDomainError ErrorSessionNotActive (Errorf "session is not the active interactive foreground" [])), o)
  else match ctx_err with
       | Some err => (Some (NewDomainError ErrorSessionCanceled err), o)
       | None => (None, set_executing true (clearPendingLocked o))
       end.

Definition acquireCritical (identity : string) (o : SessionCoordinator) : option sessionTermination * SessionCoordinator :=
  if executing o then (None, o)
  else if negb (criticalIdentity o =s EmptyString) then
    (Some no_termination, set_critical identity (u64_succ (criticalSequence o)) o)
  else
    let o := clearPendingLocked o in
    (Some (foreground_termination o), set_critical identity (u64_succ (criticalSequence o)) (clearForegroundLocked o)).

Definition beginLauncherAdmission (o : SessionCoordinator) : Z * bool :=
  if negb (criticalIdentity o =s EmptyString) || executing o then (0, false) else (criticalSequence o, true).

Definition launcherAdmissionCurrent (sequence : Z) (o : SessionCoordinator) : bool :=
  (criticalIdentity o =s EmptyString) && negb (executing o) && (criticalSequence o =? sequence).

Definition releaseCritical (o : SessionCoordinator) : bool * SessionCoordinator :=
  if criticalIdentity o =s EmptyString then (false, o) else (true, set_critical EmptyString (criticalSequence o) o).

Definition criticalOwned (o : SessionCoordinator) : bool := negb (criticalIdentity o =s EmptyString).
Definition blocksCritical (o : SessionCoordinator) : bool := executing o.

Definition stateLocked (o : SessionCoordinator) : string :=
  if negb (criticalIdentity o =s EmptyString) then foregroundCriticalOwned
  else if executing o then foregroundExecuting
  else if negb (pendingForeground o =s EmptyString) then foregroundPending
  else if negb (foreground o =s EmptyString) then foregroundInteractive
  else foregroundIdle.

(** Whether a record's instance owns the foreground, and whether the foreground session
    was started from exactly this revision. *)
Definition attentionState (record : ObservationRecord) (o : SessionCoordinator) : bool * bool :=
  let observation := rec_Observation record in
  (foreground o =s ref_ID (obs_Instance observation),
   match foregroundSource o with
   | None => false
   | Some source =>
     (ss_pluginID source =s rec_PluginID record) && (ss_instanceID source =s ref_ID (obs_Instance observation))
     && (ss_channel source =s obs_Channel observation) && (ss_key source =s obs_Key observation)
     && (ss_generation source =? rec_Generation record) && (ss_revision source =? obs_Revision observation)
   end).

(** ** Lifecycle errors of plugins *)

Definition no_lifecycle : pluginSessionLifecycleState := mkLifecycle 0 EmptyString zero_time 0.
Definition lifecycle_of (pluginID : string) (o : SessionCoordinator) : pluginSessionLifecycleState :=
  default no_lifecycle (lifecycles o !! pluginID).

Definition lifecycleBaseline (pluginID : string) (o : SessionCoordinator) : Z := lc_sequence (lifecycle_of pluginID o).

(** [clock_now] is the result of [time.Now()]. *)
Definition recordLifecycleFallback (clock_now : Time) (pluginID : string) (baseline : Z) (at_ : Time)
    (o : SessionCoordinator) : SessionCoordinator :=
  let at_ := if IsZero at_ then UTC clock_now else UTC at_ in
  let state := lifecycle_of pluginID o in
  if lc_sequence state <=? baseline then
    set_lifecycle pluginID (mkLifecycle (lc_sequence state) SessionEndFailedCode at_ baseline) o
  else o.

Definition PluginSessionCleanup (clock_now : Time) (value : SessionCleanup) (o : SessionCoordinator) : SessionCoordinator :=
  if (cl_PluginID value =s EmptyString) || (cl_Sequence value =? 0) then o else
  let at_ := if IsZero (UTC (cl_At value)) then UTC clock_now else UTC (cl_At value) in
  let state := lifecycle_of (cl_PluginID value) o in
  if (cl_Sequence value <=? lc_sequence state)
     || (negb (lc_fallbackAfterSequence state =? 0) && (cl_Sequence value <=? lc_fallbackAfterSequence state))
  then o
  else
    set_lifecycle (cl_PluginID value)
      (if (0 <? cl_PendingCount value) && (cl_ErrorCode value =s ErrorCodeEndSessionFailed)
       then mkLifecycle (cl_Sequence value) SessionEndFailedCode at_ 0
       else mkLifecycle (cl_Sequence value) EmptyString zero_time 0) o.

(** One iteration of [diagnostics] over the map: what is selected so far, the plugin it
    belongs to, and the next entry. *)
Definition more_recent (selected : string * Time * string) (entry : string * pluginSessionLifecycleState)
    : string * Time * string :=
  let '(code, at_, selectedPlugin) := selected in
  let '(pluginID, state) := entry in
  if lc_errorCode state =s EmptyString then selected
  else if IsZero at_ || After (lc_errorAt state) at_
          || ((instant (lc_errorAt state) =? instant at_) && (0 <? cmp_strings pluginID selectedPlugin))
  then (lc_errorCode state, lc_errorAt state, pluginID)
  else selected.

(** Go visits a map in any order; [order] is one. *)
Definition diagnostics_in (order : list (string * pluginSessionLifecycleState)) : string * Time * string :=
  fold_left more_recent order (EmptyString, zero_time, EmptyString).

Definition Diagnostics (order : list (string * pluginSessionLifecycleState)) (o : SessionCoordinator) : SessionDiagnostics :=
  let '(code, at_, _) := diagnostics_in order in
  mkSessionDiagnostics (foreground o) (stateLocked o) code at_.

(** ** Operations that consult the live state and report a change

    [current] is whether the instance is loaded, enabled, owned by the plugin and of
    the requested generation, as read under [live.mu]. *)

Record generationKey := mkGenerationKey { gk_pluginID : string; gk_instanceID : string }.
#[export] Instance generationKey_eq_dec : EqDecision generationKey.
Proof. solve_decision. Defined.
#[export] Instance generationKey_countable : Countable generationKey.
Proof.
  apply (inj_countable' (fun k => (gk_pluginID k, gk_instanceID k)) (fun '(p, i) => mkGenerationKey p i)). by intros [].
Defined.

Definition Generations : Type := gmap generationKey Z.
Definition Lookup (pluginID instanceID : string) (g : Generations) : option Z := g !! mkGenerationKey pluginID instanceID.
Definition matches (pluginID instanceID : string) (generation : Z) (g : Generations) : bool :=
  match Lookup pluginID instanceID g with Some current => current =? generation | None => false end.

Section Live.
(** [live.loaded], [live.document.Apps] and [live.generations] *)
Context (loaded : bool) (apps : gmap string App) (generations : Generations).

Definition BeginExecution (ctx_err : option error) (pluginID : string) (request : SessionExecutionRequest)
    (o : SessionCoordinator) : (option error * option SessionChange) * SessionCoordinator :=
  match SessionExecutionRequest_Validate request with
  | Some err => ((Some (NewDomainError ErrorInvalidArgument err), None), o)
  | None =>
    let instance := sx_Instance request in
    let current := match apps !! ref_ID instance with
                   | Some app => loaded && app_Enabled app && (app_PluginID app =s pluginID)
                                 && matches pluginID (ref_ID instance) (ref_Generation instance) generations
                   | None => false
                   end in
    if negb current then
      ((Some (NewDomainError ErrorSessionGenerationMismatch
                (Errorf "session instance generation is no longer current" [])), None), o)
    else match beginExecution ctx_err pluginID request o with
         | (Some err, o) => ((Some err, None), o)
         | (None, o) =>
           ((None, Some (mkSessionChange sessionChanged EmptyString (mkInstanceRef EmptyString 0) EmptyString)), o)
         end
  end.

Definition PluginSessionInvalidated (value : SessionInvalidation) (o : SessionCoordinator)
    : option SessionChange * SessionCoordinator :=
  match invalidate value o with
  | (true, o) => (Some (mkSessionChange sessionCanceled (iv_PluginID value)
                          (mkInstanceRef (iv_InstanceID value) (iv_Generation value)) (iv_Token value)), o)
  | (false, o) => (None, o)
  end.

Definition PluginSessionCompleted (pluginID : string) (request : CompleteSessionRequest) (o : SessionCoordinator)
    : option SessionChange * SessionCoordinator :=
  let instance := cs_Instance request in
  let token := cs_SessionToken request in
  if (pluginID =s EmptyString) || (ref_ID instance =s EmptyString) || (token =s EmptyString) then (None, o)
  else
    let pendingEligible := match apps !! ref_ID instance with
                           | Some app => loaded && (app_PluginID app =s pluginID)
                                         && matches pluginID (ref_ID instance) (ref_Generation instance) generations
                           | None => false
                           end in
    match complete pluginID (ref_ID instance) (ref_Generation instance) token pendingEligible o with
    | ((_, true), o) => (Some (mkSessionChange sessionCompleted pluginID instance token), o)
    | ((_, false), o) => (None, o)
    end.
End Live.

(** ** Runs

    What a critical section hands to its caller: an admission, the session it
    promoted, the sessions that lost the foreground and must be ended, and whether it
    acquired the display for a critical presentation. *)

Record outcome := mkOutcome {
  out_begun : list sessionAdmission;
  out_promoted : list sessionTermination;
  out_released : list sessionTermination;
  out_acquired : bool;
}.

Definition quiet : outcome := mkOutcome [] [] [] false.

Definition listed (termination : sessionTermination) : list sessionTermination :=
  if tm_instanceID termination =s EmptyString then [] else [termination].

Definition released (terminations : list sessionTermination) : outcome := mkOutcome [] [] terminations false.

Definition termination_of (admission : sessionAdmission) : sessionTermination :=
  mkTermination (ad_pluginID admission) (ad_instanceID admission) (ad_generation admission) (ad_token admission).

(** What ending the foreground session [termination] takes away from [o]. *)
Definition ended_by (termination : sessionTermination) (o : SessionCoordinator) : list sessionTermination :=
  if is_foreground (tm_pluginID termination) (tm_instanceID termination) (tm_generation termination)
       (tm_token termination) o then listed termination else [].

Inductive step (issued : list sessionAdmission) : SessionCoordinator -> outcome -> SessionCoordinator -> Prop :=
  | step_begin o pluginID instanceID generation admission o' :
      pluginID <> EmptyString -> instanceID <> EmptyString ->
      begin pluginID instanceID generation o = (Some admission, o') ->
      step issued o (mkOutcome [admission] [] [] false) o'
  | step_begin_refused o pluginID instanceID generation o' :
      begin pluginID instanceID generation o = (None, o') -> step issued o quiet o'
  | step_cancel o admission : step issued o quiet (cancel admission o)
  | step_promote o admission pluginID source previous o' :
      admission ∈ issued -> promote admission pluginID source o = (Some previous, o') ->
      step issued o (mkOutcome [] [termination_of admission] (listed previous) false) o'
  | step_promote_refused o admission pluginID source o' :
      promote admission pluginID source o = (None, o') -> step issued o quiet o'
  | step_detach o app termination changed o' :
      detach app o = ((termination, changed), o') -> step issued o (released (listed termination)) o'
  | step_clear o expected expectedToken termination o' :
      clear expected expectedToken o = (termination, o') ->
      step issued o (released (match termination with Some t => listed t | None => [] end)) o'
  | step_invalidated o value change o' :
      PluginSessionInvalidated value o = (change, o') ->
      step issued o (released (ended_by (mkTermination (iv_PluginID value) (iv_InstanceID value)
                                           (iv_Generation value) (iv_Token value)) o)) o'
  | step_completed o loaded apps generations pluginID request change o' :
      PluginSessionCompleted loaded apps generations pluginID request o = (change, o') ->
      step issued o (released (if (pluginID =s EmptyString) || (ref_ID (cs_Instance request) =s EmptyString)
                                  || (cs_SessionToken request =s EmptyString) then []
                               else ended_by (mkTermination pluginID (ref_ID (cs_Instance request))
                                 (ref_Generation (cs_Instance request)) (cs_SessionToken request)) o)) o'
  | step_configuration o apps : step issued o quiet (configurationChanged apps o)
  | step_execution o loaded apps generations ctx_err pluginID request result o' :
      BeginExecution loaded apps generations ctx_err pluginID request o = (result, o') -> step issued o quiet o'
  | step_acquire o identity termination o' :
      acquireCritical identity o = (Some termination, o') ->
      step issued o (mkOutcome [] [] (listed termination) true) o'
  | step_acquire_refused o identity o' : acquireCritical identity o = (None, o') -> step issued o quiet o'
  | step_release o changed o' : releaseCritical o = (changed, o') -> step issued o quiet o'
  | step_fallback o clock_now pluginID baseline at_ :
      IsZero clock_now = false -> step issued o quiet (recordLifecycleFallback clock_now pluginID baseline at_ o)
  | step_cleanup o clock_now value :
      IsZero clock_now = false -> step issued o quiet (PluginSessionCleanup clock_now value o).

Definition begun (trace : list outcome) : list sessionAdmission := mjoin (map out_begun trace).
Definition promoted (trace : list outcome) : list sessionTermination := mjoin (map out_promoted trace).
Definition given_up (trace : list outcome) : list sessionTermination := mjoin (map out_released trace).
Definition acquisitions (trace : list outcome) : Z := Z.of_nat (length (List.filter out_acquired trace)).

(** Runs from [o0], where the admissions [issued] have been handed out. *)
Inductive steps (issued : list sessionAdmission) (o0 : SessionCoordinator) : list outcome -> SessionCoordinator -> Prop :=
  | steps_nil : steps issued o0 [] o0
  | steps_snoc trace o out o' :
      steps issued o0 trace o -> step (issued ++ begun trace) o out o' -> steps issued o0 (trace ++ [out]) o'.

(** ** Specification *)

(** The session that owns the foreground. *)
Definition owner (o : SessionCoordinator) : list sessionTermination := listed (foreground_termination o).

(** The foreground executes, waits for its input, or is taken over by a critical
    presentation, never two of these; a pending launch excludes the first and last. *)
Record Exclusive (o : SessionCoordinator) : Prop := {
  ex_executing : executing o = true ->
    foreground o <> EmptyString /\ criticalIdentity o = EmptyString /\ pendingForeground o = EmptyString;
  ex_critical : criticalIdentity o <> EmptyString ->
    executing o = false /\ foreground o = EmptyString /\ pendingForeground o = EmptyString;
  ex_foreground : foreground o = EmptyString ->
    foreground_termination o = no_termination /\ foregroundSource o = None /\ executing o = false;
  ex_pending : pendingForeground o = EmptyString ->
    pendingPlugin o = EmptyString /\ pendingGeneration o = 0 /\ pendingSession o = EmptyString;
}.

(** The pending launch, as its admission. *)
Definition pending_admission (o : SessionCoordinator) : sessionAdmission :=
  mkAdmission (pendingPlugin o) (pendingForeground o) (pendingSession o) (pendingGeneration o).

Record Sessions (trace : list outcome) (o : SessionCoordinator) : Prop := {
  se_conserved : promoted trace ≡ₚ given_up trace ++ owner o;
  se_issued : map ad_token (begun trace) = map (fun i => session_token (Z.of_nat i)) (seq 1 (length (begun trace)));
  se_next : nextSession o = Z.of_nat (length (begun trace));
  se_pending : pendingForeground o <> EmptyString ->
    pending_admission o ∈ begun trace /\ pendingSession o ∉ map tm_token (promoted trace);
  se_promoted : NoDup (map tm_token (promoted trace))
    /\ forall termination, termination ∈ promoted trace ->
       exists admission, admission ∈ begun trace /\ termination = termination_of admission;
  se_named : forall admission, admission ∈ begun trace -> ad_instanceID admission <> EmptyString;
}.

(** ** Lemmas *)

(** *** One session at a time *)

Lemma eqb_empty s : (s =s EmptyString) = true <-> s = EmptyString.
Proof. apply String.eqb_eq. Qed.

Lemma idle_exclusive : Exclusive NewSessionCoordinator.
Proof. by split. Qed.

Lemma clear_foreground_exclusive o : Exclusive o -> Exclusive (clearForegroundLocked o).
Proof. intros [He Hc Hf Hp]. split; try done. cbn. intros Hne. destruct (Hc Hne) as (_ & _ & ?). done. Qed.

Lemma clear_pending_exclusive o : Exclusive o -> Exclusive (clearPendingLocked o).
Proof.
  intros [He Hc Hf Hp]. split; cbn; try done.
  - intros Hx. by destruct (He Hx) as (? & ? & _).
  - intros Hne. by destruct (Hc Hne) as (? & ? & _).
Qed.

Lemma set_lifecycle_exclusive pluginID state o : Exclusive o -> Exclusive (set_lifecycle pluginID state o).
Proof. by intros []. Qed.

Create HintDb exclusive.
#[export] Hint Resolve idle_exclusive clear_foreground_exclusive clear_pending_exclusive set_lifecycle_exclusive : exclusive.

(** Case analysis on the tests of a critical section. *)
Ltac sections :=
  cbv zeta in *;
  repeat match goal with
  | H : Some _ = None |- _ => discriminate H
  | H : None = Some _ |- _ => discriminate H
  | H : Some _ = Some _ |- _ => injection H; clear H; intros; subst
  | H : (_, _) = (_, _) |- _ => injection H; clear H; intros; subst
  | H : context [if ?b then _ else _] |- _ =>
      lazymatch b with
      | context [if _ then _ else _] => fail
      | _ => lazymatch type of b with bool => destruct b eqn:? end
      end
  end.

(** Every path of an operation, for goals each path settles by computation. *)
Ltac every_path H :=
  unfold begin, promote, detach, clear, PluginSessionInvalidated, invalidate, PluginSessionCompleted, complete,
    BeginExecution, beginExecution, acquireCritical, releaseCritical in H;
  sections;
  repeat match type of H with
  | context [match ?e with Some _ => _ | None => _ end] => destruct e; sections
  end;
  repeat case_if; try done.

Lemma begin_exclusive pluginID instanceID generation o admission o' :
  begin pluginID instanceID generation o = (Some admission, o') -> instanceID <> EmptyString -> Exclusive o -> Exclusive o'.
Proof.
  unfold begin. intros H Hne [He Hc Hf Hp]. sections. apply orb_false_iff in Heqb as [Hcrit Hex].
  apply negb_false_iff, eqb_empty in Hcrit. split; cbn; try done; congruence.
Qed.

Lemma promote_exclusive admission pluginID source o previous o' :
  promote admission pluginID source o = (Some previous, o') -> ad_instanceID admission <> EmptyString ->
  Exclusive o -> Exclusive o'.
Proof.
  unfold promote. intros H Hne [He Hc Hf Hp]. sections. apply orb_false_iff in Heqb as [Hm _].
  unfold pendingMatchesAdmission in Hm. apply negb_false_iff in Hm. rewrite !andb_true_iff, !String.eqb_eq in Hm.
  destruct Hm as [[[_ Hi] _] _]. split; cbn; try done. intros Hcrit. destruct (Hc Hcrit) as (_ & _ & ?). congruence.
Qed.

Lemma detach_exclusive app o r o' : detach app o = (r, o') -> Exclusive o -> Exclusive o'.
Proof. unfold detach. intros H Hx. sections; auto with exclusive. Qed.

Lemma clear_exclusive expected expectedToken o r o' : clear expected expectedToken o = (r, o') -> Exclusive o -> Exclusive o'.
Proof. unfold clear. intros H Hx. sections; auto with exclusive. Qed.

Lemma invalidate_exclusive value o r o' : invalidate value o = (r, o') -> Exclusive o -> Exclusive o'.
Proof. unfold invalidate. intros H Hx. sections; repeat case_if; auto with exclusive. Qed.

Lemma complete_exclusive pluginID instanceID generation token eligible o r o' :
  complete pluginID instanceID generation token eligible o = (r, o') -> Exclusive o -> Exclusive o'.
Proof. unfold complete. intros H Hx. sections; repeat case_if; auto with exclusive. Qed.

Lemma begin_execution_exclusive ctx_err pluginID request o r o' :
  beginExecution ctx_err pluginID request o = (r, o') -> ref_ID (sx_Instance request) <> EmptyString ->
  Exclusive o -> Exclusive o'.
Proof.
  unfold beginExecution. intros H Hne Hx. pose proof Hx as [He Hc Hf Hp]. sections; try done.
  destruct ctx_err; sections; [done|]. rewrite !orb_false_iff, !negb_false_iff, !String.eqb_eq in Heqb1.
  destruct Heqb1 as [[[[Hex _] Hid] _] _]. apply negb_false_iff, eqb_empty in Heqb.
  split; cbn; try done; intros; split_and?; congruence.
Qed.

Lemma acquire_exclusive identity o r o' : acquireCritical identity o = (Some r, o') -> Exclusive o -> Exclusive o'.
Proof.
  unfold acquireCritical. intros H [He Hc Hf Hp]. sections.
  - apply negb_true_iff, String.eqb_neq in Heqb0. destruct (Hc Heqb0) as (Hx & ? & ?). split; try done; cbn; naive_solver congruence.
  - by split.
Qed.

Lemma release_exclusive o r o' : releaseCritical o = (r, o') -> Exclusive o -> Exclusive o'.
Proof.
  unfold releaseCritical. intros H [He Hc Hf Hp]. sections; [done|]. split; cbn; try done.
  intros Hex. by destruct (He Hex) as (? & ? & ?).
Qed.

(** *** Sessions are conserved *)

(** A critical section that admits and promotes nothing. *)
Record Keeps (o o' : SessionCoordinator) (lost : list sessionTermination) : Prop := {
  ke_owner : owner o = lost ++ owner o';
  ke_pending : pendingForeground o' = EmptyString \/ pending_admission o' = pending_admission o;
  ke_next : nextSession o' = nextSession o;
}.

Lemma keeps_refl o : Keeps o o [].
Proof. split; auto. Qed.

Lemma keeps_clear_pending o o' lost : Keeps o o' lost -> Keeps o (clearPendingLocked o') lost.
Proof. intros [Ho Hp Hn]. split; auto. Qed.

Lemma keeps_clear_foreground o o' : Keeps o o' [] -> Keeps o (clearForegroundLocked o') (owner o').
Proof. intros [Ho Hp Hn]. split; [|done|done]. rewrite Ho. by rewrite app_nil_r. Qed.

Lemma keeps_executing value o o' lost : Keeps o o' lost -> Keeps o (set_executing value o') lost.
Proof. by intros [Ho Hp Hn]. Qed.

Lemma keeps_critical identity sequence o o' lost : Keeps o o' lost -> Keeps o (set_critical identity sequence o') lost.
Proof. by intros [Ho Hp Hn]. Qed.

Lemma keeps_lifecycle pluginID state o o' lost : Keeps o o' lost -> Keeps o (set_lifecycle pluginID state o') lost.
Proof. by intros [Ho Hp Hn]. Qed.

Create HintDb keeps.
#[export] Hint Resolve keeps_refl keeps_clear_pending keeps_clear_foreground keeps_executing keeps_critical
  keeps_lifecycle : keeps.

Lemma is_foreground_spec t o :
  is_foreground (tm_pluginID t) (tm_instanceID t) (tm_generation t) (tm_token t) o = true <-> foreground_termination o = t.
Proof.
  unfold is_foreground, foreground_termination. rewrite !andb_true_iff, !String.eqb_eq, Z.eqb_eq.
  destruct t. cbn. naive_solver.
Qed.

Lemma cancel_keeps admission o : Keeps o (cancel admission o) [].
Proof. unfold cancel. case_if; auto with keeps. Qed.

Lemma configuration_keeps apps o : Keeps o (configurationChanged apps o) [].
Proof. unfold configurationChanged. case_if; auto with keeps. Qed.

Lemma clear_foreground_keeps o o' t :
  Keeps o o' [] -> foreground_termination o' = t -> Keeps o (clearForegroundLocked o') (listed t).
Proof. intros Hk <-. by apply keeps_clear_foreground. Qed.

Lemma detach_keeps app o t changed o' : detach app o = ((t, changed), o') -> Keeps o o' (listed t).
Proof.
  unfold detach. intros H. sections; auto with keeps;
    (apply clear_foreground_keeps; [auto with keeps|]);
    apply andb_true_iff in Heqb0 as [Hf Hp]; apply String.eqb_eq in Hf, Hp; unfold foreground_termination; cbn in *; congruence.
Qed.

Lemma clear_keeps expected expectedToken o t o' :
  clear expected expectedToken o = (t, o') -> Keeps o o' (match t with Some t => listed t | None => [] end).
Proof. unfold clear. intros H. sections; auto with keeps; by apply clear_foreground_keeps; [auto with keeps|]. Qed.

(** Ending a session that may be pending, and may own the foreground. *)
Lemma end_session_keeps t pending o :
  let o1 := if (pending : bool) then clearPendingLocked o else o in
  let found := is_foreground (tm_pluginID t) (tm_instanceID t) (tm_generation t) (tm_token t) o in
  Keeps o (if found then clearForegroundLocked o1 else o1) (ended_by t o).
Proof.
  unfold ended_by. cbv zeta. destruct (is_foreground _ _ _ _ o) eqn:Hf; [|destruct pending; auto with keeps].
  apply is_foreground_spec in Hf. destruct pending; (apply clear_foreground_keeps; [auto with keeps|done]).
Qed.

Lemma invalidated_keeps value o change o' :
  PluginSessionInvalidated value o = (change, o') ->
  Keeps o o' (ended_by (mkTermination (iv_PluginID value) (iv_InstanceID value) (iv_Generation value) (iv_Token value)) o).
Proof.
  unfold PluginSessionInvalidated, invalidate. intros H.
  pose proof (end_session_keeps (mkTermination (iv_PluginID value) (iv_InstanceID value) (iv_Generation value) (iv_Token value))
    (is_pending (iv_PluginID value) (iv_InstanceID value) (iv_Generation value) (iv_Token value) o) o) as Hk.
  cbv zeta in H. cbn [tm_pluginID tm_instanceID tm_generation tm_token] in Hk.
  destruct (is_pending _ _ _ _ o || is_foreground _ _ _ _ o); by injection H as _ <-.
Qed.

Lemma completed_keeps loaded apps generations pluginID request o change o' :
  PluginSessionCompleted loaded apps generations pluginID request o = (change, o') ->
  Keeps o o' (if (pluginID =s EmptyString) || (ref_ID (cs_Instance request) =s EmptyString)
                 || (cs_SessionToken request =s EmptyString) then []
              else ended_by (mkTermination pluginID (ref_ID (cs_Instance request))
                (ref_Generation (cs_Instance request)) (cs_SessionToken request)) o).
Proof.
  unfold PluginSessionCompleted, complete. intros H. destruct (_ || _); [injection H as _ <-; auto with keeps|].
  cbv zeta in H. set (eligible := match apps !! _ with Some _ => _ | None => false end) in H.
  pose proof (end_session_keeps (mkTermination pluginID (ref_ID (cs_Instance request))
    (ref_Generation (cs_Instance request)) (cs_SessionToken request))
    (eligible && is_pending pluginID (ref_ID (cs_Instance request)) (ref_Generation (cs_Instance request))
       (cs_SessionToken request) o) o) as Hk.
  cbn [tm_pluginID tm_instanceID tm_generation tm_token] in Hk.
  destruct ((eligible && _) || is_foreground _ _ _ _ o); by injection H as _ <-.
Qed.

Lemma execution_keeps loaded apps generations ctx_err pluginID request o r o' :
  BeginExecution loaded apps generations ctx_err pluginID request o = (r, o') -> Keeps o o' [].
Proof.
  unfold BeginExecution, beginExecution. intros H. destruct (SessionExecutionRequest_Validate _); [by sections; auto with keeps|].
  destruct (negb (match apps !! _ with Some _ => _ | None => false end)); [by sections; auto with keeps|].
  repeat case_if; sections; auto with keeps. destruct ctx_err; sections; auto with keeps.
Qed.

Lemma acquire_keeps identity o t o' : acquireCritical identity o = (Some t, o') -> Keeps o o' (listed t).
Proof.
  unfold acquireCritical. intros H. sections; [auto with keeps|].
  apply keeps_critical, clear_foreground_keeps; [auto with keeps|done].
Qed.

Lemma release_keeps o changed o' : releaseCritical o = (changed, o') -> Keeps o o' [].
Proof. unfold releaseCritical. intros H. sections; auto with keeps. Qed.

Lemma fallback_keeps clock_now pluginID baseline at_ o : Keeps o (recordLifecycleFallback clock_now pluginID baseline at_ o) [].
Proof. unfold recordLifecycleFallback. cbv zeta. case_if; auto with keeps. Qed.

Lemma cleanup_keeps clock_now value o : Keeps o (PluginSessionCleanup clock_now value o) [].
Proof. unfold PluginSessionCleanup. cbv zeta. repeat case_if; auto with keeps. Qed.

Lemma identifier_not_empty value : ValidIdentifier value -> value <> EmptyString.
Proof. intros [(rn & Hin & _) _ _ _] ->. by apply elem_of_nil in Hin. Qed.

(** *** The record of a run *)

Lemma started_snoc trace out : begun (trace ++ [out]) = begun trace ++ out_begun out.
Proof. unfold begun. rewrite map_app, join_app. simpl. by rewrite app_nil_r. Qed.
Lemma promoted_snoc trace out : promoted (trace ++ [out]) = promoted trace ++ out_promoted out.
Proof. unfold promoted. rewrite map_app, join_app. simpl. by rewrite app_nil_r. Qed.
Lemma given_up_snoc trace out : given_up (trace ++ [out]) = given_up trace ++ out_released out.
Proof. unfold given_up. rewrite map_app, join_app. simpl. by rewrite app_nil_r. Qed.

Lemma initial_sessions : Sessions [] NewSessionCoordinator.
Proof.
  split; try done; [split; [constructor|by intros t ?%elem_of_nil]|by intros a ?%elem_of_nil].
Qed.

Lemma keeps_sessions trace o o' lost acquired :
  Sessions trace o -> Keeps o o' lost -> Sessions (trace ++ [mkOutcome [] [] lost acquired]) o'.
Proof.
  intros [Hc Hi Hn Hp [Hnd Hpr] Hna] [Ho Hk Hx].
  split; rewrite ?started_snoc, ?promoted_snoc, ?given_up_snoc, ?app_nil_r; try done.
  - rewrite Hc, Ho, app_assoc. done.
  - by rewrite Hx.
  - intros Hne. destruct Hk as [?|Hk]; [done|]. rewrite Hk.
    assert (Hs : pendingSession o' = pendingSession o) by (by injection Hk). rewrite Hs. apply Hp.
    assert (Hf : pendingForeground o' = pendingForeground o) by (by injection Hk). congruence.
Qed.

(** Tokens of distinct launches are distinct. *)
Lemma session_token_inj a b :
  0 <= a < two64 -> 0 <= b < two64 -> session_token a = session_token b -> a = b.
Proof.
  intros Ha Hb Heq. apply format_uint_inj; [done|done|]. unfold session_token in Heq. by repeat injection Heq as Heq.
Qed.

Lemma begin_sessions trace o pluginID instanceID generation admission o' :
  Sessions trace o -> instanceID <> EmptyString -> Z.of_nat (length (begun trace)) + 1 < two64 ->
  begin pluginID instanceID generation o = (Some admission, o') ->
  Sessions (trace ++ [mkOutcome [admission] [] [] false]) o'.
Proof.
  intros [Hc Hi Hn Hp [Hnd Hpr] Hna] Hne Hlt H. unfold begin in H. sections.
  assert (Hnext : u64_succ (nextSession o) = Z.of_nat (length (begun trace)) + 1) by (rewrite Hn; apply u64_succ_small; lia).
  split; rewrite ?started_snoc, ?promoted_snoc, ?given_up_snoc, ?app_nil_r; cbn [out_begun out_promoted out_released]; try done.
  - rewrite map_app, length_app, seq_app, map_app, Hi. simpl. f_equal. rewrite Hnext. do 2 f_equal. lia.
  - cbn. rewrite Hnext, length_app. simpl. lia.
  - cbn. intros _. split; [rewrite elem_of_app; right; by left|].
    intros (t & Ht & Hin)%list_elem_of_fmap. destruct (Hpr t Hin) as (a & Ha & ->). cbn in Ht.
    assert (Hta : ad_token a ∈ map ad_token (begun trace)) by (by apply list_elem_of_fmap_2).
    rewrite Hi in Hta. apply list_elem_of_fmap in Hta as (i & Hti & Hini). apply elem_of_seq in Hini.
    rewrite Hti in Ht. apply session_token_inj in Ht; lia.
  - split; [done|]. intros t Ht. destruct (Hpr t Ht) as (a & Ha & ->). exists a. split; [|done]. rewrite elem_of_app. by left.
  - intros a [Ha|Ha%list_elem_of_singleton]%elem_of_app; [by apply Hna|]. by subst.
Qed.

Lemma promote_sessions trace o admission pluginID source previous o' :
  Sessions trace o -> admission ∈ begun trace -> promote admission pluginID source o = (Some previous, o') ->
  Sessions (trace ++ [mkOutcome [] [termination_of admission] (listed previous) false]) o'.
Proof.
  intros [Hc Hi Hn Hp [Hnd Hpr] Hna] Hin H. unfold promote in H. sections.
  apply orb_false_iff in Heqb as [Hm Hpl]. apply negb_false_iff in Hm, Hpl. apply String.eqb_eq in Hpl as ->.
  unfold pendingMatchesAdmission in Hm. rewrite !andb_true_iff, !String.eqb_eq, Z.eqb_eq in Hm.
  destruct Hm as [[[Hp1 Hp2] Hp3] Hp4]. pose proof (Hna admission Hin) as Hne.
  destruct (Hp ltac:(congruence)) as [_ Hfresh].
  split; rewrite ?started_snoc, ?promoted_snoc, ?given_up_snoc, ?app_nil_r; cbn [out_begun out_promoted out_released]; try done.
  - assert (Howner : forall o1, owner (set_foreground admission (ad_pluginID admission) source o1) = [termination_of admission]).
    { intros o1. unfold owner, listed. cbn. by destruct (String.eqb_spec (ad_instanceID admission) EmptyString). }
    by rewrite Hc, Howner.
  - split.
    + rewrite map_app. apply NoDup_app. split_and!; [done| |apply NoDup_singleton].
      intros t Ht Ht'%list_elem_of_singleton. cbn in Ht'. subst. apply Hfresh. by rewrite Hp4.
    + intros t [Ht|Ht%list_elem_of_singleton]%elem_of_app; [by apply Hpr|]. exists admission. by subst.
Qed.

Lemma step_sessions trace o out o' :
  Sessions trace o -> Z.of_nat (length (begun (trace ++ [out]))) < two64 -> step (begun trace) o out o' ->
  Sessions (trace ++ [out]) o'.
Proof.
  intros Hs Hlt Hstep. rewrite started_snoc, length_app in Hlt.
  destruct Hstep as [o pluginID instanceID generation admission o' _ Hne Hb|o pluginID instanceID generation o' Hb|o admission
    |o admission pluginID source previous o' Hin Hb|o admission pluginID source o' Hb|o app t changed o' Hb
    |o expected expectedToken t o' Hb|o value change o' Hb|o loaded apps generations pluginID request change o' Hb|o apps
    |o loaded apps generations ctx_err pluginID request r o' Hb|o identity t o' Hb|o identity o' Hb|o changed o' Hb
    |o clock_now pluginID baseline at_ Hclock|o clock_now value Hclock];
    try (eapply keeps_sessions; [exact Hs|]).
  - eapply begin_sessions; [done|done| |done]. simpl in Hlt. lia.
  - unfold begin in Hb. sections. apply keeps_refl.
  - apply cancel_keeps.
  - by eapply promote_sessions.
  - unfold promote in Hb. sections. apply keeps_refl.
  - by eapply detach_keeps.
  - by eapply clear_keeps.
  - by eapply invalidated_keeps.
  - by eapply completed_keeps.
  - apply configuration_keeps.
  - by eapply execution_keeps.
  - by eapply acquire_keeps.
  - unfold acquireCritical in Hb. sections; apply keeps_refl.
  - by eapply release_keeps.
  - apply fallback_keeps.
  - apply cleanup_keeps.
Qed.

Lemma steps_sessions trace o :
  steps [] NewSessionCoordinator trace o -> Z.of_nat (length (begun trace)) < two64 -> Sessions trace o.
Proof.
  intros Hsteps. induction Hsteps as [|trace o out o' Hsteps IH Hstep]; intros Hlt; [apply initial_sessions|].
  apply (step_sessions trace o); [apply IH|done..]. rewrite started_snoc, length_app in Hlt. lia.
Qed.

Lemma step_exclusive issued o out o' :
  (forall admission, admission ∈ issued -> ad_instanceID admission <> EmptyString) ->
  step issued o out o' -> Exclusive o -> Exclusive o'.
Proof.
  intros Hna Hstep Hx. destruct Hstep as [o pluginID instanceID generation admission o' _ Hne Hb|o pluginID instanceID generation o' Hb|o admission
    |o admission pluginID source previous o' Hin Hb|o admission pluginID source o' Hb|o app t changed o' Hb
    |o expected expectedToken t o' Hb|o value change o' Hb|o loaded apps generations pluginID request change o' Hb|o apps
    |o loaded apps generations ctx_err pluginID request r o' Hb|o identity t o' Hb|o identity o' Hb|o changed o' Hb
    |o clock_now pluginID baseline at_ Hclock|o clock_now value Hclock].
  - by eapply begin_exclusive.
  - unfold begin in Hb. by sections.
  - unfold cancel. case_if; auto with exclusive.
  - eapply promote_exclusive; [done|by apply Hna|done].
  - unfold promote in Hb. by sections.
  - by eapply detach_exclusive.
  - by eapply clear_exclusive.
  - unfold PluginSessionInvalidated in Hb. destruct (invalidate value o) as [b o1] eqn:Hi.
    destruct b; injection Hb as _ <-; by eapply invalidate_exclusive.
  - unfold PluginSessionCompleted in Hb. destruct (_ || _); [by sections|]. cbv zeta in Hb.
    destruct (complete _ _ _ _ _ o) as [[b1 b2] o1] eqn:Hi. destruct b2; injection Hb as _ <-; by eapply complete_exclusive.
  - unfold configurationChanged. case_if; auto with exclusive.
  - unfold BeginExecution in Hb. destruct (SessionExecutionRequest_Validate request) eqn:Hv; [by sections|].
    cbv zeta in Hb. destruct (negb _); [by sections|]. destruct (beginExecution ctx_err pluginID request o) as [e o1] eqn:He.
    assert (ref_ID (sx_Instance request) <> EmptyString).
    { unfold SessionExecutionRequest_Validate in Hv. apply validateSessionRequest_None in Hv as [[Hid _] _].
      by apply identifier_not_empty. }
    destruct e; injection Hb as _ <-; by eapply begin_execution_exclusive.
  - by eapply acquire_exclusive.
  - unfold acquireCritical in Hb. by sections.
  - by eapply release_exclusive.
  - unfold recordLifecycleFallback. cbv zeta. case_if; auto with exclusive.
  - unfold PluginSessionCleanup. cbv zeta. repeat case_if; auto with exclusive.
Qed.

Lemma steps_exclusive trace o :
  steps [] NewSessionCoordinator trace o -> Exclusive o /\ forall a, a ∈ begun trace -> ad_instanceID a <> EmptyString.
Proof.
  induction 1 as [|trace o out o' Hsteps [IHx IHa] Hstep]; [split; [apply idle_exclusive|by intros a ?%elem_of_nil]|].
  split; [by eapply step_exclusive|]. rewrite started_snoc. intros a [Ha|Ha]%elem_of_app; [by apply IHa|].
  inversion Hstep; subst; cbn in Ha; try (by apply elem_of_nil in Ha).
  apply list_elem_of_singleton in Ha as ->. unfold begin in *. by sections.
Qed.

(** *** Launcher admissions *)

Lemma lifecycle_critical pluginID state o :
  criticalSequence (set_lifecycle pluginID state o) = criticalSequence o
  /\ criticalIdentity (set_lifecycle pluginID state o) = criticalIdentity o.
Proof. done. Qed.

(** Only [acquireCritical] and [releaseCritical] touch the critical ownership. *)
Definition same_critical (o o' : SessionCoordinator) : Prop :=
  criticalSequence o' = criticalSequence o /\ (criticalIdentity o = EmptyString -> criticalIdentity o' = EmptyString).

Lemma step_critical issued o out o' :
  step issued o out o' ->
  if out_acquired out then criticalSequence o' = u64_succ (criticalSequence o) else same_critical o o'.
Proof.
  unfold same_critical.
  destruct 1 as [o pluginID instanceID generation admission o' _ Hne Hb|o pluginID instanceID generation o' Hb|o admission
    |o admission pluginID source previous o' Hin Hb|o admission pluginID source o' Hb|o app t changed o' Hb
    |o expected expectedToken t o' Hb|o value change o' Hb|o loaded apps generations pluginID request change o' Hb|o apps
    |o loaded apps generations ctx_err pluginID request r o' Hb|o identity t o' Hb|o identity o' Hb|o changed o' Hb
    |o clock_now pluginID baseline at_ Hclock|o clock_now value Hclock]; cbn [out_acquired quiet released].
  all: try (every_path Hb; done).
  - unfold cancel. by case_if.
  - unfold configurationChanged. by case_if.
  - unfold recordLifecycleFallback. cbv zeta. by case_if.
  - unfold PluginSessionCleanup. cbv zeta. by repeat case_if.
Qed.

Lemma acquisitions_snoc trace out : acquisitions (trace ++ [out]) = acquisitions trace + if out_acquired out then 1 else 0.
Proof.
  unfold acquisitions. rewrite List.filter_app, length_app. simpl. destruct (out_acquired out); simpl; lia.
Qed.

Lemma steps_critical issued o later o' :
  steps issued o later o' -> 0 <= criticalSequence o < two64 ->
  criticalSequence o' = u64 (criticalSequence o + acquisitions later)
  /\ (acquisitions later = 0 -> criticalIdentity o = EmptyString -> criticalIdentity o' = EmptyString).
Proof.
  intros Hsteps Hr. induction Hsteps as [|later o1 out o' Hsteps [IHs IHi] Hstep].
  - split; [|done]. change (acquisitions []) with 0. rewrite Z.add_0_r. by rewrite u64_small.
  - rewrite acquisitions_snoc. pose proof (step_critical _ _ _ _ Hstep) as Hc.
    assert (0 <= acquisitions later) by (unfold acquisitions; lia). destruct (out_acquired out).
    + split; [|lia]. rewrite Hc, IHs. unfold u64_succ, u64. rewrite Zplus_mod_idemp_l. f_equal. lia.
    + destruct Hc as [-> Hc]. rewrite IHs, Z.add_0_r. split; [done|]. intros Hz Hi. by apply Hc, IHi.
Qed.

(** *** Lifecycle errors *)

Definition errored (entry : string * pluginSessionLifecycleState) : Prop := lc_errorCode entry.2 <> EmptyString.

(** [entry] is not more recent than the error at [at_] of [plugin]. *)
Definition not_later (entry : string * pluginSessionLifecycleState) (at_ : Time) (plugin : string) : Prop :=
  instant (lc_errorAt entry.2) < instant at_
  \/ (instant (lc_errorAt entry.2) = instant at_ /\ cmp_strings entry.1 plugin <= 0).

(** The selection is empty, or the most recent error of [entries]. *)
Definition latest (entries : list (string * pluginSessionLifecycleState)) (selected : string * Time * string) : Prop :=
  let '(code, at_, plugin) := selected in
  (selected = (EmptyString, zero_time, EmptyString) /\ forall entry, entry ∈ entries -> ~ errored entry)
  \/ (exists state, (plugin, state) ∈ entries /\ errored (plugin, state) /\ lc_errorCode state = code
      /\ lc_errorAt state = at_ /\ forall entry, entry ∈ entries -> errored entry -> not_later entry at_ plugin).

Definition stamped (entries : list (string * pluginSessionLifecycleState)) : Prop :=
  forall entry, entry ∈ entries -> errored entry -> IsZero (lc_errorAt entry.2) = false.

Lemma not_later_refl p state : not_later (p, state) (lc_errorAt state) p.
Proof. right. cbn. split; [done|]. by rewrite cmp_strings_refl. Qed.

Lemma not_later_trans entry p state at_ plugin :
  not_later entry (lc_errorAt state) p -> not_later (p, state) at_ plugin -> not_later entry at_ plugin.
Proof.
  unfold not_later. cbn. intros [H1|[H1 H2]] [H3|[H3 H4]]; try (left; lia).
  right. split; [lia|]. pose proof (cmp_strings_le_trans entry.1 p plugin) as Ht.
  rewrite (cmp_strings_antisym entry.1 p), (cmp_strings_antisym p plugin), (cmp_strings_antisym entry.1 plugin) in Ht. lia.
Qed.

(** One iteration keeps the most recent error of what it has seen. *)
Lemma more_recent_latest entries selected p state :
  latest entries selected -> stamped (entries ++ [(p, state)]) ->
  latest (entries ++ [(p, state)]) (more_recent selected (p, state)).
Proof.
  destruct selected as [[code at_] plugin]. intros Hl Hst. unfold more_recent.
  destruct (String.eqb_spec (lc_errorCode state) EmptyString) as [He|He].
  - assert (Hn : ~ errored (p, state)) by (intros Hc; by apply Hc).
    destruct Hl as [[Heq Hnone]|(st & Hin & Her & Hc & Ha & Hall)]; [left|right].
    + split; [done|]. intros entry [Hin| ->%list_elem_of_singleton]%elem_of_app; [by apply Hnone|done].
    + exists st. split_and!; try done; [rewrite elem_of_app; by left|].
      intros entry [Hi| ->%list_elem_of_singleton]%elem_of_app Hx; [by apply Hall|done].
  - assert (Hin0 : (p, state) ∈ entries ++ [(p, state)]) by (rewrite elem_of_app; right; by left).
    assert (Htake : (forall entry, entry ∈ entries -> errored entry -> not_later entry (lc_errorAt state) p) ->
      latest (entries ++ [(p, state)]) (lc_errorCode state, lc_errorAt state, p)).
    { intros Hall. right. exists state. split_and!; try done.
      intros entry [Hi| ->%list_elem_of_singleton]%elem_of_app Hx; [by apply Hall|apply not_later_refl]. }
    destruct Hl as [[Heq Hnone]|(st & Hin & Her & Hc & Ha & Hall)].
    + injection Heq as -> -> ->. cbn [IsZero instant zero_time Z.eqb orb].
      apply Htake. intros entry Hi Hx. by destruct (Hnone entry Hi).
    + subst at_ code.
      assert (Hz : IsZero (lc_errorAt st) = false) by (apply (Hst (plugin, st)); [rewrite elem_of_app; by left|done]).
      rewrite Hz. cbn [orb]. pose proof (cmp_strings_antisym p plugin) as Hanti.
      destruct (After (lc_errorAt state) (lc_errorAt st)
        || (instant (lc_errorAt state) =? instant (lc_errorAt st)) && (0 <? cmp_strings p plugin)) eqn:Hcmp.
      * apply Htake. intros entry Hi Hx. apply (not_later_trans _ plugin st); [by apply Hall|].
        unfold not_later, After in *. cbn. lia.
      * right. exists st. split_and!; try done; [rewrite elem_of_app; by left|].
        intros entry [Hi| ->%list_elem_of_singleton]%elem_of_app Hx; [by apply Hall|].
        unfold not_later, After in *. cbn. lia.
Qed.

Lemma diagnostics_in_latest order : stamped order -> latest order (diagnostics_in order).
Proof.
  unfold diagnostics_in. induction order as [|entry order IH] using rev_ind; intros Hst.
  - left. split; [done|]. by intros entry ?%elem_of_nil.
  - rewrite fold_left_app. cbn [fold_left]. destruct entry as [p state]. apply more_recent_latest; [|done].
    apply IH. intros entry Hi. apply Hst. rewrite elem_of_app. by left.
Qed.

Lemma latest_unique order order' selected selected' :
  order ≡ₚ order' -> NoDup (map fst order) -> latest order selected -> latest order' selected' -> selected = selected'.
Proof.
  intros Hp Hnd Hl Hl'. destruct selected as [[code at_] plugin], selected' as [[code' at'] plugin'].
  destruct Hl as [[Heq Hnone]|(st & Hin & Her & Hc & Ha & Hall)],
    Hl' as [[Heq' Hnone']|(st' & Hin' & Her' & Hc' & Ha' & Hall')].
  - by rewrite Heq, Heq'.
  - rewrite <- Hp in Hin'. by destruct (Hnone _ Hin').
  - rewrite Hp in Hin. by destruct (Hnone' _ Hin).
  - pose proof Hin as Hin2. rewrite Hp in Hin2. pose proof Hin' as Hin2'. rewrite <- Hp in Hin2'.
    specialize (Hall _ Hin2' Her'). specialize (Hall' _ Hin2 Her). subst. unfold not_later in *. cbn in *.
    pose proof (cmp_strings_antisym plugin plugin').
    assert (plugin = plugin') as <- by (apply cmp_strings_eq; lia).
    assert (He : (plugin, st) = (plugin, st')) by (by apply (NoDup_map_inj fst order)).
    by injection He as <-.
Qed.

(** Every recorded error has a time. *)
Definition Stamped (o : SessionCoordinator) : Prop :=
  forall pluginID state, lifecycles o !! pluginID = Some state -> lc_errorCode state <> EmptyString ->
  IsZero (lc_errorAt state) = false.

Lemma set_lifecycle_stamped pluginID state o :
  Stamped o -> (lc_errorCode state <> EmptyString -> IsZero (lc_errorAt state) = false) -> Stamped (set_lifecycle pluginID state o).
Proof.
  intros Hs Hst p st. cbn. intros [[<- <-]|[_ Hl]]%lookup_insert_Some; [done|by apply (Hs p)].
Qed.

Lemma UTC_zero t : IsZero (UTC t) = IsZero t.
Proof. done. Qed.

Lemma lifecycle_baseline_insert pluginID state o p :
  lifecycleBaseline p (set_lifecycle pluginID state o) = if decide (pluginID = p) then lc_sequence state else lifecycleBaseline p o.
Proof.
  unfold lifecycleBaseline, lifecycle_of. cbn. case_decide as He.
  - subst. by rewrite lookup_insert_eq.
  - by rewrite lookup_insert_ne.
Qed.

Lemma step_lifecycles issued o out o' :
  step issued o out o' ->
  (Stamped o -> Stamped o') /\ forall p, lifecycleBaseline p o <= lifecycleBaseline p o'.
Proof.
  intros Hstep. assert (Hsame : lifecycles o' = lifecycles o -> (Stamped o -> Stamped o') /\ forall p, lifecycleBaseline p o <= lifecycleBaseline p o').
  { unfold Stamped, lifecycleBaseline, lifecycle_of. intros ->. by split. }
  destruct Hstep as [o pluginID instanceID generation admission o' _ Hne Hb|o pluginID instanceID generation o' Hb|o admission
    |o admission pluginID source previous o' Hin Hb|o admission pluginID source o' Hb|o app t changed o' Hb
    |o expected expectedToken t o' Hb|o value change o' Hb|o loaded apps generations pluginID request change o' Hb|o apps
    |o loaded apps generations ctx_err pluginID request r o' Hb|o identity t o' Hb|o identity o' Hb|o changed o' Hb
    |o clock_now pluginID baseline at_ Hclock|o clock_now value Hclock].
  all: try (apply Hsame; every_path Hb; done).
  - apply Hsame. unfold cancel. by case_if.
  - apply Hsame. unfold configurationChanged. by case_if.
  - unfold recordLifecycleFallback. cbv zeta. destruct (lc_sequence (lifecycle_of pluginID o) <=? baseline); [|by split]. split.
    + intros Hs. apply set_lifecycle_stamped; [done|]. intros _. cbn. destruct (IsZero at_) eqn:Hz; by rewrite UTC_zero.
    + intros p. rewrite lifecycle_baseline_insert. case_decide; [by subst|done].
  - unfold PluginSessionCleanup. destruct (_ || _); [by split|]. cbv zeta. destruct (_ || _) eqn:Hold; [by split|]. split.
    + intros Hs. apply set_lifecycle_stamped; [done|]. case_if; cbn; [|done]. intros _. destruct (IsZero (UTC (cl_At value))) eqn:Hz; [|done].
      by rewrite UTC_zero.
    + intros p. rewrite lifecycle_baseline_insert. case_decide; [|done]. subst. unfold lifecycleBaseline. case_if; cbn; lia.
Qed.

Lemma steps_stamped trace o : steps [] NewSessionCoordinator trace o -> Stamped o.
Proof.
  induction 1 as [|trace o out o' Hsteps IH Hstep]; [intros p st; cbn; by rewrite lookup_empty|].
  by apply (proj1 (step_lifecycles _ _ _ _ Hstep)).
Qed.

(** A run that launches a session, promotes it and takes the display for a critical
    presentation. *)
Definition demo_admission : sessionAdmission := mkAdmission "clock" "timer" "interactive-1" 4.
Definition demo_pending : SessionCoordinator := (begin "clock" "timer" 4 NewSessionCoordinator).2.
Definition demo_foreground : SessionCoordinator := (promote demo_admission "clock" None demo_pending).2.
Definition demo_critical : SessionCoordinator := (acquireCritical "alarm" demo_foreground).2.
Definition demo_failed : SessionCoordinator :=
  recordLifecycleFallback (mkTime 9 0) "clock" 0 (mkTime 7 0) demo_critical.

Definition demo_promotion : list outcome :=
  [mkOutcome [demo_admission] [] [] false; mkOutcome [] [termination_of demo_admission] [] false].
Definition demo_run : list outcome :=
  demo_promotion ++ [mkOutcome [] [] [termination_of demo_admission] true] ++ [quiet].

Lemma demo_promotion_steps : steps [] NewSessionCoordinator demo_promotion demo_foreground.
Proof.
  assert (H1 : steps [] NewSessionCoordinator [mkOutcome [demo_admission] [] [] false] demo_pending).
  { apply (steps_snoc [] NewSessionCoordinator [] _ _ _ (steps_nil _ _)). by apply (step_begin _ _ "clock" "timer" 4). }
  apply (steps_snoc _ _ _ _ _ _ H1), (step_promote _ _ demo_admission "clock" None no_termination); [by left|done].
Qed.

Lemma demo_run_steps : steps [] NewSessionCoordinator demo_run demo_failed.
Proof.
  assert (H1 : steps [] NewSessionCoordinator (demo_promotion ++ [mkOutcome [] [] [termination_of demo_admission] true]) demo_critical).
  { apply (steps_snoc _ _ _ _ _ _ demo_promotion_steps).
    by apply (step_acquire _ _ "alarm" (termination_of demo_admission)). }
  unfold demo_run. rewrite app_assoc. apply (steps_snoc _ _ _ _ _ _ H1). by apply step_fallback.
Qed.

(** ** Properties *)

(** C18: no session is lost and none is ended twice. In every run of fewer than 2^64
    launches, the sessions that were ever promoted to the foreground are exactly those
    that were handed to the caller for termination, or ended by their plugin, and the
    one that owns the foreground; every launch has its own token, and a launch is
    promoted at most once. *)
Theorem sessions_conserved trace o :
  steps [] NewSessionCoordinator trace o -> Z.of_nat (length (begun trace)) < two64 ->
  promoted trace ≡ₚ given_up trace ++ owner o
  /\ NoDup (map ad_token (begun trace)) /\ NoDup (map tm_token (promoted trace))
  /\ forall termination, termination ∈ promoted trace ->
     exists admission, admission ∈ begun trace /\ termination = termination_of admission.
Proof.
  intros Hsteps Hlt. destruct (steps_sessions trace o Hsteps Hlt) as [Hc Hi _ _ [Hnd Hpr] _].
  split_and!; try done. rewrite Hi. apply NoDup_fmap_2_strong; [|apply NoDup_ListNoDup, List.seq_NoDup].
  intros i j Hini Hinj Heq. apply elem_of_seq in Hini, Hinj. apply session_token_inj in Heq; lia.
Qed.

(** In every run, the foreground has one mode at a time: a session that executes owns
    the foreground and excludes pending launches and critical presentations, a critical
    presentation excludes sessions and launches, and input is routed only to the exact
    session that owns the foreground, while it neither executes nor is overridden. *)
Theorem coordinator_exclusive trace o :
  steps [] NewSessionCoordinator trace o ->
  Exclusive o
  /\ forall instanceID generation token, inputForegroundSnapshot o = (instanceID, generation, token) ->
     instanceID <> EmptyString ->
     owner o = [mkTermination (foregroundPlugin o) instanceID generation token]
     /\ one_of (stateLocked o) [foregroundPending; foregroundInteractive] = true.
Proof.
  intros Hsteps. destruct (steps_exclusive trace o Hsteps) as [Hx _]. split; [done|].
  intros instanceID generation token H Hne. unfold inputForegroundSnapshot in H.
  destruct (executing o || negb (criticalIdentity o =s EmptyString)) eqn:Hb; [congruence|].
  injection H as <- <- <-. apply orb_false_iff in Hb as [Hex Hcrit]. unfold owner, listed, stateLocked. cbn.
  rewrite Hcrit, Hex. destruct (String.eqb_spec (foreground o) EmptyString); [done|]. split; [done|].
  by destruct (pendingForeground o =s EmptyString).
Qed.

(** A launcher admission is current exactly as long as no critical presentation has
    taken the display since it was granted, not even one that has left again, and no
    session executes. *)
Theorem launcher_admission_fresh issued o later o' sequence :
  steps issued o later o' -> 0 <= criticalSequence o < two64 -> acquisitions later < two64 ->
  beginLauncherAdmission o = (sequence, true) ->
  launcherAdmissionCurrent sequence o' = true <-> acquisitions later = 0 /\ executing o' = false.
Proof.
  intros Hsteps Hr Hlt Hb. destruct (steps_critical issued o later o' Hsteps Hr) as [Hs Hi].
  unfold beginLauncherAdmission in Hb. destruct (negb (criticalIdentity o =s EmptyString) || executing o) eqn:Hg; [done|].
  injection Hb as <-. apply orb_false_iff in Hg as [Hcrit _]. apply negb_false_iff, eqb_empty in Hcrit.
  assert (0 <= acquisitions later) by (unfold acquisitions; lia).
  unfold launcherAdmissionCurrent. rewrite !andb_true_iff, eqb_empty, negb_true_iff, Z.eqb_eq, Hs. split.
  - intros [[_ Hex] Hz]. split; [|done]. destruct (Z_lt_ge_dec (criticalSequence o + acquisitions later) two64) as [Hlo|Hhi].
    + rewrite u64_small in Hz; lia.
    + assert (Hw : u64 (criticalSequence o + acquisitions later) = criticalSequence o + acquisitions later - two64).
      { unfold u64. symmetry. apply (Z.mod_unique_pos _ _ 1); lia. }
      lia.
  - intros [Hz Hex]. rewrite Hz, Z.add_0_r. split_and!; [by apply Hi|done|by apply u64_small].
Qed.

(** The diagnostics report the most recent lifecycle error over all plugins, with its
    own code and time, or none when no plugin has one, in whichever order the map of
    plugins is visited. *)
Theorem diagnostics_latest trace o order order' :
  steps [] NewSessionCoordinator trace o ->
  order ≡ₚ map_to_list (lifecycles o) -> order' ≡ₚ map_to_list (lifecycles o) ->
  Diagnostics order o = Diagnostics order' o /\ latest (map_to_list (lifecycles o)) (diagnostics_in order).
Proof.
  intros Hsteps Hp Hp'. pose proof (steps_stamped trace o Hsteps) as Hst.
  assert (Hall : forall l, l ≡ₚ map_to_list (lifecycles o) -> latest l (diagnostics_in l)).
  { intros l Hl. apply diagnostics_in_latest. intros [p st] Hin He. rewrite Hl in Hin.
    apply elem_of_map_to_list in Hin. by apply (Hst p). }
  assert (Hnd : NoDup (map fst order)) by (rewrite Hp; apply NoDup_fst_map_to_list).
  pose proof (Hall _ Hp) as Hl. split.
  - unfold Diagnostics. rewrite (latest_unique order order' (diagnostics_in order) (diagnostics_in order')); try done.
    + by rewrite Hp, Hp'.
    + by apply Hall.
  - pose proof (Hall _ (reflexivity (map_to_list (lifecycles o)))) as Hm.
    by rewrite (latest_unique order (map_to_list (lifecycles o)) _ _ Hp Hnd Hl Hm).
Qed.

(** Authenticated cleanup reports are applied in the order of their sequence numbers:
    no operation lowers the last sequence known of a plugin, and a report that is not
    newer than it changes nothing. *)
Theorem cleanup_monotone issued o out o' pluginID :
  step issued o out o' ->
  lifecycleBaseline pluginID o <= lifecycleBaseline pluginID o'
  /\ forall clock_now value, cl_PluginID value = pluginID -> cl_Sequence value <= lifecycleBaseline pluginID o ->
     PluginSessionCleanup clock_now value o' = o'.
Proof.
  intros Hstep. destruct (step_lifecycles issued o out o' Hstep) as [_ Hmono]. split; [apply Hmono|].
  intros clock_now value <- Hle. specialize (Hmono (cl_PluginID value)). unfold PluginSessionCleanup.
  destruct (_ || _); [done|]. cbv zeta. unfold lifecycleBaseline in *.
  destruct (Z.leb_spec (cl_Sequence value) (lc_sequence (lifecycle_of (cl_PluginID value) o'))); [done|lia].
Qed.

(** ** Witnesses *)

Lemma sessions_conserved_witness : promoted demo_run ≡ₚ given_up demo_run ++ owner demo_failed.
Proof. apply (sessions_conserved demo_run demo_failed demo_run_steps). reflexivity. Defined.

Lemma coordinator_exclusive_witness :
  owner demo_foreground = [mkTermination "clock" "timer" 4 "interactive-1"].
Proof.
  refine (proj1 (proj2 (coordinator_exclusive demo_promotion demo_foreground demo_promotion_steps) "timer"%string 4
    "interactive-1"%string _ _)); [reflexivity|discriminate].
Defined.

Lemma launcher_admission_fresh_witness : launcherAdmissionCurrent 0 demo_foreground = true.
Proof.
  apply (launcher_admission_fresh [] NewSessionCoordinator demo_promotion demo_foreground 0 demo_promotion_steps);
    [split; [discriminate|reflexivity]|reflexivity|reflexivity|split; reflexivity].
Defined.

Lemma diagnostics_latest_witness :
  latest (map_to_list (lifecycles demo_failed)) (SessionEndFailedCode, mkTime 7 0, "clock"%string).
Proof.
  change (SessionEndFailedCode, mkTime 7 0, "clock"%string) with (diagnostics_in (map_to_list (lifecycles demo_failed))).
  exact (proj2 (diagnostics_latest demo_run demo_failed (map_to_list (lifecycles demo_failed))
    (map_to_list (lifecycles demo_failed)) demo_run_steps (Permutation_refl _) (Permutation_refl _))).
Defined.

Lemma cleanup_monotone_witness : lifecycleBaseline "clock" demo_critical <= lifecycleBaseline "clock" demo_failed.
Proof.
  apply (cleanup_monotone [] demo_critical quiet demo_failed "clock"). by apply step_fallback.
Defined.
