(* ===== verification/SessionRuntime.v ===== *)
(** * Sessions and their effects

    Models [src/internal/daemon/session_runtime.go] and the launch of a session in
    [src/internal/daemon/reconciler_operations.go]: the coordinator's transitions
    joined to the calls they require of the plugin host and of the input broker. A
    call may let other goroutines run, so it transforms the coordinator as well as
    the world; the calls are the fields of [Calls], and [InputController] is what the
    runtime needs of the broker. *)

From Stdlib Require Import ZArith Lia ZifyBool.
From S2P Require Import Prelude GoStrings GoTime Identifier Protocol ProtocolSession Presentation.
From S2P Require Import ObservationStore EventBus EventBusSessions InputCoordinator SessionCoordinator.

(** ** Data *)

Definition ErrAppNotEnabled : error := Errorf "app is not enabled" [].
Definition ErrAppNotReady : error := Errorf "app generation is not ready" [].
Definition ErrForegroundUnavailable : error := Errorf "interactive foreground is unavailable" [].

Definition SessionTriggerLauncher : string := "launcher".
Definition SessionTriggerObservation : string := "observation".

Record ObservationRef := mkObservationRef { or_Channel : string; or_Key : string; or_Revision : Z }.
Record SessionTrigger := mkSessionTrigger { tr_Kind : string; tr_Observation : option ObservationRef }.

Record InvokeRequest := mkInvokeRequest {
  iq_InstanceID : string;
  iq_Generation : Z;
  iq_Action : string;
  iq_Payload : string;
  iq_SessionToken : string;
  iq_Trigger : option SessionTrigger;
}.

(** What is read of [LiveState] under its mutex. *)
Record LiveView := mkLiveView {
  lv_loaded : bool;
  lv_apps : gmap string SessionCoordinator.App;
  lv_generations : Generations;
}.

Definition no_target : SessionTarget := mkSessionTarget EmptyString EmptyString.

Section Runtime.
Context {W : Type}.

(** The coordinator and everything else. *)
Definition State : Type := SessionCoordinator * W.

Record Calls := mkCalls {
  (** [inputs.Cancel] *)
  rc_Cancel : string -> InstanceRef -> string -> State -> State;
  (** [plugins.EndSession] *)
  rc_EndSession : string -> InstanceRef -> string -> State -> option error * State;
  (** [plugins.Invoke], of the interactive kind *)
  rc_Invoke : string -> InvokeRequest -> State -> option error * State;
  (** [r.invalidate], whose error is ignored *)
  rc_invalidate : State -> State;
  (** [attentionController.Wake], when there is a controller *)
  rc_Wake : State -> State;
  (** [attentionController.SelectedObservation] *)
  rc_SelectedObservation : State -> option ObservationRecord;
  rc_live : State -> LiveView;
  rc_now : State -> Time;
}.

Context (calls : Calls).

(** ** [session_runtime.go] *)

Definition Foreground (s : State) : string := (foregroundSnapshot s.1).1.

Definition ForegroundSession (s : State) : string * string :=
  let '(id, _, token) := inputForegroundSnapshot s.1 in (id, token).

Definition ForegroundSessionRef (s : State) : InstanceRef * string :=
  let '(id, generation, token) := inputForegroundSnapshot s.1 in (mkInstanceRef id generation, token).

(** The four tests of [endSession]. *)
Definition incomplete (t : sessionTermination) : bool :=
  (tm_pluginID t =s EmptyString) || (tm_instanceID t =s EmptyString) || (tm_generation t =? 0)
  || (tm_token t =s EmptyString).

Definition endSession (t : sessionTermination) (s : State) : option error * State :=
  if incomplete t then (None, s)
  else
    let target := mkInstanceRef (tm_instanceID t) (tm_generation t) in
    let s := rc_Cancel calls (tm_pluginID t) target (tm_token t) s in
    let baseline := lifecycleBaseline (tm_pluginID t) s.1 in
    match rc_EndSession calls (tm_pluginID t) target (tm_token t) s with
    | (Some err, s) =>
      (Some err, (recordLifecycleFallback (rc_now calls s) (tm_pluginID t) baseline (UTC (rc_now calls s)) s.1, s.2))
    | (None, s) => (None, s)
    end.

Definition end_if_owned (t : sessionTermination) (s : State) : State :=
  if negb (tm_pluginID t =s EmptyString) then (endSession t s).2 else s.

Definition AcquireCritical (candidateID : string) (s : State) : bool * State :=
  match acquireCritical candidateID s.1 with
  | (None, o) => (false, (o, s.2))
  | (Some t, o) => (true, end_if_owned t (rc_invalidate calls (o, s.2)))
  end.

Definition ReleaseCritical (s : State) : State := ((releaseCritical s.1).2, s.2).

Definition ClearForeground (expected expectedToken : string) (s : State) : bool * State :=
  match clear expected expectedToken s.1 with
  | (Some t, o) => (true, end_if_owned t (o, s.2))
  | (None, o) => (false, (o, s.2))
  end.

Definition ClearForegroundContext (expected : string) (s : State) : State := (ClearForeground expected EmptyString s).2.

Definition ClearForegroundSessionContext (expected token : string) (s : State) : State :=
  if (expected =s EmptyString) || (token =s EmptyString) then s else (ClearForeground expected token s).2.

Definition Detach (app : SessionCoordinator.App) (s : State) : bool * State :=
  let '((t, changed), o) := detach app s.1 in (changed, end_if_owned t (o, s.2)).

(** ** [reconciler_operations.go] *)

(** [launch], from the point where the payload is known to be valid. The launch mutex
    excludes other launches only. *)
Definition launch (appID action payload : string) (trigger : option SessionTrigger)
    (source : option observationSessionSource) (s : State) : (SessionTarget * option error) * State :=
  let live := rc_live calls s in
  match lv_apps live !! appID with
  | None => ((no_target, Some ErrAppNotEnabled), s)
  | Some app =>
    if negb (lv_loaded live) || negb (app_Enabled app) then ((no_target, Some ErrAppNotEnabled), s) else
    let action := if action =s EmptyString
                  then (if app_LaunchAction app =s EmptyString then "start"%string else app_LaunchAction app)
                  else action in
    match Lookup (app_PluginID app) (app_ID app) (lv_generations live) with
    | None => ((no_target, Some ErrAppNotReady), s)
    | Some generation =>
      match begin (app_PluginID app) appID generation s.1 with
      | (None, o) => ((no_target, Some ErrForegroundUnavailable), (o, s.2))
      | (Some admission, o) =>
        let request := mkInvokeRequest (app_ID app) generation action payload (ad_token admission) trigger in
        match rc_Invoke calls (app_PluginID app) request (o, s.2) with
        | (Some err, s) => ((no_target, Some err), (cancel admission s.1, s.2))
        | (None, s) =>
          let session := mkTermination (app_PluginID app) (app_ID app) (ad_generation admission) (ad_token admission) in
          let live := rc_live calls s in
          let stillValid :=
            match lv_apps live !! appID with
            | Some current => lv_loaded live && app_Enabled current && (app_PluginID current =s app_PluginID app)
                              && matches (app_PluginID app) (app_ID app) (ad_generation admission) (lv_generations live)
            | None => false
            end in
          if negb stillValid then ((no_target, None), (endSession session (cancel admission s.1, s.2)).2)
          else match promote admission (app_PluginID app) source s.1 with
               | (None, o) => ((no_target, None), (endSession session (o, s.2)).2)
               | (Some previous, o) =>
                 let s := (o, s.2) in
                 let s := if negb (tm_instanceID previous =s EmptyString) && negb (tm_token previous =s EmptyString)
                             && negb (tm_pluginID previous =s EmptyString)
                          then (endSession previous s).2 else s in
                 ((mkSessionTarget (app_ID app) (ad_token admission), None), rc_Wake calls s)
               end
        end
      end
    end
  end.

Definition Launch (appID action payload : string) (s : State) : option error * State :=
  let '((_, err), s) := launch appID action payload (Some (mkSessionTrigger SessionTriggerLauncher None)) None s in
  (err, s).

Definition no_activation : ActivationResult := mkActivationResult false no_target.

Definition ActivateSelected (activation : SessionInput) (s : State) : (ActivationResult * option error) * State :=
  match SessionInput_Validate activation with
  | Some _ => ((no_activation, None), s)
  | None =>
    let start := match in_Button activation with
                 | Some button => (bi_Button button =s ButtonStart) && (bi_Action button =s ButtonPress)
                 | None => false
                 end in
    if negb start && negb (is_some (in_Encoder activation)) then ((no_activation, None), s)
    else match rc_SelectedObservation calls s with
    | None => ((no_activation, None), s)
    | Some record =>
      let value := rec_Observation record in
      let live := rc_live calls s in
      match lv_apps live !! ref_ID (obs_Instance value) with
      | None => ((no_activation, None), s)
      | Some app =>
        match app_Policies app !! obs_Channel value with
        | None => ((no_activation, None), s)
        | Some policy =>
          let eligible :=
            lv_loaded live && app_Enabled app && (app_PluginID app =s rec_PluginID record)
            && matches (rec_PluginID record) (app_ID app) (rec_Generation record) (lv_generations live)
            && negb (pc_ActivationAction policy =s EmptyString)
            && (start || (pc_ActivationInput policy =s "start_or_encoder")) in
          if negb eligible then ((no_activation, None), s)
          else
            let trigger := mkSessionTrigger SessionTriggerObservation
              (Some (mkObservationRef (obs_Channel value) (obs_Key value) (obs_Revision value))) in
            let source := mkSessionSource (rec_PluginID record) (app_ID app) (obs_Channel value) (obs_Key value)
                            (rec_Generation record) (obs_Revision value) in
            let '((target, err), s) := launch (app_ID app) (pc_ActivationAction policy) EmptyString (Some trigger) (Some source) s in
            let target := if one_of (pc_ActivationInput policy) ["start"; "start_or_encoder"]%string then target else no_target in
            ((mkActivationResult true target, err), s)
        end
      end
    end
  end.
End Runtime.
Arguments Calls : clear implicits.
Arguments State : clear implicits.

(** ** Specification *)

Inductive call :=
  | CCancel (t : sessionTermination)
  | CEnd (t : sessionTermination)
  | CInvoke (pluginID : string) (request : InvokeRequest)
  | CInvalidate
  | CWake.

(** A log of the calls the runtime makes, whatever they answer and whatever else happens. *)
Class LoggedCalls {W : Type} (calls : Calls W) (log : W -> list call) : Prop := {
  lg_Cancel p r token s :
    log (rc_Cancel calls p r token s).2 = log s.2 ++ [CCancel (mkTermination p (ref_ID r) (ref_Generation r) token)];
  lg_EndSession p r token s :
    log (rc_EndSession calls p r token s).2.2 = log s.2 ++ [CEnd (mkTermination p (ref_ID r) (ref_Generation r) token)];
  lg_Invoke p request s : log (rc_Invoke calls p request s).2.2 = log s.2 ++ [CInvoke p request];
  lg_invalidate s : log (rc_invalidate calls s).2 = log s.2 ++ [CInvalidate];
  lg_Wake s : log (rc_Wake calls s).2 = log s.2 ++ [CWake];
}.

(** Ending a session: its queued input is retired before the plugin is told. *)
Definition ends (t : sessionTermination) : list call := if incomplete t then [] else [CCancel t; CEnd t].

Definition session_of (pluginID : string) (request : InvokeRequest) : sessionTermination :=
  mkTermination pluginID (iq_InstanceID request) (iq_Generation request) (iq_SessionToken request).

(** The app is configured, enabled and of the same generation as when the launch began. *)
Definition still_current {W} (calls : Calls W) (appID pluginID : string) (admission : sessionAdmission) (s : State W) : Prop :=
  lv_loaded (rc_live calls s) = true
  /\ exists app, lv_apps (rc_live calls s) !! appID = Some app /\ app_Enabled app = true /\ app_PluginID app = pluginID
       /\ matches pluginID appID (ad_generation admission) (lv_generations (rc_live calls s)) = true.
Definition pends (admission : sessionAdmission) (o : SessionCoordinator) : Prop := pendingMatchesAdmission admission o = true.

(** What becomes of a launch in the state [s]: the calls it makes, what it returns, and the
    state it leaves. [o] is the coordinator that has admitted it, and [s1] the state in
    which the plugin has answered, which other goroutines may have changed. *)
Inductive LaunchOutcome {W} (calls : Calls W) (source : option observationSessionSource) (appID : string) (s : State W) :
    list call -> SessionTarget -> option error -> State W -> Prop :=
  | launch_refused err :
      err = ErrAppNotEnabled \/ err = ErrAppNotReady
      \/ (err = ErrForegroundUnavailable /\ (criticalIdentity s.1 <> EmptyString \/ executing s.1 = true)) ->
      LaunchOutcome calls source appID s [] no_target (Some err) s
  | launch_failed pluginID request admission o err s1 :
      begin pluginID appID (ad_generation admission) s.1 = (Some admission, o) ->
      session_of pluginID request = termination_of admission -> rc_Invoke calls pluginID request (o, s.2) = (Some err, s1) ->
      ~ pends admission (cancel admission s1.1) ->
      LaunchOutcome calls source appID s [CInvoke pluginID request] no_target (Some err) (cancel admission s1.1, s1.2)
  | launch_abandoned pluginID request admission o s1 o2 :
      begin pluginID appID (ad_generation admission) s.1 = (Some admission, o) ->
      session_of pluginID request = termination_of admission -> rc_Invoke calls pluginID request (o, s.2) = (None, s1) ->
      ~ (still_current calls appID pluginID admission s1 /\ pends admission s1.1) ->
      o2 = cancel admission s1.1 -> ~ pends admission o2 ->
      LaunchOutcome calls source appID s (CInvoke pluginID request :: ends (termination_of admission)) no_target None
        (endSession calls (termination_of admission) (o2, s1.2)).2
  | launch_promoted pluginID request admission o s1 o2 :
      begin pluginID appID (ad_generation admission) s.1 = (Some admission, o) ->
      session_of pluginID request = termination_of admission -> rc_Invoke calls pluginID request (o, s.2) = (None, s1) ->
      still_current calls appID pluginID admission s1 -> pends admission s1.1 ->
      foreground_termination o2 = termination_of admission -> foregroundSource o2 = source -> ~ pends admission o2 ->
      LaunchOutcome calls source appID s (CInvoke pluginID request :: ends (foreground_termination s1.1) ++ [CWake])
        (mkSessionTarget (ad_instanceID admission) (ad_token admission)) None
        (rc_Wake calls (endSession calls (foreground_termination s1.1) (o2, s1.2)).2).

(** What the runtime needs of the broker: after [Cancel] in a state the broker may be in,
    the session has no queued input. *)
Class InputController {W : Type} (valid : W -> Prop) (cancel : string -> InstanceRef -> string -> W -> W)
    (quiescent : string -> InstanceRef -> string -> W -> Prop) : Prop := {
  cancel_quiesces p r token w : valid w -> quiescent p r token (cancel p r token w);
  cancel_valid p r token w : valid w -> valid (cancel p r token w);
}.

(** ** Lemmas *)

Section Logged.
Context {W : Type} (calls : Calls W) {log : W -> list call} {Hlog : LoggedCalls calls log}.

Definition made (cs : list call) (s s' : State W) : Prop := log s'.2 = log s.2 ++ cs.

Lemma made_no_call s s' : s'.2 = s.2 -> made [] s s'.
Proof. unfold made. intros ->. by rewrite app_nil_r. Qed.

Lemma made_app cs cs' s s' s'' : made cs s s' -> made cs' s' s'' -> made (cs ++ cs') s s''.
Proof. unfold made. intros H1 H2. by rewrite H2, H1, app_assoc. Qed.

Lemma endSession_made t s : made (ends t) s (endSession calls t s).2.
Proof.
  unfold endSession, ends. destruct (incomplete t); [by apply made_no_call|]. unfold made.
  destruct t as [p i g token]. cbn [tm_pluginID tm_instanceID tm_generation tm_token].
  set (target := mkInstanceRef i g). pose proof (lg_Cancel p target token s) as Hc.
  pose proof (lg_EndSession p target token (rc_Cancel calls p target token s)) as He.
  destruct (rc_EndSession calls p target token (rc_Cancel calls p target token s)) as [[err|] s2]; cbn [snd fst] in *;
    rewrite He, Hc, <- app_assoc; done.
Qed.

Lemma end_if_owned_made t s : made (ends t) s (end_if_owned calls t s).
Proof.
  unfold end_if_owned. destruct (tm_pluginID t =s EmptyString) eqn:Hp; [|apply endSession_made].
  unfold ends, incomplete. rewrite Hp. by apply made_no_call.
Qed.

(** [launch] leaves out what [endSession] would not do. *)
Lemma previous_ended t s :
  (if negb (tm_instanceID t =s EmptyString) && negb (tm_token t =s EmptyString) && negb (tm_pluginID t =s EmptyString)
   then (endSession calls t s).2 else s) = (endSession calls t s).2.
Proof.
  unfold endSession, incomplete.
  destruct (tm_instanceID t =s EmptyString), (tm_token t =s EmptyString), (tm_pluginID t =s EmptyString); cbn [negb andb orb]; rewrite ?orb_true_r; done.
Qed.

Lemma begin_admission pluginID instanceID generation o admission o' :
  begin pluginID instanceID generation o = (Some admission, o') ->
  ad_pluginID admission = pluginID /\ ad_instanceID admission = instanceID /\ ad_generation admission = generation
  /\ ad_token admission <> EmptyString.
Proof. unfold begin. intros H. by sections. Qed.

(** An admission is not pending where none is, nor where it has been cancelled. *)
Lemma pends_token admission o : pends admission o -> pendingSession o = ad_token admission.
Proof. unfold pends, pendingMatchesAdmission. rewrite !andb_true_iff, !String.eqb_eq. naive_solver. Qed.

Lemma cancel_pends admission o : ad_token admission <> EmptyString -> ~ pends admission (cancel admission o).
Proof.
  intros Hne. unfold cancel. destruct (pendingMatchesAdmission admission o) eqn:Hm; [|unfold pends; congruence].
  intros Hp%pends_token. by apply Hne.
Qed.

(** Configured apps are keyed by their own identifier. *)
Context (Hkeys : forall s id app, lv_apps (rc_live calls s) !! id = Some app -> app_ID app = id).

Lemma still_current_spec appID pluginID admission s :
  match lv_apps (rc_live calls s) !! appID with
  | Some current => lv_loaded (rc_live calls s) && app_Enabled current && (app_PluginID current =s pluginID)
                    && matches pluginID appID (ad_generation admission) (lv_generations (rc_live calls s))
  | None => false
  end = true <-> still_current calls appID pluginID admission s.
Proof.
  unfold still_current. destruct (lv_apps (rc_live calls s) !! appID) as [app|].
  - rewrite !andb_true_iff, String.eqb_eq. split; [naive_solver|]. intros (H1 & app' & [= <-] & H2). tauto.
  - split; [done|]. intros (_ & app & [=] & _).
Qed.

Lemma launch_outcome appID action payload trigger source s :
  let '((target, err), s') := launch calls appID action payload trigger source s in
  exists cs, made cs s s' /\ LaunchOutcome calls source appID s cs target err s'.
Proof.
  unfold launch. assert (Hrefused : forall err, err = ErrAppNotEnabled \/ err = ErrAppNotReady
      \/ (err = ErrForegroundUnavailable /\ (criticalIdentity s.1 <> EmptyString \/ executing s.1 = true)) ->
    exists cs, made cs s s /\ LaunchOutcome calls source appID s cs no_target (Some err) s).
  { intros err He. exists []. split; [by apply made_no_call|by constructor]. }
  destruct (lv_apps (rc_live calls s) !! appID) as [app|] eqn:Happ; [|apply Hrefused; auto].
  destruct (negb (lv_loaded _) || _); [apply Hrefused; auto|].
  cbv zeta. destruct (Lookup _ _ _) as [generation|]; [|apply Hrefused; auto].
  destruct (begin (app_PluginID app) appID generation s.1) as [[admission|] o] eqn:Hbegin.
  2:{ revert Hbegin. unfold begin. destruct (negb (criticalIdentity s.1 =s EmptyString) || executing s.1) eqn:Hb; [|done]. intros [= <-].
      replace (s.1, s.2) with s by (by destruct s). apply Hrefused. right. right. split; [done|]. apply orb_true_iff in Hb as [Hb|Hb]; [left|by right].
      by apply negb_true_iff, String.eqb_neq in Hb. }
  destruct (begin_admission _ _ _ _ _ _ Hbegin) as (Hp & Hi & Hg & Hne). apply Hkeys in Happ. rewrite <- Hg in Hbegin.
  set (request := mkInvokeRequest _ _ _ _ _ _). pose proof (lg_Invoke (app_PluginID app) request (o, s.2)) as Hinv.
  assert (Hsession : session_of (app_PluginID app) request = termination_of admission).
  { unfold session_of, request, termination_of. cbn. congruence. }
  assert (Hterm : mkTermination (app_PluginID app) (app_ID app) (ad_generation admission) (ad_token admission) = termination_of admission).
  { unfold termination_of. congruence. }
  rewrite Hterm, Happ. destruct (rc_Invoke calls (app_PluginID app) request (o, s.2)) as [[err|] s1] eqn:Hcall; cbn [snd fst] in Hinv.
  { exists [CInvoke (app_PluginID app) request]. split; [done|]. eapply launch_failed; [done..|]. by apply cancel_pends. }
  assert (Habandon : ~ (still_current calls appID (app_PluginID app) admission s1 /\ pends admission s1.1) ->
    exists cs, made cs s (endSession calls (termination_of admission) (cancel admission s1.1, s1.2)).2
      /\ LaunchOutcome calls source appID s cs no_target None (endSession calls (termination_of admission) (cancel admission s1.1, s1.2)).2).
  { intros Hn. exists (CInvoke (app_PluginID app) request :: ends (termination_of admission)). split.
    - apply (made_app [_] _ _ (cancel admission s1.1, s1.2)); [done|]. apply endSession_made.
    - eapply launch_abandoned; [done..|]. by apply cancel_pends. }
  match goal with |- context [negb ?b] => destruct b eqn:Hvalid end; cbn [negb].
  2:{ apply Habandon. intros [H _]. apply still_current_spec in H. congruence. }
  apply still_current_spec in Hvalid. unfold promote. rewrite <- Hp, String.eqb_refl. cbn [negb].
  destruct (pendingMatchesAdmission admission s1.1) eqn:Hm; cbn [negb orb].
  2:{ assert (Hsame : cancel admission s1.1 = s1.1) by (unfold cancel; by rewrite Hm). rewrite Hsame in Habandon.
      apply Habandon. intros [_ H]. unfold pends in H. congruence. }
  rewrite previous_ended, Hp. set (o2 := set_foreground _ _ _ _). set (s2 := rc_Wake calls _).
  assert (H : exists cs, made cs s s2
    /\ LaunchOutcome calls source appID s cs (mkSessionTarget (ad_instanceID admission) (ad_token admission)) None s2); [|by rewrite Hi in H].
  exists (CInvoke (app_PluginID app) request :: ends (foreground_termination s1.1) ++ [CWake]). split.
  - apply (made_app [CInvoke (app_PluginID app) request] _ _ s1); [done|].
    eapply made_app; [|apply lg_Wake]. exact (endSession_made (foreground_termination s1.1) (o2, s1.2)).
  - eapply launch_promoted; [done..| | |].
    + unfold o2, foreground_termination, termination_of. cbn. congruence.
    + done.
    + intros H%pends_token. by apply Hne.
Qed.
End Logged.

(** *** The broker as input controller *)

Definition bus_quiescent (pluginID : string) (target : InstanceRef) (token : string) (s : System) : Prop :=
  forall wid w, b_workers (sys_broker s) !! session_key pluginID target token = Some wid -> sys_heap s !! wid = Some w ->
  w_stopped w = true /\ w_queue w = [].

Definition bus_valid (s : System) : Prop := forall wid w, sys_heap s !! wid = Some w -> WorkerOK w.

Lemma stop_worker_bus wid s :
  bus_valid s -> bus_valid (stop_worker wid s)
  /\ forall w, sys_heap (stop_worker wid s) !! wid = Some w -> w_stopped w = true /\ w_queue w = [].
Proof.
  intros Hv. unfold stop_worker. destruct (on_worker_frame stopNoWait wid s) as (_ & _ & _ & _ & Hh).
  destruct (sys_heap s !! wid) as [w0|] eqn:Hw0.
  - pose proof (Hv wid w0 Hw0) as Hok. destruct (stopNoWait w0) as [discarded w1] eqn:Hst.
    destruct (stopNoWait_spec w0 discarded w1 Hst Hok) as (Hok1 & _ & _ & _). cbn [snd] in Hh.
    assert (Hs1 : w_stopped w1 = true) by (unfold stopNoWait in Hst; destruct (w_stopped w0) eqn:He; by injection Hst as _ <-).
    split; unfold bus_valid; rewrite Hh.
    + intros wid' w [[<- <-]|[_ Hl]]%lookup_insert_Some; [done|by apply (Hv wid')].
    + intros w. rewrite lookup_insert_eq. intros [= <-]. split; [done|]. by apply (wo_stopped w1 Hok1).
  - split; unfold bus_valid; rewrite Hh; [done|]. intros w. by rewrite Hw0.
Qed.

#[export] Instance bus_controller : InputController bus_valid EventBus.Cancel bus_quiescent.
Proof.
  split; intros p r token s Hv; unfold EventBus.Cancel, bus_quiescent; cbv zeta;
    destruct (b_workers (sys_broker s) !! session_key p r token) as [wid0|] eqn:Hk;
    [destruct (stop_worker_bus wid0 s Hv) as [Hv1 Hq]| |by apply stop_worker_bus|done].
  - intros wid w. cbn [set_broker set_invalid sys_broker b_workers sys_heap]. unfold stop_worker.
    rewrite (proj1 (on_worker_frame stopNoWait wid0 s)), Hk. intros [= <-]. apply Hq.
  - intros wid w. cbn [set_broker set_invalid sys_broker b_workers]. by rewrite Hk.
Qed.

(** ** Properties *)

(** C24: a launch leaves no session behind. Whatever the plugin answers and whatever other
    goroutines do to the coordinator meanwhile, a session the plugin was asked to start
    either failed to start, or was ended again, exactly if its app was reconfigured or its
    admission taken away while the plugin answered, or was promoted: then it is the
    foreground, what was the foreground before was ended, and in that case alone the launch
    returns its token. In no case does the admission stay pending. A launch that never
    reached the plugin made no call, changed nothing and says why. *)
Theorem launch_leaves_no_orphan {W} (calls : Calls W) log (Hlog : LoggedCalls calls log)
    (Hkeys : forall s id app, lv_apps (rc_live calls s) !! id = Some app -> app_ID app = id)
    appID action payload trigger source s target err s' :
  launch calls appID action payload trigger source s = ((target, err), s') ->
  exists cs, log s'.2 = log s.2 ++ cs /\ LaunchOutcome calls source appID s cs target err s'.
Proof.
  intros H. pose proof (launch_outcome calls Hkeys appID action payload trigger source s) as Ho.
  by rewrite H in Ho.
Qed.

(** A terminal transition ends exactly the session that owned the foreground. A
    critical presentation is refused, without a call, only while a session executes, and
    otherwise invalidates the queued input first; clearing and detaching end the
    foreground session when it is the one named, and nothing else. *)
Theorem terminal_transitions_end_foreground {W} (calls : Calls W) log (Hlog : LoggedCalls calls log) s :
  (forall id acquired s', AcquireCritical calls id s = (acquired, s') ->
     log s'.2 = log s.2
       ++ (if acquired then CInvalidate
             :: ends (if criticalIdentity s.1 =s EmptyString then foreground_termination s.1 else no_termination)
           else [])
     /\ (acquired = false <-> executing s.1 = true))
  /\ (forall expected token changed s', ClearForeground calls expected token s = (changed, s') ->
     log s'.2 = log s.2 ++ (if changed then ends (foreground_termination s.1) else [])
     /\ (changed = true <-> foreground s.1 <> EmptyString /\ (expected = EmptyString \/ foreground s.1 = expected)
                            /\ (token = EmptyString \/ foregroundSession s.1 = token)))
  /\ (forall app changed s', Detach calls app s = (changed, s') ->
     log s'.2 = log s.2
       ++ (if (foreground s.1 =s app_ID app) && (foregroundPlugin s.1 =s app_PluginID app)
           then ends (foreground_termination s.1) else [])).
Proof.
  split_and!.
  - intros id acquired s' H. unfold AcquireCritical, acquireCritical in H.
    destruct (executing s.1); [injection H as <- <-; by rewrite app_nil_r|].
    assert (Hmade : forall t o, made (log := log) (CInvalidate :: ends t) s (end_if_owned calls t (rc_invalidate calls (o, s.2)))).
    { intros t o. apply (made_app [CInvalidate] _ _ (rc_invalidate calls (o, s.2))); [apply (lg_invalidate (o, s.2))|].
      exact (end_if_owned_made calls t (rc_invalidate calls (o, s.2))). }
    destruct (criticalIdentity s.1 =s EmptyString); cbn [negb] in H; injection H as <- <-; split; try done; apply Hmade.
  - intros expected token changed s' H. unfold ClearForeground, clear in H. cbv zeta in H.
    set (o := if _ && negb _ then clearPendingLocked s.1 else s.1) in H.
    assert (Ho : foreground_termination o = foreground_termination s.1 /\ foreground o = foreground s.1)
      by (unfold o; by case_if).
    destruct Ho as [Ht Hf]. rewrite Hf, Ht in H.
    pose proof (String.eqb_spec expected EmptyString). pose proof (String.eqb_spec token EmptyString).
    pose proof (String.eqb_spec (foreground s.1) expected). pose proof (String.eqb_spec (foregroundSession s.1) token).
    pose proof (String.eqb_spec (foreground s.1) EmptyString).
    destruct (negb _ || (foreground s.1 =s EmptyString)) eqn:Hb; injection H as <- <-; split.
    + by rewrite app_nil_r.
    + split; [done|]. intros (? & ? & ?). apply orb_true_iff in Hb. rewrite negb_true_iff, andb_false_iff, !orb_false_iff in Hb.
      destruct (expected =s EmptyString), (token =s EmptyString), (foreground s.1 =s expected),
        (foregroundSession s.1 =s token), (foreground s.1 =s EmptyString);
        repeat match goal with H : reflect _ _ |- _ => inversion H; clear H end; naive_solver.
    + exact (end_if_owned_made calls (foreground_termination s.1) (clearForegroundLocked o, s.2)).
    + split; [|done]. intros _. apply orb_false_iff in Hb as [Hb Hne]. rewrite negb_false_iff, andb_true_iff, !orb_true_iff in Hb.
      rewrite !String.eqb_eq in Hb. apply String.eqb_neq in Hne. tauto.
  - intros app changed s' H. unfold Detach, detach in H. cbv zeta in H.
    set (o := if _ && _ then clearPendingLocked s.1 else s.1) in H.
    assert (Ho : foreground_termination o = foreground_termination s.1 /\ foreground o = foreground s.1
      /\ foregroundPlugin o = foregroundPlugin s.1) by (unfold o; by case_if).
    destruct Ho as (Ht & Hf & Hp). rewrite Hf, Hp in H.
    destruct ((foreground s.1 =s app_ID app) && (foregroundPlugin s.1 =s app_PluginID app)) eqn:Hb; injection H as <- <-.
    + apply andb_true_iff in Hb as [Hi Hpl]. apply String.eqb_eq in Hi, Hpl.
      assert (Heq : mkTermination (app_PluginID app) (app_ID app) (foregroundGeneration o) (foregroundSession o)
        = foreground_termination s.1) by (rewrite <- Ht; unfold foreground_termination; congruence).
      rewrite Heq. exact (end_if_owned_made calls (foreground_termination s.1) (clearForegroundLocked o, s.2)).
    + exact (end_if_owned_made calls no_termination (o, s.2)).
Qed.

(** Whichever input controller keeps the contract (the session input broker does),
    a plugin is told that a session ended only once no input of that session is queued,
    and a failed call is recorded against the plugin unless a newer cleanup arrived. *)
Theorem ended_session_quiescent {W V} (calls : Calls W) (inputs : W -> V) valid cancel quiescent
    (Hinputs : InputController valid cancel quiescent)
    (Hcancel : forall p r token s, inputs (rc_Cancel calls p r token s).2 = cancel p r token (inputs s.2)) t s :
  valid (inputs s.2) -> incomplete t = false ->
  let target := mkInstanceRef (tm_instanceID t) (tm_generation t) in
  exists s1, quiescent (tm_pluginID t) target (tm_token t) (inputs s1.2)
  /\ let '(err, s2) := rc_EndSession calls (tm_pluginID t) target (tm_token t) s1 in
     (endSession calls t s).1 = err
     /\ (err = None -> (endSession calls t s).2 = s2)
     /\ (err <> None -> lifecycleBaseline (tm_pluginID t) s2.1 <= lifecycleBaseline (tm_pluginID t) s1.1 ->
         lc_errorCode (lifecycle_of (tm_pluginID t) (endSession calls t s).2.1) = SessionEndFailedCode).
Proof.
  intros Hv Hi. cbv zeta. set (target := mkInstanceRef (tm_instanceID t) (tm_generation t)).
  exists (rc_Cancel calls (tm_pluginID t) target (tm_token t) s). split; [rewrite Hcancel; by apply cancel_quiesces|].
  unfold endSession. rewrite Hi. fold target.
  destruct (rc_EndSession calls (tm_pluginID t) target (tm_token t) _) as [[err|] s2]; cbn [fst snd]; [|done].
  split_and!; [done|done|]. intros _ Hle. unfold recordLifecycleFallback, lifecycleBaseline in *. cbv zeta.
  destruct (Z.leb_spec (lc_sequence (lifecycle_of (tm_pluginID t) s2.1))
    (lc_sequence (lifecycle_of (tm_pluginID t) (rc_Cancel calls (tm_pluginID t) target (tm_token t) s).1))); [|lia].
  unfold lifecycle_of at 1. cbn. by rewrite lookup_insert_eq.
Qed.

(** ** Witnesses *)

Definition demo_app : SessionCoordinator.App := mkApp "timer" "clock" 4 true EmptyString "{}" ∅ ∅.
Definition demo_live : LiveView := mkLiveView true {["timer"%string := demo_app]} {[mkGenerationKey "clock" "timer" := 4]}.

(** A world that is its own log and next to a broker. *)
Definition demo_calls : Calls (list call * System) :=
  mkCalls
    (fun p r token s => (s.1, (s.2.1 ++ [CCancel (mkTermination p (ref_ID r) (ref_Generation r) token)],
                               EventBus.Cancel p r token s.2.2)))
    (fun p r token s => (errors_New "stopped",
                         (s.1, (s.2.1 ++ [CEnd (mkTermination p (ref_ID r) (ref_Generation r) token)], s.2.2))))
    (fun p request s => (None, (s.1, (s.2.1 ++ [CInvoke p request], s.2.2))))
    (fun s => (s.1, (s.2.1 ++ [CInvalidate], s.2.2)))
    (fun s => (s.1, (s.2.1 ++ [CWake], s.2.2)))
    (fun _ => None) (fun _ => demo_live) (fun _ => mkTime 9 0).

#[export] Instance demo_calls_logged : LoggedCalls demo_calls fst.
Proof. by split. Qed.

Definition demo_state : State (list call * System) := (NewSessionCoordinator, ([], demo_begun)).

Lemma demo_keys s id app : lv_apps (rc_live demo_calls s) !! id = Some app -> app_ID app = id.
Proof. cbn. intros [<- <-]%lookup_singleton_Some. done. Qed.

Lemma launch_leaves_no_orphan_witness :
  exists cs s', LaunchOutcome demo_calls None "timer" demo_state cs (mkSessionTarget "timer" "interactive-1") None s'
    /\ foreground_termination s'.1 = mkTermination "clock" "timer" 4 "interactive-1".
Proof.
  destruct (launch_leaves_no_orphan demo_calls fst demo_calls_logged demo_keys "timer" EmptyString EmptyString None None
    demo_state (mkSessionTarget "timer" "interactive-1") None
    (launch demo_calls "timer" EmptyString EmptyString None None demo_state).2) as (cs & _ & H); [vm_compute; reflexivity|].
  exists cs. eexists. split; [exact H|]. vm_compute. reflexivity.
Defined.

Lemma terminal_transitions_end_foreground_witness :
  (AcquireCritical demo_calls "alarm" (demo_foreground, ([], demo_begun))).2.2.1
  = CInvalidate :: ends (termination_of demo_admission).
Proof.
  exact (proj1 (proj1 (terminal_transitions_end_foreground demo_calls fst demo_calls_logged
    (demo_foreground, ([], demo_begun))) "alarm"%string true _ eq_refl)).
Defined.

Lemma ended_session_quiescent_witness :
  exists s1 : State (list call * System), bus_quiescent "clock" (mkInstanceRef "timer" 1) "token-1" s1.2.2.
Proof.
  destruct (ended_session_quiescent demo_calls snd bus_valid EventBus.Cancel bus_quiescent bus_controller
    ltac:(reflexivity) (mkTermination "clock" "timer" 1 "token-1") demo_state) as (s1 & H & _);
    [exact (inv_workers _ _ (steps_inv _ _ demo_delivery_steps))|reflexivity|].
  by exists s1.
Defined.
