(* ===== verification/AttentionRetention.v ===== *)
(** * Retained attention state

    Models [src/internal/daemon/attention_state.go], with the types it shares with
    [engine.go]: what the engine remembers of observations that were shown or
    acknowledged, how it is pruned by age and by capacity, what is persisted and what
    is restored. [Retained] holds the fields of the engine these functions use; a loop
    over a Go map that only deletes or counts is a filter or a size, whatever the
    order, and a loop that appends uses the order of [map_to_list]. *)

From Stdlib Require Import ZArith Lia ZifyBool Sorted Permutation.
From S2P Require Import Prelude GoStrings GoTime Identifier Protocol Presentation ObservationStore.
From S2P Require Import AttentionSelector AttentionState.

(** ** Data *)

Definition defaultAttentionStateCapacity : Z := 2048.
Definition defaultAttentionStateTTL : Z := dur_mul 48 Hour.

Record AttentionStateDiagnostics := mkDiagnostics {
  dg_Phase : string;
  dg_LastErrorCode : string;
  dg_LastReadAt : Time;
  dg_LastWriteAt : Time;
  dg_Failures : Z;
  dg_RestoredEntries : Z;
  dg_DiscardedEntries : Z;
  dg_PrunedEntries : Z;
  dg_LastShownEntries : Z;
  dg_AcknowledgementEntries : Z;
  dg_LastShownTTLPruned : Z;
  dg_LastShownCapacityEvictions : Z;
  dg_AcknowledgementTTLPruned : Z;
  dg_AcknowledgementCapacityEvictions : Z;
  dg_SupersededAcknowledgementsPruned : Z;
  dg_LastPrunedAt : Time;
}.

Definition no_diagnostics : AttentionStateDiagnostics :=
  mkDiagnostics EmptyString EmptyString zero_time zero_time 0 0 0 0 0 0 0 0 0 0 0 zero_time.

Record ackState := mkAckState {
  as_identity : StateIdentity;
  as_generation : Z;
  as_observedAt : Time;
  as_touchedAt : Time;
}.

Record lastShownMetadata := mkLastShownMetadata { lm_identity : StateIdentity; lm_persistent : bool }.

(** [history.LastShown] and the embedded [attentionState], less its collaborators. *)
Record Retained := mkRetained {
  rt_lastShown : gmap string Time;
  rt_lastShownState : gmap string lastShownMetadata;
  rt_acknowledged : gmap string ackState;
  rt_capacity : Z;
  rt_ttl : Z;
  rt_stats : AttentionStateDiagnostics;
}.

Definition new_retained : Retained :=
  mkRetained ∅ ∅ ∅ defaultAttentionStateCapacity defaultAttentionStateTTL no_diagnostics.

Definition set_lastShown (lastShown : gmap string Time) (r : Retained) : Retained :=
  mkRetained lastShown (rt_lastShownState r) (rt_acknowledged r) (rt_capacity r) (rt_ttl r) (rt_stats r).
Definition set_lastShownState (state : gmap string lastShownMetadata) (r : Retained) : Retained :=
  mkRetained (rt_lastShown r) state (rt_acknowledged r) (rt_capacity r) (rt_ttl r) (rt_stats r).
Definition set_acknowledged (acknowledged : gmap string ackState) (r : Retained) : Retained :=
  mkRetained (rt_lastShown r) (rt_lastShownState r) acknowledged (rt_capacity r) (rt_ttl r) (rt_stats r).
Definition set_stats (stats : AttentionStateDiagnostics) (r : Retained) : Retained :=
  mkRetained (rt_lastShown r) (rt_lastShownState r) (rt_acknowledged r) (rt_capacity r) (rt_ttl r) stats.

(** The counters a pruning pass adds to, and when it ran. *)
Definition add_pruned (shownTTL shownEvicted ackTTL ackEvicted superseded : Z) (at_ : Time)
    (d : AttentionStateDiagnostics) : AttentionStateDiagnostics :=
  mkDiagnostics (dg_Phase d) (dg_LastErrorCode d) (dg_LastReadAt d) (dg_LastWriteAt d) (dg_Failures d)
    (dg_RestoredEntries d) (dg_DiscardedEntries d) (dg_PrunedEntries d) (dg_LastShownEntries d)
    (dg_AcknowledgementEntries d)
    (u64 (dg_LastShownTTLPruned d + shownTTL)) (u64 (dg_LastShownCapacityEvictions d + shownEvicted))
    (u64 (dg_AcknowledgementTTLPruned d + ackTTL)) (u64 (dg_AcknowledgementCapacityEvictions d + ackEvicted))
    (u64 (dg_SupersededAcknowledgementsPruned d + superseded)) at_.

Definition add_restored (restored discarded pruned : Z) (d : AttentionStateDiagnostics) : AttentionStateDiagnostics :=
  mkDiagnostics (dg_Phase d) (dg_LastErrorCode d) (dg_LastReadAt d) (dg_LastWriteAt d) (dg_Failures d)
    (u64 (dg_RestoredEntries d + restored)) (u64 (dg_DiscardedEntries d + discarded)) (u64 (dg_PrunedEntries d + pruned))
    (dg_LastShownEntries d) (dg_AcknowledgementEntries d) (dg_LastShownTTLPruned d) (dg_LastShownCapacityEvictions d)
    (dg_AcknowledgementTTLPruned d) (dg_AcknowledgementCapacityEvictions d) (dg_SupersededAcknowledgementsPruned d)
    (dg_LastPrunedAt d).

(** ** Victims *)

Record stateVictim := mkStateVictim { sv_id : string; sv_at : Time }.
Record combinedStateVictim := mkCombinedVictim { cv_id : string; cv_at : Time; cv_ack : bool; cv_isLive : bool }.

#[export] Instance combinedStateVictim_eq_dec : EqDecision combinedStateVictim.
Proof. solve_decision. Defined.

(** [left.Compare(right)] of two times *)
Definition compare_times (left right : Time) : Z :=
  if instant left <? instant right then -1 else if instant right <? instant left then 1 else 0.

(** The comparisons of [sortStateVictims] and [sortCombinedStateVictims]. *)
Definition compare_victims (left right : stateVictim) : Z :=
  let order := compare_times (sv_at left) (sv_at right) in
  if negb (order =? 0) then order else cmp_strings (sv_id left) (sv_id right).

Definition compare_combined (left right : combinedStateVictim) : Z :=
  if negb (Bool.eqb (cv_isLive left) (cv_isLive right)) then (if negb (cv_isLive left) then -1 else 1)
  else
    let order := compare_times (cv_at left) (cv_at right) in
    if negb (order =? 0) then order
    else if negb (Bool.eqb (cv_ack left) (cv_ack right)) then (if negb (cv_ack left) then -1 else 1)
    else cmp_strings (cv_id left) (cv_id right).

Definition sortStateVictims : list stateVictim -> list stateVictim := SortFunc compare_victims.
Definition sortCombinedStateVictims : list combinedStateVictim -> list combinedStateVictim := SortFunc compare_combined.

Definition live_records (records : list ObservationRecord) : gmap string ObservationRecord :=
  fold_left (fun live record => <[Record_ID record := record]> live) records ∅.

Definition map_size {A} (m : gmap string A) : Z := Z.of_nat (size m).

(** ** Pruning *)

Section Prune.
Context (live : gmap string ObservationRecord) (now : Time).

Definition is_live (id : string) : bool := is_some (live !! id).

(** [e.stateTTL <= 0 || !at.Add(e.stateTTL).After(now)] *)
Definition too_old (ttl : Z) (at_ : Time) : bool := (ttl <=? 0) || negb (After (Add at_ ttl) now).

(** Deletes victims, in order, while the map exceeds the capacity. *)
Fixpoint evict {A} (capacity : Z) (victims : list stateVictim) (values : gmap string A) : gmap string A * Z :=
  match victims with
  | [] => (values, 0)
  | victim :: victims' =>
    if map_size values <=? capacity then (values, 0)
    else let '(values, evicted) := evict capacity victims' (delete (sv_id victim) values) in (values, evicted + 1)
  end.

(** The entries of a map that are not live, as victims. *)
Definition stale_victims {A} (at_of : A -> Time) (values : gmap string A) : list stateVictim :=
  sortStateVictims
    (map (fun kv => mkStateVictim kv.1 (at_of kv.2)) (List.filter (fun kv => negb (is_live kv.1)) (map_to_list values))).

Definition pruneLastShownCapacity (values : gmap string Time) (capacity : Z) : gmap string Time * Z :=
  if (capacity <=? 0) || (map_size values <=? capacity) then (values, 0)
  else evict capacity (stale_victims id values) values.

Definition syncLastShownState (r : Retained) : Retained :=
  set_lastShownState (filter (fun kv => is_Some (rt_lastShown r !! kv.1)) (rt_lastShownState r)) r.

(** An acknowledgement of an earlier generation or observation of a live record. *)
Definition superseded_ack (id : string) (state : ackState) : bool :=
  match live !! id with
  | Some record => negb (as_generation state =? rec_Generation record)
                   || negb (instant (as_observedAt state) =? instant (obs_ObservedAt (rec_Observation record)))
  | None => false
  end.

Definition pruneAcknowledgementsWithLive (r : Retained) : Retained :=
  let young := filter (fun kv => too_old (rt_ttl r) (as_touchedAt kv.2) = false) (rt_acknowledged r) in
  let current := filter (fun kv => superseded_ack kv.1 kv.2 = false) young in
  let ttlPruned := map_size (rt_acknowledged r) - map_size young in
  let superseded := map_size young - map_size current in
  let '(kept, evicted) :=
    if (0 <? rt_capacity r) && (rt_capacity r <? map_size current)
    then evict (rt_capacity r) (stale_victims as_touchedAt current) current else (current, 0) in
  let r' := set_acknowledged kept r in
  if negb (ttlPruned =? 0) || negb (superseded =? 0) || negb (evicted =? 0)
  then set_stats (add_pruned 0 0 ttlPruned evicted superseded (UTC now) (rt_stats r)) r' else r'.

Definition combined_victims (lastShown : gmap string Time) (acknowledged : gmap string ackState) : list combinedStateVictim :=
  sortCombinedStateVictims
    (map (fun kv => mkCombinedVictim kv.1 kv.2 false (is_live kv.1)) (map_to_list lastShown)
     ++ map (fun kv => mkCombinedVictim kv.1 (as_touchedAt kv.2) true (is_live kv.1)) (map_to_list acknowledged)).

(** Deletes the victims from the map each belongs to. *)
Definition remove_shown {A} (victims : list combinedStateVictim) (m : gmap string A) : gmap string A :=
  fold_left (fun m victim => if cv_ack victim then m else delete (cv_id victim) m) victims m.
Definition remove_acks {A} (victims : list combinedStateVictim) (m : gmap string A) : gmap string A :=
  fold_left (fun m victim => if cv_ack victim then delete (cv_id victim) m else m) victims m.

Definition count_acks (victims : list combinedStateVictim) : Z := Z.of_nat (length (List.filter cv_ack victims)).

Definition pruneCombinedState (r : Retained) : Retained :=
  let remaining := map_size (rt_lastShown r) + map_size (rt_acknowledged r) - rt_capacity r in
  if (rt_capacity r <=? 0) || (remaining <=? 0) then r
  else
    let victims := take (Z.to_nat remaining) (combined_victims (rt_lastShown r) (rt_acknowledged r)) in
    mkRetained (remove_shown victims (rt_lastShown r)) (remove_shown victims (rt_lastShownState r))
      (remove_acks victims (rt_acknowledged r)) (rt_capacity r) (rt_ttl r)
      (add_pruned 0 (Z.of_nat (length victims) - count_acks victims) 0 (count_acks victims) 0 (UTC now) (rt_stats r)).

(** [boundProposedAcknowledgements], on proposed maps. *)
Definition boundProposedAcknowledgements (capacity : Z) (proposed : gmap string ackState) (lastShown : gmap string Time)
    (lastShownState : gmap string lastShownMetadata)
    : (gmap string ackState * gmap string Time * gmap string lastShownMetadata) * (Z * Z) :=
  let remaining := map_size lastShown + map_size proposed - capacity in
  if (capacity <=? 0) || (remaining <=? 0) then ((proposed, lastShown, lastShownState), (0, 0))
  else
    let victims := take (Z.to_nat remaining) (combined_victims lastShown proposed) in
    ((remove_acks victims proposed, remove_shown victims lastShown, remove_shown victims lastShownState),
     (count_acks victims, Z.of_nat (length victims) - count_acks victims)).
End Prune.

(** The first part of [pruneState], on the last-shown times. *)
Definition pruneLastShown (live : gmap string ObservationRecord) (now : Time) (r : Retained) : Retained :=
  let young := filter (fun kv => too_old now (rt_ttl r) kv.2 = false) (rt_lastShown r) in
  let ttlPruned := map_size (rt_lastShown r) - map_size young in
  let '(kept, evicted) := pruneLastShownCapacity live young (rt_capacity r) in
  let r' := syncLastShownState (set_lastShown kept r) in
  if negb (ttlPruned =? 0) || negb (evicted =? 0)
  then set_stats (add_pruned ttlPruned evicted 0 0 0 (UTC now) (rt_stats r')) r' else r'.

Definition pruneState (records : list ObservationRecord) (now : Time) (r : Retained) : bool * Retained :=
  let before := map_size (rt_lastShown r) + map_size (rt_acknowledged r) in
  let live := live_records records in
  let r' := pruneCombinedState live now (pruneAcknowledgementsWithLive live now (pruneLastShown live now r)) in
  (negb (map_size (rt_lastShown r') + map_size (rt_acknowledged r') =? before), r').

(** ** Documents and restoration *)

Definition stateIdentityID (identity : StateIdentity) : string :=
  Identity_String (mkIdentity (si_PluginID identity) (si_InstanceID identity) (si_Channel identity) (si_Key identity)).

Definition record_identity (record : ObservationRecord) (generation : Z) : StateIdentity :=
  mkStateIdentity (rec_PluginID record) (ref_ID (obs_Instance (rec_Observation record))) generation
    (obs_Channel (rec_Observation record)) (obs_Key (rec_Observation record)).

(** The two loops of [stateDocumentFrom]: the entry of one key, if it is written. *)
Definition document_shown (resolve : Resolver) (live : gmap string ObservationRecord)
    (lastShownState : gmap string lastShownMetadata) (entry : string * Time) : option LastShownState :=
  let '(id, shownAt) := entry in
  match lastShownState !! id with
  | Some metadata => if lm_persistent metadata then Some (mkLastShownState (lm_identity metadata) (UTC shownAt)) else None
  | None =>
    match live !! id with
    | None => None
    | Some record =>
      let '(rule, valid) := resolve record in
      if negb valid || (rule_Policy rule =s PolicyInteractive) then None
      else Some (mkLastShownState (record_identity record (rec_Generation record)) (UTC shownAt))
    end
  end.

Definition document_ack (live : gmap string ObservationRecord) (entry : string * ackState) : option AcknowledgementState :=
  let '(id, state) := entry in
  let written identity := Some (mkAcknowledgementState identity (UTC (as_observedAt state)) (UTC (as_touchedAt state))) in
  if si_PluginID (as_identity state) =s EmptyString then
    match live !! id with
    | None => None
    | Some record => written (record_identity record (as_generation state))
    end
  else written (as_identity state).

Definition stateDocumentFrom (resolve : Resolver) (records : list ObservationRecord)
    (acknowledgements : gmap string ackState) (lastShown : gmap string Time)
    (lastShownState : gmap string lastShownMetadata) : StateDocument :=
  let live := live_records records in
  mkStateDocument StateVersion (omap (document_ack live) (map_to_list acknowledgements))
    (omap (document_shown resolve live lastShownState) (map_to_list lastShown)).

Definition stateDocument (resolve : Resolver) (records : list ObservationRecord) (r : Retained) : StateDocument :=
  stateDocumentFrom resolve records (rt_acknowledged r) (rt_lastShown r) (rt_lastShownState r).

Section Restore.
Context (stateGeneration : option Generation) (now : Time).

Definition count_restored (restored discarded pruned : Z) (r : Retained) : Retained :=
  set_stats (add_restored restored discarded pruned (rt_stats r)) r.

Definition restoreStateIdentity (identity : StateIdentity) (at_ : Time) (r : Retained) : bool * Retained :=
  if After at_ now then (false, count_restored 0 1 0 r)
  else if too_old now (rt_ttl r) at_ then (false, count_restored 0 0 1 r)
  else match stateGeneration with
       | None => (false, count_restored 0 1 0 r)
       | Some lookup =>
         match lookup (si_PluginID identity) (si_InstanceID identity) with
         | None => (false, count_restored 0 1 0 r)
         | Some generation => if generation =? si_Generation identity then (true, r) else (false, count_restored 0 1 0 r)
         end
       end.

(** The bodies of the two loops of [restoreAttentionState]. *)
Definition restore_shown (r : Retained) (entry : LastShownState) : Retained :=
  let '(ok, r) := restoreStateIdentity (ls_Identity entry) (ls_ShownAt entry) r in
  if negb ok then r
  else
    let id := stateIdentityID (ls_Identity entry) in
    count_restored 1 0 0
      (set_lastShownState (<[id := mkLastShownMetadata (ls_Identity entry) true]> (rt_lastShownState r))
        (set_lastShown (<[id := UTC (ls_ShownAt entry)]> (rt_lastShown r)) r)).

Definition restore_ack (r : Retained) (entry : AcknowledgementState) : Retained :=
  if After (ack_ObservedAt entry) now then count_restored 0 1 0 r
  else
    let '(ok, r) := restoreStateIdentity (ack_Identity entry) (ack_TouchedAt entry) r in
    if negb ok then r
    else
      let id := stateIdentityID (ack_Identity entry) in
      let state := mkAckState (ack_Identity entry) (si_Generation (ack_Identity entry))
                     (UTC (ack_ObservedAt entry)) (UTC (ack_TouchedAt entry)) in
      count_restored 1 0 0 (set_acknowledged (<[id := state]> (rt_acknowledged r)) r).

Definition restore_document (document : StateDocument) (r : Retained) : Retained :=
  fold_left restore_ack (sd_Acknowledgements document) (fold_left restore_shown (sd_LastShown document) r).
End Restore.

(** Whether [restoreAttentionState] writes the state back. *)
Definition restore_dirty (r : Retained) : bool :=
  negb (dg_DiscardedEntries (rt_stats r) =? 0) || negb (dg_PrunedEntries (rt_stats r) =? 0).

Definition AttentionStateStatus (store : option StateStoreStatus) (r : Retained) : AttentionStateDiagnostics :=
  let d := rt_stats r in
  let result phase code readAt writeAt failures :=
    mkDiagnostics phase code readAt writeAt failures (dg_RestoredEntries d) (dg_DiscardedEntries d) (dg_PrunedEntries d)
      (map_size (rt_lastShown r)) (map_size (rt_acknowledged r)) (dg_LastShownTTLPruned d)
      (dg_LastShownCapacityEvictions d) (dg_AcknowledgementTTLPruned d) (dg_AcknowledgementCapacityEvictions d)
      (dg_SupersededAcknowledgementsPruned d) (dg_LastPrunedAt d) in
  match store with
  | None => result "unavailable"%string (dg_LastErrorCode d) (dg_LastReadAt d) (dg_LastWriteAt d) (dg_Failures d)
  | Some status => result (ss_Phase status) (ss_LastErrorCode status) (ss_LastReadAt status) (ss_LastWriteAt status) (ss_Failures status)
  end.

(** ** Specification *)

(** The entries of the two maps as one collection, an acknowledgement or a last-shown time
    per key, with the time each was last used. *)
Definition entry : Type := bool * string.
Definition entry_time (r : Retained) (e : entry) : option Time :=
  if e.1 then as_touchedAt <$> rt_acknowledged r !! e.2 else rt_lastShown r !! e.2.

(** What age and supersession alone would keep. *)
Definition fresh_entry (live : gmap string ObservationRecord) (now : Time) (r : Retained) (e : entry) : Prop :=
  exists t, entry_time r e = Some t /\ too_old now (rt_ttl r) t = false
    /\ (e.1 = true -> forall state, rt_acknowledged r !! e.2 = Some state -> superseded_ack live e.2 state = false).

(** Metadata is filed under the identity it names. *)
Record Coherent (r : Retained) : Prop := {
  coh_shown id metadata : rt_lastShownState r !! id = Some metadata -> stateIdentityID (lm_identity metadata) = id;
  coh_ack id state : rt_acknowledged r !! id = Some state ->
    stateIdentityID (as_identity state) = id /\ si_Generation (as_identity state) = as_generation state
    /\ si_PluginID (as_identity state) <> EmptyString;
}.

(** ** Lemmas *)

Lemma compare_times_le a b : ~ compare_times b a < 0 <-> instant a <= instant b.
Proof. unfold compare_times. repeat case_if; lia. Qed.

Ltac order_cases := unfold not_after, compare_combined, compare_victims, compare_times in *; cbv zeta in *.

Lemma compare_combined_asym x y : compare_combined x y < 0 -> ~ compare_combined y x < 0.
Proof.
  order_cases. pose proof (cmp_strings_antisym (cv_id x) (cv_id y)).
  destruct (cv_isLive x), (cv_isLive y), (cv_ack x), (cv_ack y); simpl; repeat case_if; lia.
Qed.

Lemma compare_combined_trans x y z :
  not_after compare_combined x y -> not_after compare_combined y z -> not_after compare_combined x z.
Proof.
  order_cases. pose proof (cmp_strings_le_trans (cv_id x) (cv_id y) (cv_id z)).
  pose proof (cmp_strings_antisym (cv_id x) (cv_id y)). pose proof (cmp_strings_antisym (cv_id y) (cv_id z)).
  pose proof (cmp_strings_antisym (cv_id x) (cv_id z)).
  destruct (cv_isLive x), (cv_isLive y), (cv_isLive z), (cv_ack x), (cv_ack y), (cv_ack z); simpl; try lia;
    destruct (Z.ltb_spec (instant (cv_at x)) (instant (cv_at y))), (Z.ltb_spec (instant (cv_at y)) (instant (cv_at x))),
      (Z.ltb_spec (instant (cv_at y)) (instant (cv_at z))), (Z.ltb_spec (instant (cv_at z)) (instant (cv_at y))),
      (Z.ltb_spec (instant (cv_at x)) (instant (cv_at z))), (Z.ltb_spec (instant (cv_at z)) (instant (cv_at x))); simpl; lia.
Qed.

(** *** The entries as one sorted list *)

Lemma StronglySorted_List_filter {A} (R : A -> A -> Prop) (f : A -> bool) (l : list A) :
  StronglySorted R l -> StronglySorted R (List.filter f l).
Proof.
  induction 1 as [|x l Hl IH Hx]; simpl; [constructor|]. case_if; [|done]. constructor; [done|].
  rewrite Forall_forall in *. intros y [Hy _]%elem_of_List_filter. by apply Hx.
Qed.

Lemma NoDup_List_filter {A} (f : A -> bool) (l : list A) : NoDup l -> NoDup (List.filter f l).
Proof.
  induction 1 as [|x l Hx Hl IH]; simpl; [constructor|]. case_if; [|done]. constructor; [|done].
  rewrite elem_of_List_filter. tauto.
Qed.

Section Ranking.
Context (live : gmap string ObservationRecord).

Definition is_entry (shown : gmap string Time) (acks : gmap string ackState) (v : combinedStateVictim) : Prop :=
  cv_isLive v = is_live live (cv_id v)
  /\ if cv_ack v then exists state, acks !! cv_id v = Some state /\ cv_at v = as_touchedAt state
     else shown !! cv_id v = Some (cv_at v).

(** Whether a victim's entry is still there. *)
Definition holds (shown : gmap string Time) (acks : gmap string ackState) (v : combinedStateVictim) : bool :=
  if cv_ack v then is_some (acks !! cv_id v) else is_some (shown !! cv_id v).

Lemma elem_of_combined shown acks v : v ∈ combined_victims live shown acks <-> is_entry shown acks v.
Proof.
  unfold combined_victims, sortCombinedStateVictims, is_entry. rewrite elem_of_SortFunc, elem_of_app, !list_elem_of_fmap.
  split.
  - intros [([id t] & -> & Hin)|([id s] & -> & Hin)]; apply elem_of_map_to_list in Hin; simpl; split; eauto.
  - destruct v as [id t [] l]; simpl; intros [-> H].
    + destruct H as (s & Hs & ->). right. exists (id, s). by rewrite elem_of_map_to_list.
    + left. exists (id, t). by rewrite elem_of_map_to_list.
Qed.

Lemma entry_unique shown acks v w :
  is_entry shown acks v -> is_entry shown acks w -> cv_ack v = cv_ack w -> cv_id v = cv_id w -> v = w.
Proof.
  destruct v as [i t a l], w as [i' t' a' l']. unfold is_entry; simpl. intros [-> Hv] [-> Hw] -> ->.
  destruct a'; [|congruence]. destruct Hv as (s & Hs & ->), Hw as (s' & Hs' & ->). congruence.
Qed.

Lemma combined_separated shown acks v w :
  is_entry shown acks v -> is_entry shown acks w ->
  not_after compare_combined v w -> not_after compare_combined w v -> v = w.
Proof.
  intros Hv Hw H1 H2. enough (cv_ack v = cv_ack w /\ cv_id v = cv_id w) as [] by by eapply entry_unique.
  revert H1 H2. order_cases. pose proof (cmp_strings_antisym (cv_id v) (cv_id w)) as Ha.
  pose proof (cmp_strings_eq (cv_id v) (cv_id w)) as He.
  destruct (cv_isLive v), (cv_isLive w), (cv_ack v), (cv_ack w); simpl; try lia;
    destruct (Z.ltb_spec (instant (cv_at v)) (instant (cv_at w))), (Z.ltb_spec (instant (cv_at w)) (instant (cv_at v)));
    simpl; try lia; intros; split; try done; apply He; lia.
Qed.

Lemma NoDup_combined shown acks : NoDup (combined_victims live shown acks).
Proof.
  unfold combined_victims, sortCombinedStateVictims. rewrite SortFunc_perm. apply NoDup_app. split; [|split].
  - apply NoDup_fmap_2; [|apply NoDup_map_to_list]. intros [i t] [j u] Heq. by injection Heq as -> ->.
  - intros v (x & -> & _)%list_elem_of_fmap (y & Hy & _)%list_elem_of_fmap. done.
  - apply (NoDup_fmap_1 cv_id). rewrite <- list_fmap_compose. apply NoDup_fst_map_to_list.
Qed.

Lemma combined_sorted shown acks : StronglySorted (not_after compare_combined) (combined_victims live shown acks).
Proof. apply SortFunc_sorted; [apply compare_combined_asym|apply compare_combined_trans]. Qed.

Lemma length_combined shown acks :
  Z.of_nat (length (combined_victims live shown acks)) = map_size shown + map_size acks.
Proof.
  unfold combined_victims, sortCombinedStateVictims, map_size.
  rewrite length_SortFunc, length_app, !length_map, !length_map_to_list. lia.
Qed.

(** A sorted list of entries is determined by its elements. *)
Lemma entries_unique shown acks l1 l2 :
  (forall v, v ∈ l1 -> is_entry shown acks v) -> NoDup l1 -> NoDup l2 -> (forall v, v ∈ l1 <-> v ∈ l2) ->
  StronglySorted (not_after compare_combined) l1 -> StronglySorted (not_after compare_combined) l2 -> l1 = l2.
Proof.
  intros He Hn1 Hn2 Hin H1 H2. apply (StronglySorted_unique_strong (not_after compare_combined)); [|done..|].
  - intros v w Hv Hw. eapply combined_separated; [by apply He|apply He; by apply Hin].
  - by apply NoDup_Permutation.
Qed.

Lemma combined_submap shown acks shown' acks' :
  shown' ⊆ shown -> acks' ⊆ acks ->
  combined_victims live shown' acks' = List.filter (holds shown' acks') (combined_victims live shown acks).
Proof.
  intros Hs Ha. assert (Hsub : forall v, is_entry shown' acks' v -> is_entry shown acks v).
  { intros [i t [] l] [Hl Hv]; split; try done; simpl in *.
    - destruct Hv as (s & Hv & ->). exists s. split; [|done]. by eapply lookup_weaken.
    - by eapply lookup_weaken. }
  apply (entries_unique shown acks).
  - intros v Hv%elem_of_combined. by apply Hsub.
  - apply NoDup_combined.
  - apply NoDup_List_filter, NoDup_combined.
  - intros v. rewrite elem_of_List_filter, !elem_of_combined. unfold holds. split.
    + intros Hv. split; [by apply Hsub|]. destruct Hv as [_ Hv]. destruct (cv_ack v).
      * destruct Hv as (s & -> & _). done.
      * by rewrite Hv.
    + intros [[Hl Hv] Hh]. split; [done|]. destruct (cv_ack v).
      * destruct Hv as (s & Hs' & ->). destruct (acks' !! cv_id v) as [s'|] eqn:E; [|done].
        exists s'. split; [done|]. pose proof (lookup_weaken _ _ _ _ E Ha). congruence.
      * destruct (shown' !! cv_id v) as [t|] eqn:E; [|done].
        pose proof (lookup_weaken _ _ _ _ E Hs). congruence.
  - apply combined_sorted.
  - apply StronglySorted_List_filter, combined_sorted.
Qed.
End Ranking.

(** *** Victims of one map *)

Lemma StronglySorted_map_in {A B} (R : A -> A -> Prop) (R' : B -> B -> Prop) (f : A -> B) (l : list A) :
  (forall x y, x ∈ l -> y ∈ l -> R x y -> R' (f x) (f y)) -> StronglySorted R l -> StronglySorted R' (map f l).
Proof.
  intros Hf Hl. induction Hl as [|x l Hl IH Hx]; simpl; [constructor|]. constructor.
  - apply IH. intros y z Hy Hz. apply Hf; by right.
  - apply Forall_forall. intros y (z & -> & Hz)%list_elem_of_fmap.
    apply Hf; [by left|by right|]. by eapply Forall_forall in Hx.
Qed.

Lemma compare_victims_asym x y : compare_victims x y < 0 -> ~ compare_victims y x < 0.
Proof. order_cases. pose proof (cmp_strings_antisym (sv_id x) (sv_id y)). repeat case_if; lia. Qed.

Lemma compare_victims_trans x y z :
  not_after compare_victims x y -> not_after compare_victims y z -> not_after compare_victims x z.
Proof.
  intros H1 H2. pose proof (compare_combined_trans (mkCombinedVictim (sv_id x) (sv_at x) true true)
    (mkCombinedVictim (sv_id y) (sv_at y) true true) (mkCombinedVictim (sv_id z) (sv_at z) true true)).
  by apply H.
Qed.

Definition to_victim (v : combinedStateVictim) : stateVictim := mkStateVictim (cv_id v) (cv_at v).

(** Its class: the map it belongs to, if its observation is gone. *)
Definition stale_of (ack : bool) (v : combinedStateVictim) : bool := Bool.eqb (cv_ack v) ack && negb (cv_isLive v).

Lemma evict_le {A} capacity victims (m : gmap string A) : map_size m <= capacity -> evict capacity victims m = (m, 0).
Proof. intros H. destruct victims; [done|]. simpl. by rewrite (proj2 (Z.leb_le _ _) H). Qed.

Lemma evict_lookup {A} capacity victims (m : gmap string A) id x :
  NoDup (map sv_id victims) -> (forall v, v ∈ victims -> is_Some (m !! sv_id v)) ->
  (evict capacity victims m).1 !! id = Some x <->
  m !! id = Some x /\ id ∉ map sv_id (take (Z.to_nat (map_size m - capacity)) victims).
Proof.
  revert m. induction victims as [|v victims IH]; intros m Hnd Hin.
  { simpl. rewrite take_nil. simpl. split; [intros ?; split; [done|apply not_elem_of_nil]|tauto]. }
  simpl. inversion Hnd as [|? ? Hv Hnd']; subst. unfold map_size at 1. case_if.
  { replace (Z.to_nat (map_size m - capacity)) with 0%nat by (unfold map_size; lia). simpl.
    split; [intros ?; split; [done|apply not_elem_of_nil]|tauto]. }
  destruct (Hin v ltac:(left)) as [y Hy].
  assert (Hsize : map_size (delete (sv_id v) m) = map_size m - 1).
  { unfold map_size. rewrite map_size_delete_Some by done.
    enough (size m <> 0%nat) by lia. intros ->%map_size_empty_inv. by rewrite lookup_empty in Hy. }
  specialize (IH (delete (sv_id v) m) Hnd').
  destruct (evict capacity victims (delete (sv_id v) m)) as [kept n]. simpl in *. rewrite IH.
  - rewrite Hsize. replace (Z.to_nat (map_size m - capacity)) with (S (Z.to_nat (map_size m - 1 - capacity))).
    2: { unfold map_size in *. lia. }
    simpl. rewrite lookup_delete_Some, not_elem_of_cons. naive_solver.
  - intros w Hw. rewrite lookup_delete_ne; [apply Hin; by right|].
    intros Heq. apply Hv. rewrite Heq. by apply list_elem_of_fmap_2.
Qed.

Section Stale.
Context (live : gmap string ObservationRecord) (shown : gmap string Time) (acks : gmap string ackState).
Notation entries := (combined_victims live shown acks).

Context {A : Type} (at_of : A -> Time) (m : gmap string A) (ack : bool).
Context (Hof : forall v, is_entry live shown acks v -> cv_ack v = ack -> exists x, m !! cv_id v = Some x /\ cv_at v = at_of x).
Context (Hto : forall id x, m !! id = Some x ->
  is_entry live shown acks (mkCombinedVictim id (at_of x) ack (is_live live id))).

Definition stale_list : list stateVictim :=
  map (fun kv => mkStateVictim kv.1 (at_of kv.2)) (List.filter (fun kv => negb (is_live live kv.1)) (map_to_list m)).

Lemma elem_of_stale_list v :
  v ∈ stale_list <-> exists x, m !! sv_id v = Some x /\ v = mkStateVictim (sv_id v) (at_of x) /\ is_live live (sv_id v) = false.
Proof.
  unfold stale_list. rewrite list_elem_of_fmap. setoid_rewrite elem_of_List_filter. split.
  - intros ([id x] & -> & Hin%elem_of_map_to_list & Hn%negb_true_iff). simpl in *. eauto.
  - intros (x & Hx & Hv & Hn). exists (sv_id v, x). rewrite elem_of_map_to_list. simpl. by rewrite Hn.
Qed.

Lemma NoDup_stale_list : NoDup (map sv_id stale_list).
Proof.
  unfold stale_list. rewrite map_map. simpl. apply (NoDup_fmap_2_strong fst).
  - intros [i x] [j y] Hx%elem_of_List_filter Hy%elem_of_List_filter. simpl. intros <-.
    destruct Hx as [Hx%elem_of_map_to_list _], Hy as [Hy%elem_of_map_to_list _]. congruence.
  - apply NoDup_List_filter, NoDup_map_to_list.
Qed.

Lemma stale_list_entries : stale_list ≡ₚ map to_victim (List.filter (stale_of ack) entries).
Proof.
  apply NoDup_Permutation.
  - apply (NoDup_fmap_1 sv_id), NoDup_stale_list.
  - apply NoDup_fmap_2_strong; [|apply NoDup_List_filter, NoDup_combined].
    intros v w [Hve%elem_of_combined Hv]%elem_of_List_filter [Hwe%elem_of_combined Hw]%elem_of_List_filter Heq.
    unfold stale_of in *. apply andb_true_iff in Hv as [Hv _], Hw as [Hw _]. apply eqb_prop in Hv, Hw.
    injection Heq as Hid _. by apply (entry_unique live shown acks); [..|congruence|].
  - intros v. rewrite elem_of_stale_list, list_elem_of_fmap. setoid_rewrite elem_of_List_filter.
    setoid_rewrite elem_of_combined. unfold stale_of. split.
    + intros (x & Hx & Hv & Hn). exists (mkCombinedVictim (sv_id v) (at_of x) ack (is_live live (sv_id v))).
      split; [done|]. split; [by apply Hto|]. simpl. rewrite Hn. by destruct ack.
    + intros (w & -> & Hwe & Hw). apply andb_true_iff in Hw as [Ha%eqb_prop Hn%negb_true_iff].
      destruct (Hof w Hwe Ha) as (x & Hx & Ht). exists x. destruct Hwe as [Hl' _]. simpl. unfold to_victim.
      rewrite Ht, <- Hl'. done.
Qed.

Lemma stale_victims_spec : stale_victims live at_of m = map to_victim (List.filter (stale_of ack) entries).
Proof.
  unfold stale_victims, sortStateVictims. fold stale_list.
  apply (StronglySorted_unique_strong (not_after compare_victims)).
  - intros v w Hv Hw H1 H2.
    apply (NoDup_map_inj sv_id stale_list); [apply NoDup_stale_list| | |].
    { by apply (elem_of_SortFunc compare_victims). }
    { by rewrite stale_list_entries. }
    revert H1 H2. order_cases.
    pose proof (cmp_strings_antisym (sv_id v) (sv_id w)). pose proof (cmp_strings_eq (sv_id v) (sv_id w)) as He.
    destruct (Z.ltb_spec (instant (sv_at v)) (instant (sv_at w))), (Z.ltb_spec (instant (sv_at w)) (instant (sv_at v)));
      simpl; try lia; intros; apply He; lia.
  - apply SortFunc_sorted; [apply compare_victims_asym|apply compare_victims_trans].
  - apply (StronglySorted_map_in (not_after compare_combined)).
    + intros v w [_ Hv]%elem_of_List_filter [_ Hw]%elem_of_List_filter. unfold stale_of in *.
      apply andb_true_iff in Hv as [Hv1%eqb_prop Hv2%negb_true_iff], Hw as [Hw1%eqb_prop Hw2%negb_true_iff].
      order_cases. rewrite Hv1, Hw1, Hv2, Hw2, !eqb_reflx. simpl. tauto.
    + apply StronglySorted_List_filter, combined_sorted.
  - rewrite SortFunc_perm. apply stale_list_entries.
Qed.
End Stale.

(** *** Ranks *)

Lemma drop_filter_rank {A} (keep : A -> bool) (l : list A) (n : nat) :
  NoDup l -> (n <= length l)%nat -> (forall v, v ∈ l -> keep v = false -> v ∈ take n l) ->
  drop (n - (length l - length (List.filter keep l))) (List.filter keep l) = drop n l.
Proof.
  intros Hnd Hn Hkeep. rewrite <- (take_drop n l) in Hnd. apply NoDup_app in Hnd as (_ & Hdisj & _).
  assert (Hrest : List.filter keep (drop n l) = drop n l).
  { apply forallb_filter_id, forallb_forall. intros v Hv%list_elem_of_In. destruct (keep v) eqn:E; [done|].
    destruct (Hdisj v); [|done]. apply Hkeep; [|done]. by eapply (subseteq_drop n). }
  assert (Hl : List.filter keep l = List.filter keep (take n l) ++ drop n l).
  { by rewrite <- (take_drop n l) at 1; rewrite List.filter_app, Hrest. }
  pose proof (List.filter_length_le keep (take n l)) as Hle. rewrite length_take in Hle.
  rewrite Hl, length_app, length_drop.
  replace (n - _)%nat with (length (List.filter keep (take n l))) by lia. by rewrite drop_app_length.
Qed.

Lemma length_filter_split {A} (f : A -> bool) (l : list A) :
  (length (List.filter f l) + length (List.filter (fun x => negb (f x)) l) = length l)%nat.
Proof. induction l as [|x l IH]; simpl; [done|]. destruct (f x); simpl; lia. Qed.

(** The stalest entries of one map are among the stalest of both. *)
Lemma stale_prefix (l : list combinedStateVictim) (ack : bool) (k n : nat) :
  StronglySorted (not_after compare_combined) l -> NoDup l ->
  (k + length (List.filter (fun v => negb (Bool.eqb (cv_ack v) ack)) l) <= n)%nat ->
  forall v, v ∈ take k (List.filter (stale_of ack) l) -> v ∈ take n l.
Proof.
  intros Hs Hnd Hk v Hv. assert (Hin : v ∈ List.filter (stale_of ack) l) by (by eapply (subseteq_take k)).
  apply elem_of_List_filter in Hin as [Hin Hst]. apply andb_true_iff in Hst as [_ Hst%negb_true_iff].
  destruct (forallb (fun w => negb (cv_isLive w)) (take n l)) eqn:Hall.
  - assert (Hf : List.filter (stale_of ack) (take n l) = List.filter (fun w => Bool.eqb (cv_ack w) ack) (take n l)).
    { rewrite forallb_forall in Hall. apply List.filter_ext_in. intros w Hw. unfold stale_of. by rewrite Hall, andb_true_r. }
    rewrite <- (take_drop n l), List.filter_app, Hf in Hv.
    pose proof (length_filter_split (fun w => Bool.eqb (cv_ack w) ack) (take n l)) as Hsplit.
    assert ((length (List.filter (fun v => negb (Bool.eqb (cv_ack v) ack)) (take n l)) <=
      length (List.filter (fun v => negb (Bool.eqb (cv_ack v) ack)) l))%nat).
    { rewrite <- (take_drop n l) at 2. rewrite List.filter_app, length_app. lia. }
    destruct (decide (n <= length l)%nat) as [Hn|Hn]; [|rewrite take_ge by lia; done].
    rewrite length_take in Hsplit. rewrite take_app_le in Hv by lia.
    apply elem_of_take in Hv as (i & Hi & _). apply list_elem_of_lookup_2, elem_of_List_filter in Hi. tauto.
  - apply not_true_iff_false in Hall. rewrite forallb_forall in Hall.
    rewrite <- (take_drop n l) in Hin, Hs. apply elem_of_app in Hin as [Hin|Hin]; [done|]. destruct Hall.
    intros w Hw%list_elem_of_In. pose proof (StronglySorted_app_1_elem_of _ _ _ _ _ Hs Hw Hin) as Hna.
    destruct (cv_isLive w) eqn:Hw'; [|done]. exfalso. revert Hna. order_cases. rewrite Hst, Hw'. simpl. lia.
Qed.

(** *** The three capacity phases *)

(** The [capacity] last entries. *)
Definition newest {A} (capacity : Z) (l : list A) : list A := drop (length l - Z.to_nat capacity) l.

Lemma forall_in_cons {A} (P : A -> Prop) x (l : list A) : (forall y, y ∈ x :: l -> P y) <-> P x /\ forall y, y ∈ l -> P y.
Proof. rewrite <- !Forall_forall. apply Forall_cons. Qed.

Lemma lookup_remove_shown {A} victims (m : gmap string A) id x :
  remove_shown victims m !! id = Some x <->
  m !! id = Some x /\ forall v, v ∈ victims -> cv_ack v = false -> cv_id v <> id.
Proof.
  unfold remove_shown. revert m. induction victims as [|v victims IH]; intros m; simpl.
  { split; [intros H; split; [done|by intros ? ?%not_elem_of_nil]|tauto]. }
  rewrite IH, (forall_in_cons (fun v => cv_ack v = false -> cv_id v <> id)).
  destruct (cv_ack v) eqn:E; [|rewrite lookup_delete_Some]; naive_solver.
Qed.

Lemma lookup_remove_acks {A} victims (m : gmap string A) id x :
  remove_acks victims m !! id = Some x <->
  m !! id = Some x /\ forall v, v ∈ victims -> cv_ack v = true -> cv_id v <> id.
Proof.
  unfold remove_acks. revert m. induction victims as [|v victims IH]; intros m; simpl.
  { split; [intros H; split; [done|by intros ? ?%not_elem_of_nil]|tauto]. }
  rewrite IH, (forall_in_cons (fun v => cv_ack v = true -> cv_id v <> id)).
  destruct (cv_ack v) eqn:E; [rewrite lookup_delete_Some|]; naive_solver.
Qed.

Lemma remove_shown_sub {A} victims (m : gmap string A) : remove_shown victims m ⊆ m.
Proof. apply map_subseteq_spec. intros id x H%lookup_remove_shown. tauto. Qed.

Lemma remove_acks_sub {A} victims (m : gmap string A) : remove_acks victims m ⊆ m.
Proof. apply map_subseteq_spec. intros id x H%lookup_remove_acks. tauto. Qed.

(** Removing the first entries of the sorted list leaves the others. *)
Lemma combined_remove live shown acks n :
  let victims := take n (combined_victims live shown acks) in
  combined_victims live (remove_shown victims shown) (remove_acks victims acks)
  = drop n (combined_victims live shown acks).
Proof.
  intros victims. pose proof (NoDup_combined live shown acks) as Hnd. rewrite <- (take_drop n) in Hnd.
  apply NoDup_app in Hnd as (_ & Hdisj & Hnd).
  pose proof (combined_sorted live shown acks) as Hs. rewrite <- (take_drop n) in Hs.
  apply (entries_unique live shown acks).
  - intros v [Hl Hv]%elem_of_combined. split; [done|]. destruct (cv_ack v).
    + destruct Hv as (s & [Hv _]%lookup_remove_acks & ->). by exists s.
    + by apply lookup_remove_shown in Hv as [Hv _].
  - apply NoDup_combined.
  - done.
  - intros v. rewrite elem_of_combined. split.
    + intros Hv. assert (Hin : v ∈ combined_victims live shown acks /\ v ∉ victims).
      { rewrite elem_of_combined. destruct Hv as [Hl Hv]. unfold is_entry. destruct (cv_ack v) eqn:E.
        - destruct Hv as (s & [Hs' Hno]%lookup_remove_acks & ->). split; [by eauto|]. intros Hin. by apply (Hno v).
        - apply lookup_remove_shown in Hv as [Hv Hno]. split; [done|]. intros Hin. by apply (Hno v). }
      destruct Hin as [Hin Hno]. rewrite <- (take_drop n), elem_of_app in Hin. by destruct Hin.
    + intros Hv. assert (Hin : is_entry live shown acks v) by (apply elem_of_combined; by eapply (subseteq_drop n)).
      assert (Hother : forall w, w ∈ victims -> cv_ack w = cv_ack v -> cv_id w <> cv_id v).
      { intros w Hw Ha Hid. apply (Hdisj v); [|done]. replace v with w; [done|].
        eapply entry_unique; [|exact Hin|done..]. apply elem_of_combined. by eapply (subseteq_take n). }
      destruct Hin as [Hl Hin]. split; [done|]. destruct (cv_ack v).
      * destruct Hin as (s & Hs' & ->). exists s. rewrite lookup_remove_acks. auto.
      * rewrite lookup_remove_shown. auto.
  - apply combined_sorted.
  - by eapply StronglySorted_app_1_r.
Qed.

(** A phase drops the stalest entries of its map, in excess of the capacity. *)
Definition dropped_stale live shown acks (ack : bool) (capacity size_ : Z) : list combinedStateVictim :=
  take (Z.to_nat (size_ - capacity)) (List.filter (stale_of ack) (combined_victims live shown acks)).

Lemma evict_stale {A} live shown acks (at_of : A -> Time) (m : gmap string A) (ack : bool) capacity id x :
  (forall v, is_entry live shown acks v -> cv_ack v = ack -> exists x, m !! cv_id v = Some x /\ cv_at v = at_of x) ->
  (forall id x, m !! id = Some x -> is_entry live shown acks (mkCombinedVictim id (at_of x) ack (is_live live id))) ->
  (evict capacity (stale_victims live at_of m) m).1 !! id = Some x <->
  m !! id = Some x /\ forall v, v ∈ dropped_stale live shown acks ack capacity (map_size m) -> cv_id v <> id.
Proof.
  intros Hof Hto. rewrite evict_lookup.
  - rewrite (stale_victims_spec live shown acks at_of m ack) by done. unfold dropped_stale.
    rewrite <- fmap_take, list_elem_of_fmap. setoid_rewrite list_elem_of_fmap. split.
    + intros [H Hno]. split; [done|]. intros v Hv <-. apply Hno. by exists (to_victim v); eauto.
    + intros [H Hno]. split; [done|]. intros (? & -> & v & -> & Hv). by apply (Hno v).
  - unfold stale_victims, sortStateVictims. rewrite SortFunc_perm. apply NoDup_stale_list.
  - intros v Hv. apply elem_of_SortFunc in Hv. apply elem_of_stale_list in Hv as (y & Hy & _). by rewrite Hy.
Qed.

Definition fresh_shown (now : Time) (r : Retained) : gmap string Time :=
  filter (fun kv => too_old now (rt_ttl r) kv.2 = false) (rt_lastShown r).
Definition fresh_acks (live : gmap string ObservationRecord) (now : Time) (r : Retained) : gmap string ackState :=
  filter (fun kv => superseded_ack live kv.1 kv.2 = false)
    (filter (fun kv => too_old now (rt_ttl r) (as_touchedAt kv.2) = false) (rt_acknowledged r)).

(** The maps after the phases that bound each of them. *)
Definition bounded_shown live capacity (shown : gmap string Time) : gmap string Time :=
  (pruneLastShownCapacity live shown capacity).1.
Definition bounded_acks live capacity (acks : gmap string ackState) : gmap string ackState :=
  (if (0 <? capacity) && (capacity <? map_size acks)
   then evict capacity (stale_victims live as_touchedAt acks) acks else (acks, 0)).1.

Lemma bounded_shown_spec live capacity shown acks id t : 0 < capacity ->
  bounded_shown live capacity shown !! id = Some t <->
  shown !! id = Some t /\ forall v, v ∈ dropped_stale live shown acks false capacity (map_size shown) -> cv_id v <> id.
Proof.
  intros Hc. unfold bounded_shown, pruneLastShownCapacity. rewrite (proj2 (Z.leb_gt _ _) Hc). simpl. case_if.
  - unfold dropped_stale. replace (Z.to_nat (map_size shown - capacity)) with 0%nat by lia. simpl.
    split; [intros H; split; [done|by intros ? ?%not_elem_of_nil]|by intros [H _]].
  - apply (evict_stale live shown acks (fun t => t)).
    + intros v [_ Hv] Ha. rewrite Ha in Hv. by exists (cv_at v).
    + intros i u Hu. done.
Qed.

Lemma bounded_acks_spec live capacity shown acks id s : 0 < capacity ->
  bounded_acks live capacity acks !! id = Some s <->
  acks !! id = Some s /\ forall v, v ∈ dropped_stale live shown acks true capacity (map_size acks) -> cv_id v <> id.
Proof.
  intros Hc. unfold bounded_acks. rewrite (proj2 (Z.ltb_lt _ _) Hc). simpl. case_if.
  - apply (evict_stale live shown acks as_touchedAt).
    + intros v [_ Hv] Ha. by rewrite Ha in Hv.
    + intros i u Hu. split; [done|]. simpl. eauto.
  - unfold dropped_stale. replace (Z.to_nat (map_size acks - capacity)) with 0%nat by lia. simpl.
    split; [intros H; split; [done|by intros ? ?%not_elem_of_nil]|by intros [H _]].
Qed.

Lemma length_filter_ack live shown acks (ack : bool) :
  Z.of_nat (length (List.filter (fun v => negb (Bool.eqb (cv_ack v) ack)) (combined_victims live shown acks)))
  = if ack then map_size shown else map_size acks.
Proof.
  unfold combined_victims, sortCombinedStateVictims, map_size.
  rewrite (Permutation_filter_bool _ _ _ (SortFunc_perm compare_combined _)), List.filter_app, length_app.
  set (f := fun v => negb (Bool.eqb (cv_ack v) ack)).
  assert (Hall : forall b (l : list combinedStateVictim), (forall v, v ∈ l -> cv_ack v = b) ->
    length (List.filter f l) = if Bool.eqb b ack then 0%nat else length l).
  { intros b. induction l as [|v l IH]; intros Hb; simpl; [by case_if|]. unfold f at 1.
    rewrite (Hb v) by left. specialize (IH (fun w Hw => Hb w ltac:(by right))).
    destruct (Bool.eqb b ack); simpl; lia. }
  rewrite (Hall false), (Hall true).
  - destruct ack; simpl; rewrite !length_map, !length_map_to_list; lia.
  - by intros v (x & -> & _)%list_elem_of_fmap.
  - by intros v (x & -> & _)%list_elem_of_fmap.
Qed.

Lemma dropped_stale_class live shown acks ack capacity n v :
  v ∈ dropped_stale live shown acks ack capacity n -> v ∈ combined_victims live shown acks /\ cv_ack v = ack.
Proof.
  intros [Hv Hs]%subseteq_take%elem_of_List_filter. by apply andb_true_iff in Hs as [Hs%eqb_prop _].
Qed.

(** An entry of the full maps is dropped by a phase or held afterwards. *)
Lemma dropped_or_held live shown acks capacity v : 0 < capacity ->
  v ∈ combined_victims live shown acks ->
  holds (bounded_shown live capacity shown) (bounded_acks live capacity acks) v = false ->
  v ∈ dropped_stale live shown acks (cv_ack v) capacity (if cv_ack v then map_size acks else map_size shown).
Proof.
  intros Hc Hin Hno. set (d := dropped_stale _ _ _ _ _ _).
  destruct (decide (Exists (fun w => cv_id w = cv_id v) d)) as [(w & Hw & Hid)%Exists_exists|Hnone].
  - destruct (dropped_stale_class _ _ _ _ _ _ _ Hw) as [Hwin Ha]. replace v with w; [done|].
    by eapply entry_unique; [apply elem_of_combined..| |].
  - assert (Hother : forall w, w ∈ d -> cv_id w <> cv_id v).
    { intros w Hw Hid. apply Hnone, Exists_exists. eauto. }
    apply elem_of_combined in Hin as [_ Hv]. unfold holds in Hno. subst d. destruct (cv_ack v).
    + destruct Hv as (s & Hs & _).
      by rewrite (proj2 (bounded_acks_spec live capacity shown acks _ s Hc) (conj Hs Hother)) in Hno.
    + by rewrite (proj2 (bounded_shown_spec live capacity shown acks _ _ Hc) (conj Hv Hother)) in Hno.
Qed.

(** The entries the two phases drop are among the stalest of all. *)
Lemma dropped_among_stalest live shown acks capacity v : 0 < capacity ->
  v ∈ combined_victims live shown acks ->
  holds (bounded_shown live capacity shown) (bounded_acks live capacity acks) v = false ->
  v ∈ take (length (combined_victims live shown acks) - Z.to_nat capacity) (combined_victims live shown acks).
Proof.
  intros Hc Hin Hno. apply (dropped_or_held live) in Hno; [|done..].
  pose proof (length_combined live shown acks). pose proof (length_filter_ack live shown acks (cv_ack v)).
  assert (Hpos : 0 < (if cv_ack v then map_size acks else map_size shown) - capacity).
  { apply Z.nle_gt. intros Hle. unfold dropped_stale in Hno.
    destruct (Z.to_nat (_ - capacity)) eqn:E in Hno; [|lia]. by apply not_elem_of_nil in Hno. }
  eapply (stale_prefix _ (cv_ack v)); [apply combined_sorted|apply NoDup_combined| |exact Hno].
  unfold map_size in *. destruct (cv_ack v); lia.
Qed.

Lemma bounded_shown_sub live capacity shown : 0 < capacity -> bounded_shown live capacity shown ⊆ shown.
Proof. intros Hc. apply map_subseteq_spec. intros id t H%(bounded_shown_spec live capacity shown ∅); tauto. Qed.

Lemma bounded_acks_sub live capacity acks : 0 < capacity -> bounded_acks live capacity acks ⊆ acks.
Proof. intros Hc. apply map_subseteq_spec. intros id s H%(bounded_acks_spec live capacity ∅ acks); tauto. Qed.

(** The phases together are one pass over both maps. *)
Lemma phases_keep_newest live shown acks capacity : 0 < capacity ->
  let shown' := bounded_shown live capacity shown in
  let acks' := bounded_acks live capacity acks in
  newest capacity (combined_victims live shown' acks') = newest capacity (combined_victims live shown acks).
Proof.
  intros Hc shown' acks'. rewrite (combined_submap live shown acks shown' acks')
    by (by apply bounded_shown_sub || by apply bounded_acks_sub).
  set (l := combined_victims live shown acks). unfold newest.
  pose proof (List.filter_length_le (holds shown' acks') l) as Hle.
  destruct (decide (length l <= Z.to_nat capacity)%nat) as [Hl|Hl].
  - replace (length l - _)%nat with 0%nat by lia. replace (_ - _)%nat with 0%nat by lia. simpl.
    apply forallb_filter_id, forallb_forall. intros v Hv%list_elem_of_In. destruct (holds shown' acks' v) eqn:E; [done|].
    apply (dropped_among_stalest live) in E; [|done..]. fold l in E.
    replace (length l - _)%nat with 0%nat in E by lia. by apply not_elem_of_nil in E.
  - rewrite <- (drop_filter_rank (holds shown' acks') l (length l - Z.to_nat capacity)).
    + f_equal. lia.
    + apply NoDup_combined.
    + lia.
    + intros v Hv Hno. by apply dropped_among_stalest.
Qed.

(** *** What pruning leaves *)

(** The fields of a state but its counters. *)
Definition same_state (r : Retained) shown state acks capacity ttl : Prop :=
  rt_lastShown r = shown /\ rt_lastShownState r = state /\ rt_acknowledged r = acks
  /\ rt_capacity r = capacity /\ rt_ttl r = ttl.

Lemma pruneLastShown_maps live now r :
  let shown := bounded_shown live (rt_capacity r) (fresh_shown now r) in
  same_state (pruneLastShown live now r) shown (filter (fun kv => is_Some (shown !! kv.1)) (rt_lastShownState r))
    (rt_acknowledged r) (rt_capacity r) (rt_ttl r).
Proof.
  unfold pruneLastShown, bounded_shown. fold (fresh_shown now r).
  destruct (pruneLastShownCapacity _ _ _) as [shown n]. cbv zeta. by destruct (_ || _).
Qed.

Lemma pruneAcknowledgements_maps live now r :
  same_state (pruneAcknowledgementsWithLive live now r) (rt_lastShown r) (rt_lastShownState r)
    (bounded_acks live (rt_capacity r) (fresh_acks live now r)) (rt_capacity r) (rt_ttl r).
Proof.
  unfold pruneAcknowledgementsWithLive, bounded_acks. fold (fresh_acks live now r).
  destruct (if (0 <? rt_capacity r) && _ then _ else _) as [acks n]. cbv zeta. by destruct (_ || _).
Qed.

Lemma pruneCombined_maps live now r : 0 < rt_capacity r ->
  let victims := take (Z.to_nat (map_size (rt_lastShown r) + map_size (rt_acknowledged r) - rt_capacity r))
                   (combined_victims live (rt_lastShown r) (rt_acknowledged r)) in
  same_state (pruneCombinedState live now r) (remove_shown victims (rt_lastShown r))
    (remove_shown victims (rt_lastShownState r)) (remove_acks victims (rt_acknowledged r)) (rt_capacity r) (rt_ttl r).
Proof.
  intros Hc. unfold pruneCombinedState. rewrite (proj2 (Z.leb_gt _ _) Hc). cbv zeta. simpl.
  destruct (Z.leb_spec (map_size (rt_lastShown r) + map_size (rt_acknowledged r) - rt_capacity r) 0) as [H|H]; [|done].
  destruct (Z.to_nat _) eqn:E; [|lia]. done.
Qed.

Lemma pruneState_maps records now r : 0 < rt_capacity r ->
  let live := live_records records in
  let shown := bounded_shown live (rt_capacity r) (fresh_shown now r) in
  let acks := bounded_acks live (rt_capacity r) (fresh_acks live now r) in
  let victims := take (Z.to_nat (map_size shown + map_size acks - rt_capacity r)) (combined_victims live shown acks) in
  same_state (pruneState records now r).2 (remove_shown victims shown)
    (remove_shown victims (filter (fun kv => is_Some (shown !! kv.1)) (rt_lastShownState r)))
    (remove_acks victims acks) (rt_capacity r) (rt_ttl r).
Proof.
  intros Hc live shown acks victims. unfold pruneState. cbn [snd]. fold live.
  destruct (pruneLastShown_maps live now r) as (H1 & H2 & H3 & H4 & H5). fold shown in H1, H2.
  set (r1 := pruneLastShown live now r) in *.
  destruct (pruneAcknowledgements_maps live now r1) as (K1 & K2 & K3 & K4 & K5).
  assert (Hacks : bounded_acks live (rt_capacity r1) (fresh_acks live now r1) = acks).
  { unfold acks, fresh_acks. by rewrite H3, H4, H5. }
  rewrite Hacks in K3. set (r2 := pruneAcknowledgementsWithLive live now r1) in *. clearbody r1 r2.
  pose proof (pruneCombined_maps live now r2) as Hm. cbv zeta in Hm.
  rewrite K1, K2, K3, K4, K5, H1, H2, H4, H5 in Hm. by apply Hm.
Qed.

(** The newest entries of a sorted list outrank those it loses. *)
Lemma newest_outranks live shown acks capacity v w :
  v ∈ combined_victims live shown acks -> v ∉ newest capacity (combined_victims live shown acks) ->
  w ∈ newest capacity (combined_victims live shown acks) -> not_after compare_combined v w.
Proof.
  unfold newest. intros Hv Hno Hw. pose proof (combined_sorted live shown acks) as Hs.
  set (l := combined_victims live shown acks) in *. set (n := (length l - Z.to_nat capacity)%nat) in *.
  rewrite <- (take_drop n l) in Hs, Hv. apply elem_of_app in Hv as [Hv|Hv]; [|done].
  by eapply StronglySorted_app_1_elem_of.
Qed.

Lemma newest_remove live shown acks capacity : 0 < capacity ->
  let victims := take (Z.to_nat (map_size shown + map_size acks - capacity)) (combined_victims live shown acks) in
  combined_victims live (remove_shown victims shown) (remove_acks victims acks)
  = newest capacity (combined_victims live shown acks).
Proof.
  intros Hc victims. unfold victims. rewrite combined_remove. unfold newest. f_equal.
  pose proof (length_combined live shown acks). lia.
Qed.

(** *** Proposed acknowledgements *)

Lemma boundProposed_spec live capacity proposed lastShown lastShownState :
  0 < capacity ->
  let victims := take (Z.to_nat (map_size lastShown + map_size proposed - capacity)) (combined_victims live lastShown proposed) in
  (boundProposedAcknowledgements live capacity proposed lastShown lastShownState).1
  = ((remove_acks victims proposed, remove_shown victims lastShown), remove_shown victims lastShownState).
Proof.
  intros Hc. unfold boundProposedAcknowledgements. rewrite (proj2 (Z.leb_gt _ _) Hc). cbv zeta. simpl.
  destruct (Z.leb_spec (map_size lastShown + map_size proposed - capacity) 0) as [H|H]; [|done].
  destruct (Z.to_nat _) eqn:E; [|lia]. done.
Qed.

(** *** Coherence *)

Lemma Coherent_sub r r' :
  rt_lastShownState r' ⊆ rt_lastShownState r -> rt_acknowledged r' ⊆ rt_acknowledged r -> Coherent r -> Coherent r'.
Proof.
  intros Hs Ha [H1 H2]. split; intros id x Hx.
  - apply H1. by eapply lookup_weaken.
  - apply H2. by eapply lookup_weaken.
Qed.

(** Whatever the capacity, what is left is fresh, bounded and has the metadata of nothing else. *)
Lemma pruneState_fresh records now r :
  let live := live_records records in
  let r' := (pruneState records now r).2 in
  rt_lastShown r' ⊆ fresh_shown now r /\ rt_acknowledged r' ⊆ fresh_acks live now r
  /\ rt_lastShownState r' ⊆ rt_lastShownState r
  /\ (forall id m, rt_lastShownState r' !! id = Some m -> is_Some (rt_lastShown r' !! id))
  /\ rt_capacity r' = rt_capacity r /\ rt_ttl r' = rt_ttl r
  /\ (0 < rt_capacity r -> map_size (rt_lastShown r') + map_size (rt_acknowledged r') <= rt_capacity r).
Proof.
  cbv zeta. set (live := live_records records). destruct (Z.ltb_spec 0 (rt_capacity r)) as [Hc|Hc].
  - destruct (pruneState_maps records now r Hc) as (Hs & Hst & Ha & Hcap & Httl). fold live in Hs, Hst, Ha.
    rewrite Hs, Hst, Ha, Hcap, Httl. split_and!.
    + etrans; [apply remove_shown_sub|by apply bounded_shown_sub].
    + etrans; [apply remove_acks_sub|by apply bounded_acks_sub].
    + etrans; [apply remove_shown_sub|apply map_filter_subseteq].
    + intros id m [[_ [t Ht]]%map_lookup_filter_Some Hno]%lookup_remove_shown. exists t. by apply lookup_remove_shown.
    + done.
    + done.
    + intros _. rewrite <- (length_combined live), newest_remove by done. unfold newest. rewrite length_drop. lia.
  - unfold pruneState. cbn [snd]. fold live.
    destruct (pruneLastShown_maps live now r) as (H1 & H2 & H3 & H4 & H5). set (r1 := pruneLastShown live now r) in *.
    destruct (pruneAcknowledgements_maps live now r1) as (K1 & K2 & K3 & K4 & K5).
    set (r2 := pruneAcknowledgementsWithLive live now r1) in *.
    assert (Hb : bounded_shown live (rt_capacity r) (fresh_shown now r) = fresh_shown now r).
    { unfold bounded_shown, pruneLastShownCapacity. by rewrite (proj2 (Z.leb_le _ _) Hc). }
    assert (Hba : bounded_acks live (rt_capacity r1) (fresh_acks live now r1) = fresh_acks live now r).
    { unfold bounded_acks, fresh_acks. rewrite H3, H4, H5. by rewrite (proj2 (Z.ltb_ge _ _) Hc). }
    unfold pruneCombinedState. rewrite K4, H4, (proj2 (Z.leb_le _ _) Hc). cbv zeta. simpl.
    rewrite Hba in K3. rewrite Hb in H1, H2. rewrite K1, K2, K3, K4, K5, H1, H2, H4, H5. split_and!; try done.
    + apply map_filter_subseteq.
    + by intros id m [_ ?]%map_lookup_filter_Some.
    + lia.
Qed.

Lemma pruneState_sub records now r :
  rt_lastShown (pruneState records now r).2 ⊆ rt_lastShown r
  /\ rt_lastShownState (pruneState records now r).2 ⊆ rt_lastShownState r
  /\ rt_acknowledged (pruneState records now r).2 ⊆ rt_acknowledged r.
Proof.
  destruct (pruneState_fresh records now r) as (H1 & H2 & H3 & _). split_and!; [|done|].
  - etrans; [exact H1|apply map_filter_subseteq].
  - etrans; [exact H2|]. etrans; apply map_filter_subseteq.
Qed.

(** Pruning leaves alone what is fresh, bounded and coherent. *)
Lemma pruneState_idle records now r :
  (forall id t, rt_lastShown r !! id = Some t -> too_old now (rt_ttl r) t = false) ->
  (forall id s, rt_acknowledged r !! id = Some s ->
     too_old now (rt_ttl r) (as_touchedAt s) = false /\ superseded_ack (live_records records) id s = false) ->
  (forall id m, rt_lastShownState r !! id = Some m -> is_Some (rt_lastShown r !! id)) ->
  (0 < rt_capacity r -> map_size (rt_lastShown r) + map_size (rt_acknowledged r) <= rt_capacity r) ->
  pruneState records now r = (false, r).
Proof.
  intros Hs Ha Hst Hc. set (live := live_records records) in *.
  assert (Hsize : forall A (m : gmap string A), 0 <= map_size m) by (intros; unfold map_size; lia).
  pose proof (Hsize _ (rt_lastShown r)) as Hp1. pose proof (Hsize _ (rt_acknowledged r)) as Hp2.
  assert (H1 : pruneLastShown live now r = r).
  { unfold pruneLastShown. rewrite (map_filter_id _ (rt_lastShown r)) by (intros; simpl; eauto).
    unfold pruneLastShownCapacity. replace ((rt_capacity r <=? 0) || (map_size (rt_lastShown r) <=? rt_capacity r)) with true.
    2: { symmetry. apply orb_true_iff. rewrite !Z.leb_le. lia. }
    cbv zeta. rewrite Z.sub_diag. simpl. unfold syncLastShownState. simpl. rewrite map_filter_id by (intros; simpl; eauto).
    by destruct r. }
  assert (H2 : pruneAcknowledgementsWithLive live now r = r).
  { unfold pruneAcknowledgementsWithLive.
    rewrite (map_filter_id _ (rt_acknowledged r)) by (intros i x Hx; simpl; by apply (Ha i x)).
    rewrite (map_filter_id _ (rt_acknowledged r)) by (intros i x Hx; simpl; by apply (Ha i x)).
    replace ((0 <? rt_capacity r) && (rt_capacity r <? map_size (rt_acknowledged r))) with false.
    2: { symmetry. apply andb_false_iff. rewrite !Z.ltb_ge. lia. }
    cbv zeta. rewrite Z.sub_diag. simpl. by destruct r. }
  assert (H3 : pruneCombinedState live now r = r).
  { unfold pruneCombinedState. cbv zeta.
    replace ((rt_capacity r <=? 0) || _) with true; [done|]. symmetry. apply orb_true_iff. rewrite !Z.leb_le. lia. }
  unfold pruneState. fold live. rewrite H1, H2, H3. by rewrite Z.eqb_refl.
Qed.

(** *** Restoration *)

(** An entry of an earlier run that is still wanted. *)
Definition restorable (lookup : Generation) (now : Time) (ttl : Z) (identity : StateIdentity) (at_ : Time) : Prop :=
  instant at_ <= instant now /\ too_old now ttl at_ = false
  /\ lookup (si_PluginID identity) (si_InstanceID identity) = Some (si_Generation identity).

Lemma restoreStateIdentity_cases lookup now identity at_ r :
  exists stats, restoreStateIdentity (Some lookup) now identity at_ r
    = ((restoreStateIdentity (Some lookup) now identity at_ r).1, set_stats stats r)
  /\ ((restoreStateIdentity (Some lookup) now identity at_ r).1 = true <-> restorable lookup now (rt_ttl r) identity at_).
Proof.
  unfold restoreStateIdentity, restorable. destruct (After at_ now) eqn:E1.
  { eexists. split; [reflexivity|]. apply After_spec in E1. split; [done|]. lia. }
  apply not_true_iff_false in E1. rewrite After_spec in E1.
  destruct (too_old now (rt_ttl r) at_) eqn:E2.
  { eexists. split; [reflexivity|]. split; [done|]. by intros (_ & ? & _). }
  destruct (lookup (si_PluginID identity) (si_InstanceID identity)) as [g|] eqn:E3.
  - destruct (Z.eqb_spec g (si_Generation identity)) as [->|Hg].
    + exists (rt_stats r). split; [by destruct r|]. split; [intros _|done]. split_and!; lia || done.
    + eexists. split; [reflexivity|]. split; [done|]. by intros (_ & _ & [= ?]).
  - eexists. split; [reflexivity|]. split; [done|]. by intros (_ & _ & ?).
Qed.

Section RestoreLemmas.
Context (lookup : Generation) (now : Time).

Definition wanted_shown (ttl : Z) (e : LastShownState) : Prop := restorable lookup now ttl (ls_Identity e) (ls_ShownAt e).
Definition wanted_ack (ttl : Z) (e : AcknowledgementState) : Prop :=
  instant (ack_ObservedAt e) <= instant now /\ restorable lookup now ttl (ack_Identity e) (ack_TouchedAt e).
Definition restored_ack (e : AcknowledgementState) : ackState :=
  mkAckState (ack_Identity e) (si_Generation (ack_Identity e)) (UTC (ack_ObservedAt e)) (UTC (ack_TouchedAt e)).

(** One restored entry. *)
Lemma restore_shown_step r e :
  let r' := restore_shown (Some lookup) now r e in
  rt_acknowledged r' = rt_acknowledged r /\ rt_ttl r' = rt_ttl r
  /\ ((wanted_shown (rt_ttl r) e /\ rt_lastShown r' = <[stateIdentityID (ls_Identity e) := UTC (ls_ShownAt e)]> (rt_lastShown r))
      \/ (~ wanted_shown (rt_ttl r) e /\ rt_lastShown r' = rt_lastShown r)).
Proof.
  unfold restore_shown, wanted_shown.
  destruct (restoreStateIdentity_cases lookup now (ls_Identity e) (ls_ShownAt e) r) as (stats & Heq & Hok).
  rewrite Heq. destruct (restoreStateIdentity _ _ _ _ _).1; simpl; (split; [done|split; [done|]]).
  - left. split; [by apply Hok|done].
  - right. split; [|done]. intros H%Hok. done.
Qed.

Lemma restore_ack_step r e :
  let r' := restore_ack (Some lookup) now r e in
  rt_lastShown r' = rt_lastShown r /\ rt_ttl r' = rt_ttl r
  /\ ((wanted_ack (rt_ttl r) e /\ rt_acknowledged r' = <[stateIdentityID (ack_Identity e) := restored_ack e]> (rt_acknowledged r))
      \/ (~ wanted_ack (rt_ttl r) e /\ rt_acknowledged r' = rt_acknowledged r)).
Proof.
  unfold restore_ack, wanted_ack, restored_ack. destruct (After (ack_ObservedAt e) now) eqn:E.
  { apply After_spec in E. split; [done|split; [done|]]. right. split; [|done]. intros [? _]. lia. }
  apply not_true_iff_false in E. rewrite After_spec in E.
  destruct (restoreStateIdentity_cases lookup now (ack_Identity e) (ack_TouchedAt e) r) as (stats & Heq & Hok).
  rewrite Heq. destruct (restoreStateIdentity _ _ _ _ _).1; simpl; (split; [done|split; [done|]]).
  - left. split; [|done]. split; [lia|by apply Hok].
  - right. split; [|done]. intros [_ H%Hok]. done.
Qed.

(** Inserting the wanted entries of a list without duplicate keys. *)
Lemma lookup_inserted {E A} (key : E -> string) (value : E -> A) (wanted : E -> Prop)
    (step : Retained -> E -> Retained) (maps : Retained -> gmap string A) (ok : Retained -> Prop) l r id x :
  (forall r e, ok r -> ok (step r e) /\ ((wanted e /\ maps (step r e) = <[key e := value e]> (maps r))
                                        \/ (~ wanted e /\ maps (step r e) = maps r))) ->
  NoDup (map key l) -> ok r -> (forall e, e ∈ l -> maps r !! key e = None) ->
  maps (fold_left step l r) !! id = Some x <->
  maps r !! id = Some x \/ exists e, e ∈ l /\ wanted e /\ key e = id /\ value e = x.
Proof.
  intros Hstep. revert r. induction l as [|e l IH]; intros r Hnd Hok Hnew; simpl.
  { split; [by left|]. intros [H|(e & He%not_elem_of_nil & _)]; done. }
  inversion Hnd as [|? ? He Hnd']; subst. destruct (Hstep r e Hok) as [Hok' Hcase].
  rewrite IH; [|done..|].
  - pose proof (Hnew e ltac:(by left)) as Hfree. destruct Hcase as [[Hw ->]|[Hw ->]].
    + rewrite lookup_insert_Some. split.
      * intros [[[<- <-]|[? ?]]|(e' & ? & ?)]; [right; exists e|by left|right; exists e']; split_and!; try done; by constructor || tauto.
      * intros [H|(e' & [->|He']%elem_of_cons & Hw' & <- & <-)]; [left|left; by left|right; by exists e'].
        right. split; [|done]. intros <-. congruence.
    + setoid_rewrite elem_of_cons. split; [|].
      * intros [H|(e' & ? & ?)]; [by left|right; exists e'; tauto].
      * intros [H|(e' & [->|He'] & Hw' & ?)]; [by left|done|right; by exists e'].
  - intros e' He'. pose proof (Hnew e' ltac:(by right)) as Hfree. destruct Hcase as [[_ ->]|[_ ->]]; [|done].
    rewrite lookup_insert_ne; [done|]. intros Heq. apply He. rewrite Heq. by apply list_elem_of_fmap_2.
Qed.
End RestoreLemmas.

(** *** Documents *)

Lemma live_records_lookup records id record :
  live_records records !! id = Some record -> Record_ID record = id /\ record ∈ records.
Proof.
  unfold live_records. assert (Hgen : forall m : gmap string ObservationRecord,
    fold_left (fun live record => <[Record_ID record := record]> live) records m !! id = Some record ->
    (Record_ID record = id /\ record ∈ records) \/ m !! id = Some record).
  { induction records as [|q records IH]; intros m H; simpl in *; [by right|].
    destruct (IH _ H) as [[? ?]|Hm]; [left; split; [done|by right]|].
    apply lookup_insert_Some in Hm as [[<- ->]|[_ Hm]]; [left; split; [done|left]|by right]. }
  intros H. destruct (Hgen _ H) as [?|Hm]; [done|]. by rewrite lookup_empty in Hm.
Qed.

Lemma live_records_in records record : record ∈ records -> is_Some (live_records records !! Record_ID record).
Proof.
  unfold live_records. generalize (∅ : gmap string ObservationRecord). set (step := fun (live : gmap string ObservationRecord) q => _).
  assert (Hmono : forall l m, is_Some (m !! Record_ID record) -> is_Some (fold_left step l m !! Record_ID record)).
  { induction l as [|q l IH]; intros m Hm; simpl; [done|]. apply IH. unfold step.
    destruct (decide (Record_ID q = Record_ID record)) as [->|Hne]; [rewrite lookup_insert_eq; by eexists|].
    by rewrite lookup_insert_ne. }
  induction records as [|q l IH]; intros m Hin; simpl; [by apply not_elem_of_nil in Hin|].
  apply elem_of_cons in Hin as [->|Hin]; [|by apply IH]. apply Hmono. unfold step. rewrite lookup_insert_eq. by eexists.
Qed.

Lemma record_identity_ID record generation : stateIdentityID (record_identity record generation) = Record_ID record.
Proof. reflexivity. Qed.

Lemma document_shown_key resolve records state id t e :
  (forall i m, state !! i = Some m -> stateIdentityID (lm_identity m) = i) ->
  document_shown resolve (live_records records) state (id, t) = Some e ->
  stateIdentityID (ls_Identity e) = id /\ ls_ShownAt e = UTC t.
Proof.
  intros Hcoh. unfold document_shown. destruct (state !! id) as [m|] eqn:Em.
  - destruct (lm_persistent m); [|done]. intros [= <-]. simpl. by rewrite (Hcoh _ _ Em).
  - destruct (live_records records !! id) as [record|] eqn:Er; [|done]. apply live_records_lookup in Er as [<- _].
    destruct (resolve record) as [rule valid]. destruct (negb valid || _); [done|]. by intros [= <-].
Qed.

Lemma document_ack_written live id s :
  si_PluginID (as_identity s) <> EmptyString ->
  document_ack live (id, s) = Some (mkAcknowledgementState (as_identity s) (UTC (as_observedAt s)) (UTC (as_touchedAt s))).
Proof. intros Hp. unfold document_ack. by rewrite (proj2 (String.eqb_neq _ _) Hp). Qed.

Lemma NoDup_map_omap {A B} (f : A -> option B) (k : A -> string) (key : B -> string) (l : list A) :
  NoDup (map k l) -> (forall a b, a ∈ l -> f a = Some b -> key b = k a) -> NoDup (map key (omap f l)).
Proof.
  induction l as [|a l IH]; intros Hnd Hk; simpl; [constructor|]. inversion Hnd as [|? ? Ha Hnd']; subst.
  specialize (IH Hnd' (fun a' b' Ha' => Hk a' b' ltac:(by right))). destruct (f a) as [b|] eqn:E; [|done].
  simpl. constructor; [|done]. intros (b' & Hb & (a' & Ha' & E')%list_elem_of_omap)%list_elem_of_fmap.
  apply Ha. rewrite <- (Hk a b) by (by left || done). rewrite Hb, (Hk a' b') by (by right || done).
  by apply list_elem_of_fmap_2.
Qed.

Section Roundtrip.
Context (resolve : Resolver) (records : list ObservationRecord) (r : Retained) (lookup : Generation) (now : Time) (ttl : Z).
Notation restore_shown := (restore_shown (Some lookup) now).
Notation restore_ack := (restore_ack (Some lookup) now).
Notation live := (live_records records).

Lemma restored_acks_shown acks q : rt_lastShown (fold_left restore_ack acks q) = rt_lastShown q.
Proof.
  revert q. induction acks as [|e acks IH]; intros q; simpl; [done|]. rewrite IH. apply (restore_ack_step lookup now).
Qed.

Lemma restored_shown_acks shown q :
  rt_acknowledged (fold_left restore_shown shown q) = rt_acknowledged q
  /\ rt_ttl (fold_left restore_shown shown q) = rt_ttl q.
Proof.
  revert q. induction shown as [|e shown IH]; intros q; simpl; [done|].
  destruct (restore_shown_step lookup now q e) as (<- & <- & _). apply IH.
Qed.

Lemma restored_shown shown q id t :
  (forall id m, rt_lastShownState r !! id = Some m -> stateIdentityID (lm_identity m) = id) ->
  shown ≡ₚ omap (document_shown resolve live (rt_lastShownState r)) (map_to_list (rt_lastShown r)) ->
  rt_lastShown q = ∅ -> rt_ttl q = ttl ->
  rt_lastShown (fold_left restore_shown shown q) !! id = Some t <->
  exists t0 e, rt_lastShown r !! id = Some t0
    /\ document_shown resolve live (rt_lastShownState r) (id, t0) = Some e
    /\ restorable lookup now ttl (ls_Identity e) t0 /\ t = UTC t0.
Proof.
  intros Hshown Hls Hq Httl. rewrite (lookup_inserted (fun e => stateIdentityID (ls_Identity e)) (fun e => UTC (ls_ShownAt e))
    (wanted_shown lookup now ttl) _ rt_lastShown (fun q => rt_ttl q = ttl)).
  - rewrite Hq, lookup_empty. setoid_rewrite Hls. setoid_rewrite list_elem_of_omap. unfold wanted_shown, restorable. split.
    + intros [?|(e & ([i t0] & Hi%elem_of_map_to_list & He) & Hw & <- & <-)]; [done|].
      destruct (document_shown_key _ _ _ _ _ _ Hshown He) as [<- Ht]. exists t0, e. by rewrite Ht in *.
    + intros (t0 & e & Hi & He & Hw & ->). right. exists e.
      destruct (document_shown_key _ _ _ _ _ _ Hshown He) as [Hid Ht]. rewrite Ht. split_and!; try done || apply Hw.
      exists (id, t0). by rewrite elem_of_map_to_list.
  - intros p e Hp. destruct (restore_shown_step lookup now p e) as (_ & -> & Hc). by rewrite Hp in Hc.
  - rewrite Hls. apply (NoDup_map_omap _ fst); [apply NoDup_fst_map_to_list|].
    intros [i t0] e _ He. by apply (document_shown_key _ _ _ _ _ _ Hshown) in He as [-> _].
  - done.
  - intros. rewrite Hq. apply lookup_empty.
Qed.

Lemma restored_acks acks q id s :
  (forall id s, rt_acknowledged r !! id = Some s -> stateIdentityID (as_identity s) = id
     /\ si_Generation (as_identity s) = as_generation s /\ si_PluginID (as_identity s) <> EmptyString) ->
  acks ≡ₚ omap (document_ack live) (map_to_list (rt_acknowledged r)) ->
  rt_acknowledged q = ∅ -> rt_ttl q = ttl ->
  rt_acknowledged (fold_left restore_ack acks q) !! id = Some s <->
  exists s0, rt_acknowledged r !! id = Some s0
    /\ instant (as_observedAt s0) <= instant now /\ restorable lookup now ttl (as_identity s0) (as_touchedAt s0)
    /\ s = mkAckState (as_identity s0) (as_generation s0) (UTC (as_observedAt s0)) (UTC (as_touchedAt s0)).
Proof.
  intros Hack Hacks Hq Httl.
  assert (Hdoc : forall e, e ∈ acks <-> exists s0, rt_acknowledged r !! stateIdentityID (ack_Identity e) = Some s0
    /\ e = mkAcknowledgementState (as_identity s0) (UTC (as_observedAt s0)) (UTC (as_touchedAt s0))).
  { intros e. rewrite Hacks, list_elem_of_omap. split.
    - intros ([i s0] & Hi%elem_of_map_to_list & He). destruct (Hack _ _ Hi) as (Hid & _ & Hp).
      rewrite document_ack_written in He by done. injection He as <-. simpl. rewrite Hid. eauto.
    - intros (s0 & Hi & He). exists (stateIdentityID (ack_Identity e), s0). rewrite elem_of_map_to_list. split; [done|].
      destruct (Hack _ _ Hi) as (_ & _ & Hp). by rewrite document_ack_written, <- He. }
  rewrite (lookup_inserted (fun e => stateIdentityID (ack_Identity e)) restored_ack
    (wanted_ack lookup now ttl) _ rt_acknowledged (fun q => rt_ttl q = ttl)).
  - rewrite Hq, lookup_empty. setoid_rewrite Hdoc. unfold restored_ack, wanted_ack, restorable. split.
    + intros [?|(e & (s0 & Hi & ->) & [Hw1 Hw2] & <- & <-)]; [done|]. exists s0. simpl in *.
      destruct (Hack _ _ Hi) as (_ & <- & _). done.
    + intros (s0 & Hi & Ho & Hw & ->). right. destruct (Hack _ _ Hi) as (Hid & Hg & _).
      exists (mkAcknowledgementState (as_identity s0) (UTC (as_observedAt s0)) (UTC (as_touchedAt s0))). simpl.
      rewrite Hid, <- Hg. split; [by exists s0|done].
  - intros p e Hp. destruct (restore_ack_step lookup now p e) as (_ & -> & Hc). by rewrite Hp in Hc.
  - rewrite Hacks. apply (NoDup_map_omap _ fst); [apply NoDup_fst_map_to_list|].
    intros [i s0] e Hi%elem_of_map_to_list He. destruct (Hack _ _ Hi) as (Hid & _ & Hp).
    rewrite document_ack_written in He by done. by injection He as <-.
  - done.
  - intros. rewrite Hq. apply lookup_empty.
Qed.
End Roundtrip.

(** ** Theorems *)

(** C23: the phases that bound what the engine remembers amount to one policy. Of the
    entries that age and supersession leave, exactly the newest [capacity] survive:
    what it loses is ranked below what it keeps, an entry whose observation is gone
    below one whose observation is live, and within a class the one used longer ago
    below the more recent. Survivors are unchanged, and metadata is kept only for
    last-shown times that are. *)
Theorem pruneState_keeps_newest records now r :
  0 < rt_capacity r ->
  let live := live_records records in
  let r' := (pruneState records now r).2 in
  let fresh := combined_victims live (fresh_shown now r) (fresh_acks live now r) in
  let kept := combined_victims live (rt_lastShown r') (rt_acknowledged r') in
  kept = newest (rt_capacity r) fresh
  /\ map_size (rt_lastShown r') + map_size (rt_acknowledged r') <= rt_capacity r
  /\ (forall v w, v ∈ fresh -> v ∉ kept -> w ∈ kept ->
        (cv_isLive v = true -> cv_isLive w = true)
        /\ (cv_isLive v = cv_isLive w -> instant (cv_at v) <= instant (cv_at w)))
  /\ rt_lastShown r' ⊆ rt_lastShown r /\ rt_acknowledged r' ⊆ rt_acknowledged r
  /\ (forall id m, rt_lastShownState r' !! id = Some m ->
        rt_lastShownState r !! id = Some m /\ is_Some (rt_lastShown r' !! id)).
Proof.
  intros Hc live r' fresh kept. destruct (pruneState_maps records now r Hc) as (Hs & Hst & Ha & _). fold live r' in Hs, Hst, Ha.
  assert (Hkept : kept = newest (rt_capacity r) fresh).
  { unfold kept. rewrite Hs, Ha, newest_remove by done. by apply phases_keep_newest. }
  split; [done|]. split; [|split; [|split; [|split]]].
  - rewrite <- (length_combined live). fold kept. rewrite Hkept. unfold newest. rewrite length_drop. lia.
  - intros v w Hv Hno Hw. rewrite Hkept in Hno, Hw. pose proof (newest_outranks _ _ _ _ _ _ Hv Hno Hw) as Hrank.
    revert Hrank. order_cases. destruct (cv_isLive v), (cv_isLive w); simpl; split; try done; try lia; intros _;
      revert Hrank; repeat case_if; lia.
  - rewrite Hs. etrans; [apply remove_shown_sub|]. etrans; [by apply bounded_shown_sub|]. apply map_filter_subseteq.
  - rewrite Ha. etrans; [apply remove_acks_sub|]. etrans; [by apply bounded_acks_sub|].
    etrans; apply map_filter_subseteq.
  - intros id m. rewrite Hst, Hs. setoid_rewrite lookup_remove_shown. rewrite map_lookup_filter_Some. simpl.
    intros [[Hid [t Ht]] Hno]. split; [done|]. exists t. by apply lookup_remove_shown.
Qed.

(** C37: a restart loses nothing that is still wanted. Restoring, in a new process, the
    document that was written for a coherent state gives back exactly the last-shown times
    that were written and every acknowledgement, in UTC, that are of the current
    generation of their instance, younger than the retention time and not in the
    future; nothing else is restored. *)
Theorem restart_roundtrip resolve records r lookup now ttl capacity :
  Coherent r ->
  let document := sortStateDocument (stateDocument resolve records r) in
  let r' := restore_document (Some lookup) now document (mkRetained ∅ ∅ ∅ capacity ttl no_diagnostics) in
  (forall id t, rt_lastShown r' !! id = Some t <->
     exists t0 e, rt_lastShown r !! id = Some t0
       /\ document_shown resolve (live_records records) (rt_lastShownState r) (id, t0) = Some e
       /\ restorable lookup now ttl (ls_Identity e) t0 /\ t = UTC t0)
  /\ (forall id s, rt_acknowledged r' !! id = Some s <->
     exists s0, rt_acknowledged r !! id = Some s0
       /\ instant (as_observedAt s0) <= instant now /\ restorable lookup now ttl (as_identity s0) (as_touchedAt s0)
       /\ s = mkAckState (as_identity s0) (as_generation s0) (UTC (as_observedAt s0)) (UTC (as_touchedAt s0))).
Proof.
  intros [Hshown Hack] document r'. unfold r', restore_document. split; intros id.
  - intros t. rewrite restored_acks_shown. rewrite (restored_shown resolve records r) by (done || apply SortFunc_perm). done.
  - intros s. rewrite (restored_acks records r lookup now ttl); [done|exact Hack|apply SortFunc_perm|apply (restored_shown_acks lookup now)..].
Qed.

(** ** Instances *)

Definition demo_retained : Retained :=
  let id key := stateIdentityID (demo_identity key) in
  mkRetained
    {[id "a" := mkTime 100 0; id "b" := mkTime 300 0; id "c" := mkTime 200 7200]}
    {[id "a" := mkLastShownMetadata (demo_identity "a") true; id "c" := mkLastShownMetadata (demo_identity "c") true]}
    {[id "c" := mkAckState (demo_identity "c") 1 (mkTime 50 0) (mkTime 250 0)]}
    3 1000 no_diagnostics.

Lemma demo_coherent : Coherent demo_retained.
Proof.
  split; intros id x; unfold demo_retained; cbn [rt_lastShownState rt_acknowledged].
  - rewrite lookup_insert_Some, lookup_singleton_Some. intros [[<- <-]|[_ [<- <-]]]; done.
  - rewrite lookup_singleton_Some. by intros [<- <-].
Qed.

Lemma pruneState_keeps_newest_witness :
  rt_lastShown (pruneState [] (mkTime 1000 0) demo_retained).2 !! stateIdentityID (demo_identity "a") = None
  /\ map_size (rt_lastShown (pruneState [] (mkTime 1000 0) demo_retained).2)
     + map_size (rt_acknowledged (pruneState [] (mkTime 1000 0) demo_retained).2) <= rt_capacity demo_retained.
Proof.
  split; [vm_compute; reflexivity|].
  destruct (pruneState_keeps_newest [] (mkTime 1000 0) demo_retained eq_refl) as (_ & H & _). exact H.
Defined.

Lemma restart_roundtrip_witness :
  let document := sortStateDocument (stateDocument (fun _ => (demo_rule PolicyWhenRelevant, true)) [] demo_retained) in
  let lookup := fun _ _ => Some 1 in
  let r' := restore_document (Some lookup) (mkTime 1100 0) document (mkRetained ∅ ∅ ∅ 3 1000 no_diagnostics) in
  rt_lastShown r' !! stateIdentityID (demo_identity "c") = Some (mkTime 200 0).
Proof.
  intros document lookup r'.
  destruct (restart_roundtrip (fun _ => (demo_rule PolicyWhenRelevant, true)) [] demo_retained lookup
    (mkTime 1100 0) 1000 3 demo_coherent) as [H _]. apply H. clear H.
  exists (mkTime 200 7200), (mkLastShownState (demo_identity "c") (mkTime 200 0)).
  split_and!; vm_compute; repeat split; congruence.
Defined.
