(* ===== verification/Engine.v ===== *)
(** * The engine

    Models [src/internal/daemon/engine.go]: the state machine between the observation
    store, the attention selection and the display. A method holds the step mutex, so it
    is one function from the engine and the world to the engine, the world and its
    results; the world is what other goroutines may change meanwhile: the observation
    store, the counter of local changes and everything else. A call out of the engine (the renderer, the foreground coordinator,
    the state store, the recorder) is a field of [EngineCalls] and transforms the world;
    what other goroutines do meanwhile happens in these calls. *)

From Stdlib Require Import ZArith Lia ZifyBool Sorted.
From S2P Require Import Prelude GoStrings GoTime Identifier Protocol Presentation ObservationStore.
From S2P Require Import AttentionSelector LocalState AttentionState AttentionRetention.

(** ** Data *)

Definition defaultPresentationCooldown : Z := dur_mul 30 Second.

Definition OutcomeDrawn : string := "drawn".
Definition OutcomeCleared : string := "cleared".
Definition OutcomeUnchanged : string := "unchanged".
Definition OutcomeFirmwareSuppressed : string := "firmware_suppressed_409".
Definition OutcomeDeviceUnavailable : string := "device_unavailable".
Definition OutcomeAssetMissing : string := "asset_missing".
Definition OutcomeInvalidPresentation : string := "invalid_presentation".

Definition ErrObservationNotFound : error := Errorf "observation was not found" [].
Definition ErrObservationNotAcknowledgeable : error := Errorf "observation does not require acknowledgement" [].
Definition errInvalidRendererResult : error := Errorf "renderer returned an invalid delivery result" [].
Definition ErrInvalidPresentation : error := Errorf "invalid BUSY Bar presentation" [].

(** [errors.Is(err, target)] for a target made by [errors.New(text)]. *)
Fixpoint errors_Is (text : string) (err : error) : bool :=
  match err with
  | Errorf format args => (format =s text) && match args with [] => true | _ => false end
  | Wrapf _ _ inner => errors_Is text inner
  | Join errs => existsb (errors_Is text) errs
  end.

Record Trace := mkTrace {
  tc_Sequence : Z;
  tc_At : Time;
  tc_SelectedID : string;
  tc_Outcome : string;
  tc_Evaluations : list Evaluation;
}.

Record PresentationCooldownDiagnostics := mkCooldownDiagnostics {
  pd_Active : bool;
  pd_Until : Time;
  pd_RemainingMS : Z;
  pd_Reason : string;
}.

Record BackPresentation := mkBackPresentation {
  bp_identity : Identity;
  bp_id : string;
  bp_generation : Z;
  bp_revision : Z;
}.

Definition no_identity : Identity := mkIdentity EmptyString EmptyString EmptyString EmptyString.
Definition no_presentation : BackPresentation := mkBackPresentation no_identity EmptyString 0 0.

Definition BackPresentation_valid (p : BackPresentation) : bool :=
  negb (bp_id p =s EmptyString) && negb (id_PluginID (bp_identity p) =s EmptyString)
  && negb (bp_generation p =? 0) && negb (bp_revision p =? 0).

Definition BackPresentation_matches (p : BackPresentation) (id : string) (identity : Identity) (generation revision : Z) : bool :=
  BackPresentation_valid p && (bp_id p =s id) && bool_decide (bp_identity p = identity)
  && (bp_generation p =? generation) && (bp_revision p =? revision).

(** The engine's own fields. *)
Record Engine := mkEngine {
  en_currentID : string;
  en_currentSince : Time;
  en_retained : Retained;
  en_lastRevision : Z;
  en_lastGeneration : Z;
  en_lastIdentity : Identity;
  en_criticalOwned : bool;
  en_cooldownUntil : Time;
  en_cooldownReason : string;
  en_cooldownKept : BackPresentation;
}.

Definition new_engine : Engine :=
  mkEngine EmptyString zero_time new_retained 0 0 no_identity false zero_time EmptyString no_presentation.

Definition history (e : Engine) : History := mkHistory (en_currentID e) (en_currentSince e) (rt_lastShown (en_retained e)).

(** The physical-delivery claim. *)
Definition claim (e : Engine) : BackPresentation :=
  mkBackPresentation (en_lastIdentity e) (en_currentID e) (en_lastGeneration e) (en_lastRevision e).

Definition set_retained (r : Retained) (e : Engine) : Engine :=
  mkEngine (en_currentID e) (en_currentSince e) r (en_lastRevision e) (en_lastGeneration e) (en_lastIdentity e)
    (en_criticalOwned e) (en_cooldownUntil e) (en_cooldownReason e) (en_cooldownKept e).
Definition set_current (id : string) (since : Time) (e : Engine) : Engine :=
  mkEngine id since (en_retained e) (en_lastRevision e) (en_lastGeneration e) (en_lastIdentity e)
    (en_criticalOwned e) (en_cooldownUntil e) (en_cooldownReason e) (en_cooldownKept e).
Definition set_claim (revision generation : Z) (identity : Identity) (e : Engine) : Engine :=
  mkEngine (en_currentID e) (en_currentSince e) (en_retained e) revision generation identity
    (en_criticalOwned e) (en_cooldownUntil e) (en_cooldownReason e) (en_cooldownKept e).
Definition set_criticalOwned (owned : bool) (e : Engine) : Engine :=
  mkEngine (en_currentID e) (en_currentSince e) (en_retained e) (en_lastRevision e) (en_lastGeneration e) (en_lastIdentity e)
    owned (en_cooldownUntil e) (en_cooldownReason e) (en_cooldownKept e).
Definition set_cooldown (until : Time) (reason : string) (kept : BackPresentation) (e : Engine) : Engine :=
  mkEngine (en_currentID e) (en_currentSince e) (en_retained e) (en_lastRevision e) (en_lastGeneration e) (en_lastIdentity e)
    (en_criticalOwned e) until reason kept.
Record evaluationSequence := mkEvaluationSequence { es_store : Z; es_local : Z }.

Definition with_Acknowledged (acknowledged : bool) (rule : Rule) : Rule :=
  mkRule (rule_Enabled rule) (rule_AssetsReady rule) (rule_Policy rule) (rule_DevicePriority rule) (rule_HoldMS rule)
    (rule_CooldownMS rule) (rule_RequiresAck rule) acknowledged (rule_Foreground rule)
    (rule_RotationIntervalMS rule) (rule_RotationJitterPercent rule) (rule_BlockedByAtomicExecution rule).

Definition resolveRecord (e : Engine) (resolve : Resolver) (record : ObservationRecord) : Rule * bool :=
  let '(rule, ok) := resolve record in
  if negb ok then (rule, false)
  else
    let acknowledged := match rt_acknowledged (en_retained e) !! Record_ID record with
                        | Some state => (as_generation state =? rec_Generation record)
                                        && (instant (as_observedAt state) =? instant (obs_ObservedAt (rec_Observation record)))
                        | None => false
                        end in
    (with_Acknowledged acknowledged rule, true).

Definition renderFailureOutcome (outcome : string) : string :=
  if one_of outcome [OutcomeDeviceUnavailable; OutcomeAssetMissing; OutcomeInvalidPresentation] then outcome
  else OutcomeDeviceUnavailable.

(** An error that wraps two has both as its inner error. *)
Definition validateRenderResult (candidate : option Candidate) (outcome : string) (err : option error) : option error :=
  match err with
  | Some err =>
    if one_of outcome [OutcomeDeviceUnavailable; OutcomeAssetMissing; OutcomeInvalidPresentation] then None
    else Some (Wrapf "%w: outcome %q cannot accompany an error: %w" [EStr outcome] (Join [errInvalidRendererResult; err]))
  | None =>
    match candidate with
    | None =>
      if (outcome =s OutcomeCleared) || (outcome =s OutcomeUnchanged) then None
      else Some (Wrapf "%w: clear returned outcome %q" [EStr outcome] errInvalidRendererResult)
    | Some _ =>
      if one_of outcome [OutcomeDrawn; OutcomeUnchanged; OutcomeFirmwareSuppressed] then None
      else Some (Wrapf "%w: candidate render returned outcome %q" [EStr outcome] errInvalidRendererResult)
    end
  end.

Definition presentationCooldownReason (reason : string) : string :=
  if one_of reason ["back_not_consumed"; "back_session_input_failed"; "back_no_session"]%string then reason
  else "back_fallback"%string.

Definition presentationCooldownActive (now : Time) (e : Engine) : bool * Engine :=
  if IsZero (en_cooldownUntil e) then (false, e)
  else if Before now (en_cooldownUntil e) then (true, e)
  else (false, set_cooldown zero_time EmptyString no_presentation e).

Definition matches_record (captured : BackPresentation) (record : ObservationRecord) : bool :=
  BackPresentation_matches captured (Record_ID record) (Record_Identity record) (rec_Generation record)
    (obs_Revision (rec_Observation record)).

Definition containsExactRecord (records : list ObservationRecord) (captured : BackPresentation) : bool :=
  existsb (matches_record captured) records.

(** [e.presentationCooldownKept.matches(...) && containsExactRecord(...)] *)
Definition kept_presentation (records : list ObservationRecord) (e : Engine) : bool :=
  BackPresentation_matches (en_cooldownKept e) (en_currentID e) (en_lastIdentity e) (en_lastGeneration e) (en_lastRevision e)
  && containsExactRecord records (en_cooldownKept e).

Definition is_critical (candidate : Candidate) : bool := cand_Band candidate =s BandCriticalActionable.

Definition claims (e : Engine) (winner : Candidate) : bool :=
  (Candidate_ID winner =s en_currentID e) && (cand_Generation winner =? en_lastGeneration e)
  && (cand_Revision winner =? en_lastRevision e).

(** The metadata of a rendered candidate. *)
Definition winner_metadata (winner : Candidate) : lastShownMetadata :=
  mkLastShownMetadata
    (mkStateIdentity (cand_PluginID winner) (cand_InstanceID winner) (cand_Generation winner) (cand_Channel winner) (cand_Key winner))
    (negb (cand_Policy winner =s PolicyInteractive)).

(** What a rendered candidate changes before the state is pruned. *)
Definition show (winner : Candidate) (now : Time) (e : Engine) : Engine :=
  let e := if negb (Candidate_ID winner =s en_currentID e) then set_current (Candidate_ID winner) now e else e in
  let r := en_retained e in
  set_retained (set_lastShownState (<[Candidate_ID winner := winner_metadata winner]> (rt_lastShownState r))
    (set_lastShown (<[Candidate_ID winner := now]> (rt_lastShown r)) r)) e.

(** ** Calls out of the engine *)

Section Engine.
Context {W : Type}.

Record World := mkWorld {
  wd_store : Store;
  wd_local : Z;
  wd_rest : W;
}.

Definition set_store (store : Store) (w : World) : World := mkWorld store (wd_local w) (wd_rest w).

(** An optional collaborator is an option: the engine tests it against nil. *)
Record EngineCalls := mkEngineCalls {
  ec_Render : option Candidate -> World -> (string * option error) * World;
  ec_AcquireCritical : option (Candidate -> World -> bool * World);
  ec_ReleaseCritical : option (World -> World);
  ec_Save : option (StateDocument -> World -> (string * option error) * World);
  ec_StoreStatus : World -> option StateStoreStatus;
  (** the recorder's [Append], whose error is ignored *)
  ec_Append : option (Trace -> World -> World);
  ec_resolve : World -> Resolver;
  (** the clocks of the engine and of the store *)
  ec_now : World -> Time;
  ec_storeNow : World -> Time;
  (** the store's generation lookup *)
  ec_generation : World -> option Generation;
}.

Context (calls : EngineCalls).

Definition EngineState : Type := Engine * World.

(** [e.store.SnapshotWithSequence()] *)
Definition store_snapshot (w : World) : list ObservationRecord * Z * World :=
  let '(records, sequence, store) := SnapshotWithSequence (ec_storeNow calls w) (wd_store w) in
  (records, sequence, set_store store w).

Definition on_store (f : Store -> Store) (s : EngineState) : EngineState := (s.1, set_store (f (wd_store s.2)) s.2).

Definition Snapshot_state (s : EngineState) : list ObservationRecord * EngineState :=
  let '(records, _, w) := store_snapshot s.2 in (records, (s.1, w)).

Definition signalLocalChange (s : EngineState) : EngineState :=
  on_store notify (s.1, mkWorld (wd_store s.2) (u64_succ (wd_local s.2)) (wd_rest s.2)).
Definition Wake (s : EngineState) : EngineState := signalLocalChange s.

Definition record (now : Time) (decision : AttentionDecision) (outcome : string) (s : EngineState) : EngineState :=
  match ec_Append calls with
  | None => s
  | Some append =>
    let selectedID := match ad_Candidate decision with Some candidate => Candidate_ID candidate | None => EmptyString end in
    (s.1, append (mkTrace 0 (UTC now) selectedID outcome (ad_Evaluations decision)) s.2)
  end.

Definition persistState (records : list ObservationRecord) (s : EngineState) : option error * EngineState :=
  match ec_Save calls with
  | None => (None, s)
  | Some save =>
    let '((_, err), w) := save (stateDocument (ec_resolve calls s.2) records (en_retained s.1)) s.2 in (err, (s.1, w))
  end.

Definition prune (records : list ObservationRecord) (now : Time) (s : EngineState) : bool * EngineState :=
  let '(changed, r) := pruneState records now (en_retained s.1) in (changed, (set_retained r s.1, s.2)).

Definition acquireCritical (candidate : Candidate) (s : EngineState) : bool * EngineState :=
  match ec_AcquireCritical calls with
  | None => (true, (set_criticalOwned true s.1, s.2))
  | Some acquire =>
    let '(granted, w) := acquire candidate s.2 in
    if negb granted then (false, (s.1, w)) else (true, (set_criticalOwned true s.1, w))
  end.

Definition releaseCritical (s : EngineState) : EngineState :=
  if negb (en_criticalOwned s.1) then s
  else
    let w := match ec_ReleaseCritical calls with Some release => release s.2 | None => s.2 end in
    (set_criticalOwned false s.1, w).

Definition clearRenderedSelection (s : EngineState) : EngineState :=
  releaseCritical (set_claim 0 0 no_identity (set_current EmptyString zero_time s.1), s.2).

Definition render (candidate : option Candidate) (s : EngineState) : (string * option error) * EngineState :=
  let '(result, w) := ec_Render calls candidate s.2 in (result, (s.1, w)).

(** Clearing the display, as [step] does twice and [DismissForBack] once. *)
Definition clear_display (now : Time) (decision : AttentionDecision) (s : EngineState) : option error * EngineState :=
  let '((outcome, err), s) := render None s in
  match validateRenderResult None outcome err with
  | Some contractErr => (Some contractErr, record now decision OutcomeDeviceUnavailable s)
  | None =>
    match err with
    | Some err => (Some err, record now decision (renderFailureOutcome outcome) s)
    | None => (None, record now decision outcome (clearRenderedSelection s))
    end
  end.

(** ** [step] *)

Definition idle (e : Engine) : bool := (en_currentID e =s EmptyString) && negb (en_criticalOwned e).

(** What follows a successful draw. *)
Definition commit_winner (winner : Candidate) (records : list ObservationRecord) (now : Time) (s : EngineState) : EngineState :=
  let s := if negb (is_critical winner) then releaseCritical s else s in
  let s := (prune records now (show winner now s.1, s.2)).2 in
  let s := (persistState records s).2 in
  (set_claim (cand_Revision winner) (cand_Generation winner) (Candidate_Identity winner) s.1, s.2).

(** How one iteration of the loop ends: the step returns, or the winner's revision was
    excluded and the loop goes on. *)
Inductive iteration := Return (err : option error) | Continue.

(** One iteration, from the selection on. *)
Definition step_decision (records : list ObservationRecord) (now : Time) (s : EngineState) : iteration * EngineState :=
  let decision := AttentionSelector.Select records (resolveRecord s.1 (ec_resolve calls s.2)) (history s.1) now in
  let '(cooldown, e) := presentationCooldownActive now s.1 in
  let s := (e, s.2) in
  let unchanged s := (Return None, record now decision OutcomeUnchanged s) in
  let clear s := let '(err, s) := clear_display now decision s in (Return err, s) in
  if cooldown && negb (match ad_Candidate decision with Some winner => is_critical winner | None => false end) then
    if kept_presentation records e then unchanged s else if idle e then unchanged s else clear s
  else match ad_Candidate decision with
  | None => if idle e then unchanged s else clear s
  | Some winner =>
    if negb (en_criticalOwned e && negb (is_critical winner)) && claims e winner then unchanged s
    else
      let '(granted, s) := if is_critical winner then acquireCritical winner s else (true, s) in
      if negb granted then unchanged s
      else
        let '((outcome, err), s) := render (Some winner) s in
        match validateRenderResult (Some winner) outcome err with
        | Some contractErr => (Return (Some contractErr), record now decision OutcomeDeviceUnavailable s)
        | None =>
          match err with
          | Some err =>
            let '(excluded, store) :=
              if errors_Is "invalid BUSY Bar presentation" err
              then ExcludeRevisionWithoutSignal (Candidate_Identity winner) (cand_Generation winner) (cand_Revision winner) (wd_store s.2)
              else (false, wd_store s.2) in
            let s := (s.1, set_store store s.2) in
            if excluded then (Continue, record now decision OutcomeInvalidPresentation s)
            else (Return (Some err), record now decision (renderFailureOutcome outcome) s)
          | None =>
            if outcome =s OutcomeFirmwareSuppressed then
              let store := (ExcludeRevisionWithoutSignal (Candidate_Identity winner) (cand_Generation winner) (cand_Revision winner) (wd_store s.2)).2 in
              (Return None, record now decision outcome (clearRenderedSelection (s.1, set_store store s.2)))
            else (Return None, record now decision outcome (commit_winner winner records now s))
          end
        end
  end.

Fixpoint step_loop (fuel : nat) (records : list ObservationRecord) (processed : evaluationSequence) (now : Time)
    (s : EngineState) : result ((evaluationSequence * option error) * EngineState) :=
  match fuel with
  | O => OutOfFuel
  | S fuel =>
    match step_decision records now s with
    | (Return err, s) => Done ((processed, err), s)
    | (Continue, s) =>
      let '(records, sequence, w) := store_snapshot s.2 in
      step_loop fuel records (mkEvaluationSequence sequence (es_local processed)) now (s.1, w)
    end
  end.

Definition step (fuel : nat) (now : Time) (s : EngineState) : result ((evaluationSequence * option error) * EngineState) :=
  let '(records, sequence, w) := store_snapshot s.2 in
  let s := (s.1, w) in
  let processed := mkEvaluationSequence sequence (wd_local s.2) in
  let '(changed, s) := prune records now s in
  let s := if changed then (persistState records s).2 else s in
  step_loop fuel records processed now s.

Definition Step (fuel : nat) (now : Time) (s : EngineState) : result (option error * EngineState) :=
  bind (step fuel now s) (fun '((_, err), s) => Done (err, s)).

(** [Reconcile]; [now] is the system clock. *)
Definition Reconcile (fuel : nat) (now : Time) (s : EngineState) : result (option error * EngineState) := Step fuel now s.

(** ** Back *)

(** [if captured.valid() { ... }] around a call on the store. *)
Definition if_valid (captured : BackPresentation) (f : Store -> Store) (s : EngineState) : EngineState :=
  if BackPresentation_valid captured then on_store f s else s.

Definition CaptureBackPresentation (s : EngineState) : BackPresentation * EngineState :=
  let captured := claim s.1 in
  (captured,
   if_valid captured (fun store => (ReserveExactRevisionWithoutSignal (bp_identity captured) (bp_generation captured)
                                      (bp_revision captured) store).2) s).

Definition owns (captured : BackPresentation) (e : Engine) : bool :=
  BackPresentation_matches captured (en_currentID e) (en_lastIdentity e) (en_lastGeneration e) (en_lastRevision e).

(** [invalidate] may be nil; [now] is the clock [Reconcile] reads. *)
Definition ReconcileConsumedBack (fuel : nat) (captured : BackPresentation) (invalidate : option (World -> World))
    (now : Time) (s : EngineState) : result (option error * EngineState) :=
  let s := if_valid captured (ReleaseExactRevisionReservationWithoutSignal (bp_identity captured) (bp_generation captured)
                                (bp_revision captured)) s in
  if negb (owns captured s.1) then Done (None, s)
  else
    let w := match invalidate with Some f => f s.2 | None => s.2 end in
    Reconcile fuel now (set_claim 0 0 no_identity s.1, w).

Definition no_decision : AttentionDecision := mkAttentionDecision None [].

Definition DismissForBack (captured : BackPresentation) (reason : string) (s : EngineState) : option error * EngineState :=
  let now := UTC (ec_now calls s.2) in
  let e := set_cooldown (Add now defaultPresentationCooldown) (presentationCooldownReason reason) (en_cooldownKept s.1) s.1 in
  let s := (e, s.2) in
  let s := if_valid captured (fun store => (ExcludeExactRevisionWithoutSignal (ec_generation calls s.2) (bp_identity captured)
                                              (bp_generation captured) (bp_revision captured) store).2) s in
  if negb (owns captured s.1) then
    (None, signalLocalChange (set_cooldown (en_cooldownUntil s.1) (en_cooldownReason s.1) (claim s.1) s.1, s.2))
  else
    let s := (set_cooldown (en_cooldownUntil s.1) (en_cooldownReason s.1) no_presentation s.1, s.2) in
    let '(err, s) := clear_display now no_decision s in (err, signalLocalChange s).

(** ** Acknowledgement *)

Fixpoint find_record (id : string) (records : list ObservationRecord) : option ObservationRecord :=
  match records with
  | [] => None
  | record :: records' => if Record_ID record =s id then Some record else find_record id records'
  end.

Definition add_evictions (acks shown : Z) (now : Time) (d : AttentionStateDiagnostics) : AttentionStateDiagnostics :=
  let d' := add_pruned 0 shown 0 acks 0 now d in
  if negb (acks =? 0) || negb (shown =? 0) then d' else
  mkDiagnostics (dg_Phase d') (dg_LastErrorCode d') (dg_LastReadAt d') (dg_LastWriteAt d') (dg_Failures d')
    (dg_RestoredEntries d') (dg_DiscardedEntries d') (dg_PrunedEntries d') (dg_LastShownEntries d')
    (dg_AcknowledgementEntries d') (dg_LastShownTTLPruned d') (dg_LastShownCapacityEvictions d')
    (dg_AcknowledgementTTLPruned d') (dg_AcknowledgementCapacityEvictions d') (dg_SupersededAcknowledgementsPruned d')
    (dg_LastPrunedAt d).

(** What [Acknowledge] proposes for a record, and commits once it is saved. *)
Definition propose (record : ObservationRecord) (records : list ObservationRecord) (now : Time) (r : Retained) : Retained :=
  let state := mkAckState (record_identity record (rec_Generation record)) (rec_Generation record)
                 (obs_ObservedAt (rec_Observation record)) now in
  let '((acks, shown, shownState), (ackEvictions, shownEvictions)) :=
    boundProposedAcknowledgements (live_records records) (rt_capacity r) (<[Record_ID record := state]> (rt_acknowledged r))
      (rt_lastShown r) (rt_lastShownState r) in
  mkRetained shown shownState acks (rt_capacity r) (rt_ttl r) (add_evictions ackEvictions shownEvictions now (rt_stats r)).

Definition Acknowledge (id : string) (s : EngineState) : option error * EngineState :=
  let '(records, s) := Snapshot_state s in
  match find_record id records with
  | None => (Some (Wrapf "%w: %q" [EStr id] ErrObservationNotFound), s)
  | Some record =>
    let '(rule, ok) := ec_resolve calls s.2 record in
    if negb ok || negb (rule_RequiresAck rule) then (Some (Wrapf "%w: %q" [EStr id] ErrObservationNotAcknowledgeable), s)
    else
      let now := UTC (ec_now calls s.2) in
      let s := (prune records now s).2 in
      let proposed := propose record records now (en_retained s.1) in
      let '(refused, w) :=
        match ec_Save calls with
        | None => (None, s.2)
        | Some save =>
          let '((outcome, err), w) := save (stateDocument (ec_resolve calls s.2) records proposed) s.2 in
          (match err with
           | Some err => Some err
           | None => if negb (outcome =s Committed)
                     then errors_New "attention acknowledgement durability was not confirmed" else None
           end, w)
        end in
      match refused with
      | Some err => (Some err, (s.1, w))
      | None => (None, Wake (set_retained proposed s.1, w))
      end
  end.

Definition AcknowledgeAttention (id : string) (s : EngineState) : option error * EngineState := Acknowledge id s.

(** ** Other operations *)

Definition InvalidateRenderedSelection (s : EngineState) : EngineState := Wake (set_claim 0 0 no_identity s.1, s.2).

Definition is_rendered (e : Engine) (record : ObservationRecord) : bool :=
  (Record_ID record =s en_currentID e) && (rec_Generation record =? en_lastGeneration e)
  && (obs_Revision (rec_Observation record) =? en_lastRevision e).

Definition SelectedObservation (s : EngineState) : option ObservationRecord * EngineState :=
  if (en_currentID s.1 =s EmptyString) || (en_lastGeneration s.1 =? 0) || (en_lastRevision s.1 =? 0) then (None, s)
  else let '(records, s) := Snapshot_state s in (List.find (is_rendered s.1) records, s).

(** Whether [RemoveInstance] deletes an entry. *)
Definition removes_shown (prefix : string) (throughGeneration : Z) (r : Retained) (id : string) : bool :=
  HasPrefix id prefix
  && negb match rt_lastShownState r !! id with
          | Some metadata => throughGeneration <? si_Generation (lm_identity metadata)
          | None => false
          end.

Definition remove_instance (prefix : string) (throughGeneration : Z) (r : Retained) : Retained :=
  let gone id := is_some (rt_lastShown r !! id) && removes_shown prefix throughGeneration r id in
  mkRetained (filter (fun kv => removes_shown prefix throughGeneration r kv.1 = false) (rt_lastShown r))
    (filter (fun kv => gone kv.1 = false) (rt_lastShownState r))
    (filter (fun kv => (as_generation kv.2 <=? throughGeneration) && HasPrefix kv.1 prefix = false) (rt_acknowledged r))
    (rt_capacity r) (rt_ttl r) (rt_stats r).

Definition RemoveInstance (pluginID instanceID : string) (throughGeneration : Z) (s : EngineState) : EngineState :=
  let s := on_store (WithdrawInstance pluginID instanceID throughGeneration) s in
  let prefix := String.append (Encode [pluginID; instanceID]).1 "/" in
  let s := (set_retained (remove_instance prefix throughGeneration (en_retained s.1)) s.1, s.2) in
  let '(records, s) := Snapshot_state s in
  (persistState records s).2.

(** [restoreAttentionState] for the engine's state store; [loaded] is what its [Load] returned. *)
Definition restoreAttentionState (stateGeneration : option Generation) (loaded : StateDocument * option error)
    (s : EngineState) : EngineState :=
  match ec_Save calls with
  | None => s
  | Some _ =>
    match loaded with
    | (_, Some _) => s
    | (document, None) =>
      let r := restore_document stateGeneration (UTC (ec_now calls s.2)) document (en_retained s.1) in
      let s := (set_retained r s.1, s.2) in
      if restore_dirty r then let '(records, s) := Snapshot_state s in (persistState records s).2 else s
    end
  end.

Definition PresentationCooldownStatus (s : EngineState) : PresentationCooldownDiagnostics * EngineState :=
  let now := UTC (ec_now calls s.2) in
  let '(active, e) := presentationCooldownActive now s.1 in
  if negb active then (mkCooldownDiagnostics false zero_time 0 EmptyString, (e, s.2))
  else (mkCooldownDiagnostics true (en_cooldownUntil e) (Z.quot (Sub (en_cooldownUntil e) now) Millisecond) (en_cooldownReason e), (e, s.2)).

Definition Engine_AttentionStateStatus (s : EngineState) : AttentionStateDiagnostics :=
  AttentionStateStatus (ec_StoreStatus calls s.2) (en_retained s.1).

(** ** Deadlines *)

(** The closure [consider]. *)
Definition consider (now next value : Time) : Time :=
  if IsZero value || negb (After value now) then next
  else if IsZero next || Before value next then value else next.

(** The times [NextDeadline] considers, in order; a Go map is ranged over in any order. *)
Definition deadlines (records : list ObservationRecord) (decision : AttentionDecision) (cooldown : bool) (e : Engine) : list Time :=
  let ttl := rt_ttl (en_retained e) in
  map (fun record => obs_ValidUntil (rec_Observation record)) records
  ++ (if 0 <? ttl
      then map (fun kv => Add kv.2 ttl) (map_to_list (rt_lastShown (en_retained e)))
           ++ map (fun kv => Add (as_touchedAt kv.2) ttl) (map_to_list (rt_acknowledged (en_retained e)))
      else [])
  ++ (if cooldown then [en_cooldownUntil e] else [])
  ++ concat (map (fun evaluation => ev_CooldownUntil evaluation
                    :: (if ev_Reason evaluation =s ReasonNotDue then [ev_NextDue evaluation] else []))
               (ad_Evaluations decision))
  ++ match ad_Candidate decision with
     | Some candidate => if Candidate_ID candidate =s en_currentID e then [Add (en_currentSince e) (Hold candidate)] else []
     | None => []
     end.

Definition NextDeadline (now : Time) (s : EngineState) : Time * EngineState :=
  let '(records, s) := Snapshot_state s in
  let '(changed, s) := prune records now s in
  let s := if changed then (persistState records s).2 else s in
  let '(cooldown, e) := presentationCooldownActive now s.1 in
  let decision := AttentionSelector.Select records (resolveRecord e (ec_resolve calls s.2)) (history e) now in
  (fold_left (consider now) (deadlines records decision cooldown e) zero_time, (e, s.2)).
End Engine.
Arguments EngineCalls : clear implicits.
Arguments World : clear implicits.
Arguments EngineState : clear implicits.
