(* ===== verification/EngineClaims.v ===== *)
(** * What the engine claims to display

    The properties of the decision loop and of the engine's memory: termination of a
    step, the order of the calls it makes, the truth of its claim about the display,
    and the durability of acknowledgements. *)

From Stdlib Require Import ZArith Lia ZifyBool Sorted.
From S2P Require Import Prelude GoStrings GoTime Identifier Protocol Presentation ObservationStore.
From S2P Require Import AttentionSelector LocalState AttentionState AttentionRetention Engine.

(** ** The branches of an iteration *)

Section Branches.
Context {W : Type} (calls : EngineCalls W).
Notation EngineState := (EngineState W).

Lemma same_store (s : EngineState) : (s.1, set_store (wd_store s.2) s.2) = s.
Proof. by destruct s as [e [store local rest]]. Qed.

Section OneIteration.
Context (records : list ObservationRecord) (now : Time) (s : EngineState).
Notation decision := (AttentionSelector.Select records (resolveRecord s.1 (ec_resolve calls s.2)) (history s.1) now).
Notation gate := (presentationCooldownActive now s.1).
Notation s0 := (gate.2, s.2).

(** The winner of an iteration that reaches the renderer, and the state it is drawn in. *)
Definition draws (winner : Candidate) (s1 : EngineState) : Prop :=
  ad_Candidate decision = Some winner
  /\ (gate.1 = true -> is_critical winner = true)
  /\ (en_criticalOwned gate.2 && negb (is_critical winner) = true \/ claims gate.2 winner = false)
  /\ if is_critical winner then acquireCritical calls winner s0 = (true, s1) else s1 = s0.

Inductive branch : iteration -> EngineState -> Prop :=
  | branch_unchanged s1 :
      s1 = s0 \/ (exists winner, is_critical winner = true /\ acquireCritical calls winner s0 = (false, s1)) ->
      branch (Return None) (record calls now decision OutcomeUnchanged s1)
  | branch_clear err s1 :
      clear_display calls now decision s0 = (err, s1) -> branch (Return err) s1
  | branch_contract winner s1 outcome err s2 contractErr :
      draws winner s1 -> render calls (Some winner) s1 = ((outcome, err), s2) ->
      validateRenderResult (Some winner) outcome err = Some contractErr ->
      branch (Return (Some contractErr)) (record calls now decision OutcomeDeviceUnavailable s2)
  | branch_failed winner s1 outcome err s2 :
      draws winner s1 -> render calls (Some winner) s1 = ((outcome, Some err), s2) ->
      validateRenderResult (Some winner) outcome (Some err) = None ->
      branch (Return (Some err)) (record calls now decision (renderFailureOutcome outcome) s2)
  | branch_excluded winner s1 outcome err s2 store :
      draws winner s1 -> render calls (Some winner) s1 = ((outcome, Some err), s2) ->
      ExcludeRevisionWithoutSignal (Candidate_Identity winner) (cand_Generation winner) (cand_Revision winner) (wd_store s2.2)
        = (true, store) ->
      validateRenderResult (Some winner) outcome (Some err) = None -> errors_Is "invalid BUSY Bar presentation" err = true ->
      branch Continue (record calls now decision OutcomeInvalidPresentation (s2.1, set_store store s2.2))
  | branch_suppressed winner s1 s2 :
      draws winner s1 -> render calls (Some winner) s1 = ((OutcomeFirmwareSuppressed, None), s2) ->
      branch (Return None)
        (record calls now decision OutcomeFirmwareSuppressed (clearRenderedSelection calls
          (s2.1, set_store (ExcludeRevisionWithoutSignal (Candidate_Identity winner) (cand_Generation winner)
             (cand_Revision winner) (wd_store s2.2)).2 s2.2)))
  | branch_drawn winner s1 outcome s2 :
      draws winner s1 -> render calls (Some winner) s1 = ((outcome, None), s2) ->
      outcome = OutcomeDrawn \/ outcome = OutcomeUnchanged ->
      branch (Return None) (record calls now decision outcome (commit_winner calls winner records now s2)).

Lemma step_decision_branch : branch (step_decision calls records now s).1 (step_decision calls records now s).2.
Proof.
  unfold step_decision. cbv zeta. destruct gate as [cooldown e] eqn:Egate. cbn [fst snd].
  assert (Hun : branch (Return None) (record calls now decision OutcomeUnchanged (e, s.2))).
  { apply branch_unchanged. left. by rewrite Egate. }
  assert (Hclear : branch (let '(err, s1) := clear_display calls now decision (e, s.2) in (Return err, s1)).1
                     (let '(err, s1) := clear_display calls now decision (e, s.2) in (Return err, s1)).2).
  { destruct (clear_display calls now decision (e, s.2)) as [err s1] eqn:Ec. apply branch_clear. by rewrite Egate. }
  destruct (cooldown && negb (match ad_Candidate decision with Some winner => is_critical winner | None => false end)) eqn:Hgate.
  { destruct (kept_presentation records e); [done|]. by destruct (idle e). }
  destruct (ad_Candidate decision) as [winner|] eqn:Hw; [|by destruct (idle e)].
  destruct (negb (en_criticalOwned e && negb (is_critical winner)) && claims e winner) eqn:Hclaim; [done|].
  destruct (if is_critical winner then acquireCritical calls winner (e, s.2) else (true, (e, s.2))) as [granted s1] eqn:Hacq.
  destruct granted; cbn [negb].
  2: { apply branch_unchanged. right. exists winner. rewrite Egate. by destruct (is_critical winner). }
  assert (Hdraws : draws winner s1).
  { unfold draws. rewrite Egate. cbn [fst snd]. split; [done|]. split; [|split].
    - intros ->. by destruct (is_critical winner).
    - apply andb_false_iff in Hclaim as [H%negb_false_iff|H]; [by left|by right].
    - destruct (is_critical winner); [done|]. by injection Hacq. }
  destruct (render calls (Some winner) s1) as [[outcome err] s2] eqn:Hr.
  destruct (validateRenderResult (Some winner) outcome err) as [contractErr|] eqn:Hv; [by eapply branch_contract|].
  destruct err as [err|].
  - destruct (errors_Is _ err) eqn:Hinv; [|rewrite same_store; by eapply branch_failed].
    destruct (ExcludeRevisionWithoutSignal _ _ _ _) as [[|] store] eqn:Hex; [by eapply branch_excluded|].
    revert Hex. unfold ExcludeRevisionWithoutSignal. destruct (negb (matches_revision _ _ _)); [|done]. intros [= <-].
    rewrite same_store. by eapply branch_failed.
  - destruct (String.eqb_spec outcome OutcomeFirmwareSuppressed) as [->|Hne]; [by eapply branch_suppressed|].
    eapply branch_drawn; [done..|]. unfold validateRenderResult in Hv.
    destruct (one_of outcome [OutcomeDrawn; OutcomeUnchanged; OutcomeFirmwareSuppressed]) eqn:Ho; [|done].
    apply one_of_spec in Ho. set_solver.
Qed.
End OneIteration.
End Branches.

(** ** Termination *)

(** The records a snapshot may show. *)
Definition unexcluded (s : Store) : gmap Identity ObservationRecord :=
  filter (fun kv => excluded (store_watermarks s) kv.1 kv.2 = false) (store_records s).

Definition subsides (s s' : Store) : Prop := store_records s' ⊆ store_records s /\ unexcluded s' ⊆ unexcluded s.

#[export] Instance subsides_preorder : PreOrder subsides.
Proof. split; [done|]. intros a b c [? ?] [? ?]. split; by etrans. Qed.

(** The records that are shown after, and were not before. *)
Definition appeared (s s' : Store) : gmap Identity ObservationRecord :=
  filter (fun kv => unexcluded s !! kv.1 <> Some kv.2) (unexcluded s').

(** During the calls of a step other goroutines do with the store what they like, but the
    observations that they publish are finitely many: [pending] is how many are still to
    come. *)
Definition meanwhile {W} (pending : W -> nat) (w w' : World W) : Prop :=
  (WellFormed (wd_store w) -> WellFormed (wd_store w'))
  /\ (size (appeared (wd_store w) (wd_store w')) + pending (wd_rest w') <= pending (wd_rest w))%nat.
Class FinitelyPublished {W} (calls : EngineCalls W) (pending : W -> nat) : Prop := {
  fp_Render c w : meanwhile pending w (ec_Render calls c w).2;
  fp_Acquire f c w : ec_AcquireCritical calls = Some f -> meanwhile pending w (f c w).2;
  fp_Save f d w : ec_Save calls = Some f -> meanwhile pending w (f d w).2;
  fp_Append f t w : ec_Append calls = Some f -> meanwhile pending w (f t w);
}.

(** A publication is one record. *)
Lemma publish_appears generation source value now s :
  (size (appeared s (apply_op s (OpPublish generation source value now))) <= 1)%nat.
Proof.
  assert (H : exists id, forall i q, i <> id ->
    unexcluded (apply_op s (OpPublish generation source value now)) !! i = Some q -> unexcluded s !! i = Some q).
  { cbn [apply_op]. destruct (Publish_cases generation source value now s) as [[err ->]|(_ & _ & _ & _ & ->)]; [by exists (mkIdentity EmptyString EmptyString EmptyString EmptyString)|].
    set (record := mkRecord _ _ _ _). exists (Record_Identity record). intros i q Hne. unfold unexcluded. rewrite watermarks_admit.
    rewrite !map_lookup_filter_Some. intros [Hi Hex]. split; [|done]. clear Hex. revert Hi.
    destruct (admit_cases record now s) as [c b _ _ _|c b _ _|b _ _ _|_ _|_ _ _];
      cbn [notify bump set_records reject store_records]; rewrite ?records_notify_if, ?lookup_delete_ne, ?lookup_insert_ne by done;
      cbn [reject store_records]; rewrite records_pruned; by intros [? _]%map_lookup_filter_Some. }
  destruct H as [id H].
  transitivity (size ({[id]} : gset Identity)); [|by rewrite size_singleton]. rewrite <- size_dom. apply subseteq_size.
  intros i [q Hq]%elem_of_dom. apply map_lookup_filter_Some in Hq as [Hq Hn]. apply elem_of_singleton.
  destruct (decide (i = id)) as [|Hne]; [done|]. exfalso. by apply Hn, H.
Qed.

(** A call during which nothing is published. *)
Lemma meanwhile_subsides {W} (pending : W -> nat) w w' :
  subsides (wd_store w) (wd_store w') -> (pending (wd_rest w') <= pending (wd_rest w))%nat -> meanwhile pending w w'.
Proof.
  intros [Hr Hu] Hp. split; [by apply WellFormed_subset|].
  replace (appeared (wd_store w) (wd_store w')) with (∅ : gmap Identity ObservationRecord); [rewrite map_size_empty; lia|].
  symmetry. apply map_empty. intros id. apply map_lookup_filter_None. right. intros q Hq Hn. apply Hn. by eapply lookup_weaken.
Qed.

(** The retries a step can still make: one for each record that is shown and for each that
    is still to appear. A record that is no longer shown has been paid for. *)
Definition retries_left {W} (pending : W -> nat) (w : World W) : nat := (size (unexcluded (wd_store w)) + pending (wd_rest w))%nat.
Definition paid {W} (pending : W -> nat) (w w' : World W) : Prop :=
  (WellFormed (wd_store w) -> WellFormed (wd_store w')) /\ (retries_left pending w' <= retries_left pending w)%nat
  /\ forall id q, unexcluded (wd_store w) !! id = Some q -> unexcluded (wd_store w') !! id <> Some q ->
       (retries_left pending w' < retries_left pending w)%nat.

#[export] Instance paid_preorder {W} (pending : W -> nat) : PreOrder (paid pending).
Proof.
  split; [by intros w; split_and!; [|lia|]|]. intros a b c (W1 & H1 & P1) (W2 & H2 & P2). split_and!; [auto|lia|].
  intros id q Ha Hc. destruct (decide (unexcluded (wd_store b) !! id = Some q)) as [Hb|Hb].
  - specialize (P2 id q Hb Hc). lia.
  - specialize (P1 id q Ha Hb). lia.
Qed.

Lemma size_kept (m m' : gmap Identity ObservationRecord) :
  (forall id q, m !! id = Some q -> m' !! id <> Some q -> (size m' < size m + size (filter (fun kv => m !! kv.1 <> Some kv.2) m'))%nat)
  /\ (size m' <= size m + size (filter (fun kv => m !! kv.1 <> Some kv.2) m'))%nat.
Proof.
  set (kept := filter (fun kv => m !! kv.1 = Some kv.2) m').
  assert (Hs : size m' = (size kept + size (filter (fun kv => m !! kv.1 <> Some kv.2) m'))%nat).
  { rewrite <- (map_filter_union_complement (fun kv => m !! kv.1 = Some kv.2) m') at 1.
    apply map_size_disj_union, map_disjoint_filter_complement. }
  assert (Hk : kept ⊆ m) by (apply map_subseteq_spec; intros i x [_ H]%map_lookup_filter_Some; exact H).
  split; [|apply map_subseteq_size in Hk; lia]. intros id q Hq Hn.
  assert (Hk' : kept ⊆ delete id m).
  { apply map_subseteq_spec. intros i x Hx. rewrite lookup_delete_ne; [by eapply lookup_weaken|]. intros <-.
    apply Hn. apply map_lookup_filter_Some in Hx as [Hx Hm]. cbn in Hm. congruence. }
  apply map_subseteq_size in Hk'. rewrite map_size_delete_Some in Hk' by by eexists.
  assert (size m <> 0%nat) by (intros ->%map_size_empty_inv; by rewrite lookup_empty in Hq). lia.
Qed.

Lemma meanwhile_paid {W} (pending : W -> nat) w w' : meanwhile pending w w' -> paid pending w w'.
Proof.
  intros [Hw Hp]. unfold appeared in Hp. destruct (size_kept (unexcluded (wd_store w)) (unexcluded (wd_store w'))) as [H1 H2].
  unfold paid, retries_left. split_and!; [done|lia|]. intros id q Ha Hb. specialize (H1 id q Ha Hb). lia.
Qed.

Lemma subsides_paid {W} (pending : W -> nat) w w' :
  subsides (wd_store w) (wd_store w') -> wd_rest w' = wd_rest w -> paid pending w w'.
Proof. intros H E. apply meanwhile_paid, meanwhile_subsides; [done|by rewrite E]. Qed.

Lemma subsides_records s s' :
  store_records s' ⊆ store_records s -> store_watermarks s' = store_watermarks s -> subsides s s'.
Proof.
  intros Hr Hw. split; [done|]. unfold unexcluded. rewrite Hw. by apply map_filter_subseteq_mono.
Qed.

Lemma subsides_snapshot now s : subsides s (SnapshotWithSequence now s).2.
Proof.
  assert (H : store_records (SnapshotWithSequence now s).2 = store_records (pruned_store now s)
              /\ store_watermarks (SnapshotWithSequence now s).2 = store_watermarks s).
  { unfold SnapshotWithSequence, pruned_store. simpl. by autorewrite with store. }
  destruct H as [Hr Hw]. apply subsides_records; [|done]. rewrite Hr, records_pruned. apply map_filter_subseteq.
Qed.

Lemma elem_of_snapshot now s r :
  WellFormed s -> r ∈ (SnapshotWithSequence now s).1.1 ->
  unexcluded (SnapshotWithSequence now s).2 !! Record_Identity r = Some r.
Proof.
  intros Hwf Hin. pose proof (elem_of_Snapshot now s r Hwf) as H. unfold Snapshot in H.
  unfold unexcluded, SnapshotWithSequence in *. simpl in *. autorewrite with store in *.
  apply H in Hin as (Hr & Hlive & Hex). apply map_lookup_filter_Some. simpl. autorewrite with store. split; [|done].
  apply map_lookup_filter_Some. done.
Qed.

Lemma NoDup_snapshot now s : WellFormed s -> NoDup (SnapshotWithSequence now s).1.1.
Proof.
  intros Hwf. unfold SnapshotWithSequence. simpl. rewrite SortFunc_perm. apply NoDup_fmap_2_strong.
  - intros [i r] [j q] Hr%elem_of_List_filter Hq%elem_of_List_filter. simpl. rewrite !cloneRecord_id. intros ->.
    rewrite !elem_of_map_to_list in *. autorewrite with store in *.
    destruct Hr as [[Hr _]%map_lookup_filter_Some _], Hq as [[Hq _]%map_lookup_filter_Some _].
    apply Hwf in Hr as [<- _], Hq as [<- _]. done.
  - apply NoDup_List_filter, NoDup_map_to_list.
Qed.

Lemma excluded_through_hides id g r s q :
  excluded_through id g r s -> rec_Generation q = g -> obs_Revision (rec_Observation q) <= r ->
  unexcluded s !! id <> Some q.
Proof.
  intros (st & Hst & Hle) <- Hq [_ Hex]%map_lookup_filter_Some. simpl in Hex.
  unfold excluded in Hex. rewrite Hst in Hex. lia.
Qed.

Lemma exclude_subsides id g r s s' :
  ExcludeRevisionWithoutSignal id g r s = (true, s') -> subsides s s' /\ excluded_through id g r s'.
Proof.
  unfold ExcludeRevisionWithoutSignal. destruct (negb _); [done|]. intros [= <-].
  split; [|apply excludeThrough_through]. split; [done|]. apply map_subseteq_spec. intros i q.
  unfold unexcluded. rewrite !map_lookup_filter_Some. intros [Hi Hex]. split; [exact Hi|]. cbn [fst snd] in *.
  apply not_true_iff_false. intros H. apply not_true_iff_false in Hex. apply Hex. clear Hex. unfold excluded in *.
  destruct (store_watermarks s !! mkExclusionKey i (rec_Generation q)) as [st|] eqn:E; [|done].
  destruct (excludeThrough_mono i (rec_Generation q) (es_through st) s id g r) as (st' & Hst' & Hle).
  { exists st. split; [done|lia]. }
  rewrite Hst'. lia.
Qed.

Section Termination.
Context {W : Type} (calls : EngineCalls W) (pending : W -> nat) `{!FinitelyPublished calls pending}.
Notation store_of s := (wd_store s.2).
Notation paid := (paid pending).
Notation retries := (retries_left pending).

Lemma record_paid now decision outcome s : paid s.2 (record calls now decision outcome s).2.
Proof. unfold record. destruct (ec_Append calls) as [f|] eqn:E; [apply meanwhile_paid, (fp_Append f _ s.2 E)|done]. Qed.

Lemma persist_paid records s : paid s.2 (persistState calls records s).2.2.
Proof.
  unfold persistState. destruct (ec_Save calls) as [f|] eqn:E; [|done].
  pose proof (fp_Save f (stateDocument (ec_resolve calls s.2) records (en_retained s.1)) s.2 E) as H%meanwhile_paid.
  by destruct (f _ _) as [[o e] w].
Qed.

Lemma render_paid c s out s' : render calls c s = (out, s') -> paid s.2 s'.2.
Proof.
  unfold render. pose proof (fp_Render c s.2) as H%meanwhile_paid. destruct (ec_Render calls c s.2) as [res w]. by intros [= <- <-].
Qed.

Lemma draws_paid records now s winner s1 : draws calls records now s winner s1 -> paid s.2 s1.2.
Proof.
  intros (_ & _ & _ & H). destruct (is_critical winner); [|by subst].
  unfold acquireCritical in H. destruct (ec_AcquireCritical calls) as [f|] eqn:E; [|by injection H as <-].
  pose proof (fp_Acquire f winner s.2 E) as Hs%meanwhile_paid. cbn [snd] in H. destruct (f winner s.2) as [granted w].
  destruct granted; [|done]. by injection H as <-.
Qed.

(** The winner is derived from one of the records. *)
Lemma draws_record records now s winner s1 :
  draws calls records now s winner s1 ->
  exists q, q ∈ records /\ Candidate_Identity winner = Record_Identity q /\ cand_Generation winner = rec_Generation q
    /\ cand_Revision winner = obs_Revision (rec_Observation q) /\ Candidate_ID winner = Record_ID q.
Proof.
  intros [Hw _]. apply (SelectWith_Some Presentation.Select) in Hw as (q & rule & Hq & Hc).
  exists q. by rewrite (cont_candidate _ _ _ _ _ _ Hc).
Qed.

(** An iteration that goes on has hidden one of its records. *)
Lemma continue_hides records now s s' :
  step_decision calls records now s = (Continue, s') ->
  paid s.2 s'.2 /\ exists q, q ∈ records
    /\ (unexcluded (store_of s) !! Record_Identity q = Some q -> (retries s'.2 < retries s.2)%nat).
Proof.
  intros E. pose proof (step_decision_branch calls records now s) as Hb. rewrite E in Hb. cbn [fst snd] in Hb.
  inversion Hb as [| | | |winner s1 outcome err s2 store Hd Hr Hex _ _ Heq Hs'| |].
  destruct (draws_record _ _ _ _ _ Hd) as (q & Hq & Hid & Hg & Hrev & _).
  destruct (exclude_subsides _ _ _ _ _ Hex) as [Hsub Hthrough]. subst s'.
  match goal with |- context [record calls now ?d ?o ?x] => set (s3 := x); pose proof (record_paid now d o s3) as Hrec end.
  assert (H1 : paid s.2 s3.2).
  { etrans; [by eapply draws_paid|]. etrans; [by eapply render_paid|]. by apply subsides_paid. }
  split; [by etrans|]. exists q. split; [done|]. intros Hin.
  assert (Hh : unexcluded (wd_store s3.2) !! Record_Identity q <> Some q).
  { eapply excluded_through_hides; [rewrite <- Hid; exact Hthrough|done|lia]. }
  destruct H1 as (_ & _ & H1), Hrec as (_ & H2 & _). specialize (H1 _ _ Hin Hh). lia.
Qed.

Lemma store_snapshot_eq w :
  store_snapshot calls w
  = (let snapshot := SnapshotWithSequence (ec_storeNow calls w) (wd_store w) in
     (snapshot.1.1, snapshot.1.2, set_store snapshot.2 w)).
Proof. unfold store_snapshot. by destruct (SnapshotWithSequence _ _) as [[records sequence] store]. Qed.

(** The loop makes at most [n] retries more: each record that it looks at is shown, or has
    been paid for. *)
Definition bounded (records : list ObservationRecord) (w : World W) (n : nat) : Prop :=
  WellFormed (wd_store w) /\ (retries w <= n)%nat
  /\ forall q, q ∈ records -> unexcluded (wd_store w) !! Record_Identity q = Some q \/ (retries w < n)%nat.

Lemma bounded_paid records w w' n : bounded records w n -> paid w w' -> bounded records w' n.
Proof.
  intros (Hwf & Hn & Hq) (Hwf' & Hle & Hlt). split_and!; [auto|lia|]. intros q Hin.
  destruct (decide (unexcluded (wd_store w') !! Record_Identity q = Some q)) as [|Hne]; [by left|right].
  destruct (Hq q Hin) as [H|H]; [specialize (Hlt _ _ H Hne)|]; lia.
Qed.

Lemma snapshot_bounded w n : WellFormed (wd_store w) -> (retries w <= n)%nat ->
  let '(records, _, w') := store_snapshot calls w in bounded records w' n /\ wd_rest w' = wd_rest w.
Proof.
  intros Hwf Hn. rewrite store_snapshot_eq. cbv zeta. cbn [fst snd].
  pose proof (subsides_snapshot (ec_storeNow calls w) (wd_store w)) as Hs.
  pose proof (fun q => elem_of_snapshot (ec_storeNow calls w) (wd_store w) q Hwf) as He.
  set (snapshot := SnapshotWithSequence _ _) in *. clearbody snapshot.
  pose proof (subsides_paid pending w (set_store snapshot.2 w) Hs eq_refl) as (Hwf' & Hle & _).
  split; [|done]. split_and!; [auto|lia|]. intros q Hin. left. by apply He.
Qed.

Lemma step_loop_terminates fuel records processed now s n :
  bounded records s.2 n -> (n < fuel)%nat -> exists out s', step_loop calls fuel records processed now s = Done (out, s').
Proof.
  revert records processed s n. induction fuel as [|fuel IH]; intros records processed s n Hb Hlen; [lia|].
  cbn [step_loop]. destruct (step_decision calls records now s) as [[err|] s'] eqn:E; [by eexists _, _|].
  apply continue_hides in E as [(Hwf & Hle & _) (q & Hq & Hhidden)]. destruct Hb as (Hwf0 & Hn & Hrec).
  assert (Hlt : (retries s'.2 < n)%nat) by (destruct (Hrec q Hq) as [H|H]; [specialize (Hhidden H)|]; lia).
  pose proof (snapshot_bounded s'.2 (n - 1) (Hwf Hwf0) ltac:(lia)) as H.
  destruct (store_snapshot calls s'.2) as [[records' sequence] w]. destruct H as [H _]. apply (IH _ _ (s'.1, w) (n - 1)%nat); [exact H|lia].
Qed.

Lemma unexcluded_size s : (size (unexcluded s) <= size (store_records s))%nat.
Proof. apply map_subseteq_size, map_filter_subseteq. Qed.

Lemma step_total fuel now s :
  WellFormed (store_of s) -> (size (store_records (store_of s)) + pending (wd_rest s.2) < fuel)%nat ->
  exists processed err s', step calls fuel now s = Done ((processed, err), s').
Proof.
  intros Hwf Hfuel. unfold step. pose proof (unexcluded_size (store_of s)) as Hsize.
  pose proof (snapshot_bounded s.2 (retries s.2) Hwf ltac:(lia)) as H.
  destruct (store_snapshot calls s.2) as [[records sequence] w]. destruct H as [H _].
  destruct (prune records now (s.1, w)) as [changed s1] eqn:Eprune.
  assert (Hs1 : s1.2 = w).
  { unfold prune in Eprune. destruct (pruneState _ _ _) as [c r]. by injection Eprune as <- <-. }
  set (s2 := if changed then _ else s1).
  assert (Hs2 : paid w s2.2).
  { unfold s2. rewrite <- Hs1. destruct changed; [|done]. apply persist_paid. }
  clearbody s2. destruct (step_loop_terminates fuel records (mkEvaluationSequence sequence (wd_local w)) now s2 (retries s.2))
    as ([processed err] & s' & Heq); [by eapply bounded_paid|unfold retries_left; lia|]. by exists processed, err, s'.
Qed.

(** C33: a step terminates, while other goroutines publish, withdraw and dismiss. Let the
    observations that they publish during the calls of the step be finitely many, and
    [pending] count those still to come; then the loop that skips presentations the device
    cannot show returns after at most one iteration for each record of the store, one for
    each of those, and one more. *)
Theorem step_terminates fuel now s :
  WellFormed (store_of s) -> (size (store_records (store_of s)) + pending (wd_rest s.2) < fuel)%nat ->
  exists processed err s', step calls fuel now s = Done ((processed, err), s').
Proof. apply step_total. Qed.
End Termination.

(** ** The log of the engine's calls *)

Inductive engine_call :=
  | KRender (candidate : option Candidate) (outcome : string) (err : option error)
  | KAcquire (candidate : Candidate) (granted : bool)
  | KRelease
  | KSave (document : StateDocument) (outcome : string) (err : option error)
  | KAppend (trace : Trace).

(** Every record of the store names its plugin, which [Publish] requires. *)
Definition Sourced (s : Store) : Prop :=
  forall id r, store_records s !! id = Some r -> rec_PluginID r <> EmptyString.

(** A log of the calls of an engine that has a coordinator, whatever they answer; the
    publications other goroutines make meanwhile are authenticated. *)
Class LoggedEngine {W} (calls : EngineCalls W) (log : W -> list engine_call) : Prop := {
  lg_Render c w : log (wd_rest (ec_Render calls c w).2)
    = log (wd_rest w) ++ [KRender c (ec_Render calls c w).1.1 (ec_Render calls c w).1.2];
  lg_Acquire : exists f, ec_AcquireCritical calls = Some f
    /\ forall c w, log (wd_rest (f c w).2) = log (wd_rest w) ++ [KAcquire c (f c w).1]
                   /\ (Sourced (wd_store w) -> Sourced (wd_store (f c w).2));
  lg_Release : exists f, ec_ReleaseCritical calls = Some f
    /\ forall w, log (wd_rest (f w)) = log (wd_rest w) ++ [KRelease]
                 /\ (Sourced (wd_store w) -> Sourced (wd_store (f w)));
  lg_Save f d w : ec_Save calls = Some f ->
    log (wd_rest (f d w).2) = log (wd_rest w) ++ [KSave d (f d w).1.1 (f d w).1.2]
    /\ (Sourced (wd_store w) -> Sourced (wd_store (f d w).2));
  lg_Append f t w : ec_Append calls = Some f ->
    log (wd_rest (f t w)) = log (wd_rest w) ++ [KAppend t]
    /\ (Sourced (wd_store w) -> Sourced (wd_store (f t w)));
  lg_Render_sourced c w : Sourced (wd_store w) -> Sourced (wd_store (ec_Render calls c w).2);
}.

(** What the renderer last confirmed to be on the display. *)
Definition display_after (shown : option Candidate) (k : engine_call) : option Candidate :=
  match k with
  | KRender candidate outcome None =>
    match validateRenderResult candidate outcome None with
    | Some _ => shown
    | None => if outcome =s OutcomeFirmwareSuppressed then None else candidate
    end
  | _ => shown
  end.
Definition displayed (log : list engine_call) : option Candidate := fold_left display_after log None.

(** Whether the coordinator's last answer left the display to the engine. *)
Definition owned_after (owned : bool) (k : engine_call) : bool :=
  match k with KAcquire _ true => true | KRelease => false | _ => owned end.
Definition owned (log : list engine_call) : bool := fold_left owned_after log false.

Definition candidate_presentation (c : Candidate) : BackPresentation :=
  mkBackPresentation (Candidate_Identity c) (Candidate_ID c) (cand_Generation c) (cand_Revision c).

Lemma displayed_snoc log k : displayed (log ++ [k]) = display_after (displayed log) k.
Proof. unfold displayed. by rewrite fold_left_app. Qed.
Lemma owned_snoc log k : owned (log ++ [k]) = owned_after (owned log) k.
Proof. unfold owned. by rewrite fold_left_app. Qed.

Lemma gate_idempotent now e :
  presentationCooldownActive now (presentationCooldownActive now e).2 = presentationCooldownActive now e.
Proof.
  unfold presentationCooldownActive. destruct (IsZero (en_cooldownUntil e)) eqn:E1; cbn [snd]; [by rewrite E1|].
  destruct (Before now (en_cooldownUntil e)) eqn:E2; cbn [snd]; [by rewrite E1, E2|done].
Qed.

(** What is restored from a valid document is coherent. *)
Lemma restore_coherent generation now document r :
  validateStateDocument document = None -> Coherent r -> Coherent (restore_document generation now document r).
Proof.
  intros Hvalid Hr. apply validate_document_None in Hvalid. unfold restore_document.
  assert (Hid : forall i at_ q, Coherent q -> Coherent (restoreStateIdentity generation now i at_ q).2).
  { intros i at_ q [H1 H2]. unfold restoreStateIdentity. repeat case_match; by split. }
  assert (Hshown : forall e q, Coherent q -> Coherent (restore_shown generation now q e)).
  { intros e q Hq. unfold restore_shown. specialize (Hid (ls_Identity e) (ls_ShownAt e) q Hq).
    destruct (restoreStateIdentity _ _ _ _ _) as [[|] q']; cbn [negb snd] in *; [|done]. destruct Hid as [H1 H2].
    split; simpl; [|done]. intros i m [[<- <-]|[_ Hm]]%lookup_insert_Some; [done|by apply H1]. }
  assert (Hack : forall e q, ValidStateIdentity (ack_Identity e) -> Coherent q -> Coherent (restore_ack generation now q e)).
  { intros e q [He _] Hq. unfold restore_ack. destruct (After _ _); [by destruct Hq; split|].
    specialize (Hid (ack_Identity e) (ack_TouchedAt e) q Hq).
    destruct (restoreStateIdentity _ _ _ _ _) as [[|] q']; cbn [negb snd] in *; [|done]. destruct Hid as [H1 H2].
    split; simpl; [done|]. intros i x [[<- <-]|[_ Hx]]%lookup_insert_Some; [|by apply H2]. simpl. split; [done|]. split; [done|].
    apply Forall_cons in He as [[(rn & Hrn & _) _ _ _] _]. intros Heq. rewrite Heq in Hrn. by apply not_elem_of_nil in Hrn. }
  assert (Hl : forall l q, Coherent q -> Coherent (fold_left (restore_shown generation now) l q)).
  { induction l as [|e l IH]; intros q Hq; simpl; [done|]. by apply IH, Hshown. }
  assert (Ha : forall l q, (forall e, e ∈ l -> ValidStateIdentity (ack_Identity e)) -> Coherent q ->
    Coherent (fold_left (restore_ack generation now) l q)).
  { induction l as [|e l IH]; intros q Hv Hq; simpl; [done|]. apply IH; [intros; apply Hv; by right|].
    apply Hack; [apply Hv; by left|done]. }
  apply Ha; [|by apply Hl]. intros e He. by apply (vd_acks _ Hvalid).
Qed.

Section Claims.
Context {W : Type} (calls : EngineCalls W) (log : W -> list engine_call) `{!LoggedEngine calls log}.
Notation EngineState := (EngineState W).

Definition log_of (s : EngineState) : list engine_call := log (wd_rest s.2).

(** What holds between any two calls. *)
Record Sound (s : EngineState) : Prop := {
  snd_owned : en_criticalOwned s.1 = owned (log_of s);
  snd_coherent : Coherent (en_retained s.1);
  snd_sourced : Sourced (wd_store s.2);
}.

(** The claim, if there is one, is what is displayed. *)
Definition Truthful (s : EngineState) : Prop :=
  claim s.1 = mkBackPresentation no_identity (en_currentID s.1) 0 0
  \/ exists c, displayed (log_of s) = Some c /\ claim s.1 = candidate_presentation c.

Definition cooldown_of (e : Engine) : Time * string * BackPresentation :=
  (en_cooldownUntil e, en_cooldownReason e, en_cooldownKept e).

(** Activity that neither draws nor claims. *)
Record quiet (s s' : EngineState) : Prop := {
  q_sound : Sound s -> Sound s';
  q_displayed : displayed (log_of s') = displayed (log_of s);
  q_claim : claim s'.1 = claim s.1;
  q_cooldown : cooldown_of s'.1 = cooldown_of s.1;
}.

#[export] Instance quiet_preorder : PreOrder quiet.
Proof.
  split.
  - by intros s.
  - intros s1 s2 s3 [A1 B1 C1 D1] [A2 B2 C2 D2]. split; [tauto|congruence..].
Qed.

Lemma quiet_truthful s s' : quiet s s' -> Truthful s -> Truthful s'.
Proof.
  intros [_ Hd Hc _] [H|(c & H1 & H2)].
  - left. rewrite Hc, H. f_equal. by apply (f_equal bp_id) in Hc.
  - right. exists c. by rewrite Hd, Hc.
Qed.

Lemma record_quiet now decision outcome s : quiet s (record calls now decision outcome s).
Proof.
  unfold record. destruct (ec_Append calls) as [f|] eqn:E; [|done].
  split; cbn [fst]; try done; unfold log_of; cbn [snd];
    destruct (lg_Append f (mkTrace 0 (UTC now) match ad_Candidate decision with Some c => Candidate_ID c | None => EmptyString end
      outcome (ad_Evaluations decision)) s.2 E) as [Hl Hs].
  - intros [H1 H2 H3]. split; unfold log_of in *; cbn [fst snd]; [by rewrite Hl, owned_snoc|done|by apply Hs].
  - by rewrite Hl, displayed_snoc.
Qed.

Lemma persist_quiet records s : quiet s (persistState calls records s).2.
Proof.
  unfold persistState. destruct (ec_Save calls) as [f|] eqn:E; [|done].
  destruct (lg_Save f (stateDocument (ec_resolve calls s.2) records (en_retained s.1)) s.2 E) as [Hl Hs].
  destruct (f _ s.2) as [[outcome err] w]. cbn [snd fst] in *.
  split; cbn [fst snd]; try done.
  - intros [H1 H2 H3]. split; unfold log_of in *; cbn [fst snd]; [by rewrite Hl, owned_snoc|done|by apply Hs].
  - unfold log_of. cbn [snd]. by rewrite Hl, displayed_snoc.
Qed.

(** Changing what is retained. *)
Lemma retained_quiet r s : (Coherent (en_retained s.1) -> Coherent r) -> quiet s (set_retained r s.1, s.2).
Proof. intros Hr. split; try done. intros [H1 H2 H3]. split; try done. by apply Hr. Qed.

(** Changing only the store. *)
Lemma store_quiet f s : (Sourced (wd_store s.2) -> Sourced (f (wd_store s.2))) -> quiet s (on_store f s).
Proof. intros Hf. split; try done. intros [H1 H2 H3]. split; try done. by apply Hf. Qed.

Lemma acquire_quiet c s granted s' : acquireCritical calls c s = (granted, s') -> quiet s s'.
Proof.
  unfold acquireCritical. destruct lg_Acquire as (f & -> & Hf). specialize (Hf c s.2).
  destruct (f c s.2) as [[|] w]; cbn [fst snd negb] in *; destruct Hf as [Hl Hs]; intros [= <- <-];
    (split; cbn [fst snd]; try done; unfold log_of; cbn [snd]; [|by rewrite Hl, displayed_snoc]);
    intros [H1 H2 H3]; split; unfold log_of in *; cbn [fst snd]; rewrite ?Hl, ?owned_snoc; auto.
Qed.

Lemma release_quiet s : quiet s (releaseCritical calls s).
Proof.
  unfold releaseCritical. destruct (en_criticalOwned s.1) eqn:Eo; cbn [negb]; [|done].
  destruct lg_Release as (f & -> & Hf). destruct (Hf s.2) as [Hl Hs].
  split; cbn [fst snd]; try done; unfold log_of; cbn [snd]; [|by rewrite Hl, displayed_snoc].
  intros [H1 H2 H3]; split; unfold log_of in *; cbn [fst snd]; rewrite ?Hl, ?owned_snoc; auto.
Qed.

Lemma Sourced_sub s s' : store_records s' ⊆ store_records s -> Sourced s -> Sourced s'.
Proof. intros Hsub H id r Hr. apply (H id). by eapply lookup_weaken. Qed.

Lemma prune_quiet records now s : quiet s (prune records now s).2.
Proof.
  unfold prune. destruct (pruneState_sub records now (en_retained s.1)) as (_ & Hs & Ha).
  destruct (pruneState _ _ _) as [changed r]. apply retained_quiet. by apply Coherent_sub.
Qed.

Lemma snapshot_quiet s : quiet s (s.1, (store_snapshot calls s.2).2).
Proof.
  rewrite store_snapshot_eq. apply (store_quiet (fun store => (SnapshotWithSequence (ec_storeNow calls s.2) store).2)).
  apply Sourced_sub, subsides_snapshot.
Qed.

(** The gate is opened at most once. *)
Lemma gate_quiet now s : (Sound s -> Sound ((presentationCooldownActive now s.1).2, s.2))
  /\ claim (presentationCooldownActive now s.1).2 = claim s.1
  /\ presentationCooldownActive now (presentationCooldownActive now s.1).2 = presentationCooldownActive now s.1.
Proof.
  rewrite gate_idempotent. unfold presentationCooldownActive.
  destruct (IsZero (en_cooldownUntil s.1)); cbn [snd]; [by destruct s|].
  destruct (Before now (en_cooldownUntil s.1)); cbn [snd]; [by destruct s|].
  split; [|done]. intros [H1 H2 H3]. by split.
Qed.

Lemma gate_cooldown now e e' :
  cooldown_of e' = cooldown_of e ->
  (presentationCooldownActive now e').1 = (presentationCooldownActive now e).1
  /\ cooldown_of (presentationCooldownActive now e').2 = cooldown_of (presentationCooldownActive now e).2.
Proof.
  unfold presentationCooldownActive, cooldown_of. intros [= H1 H2 H3]. rewrite H1.
  destruct (IsZero (en_cooldownUntil e)); [|destruct (Before now (en_cooldownUntil e))]; cbn [fst snd]; by rewrite ?H1, ?H2, ?H3.
Qed.

Lemma render_effect c s outcome err s' :
  render calls c s = ((outcome, err), s') ->
  (Sound s -> Sound s') /\ s'.1 = s.1 /\ log_of s' = log_of s ++ [KRender c outcome err].
Proof.
  unfold render. pose proof (lg_Render c s.2) as Hl. pose proof (lg_Render_sourced c s.2) as Hs.
  destruct (ec_Render calls c s.2) as [[o e] w]. cbn [fst snd] in *. intros [= <- <- <-].
  split; [|done]. intros [H1 H2 H3]. split; unfold log_of in *; cbn [fst snd]; rewrite ?Hl, ?owned_snoc; auto.
Qed.

(** A call that fails, or is answered against its contract, leaves the claim true. *)
Lemma render_failed c s outcome err s' :
  render calls c s = ((outcome, err), s') -> is_Some err \/ is_Some (validateRenderResult c outcome err) ->
  Truthful s -> Truthful s'.
Proof.
  intros Hr Hbad. apply render_effect in Hr as (_ & He & Hl).
  assert (Hd : displayed (log_of s') = displayed (log_of s)).
  { rewrite Hl, displayed_snoc. cbn [display_after]. destruct err; [done|]. destruct Hbad as [[? ?]|[e Hv]]; [done|].
    by rewrite Hv. }
  unfold Truthful. rewrite He, Hd. done.
Qed.

Lemma cleared_truthful s : Truthful (set_claim 0 0 no_identity (set_current EmptyString zero_time s.1), s.2).
Proof. by left. Qed.

Lemma clear_effect s :
  (Sound s -> Sound (clearRenderedSelection calls s)) /\ Truthful (clearRenderedSelection calls s)
  /\ cooldown_of (clearRenderedSelection calls s).1 = cooldown_of s.1.
Proof.
  unfold clearRenderedSelection. set (s1 := (set_claim _ _ _ _, s.2)). pose proof (release_quiet s1) as Hq. split; [|split].
  - intros Hs. apply Hq. destruct Hs. by split.
  - eapply quiet_truthful; [exact Hq|apply cleared_truthful].
  - by rewrite (q_cooldown _ _ Hq).
Qed.

(** Sound states with a true claim, and the gate as it was. *)
Definition good (s s' : EngineState) : Prop :=
  (Sound s -> Truthful s -> Sound s' /\ Truthful s') /\ cooldown_of s'.1 = cooldown_of s.1.

Lemma good_trans s1 s2 s3 : good s1 s2 -> good s2 s3 -> good s1 s3.
Proof. intros [H1 C1] [H2 C2]. split; [|congruence]. intros Hs Ht. destruct (H1 Hs Ht). auto. Qed.

Lemma quiet_good s s' : quiet s s' -> good s s'.
Proof. intros H. split; [|apply H]. intros Hs Ht. split; [by apply H|by eapply quiet_truthful]. Qed.

Lemma clear_display_good now decision s : good s (clear_display calls now decision s).2.
Proof.
  unfold clear_display. destruct (render calls None s) as [[outcome err] s1] eqn:Hr.
  destruct (render_effect _ _ _ _ _ Hr) as (Hs & He & _).
  assert (Hfail : is_Some err \/ is_Some (validateRenderResult None outcome err) -> good s s1).
  { intros Hbad. split; [|by rewrite He]. intros H1 H2. split; [by apply Hs|]. by eapply render_failed. }
  destruct (validateRenderResult None outcome err) as [contractErr|] eqn:Hv; cbn [snd].
  { eapply good_trans; [apply Hfail; right; by eexists|apply quiet_good, record_quiet]. }
  destruct err as [err|]; cbn [snd].
  { eapply good_trans; [apply Hfail; left; by eexists|apply quiet_good, record_quiet]. }
  destruct (clear_effect s1) as (Hc1 & Hc2 & Hc3).
  eapply good_trans; [|apply quiet_good, record_quiet]. split; [|by rewrite Hc3, He]. auto.
Qed.

Lemma show_coherent winner now e : Coherent (en_retained e) -> Coherent (en_retained (show winner now e)).
Proof.
  intros [H1 H2]. unfold show. cbv zeta. destruct (negb _); split; simpl; try done;
    intros id m [[<- <-]|[_ Hm]]%lookup_insert_Some; try done; by apply H1.
Qed.

Lemma show_currentID winner now e : en_currentID (show winner now e) = Candidate_ID winner.
Proof. unfold show. cbv zeta. by destruct (String.eqb_spec (Candidate_ID winner) (en_currentID e)) as [->|]. Qed.

(** After the show, committing a winner is quiet until the claim is set. *)
Lemma commit_quiet winner records now s :
  exists s1 s3, quiet s s1 /\ quiet (show winner now s1.1, s1.2) s3
    /\ commit_winner calls winner records now s
       = (set_claim (cand_Revision winner) (cand_Generation winner) (Candidate_Identity winner) s3.1, s3.2).
Proof.
  unfold commit_winner. cbv zeta. exists (if negb (is_critical winner) then releaseCritical calls s else s).
  eexists. split; [|split; [|reflexivity]].
  - destruct (negb (is_critical winner)); [apply release_quiet|done].
  - etrans; [apply prune_quiet|apply persist_quiet].
Qed.

Lemma show_fields winner now e :
  en_criticalOwned (show winner now e) = en_criticalOwned e /\ cooldown_of (show winner now e) = cooldown_of e.
Proof. unfold show. cbv zeta. by destruct (negb (Candidate_ID winner =s en_currentID e)). Qed.

Lemma commit_good winner records now s :
  Sound s -> displayed (log_of s) = Some winner ->
  Sound (commit_winner calls winner records now s) /\ Truthful (commit_winner calls winner records now s).
Proof.
  intros Hs Hd. destruct (commit_quiet winner records now s) as (s1 & s3 & Q1 & Q3 & ->).
  destruct (q_sound _ _ Q1 Hs) as [H1 H2 H3]. destruct (show_fields winner now s1.1) as [Hf _].
  assert (Hs3 : Sound s3).
  { apply (q_sound _ _ Q3). split; cbn [fst snd]; [by rewrite Hf|by apply show_coherent|done]. }
  split; [destruct Hs3; by split|]. right. exists winner. split.
  - rewrite <- Hd, <- (q_displayed _ _ Q1). apply (q_displayed _ _ Q3).
  - unfold claim, candidate_presentation. cbn [fst]. f_equal.
    etrans; [apply (f_equal bp_id (q_claim _ _ Q3))|apply show_currentID].
Qed.

Lemma commit_cooldown winner records now s :
  cooldown_of (commit_winner calls winner records now s).1 = cooldown_of s.1.
Proof.
  destruct (commit_quiet winner records now s) as (s1 & s3 & Q1 & Q3 & ->). cbn [fst].
  etrans; [apply (q_cooldown _ _ Q3)|]. cbn [fst]. rewrite (proj2 (show_fields _ _ _)). apply Q1.
Qed.

(** An iteration keeps the claim true. *)
Lemma step_decision_good records now s :
  Sound s -> Truthful s ->
  let s' := (step_decision calls records now s).2 in
  Sound s' /\ Truthful s' /\ (presentationCooldownActive now s'.1).1 = (presentationCooldownActive now s.1).1.
Proof.
  intros Hs Ht s'. destruct (gate_quiet now s) as (Hg1 & Hg2 & Hg3).
  set (s0 := ((presentationCooldownActive now s.1).2, s.2)) in *.
  assert (Hs0 : Sound s0 /\ Truthful s0).
  { split; [by apply Hg1|]. destruct Ht as [H|(c & H1 & H2)]; [left|right; exists c; by rewrite <- H2].
    unfold s0. cbn [fst]. rewrite Hg2, H. f_equal. by apply (f_equal bp_id) in Hg2. }
  enough (Hgood : good s0 s').
  { destruct Hgood as [Hgood Hcool]. destruct (Hgood (proj1 Hs0) (proj2 Hs0)). split; [done|]. split; [done|].
    destruct (gate_cooldown now _ _ Hcool) as [-> _]. unfold s0. cbn [fst]. by rewrite Hg3. }
  assert (Hdraws : forall winner s1, draws calls records now s winner s1 -> quiet s0 s1).
  { intros winner s1 (_ & _ & _ & Ha). destruct (is_critical winner); [by eapply acquire_quiet|by subst]. }
  assert (Hbad : forall winner s1 outcome err s2, draws calls records now s winner s1 ->
    render calls (Some winner) s1 = ((outcome, err), s2) ->
    is_Some err \/ is_Some (validateRenderResult (Some winner) outcome err) -> good s0 s2).
  { intros winner s1 outcome err s2 Hd Hr Hbad. eapply good_trans; [by eapply quiet_good, Hdraws|].
    destruct (render_effect _ _ _ _ _ Hr) as (Hs1 & He & _). split; [|by rewrite He].
    intros H1 H2. split; [by apply Hs1|]. by eapply render_failed. }
  pose proof (step_decision_branch calls records now s) as Hb. fold s' in Hb.
  inversion Hb as [s1 Hs1 Heq1 Heq2|err s1 Hc Heq1 Heq2|winner s1 outcome err s2 ce Hd Hr Hv Heq1 Heq2
    |winner s1 outcome err s2 Hd Hr Hv Heq1 Heq2|winner s1 outcome err s2 store Hd Hr Hex Hv Hinv Heq1 Heq2
    |winner s1 s2 Hd Hr Heq1 Heq2|winner s1 outcome s2 Hd Hr Ho Heq1 Heq2]; clear Hb Heq1.
  - eapply good_trans; [|apply quiet_good, record_quiet].
    destruct Hs1 as [->|(winner & _ & Ha)]; [by split|]. by eapply quiet_good, acquire_quiet.
  - pose proof (clear_display_good now (AttentionSelector.Select records (resolveRecord s.1 (ec_resolve calls s.2)) (history s.1) now) s0) as Hg.
    fold s0 in Hc. by rewrite Hc in Hg.
  - eapply good_trans; [eapply Hbad; [done..|right; by eexists]|apply quiet_good, record_quiet].
  - eapply good_trans; [eapply Hbad; [done..|left; by eexists]|apply quiet_good, record_quiet].
  - eapply good_trans; [eapply Hbad; [done..|left; by eexists]|].
    eapply good_trans; [|apply quiet_good, record_quiet].
    apply quiet_good, (store_quiet (fun _ => store)). apply Sourced_sub. apply (exclude_subsides _ _ _ _ _ Hex).
  - destruct (render_effect _ _ _ _ _ Hr) as (Hs1 & He & _).
    set (s3 := (s2.1, set_store _ s2.2)).
    assert (Q : quiet s2 s3).
    { apply (store_quiet (fun store => (ExcludeRevisionWithoutSignal (Candidate_Identity winner) (cand_Generation winner)
        (cand_Revision winner) store).2)). apply Sourced_sub.
      unfold ExcludeRevisionWithoutSignal. by destruct (negb _). }
    destruct (clear_effect s3) as (Hc1 & Hc2 & Hc3).
    eapply good_trans; [|apply quiet_good, record_quiet]. split.
    + intros H1 H2. split; [|done]. apply Hc1, Q, Hs1. by apply (Hdraws winner s1 Hd).
    + rewrite Hc3. unfold s3. cbn [fst]. rewrite He. apply (Hdraws winner s1 Hd).
  - destruct (render_effect _ _ _ _ _ Hr) as (Hs1 & He & Hl).
    assert (Hdisp : displayed (log_of s2) = Some winner).
    { rewrite Hl, displayed_snoc. by destruct Ho as [-> | ->]. }
    eapply good_trans; [|apply quiet_good, record_quiet]. split.
    + intros H1 H2. apply commit_good; [|done]. apply Hs1. by apply (Hdraws winner s1 Hd).
    + rewrite commit_cooldown, He. apply (Hdraws winner s1 Hd).
Qed.

Lemma step_loop_good fuel records processed now s out s' :
  step_loop calls fuel records processed now s = Done (out, s') ->
  Sound s -> Truthful s ->
  Sound s' /\ Truthful s' /\ (presentationCooldownActive now s'.1).1 = (presentationCooldownActive now s.1).1.
Proof.
  revert records processed s. induction fuel as [|fuel IH]; intros records processed s; cbn [step_loop]; [done|].
  intros Hloop Hs Ht. destruct (step_decision_good records now s Hs Ht) as (Hs1 & Ht1 & Hc1).
  destruct (step_decision calls records now s) as [[err|] s1]; cbn [snd] in *.
  { injection Hloop as <- <-. done. }
  pose proof (snapshot_quiet s1) as Q. rewrite store_snapshot_eq in Hloop, Q. cbv zeta in Hloop. cbn [snd] in Q.
  apply IH in Hloop as (H1 & H2 & H3); [|by apply Q|by eapply quiet_truthful].
  split; [done|]. split; [done|]. by rewrite H3.
Qed.

Lemma step_good fuel now s out s' :
  step calls fuel now s = Done (out, s') -> Sound s -> Truthful s -> Sound s' /\ Truthful s'.
Proof.
  unfold step. pose proof (snapshot_quiet s) as Q0. rewrite store_snapshot_eq in *. cbv zeta. cbn [fst snd] in *.
  set (s0 := (s.1, set_store _ s.2)) in *. set (records := (SnapshotWithSequence _ _).1.1).
  pose proof (prune_quiet records now s0) as Q1. destruct (prune records now s0) as [changed s1]. cbn [snd] in Q1.
  set (s2 := if changed then (persistState calls records s1).2 else s1). assert (Q2 : quiet s1 s2).
  { unfold s2. destruct changed; [apply persist_quiet|done]. }
  intros Hloop Hs Ht. assert (Q : quiet s s2) by (by (etrans; [exact Q0|etrans; [exact Q1|exact Q2]])).
  apply step_loop_good in Hloop; [tauto|by apply Q|by eapply quiet_truthful].
Qed.

(** ** Executions of the engine *)

Inductive engine_step : EngineState -> EngineState -> Prop :=
  | es_restore s generation document :
      validateStateDocument document = None ->
      engine_step s (restoreAttentionState calls generation (document, None) s)
  | es_step fuel now s out s' : step calls fuel now s = Done (out, s') -> engine_step s s'
  | es_capture s : engine_step s (CaptureBackPresentation s).2
  | es_back fuel captured invalidate now s err s' :
      (forall f w, invalidate = Some f ->
         log (wd_rest (f w)) = log (wd_rest w) /\ (Sourced (wd_store w) -> Sourced (wd_store (f w)))) ->
      ReconcileConsumedBack calls fuel captured invalidate now s = Done (err, s') -> engine_step s s'
  | es_dismiss captured reason s : engine_step s (DismissForBack calls captured reason s).2
  | es_acknowledge id s : engine_step s (AcknowledgeAttention calls id s).2
  | es_invalidate s : engine_step s (InvalidateRenderedSelection s)
  | es_selected s : engine_step s (SelectedObservation calls s).2
  | es_remove pluginID instanceID through s : engine_step s (RemoveInstance calls pluginID instanceID through s)
  | es_deadline now s : engine_step s (NextDeadline calls now s).2
  | es_cooldown s : engine_step s (PresentationCooldownStatus calls s).2
  | es_wake s : engine_step s (Wake s)
  (** what other goroutines do between two methods *)
  | es_world s w :
      log (wd_rest w) = log (wd_rest s.2) -> (Sourced (wd_store s.2) -> Sourced (wd_store w)) -> engine_step s (s.1, w).

Definition reachable (s : EngineState) : Prop :=
  exists w, log (wd_rest w) = [] /\ Sourced (wd_store w) /\ rtc engine_step (new_engine, w) s.

Definition keeps (s s' : EngineState) : Prop := Sound s -> Truthful s -> Sound s' /\ Truthful s'.

#[export] Instance keeps_preorder : PreOrder keeps.
Proof. split; [by intros s|]. intros s1 s2 s3 H1 H2 Hs Ht. destruct (H1 Hs Ht). auto. Qed.

Lemma quiet_keeps s s' : quiet s s' -> keeps s s'.
Proof. intros H. exact (proj1 (quiet_good _ _ H)). Qed.

Lemma set_cooldown_keeps until reason kept s : keeps s (set_cooldown until reason kept s.1, s.2).
Proof. intros [H1 H2 H3] Ht. by split; [split|]. Qed.

Lemma unclaim_keeps s w :
  log (wd_rest w) = log (wd_rest s.2) -> (Sourced (wd_store s.2) -> Sourced (wd_store w)) ->
  keeps s (set_claim 0 0 no_identity s.1, w).
Proof. intros Hl Hs [H1 H2 H3] _. split; [split|by left]; unfold log_of in *; cbn [fst snd]; [by rewrite Hl|done|auto]. Qed.

Lemma wake_keeps s : keeps s (Wake s).
Proof. intros [H1 H2 H3] Ht. by split; [split|]. Qed.

Lemma gate_keeps now s : keeps s ((presentationCooldownActive now s.1).2, s.2).
Proof.
  unfold presentationCooldownActive. destruct (IsZero _); [by intros []|]. destruct (Before _ _); [by intros []|].
  apply set_cooldown_keeps.
Qed.

Lemma find_record_spec id records record : find_record id records = Some record -> record ∈ records /\ Record_ID record = id.
Proof.
  induction records as [|q records IH]; simpl; [done|].
  destruct (String.eqb_spec (Record_ID q) id) as [<-|Hne]; [intros [= <-]; split; [left|done]|].
  intros H%IH. split; [right; tauto|tauto].
Qed.

Lemma propose_coherent record records now r :
  rec_PluginID record <> EmptyString -> Coherent r -> Coherent (propose record records now r).
Proof.
  intros Hp [H1 H2]. unfold propose. set (state := mkAckState _ _ _ _).
  unfold boundProposedAcknowledgements. cbv zeta. destruct (_ || _); cbn [fst snd].
  - split; simpl; [done|]. intros id x [[<- <-]|[_ Hx]]%lookup_insert_Some; [done|by apply H2].
  - split; simpl; intros id x Hx.
    + apply H1. by apply lookup_remove_shown in Hx as [? _].
    + apply lookup_remove_acks in Hx as [[[<- <-]|[_ Hx]]%lookup_insert_Some _]; [done|by apply H2].
Qed.

Lemma snapshot_sourced (s : EngineState) record :
  Sourced (wd_store s.2) -> record ∈ (store_snapshot calls s.2).1.1 -> rec_PluginID record <> EmptyString.
Proof.
  intros Hs. rewrite store_snapshot_eq. cbn [fst snd]. unfold SnapshotWithSequence. simpl. rewrite elem_of_SortFunc.
  intros ([id q] & -> & [Hq%elem_of_map_to_list _]%elem_of_List_filter)%list_elem_of_fmap. simpl.
  autorewrite with store in Hq. apply map_lookup_filter_Some in Hq as [Hq _]. by apply (Hs id).
Qed.

Lemma Snapshot_state_eq (s : EngineState) :
  Snapshot_state calls s = ((store_snapshot calls s.2).1.1, (s.1, (store_snapshot calls s.2).2)).
Proof. unfold Snapshot_state. by destruct (store_snapshot calls s.2) as [[records sequence] w]. Qed.

Lemma acknowledge_keeps id s : keeps s (Acknowledge calls id s).2.
Proof.
  unfold Acknowledge. rewrite Snapshot_state_eq. pose proof (snapshot_quiet s) as Q0.
  set (s0 := (s.1, (store_snapshot calls s.2).2)) in *.
  destruct (find_record id (store_snapshot calls s.2).1.1) as [record|] eqn:Hf; [|by apply quiet_keeps].
  apply find_record_spec in Hf as [Hin _]. destruct (ec_resolve calls s0.2 record) as [rule ok].
  destruct (negb ok || _); [by apply quiet_keeps|]. cbv zeta.
  set (records := (store_snapshot calls s.2).1.1) in *. set (now := UTC (ec_now calls s0.2)).
  pose proof (prune_quiet records now s0) as Q1. set (s1 := (prune records now s0).2) in *. clearbody s1.
  set (proposed := propose record records now (en_retained s1.1)).
  assert (Hsave : forall refused w, (match ec_Save calls with
      | None => (None, s1.2)
      | Some save => let '((outcome, err), w) := save (stateDocument (ec_resolve calls s1.2) records proposed) s1.2 in
          (match err with Some err => Some err
           | None => if negb (outcome =s Committed)
                     then errors_New "attention acknowledgement durability was not confirmed" else None end, w)
      end) = (refused, w) -> quiet s1 (s1.1, w)).
  { intros refused w. destruct (ec_Save calls) as [f|] eqn:E; [|by intros [= <- <-]; destruct s1].
    destruct (lg_Save f (stateDocument (ec_resolve calls s1.2) records proposed) s1.2 E) as [Hl Hs].
    destruct (f _ s1.2) as [[outcome err] w']. cbn [snd fst] in *. intros [= <- <-]. split; cbn [fst snd]; try done.
    - intros [H1 H2 H3]. split; unfold log_of in *; cbn [fst snd]; [by rewrite Hl, owned_snoc|done|by apply Hs].
    - unfold log_of. cbn [snd]. by rewrite Hl, displayed_snoc. }
  destruct (match ec_Save calls with None => _ | Some _ => _ end) as [refused w] eqn:Es. specialize (Hsave refused w eq_refl).
  assert (Q : quiet s (s1.1, w)) by (etrans; [exact Q0|by etrans]).
  destruct refused as [err|]; cbn [snd]; [by apply quiet_keeps|]. intros Hs Ht.
  destruct (quiet_keeps _ _ Q Hs Ht) as [[H1 H2 H3] Ht']. apply wake_keeps; [|exact Ht'].
  split; cbn [fst snd]; try done. apply propose_coherent; [|done]. eapply snapshot_sourced; [apply Hs|exact Hin].
Qed.

Lemma if_valid_quiet captured f s :
  (Sourced (wd_store s.2) -> Sourced (f (wd_store s.2))) -> quiet s (if_valid captured f s).
Proof. intros Hf. unfold if_valid. destruct (BackPresentation_valid captured); [by apply store_quiet|done]. Qed.

Lemma restore_keeps generation document s :
  validateStateDocument document = None -> keeps s (restoreAttentionState calls generation (document, None) s).
Proof.
  intros Hv. unfold restoreAttentionState. destruct (ec_Save calls); [|done]. cbv zeta. set (r := restore_document _ _ _ _).
  assert (Q : quiet s (set_retained r s.1, s.2)) by (apply retained_quiet; by apply restore_coherent).
  destruct (restore_dirty r); [|by apply quiet_keeps]. rewrite Snapshot_state_eq.
  apply quiet_keeps. etrans; [exact Q|]. etrans; [apply snapshot_quiet|apply persist_quiet].
Qed.

Lemma dismiss_keeps captured reason s : keeps s (DismissForBack calls captured reason s).2.
Proof.
  unfold DismissForBack. cbv zeta. set (s0 := (set_cooldown _ _ _ s.1, s.2)).
  assert (K0 : keeps s s0) by apply set_cooldown_keeps.
  set (s1 := if_valid captured _ s0).
  assert (K1 : keeps s0 s1).
  { apply quiet_keeps, if_valid_quiet, Sourced_sub. unfold ExcludeExactRevisionWithoutSignal. by repeat case_if. }
  clearbody s1. destruct (negb (owns captured s1.1)); cbn [snd].
  - etrans; [exact K0|]. etrans; [exact K1|]. etrans; [apply set_cooldown_keeps|apply wake_keeps].
  - destruct (clear_display _ _ _ _) as [err s2] eqn:E. cbn [snd]. etrans; [exact K0|]. etrans; [exact K1|].
    etrans; [|apply wake_keeps]. etrans; [apply set_cooldown_keeps|].
    apply (f_equal snd) in E. cbn [snd] in E. subst s2. exact (proj1 (clear_display_good _ _ _)).
Qed.

Lemma remove_keeps pluginID instanceID through s : keeps s (RemoveInstance calls pluginID instanceID through s).
Proof.
  unfold RemoveInstance. cbv zeta. rewrite Snapshot_state_eq. apply quiet_keeps.
  etrans; [apply (store_quiet (WithdrawInstance pluginID instanceID through))|].
  { apply Sourced_sub. unfold WithdrawInstance. cbv zeta. rewrite records_notify_if, records_bump_if. apply map_filter_subseteq. }
  etrans; [|etrans; [apply snapshot_quiet|apply persist_quiet]]. apply retained_quiet. apply Coherent_sub; apply map_filter_subseteq.
Qed.

Lemma deadline_keeps now s : keeps s (NextDeadline calls now s).2.
Proof.
  unfold NextDeadline. rewrite Snapshot_state_eq. set (s0 := (s.1, _)). set (records := (store_snapshot calls s.2).1.1).
  pose proof (prune_quiet records now s0) as Q1. destruct (prune records now s0) as [changed s1]. cbn [snd] in Q1.
  set (s2 := if changed then (persistState calls records s1).2 else s1).
  assert (Q2 : quiet s1 s2) by (unfold s2; destruct changed; [apply persist_quiet|done]).
  pose proof (gate_keeps now s2) as K. destruct (presentationCooldownActive now s2.1) as [cooldown e]. cbn [snd] in *.
  etrans; [|exact K]. apply quiet_keeps. etrans; [apply snapshot_quiet|]. by etrans.
Qed.

Lemma back_keeps fuel captured invalidate now s err s' :
  (forall f w, invalidate = Some f ->
     log (wd_rest (f w)) = log (wd_rest w) /\ (Sourced (wd_store w) -> Sourced (wd_store (f w)))) ->
  ReconcileConsumedBack calls fuel captured invalidate now s = Done (err, s') -> keeps s s'.
Proof.
  intros Hinv. unfold ReconcileConsumedBack. cbv zeta. set (s1 := if_valid captured _ s).
  assert (K1 : keeps s s1).
  { apply quiet_keeps, if_valid_quiet, Sourced_sub. unfold ReleaseExactRevisionReservationWithoutSignal. repeat case_match; done. }
  clearbody s1. destruct (negb (owns captured s1.1)); [by intros [= _ <-]|].
  unfold Reconcile, Step, bind. set (s2 := (set_claim _ _ _ _, _)).
  assert (K2 : keeps s1 s2).
  { destruct invalidate as [f|]; [destruct (Hinv f s1.2 eq_refl)|]; by apply unclaim_keeps. }
  destruct (step calls fuel now s2) as [[[processed e] s3]| |] eqn:E; [|done..]. intros [= _ <-].
  etrans; [exact K1|]. etrans; [exact K2|]. intros Hs Ht. by eapply step_good.
Qed.

(** Every operation keeps the engine sound and its claim true. *)
Lemma engine_step_keeps s s' : engine_step s s' -> keeps s s'.
Proof.
  intros H. destruct H.
  - by apply restore_keeps.
  - intros Hs Ht. by eapply step_good.
  - unfold CaptureBackPresentation. cbv zeta. cbn [snd].
    apply quiet_keeps, if_valid_quiet, Sourced_sub. unfold ReserveExactRevisionWithoutSignal. by case_if.
  - by eapply back_keeps.
  - apply dismiss_keeps.
  - apply acknowledge_keeps.
  - etrans; [|apply wake_keeps]. by apply unclaim_keeps.
  - unfold SelectedObservation. case_if; [done|]. rewrite Snapshot_state_eq. cbn [snd]. apply quiet_keeps, snapshot_quiet.
  - apply remove_keeps.
  - apply deadline_keeps.
  - unfold PresentationCooldownStatus. cbv zeta. pose proof (gate_keeps (UTC (ec_now calls s.2)) s) as K.
    destruct (presentationCooldownActive _ _) as [active e]. cbn [snd] in K. by destruct active.
  - apply wake_keeps.
  - intros [H1 H2 H3] Ht. unfold Truthful, log_of in *. cbn [fst snd].
    split; [split|]; unfold log_of in *; cbn [fst snd]; rewrite ?H; auto.
Qed.

Lemma reachable_sound s : reachable s -> Sound s /\ Truthful s.
Proof.
  intros (w & Hlog & Hsrc & Hrun). assert (H0 : Sound (new_engine, w) /\ Truthful (new_engine, w)).
  { split; [split|by left]; unfold log_of; cbn [fst snd]; [by rewrite Hlog| |done].
    split; intros id x Hx; simpl in Hx; by rewrite lookup_empty in Hx. }
  revert H0. induction Hrun as [|s1 s2 s3 H12 _ IH]; [done|]. intros [H1 H2]. by apply IH, (engine_step_keeps s1 s2).
Qed.

(** ** The calls of a step *)

(** What is recorded of an iteration, and what is saved, where there is a recorder and a
    store. *)
Definition traced (outcome : string) (ks : list engine_call) : Prop :=
  match ec_Append calls with None => ks = [] | Some _ => exists t, ks = [KAppend t] /\ tc_Outcome t = outcome end.
Definition saved (ks : list engine_call) : Prop :=
  match ec_Save calls with None => ks = [] | Some _ => exists document outcome err, ks = [KSave document outcome err] end.
Definition failure_outcome (c : option Candidate) (outcome : string) (err : option error) : string :=
  match validateRenderResult c outcome err with Some _ => OutcomeDeviceUnavailable | None => renderFailureOutcome outcome end.
Definition failed (c : option Candidate) (outcome : string) (err : option error) : Prop :=
  is_Some err \/ is_Some (validateRenderResult c outcome err).

(** The calls of an iteration that reach the renderer with a candidate: none but a critical
    one while a cooldown gate is up, and a critical one once the coordinator has granted it
    the display. *)
Definition drawing (gate : bool) (c : Candidate) (ks : list engine_call) : Prop :=
  ks = (if is_critical c then [KAcquire c true] else []) /\ (gate = true -> is_critical c = true).
Definition releases (held : bool) : list engine_call := if held then [KRelease] else [].

(** The calls of an iteration, by what is answered; [held] tells whether the display is owned
    by a critical candidate, before and after, and the last argument whether the loop goes
    on. *)
Inductive Turn (gate held : bool) : list engine_call -> bool -> bool -> Prop :=
  | turn_unchanged tr : traced OutcomeUnchanged tr -> Turn gate held tr held false
  | turn_refused c tr : is_critical c = true -> traced OutcomeUnchanged tr -> Turn gate held (KAcquire c false :: tr) held false
  | turn_cleared outcome tr :
      ~ failed None outcome None -> traced outcome tr -> Turn gate held (KRender None outcome None :: releases held ++ tr) false false
  | turn_not_cleared outcome err tr :
      failed None outcome err -> traced (failure_outcome None outcome err) tr -> Turn gate held (KRender None outcome err :: tr) held false
  | turn_failed c ks outcome err tr :
      drawing gate c ks -> failed (Some c) outcome err -> traced (failure_outcome (Some c) outcome err) tr ->
      Turn gate held (ks ++ KRender (Some c) outcome err :: tr) (held || is_critical c) false
  | turn_excluded c ks outcome err tr :
      drawing gate c ks -> errors_Is "invalid BUSY Bar presentation" err = true -> traced OutcomeInvalidPresentation tr ->
      Turn gate held (ks ++ KRender (Some c) outcome (Some err) :: tr) (held || is_critical c) true
  | turn_suppressed c ks tr :
      drawing gate c ks -> traced OutcomeFirmwareSuppressed tr ->
      Turn gate held (ks ++ KRender (Some c) OutcomeFirmwareSuppressed None :: releases (held || is_critical c) ++ tr) false false
  | turn_drawn c ks outcome sv tr :
      drawing gate c ks -> outcome = OutcomeDrawn \/ outcome = OutcomeUnchanged -> saved sv -> traced outcome tr ->
      Turn gate held (ks ++ KRender (Some c) outcome None :: releases (held && negb (is_critical c)) ++ sv ++ tr) (is_critical c) false.

(** The iterations of a step: all but the last one find a presentation that cannot be
    shown. *)
Inductive Turns (gate : bool) : bool -> list engine_call -> bool -> Prop :=
  | turns_last held ks held' : Turn gate held ks held' false -> Turns gate held ks held'
  | turns_more held ks held1 ks' held' : Turn gate held ks held1 true -> Turns gate held1 ks' held' -> Turns gate held (ks ++ ks') held'.

Notation held s := (en_criticalOwned s.1).

Lemma record_calls now decision outcome s :
  exists tr, log_of (record calls now decision outcome s) = log_of s ++ tr /\ traced outcome tr
    /\ held (record calls now decision outcome s) = held s.
Proof.
  unfold record, traced. destruct (ec_Append calls) as [f|] eqn:E; [|exists []; by rewrite app_nil_r].
  eexists [KAppend _]. split; [apply (lg_Append f _ s.2 E)|]. split; [|done]. by eexists.
Qed.

Lemma persist_calls records s :
  exists sv, log_of (persistState calls records s).2 = log_of s ++ sv /\ saved sv /\ held (persistState calls records s).2 = held s.
Proof.
  unfold persistState, saved. destruct (ec_Save calls) as [f|] eqn:E; [|exists []; by rewrite app_nil_r].
  destruct (lg_Save f (stateDocument (ec_resolve calls s.2) records (en_retained s.1)) s.2 E) as [Hl _].
  destruct (f _ s.2) as [[outcome err] w]. eexists [KSave _ _ _]. split; [exact Hl|]. split; [|done]. by eexists _, _, _.
Qed.

Lemma release_calls s :
  log_of (releaseCritical calls s) = log_of s ++ releases (held s) /\ held (releaseCritical calls s) = false.
Proof.
  unfold releaseCritical, releases. destruct (held s) eqn:E; cbn [negb]; [|by rewrite app_nil_r].
  destruct lg_Release as (f & -> & Hf). split; [apply Hf|done].
Qed.

Lemma prune_calls records now s : log_of (prune records now s).2 = log_of s /\ held (prune records now s).2 = held s.
Proof. unfold prune. by destruct (pruneState _ _ _). Qed.

Lemma clear_display_calls gate now decision s :
  exists ks, log_of (clear_display calls now decision s).2 = log_of s ++ ks
    /\ Turn gate (held s) ks (held (clear_display calls now decision s).2) false.
Proof.
  unfold clear_display. destruct (render calls None s) as [[outcome err] s1] eqn:Hr.
  apply render_effect in Hr as (_ & He & Hl).
  destruct (validateRenderResult None outcome err) as [ce|] eqn:Hv; cbn [snd].
  { destruct (record_calls now decision OutcomeDeviceUnavailable s1) as (tr & Hl' & Ht & Hh).
    exists (KRender None outcome err :: tr). rewrite Hl', Hl, <- app_assoc, Hh, He. split; [done|].
    apply turn_not_cleared; [right; by rewrite Hv|]. unfold failure_outcome. by rewrite Hv. }
  destruct err as [err|]; cbn [snd].
  { destruct (record_calls now decision (renderFailureOutcome outcome) s1) as (tr & Hl' & Ht & Hh).
    exists (KRender None outcome (Some err) :: tr). rewrite Hl', Hl, <- app_assoc, Hh, He. split; [done|].
    apply turn_not_cleared; [left; by eexists|]. unfold failure_outcome. by rewrite Hv. }
  unfold clearRenderedSelection. set (s2 := (set_claim _ _ _ _, _)).
  destruct (release_calls s2) as [Hl2 Hh2]. destruct (record_calls now decision outcome (releaseCritical calls s2)) as (tr & Hl' & Ht & Hh).
  exists (KRender None outcome None :: releases (held s) ++ tr).
  rewrite Hl', Hl2, Hh, Hh2. unfold s2, log_of in *. cbn [fst snd set_claim set_current en_criticalOwned] in *. rewrite Hl, He.
  rewrite <- !app_assoc. split; [done|]. apply turn_cleared; [|done]. intros [[? ?]|[? H]]; [done|by rewrite Hv in H].
Qed.

Lemma commit_calls winner records now s :
  exists sv, log_of (commit_winner calls winner records now s) = log_of s ++ releases (held s && negb (is_critical winner)) ++ sv
    /\ saved sv /\ held (commit_winner calls winner records now s) = (held s && is_critical winner).
Proof.
  unfold commit_winner. cbv zeta. set (s1 := if negb (is_critical winner) then releaseCritical calls s else s).
  assert (H1 : log_of s1 = log_of s ++ releases (held s && negb (is_critical winner)) /\ held s1 = (held s && is_critical winner)).
  { unfold s1. destruct (is_critical winner); cbn [negb]; rewrite ?andb_false_r, ?andb_true_r; [by rewrite app_nil_r|apply release_calls]. }
  clearbody s1. destruct H1 as [H1 H2].
  destruct (prune_calls records now (show winner now s1.1, s1.2)) as [H3 H4]. set (s2 := (prune _ _ _).2) in *. clearbody s2.
  destruct (persist_calls records s2) as (sv & H5 & H6 & H7). exists sv. unfold log_of in *. cbn [fst snd set_claim en_criticalOwned] in *.
  rewrite H5, H3, H7, H4, H1, <- app_assoc. split_and!; [done|done|].
  rewrite <- H2. cbn [fst]. unfold show. cbv zeta. cbn [set_retained en_criticalOwned]. destruct (Candidate_ID winner =s en_currentID s1.1); cbn [negb]. all: reflexivity.
Qed.

(** Reaching the renderer and calling it. *)
Lemma draws_calls records now s winner s1 outcome err s2 :
  draws calls records now s winner s1 -> render calls (Some winner) s1 = ((outcome, err), s2) ->
  exists ks, drawing (presentationCooldownActive now s.1).1 winner ks
    /\ log_of s2 = log_of s ++ ks ++ [KRender (Some winner) outcome err] /\ held s2 = (held s || is_critical winner).
Proof.
  intros (_ & Hgate & _ & Hacq) (_ & He & Hl)%render_effect. eexists. split; [by split|]. rewrite Hl, He. clear Hl He.
  destruct (is_critical winner) eqn:Hc.
  - unfold acquireCritical in Hacq. destruct lg_Acquire as (f & Hf & Hlog). rewrite Hf in Hacq.
    destruct (Hlog winner s.2) as [Hl' _]. cbn [snd] in Hacq. destruct (f winner s.2) as [[|] w]; [|done].
    injection Hacq as <-. unfold log_of in *. cbn [fst snd] in *. rewrite Hl', <- app_assoc. split; [done|]. by rewrite orb_true_r.
  - subst s1. rewrite orb_false_r. split; [done|]. cbn [fst]. unfold presentationCooldownActive.
    destruct (IsZero _); [done|]. by destruct (Before _ _).
Qed.

Lemma gate_held now s : en_criticalOwned (presentationCooldownActive now s).2 = en_criticalOwned s.
Proof. unfold presentationCooldownActive. destruct (IsZero _); [done|]. by destruct (Before _ _). Qed.

Lemma step_decision_calls records now s :
  exists ks, log_of (step_decision calls records now s).2 = log_of s ++ ks
    /\ Turn (presentationCooldownActive now s.1).1 (held s) ks (held (step_decision calls records now s).2)
         match (step_decision calls records now s).1 with Continue => true | Return _ => false end.
Proof.
  pose proof (step_decision_branch calls records now s) as Hb.
  set (s' := (step_decision calls records now s).2) in *. set (went := (step_decision calls records now s).1) in *. clearbody s' went.
  set (gate := (presentationCooldownActive now s.1).1). pose proof (gate_held now s.1) as Hgate.
  inversion Hb as [s1 Hs1 Heq1 Heq2|err s1 Hc Heq1 Heq2|winner s1 outcome err s2 ce Hd Hr Hv Heq1 Heq2
    |winner s1 outcome err s2 Hd Hr Hv Heq1 Heq2|winner s1 outcome err s2 store Hd Hr Hex Hv Hinv Heq1 Heq2
    |winner s1 s2 Hd Hr Heq1 Heq2|winner s1 outcome s2 Hd Hr Ho Heq1 Heq2]; clear Hb Heq1;
    try (destruct (draws_calls _ _ _ _ _ _ _ _ Hd Hr) as (ks & Hks & Hl & Hh)).
  2:{ destruct (clear_display_calls gate now (AttentionSelector.Select records (resolveRecord s.1 (ec_resolve calls s.2)) (history s.1) now)
        ((presentationCooldownActive now s.1).2, s.2)) as (ks & Hl & Ht). rewrite Hc in Hl, Ht. cbn [fst snd] in Hl, Ht. rewrite Hgate in Ht. by exists ks. }
  all: match goal with |- context [record calls ?t ?d ?o ?x] => destruct (record_calls t d o x) as (tr & Htr & Ht & Hht) end; rewrite Htr, Hht.
  - destruct Hs1 as [->|(winner & Hcrit & Ha)].
    + exists tr. split; [done|]. cbn [fst]. rewrite Hgate. by apply turn_unchanged.
    + unfold acquireCritical in Ha. destruct lg_Acquire as (f & Hf & Hlog). rewrite Hf in Ha.
      destruct (Hlog winner s.2) as [Hl _]. cbn [snd] in Ha. destruct (f winner s.2) as [[|] w]; [done|]. cbn in Ha.
      injection Ha as <-. exists (KAcquire winner false :: tr). unfold log_of in *. cbn [fst snd] in *. rewrite Hl, <- app_assoc, Hgate.
      split; [done|]. by apply turn_refused.
  - exists (ks ++ KRender (Some winner) outcome err :: tr). rewrite Hl, Hh, <- !app_assoc. split; [done|].
    apply turn_failed; [done|right; by rewrite Hv|]. unfold failure_outcome. by rewrite Hv.
  - exists (ks ++ KRender (Some winner) outcome (Some err) :: tr). rewrite Hl, Hh, <- !app_assoc. split; [done|].
    apply turn_failed; [done|left; by eexists|]. unfold failure_outcome. by rewrite Hv.
  - exists (ks ++ KRender (Some winner) outcome (Some err) :: tr). unfold log_of in *. cbn [fst snd set_store wd_rest] in *. rewrite Hl, Hh, <- !app_assoc.
    split; [done|]. by apply turn_excluded.
  - unfold clearRenderedSelection in *. set (s3 := (set_claim _ _ _ _, _)) in *. destruct (release_calls s3) as [Hl3 Hh3].
    exists (ks ++ KRender (Some winner) OutcomeFirmwareSuppressed None :: releases (held s || is_critical winner) ++ tr).
    rewrite Hl3, Hh3. unfold s3, log_of in *. cbn [fst snd set_claim set_current en_criticalOwned set_store wd_rest] in *. rewrite Hl, Hh, <- !app_assoc.
    split; [done|]. by apply turn_suppressed.
  - destruct (commit_calls winner records now s2) as (sv & Hl4 & Hsv & Hh4).
    exists (ks ++ KRender (Some winner) outcome None :: releases (held s && negb (is_critical winner)) ++ sv ++ tr).
    rewrite Hl4, Hh4, Hl, Hh, <- !app_assoc. cbn [app].
    replace ((held s || is_critical winner) && negb (is_critical winner)) with (held s && negb (is_critical winner)) by (by destruct (held s), (is_critical winner)).
    replace ((held s || is_critical winner) && is_critical winner) with (is_critical winner) by (by destruct (held s), (is_critical winner)).
    split; [done|]. by apply turn_drawn.
Qed.

Lemma step_loop_calls fuel records processed now s out s' :
  Sound s -> Truthful s -> step_loop calls fuel records processed now s = Done (out, s') ->
  exists ks, log_of s' = log_of s ++ ks /\ Turns (presentationCooldownActive now s.1).1 (held s) ks (held s').
Proof.
  revert records processed s. induction fuel as [|fuel IH]; intros records processed s Hs Ht; cbn [step_loop]; [done|].
  destruct (step_decision_calls records now s) as (ks & Hl & Hturn). destruct (step_decision_good records now s Hs Ht) as (Hs1 & Ht1 & Hc1).
  destruct (step_decision calls records now s) as [[err|] s1]; cbn [fst snd] in *.
  { intros [= <- <-]. exists ks. split; [done|]. by apply turns_last. }
  pose proof (snapshot_quiet s1) as Q. rewrite store_snapshot_eq in *. cbv zeta. cbn [fst snd] in *.
  intros Hloop. apply IH in Hloop; [|by apply Q|by eapply quiet_truthful]. cbn [fst] in Hloop. rewrite Hc1 in Hloop.
  destruct Hloop as (ks' & Hl' & Hturns). exists (ks ++ ks'). split; [|by eapply turns_more].
  rewrite Hl'. unfold log_of in *. cbn [snd set_store wd_rest]. by rewrite Hl, app_assoc.
Qed.

(** ** Theorems *)

(** C2: the engine's claim about the display is true. In every reachable state, whatever the
    collaborators answer and other goroutines do, a claimed revision is the candidate
    whose delivery the renderer last confirmed, and the observation offered for activation
    is exactly the revision on the display. *)
Theorem engine_claim_truthful s :
  reachable s ->
  (en_lastRevision s.1 <> 0 -> exists c, displayed (log_of s) = Some c /\ claim s.1 = candidate_presentation c)
  /\ forall record, (SelectedObservation calls s).1 = Some record ->
       exists c, displayed (log_of s) = Some c /\ Candidate_Identity c = Record_Identity record
         /\ cand_Generation c = rec_Generation record /\ cand_Revision c = obs_Revision (rec_Observation record).
Proof.
  intros [_ Ht]%reachable_sound.
  assert (Hclaim : en_lastRevision s.1 <> 0 ->
    exists c, displayed (log_of s) = Some c /\ claim s.1 = candidate_presentation c).
  { intros Hrev. destruct Ht as [H|H]; [|done]. by apply (f_equal bp_revision) in H. }
  split; [done|]. intros record. unfold SelectedObservation.
  destruct ((en_currentID s.1 =s EmptyString) || _ || _) eqn:Hzero; [done|].
  apply orb_false_iff in Hzero as [_ Hzero]. apply Z.eqb_neq in Hzero. destruct (Hclaim Hzero) as (c & Hc & Heq).
  rewrite Snapshot_state_eq. cbn [fst]. intros [_ Hf]%List.find_some. unfold is_rendered in Hf.
  apply andb_true_iff in Hf as [[Hid%String.eqb_eq Hg%Z.eqb_eq]%andb_true_iff Hr%Z.eqb_eq].
  exists c. split; [done|]. unfold claim, candidate_presentation in Heq. injection Heq as _ Heq2 Heq3 Heq4.
  split; [|split; congruence]. apply Identity_String_inj. unfold Candidate_ID, Record_ID in *. congruence.
Qed.

(** The engine owns the display of a critical observation exactly while the foreground
    coordinator's last answer gave it away: no grant is forgotten and none is released
    twice. *)
Theorem engine_owns_critical s :
  reachable s -> en_criticalOwned s.1 = owned (log_of s).
Proof. intros [H _]%reachable_sound. apply H. Qed.

(** The engine's memory stays coherent, so that it survives a restart: an entry is
    filed under the identity it names, and an acknowledgement names the generation it
    was given for. *)
Theorem engine_memory_coherent s : reachable s -> Coherent (en_retained s.1).
Proof. intros [H _]%reachable_sound. apply H. Qed.

(** C32: a step makes its calls in order. It first saves what pruning changed. Then come its
    iterations, and all but the last find a presentation that cannot be shown: while a
    cooldown gate is up at the step's time nothing but critical candidates is drawn, a
    critical one only right after the coordinator granted it the display; after a draw that
    succeeded, and not before, the display is released if the winner is not critical, the
    durable state is saved, and the outcome is recorded; after one that failed nothing is
    saved; each iteration is recorded once, at its end, with its outcome. The engine knows
    at the end whether the display is owned. *)
Theorem step_draws_in_order fuel now s out s' :
  reachable s -> step calls fuel now s = Done (out, s') ->
  exists sv ks, log_of s' = log_of s ++ sv ++ ks
    /\ (let '(records, _, w) := store_snapshot calls s.2 in if (prune records now (s.1, w)).1 then saved sv else sv = [])
    /\ Turns (presentationCooldownActive now s.1).1 (en_criticalOwned s.1) ks (en_criticalOwned s'.1).
Proof.
  intros [Hs Ht]%reachable_sound. unfold step. pose proof (snapshot_quiet s) as Q0.
  rewrite store_snapshot_eq in *. cbv zeta. cbn [fst snd] in *.
  set (s0 := (s.1, set_store _ s.2)) in *. set (records := (SnapshotWithSequence _ _).1.1).
  pose proof (prune_quiet records now s0) as Q1. destruct (prune_calls records now s0) as [Hl1 Hh1].
  destruct (prune records now s0) as [changed s1]. cbn [fst snd] in *.
  set (s2 := if changed then (persistState calls records s1).2 else s1).
  assert (Q2 : quiet s1 s2) by (unfold s2; destruct changed; [apply persist_quiet|done]).
  assert (H2 : exists sv, log_of s2 = log_of s1 ++ sv /\ (if changed then saved sv else sv = []) /\ held s2 = held s1).
  { unfold s2. destruct changed; [apply persist_calls|]. exists []. by rewrite app_nil_r. }
  assert (Q : quiet s s2) by (etrans; [exact Q0|by etrans]). intros Hloop.
  apply step_loop_calls in Hloop; [|by apply Q|by eapply quiet_truthful].
  destruct (gate_cooldown now _ _ (q_cooldown _ _ Q)) as [Hg _]. rewrite Hg in Hloop.
  destruct H2 as (sv & Hl2 & Hsv & Hh2), Hloop as (ks & Hl & Hturns). exists sv, ks.
  rewrite Hl, Hl2, Hl1, app_assoc. split; [done|]. split; [exact Hsv|]. by rewrite Hh2, Hh1 in Hturns.
Qed.
End Claims.

(** ** Instances *)

(** A device that cannot show the observation with key "a", and a coordinator that grants. *)
Definition demo_render (c : option Candidate) : string * option error :=
  match c with
  | None => (OutcomeCleared, None)
  | Some c => if cand_Key c =s "a" then (OutcomeInvalidPresentation, Some (Wrapf "%w: bad color" [] ErrInvalidPresentation))
              else (OutcomeDrawn, None)
  end.

Definition demo_call {R} (k : engine_call) (r : R) (w : World (list engine_call)) : R * World (list engine_call) :=
  (r, mkWorld (wd_store w) (wd_local w) (wd_rest w ++ [k])).

Definition demo_calls : EngineCalls (list engine_call) :=
  {| ec_Render := fun c w => demo_call (KRender c (demo_render c).1 (demo_render c).2) (demo_render c) w;
     ec_AcquireCritical := Some (fun c w => demo_call (KAcquire c true) true w);
     ec_ReleaseCritical := Some (fun w => (demo_call KRelease tt w).2);
     ec_Save := Some (fun d w => demo_call (KSave d Committed None) (Committed, None) w);
     ec_StoreStatus := fun _ => None;
     ec_Append := Some (fun t w => (demo_call (KAppend t) tt w).2);
     ec_resolve := fun _ => demo_resolver;
     ec_now := fun _ => demo_now;
     ec_storeNow := fun _ => demo_now;
     ec_generation := fun _ => None |}.

#[export] Instance demo_calls_logged : LoggedEngine demo_calls (fun l => l).
Proof.
  split.
  - intros c w. simpl. by destruct (demo_render c).
  - by eexists.
  - by eexists.
  - intros f d w. by intros [= <-].
  - intros f t w. by intros [= <-].
  - done.
Qed.

Definition none_pending {W} (w : W) : nat := 0%nat.
#[export] Instance demo_calls_published : FinitelyPublished demo_calls none_pending.
Proof. split; [|intros f ? w [= <-]..]; intros; by apply meanwhile_subsides. Qed.

(** Another goroutine publishes [n] observations more, one during each draw. *)
Definition busy_calls : EngineCalls nat :=
  {| ec_Render := fun c w =>
       (demo_render c, match wd_rest w with
                       | 0%nat => w
                       | S n => mkWorld (apply_op (wd_store w) (demo_publish "a" (3 - Z.of_nat n))) (wd_local w) n
                       end);
     ec_AcquireCritical := None; ec_ReleaseCritical := None; ec_Save := None; ec_StoreStatus := fun _ => None; ec_Append := None;
     ec_resolve := fun _ => demo_resolver; ec_now := fun _ => demo_now; ec_storeNow := fun _ => demo_now; ec_generation := fun _ => None |}.
#[export] Instance busy_calls_published : FinitelyPublished busy_calls (fun n => n).
Proof.
  split; [|done..]. intros c [store local [|n]]; [by apply meanwhile_subsides|]. split; [apply apply_op_WellFormed|].
  cbn [ec_Render busy_calls snd wd_rest wd_store]. unfold demo_publish. pose proof (publish_appears) as H.
  match goal with |- context [OpPublish ?g ?src ?v ?t] => specialize (H g src v t store) end. lia.
Qed.

Definition demo_store : Store := run [demo_publish "a" 1; demo_publish "b" 1] NewStore.
Definition demo_start : EngineState (list engine_call) := (new_engine, mkWorld demo_store 0 []).

Lemma demo_sourced : Sourced demo_store.
Proof.
  intros id r Hr. assert (Hall : map_Forall (fun _ r => rec_PluginID r <> EmptyString) (store_records demo_store)).
  { apply (bool_decide_unpack _). vm_compute. exact I. }
  by apply (Hall id).
Qed.

(** The engine after one step: "a" was refused and hidden, "b" is on the display. *)
Definition demo_result : (evaluationSequence * option error) * EngineState (list engine_call) :=
  match step demo_calls 3 demo_now demo_start with
  | Done r => r
  | _ => ((mkEvaluationSequence 0 0, None), demo_start)
  end.
Definition demo_shown : EngineState (list engine_call) := demo_result.2.

Lemma demo_step : step demo_calls 3 demo_now demo_start = Done (demo_result.1, demo_shown).
Proof.
  destruct (step_total demo_calls none_pending 3 demo_now demo_start) as (processed & err & s' & E);
    [apply run_WellFormed|vm_compute; lia|]. unfold demo_shown, demo_result. rewrite E. reflexivity.
Qed.

Lemma demo_start_reachable : reachable demo_calls (fun l => l) demo_start.
Proof. exists (mkWorld demo_store 0 []). split; [done|]. split; [apply demo_sourced|apply rtc_refl]. Qed.

Lemma demo_shown_reachable : reachable demo_calls (fun l => l) demo_shown.
Proof.
  exists (mkWorld demo_store 0 []). split; [done|]. split; [apply demo_sourced|]. apply rtc_once.
  exact (es_step _ _ 3 demo_now demo_start _ _ demo_step).
Qed.

(** "a" is refused and published twice more while it is drawn. *)
Lemma step_terminates_witness :
  exists processed err s', step busy_calls 5 demo_now (new_engine, mkWorld demo_store 0 2%nat) = Done ((processed, err), s').
Proof.
  apply (step_terminates busy_calls (fun n => n) 5 demo_now (new_engine, mkWorld demo_store 0 2%nat));
    [apply run_WellFormed|vm_compute; lia].
Defined.

Lemma engine_claim_truthful_witness :
  exists c, displayed (log_of (fun l => l) demo_shown) = Some c /\ claim demo_shown.1 = candidate_presentation c.
Proof.
  apply (proj1 (engine_claim_truthful demo_calls (fun l => l) demo_shown demo_shown_reachable)). vm_compute. discriminate.
Defined.

Lemma engine_owns_critical_witness : en_criticalOwned demo_shown.1 = owned (log_of (fun l => l) demo_shown).
Proof. exact (engine_owns_critical demo_calls (fun l => l) demo_shown demo_shown_reachable). Defined.

Lemma engine_memory_coherent_witness : Coherent (en_retained demo_shown.1).
Proof. exact (engine_memory_coherent demo_calls (fun l => l) demo_shown demo_shown_reachable). Defined.

Lemma step_draws_in_order_witness :
  exists sv ks, log_of (fun l => l) demo_shown = log_of (fun l => l) demo_start ++ sv ++ ks
    /\ (let '(records, _, w) := store_snapshot demo_calls demo_start.2 in
        if (prune records demo_now (demo_start.1, w)).1 then saved demo_calls sv else sv = [])
    /\ Turns demo_calls (presentationCooldownActive demo_now demo_start.1).1 (en_criticalOwned demo_start.1) ks (en_criticalOwned demo_shown.1).
Proof. exact (step_draws_in_order demo_calls (fun l => l) 3 demo_now demo_start _ _ demo_start_reachable demo_step). Defined.
