(* ===== verification/EngineDeadlines.v ===== *)
(** * When the engine must look again

    [NextDeadline] of [src/internal/daemon/engine.go]: the deadline it returns is in the
    future, no later than any time it considers, and sound: until it passes, a step on
    the same observations decides and remembers what it would decide and remember now. *)

From Stdlib Require Import ZArith Lia ZifyBool Sorted.
From S2P Require Import Prelude GoStrings GoTime Identifier Protocol Presentation ObservationStore.
From S2P Require Import AttentionSelector AttentionState AttentionRetention Engine EngineClaims.

(** ** The least of the considered times *)

(** A time that [consider] does not ignore. *)
Definition considered (now value : Time) : Prop := instant value <> 0 /\ instant now < instant value.

Lemma fold_consider now values next :
  instant next = 0 \/ considered now next ->
  let result := fold_left (consider now) values next in
  (instant result = 0 \/ considered now result)
  /\ (instant next <> 0 -> instant result <> 0 /\ instant result <= instant next)
  /\ forall value, value ∈ values -> considered now value -> instant result <> 0 /\ instant result <= instant value.
Proof.
  revert next. induction values as [|value values IH]; intros next Hnext; simpl.
  { split; [done|]. split; [lia|]. by intros ? ?%not_elem_of_nil. }
  set (next' := consider now next value). assert (Hstep : (instant next' = 0 \/ considered now next')
    /\ (instant next <> 0 -> instant next' <> 0 /\ instant next' <= instant next)
    /\ (considered now value -> instant next' <> 0 /\ instant next' <= instant value)).
  { unfold next', consider, considered, IsZero, After, Before in *.
    destruct (instant value =? 0) eqn:E1; simpl; [split_and!; lia|].
    destruct (instant now <? instant value) eqn:E2; simpl; [|split_and!; lia].
    destruct (instant next =? 0) eqn:E3; simpl; [split_and!; lia|].
    destruct (instant value <? instant next) eqn:E4; split_and!; lia. }
  destruct Hstep as (H1 & H2 & H3). destruct (IH next' H1) as (K1 & K2 & K3). split; [done|]. split.
  - intros Hn. destruct (H2 Hn) as [Hn' ?]. destruct (K2 Hn'). split; [done|lia].
  - intros v [->|Hv]%elem_of_cons Hc; [|by apply K3]. destruct (H3 Hc) as [Hn' ?]. destruct (K2 Hn'). split; [done|lia].
Qed.

(** ** What does not change before a considered time *)

Section Later.
Context (resolve : Resolver) (history : History) (now t : Time).
Context (Hnow : 0 <= instant now) (Hle : instant now <= instant t).

(** A value is not passed between [now] and [t]. *)
Definition not_passed (value : Time) : Prop := instant now < instant value -> instant t < instant value.

Definition hold_end (c : Candidate) : Time := Add (CurrentSince history) (Hold c).

(** The hold of the current candidate ran out and its rotation is not due. *)
Definition hold_lapsed (record : ObservationRecord) : Prop :=
  exists c, (evaluate resolve history now record).2 = Some c /\ (evaluate resolve history t record).2 = None
    /\ Candidate_ID c = CurrentID history /\ instant now < instant (hold_end c) <= instant t.

Lemma Before_same value : not_passed value -> Before now value = Before t value.
Proof. unfold not_passed, Before. intros H. apply eq_bool_prop_intro. rewrite !Is_true_true, !Z.ltb_lt. lia. Qed.

Lemma evaluate_later record :
  not_passed (obs_ValidUntil (rec_Observation record)) ->
  not_passed (ev_CooldownUntil (evaluate resolve history now record).1) ->
  (ev_Reason (evaluate resolve history now record).1 = ReasonNotDue ->
     not_passed (ev_NextDue (evaluate resolve history now record).1)) ->
  (evaluate resolve history t record).2 = (evaluate resolve history now record).2 \/ hold_lapsed record.
Proof.
  intros Hvalid. unfold hold_lapsed, evaluate. destruct (resolve record) as [rule present].
  destruct (negb present || negb (rule_Enabled rule)); [by left|].
  destruct (negb (rule_AssetsReady rule)); [by left|].
  destruct (obs_Disposition (rec_Observation record) =s DispositionResolved); [by left|].
  rewrite <- (Before_same _ Hvalid).
  destruct (IsZero (obs_ValidUntil (rec_Observation record)) || _); [by left|].
  destruct (rule_RequiresAck rule && rule_Acknowledged rule); [by left|].
  destruct (rule_BlockedByAtomicExecution rule); [by left|].
  destruct (negb (ineligibleReason rule _ =s EmptyString)); [by left|]. cbv zeta.
  set (c := derive record rule). set (shown := last_shown history (Candidate_ID c)).
  set (due := if rule_Policy rule =s PolicyRotation then _ else zero_time).
  set (current := Candidate_ID c =s CurrentID history).
  fold (hold_end c). set (cooled := Add shown (Cooldown c)).
  assert (Hmono : forall v, Before t v = true -> Before now v = true) by (intros v; unfold Before; lia).
  pose proof (Hmono (hold_end c)) as M1. pose proof (Hmono due) as M2. pose proof (Hmono cooled) as M3.
  destruct ((rule_Policy rule =s PolicyRotation) && negb (current && Before now (hold_end c)) && negb (IsZero due)
            && Before now due) eqn:Hdue; cbn [fst snd ev_Reason ev_NextDue ev_CooldownUntil].
  - intros _ Hdue'. specialize (Hdue' eq_refl). apply Before_same in Hdue'. left.
    rewrite !andb_true_iff, negb_true_iff in Hdue. destruct Hdue as [[[Hr Hh] Hz] Hb]. rewrite Hr, Hz, <- Hdue', Hb.
    destruct current, (Before t (hold_end c)), (Before now (hold_end c)); simpl in *; try done. by specialize (M1 eq_refl).
  - destruct (negb current && negb (IsZero shown) && Before now cooled) eqn:Hcool;
      cbn [fst snd ev_Reason ev_NextDue ev_CooldownUntil].
    + intros Hcool' _. apply Before_same in Hcool'. left. rewrite <- Hcool', Hcool. by destruct (_ && Before t due).
    + intros _ _. replace (negb current && negb (IsZero shown) && Before t cooled) with false.
      2: { symmetry. apply not_true_iff_false. intros H. rewrite !andb_true_iff in H. destruct H as [[H1 H2] H3].
           by rewrite H1, H2, (M3 H3) in Hcool. }
      destruct ((rule_Policy rule =s PolicyRotation) && _ && _ && Before t due) eqn:Hdue'; [right|by left].
      exists c. split; [done|]. split; [done|]. rewrite !andb_true_iff in Hdue'. destruct Hdue' as [[[Hr Hh] Hz] Hb].
      rewrite Hr, Hz, (M2 Hb) in Hdue. simpl in Hdue. rewrite !andb_true_r, negb_false_iff, andb_true_iff in Hdue.
      destruct Hdue as [Hcur Hhold]. rewrite Hcur in Hh. unfold current in Hcur. apply String.eqb_eq in Hcur.
      split; [done|].
      apply negb_true_iff, Before_false in Hh. apply Before_spec in Hhold. lia.
Qed.

(** *** The arbiter, later *)

Context (records : list ObservationRecord) (Hunique : NoDup (map Record_ID records)).
Context (Hrecords : forall record, record ∈ records ->
  (evaluate resolve history t record).2 = (evaluate resolve history now record).2 \/ hold_lapsed record).

Definition candidates_at (at_ : Time) : list Candidate := map snd (eligible_from 0 (map (evaluate resolve history at_) records)).

Lemma elem_of_candidates_at at_ c :
  c ∈ candidates_at at_ <-> exists record, record ∈ records /\ (evaluate resolve history at_ record).2 = Some c.
Proof.
  unfold candidates_at. rewrite elem_of_candidates. setoid_rewrite evaluate_Some. split.
  - intros (record & rule & Hr & Hc). eauto.
  - intros (record & Hr & rule & Hc). eauto.
Qed.

Lemma candidates_ready at_ :
  List.filter (competes history at_) (candidates_at at_) = candidates_at at_.
Proof.
  apply forallb_filter_id, forallb_forall. intros c Hc%list_elem_of_In.
  apply elem_of_candidates in Hc as (record & rule & _ & Hc). by eapply contender_competes.
Qed.

Lemma candidate_unique at1 at2 record1 record2 c1 c2 :
  record1 ∈ records -> record2 ∈ records -> (evaluate resolve history at1 record1).2 = Some c1 ->
  (evaluate resolve history at2 record2).2 = Some c2 -> Candidate_ID c1 = Candidate_ID c2 -> c1 = c2.
Proof.
  intros H1 H2 (rule1 & Hc1)%evaluate_Some (rule2 & Hc2)%evaluate_Some Hid.
  assert (record1 = record2) as <-.
  { apply (NoDup_map_inj Record_ID records); [done..|].
    rewrite (cont_candidate _ _ _ _ _ _ Hc1), (cont_candidate _ _ _ _ _ _ Hc2), !derive_ID in Hid. done. }
  destruct Hc1, Hc2. congruence.
Qed.

Lemma candidates_shrink c : c ∈ candidates_at t -> c ∈ candidates_at now.
Proof.
  rewrite !elem_of_candidates_at. intros (record & Hr & Hc). exists record. split; [done|].
  destruct (Hrecords record Hr) as [<-|(c' & _ & H & _)]; [done|]. congruence.
Qed.

Lemma candidates_kept c :
  c ∈ candidates_at now -> c ∈ candidates_at t \/ (Candidate_ID c = CurrentID history /\ instant now < instant (hold_end c) <= instant t).
Proof.
  rewrite !elem_of_candidates_at. intros (record & Hr & Hc).
  destruct (Hrecords record Hr) as [Heq|(c' & H & _ & Hid & Hhold)]; [left; exists record; by rewrite Heq|].
  right. assert (c' = c) as -> by congruence. done.
Qed.

Lemma same_candidate c1 c2 : c1 ∈ candidates_at now -> c2 ∈ candidates_at now -> Candidate_ID c1 = Candidate_ID c2 -> c1 = c2.
Proof.
  rewrite !elem_of_candidates_at. intros (r1 & H1 & E1) (r2 & H2 & E2).
  exact (candidate_unique now now r1 r2 c1 c2 H1 H2 E1 E2).
Qed.

Lemma findEligible_at at_ c :
  (forall d, d ∈ candidates_at at_ -> d ∈ candidates_at now) -> c ∈ candidates_at at_ -> Candidate_ID c = CurrentID history ->
  findEligible (candidates_at at_) (CurrentID history) at_ = Some c.
Proof.
  intros Hsub Hc Hid. assert (He : Eligible c at_ = true).
  { apply elem_of_candidates in Hc as (record & rule & _ & Hcont). apply contender_competes in Hcont.
    unfold competes in Hcont. by apply andb_true_iff in Hcont as [? _]. }
  destruct (findEligible _ _ _) as [d|] eqn:E.
  - apply findEligible_Some in E as (Hd & Hid' & _). f_equal. apply same_candidate; [by apply Hsub..|congruence].
  - by rewrite (findEligible_None _ _ _ E c Hc Hid) in He.
Qed.

Lemma Select_later :
  (forall w, ad_Candidate (AttentionSelector.Select records resolve history now) = Some w ->
     Candidate_ID w = CurrentID history -> not_passed (hold_end w)) ->
  ad_Candidate (AttentionSelector.Select records resolve history t) = ad_Candidate (AttentionSelector.Select records resolve history now).
Proof.
  unfold AttentionSelector.Select. rewrite !SelectWith_Candidate. fold (candidates_at now) (candidates_at t). intros Hhold.
  pose proof (Select_cases (candidates_at now) history now) as Hn. pose proof (Select_cases (candidates_at t) history t) as Ht.
  cbv zeta in Hn, Ht. rewrite !candidates_ready in Hn, Ht.
  destruct (decided (Presentation.Select (candidates_at now) history now)) as [w|].
  2: { destruct (decided _) as [w'|]; [|done]. destruct Ht as (h & Hh & _). apply candidates_shrink in Hh.
       rewrite Hn in Hh. by apply not_elem_of_nil in Hh. }
  specialize (Hhold w eq_refl). destruct Hn as (h & Hh & Hbest & Hw & Hcur & Hint).
  assert (Hwn : w ∈ candidates_at now).
  { destruct Hw as [->|(Hf & _)]; [done|]. by apply findEligible_Some in Hf as (? & _). }
  assert (Hwt : w ∈ candidates_at t).
  { destruct (candidates_kept w Hwn) as [?|[Hid Hl]]; [done|]. specialize (Hhold Hid). unfold not_passed in Hhold. lia. }
  destruct (decided _) as [w'|]; [|rewrite Ht in Hwt; by apply not_elem_of_nil in Hwt].
  destruct Ht as (h' & Hh' & Hbest' & Hw' & Hcur' & Hint'). f_equal.
  destruct Hw as [->|(Hf & Hb & Hm)].
  - assert (h' = h) as ->.
    { apply same_candidate; [by apply candidates_shrink|done|]. apply better_total; [apply Hbest; by apply candidates_shrink|by apply Hbest']. }
    destruct Hw' as [->|(Hf' & Hb' & Hm')]; [done|]. apply findEligible_Some in Hf' as (Hin' & Hid' & _).
    symmetry. apply (Hcur w'); [|by unfold Before in *; lia|done].
    apply findEligible_at; [done|by apply candidates_shrink|done].
  - apply findEligible_Some in Hf as (_ & Hid & _). apply (Hcur' w).
    + apply findEligible_at; [apply candidates_shrink|done..].
    + fold (hold_end w) in *. rewrite <- (Before_same _ (Hhold Hid)). done.
    + apply not_true_iff_false. intros Hm'. apply not_true_iff_false in Hm. apply Hm.
      apply (mayInterrupt_mono h h'); [|done]. apply Hbest. by apply candidates_shrink.
Qed.
End Later.

(** ** [NextDeadline] *)

Lemma evaluate_candidate_cooldown resolve history now record c :
  (evaluate resolve history now record).2 = Some c ->
  ev_CooldownUntil (evaluate resolve history now record).1 = zero_time
  /\ ev_Reason (evaluate resolve history now record).1 = EmptyString.
Proof. unfold evaluate. destruct (resolve record) as [rule present]. cbv zeta. by repeat case_if. Qed.

Section NextDeadline.
Context {W : Type} (calls : EngineCalls W).
Notation EngineState := (EngineState W).

Definition snapshot_of (s : EngineState) : list ObservationRecord := (store_snapshot calls s.2).1.1.

Lemma NextDeadline_eq now s :
  let s' := (NextDeadline calls now s).2 in
  let records := snapshot_of s in
  let gate := presentationCooldownActive now s'.1 in
  en_retained s'.1 = (pruneState records now (en_retained s.1)).2
  /\ gate.2 = s'.1
  /\ (NextDeadline calls now s).1
     = fold_left (consider now) (deadlines records
         (AttentionSelector.Select records (resolveRecord s'.1 (ec_resolve calls s'.2)) (history s'.1) now) gate.1 s'.1) zero_time.
Proof.
  unfold NextDeadline. rewrite Snapshot_state_eq. fold (snapshot_of s).
  set (records := snapshot_of s). unfold prune. cbn [fst snd].
  destruct (pruneState records now (en_retained s.1)) as [changed r].
  set (s2 := if changed then _ else _).
  assert (H2 : en_retained s2.1 = r).
  { unfold s2. destruct changed; [|done]. unfold persistState. destruct (ec_Save calls) as [f|]; [|done].
    by destruct (f _ _) as [[o e] w]. }
  clearbody s2. pose proof (gate_idempotent now s2.1) as Hg. assert (Hr : en_retained (presentationCooldownActive now s2.1).2 = r).
  { rewrite <- H2. unfold presentationCooldownActive. by repeat case_if. }
  destruct (presentationCooldownActive now s2.1) as [cooldown e]. cbn [fst snd] in *.
  rewrite Hg. done.
Qed.

(** What is waited for has not passed while the deadline has not. *)
Lemma deadlines_not_passed now t values :
  0 <= instant now -> instant (fold_left (consider now) values zero_time) = 0 \/ instant t < instant (fold_left (consider now) values zero_time) ->
  forall v, v ∈ values -> not_passed now t v.
Proof.
  intros Hnow Hnext v Hv Hgt. destruct (fold_consider now values zero_time ltac:(by left)) as (_ & _ & H).
  destruct (H v Hv) as [Hz Hle]; [split; lia|]. lia.
Qed.

(** The evaluations that are waited for. *)
Lemma evaluations_not_passed records resolve history now t :
  0 <= instant now ->
  (forall v, v ∈ concat (map (fun evaluation => ev_CooldownUntil evaluation
       :: (if ev_Reason evaluation =s ReasonNotDue then [ev_NextDue evaluation] else []))
     (ad_Evaluations (AttentionSelector.Select records resolve history now))) -> not_passed now t v) ->
  forall record, record ∈ records ->
  not_passed now t (ev_CooldownUntil (evaluate resolve history now record).1)
  /\ (ev_Reason (evaluate resolve history now record).1 = ReasonNotDue ->
      not_passed now t (ev_NextDue (evaluate resolve history now record).1)).
Proof.
  intros Hnow Hall record [i Hi]%list_elem_of_lookup.
  pose proof (SelectWith_lookup Presentation.Select records resolve history now i record Hi) as H.
  destruct (evaluate resolve history now record) as [ev [c|]] eqn:E; cbn [fst].
  - destruct (evaluate_candidate_cooldown resolve history now record c) as [Hc Hr]; [by rewrite E|].
    rewrite E in Hc, Hr. cbn [fst] in *. rewrite Hc, Hr. split; [|done]. unfold not_passed. simpl. lia.
  - apply list_elem_of_lookup_2 in H. fold (AttentionSelector.Select records resolve history now) in H.
    assert (Hin : forall v, v ∈ ev_CooldownUntil ev :: (if ev_Reason ev =s ReasonNotDue then [ev_NextDue ev] else []) -> not_passed now t v).
    { intros v Hv. apply Hall, list_elem_of_In, in_concat. eexists. split; [|by apply list_elem_of_In].
      apply in_map_iff. exists ev. split; [done|]. by apply list_elem_of_In. }
    split; [apply Hin; by left|]. intros Hr. apply Hin. right. rewrite Hr. by left.
Qed.

Lemma snapshot_IDs_unique s : WellFormed (wd_store s.2) -> NoDup (map Record_ID (snapshot_of s)).
Proof.
  intros Hwf. unfold snapshot_of. rewrite store_snapshot_eq. cbn [fst].
  apply NoDup_fmap_2_strong; [|by apply NoDup_snapshot]. intros r q Hr Hq Hid.
  apply elem_of_snapshot in Hr; [|done]. apply elem_of_snapshot in Hq; [|done].
  unfold Record_ID in Hid. apply Identity_String_inj in Hid. rewrite Hid in Hr. congruence.
Qed.

(** An entry that is fresh now and whose age limit is waited for is fresh later. *)
Lemma too_old_later now t ttl at_ :
  0 <= instant now -> too_old now ttl at_ = false -> (0 < ttl -> not_passed now t (Add at_ ttl)) -> too_old t ttl at_ = false.
Proof.
  unfold too_old, not_passed, After. intros Hnow H Hnp. apply orb_false_iff in H as [Httl H].
  rewrite Httl. simpl. apply negb_false_iff, Z.ltb_lt in H. apply negb_false_iff, Z.ltb_lt. apply Hnp; [lia|done].
Qed.

(** [NextDeadline] is sound: the engine may sleep until it. The deadline lies in the
    future; and if at a time [t] before it no observation has changed, then the attention
    selection is the one of now, pruning forgets nothing and the cooldown gate stands as
    it stands now. *)
Theorem NextDeadline_sound now t s :
  WellFormed (wd_store s.2) -> 0 <= instant now -> instant now <= instant t ->
  let next := (NextDeadline calls now s).1 in
  let s' := (NextDeadline calls now s).2 in
  let records := snapshot_of s in
  let resolve := resolveRecord s'.1 (ec_resolve calls s'.2) in
  (instant next = 0 \/ instant now < instant next)
  /\ (instant next = 0 \/ instant t < instant next ->
      ad_Candidate (AttentionSelector.Select records resolve (history s'.1) t)
        = ad_Candidate (AttentionSelector.Select records resolve (history s'.1) now)
      /\ pruneState records t (en_retained s'.1) = (false, en_retained s'.1)
      /\ presentationCooldownActive t s'.1 = presentationCooldownActive now s'.1).
Proof.
  intros Hwf Hnow Hle. destruct (NextDeadline_eq now s) as (Hret & Hgate & Hnext). cbv zeta.
  fold (snapshot_of s) in *. set (records := snapshot_of s) in *. set (s' := (NextDeadline calls now s).2) in *.
  set (resolve := resolveRecord s'.1 (ec_resolve calls s'.2)) in *. set (decision := AttentionSelector.Select _ _ _ now) in *.
  set (gate := presentationCooldownActive now s'.1) in *. rewrite Hnext.
  split; [destruct (fold_consider now (deadlines records decision gate.1 s'.1) zero_time ltac:(by left)) as [[H|[_ H]] _]; auto|].
  intros Hbefore. pose proof (deadlines_not_passed now t _ Hnow Hbefore) as Hnp. clear Hnext Hbefore. unfold deadlines in Hnp.
  setoid_rewrite elem_of_app in Hnp. setoid_rewrite elem_of_app in Hnp. setoid_rewrite elem_of_app in Hnp.
  setoid_rewrite elem_of_app in Hnp. split; [|split].
  - assert (Heval : forall record, record ∈ records ->
      (evaluate resolve (history s'.1) t record).2 = (evaluate resolve (history s'.1) now record).2
      \/ hold_lapsed resolve (history s'.1) now t record).
    { intros record Hin. destruct (evaluations_not_passed records resolve (history s'.1) now t Hnow) with (record := record)
        as [Hcool Hdue]; [intros v Hv; apply Hnp; tauto|done|]. apply evaluate_later; try done.
      apply Hnp. left. apply list_elem_of_fmap. by exists record. }
    apply Select_later; try done; [by apply snapshot_IDs_unique|]. intros w Hw Hid. apply Hnp. do 4 right.
    fold decision in Hw. rewrite Hw. change (CurrentID (history s'.1)) with (en_currentID s'.1) in Hid.
    rewrite Hid, String.eqb_refl. by left.
  - destruct (pruneState_fresh records now (en_retained s.1)) as (Hs & Ha & _ & Hst & Hcap & Httl & Hsize).
    rewrite <- Hret in Hs, Ha, Hst, Hcap, Httl, Hsize. apply pruneState_idle.
    + intros id at_ Hat. eapply too_old_later; [done| |].
      * pose proof (lookup_weaken _ _ _ _ Hat Hs) as [_ Hold]%map_lookup_filter_Some. rewrite Httl. exact Hold.
      * intros Hpos. apply Hnp. right. left. rewrite (proj2 (Z.ltb_lt _ _) Hpos). apply elem_of_app. left.
        apply list_elem_of_fmap. exists (id, at_). split; [done|by apply elem_of_map_to_list].
    + intros id x Hx. pose proof (lookup_weaken _ _ _ _ Hx Ha) as [[_ Hold]%map_lookup_filter_Some Hsup]%map_lookup_filter_Some.
      split; [|exact Hsup]. eapply too_old_later; [done|rewrite Httl; exact Hold|].
      intros Hpos. apply Hnp. right. left. rewrite (proj2 (Z.ltb_lt _ _) Hpos). apply elem_of_app. right.
      apply list_elem_of_fmap. exists (id, x). split; [done|by apply elem_of_map_to_list].
    + exact Hst.
    + by rewrite Hcap.
  - assert (Hgate' : gate = presentationCooldownActive now s'.1) by done. unfold presentationCooldownActive in Hgate' |- *.
    destruct (IsZero (en_cooldownUntil s'.1)) eqn:Hz; [done|].
    destruct (Before now (en_cooldownUntil s'.1)) eqn:Hb.
    + rewrite Hgate' in Hnp. cbn [fst] in Hnp. rewrite <- (Before_same now t Hle), Hb; [done|]. apply Hnp. do 2 right. left. by left.
    + exfalso. rewrite Hgate' in Hgate. cbn [snd] in Hgate. rewrite <- Hgate in Hz. done.
Qed.
End NextDeadline.

(** ** Instances *)

Lemma NextDeadline_sound_witness :
  let s' := (NextDeadline demo_calls demo_now demo_start).2 in
  let resolve := resolveRecord s'.1 demo_resolver in
  ad_Candidate (AttentionSelector.Select (snapshot_of demo_calls demo_start) resolve (history s'.1) (mkTime 8000 0))
  = ad_Candidate (AttentionSelector.Select (snapshot_of demo_calls demo_start) resolve (history s'.1) demo_now).
Proof.
  destruct (NextDeadline_sound demo_calls demo_now (mkTime 8000 0) demo_start) as [_ H].
  - apply run_WellFormed.
  - vm_compute. discriminate.
  - vm_compute. discriminate.
  - destruct H as [H _]; [right; vm_compute; reflexivity|exact H].
Defined.
