(* ===== verification/EngineMemory.v ===== *)
(** * What the engine is told to remember and to forget

    [Acknowledge], [RemoveInstance] and [DismissForBack] of [src/internal/daemon/engine.go]:
    an acknowledgement that succeeds is durable and silences the observation, a removed
    instance leaves nothing behind, and a dismissed revision does not come back. *)

From Stdlib Require Import ZArith Lia ZifyBool Sorted.
From S2P Require Import Prelude GoStrings GoTime Identifier Protocol Presentation ObservationStore.
From S2P Require Import AttentionSelector LocalState AttentionState AttentionRetention Engine EngineClaims.

(** ** Acknowledgement *)

Definition acknowledgement (record : ObservationRecord) (now : Time) : ackState :=
  mkAckState (record_identity record (rec_Generation record)) (rec_Generation record)
    (obs_ObservedAt (rec_Observation record)) now.

(** A record whose acknowledgement is remembered does not compete. *)
Lemma acknowledged_silent e resolve history t record rule now :
  rt_acknowledged (en_retained e) !! Record_ID record = Some (acknowledgement record now) ->
  resolve record = (rule, true) -> rule_RequiresAck rule = true ->
  forall rule' c, ~ Contender (resolveRecord e resolve) history t record rule' c.
Proof.
  intros Hack Hr Hreq rule' c Hc. pose proof (cont_resolves _ _ _ _ _ _ Hc) as Hres.
  pose proof (cont_unacknowledged _ _ _ _ _ _ Hc) as Hun. unfold resolveRecord in Hres. rewrite Hr, Hack in Hres.
  cbn [negb as_generation as_observedAt acknowledgement] in Hres. rewrite !Z.eqb_refl in Hres. injection Hres as <-.
  simpl in Hun. by rewrite Hreq in Hun.
Qed.

(** What is proposed keeps the new acknowledgement unless entries that rank above it fill
    the capacity. *)
Lemma propose_spec record records now r :
  0 < rt_capacity r -> record ∈ records ->
  let live := live_records records in
  let r' := propose record records now r in
  let kept := combined_victims live (rt_lastShown r') (rt_acknowledged r') in
  rt_acknowledged r' !! Record_ID record = Some (acknowledgement record now)
  \/ (Z.of_nat (length kept) = rt_capacity r
      /\ forall v, v ∈ kept -> cv_isLive v = true /\ instant now <= instant (cv_at v)).
Proof.
  intros Hc Hin live r' kept. set (acks := <[Record_ID record := acknowledgement record now]> (rt_acknowledged r)).
  pose proof (boundProposed_spec live (rt_capacity r) acks (rt_lastShown r) (rt_lastShownState r) Hc) as Hb. cbv zeta in Hb.
  assert (Hr' : rt_acknowledged r' = remove_acks (take (Z.to_nat (map_size (rt_lastShown r) + map_size acks - rt_capacity r))
      (combined_victims live (rt_lastShown r) acks)) acks
    /\ rt_lastShown r' = remove_shown (take (Z.to_nat (map_size (rt_lastShown r) + map_size acks - rt_capacity r))
      (combined_victims live (rt_lastShown r) acks)) (rt_lastShown r)).
  { unfold r', propose. fold live. fold (acknowledgement record now). fold acks.
    destruct (boundProposedAcknowledgements _ _ _ _ _) as [[[a b] d] [x y]]. injection Hb as -> -> _. done. }
  destruct Hr' as [Ha Hs]. assert (Hkept : kept = newest (rt_capacity r) (combined_victims live (rt_lastShown r) acks)).
  { unfold kept. rewrite Ha, Hs. by apply newest_remove. }
  set (v := mkCombinedVictim (Record_ID record) now true (is_live live (Record_ID record))).
  assert (Hv : v ∈ combined_victims live (rt_lastShown r) acks).
  { apply elem_of_combined. split; [done|]. simpl. exists (acknowledgement record now). split; [apply lookup_insert_eq|done]. }
  assert (Hlive : cv_isLive v = true).
  { unfold v, is_live, live. cbn [cv_isLive]. by destruct (live_records_in records record Hin) as [q ->]. }
  destruct (decide (v ∈ kept)) as [Hk|Hk].
  - left. apply elem_of_combined in Hk as [_ Hk]. simpl in Hk. destruct Hk as (state & Hstate & Ht). rewrite Hstate.
    rewrite Ha in Hstate. apply lookup_remove_acks in Hstate as [Hstate _]. unfold acks in Hstate.
    rewrite lookup_insert_eq in Hstate. congruence.
  - right. split.
    + rewrite Hkept. unfold newest. rewrite length_drop. rewrite Hkept in Hk. unfold newest in Hk.
      destruct (decide (length (combined_victims live (rt_lastShown r) acks) <= Z.to_nat (rt_capacity r))%nat); [|lia].
      replace (_ - _)%nat with 0%nat in Hk by lia. done.
    + intros w Hw. rewrite Hkept in Hk, Hw. pose proof (newest_outranks _ _ _ _ _ _ Hv Hk Hw) as Hrank.
      revert Hrank. order_cases. rewrite Hlive. destruct (cv_isLive w); simpl; [|lia].
      change (cv_at v) with now. intros Hrank. split; [done|]. revert Hrank. repeat case_if; lia.
Qed.

Section Acknowledge.
Context {W : Type} (calls : EngineCalls W) (log : W -> list engine_call) `{!LoggedEngine calls log}.
Notation EngineState := (EngineState W).
Notation records_of s := (store_snapshot calls s.2).1.1.
Notation resolver_of s := (ec_resolve calls (store_snapshot calls s.2).2).

(** C38: an acknowledgement is durable before it takes effect. When [Acknowledge] succeeds,
    the observation exists and its rule asks for acknowledgement, the state store has
    confirmed the commit of exactly what the engine now remembers, and the observation no
    longer competes for the display, whatever the time and the history; only newer live
    entries that fill the capacity could displace the entry. When it fails, nothing new is
    remembered. *)
Theorem Acknowledge_durable id s :
  is_Some (ec_Save calls) -> 0 < rt_capacity (en_retained s.1) ->
  let s' := (Acknowledge calls id s).2 in
  match (Acknowledge calls id s).1 with
  | Some _ =>
    rt_acknowledged (en_retained s'.1) ⊆ rt_acknowledged (en_retained s.1)
    /\ rt_lastShown (en_retained s'.1) ⊆ rt_lastShown (en_retained s.1)
  | None =>
    exists record rule, record ∈ records_of s /\ Record_ID record = id
      /\ resolver_of s record = (rule, true) /\ rule_RequiresAck rule = true
      /\ log_of log s' = log_of log s
           ++ [KSave (stateDocument (resolver_of s) (records_of s) (en_retained s'.1)) Committed None]
      /\ ((forall history t rule' c, ~ Contender (resolveRecord s'.1 (resolver_of s)) history t record rule' c)
          \/ let now := UTC (ec_now calls (store_snapshot calls s.2).2) in
             let kept := combined_victims (live_records (records_of s)) (rt_lastShown (en_retained s'.1))
                           (rt_acknowledged (en_retained s'.1)) in
             Z.of_nat (length kept) = rt_capacity (en_retained s.1)
             /\ forall v, v ∈ kept -> cv_isLive v = true /\ instant now <= instant (cv_at v))
  end.
Proof.
  intros [save Hsave] Hc. unfold Acknowledge. rewrite Snapshot_state_eq. set (w0 := (store_snapshot calls s.2).2).
  set (records := records_of s). destruct (find_record id records) as [record|] eqn:Hf; [|done].
  apply find_record_spec in Hf as [Hin Hid]. cbn [fst snd]. destruct (ec_resolve calls w0 record) as [rule ok] eqn:Hr.
  destruct (negb ok || negb (rule_RequiresAck rule)) eqn:Hreq; [done|]. cbv zeta. set (now := UTC (ec_now calls w0)).
  apply orb_false_iff in Hreq as [Hok%negb_false_iff Hreq%negb_false_iff]. subst ok.
  unfold prune. cbn [fst snd]. destruct (pruneState_fresh records now (en_retained s.1)) as (_ & _ & _ & _ & Hcap & _).
  destruct (pruneState_sub records now (en_retained s.1)) as (Hs1 & _ & Ha1).
  destruct (pruneState records now (en_retained s.1)) as [changed r]. cbn [fst snd en_retained set_retained] in *.
  rewrite Hsave. set (document := stateDocument (ec_resolve calls w0) records (propose record records now r)).
  destruct (lg_Save save document w0 Hsave) as [Hl _].
  destruct (save document w0) as [[outcome err] w] eqn:Es. cbn [fst snd] in Hl. fold document.
  destruct err as [err|]; cbn [fst snd]; [done|].
  destruct (String.eqb_spec outcome Committed) as [->|Hne]; cbn [negb fst snd errors_New]; [|done].
  exists record, rule. do 4 (split; [done|]). split.
  { unfold log_of. cbn [snd Wake signalLocalChange on_store set_store wd_rest]. rewrite Hl. f_equal. }
  destruct (propose_spec record records now r) as [Hack|Hfull]; [by rewrite Hcap|done| |].
  - left. intros h t rule' c. by eapply acknowledged_silent.
  - right. by rewrite <- Hcap.
Qed.
End Acknowledge.

(** ** Removal of an instance *)

Lemma PathEscape_inj s t : PathEscape s = PathEscape t -> s = t.
Proof. intros H. by rewrite <- (PathUnescape_PathEscape s), H, PathUnescape_PathEscape. Qed.

(** The prefix of an instance selects exactly its own identities. *)
Lemma instance_prefix pluginID instanceID i :
  HasPrefix (Identity_String i) (String.append (Encode [pluginID; instanceID]).1 "/") = true
  <-> id_PluginID i = pluginID /\ id_InstanceID i = instanceID.
Proof.
  rewrite HasPrefix_app. unfold Encode. cbn [fst map join_strings]. split.
  - intros [rest Heq]. destruct i as [p n c k]. unfold Identity_String, Encode in Heq. cbn [fst map id_PluginID id_InstanceID id_Channel id_Key] in *.
    apply (f_equal (split_byte "/")) in Heq. rewrite split_join in Heq.
    + assert (Hprefix : String.append (PathEscape pluginID +:+ "/" +:+ PathEscape instanceID) "/" +:+ rest
        = PathEscape pluginID +:+ String "/" (PathEscape instanceID +:+ String "/" rest)) by by rewrite !append_assoc.
      rewrite Hprefix in Heq.
      rewrite split_byte_app in Heq by apply PathEscape_no_slash.
      rewrite split_byte_app in Heq by apply PathEscape_no_slash. injection Heq as Hp Hn _.
      split; by apply PathEscape_inj.
    + done.
    + repeat constructor; apply PathEscape_no_slash.
  - intros [<- <-]. exists (join_strings "/" (map PathEscape [id_Channel i; id_Key i])).
    unfold Identity_String, Encode. cbn [fst map join_strings]. by rewrite !append_assoc.
Qed.

Section RemoveInstance.
Context {W : Type} (calls : EngineCalls W).
Notation EngineState := (EngineState W).

Lemma persist_engine records (s : EngineState) : (persistState calls records s).2.1 = s.1.
Proof. unfold persistState. destruct (ec_Save calls) as [f|]; [|done]. by destruct (f _ _) as [[o e] w]. Qed.

(** Removing an instance forgets exactly what the engine remembers of it: every
    last-shown time but one known to be of a later generation, and every acknowledgement
    up to the generation that is removed. Nothing of another instance is touched, whatever
    characters the identifiers contain. *)
Theorem RemoveInstance_exact pluginID instanceID through s i :
  let r := en_retained s.1 in
  let r' := en_retained (RemoveInstance calls pluginID instanceID through s).1 in
  let removed := id_PluginID i = pluginID /\ id_InstanceID i = instanceID in
  (forall t, rt_lastShown r' !! Identity_String i = Some t <->
     rt_lastShown r !! Identity_String i = Some t
     /\ (removed -> exists m, rt_lastShownState r !! Identity_String i = Some m /\ through < si_Generation (lm_identity m)))
  /\ (forall a, rt_acknowledged r' !! Identity_String i = Some a <->
     rt_acknowledged r !! Identity_String i = Some a /\ (removed -> through < as_generation a))
  /\ (forall m, rt_lastShownState r' !! Identity_String i = Some m ->
     rt_lastShownState r !! Identity_String i = Some m).
Proof.
  cbv zeta. set (r := en_retained s.1). unfold RemoveInstance. cbv zeta. rewrite Snapshot_state_eq, persist_engine.
  cbn [fst en_retained set_retained on_store]. fold r. unfold remove_instance. cbn [rt_lastShown rt_acknowledged rt_lastShownState].
  set (prefix := String.append (Encode [pluginID; instanceID]).1 "/").
  pose proof (instance_prefix pluginID instanceID i) as Hp. fold prefix in Hp. split; [|split].
  - intros t. rewrite map_lookup_filter_Some. cbn [fst]. unfold removes_shown. rewrite andb_false_iff, negb_false_iff.
    rewrite <- not_true_iff_false, Hp. destruct (rt_lastShownState r !! Identity_String i) as [m|].
    + rewrite Z.ltb_lt. split; intros [Ht H]; (split; [done|]).
      * intros Hr. destruct H as [H|H]; [done|by exists m].
      * destruct (decide (id_PluginID i = pluginID /\ id_InstanceID i = instanceID)) as [Hr|Hr]; [right|by left].
        destruct (H Hr) as (m' & [= <-] & Hm). done.
    + split; intros [Ht H]; (split; [done|]).
      * intros Hr. by destruct H as [H|H].
      * left. intros Hr. by destruct (H Hr) as (m & ? & _).
  - intros a. rewrite map_lookup_filter_Some. cbn [fst snd]. rewrite andb_false_iff, Z.leb_gt.
    rewrite <- (not_true_iff_false (HasPrefix _ _)), Hp. split; intros [Ha H]; (split; [done|]).
    + intros Hr. by destruct H as [H|H].
    + destruct (decide (id_PluginID i = pluginID /\ id_InstanceID i = instanceID)) as [Hr|Hr]; [left; by apply H|by right].
  - intros m [Hm _]%map_lookup_filter_Some. done.
Qed.
End RemoveInstance.

(** ** Dismissal by Back *)

(** A revision is excluded, or reserved so that it can be. *)
Definition held_for_back (p : BackPresentation) (s : Store) : Prop :=
  exists st, store_watermarks s !! mkExclusionKey (bp_identity p) (bp_generation p) = Some st
    /\ (es_reserved st = bp_revision p \/ bp_revision p <= es_through st).

(** What undoes a reservation: the removal of the instance, the release of this very
    reservation, and a reservation of another revision. *)
Definition undoes (p : BackPresentation) (op : StoreOp) : Prop :=
  match op with
  | OpWithdrawInstance _ _ _ => forgets (bp_identity p) (bp_generation p) op
  | OpRelease id g r => id = bp_identity p /\ g = bp_generation p /\ r = bp_revision p
  | OpReserve id g r => id = bp_identity p /\ g = bp_generation p /\ r <> bp_revision p
  | _ => False
  end.

Lemma held_same_watermarks p s s' : store_watermarks s' = store_watermarks s -> held_for_back p s -> held_for_back p s'.
Proof. unfold held_for_back. by intros ->. Qed.

Lemma held_exclude p id g r s : 0 < bp_revision p -> held_for_back p s -> held_for_back p (excludeThroughLocked id g r s).
Proof.
  intros Hpos (st & Hst & Hor). unfold held_for_back, excludeThroughLocked. simpl.
  destruct (decide (mkExclusionKey id g = mkExclusionKey (bp_identity p) (bp_generation p))) as [E|Hne].
  - rewrite E, lookup_insert_eq, Hst. eexists. split; [done|]. simpl.
    destruct (Z.ltb_spec (es_through st) r), (Z.eqb_spec (es_reserved st) r); lia.
  - rewrite lookup_insert_ne by done. by exists st.
Qed.

(** The reservation survives everything else that happens to the store. *)
Lemma apply_op_held p op s :
  0 < bp_revision p -> ~ undoes p op -> held_for_back p s -> held_for_back p (apply_op s op).
Proof.
  intros Hpos Hun Hheld. destruct op; simpl; try done.
  - apply (held_same_watermarks _ s); [|done].
    destruct (Publish_cases generation source value now s) as [[err ->]|(_ & _ & _ & _ & ->)]; [done|].
    apply watermarks_admit.
  - unfold Withdraw. by destruct (_ !! _).
  - destruct Hheld as (st & Hst & Hor). exists st. split; [|done]. unfold WithdrawInstance. cbv zeta.
    rewrite watermarks_notify_if, watermarks_bump_if. simpl. apply map_lookup_filter_Some. split; [done|]. simpl.
    apply not_true_iff_false. intros Ht. apply Hun. errs. destruct Ht as [[? ?] ?]. done.
  - unfold WithdrawGeneration. eapply held_same_watermarks; [|done]. by autorewrite with store.
  - eapply held_same_watermarks; [|done]. by autorewrite with store.
  - unfold ExcludeRevisionWithoutSignal. case_if; [done|]. by apply held_exclude.
  - unfold ReserveExactRevisionWithoutSignal. case_if; [done|]. destruct Hheld as (st & Hst & Hor). unfold held_for_back. simpl.
    destruct (decide (mkExclusionKey id generation = mkExclusionKey (bp_identity p) (bp_generation p))) as [E|Hne].
    + rewrite E, lookup_insert_eq, Hst. eexists. split; [done|]. simpl. injection E as -> ->.
      destruct (Z.eq_dec revision (bp_revision p)) as [->|Hr]; [by left|]. exfalso. by apply Hun.
    + rewrite lookup_insert_ne by done. by exists st.
  - unfold ReleaseExactRevisionReservationWithoutSignal.
    destruct (store_watermarks s !! mkExclusionKey id generation) as [st0|] eqn:Hst0; [|done].
    destruct Hheld as (st & Hst & Hor).
    destruct (decide (mkExclusionKey id generation = mkExclusionKey (bp_identity p) (bp_generation p))) as [E|Hne].
    + rewrite E in *. assert (st0 = st) as -> by congruence. injection E as -> ->.
      destruct (Z.eqb_spec (es_reserved st) revision) as [Hr|Hr]; cbn [negb]; [|by exists st].
      destruct (Z.eqb_spec (es_through st) 0) as [Hz|Hz].
      * exfalso. apply Hun. split_and!; [done..|]. lia.
      * eexists. simpl. rewrite lookup_insert_eq. split; [done|]. simpl. right.
        destruct Hor as [Hor|Hor]; [|done]. exfalso. apply Hun. split_and!; [done..|]. lia.
    + exists st. repeat case_if; simpl; rewrite ?lookup_insert_ne, ?lookup_delete_ne by done; done.
  - unfold ExcludeExactRevisionWithoutSignal. repeat (case_if; [done|]). by apply held_exclude.
  - eapply held_same_watermarks; [|done]. by autorewrite with store.
Qed.

Lemma held_run p ops s :
  0 < bp_revision p -> Forall (fun op => ~ undoes p op) ops -> held_for_back p s -> held_for_back p (run ops s).
Proof.
  intros Hpos Hops. revert s. induction Hops as [|op ops Hop _ IH]; intros s Hs; [done|].
  simpl. apply IH. by apply apply_op_held.
Qed.

Lemma reserve_held p s :
  matches_revision (store_records s !! bp_identity p) (bp_generation p) (bp_revision p) = true ->
  held_for_back p (ReserveExactRevisionWithoutSignal (bp_identity p) (bp_generation p) (bp_revision p) s).2.
Proof.
  intros Hm. unfold ReserveExactRevisionWithoutSignal. rewrite Hm. simpl. unfold held_for_back. simpl.
  rewrite lookup_insert_eq. eexists. split; [done|]. by left.
Qed.

(** The identity, generation and revision [ExcludeExactRevisionWithoutSignal] accepts. *)
Definition complete (p : BackPresentation) : Prop :=
  id_PluginID (bp_identity p) <> EmptyString /\ id_InstanceID (bp_identity p) <> EmptyString
  /\ id_Channel (bp_identity p) <> EmptyString /\ id_Key (bp_identity p) <> EmptyString
  /\ bp_generation p <> 0 /\ 0 < bp_revision p.

Definition still_current (lookup : option Generation) (p : BackPresentation) : Prop :=
  match lookup with
  | None => True
  | Some g => g (id_PluginID (bp_identity p)) (id_InstanceID (bp_identity p)) = Some (bp_generation p)
  end.

Lemma exclude_held lookup p s :
  complete p -> still_current lookup p -> held_for_back p s ->
  excluded_through (bp_identity p) (bp_generation p) (bp_revision p)
    (ExcludeExactRevisionWithoutSignal lookup (bp_identity p) (bp_generation p) (bp_revision p) s).2.
Proof.
  intros (H1 & H2 & H3 & H4 & H5 & H6) Hcur (st & Hst & Hor). unfold ExcludeExactRevisionWithoutSignal.
  rewrite (proj2 (String.eqb_neq _ _) H1), (proj2 (String.eqb_neq _ _) H2), (proj2 (String.eqb_neq _ _) H3),
    (proj2 (String.eqb_neq _ _) H4), (proj2 (Z.eqb_neq _ _) H5).
  destruct (Z.eqb_spec (bp_revision p) 0) as [?|_]; [lia|]. cbn [orb]. cbv zeta.
  assert (Hc : match lookup with
               | None => true
               | Some g => match g (id_PluginID (bp_identity p)) (id_InstanceID (bp_identity p)) with
                           | None => false | Some current => current =? bp_generation p end
               end = true).
  { unfold still_current in Hcur. destruct lookup as [g|]; [|done]. rewrite Hcur. apply Z.eqb_refl. }
  rewrite Hc, Hst. cbn [negb]. destruct (Z.eqb_spec (es_reserved st) (bp_revision p)) as [Hr|Hr]; cbn [negb andb snd].
  - apply excludeThrough_through.
  - destruct (negb _); cbn [snd]; [|apply excludeThrough_through]. exists st. split; [done|]. lia.
Qed.

(** Nothing the calls of the engine let happen forgets a dismissal. *)
Class KeepsExclusions {W} (calls : EngineCalls W) (p : BackPresentation) : Prop := {
  ke_Render c w : excluded_through (bp_identity p) (bp_generation p) (bp_revision p) (wd_store w) ->
    excluded_through (bp_identity p) (bp_generation p) (bp_revision p) (wd_store (ec_Render calls c w).2);
  ke_Release f w : ec_ReleaseCritical calls = Some f ->
    excluded_through (bp_identity p) (bp_generation p) (bp_revision p) (wd_store w) ->
    excluded_through (bp_identity p) (bp_generation p) (bp_revision p) (wd_store (f w));
  ke_Append f t w : ec_Append calls = Some f ->
    excluded_through (bp_identity p) (bp_generation p) (bp_revision p) (wd_store w) ->
    excluded_through (bp_identity p) (bp_generation p) (bp_revision p) (wd_store (f t w));
}.

Section Dismiss.
Context {W : Type} (calls : EngineCalls W) (log : W -> list engine_call) `{!LoggedEngine calls log}.
Notation EngineState := (EngineState W).
Notation store_of s := (wd_store s.2).
Notation hidden p s := (excluded_through (bp_identity p) (bp_generation p) (bp_revision p) s).

Lemma clear_display_hidden p `{!KeepsExclusions calls p} now decision (s : EngineState) :
  hidden p (store_of s) -> hidden p (store_of (clear_display calls now decision s).2).
Proof.
  intros Hs. assert (Hrec : forall d o (q : EngineState), hidden p (store_of q) -> hidden p (store_of (record calls now d o q))).
  { intros d o q Hq. unfold record. destruct (ec_Append calls) as [f|] eqn:E; [|done]. exact (ke_Append f _ q.2 E Hq). }
  unfold clear_display, render. pose proof (ke_Render None s.2 Hs) as Hr.
  destruct (ec_Render calls None s.2) as [[outcome err] w]. cbn [snd] in Hr.
  destruct (validateRenderResult None outcome err); cbn [snd]; [by apply Hrec|].
  destruct err; cbn [snd]; apply Hrec; [done|]. unfold clearRenderedSelection, releaseCritical. cbn [fst snd].
  destruct (negb _); [done|]. cbn [snd]. destruct (ec_ReleaseCritical calls) as [f|] eqn:E; [|done]. exact (ke_Release f _ E Hr).
Qed.

Lemma clear_display_cooldown now decision (s : EngineState) :
  cooldown_of (clear_display calls now decision s).2.1 = cooldown_of s.1.
Proof. exact (proj2 (clear_display_good calls log now decision s)). Qed.

(** A Back press the plugin does not consume dismisses what the press was about and
    nothing else. The revision on the display when the press was captured stays out of
    every later snapshot, even when newer revisions were published while the plugin was
    asked; until the cooldown ends the gate is up; and if another presentation has taken
    the display since, the engine calls nothing and keeps its claim. *)
Theorem Back_dismisses (s : EngineState) ops (s2 : EngineState) reason now' :
  let captured := (CaptureBackPresentation s).1 in
  complete captured -> BackPresentation_valid captured = true ->
  matches_revision (store_records (store_of s) !! bp_identity captured) (bp_generation captured) (bp_revision captured) = true ->
  Forall (fun op => ~ undoes captured op) ops ->
  store_of s2 = run ops (store_of (CaptureBackPresentation s).2) ->
  still_current (ec_generation calls s2.2) captured -> KeepsExclusions calls captured ->
  0 <= instant (ec_now calls s2.2) ->
  let s3 := (DismissForBack calls captured reason s2).2 in
  (WellFormed (store_of s3) -> forall record, record ∈ (Snapshot now' (store_of s3)).1 ->
     Record_Identity record = bp_identity captured -> rec_Generation record = bp_generation captured ->
     bp_revision captured < obs_Revision (rec_Observation record))
  /\ (forall t, instant t < instant (ec_now calls s2.2) + defaultPresentationCooldown ->
      presentationCooldownActive t s3.1 = (true, s3.1))
  /\ (owns captured s2.1 = false -> claim s3.1 = claim s2.1 /\ log_of log s3 = log_of log s2).
Proof.
  intros captured Hcomplete Hvalid Hmatch Hops Hrun Hcur Hke Hnow s3.
  assert (Hheld : held_for_back captured (store_of s2)).
  { rewrite Hrun. apply held_run; [apply Hcomplete|done|]. unfold CaptureBackPresentation, if_valid. cbv zeta. cbn [snd].
    fold captured. change (claim s.1) with captured. rewrite Hvalid. cbn [snd on_store set_store wd_store]. by apply reserve_held. }
  unfold s3, DismissForBack. cbv zeta. unfold if_valid. rewrite Hvalid. cbn [fst snd on_store].
  set (until := Add (UTC (ec_now calls s2.2)) defaultPresentationCooldown).
  set (store := (ExcludeExactRevisionWithoutSignal _ _ _ _ _).2).
  assert (Hhidden : hidden captured store) by by apply exclude_held.
  change (owns captured (set_cooldown until (presentationCooldownReason reason) (en_cooldownKept s2.1) s2.1)) with (owns captured s2.1).
  assert (Hsnap : forall st, hidden captured st -> WellFormed st -> forall record, record ∈ (Snapshot now' st).1 ->
     Record_Identity record = bp_identity captured -> rec_Generation record = bp_generation captured ->
     bp_revision captured < obs_Revision (rec_Observation record)).
  { intros st (wm & Hwm & Hle) Hwf record Hin Hid Hg. apply elem_of_Snapshot in Hin as (_ & _ & Hex); [|done].
    unfold excluded in Hex. rewrite Hid, Hg, Hwm in Hex. lia. }
  assert (Hgate : forall e, en_cooldownUntil e = until -> forall t, instant t < instant (ec_now calls s2.2) + defaultPresentationCooldown ->
    presentationCooldownActive t e = (true, e)).
  { intros e He t Ht. unfold presentationCooldownActive, IsZero, Before. rewrite He. unfold until. simpl.
    assert (defaultPresentationCooldown = 30000000000) as E by reflexivity. rewrite E in *.
    destruct (Z.eqb_spec (instant (ec_now calls s2.2) + 30000000000) 0); [lia|].
    by rewrite (proj2 (Z.ltb_lt _ _) Ht). }
  destruct (owns captured s2.1) eqn:Hown; cbn [negb].
  - set (q := (set_cooldown _ _ no_presentation _, _)).
    pose proof (clear_display_hidden captured (UTC (ec_now calls s2.2)) no_decision q Hhidden) as Hh.
    pose proof (clear_display_cooldown (UTC (ec_now calls s2.2)) no_decision q) as Hcool.
    destruct (clear_display calls _ no_decision q) as [err s4]. cbn [snd] in *. split; [by apply Hsnap|]. split; [|done].
    apply Hgate. by injection Hcool.
  - cbn [snd]. split; [by apply Hsnap|]. split; [by apply Hgate|done].
Qed.
End Dismiss.

(** ** Instances *)

#[export] Instance demo_calls_keep p : KeepsExclusions demo_calls p.
Proof. split; [done|intros f w [= <-] H; exact H|intros f t w [= <-] H; exact H]. Qed.

(** The calls of [demo_calls] with rules that ask for acknowledgement. *)
Definition demo_acking : EngineCalls (list engine_call) :=
  {| ec_Render := ec_Render demo_calls; ec_AcquireCritical := ec_AcquireCritical demo_calls;
     ec_ReleaseCritical := ec_ReleaseCritical demo_calls; ec_Save := ec_Save demo_calls;
     ec_StoreStatus := fun _ => None; ec_Append := None;
     ec_resolve := fun _ _ => (mkRule true true PolicyRotation 0 0 0 true false false 60000 10 false, true);
     ec_now := fun _ => demo_now; ec_storeNow := fun _ => demo_now; ec_generation := fun _ => None |}.

#[export] Instance demo_acking_logged : LoggedEngine demo_acking (fun l => l).
Proof.
  split; [exact (lg_Render (calls := demo_calls))|exact (lg_Acquire (calls := demo_calls))
         |exact (lg_Release (calls := demo_calls))|exact (lg_Save (calls := demo_calls))|done
         |exact (lg_Render_sourced (calls := demo_calls))].
Qed.

Definition demo_id : string := Record_ID (demo_record "b" 1 1).

Lemma Acknowledge_durable_witness :
  (Acknowledge demo_acking demo_id demo_start).1 = None
  /\ exists record, record ∈ (store_snapshot demo_acking demo_start.2).1.1 /\ Record_ID record = demo_id.
Proof.
  assert (E : (Acknowledge demo_acking demo_id demo_start).1 = None) by (vm_compute; reflexivity). split; [exact E|].
  pose proof (Acknowledge_durable demo_acking (fun l => l) demo_id demo_start (mk_is_Some _ _ eq_refl) ltac:(vm_compute; reflexivity)) as H.
  cbv zeta in H. rewrite E in H. destruct H as (record & rule & H1 & H2 & _). exists record. split; [exact H1|exact H2].
Defined.

(** Back is pressed while "b" is shown; the plugin does not consume it. *)
Lemma Back_dismisses_witness :
  let captured := (CaptureBackPresentation demo_shown).1 in
  let s3 := (DismissForBack demo_calls captured EmptyString (CaptureBackPresentation demo_shown).2).2 in
  presentationCooldownActive demo_now s3.1 = (true, s3.1).
Proof.
  intros captured s3.
  destruct (Back_dismisses demo_calls (fun l => l) demo_shown [] (CaptureBackPresentation demo_shown).2 EmptyString demo_now)
    as (_ & H & _).
  - vm_compute. split_and!; discriminate || reflexivity.
  - vm_compute. reflexivity.
  - vm_compute. reflexivity.
  - constructor.
  - reflexivity.
  - exact I.
  - apply demo_calls_keep.
  - vm_compute. discriminate.
  - apply H. vm_compute. reflexivity.
Defined.
