(* ===== verification/EngineRun.v ===== *)
(** * The engine's own goroutine

    [NewEngine] and [Run] of [src/internal/daemon/engine.go]: the loop that waits for a
    change of the observation store or for a deadline and then takes a step. The loop is a
    transition system whose moves are the loop's sections; between two of them other
    goroutines call the methods of the engine and of the store. The theorem is that no
    change is slept through. *)

From Stdlib Require Import ZArith Lia ZifyBool.
From S2P Require Import Prelude GoStrings GoTime Identifier Protocol Presentation ObservationStore.
From S2P Require Import AttentionSelector LocalState AttentionState AttentionRetention Engine EngineClaims.

(** ** [NewEngine] *)

Section NewEngine.
Context {W : Type}.

(** The options; a nil interface or function is [None]. The state store is what its [Load]
    returned, its [Save] and its [Status]. *)
Record EngineOptions := mkOptions {
  eo_Store : option Store;
  eo_Resolve : option (World W -> Resolver);
  eo_Renderer : option (option Candidate -> World W -> (string * option error) * World W);
  eo_Foreground : option ((Candidate -> World W -> bool * World W) * (World W -> World W));
  eo_StateStore : option ((StateDocument * option error)
                          * (StateDocument -> World W -> (string * option error) * World W)
                          * (World W -> StateStoreStatus));
  eo_Generation : option Generation;
  eo_Recorder : option (Trace -> World W -> World W);
  eo_Retry : Z;
}.

(** An engine that is ready to run: its collaborators, its state and its retry interval.
    [clock] is [time.Now]; [storeClock] and [storeGeneration] belong to the store. *)
Definition NewEngine (options : EngineOptions) (clock storeClock : World W -> Time)
    (storeGeneration : World W -> option Generation) (rest : W)
    : option error + EngineCalls W * EngineState W * Z :=
  match eo_Store options with
  | None => inl (errors_New "observation store is required")
  | Some store =>
    match eo_Resolve options with
    | None => inl (errors_New "attention resolver is required")
    | Some resolve =>
      match eo_Renderer options with
      | None => inl (errors_New "attention renderer is required")
      | Some renderer =>
        match eo_Foreground options with
        | None => inl (errors_New "foreground coordinator is required")
        | Some (acquire, release) =>
          match eo_StateStore options with
          | None => inl (errors_New "attention state store is required")
          | Some (loaded, save, status) =>
            match eo_Generation options with
            | None => inl (errors_New "generation lookup is required")
            | Some generation =>
              let retry := if eo_Retry options <=? 0 then dur_mul 2 Second else eo_Retry options in
              let calls := mkEngineCalls renderer (Some acquire) (Some release) (Some save)
                (fun w => Some (status w)) (eo_Recorder options) resolve clock storeClock storeGeneration in
              inr (calls, restoreAttentionState calls (Some generation) loaded (new_engine, mkWorld store 0 rest), retry)
            end
          end
        end
      end
    end
  end.
End NewEngine.
Arguments EngineOptions : clear implicits.

(** ** [Run] *)

(** Where the loop is: at its top, in the [select] with the deadline it armed, past a
    receive from [Changes], or about to step. *)
Inductive phase := Looping | Waiting (deadline : Time) | Received (deadline : Time) | Stepping | Stopped.

Section Runner.
Context {W : Type}.

Record Runner := mkRunner {
  rn_phase : phase;
  rn_processed : evaluationSequence;
  rn_retryAt : Time;
  (** whether the context is done *)
  rn_cancelled : bool;
  rn_engine : EngineState W;
}.
End Runner.
Arguments Runner : clear implicits.

Definition counters {W} (w : World W) : evaluationSequence := mkEvaluationSequence (store_sequence (wd_store w)) (wd_local w).

(** [e.store.Sequence() > processed.store || e.localSequence.Load() > processed.local] *)
Definition moved_on (processed current : evaluationSequence) : bool :=
  (es_store processed <? es_store current) || (es_local processed <? es_local current).

(** The deadline the timer is armed with. *)
Definition armed (deadline retryAt : Time) : Time :=
  if negb (IsZero retryAt) && (IsZero deadline || Before retryAt deadline) then retryAt else deadline.

(** When to retry after a step, the first one and a later one. *)
Definition retry_first (retry : Z) (err : option error) (now : Time) : Time :=
  match err with Some _ => Add now retry | None => zero_time end.
Definition retry_next (retry : Z) (err : option error) (now : Time) : Time :=
  match err with
  | Some err => if negb (errors_Is "context canceled" err) then Add now retry else zero_time
  | None => zero_time
  end.

Section Run.
Context {W : Type} (calls : EngineCalls W) (retry : Z).
Notation EngineState := (EngineState W).
Notation Runner := (Runner W).

(** [time.Now()]. *)
Definition clock (s : EngineState) : Time := ec_now calls s.2.

(** Before the loop; [fuel] is for the step. *)
Definition start (fuel : nat) (s : EngineState) : result Runner :=
  bind (step calls fuel (clock s) s) (fun '((processed, err), s) =>
    Done (mkRunner Looping processed (retry_first retry err (clock s)) false s)).

Definition set_phase (p : phase) (r : Runner) : Runner :=
  mkRunner p (rn_processed r) (rn_retryAt r) (rn_cancelled r) (rn_engine r).

(** From the top of the loop to the [select]. *)
Definition wait (r : Runner) : Runner :=
  let '(deadline, s) := NextDeadline calls (clock (rn_engine r)) (rn_engine r) in
  mkRunner (Waiting (armed deadline (rn_retryAt r))) (rn_processed r) (rn_retryAt r) (rn_cancelled r) s.

(** [case <-e.store.Changes()] *)
Definition receive (deadline : Time) (r : Runner) : Runner :=
  mkRunner (Received deadline) (rn_processed r) (rn_retryAt r) (rn_cancelled r)
    (on_store (fun store => apply_op store OpReceive) (rn_engine r)).

(** The timer for [deadline] has fired. *)
Definition elapsed (deadline : Time) (s : EngineState) : bool := negb (IsZero deadline) && negb (After deadline (clock s)).

Definition shouldStep (deadline : Time) (r : Runner) : bool :=
  moved_on (rn_processed r) (counters (rn_engine r).2) || elapsed deadline (rn_engine r).

Definition check (deadline : Time) (r : Runner) : Runner :=
  set_phase (if shouldStep deadline r then Stepping else Looping) r.

Definition evaluate (fuel : nat) (r : Runner) : result Runner :=
  bind (step calls fuel (clock (rn_engine r)) (rn_engine r)) (fun '((processed, err), s) =>
    Done (mkRunner Looping processed (retry_next retry err (clock s)) (rn_cancelled r) s)).

(** The moves of the loop; a [select] takes any of the cases that are ready. *)
Inductive moves (r : Runner) : Runner -> Prop :=
  | moves_wait : rn_phase r = Looping -> moves r (wait r)
  | moves_done deadline : rn_phase r = Waiting deadline -> rn_cancelled r = true -> moves r (set_phase Stopped r)
  | moves_change deadline :
      rn_phase r = Waiting deadline -> store_signal (wd_store (rn_engine r).2) = true -> moves r (receive deadline r)
  | moves_timer deadline :
      rn_phase r = Waiting deadline -> elapsed deadline (rn_engine r) = true -> moves r (set_phase Stepping r)
  | moves_check deadline : rn_phase r = Received deadline -> moves r (check deadline r)
  | moves_step fuel r' : rn_phase r = Stepping -> evaluate fuel r = Done r' -> moves r r'.

(** ** The other goroutines *)

(** The exported methods of the engine. *)
Inductive method : EngineState -> EngineState -> Prop :=
  | me_step fuel now s out s' : step calls fuel now s = Done (out, s') -> method s s'
  | me_capture s : method s (CaptureBackPresentation s).2
  | me_back fuel captured invalidate now s err s' :
      ReconcileConsumedBack calls fuel captured (Some (fun w => mkWorld (wd_store w) (wd_local w) (invalidate (wd_rest w)))) now s = Done (err, s') ->
      method s s'
  | me_dismiss captured reason s : method s (DismissForBack calls captured reason s).2
  | me_acknowledge id s : method s (AcknowledgeAttention calls id s).2
  | me_invalidate s : method s (InvalidateRenderedSelection s)
  | me_selected s : method s (SelectedObservation calls s).2
  | me_remove pluginID instanceID through s : method s (RemoveInstance calls pluginID instanceID through s)
  | me_deadline now s : method s (NextDeadline calls now s).2
  | me_cooldown s : method s (PresentationCooldownStatus calls s).2
  | me_wake s : method s (Wake s).

(** What happens between two moves: a method of the engine, an operation on the store
    (only the loop receives from [Changes]), or anything outside both, the clock included. *)
Inductive disturbs : EngineState -> EngineState -> Prop :=
  | di_method s s' : method s s' -> disturbs s s'
  | di_store op s : op <> OpReceive -> disturbs s (on_store (fun store => apply_op store op) s)
  | di_rest rest s : disturbs s (s.1, mkWorld (wd_store s.2) (wd_local s.2) rest).

Inductive others (r : Runner) : Runner -> Prop :=
  | others_disturb s' : disturbs (rn_engine r) s' ->
      others r (mkRunner (rn_phase r) (rn_processed r) (rn_retryAt r) (rn_cancelled r) s')
  | others_cancel : others r (mkRunner (rn_phase r) (rn_processed r) (rn_retryAt r) true (rn_engine r)).

(** An execution of the loop and of the others: [own n] tells whether the [n]-th transition
    is a move of the loop. The scheduler is fair to the loop: it moves again and again, or
    again and again has nothing to do. The 64-bit counters do not wrap around. *)
Record Execution (run : nat -> Runner) (own : nat -> bool) : Prop := {
  ex_start : exists fuel s, WellFormed (wd_store s.2) /\ start fuel s = Done (run 0%nat);
  ex_transition n : if own n then moves (run n) (run (S n)) else others (run n) (run (S n));
  ex_fair n : exists m, (n <= m)%nat /\ (own m = true \/ forall r', ~ moves (run m) r');
  ex_counters n :
    es_store (counters (rn_engine (run n)).2) <= es_store (counters (rn_engine (run (S n))).2)
    /\ es_local (counters (rn_engine (run n)).2) <= es_local (counters (rn_engine (run (S n))).2);
}.
End Run.

(** ** Changes are signalled *)

(** An operation on the store that is not the receive keeps a signal that is pending, and
    leaves one when it changes the sequence. *)
Definition store_signals (s s' : Store) : Prop :=
  (store_signal s = true -> store_signal s' = true)
  /\ (store_sequence s' = store_sequence s \/ store_signal s' = true).

#[export] Instance store_signals_preorder : PreOrder store_signals.
Proof.
  split; [by split; [|left]|]. intros s1 s2 s3 [A1 B1] [A2 B2]. split; [auto|].
  destruct B2 as [->|H]; [|by right]. destruct B1 as [->|H]; [by left|right; auto].
Qed.

Lemma notify_signals s s' : store_signal s' = true -> store_signals s s'.
Proof. split; [done|by right]. Qed.

Lemma quiet_signals s s' :
  store_signal s' = store_signal s -> store_sequence s' = store_sequence s -> store_signals s s'.
Proof. intros H1 H2. split; [by rewrite H1|by left]. Qed.

Lemma notify_if_signals (b : bool) s s' :
  store_signal s' = store_signal s -> (b = false -> store_sequence s' = store_sequence s) ->
  store_signals s (notify_if b s').
Proof. intros H1 H2. destruct b; [by apply notify_signals|]. apply quiet_signals; auto. Qed.

Lemma signal_bump_if b s : store_signal (bump_if b s) = store_signal s.
Proof. by destruct b. Qed.

(** Operations that change neither the sequence nor the signal. *)
Ltac silent := repeat case_match; cbn [snd]; first [reflexivity | by apply quiet_signals].

Lemma exclude_signals lookup id g r s : store_signals s (ExcludeExactRevisionWithoutSignal lookup id g r s).2.
Proof. unfold ExcludeExactRevisionWithoutSignal. cbv zeta. silent. Qed.

Lemma exclude_any_signals id g r s : store_signals s (ExcludeRevisionWithoutSignal id g r s).2.
Proof. unfold ExcludeRevisionWithoutSignal. silent. Qed.

Lemma reserve_signals id g r s : store_signals s (ReserveExactRevisionWithoutSignal id g r s).2.
Proof. unfold ReserveExactRevisionWithoutSignal. silent. Qed.

Lemma release_signals id g r s : store_signals s (ReleaseExactRevisionReservationWithoutSignal id g r s).
Proof. unfold ReleaseExactRevisionReservationWithoutSignal. silent. Qed.

Lemma withdraw_instance_signals p i g s : store_signals s (WithdrawInstance p i g s).
Proof. unfold WithdrawInstance. cbv zeta. apply notify_if_signals; [by rewrite signal_bump_if|]. by intros ->. Qed.

Lemma snapshot_store_signals now s : store_signals s (SnapshotWithSequence now s).2.
Proof. apply notify_if_signals; [by rewrite signal_bump_if|]. by intros ->. Qed.

Lemma admit_signals record now s : store_signals s (admitRecord record now s).2.
Proof.
  unfold admitRecord. destruct (pruneLocked now s) as [pruned s1] eqn:E. injection E as <- <-. cbv zeta.
  set (pruned := negb _). set (s1 := set_records _ s).
  assert (Hkeep : forall s', store_signal s' = store_signal s1 -> store_sequence s' = store_sequence (bump_if pruned s1) ->
    store_signals s (notify_if pruned s')).
  { intros s' H1 H2. apply notify_if_signals; [done|]. by intros ->. }
  repeat case_match; cbn [snd]; try (by apply notify_signals); apply Hkeep; cbn [store_signal store_sequence reject]; by rewrite ?signal_bump_if.
Qed.

Lemma apply_op_signals op s : op <> OpReceive -> store_signals s (apply_op s op).
Proof.
  intros Hop. destruct op; cbn [apply_op]; try done.
  - destruct (Publish_cases generation source value now s) as [[err ->]|(_ & _ & _ & _ & ->)]; [reflexivity|]. apply admit_signals.
  - unfold Withdraw. destruct (_ !! _); [by apply notify_signals|reflexivity].
  - apply withdraw_instance_signals.
  - unfold WithdrawGeneration. cbv zeta. apply notify_if_signals; [by rewrite signal_bump_if|]. by intros ->.
  - apply snapshot_store_signals.
  - apply exclude_any_signals.
  - apply reserve_signals.
  - apply release_signals.
  - apply exclude_signals.
  - unfold Diagnostics. destruct (pruneLocked now s) as [pruned s1] eqn:E. injection E as <- <-. cbn [snd].
    apply notify_if_signals; [by rewrite signal_bump_if|]. by intros ->.
  - by apply notify_signals.
Qed.

(** The same for the world of the engine, and no operation misfiles an observation. *)
Record signals {W} (w w' : World W) : Prop := {
  sg_pending : store_signal (wd_store w) = true -> store_signal (wd_store w') = true;
  sg_counters : counters w' = counters w \/ store_signal (wd_store w') = true;
  sg_filed : WellFormed (wd_store w) -> WellFormed (wd_store w');
}.

#[export] Instance signals_preorder {W} : PreOrder (@signals W).
Proof.
  split; [by split; [|left|]|]. intros w1 w2 w3 [A1 B1 C1] [A2 B2 C2]. split; [auto| |auto].
  destruct B2 as [->|H]; [|by right]. destruct B1 as [->|H]; [by left|right; auto].
Qed.

(** What the engine calls may publish and withdraw observations, under the same rule. *)
Class Signalling {W} (calls : EngineCalls W) : Prop := {
  sl_Render c w : signals w (ec_Render calls c w).2;
  sl_Acquire f c w : ec_AcquireCritical calls = Some f -> signals w (f c w).2;
  sl_Release f w : ec_ReleaseCritical calls = Some f -> signals w (f w);
  sl_Save f d w : ec_Save calls = Some f -> signals w (f d w).2;
  sl_Append f t w : ec_Append calls = Some f -> signals w (f t w);
}.

Section Signals.
Context {W : Type} (calls : EngineCalls W) `{!Signalling calls}.
Notation EngineState := (EngineState W).

Definition tells (s s' : EngineState) : Prop := signals s.2 s'.2.

#[export] Instance tells_preorder : PreOrder tells.
Proof. split; [by intros s; unfold tells|]. intros s1 s2 s3 H1 H2. unfold tells in *. by etrans. Qed.

Lemma tells_same s s' : s'.2 = s.2 -> tells s s'.
Proof. unfold tells. by intros ->. Qed.

Lemma tells_store f s :
  store_signals (wd_store s.2) (f (wd_store s.2)) -> (WellFormed (wd_store s.2) -> WellFormed (f (wd_store s.2))) ->
  tells s (on_store f s).
Proof.
  intros [H1 H2] Hwf. split; [exact H1| |exact Hwf]. destruct H2 as [H|H]; [left|by right].
  unfold counters. simpl. by rewrite H.
Qed.

Lemma tells_op op s : op <> OpReceive -> tells s (on_store (fun store => apply_op store op) s).
Proof. intros Hop. apply tells_store; [by apply apply_op_signals|by apply apply_op_WellFormed]. Qed.

Lemma record_tells now decision outcome s : tells s (record calls now decision outcome s).
Proof. unfold record. destruct (ec_Append calls) as [f|] eqn:E; [|reflexivity]. exact (sl_Append f _ s.2 E). Qed.

Lemma persist_tells records s : tells s (persistState calls records s).2.
Proof.
  unfold persistState. destruct (ec_Save calls) as [f|] eqn:E; [|reflexivity].
  pose proof (sl_Save f (stateDocument (ec_resolve calls s.2) records (en_retained s.1)) s.2 E) as H.
  by destruct (f _ s.2) as [[outcome err] w].
Qed.

Lemma prune_tells records now s : tells s (prune records now s).2.
Proof. unfold prune. destruct (pruneState _ _ _). by apply tells_same. Qed.

Lemma acquire_tells c s granted s' : acquireCritical calls c s = (granted, s') -> tells s s'.
Proof.
  unfold acquireCritical. destruct (ec_AcquireCritical calls) as [f|] eqn:E.
  - pose proof (sl_Acquire f c s.2 E) as H. destruct (f c s.2) as [[|] w]; intros [= <- <-]; exact H.
  - intros [= <- <-]. by apply tells_same.
Qed.

Lemma release_tells s : tells s (releaseCritical calls s).
Proof.
  unfold releaseCritical. destruct (negb _); [reflexivity|]. cbv zeta.
  destruct (ec_ReleaseCritical calls) as [f|] eqn:E; [exact (sl_Release f s.2 E)|by apply tells_same].
Qed.

Lemma clear_tells s : tells s (clearRenderedSelection calls s).
Proof. unfold clearRenderedSelection. etrans; [|apply release_tells]. by apply tells_same. Qed.

Lemma render_tells c s result s' : render calls c s = (result, s') -> tells s s'.
Proof. unfold render. pose proof (sl_Render c s.2) as H. destruct (ec_Render calls c s.2) as [q w]. intros [= <- <-]. exact H. Qed.

Lemma clear_display_tells now decision s : tells s (clear_display calls now decision s).2.
Proof.
  unfold clear_display. destruct (render calls None s) as [[outcome err] s1] eqn:E. apply render_tells in E.
  destruct (validateRenderResult None outcome err); cbn [snd]; [etrans; [exact E|apply record_tells]|].
  destruct err; cbn [snd]; (etrans; [exact E|]); [apply record_tells|]. etrans; [apply clear_tells|apply record_tells].
Qed.

Lemma snapshot_tells s : tells s (s.1, (store_snapshot calls s.2).2).
Proof.
  rewrite store_snapshot_eq. apply (tells_store (fun store => (SnapshotWithSequence (ec_storeNow calls s.2) store).2)).
  - apply snapshot_store_signals.
  - apply (apply_op_WellFormed (OpSnapshot (ec_storeNow calls s.2))).
Qed.

Lemma commit_tells winner records now s : tells s (commit_winner calls winner records now s).
Proof.
  unfold commit_winner. cbv zeta. set (s1 := if negb (is_critical winner) then releaseCritical calls s else s).
  assert (H : tells s s1) by (unfold s1; destruct (negb _); [apply release_tells|reflexivity]). clearbody s1.
  etrans; [exact H|]. etrans; [by apply (tells_same s1 (show winner now s1.1, s1.2))|].
  etrans; [apply prune_tells|]. etrans; [apply persist_tells|]. by apply tells_same.
Qed.

Lemma wake_tells s : tells s (Wake s).
Proof. split; [done|by right|done]. Qed.

Lemma exclude_tells id g r s : tells s (on_store (fun store => (ExcludeRevisionWithoutSignal id g r store).2) s).
Proof. apply (tells_op (OpExclude id g r)). discriminate. Qed.

Lemma step_decision_tells records now s : tells s (step_decision calls records now s).2.
Proof.
  pose proof (step_decision_branch calls records now s) as Hb. set (s' := (step_decision calls records now s).2) in *.
  set (s0 := ((presentationCooldownActive now s.1).2, s.2)). assert (H0 : tells s s0) by by apply tells_same.
  assert (Hdraws : forall winner s1 result s2, draws calls records now s winner s1 ->
    render calls (Some winner) s1 = (result, s2) -> tells s s2).
  { intros winner s1 result s2 (_ & _ & _ & Ha) Hr%render_tells. etrans; [exact H0|]. etrans; [|exact Hr].
    destruct (is_critical winner); [by eapply acquire_tells|by rewrite Ha]. }
  inversion Hb as [s1 Hs1 Heq1 Heq2|err s1 Hc Heq1 Heq2|winner s1 outcome err s2 ce Hd Hr Hv Heq1 Heq2
    |winner s1 outcome err s2 Hd Hr Hv Heq1 Heq2|winner s1 outcome err s2 store Hd Hr Hex Hv Hinv Heq1 Heq2
    |winner s1 s2 Hd Hr Heq1 Heq2|winner s1 outcome s2 Hd Hr Ho Heq1 Heq2]; clear Hb Heq1;
    try (specialize (Hdraws _ _ _ _ Hd Hr)).
  - etrans; [|apply record_tells]. destruct Hs1 as [->|(winner & _ & Ha)]; [exact H0|].
    etrans; [exact H0|]. by eapply acquire_tells.
  - etrans; [exact H0|]. pose proof (clear_display_tells now
      (AttentionSelector.Select records (resolveRecord s.1 (ec_resolve calls s.2)) (history s.1) now) s0) as H.
    fold s0 in Hc. by rewrite Hc in H.
  - etrans; [exact Hdraws|apply record_tells].
  - etrans; [exact Hdraws|apply record_tells].
  - etrans; [exact Hdraws|]. etrans; [|apply record_tells].
    pose proof (exclude_tells (Candidate_Identity winner) (cand_Generation winner) (cand_Revision winner) s2) as H.
    unfold on_store in H. by rewrite Hex in H.
  - etrans; [exact Hdraws|]. etrans; [|apply record_tells]. etrans; [|apply clear_tells]. apply exclude_tells.
  - etrans; [exact Hdraws|]. etrans; [apply commit_tells|apply record_tells].
Qed.

(** A step has seen every change, or a signal is pending. *)
Definition covers (processed : evaluationSequence) (s : EngineState) : Prop :=
  counters s.2 = processed \/ store_signal (wd_store s.2) = true.

Lemma covers_tells processed s s' : covers processed s -> tells s s' -> covers processed s'.
Proof. intros [H|H] [H1 H2 _]; [destruct H2 as [H2|H2]; [left; congruence|by right]|right; auto]. Qed.

Lemma snapshot_sequence now s : store_sequence (SnapshotWithSequence now s).2 = (SnapshotWithSequence now s).1.2.
Proof. unfold SnapshotWithSequence. destruct (pruneLocked now s) as [[|] s1]; done. Qed.

Lemma covers_snapshot sequence s :
  covers sequence s ->
  covers (mkEvaluationSequence (store_snapshot calls s.2).1.2 (es_local sequence)) (s.1, (store_snapshot calls s.2).2).
Proof.
  intros H. destruct (snapshot_tells s) as [Hp _ _]. rewrite store_snapshot_eq in *. destruct H as [<-|H]; [left|right; auto].
  unfold counters. cbn [snd fst wd_store wd_local set_store es_local]. by rewrite snapshot_sequence.
Qed.

Lemma step_loop_covers fuel records processed now s out s' :
  covers processed s -> step_loop calls fuel records processed now s = Done (out, s') -> tells s s' /\ covers out.1 s'.
Proof.
  revert records processed s. induction fuel as [|fuel IH]; intros records processed s Hc; cbn [step_loop]; [done|].
  pose proof (step_decision_tells records now s) as Ht. pose proof (covers_tells _ _ _ Hc Ht) as Hc1.
  destruct (step_decision calls records now s) as [[err|] s1]; cbn [snd] in *; [by intros [= <- <-]|].
  pose proof (snapshot_tells s1) as Hsnap. apply covers_snapshot in Hc1. rewrite store_snapshot_eq in *. cbn [fst snd] in *.
  intros [H1 H2]%IH; [|exact Hc1]. split; [|exact H2]. etrans; [exact Ht|]. by etrans.
Qed.

Lemma step_covers fuel now s out s' :
  step calls fuel now s = Done (out, s') -> tells s s' /\ covers out.1 s'.
Proof.
  unfold step. pose proof (snapshot_tells s) as H0. rewrite store_snapshot_eq in *. cbv zeta. cbn [fst snd] in *.
  set (s0 := (s.1, set_store _ s.2)) in *. set (records := (SnapshotWithSequence _ _).1.1).
  pose proof (prune_tells records now s0) as H1. destruct (prune records now s0) as [changed s1]. cbn [snd] in H1.
  set (s2 := if changed then (persistState calls records s1).2 else s1).
  assert (H2 : tells s0 s2) by (etrans; [exact H1|]; unfold s2; destruct changed; [apply persist_tells|reflexivity]).
  intros [H3 H4]%step_loop_covers; [split; [|done]; etrans; [exact H0|]; by etrans|].
  eapply covers_tells; [|exact H2]. left. unfold s0, counters. cbn [snd wd_store wd_local set_store]. by rewrite snapshot_sequence.
Qed.

Lemma deadline_tells now s : tells s (NextDeadline calls now s).2.
Proof.
  unfold NextDeadline. rewrite Snapshot_state_eq. set (s0 := (s.1, _)). set (records := (store_snapshot calls s.2).1.1).
  pose proof (prune_tells records now s0) as H1. destruct (prune records now s0) as [changed s1]. cbn [snd] in H1.
  set (s2 := if changed then (persistState calls records s1).2 else s1).
  assert (H2 : tells s1 s2) by (unfold s2; destruct changed; [apply persist_tells|reflexivity]).
  destruct (presentationCooldownActive now s2.1) as [cooldown e]. cbn [snd].
  etrans; [apply snapshot_tells|]. etrans; [exact H1|]. etrans; [exact H2|]. by apply tells_same.
Qed.

Lemma if_valid_tells captured op s :
  op <> OpReceive -> tells s (if_valid captured (fun store => apply_op store op) s).
Proof. intros Hop. unfold if_valid. destruct (BackPresentation_valid captured); [by apply tells_op|reflexivity]. Qed.

Lemma dismiss_tells captured reason s : tells s (DismissForBack calls captured reason s).2.
Proof.
  unfold DismissForBack. cbv zeta. set (s0 := (set_cooldown _ _ _ s.1, s.2)). assert (H0 : tells s s0) by by apply tells_same.
  set (s1 := if_valid captured _ s0). assert (H1 : tells s0 s1).
  { apply (if_valid_tells captured (OpExcludeExact (ec_generation calls s0.2) (bp_identity captured) (bp_generation captured)
      (bp_revision captured))). discriminate. }
  clearbody s1. destruct (negb (owns captured s1.1)); cbn [snd].
  - etrans; [exact H0|]. etrans; [exact H1|]. etrans; [|apply wake_tells]. by apply tells_same.
  - destruct (clear_display _ _ _ _) as [err s2] eqn:E. cbn [snd]. etrans; [exact H0|]. etrans; [exact H1|].
    etrans; [|apply wake_tells]. apply (f_equal snd) in E. cbn [snd] in E. subst s2.
    etrans; [|apply clear_display_tells]. by apply tells_same.
Qed.

Lemma acknowledge_tells id s : tells s (Acknowledge calls id s).2.
Proof.
  unfold Acknowledge. rewrite Snapshot_state_eq. pose proof (snapshot_tells s) as H0.
  set (s0 := (s.1, (store_snapshot calls s.2).2)) in *. set (records := (store_snapshot calls s.2).1.1) in *.
  destruct (find_record id records) as [record|]; [|exact H0]. destruct (ec_resolve calls s0.2 record) as [rule ok].
  destruct (negb ok || _); [exact H0|]. cbv zeta. set (now := UTC (ec_now calls s0.2)).
  pose proof (prune_tells records now s0) as H1. set (s1 := (prune records now s0).2) in *. clearbody s1.
  set (proposed := propose record records now (en_retained s1.1)).
  assert (H : tells s s1) by (by etrans).
  destruct (ec_Save calls) as [save|] eqn:E; cbn [snd].
  - pose proof (sl_Save save (stateDocument (ec_resolve calls s1.2) records proposed) s1.2 E) as Hs.
    destruct (save _ s1.2) as [[outcome err] w]. cbn [snd] in Hs.
    assert (Hw : forall e, tells s (e, w)) by (intros e; etrans; [exact H|exact Hs]).
    destruct err as [err|]; [apply Hw|]. destruct (negb _); cbn [snd errors_New]; [apply Hw|].
    etrans; [apply Hw|apply wake_tells].
  - etrans; [exact H|]. etrans; [|apply wake_tells]. by apply tells_same.
Qed.

Lemma method_tells s s' : method calls s s' -> tells s s'.
Proof.
  intros H. destruct H.
  - by apply (step_covers fuel now s out).
  - unfold CaptureBackPresentation. cbv zeta. cbn [snd].
    apply (if_valid_tells (claim s.1) (OpReserve (bp_identity (claim s.1)) (bp_generation (claim s.1)) (bp_revision (claim s.1)))).
    discriminate.
  - revert H. unfold ReconcileConsumedBack. cbv zeta. set (s1 := if_valid captured _ s).
    assert (H1 : tells s s1).
    { apply (if_valid_tells captured (OpRelease (bp_identity captured) (bp_generation captured) (bp_revision captured))). discriminate. }
    clearbody s1. destruct (negb (owns captured s1.1)); [by intros [= _ <-]|].
    unfold Reconcile, Step, bind. set (s2 := (set_claim _ _ _ _, _)).
    destruct (step calls fuel now s2) as [[[processed e] s3]| |] eqn:E; [|done..]. intros [= _ <-].
    etrans; [exact H1|]. etrans; [|by eapply step_covers]. split; [done|by left|done].
  - apply dismiss_tells.
  - apply acknowledge_tells.
  - etrans; [|apply wake_tells]. by apply tells_same.
  - unfold SelectedObservation. case_if; [reflexivity|]. rewrite Snapshot_state_eq. apply snapshot_tells.
  - unfold RemoveInstance. cbv zeta. rewrite Snapshot_state_eq.
    etrans; [|etrans; [apply snapshot_tells|apply persist_tells]].
    apply (tells_op (OpWithdrawInstance pluginID instanceID through)). discriminate.
  - apply deadline_tells.
  - unfold PresentationCooldownStatus. cbv zeta. destruct (presentationCooldownActive _ _) as [active e].
    by destruct active; apply tells_same.
  - apply wake_tells.
Qed.

Lemma disturbs_tells s s' : disturbs calls s s' -> tells s s'.
Proof. intros H. destruct H; [by apply method_tells|by apply tells_op|]. split; [done|by left|done]. Qed.
End Signals.

(** ** The loop wakes up *)

Lemma moved_on_covered {W} processed (s : EngineState W) :
  covers processed s -> moved_on processed (counters s.2) = true -> store_signal (wd_store s.2) = true.
Proof. intros [<-|H]; [|done]. unfold moved_on. rewrite !Z.ltb_irrefl. done. Qed.

Lemma moved_on_grows processed current current' :
  es_store current <= es_store current' -> es_local current <= es_local current' ->
  moved_on processed current = true -> moved_on processed current' = true.
Proof. unfold moved_on. rewrite !orb_true_iff, !Z.ltb_lt. lia. Qed.

Section Liveness.
Context {W : Type} (calls : EngineCalls W) (retry : Z) (pending : W -> nat) `{!Signalling calls} `{!FinitelyPublished calls pending}.
Notation EngineState := (EngineState W).
Notation Runner := (Runner W).
Notation clock := (clock calls).
Notation moves := (moves calls retry).
Notation others := (others calls).
Notation counters_of r := (counters (rn_engine r).2).
Notation dirty r := (moved_on (rn_processed r) (counters_of r)).

(** A retry that is due is not slept through. *)
Definition heeds (deadline retryAt : Time) : Prop :=
  IsZero retryAt = false -> IsZero deadline = false /\ instant deadline <= instant retryAt.

Record Awake (r : Runner) : Prop := {
  aw_filed : WellFormed (wd_store (rn_engine r).2);
  aw_signal : dirty r = true -> store_signal (wd_store (rn_engine r).2) = true
    \/ rn_phase r = Stepping \/ exists deadline, rn_phase r = Received deadline;
  aw_stopped : rn_phase r = Stopped -> rn_cancelled r = true;
  aw_retry deadline : rn_phase r = Waiting deadline -> heeds deadline (rn_retryAt r);
}.

Lemma armed_heeds deadline retryAt : heeds (armed deadline retryAt) retryAt.
Proof.
  unfold heeds, armed. intros Hr. rewrite Hr. cbn [negb andb].
  destruct (IsZero deadline) eqn:Hd; cbn [orb]; [by split|].
  destruct (Before retryAt deadline) eqn:Hb; [by split|]. apply Before_false in Hb. by split.
Qed.

Lemma others_awake r r' : Awake r -> others r r' -> Awake r'.
Proof.
  intros [H1 H2 H3 H4] H. destruct H as [s' Hd|]; [|by split].
  destruct (disturbs_tells calls _ _ Hd) as [Hp Hc Hw]. split; cbn [rn_phase rn_processed rn_cancelled rn_retryAt rn_engine]; auto.
  intros Hdirty. destruct Hc as [Hc|Hc]; [|by left]. rewrite Hc in Hdirty. destruct (H2 Hdirty) as [Hs|Hs]; [left; auto|by right].
Qed.

Lemma evaluate_awake fuel r r' :
  WellFormed (wd_store (rn_engine r).2) -> evaluate calls retry fuel r = Done r' -> Awake r' /\ rn_phase r' = Looping.
Proof.
  intros Hwf. unfold evaluate, bind.
  destruct (step _ _ _ _) as [[[processed err] s]| |] eqn:E; [|done..]. intros [= <-].
  apply step_covers in E as [[_ _ Hw] Hc]; [|done]. split; [|done]. split; cbn [rn_phase rn_processed rn_engine fst] in *; [auto| |done..].
  intros Hd. left. by eapply moved_on_covered.
Qed.

Lemma moves_awake r r' : Awake r -> moves r r' -> Awake r'.
Proof.
  intros [H1 H2 H3 H4] H. destruct H as [Hp|d Hp Hc|d Hp Hs|d Hp He|d Hp|fuel r' Hp He].
  - pose proof (deadline_tells calls (clock (rn_engine r)) (rn_engine r)) as [T1 T2 T3]. unfold wait.
    destruct (NextDeadline _ _ _) as [deadline s]. cbn [snd] in *.
    split; cbn [rn_phase rn_processed rn_cancelled rn_retryAt rn_engine]; [auto| |done|intros q [= <-]; apply armed_heeds].
    intros Hd. left. destruct T2 as [T2|T2]; [|done]. rewrite T2 in Hd.
    destruct (H2 Hd) as [Hs|[Hs|[q Hs]]]; [auto|congruence..].
  - split; cbn; try done. intros Hd. left. destruct (H2 Hd) as [Hs|[Hs|[q Hs]]]; [done|congruence..].
  - split; cbn; try done. intros _. right. right. by eexists.
  - split; cbn; try done. intros _. right. by left.
  - unfold check. destruct (shouldStep calls d r) eqn:Hstep; split; cbn; try done.
    + intros _. right. by left.
    + intros Hd. apply orb_false_iff in Hstep as [Hstep _]. congruence.
  - eapply evaluate_awake; [exact H1|exact He].
Qed.

Lemma start_awake fuel s r : WellFormed (wd_store s.2) -> start calls retry fuel s = Done r -> Awake r.
Proof.
  intros Hwf. unfold start, bind. destruct (step _ _ _ _) as [[[processed err] s']| |] eqn:E; [|done..]. intros [= <-].
  apply step_covers in E as [[_ _ Hw] Hc]; [|done]. split; cbn [rn_phase rn_processed rn_engine fst] in *; [auto| |done..].
  intros Hd. left. by eapply moved_on_covered.
Qed.

Section Executions.
Context (run : nat -> Runner) (own : nat -> bool) (Hrun : Execution calls retry run own).

Lemma run_awake n : Awake (run n).
Proof.
  induction n as [|n IH].
  - destruct (ex_start _ _ _ _ Hrun) as (fuel & s & Hwf & Hs). by eapply start_awake.
  - pose proof (ex_transition _ _ _ _ Hrun n) as H. destruct (own n); [by eapply moves_awake|by eapply others_awake].
Qed.

Notation cancelled n := (rn_cancelled (run n) = true).

(** A situation in which the loop can move, and that the others do not end, ends with a
    move of the loop. *)
Lemma next_move (Q : nat -> Prop) n :
  Q n ->
  (forall k, Q k -> exists r', moves (run k) r') ->
  (forall k, Q k -> own k = false -> cancelled (S k) \/ Q (S k)) ->
  exists m, (n <= m)%nat /\ (cancelled m \/ (Q m /\ own m = true)).
Proof.
  intros Hn Hen Hstay. destruct (ex_fair _ _ _ _ Hrun n) as (m & Hle & Hm).
  assert (H : forall j, (exists k, (n <= k < n + j)%nat /\ (cancelled k \/ (Q k /\ own k = true))) \/ (cancelled (n + j)%nat \/ Q (n + j)%nat)).
  { induction j as [|j [(k & Hk & Hk')|[IH|IH]]].
    - right. right. by rewrite Nat.add_0_r.
    - left. exists k. split; [lia|done].
    - left. exists (n + j)%nat. split; [lia|by left].
    - destruct (own (n + j)) eqn:Ho; [left; exists (n + j)%nat; split; [lia|by right]|].
      right. rewrite Nat.add_succ_r. by apply Hstay. }
  destruct (H (m - n)%nat) as [(k & Hk & Hk')|Hq]; [exists k; split; [lia|done]|].
  replace (n + (m - n))%nat with m in Hq by lia. destruct Hq as [Hq|Hq]; [exists m; by split; [lia|left]|].
  destruct Hm as [Hm|Hm]; [exists m; by split; [lia|right]|]. destruct (Hen m Hq) as [r' Hr']. by destruct (Hm r').
Qed.

(** The step that is being awaited. *)
Definition steps_from (n : nat) : Prop :=
  exists m, (n <= m)%nat /\ (cancelled m
    \/ (own m = true /\ rn_phase (run m) = Stepping /\ exists fuel, evaluate calls retry fuel (run m) = Done (run (S m)))).

Lemma steps_later n m : (n <= m)%nat -> steps_from m -> steps_from n.
Proof. intros Hle (k & Hk & H). exists k. split; [lia|done]. Qed.

Lemma others_phase n :
  own n = false -> rn_phase (run (S n)) = rn_phase (run n) /\ rn_processed (run (S n)) = rn_processed (run n).
Proof. intros Ho. pose proof (ex_transition _ _ _ _ Hrun n) as H. rewrite Ho in H. by destruct H. Qed.

Lemma own_moves n : own n = true -> moves (run n) (run (S n)).
Proof. intros Ho. pose proof (ex_transition _ _ _ _ Hrun n) as H. by rewrite Ho in H. Qed.

Lemma dirty_stays n :
  rn_processed (run (S n)) = rn_processed (run n) -> dirty (run n) = true -> dirty (run (S n)) = true.
Proof. intros Hp. rewrite Hp. destruct (ex_counters _ _ _ _ Hrun n). by apply moved_on_grows. Qed.

Lemma stepping_steps n : rn_phase (run n) = Stepping -> steps_from n.
Proof.
  intros Hn. destruct (next_move (fun k => rn_phase (run k) = Stepping) n) as (m & Hle & Hm); [done|..].
  - intros k Hk. destruct (step_total calls pending (S (size (store_records (wd_store (rn_engine (run k)).2)) + pending (wd_rest (rn_engine (run k)).2))) (clock (rn_engine (run k))) (rn_engine (run k)))
      as (processed & err & s' & E); [apply run_awake|lia|].
    eexists. eapply moves_step; [done|]. unfold evaluate, bind. rewrite E. reflexivity.
  - intros k Hk Ho. right. by rewrite (proj1 (others_phase k Ho)).
  - exists m. split; [done|]. destruct Hm as [Hm|[Hm Ho]]; [by left|right]. split_and!; [done..|].
    pose proof (own_moves m Ho) as H. destruct H; first [congruence|eauto].
Qed.

(** The loop has a reason to step: a change, or a deadline that has passed. *)
Definition reason (deadline : Time) (n : nat) : Prop :=
  dirty (run n) = true
  \/ (IsZero deadline = false /\ forall m, (n <= m)%nat -> instant deadline <= instant (clock (rn_engine (run m)))).

Lemma reason_stays deadline n :
  rn_processed (run (S n)) = rn_processed (run n) -> reason deadline n -> reason deadline (S n).
Proof. intros Hp [H|[H1 H2]]; [left; by apply dirty_stays|right]. split; [done|]. intros m Hm. apply H2. lia. Qed.

Lemma received_steps deadline n : rn_phase (run n) = Received deadline -> reason deadline n -> steps_from n.
Proof.
  intros Hn Hr. destruct (next_move (fun k => rn_phase (run k) = Received deadline /\ reason deadline k) n)
    as (m & Hle & Hm); [done|..].
  - intros k [Hk _]. eexists. by apply (moves_check _ _ _ deadline).
  - intros k [Hk Hr'] Ho. right. destruct (others_phase k Ho) as [H1 H2]. split; [by rewrite H1|by apply reason_stays].
  - destruct Hm as [Hm|[[Hp Hm] Ho]]; [exists m; by split; [|left]|]. apply (steps_later n (S m)); [lia|]. apply stepping_steps.
    pose proof (own_moves m Ho) as H. destruct H as [? |? ?|? ?|? ?|d Hd|? ? ?]; try congruence. assert (d = deadline) as -> by congruence.
    unfold check. replace (shouldStep calls deadline (run m)) with true; [done|]. symmetry. apply orb_true_iff.
    destruct Hm as [Hm|[Hz Hm]]; [by left|right]. unfold elapsed, After. rewrite Hz. specialize (Hm m (le_n m)). simpl. lia.
Qed.

Lemma waiting_steps deadline n : rn_phase (run n) = Waiting deadline -> reason deadline n -> steps_from n.
Proof.
  intros Hn Hr. destruct (next_move (fun k => rn_phase (run k) = Waiting deadline /\ reason deadline k) n)
    as (m & Hle & Hm); [done|..].
  - intros k [Hk Hm]. destruct Hm as [Hm|[Hz Hm]].
    + eexists. apply (moves_change _ _ _ deadline); [done|].
      destruct (aw_signal _ (run_awake k) Hm) as [H|[H|[d H]]]; [done|congruence..].
    + eexists. apply (moves_timer _ _ _ deadline); [done|]. unfold elapsed, After. rewrite Hz. specialize (Hm k (le_n k)). simpl. lia.
  - intros k [Hk Hr'] Ho. right. destruct (others_phase k Ho) as [H1 H2]. split; [by rewrite H1|by apply reason_stays].
  - destruct Hm as [Hm|[[Hp Hm] Ho]]; [exists m; by split; [|left]|]. apply (steps_later n (S m)); [lia|].
    assert (Hstay : rn_processed (run (S m)) = rn_processed (run m) -> reason deadline (S m)) by (intros E; by apply reason_stays).
    pose proof (own_moves m Ho) as H.
    inversion H as [Hq Heq|d Hd Hc Heq|d Hd Hs Heq|d Hd He Heq|d Hd Heq|fuel r' Hd He Heq]; try congruence; clear H;
      assert (d = deadline) as -> by congruence; rewrite <- Heq in Hstay.
    + exists (S m). split; [done|]. left. by rewrite <- Heq.
    + apply (received_steps deadline); [by rewrite <- Heq|by apply Hstay].
    + apply stepping_steps. by rewrite <- Heq.
Qed.

Lemma looping_steps n : rn_phase (run n) = Looping -> dirty (run n) = true -> steps_from n.
Proof.
  intros Hn Hd. destruct (next_move (fun k => rn_phase (run k) = Looping /\ dirty (run k) = true) n)
    as (m & Hle & Hm); [done|..].
  - intros k [Hk _]. eexists. by apply moves_wait.
  - intros k [Hk Hr] Ho. right. destruct (others_phase k Ho) as [H1 H2]. split; [by rewrite H1|by apply dirty_stays].
  - destruct Hm as [Hm|[[Hp Hm] Ho]]; [exists m; by split; [|left]|]. apply (steps_later n (S m)); [lia|].
    pose proof (own_moves m Ho) as H. inversion H as [Hq Heq|? ? ? Heq|? ? ? Heq|? ? ? Heq|? ? Heq|? ? ? ? Heq]; try congruence; clear H.
    assert (Hpr : rn_processed (wait calls (run m)) = rn_processed (run m)) by (unfold wait; by destruct (NextDeadline _ _ _)).
    rewrite Heq in Hpr. pose proof (dirty_stays m Hpr Hm) as Hd'. revert Hd'. rewrite <- Heq at 1.
    assert (Hph : exists d, rn_phase (run (S m)) = Waiting d) by (rewrite <- Heq; unfold wait; destruct (NextDeadline _ _ _); by eexists).
    destruct Hph as [d Hph]. intros Hd'. apply (waiting_steps d); [done|]. left. by apply dirty_stays.
Qed.
End Executions.

(** C7: nothing is slept through. In every fair execution, whatever other goroutines do to
    the engine and the store, during the steps too, as long as those that overlap a step
    publish finitely often ([FinitelyPublished]) and signal what they change
    ([Signalling]): once an accepted change has not been seen by a step, or the deadline of
    the [select] has passed, the loop takes a step, and that step returns, unless the
    context is done first; and while the loop waits after a failed step, the deadline is no
    later than the retry. *)
Theorem no_change_slept_through run own n :
  Execution calls retry run own ->
  (dirty (run n) = true -> steps_from run own n)
  /\ (forall deadline, rn_phase (run n) = Waiting deadline ->
       heeds deadline (rn_retryAt (run n))
       /\ (IsZero deadline = false ->
           (forall m, (n <= m)%nat -> instant deadline <= instant (clock (rn_engine (run m)))) -> steps_from run own n)).
Proof.
  intros Hrun. split.
  - intros Hd. destruct (rn_phase (run n)) as [|d|d| |] eqn:Hp.
    + by apply looping_steps.
    + apply (waiting_steps _ _ Hrun d); [done|by left].
    + apply (received_steps _ _ Hrun d); [done|by left].
    + by apply stepping_steps.
    + exists n. split; [done|]. left. by apply (run_awake run own Hrun n).
  - intros d Hp. split; [by apply (run_awake run own Hrun n)|]. intros Hz Hm. apply (waiting_steps _ _ Hrun d); [done|by right].
Qed.
End Liveness.

(** ** Instances *)

#[export] Instance demo_calls_signalling : Signalling demo_calls.
Proof.
  split; [intros c w|intros f c w [= <-]|intros f w [= <-]|intros f d w [= <-]|intros f t w [= <-]]; (split; [done|by left|done]).
Qed.

Definition result_or {A} (default : A) (r : result A) : A := match r with Done a => a | _ => default end.

Lemma result_or_done {A} (default : A) r :
  match r with Done _ => true | _ => false end = true -> r = Done (result_or default r).
Proof. by destruct r. Qed.

(** The loop draws "b", waits, and "c" is published: it receives the signal, takes a step
    and waits again. *)
Definition demo_retry : Z := dur_mul 2 Second.
Definition demo_idle_runner : Runner (list engine_call) := mkRunner Looping (mkEvaluationSequence 0 0) zero_time false demo_start.
Definition demo0 := result_or demo_idle_runner (start demo_calls demo_retry 3 demo_start).
Definition demo1 := wait demo_calls demo0.
Definition demo_deadline (r : Runner (list engine_call)) : Time :=
  match rn_phase r with Waiting d => d | _ => zero_time end.
Definition demo2 : Runner (list engine_call) :=
  mkRunner (rn_phase demo1) (rn_processed demo1) (rn_retryAt demo1) (rn_cancelled demo1)
    (on_store (fun store => apply_op store (demo_publish "c" 1)) (rn_engine demo1)).
Definition demo3 := receive (demo_deadline demo1) demo2.
Definition demo4 := check demo_calls (demo_deadline demo1) demo3.
Definition demo5 := result_or demo4 (evaluate demo_calls demo_retry 4 demo4).
Definition demo6 := wait demo_calls demo5.

Definition demo_run (n : nat) : Runner (list engine_call) :=
  match n with 0 => demo0 | 1 => demo1 | 2 => demo2 | 3 => demo3 | 4 => demo4 | 5 => demo5 | _ => demo6 end%nat.
Definition demo_own (n : nat) : bool := match n with 0 | 2 | 3 | 4 | 5 => true | _ => false end%nat.

(** A loop that waits with nothing to react to does not move. *)
Lemma waits_quietly {W} (calls : EngineCalls W) retry r deadline r' :
  rn_phase r = Waiting deadline -> elapsed calls deadline (rn_engine r) = false ->
  store_signal (wd_store (rn_engine r).2) = false -> rn_cancelled r = false -> ~ moves calls retry r r'.
Proof. intros Hp He Hs Hc H. destruct H as [Hq|d Hq|d Hq|d Hq Hd|d Hq|fuel r' Hq]; congruence. Qed.

Lemma demo6_rests r' : ~ moves demo_calls demo_retry demo6 r'.
Proof. apply (waits_quietly _ _ _ (demo_deadline demo6)); vm_compute; reflexivity. Qed.

Definition counters_ordered (a b : Runner (list engine_call)) : bool :=
  let x := counters (rn_engine a).2 in let y := counters (rn_engine b).2 in
  (es_store x <=? es_store y) && (es_local x <=? es_local y).

Lemma demo_move0 : moves demo_calls demo_retry demo0 demo1.
Proof. unfold demo1. apply moves_wait. vm_compute. reflexivity. Qed.
Lemma demo_move1 : others demo_calls demo1 demo2.
Proof. unfold demo2. apply others_disturb, di_store. discriminate. Qed.
Lemma demo_move2 : moves demo_calls demo_retry demo2 demo3.
Proof. unfold demo3. apply moves_change; vm_compute; reflexivity. Qed.
Lemma demo_move3 : moves demo_calls demo_retry demo3 demo4.
Proof. unfold demo4. apply moves_check. vm_compute. reflexivity. Qed.
Lemma demo_move4 : moves demo_calls demo_retry demo4 demo5.
Proof. unfold demo5. apply (moves_step _ _ _ 4); [vm_compute; reflexivity|]. apply result_or_done. vm_compute. reflexivity. Qed.
Lemma demo_move5 : moves demo_calls demo_retry demo5 demo6.
Proof. unfold demo6. apply moves_wait. vm_compute. reflexivity. Qed.

(** Nothing happens. *)
Lemma others_nothing {W} (calls : EngineCalls W) r : others calls r r.
Proof.
  pose proof (others_disturb calls r _ (di_rest calls (wd_rest (rn_engine r).2) (rn_engine r))) as H.
  by destruct r as [p q t c [e [s l w]]].
Qed.

Lemma demo_execution : Execution demo_calls demo_retry demo_run demo_own.
Proof.
  split.
  - exists 3%nat, demo_start. split; [apply run_WellFormed|]. apply result_or_done. vm_compute. reflexivity.
  - intros n. destruct n as [|[|[|[|[|[|n]]]]]]; cbn [demo_own].
    + exact demo_move0.
    + exact demo_move1.
    + exact demo_move2.
    + exact demo_move3.
    + exact demo_move4.
    + exact demo_move5.
    + apply others_nothing.
  - intros n. exists (Nat.max n 6). split; [lia|]. right. replace (demo_run (Nat.max n 6)) with demo6; [apply demo6_rests|].
    assert (H : (6 <= Nat.max n 6)%nat) by lia. destruct (Nat.max n 6) as [|[|[|[|[|[|?]]]]]]; [lia..|reflexivity].
  - intros n. assert (H : counters_ordered (demo_run n) (demo_run (S n)) = true).
    { do 6 (destruct n as [|n]; [vm_compute; reflexivity|]). unfold counters_ordered. cbn [demo_run]. by rewrite !Z.leb_refl. }
    apply andb_true_iff in H as [H1%Z.leb_le H2%Z.leb_le]. done.
Qed.

Lemma no_change_slept_through_witness : steps_from demo_calls demo_retry demo_run demo_own 2.
Proof.
  apply (no_change_slept_through demo_calls demo_retry none_pending demo_run demo_own 2 demo_execution). vm_compute. reflexivity.
Defined.
