(* ===== verification/Recorder.v ===== *)
(** * The attention recorder

    Models [src/internal/attention/recorder.go]: the bounded list of decisions in memory
    and the rotated ledger of JSON lines on disk. The file-system calls are the fields of
    [recorderOps], as in the source, over an abstract world; [encoding/json] and
    [crypto/sha256] are parameters. A file is named by its path: the active ledger is
    [rc_path], and the recorder never renames or removes it while it is open. *)

From Stdlib Require Import ZArith Lia.
From S2P Require Import Prelude GoStrings GoTime Protocol Presentation ObservationStore AttentionSelector.
From S2P Require Import LocalState AttentionState GoJson Engine.

Definition RecorderUnavailable : string := "unavailable".
Definition RecorderHealthy : string := "healthy".
Definition RecorderDegraded : string := "degraded".

Record RecorderStatus := mkRecorderStatus {
  st_Phase : string;
  st_LastErrorCode : string;
  st_LastErrorAt : Time;
  st_LastSuccessAt : Time;
  st_LastTraceAt : Time;
  st_LastSequence : Z;
}.

(** ** Numbers in file names *)

(** [strconv.ParseUint(s, 10, 64)] *)
Fixpoint parse_digits (acc : Z) (s : string) : option Z :=
  match s with
  | EmptyString => Some acc
  | String a s' =>
    if between 48 57 (byte a) then
      let acc := 10 * acc + (byte a - 48) in if two64 <=? acc then None else parse_digits acc s'
    else None
  end.
Definition ParseUint (s : string) : option Z := match s with EmptyString => None | _ => parse_digits 0 s end.

(** [filepath.Base] *)
Fixpoint strip_slashes (components : list string) : list string :=
  match components with
  | [] => []
  | c :: cs => if c =s EmptyString then strip_slashes cs else components
  end.
Definition Base (path : string) : string :=
  if path =s EmptyString then "."
  else match strip_slashes (rev (split_byte "/" path)) with [] => "/" | c :: _ => c end.

(** ** Operations on files *)

Section Recorder.
Context {W : Type}.

(** [recorderOps] and the methods of [recorderFile]. *)
Record recorderOps := mkRecorderOps {
  op_mkdirAll : string -> W -> option error * W;
  (** [openFile] with [O_CREATE|O_APPEND|O_RDWR], and with [O_CREATE|O_TRUNC|O_WRONLY] *)
  op_openActive : string -> W -> option error * W;
  op_openArchive : string -> W -> option error * W;
  op_openRead : string -> W -> option error * W;
  op_closeRead : string -> W -> option error * W;
  op_remove : string -> W -> option error * W;
  op_rename : string -> string -> W -> option error * W;
  (** the names of a directory's entries, and whether each is a directory *)
  op_readDir : string -> W -> (list (string * bool) + error) * W;
  (** reads to the end, or to an error *)
  fl_read : string -> W -> (string * option error) * W;
  fl_write : string -> string -> W -> (Z * option error) * W;
  fl_stat : string -> W -> (Z + error) * W;
  fl_chmod : string -> W -> option error * W;
  fl_close : string -> W -> option error * W;
  fl_truncate : string -> Z -> W -> option error * W;
  (** [Seek] to the start and to the end *)
  fl_rewind : string -> W -> option error * W;
  fl_seekEnd : string -> W -> option error * W;
  fl_sync : string -> W -> option error * W;
  op_isNotExist : error -> bool;
  op_now : W -> Time;
}.

Record Recorder := mkRecorder {
  rc_path : string;
  rc_capacity : Z;
  rc_maxBytes : Z;
  rc_retained : Z;
  rc_size : Z;
  rc_next : Z;
  rc_values : list Trace;
  rc_lastKey : string;
  rc_status : RecorderStatus;
  rc_closed : bool;
  rc_archives : list Z;
  rc_nextArchive : Z;
  rc_pendingArchive : bool;
  rc_cleanupPending : bool;
  (** [writeRecoveryPending] and [writeRecoverySize], which is only read under it *)
  rc_writeRecovery : option Z;
}.

Definition set_size (size : Z) (r : Recorder) : Recorder :=
  mkRecorder (rc_path r) (rc_capacity r) (rc_maxBytes r) (rc_retained r) size (rc_next r) (rc_values r) (rc_lastKey r)
    (rc_status r) (rc_closed r) (rc_archives r) (rc_nextArchive r) (rc_pendingArchive r) (rc_cleanupPending r) (rc_writeRecovery r).
Definition set_memory (next : Z) (values : list Trace) (lastKey : string) (r : Recorder) : Recorder :=
  mkRecorder (rc_path r) (rc_capacity r) (rc_maxBytes r) (rc_retained r) (rc_size r) next values lastKey
    (rc_status r) (rc_closed r) (rc_archives r) (rc_nextArchive r) (rc_pendingArchive r) (rc_cleanupPending r) (rc_writeRecovery r).
Definition set_status (status : RecorderStatus) (r : Recorder) : Recorder :=
  mkRecorder (rc_path r) (rc_capacity r) (rc_maxBytes r) (rc_retained r) (rc_size r) (rc_next r) (rc_values r) (rc_lastKey r)
    status (rc_closed r) (rc_archives r) (rc_nextArchive r) (rc_pendingArchive r) (rc_cleanupPending r) (rc_writeRecovery r).
Definition set_closed (r : Recorder) : Recorder :=
  mkRecorder (rc_path r) (rc_capacity r) (rc_maxBytes r) (rc_retained r) (rc_size r) (rc_next r) (rc_values r) (rc_lastKey r)
    (rc_status r) true (rc_archives r) (rc_nextArchive r) (rc_pendingArchive r) (rc_cleanupPending r) (rc_writeRecovery r).
Definition set_archives (archives : list Z) (nextArchive : Z) (pending cleanup : bool) (r : Recorder) : Recorder :=
  mkRecorder (rc_path r) (rc_capacity r) (rc_maxBytes r) (rc_retained r) (rc_size r) (rc_next r) (rc_values r) (rc_lastKey r)
    (rc_status r) (rc_closed r) archives nextArchive pending cleanup (rc_writeRecovery r).
Definition set_writeRecovery (recovery : option Z) (r : Recorder) : Recorder :=
  mkRecorder (rc_path r) (rc_capacity r) (rc_maxBytes r) (rc_retained r) (rc_size r) (rc_next r) (rc_values r) (rc_lastKey r)
    (rc_status r) (rc_closed r) (rc_archives r) (rc_nextArchive r) (rc_pendingArchive r) (rc_cleanupPending r) recovery.

Definition set_pendingArchive (pending : bool) (r : Recorder) : Recorder :=
  set_archives (rc_archives r) (rc_nextArchive r) pending (rc_cleanupPending r) r.
Definition set_cleanupPending (cleanup : bool) (r : Recorder) : Recorder :=
  set_archives (rc_archives r) (rc_nextArchive r) (rc_pendingArchive r) cleanup r.

(** *** Sequencing: the first error ends the function *)

Definition State : Type := Recorder * W.
Definition action : Type := State -> option error * State.

Definition nop : action := fun s => (None, s).
Definition andThen (f g : action) : action := fun s =>
  match f s with (Some err, s) => (Some err, s) | (None, s) => g s end.
Definition lift (f : W -> option error * W) : action := fun s => let '(err, w) := f s.2 in (err, (s.1, w)).
Definition update (f : Recorder -> Recorder) : action := fun s => (None, (f s.1, s.2)).
Definition reads (f : Recorder -> action) : action := fun s => f s.1 s.
(** A call whose error is dropped. *)
Definition ignoring (f : action) : action := fun s => (None, (f s).2).
End Recorder.
Arguments recorderOps : clear implicits.
Arguments State : clear implicits.
Arguments action : clear implicits.

Declare Scope recorder_scope.
Notation "f ;; g" := (andThen f g) (at level 100, g at level 200, right associativity) : recorder_scope.
Open Scope recorder_scope.

(** ** The ledger's records *)

Record semanticEvaluation := mkSemanticEvaluation {
  se_ObservationID : string;
  se_PluginID : string;
  se_InstanceID : string;
  se_Channel : string;
  se_Policy : string;
  se_Disposition : string;
  se_Impact : string;
  se_ReasonCode : string;
  se_Reason : string;
  se_CooldownUntil : Time;
}.

Record semanticTrace := mkSemanticTrace {
  sm_SelectedID : string;
  sm_Outcome : string;
  sm_Evaluations : list semanticEvaluation;
}.

Definition semantic_evaluation (e : Evaluation) : semanticEvaluation :=
  mkSemanticEvaluation (ev_ObservationID e) (ev_PluginID e) (ev_InstanceID e) (ev_Channel e) (ev_Policy e)
    (ev_Disposition e) (ev_Impact e) (ev_ReasonCode e) (ev_Reason e) (ev_CooldownUntil e).

Definition semantic (trace : Trace) : semanticTrace :=
  mkSemanticTrace (tc_SelectedID trace) (tc_Outcome trace) (map semantic_evaluation (tc_Evaluations trace)).

Definition with_Sequence (sequence : Z) (trace : Trace) : Trace :=
  mkTrace sequence (tc_At trace) (tc_SelectedID trace) (tc_Outcome trace) (tc_Evaluations trace).

(** [slices.Clone] of a list of values is the list. *)
Definition cloneTrace (value : Trace) : Trace := with_Sequence (tc_Sequence value) value.

(** The last [capacity] of a list. *)
Definition last_n {A} (capacity : Z) (l : list A) : list A := drop (length l - Z.to_nat capacity) l.

Definition newline : string := String (ascii_of_byte 10) EmptyString.

Section Operations.
Context {W : Type} (ops : recorderOps W).
(** [json.Marshal] and [json.Unmarshal] of a trace, [json.Marshal] of a semantic trace, and
    [sha256]. *)
Context (marshal : Trace -> string + error) (unmarshal : string -> option Trace).
Context (marshalSemantic : semanticTrace -> string + error) (sum256 : string -> string).
Notation State := (State W).
Notation action := (action W).

Definition materialKey (trace : Trace) : string + error := marshalSemantic (semantic trace).

Definition archivePath (r : Recorder) (generation : Z) : string := rc_path r +:+ "." +:+ format_uint generation.
Definition tempPath (r : Recorder) (generation : Z) : string := archivePath r generation +:+ ".tmp".

(** [remove] of a file that may be missing. *)
Definition remove_existing (path : string) : action := lift (fun w =>
  let '(err, w) := op_remove ops path w in
  (match err with Some e => if op_isNotExist ops e then None else Some e | None => None end, w)).

(** ** Failures *)

Definition degraded (code : string) (now : Time) (status : RecorderStatus) : RecorderStatus :=
  mkRecorderStatus RecorderDegraded code (UTC now) (st_LastSuccessAt status) (st_LastTraceAt status) (st_LastSequence status).

Definition set_degraded (code : string) : action := fun s =>
  (None, (set_status (degraded code (op_now ops s.2) (rc_status s.1)) s.1, s.2)).

Definition fail (code : string) (err : error) (s : State) : option error * State := (Some err, (set_degraded code s).2).

(** [if err := f(); err != nil { return r.fail(code, err) }] *)
Definition catch (code : string) (f : action) : action := fun s =>
  match f s with (Some err, s) => fail code err s | (None, s) => (None, s) end.

(** ** Rotation *)

Definition truncateActive : action := reads (fun r =>
  lift (fl_truncate ops (rc_path r) 0) ;; lift (fl_seekEnd ops (rc_path r)) ;; update (set_size 0)).

Fixpoint cleanup_loop (archives : list Z) (s : State) : option error * State :=
  match archives with
  | [] => (None, s)
  | generation :: rest =>
    if Z.of_nat (length archives) <=? rc_retained s.1 then (None, s)
    else match remove_existing (archivePath s.1 generation) s with
         | (Some err, s) => (Some err, s)
         | (None, s) =>
           cleanup_loop rest (set_archives rest (rc_nextArchive s.1) (rc_pendingArchive s.1) (rc_cleanupPending s.1) s.1, s.2)
         end
  end.

Definition cleanupArchives : action := reads (fun r => cleanup_loop (rc_archives r) ;; update (set_cleanupPending false)).

(** The copy of the active ledger, [io.Copy] included: the error of the write, a short
    write, or the error of the read. *)
Definition ErrShortWrite : error := Errorf "short write" [].
Definition io_Copy (destination source : string) (w : W) : option error * W :=
  let '((data, readErr), w) := fl_read ops source w in
  let '((written, writeErr), w) := fl_write ops destination data w in
  (match writeErr with
   | Some err => Some err
   | None => if negb (written =? len data) then Some ErrShortWrite else readErr
   end, w).

Definition copy_active (path temp : string) : action := lift (fun w =>
  let '(copyErr, w) := io_Copy temp path w in
  let '(closeSourceErr, w) := op_closeRead ops path w in
  let '(chmodErr, w) := fl_chmod ops temp w in
  let '(syncErr, w) := fl_sync ops temp w in
  let '(closeArchiveErr, w) := fl_close ops temp w in
  match errors_Join [copyErr; closeSourceErr; chmodErr; syncErr; closeArchiveErr] with
  | Some err => let '(_, w) := op_remove ops temp w in (Some err, w)
  | None => (None, w)
  end).

(** The part of [rotate] under [r.retained > 0]. *)
Definition archive_active : action := reads (fun r =>
  let temp := tempPath r (rc_nextArchive r) in
  lift (fl_sync ops (rc_path r)) ;;
  remove_existing temp ;;
  lift (op_openRead ops (rc_path r)) ;;
  lift (fun w => match op_openArchive ops temp w with
                 | (Some err, w) => let '(_, w) := op_closeRead ops (rc_path r) w in (Some err, w)
                 | (None, w) => (None, w)
                 end) ;;
  copy_active (rc_path r) temp ;;
  lift (fun w => match op_rename ops temp (archivePath r (rc_nextArchive r)) w with
                 | (Some err, w) => let '(_, w) := op_remove ops temp w in (Some err, w)
                 | (None, w) => (None, w)
                 end) ;;
  update (fun r => set_archives (rc_archives r ++ [rc_nextArchive r]) (u64_succ (rc_nextArchive r)) true (rc_cleanupPending r) r)).

(** What [rotate] ends with in both of its branches. *)
Definition finish_rotation : action :=
  truncateActive ;; update (set_pendingArchive false) ;;
  fun s => match cleanupArchives s with
           | (Some err, s) => (Some err, (set_cleanupPending true s.1, s.2))
           | (None, s) => (None, s)
           end.

Definition rotate : action := reads (fun r =>
  if rc_pendingArchive r then finish_rotation
  else (if 0 <? rc_retained r then archive_active else nop) ;; finish_rotation).

(** ** [Append] *)

Definition refreshSize : action := reads (fun r => fun s =>
  match fl_stat ops (rc_path r) s.2 with
  | (inl size, w) => (None, (set_size size s.1, w))
  | (inr _, w) => (None, (s.1, w))
  end).

Definition recoverPartialWrite (size : Z) : action := reads (fun r =>
  lift (fl_truncate ops (rc_path r) size) ;; lift (fl_seekEnd ops (rc_path r)) ;;
  update (fun r => set_writeRecovery None (set_size size r))).

Definition healthy_again (status : RecorderStatus) : RecorderStatus :=
  mkRecorderStatus RecorderHealthy EmptyString zero_time (st_LastSuccessAt status) (st_LastTraceAt status) (st_LastSequence status).

(** A write that failed is rolled back, now or by the next [Append]. *)
Definition roll_back (start : Z) (writeErr : option error) : action := fun s =>
  let writeErr := match writeErr with Some err => Some err | None => Some ErrShortWrite end in
  let '(rollbackErr, w) := fl_truncate ops (rc_path s.1) start s.2 in
  let '(seekErr, w) := fl_seekEnd ops (rc_path s.1) w in
  let r := if is_some rollbackErr || is_some seekErr then set_writeRecovery (Some start) s.1 else s.1 in
  let s := (refreshSize (r, w)).2 in
  match errors_Join [writeErr; rollbackErr; seekErr] with
  | Some err => fail "write_failed" err s
  | None => (None, s)
  end.

Definition write_line (trace : Trace) (key line : string) : action := fun s =>
  let start := rc_size s.1 in
  let '((written, writeErr), w) := fl_write ops (rc_path s.1) line s.2 in
  if is_some writeErr || negb (written =? len line) then roll_back start writeErr (s.1, w)
  else
    let r := set_size (start + len line) s.1 in
    let r := set_memory (tc_Sequence trace) (last_n (rc_capacity r) (rc_values r ++ [trace])) key r in
    (None, (set_status (mkRecorderStatus RecorderHealthy EmptyString zero_time (UTC (op_now ops w)) (tc_At trace)
       (tc_Sequence trace)) r, w)).

Definition append_material (trace : Trace) : action := fun s =>
  match materialKey trace with
  | inr err => fail "encode_failed" err s
  | inl key =>
    if key =s rc_lastKey s.1 then (None, s)
    else
      let trace := with_Sequence (u64_succ (rc_next s.1)) trace in
      match marshal trace with
      | inr err => fail "encode_failed" err s
      | inl line =>
        let line := line +:+ newline in
        ((if (0 <? rc_size s.1) && (rc_maxBytes s.1 <? rc_size s.1 + len line) then catch "rotation_failed" rotate else nop) ;;
         write_line trace key line) s
      end
  end.

(** What an earlier failure left to be done: the tail of a partial write, the truncation of
    an archived ledger, the removal of archives. *)
Definition resume_write : action := reads (fun r =>
  match rc_writeRecovery r with
  | Some size => catch "write_recovery_failed" (recoverPartialWrite size)
  | None => nop
  end).
Definition resume_rotation : action := reads (fun r =>
  if rc_pendingArchive r
  then catch "rotation_failed" rotate ;; update (fun r => set_status (healthy_again (rc_status r)) r)
  else nop).
Definition resume_cleanup : action := reads (fun r =>
  if rc_cleanupPending r then catch "retention_cleanup_failed" cleanupArchives else nop).

Definition Append (trace : Trace) : action := fun s =>
  if rc_closed s.1 then fail "closed" (Errorf "attention recorder is closed" []) s
  else (resume_write ;; resume_rotation ;; resume_cleanup ;; append_material trace) s.

(** ** Readers and [Close] *)

Definition Snapshot (r : Recorder) : option Trace := cloneTrace <$> last (rc_values r).

(** The newest evaluation of an observation. *)
Definition explains (observationID : string) (trace : Trace) : option Evaluation :=
  List.find (fun value => ev_ObservationID value =s observationID) (tc_Evaluations trace).
Fixpoint first_some {A B} (f : A -> option B) (l : list A) : option B :=
  match l with
  | [] => None
  | a :: l' => match f a with Some b => Some b | None => first_some f l' end
  end.
Definition Explain (observationID : string) (r : Recorder) : option Evaluation :=
  first_some (explains observationID) (rev (rc_values r)).

(** The loop that skips the traces older than [since]. *)
Fixpoint skip_before (since : Time) (l : list Trace) : list Trace :=
  match l with
  | [] => []
  | trace :: l' => if negb (IsZero since) && Before (tc_At trace) since then skip_before since l' else l
  end.

Definition History (limit : Z) (since : Time) (r : Recorder) : list Trace :=
  let n := Z.of_nat (length (rc_values r)) in
  let limit := if (limit <=? 0) || (n <? limit) then n else limit in
  map cloneTrace (skip_before since (last_n limit (rc_values r))).

Definition Status (r : Recorder) : RecorderStatus := rc_status r.

Definition Close : action := fun s =>
  if rc_closed s.1 then (None, s) else (update set_closed ;; lift (fl_close ops (rc_path s.1))) s.

(** ** Opening a ledger *)

(** An entry of the directory that is an archive: the prefix and a canonical generation. *)
Definition archive_generation (prefix : string) (entry : string * bool) : option Z :=
  let '(name, isDir) := entry in
  if isDir || negb (HasPrefix name prefix) then None
  else
    let suffix := drop_bytes (String.length prefix) name in
    match ParseUint suffix with
    | None => None
    | Some generation =>
      if (generation =? 0) || negb (format_uint generation =s suffix) then None else Some generation
    end.

Definition initializeArchives : action := reads (fun r => fun s =>
  match op_readDir ops (Dir (rc_path r)) s.2 with
  | (inr err, w) => (Some err, (s.1, w))
  | (inl entries, w) =>
    let archives := SortFunc Z.sub (omap (archive_generation (Base (rc_path r) +:+ ".")) entries) in
    let nextArchive := match last archives with Some generation => u64_succ generation | None => 1 end in
    (None, (set_archives archives nextArchive (rc_pendingArchive s.1) (rc_retained r <? Z.of_nat (length archives)) s.1, w))
  end).

Definition exceeds_bound : error := Errorf "attention recorder ledger exceeds configured bound" [].

(** [boundedHash] of what was read. *)
Definition boundedHash (maxBytes : Z) (data : string * option error) : (string * Z) + error :=
  if maxBytes <? len data.1 then inr exceeds_bound
  else match data.2 with Some err => inr err | None => inl (sum256 data.1, len data.1) end.

(** Reading an archive to the end, with what its [Close] returned. *)
Definition read_archive (path : string) (w : W) : ((string * option error) * option error + error) * W :=
  match op_openRead ops path w with
  | (Some err, w) => (inr err, w)
  | (None, w) =>
    let '(data, w) := fl_read ops path w in
    let '(closeErr, w) := op_closeRead ops path w in (inl (data, closeErr), w)
  end.

Definition detectCommittedArchiveAwaitingTruncate : action := reads (fun r => fun s =>
  match last (rc_archives r) with
  | None => (None, s)
  | Some generation =>
    if rc_size r =? 0 then (None, s) else
    match fl_rewind ops (rc_path r) s.2 with
    | (Some err, w) => (Some err, (s.1, w))
    | (None, w) =>
      let '(data, w) := fl_read ops (rc_path r) w in
      match boundedHash (rc_maxBytes r) data with
      | inr err => (Some err, (s.1, w))
      | inl (activeHash, activeBytes) =>
        match fl_seekEnd ops (rc_path r) w with
        | (Some err, w) => (Some err, (s.1, w))
        | (None, w) =>
          match read_archive (archivePath r generation) w with
          | (inr err, w) => (Some err, (s.1, w))
          | (inl (data, closeErr), w) =>
            let hash := boundedHash (rc_maxBytes r) data in
            match errors_Join [match hash with inr err => Some err | inl _ => None end; closeErr], hash with
            | None, inl (archiveHash, archiveBytes) =>
              if (activeBytes =? archiveBytes) && (activeHash =s archiveHash)
              then (set_degraded "rotation_recovery_pending" ;; update (set_pendingArchive true)) (s.1, w)
              else (None, (s.1, w))
            | err, _ => (err, (s.1, w))
            end
          end
        end
      end
    end
  end).

(** [previous], [recordNumber] and the recorder, while lines are consumed. *)
Definition reading : Type := Z * Z * Recorder.

Definition consumeLine (line : string) (g : reading) : option error * reading :=
  let '(previous, recordNumber, r) := g in
  let recordNumber := recordNumber + 1 in
  match unmarshal line with
  | None => (Some (Errorf "invalid attention trace at record %d" [EInt recordNumber]), (previous, recordNumber, r))
  | Some trace =>
    if (tc_Sequence trace =? 0) || (negb (previous =? 0) && negb (tc_Sequence trace =? u64_succ previous))
    then (errors_New "attention trace sequence is not strictly contiguous", (previous, recordNumber, r))
    else match materialKey trace with
         | inr err => (Some err, (tc_Sequence trace, recordNumber, r))
         | inl key =>
           (None, (tc_Sequence trace, recordNumber,
                   set_memory (tc_Sequence trace) (last_n (rc_capacity r) (rc_values r ++ [cloneTrace trace])) key r))
         end
  end.

(** The lines of what was read, the last of them without its newline. *)
Fixpoint consume_pieces (pieces : list string) (readErr : option error) (maxBytes total validBytes : Z) (g : reading)
    : (Z * bool * option error) * reading :=
  match pieces with
  | [] => ((validBytes, false, None), g)
  | [line] =>
    if maxBytes <? total + len line then ((validBytes, false, Some exceeds_bound), g)
    else match readErr with
         | Some err => ((validBytes, false, Some err), g)
         | None => ((validBytes, negb (line =s EmptyString), None), g)
         end
  | line :: pieces =>
    let total := total + len line + 1 in
    if maxBytes <? total then ((validBytes, false, Some exceeds_bound), g)
    else match consumeLine line g with
         | (Some err, g) => ((validBytes, false, Some err), g)
         | (None, g) => consume_pieces pieces readErr maxBytes total total g
         end
  end.

Definition consumeJSONLines (data : string * option error) (maxBytes : Z) (g : reading) : (Z * bool * option error) * reading :=
  consume_pieces (split_byte (ascii_of_byte 10) data.1) data.2 maxBytes 0 0 g.

(** The loop of [restoreLedger] over the archives. *)
Fixpoint restore_archives (archives : list Z) (g : reading) (w : W) : option error * reading * W :=
  match archives with
  | [] => (None, g, w)
  | generation :: archives =>
    match read_archive (archivePath g.2 generation) w with
    | (inr err, w) => (Some err, g, w)
    | (inl (data, closeErr), w) =>
      let '((_, partial, readErr), g) := consumeJSONLines data (rc_maxBytes g.2) g in
      match errors_Join [readErr; closeErr] with
      | Some err => (Some err, g, w)
      | None =>
        if partial then (errors_New "attention recorder archive has a partial trailing record", g, w)
        else restore_archives archives g w
      end
    end
  end.

Definition restored_status (r : Recorder) : RecorderStatus :=
  match last (rc_values r) with
  | None => rc_status r
  | Some latest => mkRecorderStatus (st_Phase (rc_status r)) (st_LastErrorCode (rc_status r)) (st_LastErrorAt (rc_status r))
      (tc_At latest) (tc_At latest) (tc_Sequence latest)
  end.

(** The part of [restoreLedger] that reads the active ledger. *)
Definition restore_active (g : reading) (w : W) : option error * State :=
  let r := g.2 in
  if rc_maxBytes r <? rc_size r then (errors_New "attention recorder active ledger exceeds configured bound", (r, w)) else
  match fl_rewind ops (rc_path r) w with
  | (Some err, w) => (Some err, (r, w))
  | (None, w) =>
    let '(data, w) := fl_read ops (rc_path r) w in
    let '((validEnd, partial, err), (_, _, r)) := consumeJSONLines data (rc_maxBytes r) g in
    match err with
    | Some err => (Some err, (r, w))
    | None =>
      ((if partial then lift (fl_truncate ops (rc_path r) validEnd) ;; set_degraded "trailing_partial_recovered" else nop) ;;
       lift (fl_seekEnd ops (rc_path r)) ;;
       update (fun r => let r := set_size validEnd r in set_status (restored_status r) r)) (r, w)
    end
  end.

Definition restoreLedger : action := fun s =>
  let '(err, g, w) := restore_archives (rc_archives s.1) (0, 0, s.1) s.2 in
  match err with
  | Some err => (Some err, (g.2, w))
  | None => restore_active g w
  end.

Definition fresh (path : string) (capacity maxBytes retained size : Z) : Recorder :=
  mkRecorder path capacity maxBytes retained size 0 [] EmptyString
    (mkRecorderStatus RecorderHealthy EmptyString zero_time zero_time zero_time 0) false [] 0 false false None.

(** [newRecorder] once the ledger is open. *)
Definition recover : action :=
  initializeArchives ;;
  detectCommittedArchiveAwaitingTruncate ;;
  reads (fun r => if rc_pendingArchive r then truncateActive ;; update (set_pendingArchive false) else nop) ;;
  reads (fun r => if rc_cleanupPending r
                  then fun s => match cleanupArchives s with
                                | (Some _, s) => set_degraded "retention_cleanup_failed" s
                                | (None, s) => (None, s)
                                end
                  else nop) ;;
  restoreLedger.

Definition newRecorder (path : string) (capacity maxBytes retained : Z) (w : W) : (Recorder + error) * W :=
  if (path =s EmptyString) || (capacity <? 1) || (maxBytes <? 1) || (retained <? 0)
  then (inr (Errorf "attention recorder requires valid path and positive bounds" []), w)
  else
    match op_mkdirAll ops (Dir path) w with
    | (Some err, w) => (inr err, w)
    | (None, w) =>
      match op_openActive ops path w with
      | (Some err, w) => (inr err, w)
      | (None, w) =>
        let closing err w := let '(_, w) := fl_close ops path w in (inr err, w) in
        match fl_chmod ops path w with
        | (Some err, w) => closing err w
        | (None, w) =>
          match fl_stat ops path w with
          | (inr err, w) => closing err w
          | (inl size, w) =>
            match recover (fresh path capacity maxBytes retained size, w) with
            | (Some err, (_, w)) => closing err w
            | (None, (r, w)) => (inl r, w)
            end
          end
        end
      end
    end.
End Operations.
