(* ===== verification/RecorderFiles.v ===== *)
(** * The files of the attention recorder

    The documented behaviour of the file operations of [Recorder], the names of archives,
    and the text of a ledger: lines of JSON, each with its newline. *)

From Stdlib Require Import ZArith Lia ZifyBool Sorted.
From S2P Require Import Prelude GoStrings GoTime Protocol Presentation ObservationStore AttentionSelector.
From S2P Require Import LocalState GoJson Engine Recorder.

(** ** Archive names *)

Definition digits (s : string) : bool := forall_bytes (between 48 57) s.

Lemma digits_format_from fuel n : 0 <= n -> digits (format_uint_from fuel n) = true.
Proof.
  assert (Hd : forall m, 0 <= m < 10 -> digits (digit m) = true).
  { intros m Hm. unfold digits, digit. cbn [forall_bytes]. rewrite byte_ascii_of_byte by lia. unfold between. lia. }
  revert n. induction fuel as [|fuel IH]; intros n Hn; cbn [format_uint_from].
  - apply Hd, Z.mod_pos_bound. lia.
  - destruct (Z.ltb_spec n 10); [by apply Hd|]. unfold digits in *. rewrite forall_bytes_app, andb_true_iff. split.
    + apply IH, Z.div_pos; lia.
    + apply Hd, Z.mod_pos_bound. lia.
Qed.

Lemma decimal_value_ge s acc : 0 <= acc -> digits s = true -> acc <= decimal_value acc s.
Proof.
  revert acc. induction s as [|a s IH]; intros acc Hacc; cbn [decimal_value]; [lia|].
  unfold digits. cbn [forall_bytes]. rewrite andb_true_iff. unfold between at 1. intros [Ha Hs].
  specialize (IH (10 * acc + (byte a - 48)) ltac:(lia) Hs). lia.
Qed.

Lemma parse_digits_value s acc :
  0 <= acc -> digits s = true -> decimal_value acc s < two64 -> parse_digits acc s = Some (decimal_value acc s).
Proof.
  revert acc. induction s as [|a s IH]; intros acc Hacc; cbn [parse_digits decimal_value]; [done|].
  unfold digits. cbn [forall_bytes]. rewrite andb_true_iff. intros [Ha Hs] Hv. rewrite Ha. unfold between in Ha.
  pose proof (decimal_value_ge s (10 * acc + (byte a - 48)) ltac:(lia) Hs).
  cbv zeta. destruct (Z.leb_spec two64 (10 * acc + (byte a - 48))); [lia|]. apply IH; [lia|done|done].
Qed.

Lemma parse_digits_only s acc n : parse_digits acc s = Some n -> digits s = true.
Proof.
  revert acc. induction s as [|a s IH]; intros acc; cbn [parse_digits]; [done|]. unfold digits. cbn [forall_bytes].
  destruct (between 48 57 (byte a)); [|done]. cbv zeta. destruct (_ <=? _); [done|]. apply IH.
Qed.

Lemma ParseUint_format n : 0 <= n < two64 -> ParseUint (format_uint n) = Some n.
Proof.
  intros Hn. assert (Hv : decimal_value 0 (format_uint n) = n).
  { apply (decimal_value_format_from 19). assert (two64 <= 10 ^ (Z.of_nat 19 + 1)) by (vm_compute; discriminate). lia. }
  assert (H : parse_digits 0 (format_uint n) = Some n).
  { rewrite parse_digits_value; [by rewrite Hv|lia|apply digits_format_from; lia|lia]. }
  pose proof (len_format_uint n). unfold ParseUint. destruct (format_uint n); [|done]. unfold len in *. simpl in *. lia.
Qed.

Lemma archive_generation_iff prefix name g :
  archive_generation prefix (name, false) = Some g <-> name = prefix +:+ format_uint g /\ 0 < g < two64.
Proof.
  unfold archive_generation. cbn [orb]. split.
  - destruct (HasPrefix name prefix) eqn:Hp; cbn [negb]; [|done]. apply HasPrefix_app in Hp as [rest ->].
    rewrite drop_bytes_app. destruct (ParseUint rest) as [n|] eqn:Hn; [|done].
    destruct (Z.eqb_spec n 0) as [|Hz]; cbn [orb]; [done|]. destruct (String.eqb_spec (format_uint n) rest) as [<-|]; cbn [negb]; [|done].
    intros [= <-]. split; [done|]. assert (Hr : forall s acc m, 0 <= acc < two64 -> parse_digits acc s = Some m -> 0 <= m < two64).
    { intros s. induction s as [|a s IH]; intros acc m Hacc; cbn [parse_digits]; [by intros [= <-]|].
      destruct (between 48 57 (byte a)) eqn:Hb; [|done]. unfold between in Hb. cbv zeta.
      destruct (Z.leb_spec two64 (10 * acc + (byte a - 48))); [done|]. apply IH. lia. }
    unfold ParseUint in Hn. destruct (format_uint n); [done|]. apply Hr in Hn; [lia|]. unfold two64. lia.
  - intros [-> Hg]. assert (Hp : HasPrefix (prefix +:+ format_uint g) prefix = true) by (apply HasPrefix_app; by eexists).
    rewrite Hp, drop_bytes_app, ParseUint_format by lia. cbn [negb].
    destruct (Z.eqb_spec g 0); [lia|]. by rewrite String.eqb_refl.
Qed.

(** The temporary name of an archive is not the name of one. *)
Lemma temp_not_archive path a b : 0 <= a -> 0 <= b ->
  (path +:+ "." +:+ format_uint a) +:+ ".tmp" <> path +:+ "." +:+ format_uint b.
Proof.
  intros Ha Hb H. rewrite !append_assoc in H. apply append_inj_l in H. injection H as H.
  pose proof (digits_format_from 19 b Hb) as Hd. fold (format_uint b) in Hd. rewrite <- H in Hd.
  unfold digits in Hd. rewrite forall_bytes_app in Hd. apply andb_true_iff in Hd as [_ Hd]. by vm_compute in Hd.
Qed.

Lemma longer_path path suffix : suffix <> EmptyString -> path +:+ suffix <> path.
Proof. intros Hne H. apply (f_equal len) in H. rewrite len_app in H. by apply Hne, len_0; lia. Qed.

(** A path with a directory and a name. *)
Definition no_slash (s : string) : bool := forall_bytes (fun b => negb (b =? byte "/")) s.
Definition canonical (path : string) : Prop := path = Dir path +:+ "/" +:+ Base path /\ no_slash (Base path) = true.

Lemma digits_no_slash n : 0 <= n -> no_slash (format_uint n) = true.
Proof.
  intros Hn. pose proof (digits_format_from 19 n Hn) as H. fold (format_uint n) in H. unfold digits, no_slash in *.
  induction (format_uint n) as [|a s IH]; [done|]. cbn [forall_bytes] in *. apply andb_true_iff in H as [Ha Hs].
  rewrite (IH Hs), andb_true_r. unfold between in Ha. change (byte "/") with 47. lia.
Qed.

(** ** The operations on files

    [content w path] is what the file at [path] holds. A failed operation changes no file,
    but a failed write may have written a part, a failed [openActive] may have created the
    file, and a failed [openArchive] may have done anything to its file. Nobody else
    touches the recorder's files. *)
Class LedgerFiles {W} (ops : recorderOps W) (content : W -> string -> option string) : Prop := {
  lf_mkdirAll d w q : content (op_mkdirAll ops d w).2 q = content w q;
  lf_openRead p w q : content (op_openRead ops p w).2 q = content w q;
  lf_closeRead p w q : content (op_closeRead ops p w).2 q = content w q;
  lf_readDir d w q : content (op_readDir ops d w).2 q = content w q;
  lf_read p w q : content (fl_read ops p w).2 q = content w q;
  lf_stat p w q : content (fl_stat ops p w).2 q = content w q;
  lf_chmod p w q : content (fl_chmod ops p w).2 q = content w q;
  lf_close p w q : content (fl_close ops p w).2 q = content w q;
  lf_rewind p w q : content (fl_rewind ops p w).2 q = content w q;
  lf_seekEnd p w q : content (fl_seekEnd ops p w).2 q = content w q;
  lf_sync p w q : content (fl_sync ops p w).2 q = content w q;
  (** what is read *)
  lf_read_all p w s : (fl_read ops p w).1 = (s, None) -> content w p = Some s;
  lf_stat_size p w n c : (fl_stat ops p w).1 = inl n -> content w p = Some c -> n = len c;
  lf_readDir_names path generation w entries :
    canonical path -> 0 <= generation -> (op_readDir ops (Dir path) w).1 = inl entries ->
    (Base path +:+ "." +:+ format_uint generation, false) ∈ entries
    <-> is_Some (content w (path +:+ "." +:+ format_uint generation));
  lf_readDir_once d w entries : (op_readDir ops d w).1 = inl entries -> NoDup entries;
  (** what is changed *)
  lf_openActive p w q : q <> p -> content (op_openActive ops p w).2 q = content w q;
  lf_openActive_same p w : content (op_openActive ops p w).2 p = content w p
    \/ content w p = None /\ content (op_openActive ops p w).2 p = Some EmptyString;
  lf_openActive_ok p w : (op_openActive ops p w).1 = None -> is_Some (content (op_openActive ops p w).2 p);
  lf_openArchive p w q : q <> p -> content (op_openArchive ops p w).2 q = content w q;
  lf_openArchive_ok p w : (op_openArchive ops p w).1 = None -> content (op_openArchive ops p w).2 p = Some EmptyString;
  lf_remove p w q : q <> p -> content (op_remove ops p w).2 q = content w q;
  lf_remove_ok p w : (op_remove ops p w).1 = None -> content (op_remove ops p w).2 p = None;
  lf_remove_failed p w err : (op_remove ops p w).1 = Some err ->
    content (op_remove ops p w).2 p = content w p /\ (op_isNotExist ops err = true -> content w p = None);
  lf_rename p q w x : x <> p -> x <> q -> content (op_rename ops p q w).2 x = content w x;
  lf_rename_ok p q w : p <> q -> (op_rename ops p q w).1 = None ->
    content (op_rename ops p q w).2 q = content w p /\ content (op_rename ops p q w).2 p = None;
  lf_rename_failed p q w err x : (op_rename ops p q w).1 = Some err -> content (op_rename ops p q w).2 x = content w x;
  lf_write p line w q : q <> p -> content (fl_write ops p line w).2 q = content w q;
  lf_write_part p line w c : content w p = Some c ->
    0 <= (fl_write ops p line w).1.1 <= len line
    /\ content (fl_write ops p line w).2 p = Some (c +:+ take_bytes (Z.to_nat (fl_write ops p line w).1.1) line);
  lf_truncate p n w q : q <> p -> content (fl_truncate ops p n w).2 q = content w q;
  lf_truncate_ok p n w c : (fl_truncate ops p n w).1 = None -> content w p = Some c -> 0 <= n <= len c ->
    content (fl_truncate ops p n w).2 p = Some (take_bytes (Z.to_nat n) c);
  lf_truncate_failed p n w err : (fl_truncate ops p n w).1 = Some err ->
    content (fl_truncate ops p n w).2 p = content w p;
}.

(** Operations that work, on the files they are called with. *)
Record Reliable {W} (ops : recorderOps W) (content : W -> string -> option string) : Prop := {
  rl_mkdirAll d w : (op_mkdirAll ops d w).1 = None;
  rl_openActive p w : (op_openActive ops p w).1 = None;
  rl_openRead p w : is_Some (content w p) -> (op_openRead ops p w).1 = None;
  rl_closeRead p w : (op_closeRead ops p w).1 = None;
  rl_remove p w : is_Some (content w p) -> (op_remove ops p w).1 = None;
  rl_readDir d w : exists entries, (op_readDir ops d w).1 = inl entries;
  rl_read p w : is_Some (content w p) -> (fl_read ops p w).1.2 = None;
  rl_stat p w : is_Some (content w p) -> exists n, (fl_stat ops p w).1 = inl n;
  rl_chmod p w : (fl_chmod ops p w).1 = None;
  rl_truncate p n w : (fl_truncate ops p n w).1 = None;
  rl_rewind p w : (fl_rewind ops p w).1 = None;
  rl_seekEnd p w : (fl_seekEnd ops p w).1 = None;
}.

(** ** The text of a ledger *)

(** A record and its line. *)
Notation entry := (Trace * string)%type.

Definition no_newline (s : string) : bool := forall_bytes (fun b => negb (b =? byte (ascii_of_byte 10))) s.

Fixpoint text (l : list entry) : string :=
  match l with
  | [] => EmptyString
  | e :: l => (e.2 +:+ newline) +:+ text l
  end.

Lemma text_app l l' : text (l ++ l') = text l +:+ text l'.
Proof. induction l as [|e l IH]; cbn [text app]; [done|]. rewrite IH. symmetry. apply append_assoc. Qed.

Lemma text_snoc l e : text (l ++ [e]) = text l +:+ (e.2 +:+ newline).
Proof. rewrite text_app. cbn [text]. by rewrite append_nil_r. Qed.

Lemma len_newline : len newline = 1.
Proof. done. Qed.

Lemma split_text l torn :
  Forall (fun e => no_newline e.2 = true) l -> no_newline torn = true ->
  split_byte (ascii_of_byte 10) (text l +:+ torn) = map snd l ++ [torn].
Proof.
  intros Hl Ht. induction Hl as [|e l He _ IH]; cbn [text map app]; [by apply split_byte_none|].
  rewrite !append_assoc. unfold newline at 1. cbn [String.append].
  rewrite split_byte_app by exact He. by rewrite IH.
Qed.

(** A part of a line with its newline is a part of the line, or all of it. *)
Lemma take_line n line :
  no_newline line = true -> no_newline (take_bytes n (line +:+ newline)) = true \/ take_bytes n (line +:+ newline) = line +:+ newline.
Proof.
  intros Hl. revert n. induction line as [|a line IH]; intros [|n]; cbn [String.append take_bytes].
  - by left.
  - right. unfold newline. cbn [take_bytes]. by destruct n.
  - by left.
  - unfold no_newline in *. cbn [forall_bytes] in *. apply andb_true_iff in Hl as [Ha Hl]. rewrite Ha. cbn [andb].
    destruct (IH Hl n) as [H|H]; [by left|right]. by rewrite H.
Qed.
