(* ===== verification/RecorderLedger.v ===== *)
(** * The ledger survives

    What the recorder keeps on disk and in memory, and that every [Append] preserves it
    whichever file operations fail. A crash is the special case in which every operation
    from some point on fails without an effect. *)

From Stdlib Require Import ZArith Lia ZifyBool Sorted.
From S2P Require Import Prelude GoStrings GoTime Protocol Presentation ObservationStore AttentionSelector.
From S2P Require Import LocalState GoJson Engine Recorder RecorderFiles.

(** The documented behaviour of [encoding/json] on traces: a marshalled trace has no
    newline, and reading it back gives the trace up to the representation [norm] of its
    times, which neither the sequence nor the material key depend on. *)
Class TraceCodec (marshal : Trace -> string + error) (unmarshal : string -> option Trace)
    (marshalSemantic : semanticTrace -> string + error) (norm : Trace -> Trace) : Prop := {
  cd_line t line : marshal t = inl line -> no_newline line = true /\ unmarshal line = Some (norm t);
  cd_norm t : norm (norm t) = norm t;
  cd_sequence t : tc_Sequence (norm t) = tc_Sequence t;
  cd_key t : materialKey marshalSemantic (norm t) = materialKey marshalSemantic t;
}.

Section Ledger.
Context {W : Type} (ops : recorderOps W) (content : W -> string -> option string) `{!LedgerFiles ops content}.
Context (marshal : Trace -> string + error) (unmarshal : string -> option Trace)
  (marshalSemantic : semanticTrace -> string + error) (norm : Trace -> Trace)
  `{!TraceCodec marshal unmarshal marshalSemantic norm}.
Notation key := (materialKey marshalSemantic).
Notation State := (State W).

(** ** The invariant *)

(** A line that can be read back, and fits. *)
Record valid_entry (maxBytes : Z) (e : entry) : Prop := {
  ve_read : unmarshal e.2 = Some e.1;
  ve_line : no_newline e.2 = true;
  ve_norm : norm e.1 = e.1;
  ve_sequence : 0 < tc_Sequence e.1 < two64;
  ve_key : exists k, key e.1 = inl k;
  ve_fits : len e.2 + 1 <= maxBytes;
}.

(** Every record has the sequence after the one before. *)
Definition contiguous (l : list entry) : Prop :=
  forall l1 a b l2, l = l1 ++ a :: b :: l2 -> tc_Sequence b.1 = tc_Sequence a.1 + 1.

(** What may be left behind the last whole record: a part of a line, or all of it. *)
Definition remainder (maxBytes next : Z) (torn : string) : Prop :=
  no_newline torn = true
  \/ exists e, torn = e.2 +:+ newline /\ valid_entry maxBytes e /\ tc_Sequence e.1 = next + 1.

(** The records of the ledger: an archived ledger that is still to be truncated counts once. *)
Definition records (r : Recorder) (olds : list (list entry)) (cur : list entry) : list entry :=
  concat olds ++ (if rc_pendingArchive r then [] else cur).

(** The archives: those of the list and no others. *)
Record Archived (r : Recorder) (w : W) (olds : list (list entry)) : Prop := {
  ar_content : Forall2 (fun g es => content w (archivePath r g) = Some (text es)) (rc_archives r) olds;
  ar_absent g : 0 < g < two64 -> g ∉ rc_archives r -> content w (archivePath r g) = None;
  ar_sorted : StronglySorted Z.lt (rc_archives r);
  ar_range : 0 < rc_nextArchive r < two64 /\ Forall (fun g => 0 < g < rc_nextArchive r) (rc_archives r);
  ar_olds : Forall (fun es => es <> [] /\ len (text es) <= rc_maxBytes r) olds;
}.

(** The last record is the one the recorder remembers. *)
Definition remembered (r : Recorder) (l : list entry) : Prop :=
  contiguous l
  /\ match last l with
     | Some e => tc_Sequence e.1 = rc_next r /\ key e.1 = inl (rc_lastKey r)
     | None => rc_next r = 0 /\ rc_lastKey r = EmptyString
     end
  /\ exists gone, map norm (rc_values r) = last_n (rc_capacity r) (gone ++ map fst l).

Record Ledger (r : Recorder) (w : W) (olds : list (list entry)) (cur : list entry) (torn : string) : Prop := {
  lg_bounds : 1 <= rc_retained r /\ 1 <= rc_capacity r /\ 0 <= rc_next r < two64;
  lg_archived : Archived r w olds;
  lg_active : content w (rc_path r) = Some (text cur +:+ torn);
  lg_whole : rc_writeRecovery r = None -> torn = EmptyString /\ (rc_pendingArchive r = false -> rc_size r = len (text cur));
  lg_torn k : rc_writeRecovery r = Some k ->
    k = len (text cur) /\ rc_pendingArchive r = false /\ remainder (rc_maxBytes r) (rc_next r) torn;
  lg_pending : rc_pendingArchive r = true -> olds <> [] /\ (cur = [] \/ last olds = Some cur);
  lg_valid : Forall (valid_entry (rc_maxBytes r)) (concat olds ++ cur);
  lg_bytes : len (text cur +:+ torn) <= rc_maxBytes r;
  lg_remembered : remembered r (records r olds cur);
}.

(** The recorder and the disk hold the records [l]. *)
Definition Holds (s : State) (l : list entry) : Prop :=
  exists olds cur torn, Ledger s.1 s.2 olds cur torn /\ records s.1 olds cur = l.

(** What no action on the files changes. *)
Record frame (r r' : Recorder) : Prop := {
  fr_path : rc_path r' = rc_path r;
  fr_bounds : rc_capacity r' = rc_capacity r /\ rc_maxBytes r' = rc_maxBytes r /\ rc_retained r' = rc_retained r;
  fr_memory : rc_next r' = rc_next r /\ rc_lastKey r' = rc_lastKey r;
  fr_closed : rc_closed r' = rc_closed r;
  fr_values : rc_values r' = rc_values r;
}.

#[export] Instance frame_preorder : PreOrder frame.
Proof.
  split; [by intros r|]. intros r1 r2 r3 [A1 (B1 & C1 & D1) (E1 & F1) G1 V1] [A2 (B2 & C2 & D2) (E2 & F2) G2 V2].
  split; [congruence| |split; congruence|congruence..]. split; [congruence|split; congruence].
Qed.

(** The records are kept, but for the oldest ones. *)
Definition keeps (s s' : State) : Prop :=
  frame s.1 s'.1 /\ forall l, Holds s l -> exists dropped l', l = dropped ++ l' /\ Holds s' l'.

#[export] Instance keeps_preorder : PreOrder keeps.
Proof.
  split.
  - intros s. split; [done|]. intros l H. by exists [], l.
  - intros s1 s2 s3 [F1 H1] [F2 H2]. split; [by etrans|]. intros l (d1 & l1 & -> & H)%H1.
    destruct (H2 _ H) as (d2 & l2 & -> & H'). exists (d1 ++ d2), l2. by rewrite app_assoc.
Qed.

(** ** Lists *)

Lemma contiguous_suffix l l' : contiguous (l ++ l') -> contiguous l'.
Proof. intros H l1 a b l2 ->. apply (H (l ++ l1) a b l2). by rewrite app_assoc. Qed.

Lemma contiguous_snoc l e :
  contiguous l -> match last l with Some a => tc_Sequence e.1 = tc_Sequence a.1 + 1 | None => True end ->
  contiguous (l ++ [e]).
Proof.
  intros Hl He l1 a b l2 Heq. destruct (decide (l2 = [])) as [->|Hne].
  - assert (Hl' : l = l1 ++ [a] /\ e = b).
    { apply (app_inj_tail l (l1 ++ [a]) e b). by rewrite Heq, <- app_assoc. }
    destruct Hl' as [-> ->]. rewrite last_snoc in He. exact He.
  - destruct (exists_last Hne) as (l3 & x & ->).
    assert (Hl' : l = l1 ++ a :: b :: l3).
    { refine (proj1 (app_inj_tail l (l1 ++ a :: b :: l3) e x _)). rewrite Heq, <- app_assoc. reflexivity. }
    by eapply Hl.
Qed.

Lemma last_n_all {A} n (l : list A) : (length l <= Z.to_nat n)%nat -> last_n n l = l.
Proof. intros H. unfold last_n. by replace (length l - Z.to_nat n)%nat with 0%nat by lia. Qed.

Lemma last_n_app {A} n (l l' : list A) : (Z.to_nat n <= length l')%nat -> last_n n (l ++ l') = last_n n l'.
Proof. intros H. unfold last_n. rewrite length_app, drop_app_ge by lia. f_equal. lia. Qed.

Lemma length_last_n {A} n (l : list A) : (length (last_n n l) <= Z.to_nat n)%nat.
Proof. unfold last_n. rewrite length_drop. lia. Qed.

Lemma last_n_split {A} n (l : list A) : exists gone, l = gone ++ last_n n l.
Proof. exists (take (length l - Z.to_nat n) l). unfold last_n. by rewrite take_drop. Qed.

Lemma last_n_snoc {A} n (l : list A) x : 1 <= n -> last_n n (last_n n l ++ [x]) = last_n n (l ++ [x]).
Proof.
  intros Hn. destruct (decide (length l <= Z.to_nat n)%nat) as [H|H]; [by rewrite (last_n_all n l)|].
  destruct (last_n_split n l) as [gone Hl]. rewrite Hl at 2. rewrite <- app_assoc.
  rewrite (last_n_app n gone (last_n n l ++ [x])); [done|].
  rewrite length_app. unfold last_n at 1. rewrite length_drop. simpl. lia.
Qed.

Lemma last_n_map {A B} (f : A -> B) n l : map f (last_n n l) = last_n n (map f l).
Proof. unfold last_n. rewrite length_map. symmetry. apply skipn_map. Qed.

(** ** Paths *)

Lemma archive_not_active r g : archivePath r g <> rc_path r.
Proof. unfold archivePath. by apply longer_path. Qed.

Lemma temp_not_active r g : tempPath r g <> rc_path r.
Proof. unfold tempPath, archivePath. rewrite !append_assoc. by apply longer_path. Qed.

Lemma archive_inj r a b : 0 <= a < two64 -> 0 <= b < two64 -> archivePath r a = archivePath r b -> a = b.
Proof. intros Ha Hb H. unfold archivePath in H. do 2 apply append_inj_l in H. by apply format_uint_inj. Qed.

Lemma archive_not_temp r a b : 0 <= a -> 0 <= b -> archivePath r b <> tempPath r a.
Proof.
  intros Ha Hb H. symmetry in H. revert H. unfold tempPath, archivePath. by apply temp_not_archive.
Qed.
(** ** Moving the invariant *)

Lemma Archived_files r w w' olds :
  (forall g, 0 < g < two64 -> content w' (archivePath r g) = content w (archivePath r g)) ->
  Archived r w olds -> Archived r w' olds.
Proof.
  intros Ha [H1 H2 H3 [H4 H5] H6]. split; try done.
  - assert (Hr : Forall (fun g => 0 < g < two64) (rc_archives r)) by (eapply Forall_impl; [exact H5|simpl; lia]).
    clear - Ha Hr H1. induction H1 as [|g es gs olds Hg _ IH]; [constructor|].
    apply Forall_cons in Hr as [Hr1 Hr2]. constructor; [by rewrite Ha|auto].
  - intros g Hg Hin. rewrite Ha by done. auto.
Qed.

(** Only the ledger's own files matter. *)
Lemma Ledger_files r w w' olds cur torn :
  content w' (rc_path r) = content w (rc_path r) ->
  (forall g, 0 < g < two64 -> content w' (archivePath r g) = content w (archivePath r g)) ->
  Ledger r w olds cur torn -> Ledger r w' olds cur torn.
Proof. intros Hp Ha []. split; try done; [by eapply Archived_files|by rewrite Hp]. Qed.

Lemma Ledger_same r w w' olds cur torn :
  (forall q, content w' q = content w q) -> Ledger r w olds cur torn -> Ledger r w' olds cur torn.
Proof. intros H. apply Ledger_files; intros; apply H. Qed.

(** The status and the flags of the clean-up and of [Close] do not matter. *)
Lemma Ledger_status status r w olds cur torn : Ledger r w olds cur torn -> Ledger (set_status status r) w olds cur torn.
Proof. intros []. by destruct lg_archived0; split. Qed.
Lemma Ledger_cleanup b r w olds cur torn : Ledger r w olds cur torn -> Ledger (set_cleanupPending b r) w olds cur torn.
Proof. intros []. by destruct lg_archived0; split. Qed.

Lemma Holds_keeps s s' :
  frame s.1 s'.1 ->
  (forall olds cur torn, Ledger s.1 s.2 olds cur torn ->
     exists cur' torn', Ledger s'.1 s'.2 olds cur' torn' /\ records s'.1 olds cur' = records s.1 olds cur) ->
  keeps s s'.
Proof.
  intros Hf H. split; [done|]. intros l (olds & cur & torn & HL & <-). destruct (H _ _ _ HL) as (cur' & torn' & HL' & Hl).
  exists [], (records s.1 olds cur). split; [done|]. by exists olds, cur', torn'.
Qed.

(** A call that changes no file. *)
Lemma keeps_same (f : W -> option error * W) s :
  (forall w q, content (f w).2 q = content w q) -> keeps s (lift f s).2.
Proof.
  intros Hf. unfold lift. specialize (Hf s.2). destruct (f s.2) as [err w]. cbn [snd] in *.
  apply Holds_keeps; [done|]. intros olds cur torn H. exists cur, torn. split; [by eapply Ledger_same|done].
Qed.

Lemma keeps_status status s : keeps s (set_status status s.1, s.2).
Proof. apply Holds_keeps; [done|]. intros olds cur torn H. exists cur, torn. split; [by apply Ledger_status|done]. Qed.

Lemma keeps_cleanup b s : keeps s (set_cleanupPending b s.1, s.2).
Proof. apply Holds_keeps; [done|]. intros olds cur torn H. exists cur, torn. split; [by apply Ledger_cleanup|done]. Qed.

(** What an action leaves alone: the flags and counters of the recorder. *)
Definition same_flags (r r' : Recorder) : Prop :=
  rc_pendingArchive r' = rc_pendingArchive r /\ rc_nextArchive r' = rc_nextArchive r /\ rc_writeRecovery r' = rc_writeRecovery r.

(** ** Truncation *)

Lemma truncate_cases p n w c :
  content w p = Some c -> 0 <= n <= len c ->
  (forall q, q <> p -> content (fl_truncate ops p n w).2 q = content w q)
  /\ match (fl_truncate ops p n w).1 with
     | None => content (fl_truncate ops p n w).2 p = Some (take_bytes (Z.to_nat n) c)
     | Some _ => content (fl_truncate ops p n w).2 p = content w p
     end.
Proof.
  intros Hc Hn. split; [intros q Hq; by apply lf_truncate|].
  destruct (fl_truncate ops p n w).1 eqn:E; [by eapply lf_truncate_failed|by eapply lf_truncate_ok].
Qed.

(** An archived ledger is truncated; its size is set and it is no longer pending, or not yet. *)
Lemma Ledger_emptied r w w' olds cur torn :
  rc_pendingArchive r = true -> content w' (rc_path r) = Some EmptyString ->
  (forall q, q <> rc_path r -> content w' q = content w q) ->
  Ledger r w olds cur torn ->
  Ledger r w' olds [] EmptyString /\ Ledger (set_pendingArchive false (set_size 0 r)) w' olds [] EmptyString
  /\ records (set_pendingArchive false (set_size 0 r)) olds [] = records r olds [] /\ records r olds [] = records r olds cur.
Proof.
  intros Hp He Ho []. destruct (lg_pending0 Hp) as [Hne _].
  assert (Hrec : rc_writeRecovery r = None) by (destruct (rc_writeRecovery r) as [k|]; [destruct (lg_torn0 k eq_refl) as (_ & ? & _); congruence|done]).
  assert (Harch : Archived r w' olds).
  { eapply Archived_files; [|exact lg_archived0]. intros g Hg. apply Ho, archive_not_active. }
  assert (Hvalid : Forall (valid_entry (rc_maxBytes r)) (concat olds ++ [])) by (apply Forall_app in lg_valid0 as [? _]; by rewrite app_nil_r).
  assert (Hlen : 0 <= rc_maxBytes r) by (pose proof (len_nonneg (text cur +:+ torn)); lia).
  unfold records in *. rewrite Hp in *. cbn [rc_pendingArchive set_pendingArchive set_archives].
  split; [|split; [|done]].
  - split; [exact lg_bounds0|exact Harch|exact He| | | |exact Hvalid|exact Hlen|].
    + intros _. split; [done|congruence].
    + congruence.
    + intros _. split; [done|by left].
    + unfold records. by rewrite Hp.
  - split; [exact lg_bounds0|by destruct Harch; split|exact He|done| | |exact Hvalid|exact Hlen|exact lg_remembered0].
    + cbn. congruence.
    + done.
Qed.
Lemma truncate_pending s :
  rc_pendingArchive s.1 = true ->
  let '(err, s') := (truncateActive ops ;; update (set_pendingArchive false)) s in
  keeps s s' /\ match err with
                | None => s'.1 = set_pendingArchive false (set_size 0 s.1)
                | Some _ => s'.1 = s.1
                end.
Proof.
  intros Hp. destruct s as [r w]. unfold truncateActive, andThen, reads, lift, update. cbn [fst snd] in *.
  pose proof (fun c => truncate_cases (rc_path r) 0 w c) as Ht.
  destruct (fl_truncate ops (rc_path r) 0 w) as [[err|] w1]; cbn [fst snd] in *.
  { split; [|done]. apply Holds_keeps; [done|]. cbn [fst snd]. intros olds cur torn HL. exists cur, torn. split; [|done].
    pose proof (len_nonneg (text cur +:+ torn)). destruct (Ht _ (lg_active _ _ _ _ _ HL) ltac:(lia)) as [Ho He].
    eapply Ledger_files; [exact He|intros g _; apply Ho, archive_not_active|exact HL]. }
  pose proof (lf_seekEnd (ops := ops) (content := content) (rc_path r) w1) as Hs.
  destruct (fl_seekEnd ops (rc_path r) w1) as [err w2]. cbn [fst snd] in *.
  assert (H : forall olds cur torn, Ledger r w olds cur torn ->
    Ledger r w2 olds [] EmptyString /\ Ledger (set_pendingArchive false (set_size 0 r)) w2 olds [] EmptyString
    /\ records (set_pendingArchive false (set_size 0 r)) olds [] = records r olds [] /\ records r olds [] = records r olds cur).
  { intros olds cur torn HL. pose proof (len_nonneg (text cur +:+ torn)).
    destruct (Ht _ (lg_active _ _ _ _ _ HL) ltac:(lia)) as [Ho He].
    apply (Ledger_emptied r w w2 olds cur torn); [done|by rewrite Hs, He|intros q Hq; rewrite Hs; by apply Ho|done]. }
  destruct err as [err|]; cbn [fst snd]; (split; [|done]); apply Holds_keeps; try done; cbn [fst snd];
    intros olds cur torn HL; destruct (H _ _ _ HL) as (H1 & H2 & H3 & H4); exists [], EmptyString; split; try done.
  by rewrite H3.
Qed.

(** ** The clean-up *)

Lemma remembered_suffix r dropped l : l <> [] -> remembered r (dropped ++ l) -> remembered r l.
Proof.
  intros Hne (H1 & H2 & gone & H3). split; [by eapply contiguous_suffix|]. split.
  - destruct (exists_last Hne) as (l' & e & ->). by rewrite app_assoc, !last_snoc in *.
  - exists (gone ++ map fst dropped). by rewrite H3, map_app, app_assoc.
Qed.

Lemma concat_nonempty (olds : list (list entry)) maxBytes :
  olds <> [] -> Forall (fun es => es <> [] /\ len (text es) <= maxBytes) olds -> concat olds <> [].
Proof. intros Hne H. destruct H as [|es olds [He _]]; [done|]. simpl. by destruct es. Qed.

(** The oldest archive is gone. *)
Lemma Archived_removed r w w' generation rest es olds :
  rc_archives r = generation :: rest ->
  (forall q, q <> archivePath r generation -> content w' q = content w q) -> content w' (archivePath r generation) = None ->
  Archived r w (es :: olds) ->
  Archived (set_archives rest (rc_nextArchive r) (rc_pendingArchive r) (rc_cleanupPending r) r) w' olds.
Proof.
  intros Hgs Ho Hgone [H1 H2 H3 [H4 H5] H6]. rewrite Hgs in *.
  apply Forall2_cons in H1 as [Hes H1]. apply StronglySorted_inv in H3 as [H3 Hlt].
  apply Forall_cons in H5 as [Hg H5]. apply Forall_cons in H6 as [_ H6].
  assert (Hsame : forall g, 0 < g < two64 -> g <> generation -> content w' (archivePath r g) = content w (archivePath r g)).
  { intros g Hr Hneq. apply Ho. intros Heq%archive_inj; [done|lia..]. }
  assert (Hkept : Forall2 (fun g es => content w' (archivePath r g) = Some (text es)) rest olds).
  { clear - H1 H5 Hlt Hsame H4. induction H1 as [|g es gs olds He _ IH]; [constructor|].
    apply Forall_cons in H5 as [? H5]. apply Forall_cons in Hlt as [? Hlt].
    constructor; [|by apply IH]. rewrite Hsame; [done|lia..]. }
  split; cbn; try done. intros g Hr Hin. change (content w' (archivePath r g) = None).
  destruct (decide (g = generation)) as [->|Hneq]; [done|]. rewrite Hsame by done. apply H2; [done|].
  by intros [|]%elem_of_cons.
Qed.

Lemma Ledger_removed r w w' generation rest es olds cur torn :
  let r' := set_archives rest (rc_nextArchive r) (rc_pendingArchive r) (rc_cleanupPending r) r in
  rc_archives r = generation :: rest -> rest <> [] ->
  (forall q, q <> archivePath r generation -> content w' q = content w q) -> content w' (archivePath r generation) = None ->
  Ledger r w (es :: olds) cur torn ->
  Ledger r' w' olds cur torn /\ records r (es :: olds) cur = es ++ records r' olds cur.
Proof.
  intros r' Hgs Hne Ho Hgone [].
  pose proof (Archived_removed r w w' generation rest es olds Hgs Ho Hgone lg_archived0) as HA.
  assert (Holds : olds <> []) by (pose proof (ar_content _ _ _ HA) as H; cbn in H; destruct H; done).
  assert (Hrec : records r (es :: olds) cur = es ++ records r' olds cur) by (unfold records, r'; cbn; by rewrite app_assoc).
  assert (Hlast : last (es :: olds) = last olds) by by destruct olds.
  split; [|done]. split; try done.
  - change (rc_path r') with (rc_path r). rewrite Ho; [done|]. apply not_eq_sym, archive_not_active.
  - intros Hp. destruct (lg_pending0 Hp) as [_ Hc]. by rewrite Hlast in Hc.
  - cbn in lg_valid0. rewrite <- app_assoc in lg_valid0. apply Forall_app in lg_valid0 as [_ Hv]. exact Hv.
  - assert (Hn : records r' olds cur <> []).
    { unfold records. pose proof (concat_nonempty olds _ Holds (ar_olds _ _ _ HA)). by destruct (concat olds). }
    rewrite Hrec in lg_remembered0. by apply (remembered_suffix r es).
Qed.

Lemma cleanup_loop_keeps archives s :
  rc_archives s.1 = archives -> 1 <= rc_retained s.1 ->
  let s' := (cleanup_loop ops archives s).2 in keeps s s' /\ same_flags s.1 s'.1 /\ rc_size s'.1 = rc_size s.1
  /\ rc_cleanupPending s'.1 = rc_cleanupPending s.1 /\ rc_status s'.1 = rc_status s.1.
Proof.
  revert s. induction archives as [|g rest IH]; intros [r w]; cbn [fst]; intros Hgs Hret; cbn [cleanup_loop]; [by split; [reflexivity|]|].
  cbv zeta. cbn [fst snd]. destruct (Z.leb_spec (Z.of_nat (length (g :: rest))) (rc_retained r)) as [Hle|Hgt]; [by split; [reflexivity|]|].
  assert (Hne : rest <> []) by (intros ->; simpl in Hgt; lia).
  unfold remove_existing, lift. cbn [fst snd].
  pose proof (fun q => lf_remove (ops := ops) (content := content) (archivePath r g) w q) as Ho.
  pose proof (lf_remove_ok (ops := ops) (content := content) (archivePath r g) w) as Hok.
  pose proof (lf_remove_failed (ops := ops) (content := content) (archivePath r g) w) as Hf.
  destruct (op_remove ops (archivePath r g) w) as [err w1]. cbn [fst snd] in *.
  set (err' := match err with Some e => _ | None => None end).
  destruct err' as [e|] eqn:Ee.
  { cbn [snd fst]. split; [|done]. apply Holds_keeps; [done|]. intros olds cur torn HL. exists cur, torn. split; [|done].
    destruct err as [err|]; [|done]. destruct (Hf err eq_refl) as [Hs _].
    eapply Ledger_same; [|exact HL]. intros q. destruct (decide (q = archivePath r g)) as [->|]; [done|by apply Ho]. }
  assert (Hgone : content w1 (archivePath r g) = None).
  { destruct err as [err|]; [|by apply Hok]. unfold err' in Ee. destruct (op_isNotExist ops err) eqn:Hn; [|done].
    destruct (Hf err eq_refl) as [-> Hnone]. auto. }
  set (r' := set_archives rest _ _ _ r).
  destruct (IH (r', w1) eq_refl Hret) as (K & F & Hsz & Hcl & Hst). split; [|done].
  etrans; [|exact K]. split; [done|]. intros l (olds & cur & torn & HL & <-).
  pose proof (ar_content _ _ _ (lg_archived _ _ _ _ _ HL)) as Hc. cbn [fst snd] in *. rewrite Hgs in Hc.
  apply Forall2_cons_inv_l in Hc as (es & olds' & _ & _ & ->).
  destruct (Ledger_removed r w w1 g rest es olds' cur torn) as [HL' Hr]; [done..|].
  exists es, (records r' olds' cur). split; [exact Hr|]. by exists olds', cur, torn.
Qed.

Lemma cleanupArchives_keeps s :
  1 <= rc_retained s.1 ->
  let '(err, s') := cleanupArchives ops s in
  keeps s s' /\ same_flags s.1 s'.1 /\ rc_size s'.1 = rc_size s.1 /\ (err = None -> rc_cleanupPending s'.1 = false).
Proof.
  intros Hret. unfold cleanupArchives, reads, andThen. destruct (cleanup_loop_keeps (rc_archives s.1) s eq_refl Hret) as (K & F & Hs & _).
  destruct (cleanup_loop ops (rc_archives s.1) s) as [[err|] s1]; cbn [snd] in *; [done|].
  unfold update. split; [etrans; [exact K|apply keeps_cleanup]|done].
Qed.
(** ** Rotation *)

Lemma andThen_assoc (f g h : action W) s : (f ;; g ;; h) s = ((f ;; g) ;; h) s.
Proof. unfold andThen. by destruct (f s) as [[err|] s1]. Qed.

Lemma finish_keeps s :
  rc_pendingArchive s.1 = true -> 1 <= rc_retained s.1 ->
  let '(err, s') := finish_rotation ops s in
  keeps s s' /\ rc_nextArchive s'.1 = rc_nextArchive s.1 /\ rc_writeRecovery s'.1 = rc_writeRecovery s.1
  /\ (err = None -> rc_pendingArchive s'.1 = false /\ rc_size s'.1 = 0 /\ rc_cleanupPending s'.1 = false).
Proof.
  intros Hp Hret. unfold finish_rotation. rewrite andThen_assoc. unfold andThen at 1.
  pose proof (truncate_pending s Hp) as Ht. destruct ((truncateActive ops ;; _) s) as [[err|] s1]; destruct Ht as [K E]; [by rewrite E|].
  assert (Hret1 : 1 <= rc_retained s1.1) by by rewrite E.
  pose proof (cleanupArchives_keeps s1 Hret1) as Hc. destruct (cleanupArchives ops s1) as [[err|] s2];
    destruct Hc as (K2 & (F1 & F2 & F3) & Hs & Hcl); cbn [fst snd].
  - split; [etrans; [exact K|]; etrans; [exact K2|apply keeps_cleanup]|]. cbn. by rewrite F2, F3, E.
  - split; [by etrans|]. rewrite F1, F2, F3, Hs, E. cbn. split_and!; try done. intros _. split_and!; auto.
Qed.

(** Everything but the file at [temp] is as it was. *)
Definition but_for (temp : string) (w w' : W) : Prop := forall q, q <> temp -> content w' q = content w q.

#[export] Instance but_for_preorder temp : PreOrder (but_for temp).
Proof. split; [by intros w q|]. intros w1 w2 w3 H1 H2 q Hq. rewrite H2, H1; done. Qed.

Lemma but_for_same temp w w' : (forall q, content w' q = content w q) -> but_for temp w w'.
Proof. intros H q _. apply H. Qed.

Lemma copy_active_spec path temp s c :
  content s.2 path = Some c -> content s.2 temp = Some EmptyString ->
  let '(err, s') := copy_active ops path temp s in
  s'.1 = s.1 /\ but_for temp s.2 s'.2 /\ (err = None -> content s'.2 temp = Some c).
Proof.
  intros Hc Ht. destruct s as [r w]. unfold copy_active, lift, io_Copy. cbn [fst snd] in *.
  pose proof (lf_read (ops := ops) (content := content) path w) as S1.
  pose proof (lf_read_all (ops := ops) (content := content) path w) as R1.
  destruct (fl_read ops path w) as [[data readErr] w1]. cbn [fst snd] in *.
  pose proof (fun q => lf_write (ops := ops) (content := content) temp data w1 q) as O2.
  pose proof (lf_write_part (ops := ops) (content := content) temp data w1 EmptyString ltac:(by rewrite S1)) as [_ R2].
  destruct (fl_write ops temp data w1) as [[written writeErr] w2]. cbn [fst snd] in *.
  set (copyErr := match writeErr with Some err => Some err | None => _ end).
  assert (Hcopy : copyErr = None -> content w2 temp = Some c).
  { unfold copyErr. destruct writeErr; [done|]. destruct (Z.eqb_spec written (len data)) as [->|]; cbn [negb]; [|done].
    intros ->. rewrite R2. cbn [String.append]. unfold len. rewrite Nat2Z.id, take_bytes_all. rewrite <- Hc. symmetry. by apply R1. }
  clearbody copyErr.
  pose proof (lf_closeRead (ops := ops) (content := content) path w2) as S3. destruct (op_closeRead ops path w2) as [e3 w3].
  pose proof (lf_chmod (ops := ops) (content := content) temp w3) as S4. destruct (fl_chmod ops temp w3) as [e4 w4].
  pose proof (lf_sync (ops := ops) (content := content) temp w4) as S5. destruct (fl_sync ops temp w4) as [e5 w5].
  pose proof (lf_close (ops := ops) (content := content) temp w5) as S6. destruct (fl_close ops temp w5) as [e6 w6].
  cbn [fst snd] in *. assert (S : forall q, content w6 q = content w2 q) by (intros q; by rewrite S6, S5, S4, S3).
  assert (O : but_for temp w w6) by (intros q Hq; rewrite S, O2, S1; done).
  destruct (errors_Join [copyErr; e3; e4; e5; e6]) as [err|] eqn:EJ; cbn [fst snd].
  - pose proof (fun q => lf_remove (ops := ops) (content := content) temp w6 q) as O7.
    destruct (op_remove ops temp w6) as [e7 w7]. cbn [fst snd] in *. split; [done|]. split; [|done].
    etrans; [exact O|exact O7].
  - split; [done|]. split; [exact O|]. intros _. rewrite S. apply Hcopy. apply errors_Join_None in EJ. by apply all_nil_cons in EJ as [-> _].
Qed.

Lemma archive_active_spec s c :
  content s.2 (rc_path s.1) = Some c -> 0 < rc_nextArchive s.1 ->
  let temp := tempPath s.1 (rc_nextArchive s.1) in
  let '(err, s') := archive_active ops s in
  match err with
  | Some _ => s'.1 = s.1 /\ but_for temp s.2 s'.2
  | None =>
    s'.1 = set_archives (rc_archives s.1 ++ [rc_nextArchive s.1]) (u64_succ (rc_nextArchive s.1)) true (rc_cleanupPending s.1) s.1
    /\ content s'.2 (archivePath s.1 (rc_nextArchive s.1)) = Some c
    /\ forall q, q <> temp -> q <> archivePath s.1 (rc_nextArchive s.1) -> content s'.2 q = content s.2 q
  end.
Proof.
  intros Hc Hn. destruct s as [r w]. cbn [fst snd] in *. set (temp := tempPath r (rc_nextArchive r)).
  assert (Hpt : rc_path r <> temp) by apply not_eq_sym, temp_not_active.
  assert (Hat : archivePath r (rc_nextArchive r) <> temp) by (apply archive_not_temp; lia).
  unfold archive_active, reads. cbn [fst]. fold temp. unfold andThen at 1. unfold lift at 1. cbn [fst snd].
  pose proof (lf_sync (ops := ops) (content := content) (rc_path r) w) as S1. destruct (fl_sync ops (rc_path r) w) as [[e1|] w1];
    cbn [fst snd] in *; [split; [done|by apply but_for_same]|].
  unfold andThen at 1. unfold remove_existing, lift at 1. cbn [fst snd].
  pose proof (fun q => lf_remove (ops := ops) (content := content) temp w1 q) as O2. destruct (op_remove ops temp w1) as [e2 w2].
  cbn [fst snd] in *. assert (O : but_for temp w w2) by (intros q Hq; rewrite O2, S1; done).
  destruct (match e2 with Some e => _ | None => None end); [by split|].
  unfold andThen at 1. unfold lift at 1. cbn [fst snd].
  pose proof (lf_openRead (ops := ops) (content := content) (rc_path r) w2) as S3. destruct (op_openRead ops (rc_path r) w2) as [[e3|] w3];
    cbn [fst snd] in *; (assert (O3 : but_for temp w w3) by (etrans; [exact O|by apply but_for_same])); [by split|].
  unfold andThen at 1. unfold lift at 1. cbn [fst snd].
  pose proof (fun q => lf_openArchive (ops := ops) (content := content) temp w3 q) as O4.
  pose proof (lf_openArchive_ok (ops := ops) (content := content) temp w3) as R4.
  destruct (op_openArchive ops temp w3) as [[e4|] w4]; cbn [fst snd] in *; (assert (O4' : but_for temp w w4) by (etrans; [exact O3|exact O4])).
  { pose proof (lf_closeRead (ops := ops) (content := content) (rc_path r) w4) as S5. destruct (op_closeRead ops (rc_path r) w4) as [e5 w5].
    split; [done|]. etrans; [exact O4'|by apply but_for_same]. }
  unfold andThen at 1. pose proof (copy_active_spec (rc_path r) temp (r, w4) c ltac:(cbn; by rewrite (O4' _ Hpt)) (R4 eq_refl)) as HC.
  destruct (copy_active ops (rc_path r) temp (r, w4)) as [[e5|] [r5 w5]]; cbn [fst snd] in *; destruct HC as (-> & O5 & R5);
    (assert (O5' : but_for temp w w5) by (etrans; [exact O4'|exact O5])); [by split|]. specialize (R5 eq_refl).
  unfold andThen, lift, update. cbn [fst snd].
  pose proof (fun q => lf_rename (ops := ops) (content := content) temp (archivePath r (rc_nextArchive r)) w5 q) as O6.
  pose proof (lf_rename_ok (ops := ops) (content := content) temp (archivePath r (rc_nextArchive r)) w5 (not_eq_sym Hat)) as R6.
  pose proof (lf_rename_failed (ops := ops) (content := content) temp (archivePath r (rc_nextArchive r)) w5) as F6.
  destruct (op_rename ops temp (archivePath r (rc_nextArchive r)) w5) as [[e6|] w6]; cbn [fst snd] in *.
  - pose proof (fun q => lf_remove (ops := ops) (content := content) temp w6 q) as O7. destruct (op_remove ops temp w6) as [e7 w7].
    cbn [fst snd] in *. split; [done|]. etrans; [exact O5'|]. intros q Hq. by rewrite O7, (F6 e6).
  - destruct (R6 eq_refl) as [R6' _]. split; [done|]. split; [by rewrite R6'|]. intros q Hq Hq'. rewrite O6 by done. by apply O5'.
Qed.
Lemma Ledger_archived r w w' olds cur torn :
  let g := rc_nextArchive r in
  let r' := set_archives (rc_archives r ++ [g]) (u64_succ g) true (rc_cleanupPending r) r in
  rc_pendingArchive r = false -> rc_writeRecovery r = None -> 0 < rc_size r -> g < two64 - 1 ->
  content w' (archivePath r g) = content w (rc_path r) ->
  (forall q, q <> tempPath r g -> q <> archivePath r g -> content w' q = content w q) ->
  Ledger r w olds cur torn ->
  Ledger r' w' (olds ++ [cur]) cur torn /\ records r' (olds ++ [cur]) cur = records r olds cur.
Proof.
  intros g r' Hp Hrec Hsize Hg Hnew Ho []. destruct lg_archived0 as [H1 H2 H3 [H4 H5] H6].
  destruct (lg_whole0 Hrec) as [-> Hsz]. rewrite append_nil_r in *. specialize (Hsz Hp).
  assert (Hne : cur <> []) by (intros ->; change (len (text [])) with 0 in Hsz; lia).
  assert (Hsame : forall a, 0 < a < two64 -> a <> g -> content w' (archivePath r a) = content w (archivePath r a)).
  { intros a Ha Hneq. apply Ho; [apply archive_not_temp; lia|]. intros Heq%archive_inj; [done|lia..]. }
  assert (Hrec' : records r' (olds ++ [cur]) cur = records r olds cur).
  { unfold records. cbn. rewrite Hp, concat_app. cbn. by rewrite !app_nil_r. }
  assert (Hkept : Forall2 (fun a es => content w' (archivePath r a) = Some (text es)) (rc_archives r ++ [g]) (olds ++ [cur])).
  { apply Forall2_app; [|repeat constructor; congruence]. clear - H1 H5 H4 Hsame.
    induction H1 as [|a es gs olds He _ IH]; [constructor|]. apply Forall_cons in H5 as [Ha H5].
    constructor; [|by apply IH]. rewrite Hsame; [done|lia|]. unfold g. lia. }
  assert (Hgs : u64_succ g = g + 1) by (apply u64_succ_small; lia).
  split; [|done]. split; try done.
  - split; cbn.
    + exact Hkept.
    + intros a Ha Hin. change (content w' (archivePath r a) = None). rewrite Hsame; [|done|set_solver].
      apply H2; [done|set_solver].
    + clear - H3 H5. induction H3 as [|a gs _ IH Hlt]; [repeat constructor|]. apply Forall_cons in H5 as [Ha H5].
      constructor; [by apply IH|]. apply Forall_app. split; [done|]. constructor; [unfold g; lia|constructor].
    + fold g. rewrite Hgs. split; [lia|]. apply Forall_app. split; [eapply Forall_impl; [exact H5|fold g; simpl; lia]|].
      constructor; [lia|constructor].
    + apply Forall_app. split; [done|]. by repeat constructor.
  - change (rc_path r') with (rc_path r). rewrite Ho, append_nil_r; [done|apply not_eq_sym, temp_not_active|apply not_eq_sym, archive_not_active].
  - intros k Hk. cbn in Hk. congruence.
  - intros _. split; [by destruct olds|]. right. apply last_snoc.
  - rewrite concat_app. cbn. rewrite app_nil_r. apply Forall_app. split; [done|]. by apply Forall_app in lg_valid0 as [_ Hv].
  - by rewrite append_nil_r.
  - by rewrite Hrec'.
Qed.

Lemma rotate_keeps s l :
  Holds s l -> rc_nextArchive s.1 < two64 - 1 ->
  rc_pendingArchive s.1 = true \/ (rc_writeRecovery s.1 = None /\ 0 < rc_size s.1) ->
  let '(err, s') := rotate ops s in
  keeps s s' /\ rc_writeRecovery s'.1 = rc_writeRecovery s.1
  /\ rc_nextArchive s'.1 <= rc_nextArchive s.1 + (if rc_pendingArchive s.1 then 0 else 1)
  /\ (err = None -> rc_pendingArchive s'.1 = false /\ rc_size s'.1 = 0 /\ rc_cleanupPending s'.1 = false).
Proof.
  intros (olds & cur & torn & HL & _) Hn Hor. destruct (lg_bounds _ _ _ _ _ HL) as (Hret & _).
  destruct (ar_range _ _ _ (lg_archived _ _ _ _ _ HL)) as [[Hpos _] _]. unfold rotate, reads. destruct (rc_pendingArchive s.1) eqn:Hp.
  { pose proof (finish_keeps s Hp Hret) as H. destruct (finish_rotation ops s) as [err s']. destruct H as (K & E1 & E2 & E3).
    rewrite E1. split_and!; try done; lia. }
  destruct Hor as [|[Hrec Hsize]]; [done|]. rewrite (proj2 (Z.ltb_lt 0 (rc_retained s.1))) by lia. unfold andThen.
  pose proof (archive_active_spec s _ (lg_active _ _ _ _ _ HL) Hpos) as Hspec. cbv zeta in Hspec.
  destruct (archive_active ops s) as [[err|] s1].
  - destruct Hspec as [E O]. rewrite E. split; [|by split_and!; try lia]. apply Holds_keeps; [by rewrite E|].
    intros olds' cur' torn' HL'. exists cur', torn'. rewrite E. split; [|done]. eapply Ledger_files; [| |exact HL'].
    + apply O, not_eq_sym, temp_not_active.
    + intros g Hg. apply O. apply archive_not_temp; lia.
  - destruct Hspec as (E & Hnew & Ho). assert (K : keeps s s1).
    { split; [by rewrite E|]. intros l' (olds' & cur' & torn' & HL' & <-). exists [], (records s.1 olds' cur'). split; [done|].
      destruct (Ledger_archived s.1 s.2 s1.2 olds' cur' torn') as [HL1 HR]; [done..| |done|exact HL'|].
      { by rewrite Hnew, (lg_active _ _ _ _ _ HL). }
      exists (olds' ++ [cur']), cur', torn'. by rewrite E. }
    assert (Hp1 : rc_pendingArchive s1.1 = true) by by rewrite E. assert (Hret1 : 1 <= rc_retained s1.1) by by rewrite E.
    pose proof (finish_keeps s1 Hp1 Hret1) as H. destruct (finish_rotation ops s1) as [err s']. destruct H as (K' & E1 & E2 & E3).
    split; [by etrans|]. rewrite E1, E2, E. cbn. rewrite u64_succ_small by lia. split_and!; done || lia.
Qed.

(** ** Recovery from a partial write *)

Lemma take_text l torn : take_bytes (Z.to_nat (len (text l))) (text l +:+ torn) = text l.
Proof. unfold len. rewrite Nat2Z.id. apply take_bytes_app. Qed.

(** A ledger that ends with its last whole record again. *)
Lemma Ledger_recovered r w w' olds cur torn :
  rc_pendingArchive r = false -> content w' (rc_path r) = Some (text cur) ->
  (forall q, q <> rc_path r -> content w' q = content w q) -> Ledger r w olds cur torn ->
  Ledger (set_writeRecovery None (set_size (len (text cur)) r)) w' olds cur EmptyString.
Proof.
  intros Hp Hc Ho []. assert (Harch : Archived r w' olds).
  { eapply Archived_files; [|exact lg_archived0]. intros g Hg. apply Ho, archive_not_active. }
  split; [exact lg_bounds0|by destruct Harch; split|by rewrite append_nil_r|done|done| |exact lg_valid0| |exact lg_remembered0].
  - cbn. congruence.
  - cbn. rewrite append_nil_r. rewrite len_app in lg_bytes0. pose proof (len_nonneg torn). lia.
Qed.

Lemma recover_keeps s k :
  rc_writeRecovery s.1 = Some k -> forall l, Holds s l ->
  let '(err, s') := recoverPartialWrite ops k s in
  keeps s s' /\ rc_nextArchive s'.1 = rc_nextArchive s.1 /\ (err = None -> rc_writeRecovery s'.1 = None).
Proof.
  intros Hk l (olds & cur & torn & HL & _). destruct s as [r w]. cbn [fst snd] in *.
  destruct (lg_torn _ _ _ _ _ HL k Hk) as (-> & Hp & _). unfold recoverPartialWrite, reads, andThen, lift, update. cbn [fst snd].
  pose proof (lg_active _ _ _ _ _ HL) as Hc. pose proof (len_nonneg (text cur)). pose proof (len_nonneg torn).
  destruct (truncate_cases (rc_path r) (len (text cur)) w _ Hc) as [Ho Ht]; [rewrite len_app; lia|]. rewrite take_text in Ht.
  destruct (fl_truncate ops (rc_path r) (len (text cur)) w) as [[err|] w1]; cbn [fst snd] in *.
  { split; [|done]. apply Holds_keeps; [done|]. cbn [fst snd]. intros o c t HL'. exists c, t. split; [|done].
    eapply Ledger_files; [exact Ht|intros g _; apply Ho, archive_not_active|exact HL']. }
  pose proof (lf_seekEnd (ops := ops) (content := content) (rc_path r) w1) as Hs.
  destruct (fl_seekEnd ops (rc_path r) w1) as [err w2]. cbn [fst snd] in *.
  assert (Hw2 : content w2 (rc_path r) = Some (text cur)) by by rewrite Hs.
  assert (Ho2 : forall q, q <> rc_path r -> content w2 q = content w q) by (intros q Hq; rewrite Hs; auto).
  assert (HX : forall o c t, Ledger r w o c t -> content w2 (rc_path r) = Some (text c) /\ len (text c) = len (text cur)).
  { intros o c t HL'. destruct (lg_torn _ _ _ _ _ HL' _ Hk) as (El & _). split; [|done]. rewrite Hw2. f_equal.
    pose proof (lg_active _ _ _ _ _ HL') as Hc'. rewrite Hc in Hc'. injection Hc' as Hc'.
    rewrite <- (take_text cur torn), Hc', El. apply take_text. }
  assert (HLw : forall o c t, Ledger r w o c t ->
    Ledger (set_writeRecovery None (set_size (len (text cur)) r)) w2 o c EmptyString).
  { intros o c t HL'. destruct (HX o c t HL') as [H1 H2]. rewrite <- H2. by apply (Ledger_recovered r w w2 o c t). }
  destruct err as [err|]; cbn [fst snd]; (split; [|done]); apply Holds_keeps; try done; cbn [fst snd];
    intros o c t HL'; exists c, EmptyString; (split; [|done]); [|by apply (HLw o c t)].
  destruct (HX o c t HL') as [H1 H2]. pose proof (lg_bytes _ _ _ _ _ (HLw o c t HL')) as Hb. destruct HL'.
  split; [exact lg_bounds0| |by rewrite append_nil_r|congruence| |exact lg_pending0|exact lg_valid0|exact Hb|exact lg_remembered0].
  - eapply Archived_files; [|exact lg_archived0]. intros g _. apply Ho2, archive_not_active.
  - intros k' Hk'. rewrite Hk in Hk'. injection Hk' as <-. split; [by rewrite H2|]. split; [done|]. by left.
Qed.
(** ** Writing a line *)

Lemma len_take n line : (n <= String.length line)%nat -> len (take_bytes n line) = Z.of_nat n.
Proof.
  revert line. induction n as [|n IH]; intros [|a line]; cbn [take_bytes String.length]; try (intros; done || lia).
  intros H. rewrite len_String, IH; lia.
Qed.

(** After a part of a line was written, or after it was rolled back. *)
Lemma Ledger_part r w w' olds cur torn torn' recovery size :
  rc_pendingArchive r = false -> content w' (rc_path r) = Some (text cur +:+ torn') ->
  (forall q, q <> rc_path r -> content w' q = content w q) ->
  (recovery = None /\ torn' = EmptyString /\ size = len (text cur)
   \/ recovery = Some (len (text cur)) /\ remainder (rc_maxBytes r) (rc_next r) torn') ->
  len (text cur +:+ torn') <= rc_maxBytes r ->
  Ledger r w olds cur torn -> Ledger (set_size size (set_writeRecovery recovery r)) w' olds cur torn'.
Proof.
  intros Hp Hc Ho Hrec Hlen []. assert (Harch : Archived r w' olds).
  { eapply Archived_files; [|exact lg_archived0]. intros g Hg. apply Ho, archive_not_active. }
  split; [exact lg_bounds0|by destruct Harch; split|exact Hc| | |cbn; congruence|exact lg_valid0|exact Hlen|exact lg_remembered0]; cbn.
  - intros Hn. destruct Hrec as [(_ & -> & ->)|[? _]]; [done|congruence].
  - intros k Hk. destruct Hrec as [(? & _)|[Hr Ht]]; [congruence|]. assert (k = len (text cur)) as -> by congruence. done.
Qed.

(** The size after [refreshSize] of a ledger without a remainder. *)
Lemma refresh_spec s c :
  content s.2 (rc_path s.1) = Some c ->
  exists size, (refreshSize ops s).2.1 = set_size size s.1 /\ (size = rc_size s.1 \/ size = len c)
    /\ forall q, content (refreshSize ops s).2.2 q = content s.2 q.
Proof.
  intros Hc. destruct s as [r w]. unfold refreshSize, reads. cbn [fst snd] in *.
  pose proof (lf_stat (ops := ops) (content := content) (rc_path r) w) as Hs.
  pose proof (fun n => lf_stat_size (ops := ops) (content := content) (rc_path r) w n c) as Hn.
  destruct (fl_stat ops (rc_path r) w) as [[size|err] w1]; cbn [fst snd] in *.
  - exists size. split; [done|]. split; [right; auto|done].
  - exists (rc_size r). split; [by destruct r|]. by split; [left|].
Qed.

(** The ledger a line is about to be written to: no remainder, and known. *)
Lemma ledger_text r w olds cur torn :
  rc_writeRecovery r = None -> rc_pendingArchive r = false -> Ledger r w olds cur torn ->
  torn = EmptyString /\ rc_size r = len (text cur) /\ content w (rc_path r) = Some (text cur).
Proof.
  intros Hr Hp HL. destruct (lg_whole _ _ _ _ _ HL Hr) as [-> Hs]. pose proof (lg_active _ _ _ _ _ HL) as Hc.
  rewrite append_nil_r in Hc. auto.
Qed.

Lemma roll_back_keeps r w w' l writeErr torn' :
  Holds (r, w) l -> rc_writeRecovery r = None -> rc_pendingArchive r = false ->
  (forall q, q <> rc_path r -> content w' q = content w q) ->
  (forall c, content w (rc_path r) = Some c ->
     content w' (rc_path r) = Some (c +:+ torn') /\ len (c +:+ torn') <= rc_maxBytes r) ->
  remainder (rc_maxBytes r) (rc_next r) torn' ->
  let '(err, s') := roll_back ops (rc_size r) writeErr (r, w') in
  is_Some err /\ keeps (r, w) s' /\ rc_nextArchive s'.1 = rc_nextArchive r.
Proof.
  intros (olds & cur & torn & HL & _) Hrec Hp Ho Hpart Hrem. cbn [fst snd] in HL.
  destruct (ledger_text _ _ _ _ _ Hrec Hp HL) as (-> & Hsize & Hc). destruct (Hpart _ Hc) as [Hc' Hlen].
  set (start := rc_size r) in *. unfold roll_back. cbn [fst snd].
  pose proof (len_nonneg (text cur)). pose proof (len_nonneg torn').
  destruct (truncate_cases (rc_path r) start w' _ Hc') as [Ho1 Ht1]; [rewrite len_app; lia|]. rewrite Hsize, take_text in Ht1.
  rewrite <- Hsize in Ht1. destruct (fl_truncate ops (rc_path r) start w') as [rollbackErr w1]. cbn [fst snd] in *.
  pose proof (lf_seekEnd (ops := ops) (content := content) (rc_path r) w1) as Hs2.
  destruct (fl_seekEnd ops (rc_path r) w1) as [seekErr w2]. cbn [fst snd] in *.
  set (torn2 := match rollbackErr with Some _ => torn' | None => EmptyString end).
  assert (Hc2 : content w2 (rc_path r) = Some (text cur +:+ torn2)).
  { rewrite Hs2. unfold torn2. destruct rollbackErr; [by rewrite Ht1, Hc'|by rewrite Ht1, append_nil_r]. }
  set (failed := is_some rollbackErr || is_some seekErr).
  set (r1 := if failed then set_writeRecovery (Some start) r else r).
  assert (Hpath : rc_path r1 = rc_path r) by (unfold r1; by destruct failed).
  destruct (refresh_spec (r1, w2) (text cur +:+ torn2)) as (size & E1 & Hsz & Hs3); [cbn [fst snd]; by rewrite Hpath|].
  cbn [fst snd] in *. destruct (refreshSize ops (r1, w2)) as [e3 [r3 w3]]. cbn [fst snd] in *. subst r3.
  assert (Hall : forall o c t, Ledger r w o c t -> exists c' t', Ledger (set_size size r1) w3 o c' t' /\ records (set_size size r1) o c' = records r o c).
  { intros o c t HL'. destruct (ledger_text _ _ _ _ _ Hrec Hp HL') as (-> & Hsize' & Hc3).
    assert (Htext : text c = text cur) by congruence.
    exists c, torn2. split; [|unfold r1; by destruct failed].
    assert (Er : set_size size r1 = set_size size (set_writeRecovery (if failed then Some start else None) r)).
    { unfold r1. destruct failed; [done|]. unfold set_size, set_writeRecovery. cbn. by rewrite Hrec. }
    rewrite Er. apply (Ledger_part r w w3 o c EmptyString torn2); try done.
    - rewrite Htext. by rewrite Hs3.
    - intros q Hq. rewrite Hs3, Hs2, Ho1, Ho; done.
    - rewrite Htext. unfold failed, torn2. destruct rollbackErr as [e|]; cbn [is_some orb]; [right; by rewrite Hsize|].
      destruct seekErr as [e|]; cbn [is_some]; [right; split; [by rewrite Hsize|by left]|left].
      split; [done|]. split; [done|]. destruct Hsz as [-> | ->]; [|by rewrite append_nil_r].
      unfold r1, failed. cbn. exact Hsize.
    - rewrite Htext. unfold torn2. destruct rollbackErr; [done|]. rewrite append_nil_r. rewrite len_app in Hlen. lia. }
  destruct (errors_Join _) as [err|] eqn:EJ.
  - split; [done|]. unfold fail, set_degraded. cbn [fst snd]. split; [|unfold r1; by destruct failed].
    etrans; [|apply (keeps_status _ (set_size size r1, w3))]. apply Holds_keeps; [unfold r1; by destruct failed|exact Hall].
  - apply errors_Join_None, all_nil_cons in EJ as [E _]. by destruct writeErr.
Qed.
(** The trace of an [Append] that is written. *)
Record next_trace (r : Recorder) (trace : Trace) (k line : string) : Prop := {
  nt_line : marshal trace = inl line;
  nt_key : key trace = inl k;
  nt_sequence : tc_Sequence trace = rc_next r + 1;
  nt_fits : len line + 1 <= rc_maxBytes r;
}.

Lemma next_valid r trace k line :
  0 <= rc_next r < two64 - 1 -> next_trace r trace k line -> valid_entry (rc_maxBytes r) (norm trace, line).
Proof.
  intros Hn [H1 H2 H3 H4]. destruct (cd_line (TraceCodec := TraceCodec0) _ _ H1) as [Hl Hr].
  split; cbn [fst snd]; [done|done|by apply cd_norm|rewrite (cd_sequence (TraceCodec := TraceCodec0)); lia| |done].
  exists k. by rewrite (cd_key (TraceCodec := TraceCodec0)).
Qed.

(** The records after a line was written. *)
Lemma remembered_snoc r l trace k line status size :
  1 <= rc_capacity r -> remembered r l -> next_trace r trace k line ->
  remembered (set_status status (set_memory (tc_Sequence trace) (last_n (rc_capacity r) (rc_values r ++ [trace])) k (set_size size r)))
    (l ++ [(norm trace, line)]).
Proof.
  intros Hcap (H1 & H2 & gone & H3) [N1 N2 N3 N4]. split; [|split].
  - apply contiguous_snoc; [done|]. destruct (last l) as [a|] eqn:El; [|done]. destruct H2 as [Ha _]. cbn [fst].
    rewrite (cd_sequence (TraceCodec := TraceCodec0)). lia.
  - rewrite last_snoc. cbn. by rewrite (cd_sequence (TraceCodec := TraceCodec0)), (cd_key (TraceCodec := TraceCodec0)).
  - exists gone. cbn. rewrite last_n_map, map_app, H3. cbn. rewrite last_n_snoc by done. by rewrite map_app, app_assoc.
Qed.

Lemma write_line_spec r w l trace k line :
  Holds (r, w) l -> rc_writeRecovery r = None -> rc_pendingArchive r = false -> rc_next r < two64 - 1 ->
  next_trace r trace k line -> rc_size r + (len line + 1) <= rc_maxBytes r ->
  let '(err, s') := write_line ops trace k (line +:+ newline) (r, w) in
  rc_nextArchive s'.1 = rc_nextArchive r
  /\ match err with
     | Some _ => keeps (r, w) s'
     | None => Holds s' (l ++ [(norm trace, line)]) /\ rc_path s'.1 = rc_path r /\ rc_capacity s'.1 = rc_capacity r
         /\ rc_maxBytes s'.1 = rc_maxBytes r /\ rc_retained s'.1 = rc_retained r
         /\ rc_next s'.1 = rc_next r + 1 /\ rc_lastKey s'.1 = k
     end.
Proof.
  intros HH Hrec Hp Hn Hnt Hfits. pose proof HH as (olds & cur & torn & HL & Hl). cbn [fst snd] in *.
  destruct (ledger_text _ _ _ _ _ Hrec Hp HL) as (-> & Hsize & Hc). pose proof (lg_bounds _ _ _ _ _ HL) as (_ & Hcap & Hn0).
  assert (Hv : valid_entry (rc_maxBytes r) (norm trace, line)) by (apply (next_valid r trace k); [lia|done]).
  unfold write_line. cbn [fst snd].
  pose proof (fun q => lf_write (ops := ops) (content := content) (rc_path r) (line +:+ newline) w q) as Ho.
  destruct (lf_write_part (ops := ops) (content := content) (rc_path r) (line +:+ newline) w _ Hc) as [Hw1 Hw2].
  destruct (fl_write ops (rc_path r) (line +:+ newline) w) as [[written writeErr] w1]. cbn [fst snd] in *.
  assert (Hlen : len (line +:+ newline) = len line + 1) by (by rewrite len_app, len_newline).
  assert (Htake : len (take_bytes (Z.to_nat written) (line +:+ newline)) = written).
  { rewrite len_take; [lia|]. unfold len in Hw1. lia. }
  destruct (is_some writeErr || negb (written =? len (line +:+ newline))) eqn:Hfail.
  - pose proof (roll_back_keeps r w w1 l writeErr (take_bytes (Z.to_nat written) (line +:+ newline)) HH Hrec Hp Ho) as H.
    destruct (roll_back ops (rc_size r) writeErr (r, w1)) as [err s']. destruct H as ([e ->] & K & Hna); [| |by split].
    + intros c Hc'. assert (c = text cur) as -> by congruence. split; [done|]. rewrite len_app, Htake. lia.
    + destruct (take_line (Z.to_nat written) line (ve_line _ _ Hv)) as [Hnl|Hall]; [by left|right].
      exists (norm trace, line). rewrite Hall. split; [done|]. split; [done|]. cbn [fst].
      rewrite (cd_sequence (TraceCodec := TraceCodec0)). apply Hnt.
  - apply orb_false_iff in Hfail as [_ Hw%negb_false_iff%Z.eqb_eq]. subst written.
    unfold len in Hw2. rewrite Nat2Z.id, take_bytes_all in Hw2.
    split; [done|]. cbn [fst snd]. split; [|by rewrite (nt_sequence _ _ _ _ Hnt)].
    exists olds, (cur ++ [(norm trace, line)]), EmptyString. cbn [fst snd]. rewrite Hlen.
    assert (Harch : Archived r w1 olds).
    { eapply Archived_files; [|apply (lg_archived _ _ _ _ _ HL)]. intros g _. apply Ho, archive_not_active. }
    assert (Hr : records r olds (cur ++ [(norm trace, line)]) = l ++ [(norm trace, line)]).
    { rewrite <- Hl. unfold records. by rewrite Hp, app_assoc. }
    split; [|exact Hr]. destruct HL. split.
    + cbn. rewrite (nt_sequence _ _ _ _ Hnt). lia.
    + by destruct Harch; split.
    + rewrite append_nil_r, text_snoc. exact Hw2.
    + intros _. split; [done|]. intros _. cbn. rewrite text_snoc, len_app. cbn [snd]. rewrite Hlen. lia.
    + intros k' Hk'. cbn in Hk'. congruence.
    + intros Hp'. cbn in Hp'. congruence.
    + rewrite app_assoc. apply Forall_app. split; [exact lg_valid0|].
      constructor; [exact Hv|constructor].
    + rewrite append_nil_r, text_snoc, len_app. cbn [snd]. rewrite Hlen. cbn. lia.
    + match goal with |- remembered ?q _ => change (remembered q (records r olds (cur ++ [(norm trace, line)]))) end.
      rewrite Hr. apply (remembered_snoc r l trace k line); [done|by rewrite <- Hl|done].
Qed.
(** ** [Append] *)

Lemma Holds_after s s' l : keeps s s' -> Holds s l -> exists dropped kept, l = dropped ++ kept /\ Holds s' kept.
Proof. intros [_ H]. apply H. Qed.

Lemma catch_spec code f s :
  let '(err, s') := catch ops code f s in
  err = (f s).1 /\ same_flags (f s).2.1 s'.1 /\ rc_cleanupPending s'.1 = rc_cleanupPending (f s).2.1
  /\ rc_size s'.1 = rc_size (f s).2.1 /\ (keeps s (f s).2 -> keeps s s').
Proof.
  unfold catch. destruct (f s) as [[err|] s1]; cbn [fst snd]; [|done].
  unfold fail, set_degraded. cbn [fst snd]. split_and!; try done. intros K. etrans; [exact K|apply keeps_status].
Qed.

(** What [Append] does before it looks at the trace. *)
Definition prepare : action W := resume_write ops ;; resume_rotation ops ;; resume_cleanup ops.

Lemma prepare_recovers s l :
  Holds s l ->
  let '(err, s1) := resume_write ops s in
  keeps s s1 /\ rc_nextArchive s1.1 = rc_nextArchive s.1 /\ (err = None -> rc_writeRecovery s1.1 = None).
Proof.
  intros HH. unfold resume_write, reads. destruct (rc_writeRecovery s.1) as [k|] eqn:Hk; [|by split].
  pose proof (recover_keeps s k Hk l HH) as H. pose proof (catch_spec "write_recovery_failed" (recoverPartialWrite ops k) s) as Hc.
  destruct (recoverPartialWrite ops k s) as [e s0]. destruct (catch ops _ _ s) as [err s1]. cbn [fst snd] in *.
  destruct H as (K & E & Hn), Hc as (-> & (F1 & F2 & F3) & _ & _ & Kc). split; [auto|]. split; [congruence|]. intros He. rewrite F3. auto.
Qed.

Lemma prepare_rotates s l :
  Holds s l -> rc_nextArchive s.1 < two64 - 1 ->
  let '(err, s1) := resume_rotation ops s in
  keeps s s1 /\ rc_nextArchive s1.1 <= rc_nextArchive s.1 /\ rc_writeRecovery s1.1 = rc_writeRecovery s.1
  /\ (err = None -> rc_pendingArchive s1.1 = false).
Proof.
  intros HH Hn. unfold resume_rotation, reads. destruct (rc_pendingArchive s.1) eqn:Hp; [|by split_and!].
  pose proof (rotate_keeps s l HH Hn (or_introl Hp)) as H. pose proof (catch_spec "rotation_failed" (rotate ops) s) as Hc.
  rewrite Hp in H. unfold andThen. destruct (rotate ops s) as [e s0]. destruct (catch ops _ _ s) as [err s1]. cbn [fst snd] in *.
  destruct H as (K & Hr & Hna & Hok), Hc as (-> & (F1 & F2 & F3) & _ & _ & Kc). specialize (Kc K).
  destruct e as [e|]; unfold update; cbn [fst snd].
  - split_and!; [exact Kc|lia|congruence|done].
  - destruct (Hok eq_refl) as (Hp0 & _). split_and!; [etrans; [exact Kc|apply keeps_status]|cbn; lia|cbn; congruence|cbn; congruence].
Qed.

Lemma prepare_cleans s l :
  Holds s l ->
  let '(err, s1) := resume_cleanup ops s in
  keeps s s1 /\ same_flags s.1 s1.1 /\ rc_size s1.1 = rc_size s.1.
Proof.
  intros (olds & cur & torn & HL & _). unfold resume_cleanup, reads. destruct (rc_cleanupPending s.1) eqn:Hp; [|by split_and!].
  destruct (lg_bounds _ _ _ _ _ HL) as [Hret _]. pose proof (cleanupArchives_keeps s Hret) as H.
  pose proof (catch_spec "retention_cleanup_failed" (cleanupArchives ops) s) as Hc.
  destruct (cleanupArchives ops s) as [e s0]. destruct (catch ops _ _ s) as [err s1]. cbn [fst snd] in *.
  destruct H as (K & (G1 & G2 & G3) & Hs & _), Hc as (-> & (F1 & F2 & F3) & _ & Hs' & Kc).
  split; [auto|]. split; [|congruence]. split_and!; congruence.
Qed.

Lemma prepare_spec s l :
  Holds s l -> rc_nextArchive s.1 < two64 - 1 ->
  let '(err, s') := prepare s in
  keeps s s' /\ rc_nextArchive s'.1 <= rc_nextArchive s.1
  /\ (err = None -> rc_writeRecovery s'.1 = None /\ rc_pendingArchive s'.1 = false).
Proof.
  intros HH Hn. unfold prepare, andThen. pose proof (prepare_recovers s l HH) as H1.
  destruct (resume_write ops s) as [[err|] s1]; destruct H1 as (K1 & E1 & R1).
  { split; [done|]. split; [lia|done]. }
  destruct (Holds_after _ _ _ K1 HH) as (d1 & l1 & -> & HH1). specialize (R1 eq_refl).
  pose proof (prepare_rotates s1 l1 HH1 ltac:(lia)) as H2.
  destruct (resume_rotation ops s1) as [[err|] s2]; destruct H2 as (K2 & E2 & R2 & P2).
  { split; [by etrans|]. split; [lia|done]. }
  destruct (Holds_after _ _ _ K2 HH1) as (d2 & l2 & -> & HH2). specialize (P2 eq_refl).
  pose proof (prepare_cleans s2 l2 HH2) as H3. destruct (resume_cleanup ops s2) as [err s3]. destruct H3 as (K3 & (G1 & G2 & G3) & Hs3).
  split; [etrans; [exact K1|by etrans]|]. split; [lia|]. intros ->. split; congruence.
Qed.

Lemma Append_prepares trace s :
  rc_closed s.1 = false -> Append ops marshal marshalSemantic trace s = (prepare ;; append_material ops marshal marshalSemantic trace) s.
Proof.
  intros Hc. unfold Append, prepare. rewrite Hc. unfold andThen.
  destruct (resume_write ops s) as [[err|] s1]; [done|]. destruct (resume_rotation ops s1) as [[err|] s2]; [done|].
  by destruct (resume_cleanup ops s2) as [[err|] s3].
Qed.

(** What an [Append] may do to the records: drop the oldest ones, and add the trace. *)
Definition appended (trace : Trace) (s : State) (l : list entry) (err : option error) (s' : State) : Prop :=
  (exists dropped kept, l = dropped ++ kept
     /\ (Holds s' kept
         \/ err = None /\ exists e, Holds s' (kept ++ [e]) /\ key e.1 = key trace /\ tc_Sequence e.1 = rc_next s.1 + 1))
  /\ (err = None -> key trace = inl (rc_lastKey s'.1))
  /\ rc_nextArchive s'.1 <= rc_nextArchive s.1 + 1.

Lemma keeps_appended trace s l err s' :
  keeps s s' -> Holds s l -> rc_nextArchive s'.1 <= rc_nextArchive s.1 + 1 ->
  (err = None -> key trace = inl (rc_lastKey s'.1)) -> appended trace s l err s'.
Proof. intros K HH Hn He. destruct (Holds_after _ _ _ K HH) as (d & k & -> & HH'). split; [|done]. exists d, k. split; [done|by left]. Qed.

Lemma fail_appended code e trace s l : Holds s l -> appended trace s l (fail ops code e s).1 (fail ops code e s).2.
Proof. intros HH. apply keeps_appended; [apply keeps_status|done|cbn; lia|done]. Qed.

Lemma append_material_spec trace s l :
  Holds s l -> rc_next s.1 < two64 - 1 -> rc_nextArchive s.1 < two64 - 1 ->
  rc_writeRecovery s.1 = None -> rc_pendingArchive s.1 = false ->
  (forall line, marshal (with_Sequence (rc_next s.1 + 1) trace) = inl line -> len line + 1 <= rc_maxBytes s.1) ->
  let '(err, s') := append_material ops marshal marshalSemantic trace s in appended trace s l err s'.
Proof.
  intros HH Hn Hna Hrec Hp Hfits. pose proof HH as (olds & cur & torn & HL & Hl). destruct (lg_bounds _ _ _ _ _ HL) as (_ & _ & Hn0).
  unfold append_material. destruct (key trace) as [k|e] eqn:Hk; [|exact (fail_appended "encode_failed" e trace s l HH)].
  destruct (String.eqb_spec k (rc_lastKey s.1)) as [->|_].
  { apply keeps_appended; [reflexivity|done|lia|done]. }
  rewrite u64_succ_small by lia. set (numbered := with_Sequence (rc_next s.1 + 1) trace) in *. cbv zeta.
  destruct (marshal numbered) as [line|e] eqn:Hm; [|exact (fail_appended "encode_failed" e trace s l HH)].
  specialize (Hfits line eq_refl). unfold andThen.
  assert (Hlen : len (line +:+ newline) = len line + 1) by (by rewrite len_app, len_newline).
  assert (Hwrite : forall s1 l1, keeps s s1 -> Holds s1 l1 -> (exists d, l = d ++ l1) -> rc_writeRecovery s1.1 = None ->
    rc_pendingArchive s1.1 = false -> rc_nextArchive s1.1 <= rc_nextArchive s.1 + 1 -> rc_size s1.1 + (len line + 1) <= rc_maxBytes s1.1 ->
    let '(err, s') := write_line ops numbered k (line +:+ newline) s1 in appended trace s l err s').
  { intros [r1 w1] l1 [F K1] HH1 [d Hd] Hrec1 Hp1 Hna1 Hsize1. cbn [fst snd] in *.
    destruct (fr_bounds _ _ F) as (B1 & B2 & B3), (fr_memory _ _ F) as [M1 M2]. cbn [fst snd] in *.
    assert (Hnt : next_trace r1 numbered k line) by (split; [done|exact Hk|by rewrite M1|by rewrite B2]).
    pose proof (write_line_spec r1 w1 l1 numbered k line HH1 Hrec1 Hp1 ltac:(lia) Hnt Hsize1) as H.
    destruct (write_line ops numbered k (line +:+ newline) (r1, w1)) as [[err|] s']; destruct H as [E H].
    - apply keeps_appended; [|done|by rewrite E|done]. etrans; [|exact H]. by split.
    - destruct H as (HH' & _ & _ & _ & _ & _ & Hlast). split; [|split; [by rewrite Hlast|by rewrite E]].
      exists d, l1. split; [done|]. right. split; [done|]. exists (norm numbered, line). split; [done|]. cbn [fst].
      by rewrite (cd_key (TraceCodec := TraceCodec0)), (cd_sequence (TraceCodec := TraceCodec0)). }
  destruct ((0 <? rc_size s.1) && (rc_maxBytes s.1 <? rc_size s.1 + len (line +:+ newline))) eqn:Hfull.
  - apply andb_true_iff in Hfull as [Hsize%Z.ltb_lt _].
    pose proof (rotate_keeps s l HH Hna (or_intror (conj Hrec Hsize))) as H. rewrite Hp in H.
    pose proof (catch_spec "rotation_failed" (rotate ops) s) as Hc.
    destruct (rotate ops s) as [e0 s0]. destruct (catch ops "rotation_failed" (rotate ops) s) as [err s1]. cbn [fst snd] in *.
    destruct H as (K & Hr & Hna' & Hok), Hc as (-> & (F1 & F2 & F3) & _ & Hs & Kc). specialize (Kc K).
    destruct e0 as [e|]; [apply keeps_appended; [done|done|lia|done]|].
    destruct (Hok eq_refl) as (Hp0 & Hz & _). destruct (Holds_after _ _ _ Kc HH) as (d & l1 & Hd & HH1).
    destruct (fr_bounds _ _ (proj1 Kc)) as (_ & B2 & _).
    apply (Hwrite s1 l1); [done|done|by exists d|congruence|congruence|lia|]. rewrite Hs, Hz, B2. lia.
  - unfold nop. apply (Hwrite s l); [reflexivity|done|by exists []|done|done|lia|].
    apply andb_false_iff in Hfull as [Hz%Z.ltb_ge|Hle%Z.ltb_ge]; [|lia].
    destruct (ledger_text _ _ _ _ _ Hrec Hp HL) as (_ & Hsz & _). pose proof (len_nonneg (text cur)). lia.
Qed.

(** C4: the ledger survives. Whichever file operations fail, and wherever they stop, an
    [Append] leaves a ledger whose records are those from before, less the oldest archives,
    with the new trace added at most once and under the next sequence; if it reports
    success, the last record has the material of the trace. *)
Theorem Append_keeps_ledger trace s l :
  Holds s l -> rc_next s.1 < two64 - 1 -> rc_nextArchive s.1 < two64 - 1 ->
  (forall line, marshal (with_Sequence (rc_next s.1 + 1) trace) = inl line -> len line + 1 <= rc_maxBytes s.1) ->
  let '(err, s') := Append ops marshal marshalSemantic trace s in appended trace s l err s'.
Proof.
  intros HH Hn Hna Hfits. destruct (rc_closed s.1) eqn:Hclosed.
  { unfold Append. rewrite Hclosed. exact (fail_appended "closed" _ trace s l HH). }
  rewrite Append_prepares by done. unfold andThen. pose proof (prepare_spec s l HH Hna) as H.
  destruct (prepare s) as [[err|] s1]; destruct H as (K & E & Hok).
  { apply keeps_appended; [done|done|lia|done]. }
  destruct (Hok eq_refl) as [Hrec Hp]. destruct (Holds_after _ _ _ K HH) as (d & l1 & -> & HH1).
  destruct (fr_memory _ _ (proj1 K)) as [M1 _], (fr_bounds _ _ (proj1 K)) as (_ & B & _).
  pose proof (append_material_spec trace s1 l1 HH1) as H. rewrite M1, B in H. specialize (H Hn ltac:(lia) Hrec Hp Hfits).
  destruct (append_material _ _ _ trace s1) as [err s']. destruct H as ((d' & kept & -> & H) & Hk & Hna').
  split; [|split; [done|lia]]. exists (d ++ d'), kept. rewrite app_assoc. split; [done|]. by rewrite M1 in H.
Qed.
End Ledger.
