(* ===== verification/RecorderRestart.v ===== *)
(** * The ledger is restored

    A recorder opened on the files another one left, after a crash at any point, has the
    records of that ledger: all of them but for a partial last line and for archives beyond
    the retention. *)

From Stdlib Require Import ZArith Lia ZifyBool Sorted.
From S2P Require Import Prelude GoStrings GoTime Protocol Presentation ObservationStore AttentionSelector.
From S2P Require Import LocalState GoJson Engine Recorder RecorderFiles RecorderLedger.

(** ** Sorting generations *)

Lemma StronglySorted_weaken {A} (R S : A -> A -> Prop) l :
  (forall x y, R x y -> S x y) -> StronglySorted R l -> StronglySorted S l.
Proof. intros H. induction 1 as [|x l _ IH Hx]; constructor; [done|]. eapply Forall_impl; [exact Hx|apply H]. Qed.

Lemma SortFunc_ascending l gs : l ≡ₚ gs -> StronglySorted Z.lt gs -> SortFunc Z.sub l = gs.
Proof.
  intros Hp Hs. apply (StronglySorted_unique Z.le); [|eapply StronglySorted_weaken; [|exact Hs]; lia|by rewrite SortFunc_perm].
  assert (H : StronglySorted (not_after Z.sub) (SortFunc Z.sub l)).
  { apply SortFunc_sorted; unfold not_after; intros; lia. }
  eapply StronglySorted_weaken; [|exact H]. unfold not_after. intros. lia.
Qed.

Lemma ascending_NoDup l : StronglySorted Z.lt l -> NoDup l.
Proof.
  induction 1 as [|x l _ IH Hx]; constructor; [|done]. intros Hin. rewrite Forall_forall in Hx. specialize (Hx x Hin). lia.
Qed.

Lemma generations_once prefix entries : NoDup entries -> NoDup (omap (archive_generation prefix) entries).
Proof.
  induction 1 as [|[name d] entries Hin _ IH]; [constructor|]. cbn [omap list_omap].
  destruct (archive_generation prefix (name, d)) as [g|] eqn:Hg; [|done]. constructor; [|done].
  intros ([name' d'] & Hin' & Hg')%list_elem_of_omap.
  destruct d; [done|]. destruct d'; [done|]. apply archive_generation_iff in Hg as [-> _], Hg' as [-> _]. done.
Qed.

Section Restart.
Context {W : Type} (ops : recorderOps W) (content : W -> string -> option string) `{!LedgerFiles ops content}.
Context (marshal : Trace -> string + error) (unmarshal : string -> option Trace)
  (marshalSemantic : semanticTrace -> string + error) (sum256 : string -> string) (norm : Trace -> Trace)
  `{!TraceCodec marshal unmarshal marshalSemantic norm}.
Notation key := (materialKey marshalSemantic).
Notation valid_entry := (valid_entry unmarshal marshalSemantic norm).
Notation Ledger := (Ledger content unmarshal marshalSemantic norm).
Notation Archived := (Archived content).
Notation Holds := (Holds content unmarshal marshalSemantic norm).
Notation remembered := (remembered marshalSemantic norm).
Notation reliable := (Reliable ops content).

(** ** Texts determine records *)

Lemma same_lines maxBytes a b :
  Forall (valid_entry maxBytes) a -> Forall (valid_entry maxBytes) b -> map snd a = map snd b -> a = b.
Proof.
  intros Ha. revert b. induction Ha as [|[t line] a Hv _ IH]; intros [|[t' line'] b] Hb; cbn [map snd]; try done.
  apply Forall_cons in Hb as [Hv' Hb]. intros [= -> Heq]. pose proof (ve_read _ _ _ _ _ Hv) as H1.
  pose proof (ve_read _ _ _ _ _ Hv') as H2. cbn [fst snd] in *. rewrite H1 in H2. injection H2 as <-. f_equal. by apply IH.
Qed.

Lemma text_inj maxBytes a b torn :
  Forall (valid_entry maxBytes) a -> Forall (valid_entry maxBytes) b -> no_newline torn = true ->
  text a +:+ torn = text b -> a = b /\ torn = EmptyString.
Proof.
  intros Ha Hb Ht Heq. assert (Hl : forall l, Forall (valid_entry maxBytes) l -> Forall (fun e => no_newline e.2 = true) l).
  { intros l H. eapply Forall_impl; [exact H|]. intros e. apply ve_line. }
  pose proof (split_text a torn (Hl a Ha) Ht) as H1. pose proof (split_text b EmptyString (Hl b Hb) eq_refl) as H2.
  rewrite append_nil_r, <- Heq, H1 in H2. apply app_inj_tail in H2 as [H2 ->]. split; [|done]. by eapply same_lines.
Qed.

Lemma contiguous_head a es d :
  contiguous (a :: es) -> last (a :: es) = Some d -> tc_Sequence a.1 <= tc_Sequence d.1.
Proof.
  revert a. induction es as [|b es IH]; intros a Hc Hl; [injection Hl as ->; lia|].
  assert (Hb : tc_Sequence b.1 = tc_Sequence a.1 + 1) by (by apply (Hc [] a b es)).
  enough (tc_Sequence b.1 <= tc_Sequence d.1) by lia. apply (IH b); [|done]. by apply (contiguous_suffix [a]).
Qed.

(** A run of records is not repeated. *)
Lemma not_repeated before es a c :
  contiguous (before ++ (a :: es) ++ a :: c) -> False.
Proof.
  intros Hc. apply contiguous_suffix in Hc. destruct (exists_last (l := a :: es) ltac:(done)) as (es' & d & He).
  assert (Hd : last (a :: es) = Some d) by (rewrite He; apply last_snoc).
  assert (Hle : tc_Sequence a.1 <= tc_Sequence d.1).
  { eapply (contiguous_head a es d); [|done]. intros l1 x y l2 Heq. apply (Hc l1 x y (l2 ++ a :: c)). by rewrite Heq, <- app_assoc. }
  assert (Hs : tc_Sequence a.1 = tc_Sequence d.1 + 1); [|lia].
  apply (Hc es' d a c). by rewrite He, <- app_assoc.
Qed.

(** ** The records of a crashed ledger *)

Definition last_sequence (l : list entry) : Z := match last l with Some e => tc_Sequence e.1 | None => 0 end.
Definition last_key (l : list entry) : string :=
  match last l with Some e => match key e.1 with inl k => k | inr _ => EmptyString end | None => EmptyString end.

(** The active ledger after a crash: the records that can be read, and a partial line. *)
Lemma crashed r w olds cur torn :
  Ledger r w olds cur torn ->
  exists extra torn', text cur +:+ torn = text (cur ++ extra) +:+ torn' /\ no_newline torn' = true
    /\ Forall (valid_entry (rc_maxBytes r)) (cur ++ extra) /\ contiguous (records r olds cur ++ extra)
    /\ (extra <> [] -> rc_pendingArchive r = false) /\ (rc_pendingArchive r = true -> torn' = EmptyString)
    /\ (extra = [] \/ exists e, extra = [e] /\ tc_Sequence e.1 = rc_next r + 1 /\ rc_writeRecovery r <> None).
Proof.
  intros []. apply Forall_app in lg_valid as [_ Hv]. destruct lg_remembered as (Hc & Hlast & _).
  assert (Hnone : no_newline torn = true -> (rc_pendingArchive r = true -> torn = EmptyString) ->
    exists extra torn', text cur +:+ torn = text (cur ++ extra) +:+ torn' /\ no_newline torn' = true
    /\ Forall (valid_entry (rc_maxBytes r)) (cur ++ extra) /\ contiguous (records r olds cur ++ extra)
    /\ (extra <> [] -> rc_pendingArchive r = false) /\ (rc_pendingArchive r = true -> torn' = EmptyString)
    /\ (extra = [] \/ exists e, extra = [e] /\ tc_Sequence e.1 = rc_next r + 1 /\ rc_writeRecovery r <> None)).
  { intros Ht Hp. exists [], torn. rewrite !app_nil_r. by split_and!; try left. }
  destruct (rc_writeRecovery r) as [k|]; [|destruct (lg_whole eq_refl) as [-> _]; by apply Hnone].
  destruct (lg_torn k eq_refl) as (_ & Hp & [Ht|(e & -> & He & Hs)]); [apply Hnone; [done|congruence]|].
  exists [e], EmptyString. rewrite text_snoc, append_nil_r. split; [done|]. split; [done|].
  split; [apply Forall_app; split; [done|by constructor; [|constructor]]|]. split.
  - apply contiguous_snoc; [done|]. destruct (last (records r olds cur)) as [a|]; [|done]. destruct Hlast as [-> _]. done.
  - split_and!; try done. right. by exists e.
Qed.
(** ** The memory of a recorder that has read the records [l] *)

Definition mem (l : list entry) (r : Recorder) : Recorder :=
  fold_left (fun r e => set_memory (tc_Sequence e.1) (last_n (rc_capacity r) (rc_values r ++ [e.1]))
    match key e.1 with inl k => k | inr _ => EmptyString end r) l r.

Definition blank (r : Recorder) : Prop := rc_next r = 0 /\ rc_values r = [] /\ rc_lastKey r = EmptyString.

Lemma mem_snoc l e r :
  mem (l ++ [e]) r = set_memory (tc_Sequence e.1) (last_n (rc_capacity (mem l r)) (rc_values (mem l r) ++ [e.1]))
    match key e.1 with inl k => k | inr _ => EmptyString end (mem l r).
Proof. unfold mem. by rewrite fold_left_app. Qed.

Lemma mem_spec l r :
  blank r -> 1 <= rc_capacity r -> mem l r = set_memory (last_sequence l) (last_n (rc_capacity r) (map fst l)) (last_key l) r.
Proof.
  intros (H1 & H2 & H3) Hc. induction l as [|e l IH] using rev_ind.
  - unfold last_sequence, last_key, last_n. cbn. destruct r. cbn in *. by subst.
  - rewrite mem_snoc, IH. unfold last_sequence, last_key. rewrite last_snoc. cbn [rc_values rc_capacity set_memory].
    rewrite map_app. cbn [map]. rewrite last_n_snoc by done. reflexivity.
Qed.

(** *** Consuming lines *)

Lemma clone_trace t : cloneTrace t = t.
Proof. by destruct t. Qed.

Lemma consume_entry maxBytes l e n r :
  valid_entry maxBytes e -> contiguous (l ++ [e]) -> Forall (valid_entry maxBytes) l ->
  consumeLine unmarshal marshalSemantic e.2 (last_sequence l, n, mem l r)
  = (None, (last_sequence (l ++ [e]), n + 1, mem (l ++ [e]) r)).
Proof.
  intros Hv Hc Hl. destruct (ve_sequence _ _ _ _ _ Hv) as [Hs1 Hs2]. destruct (ve_key _ _ _ _ _ Hv) as [k Hk].
  unfold consumeLine. rewrite (ve_read _ _ _ _ _ Hv). cbv zeta.
  assert (Hseq : (tc_Sequence e.1 =? 0) || (negb (last_sequence l =? 0) && negb (tc_Sequence e.1 =? u64_succ (last_sequence l))) = false).
  { apply orb_false_iff. split; [lia|]. unfold last_sequence. destruct (last l) as [a|] eqn:El; [|done].
    apply last_Some in El as [l' ->]. assert (Ha : tc_Sequence e.1 = tc_Sequence a.1 + 1) by (apply (Hc l' a e []); by rewrite <- app_assoc).
    apply Forall_app in Hl as [_ Hl]. apply Forall_cons in Hl as [Hva _]. pose proof (ve_sequence _ _ _ _ _ Hva).
    rewrite u64_succ_small by lia. lia. }
  rewrite Hseq, Hk, clone_trace, mem_snoc, Hk. unfold last_sequence. rewrite last_snoc. done.
Qed.

Lemma consume_text maxBytes es torn l n r total :
  Forall (valid_entry maxBytes) (l ++ es) -> contiguous (l ++ es) -> total + len (text es +:+ torn) <= maxBytes ->
  exists n', consume_pieces unmarshal marshalSemantic (map snd es ++ [torn]) None maxBytes total total (last_sequence l, n, mem l r)
  = ((total + len (text es), negb (torn =s EmptyString), None), (last_sequence (l ++ es), n', mem (l ++ es) r)).
Proof.
  revert l n total. induction es as [|e es IH]; intros l n total Hv Hc Hlen; cbn [map app text String.append] in *.
  - exists n. cbn [consume_pieces]. rewrite !app_nil_r. destruct (Z.ltb_spec maxBytes (total + len torn)); [lia|].
    change (len EmptyString) with 0. by rewrite Z.add_0_r.
  - assert (Hcons : forall x xs, xs <> [] -> consume_pieces unmarshal marshalSemantic (x :: xs) None maxBytes total total (last_sequence l, n, mem l r)
      = if maxBytes <? total + len x + 1 then ((total, false, Some exceeds_bound), (last_sequence l, n, mem l r))
        else match consumeLine unmarshal marshalSemantic x (last_sequence l, n, mem l r) with
             | (Some err, g) => ((total, false, Some err), g)
             | (None, g) => consume_pieces unmarshal marshalSemantic xs None maxBytes (total + len x + 1) (total + len x + 1) g
             end) by (intros x [|y xs] Hx; done).
    rewrite Hcons by by destruct es. rewrite !len_app, len_newline in Hlen.
    pose proof (len_nonneg (text es)). pose proof (len_nonneg torn).
    destruct (Z.ltb_spec maxBytes (total + len e.2 + 1)); [lia|].
    change (l ++ e :: es) with (l ++ [e] ++ es) in *. rewrite app_assoc in *.
    apply Forall_app in Hv as Hv'. destruct Hv' as [Hv1 _]. apply Forall_app in Hv1 as [Hl He]. apply Forall_cons in He as [He _].
    rewrite (consume_entry maxBytes) by (try done; intros l1 a b l2 Heq; apply (Hc l1 a b (l2 ++ es)); by rewrite Heq, <- app_assoc).
    destruct (IH (l ++ [e]) (n + 1) (total + len e.2 + 1) Hv Hc) as [n' Hn]; [rewrite len_app; lia|].
    exists n'. rewrite Hn, !len_app, len_newline. do 3 f_equal. lia.
Qed.

Lemma consume_ledger maxBytes es torn l n r :
  Forall (valid_entry maxBytes) (l ++ es) -> contiguous (l ++ es) -> no_newline torn = true -> len (text es +:+ torn) <= maxBytes ->
  exists n', consumeJSONLines unmarshal marshalSemantic (text es +:+ torn, None) maxBytes (last_sequence l, n, mem l r)
  = ((len (text es), negb (torn =s EmptyString), None), (last_sequence (l ++ es), n', mem (l ++ es) r)).
Proof.
  intros Hv Hc Ht Hlen. unfold consumeJSONLines. cbn [fst snd]. rewrite split_text; [|eapply Forall_impl; [apply Forall_app in Hv as [_ Hv]; exact Hv|apply ve_line]|done].
  destruct (consume_text maxBytes es torn l n r 0 Hv Hc ltac:(lia)) as [n' ->]. by exists n'.
Qed.

(** An error of a read is reported. *)
Lemma consume_error pieces maxBytes total g err :
  exists x, ((consume_pieces unmarshal marshalSemantic pieces (Some err) maxBytes total total g).1.2 = x /\ (pieces <> [] -> is_Some x)).
Proof.
  eexists. split; [reflexivity|]. revert total g. induction pieces as [|x pieces IH]; intros total g Hne; [done|].
  cbn [consume_pieces]. destruct pieces as [|y pieces].
  - by destruct (maxBytes <? _).
  - destruct (maxBytes <? _); [done|]. destruct (consumeLine _ _ x g) as [[e|] g']; [done|]. by apply IH.
Qed.
(** *** Reading the files *)

Lemma mem_frame l r : exists next values lastKey, mem l r = set_memory next values lastKey r.
Proof.
  induction l as [|e l IH] using rev_ind; [exists (rc_next r), (rc_values r), (rc_lastKey r); by destruct r|].
  rewrite mem_snoc. destruct IH as (a & b & c & ->). by eexists _, _, _.
Qed.

(** The active ledger, from its start. *)
Lemma read_rewound path w c :
  content w path = Some c ->
  let '(seekErr, w1) := fl_rewind ops path w in
  let '((data, readErr), w2) := fl_read ops path w1 in
  (reliable -> seekErr = None /\ readErr = None) /\ (forall q, content w1 q = content w q)
  /\ (forall q, content w2 q = content w q) /\ (readErr = None -> data = c).
Proof.
  intros Hc. pose proof (lf_rewind (ops := ops) (content := content) path w) as S1.
  assert (Q1 : reliable -> (fl_rewind ops path w).1 = None) by (intros R; apply (rl_rewind _ _ R)).
  destruct (fl_rewind ops path w) as [seekErr w1]. cbn [fst snd] in *.
  assert (Q2 : reliable -> (fl_read ops path w1).1.2 = None) by (intros R; apply (rl_read _ _ R); by rewrite S1, Hc).
  pose proof (lf_read (ops := ops) (content := content) path w1) as S2.
  pose proof (lf_read_all (ops := ops) (content := content) path w1) as R2.
  destruct (fl_read ops path w1) as [[data readErr] w2]. cbn [fst snd] in *. split_and!; [auto|done|intros q; by rewrite S2, S1|].
  intros ->. specialize (R2 _ eq_refl). rewrite S1 in R2. congruence.
Qed.

(** Reading a file that is there fails only if an operation does. *)
Lemma read_archive_spec path w c :
  content w path = Some c ->
  let '(result, w') := read_archive ops path w in
  (forall q, content w' q = content w q)
  /\ match result with
     | inl ((data, readErr), closeErr) => (readErr = None -> data = c) /\ (reliable -> readErr = None /\ closeErr = None)
     | inr _ => ~ reliable
     end.
Proof.
  intros Hc. unfold read_archive. pose proof (lf_openRead (ops := ops) (content := content) path w) as S1.
  assert (Q1 : reliable -> (op_openRead ops path w).1 = None) by (intros R; by apply (rl_openRead _ _ R)).
  destruct (op_openRead ops path w) as [[err|] w1]; cbn [fst snd] in *; [split; [done|]; by intros R%Q1|].
  rewrite <- S1 in Hc. clear Q1.
  assert (Q2 : reliable -> (fl_read ops path w1).1.2 = None) by (intros R; by apply (rl_read _ _ R)).
  pose proof (lf_read (ops := ops) (content := content) path w1) as S2.
  pose proof (lf_read_all (ops := ops) (content := content) path w1) as R2.
  destruct (fl_read ops path w1) as [[data readErr] w2]. cbn [fst snd] in *.
  pose proof (lf_closeRead (ops := ops) (content := content) path w2) as S3.
  assert (Q3 : reliable -> (op_closeRead ops path w2).1 = None) by (intros R; by apply (rl_closeRead _ _ R)).
  destruct (op_closeRead ops path w2) as [closeErr w3]. cbn [fst snd] in *.
  split; [intros q; by rewrite S3, S2, S1|]. split; [|auto]. intros ->. specialize (R2 _ eq_refl). congruence.
Qed.

(** What cannot be read whole is an error. *)
Lemma consume_failed data err maxBytes g :
  exists e v p g', consumeJSONLines unmarshal marshalSemantic (data, Some err) maxBytes g = ((v, p, Some e), g').
Proof.
  unfold consumeJSONLines. cbn [fst snd].
  destruct (consume_error (split_byte (ascii_of_byte 10) data) maxBytes 0 g err) as (x & Hx & Hsome).
  destruct (Hsome (split_byte_nonempty _ _)) as [e ->].
  destruct (consume_pieces _ _ _ _ _ _ _ _) as [[[v p] re] g']. cbn [fst snd] in Hx. subst re. by eexists _, _, _, _.
Qed.

Lemma restore_archives_spec maxBytes r olds : forall archives l n w,
  rc_maxBytes r = maxBytes ->
  Forall2 (fun g es => content w (archivePath r g) = Some (text es)) archives olds ->
  Forall (valid_entry maxBytes) (l ++ concat olds) -> contiguous (l ++ concat olds) ->
  Forall (fun es => es <> [] /\ len (text es) <= maxBytes) olds ->
  let '(err, g, w') := restore_archives ops unmarshal marshalSemantic archives (last_sequence l, n, mem l r) w in
  match err with
  | None => (exists n', g = (last_sequence (l ++ concat olds), n', mem (l ++ concat olds) r)) /\ forall q, content w' q = content w q
  | Some _ => ~ reliable
  end.
Proof.
  induction olds as [|es olds IH]; intros archives l n w Hmax Hcontent Hv Hc Hlen.
  - apply Forall2_nil_inv_r in Hcontent as ->. cbn. rewrite app_nil_r. split; [by exists n|done].
  - apply Forall2_cons_inv_r in Hcontent as (a & archives' & Ha & Hcontent & ->).
    apply Forall_cons in Hlen as [[_ Hes] Hlen]. cbn [concat] in *. cbn [restore_archives snd].
    destruct (mem_frame l r) as (mn & mv & mk & Hmem).
    assert (Hpath : archivePath (mem l r) a = archivePath r a) by by rewrite Hmem.
    assert (Hmb : rc_maxBytes (mem l r) = maxBytes) by by rewrite Hmem.
    rewrite Hpath, Hmb. pose proof (read_archive_spec (archivePath r a) w _ Ha) as Hread.
    destruct (read_archive ops (archivePath r a) w) as [[[[data readErr] closeErr]|err] w1]; [|by destruct Hread].
    destruct Hread as (S1 & R1 & Q1). destruct readErr as [e|].
    + destruct (consume_failed data e maxBytes (last_sequence l, n, mem l r)) as (e' & v & p & g & ->).
      destruct (errors_Join [Some e'; closeErr]) eqn:EJ; [by intros [? _]%Q1|]. apply errors_Join_None, all_nil_cons in EJ as [? _]. done.
    + rewrite (R1 eq_refl). rewrite app_assoc in Hv, Hc.
      destruct (consume_ledger maxBytes es EmptyString l n r) as [n' Hn].
      { by apply Forall_app in Hv as [? _]. }
      { intros l1 x y l2 Heq. apply (Hc l1 x y (l2 ++ concat olds)). by rewrite Heq, <- app_assoc. }
      { done. }
      { by rewrite append_nil_r. }
      rewrite append_nil_r in Hn. rewrite Hn. cbn [negb String.eqb].
      destruct (errors_Join [None; closeErr]) eqn:EJ; [intros [_ ->]%Q1; done|].
      specialize (IH archives' (l ++ es) n' w1 Hmax). rewrite app_assoc.
      destruct (restore_archives _ _ _ archives' _ w1) as [[err g] w2]. destruct err as [e|].
      * apply IH; try done. eapply Forall2_impl; [exact Hcontent|]. intros g' es' H. by rewrite S1.
      * destruct IH as [Hg S2]; try done; [eapply Forall2_impl; [exact Hcontent|]; intros g' es' H; by rewrite S1|].
        split; [done|]. intros q. by rewrite S2, S1.
Qed.
(** The end of [restoreLedger], with the position at the end of the active ledger. *)
Lemma restored_spec size r w :
  let '(err, (r', w')) := (lift (fl_seekEnd ops (rc_path r)) ;;
    update (fun r => let r := set_size size r in set_status (restored_status r) r)) (r, w) in
  match err with
  | None => (exists status, r' = set_status status (set_size size r)) /\ forall q, content w' q = content w q
  | Some _ => ~ reliable
  end.
Proof.
  unfold andThen, lift, update. cbn [fst snd]. pose proof (lf_seekEnd (ops := ops) (content := content) (rc_path r) w) as S4.
  assert (Q : reliable -> (fl_seekEnd ops (rc_path r) w).1 = None) by (intros R; apply (rl_seekEnd _ _ R)).
  destruct (fl_seekEnd ops (rc_path r) w) as [[e4|] w4]; cbn [fst snd] in *; [by intros ?%Q|]. split; [by eexists|done].
Qed.

(** The active ledger, and the removal of a partial line. *)
Lemma restore_active_spec maxBytes l n r w cur torn :
  rc_maxBytes r = maxBytes -> content w (rc_path r) = Some (text cur +:+ torn) -> no_newline torn = true ->
  Forall (valid_entry maxBytes) (l ++ cur) -> contiguous (l ++ cur) -> len (text cur +:+ torn) <= maxBytes -> rc_size r <= maxBytes ->
  let '(err, (r', w')) := restore_active ops unmarshal marshalSemantic (last_sequence l, n, mem l r) w in
  match err with
  | None => (exists status, r' = set_status status (set_size (len (text cur)) (mem (l ++ cur) r)))
    /\ content w' (rc_path r) = Some (text cur) /\ forall q, q <> rc_path r -> content w' q = content w q
  | Some _ => ~ reliable
  end.
Proof.
  intros Hmax Hc Ht Hv Hcont Hlen Hsize. unfold restore_active. cbn [snd]. destruct (mem_frame l r) as (mn & mv & mk & Hmem).
  assert (E : rc_path (mem l r) = rc_path r /\ rc_maxBytes (mem l r) = maxBytes /\ rc_size (mem l r) = rc_size r) by by rewrite Hmem.
  destruct E as (-> & -> & ->). destruct (Z.ltb_spec maxBytes (rc_size r)); [lia|].
  pose proof (read_rewound (rc_path r) w _ Hc) as H1.
  destruct (fl_rewind ops (rc_path r) w) as [[e1|] w1].
  { destruct (fl_read ops (rc_path r) w1) as [[data readErr] w2]. destruct H1 as (Q1 & _). by intros [? _]%Q1. }
  destruct (fl_read ops (rc_path r) w1) as [[data readErr] w2]. destruct H1 as (Q1 & S1 & S2 & R2). destruct readErr as [e|].
  { destruct (consume_failed data e maxBytes (last_sequence l, n, mem l r)) as (e' & v & p & [[? ?] ?] & ->). by intros [_ ?]%Q1. }
  rewrite (R2 eq_refl). clear Q1 R2.
  destruct (consume_ledger maxBytes cur torn l n r Hv Hcont Ht Hlen) as [n' ->].
  destruct (mem_frame (l ++ cur) r) as (mn' & mv' & mk' & Hmem').
  assert (Hpath' : rc_path (mem (l ++ cur) r) = rc_path r) by by rewrite Hmem'.
  assert (Hc2 : content w2 (rc_path r) = Some (text cur +:+ torn)) by by rewrite S2.
  pose proof (len_nonneg (text cur)). pose proof (len_nonneg torn). rewrite Hpath'.
  destruct (String.eqb_spec torn EmptyString) as [->|Hne]; cbn [negb].
  - unfold andThen at 1, nop. pose proof (restored_spec (len (text cur)) (mem (l ++ cur) r) w2) as H4. rewrite Hpath' in H4.
    destruct ((lift _ ;; _) (mem (l ++ cur) r, w2)) as [[err|] [r' w']]; [done|]. destruct H4 as [H4 S4]. split; [done|].
    split; [by rewrite S4, Hc2, append_nil_r|]. intros q Hq. by rewrite S4, S2.
  - destruct (truncate_cases ops content (rc_path r) (len (text cur)) w2 _ Hc2) as [Ho Htr]; [rewrite len_app; lia|].
    assert (Q3 : reliable -> (fl_truncate ops (rc_path r) (len (text cur)) w2).1 = None) by (intros R; apply (rl_truncate _ _ R)).
    rewrite take_text in Htr. unfold andThen at 1. unfold andThen at 1. unfold lift at 1. cbn [fst snd].
    destruct (fl_truncate ops (rc_path r) (len (text cur)) w2) as [[e3|] w3]; cbn [fst snd] in *; [by intros ?%Q3|].
    unfold set_degraded. cbn [fst snd]. set (status := degraded _ _ _).
    pose proof (restored_spec (len (text cur)) (set_status status (mem (l ++ cur) r)) w3) as H4. cbn [rc_path set_status] in H4. rewrite Hpath' in H4.
    destruct ((lift _ ;; _) (set_status status (mem (l ++ cur) r), w3)) as [[err|] [r' w']]; [done|]. destruct H4 as [[st ->] S4].
    split; [by exists st|]. split; [by rewrite S4|]. intros q Hq. by rewrite S4, Ho, S2.
Qed.
(** ** What is on disk

    The archives [olds], the records [act] of the active ledger and a partial line. If
    [again], the active ledger is the latest archive, which is still to be truncated. *)
Record Stored (again : bool) (r : Recorder) (w : W) (olds : list (list entry)) (act : list entry) (torn : string) : Prop := {
  so_archived : Archived r w olds;
  so_active : content w (rc_path r) = Some (text act +:+ torn);
  so_torn : no_newline torn = true;
  so_valid : Forall (valid_entry (rc_maxBytes r)) (concat olds ++ act);
  so_bytes : len (text act +:+ torn) <= rc_maxBytes r;
  so_contiguous : contiguous (concat olds ++ if again then [] else act);
  so_again : again = true -> last olds = Some act /\ torn = EmptyString;
}.

(** What a ledger leaves on disk, the last record included that a failed write may have
    left whole. *)
Lemma Ledger_stored r w olds cur torn :
  Ledger r w olds cur torn ->
  exists again act torn' extra, Stored again r w olds act torn'
    /\ records r olds cur ++ extra = concat olds ++ (if again then [] else act)
    /\ (extra = [] \/ exists e, extra = [e] /\ tc_Sequence e.1 = rc_next r + 1 /\ rc_writeRecovery r <> None).
Proof.
  intros HL. destruct (crashed r w olds cur torn HL) as (extra & torn' & Ht & Hn & Hv & Hc & Hp1 & Hp2 & He).
  assert (Hold : Forall (valid_entry (rc_maxBytes r)) (concat olds)) by (pose proof (lg_valid _ _ _ _ _ _ _ _ _ HL) as H; by apply Forall_app in H as [? _]).
  pose proof (lg_bytes _ _ _ _ _ _ _ _ _ HL) as Hb. pose proof (lg_active _ _ _ _ _ _ _ _ _ HL) as Ha. rewrite Ht in Hb, Ha.
  destruct (rc_pendingArchive r) eqn:Hp.
  - assert (extra = []) as -> by (destruct extra; [done|by specialize (Hp1 ltac:(done))]).
    rewrite (Hp2 eq_refl) in *. unfold records in *. rewrite Hp, !app_nil_r in *.
    destruct (lg_pending _ _ _ _ _ _ _ _ _ HL Hp) as [_ [->|Hlast]].
    + exists false, [], EmptyString, []. split; [|by rewrite !app_nil_r; split; [|left]].
      split; try done; [apply HL|by apply Forall_app|by rewrite app_nil_r].
    + exists true, cur, EmptyString, []. split; [|by rewrite !app_nil_r; split; [|left]].
      split; try done; [apply HL|by apply Forall_app|by rewrite app_nil_r].
  - unfold records in *. rewrite Hp in *. exists false, (cur ++ extra), torn', extra. rewrite <- app_assoc in *.
    split; [|done]. split; try done; [apply HL|by apply Forall_app].
Qed.

(** Nothing but the names of the files and the bounds matters. *)
Lemma Archived_recorder r r' w olds :
  rc_path r' = rc_path r -> rc_maxBytes r' = rc_maxBytes r -> rc_archives r' = rc_archives r ->
  0 < rc_nextArchive r' < two64 /\ Forall (fun g => 0 < g < rc_nextArchive r') (rc_archives r) ->
  Archived r w olds -> Archived r' w olds.
Proof.
  intros Hp Hm Ha Hn [H1 H2 H3 _ H5].
  assert (Hpath : forall g, archivePath r' g = archivePath r g) by (intros g; unfold archivePath; by rewrite Hp).
  split; rewrite ?Ha, ?Hm; try done.
  - eapply Forall2_impl; [exact H1|]. intros g es H. by rewrite Hpath.
  - intros g Hg Hin. rewrite Hpath. auto.
Qed.

Lemma Stored_recorder r r' again w olds act torn :
  rc_path r' = rc_path r -> rc_maxBytes r' = rc_maxBytes r -> rc_archives r' = rc_archives r ->
  0 < rc_nextArchive r' < two64 /\ Forall (fun g => 0 < g < rc_nextArchive r') (rc_archives r) ->
  Stored again r w olds act torn -> Stored again r' w olds act torn.
Proof. intros Hp Hm Ha Hn []. split; rewrite ?Hp, ?Hm; try done. by apply (Archived_recorder r). Qed.

Lemma Stored_same again r w w' olds act torn :
  (forall q, content w' q = content w q) -> Stored again r w olds act torn -> Stored again r w' olds act torn.
Proof. intros H []. split; try done; [by eapply Archived_files; [|done]|by rewrite H]. Qed.

(** *** Finding the archives *)

Lemma archives_found r w olds entries :
  canonical (rc_path r) -> Archived r w olds -> (op_readDir ops (Dir (rc_path r)) w).1 = inl entries ->
  SortFunc Z.sub (omap (archive_generation (Base (rc_path r) +:+ ".")) entries) = rc_archives r.
Proof.
  intros Hcan HA He. apply SortFunc_ascending; [|apply HA]. apply NoDup_Permutation.
  - apply generations_once. by eapply lf_readDir_once.
  - apply ascending_NoDup, HA.
  - intros g. rewrite list_elem_of_omap.
    pose proof (fun Hg => lf_readDir_names (ops := ops) (content := content) (rc_path r) g w entries Hcan Hg He) as Hn. split.
    + intros ([name []] & Hin & Hg); [done|]. apply archive_generation_iff in Hg as [-> Hg].
      rewrite append_assoc in Hin. apply Hn in Hin; [|lia]. destruct (decide (g ∈ rc_archives r)) as [|Hnin]; [done|].
      unfold archivePath in *. pose proof (ar_absent _ _ _ _ HA g Hg Hnin) as Habs. unfold archivePath in Habs. rewrite Habs in Hin. by destruct Hin.
    + intros Hin. exists (Base (rc_path r) +:+ "." +:+ format_uint g, false).
      destruct (ar_range _ _ _ _ HA) as [Hr1 Hr2]. rewrite Forall_forall in Hr2. specialize (Hr2 g Hin).
      rewrite archive_generation_iff, append_assoc. split; [|split; [done|lia]]. apply Hn; [lia|].
      pose proof (ar_content _ _ _ _ HA) as Hc. apply list_elem_of_lookup in Hin as [i Hi].
      destruct (Forall2_lookup_l _ _ _ _ _ Hc Hi) as (es & _ & Hes). by eexists.
Qed.

Lemma initialize_spec again r0 r w olds act torn :
  canonical (rc_path r0) -> Stored again r0 w olds act torn -> rc_path r = rc_path r0 -> rc_maxBytes r = rc_maxBytes r0 ->
  let '(err, (r', w')) := initializeArchives ops (r, w) in
  match err with
  | None => Stored again r' w' olds act torn
      /\ exists next, r' = set_archives (rc_archives r0) next (rc_pendingArchive r) (rc_retained r <? Z.of_nat (length (rc_archives r0))) r
  | Some _ => ~ reliable
  end /\ forall q, content w' q = content w q.
Proof.
  intros Hcan HS Hp Hm. unfold initializeArchives, reads. cbn [fst snd]. rewrite Hp.
  pose proof (lf_readDir (ops := ops) (content := content) (Dir (rc_path r0)) w) as S.
  assert (Q : reliable -> exists entries, (op_readDir ops (Dir (rc_path r0)) w).1 = inl entries) by (intros R; apply (rl_readDir _ _ R)).
  pose proof (fun entries => archives_found r0 w olds entries Hcan (so_archived _ _ _ _ _ _ HS)) as Hfound.
  destruct (op_readDir ops (Dir (rc_path r0)) w) as [[entries|err] w']; cbn [fst snd] in *; [|split; [|done]; by intros [? ?]%Q].
  rewrite (Hfound entries eq_refl). split; [|done]. split; [|by eexists]. apply (Stored_same again _ w); [done|].
  apply (Stored_recorder r0); try done. cbn [rc_nextArchive set_archives].
  destruct (ar_range _ _ _ _ (so_archived _ _ _ _ _ _ HS)) as [Hr1 Hr2]. pose proof (ar_sorted _ _ _ _ (so_archived _ _ _ _ _ _ HS)) as Hs.
  destruct (last (rc_archives r0)) as [g|] eqn:El.
  - apply last_Some in El as [gs El]. rewrite El in *. apply Forall_app in Hr2 as [Hr2 Hg]. apply Forall_cons in Hg as [Hg _].
    rewrite u64_succ_small by lia. split; [lia|]. apply Forall_app. split; [|constructor; [lia|done]].
    apply Forall_forall. intros x Hx. rewrite Forall_forall in Hr2. specialize (Hr2 x Hx).
    assert (x < g) by (eapply StronglySorted_app_1_elem_of; [exact Hs|done|by left]). lia.
  - apply last_None in El. rewrite El. split; [done|constructor].
Qed.
(** *** An archive awaiting its truncation *)

Lemma latest_archive r w olds g :
  Archived r w olds -> last (rc_archives r) = Some g ->
  exists before es, olds = before ++ [es] /\ content w (archivePath r g) = Some (text es) /\ es <> [] /\ len (text es) <= rc_maxBytes r.
Proof.
  intros [H1 _ _ _ H5] Hl. apply last_Some in Hl as [gs Hl]. rewrite Hl in H1.
  apply Forall2_app_inv_l in H1 as (before & l & _ & H1 & ->). apply Forall2_cons_inv_l in H1 as (es & l' & Hes & Hnil & ->).
  apply Forall2_nil_inv_l in Hnil as ->. exists before, es. apply Forall_app in H5 as [_ H5]. by apply Forall_cons in H5 as [[] _].
Qed.

(** The active ledger equals the latest archive only if it is still to be truncated. *)
Lemma again_iff again r w before es act torn :
  Stored again r w (before ++ [es]) act torn -> es <> [] -> text act +:+ torn = text es <-> again = true.
Proof.
  intros [_ _ Ht Hv _ Hc Ha] Hne. split; intros H.
  - destruct again; [done|]. exfalso. rewrite concat_app in *. cbn [concat] in *. rewrite app_nil_r, <- app_assoc in *.
    apply Forall_app in Hv as [_ Hv]. apply Forall_app in Hv as [Hve Hva].
    destruct (text_inj (rc_maxBytes r) act es torn) as [-> ->]; [done..|]. destruct es as [|a es]; [done|].
    by apply (not_repeated (concat before) es a es).
  - destruct (Ha H) as [Hl ->]. rewrite last_snoc in Hl. injection Hl as ->. by rewrite append_nil_r.
Qed.

(** The hashes of the active ledger and of an archive do not collide. *)
Definition distinguished (r : Recorder) (w : W) : Prop :=
  forall g a b, content w (rc_path r) = Some a -> content w (archivePath r g) = Some b -> len a = len b -> sum256 a = sum256 b -> a = b.

Lemma distinguished_same r w w' : (forall q, content w' q = content w q) -> distinguished r w -> distinguished r w'.
Proof. intros H D g a b. rewrite !H. apply D. Qed.

Lemma boundedHash_spec maxBytes data err :
  len data <= maxBytes ->
  boundedHash sum256 maxBytes (data, err) = match err with Some e => inr e | None => inl (sum256 data, len data) end.
Proof. intros H. unfold boundedHash. cbn [fst snd]. by destruct (Z.ltb_spec maxBytes (len data)); [lia|]. Qed.

Lemma set_nothing r : rc_pendingArchive r = false -> r = set_pendingArchive false (set_status (rc_status r) r).
Proof. intros H. destruct r. cbn in *. by subst. Qed.

Lemma last_archive_none r w olds : Archived r w olds -> last (rc_archives r) = None -> olds = [].
Proof. intros [H1 _ _ _ _] Hl. apply last_None in Hl. rewrite Hl in H1. by apply Forall2_nil_inv_l in H1. Qed.

Lemma text_empty l : len (text l) = 0 -> l = [].
Proof.
  destruct l as [|e l]; [done|]. cbn [text]. rewrite !len_app, len_newline.
  pose proof (len_nonneg e.2). pose proof (len_nonneg (text l)). lia.
Qed.

Lemma hash_failed maxBytes data e : exists err, boundedHash sum256 maxBytes (data, Some e) = inr err.
Proof. unfold boundedHash. cbn [fst snd]. destruct (_ <? _); by eexists. Qed.

(** The comparison that the detection makes. *)
Lemma same_hash again r w before es act torn g :
  Stored again r w (before ++ [es]) act torn -> distinguished r w -> es <> [] -> content w (archivePath r g) = Some (text es) ->
  (len (text act +:+ torn) =? len (text es)) && (sum256 (text act +:+ torn) =s sum256 (text es)) = again.
Proof.
  intros HS HD Hne Hes. pose proof (again_iff _ _ _ _ _ _ _ HS Hne) as Hiff. destruct again.
  - rewrite (proj2 Hiff eq_refl), Z.eqb_refl, String.eqb_refl. done.
  - apply andb_false_iff. destruct (Z.eqb_spec (len (text act +:+ torn)) (len (text es))) as [H1|]; [right|by left].
    destruct (String.eqb_spec (sum256 (text act +:+ torn)) (sum256 (text es))) as [H2|]; [|done].
    by specialize (proj1 Hiff (HD g _ _ (so_active _ _ _ _ _ _ HS) Hes H1 H2)).
Qed.

(** The bytes of the latest archive against those of the active ledger. *)
Lemma detect_spec again r w olds act torn :
  Stored again r w olds act torn -> distinguished r w -> rc_size r = len (text act +:+ torn) -> rc_pendingArchive r = false ->
  let '(err, (r', w')) := detectCommittedArchiveAwaitingTruncate ops sum256 (r, w) in
  (forall q, content w' q = content w q)
  /\ match err with
     | None => exists status, r' = set_pendingArchive again (set_status status r)
     | Some _ => ~ reliable
     end.
Proof.
  intros HS HD Hsize Hp. unfold detectCommittedArchiveAwaitingTruncate, reads. cbn [fst snd].
  pose proof HS as [HA Hact _ _ Hb _ _].
  destruct (last (rc_archives r)) as [g|] eqn:El.
  2:{ rewrite (last_archive_none _ _ _ HA El) in HS. destruct again; [by destruct (so_again _ _ _ _ _ _ HS eq_refl)|].
      split; [done|]. exists (rc_status r). by apply set_nothing. }
  destruct (latest_archive _ _ _ _ HA El) as (before & es & -> & Hes & Hne & Hlen).
  pose proof (again_iff _ _ _ _ _ _ _ HS Hne) as Hiff.
  destruct (Z.eqb_spec (rc_size r) 0) as [Hz|Hz].
  { split; [done|]. exists (rc_status r). destruct again; [|by apply set_nothing]. exfalso.
    rewrite (proj2 Hiff eq_refl) in Hsize. apply Hne, text_empty. lia. }
  pose proof (read_rewound (rc_path r) w _ Hact) as H1.
  destruct (fl_rewind ops (rc_path r) w) as [[e1|] w1].
  { destruct (fl_read ops (rc_path r) w1) as [[data readErr] w2]. destruct H1 as (Q1 & S1 & _). split; [exact S1|]. by intros [? _]%Q1. }
  destruct (fl_read ops (rc_path r) w1) as [[data readErr] w2]. destruct H1 as (Q1 & S1 & S2 & R2). destruct readErr as [e|].
  { destruct (hash_failed (rc_maxBytes r) data e) as [err ->]. split; [exact S2|]. by intros [_ ?]%Q1. }
  rewrite (R2 eq_refl). clear Q1 R2. rewrite boundedHash_spec by done.
  pose proof (lf_seekEnd (ops := ops) (content := content) (rc_path r) w2) as S3.
  assert (Q3 : reliable -> (fl_seekEnd ops (rc_path r) w2).1 = None) by (intros R; apply (rl_seekEnd _ _ R)).
  destruct (fl_seekEnd ops (rc_path r) w2) as [[e3|] w3]; cbn [fst snd] in *; [split; [intros q; by rewrite S3, S2|]; by intros ?%Q3|].
  pose proof (read_archive_spec (archivePath r g) w3 (text es)) as Hread.
  destruct (read_archive ops (archivePath r g) w3) as [[[[data' readErr] closeErr]|err] w4]; destruct Hread as [S4 H4]; try by rewrite S3, S2.
  2:{ split; [intros q; by rewrite S4, S3, S2|done]. }
  assert (Ssame : forall q, content w4 q = content w q) by (intros q; by rewrite S4, S3, S2). destruct H4 as [R4 Q4].
  destruct readErr as [e|].
  { destruct (hash_failed (rc_maxBytes r) data' e) as [err ->].
    destruct (errors_Join [Some err; closeErr]) eqn:EJ; [split; [done|]; by intros [? _]%Q4|].
    by apply errors_Join_None, all_nil_cons in EJ as [? _]. }
  rewrite (R4 eq_refl), boundedHash_spec by done. destruct closeErr as [ce|]; [split; [done|]; by intros [_ ?]%Q4|].
  change (errors_Join [None; None]) with (@None error). cbv iota beta.
  rewrite (same_hash again r w before es act torn g) by done. destruct again.
  - unfold andThen, set_degraded, update. cbn [fst snd]. split; [done|]. by eexists.
  - split; [done|]. exists (rc_status r). by apply set_nothing.
Qed.

Lemma maxBytes_nonneg again r w olds act torn : Stored again r w olds act torn -> 0 <= rc_maxBytes r.
Proof. intros []. pose proof (len_nonneg (text act +:+ torn)). lia. Qed.

Lemma awaiting_spec again r w olds act torn :
  Stored again r w olds act torn -> rc_pendingArchive r = again -> rc_size r <= rc_maxBytes r ->
  let '(err, (r', w')) := reads (fun r => if rc_pendingArchive r then truncateActive ops ;; update (set_pendingArchive false) else nop) (r, w) in
  match err with
  | None => exists act' torn' size, Stored false r' w' olds act' torn' /\ act' = (if again then [] else act)
      /\ r' = set_pendingArchive false (set_size size r) /\ size <= rc_maxBytes r
  | Some _ => ~ reliable
  end.
Proof.
  intros HS Hp Hsize. unfold reads. cbn [fst snd]. rewrite Hp. destruct again.
  2:{ exists act, torn, (rc_size r). split; [done|]. split; [done|]. split; [|done]. destruct r. cbn in *. by subst. }
  pose proof (maxBytes_nonneg _ _ _ _ _ _ HS) as Hmax.
  unfold truncateActive, andThen, reads, lift, update. cbn [fst snd].
  destruct (truncate_cases ops content (rc_path r) 0 w _ (so_active _ _ _ _ _ _ HS)) as [Ho Htr]; [pose proof (len_nonneg (text act +:+ torn)); lia|].
  assert (Q1 : reliable -> (fl_truncate ops (rc_path r) 0 w).1 = None) by (intros R; apply (rl_truncate _ _ R)).
  destruct (fl_truncate ops (rc_path r) 0 w) as [[e1|] w1]; cbn [fst snd] in *; [by intros ?%Q1|].
  pose proof (lf_seekEnd (ops := ops) (content := content) (rc_path r) w1) as S2.
  assert (Q2 : reliable -> (fl_seekEnd ops (rc_path r) w1).1 = None) by (intros R; apply (rl_seekEnd _ _ R)).
  destruct (fl_seekEnd ops (rc_path r) w1) as [[e2|] w2]; cbn [fst snd] in *; [by intros ?%Q2|].
  exists [], EmptyString, 0. split; [|by split_and!]. destruct HS. split; try done.
  - apply (Archived_recorder r); try done; [by destruct so_archived0|]. eapply Archived_files; [|exact so_archived0].
    intros g _. rewrite S2. apply Ho, archive_not_active.
  - change (content w2 (rc_path r) = Some EmptyString). rewrite S2, Htr. by rewrite take_bytes_0.
  - apply Forall_app in so_valid0 as [? _]. by apply Forall_app.
Qed.

(** *** Removing archives *)

Lemma Stored_removed r w w' generation rest es olds act torn :
  rc_archives r = generation :: rest ->
  (forall q, q <> archivePath r generation -> content w' q = content w q) -> content w' (archivePath r generation) = None ->
  Stored false r w (es :: olds) act torn ->
  Stored false (set_archives rest (rc_nextArchive r) (rc_pendingArchive r) (rc_cleanupPending r) r) w' olds act torn.
Proof.
  intros Hgs Ho Hgone []. cbn [concat] in *. rewrite <- app_assoc in *. split; try done.
  - by apply (Archived_removed _ r w w' generation rest es olds).
  - cbn [rc_path set_archives]. rewrite Ho; [done|]. apply not_eq_sym, archive_not_active.
  - by apply Forall_app in so_valid0 as [_ ?].
  - by eapply contiguous_suffix.
Qed.

(** How many archives are more than are retained. *)
Definition excess (archives retained : Z) : nat := Z.to_nat (archives - Z.max 0 retained).
Definition removed (archives retained : Z) (n : nat) : Prop :=
  (n <= excess archives retained)%nat /\ (reliable -> n = excess archives retained).

(** The oldest archives go, and only those beyond the retention. *)
Lemma cleanup_stored archives : forall r w olds act torn,
  rc_archives r = archives -> Stored false r w olds act torn ->
  let '(_, (r', w')) := cleanup_loop ops archives (r, w) in
  exists gone kept rest, olds = gone ++ kept /\ Stored false r' w' kept act torn
    /\ r' = set_archives rest (rc_nextArchive r) (rc_pendingArchive r) (rc_cleanupPending r) r
    /\ removed (Z.of_nat (length archives)) (rc_retained r) (length gone).
Proof.
  induction archives as [|g archives IH]; intros r w olds act torn Hgs HS; cbn [cleanup_loop fst snd].
  { exists [], olds, (rc_archives r). split_and!; try done; [by destruct r|]. unfold removed, excess. cbn [length]. lia. }
  destruct (Z.leb_spec (Z.of_nat (length (g :: archives))) (rc_retained r)) as [Hle|Hgt].
  { exists [], olds, (rc_archives r). split_and!; try done; [by destruct r|]. unfold removed, excess. cbn [length] in *. lia. }
  pose proof (ar_content _ _ _ _ (so_archived _ _ _ _ _ _ HS)) as Hc. rewrite Hgs in Hc.
  apply Forall2_cons_inv_l in Hc as (es & olds' & Hes & _ & ->).
  unfold remove_existing, lift. cbn [fst snd].
  pose proof (fun q => lf_remove (ops := ops) (content := content) (archivePath r g) w q) as Ho.
  pose proof (lf_remove_ok (ops := ops) (content := content) (archivePath r g) w) as Hok.
  pose proof (lf_remove_failed (ops := ops) (content := content) (archivePath r g) w) as Hf.
  assert (Q : reliable -> (op_remove ops (archivePath r g) w).1 = None) by (intros R; apply (rl_remove _ _ R); eauto).
  destruct (op_remove ops (archivePath r g) w) as [[e|] w1]; cbn [fst snd] in *.
  - destruct (Hf e eq_refl) as [Hs Hmissing]. destruct (op_isNotExist ops e); [by rewrite (Hmissing eq_refl) in Hes|].
    exists [], (es :: olds'), (rc_archives r). split; [done|]. split; [|split; [by destruct r|split; [cbn [length]; lia|by intros ?%Q]]].
    eapply Stored_same; [|exact HS]. intros q. destruct (decide (q = archivePath r g)) as [->|]; [done|by apply Ho].
  - pose proof (Stored_removed r w w1 g archives es olds' act torn Hgs Ho (Hok eq_refl) HS) as HS1.
    specialize (IH (set_archives archives (rc_nextArchive r) (rc_pendingArchive r) (rc_cleanupPending r) r) w1 olds' act torn eq_refl HS1). destruct (cleanup_loop ops archives _) as [err [r' w']].
    destruct IH as (gone & kept & rest & -> & H2 & -> & Hgone).
    exists (es :: gone), kept, rest. split_and!; try done. revert Hgone. unfold removed, excess.
    cbn [length rc_retained set_archives] in *. intros [H3 H4]. split; [lia|]. intros R. rewrite (H4 R). lia.
Qed.

Lemma cleaning_spec r w olds act torn :
  Stored false r w olds act torn -> rc_cleanupPending r = (rc_retained r <? Z.of_nat (length (rc_archives r))) ->
  let '(err, (r', w')) := reads (fun r => if rc_cleanupPending r
    then fun s => match cleanupArchives ops s with
                  | (Some _, s) => set_degraded ops "retention_cleanup_failed" s
                  | (None, s) => (None, s)
                  end
    else nop) (r, w) in
  err = None /\ exists gone kept rest pending status, olds = gone ++ kept /\ Stored false r' w' kept act torn
    /\ r' = set_status status (set_archives rest (rc_nextArchive r) (rc_pendingArchive r) pending r)
    /\ removed (Z.of_nat (length (rc_archives r))) (rc_retained r) (length gone).
Proof.
  intros HS Hflag. unfold reads at 1. cbn [fst snd]. destruct (rc_cleanupPending r) eqn:Hp.
  2:{ split; [done|]. exists [], olds, (rc_archives r), false, (rc_status r). split_and!; try done; [clear Hflag; destruct r; cbn in *; by subst|].
      unfold removed, excess. cbn [length]. lia. }
  clear Hflag.
  unfold cleanupArchives, reads, andThen. cbn [fst snd]. pose proof (cleanup_stored (rc_archives r) r w olds act torn eq_refl HS) as H.
  assert (Hmove : forall r1 w1 r2 kept, Stored false r1 w1 kept act torn -> rc_path r2 = rc_path r1 -> rc_maxBytes r2 = rc_maxBytes r1 ->
    rc_archives r2 = rc_archives r1 -> rc_nextArchive r2 = rc_nextArchive r1 -> Stored false r2 w1 kept act torn).
  { intros r1 w1 r2 kept HS1 H1 H2 H3 H4. apply (Stored_recorder r1); try done. rewrite H4.
    exact (ar_range _ _ _ _ (so_archived _ _ _ _ _ _ HS1)). }
  destruct (cleanup_loop ops (rc_archives r) (r, w)) as [[e|] [r1 w1]]; destruct H as (gone & kept & rest & -> & HS1 & -> & Hg).
  - unfold set_degraded. cbn [fst snd]. split; [done|]. eexists gone, kept, rest, (rc_cleanupPending r), _. split_and!; try done.
    eapply Hmove; [exact HS1|done..].
  - unfold update. cbn [fst snd]. split; [done|]. exists gone, kept, rest, false, (rc_status r). split_and!; try done.
    eapply Hmove; [exact HS1|done..].
Qed.

(** *** The whole of it *)

Lemma restoreLedger_spec r w olds act torn :
  Stored false r w olds act torn -> rc_size r <= rc_maxBytes r ->
  let '(err, (r', w')) := restoreLedger ops unmarshal marshalSemantic (r, w) in
  match err with
  | None => (exists status, r' = set_status status (set_size (len (text act)) (mem (concat olds ++ act) r)))
      /\ Stored false r w' olds act EmptyString
  | Some _ => ~ reliable
  end.
Proof.
  intros HS Hsize. unfold restoreLedger. cbn [fst snd]. pose proof HS as [HA Ha Ht Hv Hb Hc _].
  pose proof (restore_archives_spec (rc_maxBytes r) r olds (rc_archives r) [] 0 w eq_refl (ar_content _ _ _ _ HA)) as H1.
  change (last_sequence [], 0, mem [] r) with (0, 0, r) in H1.
  destruct (restore_archives _ _ _ (rc_archives r) (0, 0, r) w) as [[err g] w1]. cbn [app] in H1.
  assert (Hold : Forall (valid_entry (rc_maxBytes r)) (concat olds)) by by apply Forall_app in Hv as [? _].
  assert (Hcold : contiguous (concat olds)).
  { intros l1 a b l2 Heq. apply (Hc l1 a b (l2 ++ act)). by rewrite Heq, <- app_assoc. }
  specialize (H1 Hold Hcold (ar_olds _ _ _ _ HA)). destruct err as [e|]; [done|]. destruct H1 as [[n ->] S1].
  pose proof (restore_active_spec (rc_maxBytes r) (concat olds) n r w1 act torn eq_refl) as H2.
  rewrite S1 in H2. specialize (H2 Ha Ht Hv Hc Hb Hsize).
  destruct (restore_active _ _ _ _ w1) as [[err|] [r' w']]; [done|]. destruct H2 as (Hr & Hact & Ho). split; [done|].
  rewrite len_app in Hb. pose proof (len_nonneg torn).
  split; try done.
  - eapply Archived_files; [|exact HA]. intros g _. rewrite Ho, S1; [done|apply archive_not_active].
  - by rewrite append_nil_r.
  - rewrite append_nil_r. lia.
Qed.

Lemma last_key_spec maxBytes l :
  Forall (valid_entry maxBytes) l ->
  match last l with
  | Some e => tc_Sequence e.1 = last_sequence l /\ key e.1 = inl (last_key l)
  | None => last_sequence l = 0 /\ last_key l = EmptyString
  end.
Proof.
  intros Hv. unfold last_sequence, last_key. destruct (last l) as [e|] eqn:El; [|done]. split; [done|].
  apply last_Some in El as [l' ->]. apply Forall_app in Hv as [_ Hv]. apply Forall_cons in Hv as [Hv _].
  by destruct (ve_key _ _ _ _ _ Hv) as [k ->].
Qed.

Lemma last_sequence_range maxBytes l : Forall (valid_entry maxBytes) l -> 0 <= last_sequence l < two64.
Proof.
  intros Hv. unfold last_sequence. destruct (last l) as [e|] eqn:El; [|unfold two64; lia].
  apply last_Some in El as [l' ->]. apply Forall_app in Hv as [_ Hv]. apply Forall_cons in Hv as [Hv _].
  pose proof (ve_sequence _ _ _ _ _ Hv). lia.
Qed.

Lemma norm_values maxBytes l : Forall (valid_entry maxBytes) l -> map norm (map fst l) = map fst l.
Proof. induction 1 as [|e l He _ IH]; [done|]. cbn [map]. by rewrite (ve_norm _ _ _ _ _ He), IH. Qed.

(** A recorder that remembers what is stored. *)
Lemma Stored_Ledger r w olds act status :
  Stored false r w olds act EmptyString -> blank r -> 1 <= rc_capacity r -> 1 <= rc_retained r ->
  rc_pendingArchive r = false -> rc_writeRecovery r = None ->
  Ledger (set_status status (set_size (len (text act)) (mem (concat olds ++ act) r))) w olds act EmptyString.
Proof.
  intros [HA Ha _ Hv Hb Hc _] Hblank Hcap Hret Hp Hrec. rewrite mem_spec by done. split.
  - split; [exact Hret|]. split; [exact Hcap|]. exact (last_sequence_range (rc_maxBytes r) _ Hv).
  - apply (Archived_recorder r); try done. by destruct HA.
  - exact Ha.
  - done.
  - cbn. congruence.
  - cbn. congruence.
  - exact Hv.
  - exact Hb.
  - match goal with |- remembered ?q _ => change (remembered q (concat olds ++ if rc_pendingArchive q then [] else act)) end.
    cbn [rc_pendingArchive set_status set_size set_memory]. rewrite Hp. split; [done|]. split.
    + exact (last_key_spec (rc_maxBytes r) _ Hv).
    + exists []. cbn [rc_values rc_capacity set_status set_size set_memory app].
      by rewrite last_n_map, (norm_values (rc_maxBytes r)).
Qed.
(** A recorder that has opened what was stored: its records but for those of [gone]
    archives. *)
Record reopened (retained capacity archives : Z) (olds : list (list entry)) (act : list entry) (r : Recorder) (w : W) : Prop := {
  re_ledger : exists gone kept, olds = gone ++ kept /\ removed archives retained (length gone)
    /\ Ledger r w kept act EmptyString /\ records r kept act = concat kept ++ act
    /\ rc_values r = last_n capacity (map fst (concat kept ++ act));
}.

Lemma recover_spec again r0 w olds act torn capacity retained :
  let r := fresh (rc_path r0) capacity (rc_maxBytes r0) retained (len (text act +:+ torn)) in
  canonical (rc_path r0) -> Stored again r0 w olds act torn -> distinguished r0 w -> 1 <= capacity -> 1 <= retained ->
  let '(err, (r', w')) := recover ops unmarshal marshalSemantic sum256 (r, w) in
  match err with
  | None => reopened retained capacity (Z.of_nat (length (rc_archives r0))) olds (if again then [] else act) r' w'
  | Some _ => ~ reliable
  end.
Proof.
  intros r Hcan HS HD Hcap Hret. unfold recover. unfold andThen at 1.
  pose proof (initialize_spec again r0 r w olds act torn Hcan HS eq_refl eq_refl) as H1.
  destruct (initializeArchives ops (r, w)) as [[e1|] [r1 w1]]; [by destruct H1|]. destruct H1 as [(HS1 & next & Hr1) S1].
  assert (HD1 : distinguished r1 w1) by (rewrite Hr1; exact (distinguished_same r0 w w1 S1 HD)).
  unfold andThen at 1. pose proof (so_bytes _ _ _ _ _ _ HS) as Hb.
  assert (Hfresh1 : rc_size r1 = len (text act +:+ torn) /\ rc_pendingArchive r1 = false) by by rewrite Hr1.
  pose proof (detect_spec again r1 w1 olds act torn HS1 HD1 (proj1 Hfresh1) (proj2 Hfresh1)) as H2.
  destruct (detectCommittedArchiveAwaitingTruncate ops sum256 (r1, w1)) as [[e2|] [r2 w2]]; [by destruct H2|]. destruct H2 as [S2 [st2 Hr2]].
  assert (HS2 : Stored again r2 w2 olds act torn).
  { apply (Stored_same again r2 w1); [done|]. apply (Stored_recorder r1); try (by rewrite Hr2); [|done]. rewrite Hr2.
    exact (ar_range _ _ _ _ (so_archived _ _ _ _ _ _ HS1)). }
  unfold andThen at 1. pose proof (awaiting_spec again r2 w2 olds act torn HS2) as H3.
  rewrite Hr2, Hr1 in H3. specialize (H3 eq_refl Hb). rewrite <- Hr1, <- Hr2 in H3.
  destruct (reads _ (r2, w2)) as [[e3|] [r3 w3]]; [done|]. destruct H3 as (act' & torn' & size & HS3 & -> & Hr3 & Hsize).
  assert (Hpend : rc_cleanupPending r3 = (rc_retained r3 <? Z.of_nat (length (rc_archives r3)))) by by rewrite Hr3, Hr2, Hr1.
  unfold andThen at 1. pose proof (cleaning_spec r3 w3 olds _ torn' HS3 Hpend) as H4.
  destruct (reads _ (r3, w3)) as [e4 [r4 w4]]. destruct H4 as (-> & gone & kept & rest & pending & st4 & -> & HS4 & Hr4 & Hgone).
  assert (Hsize4 : rc_size r4 <= rc_maxBytes r4) by (rewrite Hr4, Hr3; exact Hsize).
  pose proof (restoreLedger_spec r4 w4 kept _ torn' HS4 Hsize4) as H5.
  destruct (restoreLedger ops unmarshal marshalSemantic (r4, w4)) as [[e5|] [r5 w5]]; [done|]. destruct H5 as ([st5 ->] & HS5).
  assert (Hflags : blank r4 /\ rc_capacity r4 = capacity /\ rc_retained r4 = retained /\ rc_pendingArchive r4 = false /\ rc_writeRecovery r4 = None)
    by by rewrite Hr4, Hr3, Hr2, Hr1.
  destruct Hflags as (Hblank & Hc4 & Hret4 & Hp4 & Hrec4).
  split. exists gone, kept. split; [done|]. split; [|split; [|split]].
  - revert Hgone. by rewrite Hr3, Hr2, Hr1.
  - apply Stored_Ledger; [done|done|by rewrite Hc4|by rewrite Hret4|done|done].
  - unfold records. rewrite mem_spec by (rewrite ?Hc4; done). cbn [rc_pendingArchive set_status set_size set_memory]. by rewrite Hp4.
  - rewrite mem_spec by (rewrite ?Hc4; done). cbn [rc_values set_status set_size set_memory]. by rewrite Hc4.
Qed.

Lemma canonical_nonempty path : canonical path -> path <> EmptyString.
Proof. by intros [H _] ->. Qed.

(** Opening the file of the active ledger. *)
Lemma open_spec again r0 w olds act torn capacity retained :
  canonical (rc_path r0) -> Stored again r0 w olds act torn -> distinguished r0 w -> 1 <= rc_maxBytes r0 -> 1 <= capacity -> 1 <= retained ->
  match (newRecorder ops unmarshal marshalSemantic sum256 (rc_path r0) capacity (rc_maxBytes r0) retained w) with
  | (inl r', w') => reopened retained capacity (Z.of_nat (length (rc_archives r0))) olds (if again then [] else act) r' w'
  | (inr _, _) => ~ reliable
  end.
Proof.
  intros Hcan HS HD Hmax Hcap Hret. unfold newRecorder. pose proof (canonical_nonempty _ Hcan) as Hpath.
  replace ((rc_path r0 =s EmptyString) || (capacity <? 1) || (rc_maxBytes r0 <? 1) || (retained <? 0)) with false
    by (symmetry; apply String.eqb_neq in Hpath; rewrite Hpath; cbn [orb]; lia).
  pose proof (lf_mkdirAll (ops := ops) (content := content) (Dir (rc_path r0)) w) as S1.
  assert (Q1 : reliable -> (op_mkdirAll ops (Dir (rc_path r0)) w).1 = None) by (intros R; apply (rl_mkdirAll _ _ R)).
  destruct (op_mkdirAll ops (Dir (rc_path r0)) w) as [[e1|] w1]; cbn [fst snd] in *; [by intros ?%Q1|].
  apply (Stored_same _ _ _ w1) in HS; [|exact S1]. apply (distinguished_same _ _ w1) in HD; [|exact S1]. clear Q1 S1.
  pose proof (lf_openActive (ops := ops) (content := content) (rc_path r0) w1) as S2.
  pose proof (lf_openActive_same (ops := ops) (content := content) (rc_path r0) w1) as S2'.
  assert (Q2 : reliable -> (op_openActive ops (rc_path r0) w1).1 = None) by (intros R; apply (rl_openActive _ _ R)).
  destruct (op_openActive ops (rc_path r0) w1) as [[e2|] w2]; cbn [fst snd] in *; [by intros ?%Q2|].
  assert (Ssame : forall q, content w2 q = content w1 q).
  { intros q. destruct (decide (q = rc_path r0)) as [->|]; [|by apply S2].
    destruct S2' as [|[Hnone _]]; [done|]. by rewrite (so_active _ _ _ _ _ _ HS) in Hnone. }
  apply (Stored_same _ _ _ w2) in HS; [|exact Ssame]. apply (distinguished_same _ _ w2) in HD; [|exact Ssame]. clear Q2 S2 S2' Ssame.
  pose proof (lf_chmod (ops := ops) (content := content) (rc_path r0) w2) as S3.
  assert (Q3 : reliable -> (fl_chmod ops (rc_path r0) w2).1 = None) by (intros R; apply (rl_chmod _ _ R)).
  destruct (fl_chmod ops (rc_path r0) w2) as [[e3|] w3]; cbn [fst snd] in *.
  { destruct (fl_close ops (rc_path r0) w3). by intros ?%Q3. }
  apply (Stored_same _ _ _ w3) in HS; [|exact S3]. apply (distinguished_same _ _ w3) in HD; [|exact S3]. clear Q3 S3.
  pose proof (lf_stat (ops := ops) (content := content) (rc_path r0) w3) as S4.
  pose proof (fun n => lf_stat_size (ops := ops) (content := content) (rc_path r0) w3 n) as S4'.
  assert (Q4 : reliable -> exists n, (fl_stat ops (rc_path r0) w3).1 = inl n).
  { intros R. apply (rl_stat _ _ R). by rewrite (so_active _ _ _ _ _ _ HS). }
  destruct (fl_stat ops (rc_path r0) w3) as [[size|e4] w4]; cbn [fst snd] in *.
  2:{ destruct (fl_close ops (rc_path r0) w4). by intros [? ?]%Q4. }
  rewrite (S4' size _ eq_refl (so_active _ _ _ _ _ _ HS)).
  apply (Stored_same _ _ _ w4) in HS; [|exact S4]. apply (distinguished_same _ _ w4) in HD; [|exact S4]. clear Q4 S4 S4'.
  pose proof (recover_spec again r0 w4 olds act torn capacity retained Hcan HS HD Hcap Hret) as H.
  destruct (recover _ _ _ _ _) as [[e|] [r' w']]; [|exact H]. by destruct (fl_close ops (rc_path r0) w').
Qed.

(** C3: a ledger survives a restart, whatever state an earlier recorder and a crash left
    the files in. Let no record be longer than the bound of the file ([Holds]), and the
    hashes of the ledger and its latest archive differ unless they are equal. A recorder
    opened on the files holds the records of the archives, less exactly the oldest [n] whole
    ones, then the rest, and after it at most one more: a record, numbered next, whose write
    had been reported failed. [n] is at most the number of archives beyond the retention,
    and equal to it if no file operation fails. The recorder remembers the latest records up
    to its capacity. The opening fails only if a file operation does. *)
Theorem restart_keeps_ledger r w l capacity retained :
  Holds (r, w) l -> canonical (rc_path r) -> distinguished r w -> 1 <= rc_maxBytes r -> 1 <= capacity -> 1 <= retained ->
  match newRecorder ops unmarshal marshalSemantic sum256 (rc_path r) capacity (rc_maxBytes r) retained w with
  | (inl r', w') => exists olds rest extra n, l = concat olds ++ rest
      /\ Forall2 (fun g es => content w (archivePath r g) = Some (text es)) (rc_archives r) olds
      /\ (extra = [] \/ exists e, extra = [e] /\ tc_Sequence e.1 = rc_next r + 1 /\ rc_writeRecovery r <> None)
      /\ (n <= excess (Z.of_nat (length olds)) retained)%nat /\ (reliable -> n = excess (Z.of_nat (length olds)) retained)
      /\ Holds (r', w') (concat (drop n olds) ++ rest ++ extra)
      /\ rc_values r' = last_n capacity (map fst (concat (drop n olds) ++ rest ++ extra))
  | (inr _, _) => ~ reliable
  end.
Proof.
  intros (olds & cur & torn & HL & <-) Hcan HD Hmax Hcap Hret. cbn [fst snd] in *.
  destruct (Ledger_stored r w olds cur torn HL) as (again & act & torn' & extra & HS & Hrec & Hextra).
  pose proof (open_spec again r w olds act torn' capacity retained Hcan HS HD Hmax Hcap Hret) as H.
  pose proof (ar_content _ _ _ _ (so_archived _ _ _ _ _ _ HS)) as Hc. pose proof (Forall2_length _ _ _ Hc) as Hlen.
  destruct (newRecorder _ _ _ _ _ _ _ _ w) as [[r'|e] w']; [|done]. destruct H as [(gone & kept & Hk & [Hg Hg'] & HL' & Hr & Hv)].
  rewrite Hlen in Hg, Hg'. unfold records in Hrec at 1. rewrite <- app_assoc in Hrec. apply app_inv_head in Hrec.
  exists olds, (if rc_pendingArchive r then [] else cur), extra, (length gone). rewrite Hrec, Hk, drop_app_length, <- Hk.
  split_and!; try done. by exists kept, (if again then [] else act), EmptyString.
Qed.
End Restart.
