(* ===== verification/RecorderDemo.v ===== *)
(** * A ledger in memory

    A world for the witnesses of [RecorderLedger] and [RecorderRestart]: files by path, and
    a number of operations after which every change fails, a write halfway. *)

From Stdlib Require Import ZArith Lia ZifyBool Sorted.
From stdpp Require Import gmap strings.
From S2P Require Import Prelude GoStrings GoTime Protocol Presentation ObservationStore AttentionSelector.
From S2P Require Import LocalState GoJson Engine Recorder RecorderFiles RecorderLedger RecorderRestart.

Record disk := mkDisk { dk_files : gmap string string; dk_budget : nat }.

Definition stored (w : disk) (path : string) : option string := dk_files w !! path.
Definition e_io : error := Errorf "input/output error" [].
Definition e_missing : error := Errorf "no such file or directory" [].

Definition create (p : string) : gmap string string -> gmap string string := insert p EmptyString.
Definition erase (p : string) : gmap string string -> gmap string string := delete p.
Definition move (p q s : string) (files : gmap string string) : gmap string string := <[q := s]> (delete p files).
Definition shorten (p : string) (n : Z) : gmap string string -> gmap string string := alter (take_bytes (Z.to_nat n)) p.

(** A change of the files, if the budget lasts. *)
Definition changing (f : gmap string string -> gmap string string) (w : disk) : option error * disk :=
  match dk_budget w with
  | O => (Some e_io, w)
  | S budget => (None, mkDisk (f (dk_files w)) budget)
  end.

(** The name of a file in a directory. *)
Definition name_in (directory path : string) : option string :=
  let prefix := directory +:+ "/" in
  if HasPrefix path prefix && no_slash (drop_bytes (String.length prefix) path)
  then Some (drop_bytes (String.length prefix) path) else None.

Definition disk_write (path line : string) (w : disk) : (Z * option error) * disk :=
  let n := match dk_budget w with O => Nat.div2 (String.length line) | S _ => String.length line end in
  let old := default EmptyString (stored w path) in
  let files := <[path := old +:+ take_bytes n line]> (dk_files w) in
  ((Z.of_nat n, match dk_budget w with O => Some e_io | S _ => None end), mkDisk files (pred (dk_budget w))).

Definition disk_ops : recorderOps disk := {|
  op_mkdirAll d w := (None, w);
  op_openActive p w :=
    match stored w p with Some _ => (None, w) | None => changing (create p) w end;
  op_openArchive p w := changing (create p) w;
  op_openRead p w := (match stored w p with Some _ => None | None => Some e_missing end, w);
  op_closeRead p w := (None, w);
  op_remove p w := match stored w p with Some _ => changing (erase p) w | None => (Some e_missing, w) end;
  op_rename p q w :=
    match stored w p with Some s => changing (move p q s) w | None => (Some e_missing, w) end;
  op_readDir d w := (inl (omap (fun '(p, _) => (fun name => (name, false)) <$> name_in d p) (map_to_list (dk_files w))), w);
  fl_read p w := (match stored w p with Some s => (s, None) | None => (EmptyString, Some e_missing) end, w);
  fl_write := disk_write;
  fl_stat p w := (match stored w p with Some s => inl (len s) | None => inr e_missing end, w);
  fl_chmod p w := (None, w);
  fl_close p w := (None, w);
  fl_truncate p n w := changing (shorten p n) w;
  fl_rewind p w := (None, w);
  fl_seekEnd p w := (None, w);
  fl_sync p w := (None, w);
  op_isNotExist err := match err with Errorf "no such file or directory" _ => true | _ => false end;
  op_now w := zero_time;
|}.

Lemma name_in_spec d p name :
  name_in d p = Some name <-> p = d +:+ "/" +:+ name /\ no_slash name = true.
Proof.
  unfold name_in. split.
  - destruct (HasPrefix p (d +:+ "/")) eqn:Hp; cbn [andb]; [|done]. apply HasPrefix_app in Hp as [rest ->].
    rewrite drop_bytes_app. destruct (no_slash rest) eqn:Hr; [|done]. intros [= <-]. by rewrite append_assoc.
  - intros [-> Hn]. rewrite <- append_assoc. replace (HasPrefix _ _) with true by (symmetry; apply HasPrefix_app; by eexists).
    rewrite drop_bytes_app, Hn. done.
Qed.

Lemma changing_cases f w :
  (changing f w = (Some e_io, w)) \/ (exists n, changing f w = (None, mkDisk (f (dk_files w)) n)).
Proof. unfold changing. destruct (dk_budget w); [by left|right; by eexists]. Qed.

Lemma no_slash_app a b : no_slash (a +:+ b) = no_slash a && no_slash b.
Proof. apply forall_bytes_app. Qed.

Lemma disk_readDir_names path g w entries :
  canonical path -> 0 <= g -> (op_readDir disk_ops (Dir path) w).1 = inl entries ->
  (Base path +:+ "." +:+ format_uint g, false) ∈ entries <-> is_Some (stored w (path +:+ "." +:+ format_uint g)).
Proof.
  intros [Hpath Hslash] Hg [= <-]. set (suffix := "." +:+ format_uint g).
  assert (Hn : no_slash (Base path +:+ suffix) = true).
  { rewrite no_slash_app, Hslash. unfold suffix. cbn [andb]. rewrite no_slash_app. by rewrite digits_no_slash. }
  assert (Hp : path +:+ suffix = Dir path +:+ "/" +:+ (Base path +:+ suffix)).
  { rewrite Hpath at 1. by rewrite !append_assoc. }
  rewrite list_elem_of_omap. split.
  - intros ([p s] & Hin & Hname). apply elem_of_map_to_list in Hin.
    destruct (name_in (Dir path) p) as [name|] eqn:E; [|done]. injection Hname as ->.
    apply name_in_spec in E as [-> _]. rewrite Hp. by exists s.
  - intros [s Hs]. exists (path +:+ suffix, s). split; [by apply elem_of_map_to_list|].
    replace (name_in (Dir path) (path +:+ suffix)) with (Some (Base path +:+ suffix)); [done|].
    symmetry. by apply name_in_spec.
Qed.

Lemma disk_readDir_once d w entries : (op_readDir disk_ops d w).1 = inl entries -> NoDup entries.
Proof.
  intros [= <-]. pose proof (NoDup_fst_map_to_list (dk_files w)) as H.
  induction (map_to_list (dk_files w)) as [|[p s] l IH]; [constructor|]. cbn [omap list_omap].
  apply NoDup_cons in H as [Hp H]. destruct (name_in d p) as [name|] eqn:E; cbn [fmap option_fmap option_map]; [|by apply IH].
  constructor; [|by apply IH]. intros ([p' s'] & Hin & Hname)%list_elem_of_omap.
  destruct (name_in d p') as [name'|] eqn:E'; [|done]. injection Hname as ->.
  apply name_in_spec in E as [-> _], E' as [-> _]. apply Hp. by apply (list_elem_of_fmap_2 fst _ _ Hin).
Qed.

Ltac changed f w :=
  let m := fresh "m" in destruct (changing_cases f w) as [->|[m ->]].

#[export] Instance disk_files : LedgerFiles disk_ops stored.
Proof.
  split; try done; unfold disk_ops; cbn [op_openActive op_openArchive op_openRead op_remove op_rename fl_read fl_stat fl_write fl_truncate op_isNotExist].
  - intros p w s. by destruct (stored w p) as [s'|]; [intros [= ->]|].
  - intros p w n c H Hc. rewrite Hc in H. by injection H as <-.
  - apply disk_readDir_names.
  - apply disk_readDir_once.
  - intros p w q Hq. destruct (stored w p); [done|]. changed (create p) w; [done|]. by apply lookup_insert_ne.
  - intros p w. destruct (stored w p) eqn:E; [by left|]. changed (create p) w; [by left|right]. split; [done|apply lookup_insert_eq].
  - intros p w. destruct (stored w p) eqn:E; [by eexists|]. changed (create p) w; [done|]. eexists. apply lookup_insert_eq.
  - intros p w q Hq. changed (create p) w; [done|]. by apply lookup_insert_ne.
  - intros p w. changed (create p) w; [done|]. intros _. apply lookup_insert_eq.
  - intros p w q Hq. destruct (stored w p); [|done]. changed (erase p) w; [done|]. by apply lookup_delete_ne.
  - intros p w. destruct (stored w p); [|done]. changed (erase p) w; [done|]. intros _. apply lookup_delete_eq.
  - intros p w err. destruct (stored w p) eqn:E; [|by intros _]. changed (erase p) w; [|done]. by intros [= <-].
  - intros p q w x Hp Hq. destruct (stored w p) as [s|]; [|done]. changed (move p q s) w; [done|].
    unfold stored. cbn. unfold move. by rewrite lookup_insert_ne, lookup_delete_ne.
  - intros p q w Hpq. destruct (stored w p) as [s|]; [|done]. changed (move p q s) w; [done|].
    intros _. unfold stored. cbn. unfold move. by rewrite lookup_insert_eq, lookup_insert_ne, lookup_delete_eq.
  - intros p q w err x. destruct (stored w p) as [s|]; [|done]. by changed (move p q s) w.
  - intros p line w q Hq. by apply lookup_insert_ne.
  - intros p line w c Hc. unfold disk_write. cbn [fst snd]. rewrite Hc, Nat2Z.id. split; [|apply lookup_insert_eq].
    unfold len. destruct (dk_budget w); [|lia]. pose proof (Nat.div2_odd (String.length line)). lia.
  - intros p n w q Hq. changed (shorten p n) w; [done|]. by apply lookup_alter_ne.
  - intros p n w c. changed (shorten p n) w; [done|]. intros _ Hc _.
    unfold stored in *. cbn. unfold shorten. by rewrite lookup_alter_eq, Hc.
  - intros p n w err. by changed (shorten p n) w.
Qed.

(** ** Records *)

(** A codec of three traces: a line has the sequence and the selected observation. *)
Definition demo_trace (sequence : Z) (selected : string) : Trace := mkTrace sequence zero_time selected EmptyString [].
Definition demo_table : list entry := [(demo_trace 1 "x", "1 x"); (demo_trace 2 "y", "2 y"); (demo_trace 3 "z", "3 z")].
Definition demo_norm (trace : Trace) : Trace := demo_trace (tc_Sequence trace) (tc_SelectedID trace).
Definition same_trace (a b : Trace) : bool := (tc_Sequence a =? tc_Sequence b) && (tc_SelectedID a =s tc_SelectedID b).
Definition demo_marshal (trace : Trace) : string + error :=
  match List.find (fun e => same_trace e.1 trace) demo_table with Some e => inl e.2 | None => inr e_io end.
Definition demo_unmarshal (line : string) : option Trace := fst <$> List.find (fun e : entry => e.2 =s line) demo_table.
Definition demo_key (trace : semanticTrace) : string + error := inl (sm_SelectedID trace).

#[export] Instance demo_codec : TraceCodec demo_marshal demo_unmarshal demo_key demo_norm.
Proof.
  split; try done. intros t line. unfold demo_marshal. destruct (List.find _ demo_table) as [e|] eqn:E; [|done]. intros [= <-].
  apply List.find_some in E as [Hin Hsame]. unfold same_trace in Hsame. apply andb_true_iff in Hsame as [H1%Z.eqb_eq H2%String.eqb_eq].
  assert (Htable : no_newline e.2 = true /\ demo_unmarshal e.2 = Some (demo_norm e.1)).
  { repeat (destruct Hin as [<-|Hin]; [done|]). done. }
  unfold demo_norm in *. by rewrite <- H1, <- H2.
Qed.

(** One record is archived, one is in the active ledger, and the write of a third failed
    halfway and could not be rolled back. *)
Definition demo_path : string := "/d/a".
Definition demo_files : gmap string string :=
  {[ demo_path := "2 y" +:+ newline +:+ "3 "; "/d/a.1" := "1 x" +:+ newline ]}.
Definition demo_recorder : Recorder :=
  mkRecorder demo_path 2 40 1 6 2 [demo_trace 1 "x"; demo_trace 2 "y"] "y"
    (mkRecorderStatus RecorderDegraded "write_failed" zero_time zero_time zero_time 2) false [1] 2 false false (Some 4).
Definition demo_records : list entry := [(demo_trace 1 "x", "1 x"); (demo_trace 2 "y", "2 y")].

Notation demo_valid := (valid_entry demo_unmarshal demo_key demo_norm 40).

Lemma demo_entries : Forall demo_valid demo_records.
Proof. repeat constructor; try done; eexists; reflexivity. Qed.

Lemma demo_ledger budget :
  Ledger stored demo_unmarshal demo_key demo_norm demo_recorder (mkDisk demo_files budget)
    [[(demo_trace 1 "x", "1 x")]] [(demo_trace 2 "y", "2 y")] "3 ".
Proof.
  split; try done.
  - split; try done.
    + by repeat constructor.
    + intros g Hg Hin. unfold stored. cbn [dk_files]. unfold demo_files.
      rewrite lookup_insert_ne by (apply not_eq_sym, (archive_not_active demo_recorder)).
      apply lookup_singleton_ne. intros Heq. apply Hin, elem_of_cons. left. symmetry. apply (archive_inj demo_recorder 1 g); [done|lia|exact Heq].
    + repeat constructor.
    + split; [done|]. by repeat constructor.
    + by repeat constructor.
  - intros k [= <-]. split_and!; [done..|]. by left.
  - apply demo_entries.
  - split; [|split; [done|by exists []]]. intros [|? [|? [|? ?]]] a b l2; intros [=]; by subst.
Qed.

Lemma demo_holds budget : Holds stored demo_unmarshal demo_key demo_norm (demo_recorder, mkDisk demo_files budget) demo_records.
Proof. eexists _, _, _. split; [apply demo_ledger|done]. Qed.

(** The rest of the third line is written, and the process stops halfway. *)
Lemma Append_keeps_ledger_witness :
  let '(err, s') := Append disk_ops demo_marshal demo_key (demo_trace 0 "z") (demo_recorder, mkDisk demo_files 1) in
  err <> None /\ appended stored demo_unmarshal demo_key demo_norm (demo_trace 0 "z") (demo_recorder, mkDisk demo_files 1) demo_records err s'.
Proof.
  pose proof (Append_keeps_ledger disk_ops stored demo_marshal demo_unmarshal demo_key demo_norm (demo_trace 0 "z")
    (demo_recorder, mkDisk demo_files 1) demo_records (demo_holds 1) eq_refl eq_refl) as H.
  destruct (Append _ _ _ _ _) as [err s'] eqn:E. split; [|apply H; by intros line [= <-]].
  intros ->. vm_compute in E. discriminate.
Defined.

Lemma restart_keeps_ledger_witness :
  match newRecorder disk_ops demo_unmarshal demo_key (fun s => s) demo_path 2 40 1 (mkDisk demo_files 9) with
  | (inl r', w') => exists olds rest extra n, demo_records = concat olds ++ rest
      /\ Forall2 (fun g es => stored (mkDisk demo_files 9) (archivePath demo_recorder g) = Some (text es)) (rc_archives demo_recorder) olds
      /\ (extra = [] \/ exists e, extra = [e] /\ tc_Sequence e.1 = 3 /\ rc_writeRecovery demo_recorder <> None)
      /\ (n <= excess (Z.of_nat (length olds)) 1)%nat /\ (Reliable disk_ops stored -> n = excess (Z.of_nat (length olds)) 1)
      /\ Holds stored demo_unmarshal demo_key demo_norm (r', w') (concat (drop n olds) ++ rest ++ extra)
      /\ rc_values r' = last_n 2 (map fst (concat (drop n olds) ++ rest ++ extra))
  | (inr _, _) => False
  end.
Proof.
  pose proof (restart_keeps_ledger disk_ops stored demo_unmarshal demo_key (fun s => s) demo_norm
    demo_recorder (mkDisk demo_files 9) demo_records 2 1 (demo_holds 9)) as H. cbn [rc_path rc_maxBytes demo_recorder] in H.
  destruct (newRecorder _ _ _ _ _ _ _ _ _) as [[r'|e] w'] eqn:E; [|vm_compute in E; discriminate].
  apply H; [split; vm_compute; reflexivity|by intros g a b|clear; lia..].
Defined.

(** A record longer than the bound is appended to an empty ledger, and the next start
    refuses the ledger. *)
Example oversized_record_refused :
  let '(result, w) := newRecorder disk_ops demo_unmarshal demo_key (fun s => s) demo_path 2 3 1 (mkDisk ∅ 9) in
  match result with
  | inl r =>
    let '(err, (_, w)) := Append disk_ops demo_marshal demo_key (demo_trace 0 "x") (r, w) in
    err = None
    /\ exists e, (newRecorder disk_ops demo_unmarshal demo_key (fun s => s) demo_path 2 3 1 w).1 = inr e
  | inr _ => False
  end.
Proof. vm_compute. split; [reflexivity|]. eexists. reflexivity. Qed.
