(* ===== verification/Supervisor.v ===== *)
(** * The supervisor of a plugin process

    Models [src/internal/pluginhost/supervisor.go], [supervisor_lifecycle.go],
    [supervisor_retry.go], [supervisor_sessions.go] and [supervisor_state.go]. A supervisor
    is one goroutine that owns one plugin: it starts, stops and watches the child process,
    keeps its interactive sessions, and retries or quarantines what fails. Every method runs
    on that goroutine, so it is a function of the supervisor and the world; a call to the
    child, the clock or a callback is a field of [Calls] and transforms the world. The calls
    that were made are also appended to a list of events, with what they returned. *)

From Stdlib Require Import ZArith Lia SpecFloat.
From S2P Require Import Prelude GoStrings GoTime Identifier Protocol Presentation ProtocolSession Engine.
From S2P Require Import SessionCoordinator SessionRuntime.

(** ** [manager.go], [types.go] and [process.go]: constants and data *)

Definition maxPendingSessionCleanups : Z := 256.
Definition failureWindow : Z := dur_mul 600 Second.

Definition ErrPluginNotConfigured : error := Errorf "plugin is not configured" [].
Definition ErrPluginUnavailable : error := Errorf "plugin is temporarily unavailable" [].
Definition ErrPermanentStart : error := Errorf "plugin cannot start with the current executable and desired state" [].
Definition errSessionCleanupLimit : error := Errorf "session cleanup capacity exhausted" [].
Definition ErrOutcomeUnknown : error := Errorf "json-rpc call outcome unknown" [].

Definition SessionInvalidatedExit : string := "child_exit".
Definition SessionInvalidatedHealth : string := "health_failure".
Definition SessionInvalidatedDisabled : string := "disabled".
Definition SessionInvalidatedGeneration : string := "generation_changed".
Definition SessionInvalidatedReplaced : string := "child_replaced".
Definition SessionInvalidatedInput : string := "session_input_failed".

Definition InvocationInteractive : string := "interactive".

Inductive Phase :=
  | PhaseStopped | PhaseStarting | PhaseRunning | PhaseUnhealthy | PhaseBackoff | PhaseQuarantined | PhaseStopping.

#[export] Instance Phase_eq_dec : EqDecision Phase.
Proof. solve_decision. Defined.

Definition ErrorCodeStartFailed : string := "start_failed".
Definition ErrorCodeReconcileFailed : string := "reconcile_failed".
Definition ErrorCodeInvokeFailed : string := "invoke_failed".
Definition ErrorCodeSessionInputFailed : string := "session_input_failed".
Definition ErrorCodeOperationFailed : string := "operation_failed".
Definition ErrorCodeHealthTimeout : string := "health_timeout".
Definition ErrorCodeHealthReported : string := "health_reported_unhealthy".
Definition ErrorCodeUnexpectedExit : string := "unexpected_exit".
Definition ErrorCodeStopFailed : string := "stop_failed".
Definition ErrorCodeUnsupportedPlatform : string := "unsupported_platform".
Definition ErrorCodeConfigurationRejected : string := "configuration_rejected".

Record CheckpointRestore := mkCheckpointRestore { cr_Generation : Z; cr_Data : string }.

Record Instance := mkInstance {
  is_ID : string;
  is_Generation : Z;
  is_Config : string;
  is_Secrets : gmap string string;
  is_Policies : gmap string PolicyConfig;
  is_Checkpoint : option CheckpointRestore;
}.

Record Spec := mkSpec {
  sp_ID : string;
  sp_Version : string;
  sp_Executable : string;
  sp_Args : list string;
  sp_SHA256 : string;
  sp_ProtocolVersion : string;
  sp_ExecutionModes : list string;
  sp_Channels : list string;
  sp_Operations : list OperationDescriptor;
  sp_Instances : list Instance;
}.

(** [reflect.DeepEqual]; a nil slice and an empty one are the same list here. *)
#[export] Instance PolicyConfig_eq_dec : EqDecision PolicyConfig.
Proof. solve_decision. Defined.
#[export] Instance CheckpointRestore_eq_dec : EqDecision CheckpointRestore.
Proof. solve_decision. Defined.
#[export] Instance Instance_eq_dec : EqDecision Instance.
Proof. solve_decision. Defined.
#[export] Instance OperationDescriptor_eq_dec : EqDecision OperationDescriptor.
Proof. solve_decision. Defined.
#[export] Instance Spec_eq_dec : EqDecision Spec.
Proof. solve_decision. Defined.

Definition empty_spec : Spec :=
  mkSpec EmptyString EmptyString EmptyString [] EmptyString EmptyString [] [] [] [].

Record EndSessionRequest := mkEndSessionRequest { es_InstanceID : string; es_Generation : Z; es_SessionToken : string }.
Record OperationRequest := mkOperationRequest { oq_Instance : InstanceRef; oq_Operation : string; oq_Payload : string }.
Record OperationResult := mkOperationResult { ox_Payload : string }.

Record PluginStatus := mkPluginStatus {
  ps_ID : string;
  ps_Desired : bool;
  ps_Phase : Phase;
  ps_Running : bool;
  ps_Healthy : bool;
  ps_HealthMisses : Z;
  ps_ExitCount : Z;
  ps_RetryAt : Time;
  ps_LastErrorCode : string;
  ps_LastErrorAt : Time;
  ps_SessionLifecycleErrorCode : string;
  ps_SessionLifecycleErrorAt : Time;
}.

(** ** The supervisor *)

Inductive postStopAction := postStopNone | postStopRestart | postStopRetry.

Record interactiveSession := mkInteractiveSession { ix_generation : Z; ix_token : string }.
Record pendingSessionCleanup := mkPendingCleanup { pk_instanceID : string; pk_generation : Z; pk_token : string }.

#[export] Instance interactiveSession_eq_dec : EqDecision interactiveSession.
Proof. solve_decision. Defined.
#[export] Instance pendingSessionCleanup_eq_dec : EqDecision pendingSessionCleanup.
Proof. solve_decision. Defined.

(** The fields of [supervisor] but for its channels, in groups. A child is the handle that
    [start] returned; its [childReaped] channel exists as long as it does. A timer is
    whether it is armed. *)
Record Running := mkRunning {
  ru_child : option Z;
  ru_childSpec : Spec;
  ru_stopping : bool;
  ru_postStop : postStopAction;
  ru_runID : Z;
}.
Record Cleanups := mkCleanups { cu_pending : list pendingSessionCleanup; cu_errorCode : string; cu_errorAt : Time }.
Record Health := mkHealth { he_healthy : bool; he_misses : Z; he_timer : bool }.
Record Retry := mkRetry { ry_timer : bool; ry_at : Time; ry_attempt : Z }.
Record LastError := mkLastError { le_code : string; le_at : Time }.

Record Supervisor := mkSupervisor {
  sv_id : string;
  sv_desired : bool;
  sv_spec : Spec;
  sv_run : Running;
  sv_sessions : gmap string interactiveSession;
  sv_cleanups : Cleanups;
  sv_phase : Phase;
  sv_health : Health;
  sv_retry : Retry;
  sv_error : LastError;
  sv_exits : list Time;
  sv_status : PluginStatus;
  sv_shutdownErr : option error;
}.

Definition set_desired (desired : bool) (spec : Spec) (s : Supervisor) : Supervisor :=
  mkSupervisor (sv_id s) desired spec (sv_run s) (sv_sessions s) (sv_cleanups s) (sv_phase s)
    (sv_health s) (sv_retry s) (sv_error s) (sv_exits s) (sv_status s) (sv_shutdownErr s).
Definition set_run (run : Running) (s : Supervisor) : Supervisor :=
  mkSupervisor (sv_id s) (sv_desired s) (sv_spec s) run (sv_sessions s) (sv_cleanups s) (sv_phase s)
    (sv_health s) (sv_retry s) (sv_error s) (sv_exits s) (sv_status s) (sv_shutdownErr s).
Definition set_sessions (sessions : gmap string interactiveSession) (s : Supervisor) : Supervisor :=
  mkSupervisor (sv_id s) (sv_desired s) (sv_spec s) (sv_run s) sessions (sv_cleanups s) (sv_phase s)
    (sv_health s) (sv_retry s) (sv_error s) (sv_exits s) (sv_status s) (sv_shutdownErr s).
Definition set_cleanups (cleanups : Cleanups) (s : Supervisor) : Supervisor :=
  mkSupervisor (sv_id s) (sv_desired s) (sv_spec s) (sv_run s) (sv_sessions s) cleanups (sv_phase s)
    (sv_health s) (sv_retry s) (sv_error s) (sv_exits s) (sv_status s) (sv_shutdownErr s).
Definition set_phase (phase : Phase) (s : Supervisor) : Supervisor :=
  mkSupervisor (sv_id s) (sv_desired s) (sv_spec s) (sv_run s) (sv_sessions s) (sv_cleanups s) phase
    (sv_health s) (sv_retry s) (sv_error s) (sv_exits s) (sv_status s) (sv_shutdownErr s).
Definition set_health (health : Health) (s : Supervisor) : Supervisor :=
  mkSupervisor (sv_id s) (sv_desired s) (sv_spec s) (sv_run s) (sv_sessions s) (sv_cleanups s) (sv_phase s)
    health (sv_retry s) (sv_error s) (sv_exits s) (sv_status s) (sv_shutdownErr s).
Definition set_retry (retry : Retry) (s : Supervisor) : Supervisor :=
  mkSupervisor (sv_id s) (sv_desired s) (sv_spec s) (sv_run s) (sv_sessions s) (sv_cleanups s) (sv_phase s)
    (sv_health s) retry (sv_error s) (sv_exits s) (sv_status s) (sv_shutdownErr s).
Definition set_error (err : LastError) (s : Supervisor) : Supervisor :=
  mkSupervisor (sv_id s) (sv_desired s) (sv_spec s) (sv_run s) (sv_sessions s) (sv_cleanups s) (sv_phase s)
    (sv_health s) (sv_retry s) err (sv_exits s) (sv_status s) (sv_shutdownErr s).
Definition set_exits (exits : list Time) (s : Supervisor) : Supervisor :=
  mkSupervisor (sv_id s) (sv_desired s) (sv_spec s) (sv_run s) (sv_sessions s) (sv_cleanups s) (sv_phase s)
    (sv_health s) (sv_retry s) (sv_error s) exits (sv_status s) (sv_shutdownErr s).
Definition set_status (status : PluginStatus) (s : Supervisor) : Supervisor :=
  mkSupervisor (sv_id s) (sv_desired s) (sv_spec s) (sv_run s) (sv_sessions s) (sv_cleanups s) (sv_phase s)
    (sv_health s) (sv_retry s) (sv_error s) (sv_exits s) status (sv_shutdownErr s).
Definition set_shutdownErr (err : option error) (s : Supervisor) : Supervisor :=
  mkSupervisor (sv_id s) (sv_desired s) (sv_spec s) (sv_run s) (sv_sessions s) (sv_cleanups s) (sv_phase s)
    (sv_health s) (sv_retry s) (sv_error s) (sv_exits s) (sv_status s) err.

Definition sv_child (s : Supervisor) : option Z := ru_child (sv_run s).
Definition sv_stopping (s : Supervisor) : bool := ru_stopping (sv_run s).
Definition sv_postStop (s : Supervisor) : postStopAction := ru_postStop (sv_run s).
Definition sv_pending (s : Supervisor) : list pendingSessionCleanup := cu_pending (sv_cleanups s).
Definition has_child (s : Supervisor) : bool := is_some (sv_child s).

Definition set_healthTimer (timer : bool) (s : Supervisor) : Supervisor :=
  set_health (mkHealth (he_healthy (sv_health s)) (he_misses (sv_health s)) timer) s.
Definition set_retryTimer (timer : bool) (s : Supervisor) : Supervisor :=
  set_retry (mkRetry timer (ry_at (sv_retry s)) (ry_attempt (sv_retry s))) s.
Definition set_retryAt (at_ : Time) (s : Supervisor) : Supervisor :=
  set_retry (mkRetry (ry_timer (sv_retry s)) at_ (ry_attempt (sv_retry s))) s.
Definition set_healthy (healthy : bool) (s : Supervisor) : Supervisor :=
  set_health (mkHealth healthy (he_misses (sv_health s)) (he_timer (sv_health s))) s.
Definition set_postStop (action : postStopAction) (s : Supervisor) : Supervisor :=
  let r := sv_run s in set_run (mkRunning (ru_child r) (ru_childSpec r) (ru_stopping r) action (ru_runID r)) s.

(** [newSupervisor] *)
Definition zero_status : PluginStatus :=
  mkPluginStatus EmptyString false PhaseStopped false false 0 0 zero_time EmptyString zero_time EmptyString zero_time.
Definition newSupervisor (id : string) : Supervisor :=
  mkSupervisor id false empty_spec (mkRunning None empty_spec false postStopNone 0) ∅ (mkCleanups [] EmptyString zero_time)
    PhaseStopped (mkHealth false 0 false) (mkRetry false zero_time 0) (mkLastError EmptyString zero_time) []
    (mkPluginStatus id false PhaseStopped false false 0 0 zero_time EmptyString zero_time EmptyString zero_time) None.

(** ** Delays *)

Definition backoffDelay (failure : Z) : Z :=
  if failure <=? 1 then Second
  else if 6 <=? failure then dur_mul 30 Second
  else i64 (Z.shiftl Second (failure - 1)).

(** [float64] arithmetic. *)
Definition float_of (z : Z) : spec_float := binary_normalize 53 1024 z 0 false.
Definition int_of (f : spec_float) : Z :=
  match f with
  | S754_finite sign m e =>
    let magnitude := if 0 <=? e then Z.pos m * 2 ^ e else Z.quot (Z.pos m) (2 ^ (- e)) in
    if sign then - magnitude else magnitude
  | _ => 0
  end.
(** 0.8, 1 and 1.2 *)
Definition f_low : spec_float := S754_finite false 7205759403792794 (-53).
Definition f_one : spec_float := S754_finite false 4503599627370496 (-52).
Definition f_high : spec_float := S754_finite false 5404319552844595 (-52).

Definition jitteredDelay (delay : Z) (factor : spec_float) : Z :=
  let factor := match factor with S754_nan => f_one | _ => factor end in
  let factor := if SFltb factor f_low then f_low else factor in
  let factor := if SFltb f_high factor then f_high else factor in
  if delay <=? 0 then 0
  else
    let product := SFmul 53 1024 (float_of delay) factor in
    if SFleb (float_of (dur_mul 30 Second)) product then dur_mul 30 Second else int_of product.

(** ** Errors *)

(** [errors.AsType[*protocol.DomainError]]: the kind of the first domain error. *)
Definition domain_kinds : list string :=
  [ErrorInvalidArgument; ErrorNotReady; ErrorGenerationConflict; ErrorSessionNotActive; ErrorSessionCanceled; ErrorSessionGenerationMismatch].
Fixpoint domain_kind (err : error) : option string :=
  match err with
  | Errorf _ _ => None
  | Wrapf format args inner =>
    if one_of format domain_kinds && match args with [] => true | _ => false end then Some format else domain_kind inner
  | Join errs =>
    (fix first (errs : list error) : option string :=
       match errs with
       | [] => None
       | e :: errs => match domain_kind e with Some kind => Some kind | None => first errs end
       end) errs
  end.

Definition isPermanentConfiguration (err : error) : bool :=
  match domain_kind err with Some kind => kind =s ErrorInvalidArgument | None => false end.
Definition outcome_unknown (err : error) : bool := errors_Is "json-rpc call outcome unknown" err.

(** ** Tests of the specification *)

Definition hasExecutionMode (values : list string) (wanted : string) : bool := one_of wanted values.
Definition resident (s : Supervisor) : bool := hasExecutionMode (sp_ExecutionModes (sv_spec s)) ExecutionModeResident.
Definition no_sessions (s : Supervisor) : bool := Nat.eqb (size (sv_sessions s)) 0.
Definition wantsChild (s : Supervisor) : bool := resident s || negb (no_sessions s).

Definition find_instance (id : string) (spec : Spec) : option Instance :=
  List.find (fun i => is_ID i =s id) (sp_Instances spec).
Definition instanceGeneration (id : string) (s : Supervisor) : option Z := is_Generation <$> find_instance id (sv_spec s).
Definition operationDeclared (descriptors : list OperationDescriptor) (id : string) : bool :=
  existsb (fun d => od_ID d =s id) descriptors.

Definition startupChanged (a b : Spec) : bool :=
  negb (sp_Version a =s sp_Version b) || negb (sp_Executable a =s sp_Executable b) || negb (sp_SHA256 a =s sp_SHA256 b)
  || negb (bool_decide (sp_Args a = sp_Args b)) || negb (bool_decide (sp_ExecutionModes a = sp_ExecutionModes b))
  || negb (bool_decide (sp_Channels a = sp_Channels b)) || negb (bool_decide (sp_Operations a = sp_Operations b)).

(** ** Calls and events *)

(** What the supervisor calls: the manager's [start], the methods of the child, the clock,
    the counters of the manager, and its callbacks, [None] where they are nil. [reaped] is
    whether [childReaped] is closed, [awaitReaped] the [select] of [awaitStop] and
    [waitReaped] the receive of [shutdownNow]; [ctxErr] is [ctx.Err()]. *)
Record Calls (W : Type) := mkCalls {
  ca_start : Spec -> W -> (Z + error) * W;
  ca_Ping : Z -> W -> (HealthResult + error) * W;
  ca_Invoke : Z -> InvokeRequest -> W -> option error * W;
  ca_EndSession : Z -> EndSessionRequest -> W -> option error * W;
  ca_ReplaceInstances : Z -> list Instance -> W -> option error * W;
  ca_SessionInput : Z -> SessionInputRequest -> W -> (SessionInputResult * option error) * W;
  ca_Operation : Z -> OperationRequest -> W -> (OperationResult * option error) * W;
  ca_Stop : Z -> W -> option error * W;
  ca_reaped : Z -> W -> bool * W;
  ca_awaitReaped : Z -> W -> option error * W;
  ca_waitReaped : Z -> W -> W;
  ca_ctxErr : W -> option error * W;
  ca_Now : W -> Time * W;
  ca_jitter : W -> spec_float * W;
  ca_nextCleanup : W -> Z * W;
  ca_nextIncarnation : W -> Z * W;
  ca_WithdrawGeneration : option (string -> Z -> W -> W);
  ca_WithdrawInstance : option (string -> string -> Z -> W -> W);
  ca_SessionInvalidated : option (SessionInvalidation -> W -> W);
  ca_SessionCompleted : option (string -> CompleteSessionRequest -> W -> W);
  ca_SessionCleanup : option (SessionCleanup -> W -> W);
  ca_Started : option (string -> Z -> W -> W);
}.
Arguments ca_start {W}. Arguments ca_Ping {W}. Arguments ca_Invoke {W}. Arguments ca_EndSession {W}.
Arguments ca_ReplaceInstances {W}. Arguments ca_SessionInput {W}. Arguments ca_Operation {W}. Arguments ca_Stop {W}.
Arguments ca_reaped {W}. Arguments ca_awaitReaped {W}. Arguments ca_waitReaped {W}. Arguments ca_ctxErr {W}.
Arguments ca_Now {W}. Arguments ca_jitter {W}. Arguments ca_nextCleanup {W}. Arguments ca_nextIncarnation {W}.
Arguments ca_WithdrawGeneration {W}. Arguments ca_WithdrawInstance {W}. Arguments ca_SessionInvalidated {W}.
Arguments ca_SessionCompleted {W}. Arguments ca_SessionCleanup {W}. Arguments ca_Started {W}.

(** Why a session is no longer held. *)
Inductive cause := Ended | Completed | Replaced | Invalidated (reason : string).

(** The calls that were made, the exits of the child that were seen, and the changes of the
    map of sessions. *)
Inductive event :=
  | EvStart (spec : Spec) (result : Z + error)
  | EvPing (child : Z)
  | EvInvoke (child : Z) (request : InvokeRequest) (err : option error)
  | EvEndSession (child : Z) (request : EndSessionRequest) (err : option error)
  | EvReplace (child : Z) (instances : list Instance) (err : option error)
  | EvInput (child : Z) (request : SessionInputRequest) (err : option error)
  | EvOperation (child : Z) (request : OperationRequest) (err : option error)
  | EvStop (child : Z) (err : option error)
  | EvReaped (child : Z)
  | EvOpened (id : string) (session : interactiveSession)
  | EvClosed (id : string) (session : interactiveSession) (why : cause)
  | EvCompleted (request : CompleteSessionRequest)
  | EvCleanup (report : SessionCleanup)
  | EvWithdrawGeneration (generation : Z)
  | EvWithdrawInstance (id : string) (generation : Z)
  | EvStarted (incarnation : Z).

Record State (W : Type) := mkState { st_sup : Supervisor; st_events : list event; st_world : W }.
Arguments mkState {W}. Arguments st_sup {W}. Arguments st_events {W}. Arguments st_world {W}.

Definition action (W A : Type) : Type := State W -> A * State W.

#[export] Instance action_ret {W} : MRet (action W) := fun A a s => (a, s).
#[export] Instance action_bind {W} : MBind (action W) := fun A B k m s => let '(a, s) := m s in k a s.

Section Supervisor.
Context {W : Type} (calls : Calls W).
Notation State := (State W).
Notation action := (action W).

Definition get : action Supervisor := fun s => (st_sup s, s).
Definition upd (f : Supervisor -> Supervisor) : action unit :=
  fun s => (tt, mkState (f (st_sup s)) (st_events s) (st_world s)).
Definition emit (e : event) : action unit := fun s => (tt, mkState (st_sup s) (st_events s ++ [e]) (st_world s)).
Definition ask {A} (f : W -> A * W) : action A :=
  fun s => let '(a, w) := f (st_world s) in (a, mkState (st_sup s) (st_events s) w).
Definition tell (f : W -> W) : action unit := fun s => (tt, mkState (st_sup s) (st_events s) (f (st_world s))).
Definition when (b : bool) (m : action unit) : action unit := if b then m else mret tt.
Definition now : action Time := ask (ca_Now calls).

(** Loops over slices and maps. *)
Fixpoint each {A} (f : A -> action unit) (l : list A) : action unit :=
  match l with
  | [] => mret tt
  | x :: l => _ ← f x; each f l
  end.

(** ** [supervisor_state.go] and the small methods of [supervisor_retry.go] *)

Definition status_of (s : Supervisor) : PluginStatus :=
  mkPluginStatus (sv_id s) (sv_desired s) (sv_phase s) (has_child s) (has_child s && he_healthy (sv_health s))
    (he_misses (sv_health s)) 0 (ry_at (sv_retry s)) (le_code (sv_error s)) (le_at (sv_error s))
    (cu_errorCode (sv_cleanups s)) (cu_errorAt (sv_cleanups s)).

Definition publish : action unit := upd (fun s => set_status (status_of s) s).

Definition kept_exits (at_ : Time) (exits : list Time) : list Time :=
  List.filter (fun value => negb (Before value (Add at_ (- failureWindow)))) exits.

(** [snapshot] runs on the goroutine of the caller, and drops old exits. *)
Definition snapshot (at_ : Time) (s : Supervisor) : PluginStatus * Supervisor :=
  let exits := kept_exits at_ (sv_exits s) in
  let st := sv_status s in
  (mkPluginStatus (ps_ID st) (ps_Desired st) (ps_Phase st) (ps_Running st) (ps_Healthy st) (ps_HealthMisses st)
     (Z.of_nat (length exits)) (ps_RetryAt st) (ps_LastErrorCode st) (ps_LastErrorAt st)
     (ps_SessionLifecycleErrorCode st) (ps_SessionLifecycleErrorAt st), set_exits exits s).

Definition cancelHealth : action unit := upd (set_healthTimer false).
Definition scheduleHealth : action unit := _ ← cancelHealth; upd (set_healthTimer true).
Definition cancelRetry : action unit := upd (set_retryTimer false).
Definition cancelTimers : action unit := _ ← cancelHealth; cancelRetry.

Definition addExit (at_ : Time) : action Z :=
  _ ← upd (fun s => set_exits (kept_exits at_ (sv_exits s) ++ [at_]) s);
  s ← get; mret (Z.of_nat (length (sv_exits s))).
Definition clearExits : action unit := upd (set_exits []).

Definition setError (code : string) : action unit :=
  at_ ← now; _ ← upd (set_error (mkLastError code at_)); publish.

Definition quarantine (code : string) : action unit :=
  _ ← cancelRetry;
  at_ ← now;
  _ ← upd (fun s => set_retryAt zero_time (set_phase PhaseQuarantined (set_error (mkLastError code at_) s)));
  publish.

Definition scheduleRetry : action unit :=
  _ ← upd (fun s => set_retry (mkRetry (ry_timer (sv_retry s)) (ry_at (sv_retry s)) (ry_attempt (sv_retry s) + 1)) s);
  s ← get;
  factor ← ask (ca_jitter calls);
  let delay := jitteredDelay (backoffDelay (ry_attempt (sv_retry s))) factor in
  _ ← upd (set_phase PhaseBackoff);
  at_ ← now;
  _ ← upd (fun s => set_retryTimer true (set_retryAt (Add at_ delay) s));
  publish.

Definition queuePostStop (action : postStopAction) : Supervisor -> Supervisor := fun s =>
  match action, sv_postStop s with
  | postStopRetry, _ | _, postStopNone => set_postStop action s
  | _, _ => s
  end.
Definition clearPostStop : Supervisor -> Supervisor := set_postStop postStopNone.

Definition recordFailure (code : string) : action unit :=
  at_ ← now;
  _ ← upd (set_error (mkLastError code at_));
  _ ← cancelRetry;
  s ← get;
  if sv_stopping s then
    _ ← upd (fun s => set_retryAt zero_time (set_phase PhaseStopping (queuePostStop postStopRetry s)));
    publish
  else scheduleRetry.

Definition clearFailures : action unit :=
  _ ← upd (fun s => set_retry (mkRetry (ry_timer (sv_retry s)) (ry_at (sv_retry s)) 0) s);
  _ ← clearExits;
  _ ← upd (fun s => set_health (mkHealth (he_healthy (sv_health s)) 0 (he_timer (sv_health s)))
                      (set_error (mkLastError EmptyString zero_time) s));
  _ ← cancelRetry;
  _ ← upd (fun s => set_retryAt zero_time (set_phase
        (if sv_stopping s then PhaseStopping else if has_child s then PhaseRunning else PhaseStopped) s));
  publish.

(** ** Sessions: the bookkeeping of [supervisor_sessions.go] *)

Definition setSessionCleanupError : action unit :=
  at_ ← now; upd (fun s => set_cleanups (mkCleanups (sv_pending s) ErrorCodeEndSessionFailed at_) s).
Definition clearSessionCleanupLifecycle : action unit :=
  upd (fun s => set_cleanups (mkCleanups (sv_pending s) EmptyString zero_time) s).
Definition clearSessionCleanupState : action unit :=
  upd (set_cleanups (mkCleanups [] EmptyString zero_time)).
Definition set_pending (pending : list pendingSessionCleanup) (s : Supervisor) : Supervisor :=
  set_cleanups (mkCleanups pending (cu_errorCode (sv_cleanups s)) (cu_errorAt (sv_cleanups s))) s.

Definition emitSessionCleanup : action unit :=
  match ca_SessionCleanup calls with
  | None => mret tt
  | Some callback =>
    sequence ← ask (ca_nextCleanup calls);
    at_ ← now;
    s ← get;
    let report := mkCleanup (sv_id s) sequence (UTC at_) (Z.of_nat (length (sv_pending s))) (cu_errorCode (sv_cleanups s)) in
    _ ← emit (EvCleanup report);
    tell (callback report)
  end.

Definition hasPendingSessionCleanup (cleanup : pendingSessionCleanup) (s : Supervisor) : bool :=
  existsb (fun pending => bool_decide (pending = cleanup)) (sv_pending s).
Fixpoint remove_first (cleanup : pendingSessionCleanup) (l : list pendingSessionCleanup) : list pendingSessionCleanup :=
  match l with
  | [] => []
  | pending :: l => if bool_decide (pending = cleanup) then l else pending :: remove_first cleanup l
  end.
Definition removePendingSessionCleanup (cleanup : pendingSessionCleanup) (s : Supervisor) : Supervisor :=
  set_pending (remove_first cleanup (sv_pending s)) s.

(** [delete(s.sessions, id)] *)
Definition drop_session (id : string) (session : interactiveSession) (why : cause) : action unit :=
  _ ← upd (fun s => set_sessions (delete id (sv_sessions s)) s); emit (EvClosed id session why).

Definition invalidateSession (id : string) (session : interactiveSession) (reason : string) : action unit :=
  _ ← drop_session id session (Invalidated reason);
  s ← get;
  match ca_SessionInvalidated calls with
  | None => mret tt
  | Some callback => tell (callback (mkInvalidation (sv_id s) id (ix_generation session) (ix_token session) reason))
  end.

Definition invalidateSessions (reason : string) : action unit :=
  s ← get; each (fun '(id, session) => invalidateSession id session reason) (map_to_list (sv_sessions s)).

Definition pruneSessions : action unit :=
  s ← get;
  each (fun '(id, session) =>
          when (negb (bool_decide (instanceGeneration id s = Some (ix_generation session))))
            (invalidateSession id session SessionInvalidatedGeneration))
    (map_to_list (sv_sessions s)).

(** [current, exists := s.sessions[target.ID]] against the exact session. *)
Definition holds_session (target : InstanceRef) (token : string) (s : Supervisor) : bool :=
  bool_decide (sv_sessions s !! ref_ID target = Some (mkInteractiveSession (ref_Generation target) token)).

(** ** [supervisor_lifecycle.go] *)

(** The generations of a specification, each once. *)
Definition generations (spec : Spec) : list Z :=
  foldr (fun i seen => is_Generation i :: List.filter (fun g => negb (g =? is_Generation i)) seen) [] (sp_Instances spec).

Definition withdraw_generation (generation : Z) : action unit :=
  match ca_WithdrawGeneration calls with
  | None => mret tt
  | Some callback => s ← get; _ ← emit (EvWithdrawGeneration generation); tell (callback (sv_id s) generation)
  end.

Definition withdraw (spec : Spec) : action unit :=
  match ca_WithdrawGeneration calls with
  | None => mret tt
  | Some _ => each withdraw_generation (generations spec)
  end.

(** An instance of [previous] that is not one of [next]. *)
Definition replaced (next : Spec) (i : Instance) : bool :=
  negb (bool_decide (is_Generation <$> last (List.filter (fun j => is_ID j =s is_ID i) (sp_Instances next)) = Some (is_Generation i))).

Definition withdrawReplacedInstances (previous next : Spec) : action unit :=
  let gone := List.filter (replaced next) (sp_Instances previous) in
  match ca_WithdrawInstance calls with
  | Some callback =>
    each (fun i => s ← get; _ ← emit (EvWithdrawInstance (is_ID i) (is_Generation i));
                   tell (callback (sv_id s) (is_ID i) (is_Generation i))) gone
  | None =>
    each withdraw_generation
      (List.filter (fun g => negb (existsb (fun i => is_Generation i =? g) (sp_Instances next)))
         (generations (mkSpec EmptyString EmptyString EmptyString [] EmptyString EmptyString [] [] [] gone)))
  end.

Definition finishStop : action postStopAction :=
  s ← get;
  match sv_child s with
  | None => mret postStopNone
  | Some _ =>
    let action := sv_postStop s in
    let stoppedSpec := ru_childSpec (sv_run s) in
    _ ← upd (fun s => set_healthy false
          (set_run (mkRunning None (ru_childSpec (sv_run s)) false postStopNone (u64_succ (ru_runID (sv_run s)))) s));
    _ ← clearSessionCleanupState;
    _ ← emitSessionCleanup;
    _ ← withdraw stoppedSpec;
    _ ← upd (set_phase PhaseStopped);
    _ ← publish;
    mret action
  end.

(** [startChild] once [start] failed, and once it returned a child. *)
Definition start_failed (err : error) : action bool :=
  _ ← (if errors_Is "plugin cannot start with the current executable and desired state" err
       then quarantine (if isPermanentConfiguration err then ErrorCodeConfigurationRejected else ErrorCodeUnsupportedPlatform)
       else recordFailure ErrorCodeStartFailed);
  mret false.

Definition child_started (child : Z) : action bool :=
  _ ← upd (fun s => set_run (mkRunning (Some child) (ru_childSpec (sv_run s)) (sv_stopping s) (sv_postStop s) (ru_runID (sv_run s))) s);
  _ ← clearSessionCleanupState;
  _ ← emitSessionCleanup;
  _ ← upd (fun s => set_retryAt zero_time (set_health (mkHealth true 0 (he_timer (sv_health s))) (set_phase PhaseRunning
        (set_run (mkRunning (sv_child s) (sv_spec s) (sv_stopping s) (sv_postStop s) (u64_succ (ru_runID (sv_run s)))) s))));
  _ ← scheduleHealth;
  _ ← publish;
  incarnation ← ask (ca_nextIncarnation calls);
  _ ← match ca_Started calls with
      | None => mret tt
      | Some callback => s ← get; _ ← emit (EvStarted incarnation); tell (callback (sv_id s) incarnation)
      end;
  mret true.

Definition startChild : action bool :=
  s ← get;
  if negb (sv_desired s) || has_child s || sv_stopping s || bool_decide (sv_phase s = PhaseQuarantined) then mret false
  else
    _ ← upd (fun s => set_retryAt zero_time (set_phase PhaseStarting s));
    _ ← publish;
    result ← ask (ca_start calls (sv_spec s));
    _ ← emit (EvStart (sv_spec s) result);
    match result with
    | inr err => start_failed err
    | inl child => child_started child
    end.

Definition continueAfterStop (next : postStopAction) : action unit :=
  s ← get;
  if negb (sv_desired s) || negb (wantsChild s) then mret tt
  else match next with
       | postStopRetry => scheduleRetry
       | postStopRestart => _ ← startChild; mret tt
       | postStopNone => mret tt
       end.

Definition awaitStop : action (option error) :=
  s ← get;
  match sv_child s with
  | Some child =>
    if negb (sv_stopping s) then mret None
    else
      err ← ask (ca_awaitReaped calls child);
      match err with
      | None => _ ← emit (EvReaped child); _ ← finishStop; mret None
      | Some err => mret (Some err)
      end
  | None => mret None
  end.

Definition begin_stop : action unit :=
  _ ← cancelHealth;
  _ ← upd (fun s => set_phase PhaseStopping
        (set_run (mkRunning (sv_child s) (ru_childSpec (sv_run s)) true (sv_postStop s) (ru_runID (sv_run s))) s));
  publish.

Definition stopCurrent : action (option error) :=
  s ← get;
  match sv_child s with
  | None => mret None
  | Some child =>
    _ ← when (negb (sv_stopping s)) begin_stop;
    err ← ask (ca_Stop calls child);
    _ ← emit (EvStop child err);
    err ← match err with
          | None => awaitStop
          | Some err =>
            reaped ← ask (ca_reaped calls child);
            _ ← (if reaped : bool then _ ← emit (EvReaped child); next ← finishStop; continueAfterStop next else mret tt);
            mret (Some err)
          end;
    _ ← when (is_some err) (setError ErrorCodeStopFailed);
    mret err
  end.

(** [exited] of a child that was not told to stop. *)
Definition child_exited : action unit :=
  s ← get;
  _ ← cancelHealth;
  _ ← upd (fun s => set_healthy false
        (set_run (mkRunning None (ru_childSpec (sv_run s)) (sv_stopping s) (sv_postStop s) (ru_runID (sv_run s))) s));
  _ ← clearSessionCleanupState;
  _ ← emitSessionCleanup;
  _ ← withdraw (ru_childSpec (sv_run s));
  at_ ← now;
  exitCount ← addExit at_;
  _ ← invalidateSessions SessionInvalidatedExit;
  if negb (sv_desired s) then _ ← upd (set_phase PhaseStopped); publish
  else
    at_ ← now;
    _ ← upd (set_error (mkLastError ErrorCodeUnexpectedExit at_));
    _ ← cancelRetry;
    if 5 <=? exitCount then _ ← upd (fun s => set_retryAt zero_time (set_phase PhaseQuarantined s)); publish
    else scheduleRetry.

Definition exited (runID : Z) : action unit :=
  s ← get;
  match sv_child s with
  | None => mret tt
  | Some child =>
    if negb (runID =? ru_runID (sv_run s)) then mret tt
    else
      _ ← emit (EvReaped child);
      if sv_stopping s then next ← finishStop; continueAfterStop next else child_exited
  end.

(** ** [failAmbiguousLifecycle] and [failClosedSessionCleanup] *)

Definition failAmbiguousLifecycle (code reason : string) : action unit :=
  _ ← invalidateSessions reason; _ ← stopCurrent; recordFailure code.

Definition failClosedSessionCleanup : action unit :=
  _ ← invalidateSessions SessionInvalidatedReplaced;
  s ← get;
  _ ← upd (if resident s then queuePostStop postStopRestart else id);
  err ← stopCurrent;
  match err with
  | Some _ => mret tt
  | None => if resident s then _ ← startChild; mret tt else mret tt
  end.

(** ** Session clean-up *)

Definition enqueueSessionCleanup (cleanup : pendingSessionCleanup) : action (option error) :=
  s ← get;
  if negb (has_child s) then mret None
  else if hasPendingSessionCleanup cleanup s then
    _ ← setSessionCleanupError; _ ← publish; _ ← emitSessionCleanup; mret None
  else if maxPendingSessionCleanups <=? Z.of_nat (length (sv_pending s)) then
    _ ← setSessionCleanupError; _ ← publish; _ ← emitSessionCleanup; _ ← failClosedSessionCleanup;
    mret (Some errSessionCleanupLimit)
  else
    _ ← upd (fun s => set_pending (sv_pending s ++ [cleanup]) s);
    _ ← setSessionCleanupError; _ ← publish; _ ← emitSessionCleanup; mret None.

Definition end_request (cleanup : pendingSessionCleanup) : EndSessionRequest :=
  mkEndSessionRequest (pk_instanceID cleanup) (pk_generation cleanup) (pk_token cleanup).

Definition call_EndSession (child : Z) (cleanup : pendingSessionCleanup) : action (option error) :=
  err ← ask (ca_EndSession calls child (end_request cleanup));
  _ ← emit (EvEndSession child (end_request cleanup) err);
  mret err.

Definition deliverSessionCleanup (cleanup : pendingSessionCleanup) : action (option error) :=
  s ← get;
  match sv_child s with
  | None => mret None
  | Some child =>
    err ← call_EndSession child cleanup;
    match err with
    | None =>
      _ ← upd (removePendingSessionCleanup cleanup);
      s ← get;
      _ ← when (Nat.eqb (length (sv_pending s)) 0) clearSessionCleanupLifecycle;
      _ ← publish;
      _ ← emitSessionCleanup;
      mret None
    | Some err =>
      if outcome_unknown err then
        _ ← failAmbiguousLifecycle ErrorCodeEndSessionFailed SessionInvalidatedReplaced; mret (Some err)
      else
        s ← get;
        if negb (hasPendingSessionCleanup cleanup s) then
          queueErr ← enqueueSessionCleanup cleanup;
          mret (match queueErr with Some queueErr => Some queueErr | None => Some err end)
        else _ ← setSessionCleanupError; _ ← publish; mret (Some err)
    end
  end.

Definition retryPendingSessionCleanup : action unit :=
  s ← get;
  match sv_pending s with
  | [] => mret tt
  | cleanup :: rest =>
    match sv_child s with
    | None => _ ← clearSessionCleanupState; _ ← publish; emitSessionCleanup
    | Some child =>
      err ← call_EndSession child cleanup;
      match err with
      | Some err =>
        if outcome_unknown err then failAmbiguousLifecycle ErrorCodeEndSessionFailed SessionInvalidatedReplaced
        else
          _ ← upd (set_pending (rest ++ [cleanup]));
          _ ← setSessionCleanupError; _ ← publish; emitSessionCleanup
      | None =>
        _ ← upd (set_pending rest);
        _ ← when (Nat.eqb (length rest) 0) clearSessionCleanupLifecycle;
        _ ← publish;
        emitSessionCleanup
      end
    end
  end.

(** ** Commands *)

Definition call_ReplaceInstances (child : Z) (instances : list Instance) : action (option error) :=
  err ← ask (ca_ReplaceInstances calls child instances); _ ← emit (EvReplace child instances err); mret err.

(** [replaceChildInstances] of a running child. *)
Definition replaceChildInstances (child : Z) : action (option error) :=
  s ← get;
  err ← call_ReplaceInstances child (sp_Instances (sv_spec s));
  match err with
  | Some err => mret (Some err)
  | None =>
    _ ← withdrawReplacedInstances (ru_childSpec (sv_run s)) (sv_spec s);
    _ ← upd (fun s => let r := sv_run s in
               set_run (mkRunning (ru_child r) (sv_spec s) (ru_stopping r) (ru_postStop r) (ru_runID r)) s);
    mret None
  end.

(** What [apply] and [handleRetry] do with an error of it. *)
Definition replace_failed (err : error) : action unit :=
  if outcome_unknown err then failAmbiguousLifecycle ErrorCodeReconcileFailed SessionInvalidatedReplaced
  else if isPermanentConfiguration err then quarantine ErrorCodeConfigurationRejected
  else recordFailure ErrorCodeReconcileFailed.

Definition instances_differ (spec : Spec) (s : Supervisor) : bool :=
  negb (bool_decide (sp_Instances (ru_childSpec (sv_run s)) = sp_Instances spec)).

(** The part of [apply] after the child was stopped, if it had to be. *)
Definition apply_instances (spec : Spec) : action (option error) :=
  s ← get;
  replaceErr ← match sv_child s with
               | Some child =>
                 if instances_differ spec s then
                   err ← replaceChildInstances child;
                   match err with
                   | Some err => _ ← replace_failed err; mret (Some err)
                   | None => _ ← clearFailures; mret None
                   end
                 else mret None
               | None => mret None
               end;
  match replaceErr with
  | Some err => mret (Some err)
  | None =>
    s ← get;
    _ ← when (has_child s) retryPendingSessionCleanup;
    s ← get;
    if has_child s && negb (resident s) && no_sessions s then stopCurrent
    else
      _ ← (if negb (has_child s) && wantsChild s && negb (bool_decide (sv_phase s = PhaseBackoff))
                && negb (bool_decide (sv_phase s = PhaseQuarantined))
           then _ ← startChild; mret tt else publish);
      mret None
  end.

Definition apply (spec : Spec) : action (option error) :=
  s ← get;
  let changed := negb (sv_desired s) || negb (bool_decide (sv_spec s = spec)) in
  let old := sv_spec s in
  _ ← when changed clearFailures;
  _ ← upd (set_desired true spec);
  _ ← pruneSessions;
  s ← get;
  stopErr ← (if sv_stopping s then
               _ ← upd (if wantsChild s then queuePostStop postStopRestart else id); stopCurrent
             else mret None);
  match stopErr with
  | Some err => mret (Some err)
  | None =>
    s ← get;
    stopErr ← (if has_child s && startupChanged old spec then
                 _ ← invalidateSessions SessionInvalidatedReplaced;
                 s ← get;
                 _ ← upd (if wantsChild s then queuePostStop postStopRestart else id);
                 stopCurrent
               else mret None);
    match stopErr with
    | Some err => mret (Some err)
    | None => apply_instances spec
    end
  end.

Definition handleHealth : action unit :=
  s ← get;
  if negb (sv_desired s) || negb (has_child s) then mret tt
  else
    _ ← retryPendingSessionCleanup;
    s ← get;
    match sv_child s with
    | None => mret tt
    | Some child =>
      if sv_stopping s then mret tt
      else
        result ← ask (ca_Ping calls child);
        _ ← emit (EvPing child);
        match result with
        | inl result =>
          at_ ← now;
          _ ← upd (fun s => set_retry (mkRetry (ry_timer (sv_retry s)) (ry_at (sv_retry s)) 0)
                              (set_health (mkHealth (hr_Healthy result) 0 (he_timer (sv_health s))) s));
          _ ← upd (fun s =>
                if hr_Healthy result then
                  set_phase PhaseRunning
                    (if le_code (sv_error s) =s ErrorCodeHealthReported then set_error (mkLastError EmptyString zero_time) s else s)
                else set_phase PhaseUnhealthy (set_error (mkLastError ErrorCodeHealthReported at_) s));
          _ ← scheduleHealth;
          publish
        | inr _ =>
          _ ← upd (fun s => set_health (mkHealth false (he_misses (sv_health s) + 1) (he_timer (sv_health s))) s);
          s ← get;
          if he_misses (sv_health s) <? 3 then _ ← scheduleHealth; publish
          else
            _ ← upd (set_phase PhaseUnhealthy);
            _ ← publish;
            _ ← invalidateSessions SessionInvalidatedHealth;
            _ ← stopCurrent;
            recordFailure ErrorCodeHealthTimeout
        end
    end.

Definition handleRetry : action unit :=
  _ ← upd (set_retryAt zero_time);
  s ← get;
  if negb (sv_desired s) || bool_decide (sv_phase s = PhaseQuarantined) then mret tt
  else if sv_stopping s then
    _ ← upd (fun s => set_phase PhaseStopping (queuePostStop postStopRetry s)); publish
  else
    match (if instances_differ (sv_spec s) s then sv_child s else None) with
    | Some child =>
      err ← replaceChildInstances child;
      match err with
      | Some err => replace_failed err
      | None => _ ← clearFailures; retryPendingSessionCleanup
      end
    | None =>
      if wantsChild s then _ ← startChild; mret tt
      else _ ← upd (set_phase PhaseStopped); publish
    end.

Definition unavailable (s : Supervisor) : bool :=
  bool_decide (sv_phase s = PhaseBackoff) || bool_decide (sv_phase s = PhaseQuarantined) || bool_decide (sv_phase s = PhaseStopping).

(** [if s.child == nil && !s.startChild(ctx)]: the child to call, if there is one. *)
Definition ensure_child : action (option Z) :=
  s ← get;
  match sv_child s with
  | Some child => mret (Some child)
  | None => started ← startChild; s ← get; mret (if started : bool then sv_child s else None)
  end.

(** [s.sessions[id] = current] *)
Definition put_session (id : string) (session : interactiveSession) : action unit :=
  s ← get;
  if bool_decide (sv_sessions s !! id = Some session) then mret tt
  else
    _ ← match sv_sessions s !! id with Some old => drop_session id old Replaced | None => mret tt end;
    _ ← upd (fun s => set_sessions (<[id := session]> (sv_sessions s)) s);
    emit (EvOpened id session).

(** What follows an [Invoke] that succeeded. *)
Definition open_session (id : string) (previous : option interactiveSession) (current : interactiveSession) : action (option error) :=
  cleanupErr ← match previous with
               | Some old =>
                 if bool_decide (old = current) then mret None
                 else deliverSessionCleanup (mkPendingCleanup id (ix_generation old) (ix_token old))
               | None => mret None
               end;
  if match cleanupErr with Some err => errors_Is "session cleanup capacity exhausted" err | None => false end
  then mret (Some ErrPluginUnavailable)
  else _ ← put_session id current; mret None.

Definition stop_unused : action (option error) :=
  s ← get; if negb (resident s) && no_sessions s then stopCurrent else mret None.

Definition invoke_child (child : Z) (request : InvokeRequest) (generation : Z) (token : string) : action (option error) :=
  s ← get;
  let previous := sv_sessions s !! iq_InstanceID request in
  err ← ask (ca_Invoke calls child request);
  _ ← emit (EvInvoke child request err);
  match err with
  | Some err =>
    _ ← (if outcome_unknown err then failAmbiguousLifecycle ErrorCodeInvokeFailed SessionInvalidatedReplaced
         else setError ErrorCodeInvokeFailed);
    _ ← stop_unused;
    mret (Some err)
  | None => open_session (iq_InstanceID request) previous (mkInteractiveSession generation token)
  end.

Definition invoke (request : InvokeRequest) (kind token : string) : action (option error) :=
  s ← get;
  if negb (sv_desired s) then mret (Some ErrPluginNotConfigured)
  else if negb (kind =s InvocationInteractive) then mret (Some (Errorf "unsupported invocation kind %q" [EStr kind]))
  else if token =s EmptyString then mret (errors_New "interactive invocation requires a session token")
  else
    let request := mkInvokeRequest (iq_InstanceID request) (iq_Generation request) (iq_Action request) (iq_Payload request)
                     token (iq_Trigger request) in
    if unavailable s then mret (Some ErrPluginUnavailable)
    else
      match instanceGeneration (iq_InstanceID request) s with
      | None => mret (Some ErrPluginNotConfigured)
      | Some generation =>
        if (iq_Generation request =? 0) || negb (iq_Generation request =? generation) then mret (Some ErrPluginNotConfigured)
        else
          child ← ensure_child;
          match child with
          | None => mret (Some ErrPluginUnavailable)
          | Some child => invoke_child child request generation token
          end
      end.

Definition endSession (target : InstanceRef) (token : string) : action (option error) :=
  s ← get;
  endErr ← (if holds_session target token s then
              _ ← drop_session (ref_ID target) (mkInteractiveSession (ref_Generation target) token) Ended;
              s ← get;
              if has_child s then
                let cleanup := mkPendingCleanup (ref_ID target) (ref_Generation target) token in
                ctxErr ← ask (ca_ctxErr calls);
                match ctxErr with
                | Some ctxErr => queueErr ← enqueueSessionCleanup cleanup; mret (errors_Join [Some ctxErr; queueErr])
                | None => deliverSessionCleanup cleanup
                end
              else mret None
            else mret None);
  s ← get;
  if has_child s && negb (resident s) && no_sessions s then
    stopErr ← stopCurrent; mret (errors_Join [endErr; stopErr])
  else _ ← publish; mret endErr.

Definition completeSession (target : InstanceRef) (token : string) : action (bool * option error) :=
  if token =s EmptyString then mret (false, errors_New "session completion requires a token")
  else
    s ← get;
    let changed := holds_session target token s in
    _ ← when changed (drop_session (ref_ID target) (mkInteractiveSession (ref_Generation target) token) Completed);
    s ← get;
    if has_child s && negb (resident s) && no_sessions s then stopErr ← stopCurrent; mret (changed, stopErr)
    else _ ← publish; mret (changed, None).

Definition handleCompletion (target : InstanceRef) (token : string) : action (option error) :=
  result ← completeSession target token;
  _ ← match (result : bool * option error), ca_SessionCompleted calls with
      | (true, _), Some callback =>
        s ← get;
        _ ← emit (EvCompleted (mkCompleteSessionRequest target token));
        tell (callback (sv_id s) (mkCompleteSessionRequest target token))
      | _, _ => mret tt
      end;
  mret result.2.

Definition restart : action (option error) :=
  s ← get;
  if negb (sv_desired s) then mret (Some ErrPluginNotConfigured)
  else if bool_decide (sv_phase s = PhaseQuarantined) && (le_code (sv_error s) =s ErrorCodeUnsupportedPlatform)
  then mret (Some ErrPluginUnavailable)
  else
    _ ← clearFailures;
    _ ← invalidateSessions SessionInvalidatedReplaced;
    s ← get;
    let wanted := resident s in
    stopErr ← (if has_child s then _ ← upd (if wanted then set_postStop postStopRestart else id); stopCurrent else mret None);
    match stopErr with
    | Some err => mret (Some err)
    | None =>
      _ ← (if wanted then _ ← startChild; mret tt else _ ← upd (set_phase PhaseStopped); publish);
      mret None
    end.

Definition sessionInput (request : SessionInputRequest) : action (SessionInputResult * option error) :=
  let none := mkSessionInputResult EmptyString in
  s ← get;
  match (if sv_desired s then sv_child s else None) with
  | None => mret (none, Some ErrPluginNotConfigured)
  | Some child =>
    if bool_decide (sv_phase s = PhaseStopping) then mret (none, Some ErrPluginUnavailable)
    else if negb (holds_session (sq_Instance request) (sq_SessionToken request) s) then mret (none, Some ErrPluginNotConfigured)
    else
      answer ← ask (ca_SessionInput calls child request);
      let '(result, err) := (answer : SessionInputResult * option error) in
      _ ← emit (EvInput child request err);
      match err with
      | None => mret (result, None)
      | Some err =>
        _ ← (if outcome_unknown err then failAmbiguousLifecycle ErrorCodeSessionInputFailed SessionInvalidatedInput
             else
               _ ← setError ErrorCodeSessionInputFailed;
               _ ← invalidateSession (ref_ID (sq_Instance request))
                     (mkInteractiveSession (ref_Generation (sq_Instance request)) (sq_SessionToken request)) SessionInvalidatedInput;
               s ← get;
               if negb (resident s) then _ ← stopCurrent; mret tt else mret tt);
        mret (result, Some err)
      end
  end.

Definition operation (request : OperationRequest) : action (OperationResult * option error) :=
  let none := mkOperationResult EmptyString in
  s ← get;
  if negb (sv_desired s) || unavailable s then mret (none, Some ErrPluginUnavailable)
  else
    match instanceGeneration (ref_ID (oq_Instance request)) s with
    | None => mret (none, Some ErrPluginNotConfigured)
    | Some generation =>
      if negb (operationDeclared (sp_Operations (sv_spec s)) (oq_Operation request))
         || negb (ref_Generation (oq_Instance request) =? generation)
      then mret (none, Some ErrPluginNotConfigured)
      else
        child ← ensure_child;
        match child with
        | None => mret (none, Some ErrPluginUnavailable)
        | Some child =>
          answer ← ask (ca_Operation calls child request);
          let '(result, err) := (answer : OperationResult * option error) in
          _ ← emit (EvOperation child request err);
          _ ← when (is_some err) (setError ErrorCodeOperationFailed);
          s ← get;
          if negb (resident s) && no_sessions s then
            stopErr ← stopCurrent; mret (result, errors_Join [err; stopErr])
          else mret (result, err)
        end
    end.

Definition shutdownNow : action unit :=
  s ← get;
  _ ← upd (fun s => clearPostStop (set_desired false (sv_spec s) s));
  _ ← invalidateSessions SessionInvalidatedDisabled;
  _ ← cancelTimers;
  err ← stopCurrent;
  _ ← upd (set_shutdownErr err);
  s ← get;
  _ ← match sv_child s with
      | Some child =>
        if sv_stopping s then _ ← tell (ca_waitReaped calls child); _ ← emit (EvReaped child); _ ← finishStop; mret tt
        else mret tt
      | None => mret tt
      end;
  _ ← upd (fun s => set_retryAt zero_time (set_phase PhaseStopped s));
  publish.

(** ** The goroutine *)

Inductive command :=
  | applyCommand (spec : Spec)
  | invokeCommand (request : InvokeRequest) (kind token : string)
  | endSessionCommand (target : InstanceRef) (token : string)
  | completeSessionCommand (target : InstanceRef) (token : string)
  | restartCommand
  | sessionInputCommand (request : SessionInputRequest)
  | operationCommand (request : OperationRequest)
  | exitCommand (runID : Z).

Inductive reply :=
  | Replied (err : option error)
  | RepliedInput (result : SessionInputResult) (err : option error)
  | RepliedOperation (result : OperationResult) (err : option error).

Definition handle (value : command) : action reply :=
  match value with
  | applyCommand spec => err ← apply spec; mret (Replied err)
  | invokeCommand request kind token => err ← invoke request kind token; mret (Replied err)
  | endSessionCommand target token => err ← endSession target token; mret (Replied err)
  | completeSessionCommand target token => err ← handleCompletion target token; mret (Replied err)
  | restartCommand => err ← restart; mret (Replied err)
  | sessionInputCommand request => result ← sessionInput request; mret (RepliedInput result.1 result.2)
  | operationCommand request => result ← operation request; mret (RepliedOperation result.1 result.2)
  | exitCommand runID => _ ← exited runID; mret (Replied None)
  end.

(** A command whose context is done is not handled, unless it ends a session; an exit has
    no context. *)
Definition receive (value : command) : action reply :=
  match value with
  | exitCommand _ => handle value
  | endSessionCommand _ _ => _ ← ask (ca_ctxErr calls); handle value
  | _ =>
    err ← ask (ca_ctxErr calls);
    match err with Some err => mret (Replied (Some err)) | None => handle value end
  end.

(** One turn of the loop of [run]. *)
Inductive turn := TurnHealth | TurnRetry | TurnCompletion (target : InstanceRef) (token : string) | TurnCommand (value : command).

(** A timer's channel is received from only if the timer is armed. *)
Definition enabled (t : turn) (s : Supervisor) : bool :=
  match t with
  | TurnHealth => he_timer (sv_health s)
  | TurnRetry => ry_timer (sv_retry s)
  | _ => true
  end.

Definition take_turn (t : turn) : action unit :=
  match t with
  | TurnHealth => _ ← upd (set_healthTimer false); handleHealth
  | TurnRetry => _ ← upd (set_retryTimer false); handleRetry
  | TurnCompletion target token => _ ← handleCompletion target token; mret tt
  | TurnCommand value => _ ← receive value; mret tt
  end.

(** What other goroutines may change: the old exits, in [snapshot], and the world. *)
Inductive runs : State -> Prop :=
  | runs_new id w : runs (mkState (newSupervisor id) [] w)
  | runs_turn t s : runs s -> enabled t (st_sup s) = true -> runs (take_turn t s).2
  | runs_snapshot at_ s : runs s -> runs (mkState (snapshot at_ (st_sup s)).2 (st_events s) (st_world s))
  | runs_world w s : runs s -> runs (mkState (st_sup s) (st_events s) w).
End Supervisor.
Arguments runs {W} calls.
