(* ===== verification/SupervisorRuns.v ===== *)
(** * What a supervisor keeps true

    The invariant of [Supervisor]: the calls it makes are those of an abstract protocol of
    one child and its sessions, no plugin is forgotten, and the clean-ups that are owed are
    bounded. *)

From Stdlib Require Import ZArith Lia.
From S2P Require Import Prelude GoStrings GoTime Identifier Protocol Presentation ProtocolSession Engine.
From S2P Require Import SessionCoordinator SessionRuntime Supervisor.

(** ** The protocol

    An observer of the events: the child that is alive, whether it was told to stop, and the
    sessions that are held. A second child, a call to a child that is not alive, a call other
    than [EndSession] and [Stop] to one that was told to stop, a session opened while it is
    open or closed while it is not: these are not events it accepts. *)
Record Watch := mkWatch { wa_child : option Z; wa_stopping : bool; wa_sessions : gmap string interactiveSession }.

(** The child is alive, and may be used if it was not told to stop. *)
Definition alive (child : Z) (g : Watch) : bool := bool_decide (wa_child g = Some child).
Definition usable (child : Z) (g : Watch) : bool := alive child g && negb (wa_stopping g).
Definition accept (b : bool) (g : Watch) : option Watch := if b then Some g else None.

Definition observe_one (g : Watch) (e : event) : option Watch :=
  match e with
  | EvStart _ (inl child) => accept (negb (is_some (wa_child g))) (mkWatch (Some child) false (wa_sessions g))
  | EvStart _ (inr _) => accept (negb (is_some (wa_child g))) g
  | EvPing child | EvInvoke child _ _ | EvReplace child _ _ | EvInput child _ _ | EvOperation child _ _ =>
    accept (usable child g) g
  | EvEndSession child _ _ => accept (alive child g) g
  | EvStop child _ => accept (alive child g) (mkWatch (wa_child g) true (wa_sessions g))
  | EvReaped child => accept (alive child g) (mkWatch None false (wa_sessions g))
  | EvOpened id session =>
    accept (negb (is_some (wa_sessions g !! id))) (mkWatch (wa_child g) (wa_stopping g) (<[id := session]> (wa_sessions g)))
  | EvClosed id session _ =>
    accept (bool_decide (wa_sessions g !! id = Some session)) (mkWatch (wa_child g) (wa_stopping g) (delete id (wa_sessions g)))
  | EvCompleted _ | EvCleanup _ | EvWithdrawGeneration _ | EvWithdrawInstance _ _ | EvStarted _ => Some g
  end.

Definition observe (g : option Watch) (e : event) : option Watch := match g with Some g => observe_one g e | None => None end.
Definition observed (events : list event) : option Watch := fold_left observe events (Some (mkWatch None false ∅)).

(** ** What the invariant reads *)

Record View := mkView {
  v_desired : bool;
  v_spec : Spec;
  v_child : option Z;
  v_stopping : bool;
  v_post : postStopAction;
  v_sessions : gmap string interactiveSession;
  v_pending : list pendingSessionCleanup;
  v_code : string;
  v_phase : Phase;
  v_health : bool;
  v_retry : bool;
  v_watch : option Watch;
}.

Definition v_set_desired (desired : bool) (spec : Spec) (v : View) : View :=
  mkView desired spec (v_child v) (v_stopping v) (v_post v) (v_sessions v)
    (v_pending v) (v_code v) (v_phase v) (v_health v) (v_retry v) (v_watch v).
Definition v_set_run (child : option Z) (stopping : bool) (post : postStopAction) (v : View) : View :=
  mkView (v_desired v) (v_spec v) child stopping post (v_sessions v)
    (v_pending v) (v_code v) (v_phase v) (v_health v) (v_retry v) (v_watch v).
Definition v_set_sessions (sessions : gmap string interactiveSession) (v : View) : View :=
  mkView (v_desired v) (v_spec v) (v_child v) (v_stopping v) (v_post v) sessions
    (v_pending v) (v_code v) (v_phase v) (v_health v) (v_retry v) (v_watch v).
Definition v_set_cleanups (pending : list pendingSessionCleanup) (code : string) (v : View) : View :=
  mkView (v_desired v) (v_spec v) (v_child v) (v_stopping v) (v_post v) (v_sessions v)
    pending code (v_phase v) (v_health v) (v_retry v) (v_watch v).
Definition v_set_phase (phase : Phase) (v : View) : View :=
  mkView (v_desired v) (v_spec v) (v_child v) (v_stopping v) (v_post v) (v_sessions v)
    (v_pending v) (v_code v) phase (v_health v) (v_retry v) (v_watch v).
Definition v_set_health (health : bool) (v : View) : View :=
  mkView (v_desired v) (v_spec v) (v_child v) (v_stopping v) (v_post v) (v_sessions v)
    (v_pending v) (v_code v) (v_phase v) health (v_retry v) (v_watch v).
Definition v_set_retry (retry : bool) (v : View) : View :=
  mkView (v_desired v) (v_spec v) (v_child v) (v_stopping v) (v_post v) (v_sessions v)
    (v_pending v) (v_code v) (v_phase v) (v_health v) retry (v_watch v).
Definition v_set_watch (watch : option Watch) (v : View) : View :=
  mkView (v_desired v) (v_spec v) (v_child v) (v_stopping v) (v_post v) (v_sessions v)
    (v_pending v) (v_code v) (v_phase v) (v_health v) (v_retry v) watch.

Definition view_of (s : Supervisor) (watch : option Watch) : View :=
  mkView (sv_desired s) (sv_spec s) (sv_child s) (sv_stopping s) (sv_postStop s) (sv_sessions s) (sv_pending s)
    (cu_errorCode (sv_cleanups s)) (sv_phase s) (he_timer (sv_health s)) (ry_timer (sv_retry s)) watch.
Definition view {W} (s : State W) : View := view_of (st_sup s) (observed (st_events s)).

Definition v_resident (v : View) : bool := hasExecutionMode (sp_ExecutionModes (v_spec v)) ExecutionModeResident.
Definition v_wants (v : View) : bool := v_resident v || negb (Nat.eqb (size (v_sessions v)) 0).

Lemma observed_snoc events e : observed (events ++ [e]) = observe (observed events) e.
Proof. unfold observed. by rewrite fold_left_app. Qed.

(** ** The actions, on views *)

Section Runs.
Context {W : Type} (calls : Calls W).
Notation State := (State W).
Notation action := (action W).

(** [m] takes views of [P] to views of [Q]. *)
Definition triple {A} (P : View -> Prop) (m : action A) (Q : A -> View -> Prop) : Prop :=
  forall s, P (view s) -> Q (m s).1 (view (m s).2).

(** [m] does not change the view. *)
Definition silent {A} (m : action A) : Prop := forall s, view (m s).2 = view s.
(** [m] changes the view by [f]. *)
Definition acts {A} (m : action A) (f : View -> View) : Prop := forall s, view (m s).2 = f (view s).

Lemma bind_eq {A B} (m : action A) (k : A -> action B) s : (m ≫= k) s = k (m s).1 (m s).2.
Proof. unfold mbind, action_bind. by destruct (m s). Qed.

Lemma triple_bind {A B} P (m : action A) (k : A -> action B) Q R :
  triple P m Q -> (forall a, triple (Q a) (k a) R) -> triple P (m ≫= k) R.
Proof. intros Hm Hk s HP. rewrite bind_eq. apply Hk, Hm, HP. Qed.

Lemma triple_ret {A} (P : View -> Prop) (a : A) (Q : A -> View -> Prop) : (forall v, P v -> Q a v) -> triple P (mret a) Q.
Proof. intros H s. apply H. Qed.

Lemma triple_conseq {A} (P P' : View -> Prop) (m : action A) (Q Q' : A -> View -> Prop) :
  triple P' m Q' -> (forall v, P v -> P' v) -> (forall a v, Q' a v -> Q a v) -> triple P m Q.
Proof. intros H HP HQ s Hs. by apply HQ, H, HP. Qed.

Lemma triple_get {A} (P : View -> Prop) (k : Supervisor -> action A) Q :
  (forall s watch, P (view_of s watch) -> triple (fun v => v = view_of s watch) (k s) Q) -> triple P (s ← get; k s) Q.
Proof. intros H s HP. rewrite bind_eq. by apply (H (st_sup s) (observed (st_events s))). Qed.

Lemma triple_acts {A} P (m : action A) f (Q : A -> View -> Prop) :
  acts m f -> (forall a v, P v -> Q a (f v)) -> triple P m Q.
Proof. intros Hm H s HP. rewrite Hm. by apply H. Qed.

Lemma acts_bind {A B} (m : action A) (k : A -> action B) f g :
  acts m f -> (forall a, acts (k a) g) -> acts (m ≫= k) (fun v => g (f v)).
Proof. intros Hm Hk s. by rewrite bind_eq, Hk, Hm. Qed.

Lemma silent_bind {A B} (m : action A) (k : A -> action B) : silent m -> (forall a, silent (k a)) -> silent (m ≫= k).
Proof. intros Hm Hk s. by rewrite bind_eq, Hk, Hm. Qed.

Lemma silent_acts {A} (m : action A) : silent m <-> acts m (fun v => v).
Proof. done. Qed.

Lemma silent_ret {A} (a : A) : silent (mret a).
Proof. done. Qed.
Lemma silent_get : silent get.
Proof. done. Qed.
Lemma silent_tell f : silent (tell f).
Proof. done. Qed.
Lemma silent_ask {A} (f : W -> A * W) : silent (ask f).
Proof. intros s. unfold ask. by destruct (f (st_world s)). Qed.
Lemma silent_upd f : (forall s watch, view_of (f s) watch = view_of s watch) -> silent (upd f).
Proof. intros H s. apply H. Qed.
Lemma silent_emit e : (forall g, observe_one g e = Some g) -> silent (emit e).
Proof.
  intros H s. unfold view. cbn [st_sup st_events emit snd]. rewrite observed_snoc. unfold observe.
  destruct (observed (st_events s)); [by rewrite H|done].
Qed.
Lemma silent_each {A} (f : A -> action unit) l : (forall x, silent (f x)) -> silent (each f l).
Proof. intros H. induction l as [|x l IH]; [done|]. by apply silent_bind. Qed.
Lemma silent_when b (m : action unit) : silent m -> silent (when b m).
Proof. by destruct b. Qed.

Lemma acts_upd f g : (forall s watch, view_of (f s) watch = g (view_of s watch)) -> acts (upd f) g.
Proof. intros H s. apply H. Qed.
Lemma acts_emit e : acts (emit e) (fun v => v_set_watch (observe (v_watch v) e) v).
Proof. intros s. unfold view. cbn [st_sup st_events emit snd]. by rewrite observed_snoc. Qed.
End Runs.

(** Proves [silent] of an action whose parts are. *)
Ltac silent :=
  repeat first
    [ apply silent_bind; [|intros ?] | apply silent_ret | apply silent_get | apply silent_tell | apply silent_ask
    | apply silent_upd; reflexivity | apply silent_emit; reflexivity | apply silent_each; intros ? | apply silent_when
    | solve [eauto with silent] ].
Create HintDb silent.

Section Silent.
Context {W : Type} (calls : Calls W).

Lemma silent_publish : silent (W := W) publish.
Proof. unfold publish. silent. Qed.
Lemma silent_now : silent (now calls).
Proof. unfold now. silent. Qed.
Lemma silent_setError code : silent (setError calls code).
Proof. unfold setError, now, publish. silent. Qed.
Lemma silent_clearExits : silent (W := W) clearExits.
Proof. unfold clearExits. silent. Qed.
Lemma silent_addExit at_ : silent (W := W) (addExit at_).
Proof. unfold addExit. silent. Qed.
Lemma silent_emitSessionCleanup : silent (emitSessionCleanup calls).
Proof. unfold emitSessionCleanup, now. destruct (ca_SessionCleanup calls); silent. Qed.
Lemma silent_withdraw_generation g : silent (withdraw_generation calls g).
Proof. unfold withdraw_generation. destruct (ca_WithdrawGeneration calls); silent. Qed.
Lemma silent_withdraw spec : silent (withdraw calls spec).
Proof. unfold withdraw. destruct (ca_WithdrawGeneration calls); [|silent]. apply silent_each. apply silent_withdraw_generation. Qed.
Lemma silent_withdrawReplaced previous next : silent (withdrawReplacedInstances calls previous next).
Proof.
  unfold withdrawReplacedInstances. cbv zeta. destruct (ca_WithdrawInstance calls); [silent|].
  apply silent_each. apply silent_withdraw_generation.
Qed.
End Silent.
#[export] Hint Resolve silent_publish silent_now silent_setError silent_clearExits silent_addExit silent_emitSessionCleanup
  silent_withdraw silent_withdrawReplaced : silent.

(** ** From a known view *)

(** What a supervisor of the view [v] shows. *)
Record Sees (s : Supervisor) (v : View) : Prop := {
  se_desired : sv_desired s = v_desired v;
  se_spec : sv_spec s = v_spec v;
  se_child : sv_child s = v_child v;
  se_has_child : has_child s = is_some (v_child v);
  se_stopping : sv_stopping s = v_stopping v;
  se_post : sv_postStop s = v_post v;
  se_sessions : sv_sessions s = v_sessions v;
  se_no_sessions : no_sessions s = Nat.eqb (size (v_sessions v)) 0;
  se_pending : sv_pending s = v_pending v;
  se_phase : sv_phase s = v_phase v;
  se_resident : resident s = v_resident v;
  se_wants : wantsChild s = v_wants v;
}.

Lemma sees_view s watch : Sees s (view_of s watch).
Proof. by split. Qed.

Definition here (v : View) : View -> Prop := fun v0 => v0 = v.

Section Steps.
Context {W : Type}.
Notation action := (action W).

Lemma at_get {A} v (k : Supervisor -> action A) R :
  (forall s, Sees s v -> triple (here v) (k s) R) -> triple (here v) (s ← get; k s) R.
Proof. intros H. apply triple_get. intros s watch <-. apply H, sees_view. Qed.

Lemma at_silent {A B} v (m : action A) (k : A -> action B) R :
  silent m -> (forall a, triple (here v) (k a) R) -> triple (here v) (m ≫= k) R.
Proof. intros Hm Hk. eapply triple_bind; [|exact Hk]. intros s Hs. by rewrite Hm. Qed.

Lemma at_acts {A B} v (m : action A) f (k : A -> action B) R :
  acts m f -> (forall a, triple (here (f v)) (k a) R) -> triple (here v) (m ≫= k) R.
Proof. intros Hm Hk. eapply triple_bind; [|exact Hk]. intros s Hs. unfold here in *. by rewrite Hm, Hs. Qed.

Lemma at_spec {A B} v (m : action A) (k : A -> action B) Q R :
  triple (here v) m Q -> (forall a v', Q a v' -> triple (here v') (k a) R) -> triple (here v) (m ≫= k) R.
Proof. intros Hm Hk. eapply triple_bind; [exact Hm|]. intros a s HQ. by eapply Hk. Qed.

Lemma at_ret {A} v (a : A) (Q : A -> View -> Prop) : Q a v -> triple (W := W) (here v) (mret a) Q.
Proof. intros H s Hs. unfold here in Hs. cbn [mret action_ret fst snd]. by rewrite Hs. Qed.

Lemma at_silent_end {A} v (m : action A) (Q : A -> View -> Prop) : silent m -> (forall a, Q a v) -> triple (here v) m Q.
Proof. intros Hm H s Hs. rewrite Hm, Hs. apply H. Qed.

Lemma at_acts_end {A} v (m : action A) f (Q : A -> View -> Prop) : acts m f -> (forall a, Q a (f v)) -> triple (here v) m Q.
Proof. intros Hm H s Hs. rewrite Hm, Hs. apply H. Qed.

Lemma at_weaken {A} v (m : action A) (Q Q' : A -> View -> Prop) :
  triple (here v) m Q' -> (forall a v', Q' a v' -> Q a v') -> triple (here v) m Q.
Proof. intros H HQ s Hs. by apply HQ, H. Qed.

Lemma acts_at {A} (m : action A) f : (forall v, triple (here v) m (fun _ v' => v' = f v)) -> acts m f.
Proof. intros H s. by apply (H (view s) s). Qed.

Lemma triple_here {A} (P : View -> Prop) (m : action A) Q : (forall v, P v -> triple (here v) m Q) -> triple P m Q.
Proof. intros H s HP. by apply (H (view s)). Qed.
End Steps.

(** Reads the supervisor, and rewrites what was read into the view. *)
Ltac look s Hs :=
  apply at_get; intros s Hs;
  rewrite ?(se_desired _ _ Hs), ?(se_spec _ _ Hs), ?(se_child _ _ Hs), ?(se_has_child _ _ Hs), ?(se_stopping _ _ Hs),
    ?(se_post _ _ Hs), ?(se_sessions _ _ Hs), ?(se_no_sessions _ _ Hs), ?(se_pending _ _ Hs), ?(se_phase _ _ Hs),
    ?(se_resident _ _ Hs), ?(se_wants _ _ Hs).
(** Passes over an action that does not change the view. *)
Ltac skip := first [apply at_silent; [solve [silent]|intros ?] | apply at_silent_end; [solve [silent]|intros ?]].
(** Takes an event, an action with a known effect, or an update whose effect is given. *)
Ltac take := first
  [ eapply at_acts_end; [first [apply acts_emit | solve [eauto with acts]]|intros ?]
  | eapply at_acts; [first [apply acts_emit | solve [eauto with acts]]|intros ?] ]; cbv beta.
Ltac same_view :=
  first [reflexivity | let s := fresh "s" in intros s ?; unfold queuePostStop, view_of; cbn; destruct (sv_postStop s); reflexivity].
Ltac take_as f := first
  [ apply (at_acts _ _ f); [apply acts_upd; same_view|intros ?]
  | apply (at_acts_end _ _ f); [apply acts_upd; same_view|intros ?] ].
Create HintDb acts.

Section Acts.
Context {W : Type} (calls : Calls W).

Lemma acts_cancelHealth : acts (W := W) cancelHealth (v_set_health false).
Proof. unfold cancelHealth. apply acts_upd. reflexivity. Qed.

Lemma acts_cancelRetry : acts (W := W) cancelRetry (v_set_retry false).
Proof. unfold cancelRetry. apply acts_upd. reflexivity. Qed.

#[local] Hint Resolve acts_cancelHealth acts_cancelRetry : acts.

Lemma acts_scheduleHealth : acts (W := W) scheduleHealth (v_set_health true).
Proof. apply acts_at. intros v. unfold scheduleHealth. take. by take_as (v_set_health true). Qed.

Lemma acts_quarantine code : acts (quarantine calls code) (fun v => v_set_phase PhaseQuarantined (v_set_retry false v)).
Proof. apply acts_at. intros v. unfold quarantine. take. skip. take_as (v_set_phase PhaseQuarantined). by skip. Qed.

Lemma acts_scheduleRetry : acts (scheduleRetry calls) (fun v => v_set_retry true (v_set_phase PhaseBackoff v)).
Proof. apply acts_at. intros v. unfold scheduleRetry. skip. look s Hs. skip. take_as (v_set_phase PhaseBackoff). skip. take_as (v_set_retry true). by skip. Qed.

Definition failed (v : View) : View :=
  if v_stopping v then v_set_phase PhaseStopping (v_set_run (v_child v) (v_stopping v) postStopRetry (v_set_retry false v))
  else v_set_retry true (v_set_phase PhaseBackoff (v_set_retry false v)).

Lemma acts_recordFailure code : acts (recordFailure calls code) failed.
Proof.
  apply acts_at. intros v. unfold recordFailure, failed. skip. skip. take. look s Hs. cbn [v_stopping v_set_retry].
  destruct (v_stopping v) eqn:E.
  - take_as (fun v => v_set_phase PhaseStopping (v_set_run (v_child v) (v_stopping v) postStopRetry v)).
    skip. cbn. by rewrite E.
  - eapply at_acts_end; [apply acts_scheduleRetry|done].
Qed.

Lemma acts_clearFailures : acts (W := W) clearFailures (fun v => v_set_phase
  (if v_stopping v then PhaseStopping else if is_some (v_child v) then PhaseRunning else PhaseStopped) (v_set_retry false v)).
Proof. apply acts_at. intros v. unfold clearFailures. skip. skip. skip. take.
  take_as (fun v => v_set_phase (if v_stopping v then PhaseStopping else if is_some (v_child v) then PhaseRunning else PhaseStopped) v).
  by skip.
Qed.

Lemma acts_clearCleanups : acts (W := W) clearSessionCleanupState (v_set_cleanups [] EmptyString).
Proof. apply acts_upd. reflexivity. Qed.
Lemma acts_cleanupError : acts (setSessionCleanupError calls) (fun v => v_set_cleanups (v_pending v) ErrorCodeEndSessionFailed v).
Proof. apply acts_at. intros v. unfold setSessionCleanupError. skip. by take_as (fun v => v_set_cleanups (v_pending v) ErrorCodeEndSessionFailed v). Qed.
Lemma acts_clearLifecycle : acts (W := W) clearSessionCleanupLifecycle (fun v => v_set_cleanups (v_pending v) EmptyString v).
Proof. apply acts_upd. reflexivity. Qed.

Definition dropped (id : string) (session : interactiveSession) (why : cause) (v : View) : View :=
  v_set_watch (observe (v_watch v) (EvClosed id session why)) (v_set_sessions (delete id (v_sessions v)) v).

Lemma acts_drop id session why : acts (W := W) (drop_session id session why) (dropped id session why).
Proof. apply acts_at. intros v. unfold drop_session. take_as (fun v => v_set_sessions (delete id (v_sessions v)) v). by take. Qed.

Lemma acts_invalidate id session reason : acts (invalidateSession calls id session reason) (dropped id session (Invalidated reason)).
Proof.
  apply acts_at. intros v. unfold invalidateSession. eapply at_acts; [apply acts_drop|intros _]. look s Hs.
  by destruct (ca_SessionInvalidated calls); skip.
Qed.
End Acts.
#[export] Hint Resolve acts_cancelHealth acts_cancelRetry acts_scheduleHealth acts_quarantine acts_scheduleRetry
  acts_recordFailure acts_clearFailures acts_clearCleanups acts_cleanupError acts_clearLifecycle acts_drop acts_invalidate : acts.
