(* ===== verification/SupervisorSafe.v ===== *)
(** * What a supervisor keeps true

    The invariant of [Supervisor], and that each of its commands, its timers and its exits
    keep it: the calls it makes are those of the protocol of [SupervisorRuns], its timers are
    armed when they must be, the clean-ups that are owed are bounded, and a resident plugin
    is always running, about to be started again, or quarantined. *)

From Stdlib Require Import ZArith Lia.
From S2P Require Import Prelude GoStrings GoTime Identifier Protocol Presentation ProtocolSession Engine.
From S2P Require Import SessionCoordinator SessionRuntime Supervisor SupervisorRuns.

(** ** The invariant *)

(** The lifecycle error that the plugin shows while clean-ups are owed. *)
Definition owed_code (pending : list pendingSessionCleanup) : string :=
  match pending with [] => EmptyString | _ => ErrorCodeEndSessionFailed end.

Record Sane (v : View) : Prop := {
  sane_watch : v_watch v = Some (mkWatch (v_child v) (v_stopping v) (v_sessions v));
  sane_stopping : v_stopping v = true -> v_child v <> None /\ v_phase v = PhaseStopping;
  sane_health : v_health v = true -> v_child v <> None /\ v_stopping v = false;
  sane_retry : v_retry v = true -> v_desired v = true /\ v_phase v <> PhaseQuarantined;
  sane_pending : NoDup (v_pending v);
  sane_bound : (length (v_pending v) <= 256)%nat;
  sane_owed : v_pending v <> [] -> v_child v <> None;
  sane_code : v_code v = owed_code (v_pending v);
}.

(** A child that may be used is asked for its health. *)
Definition Monitored (v : View) : Prop := v_child v <> None -> v_stopping v = false -> v_health v = true.
(** Only a plugin that is desired has a child. *)
Definition Owned (v : View) : Prop := v_child v <> None -> v_desired v = true.
(** A resident plugin runs, will be started again, or is quarantined. *)
Definition Covered (v : View) : Prop :=
  v_desired v = true -> v_resident v = true ->
  v_phase v = PhaseQuarantined \/ v_retry v = true
  \/ (v_child v <> None /\ (v_stopping v = true -> v_post v <> postStopNone)).

(** A session that is held is of the generation of its instance. *)
Definition v_generation (id : string) (v : View) : option Z := is_Generation <$> find_instance id (v_spec v).
Definition Current (v : View) : Prop :=
  forall id session, v_sessions v !! id = Some session -> v_generation id v = Some (ix_generation session).

Definition Inv (v : View) : Prop := Sane v /\ Monitored v /\ Owned v /\ Covered v /\ Current v.

(** What is desired is only changed by [apply] and [shutdownNow]. *)
Definition kept (v v' : View) : Prop := v_desired v' = v_desired v /\ v_spec v' = v_spec v.

(** What the methods that may stop the child keep. *)
Record Kept (v v' : View) : Prop := {
  kp_kept : kept v v';
  kp_sane : Sane v';
  kp_sessions : v_sessions v' ⊆ v_sessions v;
  kp_monitored : Monitored v -> Monitored v';
  kp_covered : Covered v -> Covered v';
}.

Lemma kept_refl v : kept v v.
Proof. done. Qed.
Lemma kept_trans v v' v'' : kept v v' -> kept v' v'' -> kept v v''.
Proof. intros [H1 H2] [H3 H4]. split; congruence. Qed.
Lemma kept_resident v v' : kept v v' -> v_resident v' = v_resident v.
Proof. intros [_ H]. unfold v_resident. by rewrite H. Qed.
Lemma kept_owned v v' : kept v v' -> v_desired v = true -> Owned v'.
Proof. intros [H _] Hd _. by rewrite H. Qed.

Lemma Kept_refl v : Sane v -> Kept v v.
Proof. intros H. by split. Qed.
Lemma Kept_trans v v' v'' : Kept v v' -> Kept v' v'' -> Kept v v''.
Proof. intros [K1 S1 D1 M1 C1] [K2 S2 D2 M2 C2]. split; [by eapply kept_trans|done|by etrans|auto|auto]. Qed.
Lemma kept_current v v' : kept v v' -> v_sessions v' ⊆ v_sessions v -> Current v -> Current v'.
Proof. intros [_ Hs] Hm H id session Hi. unfold v_generation. rewrite Hs. apply H. by eapply lookup_weaken. Qed.
Lemma Kept_inv v v' : Kept v v' -> v_desired v = true -> Inv v -> Inv v'.
Proof. intros [K S D M C] Hd (_ & M0 & _ & C0 & U0). split_and!; [done|auto|by eapply kept_owned|auto|by eapply kept_current]. Qed.

Lemma not_resident_covered v : v_resident v = false -> Covered v.
Proof. intros H _ Hr. congruence. Qed.
Lemma no_child_monitored v : v_child v = None -> Monitored v.
Proof. intros H Hc. by destruct Hc. Qed.

(** ** The rules of the invariant *)

Lemma failed_sane v : Sane v -> v_desired v = true -> Sane (failed v).
Proof.
  intros [H1 H2 H3 H4 H5 H6 H7 H8] Hd. unfold failed.
  destruct (v_stopping v) eqn:E; split; cbn; rewrite ?E; naive_solver.
Qed.
Lemma failed_covered v : Sane v -> Covered (failed v).
Proof.
  intros HS _ _. unfold failed. destruct (v_stopping v) eqn:E; cbn; [|by right; left].
  right; right. split; [by apply (sane_stopping _ HS)|done].
Qed.
Lemma failed_kept v : kept v (failed v).
Proof. unfold failed. by destruct (v_stopping v). Qed.
Lemma failed_monitored v : Monitored v -> Monitored (failed v).
Proof. intros H. unfold failed. destruct (v_stopping v) eqn:E; intros Hc Hs; cbn in *; [done|]. by apply H. Qed.

Lemma no_child_running v : Sane v -> v_child v = None -> v_stopping v = false.
Proof. intros HS Hc. destruct (v_stopping v) eqn:E; [|done]. by apply (sane_stopping _ HS) in E as [? _]. Qed.

Definition quarantined (v : View) : View := v_set_phase PhaseQuarantined (v_set_retry false v).
Lemma quarantined_sane v : Sane v -> v_stopping v = false -> Sane (quarantined v).
Proof. intros [H1 H2 H3 H4 H5 H6 H7 H8] E. rewrite E in *. split; cbn; rewrite ?E; naive_solver. Qed.
Lemma quarantined_covered v : Covered (quarantined v).
Proof. by left. Qed.

Lemma phase_sane phase v : Sane v -> v_stopping v = false -> phase <> PhaseQuarantined -> Sane (v_set_phase phase v).
Proof. intros [H1 H2 H3 H4 H5 H6 H7 H8] E Hp. rewrite E in *. split; cbn; rewrite ?E; naive_solver. Qed.

(** An event that the observer accepts and forgets. *)
Lemma watch_same e v : Sane v ->
  observe_one (mkWatch (v_child v) (v_stopping v) (v_sessions v)) e = Some (mkWatch (v_child v) (v_stopping v) (v_sessions v)) ->
  v_set_watch (observe (v_watch v) e) v = v.
Proof. intros HS He. rewrite (sane_watch _ HS). cbn [observe]. rewrite He, <- (sane_watch _ HS). by destruct v. Qed.

(** ** Sessions that are dropped *)

(** [v'] is [v] with fewer sessions. *)
Definition with_sessions (sessions : gmap string interactiveSession) (v : View) : View :=
  v_set_watch (Some (mkWatch (v_child v) (v_stopping v) sessions)) (v_set_sessions sessions v).

Lemma with_sessions_sane sessions v : Sane v -> Sane (with_sessions sessions v).
Proof. intros [H1 H2 H3 H4 H5 H6 H7 H8]. by split. Qed.
Definition tracked (v : View) : Prop := v_watch v = Some (mkWatch (v_child v) (v_stopping v) (v_sessions v)).
Lemma with_sessions_same v : tracked v -> with_sessions (v_sessions v) v = v.
Proof. intros H1. unfold with_sessions, v_set_watch, v_set_sessions. cbn. rewrite <- H1. by destruct v. Qed.
Lemma dropped_sane id session why v :
  tracked v -> v_sessions v !! id = Some session ->
  dropped id session why v = with_sessions (delete id (v_sessions v)) v.
Proof.
  intros H1 Hi. unfold dropped, with_sessions. rewrite H1. cbn. by rewrite bool_decide_true.
Qed.
Lemma with_sessions_twice a b v : with_sessions a (with_sessions b v) = with_sessions a v.
Proof. done. Qed.

(** What a loop that drops the sessions [gone] leaves. *)
Definition dropping (gone : string -> interactiveSession -> bool) (m : gmap string interactiveSession)
    (l : list (string * interactiveSession)) : gmap string interactiveSession :=
  foldl (fun m p => if gone p.1 p.2 then delete p.1 m else m) m l.

Lemma dropping_lookup gone l m id session :
  dropping gone m l !! id = Some session ->
  m !! id = Some session /\ ((id, session) ∈ l -> gone id session = false).
Proof.
  revert m. induction l as [|[i x] l IH]; intros m H; cbn in H; [by split; [|inversion 1]|].
  apply IH in H as [Hm Hl]. cbn in Hm. destruct (gone i x) eqn:E.
  - apply lookup_delete_Some in Hm as [Hne Hm]. split; [done|]. intros [[= -> ->]|Hin]%elem_of_cons; [done|by apply Hl].
  - split; [done|]. intros [[= -> ->]|Hin]%elem_of_cons; [done|by apply Hl].
Qed.

Lemma dropping_subseteq gone l m : dropping gone m l ⊆ m.
Proof. apply map_subseteq_spec. intros id session H. by apply dropping_lookup in H as [H _]. Qed.

Section Sessions.
Context {W : Type} (calls : Calls W).
Notation action := (action W).

Lemma each_drop (gone : string -> interactiveSession -> bool) why (f : string * interactiveSession -> action unit) l :
  (forall id session, acts (W := W) (f (id, session)) (fun v => if gone id session then dropped id session why v else v)) ->
  forall v, tracked v -> NoDup l.*1 -> (forall id session, (id, session) ∈ l -> v_sessions v !! id = Some session) ->
  triple (here v) (each f l) (fun _ v' => v' = with_sessions (dropping gone (v_sessions v) l) v).
Proof.
  intros Hf. induction l as [|[id session] l IH]; intros v HS Hn Hl; cbn [each fmap list_fmap] in *.
  { apply at_ret. unfold dropping. cbn [foldl]. by rewrite with_sessions_same. }
  apply NoDup_cons in Hn as [Hid Hn]. eapply at_acts; [apply Hf|intros _]. unfold dropping. cbn [foldl fst snd]. fold (dropping gone (v_sessions v) l). fold (dropping gone (delete id (v_sessions v)) l).
  destruct (gone id session).
  - rewrite dropped_sane; [|done|by apply Hl; left].
    eapply at_weaken; [apply IH; [done|done|]|by intros _ v' ->].
    intros i x Hi. cbn. rewrite lookup_delete_ne; [by apply Hl; right|]. intros ->. apply Hid.
    by apply (list_elem_of_fmap_2 fst) in Hi.
  - apply IH; [done..|]. intros i x Hi. apply Hl. by right.
Qed.

Lemma map_to_list_held (m : gmap string interactiveSession) id session : (id, session) ∈ map_to_list m -> m !! id = Some session.
Proof. apply elem_of_map_to_list. Qed.

Lemma at_invalidate_all reason v : tracked v ->
  triple (here v) (invalidateSessions calls reason) (fun _ v' => v' = with_sessions ∅ v).
Proof.
  intros HS. unfold invalidateSessions. look s Hs.
  eapply at_weaken; [apply (each_drop (fun _ _ => true) (Invalidated reason))|].
  - intros id session. apply acts_invalidate.
  - done.
  - apply NoDup_fst_map_to_list.
  - intros id session. apply map_to_list_held.
  - intros _ v' ->. f_equal. apply map_empty. intros id. destruct (_ !! id) as [session|] eqn:E; [|done].
    apply dropping_lookup in E as [E Hl]. by discriminate Hl; apply elem_of_map_to_list.
Qed.

Lemma at_invalidateSessions reason v : Sane v ->
  triple (here v) (invalidateSessions calls reason) (fun _ v' => v' = with_sessions ∅ v).
Proof. intros HS. apply at_invalidate_all, sane_watch, HS. Qed.

Lemma at_pruneSessions v : Sane v ->
  triple (here v) (pruneSessions calls) (fun _ v' => exists m, v' = with_sessions m v /\ m ⊆ v_sessions v /\ Current v').
Proof.
  intros HS. unfold pruneSessions. look s Hs.
  eapply at_weaken;
    [apply (each_drop (fun id session => negb (bool_decide (instanceGeneration id s = Some (ix_generation session))))
              (Invalidated SessionInvalidatedGeneration))|].
  - intros id session. unfold when. case_bool_decide; cbn [negb]; [apply silent_acts, silent_ret|apply acts_invalidate].
  - apply sane_watch, HS.
  - apply NoDup_fst_map_to_list.
  - intros id session. apply map_to_list_held.
  - intros _ v' ->. eexists. split_and!; [done|apply dropping_subseteq|].
    intros id session Hi. cbn in Hi. apply dropping_lookup in Hi as [Hm Hl].
    assert (Hg : bool_decide (instanceGeneration id s = Some (ix_generation session)) = true).
    { apply negb_false_iff, Hl. by apply elem_of_map_to_list. }
    apply bool_decide_eq_true in Hg. unfold instanceGeneration in Hg. by rewrite (se_spec _ _ Hs) in Hg.
Qed.
End Sessions.

(** ** Starting and stopping the child *)

Definition stopped (v : View) : View :=
  v_set_phase PhaseStopped (v_set_cleanups [] EmptyString (v_set_run None false postStopNone v)).
Definition reaped (v : View) : View := v_set_watch (Some (mkWatch None false (v_sessions v))) v.

Lemma observe_reaped v child : Sane v -> v_child v = Some child -> v_set_watch (observe (v_watch v) (EvReaped child)) v = reaped v.
Proof. intros [H1 _ _ _ _ _ _ _] Hc. unfold reaped. rewrite H1. cbn. unfold alive. cbn. rewrite Hc. by rewrite bool_decide_true. Qed.

(** The child is gone, and nothing is armed for it. *)
Lemma stopped_sane v : Sane v -> v_stopping v = true -> Sane (stopped (reaped v)).
Proof. intros [H1 H2 H3 H4 H5 H6 H7 H8] E.
  split; cbn; [done|done|intros [_ Hs]%H3; congruence|intros [Hd _]%H4; by split|constructor|lia|done|done].
Qed.
Lemma stopped_kept v : kept v (stopped (reaped v)).
Proof. done. Qed.

(** [start] returned a child. *)
Definition started (child : Z) (v : View) : View :=
  v_set_health true (v_set_phase PhaseRunning (v_set_cleanups [] EmptyString (v_set_run (Some child) false (v_post v)
    (v_set_watch (Some (mkWatch (Some child) false (v_sessions v))) v)))).
Lemma started_sane child v : Sane v -> v_child v = None -> Sane (started child v).
Proof. intros [H1 H2 H3 H4 H5 H6 H7 H8] E.
  split; cbn; [done|done|done|intros [Hd _]%H4; by split|constructor|lia|done|done].
Qed.
Lemma started_covered child v : Covered (started child v).
Proof. intros _ _. cbn. right; right. by split. Qed.

Section Lifecycle.
Context {W : Type} (calls : Calls W).
Notation action := (action W).

Lemma at_finishStop v : v_child v <> None ->
  triple (here v) (finishStop calls) (fun next v' => next = v_post v /\ v' = stopped v).
Proof.
  intros Hc. unfold finishStop. look s Hs. destruct (v_child v) as [child|]; [clear Hc|done].
  take_as (v_set_run None false postStopNone). take. skip. skip. take_as (v_set_phase PhaseStopped). skip. by apply at_ret.
Qed.

(** What [startChild] does to a supervisor without a child. *)
Definition starts (v : View) (result : bool) (v' : View) : Prop :=
  Kept v v' /\ v_sessions v' = v_sessions v /\ (v_child v = None -> Covered v' /\ Monitored v')
  /\ (result = true -> v_child v' <> None /\ v_stopping v' = false).

Lemma at_child_started child v : tracked v -> v_child v = None -> v_stopping v = false ->
  triple (here (v_set_watch (observe (v_watch v) (EvStart (v_spec v) (inl child))) v)) (child_started calls child)
    (fun result v' => result = true /\ v' = started child v).
Proof.
  intros HS Hc Hst. unfold child_started. take_as (fun v => v_set_run (Some child) (v_stopping v) (v_post v) v). take. skip.
  take_as (v_set_phase PhaseRunning). take. skip. apply at_silent; [apply silent_ask|intros incarnation].
  apply at_silent; [destruct (ca_Started calls); silent|intros _]. apply at_ret. split; [done|].
  unfold started. rewrite HS. unfold observe, observe_one. cbn. by rewrite Hc, Hst.
Qed.

Lemma at_start_failed err v : Sane v -> v_child v = None -> v_desired v = true ->
  triple (here v) (start_failed calls err) (starts v).
Proof.
  intros HS Hc Hd. pose proof (no_child_running v HS Hc) as Hst. unfold start_failed.
  assert (Hend : forall v', kept v v' -> v_sessions v' = v_sessions v -> v_child v' = None -> Sane v' -> Covered v' -> starts v false v').
  { intros v' K D C S' O. split_and!; [|done|by split; [|apply no_child_monitored]|done].
    split; [done|done|by rewrite D|by intros _; apply no_child_monitored|done]. }
  destruct (errors_Is _ err); take; apply at_ret, Hend; try done.
  - by apply quarantined_sane.
  - apply quarantined_covered.
  - apply failed_kept.
  - unfold failed. by rewrite Hst.
  - unfold failed. by rewrite Hst.
  - by apply failed_sane.
  - by apply failed_covered.
Qed.

Lemma at_startChild v : Sane v -> triple (here v) (startChild calls) (starts v).
Proof.
  intros HS. unfold startChild. look s Hs.
  destruct (negb (v_desired v) || is_some (v_child v) || v_stopping v || bool_decide (v_phase v = PhaseQuarantined)) eqn:E.
  { apply at_ret. split_and!; [by apply Kept_refl|done| |done]. intros Hc.
    rewrite Hc, (no_child_running v HS Hc) in E. cbn in E. rewrite !orb_false_r in E.
    split; [|by apply no_child_monitored]. intros Hd _. rewrite Hd in E. left. by apply bool_decide_eq_true in E. }
  apply orb_false_iff in E as [[[Hd%negb_false_iff Hc]%orb_false_iff Hst]%orb_false_iff Hq%bool_decide_eq_false].
  destruct (v_child v) as [c|] eqn:Ec; [done|clear Hc].
  take_as (v_set_phase PhaseStarting). skip. apply at_silent; [apply silent_ask|intros result].
  set (v1 := v_set_phase PhaseStarting v). assert (HS1 : Sane v1) by (apply phase_sane; [done|by rewrite Hst|done]).
  destruct result as [child|err]; take.
  - eapply at_weaken; [apply (at_child_started child v1); [apply sane_watch, HS1|done|done]|]. intros result v' [-> ->].
    split_and!; [|done|intros _; split; [apply started_covered|by intros _ _]|done].
    split; [done|by apply started_sane|done|by intros _ _ _|intros _; apply started_covered].
  - rewrite watch_same; [|done|cbn; by rewrite Ec].
    eapply at_weaken; [by apply at_start_failed|]. intros result v' ([K S D M C] & E & H & Hr).
    split_and!; [|done|by intros _; apply H|done]. split; [done|done|done|by intros _; apply H|by intros _; apply H].
Qed.

(** What [continueAfterStop] does to a supervisor without a child. *)
Definition continues (next : postStopAction) (v v' : View) : Prop :=
  Kept v v' /\ v_sessions v' = v_sessions v /\ Monitored v' /\ (next <> postStopNone -> Covered v')
  /\ (v_desired v = false -> v_child v' = None /\ v_retry v' = v_retry v).

Lemma at_continueAfterStop next v : Sane v -> v_child v = None ->
  triple (here v) (continueAfterStop calls next) (fun _ v' => continues next v v').
Proof.
  intros HS Hc. unfold continueAfterStop. look s Hs.
  assert (Hstay : (next <> postStopNone -> Covered v) -> continues next v v).
  { intros H. split_and!; [by apply Kept_refl|done|by apply no_child_monitored|done|done]. }
  destruct (negb (v_desired v) || negb (v_wants v)) eqn:E.
  { apply at_ret, Hstay. intros _ Hd Hr. rewrite Hd in E. unfold v_wants in E. by rewrite Hr in E. }
  apply orb_false_iff in E as [Hd%negb_false_iff _]. destruct next.
  - by apply at_ret, Hstay.
  - eapply at_spec; [by apply at_startChild|]. intros result v' (K & D & C & _). apply at_ret.
    destruct (C Hc). split_and!; [done..|]. rewrite Hd. by intros [=].
  - take. pose proof (no_child_running v HS Hc) as Hst.
    split_and!; [|done|by intros H|by right; left|rewrite Hd; by intros [=]].
    split; [done| |done|by intros _ H|by right; left].
    destruct (phase_sane PhaseBackoff v HS Hst) as [H1 H2 H3 H4 H5 H6 H7 H8]; [done|]. by split.
Qed.

(** The child was told to stop. *)
Definition halting (v : View) : View :=
  v_set_watch (Some (mkWatch (v_child v) true (v_sessions v)))
    (v_set_phase PhaseStopping (v_set_run (v_child v) true (v_post v) (v_set_health false v))).

Lemma halting_sane v : Sane v -> v_child v <> None -> Sane (halting v).
Proof. intros [H1 H2 H3 H4 H5 H6 H7 H8] Hc. split; cbn; try done. intros [Hd _]%H4. by split. Qed.
Lemma halting_again v : Sane v -> v_stopping v = true -> halting v = v.
Proof.
  intros [H1 H2 H3 H4 H5 H6 H7 H8] E. destruct (H2 E) as [_ Hp].
  assert (Eh : v_health v = false).
  { destruct (v_health v); [|done]. destruct (H3 eq_refl) as [_ Hs]. congruence. }
  rewrite E in H1. unfold halting, v_set_watch, v_set_phase, v_set_run, v_set_health. cbn. rewrite <- H1. destruct v; cbn in *. by subst.
Qed.

Record Stops (v : View) (err : option error) (v' : View) : Prop := {
  ss_kept : kept v v';
  ss_sane : Sane v';
  ss_sessions : v_sessions v' = v_sessions v;
  ss_monitored : v_child v <> None -> Monitored v';
  ss_stopped : err = None -> v_child v <> None -> v_child v' = None /\ v_phase v' = PhaseStopped;
  ss_idle : v_child v = None -> err = None /\ v' = v;
  ss_covered : err <> None -> (v_resident v = true -> v_post v <> postStopNone) -> Covered v';
  ss_undesired : v_desired v = false -> v_retry v' = v_retry v /\ (v_child v' <> None -> v_stopping v' = true);
}.

Lemma acts_begin_stop : acts (W := W) begin_stop
  (fun v => v_set_phase PhaseStopping (v_set_run (v_child v) true (v_post v) (v_set_health false v))).
Proof.
  apply acts_at. intros v. unfold begin_stop. take.
  take_as (fun v => v_set_phase PhaseStopping (v_set_run (v_child v) true (v_post v) v)). by skip.
Qed.

Lemma stopped_stops v : Sane v -> v_child v <> None -> Stops v None (stopped (reaped (halting v))).
Proof.
  intros HS Hc. split; [done| |done|by intros _ Hc'|done|done|done|done].
  apply stopped_sane; [by apply halting_sane|done].
Qed.

(** [Stop] failed, and the child was not reaped. *)
Lemma halting_stops v err : Sane v -> v_child v <> None -> Stops v (Some err) (halting v).
Proof.
  intros HS Hc. split; [done|by apply halting_sane|done|by intros _ _|done|done| |done].
  intros _ Hpost _ Hr. right; right. split; [done|]. intros _. by apply Hpost.
Qed.

Lemma at_reap {A} v child (k : postStopAction -> action A) R :
  Sane v -> v_stopping v = true -> v_child v = Some child ->
  triple (here (stopped (reaped v))) (k (v_post v)) R ->
  triple (here v) (_ ← emit (EvReaped child); next ← finishStop calls; k next) R.
Proof.
  intros HS Hst Hc Hk. take. rewrite observe_reaped by done.
  eapply at_spec; [apply at_finishStop; cbn; by rewrite Hc|]. by intros next v' [-> ->].
Qed.

Lemma at_awaitStop v : Sane v -> v_child v <> None -> v_stopping v = true ->
  triple (here v) (awaitStop calls) (fun err v' => v' = match err with None => stopped (reaped v) | Some _ => v end).
Proof.
  intros HS Hc Hst. unfold awaitStop. look s Hs. destruct (v_child v) as [child|] eqn:E; [|done].
  rewrite Hst. cbn [negb]. apply at_silent; [apply silent_ask|intros [err|]]; [by apply at_ret|].
  apply at_reap; [done..|]. by apply at_ret.
Qed.

(** [Stop] failed, and the child was reaped. *)
Lemma continues_stops v err v' : Sane v -> v_child v <> None ->
  continues (v_post v) (stopped (reaped (halting v))) v' -> Stops v (Some err) v'.
Proof.
  intros HS Hc ([K S D M C] & Ds & Mo & Co & Un). split; [done|done|done|done|done|done| |intros Hd; destruct (Un Hd) as [-> ->]; by split].
  intros _ Hpost Hd Hr. apply Co; [|done|done]. apply Hpost. by rewrite <- (kept_resident v v').
Qed.

Lemma at_stopCurrent v : Sane v -> triple (here v) (stopCurrent calls) (Stops v).
Proof.
  intros HS. unfold stopCurrent. look s Hs. destruct (v_child v) as [child|] eqn:Ec; cycle 1.
  { apply at_ret. split; try done; intros; congruence. }
  assert (Hc : v_child v <> None) by congruence.
  apply (at_spec v _ _ (fun _ v' => v_set_watch (observe (v_watch v') (EvStop child None)) v' = halting v)).
  { pose proof (sane_watch _ HS) as Hw. unfold when. destruct (v_stopping v) eqn:E; cbn [negb].
    - apply at_ret. rewrite Hw. cbn. unfold alive. cbn. rewrite bool_decide_true by done. cbn.
      rewrite halting_again by done. rewrite <- Hw. by destruct v.
    - eapply at_acts_end; [apply acts_begin_stop|intros _]. cbn. rewrite Hw. cbn. unfold alive. cbn.
      by rewrite bool_decide_true. }
  intros _ v1 Hv1. apply at_silent; [apply silent_ask|intros err]. take.
  assert (He : observe (v_watch v1) (EvStop child err) = observe (v_watch v1) (EvStop child None)) by done.
  rewrite He, Hv1. clear He Hv1 v1. pose proof (halting_sane v HS Hc) as HS'.
  destruct err as [err|].
  - apply (at_spec _ _ _ (fun r v' => r = Some err /\ Stops v (Some err) v')).
    + apply at_silent; [apply silent_ask|intros [|]]; [|by apply at_silent; [silent|intros _]; apply at_ret; split; [|apply halting_stops]].
      apply (at_spec _ _ _ (fun _ v' => Stops v (Some err) v')); [|by intros _ v' H; apply at_ret].
      apply at_reap; [done..|].
      eapply at_weaken; [apply at_continueAfterStop; [by apply stopped_sane|done]|].
      cbv beta. intros _ v1 H. by eapply continues_stops.
    + intros r v' [-> H]. cbn [is_some when]. skip. by apply at_ret.
  - eapply at_spec; [by apply at_awaitStop|]. intros [err|] v' ->; cbn [is_some when]; [skip|].
    + by apply at_ret, halting_stops.
    + apply at_silent; [silent|intros _]. by apply at_ret, stopped_stops.
Qed.
End Lifecycle.

(** ** Failures *)

(** The sessions are gone, and the plugin is covered whatever it was. *)
Definition settled (v v' : View) : Prop := Kept v v' /\ Monitored v' /\ Covered v' /\ v_sessions v' = ∅.

Definition requeue (b : bool) (action : postStopAction) (v : View) : View :=
  if b then v_set_run (v_child v) (v_stopping v)
         (match action, v_post v with postStopRetry, _ | _, postStopNone => action | _, post => post end) v
  else v.

Lemma requeue_sane b action v : Sane v -> Sane (requeue b action v).
Proof. intros [H1 H2 H3 H4 H5 H6 H7 H8]. by destruct b. Qed.
Lemma requeue_child b action v : v_child (requeue b action v) = v_child v.
Proof. by destruct b. Qed.
Lemma requeue_kept b action v : kept v (requeue b action v).
Proof. by destruct b. Qed.
Lemma requeue_post action v : action <> postStopNone -> v_post (requeue true action v) <> postStopNone.
Proof. intros H. cbn. by destruct action, (v_post v). Qed.
Lemma requeue_sessions b action v : v_sessions (requeue b action v) = v_sessions v.
Proof. by destruct b. Qed.
Lemma requeue_monitored b action v : Monitored v -> Monitored (requeue b action v).
Proof. by destruct b. Qed.
Lemma requeue_covered b action v : action <> postStopNone -> Covered v -> Covered (requeue b action v).
Proof.
  intros Ha H. destruct b; [|done]. intros Hd Hr. destruct (H Hd Hr) as [Hq|[Ht|[Hc Hp]]]; cbn; [by left|by right; left|].
  right; right. split; [done|]. intros _. by apply requeue_post.
Qed.

Section Failures.
Context {W : Type} (calls : Calls W).
Notation action := (action W).

Lemma acts_requeue (b : bool) todo :
  acts (W := W) (upd (if b then queuePostStop todo else id)) (requeue b todo).
Proof.
  apply acts_upd. intros s watch. destruct b; [|done]. unfold queuePostStop, requeue, view_of, sv_postStop, sv_stopping, sv_child. cbn.
  destruct todo, (ru_postStop (sv_run s)) eqn:E; cbn; by rewrite ?E.
Qed.

Lemma at_failAmbiguous code reason v : Sane v -> v_child v <> None -> v_desired v = true ->
  triple (here v) (failAmbiguousLifecycle calls code reason) (fun _ v' => settled v v').
Proof.
  intros HS Hc Hd. unfold failAmbiguousLifecycle.
  eapply at_spec; [by apply at_invalidateSessions|intros _ v1 ->].
  eapply at_spec; [by apply at_stopCurrent, with_sessions_sane|]. intros err v2 [K S D M _ _ _ _]. take.
  assert (Hd2 : v_desired v2 = true) by (by destruct K as [-> _]).
  assert (Hm : Monitored (failed v2)) by (by apply failed_monitored, M).
  pose proof (failed_covered v2 S) as Hcov.
  assert (He : v_sessions (failed v2) = ∅) by (unfold failed; by destruct (v_stopping v2)).
  split_and!; [|done..]. split; [|by apply failed_sane| |done|done].
  - eapply kept_trans; [|apply failed_kept]. by eapply kept_trans; [|exact K].
  - rewrite He. apply map_empty_subseteq.
Qed.

Lemma at_failClosed v : Sane v -> v_child v <> None ->
  triple (here v) (failClosedSessionCleanup calls) (fun _ v' => settled v v').
Proof.
  intros HS Hc. unfold failClosedSessionCleanup.
  eapply at_spec; [by apply at_invalidateSessions|intros _ v1 ->]. look s Hs. set (v1 := with_sessions ∅ v).
  eapply at_acts; [apply acts_requeue|intros _].
  assert (HS1 : Sane (requeue (v_resident v1) postStopRestart v1)) by (by apply requeue_sane, with_sessions_sane).
  eapply at_spec; [by apply at_stopCurrent|]. intros err v2 [K S D M Hst _ Co _].
  rewrite requeue_child in M, Hst. rewrite requeue_sessions in D.
  pose proof (kept_trans v1 _ v2 (requeue_kept (v_resident v1) postStopRestart v1) K) as K2. change (kept v v2) in K2.
  assert (Hsub : v_sessions v2 ⊆ v_sessions v) by (rewrite D; apply map_empty_subseteq).
  destruct err as [err|].
  - apply at_ret. assert (Hcov : Covered v2).
    { apply Co; [done|]. intros Hr. rewrite (kept_resident v1) in Hr by apply requeue_kept. rewrite Hr. by apply requeue_post. }
    split_and!; [|by apply M|done|done]. split; [done|done|done|by intros _; apply M|done].
  - change (v_resident v1) with (v_resident v). rewrite <- (kept_resident v v2 K2). destruct (Hst eq_refl Hc) as [Hc2 _]. destruct (v_resident v2) eqn:Er.
    + eapply at_spec; [by apply at_startChild|]. intros result v3 ([K3 S3 D3 M3 C3] & E3 & Cov & _). apply at_ret.
      destruct (Cov Hc2) as [Cov3 Mon3]. split_and!; [|done|done|by rewrite E3, D].
      split; [by eapply kept_trans|done|by rewrite E3|done|done].
    + apply at_ret. pose proof (not_resident_covered v2 Er). split_and!; [|by apply M|done|done].
      split; [done|done|done|by intros _; apply M|done].
Qed.
End Failures.
