(* ===== verification/SupervisorCommands.v ===== *)
(** * The commands of a supervisor keep its invariant

    The clean-up of sessions, the commands, the timers and the exits of [Supervisor] keep
    the invariant of [SupervisorSafe], and so every state that a supervisor reaches has it. *)

From Stdlib Require Import ZArith Lia.
From S2P Require Import Prelude GoStrings GoTime Identifier Protocol Presentation ProtocolSession Engine.
From S2P Require Import SessionCoordinator SessionRuntime Supervisor SupervisorRuns SupervisorSafe.

(** ** The clean-ups that are owed *)

Definition owing (pending : list pendingSessionCleanup) (v : View) : View :=
  v_set_cleanups pending (owed_code pending) v.

Lemma owing_sane pending v :
  Sane v -> NoDup pending -> (length pending <= 256)%nat -> (pending <> [] -> v_child v <> None) -> Sane (owing pending v).
Proof. intros [H1 H2 H3 H4 H5 H6 H7 H8] Hn Hl Hc. by split. Qed.
Lemma owing_kept pending v : Sane (owing pending v) -> Kept v (owing pending v).
Proof. intros HS. by split. Qed.

Lemma remove_first_sublist x l : remove_first x l `sublist_of` l.
Proof.
  induction l as [|y l IH]; cbn; [done|]. case_bool_decide; [by apply sublist_cons|by apply sublist_skip].
Qed.

Section Cleanups.
Context {W : Type} (calls : Calls W).
Notation action := (action W).

Lemma existsb_pending cleanup (l : list pendingSessionCleanup) :
  existsb (fun pending => bool_decide (pending = cleanup)) l = true <-> cleanup ∈ l.
Proof.
  rewrite existsb_exists. split.
  - intros (x & Hx & Hb). apply bool_decide_eq_true in Hb as <-. by apply list_elem_of_In.
  - intros H. exists cleanup. split; [by apply list_elem_of_In|]. by apply bool_decide_eq_true.
Qed.

(** [setSessionCleanupError], [publish] and [emitSessionCleanup] when something is owed. *)
Lemma at_owing (k : action (option error)) v R : Sane v -> v_pending v <> [] ->
  triple (here (owing (v_pending v) v)) k R ->
  triple (here v) (_ ← setSessionCleanupError calls; k) R.
Proof. intros HS Hp Hk. take. unfold owing in Hk. by destruct (v_pending v). Qed.

Lemma at_enqueue cleanup v : Sane v -> triple (here v) (enqueueSessionCleanup calls cleanup) (fun _ v' => Kept v v').
Proof.
  intros HS. unfold enqueueSessionCleanup, hasPendingSessionCleanup. look s Hs.
  destruct (v_child v) as [child|] eqn:Ec; cbn [is_some negb]; [|by apply at_ret, Kept_refl].
  assert (Hc : v_child v <> None) by congruence.
  destruct (existsb _ (v_pending v)) eqn:Eh.
  { apply existsb_pending in Eh. assert (Hp : v_pending v <> []) by (intros E; rewrite E in Eh; by apply not_elem_of_nil in Eh).
    apply at_owing; [done..|]. skip. skip. apply at_ret, owing_kept. destruct HS. by apply owing_sane. }
  destruct (maxPendingSessionCleanups <=? _) eqn:Em.
  - assert (Hp : v_pending v <> []) by (intros E; by rewrite E in Em).
    apply at_owing; [done..|]. skip. skip.
    assert (HS' : Sane (owing (v_pending v) v)) by (destruct HS; by apply owing_sane).
    eapply at_spec; [by apply at_failClosed|]. intros _ v' [K _]. apply at_ret.
    eapply Kept_trans; [by apply owing_kept|exact K].
  - take_as (fun v => v_set_cleanups (v_pending v ++ [cleanup]) (v_code v) v).
    assert (HS' : Sane (owing (v_pending v ++ [cleanup]) v)).
    { destruct HS. apply owing_sane; [done| | |done].
      - apply NoDup_app. split_and!; [done| |apply NoDup_singleton]. intros x Hx ->%list_elem_of_singleton.
        apply existsb_pending in Hx. congruence.
      - rewrite length_app. cbn. unfold maxPendingSessionCleanups in Em. lia. }
    take. skip. skip. apply at_ret. 
    match goal with |- Kept _ ?v' => assert (Hv : v' = owing (v_pending v ++ [cleanup]) v) end.
    { unfold owing. cbn. by destruct (v_pending v). }
    rewrite Hv. by apply owing_kept.
Qed.

(** A call that the observer accepts because the child is alive, or usable. *)
Lemma at_alive {A} e child v (k : action A) R :
  Sane v -> v_child v = Some child -> (forall g, alive child g = true -> observe_one g e = Some g) ->
  triple (here v) k R -> triple (here v) (_ ← emit e; k) R.
Proof.
  intros HS Hc He Hk. take. rewrite watch_same; [done|done|]. apply He. unfold alive. cbn. by rewrite bool_decide_true.
Qed.
Lemma at_usable {A} e child v (k : action A) R :
  Sane v -> v_child v = Some child -> v_stopping v = false -> (forall g, usable child g = true -> observe_one g e = Some g) ->
  triple (here v) k R -> triple (here v) (_ ← emit e; k) R.
Proof.
  intros HS Hc Hst He Hk. take. rewrite watch_same; [done|done|]. apply He. unfold usable, alive. cbn.
  by rewrite bool_decide_true, Hst.
Qed.

Lemma at_call_EndSession {B} child cleanup v (k : option error -> action B) R :
  Sane v -> v_child v = Some child -> (forall err, triple (here v) (k err) R) ->
  triple (here v) (err ← call_EndSession calls child cleanup; k err) R.
Proof.
  intros HS Hc Hk. apply (at_spec _ _ _ (fun _ => here v)); [|by intros err v' ->].
  unfold call_EndSession. apply at_silent; [apply silent_ask|intros err].
  eapply at_alive; [done..|intros g Hg; cbn; by rewrite Hg|]. by apply at_ret.
Qed.

(** What is owed once some of it was delivered. *)
Lemma at_owed_less {A} pending v (k : action A) R : Sane v -> v_child v <> None -> pending `sublist_of` v_pending v ->
  (Sane (owing pending v) -> triple (here (owing pending v)) k R) ->
  triple (here (v_set_cleanups pending (v_code v) v)) (_ ← when (Nat.eqb (length pending) 0) clearSessionCleanupLifecycle; k) R.
Proof.
  intros [H1 H2 H3 H4 H5 H6 H7 H8] Hc Hsub Hk.
  assert (HS' : Sane (owing pending v)).
  { apply owing_sane; [by split|by eapply sublist_NoDup| |done]. pose proof (sublist_length _ _ Hsub). lia. }
  destruct pending as [|x pending]; cbn [length Nat.eqb when].
  - eapply at_acts; [apply acts_clearLifecycle|intros _]. by apply Hk.
  - apply at_silent; [silent|intros _]. rewrite H8. destruct (v_pending v) as [|y l]; [by apply sublist_nil_r in Hsub|]. by apply Hk.
Qed.

Lemma at_deliver cleanup v : Sane v -> Owned v -> triple (here v) (deliverSessionCleanup calls cleanup) (fun _ v' => Kept v v').
Proof.
  intros HS HO. unfold deliverSessionCleanup, hasPendingSessionCleanup. look s Hs.
  destruct (v_child v) as [child|] eqn:Ec; [|by apply at_ret, Kept_refl]. assert (Hc : v_child v <> None) by congruence.
  apply at_call_EndSession; [done..|]. intros [err|].
  - destruct (outcome_unknown err).
    + eapply at_spec; [apply at_failAmbiguous; [done|done|by apply HO]|]. intros _ v' [K _]. by apply at_ret.
    + look s2 Hs2. destruct (existsb _ (v_pending v)) eqn:Eh; cbn [negb].
      * apply existsb_pending in Eh. assert (Hp : v_pending v <> []) by (intros E; rewrite E in Eh; by apply not_elem_of_nil in Eh).
        apply at_owing; [done..|]. skip. apply at_ret, owing_kept. destruct HS. by apply owing_sane.
      * eapply at_spec; [by apply at_enqueue|]. intros queueErr v' K. by apply at_ret.
  - take_as (fun v => v_set_cleanups (remove_first cleanup (v_pending v)) (v_code v) v).
    look s2 Hs2. cbn [v_pending v_set_cleanups].
    eapply at_owed_less; [done|done|apply remove_first_sublist|]. intros HS'. skip. skip. by apply at_ret, owing_kept.
Qed.

Lemma at_retryPending v : Sane v -> Owned v -> triple (here v) (retryPendingSessionCleanup calls) (fun _ v' => Kept v v').
Proof.
  intros HS HO. unfold retryPendingSessionCleanup. look s Hs.
  destruct (v_pending v) as [|cleanup rest] eqn:Ep; [by apply at_ret, Kept_refl|].
  destruct (v_child v) as [child|] eqn:Ec; [|by destruct (sane_owed _ HS); rewrite ?Ep]. assert (Hc : v_child v <> None) by congruence.
  apply at_call_EndSession; [done..|]. intros [err|].
  - destruct (outcome_unknown err).
    + eapply at_weaken; [apply at_failAmbiguous; [done|done|by apply HO]|]. by intros a v' [K _].
    + take_as (fun v => v_set_cleanups (rest ++ [cleanup]) (v_code v) v). take. skip. skip.
      assert (Hperm : rest ++ [cleanup] ≡ₚ v_pending v) by (rewrite Ep; symmetry; apply Permutation_cons_append).
      assert (HS' : Sane (owing (rest ++ [cleanup]) v)).
      { pose proof HS as [H1 H2 H3 H4 H5 H6 H7 H8]. apply owing_sane; [done|by rewrite Hperm|by rewrite Hperm|done]. }
      match goal with |- Kept _ ?v' => assert (Hv : v' = owing (rest ++ [cleanup]) v) by (unfold owing; cbn; by destruct rest) end.
      rewrite Hv. by apply owing_kept.
  - take_as (fun v => v_set_cleanups rest (v_code v) v).
    eapply at_owed_less; [done|done|rewrite Ep; by apply sublist_cons|]. intros HS'. skip. skip. by apply owing_kept.
Qed.
End Cleanups.

(** ** Keeping the invariant *)

Lemma inv_sane v : Inv v -> Sane v.
Proof. by intros [H _]. Qed.
Lemma inv_owned v : Inv v -> Owned v.
Proof. by intros (_ & _ & H & _). Qed.
Lemma inv_tracked v : Inv v -> tracked v.
Proof. intros [H _]. apply sane_watch, H. Qed.
#[local] Hint Resolve inv_sane inv_owned inv_tracked : core.

Lemma inv_of v : Sane v -> Monitored v -> v_desired v = true -> Covered v -> Current v -> Inv v.
Proof. intros HS HM Hd HC HU. split_and!; [done|done|by intros _|done|done]. Qed.

Lemma inv_current v v' : Inv v -> kept v v' -> v_sessions v' ⊆ v_sessions v -> Current v'.
Proof. intros (_ & _ & _ & _ & HU) K D. by eapply kept_current. Qed.

Lemma settled_inv v v' : settled v v' -> Current v -> v_desired v = true -> Inv v'.
Proof.
  intros ([K S D _ _] & M & C & _) HU Hd. apply inv_of; [done|done|by destruct K as [-> _]|done|by eapply kept_current].
Qed.

Lemma starts_inv v result v' : starts v result v' -> Sane v -> Current v -> v_desired v = true ->
  (v_child v <> None -> Covered v /\ Monitored v) -> Inv v'.
Proof.
  intros ([K S D M C] & E & H & _) HS HU Hd Hc.
  apply inv_of; [done| |by destruct K as [-> _]| |by eapply kept_current].
  - destruct (v_child v) as [c|]; [by apply M, Hc|by apply H].
  - destruct (v_child v) as [c|]; [by apply C, Hc|by apply H].
Qed.

Lemma stops_current v err v' : Stops v err v' -> Current v -> Current v'.
Proof. intros [K S D M Hs Hi C U] HU. eapply kept_current; [exact K|by rewrite D|done]. Qed.

(** The child of a plugin that is not resident is stopped. *)
Lemma stops_inv v err v' : Stops v err v' -> Inv v -> v_resident v = false -> Inv v'.
Proof.
  intros HSt HI Hr. pose proof HSt as [K S D M Hs Hi C U]. destruct (v_child v) as [c|] eqn:Ec; [|by destruct (Hi eq_refl) as [_ ->]].
  assert (Hc : v_child v <> None) by congruence. pose proof HI as (_ & _ & HO & _ & HU).
  apply inv_of; [done|by apply M|destruct K as [-> _]; by apply HO| |by eapply stops_current].
  apply not_resident_covered. by rewrite (kept_resident v).
Qed.

(** [Stop] failed, and what follows is queued. *)
Lemma stops_failed_inv v err v' : Stops v (Some err) v' -> Current v -> v_desired v = true ->
  (v_resident v = true -> v_post v <> postStopNone) -> Inv v'.
Proof.
  intros HSt HU Hd Hp. pose proof HSt as [K S D M Hs Hi C U].
  assert (Hc : v_child v <> None) by (intros Hc; by destruct (Hi Hc)).
  apply inv_of; [done|by apply M|by destruct K as [-> _]|by apply C|by eapply stops_current].
Qed.

Lemma with_sessions_inv sessions v : Inv v -> sessions ⊆ v_sessions v -> Inv (with_sessions sessions v).
Proof.
  intros HI Hsub. pose proof HI as (HS & HM & HO & HC & HU). split_and!; [by apply with_sessions_sane|done|done|done|].
  by apply (kept_current v).
Qed.

(** A child that may be used covers the plugin. *)
Lemma child_covered v : v_child v <> None -> v_stopping v = false -> Covered v.
Proof. intros Hc Hs _ _. right; right. split; [done|congruence]. Qed.

Definition cleared (v : View) : View :=
  v_set_phase (if v_stopping v then PhaseStopping else if is_some (v_child v) then PhaseRunning else PhaseStopped) (v_set_retry false v).
Lemma cleared_sane v : Sane v -> Sane (cleared v).
Proof.
  intros [H1 H2 H3 H4 H5 H6 H7 H8]. split; cbn; try done.
  intros E. rewrite E. split; [by apply H2|done].
Qed.

Section Commands.
Context {W : Type} (calls : Calls W).
Notation action := (action W).

Lemma at_stop_idle v : Inv v -> v_resident v = false -> triple (here v) (stopCurrent calls) (fun _ v' => Inv v').
Proof. intros HI Hr. eapply at_weaken; [apply at_stopCurrent; auto|]. intros err v' H. by eapply stops_inv. Qed.

(** A call to the child of a supervisor that is not stopping is made to a child that is usable. *)
Lemma at_ensure_child v : Inv v -> v_desired v = true -> v_phase v <> PhaseStopping ->
  triple (here v) (ensure_child calls) (fun child v' => Inv v' /\ kept v v' /\ v_sessions v' ⊆ v_sessions v
    /\ forall c, child = Some c -> v_child v' = Some c /\ v_stopping v' = false).
Proof.
  intros HI Hd Hp. unfold ensure_child. look s Hs. destruct (v_child v) as [child|] eqn:Ec.
  - apply at_ret. split_and!; [done|done|done|]. intros c [= <-]. split; [done|].
    destruct (v_stopping v) eqn:E; [|done]. by destruct (sane_stopping _ (inv_sane _ HI) E).
  - eapply at_spec; [apply at_startChild; auto|]. intros result v' H. look s' Hs'. apply at_ret.
    pose proof H as ([K S D M C] & E & _ & Hr).
    split_and!; [|done|done|].
    + eapply starts_inv; [exact H|auto|by eapply inv_current|done|congruence].
    + intros c Hc. destruct result; [|done]. by destruct (Hr eq_refl).
Qed.

Lemma at_put_session id session v : Inv v -> v_generation id v = Some (ix_generation session) ->
  triple (W := W) (here v) (put_session id session) (fun _ v' => Inv v').
Proof.
  intros HI Hg. unfold put_session. look s Hs. case_bool_decide as Hheld; [by apply at_ret|].
  apply (at_spec _ _ _ (fun _ v' => v' = with_sessions (delete id (v_sessions v)) v)).
  { destruct (v_sessions v !! id) as [old|] eqn:Eo.
    - take. by apply dropped_sane; auto.
    - apply at_ret. rewrite delete_id by done. symmetry. apply with_sessions_same; auto. }
  intros _ v1 ->. take_as (fun v => v_set_sessions (<[id := session]> (v_sessions v)) v). take.
  match goal with |- Inv ?v' => assert (Hv : v' = with_sessions (<[id := session]> (v_sessions v)) v) end.
  { unfold with_sessions. cbn. rewrite lookup_delete_eq. cbn. by rewrite insert_delete_eq. }
  rewrite Hv. destruct HI as (HS & HM & HO & HC & HU). split_and!; [by apply with_sessions_sane|done|done|done|].
  intros i x Hi. cbn in Hi. apply lookup_insert_Some in Hi as [[<- <-]|[_ Hi]]; [done|by apply HU].
Qed.

Lemma at_stop_unused v : Inv v -> triple (here v) (stop_unused calls) (fun _ v' => Inv v').
Proof.
  intros HI. unfold stop_unused. look s Hs. destruct (negb (v_resident v) && _) eqn:E; [|by apply at_ret].
  apply andb_true_iff in E as [Hr%negb_true_iff _]. by apply at_stop_idle.
Qed.

Lemma at_open_session id previous current v : Inv v -> v_desired v = true ->
  v_generation id v = Some (ix_generation current) ->
  triple (here v) (open_session calls id previous current) (fun _ v' => Inv v').
Proof.
  intros HI Hd Hg. unfold open_session.
  apply (at_spec _ _ _ (fun _ v' => Inv v' /\ v_generation id v' = Some (ix_generation current))).
  { destruct previous as [old|]; [|by apply at_ret]. case_bool_decide; [by apply at_ret|].
    eapply at_weaken; [apply at_deliver; auto|]. intros err v' K. split; [by apply (Kept_inv v)|].
    destruct K as [[_ Hspec] _ _ _ _]. unfold v_generation. by rewrite Hspec. }
  intros err v' [HI' Hg']. destruct (match err with Some _ => _ | None => _ end); [by apply at_ret|].
  eapply at_spec; [by apply at_put_session|]. intros ? v2 H2. by apply at_ret.
Qed.

Lemma at_invoke_child child request generation token v : Inv v -> v_desired v = true -> v_child v = Some child ->
  v_stopping v = false -> v_generation (iq_InstanceID request) v = Some generation ->
  triple (here v) (invoke_child calls child request generation token) (fun _ v' => Inv v').
Proof.
  intros HI Hd Hc Hst Hg. unfold invoke_child. look s Hs. apply at_silent; [apply silent_ask|intros err].
  eapply at_usable; [auto|done|done|intros g Hu; cbn; by rewrite Hu|].
  destruct err as [err|]; [|by apply at_open_session].
  apply (at_spec _ _ _ (fun _ v' => Inv v')).
  { destruct (outcome_unknown err); [|by apply at_silent_end; [apply silent_setError|]]. eapply at_weaken; [apply at_failAmbiguous; auto; congruence|].
    intros a v' H. eapply settled_inv; [exact H|by eapply inv_current|done]. }
  intros _ v' HI'. eapply at_spec; [by apply at_stop_unused|]. intros e v2 H2. by apply at_ret.
Qed.

Lemma unavailable_phase s v : Sees s v -> unavailable s = false -> v_phase v <> PhaseStopping.
Proof.
  intros Hs H. unfold unavailable in H. rewrite (se_phase _ _ Hs) in H. intros E. by rewrite E in H.
Qed.
Lemma instance_generation s v id : Sees s v -> instanceGeneration id s = v_generation id v.
Proof. intros Hs. unfold instanceGeneration. by rewrite (se_spec _ _ Hs). Qed.
Lemma kept_generation v v' id : kept v v' -> v_generation id v' = v_generation id v.
Proof. intros [_ H]. unfold v_generation. by rewrite H. Qed.

Lemma at_invoke request kind token v : Inv v -> triple (here v) (invoke calls request kind token) (fun _ v' => Inv v').
Proof.
  intros HI. unfold invoke. look s Hs. cbv zeta.
  destruct (v_desired v) eqn:Hd; cbn [negb]; [|by apply at_ret].
  destruct (negb (kind =s _)); [by apply at_ret|]. destruct (token =s EmptyString); [by apply at_ret|].
  destruct (unavailable s) eqn:Hu; [by apply at_ret|]. rewrite (instance_generation _ _ _ Hs). cbn [iq_InstanceID iq_Generation].
  destruct (v_generation _ v) as [generation|] eqn:Hg; [|by apply at_ret].
  destruct ((iq_Generation request =? 0) || _) eqn:Eg; [by apply at_ret|].
  eapply at_spec; [apply at_ensure_child; [done|done|by eapply unavailable_phase]|].
  intros [child|] v' (HI' & K & _ & Hc); [|by apply at_ret]. destruct (Hc child eq_refl) as [Hc1 Hc2].
  apply at_invoke_child; [done|by destruct K as [-> _]|done|done|]. cbn. by rewrite (kept_generation v).
Qed.

Lemma at_operation request v : Inv v -> triple (here v) (operation calls request) (fun _ v' => Inv v').
Proof.
  intros HI. unfold operation. look s Hs. cbv zeta.
  destruct (v_desired v) eqn:Hd; cbn [negb orb]; [|by apply at_ret].
  destruct (unavailable s) eqn:Hu; [by apply at_ret|].
  destruct (instanceGeneration _ s) as [generation|]; [|by apply at_ret]. destruct (_ || _); [by apply at_ret|].
  eapply at_spec; [apply at_ensure_child; [done|done|by eapply unavailable_phase]|].
  intros [child|] v' (HI' & K & _ & Hc); [|by apply at_ret]. destruct (Hc child eq_refl) as [Hc1 Hc2].
  apply at_silent; [apply silent_ask|intros [result err]].
  eapply at_usable; [auto|done|done|intros g Hg; cbn; by rewrite Hg|]. skip. look s' Hs'.
  destruct (negb (v_resident v') && _) eqn:E; [|by apply at_ret]. apply andb_true_iff in E as [Hr%negb_true_iff _].
  eapply at_spec; [by apply at_stop_idle|]. intros e v2 H2. by apply at_ret.
Qed.

(** A session is dropped because it is the one that is held. *)
Lemma at_drop_held target token why v : Inv v -> v_sessions v !! ref_ID target = Some (mkInteractiveSession (ref_Generation target) token) ->
  triple (W := W) (here v) (drop_session (ref_ID target) (mkInteractiveSession (ref_Generation target) token) why)
    (fun _ v' => Inv v' /\ kept v v').
Proof.
  intros HI Hheld. take. rewrite dropped_sane by auto. split; [|done]. apply with_sessions_inv; [done|apply delete_subseteq].
Qed.

Lemma at_stop_or_publish {A} (v : View) (stopping still : action A) : Inv v ->
  (v_resident v = false -> triple (here v) stopping (fun _ v' => Inv v')) -> triple (here v) still (fun _ v' => Inv v') ->
  triple (here v) (s ← get; if has_child s && negb (resident s) && no_sessions s then stopping else still) (fun _ v' => Inv v').
Proof.
  intros HI H1 H2. look s Hs. destruct (is_some (v_child v) && negb (v_resident v) && _) eqn:E; [|done].
  apply andb_true_iff in E as [[_ Hr%negb_true_iff]%andb_true_iff _]. by apply H1.
Qed.

Lemma holds_session_held s v target token : Sees s v -> holds_session target token s = true ->
  v_sessions v !! ref_ID target = Some (mkInteractiveSession (ref_Generation target) token).
Proof. intros Hs H. unfold holds_session in H. rewrite (se_sessions _ _ Hs) in H. by apply bool_decide_eq_true in H. Qed.

Lemma at_endSession target token v : Inv v -> triple (here v) (endSession calls target token) (fun _ v' => Inv v').
Proof.
  intros HI. unfold endSession. look s Hs. apply (at_spec _ _ _ (fun _ v' => Inv v')).
  - destruct (holds_session target token s) eqn:Eh; [|by apply at_ret].
    eapply at_spec; [apply at_drop_held; [done|by eapply holds_session_held]|]. intros _ v1 [HI1 _]. look s1 Hs1.
    destruct (v_child v1) as [c|] eqn:Ec; cbn [is_some]; [|by apply at_ret]. cbv zeta.
    assert (Hd : v_desired v1 = true) by (apply (inv_owned _ HI1); congruence).
    apply at_silent; [apply silent_ask|intros [ctxErr|]].
    + eapply at_spec; [apply at_enqueue; auto|]. intros e v2 K. by apply at_ret, (Kept_inv v1).
    + eapply at_weaken; [apply at_deliver; auto|]. intros e v2 K. by apply (Kept_inv v1).
  - intros endErr v1 HI1. apply at_stop_or_publish; [done| |].
    + intros Hr. eapply at_spec; [by apply at_stop_idle|]. intros e v2 H2. by apply at_ret.
    + skip. by apply at_ret.
Qed.

Lemma at_completeSession target token v : Inv v -> triple (here v) (completeSession calls target token) (fun _ v' => Inv v').
Proof.
  intros HI. unfold completeSession. destruct (token =s EmptyString); [by apply at_ret|]. look s Hs. cbv zeta.
  apply (at_spec _ _ _ (fun _ v' => Inv v')).
  - destruct (holds_session target token s) eqn:Eh; cbn [when]; [|by apply at_ret].
    eapply at_weaken; [apply at_drop_held; [done|by eapply holds_session_held]|]. by intros a v1 [HI1 _].
  - intros _ v1 HI1. apply at_stop_or_publish; [done| |].
    + intros Hr. eapply at_spec; [by apply at_stop_idle|]. intros e v2 H2. by apply at_ret.
    + skip. by apply at_ret.
Qed.

Lemma at_handleCompletion target token v : Inv v -> triple (here v) (handleCompletion calls target token) (fun _ v' => Inv v').
Proof.
  intros HI. unfold handleCompletion. eapply at_spec; [by apply at_completeSession|]. intros [changed err] v1 HI1.
  apply at_silent; [destruct changed, (ca_SessionCompleted calls); silent|intros _]. by apply at_ret.
Qed.

Lemma at_sessionInput request v : Inv v -> triple (here v) (sessionInput calls request) (fun _ v' => Inv v').
Proof.
  intros HI. unfold sessionInput. look s Hs. cbv zeta.
  destruct (v_desired v) eqn:Hd; [|by apply at_ret]. destruct (v_child v) as [child|] eqn:Ec; [|by apply at_ret].
  case_bool_decide as Hp; [by apply at_ret|]. destruct (holds_session _ _ s) eqn:Eh; cbn [negb]; [|by apply at_ret].
  assert (Hst : v_stopping v = false).
  { destruct (v_stopping v) eqn:E; [|done]. by destruct (sane_stopping _ (inv_sane _ HI) E). }
  apply at_silent; [apply silent_ask|intros [result err]].
  eapply at_usable; [auto|done|done|intros g Hg; cbn; by rewrite Hg|]. destruct err as [err|]; [|by apply at_ret].
  apply (at_spec _ _ _ (fun _ v' => Inv v')); [|intros _ v' H; by apply at_ret].
  destruct (outcome_unknown err).
  - eapply at_weaken; [apply at_failAmbiguous; auto; congruence|].
    intros a v' H. eapply settled_inv; [exact H|by eapply inv_current|done].
  - skip. take. rewrite dropped_sane; [|auto|by eapply holds_session_held].
    assert (HI1 : Inv (with_sessions (delete (ref_ID (sq_Instance request)) (v_sessions v)) v)).
    { apply with_sessions_inv; [done|apply delete_subseteq]. }
    look s1 Hs1. destruct (v_resident _) eqn:Er; cbn [negb]; [by apply at_ret|].
    eapply at_spec; [by apply at_stop_idle|]. intros e v2 H2. by apply at_ret.
Qed.
End Commands.

(** ** Changes of the specification, timers and exits *)

(** Either the plugin is covered, or its child was just stopped. *)
Definition Ready (v : View) : Prop := Covered v \/ (v_child v = None /\ v_phase v = PhaseStopped).

Section Reconcile.
Context {W : Type} (calls : Calls W).
Notation action := (action W).

Lemma at_replaceChild {B} child v (k : option error -> action B) R :
  Sane v -> v_child v = Some child -> v_stopping v = false -> (forall err, triple (here v) (k err) R) ->
  triple (here v) (err ← replaceChildInstances calls child; k err) R.
Proof.
  intros HS Hc Hst Hk. apply (at_spec _ _ _ (fun _ => here v)); [|by intros err v' ->].
  unfold replaceChildInstances. look s Hs. apply (at_spec _ _ _ (fun _ => here v)).
  - unfold call_ReplaceInstances. apply at_silent; [apply silent_ask|intros err].
    eapply at_usable; [done..|intros g Hg; cbn; by rewrite Hg|]. by apply at_ret.
  - intros [err|] v' ->; [by apply at_ret|]. skip. apply at_silent; [|intros _; by apply at_ret].
    apply silent_upd. reflexivity.
Qed.

Lemma at_replace_failed err v : Inv v -> v_child v <> None -> v_stopping v = false -> v_desired v = true ->
  triple (here v) (replace_failed calls err) (fun _ v' => Inv v').
Proof.
  intros HI Hc Hst Hd. pose proof HI as (HS & HM & _ & _ & HU). unfold replace_failed. destruct (outcome_unknown err).
  { eapply at_weaken; [by apply at_failAmbiguous|]. intros a v' H. by apply (settled_inv v). }
  destruct (isPermanentConfiguration err); take.
  - by apply inv_of; [apply quarantined_sane| | |apply quarantined_covered|].
  - apply inv_of; [by apply failed_sane|by apply failed_monitored|by destruct (failed_kept v) as [-> _]|by apply failed_covered|].
    apply (kept_current v); [apply failed_kept|unfold failed; by destruct (v_stopping v)|done].
Qed.

(** The instances were replaced: failures are forgotten. *)
Lemma at_replaced {B} v (k : action B) R : Inv v -> v_child v <> None -> v_stopping v = false ->
  (Inv (cleared v) -> triple (here (cleared v)) k R) -> triple (here v) (_ ← clearFailures; k) R.
Proof.
  intros (HS & HM & HO & _ & HU) Hc Hst Hk. take. apply Hk. split_and!; [by apply cleared_sane|done|done| |done].
  by apply child_covered.
Qed.

(** The end of [apply_instances]. *)
Lemma at_apply_end v : Sane v -> Monitored v -> v_desired v = true -> Current v -> Ready v ->
  (v_child v <> None -> v_stopping v = false) ->
  triple (here v)
    (s ← get;
     _ ← when (has_child s) (retryPendingSessionCleanup calls);
     s ← get;
     if has_child s && negb (resident s) && no_sessions s then stopCurrent calls
     else
       _ ← (if negb (has_child s) && wantsChild s && negb (bool_decide (sv_phase s = PhaseBackoff))
                 && negb (bool_decide (sv_phase s = PhaseQuarantined))
            then _ ← startChild calls; mret tt else publish);
       mret None)
    (fun _ v' => Inv v').
Proof.
  intros HS HM Hd HU HR Hst. look s Hs.
  apply (at_spec _ _ _ (fun _ v' => Sane v' /\ Monitored v' /\ v_desired v' = true /\ Current v' /\ Ready v')).
  { destruct (v_child v) as [c|] eqn:Ec; cbn [is_some when]; [|by apply at_ret].
    assert (Hc : v_child v <> None) by congruence.
    eapply at_weaken; [apply at_retryPending; [done|by intros _]|]. intros a v' [K S D M C].
    split_and!; [done|auto|by destruct K as [-> _]|by eapply kept_current|]. left. apply C, child_covered; auto. }
  intros _ v1 (HS1 & HM1 & Hd1 & HU1 & HR1). look s1 Hs1.
  destruct (is_some (v_child v1) && negb (v_resident v1) && _) eqn:E.
  { apply andb_true_iff in E as [[Hc Hr%negb_true_iff]%andb_true_iff _]. apply at_stop_idle; [|done].
    apply inv_of; [done..| |done]. by apply not_resident_covered. }
  destruct (negb (is_some (v_child v1)) && v_wants v1 && _ && _) eqn:E2.
  - apply (at_spec _ _ _ (fun _ v' => Inv v')); [|intros ? v' H; by apply at_ret].
    eapply at_spec; [by apply at_startChild|]. intros result v2 H. apply at_ret.
    eapply starts_inv; [exact H|done..|]. intros Hc. exfalso. destruct (v_child v1); [by cbn in E2|done].
  - skip. apply at_ret. apply inv_of; [done..| |done]. intros _ Hr. destruct HR1 as [HC|[Hc Hp]]; [by apply HC|].
    exfalso. rewrite Hc, Hp in E2. cbn in E2. unfold v_wants in E2. by rewrite Hr in E2.
Qed.

Lemma at_apply_instances spec v : Sane v -> Monitored v -> v_desired v = true -> Current v -> Ready v ->
  (v_child v <> None -> v_stopping v = false) ->
  triple (here v) (apply_instances calls spec) (fun _ v' => Inv v').
Proof.
  intros HS HM Hd HU HR Hst. unfold apply_instances. look s Hs.
  apply (at_spec _ _ _ (fun r v' => match r with Some _ => Inv v' | None =>
    Sane v' /\ Monitored v' /\ v_desired v' = true /\ Current v' /\ Ready v' /\ (v_child v' <> None -> v_stopping v' = false) end)).
  - destruct (v_child v) as [child|] eqn:Ec; [|by apply at_ret]. assert (Hc : v_child v <> None) by congruence.
    destruct (instances_differ spec s); [|by apply at_ret; split_and!; auto].
    assert (HI : Inv v) by (apply inv_of; auto; apply child_covered; auto).
    apply at_replaceChild; [auto..|]. intros [err|].
    + eapply at_spec; [apply at_replace_failed; auto|]. intros ? v' H. by apply at_ret.
    + apply at_replaced; [done..|auto|]. intros (HS' & HM' & _ & HC' & HU'). apply at_ret.
      split_and!; [done|done|done|done|by left|by intros _; apply Hst].
  - intros [err|] v'; [intros H; by apply at_ret|]. intros (HS' & HM' & Hd' & HU' & HR' & Hst'). by apply at_apply_end.
Qed.

(** [apply] goes on unless [Stop] failed. *)
Definition going (err : option error) (v : View) : Prop :=
  match err with
  | Some _ => Inv v
  | None => Sane v /\ Monitored v /\ v_desired v = true /\ Current v /\ Ready v /\ v_stopping v = false
  end.

(** The child is stopped so that another is started. *)
Lemma at_requeue_stop b v : Sane v -> v_desired v = true -> Current v -> v_child v <> None -> (v_resident v = true -> b = true) ->
  triple (here v) (_ ← upd (if b then queuePostStop postStopRestart else id); stopCurrent calls) going.
Proof.
  intros HS Hd HU Hc Hb. eapply at_acts; [apply acts_requeue|intros _].
  eapply at_weaken; [by apply at_stopCurrent, requeue_sane|].
  intros err v' HSt. pose proof HSt as [K S D M Hst Hi C U]. rewrite requeue_child in M, Hst.
  assert (HU2 : Current v').
  { eapply stops_current; [exact HSt|]. apply (kept_current v); [apply requeue_kept|by rewrite requeue_sessions|done]. }
  assert (K2 : kept v v') by (eapply kept_trans; [apply requeue_kept|exact K]).
  assert (Hd2 : v_desired v' = true) by (by destruct K2 as [-> _]).
  destruct err as [err|].
  - apply inv_of; [done|by apply M|done| |done]. apply C; [done|].
    intros Hr. rewrite (kept_resident v) in Hr by apply requeue_kept. rewrite (Hb Hr). by apply requeue_post.
  - destruct (Hst eq_refl Hc) as [Hc2 Hp2]. split_and!; [done|by apply M|done|done|by right|by apply no_child_running].
Qed.

Lemma wants_resident v : v_resident v = true -> v_wants v = true.
Proof. intros H. unfold v_wants. by rewrite H. Qed.

Lemma at_going (m : action (option error)) (k : action (option error)) v :
  triple (here v) m going -> (forall v', going None v' -> triple (here v') k (fun _ v' => Inv v')) ->
  triple (here v) (err ← m; match err with Some err => mret (Some err) | None => k end) (fun _ v' => Inv v').
Proof. intros Hm Hk. eapply at_spec; [exact Hm|]. intros [err|] v' H; [by apply at_ret|by apply Hk]. Qed.

(** What [apply] reaches before it looks at the child. *)
Definition desiring (changed : bool) (spec : Spec) (v : View) : View :=
  v_set_desired true spec (if changed then cleared v else v).

Lemma desiring_sane changed spec v : Sane v -> Sane (desiring changed spec v).
Proof.
  intros HS. assert (H : Sane (if changed then cleared v else v)) by (destruct changed; [by apply cleared_sane|done]).
  destruct H as [H1 H2 H3 H4 H5 H6 H7 H8]. split; cbn; try done. intros [_ Hp]%H4. by split.
Qed.

Lemma desiring_ready changed spec sessions v : Inv v -> changed = negb (v_desired v) || negb (bool_decide (v_spec v = spec)) ->
  v_stopping v = false -> Ready (with_sessions sessions (desiring changed spec v)).
Proof.
  intros (HS & HM & HO & HC & HU) -> Hst. destruct (negb (v_desired v) || _) eqn:E.
  - destruct (v_child v) as [c|] eqn:Ec; [left|right].
    + by apply child_covered; cbn; rewrite ?Ec.
    + by cbn; rewrite Hst, Ec.
  - left. apply orb_false_iff in E as [Hd%negb_false_iff Hs%negb_false_iff%bool_decide_eq_true].
    intros _ Hr. apply HC; [done|]. unfold v_resident in *. by rewrite Hs.
Qed.

Lemma at_apply_startup old spec v : going None v ->
  triple (here v)
    (s ← get;
     err ← (if has_child s && startupChanged old spec then
              _ ← invalidateSessions calls SessionInvalidatedReplaced;
              s ← get;
              _ ← upd (if wantsChild s then queuePostStop postStopRestart else id);
              stopCurrent calls
            else mret None);
     match err with Some err => mret (Some err) | None => apply_instances calls spec end)
    (fun _ v' => Inv v').
Proof.
  intros HG. look s Hs. apply at_going.
  - destruct (is_some (v_child v) && startupChanged old spec) eqn:E; [|by apply at_ret].
    apply andb_true_iff in E as [Hc _]. destruct HG as (HS & HM & Hd & HU & HR & Hst).
    eapply at_spec; [by apply at_invalidateSessions|intros _ v1 ->]. look s1 Hs1.
    apply at_requeue_stop; [by apply with_sessions_sane|done| |cbn; by destruct (v_child v)|apply wants_resident].
    apply (kept_current v); [done|apply map_empty_subseteq|done].
  - intros v1 (HS1 & HM1 & Hd1 & HU1 & HR1 & Hst1). by apply at_apply_instances.
Qed.

Lemma at_apply spec v : Inv v -> triple (here v) (apply calls spec) (fun _ v' => Inv v').
Proof.
  intros HI. unfold apply. look s Hs. cbv zeta. set (changed := negb (v_desired v) || _).
  apply (at_spec _ _ _ (fun _ => here (if changed then cleared v else v))).
  { destruct changed; cbn [when]; [by take|by apply at_ret]. }
  intros _ v1 ->. take_as (v_set_desired true spec). change (v_set_desired _ _ _) with (desiring changed spec v).
  pose proof (desiring_sane changed spec v (inv_sane _ HI)) as HS.
  eapply at_spec; [by apply at_pruneSessions|]. intros _ v3 (m & -> & _ & HU). look s3 Hs3.
  apply with_sessions_sane with (sessions := m) in HS. set (v3 := with_sessions m _) in *.
  assert (HM : Monitored v3) by (destruct HI as (_ & HM & _); unfold v3, desiring; by destruct changed).
  assert (Hst : v_stopping v3 = v_stopping v) by (unfold v3, desiring; by destruct changed).
  apply at_going; [|intros v4 HG; by apply at_apply_startup].
  destruct (v_stopping v3) eqn:E.
  - apply at_requeue_stop; [done|done|done|by apply (sane_stopping _ HS)|apply wants_resident].
  - apply at_ret. split_and!; [done|done|done|done|by apply desiring_ready|done].
Qed.

Lemma acts_set_postStop (wanted : bool) :
  acts (W := W) (upd (if wanted then set_postStop postStopRestart else id))
    (fun v => v_set_run (v_child v) (v_stopping v) (if wanted then postStopRestart else v_post v) v).
Proof. apply acts_upd. by destruct wanted. Qed.

Lemma at_restart v : Inv v -> triple (here v) (restart calls) (fun _ v' => Inv v').
Proof.
  intros HI. pose proof HI as (HS & HM & HO & HC & HU). unfold restart. look s Hs.
  destruct (v_desired v) eqn:Hd; cbn [negb]; [|by apply at_ret]. destruct (_ && (le_code _ =s _)); [by apply at_ret|].
  eapply at_acts; [apply acts_clearFailures|intros _]. cbv beta. fold (cleared v).
  eapply at_spec; [by apply at_invalidateSessions, cleared_sane|intros _ v1 ->]. look s1 Hs1. cbv zeta.
  set (v1 := with_sessions ∅ (cleared v)). change (v_resident v1) with (v_resident v).
  assert (HS1 : Sane v1) by (by apply with_sessions_sane, cleared_sane).
  assert (HU1 : Current v1) by (apply (kept_current v); [done|apply map_empty_subseteq|done]).
  eapply at_spec with (Q := fun err v' => match err with Some _ => Inv v' | None =>
    Sane v' /\ Current v' /\ v_desired v' = true /\ v_child v' = None /\ v_resident v' = v_resident v end).
  - destruct (v_child v1) as [c|] eqn:Ec; cbn [is_some]; [|by apply at_ret].
    assert (Hc : v_child v1 <> None) by congruence.
    eapply at_acts; [apply acts_set_postStop|intros _]. cbv beta.
    match goal with |- triple (here ?v2) _ _ => assert (HS2 : Sane v2) by (destruct HS1; by split) end.
    eapply at_weaken; [by apply at_stopCurrent|]. intros [err|] v' HSt.
    + eapply stops_failed_inv; [exact HSt|done|done|]. cbn. change (v_resident _) with (v_resident v). by intros ->.
    + pose proof HSt as [K S D M Hst Hi C U]. split_and!; [done|by eapply stops_current|by destruct K as [-> _]| |by rewrite (kept_resident _ _ K)].
      by apply Hst.
  - intros [err|] v'; [intros HI'; by apply at_ret|]. intros (HS' & HU' & Hd' & Hc' & Hr').
    apply (at_spec _ _ _ (fun _ v' => Inv v')); [|intros _ v2 H; by apply at_ret].
    destruct (v_resident v) eqn:Er.
    + eapply at_spec; [by apply at_startChild|]. intros result v2 H. apply at_ret. by eapply starts_inv.
    + take_as (v_set_phase PhaseStopped). skip.
      apply inv_of; [apply phase_sane; [done|by apply no_child_running|done]|by apply no_child_monitored|done|by apply not_resident_covered|done].
Qed.

Lemma at_handleHealth v : Inv v -> triple (here (v_set_health false v)) (handleHealth calls) (fun _ v' => Inv v').
Proof.
  intros (HS & HM & HO & HC & HU). set (v0 := v_set_health false v).
  assert (HS0 : Sane v0) by (destruct HS; by split).
  assert (Hidle : (v_child v0 <> None -> v_stopping v0 = true) -> Inv v0).
  { intros H. split_and!; [done| |done|done|done]. intros Hc Hst. rewrite H in Hst; done. }
  unfold handleHealth. look s Hs. destruct (v_desired v0) eqn:Hd; cbn [negb orb]; cycle 1.
  { apply at_ret, Hidle. intros Hc. apply HO in Hc. change (v_desired v0 = true) in Hc. congruence. }
  destruct (v_child v0) as [c0|] eqn:Ec0; cbn [is_some negb]; [|by apply at_ret, Hidle].
  eapply at_spec; [apply at_retryPending; [done|by intros _]|]. intros _ v1 [K1 S1 D1 M1 C1]. look s1 Hs1.
  assert (Hd1 : v_desired v1 = true) by (by destruct K1 as [-> _]).
  assert (HU1 : Current v1) by (by eapply (kept_current v0)).
  destruct (v_child v1) as [child|] eqn:Ec; [|apply at_ret, inv_of; [done|by apply no_child_monitored|done|by apply C1|done]].
  assert (Hc : v_child v1 <> None) by congruence.
  destruct (v_stopping v1) eqn:Est; [apply at_ret, inv_of; [done|intros _; congruence|done|by apply C1|done]|].
  apply at_silent; [apply silent_ask|intros result]. eapply at_usable; [done..|intros g Hg; cbn; by rewrite Hg|].
  assert (Hrun : forall phase, phase <> PhaseQuarantined -> Inv (v_set_health true (v_set_phase phase v1))).
  { intros phase Hp. pose proof (phase_sane phase v1 S1 Est Hp) as [H1 H2 H3 H4 H5 H6 H7 H8].
    apply inv_of; [by split|by intros _ _|done|by apply child_covered|done]. }
  destruct result as [result|err].
  - skip. skip.
    eapply (at_acts _ _ (v_set_phase (if hr_Healthy result then PhaseRunning else PhaseUnhealthy))).
    { apply acts_upd. intros s' watch. destruct (hr_Healthy result); [destruct (le_code _ =s _)|]; reflexivity. }
    intros _. take. apply Hrun. by destruct (hr_Healthy result).
  - skip. apply at_get. intros s2 Hs2. destruct (he_misses (sv_health s2) <? 3).
    + take. destruct (S1) as [H1 H2 H3 H4 H5 H6 H7 H8]. apply inv_of; [by split|by intros _ _|done|by apply child_covered|done].
    + take_as (v_set_phase PhaseUnhealthy). skip. set (v2 := v_set_phase PhaseUnhealthy v1).
      eapply at_weaken; [apply (at_failAmbiguous calls ErrorCodeHealthTimeout SessionInvalidatedHealth v2); [by apply phase_sane|done|done]|].
      intros ? v3 H. by apply (settled_inv v2).
Qed.

Lemma at_handleRetry v : Inv v -> triple (here (v_set_retry false v)) (handleRetry calls) (fun _ v' => Inv v').
Proof.
  intros (HS & HM & HO & HC & HU). set (v0 := v_set_retry false v).
  assert (HS0 : Sane v0) by (destruct HS; by split).
  assert (Hinv : Covered v0 -> Inv v0) by (intros H; by split_and!).
  unfold handleRetry. skip. look s Hs. destruct (v_desired v0) eqn:Hd; cbn [negb orb].
  2:{ apply at_ret, Hinv. intros Hd' _. congruence. }
  case_bool_decide as Hq; [by apply at_ret, Hinv; left|].
  destruct (v_stopping v0) eqn:Est.
  { destruct (sane_stopping _ HS0 Est) as [Hc Hp].
    eapply (at_acts _ _ (fun v => v_set_phase PhaseStopping (requeue true postStopRetry v))).
    { apply acts_upd. intros s' watch. unfold queuePostStop, requeue, view_of, sv_postStop, sv_stopping, sv_child. cbn.
      by destruct (ru_postStop (sv_run s')). }
    intros _. skip. cbn beta. pose proof (requeue_sane true postStopRetry v0 HS0) as [H1 H2 H3 H4 H5 H6 H7 H8].
    apply inv_of; [split; try done; by intros _|intros _ Hst; change (v_stopping v0 = false) in Hst; congruence|done| |done].
    intros _ _. right; right. split; [done|]. intros _. by destruct (v_post v0). }
  assert (Hrun : v_child v0 <> None -> Inv v0) by (intros Hc; by apply Hinv, child_covered).
  destruct (if instances_differ (v_spec v0) s then v_child v0 else None) as [child|] eqn:Edif.
  - assert (Ec : v_child v0 = Some child) by (by destruct (instances_differ (v_spec v0) s)).
    assert (Hc : v_child v0 <> None) by congruence.
    apply at_replaceChild; [done..|]. intros [err|]; [apply at_replace_failed; auto|].
    apply at_replaced; [auto..|]. intros HI.
    eapply at_weaken; [apply at_retryPending; auto|]. intros ? v' K. by apply (Kept_inv (cleared v0)).
  - destruct (v_wants v0) eqn:Ew.
    + eapply at_spec; [by apply at_startChild|]. intros result v' H. apply at_ret.
      eapply starts_inv; [exact H|done|done|done|]. intros Hc. split; [by apply child_covered|done].
    + take_as (v_set_phase PhaseStopped). skip.
      apply inv_of; [by apply phase_sane|done|done| |done].
      apply not_resident_covered. change (v_resident v0 = false). destruct (v_resident v0) eqn:Er; [|done].
      by rewrite wants_resident in Ew.
Qed.
End Reconcile.

(** ** Exits and the end *)

(** The child exited by itself. *)
Definition gone (v : View) : View :=
  v_set_cleanups [] EmptyString (v_set_run None false (v_post v) (v_set_health false (reaped v))).
Lemma gone_sane v : Sane v -> Sane (gone v).
Proof.
  intros [H1 H2 H3 H4 H5 H6 H7 H8]. split; cbn; [done|done|done|done|constructor|lia|done|done].
Qed.

Section Turns.
Context {W : Type} (calls : Calls W).
Notation action := (action W).

(** The child that was told to stop has exited. *)
Lemma at_exit_stopping child v : Inv v -> v_child v = Some child -> v_stopping v = true ->
  triple (here v) (_ ← emit (EvReaped child); next ← finishStop calls; continueAfterStop calls next) (fun _ v' => Inv v').
Proof.
  intros (HS & HM & HO & HC & HU) Hc Hst. apply at_reap; [done..|].
  assert (HS' : Sane (stopped (reaped v))) by (by apply stopped_sane).
  eapply at_weaken; [by apply at_continueAfterStop|]. intros ? v' ([K S D M C] & E & Mo & Co & _).
  assert (Hd : v_desired v = true) by (apply HO; congruence).
  apply inv_of; [done|done|by destruct K as [-> _]| |].
  - intros Hd' Hr'. assert (Hr : v_resident v = true) by (by rewrite (kept_resident (stopped (reaped v)) v' K) in Hr').
    destruct (HC Hd Hr) as [Hq|[Hry|[_ Hp]]].
    + destruct (sane_stopping _ HS Hst) as [_ Hp]. congruence.
    + apply C; [|done..]. intros _ _. right. by left.
    + apply Co; [by apply Hp|done|done].
  - by apply (kept_current v).
Qed.

Lemma at_exited runID v : Inv v -> triple (here v) (exited calls runID) (fun _ v' => Inv v').
Proof.
  intros HI. pose proof HI as (HS & HM & HO & HC & HU). unfold exited. look s Hs.
  destruct (v_child v) as [child|] eqn:Ec; [|by apply at_ret]. destruct (negb (runID =? _)); [by apply at_ret|].
  assert (Hd : v_desired v = true) by (apply HO; congruence).
  destruct (v_stopping v) eqn:Est; [by apply at_exit_stopping|].
  take. rewrite observe_reaped by done. unfold child_exited. look s1 Hs1. take. take_as (fun v => v_set_run None (v_stopping v) (v_post v) v). take.
  match goal with |- triple (here ?v') _ _ => assert (Hv : v' = gone v) by (unfold gone; cbn; by rewrite Est) end.
  rewrite Hv. clear Hv. pose proof (gone_sane v HS) as HS'. skip. skip. skip.
  eapply at_silent; [apply silent_addExit|intros exitCount].
  eapply at_spec; [by apply at_invalidateSessions|intros _ v1 ->]. change (v_desired (reaped v)) with (v_desired v). rewrite Hd. cbn [negb].
  apply with_sessions_sane with (sessions := ∅) in HS'. set (v1 := with_sessions ∅ (gone v)) in *.
  assert (HU' : Current v1) by (apply (kept_current v); [done|apply map_empty_subseteq|done]).
  skip. apply at_silent; [apply silent_upd; reflexivity|intros _].
  eapply at_acts; [apply acts_cancelRetry|intros _]. destruct (5 <=? exitCount).
  - take_as (v_set_phase PhaseQuarantined). skip.
    pose proof (quarantined_sane v1 HS' eq_refl) as HQ.
    apply inv_of; [exact HQ|by apply no_child_monitored|done|by left|done].
  - eapply at_acts_end; [apply acts_scheduleRetry|intros _].
    destruct HS' as [H1 H2 H3 H4 H5 H6 H7 H8].
    apply inv_of; [by split|by apply no_child_monitored|done|by right; left|done].
Qed.

Lemma at_handle value v : Inv v -> triple (here v) (handle calls value) (fun _ v' => Inv v').
Proof.
  intros HI. destruct value; cbn [handle].
  - eapply at_spec; [by apply at_apply|]. intros err v' H. by apply at_ret.
  - eapply at_spec; [by apply at_invoke|]. intros err v' H. by apply at_ret.
  - eapply at_spec; [by apply at_endSession|]. intros err v' H. by apply at_ret.
  - eapply at_spec; [by apply at_handleCompletion|]. intros err v' H. by apply at_ret.
  - eapply at_spec; [by apply at_restart|]. intros err v' H. by apply at_ret.
  - eapply at_spec; [by apply at_sessionInput|]. intros err v' H. by apply at_ret.
  - eapply at_spec; [by apply at_operation|]. intros err v' H. by apply at_ret.
  - eapply at_spec; [by apply at_exited|]. intros err v' H. by apply at_ret.
Qed.

Lemma at_receive value v : Inv v -> triple (here v) (receive calls value) (fun _ v' => Inv v').
Proof.
  intros HI. pose proof (at_handle value v HI) as H.
  destruct value; cbn [receive]; try exact H; (apply at_silent; [apply silent_ask|intros err]); try exact H;
    (destruct err as [err|]; [by apply at_ret|exact H]).
Qed.

(** One turn of the goroutine. *)
Lemma at_turn t v : Inv v -> triple (here v) (take_turn calls t) (fun _ v' => Inv v').
Proof.
  intros HI. destruct t; cbn [take_turn].
  - take_as (v_set_health false). by apply at_handleHealth.
  - take_as (v_set_retry false). by apply at_handleRetry.
  - eapply at_spec; [by apply at_handleCompletion|]. intros err v' H. by apply at_ret.
  - eapply at_spec; [by apply at_receive|]. intros err v' H. by apply at_ret.
Qed.

Lemma runs_inv s : runs calls s -> Inv (view s).
Proof.
  induction 1 as [id w|t s Hs IH _|at_ s Hs IH|w s Hs IH]; [|by apply (at_turn t (view s) IH s)|done|done].
  split_and!; [|by intros []|by intros []|by intros [=]|].
  - split; cbn; [done|done|done|done|constructor|lia|done|done].
  - intros i x Hi. change ((∅ : gmap string interactiveSession) !! i = Some x) in Hi. by rewrite lookup_empty in Hi.
Qed.

(** ** Shutting down *)

(** Nothing runs, nothing is armed and nothing is owed. *)
Definition idle (v : View) : Prop :=
  Sane v /\ v_desired v = false /\ v_child v = None /\ v_health v = false /\ v_retry v = false /\ v_sessions v = ∅
  /\ v_pending v = [] /\ v_phase v = PhaseStopped.

(** [shutdownNow] before it stops the child. *)
Definition closing (v : View) : View :=
  v_set_retry false (v_set_health false (with_sessions ∅ (v_set_run (v_child v) (v_stopping v) postStopNone (v_set_desired false (v_spec v) v)))).
Lemma closing_sane v : Sane v -> Sane (closing v).
Proof. intros [H1 H2 H3 H4 H5 H6 H7 H8]. by split. Qed.

Lemma idle_stopped v : Sane v -> v_desired v = false -> v_child v = None -> v_retry v = false -> v_sessions v = ∅ -> idle (v_set_phase PhaseStopped v).
Proof.
  intros HS Hd Hc Hr He. pose proof (no_child_running v HS Hc) as Hst.
  split_and!; [by apply phase_sane|done|done| |done|done| |done]; cbn.
  - destruct (v_health v) eqn:E; [|done]. by destruct (sane_health _ HS E).
  - destruct (v_pending v) eqn:E; [done|]. destruct (sane_owed _ HS); [by rewrite E|done].
Qed.

Lemma acts_cancelTimers : acts (W := W) cancelTimers (fun v => v_set_retry false (v_set_health false v)).
Proof. apply acts_at. intros v. unfold cancelTimers. eapply at_acts; [apply acts_cancelHealth|intros _]. by take. Qed.

(** Waits for the child that was told to stop. *)
Lemma at_wait_end {B} v (k : action B) R : Sane v -> v_desired v = false -> v_retry v = false -> v_sessions v = ∅ ->
  (v_child v <> None -> v_stopping v = true) ->
  (forall v', Sane v' -> v_desired v' = false -> v_child v' = None -> v_retry v' = false -> v_sessions v' = ∅ ->
   triple (here v') k R) ->
  triple (here v)
    (s ← get;
     _ ← match sv_child s with
         | Some child =>
           if sv_stopping s then _ ← tell (ca_waitReaped calls child); _ ← emit (EvReaped child); _ ← finishStop calls; mret tt
           else mret tt
         | None => mret tt
         end;
     k) R.
Proof.
  intros HS Hd Hr He Hst Hk. look s Hs. eapply at_spec with (Q := fun _ v' => Sane v' /\ v_desired v' = false
    /\ v_child v' = None /\ v_retry v' = false /\ v_sessions v' = ∅); [|intros _ v' (? & ? & ? & ? & ?); by apply Hk].
  destruct (v_child v) as [child|] eqn:Ec; [|by apply at_ret]. assert (Hs' : v_stopping v = true) by by apply Hst.
  rewrite Hs'. skip. apply at_reap; [done..|]. apply at_ret. split; [by apply stopped_sane|done].
Qed.

Lemma at_shutdownNow v : Inv v -> triple (here v) (shutdownNow calls) (fun _ => idle).
Proof.
  intros (HS & HM & HO & HC & HU). unfold shutdownNow. look s Hs.
  take_as (fun v => v_set_run (v_child v) (v_stopping v) postStopNone (v_set_desired false (v_spec v) v)).
  eapply at_spec; [apply at_invalidate_all; exact (sane_watch _ HS)|intros _ v1 ->].
  eapply at_acts; [apply acts_cancelTimers|intros _]. cbv beta. fold (closing v). pose proof (closing_sane v HS) as HS1.
  eapply at_spec; [by apply at_stopCurrent|]. intros err v2 [K S D M Hst Hi C U]. skip.
  destruct (U eq_refl) as [Hr Hc]. destruct K as [Hd _].
  apply at_wait_end; [done|done|done|done|done|]. intros v3 HS3 Hd3 Hc3 Hr3 He3.
  take_as (v_set_phase PhaseStopped). skip. by apply idle_stopped.
Qed.
End Turns.
