(* ===== verification/SupervisorClaims.v ===== *)
(** * What the supervisor of a plugin guarantees

    The properties of [Supervisor] in terms of its own state and events, and a concrete
    plugin that shows their hypotheses can hold. *)

From Stdlib Require Import ZArith Lia SpecFloat.
From S2P Require Import Prelude GoStrings GoTime Identifier Protocol Presentation ProtocolSession Engine.
From S2P Require Import SessionCoordinator SessionRuntime Supervisor SupervisorRuns SupervisorSafe SupervisorCommands.

(** ** What does not change when sessions are dropped *)

Section Keeps.
Context {W X : Type} (calls : Calls W) (read : Supervisor -> X).
Notation action := (action W).

(** [m] does not change what [read] reads. *)
Definition keeps {A} (m : action A) : Prop := forall s, read (st_sup (m s).2) = read (st_sup s).

Lemma keeps_bind {A B} (m : action A) (k : A -> action B) : keeps m -> (forall a, keeps (k a)) -> keeps (m ≫= k).
Proof. intros Hm Hk s. by rewrite bind_eq, Hk, Hm. Qed.
Lemma keeps_upd f : (forall s, read (f s) = read s) -> keeps (upd f).
Proof. intros H s. apply H. Qed.
Lemma keeps_ask {A} (f : W -> A * W) : keeps (ask f).
Proof. intros s. unfold ask. by destruct (f (st_world s)). Qed.
Lemma keeps_each {A} (f : A -> action unit) l : (forall x, keeps (f x)) -> keeps (each f l).
Proof. intros H. induction l as [|x l IH]; [done|]. by apply keeps_bind. Qed.

Lemma keeps_invalidateSessions reason :
  (forall sessions s, read (set_sessions sessions s) = read s) -> keeps (invalidateSessions calls reason).
Proof.
  intros H. apply keeps_bind; [done|intros s]. apply keeps_each. intros [id session].
  apply keeps_bind; [apply keeps_bind; [by apply keeps_upd|done]|intros _].
  apply keeps_bind; [done|intros s']. by destruct (ca_SessionInvalidated calls).
Qed.
Lemma keeps_emitSessionCleanup : keeps (emitSessionCleanup calls).
Proof.
  unfold emitSessionCleanup. destruct (ca_SessionCleanup calls); [|done].
  apply keeps_bind; [apply keeps_ask|intros sequence]. apply keeps_bind; [apply keeps_ask|intros at_].
  apply keeps_bind; [done|intros s]. by apply keeps_bind.
Qed.
Lemma keeps_withdraw spec : keeps (withdraw calls spec).
Proof.
  unfold withdraw. destruct (ca_WithdrawGeneration calls) eqn:E; [|done]. apply keeps_each. intros g.
  unfold withdraw_generation. rewrite E. apply keeps_bind; [done|intros s]. by apply keeps_bind.
Qed.
End Keeps.

(** ** A start that succeeds *)

Section Starting.
Context {W : Type} (calls : Calls W).

Lemma start_succeeds child w (s : State W) :
  tracked (view s) -> sv_desired (st_sup s) = true -> sv_child (st_sup s) = None -> sv_stopping (st_sup s) = false ->
  sv_phase (st_sup s) <> PhaseQuarantined -> ca_start calls (sv_spec (st_sup s)) (st_world s) = (inl child, w) ->
  view (startChild calls s).2 = started child (view s).
Proof.
  intros Ht Hd Hc Hst Hq Hw. unfold startChild. rewrite bind_eq. cbn [get fst snd].
  rewrite Hd, Hst, (bool_decide_false _ Hq). unfold has_child. rewrite Hc. cbn [negb orb is_some].
  rewrite !bind_eq. cbn [upd publish fst snd st_sup st_events st_world]. unfold ask. cbn [st_sup st_world st_events].
  rewrite Hw. cbn [fst snd]. cbn [emit fst snd st_sup st_events st_world].
  match goal with |- view (child_started _ _ ?s1).2 = _ =>
    destruct (at_child_started calls child (v_set_phase PhaseStarting (view s)) Ht Hc Hst s1) as [_ ->]; [|done] end.
  unfold here, view. cbn [st_sup st_events]. by rewrite observed_snoc.
Qed.

Lemma retry_starts child w (s : State W) :
  Inv (view s) -> sv_desired (st_sup s) = true -> resident (st_sup s) = true -> sv_child (st_sup s) = None ->
  sv_phase (st_sup s) <> PhaseQuarantined -> ca_start calls (sv_spec (st_sup s)) (st_world s) = (inl child, w) ->
  view (take_turn calls TurnRetry s).2 = started child (v_set_retry false (view s)).
Proof.
  intros (HS & _) Hd Hr Hc Hq Hw. pose proof (no_child_running (view s) HS Hc) as Hst. change (sv_stopping (st_sup s) = false) in Hst.
  cbn [take_turn]. unfold handleRetry. rewrite !bind_eq. cbn [upd get fst snd st_sup st_events st_world].
  set (s1 := mkState _ _ _). set (sup1 := set_retryAt _ _).
  change (sv_desired sup1) with (sv_desired (st_sup s)). change (sv_phase sup1) with (sv_phase (st_sup s)).
  change (sv_stopping sup1) with (sv_stopping (st_sup s)). change (sv_child sup1) with (sv_child (st_sup s)).
  rewrite Hd, (bool_decide_false _ Hq), Hst, Hc. cbn [negb orb].
  assert (Hw1 : wantsChild sup1 = true) by (unfold wantsChild; change (resident sup1) with (resident (st_sup s)); by rewrite Hr).
  destruct (if instances_differ _ _ then None else None) as [c|] eqn:E; [by destruct (instances_differ _ _)|].
  rewrite Hw1, bind_eq. cbn [mret action_ret fst snd].
  exact (start_succeeds child w s1 (sane_watch _ HS) Hd Hc Hst Hq Hw).
Qed.
End Starting.

(** ** An exit, in terms of what it counts *)

Record Count := mkCount { co_desired : bool; co_child : option Z; co_exits : list Time; co_retry : Retry; co_phase : Phase }.
Definition count_of (s : Supervisor) : Count := mkCount (sv_desired s) (sv_child s) (sv_exits s) (sv_retry s) (sv_phase s).

Section Exits.
Context {W : Type} (calls : Calls W).
Notation action := (action W).

(** [m] takes a supervisor that counts [r] to one that counts as [Q] says. *)
Definition counts {A} (r : Count) (m : action A) (Q : A -> Count -> Prop) : Prop :=
  forall s, count_of (st_sup s) = r -> Q (m s).1 (count_of (st_sup (m s).2)).

Lemma counts_bind {A B} r (m : action A) (k : A -> action B) Q R :
  counts r m Q -> (forall a r', Q a r' -> counts r' (k a) R) -> counts r (m ≫= k) R.
Proof. intros Hm Hk s Hs. rewrite bind_eq. exact (Hk _ _ (Hm s Hs) _ eq_refl). Qed.
Lemma counts_keep {A B} r (m : action A) (k : A -> action B) R :
  keeps count_of m -> (forall a, counts r (k a) R) -> counts r (m ≫= k) R.
Proof. intros Hm Hk s Hs. rewrite bind_eq. apply Hk. by rewrite Hm. Qed.
Lemma counts_upd {B} r f g (k : unit -> action B) R :
  (forall s, count_of (f s) = g (count_of s)) -> counts (g r) (k tt) R -> counts r (upd f ≫= k) R.
Proof. intros H Hk s Hs. rewrite bind_eq. apply Hk. cbn. by rewrite H, Hs. Qed.
Lemma counts_end r (f : Supervisor -> Supervisor) (Q : unit -> Count -> Prop) : 
  (forall s, count_of s = r -> Q tt (count_of (f s))) -> counts r (upd f) Q.
Proof. intros H s Hs. by apply H. Qed.
Lemma counts_get {B} r (k : Supervisor -> action B) R :
  (forall s, count_of s = r -> counts r (k s) R) -> counts r (s ← get; k s) R.
Proof. intros H s Hs. rewrite bind_eq. by apply H. Qed.

Lemma keeps_now : keeps (W := W) count_of (now calls).
Proof. apply keeps_ask. Qed.

(** What a failure that is not the last in its window leaves. *)
Definition backing_off (r r' : Count) : Prop :=
  co_desired r' = co_desired r /\ co_child r' = co_child r /\ co_exits r' = co_exits r /\ co_phase r' = PhaseBackoff
  /\ ry_timer (co_retry r') = true /\ ry_attempt (co_retry r') = ry_attempt (co_retry r) + 1
  /\ exists at_ factor, ry_at (co_retry r') = Add at_ (jitteredDelay (backoffDelay (ry_attempt (co_retry r) + 1)) factor).

Lemma counts_scheduleRetry r : counts r (scheduleRetry calls) (fun _ => backing_off r).
Proof.
  unfold scheduleRetry. eapply counts_upd with (g := fun r => mkCount (co_desired r) (co_child r) (co_exits r)
    (mkRetry (ry_timer (co_retry r)) (ry_at (co_retry r)) (ry_attempt (co_retry r) + 1)) (co_phase r)); [done|].
  apply counts_get. intros s Hs. apply counts_keep; [apply keeps_ask|intros factor]. cbv zeta.
  eapply counts_upd with (g := fun r => mkCount (co_desired r) (co_child r) (co_exits r) (co_retry r) PhaseBackoff); [done|].
  apply counts_keep; [apply keeps_now|intros at_].
  eapply counts_upd with (g := fun r => mkCount (co_desired r) (co_child r) (co_exits r)
    (mkRetry true (Add at_ (jitteredDelay (backoffDelay (ry_attempt (sv_retry s))) factor)) (ry_attempt (co_retry r))) (co_phase r)); [done|].
  apply counts_end. intros s' Hs'. apply (f_equal co_retry) in Hs. cbn in Hs. unfold publish.
  change (count_of (set_status _ s')) with (count_of s'). rewrite Hs', Hs. cbn. unfold backing_off. cbn. by eauto 10.
Qed.

(** What an exit leaves, by the number of exits in the window. *)
Definition escalated (r r' : Count) : Prop :=
  co_child r' = None /\ exists at_, co_exits r' = kept_exits at_ (co_exits r) ++ [at_]
  /\ if 5 <=? Z.of_nat (length (co_exits r')) then co_phase r' = PhaseQuarantined /\ ry_timer (co_retry r') = false
     else co_phase r' = PhaseBackoff /\ ry_timer (co_retry r') = true
          /\ ry_attempt (co_retry r') = ry_attempt (co_retry r) + 1
          /\ exists now factor, ry_at (co_retry r') = Add now (jitteredDelay (backoffDelay (ry_attempt (co_retry r'))) factor).

Lemma counts_addExit {B} r at_ (k : Z -> action B) R :
  (let exits := kept_exits at_ (co_exits r) ++ [at_] in
   counts (mkCount (co_desired r) (co_child r) exits (co_retry r) (co_phase r)) (k (Z.of_nat (length exits))) R) ->
  counts r (addExit at_ ≫= k) R.
Proof.
  intros Hk s <-. rewrite bind_eq. exact (Hk (addExit at_ s).2 eq_refl).
Qed.

Lemma counts_child_exited r : co_desired r = true -> counts r (child_exited calls) (fun _ => escalated r).
Proof.
  intros Hd. unfold child_exited. apply counts_get. intros s Hs.
  assert (Hd' : sv_desired s = true) by (by rewrite <- Hs in Hd).
  eapply counts_upd with (g := fun r => r); [done|].
  eapply counts_upd with (g := fun r => mkCount (co_desired r) None (co_exits r) (co_retry r) (co_phase r)); [done|].
  eapply counts_upd with (g := fun r => r); [done|].
  apply counts_keep; [apply keeps_emitSessionCleanup|intros _]. apply counts_keep; [apply keeps_withdraw|intros _].
  apply counts_keep; [apply keeps_now|intros at_]. apply counts_addExit. cbn [co_exits co_desired co_child co_retry co_phase].
  apply counts_keep; [by apply keeps_invalidateSessions|intros _]. rewrite Hd'. cbn [negb].
  apply counts_keep; [apply keeps_now|intros now']. eapply counts_upd with (g := fun r => r); [done|].
  eapply counts_upd with (g := fun r => mkCount (co_desired r) (co_child r) (co_exits r)
    (mkRetry false (ry_at (co_retry r)) (ry_attempt (co_retry r))) (co_phase r)); [done|].
  cbn [co_exits co_desired co_child co_retry co_phase]. set (exits := kept_exits _ _ ++ _).
  destruct (5 <=? Z.of_nat (length exits)) eqn:E.
  - eapply counts_upd with (g := fun r => mkCount (co_desired r) (co_child r) (co_exits r)
      (mkRetry (ry_timer (co_retry r)) zero_time (ry_attempt (co_retry r))) PhaseQuarantined); [done|].
    apply counts_end. intros s' Hs'. unfold publish. change (count_of (set_status _ s')) with (count_of s'). rewrite Hs'. split; [done|].
    exists at_. split; [done|]. cbn. by rewrite E.
  - intros s' Hs'. destruct (counts_scheduleRetry _ s' Hs') as (H1 & H2 & H3 & H4 & H5 & H6 & H7).
    split; [done|]. exists at_. split; [done|]. rewrite H3. cbn [co_exits]. fold exits. rewrite E, H6. by split_and!.
Qed.
End Exits.

Section Claims.
Context {W : Type} (calls : Calls W).

(** C9: In every state that a supervisor reaches, whatever the plugin, the clock and the
    callbacks answered, the calls it made are those of the protocol: one child at a time;
    calls only to the child that is alive, and to one that was told to stop none but the end
    of a session and a further stop; a session is opened only while it is not open, and
    closed only while it is, as it was opened. The child, the stop and the sessions that the
    protocol ends with are those of its state. *)
Theorem supervisor_follows_protocol s : runs calls s ->
  observed (st_events s) = Some (mkWatch (sv_child (st_sup s)) (sv_stopping (st_sup s)) (sv_sessions (st_sup s))).
Proof. intros H. apply runs_inv in H as (HS & _). apply (sane_watch _ HS). Qed.

(** C11: No resident plugin is forgotten: in every reachable state in which it is desired and
    not quarantined, either its child runs and its health timer is armed, or its child is
    being stopped, with what follows queued or the retry timer armed, or it has no child and
    its retry timer is armed; and in the last case the retry starts a child whenever [start]
    gives one. *)
Theorem resident_plugin_restarts s : runs calls s -> let sup := st_sup s in
  sv_desired sup = true -> resident sup = true -> sv_phase sup <> PhaseQuarantined ->
  match sv_child sup with
  | Some _ => if sv_stopping sup then sv_postStop sup <> postStopNone \/ enabled TurnRetry sup = true
              else enabled TurnHealth sup = true
  | None => enabled TurnRetry sup = true
            /\ forall child w, ca_start calls (sv_spec sup) (st_world s) = (inl child, w) ->
               let sup' := st_sup (take_turn calls TurnRetry s).2 in
               sv_child sup' = Some child /\ sv_phase sup' = PhaseRunning /\ enabled TurnHealth sup' = true
  end.
Proof.
  intros HI sup Hd Hr Hq. apply runs_inv in HI as HI. pose proof HI as (HS & HM & _ & HC & _).
  destruct (HC Hd Hr) as [Hq'|Hcov]; [by destruct Hq|].
  destruct (sv_child sup) as [c|] eqn:Ec.
  - destruct (sv_stopping sup) eqn:Est.
    + destruct Hcov as [Hry|[_ Hp]]; [by right|left; by apply Hp].
    + apply HM; [change (sv_child sup <> None); congruence|done].
  - destruct Hcov as [Hry|[Hc _]]; [|by destruct Hc]. split; [done|]. intros child w Hw.
    pose proof (retry_starts calls child w s HI Hd Hr Ec Hq Hw) as Hv.
    split_and!; [apply (f_equal v_child Hv)|apply (f_equal v_phase Hv)|apply (f_equal v_health Hv)].
Qed.

(** In every reachable state at most 256 clean-ups are owed, each once, only to a child
    that exists, and the lifecycle error is shown exactly while some are owed. *)
Theorem cleanups_bounded s : runs calls s -> let sup := st_sup s in
  Z.of_nat (length (sv_pending sup)) <= maxPendingSessionCleanups /\ NoDup (sv_pending sup)
  /\ (sv_pending sup <> [] -> sv_child sup <> None)
  /\ (cu_errorCode (sv_cleanups sup) = EmptyString <-> sv_pending sup = []).
Proof.
  intros H sup. apply runs_inv in H as (HS & _). split_and!; [|apply HS|apply HS|].
  - unfold maxPendingSessionCleanups. pose proof (sane_bound _ HS). change (length (sv_pending sup) <= 256)%nat in H. lia.
  - pose proof (sane_code _ HS) as H. change (cu_errorCode (sv_cleanups sup) = owed_code (sv_pending sup)) in H. rewrite H.
    by destruct (sv_pending sup).
Qed.

(** In every reachable state a session that is held is of the current generation of a
    configured instance, only a desired plugin has a child or a retry timer, a quarantined
    plugin has no retry timer, the health timer is armed exactly while there is a child that
    was not told to stop, and a child that was told to stop shows in the phase. *)
Theorem supervisor_coherent s : runs calls s -> let sup := st_sup s in
  (forall id session, sv_sessions sup !! id = Some session -> instanceGeneration id sup = Some (ix_generation session))
  /\ (sv_child sup <> None -> sv_desired sup = true)
  /\ (enabled TurnRetry sup = true -> sv_desired sup = true /\ sv_phase sup <> PhaseQuarantined)
  /\ (enabled TurnHealth sup = true <-> sv_child sup <> None /\ sv_stopping sup = false)
  /\ (sv_stopping sup = true -> sv_child sup <> None /\ sv_phase sup = PhaseStopping).
Proof.
  intros H sup. apply runs_inv in H as (HS & HM & HO & _ & HU). split_and!; [exact HU|exact HO|apply HS| |apply HS].
  split; [apply HS|]. intros [Hc Hst]. by apply HM.
Qed.

(** Shutting down a supervisor in any reachable state, whether the child stops or not,
    leaves it without a child, a session, a timer or an owed clean-up; the calls it makes on
    the way follow the protocol, and every session and child of the run is closed. *)
Theorem shutdown_leaves_nothing s : runs calls s -> let s' := (shutdownNow calls s).2 in let sup := st_sup s' in
  observed (st_events s') = Some (mkWatch None false ∅)
  /\ sv_desired sup = false /\ sv_child sup = None /\ sv_sessions sup = ∅ /\ sv_pending sup = []
  /\ enabled TurnHealth sup = false /\ enabled TurnRetry sup = false /\ sv_phase sup = PhaseStopped.
Proof.
  intros H s' sup. apply runs_inv in H.
  destruct (at_shutdownNow calls (view s) H s eq_refl) as (HS & Hd & Hc & Hh & Hr & He & Hp & Hph).
  split_and!; [|exact Hd|exact Hc|exact He|exact Hp|exact Hh|exact Hr|exact Hph].
  pose proof (sane_watch _ HS) as Hw. rewrite Hc, He, (no_child_running _ HS Hc) in Hw. exact Hw.
Qed.

(** An exit of the child that runs is counted: exits older than the failure window are
    dropped, the fifth in the window quarantines the plugin and arms no retry, and an
    earlier one arms the retry after the jittered back-off of the next attempt; the exit of
    an earlier child changes nothing. *)
Theorem exit_escalates s : sv_child (st_sup s) <> None -> sv_stopping (st_sup s) = false -> sv_desired (st_sup s) = true ->
  escalated (count_of (st_sup s)) (count_of (st_sup (exited calls (ru_runID (sv_run (st_sup s))) s).2))
  /\ forall runID, runID <> ru_runID (sv_run (st_sup s)) -> (exited calls runID s).2 = s.
Proof.
  intros Hc Hst Hd. unfold exited. destruct (sv_child (st_sup s)) as [child|] eqn:Ec; [clear Hc|done]. split.
  - rewrite bind_eq. cbn [get fst snd]. rewrite Ec, Z.eqb_refl. cbn [negb]. rewrite Hst, bind_eq.
    by apply (counts_child_exited calls (count_of (st_sup s)) Hd).
  - intros runID Hne. rewrite bind_eq. cbn [get fst snd]. apply Z.eqb_neq in Hne. by rewrite Ec, Hne.
Qed.
End Claims.

(** ** A concrete plugin

    The world counts the starts and carries what the plugin will answer to the next
    [EndSession], [Stop], [SessionInput] and [ReplaceInstances]; the clock stands still. *)
Section Demo.

Record Plugin := mkPlugin { pl_starts : Z; pl_end : option error; pl_stop : option error; pl_input : option error; pl_replace : option error }.

Definition demo_time : Time := mkTime 1000 0.

Definition demo_calls : Calls Plugin := mkCalls Plugin
  (fun _ w => (inl (pl_starts w), mkPlugin (pl_starts w + 1) (pl_end w) (pl_stop w) (pl_input w) (pl_replace w)))
  (fun _ w => (inl (mkHealthResult true demo_time), w))
  (fun _ _ w => (None, w))
  (fun _ _ w => (pl_end w, w))
  (fun _ _ w => (pl_replace w, w))
  (fun _ _ w => ((mkSessionInputResult EmptyString, pl_input w), w))
  (fun _ _ w => ((mkOperationResult EmptyString, None), w))
  (fun _ w => (pl_stop w, w))
  (fun _ w => (false, w))
  (fun _ w => (None, w))
  (fun _ w => w)
  (fun w => (None, w))
  (fun w => (demo_time, w))
  (fun w => (f_one, w))
  (fun w => (1, w))
  (fun w => (1, w))
  None None None None None None.

Definition demo_world : Plugin := mkPlugin 1 None None None None.
Definition demo_instance (id : string) : Instance := mkInstance id 1 EmptyString ∅ ∅ None.
Definition demo_spec (modes : list string) : Spec :=
  mkSpec "weather" "1.0.0" "/bin/weather" [] EmptyString EmptyString modes [] [] [demo_instance "a"; demo_instance "b"].
Definition demo_request (id : string) : InvokeRequest := mkInvokeRequest id 1 "open" EmptyString EmptyString None.

Definition demo_start : State Plugin := mkState (newSupervisor "weather") [] demo_world.
Definition demo_turn (value : command) (s : State Plugin) : State Plugin := (take_turn demo_calls (TurnCommand value) s).2.

(** Applied, and with a session of each instance. *)
Definition demo_applied (modes : list string) : State Plugin := demo_turn (applyCommand (demo_spec modes)) demo_start.
Definition demo_open (modes : list string) : State Plugin :=
  demo_turn (invokeCommand (demo_request "b") InvocationInteractive "t2")
    (demo_turn (invokeCommand (demo_request "a") InvocationInteractive "t1") (demo_applied modes)).

Lemma demo_turn_runs value s : runs demo_calls s -> runs demo_calls (demo_turn value s).
Proof. intros H. by apply runs_turn. Qed.
Lemma demo_open_runs modes : runs demo_calls (demo_open modes).
Proof. do 3 apply demo_turn_runs. apply runs_new. Qed.

(** The child of a resident plugin exited. *)
Definition demo_exited : State Plugin := demo_turn (exitCommand 1) (demo_open [ExecutionModeResident]).
Lemma demo_exited_runs : runs demo_calls demo_exited.
Proof. apply demo_turn_runs, demo_open_runs. Qed.

(** The plugin answers otherwise from here on. *)
Definition demo_with (w : Plugin) (s : State Plugin) : State Plugin := mkState (st_sup s) (st_events s) w.

(** ** What the model shows on concrete runs *)

(** An input that fails ends the session, and stops the child of a plugin that is not
    resident although it has another session, which is held without a child. *)
Example input_failure_strands_session :
  let s := demo_turn (sessionInputCommand (mkSessionInputRequest 1 demo_time (mkInstanceRef "a" 1) "t1" (mkSessionInput None None)))
             (demo_with (mkPlugin 2 None None (Some (Errorf "busy" [])) None) (demo_open [ExecutionModeInteractive])) in
  sv_child (st_sup s) = None /\ sv_sessions (st_sup s) = {["b" := mkInteractiveSession 1 "t2"]}
  /\ enabled TurnRetry (st_sup s) = false.
Proof. vm_compute. done. Qed.

(** A configuration that the running plugin refuses quarantines it, until the next health
    check. *)
Example health_lifts_quarantine :
  let spec := mkSpec "weather" "1.0.0" "/bin/weather" [] EmptyString EmptyString [ExecutionModeResident] [] []
                [mkInstance "a" 2 EmptyString ∅ ∅ None] in
  let s := demo_turn (applyCommand spec)
             (demo_with (mkPlugin 2 None None None (Some (Wrapf ErrorInvalidArgument [] (Errorf "bad" []))))
                (demo_applied [ExecutionModeResident])) in
  let s' := (take_turn demo_calls TurnHealth s).2 in
  sv_phase (st_sup s) = PhaseQuarantined /\ sv_phase (st_sup s') = PhaseRunning /\ sv_spec (st_sup s') = spec.
Proof. vm_compute. done. Qed.

(** An invocation that replaces a session, and whose clean-up of the old one is ambiguous,
    stops the child and then reports success and holds the new session. *)
Example ambiguous_cleanup_keeps_session :
  let s := demo_with (mkPlugin 2 (Some ErrOutcomeUnknown) None None None) (demo_open [ExecutionModeInteractive]) in
  let result := invoke demo_calls (demo_request "a") InvocationInteractive "t3" s in
  result.1 = None /\ sv_child (st_sup result.2) = None
  /\ sv_sessions (st_sup result.2) !! "a" = Some (mkInteractiveSession 1 "t3").
Proof. vm_compute. done. Qed.

(** ** Witnesses *)

Lemma supervisor_follows_protocol_witness :
  runs demo_calls (demo_open [ExecutionModeResident])
  /\ observed (st_events (demo_open [ExecutionModeResident]))
     = Some (mkWatch (Some 1) false (sv_sessions (st_sup (demo_open [ExecutionModeResident])))).
Proof.
  split; [apply demo_open_runs|].
  exact (supervisor_follows_protocol demo_calls (demo_open [ExecutionModeResident]) (demo_open_runs [ExecutionModeResident])).
Defined.

Lemma resident_plugin_restarts_witness :
  sv_child (st_sup demo_exited) = None /\ enabled TurnRetry (st_sup demo_exited) = true.
Proof.
  split; [vm_compute; reflexivity|].
  exact (proj1 (resident_plugin_restarts demo_calls demo_exited demo_exited_runs eq_refl eq_refl ltac:(vm_compute; discriminate))).
Defined.

Lemma cleanups_bounded_witness :
  let s := demo_turn (endSessionCommand (mkInstanceRef "a" 1) "t1")
             (demo_with (mkPlugin 2 (Some (Errorf "busy" [])) None None None) (demo_open [ExecutionModeInteractive])) in
  sv_pending (st_sup s) = [mkPendingCleanup "a" 1 "t1"] /\ NoDup (sv_pending (st_sup s)).
Proof.
  intros s. split; [vm_compute; reflexivity|].
  exact (proj1 (proj2 (cleanups_bounded demo_calls s (demo_turn_runs _ _ (runs_world _ _ _ (demo_open_runs [ExecutionModeInteractive])))))).
Defined.

Lemma supervisor_coherent_witness :
  sv_sessions (st_sup (demo_open [ExecutionModeInteractive])) !! "a" = Some (mkInteractiveSession 1 "t1")
  /\ instanceGeneration "a" (st_sup (demo_open [ExecutionModeInteractive])) = Some 1.
Proof.
  split; [vm_compute; reflexivity|].
  exact (proj1 (supervisor_coherent demo_calls (demo_open [ExecutionModeInteractive]) (demo_open_runs [ExecutionModeInteractive]))
           "a" (mkInteractiveSession 1 "t1") ltac:(vm_compute; reflexivity)).
Defined.

Lemma shutdown_leaves_nothing_witness :
  let s := demo_with (mkPlugin 2 None (Some (Errorf "stuck" [])) None None) (demo_open [ExecutionModeResident]) in
  sv_child (st_sup s) = Some 1 /\ observed (st_events (shutdownNow demo_calls s).2) = Some (mkWatch None false ∅).
Proof.
  intros s. split; [vm_compute; reflexivity|].
  exact (proj1 (shutdown_leaves_nothing demo_calls s (runs_world _ _ _ (demo_open_runs [ExecutionModeResident])))).
Defined.

Lemma exit_escalates_witness :
  sv_child (st_sup (demo_open [ExecutionModeResident])) = Some 1
  /\ escalated (count_of (st_sup (demo_open [ExecutionModeResident]))) (count_of (st_sup (exited demo_calls 1 (demo_open [ExecutionModeResident])).2)).
Proof.
  split; [vm_compute; reflexivity|].
  exact (proj1 (exit_escalates demo_calls (demo_open [ExecutionModeResident]) ltac:(vm_compute; discriminate) eq_refl eq_refl)).
Defined.
End Demo.
