(* ===== verification/GoEncoding.v ===== *)
(** * Encodings of bytes, and paths of files

    What the code uses of the packages [encoding/hex], [encoding/base64] and
    [path/filepath] (on Unix). *)

From Stdlib Require Import ZArith Lia.
From S2P Require Import Prelude GoStrings GoTime GoJson Identifier Protocol.

Definition bytes_of (s : string) : list Z := map byte (String.list_ascii_of_string s).

(** ** [encoding/hex] *)

(** [hex.EncodeToString], and ["%x"] of a byte slice. *)
Fixpoint hex_of (bytes : list Z) : string :=
  match bytes with
  | [] => EmptyString
  | b :: bytes => hex_digit (b / 16) +:+ hex_digit (b mod 16) +:+ hex_of bytes
  end.

Definition hex_value (b : Z) : option Z :=
  if between 48 57 b then Some (b - 48)
  else if between 97 102 b then Some (b - 87)
  else if between 65 70 b then Some (b - 55)
  else None.

(** [hex.DecodeString]; [None] is an error. *)
Fixpoint unhex_of (s : string) : option (list Z) :=
  match s with
  | EmptyString => Some []
  | String a EmptyString => None
  | String a (String b s) =>
    match hex_value (byte a), hex_value (byte b), unhex_of s with
    | Some h, Some l, Some bytes => Some (16 * h + l :: bytes)
    | _, _, _ => None
    end
  end.

(** ** [encoding/base64]: [RawURLEncoding] *)

Definition base64_digit (n : Z) : string :=
  String (ascii_of_byte (if n <? 26 then 65 + n else if n <? 52 then 71 + n else if n <? 62 then n - 4
                         else if n =? 62 then 45 else 95)) EmptyString.

Fixpoint base64_of (bytes : list Z) : string :=
  match bytes with
  | [] => EmptyString
  | [a] => base64_digit (a / 4) +:+ base64_digit (a mod 4 * 16)
  | [a; b] => base64_digit (a / 4) +:+ base64_digit (a mod 4 * 16 + b / 16) +:+ base64_digit (b mod 16 * 4)
  | a :: b :: c :: bytes =>
    base64_digit (a / 4) +:+ base64_digit (a mod 4 * 16 + b / 16) +:+ base64_digit (b mod 16 * 4 + c / 64)
    +:+ base64_digit (c mod 64) +:+ base64_of bytes
  end.

(** ** [path/filepath] *)

(** [Join] of two elements of which the second is not empty. *)
Definition filepath_Join (root path : string) : string :=
  if root =s EmptyString then Clean path else Clean (root +:+ "/" +:+ path).

(** [Ext]: from the last dot after the last slash. *)
Fixpoint filepath_Ext_from (found : string) (path : string) : string :=
  match path with
  | EmptyString => found
  | String a path' =>
    if Ascii.eqb a "/" then filepath_Ext_from EmptyString path'
    else if Ascii.eqb a "." then filepath_Ext_from path path'
    else filepath_Ext_from found path'
  end.
Definition filepath_Ext : string -> string := filepath_Ext_from EmptyString.

Definition filepath_IsAbs (path : string) : bool := HasPrefix path "/".

(** The elements of a clean path. *)
Definition path_elements (path : string) : list string :=
  List.filter (fun e => negb (e =s EmptyString)) (split_byte "/" (if path =s "." then EmptyString else path)).

Fixpoint relative_elements (base target : list string) : option (list string) :=
  match base, target with
  | b :: base', t :: target' => if b =s t then relative_elements base' target'
                                else if b =s ".." then None else Some (repeat ".."%string (length base) ++ target)
  | [], _ => Some target
  | b :: _, [] => if b =s ".." then None else Some (repeat ".."%string (length base))
  end.

(** [Rel]; [None] is an error. *)
Definition filepath_Rel (base target : string) : option string :=
  let base := Clean base in
  let target := Clean target in
  if negb (Bool.eqb (filepath_IsAbs base) (filepath_IsAbs target)) then None
  else match relative_elements (path_elements base) (path_elements target) with
       | None => None
       | Some [] => Some "."%string
       | Some elements => Some (join_strings "/" elements)
       end.

(** [Base], on Unix. *)
Fixpoint drop_empty (l : list string) : list string :=
  match l with EmptyString :: l => drop_empty l | _ => l end.
Definition filepath_Base (path : string) : string :=
  if path =s EmptyString then "."
  else match drop_empty (rev (split_byte "/" path)) with [] => "/" | e :: _ => e end.

(** What [hex.EncodeToString] writes. *)
Definition is_hex_lower (b : Z) : bool := between 48 57 b || between 97 102 b.

(** ** Lemmas *)

Lemma hex_of_bytes bytes : Forall (fun b => 0 <= b < 256) bytes -> forall_bytes is_hex_lower (hex_of bytes) = true.
Proof.
  assert (Hd : forall n, 0 <= n < 16 -> forall_bytes is_hex_lower (hex_digit n) = true).
  { intros n Hn. unfold hex_digit. cbn [forall_bytes]. rewrite andb_true_r. unfold is_hex_lower, between.
    destruct (Z.ltb_spec n 10); rewrite byte_ascii_of_byte; lia. }
  induction 1 as [|b bytes Hb _ IH]; [done|]. cbn [hex_of]. rewrite !forall_bytes_app, IH, andb_true_r, !Hd; [done| |].
  - apply Z.mod_pos_bound. lia.
  - split; [apply Z.div_pos; lia|apply Z.div_lt_upper_bound; lia].
Qed.

Lemma forall_bytes_impl (f g : Z -> bool) s : (forall b, f b = true -> g b = true) -> forall_bytes f s = true -> forall_bytes g s = true.
Proof. intros H. induction s as [|a s IH]; [done|]. cbn. intros [Ha Hs]%andb_prop. by rewrite (H _ Ha), (IH Hs). Qed.

Lemma len_hex_of bytes : len (hex_of bytes) = 2 * Z.of_nat (length bytes).
Proof.
  induction bytes as [|b bytes IH]; [done|]. cbn [hex_of length]. rewrite !len_app, IH.
  change (len (hex_digit (b / 16))) with 1. change (len (hex_digit (b mod 16))) with 1. lia.
Qed.

Lemma len_base64_digit n : len (base64_digit n) = 1.
Proof. reflexivity. Qed.

Lemma len_base64_of bytes : 3 * len (base64_of bytes) >= 4 * Z.of_nat (length bytes).
Proof.
  assert (H : forall n bytes, (length bytes <= n)%nat -> 3 * len (base64_of bytes) >= 4 * Z.of_nat (length bytes)).
  { induction n as [|n IH]; intros [|a [|b [|c l]]] Hl; simpl in Hl; try lia; cbn [base64_of];
      rewrite ?len_app, ?len_base64_digit; try (vm_compute; discriminate); cbn [length]; try lia.
    specialize (IH l). lia. }
  by apply (H (length bytes)).
Qed.

Example hex_roundtrip : unhex_of (hex_of [0; 15; 255]) = Some [0; 15; 255].
Proof. reflexivity. Qed.
Example base64_foob : base64_of (bytes_of "foob") = "Zm9vYg"%string.
Proof. reflexivity. Qed.
Example Ext_archive : filepath_Ext "a.b/p_x.anim" = ".anim"%string /\ filepath_Ext "a.b/c" = EmptyString.
Proof. split; reflexivity. Qed.
Example Rel_inside : filepath_Rel "/opt/pkg" (filepath_Join "/opt/pkg" "img/../a.png") = Some "a.png"%string.
Proof. reflexivity. Qed.
Example Rel_outside : filepath_Rel "/opt/pkg" (filepath_Join "/opt/pkg" "../x") = Some "../x"%string.
Proof. reflexivity. Qed.
