(* ===== verification/Actions.v ===== *)
(** * Stateful code with calls

    A state of its own, a list of the calls that were made and a world that answers them,
    as one monad; and weakest preconditions of its computations. *)

From Stdlib Require Import ZArith.
From S2P Require Import Prelude.

(** A component's own state, the events it caused, and what it calls. *)
Record Run (S E W : Type) := mkRun { rn_state : S; rn_events : list E; rn_world : W }.
Arguments mkRun {S E W}. Arguments rn_state {S E W}. Arguments rn_events {S E W}. Arguments rn_world {S E W}.

Definition act (S E W A : Type) : Type := Run S E W -> A * Run S E W.

#[export] Instance act_ret {S E W} : MRet (act S E W) := fun A a r => (a, r).
#[export] Instance act_bind {S E W} : MBind (act S E W) := fun A B k m r => let '(a, r) := m r in k a r.

Section Operations.
Context {S E W : Type}.
Notation act := (act S E W).

Definition read : act S := fun r => (rn_state r, r).
Definition modify (f : S -> S) : act unit := fun r => (tt, mkRun (f (rn_state r)) (rn_events r) (rn_world r)).
Definition log (e : E) : act unit := fun r => (tt, mkRun (rn_state r) (rn_events r ++ [e]) (rn_world r)).
Definition query {A} (f : W -> A * W) : act A :=
  fun r => ((f (rn_world r)).1, mkRun (rn_state r) (rn_events r) (f (rn_world r)).2).
(** What the world shows, without a call that changes it. *)
Definition look_at {A} (f : W -> A) : act A := fun r => (f (rn_world r), r).
Definition run_if (b : bool) (m : act unit) : act unit := if b then m else mret tt.

(** Loops over slices; the second stops at the first error. *)
Fixpoint for_each {A} (f : A -> act unit) (l : list A) : act unit :=
  match l with
  | [] => mret tt
  | x :: l => _ ← f x; for_each f l
  end.

(** ** Weakest preconditions *)

Definition wp {A} (m : act A) (Q : A -> Run S E W -> Prop) (r : Run S E W) : Prop := Q (m r).1 (m r).2.

Lemma wp_ret {A} (a : A) Q r : wp (mret a) Q r <-> Q a r.
Proof. done. Qed.
Lemma wp_bind {A B} (m : act A) (k : A -> act B) Q r : wp (m ≫= k) Q r <-> wp m (fun a r' => wp (k a) Q r') r.
Proof. unfold wp, mbind, act_bind. by destruct (m r). Qed.
Lemma wp_read Q r : wp read Q r <-> Q (rn_state r) r.
Proof. done. Qed.
Lemma wp_modify f Q r : wp (modify f) Q r <-> Q tt (mkRun (f (rn_state r)) (rn_events r) (rn_world r)).
Proof. done. Qed.
Lemma wp_log e Q r : wp (log e) Q r <-> Q tt (mkRun (rn_state r) (rn_events r ++ [e]) (rn_world r)).
Proof. done. Qed.
Lemma wp_query {A} (f : W -> A * W) Q r :
  wp (query f) Q r <-> Q (f (rn_world r)).1 (mkRun (rn_state r) (rn_events r) (f (rn_world r)).2).
Proof. done. Qed.
Lemma wp_look_at {A} (f : W -> A) Q r : wp (look_at f) Q r <-> Q (f (rn_world r)) r.
Proof. done. Qed.

Lemma wp_mono {A} (m : act A) (Q Q' : A -> Run S E W -> Prop) r :
  wp m Q r -> (forall a r', Q a r' -> Q' a r') -> wp m Q' r.
Proof. intros H HQ. by apply HQ. Qed.

Lemma wp_and {A} (m : act A) (Q Q' : A -> Run S E W -> Prop) r : wp m Q r -> wp m Q' r -> wp m (fun a r' => Q a r' /\ Q' a r') r.
Proof. done. Qed.

(** [m] keeps [I], and its results satisfy [Q]. *)
Lemma wp_step {A B} (m : act A) (k : A -> act B) Q R r :
  wp m Q r -> (forall a r', Q a r' -> wp (k a) R r') -> wp (m ≫= k) R r.
Proof. intros Hm Hk. apply wp_bind. by eapply wp_mono. Qed.

Lemma wp_for_each {A} (I : list A -> Run S E W -> Prop) (f : A -> act unit) l :
  (forall x l' r, I (x :: l') r -> wp (f x) (fun _ r' => I l' r') r) ->
  forall r, I l r -> wp (for_each f l) (fun _ r' => I [] r') r.
Proof.
  intros H. induction l as [|x l IH]; intros r Hr; [done|]. cbn [for_each]. eapply wp_step; [by apply H|].
  intros ? r' Hr'. by apply IH.
Qed.
End Operations.

(** Runs the operations at the head of a computation. *)
Ltac wp_run :=
  repeat first
    [ progress rewrite ?wp_bind, ?wp_ret, ?wp_read, ?wp_modify, ?wp_log, ?wp_query, ?wp_look_at
    | progress cbn [rn_state rn_events rn_world fst snd] ].

(** Replaces a call, at the head of a computation, by what [H] says of it. *)
Tactic Notation "wp_call" uconstr(H) :=
  lazymatch goal with
  | |- wp (mbind _ _) _ _ => eapply wp_step; [apply H; try done|]
  | _ => eapply wp_mono; [apply H; try done|]
  end.

(** Takes a computation apart, whatever is answered. *)
Ltac wp_cases :=
  repeat first
    [ progress wp_run
    | match goal with
      | |- wp (match ?x with _ => _ end) _ _ => destruct x eqn:?
      | |- wp (if ?x then _ else _) _ _ => destruct x eqn:?
      end ].
