(* ===== verification/Compiler.v ===== *)
(** * The scene compiler

    Models [internal/presentation/compiler.go]: the translation of a resolved scene into the
    values of the device's client library. The fields are those that the code sets; the
    library's constants and validators are the fields of [Busylib]. *)

From Stdlib Require Import ZArith Lia.
From S2P Require Import Prelude GoStrings GoTime GoJson Identifier Protocol Presentation Engine.

(** ** The values of the client library *)

Record BaseDisplayElement := mkBase { bd_ID : string; bd_X : Z; bd_Y : Z; bd_Display : string; bd_Align : string }.

Inductive DisplayElement :=
  | dTextElement (base : BaseDisplayElement) (text font color : string) (width scrollRate scrollStartDelay scrollRepeatDelay : Z)
  | dImageElement (base : BaseDisplayElement) (path stockPath : string)
  | dAnimationElement (base : BaseDisplayElement) (path stockPath : string) (loop : bool)
  | dCountdownElement (base : BaseDisplayElement) (timestamp color direction showHours : string)
  | dRectangleElement (base : BaseDisplayElement) (width height : Z) (fill : string) (borderWidth : Z) (fillColors : list string).

Record DisplayElements := mkDisplayElements { de_ApplicationName : string; de_Priority : Z; de_Elements : list DisplayElement }.
Record PlayAudio := mkPlayAudio { pa_ApplicationName : string; pa_Path : string; pa_StockPath : string }.
Record Warning := mkWarning { wn_Field : string; wn_Message : string }.

(** What the code uses of [busylib]: constants, and the validators of a scene, of audio and
    of the settings of a timer. *)
Record Busylib := mkBusylib {
  bl_FontNormal : string;
  bl_RectangleFillNone : string;
  bl_RectangleFillSolid : string;
  bl_CountdownTimeLeft : string;
  bl_Validate : DisplayElements -> option error;
  bl_Warnings : DisplayElements -> list Warning;
  bl_ValidateAudio : PlayAudio -> option error;
  bl_ValidateTheme : string -> option error;
}.

Section Compiler.
Context (lib : Busylib).

Definition CompileBusyTimer (theme : string) : option error :=
  match bl_ValidateTheme lib theme with
  | Some _ => Some (Wrapf "%w: %v" [] ErrInvalidPresentation)
  | None => None
  end.

Definition resolvedAssetPaths (path : string) (stock : bool) : string * string :=
  if stock then (EmptyString, path) else (path, EmptyString).

Definition base_of (element : Element) (align : string) : BaseDisplayElement :=
  mkBase (elem_ID element) (elem_X element) (elem_Y element) (elem_Display element) align.

Definition stock (asset : AssetRef) : bool := negb (asset_StockName asset =s EmptyString).

Definition compile_text (element : Element) (text : TextElement) : DisplayElement :=
  let font := if text_Font text =s EmptyString then bl_FontNormal lib else text_Font text in
  let '(rate, start, again) := match text_Marquee text with
                               | Some m => (mq_PixelsPerMinute m, mq_StartDelayMilliseconds m, mq_RepeatDelayMilliseconds m)
                               | None => (0, 0, 0)
                               end in
  dTextElement (base_of element (text_Align text)) (text_Value text) font (text_Color text) (text_Width text) rate start again.

Definition compile_rectangle (element : Element) (rect : RectangleElement) : DisplayElement :=
  let '(fill, colors) := if negb (rect_Color rect =s EmptyString) then (bl_RectangleFillSolid lib, [rect_Color rect])
                         else (bl_RectangleFillNone lib, []) in
  dRectangleElement (base_of element EmptyString) (rect_Width rect) (rect_Height rect) fill 0 colors.

(** One turn of the loop of [CompileScene]: [None] where no kind is set. *)
Definition compile_element (resolved : ResolvedElement) : option DisplayElement :=
  let element := resolved_Element resolved in
  match elem_Text element with
  | Some text => Some (compile_text element text)
  | None =>
    match elem_Image element with
    | Some image =>
      let '(path, stockPath) := resolvedAssetPaths (resolved_Path resolved) (stock (image_Asset image)) in
      Some (dImageElement (base_of element EmptyString) path stockPath)
    | None =>
      match elem_Animation element with
      | Some animation =>
        let '(path, stockPath) := resolvedAssetPaths (resolved_Path resolved) (stock (animation_Asset animation)) in
        Some (dAnimationElement (base_of element EmptyString) path stockPath (animation_Loop animation))
      | None =>
        match elem_Countdown element with
        | Some countdown =>
          Some (dCountdownElement (base_of element (countdown_Align countdown)) (format_int (countdown_EndsAtUnixSeconds countdown))
                  (countdown_Color countdown) (bl_CountdownTimeLeft lib) (countdown_ShowHours countdown))
        | None => compile_rectangle element <$> elem_Rectangle element
        end
      end
    end
  end.

Fixpoint compile_elements (elements : list ResolvedElement) : list DisplayElement + error :=
  match elements with
  | [] => inl []
  | element :: elements =>
    match compile_element element with
    | None => inr (Wrapf "%w: unsupported scene element %q" [EStr (elem_ID (resolved_Element element))] ErrInvalidPresentation)
    | Some compiled =>
      match compile_elements elements with
      | inl rest => inl (compiled :: rest)
      | inr err => inr err
      end
    end
  end.

Definition CompileScene (applicationName : string) (priority : Z) (scene : ResolvedScene) : DisplayElements + error :=
  match compile_elements (resolved_Elements scene) with
  | inr err => inr err
  | inl elements =>
    let request := mkDisplayElements applicationName priority elements in
    match bl_Validate lib request with
    | Some _ => inr (Wrapf "%w: %v" [] ErrInvalidPresentation)
    | None =>
      match bl_Warnings lib request with
      | warning :: _ => inr (Wrapf "%w: %s: %s" [EStr (wn_Field warning); EStr (wn_Message warning)] ErrInvalidPresentation)
      | [] => inl request
      end
    end
  end.

Definition CompileAudio (applicationName : string) (cue : ResolvedAudioCue) : PlayAudio + error :=
  let request := if stock (audio_Asset (resolved_Cue cue)) then mkPlayAudio applicationName EmptyString (resolved_CuePath cue)
                 else mkPlayAudio applicationName (resolved_CuePath cue) EmptyString in
  if resolved_CuePath cue =s EmptyString then inr (Wrapf "%w: audio asset has not been resolved" [] ErrInvalidPresentation)
  else match bl_ValidateAudio lib request with
       | Some _ => inr (Wrapf "%w: %v" [] ErrInvalidPresentation)
       | None => inl request
       end.

(** [AssetCompilerResolver] *)
Record AssetResolver := mkAssetResolver {
  rv_ResolveScene : string -> Scene -> ResolvedScene + error;
  rv_ResolveAudioCue : string -> AudioCue -> ResolvedAudioCue + error;
}.

Definition resolve_scene (resolver : option AssetResolver) (pluginID : string) (scene : Scene) : ResolvedScene + error :=
  match resolver with Some resolver => rv_ResolveScene resolver pluginID scene | None => inl (ResolveScene scene) end.
Definition resolve_audio (resolver : option AssetResolver) (pluginID : string) (cue : AudioCue) : ResolvedAudioCue + error :=
  match resolver with Some resolver => rv_ResolveAudioCue resolver pluginID cue | None => inl (ResolveAudioCue cue) end.

Definition or_error {A B} (a : A + error) (f : A -> B + error) : option error :=
  match a with
  | inr err => Some err
  | inl a => match f a with inr err => Some err | inl _ => None end
  end.
(** [if err != nil { return err }] *)
Definition or_else (err : option error) (rest : option error) : option error :=
  match err with Some err => Some err | None => rest end.

Definition ValidateObservation (pluginID : string) (observation : Observation) (resolver : option AssetResolver) : option error :=
  if obs_Disposition observation =s DispositionResolved then None
  else
    or_else (match obs_Scene observation with
             | Some scene => or_error (resolve_scene resolver pluginID scene) (CompileScene "bsbctl" 100)
             | None => None
             end)
   (or_else (match obs_BusyTimer observation with Some timer => CompileBusyTimer (busy_Theme timer) | None => None end)
      (match obs_Audio observation with
       | Some cue => or_error (resolve_audio resolver pluginID cue) (CompileAudio "bsbctl")
       | None => None
       end)).
End Compiler.

(** ** What a scene is shown as *)

Section Shown.
Context (lib : Busylib).

(** The identity, place, display and alignment of an element. *)
Record placed (element : Element) (align : string) (base : BaseDisplayElement) : Prop := {
  placed_ID : bd_ID base = elem_ID element;
  placed_X : bd_X base = elem_X element;
  placed_Y : bd_Y base = elem_Y element;
  placed_Display : bd_Display base = elem_Display element;
  placed_Align : bd_Align base = align;
}.

(** An asset is named once: in the firmware's own store if it has a name there, and by its
    path on the device if not. *)
Definition named (resolved : ResolvedElement) (asset : AssetRef) (path stockPath : string) : Prop :=
  (asset_StockName asset <> EmptyString -> path = EmptyString /\ stockPath = resolved_Path resolved)
  /\ (asset_StockName asset = EmptyString -> path = resolved_Path resolved /\ stockPath = EmptyString).

(** A text scrolls as its marquee says, and stands still without one. *)
Definition scrolls (text : TextElement) (rate start again : Z) : Prop :=
  match text_Marquee text with
  | None => rate = 0 /\ start = 0 /\ again = 0
  | Some m => rate = mq_PixelsPerMinute m /\ start = mq_StartDelayMilliseconds m /\ again = mq_RepeatDelayMilliseconds m
  end.

(** What each payload is on the device, field by field. *)
Inductive shows (resolved : ResolvedElement) : DisplayElement -> Prop :=
  | shows_text text base font rate start again :
      payloads (resolved_Element resolved) = [PText text] ->
      placed (resolved_Element resolved) (text_Align text) base ->
      (text_Font text = EmptyString -> font = bl_FontNormal lib) -> (text_Font text <> EmptyString -> font = text_Font text) ->
      scrolls text rate start again ->
      shows resolved (dTextElement base (text_Value text) font (text_Color text) (text_Width text) rate start again)
  | shows_image image base path stockPath :
      payloads (resolved_Element resolved) = [PImage image] ->
      placed (resolved_Element resolved) EmptyString base -> named resolved (image_Asset image) path stockPath ->
      shows resolved (dImageElement base path stockPath)
  | shows_animation animation base path stockPath :
      payloads (resolved_Element resolved) = [PAnimation animation] ->
      placed (resolved_Element resolved) EmptyString base -> named resolved (animation_Asset animation) path stockPath ->
      shows resolved (dAnimationElement base path stockPath (animation_Loop animation))
  | shows_solid rect base :
      payloads (resolved_Element resolved) = [PRectangle rect] ->
      placed (resolved_Element resolved) EmptyString base -> rect_Color rect <> EmptyString ->
      shows resolved (dRectangleElement base (rect_Width rect) (rect_Height rect) (bl_RectangleFillSolid lib) 0 [rect_Color rect])
  | shows_hollow rect base :
      payloads (resolved_Element resolved) = [PRectangle rect] ->
      placed (resolved_Element resolved) EmptyString base -> rect_Color rect = EmptyString ->
      shows resolved (dRectangleElement base (rect_Width rect) (rect_Height rect) (bl_RectangleFillNone lib) 0 [])
  | shows_countdown countdown base timestamp :
      payloads (resolved_Element resolved) = [PCountdown countdown] ->
      placed (resolved_Element resolved) (countdown_Align countdown) base ->
      timestamp = format_int (countdown_EndsAtUnixSeconds countdown) ->
      shows resolved (dCountdownElement base timestamp (countdown_Color countdown) (bl_CountdownTimeLeft lib) (countdown_ShowHours countdown)).

Lemma base_of_placed element align : placed element align (base_of element align).
Proof. done. Qed.

Lemma resolvedAssetPaths_named resolved asset :
  named resolved asset (resolvedAssetPaths (resolved_Path resolved) (stock asset)).1 (resolvedAssetPaths (resolved_Path resolved) (stock asset)).2.
Proof. unfold named, resolvedAssetPaths, stock. by destruct (String.eqb_spec (asset_StockName asset) EmptyString). Qed.

Lemma compile_text_shows resolved text :
  payloads (resolved_Element resolved) = [PText text] -> shows resolved (compile_text lib (resolved_Element resolved) text).
Proof.
  intros Hp. unfold compile_text. destruct (text_Marquee text) as [m|] eqn:Hm; apply shows_text; try done.
  all: first [unfold scrolls; by rewrite Hm|by destruct (String.eqb_spec (text_Font text) EmptyString)].
Qed.

Lemma compile_rectangle_shows resolved rect :
  payloads (resolved_Element resolved) = [PRectangle rect] -> shows resolved (compile_rectangle lib (resolved_Element resolved) rect).
Proof.
  intros Hp. unfold compile_rectangle. destruct (String.eqb_spec (rect_Color rect) EmptyString) as [He|He]; cbn.
  - by apply shows_hollow.
  - by apply shows_solid.
Qed.

Lemma compile_element_shows resolved payload : payloads (resolved_Element resolved) = [payload] ->
  exists shown, compile_element lib resolved = Some shown /\ shows resolved shown.
Proof.
  intros Hp. pose proof (resolvedAssetPaths_named resolved) as Hn. revert Hn Hp.
  pose proof (compile_text_shows resolved) as Ht. pose proof (compile_rectangle_shows resolved) as Hr. revert Ht Hr.
  unfold compile_element, payloads.
  destruct (elem_Text _) as [text|] eqn:E1, (elem_Image _) as [image|] eqn:E2, (elem_Animation _) as [animation|] eqn:E3,
    (elem_Rectangle _) as [rect|] eqn:E4, (elem_Countdown _) as [countdown|] eqn:E5; cbn; try done; intros Ht Hr Hn _.
  - eexists. split; [done|by apply Ht].
  - specialize (Hn (image_Asset image)). destruct (resolvedAssetPaths _ _). eexists. split; [done|].
    eapply shows_image; [|apply base_of_placed|exact Hn]. unfold payloads. by rewrite E1, E2, E3, E4, E5.
  - specialize (Hn (animation_Asset animation)). destruct (resolvedAssetPaths _ _). eexists. split; [done|].
    eapply shows_animation; [|apply base_of_placed|exact Hn]. unfold payloads. by rewrite E1, E2, E3, E4, E5.
  - eexists. split; [done|by apply Hr].
  - eexists. split; [done|]. eapply shows_countdown; [|apply base_of_placed|done]. unfold payloads. by rewrite E1, E2, E3, E4, E5.
Qed.

Lemma compile_elements_show elements : Forall (fun resolved => ValidElement (resolved_Element resolved)) elements ->
  exists shown, compile_elements lib elements = inl shown /\ Forall2 shows elements shown.
Proof.
  induction 1 as [|resolved elements [_ _ (payload & Hp & _)] _ (shown & Es & Hs)]; [by exists []|].
  destruct (compile_element_shows resolved payload Hp) as (one & E1 & H1).
  exists (one :: shown). cbn. rewrite E1, Es. split; [done|by constructor].
Qed.

(** C40: A valid scene, with its assets resolved, is never refused as unsupported: each of its
    elements becomes the one element that its payload stands for, field by field: its
    identity, place, display and alignment, the text with its font, width and marquee, the
    colours, the path of an asset or its name in the firmware's store, the time of a
    countdown; in the order of the scene. Only the library's validator and its warnings can
    refuse the result. *)
Theorem compile_valid_scene applicationName priority resolved :
  Scene_Validate (mkScene (map resolved_Element (resolved_Elements resolved))) = None ->
  exists elements, Forall2 shows (resolved_Elements resolved) elements /\
    let request := mkDisplayElements applicationName priority elements in
    CompileScene lib applicationName priority resolved
    = match bl_Validate lib request, bl_Warnings lib request with
      | Some _, _ => inr (Wrapf "%w: %v" [] ErrInvalidPresentation)
      | None, warning :: _ => inr (Wrapf "%w: %s: %s" [EStr (wn_Field warning); EStr (wn_Message warning)] ErrInvalidPresentation)
      | None, [] => inl request
      end.
Proof.
  intros [_ Hv _]%Scene_Validate_None. cbn [scene_Elements] in Hv. rewrite Forall_map in Hv.
  destruct (compile_elements_show _ Hv) as (shown & Es & Hs). exists shown. split; [done|].
  unfold CompileScene. by rewrite Es.
Qed.
End Shown.

Definition demo_busylib : Busylib := mkBusylib "normal" "none" "solid" "time_left" (fun _ => None) (fun _ => []) (fun _ => None) (fun _ => None).
Definition demo_resolved : ResolvedScene := mkResolvedScene
  [mkResolvedElement (mkElement "logo" DisplayFront 0 0 None (Some (mkImageElement (mkAssetRef "images/logo.png" EmptyString))) None None None) "/ext/logo.png";
   mkResolvedElement (mkElement "frame" DisplayFront 0 0 None None None (Some (mkRectangleElement 10 10 "#00FF00FF")) None) EmptyString].

Lemma compile_valid_scene_witness : exists elements, Forall2 (shows demo_busylib) (resolved_Elements demo_resolved) elements
  /\ CompileScene demo_busylib "bsbctl" 50 demo_resolved = inl (mkDisplayElements "bsbctl" 50 elements).
Proof. apply (compile_valid_scene demo_busylib "bsbctl" 50 demo_resolved). vm_compute. reflexivity. Defined.
