(* ===== verification/Gateway.v ===== *)
(** * The gateway of the device's display

    Models [internal/device/gateway.go]. The gateway holds its mutex during [Render], so
    each operation is a function of the gateway and the world. A call to the display, the
    clock or the asset resolver is a field of [GatewayCalls]; the calls to the display are
    also logged, with what they returned. *)

From Stdlib Require Import ZArith Lia.
From S2P Require Import Prelude GoStrings GoTime GoJson Identifier Protocol Presentation Engine GoEncoding Actions Compiler.

Definition ApplicationName : string := "bsbctl".
Definition maxPlayedAudioCues : Z := 256.

(** [Time.UnixMilli]: milliseconds since the first of January 1970. *)
Definition unix_epoch : Z := 62135596800 * Second.
Definition UnixMilli (t : Time) : Z := i64 ((instant t - unix_epoch) / Millisecond).
Definition Minute : Z := dur_mul 60 Second.
(** [Duration.Milliseconds] *)
Definition Milliseconds (d : Z) : Z := Z.quot d Millisecond.

(** ** Audio cues *)

Record audioCueIdentity := mkCueIdentity {
  ci_pluginID : string;
  ci_instanceID : string;
  ci_generation : Z;
  ci_cueID : string;
  ci_assetPath : string;
}.

#[export] Instance audioCueIdentity_eq_dec : EqDecision audioCueIdentity.
Proof. solve_decision. Defined.
#[export] Instance audioCueIdentity_countable : Countable audioCueIdentity.
Proof.
  apply (inj_countable' (fun i => (ci_pluginID i, ci_instanceID i, ci_generation i, ci_cueID i, ci_assetPath i))
           (fun '(p, i, g, c, a) => mkCueIdentity p i g c a)).
  by intros [].
Defined.

Definition less (i other : audioCueIdentity) : bool :=
  if negb (ci_pluginID i =s ci_pluginID other) then cmp_strings (ci_pluginID i) (ci_pluginID other) <? 0
  else if negb (ci_instanceID i =s ci_instanceID other) then cmp_strings (ci_instanceID i) (ci_instanceID other) <? 0
  else if negb (ci_generation i =? ci_generation other) then ci_generation i <? ci_generation other
  else if negb (ci_assetPath i =s ci_assetPath other) then cmp_strings (ci_assetPath i) (ci_assetPath other) <? 0
  else cmp_strings (ci_cueID i) (ci_cueID other) <? 0.

Record preparedAudioCue := mkPreparedCue { pc_request : PlayAudio; pc_identity : audioCueIdentity; pc_expiresAt : Time }.

Record AudioStatus := mkAudioStatus { as_Attempts : Z; as_LastErrorCode : string }.

(** ** Timers of the device *)

(** Of the settings only the theme is looked at; the others are copied. *)
Record BusyBarSettings := mkBusyBarSettings { bs_Theme : string; bs_others : string }.
Record BusySnapshotData := mkBusySnapshotData {
  bd_Type : string;
  bd_CardID : string;
  bd_TimeLeftMS : option Z;
  bd_IsPaused : option bool;
  bd_Settings : BusyBarSettings;
}.
Record BusySnapshot := mkBusySnapshot { sn_TimestampMS : Z; sn_Snapshot : BusySnapshotData }.

(** ** The gateway *)

(** A digest is the 32 bytes of a SHA-256. *)
Record Gateway := mkGateway {
  g_lastDigest : string;
  g_lastTopology : string;
  g_hasScene : bool;
  g_lastPriority : Z;
  g_busyCardID : string;
  g_busyDigest : string;
  g_playedAudio : gmap audioCueIdentity Time;
  g_lastAudioErr : string;
  g_audioAttempts : Z;
}.

Definition zero_digest : string := String.string_of_list_ascii (repeat Ascii.zero 32).

Definition newGateway : Gateway := mkGateway zero_digest zero_digest false 0 EmptyString zero_digest ∅ EmptyString 0.

(** [hasScene], [lastDigest], [lastTopology] and [lastPriority] *)
Definition set_scene (has : bool) (digest topology : string) (priority : Z) (g : Gateway) : Gateway :=
  mkGateway digest topology has priority (g_busyCardID g) (g_busyDigest g) (g_playedAudio g) (g_lastAudioErr g) (g_audioAttempts g).
Definition set_busy (cardID digest : string) (g : Gateway) : Gateway :=
  mkGateway (g_lastDigest g) (g_lastTopology g) (g_hasScene g) (g_lastPriority g) cardID digest
    (g_playedAudio g) (g_lastAudioErr g) (g_audioAttempts g).
Definition set_audio (played : gmap audioCueIdentity Time) (err : string) (attempts : Z) (g : Gateway) : Gateway :=
  mkGateway (g_lastDigest g) (g_lastTopology g) (g_hasScene g) (g_lastPriority g) (g_busyCardID g) (g_busyDigest g) played err attempts.

Definition resetScene (g : Gateway) : Gateway := set_scene false zero_digest zero_digest 0 g.
Definition resetBusyTimer (g : Gateway) : Gateway := set_busy EmptyString zero_digest g.
(** [g.hasScene = true] *)
Definition own_scene (g : Gateway) : Gateway := set_scene true (g_lastDigest g) (g_lastTopology g) (g_lastPriority g) g.

Definition Gateway_Status (g : Gateway) : AudioStatus := mkAudioStatus (g_audioAttempts g) (g_lastAudioErr g).
Definition InvalidateCanvas (g : Gateway) : Gateway := resetScene g.
Definition InvalidateConnection (g : Gateway) : Gateway :=
  set_busy (g_busyCardID g) zero_digest (set_scene (g_hasScene g) zero_digest (g_lastTopology g) (g_lastPriority g) g).

(** ** Identities *)

(** [s[from:to]] *)
Definition slice (from to : nat) (l : list Z) : list Z := take (to - from) (drop from l).

Definition resolvedElementType (element : ResolvedElement) : string :=
  let e := resolved_Element element in
  if is_some (elem_Text e) then "text"
  else if is_some (elem_Image e) then "image"
  else if is_some (elem_Animation e) then "animation"
  else if is_some (elem_Rectangle e) then "rectangle"
  else if is_some (elem_Countdown e) then "countdown"
  else EmptyString.

Record elementTopology := mkElementTopology { et_ID : string; et_Type : string; et_Display : string }.
Definition topology_of (element : ResolvedElement) : elementTopology :=
  mkElementTopology (elem_ID (resolved_Element element)) (resolvedElementType element) (elem_Display (resolved_Element element)).

(** ["{"id":_,"type":_,"display":_}"], as [encoding/json] writes it. *)
Definition json_field (name value : string) : string := json_string name +:+ ":" +:+ value.
Definition json_topology (t : elementTopology) : string :=
  "{" +:+ json_field "id" (json_string (et_ID t)) +:+ "," +:+ json_field "type" (json_string (et_Type t))
  +:+ "," +:+ json_field "display" (json_string (et_Display t)) +:+ "}".
Definition json_topologies (l : list elementTopology) : string := "[" +:+ join_strings "," (map json_topology l) +:+ "]".

Section Gateway.
Context {W : Type}.

(** [BusyTimerDisplay]; [bz_ParseTime] is [time.Parse] of a timestamp in RFC 3339. *)
Record BusyTimerDisplay := mkBusyTimerDisplay {
  bz_BusySnapshot : W -> (BusySnapshot + error) * W;
  bz_SetBusySnapshot : BusySnapshot -> W -> option error * W;
  bz_DeviceTime : W -> (string + error) * W;
}.

(** [Display] and the interfaces that it may implement as well. *)
Record Display := mkDisplay {
  dp_Draw : DisplayElements -> W -> option error * W;
  dp_Clear : string -> W -> option error * W;
  dp_BusyTimer : option BusyTimerDisplay;
  dp_PlayAudio : option (PlayAudio -> W -> option error * W);
}.

(** [AssetResolver], and [AudioAssetResolver] if it is one. *)
Record Resolver := mkResolver {
  gr_ResolveScene : string -> Scene -> W -> ResolvedScene + error;
  gr_ResolveAudioCue : option (string -> AudioCue -> W -> ResolvedAudioCue + error);
}.

(** [gc_conflict] is whether an error is an API error of status 409, [gc_encode] is
    [json.Marshal] of the library's scene, and [gc_sum] is [sha256.Sum256]. *)
Record GatewayCalls := mkGatewayCalls {
  gc_display : option Display;
  gc_assets : option Resolver;
  gc_lib : Busylib;
  gc_Simple : string;
  gc_NotStarted : string;
  gc_conflict : error -> bool;
  gc_encode : DisplayElements -> string + error;
  gc_sum : string -> string;
  gc_ParseTime : string -> Time + error;
  gc_now : W -> Time * W;
  gc_verifyDelay : Z -> W -> option error * W;
}.

Context (calls : GatewayCalls).

Inductive gwEvent :=
  | GwDraw (request : DisplayElements) (err : option error)
  | GwClear (err : option error)
  | GwSetBusy (request : BusySnapshot) (err : option error)
  | GwPlay (request : PlayAudio) (err : option error).

Notation act := (act Gateway gwEvent W).

Definition busyCardID (identity : string) : string :=
  let value := bytes_of (gc_sum calls identity) in
  let value := <[6%nat := Z.lor (Z.land (nth 6 value 0) 15) 80]> value in
  let value := <[8%nat := Z.lor (Z.land (nth 8 value 0) 63) 128]> value in
  join_strings "-" (map hex_of [slice 0 4 value; slice 4 6 value; slice 6 8 value; slice 8 10 value; slice 10 16 value]).

Definition sceneTopology (scene : ResolvedScene) : string :=
  gc_sum calls (json_topologies (SortFunc (cmp_key et_ID) (map topology_of (resolved_Elements scene)))).

(** ** Calls of the display *)

Definition do_Draw (d : Display) (request : DisplayElements) : act (option error) :=
  err ← query (dp_Draw d request); _ ← log (GwDraw request err); mret err.
Definition do_Clear (d : Display) : act (option error) :=
  err ← query (dp_Clear d ApplicationName); _ ← log (GwClear err); mret err.
Definition do_SetBusy (b : BusyTimerDisplay) (request : BusySnapshot) : act (option error) :=
  err ← query (bz_SetBusySnapshot b request); _ ← log (GwSetBusy request err); mret err.
Definition do_Play (play : PlayAudio -> W -> option error * W) (request : PlayAudio) : act (option error) :=
  err ← query (play request); _ ← log (GwPlay request err); mret err.

(** ** Compiling a candidate *)

(** An error of [compileCandidate], and its outcome if it is a [renderOutcomeError]. *)
Record renderError := mkRenderError { rd_outcome : option string; rd_err : error }.
Definition renderErrorOutcome (err : renderError) (fallback : string) : string :=
  match rd_outcome err with Some outcome => outcome | None => fallback end.
Definition plain (err : error) : renderError := mkRenderError None err.
Definition missing (format : string) (err : error) : renderError := mkRenderError (Some OutcomeAssetMissing) (Wrapf format [] err).

Definition compileAudioCue (candidate : Candidate) : act (option preparedAudioCue + renderError) :=
  match cand_AudioCue candidate with
  | None => mret (inl None)
  | Some cue =>
    now ← query (gc_now calls);
    if negb (After (audio_ExpiresAt cue) now) then mret (inl None)
    else
      resolved ← match gc_assets calls with
                 | Some (mkResolver _ (Some resolve)) => look_at (resolve (cand_PluginID candidate) cue)
                 | _ => mret (inl (ResolveAudioCue cue))
                 end;
      mret match resolved with
           | inr err => inr (missing "resolve selected audio asset: %w" err)
           | inl resolved =>
             match CompileAudio (gc_lib calls) ApplicationName resolved with
             | inr err => inr (plain err)
             | inl request =>
               inl (Some (mkPreparedCue request
                 (mkCueIdentity (cand_PluginID candidate) (cand_InstanceID candidate) (cand_Generation candidate)
                    (audio_ID cue) (resolved_CuePath resolved)) (audio_ExpiresAt cue)))
             end
           end
  end.

Definition compileScene (candidate : Candidate) : act (ResolvedScene * DisplayElements + renderError) :=
  resolved ← match gc_assets calls with
             | Some assets => look_at (gr_ResolveScene assets (cand_PluginID candidate) (cand_Scene candidate))
             | None => mret (inl (ResolveScene (cand_Scene candidate)))
             end;
  mret match resolved with
       | inr err => inr (missing "resolve selected assets: %w" err)
       | inl resolved =>
         match CompileScene (gc_lib calls) ApplicationName (EffectiveDevicePriority candidate) resolved with
         | inr err => inr (plain err)
         | inl request => inl (resolved, request)
         end
       end.

Definition no_scene : ResolvedScene * DisplayElements := (mkResolvedScene [], mkDisplayElements EmptyString 0 []).

Definition compileCandidate (candidate : Candidate) :
    act (ResolvedScene * DisplayElements * option preparedAudioCue + renderError) :=
  compiled ← match cand_BusyTimer candidate with
             | None => compileScene candidate
             | Some timer =>
               mret match CompileBusyTimer (gc_lib calls) (busy_Theme timer) with
                    | Some err => inr (plain err)
                    | None => inl no_scene
                    end
             end;
  match compiled with
  | inr err => mret (inr err)
  | inl scene =>
    audio ← compileAudioCue candidate;
    mret match audio with inr err => inr err | inl audio => inl (scene, audio) end
  end.

(** ** Audio *)

(** [expiresAt.Before(oldestExpiry) || (expiresAt.Equal(oldestExpiry) && id.less(oldestID))] *)
Definition older (a b : audioCueIdentity * Time) : bool :=
  Before a.2 b.2 || ((instant a.2 =? instant b.2) && less a.1 b.1).
Definition oldest (first : audioCueIdentity * Time) (l : list (audioCueIdentity * Time)) : audioCueIdentity * Time :=
  fold_left (fun oldest cue => if older cue oldest then cue else oldest) l first.

(** [g.playedAudio[cue.identity] = cue.expiresAt], and the eviction. *)
Definition remember (cue : preparedAudioCue) (played : gmap audioCueIdentity Time) : gmap audioCueIdentity Time :=
  let played := <[pc_identity cue := pc_expiresAt cue]> played in
  if maxPlayedAudioCues <? Z.of_nat (size played)
  then delete (oldest (pc_identity cue, pc_expiresAt cue) (map_to_list played)).1 played
  else played.

Definition playAudioCue (d : Display) (cue : option preparedAudioCue) : act unit :=
  match cue with
  | None => mret tt
  | Some cue =>
    now ← query (gc_now calls);
    _ ← modify (fun g => set_audio (filter (fun p => After p.2 now = true) (g_playedAudio g)) (g_lastAudioErr g) (g_audioAttempts g) g);
    g ← read;
    if negb (After (pc_expiresAt cue) now) then mret tt
    else if is_some (g_playedAudio g !! pc_identity cue) then mret tt
    else
      _ ← modify (fun g => set_audio (remember cue (g_playedAudio g)) EmptyString (u64_succ (g_audioAttempts g)) g);
      match dp_PlayAudio d with
      | None => modify (fun g => set_audio (g_playedAudio g) "audio_unsupported" (g_audioAttempts g) g)
      | Some play =>
        err ← do_Play play (pc_request cue);
        run_if (is_some err) (modify (fun g => set_audio (g_playedAudio g) "audio_play_failed" (g_audioAttempts g) g))
      end
  end.

(** ** Timers *)

Definition failed (outcome format : string) (err : error) : string * option error := (outcome, Some (Wrapf format [] err)).
Definition unavailable (format : string) (err : error) : string * option error := failed OutcomeDeviceUnavailable format err.

(** The timestamp of the next snapshot, if it is not too far ahead of the device. *)
Definition next_timestamp (current : BusySnapshot) (deviceNow : Time) : option Z :=
  let timestampMS := Z.max (i64 (sn_TimestampMS current + 1)) (UnixMilli deviceNow) in
  if UnixMilli (Add deviceNow Minute) <? timestampMS then None else Some timestampMS.

(** [device.DeviceTime] and [time.Parse]; the error is already wrapped. *)
Definition device_now (b : BusyTimerDisplay) (read_format parse_format : string) : act (Time + error) :=
  timestamp ← query (bz_DeviceTime b);
  mret match timestamp with
       | inr err => inr (Wrapf read_format [] err)
       | inl timestamp =>
         match gc_ParseTime calls timestamp with
         | inr err => inr (Wrapf parse_format [] err)
         | inl now => inl now
         end
       end.

Definition stopOwnedBusyTimer (d : Display) : act (bool + error) :=
  g ← read;
  if g_busyCardID g =s EmptyString then mret (inl false)
  else
    match dp_BusyTimer d with
    | None => mret (inr (Errorf "device display does not support native BUSY timers" []))
    | Some b =>
      current ← query (bz_BusySnapshot b);
      match current with
      | inr err => mret (inr (Wrapf "read busy timer before stopping: %w" [] err))
      | inl current =>
        if negb (bd_CardID (sn_Snapshot current) =s g_busyCardID g) then _ ← modify resetBusyTimer; mret (inl false)
        else
          deviceNow ← device_now b "read device time before stopping busy timer: %w" "parse device time: %w";
          match deviceNow with
          | inr err => mret (inr err)
          | inl deviceNow =>
            match next_timestamp current deviceNow with
            | None => mret (inr (Errorf "busy timer stop timestamp is too far ahead of device time" []))
            | Some timestampMS =>
              err ← do_SetBusy b (mkBusySnapshot timestampMS
                      (mkBusySnapshotData (gc_NotStarted calls) EmptyString None None (bd_Settings (sn_Snapshot current))));
              match err with
              | Some err => mret (inr (Wrapf "stop native busy timer: %w" [] err))
              | None => _ ← modify resetBusyTimer; mret (inl true)
              end
            end
          end
      end
    end.

(** The device shows the timer that was asked for. *)
Definition applied (cardID theme : string) (requestedMS : Z) (value : BusySnapshot) : bool :=
  let data := sn_Snapshot value in
  (bd_Type data =s gc_Simple calls) && (bd_CardID data =s cardID) && (bs_Theme (bd_Settings data) =s theme)
  && match bd_IsPaused data with Some paused => negb paused | None => false end
  && match bd_TimeLeftMS data with Some timeLeft => (0 <? timeLeft) && (timeLeft <=? requestedMS) | None => false end.

(** [attempts] is how many are left. *)
Fixpoint verify_from (attempts : nat) (b : BusyTimerDisplay) (cardID theme : string) (requestedMS : Z) : act (option error) :=
  match attempts with
  | O => mret (errors_New "device did not apply native busy timer snapshot")
  | S attempts =>
    value ← query (bz_BusySnapshot b);
    match value with
    | inr err => mret (Some (Wrapf "verify native busy timer: %w" [] err))
    | inl value =>
      if applied cardID theme requestedMS value then mret None
      else if Nat.eqb attempts 0 then verify_from attempts b cardID theme requestedMS
      else
        err ← query (gc_verifyDelay calls (dur_mul 50 Millisecond));
        match err with
        | Some err => mret (Some (Wrapf "wait to verify native busy timer: %w" [] err))
        | None => verify_from attempts b cardID theme requestedMS
        end
    end
  end.
Definition verifyBusyTimer : BusyTimerDisplay -> string -> string -> Z -> act (option error) := verify_from 3.

Definition json_busy (cardID theme expires : string) : string :=
  "{" +:+ json_field "card_id" (json_string cardID) +:+ "," +:+ json_field "theme" (json_string theme)
  +:+ "," +:+ json_field "expires_at" expires +:+ "}".

(** [SetBusySnapshot], and the readback. *)
Definition start_timer (b : BusyTimerDisplay) (cardID theme digest : string) (remainingMS timestampMS : Z) (current : BusySnapshot) :
    act (string * option error) :=
  let settings := mkBusyBarSettings theme (bs_others (bd_Settings (sn_Snapshot current))) in
  err ← do_SetBusy b (mkBusySnapshot timestampMS
          (mkBusySnapshotData (gc_Simple calls) cardID (Some remainingMS) (Some false) settings));
  match err with
  | Some err => mret (unavailable "start native busy timer: %w" err)
  | None =>
    _ ← modify (set_busy cardID zero_digest);
    err ← verifyBusyTimer b cardID theme remainingMS;
    match err with
    | Some err => mret (OutcomeDeviceUnavailable, Some err)
    | None => _ ← modify (set_busy cardID digest); mret (OutcomeDrawn, None)
    end
  end.

Definition replace_with_timer (d : Display) (b : BusyTimerDisplay) (cardID theme digest : string) (remainingMS : Z) :
    act (string * option error) :=
  err ← do_Clear d;
  match err with
  | Some err => mret (unavailable "clear before starting busy timer: %w" err)
  | None =>
    _ ← modify resetScene;
    current ← query (bz_BusySnapshot b);
    match current with
    | inr err => mret (unavailable "read current busy timer: %w" err)
    | inl current =>
      deviceNow ← device_now b "read device time: %w" "parse device time: %w";
      match deviceNow with
      | inr err => mret (OutcomeDeviceUnavailable, Some err)
      | inl deviceNow =>
        match next_timestamp current deviceNow with
        | None => mret (OutcomeDeviceUnavailable, errors_New "busy timer snapshot timestamp is too far ahead of device time")
        | Some timestampMS => start_timer b cardID theme digest remainingMS timestampMS current
        end
      end
    end
  end.

Definition renderBusyTimer (d : Display) (candidate : Candidate) (timer : BusyTimerPresentation) : act (string * option error) :=
  match dp_BusyTimer d with
  | None => mret (OutcomeDeviceUnavailable, errors_New "device display does not support native BUSY timers")
  | Some b =>
    let cardID := busyCardID (Candidate_ID candidate) in
    match Time_MarshalJSON (UTC (cand_ExpiresAt candidate)) with
    | inr err => mret (failed OutcomeInvalidPresentation "encode selected busy timer: %w" err)
    | inl expires =>
      let digest := gc_sum calls (json_busy cardID (busy_Theme timer) expires) in
      g ← read;
      if negb (g_busyCardID g =s EmptyString) && (digest =s g_busyDigest g) then mret (OutcomeUnchanged, None)
      else
        now ← query (gc_now calls);
        let remaining := Sub (cand_ExpiresAt candidate) now in
        if remaining <=? 0 then mret (OutcomeInvalidPresentation, errors_New "selected busy timer has expired")
        else
          let remainingMS := if Milliseconds remaining <=? 0 then 1 else Milliseconds remaining in
          replace_with_timer d b cardID (busy_Theme timer) digest remainingMS
    end
  end.

(** ** [Render] *)

Definition render_nothing (d : Display) : act (string * option error) :=
  stopped ← stopOwnedBusyTimer d;
  match stopped with
  | inr err => mret (OutcomeDeviceUnavailable, Some err)
  | inl stoppedTimer =>
    g ← read;
    if negb (g_hasScene g) then mret (if stoppedTimer : bool then OutcomeCleared else OutcomeUnchanged, None)
    else
      err ← do_Clear d;
      match err with
      | Some err => mret (unavailable "clear bsbctl display: %w" err)
      | None => _ ← modify resetScene; mret (OutcomeCleared, None)
      end
  end.

(** The draw itself, once nothing is in its way. *)
Definition draw_scene (d : Display) (request : DisplayElements) (digest topology : string) (audio : option preparedAudioCue) :
    act (string * option error) :=
  _ ← modify own_scene;
  err ← do_Draw d request;
  match err with
  | Some err =>
    if gc_conflict calls err then _ ← modify (fun g => resetBusyTimer (resetScene g)); mret (OutcomeFirmwareSuppressed, None)
    else mret (unavailable "draw bsbctl display: %w" err)
  | None =>
    _ ← modify (set_scene true digest topology (de_Priority request));
    _ ← playAudioCue d audio;
    mret (OutcomeDrawn, None)
  end.

(** The scene must be cleared before the next is drawn. *)
Definition replaces (topology : string) (priority : Z) (g : Gateway) : bool :=
  g_hasScene g && (negb (topology =s g_lastTopology g) || (priority <? g_lastPriority g)).

Definition render_scene (d : Display) (resolved : ResolvedScene) (request : DisplayElements) (audio : option preparedAudioCue) :
    act (string * option error) :=
  let topology := sceneTopology resolved in
  match gc_encode calls request with
  | inr err => mret (failed OutcomeInvalidPresentation "encode selected scene: %w" err)
  | inl payload =>
    let digest := gc_sum calls payload in
    g ← read;
    if g_hasScene g && (digest =s g_lastDigest g) then _ ← playAudioCue d audio; mret (OutcomeUnchanged, None)
    else if replaces topology (de_Priority request) g then
      err ← do_Clear d;
      match err with
      | Some err => mret (unavailable "clear before replacing display scene: %w" err)
      | None => _ ← modify resetScene; draw_scene d request digest topology audio
      end
    else draw_scene d request digest topology audio
  end.

Definition render_candidate (d : Display) (candidate : Candidate) : act (string * option error) :=
  match Candidate_Validate candidate with
  | Some _ => mret (failed OutcomeInvalidPresentation "%w: validate selected candidate: %v" ErrInvalidPresentation)
  | None =>
    compiled ← compileCandidate candidate;
    match compiled with
    | inr err => mret (renderErrorOutcome err OutcomeInvalidPresentation, Some (rd_err err))
    | inl (resolved, request, audio) =>
      match cand_BusyTimer candidate with
      | Some timer =>
        result ← renderBusyTimer d candidate timer;
        match (result : string * option error).2 with
        | Some _ => mret result
        | None => _ ← playAudioCue d audio; mret (result.1, None)
        end
      | None =>
        stopped ← stopOwnedBusyTimer d;
        match stopped with
        | inr err => mret (OutcomeDeviceUnavailable, Some err)
        | inl _ => render_scene d resolved request audio
        end
      end
    end
  end.

Definition Render (candidate : option Candidate) : act (string * option error) :=
  match gc_display calls with
  | None => mret (OutcomeDeviceUnavailable, errors_New "device display is not configured")
  | Some d => match candidate with None => render_nothing d | Some candidate => render_candidate d candidate end
  end.
End Gateway.
