(* ===== verification/GatewayCanvas.v ===== *)
(** * What the gateway leaves on the device

    Over a device whose canvas and timer behave as documented: the weakest preconditions of
    every operation of [Gateway.v], up to that of [Render]. *)

From Stdlib Require Import ZArith Lia.
From S2P Require Import Prelude GoStrings GoTime GoJson Identifier Protocol Presentation Engine GoEncoding Actions Compiler Gateway.

(** ** A device with a canvas *)

(** What the device is documented to do. [sc_canvas] is the scene of this application that
    it shows, and [sc_card] the card of its timer. A scene that is drawn replaces the one
    before, and one that conflicts is not shown, because the firmware shows something else
    in its place; a call that fails for another reason may have taken effect. Starting a
    timer may close the canvas. Other calls show nothing. *)
Class Screen {W} (calls : GatewayCalls (W := W)) (d : Display (W := W)) := {
  sc_canvas : W -> option DisplayElements;
  sc_card : W -> string;
  sc_draw request w : let '(err, w') := dp_Draw d request w in sc_card w' = sc_card w /\
    match err with
    | None => sc_canvas w' = Some request
    | Some err => if gc_conflict calls err then sc_canvas w' = None
                  else sc_canvas w' = sc_canvas w \/ sc_canvas w' = Some request \/ sc_canvas w' = None
    end;
  sc_clear w : let '(err, w') := dp_Clear d ApplicationName w in sc_card w' = sc_card w /\
    match err with None => sc_canvas w' = None | Some _ => sc_canvas w' = sc_canvas w \/ sc_canvas w' = None end;
  sc_play play request w : dp_PlayAudio d = Some play ->
    sc_canvas (play request w).2 = sc_canvas w /\ sc_card (play request w).2 = sc_card w;
  sc_now w : sc_canvas (gc_now calls w).2 = sc_canvas w /\ sc_card (gc_now calls w).2 = sc_card w;
  sc_delay t w : sc_canvas (gc_verifyDelay calls t w).2 = sc_canvas w /\ sc_card (gc_verifyDelay calls t w).2 = sc_card w;
  sc_snapshot b w : dp_BusyTimer d = Some b -> let '(value, w') := bz_BusySnapshot b w in
    sc_canvas w' = sc_canvas w /\ sc_card w' = sc_card w
    /\ match value with inl s => bd_CardID (sn_Snapshot s) = sc_card w | inr _ => True end;
  sc_time b w : dp_BusyTimer d = Some b ->
    sc_canvas (bz_DeviceTime b w).2 = sc_canvas w /\ sc_card (bz_DeviceTime b w).2 = sc_card w;
  sc_setBusy b request w : dp_BusyTimer d = Some b -> let '(err, w') := bz_SetBusySnapshot b request w in
    (sc_canvas w' = sc_canvas w \/ sc_canvas w' = None)
    /\ match err with
       | None => sc_card w' = bd_CardID (sn_Snapshot request)
       | Some _ => sc_card w' = sc_card w \/ sc_card w' = bd_CardID (sn_Snapshot request)
       end;
}.

(** Different scenes have different digests, and none has the digest of all zeros. *)
Class Digests {W} (calls : GatewayCalls (W := W)) : Prop := {
  dg_distinct a b x y : gc_encode calls a = inl x -> gc_encode calls b = inl y -> gc_sum calls x = gc_sum calls y -> a = b;
  dg_nonzero x : gc_sum calls x <> zero_digest;
}.

Section Canvas.
Context {W : Type} (calls : GatewayCalls (W := W)) (d : Display (W := W)) `{!Screen calls d} `{!Digests calls}.
Notation Run := (Run Gateway (gwEvent) W).
Notation act := (act Gateway gwEvent W).

Definition canvas (r : Run) : option DisplayElements := sc_canvas (rn_world r).
Definition card (r : Run) : string := sc_card (rn_world r).

(** What is on the canvas is owned. *)
Definition Owned (r : Run) : Prop := canvas r <> None -> g_hasScene (rn_state r) = true.
(** A scene that is owned, and whose digest is cached, is on the canvas. *)
Definition Proved (r : Run) : Prop := g_hasScene (rn_state r) = true -> g_lastDigest (rn_state r) <> zero_digest ->
  exists shown payload, canvas r = Some shown /\ gc_encode calls shown = inl payload /\ gc_sum calls payload = g_lastDigest (rn_state r).

(** The same scene is owned and shown; when none is owned, the canvas may have been closed. *)
Record Same (r r' : Run) : Prop := {
  sm_has : g_hasScene (rn_state r') = g_hasScene (rn_state r);
  sm_digest : g_lastDigest (rn_state r') = g_lastDigest (rn_state r);
  sm_topology : g_lastTopology (rn_state r') = g_lastTopology (rn_state r);
  sm_priority : g_lastPriority (rn_state r') = g_lastPriority (rn_state r);
  sm_canvas : canvas r' = canvas r \/ (canvas r' = None /\ g_hasScene (rn_state r) = false);
}.
(** The canvas, the timer and the claims to them are the same. *)
Record Quiet (r r' : Run) : Prop := {
  qt_same : Same r r';
  qt_canvas : canvas r' = canvas r;
  qt_card : card r' = card r;
  qt_busy : g_busyCardID (rn_state r') = g_busyCardID (rn_state r);
}.

Lemma Same_refl r : Same r r.
Proof. split; auto. Qed.
Lemma Quiet_refl r : Quiet r r.
Proof. split; auto using Same_refl. Qed.
Lemma Same_trans r r' r'' : Same r r' -> Same r' r'' -> Same r r''.
Proof.
  intros [H1 H2 H3 H4 H5] [K1 K2 K3 K4 K5]. split; [congruence..|]. rewrite H1 in K5.
  destruct K5 as [-> | K5]; [done|by right].
Qed.
Lemma Quiet_trans r r' r'' : Quiet r r' -> Quiet r' r'' -> Quiet r r''.
Proof. intros [H1 H2 H3 H4] [K1 K2 K3 K4]. split; [by eapply Same_trans|congruence..]. Qed.
Lemma Same_owned r r' : Same r r' -> Owned r -> Owned r'.
Proof. intros [H1 _ _ _ H5] H Hc. rewrite H1. apply H. destruct H5 as [<-|[H5 _]]; [done|by rewrite H5 in Hc]. Qed.
Lemma Same_proved r r' : Same r r' -> Proved r -> Proved r'.
Proof.
  intros [H1 H2 _ _ H5] HP Hh Hd. rewrite H1 in Hh. rewrite H2 in *. destruct H5 as [-> | [_ H5]]; [by apply HP|congruence].
Qed.
Lemma unowned_proved r : g_hasScene (rn_state r) = false -> Proved r.
Proof. intros H Hh. congruence. Qed.

(** ** Calls that show nothing *)

Lemma wp_now {A} (k : Time -> act A) Q r :
  (forall now r', Quiet r r' -> wp (k now) Q r') -> wp (now ← query (gc_now calls); k now) Q r.
Proof.
  intros H. wp_run. apply H. pose proof (sc_now (rn_world r)) as [H1 H2].
  split; [split; auto|done|done|done].
Qed.

Lemma Quiet_world r events w : sc_canvas w = canvas r -> sc_card w = card r -> Quiet r (mkRun (rn_state r) events w).
Proof. intros H1 H2. split; [split; auto|done..]. Qed.
Lemma Quiet_audio r events w played err attempts : sc_canvas w = canvas r -> sc_card w = card r ->
  Quiet r (mkRun (set_audio played err attempts (rn_state r)) events w).
Proof. intros H1 H2. split; [split; auto|done..]. Qed.

Lemma wp_query_quiet {A B} (f : W -> A * W) (k : A -> act B) Q r :
  (forall w, sc_canvas (f w).2 = sc_canvas w /\ sc_card (f w).2 = sc_card w) ->
  (forall r', Quiet r r' -> wp (k (f (rn_world r)).1) Q r') -> wp (a ← query f; k a) Q r.
Proof. intros Hf H. wp_run. apply H. by destruct (Hf (rn_world r)); apply Quiet_world. Qed.

Lemma wp_playAudioCue cue r : wp (playAudioCue calls d cue) (fun _ r' => Quiet r r') r.
Proof.
  unfold playAudioCue. destruct cue as [cue|]; [|by apply Quiet_refl].
  apply wp_query_quiet; [apply sc_now|intros r1 H1]. wp_run.
  set (r2 := mkRun (set_audio _ _ _ _) _ _). assert (H2 : Quiet r r2) by (eapply Quiet_trans; [exact H1|by apply Quiet_audio]).
  destruct (negb _); [done|]. destruct (is_some _); [done|]. wp_run.
  destruct (dp_PlayAudio d) as [play|] eqn:Ep.
  - unfold do_Play. wp_run. destruct (sc_play play (pc_request cue) (rn_world r1) Ep) as [Hc Hd].
    unfold run_if. destruct (is_some _); wp_run; (eapply Quiet_trans; [exact H2|]); split; (split || idtac); auto.
  - wp_run. eapply Quiet_trans; [exact H2|]. split; [split; auto|done..].
Qed.

Lemma wp_compileAudioCue candidate r : wp (compileAudioCue calls candidate) (fun _ r' => Quiet r r') r.
Proof.
  unfold compileAudioCue. destruct (cand_AudioCue candidate) as [cue|]; [|by apply Quiet_refl].
  apply wp_query_quiet; [apply sc_now|intros r1 H1]. destruct (negb _); [done|].
  destruct (gc_assets calls) as [[scene [audio|]]|]; by wp_run.
Qed.

Lemma wp_compileScene candidate r : wp (compileScene calls candidate) (fun _ r' => Quiet r r') r.
Proof. unfold compileScene. destruct (gc_assets calls); wp_run; apply Quiet_refl. Qed.

Lemma wp_compileCandidate candidate r : wp (compileCandidate calls candidate)
  (fun a r' => Quiet r r' /\ match a with
    | inl (scene, _) => cand_BusyTimer candidate = None -> (compileScene calls candidate r).1 = inl scene
    | inr _ => True end) r.
Proof.
  unfold compileCandidate. eapply wp_step with (Q := fun a r' => Quiet r r' /\ (cand_BusyTimer candidate = None -> a = (compileScene calls candidate r).1)).
  - destruct (cand_BusyTimer candidate); [by split; [apply Quiet_refl|]|]. split; [apply wp_compileScene|done].
  - intros [scene|err] r1 [H1 Hs]; [|done]. wp_call wp_compileAudioCue. intros audio r2 H2. wp_run.
    destruct audio; (split; [by eapply Quiet_trans|]); [|done]. intros Hb. by rewrite <- Hs.
Qed.

Lemma wp_device_now b f g r : dp_BusyTimer d = Some b -> wp (device_now calls b f g) (fun _ r' => Quiet r r') r.
Proof. intros Hb. unfold device_now. apply wp_query_quiet; [intros w; by apply sc_time|]. intros r1 H1. by wp_run. Qed.

Lemma wp_verify attempts b cardID theme ms r : dp_BusyTimer d = Some b ->
  wp (verify_from calls attempts b cardID theme ms) (fun _ r' => Quiet r r') r.
Proof.
  intros Hb. revert r. induction attempts as [|attempts IH]; intros r; cbn [verify_from]; [by apply Quiet_refl|].
  apply wp_query_quiet.
  { intros w. pose proof (sc_snapshot b w Hb) as H. destruct (bz_BusySnapshot b w) as [value w']. by destruct H as (? & ? & _). }
  intros r1 H1. destruct (bz_BusySnapshot b (rn_world r)).1 as [value|err]; [|done].
  destruct (applied _ _ _ _); [done|]. destruct (Nat.eqb attempts 0).
  - eapply wp_mono; [apply IH|]. intros a r2 H2. by eapply Quiet_trans.
  - apply wp_query_quiet; [intros w; apply sc_delay|]. intros r2 H2.
    destruct (gc_verifyDelay _ _ _).1; [by eapply Quiet_trans|].
    eapply wp_mono; [apply IH|]. intros a r3 H3. eapply Quiet_trans; [exact H1|]. by eapply Quiet_trans.
Qed.

(** ** Stopping the timer *)

(** The timer that was owned does not run any more. *)
Definition Stopped (r r' : Run) : Prop := g_busyCardID (rn_state r') = EmptyString
  /\ (g_busyCardID (rn_state r) <> EmptyString -> card r' <> g_busyCardID (rn_state r)).

Lemma wp_snapshot_card b r : dp_BusyTimer d = Some b ->
  Quiet r (mkRun (rn_state r) (rn_events r) (bz_BusySnapshot b (rn_world r)).2)
  /\ match (bz_BusySnapshot b (rn_world r)).1 with inl s => bd_CardID (sn_Snapshot s) = card r | inr _ => True end.
Proof.
  intros Hb. pose proof (sc_snapshot b (rn_world r) Hb) as H. destruct (bz_BusySnapshot b (rn_world r)) as [value w'].
  destruct H as (H1 & H2 & H3). split; [by apply Quiet_world|done].
Qed.

Lemma wp_do_SetBusy {A} b request (k : option error -> act A) Q r : dp_BusyTimer d = Some b ->
  g_hasScene (rn_state r) = false ->
  (forall err r', Same r r' -> rn_state r' = rn_state r -> (err = None -> card r' = bd_CardID (sn_Snapshot request)) ->
   wp (k err) Q r') ->
  wp (err ← do_SetBusy b request; k err) Q r.
Proof.
  intros Hb Hh H. unfold do_SetBusy. wp_run. pose proof (sc_setBusy b request (rn_world r) Hb) as Hs.
  destruct (bz_SetBusySnapshot b request (rn_world r)) as [err w']. cbn [fst snd]. destruct Hs as [Hc Hd].
  apply H; [|done|by intros ->]. split; try done. destruct Hc as [Hc|Hc]; [by left|by right].
Qed.

Lemma wp_stop r : (g_busyCardID (rn_state r) <> EmptyString -> g_hasScene (rn_state r) = false) -> wp (stopOwnedBusyTimer calls d)
  (fun a r' => Same r r' /\ match a with inl _ => Stopped r r' | inr _ => g_busyCardID (rn_state r') = g_busyCardID (rn_state r) end) r.
Proof.
  intros Hone. unfold stopOwnedBusyTimer. wp_run. destruct (g_busyCardID (rn_state r) =s EmptyString) eqn:E.
  { apply String.eqb_eq in E. split; [apply Same_refl|]. by split. }
  destruct (dp_BusyTimer d) as [b|] eqn:Hb; [|split; [apply Same_refl|done]]. wp_run.
  destruct (wp_snapshot_card b r Hb) as [H1 H2]. destruct (bz_BusySnapshot b (rn_world r)).1 as [current|err]; [|by destruct H1].
  set (r1 := mkRun _ _ _) in *. destruct (negb (_ =s _)) eqn:Ec.
  { wp_run. split; [destruct H1 as [[] ? ? ?]; by split|]. split; [done|]. intros _.
    apply negb_true_iff, String.eqb_neq in Ec. destruct H1 as [_ _ Hcard _]. change (card r1 <> g_busyCardID (rn_state r)). congruence. }
  wp_call wp_device_now. intros [now|err] r2 H3; cbn beta in H3; assert (H4 : Quiet r r2) by (by eapply Quiet_trans);
    [|split; apply H4].
  destruct (next_timestamp current now); [|split; apply H4].
  apply String.eqb_neq in E. apply wp_do_SetBusy; [done|destruct H4 as [[-> _ _ _ _] _ _ _]; by apply Hone|]. intros [err|] r3 H5 Hst Hcard.
  { wp_run. split; [by eapply Same_trans; [apply H4|]|]. rewrite Hst. apply H4. }
  wp_run. split; [|split; [done|]].
  - eapply Same_trans; [apply H4|]. destruct H5 as [h1 h2 h3 h4 h5]. by split.
  - intros Hne. change (card r3 <> g_busyCardID (rn_state r)). by rewrite Hcard.
Qed.

(** ** Drawing *)

Definition outcome_of (a : string * option error) : string := a.1.
Definition error_of (a : string * option error) : option error := a.2.

Lemma wp_do_Clear {A} (k : option error -> act A) Q r :
  (forall err r', rn_state r' = rn_state r -> card r' = card r -> canvas r' = canvas r \/ canvas r' = None ->
   (err = None -> canvas r' = None) -> wp (k err) Q r') ->
  wp (err ← do_Clear d; k err) Q r.
Proof.
  intros H. unfold do_Clear. wp_run. pose proof (sc_clear (rn_world r)) as Hs.
  destruct (dp_Clear d ApplicationName (rn_world r)) as [err w']. cbn [fst snd]. destruct Hs as [Hd Hs].
  apply H; [done|done| |by intros ->]. change (canvas (mkRun _ _ w')) with (sc_canvas w'). destruct err; auto.
Qed.

Lemma wp_do_Draw {A} request (k : option error -> act A) Q r :
  (forall err r', rn_state r' = rn_state r -> card r' = card r ->
   match err with None => canvas r' = Some request | Some err => gc_conflict calls err = true -> canvas r' = None end ->
   wp (k err) Q r') ->
  wp (err ← do_Draw d request; k err) Q r.
Proof.
  intros H. unfold do_Draw. wp_run. pose proof (sc_draw request (rn_world r)) as Hs.
  destruct (dp_Draw d request (rn_world r)) as [err w']. cbn [fst snd]. destruct Hs as [Hd Hs].
  apply H; [done|done|]. destruct err as [err|]; [|done]. intros Hc. by rewrite Hc in Hs.
Qed.

(** The gateway owns what is shown, and never a scene and a timer at once. *)
Record Sound (r : Run) : Prop := {
  so_owned : Owned r;
  so_one : g_busyCardID (rn_state r) <> EmptyString -> g_hasScene (rn_state r) = false;
}.

Lemma Quiet_sound r r' : Quiet r r' -> Sound r -> Sound r'.
Proof.
  intros [HS ? ? Hb] [H1 H2]. split; [by eapply Same_owned|]. destruct HS as [Hh _ _ _ _]. by rewrite Hb, Hh.
Qed.
Lemma Same_sound r r' : Same r r' -> g_busyCardID (rn_state r') = g_busyCardID (rn_state r) -> Sound r -> Sound r'.
Proof. intros HS Hb [H1 H2]. split; [by eapply Same_owned|]. destruct HS as [Hh _ _ _ _]. by rewrite Hb, Hh. Qed.
Lemma Same_stopped r r' : Same r r' -> g_busyCardID (rn_state r') = EmptyString -> Sound r -> Sound r'.
Proof. intros HS Hb [H1 H2]. split; [by eapply Same_owned|]. by rewrite Hb. Qed.
Lemma cleared_sound r r' : rn_state r' = rn_state r -> canvas r' = canvas r \/ canvas r' = None -> Sound r -> Sound r'.
Proof.
  intros Hs Hc [H1 H2]. split; [|by rewrite Hs]. unfold Owned. rewrite Hs. intros Hn. apply H1. destruct Hc as [<-|Hc]; [done|congruence].
Qed.

(** A result that is not an error is either [OutcomeUnchanged], and what is shown is still
    what it was; or what is shown is known. [shown] is what the outcome promises. *)
Definition Delivered (shown : string -> Run -> Prop) (a : string * option error) (r r' : Run) : Prop :=
  Sound r' /\ (error_of a = None ->
    (outcome_of a = OutcomeUnchanged /\ Same r r' /\ (Proved r -> shown OutcomeUnchanged r'))
    \/ (outcome_of a <> OutcomeUnchanged /\ Proved r' /\ shown (outcome_of a) r')).

Lemma Delivered_error shown outcome err r r' : Sound r' -> Delivered shown (outcome, Some err) r r'.
Proof. by split. Qed.

Lemma Delivered_from (shown shown' : string -> Run -> Prop) a r r1 r' : Same r r1 -> Delivered shown a r1 r' ->
  (forall outcome, shown outcome r' -> shown' outcome r') -> Delivered shown' a r r'.
Proof.
  intros HS [H1 H2] Hs. split; [done|]. intros He. destruct (H2 He) as [(H3 & H4 & H5)|(H3 & H4 & H5)]; [left|right; by auto].
  split; [done|]. split; [by eapply Same_trans|]. intros HP. apply Hs, H5. by eapply Same_proved.
Qed.
Lemma Delivered_quiet (shown : string -> Run -> Prop) a r r1 r' : Delivered shown a r r1 -> Quiet r1 r' ->
  (forall outcome, shown outcome r1 -> shown outcome r') -> Delivered shown a r r'.
Proof.
  intros [H1 H2] HQ Hs. split; [by eapply Quiet_sound|]. intros He. pose proof (qt_same _ _ HQ) as HS.
  destruct (H2 He) as [(H3 & H4 & H5)|(H3 & H4 & H5)]; [left|right; split; [done|]; split; [by eapply Same_proved|by auto]].
  split; [done|]. split; [by eapply Same_trans|]. auto.
Qed.

(** What the outcomes of a scene promise. *)
Definition scene_shown (request : DisplayElements) (outcome : string) (r' : Run) : Prop :=
  (outcome = OutcomeDrawn /\ canvas r' = Some request)
  \/ (outcome = OutcomeFirmwareSuppressed /\ canvas r' = None)
  \/ (outcome = OutcomeUnchanged /\ canvas r' = Some request).

Lemma wp_draw_scene request payload topology audio r0 r : gc_encode calls request = inl payload ->
  g_busyCardID (rn_state r) = EmptyString ->
  wp (draw_scene calls d request (gc_sum calls payload) topology audio)
     (fun a r' => Delivered (scene_shown request) a r0 r' /\ card r' = card r /\ g_busyCardID (rn_state r') = EmptyString) r.
Proof.
  intros He Hb. unfold draw_scene. apply wp_bind, wp_modify, wp_do_Draw. cbn [rn_state]. intros [err|] r1 Hst Hcd Hc.
  - destruct (gc_conflict calls err) eqn:Ef; wp_run.
    + specialize (Hc eq_refl). split; [|by split]. split; [by split; [intros []|]|]. intros _. right.
      split; [done|]. split; [by apply unowned_proved|]. by right; left.
    + split; [|by rewrite Hst]. apply Delivered_error. split; [intros _|intros Hn]; by rewrite ?Hst in *.
  - wp_run. set (r1' := mkRun _ _ _). wp_call wp_playAudioCue. intros ? r2 HQ. pose proof HQ as [HS Hcan Hcard Hbusy]. wp_run. change (canvas r1') with (canvas r1) in Hcan. change (card r1') with (card r1) in Hcard.
    assert (Hb' : g_busyCardID (rn_state r1') = EmptyString) by (unfold r1'; cbn; by rewrite Hst).
    assert (HO : Sound r1') by (split; [done|by rewrite Hb']).
    assert (HP : Proved r1').
    { intros _ _. by exists request, payload. }
    split; [|by rewrite Hcard, Hcd, Hbusy, Hb'].
    split; [by eapply Quiet_sound|]. intros _. right. split; [done|]. split; [by eapply Same_proved|].
    left. by rewrite Hcan.
Qed.

Lemma wp_render_scene resolved request audio r : Sound r -> g_busyCardID (rn_state r) = EmptyString ->
  wp (render_scene calls d resolved request audio)
     (fun a r' => Delivered (scene_shown request) a r r' /\ card r' = card r /\ g_busyCardID (rn_state r') = EmptyString) r.
Proof.
  intros HS Hb. unfold render_scene. destruct (gc_encode calls request) as [payload|err] eqn:He; cycle 1.
  { split; [by apply Delivered_error|done]. }
  wp_run. destruct (g_hasScene (rn_state r) && _) eqn:Es.
  - apply andb_true_iff in Es as [Eh Hd%String.eqb_eq].
    wp_call wp_playAudioCue. intros ? r1 HQ. pose proof HQ as [HSame Hcan Hcard Hbusy]. wp_run.
    split; [|by rewrite Hcard, Hbusy]. split; [by eapply Quiet_sound|]. intros _. left.
    split; [done|]. split; [done|]. intros HP. right; right. split; [done|]. rewrite Hcan.
    destruct (HP Eh) as (shown & x & -> & Hx & Hs); [rewrite <- Hd; apply dg_nonzero|]. f_equal.
    by apply (dg_distinct shown request x payload); rewrite ?Hs.
  - destruct (replaces _ _ _); [|by apply wp_draw_scene].
    apply wp_do_Clear. intros [err|] r1 Hst Hcard Hcl Hc.
    + wp_run. split; [|by rewrite Hst]. by apply Delivered_error, (cleared_sound r).
    + apply wp_bind, wp_modify. eapply wp_mono; [apply (wp_draw_scene _ _ _ _ r); [done|cbn; by rewrite Hst]|].
      intros a r2 (H & Hc2 & Hb2). split; [exact H|]. split; [by rewrite <- Hcard|done].
Qed.

(** ** Timers *)

(** What the outcomes of a timer promise: no scene is in its way. *)
Definition timer_shown (cardID outcome : string) (r' : Run) : Prop :=
  canvas r' = None /\ ((outcome = OutcomeDrawn /\ card r' = cardID /\ g_busyCardID (rn_state r') = cardID)
                       \/ (outcome = OutcomeUnchanged /\ g_busyCardID (rn_state r') <> EmptyString)).

Lemma closed_sound r : canvas r = None -> g_hasScene (rn_state r) = false -> Sound r.
Proof. intros Hc Hh. by split; [intros []|]. Qed.

Lemma wp_start_timer b cardID theme digest ms timestamp current r0 r : dp_BusyTimer d = Some b ->
  canvas r = None -> g_hasScene (rn_state r) = false ->
  wp (start_timer calls b cardID theme digest ms timestamp current) (fun a r' => Delivered (timer_shown cardID) a r0 r') r.
Proof.
  intros Hb Hc Hh. unfold start_timer. apply wp_do_SetBusy; [done..|]. intros err r1 HS Hst Hcard.
  assert (Hc1 : canvas r1 = None) by (destruct HS as [_ _ _ _ [-> | [-> _]]]; done).
  rewrite <- Hst in Hh. destruct err as [err|]; wp_run; [by apply Delivered_error, closed_sound|].
  set (r2 := mkRun _ _ _). wp_call wp_verify. intros err r3 HQ. pose proof HQ as [H1 H2 H3 H4].
  assert (Hc3 : canvas r3 = None) by (by rewrite H2).
  assert (Hh3 : g_hasScene (rn_state r3) = false) by (destruct H1 as [-> _ _ _ _]; done).
  destruct err as [err|]; wp_run; [by apply Delivered_error, closed_sound|].
  split; [by apply closed_sound|]. intros _. right. split; [done|]. split; [by apply unowned_proved|].
  split; [done|]. left. split; [done|]. split; [|done]. by etrans; [apply H3|apply Hcard].
Qed.

Lemma wp_replace_with_timer b cardID theme digest ms r : dp_BusyTimer d = Some b -> Sound r ->
  wp (replace_with_timer calls d b cardID theme digest ms) (fun a r' => Delivered (timer_shown cardID) a r r') r.
Proof.
  intros Hb HS. unfold replace_with_timer. apply wp_do_Clear. intros [err|] r1 Hst _ Hcl Hc.
  { wp_run. by apply Delivered_error, (cleared_sound r). }
  apply wp_bind, wp_modify. set (r2 := mkRun _ _ _). specialize (Hc eq_refl). change (canvas r2 = None) in Hc.
  wp_run. destruct (wp_snapshot_card b r2 Hb) as [Q3 _]. destruct (bz_BusySnapshot b (rn_world r2)) as [value w3]. cbn [fst snd] in *.
  set (r3 := mkRun _ _ w3) in *. assert (Hx : forall r', Quiet r2 r' -> canvas r' = None /\ g_hasScene (rn_state r') = false).
  { intros r' [[] H2 _ _]. by rewrite H2. }
  destruct value as [value|err]; [|by apply Delivered_error, closed_sound; apply Hx].
  wp_call wp_device_now. intros [now|err] r4 Q4; cbn beta in Q4; destruct (Hx r4) as [Hc4 Hh4];
    try (by eapply Quiet_trans); [|by apply Delivered_error, closed_sound].
  destruct (next_timestamp value now); [by apply wp_start_timer|by apply Delivered_error, closed_sound].
Qed.

Lemma wp_renderBusyTimer candidate timer r : Sound r ->
  wp (renderBusyTimer calls d candidate timer)
     (fun a r' => Delivered (timer_shown (busyCardID calls (Candidate_ID candidate))) a r r') r.
Proof.
  intros HS. unfold renderBusyTimer. destruct (dp_BusyTimer d) as [b|] eqn:Hb; [|by apply Delivered_error].
  destruct (Time_MarshalJSON _) as [expires|err]; [|by apply Delivered_error].
  apply wp_bind, wp_read. destruct (negb _ && _) eqn:Eu.
  - apply andb_true_iff in Eu as [Eu _]. apply negb_true_iff, String.eqb_neq in Eu. wp_run.
    split; [done|]. intros _. left. split; [done|]. split; [apply Same_refl|]. intros _.
    destruct HS as [HO HE]. split; [|by right]. destruct (canvas r) eqn:Ec; [|done].
    specialize (HE Eu). assert (Ho : g_hasScene (rn_state r) = true) by (apply HO; congruence). congruence.
  - apply wp_query_quiet; [apply sc_now|]. intros r1 HQ. destruct (_ <=? 0); [by apply Delivered_error; eapply Quiet_sound|].
    eapply wp_mono; [apply wp_replace_with_timer; [done|by eapply Quiet_sound]|].
    intros a r2 H. eapply Delivered_from; [apply HQ|exact H|done].
Qed.

(** ** [Render] *)

(** What an outcome promises of a candidate. *)
Definition shown (candidate : option Candidate) (r : Run) (outcome : string) (r' : Run) : Prop :=
  match candidate with
  | None => canvas r' = None /\ Stopped r r'
  | Some candidate =>
    match cand_BusyTimer candidate with
    | Some _ => timer_shown (busyCardID calls (Candidate_ID candidate)) outcome r'
    | None => exists resolved request, (compileScene calls candidate r).1 = inl (resolved, request)
                /\ scene_shown request outcome r' /\ Stopped r r'
    end
  end.

Lemma wp_render_nothing r : Sound r -> wp (render_nothing calls d) (fun a r' => Delivered (shown None r) a r r') r.
Proof.
  intros HS. unfold render_nothing. wp_call (wp_stop r (so_one _ HS)). intros [stopped|err] r1 [H1 H2].
  2: by wp_run; apply Delivered_error, (Same_sound r).
  assert (HS1 : Sound r1) by (apply (Same_stopped r); [done|apply H2|done]).
  apply wp_bind, wp_read. destruct (g_hasScene (rn_state r1)) eqn:Eh; cbn [negb].
  - apply wp_do_Clear. intros [err|] r2 Hst Hcard Hcl Hc.
    { wp_run. by apply Delivered_error, (cleared_sound r1). }
    apply wp_bind, wp_modify. set (r3 := mkRun _ _ _). specialize (Hc eq_refl). change (canvas r3 = None) in Hc.
    split; [by apply closed_sound|]. intros _. right. split; [done|]. split; [by apply unowned_proved|].
    split; [done|]. destruct H2 as [H2 H4]. split; [by unfold r3; cbn; rewrite Hst|]. intros Hn.
    change (card r2 <> g_busyCardID (rn_state r)). rewrite Hcard. by apply H4.
  - assert (Hc : canvas r1 = None).
    { destruct HS1 as [HO _]. destruct (canvas r1) eqn:Ec; [|done].
      assert (g_hasScene (rn_state r1) = true) by (apply HO; congruence). congruence. }
    wp_run. split; [done|]. intros _. destruct stopped; [right|left].
    + split; [done|]. split; [by apply unowned_proved|]. by split.
    + split; [done|]. split; [done|]. by split.
Qed.

Lemma wp_render_candidate candidate r : Sound r ->
  wp (render_candidate calls d candidate) (fun a r' => Delivered (shown (Some candidate) r) a r r') r.
Proof.
  intros HS. unfold render_candidate. destruct (Candidate_Validate candidate); [by apply Delivered_error|].
  wp_call wp_compileCandidate. intros [[[resolved request] audio]|err] r1 [H1 Hreq]; [|by apply Delivered_error; eapply Quiet_sound].
  assert (HS1 : Sound r1) by (by eapply Quiet_sound).
  unfold shown. destruct (cand_BusyTimer candidate) as [timer|].
  - wp_call (wp_renderBusyTimer candidate timer). intros [outcome err] r2 H2. destruct err as [err|]; cbn [fst snd].
    { apply Delivered_error, H2. }
    wp_call wp_playAudioCue. intros ? r3 H3. wp_run. eapply Delivered_from; [apply H1| |done].
    eapply Delivered_quiet; [done|apply H3|]. intros o [H4 H5]. destruct H3 as [_ H3 H6 H7]. unfold timer_shown. by rewrite H3, H6, H7.
  - wp_call (wp_stop r1 (so_one _ HS1)). intros [stopped|err] r2 [H2 H3]; [|by apply Delivered_error, (Same_sound r1)].
    destruct H3 as [H3 H4]. wp_call wp_render_scene; [by apply (Same_stopped r1)|]. intros a r3 (H5 & H6 & H7).
    eapply Delivered_from; [by eapply Same_trans; [apply H1|apply H2]|done|]. intros o H8. exists resolved, request.
    split; [by apply Hreq|]. split; [done|]. split; [done|]. destruct H1 as [_ _ _ H1].
    rewrite H1 in H4. by rewrite H6.
Qed.

Lemma wp_Render candidate r : gc_display calls = Some d -> Sound r ->
  wp (Render calls candidate) (fun a r' => Delivered (shown candidate r) a r r') r.
Proof.
  intros Hd HS. unfold Render. rewrite Hd. destruct candidate; [by apply wp_render_candidate|by apply wp_render_nothing].
Qed.

(** ** The gateway and the device over time *)

(** A render; what the firmware does by itself, which is to change the timer or to close the
    canvas; and the two invalidations, of which the first follows the closing of the canvas.
    The flag is whether what is shown is known: it is not after a render that failed or when
    the canvas was closed, until a render draws or clears, or until an invalidation. *)
Inductive gw_step : bool * Run -> bool * Run -> Prop :=
  | gs_render candidate known r :
      gw_step (known, r) (match (Render calls candidate r).1.2 with
                          | Some _ => false
                          | None => known || negb ((Render calls candidate r).1.1 =s OutcomeUnchanged)
                          end, (Render calls candidate r).2)
  | gs_timer known r w : sc_canvas w = canvas r -> gw_step (known, r) (known, mkRun (rn_state r) (rn_events r) w)
  | gs_closed known r w : sc_canvas w = None -> gw_step (known, r) (false, mkRun (rn_state r) (rn_events r) w)
  | gs_canvas known r : canvas r = None ->
      gw_step (known, r) (true, mkRun (InvalidateCanvas (rn_state r)) (rn_events r) (rn_world r))
  | gs_connection known r :
      gw_step (known, r) (true, mkRun (InvalidateConnection (rn_state r)) (rn_events r) (rn_world r)).

Definition Known (known : bool) (r : Run) : Prop := Sound r /\ (known = true -> Proved r).

Lemma Render_known candidate known r : gc_display calls = Some d -> Known known r -> let '((outcome, err), r') := Render calls candidate r in
  Sound r' /\ (err = None -> known = true \/ outcome <> OutcomeUnchanged -> Proved r' /\ shown candidate r outcome r').
Proof.
  intros Hd [HS HP]. pose proof (wp_Render candidate r Hd HS) as H. unfold wp in H.
  destruct (Render calls candidate r) as [[outcome err] r']. destruct H as [H1 H2]. split; [done|]. intros He Hk.
  cbn [fst snd error_of outcome_of] in *. destruct (H2 He) as [(-> & H3 & H4)|(H3 & H4 & H5)]; [|done].
  destruct Hk as [Hk|Hk]; [|done]. split; [by eapply Same_proved; [|apply HP]|by apply H4, HP].
Qed.

Lemma gw_step_known s s' : gc_display calls = Some d -> gw_step s s' -> Known s.1 s.2 -> Known s'.1 s'.2.
Proof.
  intros Hd [candidate known r|known r w Hw|known r w Hw|known r Hc|known r] HK; cbn [fst snd] in *.
  - pose proof (Render_known candidate known r Hd HK) as H. destruct (Render calls candidate r) as [[outcome err] r'].
    cbn [fst snd]. destruct H as [H1 H2]. split; [done|]. destruct err as [err|]; [done|].
    intros [Hk | Hk%negb_true_iff%String.eqb_neq]%orb_true_iff; apply H2; auto.
  - destruct HK as [[HO HE] HP]. assert (HS : Same r (mkRun (rn_state r) (rn_events r) w)) by (split; auto).
    split; [by apply (Same_sound r)|]. intros Hk. by eapply Same_proved; [|apply HP].
  - split; [|done]. apply (cleared_sound r); [done|by right|apply HK].
  - split; [|by intros _; apply unowned_proved]. by apply closed_sound.
  - destruct HK as [[HO HE] _]. split; [by split|]. intros _ _ Hn. by destruct Hn.
Qed.
End Canvas.
