(* ===== verification/GatewayClaims.v ===== *)
(** * What the gateway guarantees

    What it reports is what the device shows; its results are those that the engine accepts;
    it clears before it draws something of another structure, and does not draw what is
    already shown; and it plays a cue once. *)

From Stdlib Require Import ZArith Lia.
From S2P Require Import Prelude GoStrings GoTime GoJson Identifier Protocol Presentation Engine GoEncoding Actions Compiler Gateway GatewayCanvas.

Section Claims.
Context {W : Type} (calls : GatewayCalls (W := W)).
Notation Run := (Run Gateway gwEvent W).
Notation act := (act Gateway gwEvent W).

(** ** Results that the engine accepts *)

Definition Accepted (candidate : option Candidate) (a : string * option error) : Prop :=
  validateRenderResult candidate a.1 a.2 = None.

Lemma wp_true {A} (m : act A) r : wp m (fun _ _ => True) r.
Proof. done. Qed.

Lemma wp_compile_outcome candidate r : wp (compileCandidate calls candidate)
  (fun a _ => match a with inl _ => True | inr err => rd_outcome err = None \/ rd_outcome err = Some OutcomeAssetMissing end) r.
Proof.
  unfold compileCandidate, compileScene, compileAudioCue, plain, missing. wp_cases; repeat case_match; simplify_eq; cbn; auto.
Qed.

Lemma wp_timer_outcome d candidate timer r :
  wp (renderBusyTimer calls d candidate timer) (fun a _ => Accepted (Some candidate) a) r.
Proof.
  unfold renderBusyTimer, replace_with_timer, start_timer, device_now, do_Clear, do_SetBusy, verifyBusyTimer. wp_cases; try done.
  wp_call wp_true. intros [err|] r' _; wp_run; done.
Qed.

Lemma wp_Render_accepted candidate r : wp (Render calls candidate) (fun a _ => Accepted candidate a) r.
Proof.
  unfold Render. destruct (gc_display calls) as [d|]; [|done]. destruct candidate as [candidate|].
  - unfold render_candidate. destruct (Candidate_Validate candidate); [done|]. wp_call wp_compile_outcome.
    intros [[[resolved request] audio]|err] r1 H; [|unfold renderErrorOutcome; by destruct H as [Ho | Ho]; wp_run; rewrite Ho].
    destruct (cand_BusyTimer candidate) as [timer|].
    + wp_call wp_timer_outcome. intros [outcome err] r2 H2. cbn [fst snd]. destruct err; [done|]. wp_call wp_true. done.
    + wp_call wp_true. intros [stopped|err] r2 _; [|done]. unfold render_scene, draw_scene, do_Clear, do_Draw.
      wp_cases; try done; by wp_call wp_true.
  - unfold render_nothing, do_Clear. wp_call wp_true. intros [[|]|err] r1 _; wp_cases; done.
Qed.

(** ** The calls that change the canvas *)

Definition canvas_call (e : gwEvent) : bool := match e with GwDraw _ _ | GwClear _ => true | _ => false end.
Definition canvas_calls (r : Run) : list gwEvent := filter (fun e => canvas_call e = true) (rn_events r).

(** The canvas is not called, and the gateway keeps its scene. *)
Record Untouched (r r' : Run) : Prop := {
  ut_calls : canvas_calls r' = canvas_calls r;
  ut_has : g_hasScene (rn_state r') = g_hasScene (rn_state r);
  ut_digest : g_lastDigest (rn_state r') = g_lastDigest (rn_state r);
  ut_topology : g_lastTopology (rn_state r') = g_lastTopology (rn_state r);
  ut_priority : g_lastPriority (rn_state r') = g_lastPriority (rn_state r);
}.
Lemma Untouched_trans r r' r'' : Untouched r r' -> Untouched r' r'' -> Untouched r r''.
Proof. intros [] []. split; congruence. Qed.

Lemma wp_Untouched {A} (m : act A) (Q : A -> Run -> Prop) r r0 :
  wp m (fun _ r' => Untouched r r') r -> Untouched r0 r -> wp m (fun _ r' => Untouched r0 r') r.
Proof. intros H H0. eapply wp_mono; [exact H|]. intros. by eapply Untouched_trans. Qed.

Ltac untouched := split; unfold canvas_calls; cbn; rewrite ?filter_app; cbn; rewrite ?app_nil_r; done.

Lemma wp_compile_untouched candidate r : wp (compileCandidate calls candidate)
  (fun a r' => Untouched r r' /\ match a with
    | inl (scene, _) => cand_BusyTimer candidate = None -> (compileScene calls candidate r).1 = inl scene
    | inr _ => True end) r.
Proof.
  unfold compileCandidate. apply wp_bind. destruct (cand_BusyTimer candidate) eqn:Eb.
  - unfold compileAudioCue. wp_cases; (split; [untouched|]); by repeat case_match.
  - unfold wp at 1. destruct (compileScene calls candidate r) as [scene r1] eqn:Es. cbn [fst snd].
    assert (H1 : Untouched r r1).
    { revert Es. unfold compileScene. destruct (gc_assets calls); injection 1 as <- <-; untouched. }
    unfold compileAudioCue. wp_cases; (split; [destruct H1; by split; cbn in *|]); repeat case_match; simplify_eq; done.
Qed.

Lemma wp_stop_untouched d r : wp (stopOwnedBusyTimer calls d) (fun _ r' => Untouched r r') r.
Proof. unfold stopOwnedBusyTimer, device_now, do_SetBusy. wp_cases; untouched. Qed.

Lemma wp_play_untouched d cue r : wp (playAudioCue calls d cue) (fun _ r' => Untouched r r') r.
Proof. unfold playAudioCue, do_Play, run_if. wp_cases; untouched. Qed.

(** The result of a draw that the display answered so. *)
Definition draw_result (err : option error) (a : string * option error) : Prop :=
  match err with
  | None => a = (OutcomeDrawn, None)
  | Some e => if gc_conflict calls e then a = (OutcomeFirmwareSuppressed, None)
              else a.1 = OutcomeDeviceUnavailable /\ a.2 <> None
  end.

(** The calls that drawing a scene makes, with what the display answered, and the result. *)
Inductive scene_calls (d : Display (W := W)) (g : Gateway) (topology : string) (request : DisplayElements) (a : string * option error) : list gwEvent -> Prop :=
  | calls_clear_failed e w :
      replaces topology (de_Priority request) g = true ->
      (dp_Clear d ApplicationName w).1 = Some e -> a.1 = OutcomeDeviceUnavailable /\ a.2 <> None ->
      scene_calls d g topology request a [GwClear (Some e)]
  | calls_replace w w' :
      replaces topology (de_Priority request) g = true ->
      (dp_Clear d ApplicationName w).1 = None -> draw_result (dp_Draw d request w').1 a ->
      scene_calls d g topology request a [GwClear None; GwDraw request (dp_Draw d request w').1]
  | calls_in_place w :
      replaces topology (de_Priority request) g = false -> draw_result (dp_Draw d request w).1 a ->
      scene_calls d g topology request a [GwDraw request (dp_Draw d request w).1].

Lemma wp_draw_calls d request digest topology audio r :
  wp (draw_scene calls d request digest topology audio)
     (fun a r' => canvas_calls r' = canvas_calls r ++ [GwDraw request (dp_Draw d request (rn_world r)).1]
        /\ draw_result (dp_Draw d request (rn_world r)).1 a) r.
Proof.
  unfold draw_scene, do_Draw, draw_result. wp_run. destruct (dp_Draw d request (rn_world r)) as [err w]. cbn [fst snd].
  assert (He : forall s w', canvas_calls (mkRun s (rn_events r ++ [GwDraw request err]) w') = canvas_calls r ++ [GwDraw request err])
    by (intros; unfold canvas_calls; cbn; by rewrite filter_app).
  destruct err as [err|]; [destruct (gc_conflict calls err)|]; wp_run; [by split; [apply He|]..|].
  wp_call wp_play_untouched. intros ? r2 [H _ _ _ _]. cbn [fst snd]. split; [|done]. etrans; [exact H|apply He].
Qed.

(** What is on the canvas is what was asked for, as far as the gateway knows. *)
Definition cached (request : DisplayElements) (g : Gateway) : bool :=
  match gc_encode calls request with inl payload => g_hasScene g && (gc_sum calls payload =s g_lastDigest g) | inr _ => false end.

(** A candidate gets as far as its scene: it is valid, its scene and its cue compile, a timer
    that is owned can be stopped, and the scene can be encoded. *)
Definition ready (d : Display (W := W)) (candidate : Candidate) (r : Run) (resolved : ResolvedScene) (request : DisplayElements) : Prop :=
  Candidate_Validate candidate = None
  /\ (exists audio, (compileCandidate calls candidate r).1 = inl (resolved, request, audio))
  /\ (exists stopped, (stopOwnedBusyTimer calls d (compileCandidate calls candidate r).2).1 = inl stopped)
  /\ exists payload, gc_encode calls request = inl payload.

(** The calls that a candidate with a scene causes, and the result: nothing is called but an
    error returned if the candidate does not get as far as its scene; nothing is called and
    nothing has changed if that scene is cached; any other is drawn. *)
Inductive candidate_calls (candidate : Candidate) (r : Run) (a : string * option error) : list gwEvent -> Prop :=
  | calls_refused :
      (forall d resolved request, gc_display calls = Some d -> ~ ready d candidate r resolved request) -> a.2 <> None ->
      candidate_calls candidate r a []
  | calls_cached d resolved request :
      gc_display calls = Some d -> ready d candidate r resolved request ->
      cached request (rn_state r) = true -> a = (OutcomeUnchanged, None) -> candidate_calls candidate r a []
  | calls_drawn d resolved request new :
      gc_display calls = Some d -> ready d candidate r resolved request ->
      cached request (rn_state r) = false -> scene_calls d (rn_state r) (sceneTopology calls resolved) request a new ->
      candidate_calls candidate r a new.

Lemma wp_render_scene_calls d resolved request audio r : wp (render_scene calls d resolved request audio)
  (fun a r' => exists new, canvas_calls r' = canvas_calls r ++ new
     /\ match gc_encode calls request with
        | inr _ => new = [] /\ a.2 <> None
        | inl _ => if cached request (rn_state r) then new = [] /\ a = (OutcomeUnchanged, None)
                   else scene_calls d (rn_state r) (sceneTopology calls resolved) request a new
        end) r.
Proof.
  unfold render_scene, cached. destruct (gc_encode calls request) as [payload|err]; [|by exists []; rewrite app_nil_r].
  apply wp_bind, wp_read. destruct (g_hasScene (rn_state r) && _) eqn:Ec.
  { wp_call wp_play_untouched. intros ? r1 [H _ _ _ _]. exists []. rewrite app_nil_r. split; [exact H|done]. }
  destruct (replaces _ _ _) eqn:Er.
  - unfold do_Clear. wp_run. destruct (dp_Clear d ApplicationName (rn_world r)) as [[err|] w] eqn:Eclear; wp_run.
    + exists [GwClear (Some err)]. unfold canvas_calls. cbn. rewrite filter_app. split; [done|].
      by apply calls_clear_failed with (w := rn_world r); rewrite ?Eclear.
    + wp_call wp_draw_calls. intros a r1 [H Ha]. eexists [GwClear None; GwDraw request _]. split.
      * rewrite H. unfold canvas_calls. cbn. by rewrite filter_app, <- app_assoc.
      * by apply calls_replace with (w := rn_world r); rewrite ?Eclear.
  - wp_call wp_draw_calls. intros a r1 [H Ha]. eexists. split; [exact H|by constructor].
Qed.

Lemma Untouched_scene d r r' topology request a new : Untouched r r' ->
  scene_calls d (rn_state r') topology request a new -> scene_calls d (rn_state r) topology request a new.
Proof.
  intros [_ H1 _ H3 H4] H. assert (Hr : forall p, replaces topology p (rn_state r') = replaces topology p (rn_state r)).
  { intros p. unfold replaces. by rewrite H1, H3, H4. }
  destruct H; [eapply calls_clear_failed|eapply calls_replace|eapply calls_in_place]; try done; by rewrite <- Hr.
Qed.

Lemma wp_candidate_calls candidate r : cand_BusyTimer candidate = None -> wp (Render calls (Some candidate))
  (fun a r' => exists new, canvas_calls r' = canvas_calls r ++ new /\ candidate_calls candidate r a new) r.
Proof.
  assert (Hnone : forall a r', Untouched r r' -> a.2 <> None ->
    (forall d resolved request, gc_display calls = Some d -> ~ ready d candidate r resolved request) ->
    exists new, canvas_calls r' = canvas_calls r ++ new /\ candidate_calls candidate r a new).
  { intros a r' [H _ _ _ _] Ha Hno. exists []. rewrite app_nil_r. split; [done|by apply calls_refused]. }
  assert (Hrefl : Untouched r r) by by split.
  intros Hb. unfold Render. destruct (gc_display calls) as [d|] eqn:Hd; [|by apply Hnone].
  unfold render_candidate. destruct (Candidate_Validate candidate) eqn:Hv.
  { apply Hnone; [done..|]. by intros ? ? ? _ [? _]; congruence. }
  apply wp_bind. pose proof (wp_compile_untouched candidate r) as [H1 _]. unfold wp.
  destruct (compileCandidate calls candidate r) as [[[[resolved request] audio]|err] r1] eqn:Hc; cbn [fst snd] in *.
  2: { apply Hnone; [done..|]. intros ? ? ? _ (_ & [? Hc'] & _). by rewrite Hc in Hc'. }
  rewrite Hb. change (wp (stopped ← stopOwnedBusyTimer calls d;
    match stopped with inr err => mret (OutcomeDeviceUnavailable, Some err) | inl _ => render_scene calls d resolved request audio end)
    (fun a r' => exists new, canvas_calls r' = canvas_calls r ++ new /\ candidate_calls candidate r a new) r1).
  apply wp_bind. pose proof (wp_stop_untouched d r1) as H2. unfold wp in H2 |- * at 1.
  destruct (stopOwnedBusyTimer calls d r1) as [[stopped|err] r2] eqn:Hs; cbn [fst snd] in *;
    pose proof (Untouched_trans _ _ _ H1 H2) as H3.
  2: { apply Hnone; [done..|]. intros d' ? ? Hd' (_ & _ & [? Hs'] & _). injection Hd' as <-. rewrite Hc in Hs'. cbn in Hs'. by rewrite Hs in Hs'. }
  assert (Hcached : cached request (rn_state r2) = cached request (rn_state r))
    by (unfold cached; by destruct H3 as [_ -> -> _ _]).
  eapply wp_mono; [apply wp_render_scene_calls|]. intros a r3 (new & Hn & H4). rewrite Hcached in H4.
  destruct (gc_encode calls request) as [payload|err] eqn:He.
  - assert (Hready : ready d candidate r resolved request).
    { split_and!; [done|by eexists; rewrite Hc|eexists; rewrite Hc; cbn; by rewrite Hs|by eexists]. }
    exists new. split; [rewrite Hn; f_equal; apply H3|]. destruct (cached request (rn_state r)) eqn:Hca.
    + destruct H4 as [-> Ha]. by eapply calls_cached.
    + eapply calls_drawn; [done..|]. by eapply Untouched_scene.
  - destruct H4 as [-> Ha]. exists []. split; [rewrite Hn; f_equal; apply H3|]. apply calls_refused; [|done].
    intros d' resolved' request' _ (_ & [audio' Hc'] & _ & [payload Hp]). rewrite Hc in Hc'.
    injection Hc' as -> -> ->. by rewrite Hp in He.
Qed.

(** ** Audio *)

Definition Bounded (r : Run) : Prop := Z.of_nat (size (g_playedAudio (rn_state r))) <= maxPlayedAudioCues.

Lemma oldest_in l first : oldest first l = first \/ oldest first l ∈ l.
Proof.
  unfold oldest. revert first. induction l as [|x l IH]; intros first; [by left|]. cbn.
  destruct (IH (if older x first then x else first)) as [H|H]; [|right; by constructor].
  rewrite H. destruct (older x first); [right; by constructor|by left].
Qed.

Lemma remember_size cue played : Z.of_nat (size played) <= maxPlayedAudioCues -> Z.of_nat (size (remember cue played)) <= maxPlayedAudioCues.
Proof.
  intros H. unfold remember. set (m := <[_ := _]> played). destruct (Z.ltb_spec maxPlayedAudioCues (Z.of_nat (size m))) as [Hlt|Hle]; [|done].
  assert (Hm : (size m <= S (size played))%nat) by (unfold m; rewrite map_size_insert; destruct (played !! _); cbn; lia).
  assert (Hin : exists t, m !! (oldest (pc_identity cue, pc_expiresAt cue) (map_to_list m)).1 = Some t).
  { destruct (oldest_in (map_to_list m) (pc_identity cue, pc_expiresAt cue)) as [-> | Hin].
    - exists (pc_expiresAt cue). apply lookup_insert_eq.
    - destruct (oldest _ _) as [i t]. exists t. by apply elem_of_map_to_list. }
  destruct Hin as [t Ht]. rewrite map_size_delete, Ht. cbn. lia.
Qed.

Lemma wp_play_bounded d cue r : Bounded r -> wp (playAudioCue calls d cue) (fun _ r' => Bounded r') r.
Proof.
  unfold Bounded. intros H. unfold playAudioCue, do_Play, run_if. destruct cue as [cue|]; [|done].
  assert (Hf : forall now, Z.of_nat (size (filter (fun p : audioCueIdentity * Time => After p.2 now = true) (g_playedAudio (rn_state r)))) <= maxPlayedAudioCues).
  { intros now. pose proof (map_subseteq_size _ _ (map_filter_subseteq (fun p => After p.2 now = true) (g_playedAudio (rn_state r)))). lia. }
  wp_cases; cbn; try apply remember_size; apply Hf.
Qed.

Lemma wp_verify_bounded attempts b cardID theme ms r : Bounded r ->
  wp (verify_from calls attempts b cardID theme ms) (fun _ r' => Bounded r') r.
Proof.
  revert r. induction attempts as [|attempts IH]; intros r H; cbn [verify_from]; [done|].
  wp_cases; try done; by apply IH.
Qed.

Lemma wp_timer_bounded d candidate timer r : Bounded r ->
  wp (renderBusyTimer calls d candidate timer) (fun _ r' => Bounded r') r.
Proof.
  intros H. unfold renderBusyTimer, replace_with_timer, start_timer, device_now, do_Clear, do_SetBusy, verifyBusyTimer. wp_cases; try done.
  wp_call wp_verify_bounded. intros [err|] r' H'; wp_run; done.
Qed.
Lemma wp_stop_bounded d r : Bounded r -> wp (stopOwnedBusyTimer calls d) (fun _ r' => Bounded r') r.
Proof. intros H. unfold stopOwnedBusyTimer, device_now, do_SetBusy. wp_cases; done. Qed.
Lemma wp_compile_bounded candidate r : Bounded r -> wp (compileCandidate calls candidate) (fun _ r' => Bounded r') r.
Proof. intros H. unfold compileCandidate, compileScene, compileAudioCue. wp_cases; repeat case_match; done. Qed.
Lemma wp_scene_bounded d resolved request audio r : Bounded r ->
  wp (render_scene calls d resolved request audio) (fun _ r' => Bounded r') r.
Proof.
  intros H. unfold render_scene, draw_scene, do_Clear, do_Draw. wp_cases; try done; wp_call wp_play_bounded; intros ? r' H'; done.
Qed.

Lemma wp_Render_bounded candidate r : Bounded r -> wp (Render calls candidate) (fun _ r' => Bounded r') r.
Proof.
  intros H. unfold Render. destruct (gc_display calls) as [d|]; [|done]. destruct candidate as [candidate|].
  - unfold render_candidate. destruct (Candidate_Validate candidate); [done|]. wp_call wp_compile_bounded.
    intros [[[resolved request] audio]|err] r1 H1; [|done]. destruct (cand_BusyTimer candidate) as [timer|].
    + wp_call wp_timer_bounded. intros [outcome err] r2 H2. cbn [fst snd]. destruct err; [done|].
      wp_call wp_play_bounded. intros ? r3 H3. done.
    + wp_call wp_stop_bounded. intros [stopped|err] r2 H2; [|done]. by apply wp_scene_bounded.
  - unfold render_nothing, do_Clear. wp_call wp_stop_bounded. intros [[|]|err] r1 H1; wp_cases; done.
Qed.

(** ** The claims *)

(** C28: Whatever the display answers, a result of [Render] is one that the engine accepts: the
    check that the engine makes of its renderer never fails for the gateway. *)
Theorem gateway_meets_engine candidate r :
  validateRenderResult candidate (Render calls candidate r).1.1 (Render calls candidate r).1.2 = None.
Proof. exact (wp_Render_accepted candidate r). Qed.

(** C27: What rendering a candidate with a scene calls the canvas for, and what it returns. If
    the candidate is invalid, does not compile, cannot be encoded, or a timer that is owned
    cannot be stopped, the canvas is not called and an error is returned. Otherwise, if its
    scene is cached, the canvas is not called and nothing has changed. Otherwise it is drawn,
    and exactly once: in place if it has the structure of the one that is owned and no lower
    a priority; if not, after the canvas was cleared, and nothing is drawn if that fails. The
    result is what the display answered to the draw. *)
Theorem gateway_draws_once candidate r : cand_BusyTimer candidate = None ->
  exists new, canvas_calls (Render calls (Some candidate) r).2 = canvas_calls r ++ new
  /\ candidate_calls candidate r (Render calls (Some candidate) r).1 new.
Proof. intros Hb. exact (wp_candidate_calls candidate r Hb). Qed.

(** The gateway remembers at most 256 audio cues, whatever is rendered; and a cue that it
    remembers, and that has not expired, is not played again. *)
Theorem gateway_audio_bounded d candidate cue expires r : Bounded r ->
  Bounded (Render calls candidate r).2
  /\ (g_playedAudio (rn_state r) !! pc_identity cue = Some expires -> After expires (gc_now calls (rn_world r)).1 = true ->
      rn_events (playAudioCue calls d (Some cue) r).2 = rn_events r
      /\ g_audioAttempts (rn_state (playAudioCue calls d (Some cue) r).2) = g_audioAttempts (rn_state r)).
Proof.
  intros H. split; [exact (wp_Render_bounded candidate r H)|]. intros Hl Ha.
  enough (Hp : wp (playAudioCue calls d (Some cue)) (fun _ r' => rn_events r' = rn_events r
    /\ g_audioAttempts (rn_state r') = g_audioAttempts (rn_state r)) r) by exact Hp.
  unfold playAudioCue. wp_run. destruct (negb _); [done|]. cbn [g_playedAudio set_audio].
  by rewrite map_lookup_filter_Some_2 with (x := expires).
Qed.
End Claims.

(** ** A device *)

(** A device that shows what it is asked to; the script says which of the next draws and timers
    fail although they take effect. *)
Record demo_device := mkDevice { dv_canvas : option DisplayElements; dv_card : string; dv_script : list bool }.

#[export] Instance DisplayElement_eq_dec : EqDecision DisplayElement.
Proof. assert (EqDecision BaseDisplayElement) by solve_decision. solve_decision. Defined.
#[export] Instance DisplayElements_eq_dec : EqDecision DisplayElements.
Proof. solve_decision. Defined.

Definition demo_timer : BusyTimerDisplay (W := demo_device) := {|
  bz_BusySnapshot w := (inl (mkBusySnapshot 5 (mkBusySnapshotData "simple" (dv_card w) (Some 1) (Some false) (mkBusyBarSettings "calm" EmptyString))), w);
  bz_SetBusySnapshot request w := (match dv_script w with true :: _ => errors_New "timeout" | _ => None end,
    mkDevice None (bd_CardID (sn_Snapshot request)) (tail (dv_script w)));
  bz_DeviceTime w := (inl "now", w);
|}.
Definition demo_display : Display := {|
  dp_Draw request w := match dv_script w with
                       | true :: script => (errors_New "timeout", mkDevice (Some request) (dv_card w) script)
                       | _ => (None, mkDevice (Some request) (dv_card w) (tail (dv_script w)))
                       end;
  dp_Clear _ w := (None, mkDevice None (dv_card w) (dv_script w));
  dp_BusyTimer := Some demo_timer;
  dp_PlayAudio := None;
|}.



Definition demo_text (value : string) : Scene :=
  mkScene [mkElement "title" DisplayFront 0 0 (Some (mkTextElement value "normal" EmptyString EmptyString 0 None)) None None None None].
Definition demo_show (key value : string) : Candidate :=
  mkCandidate "dev.bsbctl.test" "test" "main" key 1 1 PolicyAttention BandActionable ImpactNormal 1 EmptyString
    (mkTime (unix_epoch + 1) 0) (mkTime (unix_epoch + 1) 0) (mkTime (unix_epoch + 10 * Second) 0) 0 0 false false 50 (demo_text value) None None.
Definition demo_busy : Candidate :=
  mkCandidate "dev.bsbctl.test" "test" "main" "focus" 1 1 PolicyAttention BandActionable ImpactNormal 1 EmptyString
    (mkTime (unix_epoch + 1) 0) (mkTime (unix_epoch + 1) 0) (mkTime (unix_epoch + 10 * Second) 0) 0 0 false false 50 (mkScene [])
    (Some (mkBusyTimerPresentation "calm"))
    (Some (mkAudioCue "ring" (mkAssetRef EmptyString "ring.snd") (mkTime (unix_epoch + 9 * Second) 0))).

(** A scene of this device is one text. *)
Definition demo_encode (scene : DisplayElements) : string + error :=
  match de_Elements scene with
  | [dTextElement _ value _ _ _ _ _ _] =>
    match CompileScene demo_busylib ApplicationName 50 (ResolveScene (demo_text value)) with
    | inl compiled => if decide (compiled = scene) then inl ("text " +:+ value) else inr (Errorf "json" [])
    | inr err => inr err
    end
  | _ => inr (Errorf "json" [])
  end.

Definition demo_gateway : GatewayCalls := {|
  gc_display := Some demo_display;
  gc_assets := Some (mkResolver (fun _ scene _ => inl (ResolveScene scene)) (Some (fun _ cue _ => inl (mkResolvedAudioCue cue "ring.snd"))));
  gc_lib := demo_busylib;
  gc_Simple := "simple";
  gc_NotStarted := "not_started";
  gc_conflict _ := false;
  gc_encode := demo_encode;
  gc_sum x := "sum " +:+ x;
  gc_ParseTime _ := inl (mkTime unix_epoch 0);
  gc_now w := (mkTime unix_epoch 0, w);
  gc_verifyDelay _ w := (None, w);
|}.

#[export] Instance demo_screen : Screen demo_gateway demo_display.
Proof.
  refine {| sc_canvas := dv_canvas; sc_card := dv_card |}; try done.
  - intros request [c card [|[] script]]; cbn; auto.
  - by intros b w [= <-].
  - by intros b w [= <-].
  - intros b request w [= <-]. cbn. split; [by right|]. destruct (dv_script w) as [|[] ?]; cbn; auto.
Defined.

#[export] Instance demo_digests : Digests demo_gateway.
Proof.
  assert (He : forall a x, demo_encode a = inl x -> exists value, x = "text " +:+ value
    /\ CompileScene demo_busylib ApplicationName 50 (ResolveScene (demo_text value)) = inl a).
  { intros a x. unfold demo_encode. destruct (de_Elements a) as [|[? value| | | |] []]; try done.
    destruct (CompileScene _ _ _ _) as [compiled|] eqn:Ec; [|done].
    destruct (decide _) as [->|]; [|done]. intros [= <-]. by exists value. }
  split; [|done]. cbn. intros a b x y (v & -> & Hv)%He (u & -> & Hu)%He [= E]. rewrite E in Hv. congruence.
Qed.

Definition demo_rest : Run Gateway gwEvent demo_device := mkRun newGateway [] (mkDevice None EmptyString []).
Definition demo_renders (script : list bool) (candidates : list (option Candidate)) : Run Gateway gwEvent demo_device :=
  fold_left (fun r c => (Render demo_gateway c r).2) candidates (mkRun newGateway [] (mkDevice None EmptyString script)).



Lemma gateway_draws_once_witness : exists new,
  canvas_calls (Render demo_gateway (Some (demo_show "a" "hello")) demo_rest).2 = [] ++ new
  /\ candidate_calls demo_gateway (demo_show "a" "hello") demo_rest (OutcomeDrawn, None) new.
Proof.
  destruct (gateway_draws_once demo_gateway (demo_show "a" "hello") demo_rest eq_refl) as (new & H1 & H2).
  exists new. split; [exact H1|].
  assert (Ha : (Render demo_gateway (Some (demo_show "a" "hello")) demo_rest).1 = (OutcomeDrawn, None)) by (vm_compute; reflexivity).
  rewrite Ha in H2. exact H2.
Defined.

Definition demo_cue : preparedAudioCue :=
  mkPreparedCue (mkPlayAudio ApplicationName EmptyString "ring.snd")
    (mkCueIdentity "dev.bsbctl.test" "test" 1 "ring" "ring.snd") (mkTime (unix_epoch + 9 * Second) 0).

Lemma gateway_audio_bounded_witness :
  Bounded (demo_renders [] [Some demo_busy])
  /\ rn_events (playAudioCue demo_gateway demo_display (Some demo_cue) (demo_renders [] [Some demo_busy])).2
     = rn_events (demo_renders [] [Some demo_busy]).
Proof.
  assert (Hb : Bounded (demo_renders [] [Some demo_busy])) by (vm_compute; discriminate). split; [exact Hb|].
  apply (proj2 (gateway_audio_bounded demo_gateway demo_display None demo_cue (mkTime (unix_epoch + 9 * Second) 0) _ Hb));
    vm_compute; reflexivity.
Defined.

(** The cases of the claims occur: a scene, another one in its place, the same one again, a
    timer instead, the same timer again, and nothing. *)
Example demo_outcomes :
  let a := Some (demo_show "a" "hello") in let b := Some (demo_show "a" "bye") in let t := Some demo_busy in
  map (fun '(past, next) => (Render demo_gateway next (demo_renders [] past)).1.1)
      [([], a); ([a], b); ([a], a); ([a], t); ([a; t], t); ([t], None); ([t; None], None)]
  = [OutcomeDrawn; OutcomeDrawn; OutcomeUnchanged; OutcomeDrawn; OutcomeUnchanged; OutcomeCleared; OutcomeUnchanged].
Proof. vm_compute. reflexivity. Qed.

(** A draw in place fails although it takes effect; the scene before it is selected again, and
    is reported as unchanged while the other one is shown. *)
Example demo_stale_digest :
  let a := demo_show "a" "hello" in
  let r := demo_renders [false; true] [Some a; Some (demo_show "a" "bye")] in
  (Render demo_gateway (Some a) r).1 = (OutcomeUnchanged, None)
  /\ canvas demo_gateway demo_display (Render demo_gateway (Some a) r).2
     = canvas demo_gateway demo_display (demo_renders [] [Some (demo_show "a" "bye")])
  /\ canvas demo_gateway demo_display (Render demo_gateway (Some a) r).2 <> canvas demo_gateway demo_display (demo_renders [] [Some a]).
Proof. vm_compute. split; [reflexivity|]. split; [reflexivity|discriminate]. Qed.

(** A timer whose start fails although it takes effect is not owned: nothing stops it. *)
Example demo_lost_timer :
  let r := demo_renders [true] [Some demo_busy] in
  card demo_gateway demo_display r = busyCardID demo_gateway (Candidate_ID demo_busy)
  /\ (Render demo_gateway None r).1 = (OutcomeUnchanged, None)
  /\ card demo_gateway demo_display (Render demo_gateway None r).2 = busyCardID demo_gateway (Candidate_ID demo_busy).
Proof. vm_compute. split; [reflexivity|]. split; reflexivity. Qed.

(** An attempt is counted although the display has no audio and nothing is written. *)
Example demo_audio_attempt :
  let r := demo_renders [] [Some demo_busy] in
  Gateway_Status (rn_state r) = mkAudioStatus 1 "audio_unsupported"
  /\ forallb (fun e => match e with GwPlay _ _ => false | _ => true end) (rn_events r) = true.
Proof. vm_compute. split; reflexivity. Qed.
