(* ===== verification/Assets.v ===== *)
(** * The reconciler of device assets

    Models [internal/assets/reconciler.go]. [Reconcile] and [CollectGarbage] hold one mutex
    throughout, and another one only while they read or write the reconciler; the connection
    may be invalidated in between. The operations are computations over the reconciler, a
    log of the calls to the device, and the world; after each call and each snapshot the
    invalidations that happened meanwhile take effect. *)

From Stdlib Require Import ZArith Lia.
From S2P Require Import Prelude GoStrings GoTime GoJson Identifier Protocol Presentation GoEncoding Actions.

Definition AssetApplication : string := "bsbctl".
Definition MaxAssets : Z := 128.
Definition MaxAssetBytes : Z := 64 * 1048576.
Definition MaxPackageAssetBytes : Z := 256 * 1048576.
Definition physicalContentHashLength : nat := 14.

Definition ErrAssetsNotReady : error := Errorf "plugin assets are not ready" [].
Definition ErrAssetUndeclared : error := Errorf "package asset is not declared" [].
Definition ErrAssetKindMismatch : error := Errorf "package asset media type does not match presentation kind" [].

Record Declaration := mkDeclaration { ad_Source : string; ad_SHA256 : string; ad_Size : Z; ad_MediaType : string }.

Record Package := mkPackage {
  pk_PluginID : string;
  pk_Version : string;
  pk_Root : string;
  pk_Enabled : bool;
  pk_Slice : option (list Declaration);
}.
(** A nil slice has no elements. *)
Definition pk_Assets (value : Package) : list Declaration := default [] (pk_Slice value).

Definition AssetsAbsent : string := "absent".
Definition AssetsPending : string := "assets_pending".
Definition AssetsReady : string := "ready".
Definition AssetsError : string := "error".

Record AssetState := mkAssetState {
  sa_PluginID : string;
  sa_DesiredVersion : string;
  sa_ObservedVersion : string;
  sa_Phase : string;
  sa_FilesVerified : Z;
  sa_BytesVerified : Z;
  sa_ValidationInvalidations : Z;
  sa_RetryAt : Time;
  sa_LastErrorCode : string;
}.

Definition ErrorManifestInvalid : string := "asset_manifest_invalid".
Definition ErrorDeviceUnavailable : string := "device_unavailable".
Definition ErrorLocalVerification : string := "local_asset_verification_failed".
Definition ErrorDeviceVerification : string := "device_asset_verification_failed".

Definition zero_state : AssetState := mkAssetState EmptyString EmptyString EmptyString EmptyString 0 0 0 zero_time EmptyString.

(** A new state of a package. *)
Definition pending_state (value : Package) (invalidations : Z) : AssetState :=
  mkAssetState (pk_PluginID value) (pk_Version value) EmptyString AssetsPending 0 0 invalidations zero_time EmptyString.
Definition with_phase (phase code : string) (s : AssetState) : AssetState :=
  mkAssetState (sa_PluginID s) (sa_DesiredVersion s) (sa_ObservedVersion s) phase (sa_FilesVerified s) (sa_BytesVerified s)
    (sa_ValidationInvalidations s) (sa_RetryAt s) code.
(** [state.Phase = PhaseReady] and [state.ObservedVersion = value.Version] *)
Definition ready_state (value : Package) (s : AssetState) : AssetState :=
  mkAssetState (sa_PluginID s) (sa_DesiredVersion s) (pk_Version value) AssetsReady (sa_FilesVerified s) (sa_BytesVerified s)
    (sa_ValidationInvalidations s) (sa_RetryAt s) (sa_LastErrorCode s).
(** [state.RetryAt] and [state.LastErrorCode] *)
Definition retry_state (now : Time) (code : string) (s : AssetState) : AssetState :=
  mkAssetState (sa_PluginID s) (sa_DesiredVersion s) (sa_ObservedVersion s) (sa_Phase s) (sa_FilesVerified s) (sa_BytesVerified s)
    (sa_ValidationInvalidations s) (Add (UTC now) (dur_mul 2 Second)) code.
Definition count_file (asset : Declaration) (s : AssetState) : AssetState :=
  mkAssetState (sa_PluginID s) (sa_DesiredVersion s) (sa_ObservedVersion s) (sa_Phase s) (i64 (sa_FilesVerified s + 1))
    (i64 (sa_BytesVerified s + ad_Size asset)) (sa_ValidationInvalidations s) (sa_RetryAt s) (sa_LastErrorCode s).
Definition set_code (code : string) (s : AssetState) : AssetState := with_phase (sa_Phase s) code s.
Definition invalidated (s : AssetState) : AssetState :=
  mkAssetState (sa_PluginID s) (sa_DesiredVersion s) EmptyString AssetsPending 0 0
    (u64_succ (sa_ValidationInvalidations s)) (sa_RetryAt s) (sa_LastErrorCode s).

(** ** The reconciler *)

Local Notation paths_map := (gmap string string).

Record AssetReconciler := mkAssetReconciler {
  ar_states : gmap string AssetState;
  ar_paths : gmap string paths_map;
  ar_fingerprints : gmap string string;
  ar_observed : gmap string paths_map;
  ar_connectionEpoch : Z;
}.

Definition NewReconciler : AssetReconciler := mkAssetReconciler ∅ ∅ ∅ ∅ 0.

Definition phase_of (r : AssetReconciler) (pluginID : string) : string :=
  match ar_states r !! pluginID with Some s => sa_Phase s | None => EmptyString end.
Definition observed_of (r : AssetReconciler) (pluginID : string) : paths_map := default ∅ (ar_observed r !! pluginID).
Definition paths_of (r : AssetReconciler) (pluginID : string) : paths_map := default ∅ (ar_paths r !! pluginID).

(** A plugin that has a state, and paths or observed files. *)
Definition has_files (r : AssetReconciler) (pluginID : string) : bool :=
  is_some (ar_states r !! pluginID) && negb (Nat.eqb (size (paths_of r pluginID)) 0 && Nat.eqb (size (observed_of r pluginID)) 0).

(** The paths are kept without their hashes. *)
Definition forget_hashes (m : paths_map) : paths_map := (fun _ => EmptyString) <$> m.

Definition InvalidateConnection (r : AssetReconciler) : AssetReconciler :=
  mkAssetReconciler
    (map_imap (fun id s => Some (if has_files r id then invalidated s else s)) (ar_states r))
    (ar_paths r)
    (filter (fun p => has_files r p.1 = false) (ar_fingerprints r))
    (map_imap (fun id m => Some (if has_files r id then forget_hashes m else m)) (ar_observed r))
    (u64_succ (ar_connectionEpoch r)).

(** [set], [pending], [pendingObserved] and [commit]: nothing if the connection changed. *)
Definition put_map (pluginID : string) (m : option paths_map) (maps : gmap string paths_map) : gmap string paths_map :=
  match m with None => delete pluginID maps | Some m => <[pluginID := m]> maps end.
Definition in_epoch (epoch : Z) (f : AssetReconciler -> AssetReconciler) (r : AssetReconciler) : AssetReconciler :=
  if ar_connectionEpoch r =? epoch then f r else r.

Definition put_state (pluginID : string) (s : AssetState) (r : AssetReconciler) : AssetReconciler :=
  mkAssetReconciler (<[pluginID := s]> (ar_states r)) (ar_paths r) (ar_fingerprints r) (ar_observed r) (ar_connectionEpoch r).
Definition put_observed (pluginID : string) (observed : option paths_map) (r : AssetReconciler) : AssetReconciler :=
  mkAssetReconciler (ar_states r) (ar_paths r) (ar_fingerprints r) (put_map pluginID observed (ar_observed r)) (ar_connectionEpoch r).
Definition put_paths (pluginID : string) (paths : option paths_map) (r : AssetReconciler) : AssetReconciler :=
  mkAssetReconciler (ar_states r) (put_map pluginID paths (ar_paths r)) (ar_fingerprints r) (ar_observed r) (ar_connectionEpoch r).
Definition put_fingerprint (pluginID fingerprint : string) (r : AssetReconciler) : AssetReconciler :=
  mkAssetReconciler (ar_states r) (ar_paths r) (<[pluginID := fingerprint]> (ar_fingerprints r)) (ar_observed r) (ar_connectionEpoch r).

Definition set_assets (epoch : Z) (pluginID : string) (s : AssetState) (paths : option paths_map) : AssetReconciler -> AssetReconciler :=
  in_epoch epoch (fun r => put_paths pluginID paths (put_state pluginID s r)).
Definition pending (epoch : Z) (pluginID : string) (s : AssetState) : AssetReconciler -> AssetReconciler :=
  in_epoch epoch (put_state pluginID s).
Definition pendingObserved (epoch : Z) (pluginID : string) (s : AssetState) (observed : paths_map) : AssetReconciler -> AssetReconciler :=
  in_epoch epoch (fun r => put_observed pluginID (Some observed) (put_state pluginID s r)).
Definition commit (epoch : Z) (pluginID : string) (s : AssetState) (paths observed : option paths_map) (fingerprint : string) :
    AssetReconciler -> AssetReconciler :=
  in_epoch epoch (fun r => put_fingerprint pluginID fingerprint (put_observed pluginID observed (put_paths pluginID paths (put_state pluginID s r)))).

Definition Assets_Ready (r : AssetReconciler) (pluginID : string) : bool := phase_of r pluginID =s AssetsReady.
Definition Assets_Status (r : AssetReconciler) : list AssetState :=
  SortFunc (cmp_key sa_PluginID) (map snd (map_to_list (ar_states r))).

(** ** Names and kinds *)

Definition StockPath (name kind : string) : string :=
  if kind =s "animation" then "shared/animations/" +:+ name
  else if kind =s "audio" then "shared/sounds/" +:+ name
  else "shared/images/external/" +:+ name.

Definition resolvedElementAsset (element : Element) : option AssetRef :=
  match elem_Image element with
  | Some image => Some (image_Asset image)
  | None => match elem_Animation element with Some animation => Some (animation_Asset animation) | None => None end
  end.

Definition packagePathMatchesKind (path kind : string) : bool :=
  if kind =s "image" then filepath_Ext path =s ".png"
  else if kind =s "animation" then filepath_Ext path =s ".anim"
  else false.

Definition element_kind (element : Element) : string := if is_some (elem_Animation element) then "animation" else "image".

(** One turn of the loop of [ResolveScene]. *)
Definition resolve_element (ready : bool) (paths : paths_map) (element : Element) : ResolvedElement + error :=
  match resolvedElementAsset element with
  | None => inl (mkResolvedElement element EmptyString)
  | Some asset =>
    if negb (asset_StockName asset =s EmptyString) then inl (mkResolvedElement element (StockPath (asset_StockName asset) (element_kind element)))
    else if negb ready then inr ErrAssetsNotReady
    else match paths !! asset_PackagePath asset with
         | None => inr (Wrapf "%w: %q" [EStr (asset_PackagePath asset)] ErrAssetUndeclared)
         | Some path =>
           if negb (packagePathMatchesKind path (element_kind element))
           then inr (Wrapf "%w: %q cannot be used as %s" [EStr (asset_PackagePath asset); EStr (element_kind element)] ErrAssetKindMismatch)
           else inl (mkResolvedElement element path)
         end
  end.

Fixpoint resolve_elements (ready : bool) (paths : paths_map) (elements : list Element) : list ResolvedElement + error :=
  match elements with
  | [] => inl []
  | element :: elements =>
    match resolve_element ready paths element with
    | inr err => inr err
    | inl resolved => match resolve_elements ready paths elements with
                      | inr err => inr err
                      | inl rest => inl (resolved :: rest)
                      end
    end
  end.

Definition Assets_ResolveScene (r : AssetReconciler) (pluginID : string) (scene : Scene) : ResolvedScene + error :=
  match resolve_elements (Assets_Ready r pluginID) (paths_of r pluginID) (scene_Elements scene) with
  | inl elements => inl (mkResolvedScene elements)
  | inr err => inr err
  end.

Definition Assets_ResolveAudioCue (pluginID : string) (cue : AudioCue) : ResolvedAudioCue + error :=
  if negb (asset_StockName (audio_Asset cue) =s EmptyString)
  then inl (mkResolvedAudioCue cue (StockPath (asset_StockName (audio_Asset cue)) "audio"))
  else inr (Wrapf "%w: package audio is unavailable" [] ErrAssetKindMismatch).

Definition storageAssetPath (path : string) : string := "/ext/user_assets/" +:+ AssetApplication +:+ "/" +:+ path.

Definition lowerHex (value : string) : bool := forall_bytes (fun b => is_digit b || between 97 102 b) value.

Definition media_extension (mediaType : string) : string :=
  if mediaType =s "image/png" then ".png"
  else if mediaType =s "application/x-busy-animation" then ".anim"
  else EmptyString.

(** ** The device and the files of packages *)

Section Reconciler.
Context {W : Type}.

(** [ReadTo] gives what it wrote to the writer, the count it returned, and its error. *)
Record AssetDevice := mkAssetDevice {
  av_UploadFile : string -> string -> string -> W -> option error * W;
  av_ReadTo : string -> W -> string * Z * option error * W;
  av_Remove : string -> W -> option error * W;
}.

Record FileInfo := mkFileInfo { fi_regular : bool; fi_symlink : bool; fi_Size : Z }.

(** [lf_Copy] reads at most as many bytes as it is told. *)
Record LocalFiles := mkLocalFiles {
  lf_Lstat : string -> W -> FileInfo + error;
  lf_Open : string -> W -> option error;
  lf_Copy : string -> Z -> W -> string * option error;
}.

(** [ac_sum] is [sha256.Sum256]; [ac_validUpload] and [ac_validWrite] are the validators of
    the client library's requests; [ac_reconnects] is how often the connection was
    established again meanwhile. *)
Record AssetCalls := mkAssetCalls {
  ac_device : option AssetDevice;
  ac_files : LocalFiles;
  ac_sum : string -> string;
  ac_validUpload : string -> string -> option error;
  ac_validWrite : string -> option error;
  ac_now : W -> Time * W;
  ac_reconnects : W -> nat * W;
}.

Context (calls : AssetCalls).

Definition hex_sum (content : string) : string := hex_of (bytes_of (ac_sum calls content)).

Definition pluginPathPrefix (pluginID : string) : string := take_bytes 10 (base64_of (bytes_of (ac_sum calls pluginID))).

Definition derivedDevicePath (pluginID : string) (asset : Declaration) : string + error :=
  let extension := media_extension (ad_MediaType asset) in
  if extension =s EmptyString then inr (Errorf "unsupported package asset media_type %q" [EStr (ad_MediaType asset)])
  else match unhex_of (ad_SHA256 asset) with
       | Some digest =>
         if Nat.eqb (length digest) 32
         then inl ("p" +:+ pluginPathPrefix pluginID +:+ "_" +:+ take_bytes physicalContentHashLength (base64_of digest) +:+ extension)
         else inr (Errorf "invalid asset sha256" [])
       | None => inr (Errorf "invalid asset sha256" [])
       end.

Definition validatePhysicalPath (path : string) : option error :=
  match ac_validUpload calls AssetApplication path with
  | Some err => Some (Wrapf "device asset upload path: %w" [] err)
  | None => match ac_validWrite calls (storageAssetPath path) with
            | Some err => Some (Wrapf "device asset storage path: %w" [] err)
            | None => None
            end
  end.

(** [validatePluginHashCollisions] *)
Fixpoint check_collisions (seen : gmap string string) (pluginIDs : list string) (prefixFor : string -> string) : option error :=
  match pluginIDs with
  | [] => None
  | pluginID :: pluginIDs =>
    let prefix := prefixFor pluginID in
    match seen !! prefix with
    | Some previous =>
      if negb (previous =s pluginID) then Some (Errorf "plugin ids %q and %q share asset path prefix %q" [EStr previous; EStr pluginID; EStr prefix])
      else check_collisions (<[prefix := pluginID]> seen) pluginIDs prefixFor
    | None => check_collisions (<[prefix := pluginID]> seen) pluginIDs prefixFor
    end
  end.
Definition ValidatePluginHashCollisions (pluginIDs : list string) : option error := check_collisions ∅ pluginIDs pluginPathPrefix.

(** The loop of [ValidatePackage]. *)
Fixpoint check_assets (pluginID : string) (sources paths : gset string) (total : Z) (assets : list Declaration) : option error :=
  match assets with
  | [] => None
  | asset :: assets =>
    if is_some (ValidatePackagePath (ad_Source asset)) then Some (Errorf "asset source must be a safe relative path" [])
    else if decide (ad_Source asset ∈ sources) then Some (Errorf "duplicate asset source %q" [EStr (ad_Source asset)])
    else match derivedDevicePath pluginID asset with
         | inr err => Some err
         | inl devicePath =>
           match validatePhysicalPath devicePath with
           | Some err => Some err
           | None =>
             if decide (devicePath ∈ paths) then Some (Errorf "duplicate device path %q" [EStr devicePath])
             else if negb (len (ad_SHA256 asset) =? 64) || negb (lowerHex (ad_SHA256 asset)) then Some (Errorf "invalid asset sha256" [])
             else if (ad_Size asset <? 1) || (MaxAssetBytes <? ad_Size asset) then Some (Errorf "invalid asset size" [])
             else
               let total := i64 (total + ad_Size asset) in
               if MaxPackageAssetBytes <? total then Some (Errorf "package assets exceed size limit" [])
               else check_assets pluginID ({[ad_Source asset]} ∪ sources) ({[devicePath]} ∪ paths) total assets
           end
         end
  end.

Definition ValidatePackage (value : Package) : option error :=
  if (TrimSpace (pk_PluginID value) =s EmptyString) || (TrimSpace (pk_Version value) =s EmptyString)
  then Some (Errorf "plugin id and version are required" [])
  else if Nat.eqb (length (pk_Assets value)) 0 then None
  else if negb (filepath_IsAbs (pk_Root value)) then Some (Errorf "asset root must be absolute" [])
  else if MaxAssets <? Z.of_nat (length (pk_Assets value)) then Some (Errorf "too many assets" [])
  else check_assets (pk_PluginID value) ∅ ∅ 0 (pk_Assets value).

(** [json.Marshal] of a package. *)
Definition json_pair (name value : string) : string := json_string name +:+ ":" +:+ value.
Definition json_declaration (asset : Declaration) : string :=
  "{" +:+ json_pair "source" (json_string (ad_Source asset)) +:+ "," +:+ json_pair "sha256" (json_string (ad_SHA256 asset))
  +:+ "," +:+ json_pair "size" (format_int (ad_Size asset)) +:+ "," +:+ json_pair "media_type" (json_string (ad_MediaType asset)) +:+ "}".
Definition json_slice (assets : option (list Declaration)) : string :=
  match assets with
  | None => "null"
  | Some assets => "[" +:+ join_strings "," (map json_declaration assets) +:+ "]"
  end.
Definition json_package (value : Package) : string :=
  "{" +:+ json_pair "PluginID" (json_string (pk_PluginID value)) +:+ "," +:+ json_pair "Version" (json_string (pk_Version value))
  +:+ "," +:+ json_pair "Root" (json_string (pk_Root value)) +:+ "," +:+ json_pair "Enabled" (if pk_Enabled value then "true" else "false")
  +:+ "," +:+ json_pair "Assets" (json_slice (pk_Slice value)) +:+ "}".
Definition manifestFingerprint (value : Package) : string := ac_sum calls (json_package value).

Definition ReadyFor (r : AssetReconciler) (value : Package) : bool :=
  Assets_Ready r (pk_PluginID value)
  && match ar_fingerprints r !! pk_PluginID value with Some f => f =s manifestFingerprint value | None => false end.

(** [verifiedLocalPath] *)
Definition verifiedLocalPath (root : string) (asset : Declaration) (w : W) : string + error :=
  let path := filepath_Join root (ad_Source asset) in
  match filepath_Rel root path with
  | None => inr (Errorf "asset escapes root" [])
  | Some relative =>
    if (relative =s "..") || HasPrefix relative "../" then inr (Errorf "asset escapes root" [])
    else match lf_Lstat (ac_files calls) path w with
         | inr _ => inr (Errorf "asset is not the declared regular file" [])
         | inl info =>
           if negb (fi_regular info) || fi_symlink info || negb (fi_Size info =? ad_Size asset)
           then inr (Errorf "asset is not the declared regular file" [])
           else match lf_Open (ac_files calls) path w with
                | Some err => inr err
                | None =>
                  let '(content, err) := lf_Copy (ac_files calls) path (MaxAssetBytes + 1) w in
                  if is_some err || negb (len content =? ad_Size asset) || negb (hex_sum content =s ad_SHA256 asset)
                  then inr (Errorf "asset digest mismatch" [])
                  else inl path
                end
         end
  end.

(** ** Calls to the device *)

Inductive asEvent :=
  | AsUpload (path : string) (err : option error)
  | AsRead (path : string) (matches : bool)
  | AsRemove (path : string) (err : option error)
  | AsReconnect (times : nat).

Notation act := (act AssetReconciler asEvent W).

(** The invalidations that happened meanwhile. *)
Definition interfere : act unit :=
  times ← query (ac_reconnects calls);
  _ ← log (AsReconnect times);
  modify (Nat.iter times InvalidateConnection).

Definition do_Remove (d : AssetDevice) (path : string) : act (option error) :=
  err ← query (av_Remove d (storageAssetPath path)); _ ← log (AsRemove path err); _ ← interfere; mret err.
Definition do_Upload (d : AssetDevice) (path localPath : string) : act (option error) :=
  err ← query (av_UploadFile d AssetApplication path localPath); _ ← log (AsUpload path err); _ ← interfere; mret err.
Definition deviceAssetMatches (d : AssetDevice) (path : string) (asset : Declaration) : act bool :=
  read ← query (av_ReadTo d (storageAssetPath path));
  let '(content, n, err) := (read : string * Z * option error) in
  let matches := negb (is_some err) && (n =? ad_Size asset) && (hex_sum content =s ad_SHA256 asset) in
  _ ← log (AsRead path matches); _ ← interfere; mret matches.

(** ** [Reconcile] *)

(** Removes files until one fails; gives what is left. *)
Fixpoint remove_files (d : AssetDevice) (paths : list string) (observed : paths_map) : act (bool * paths_map) :=
  match paths with
  | [] => mret (true, observed)
  | path :: paths =>
    err ← do_Remove d path;
    match err with
    | Some _ => mret (false, observed)
    | None => remove_files d paths (delete path observed)
    end
  end.

(** How one asset ended: the rest of the loop goes on, or the package is left in a state,
    with what was observed or without. *)
Inductive synced :=
  | Synced (s : AssetState) (resolved observed : paths_map)
  | LeftAt (s : AssetState)
  | LeftObserved (s : AssetState) (observed : paths_map).

(** An asset that is not known to be on the device is read, uploaded, and read again;
    [inr] is the code of the error. *)
Definition sync_file (d : AssetDevice) (devicePath localPath : string) (asset : Declaration) : act (unit + string) :=
  matches ← deviceAssetMatches d devicePath asset;
  if matches : bool then mret (inl tt)
  else
    err ← do_Upload d devicePath localPath;
    match err with
    | Some _ => mret (inr ErrorDeviceUnavailable)
    | None =>
      matches ← deviceAssetMatches d devicePath asset;
      mret (if matches : bool then inl tt else inr ErrorDeviceVerification)
    end.

Definition sync_asset (d : AssetDevice) (value : Package) (asset : Declaration) (s : AssetState) (resolved observed : paths_map) : act synced :=
  local ← look_at (verifiedLocalPath (pk_Root value) asset);
  match local with
  | inr _ => mret (LeftAt (with_phase AssetsError ErrorLocalVerification s))
  | inl localPath =>
    match derivedDevicePath (pk_PluginID value) asset with
    | inr _ => mret (LeftAt (with_phase AssetsError ErrorManifestInvalid s))
    | inl devicePath =>
      let done observed := Synced (count_file asset s) (<[ad_Source asset := devicePath]> resolved) observed in
      if default EmptyString (observed !! devicePath) =s ad_SHA256 asset then mret (done observed)
      else
        result ← sync_file d devicePath localPath asset;
        match result with
        | inl _ => mret (done (<[devicePath := ad_SHA256 asset]> observed))
        | inr code => now ← query (ac_now calls); mret (LeftObserved (retry_state now code s) observed)
        end
    end
  end.

Fixpoint sync_assets (d : AssetDevice) (value : Package) (assets : list Declaration) (s : AssetState) (resolved observed : paths_map) : act synced :=
  match assets with
  | [] => mret (Synced s resolved observed)
  | asset :: assets =>
    result ← sync_asset d value asset s resolved observed;
    match result with
    | Synced s resolved observed => sync_assets d value assets s resolved observed
    | LeftAt _ | LeftObserved _ _ => mret result
    end
  end.

(** A package whose files could not be removed. *)
Definition leave_observed (epoch : Z) (value : Package) (s : AssetState) (observed : paths_map) : act unit :=
  now ← query (ac_now calls);
  modify (pendingObserved epoch (pk_PluginID value) (retry_state now ErrorDeviceUnavailable s) observed).

Definition reconcile_disabled (epoch : Z) (value : Package) (s : AssetState) (observed : paths_map) (fingerprint : string) : act unit :=
  removed ← match ac_device calls with
            | Some d => remove_files d (map fst (map_to_list observed)) observed
            | None => mret (Nat.eqb (size observed) 0, observed)
            end;
  let '(ok, observed) := (removed : bool * paths_map) in
  if ok then modify (commit epoch (pk_PluginID value) (with_phase AssetsAbsent EmptyString s) None None fingerprint)
  else leave_observed epoch value s observed.

Definition reconcile_enabled (d : AssetDevice) (epoch : Z) (value : Package) (s : AssetState) (observed : paths_map) (fingerprint : string) : act unit :=
  if Nat.eqb (length (pk_Assets value)) 0 then
    removed ← remove_files d (SortFunc cmp_strings (map fst (map_to_list observed))) observed;
    let '(ok, observed) := (removed : bool * paths_map) in
    if ok then modify (commit epoch (pk_PluginID value) (ready_state value s) None (Some observed) fingerprint)
    else leave_observed epoch value s observed
  else
    result ← sync_assets d value (pk_Assets value) s ∅ observed;
    modify match result with
           | Synced s resolved observed => commit epoch (pk_PluginID value) (ready_state value s) (Some resolved) (Some observed) fingerprint
           | LeftAt s => pending epoch (pk_PluginID value) s
           | LeftObserved s observed => pendingObserved epoch (pk_PluginID value) s observed
           end.

(** Nothing has changed since the package was last settled. *)
Definition settled (r : AssetReconciler) (value : Package) : bool :=
  match ar_states r !! pk_PluginID value, ar_fingerprints r !! pk_PluginID value with
  | Some s, Some f => (f =s manifestFingerprint value)
                      && ((pk_Enabled value && (sa_Phase s =s AssetsReady)) || (negb (pk_Enabled value) && (sa_Phase s =s AssetsAbsent)))
  | _, _ => false
  end.

Definition reconcile (value : Package) : act unit :=
  r ← read;
  _ ← interfere;
  let epoch := ar_connectionEpoch r in
  let observed := observed_of r (pk_PluginID value) in
  let s := pending_state value (match ar_states r !! pk_PluginID value with Some s => sa_ValidationInvalidations s | None => 0 end) in
  let fingerprint := manifestFingerprint value in
  if is_some (ValidatePackage value) then modify (set_assets epoch (pk_PluginID value) (with_phase AssetsError ErrorManifestInvalid s) None)
  else if settled r value then mret tt
  else if negb (pk_Enabled value) then
    if Nat.eqb (size observed) 0 && Nat.eqb (length (pk_Assets value)) 0
    then modify (commit epoch (pk_PluginID value) (with_phase AssetsAbsent EmptyString s) None None fingerprint)
    else reconcile_disabled epoch value s observed fingerprint
  else if Nat.eqb (length (pk_Assets value)) 0 && Nat.eqb (size observed) 0
  then modify (commit epoch (pk_PluginID value) (ready_state value s) None (Some observed) fingerprint)
  else match ac_device calls with
       | None => now ← query (ac_now calls); modify (pending epoch (pk_PluginID value) (retry_state now ErrorDeviceUnavailable s))
       | Some d => reconcile_enabled d epoch value s observed fingerprint
       end.

Definition Reconcile (packages : list Package) : act unit := for_each reconcile packages.

(** ** [CollectGarbage] *)

Definition desired_paths (value : Package) : list string :=
  omap (fun asset => match derivedDevicePath (pk_PluginID value) asset with inl path => Some path | inr _ => None end) (pk_Assets value).

Definition obsolete_paths (value : Package) (observed : paths_map) : list string :=
  SortFunc cmp_strings (List.filter (fun path => negb (one_of path (desired_paths value))) (map fst (map_to_list observed))).

(** The loop over the obsolete files; it ends when one fails or the connection changed. *)
Fixpoint collect_files (d : AssetDevice) (epoch : Z) (pluginID : string) (paths : list string) (observed : paths_map) : act unit :=
  match paths with
  | [] => mret tt
  | path :: paths =>
    err ← do_Remove d path;
    r ← read;
    let observed := match err with Some _ => observed | None => delete path observed end in
    let code := match err with Some _ => ErrorDeviceUnavailable | None => EmptyString end in
    if negb (ar_connectionEpoch r =? epoch) then mret tt
    else
      _ ← modify (fun r => put_observed pluginID (Some observed) (put_state pluginID (set_code code (default zero_state (ar_states r !! pluginID))) r));
      match err with Some _ => mret tt | None => collect_files d epoch pluginID paths observed end
  end.

Definition collect (value : Package) : act unit :=
  r ← read;
  match ac_device calls with
  | None => mret tt
  | Some d =>
    if negb (pk_Enabled value) || Nat.eqb (length (pk_Assets value)) 0 || negb (ReadyFor r value) then mret tt
    else
      _ ← interfere;
      r ← read;
      _ ← interfere;
      let observed := observed_of r (pk_PluginID value) in
      collect_files d (ar_connectionEpoch r) (pk_PluginID value) (obsolete_paths value observed) observed
  end.

Definition CollectGarbage (packages : list Package) : act unit := for_each collect packages.
End Reconciler.
