(* ===== verification/AssetsSafe.v ===== *)
(** * The reconciler keeps track of the device

    Over a device whose storage behaves as documented, and packages whose truncated hashes
    do not collide: what the reconciler has observed is on the device, whatever fails and
    whenever the connection is invalidated. *)

From Stdlib Require Import ZArith Lia.
From S2P Require Import Prelude GoStrings GoTime GoJson Identifier Protocol Presentation GoEncoding Actions Assets.

Local Notation paths_map := (gmap string string).

(** ** The log *)

(** How often the connection was established again. *)
Definition reconnects (events : list asEvent) : nat :=
  sum_list_with (fun e => match e with AsReconnect n => n | _ => 0%nat end) events.

(** The files whose removal failed since: they may or may not be there. *)
Definition doubt (d : gset string) (e : asEvent) : gset string :=
  match e with
  | AsRemove path (Some _) => {[path]} ∪ d
  | AsReconnect (S _) => ∅
  | _ => d
  end.
Definition doubts (events : list asEvent) : gset string := fold_left doubt events ∅.

Lemma reconnects_snoc events e : reconnects (events ++ [e]) = (reconnects events + match e with AsReconnect n => n | _ => 0 end)%nat.
Proof. unfold reconnects. rewrite sum_list_with_app. cbn. destruct e; lia. Qed.
Lemma doubts_snoc events e : doubts (events ++ [e]) = doubt (doubts events) e.
Proof. unfold doubts. by rewrite fold_left_app. Qed.

(** ** A device with storage *)

(** Uploading and removing a file changes only that file; a removal that fails may have
    taken effect; what is read is what is stored; and nobody else writes as long as the
    connection lasts. *)
Class Storage {W} (calls : AssetCalls (W := W)) (d : AssetDevice (W := W)) := {
  st_files : W -> gmap string string;
  st_remove path w : let '(err, w') := av_Remove d path w in
    (forall other, other <> path -> st_files w' !! other = st_files w !! other)
    /\ match err with None => st_files w' !! path = None | Some _ => st_files w' !! path = st_files w !! path \/ st_files w' !! path = None end;
  st_upload path localPath w other : other <> storageAssetPath path ->
    st_files (av_UploadFile d AssetApplication path localPath w).2 !! other = st_files w !! other;
  st_read path w : let '(content, n, err, w') := av_ReadTo d path w in
    st_files w' = st_files w /\ (err = None -> st_files w !! path = Some content);
  st_now w : st_files (ac_now calls w).2 = st_files w;
  st_reconnects w : (ac_reconnects calls w).1 = 0%nat -> st_files (ac_reconnects calls w).2 = st_files w;
}.

(** The packages in use. Their plugins passed the check for collisions; a fingerprint is of
    one package; and of one plugin's files, those with one name have one content. *)
Record Packages {W} (calls : AssetCalls (W := W)) (ids : list string) (known : Package -> Prop) : Prop := {
  pg_ids : ValidatePluginHashCollisions calls ids = None;
  pg_plugin v : known v -> pk_PluginID v ∈ ids;
  pg_fingerprint v v' : known v -> known v' -> manifestFingerprint calls v = manifestFingerprint calls v' -> v = v';
  pg_content v v' a a' path : known v -> known v' -> pk_PluginID v = pk_PluginID v' -> a ∈ pk_Assets v -> a' ∈ pk_Assets v' ->
    derivedDevicePath calls (pk_PluginID v) a = inl path -> derivedDevicePath calls (pk_PluginID v) a' = inl path ->
    ad_SHA256 a = ad_SHA256 a';
  pg_sum content : String.length (ac_sum calls content) = 32%nat;
}.

(** ** Paths *)

Section Paths.
Context {W : Type} (calls : AssetCalls (W := W)).

Lemma check_collisions_spec prefixFor ids seen : check_collisions seen ids prefixFor = None ->
  (forall prefix id, seen !! prefix = Some id -> prefix = prefixFor id) ->
  forall id id', (id ∈ ids \/ seen !! prefixFor id = Some id) -> (id' ∈ ids \/ seen !! prefixFor id' = Some id') ->
  prefixFor id = prefixFor id' -> id = id'.
Proof.
  revert seen. induction ids as [|x ids IH]; intros seen Hc Hseen id id' Hi Hi' Heq.
  { destruct Hi as [[]%elem_of_nil|Hi]; destruct Hi' as [[]%elem_of_nil|Hi']. rewrite Heq in Hi. congruence. }
  cbn [check_collisions] in Hc.
  assert (Hx : check_collisions (<[prefixFor x := x]> seen) ids prefixFor = None
               /\ (forall y, seen !! prefixFor y = Some y -> prefixFor y = prefixFor x -> y = x)).
  { destruct (seen !! prefixFor x) as [previous|] eqn:E.
    - destruct (previous =s x) eqn:Ep; [|done]. apply String.eqb_eq in Ep as ->. split; [done|].
      intros y Hy Hyx. rewrite Hyx in Hy. congruence.
    - split; [done|]. intros y Hy Hyx. rewrite Hyx in Hy. congruence. }
  destruct Hx as [Hc' Hx].
  assert (Hkept : forall y, y ∈ x :: ids \/ seen !! prefixFor y = Some y -> y ∈ ids \/ <[prefixFor x := x]> seen !! prefixFor y = Some y).
  { intros y [[->|Hy]%elem_of_cons|Hy]; [right; apply lookup_insert_eq|by left|right].
    destruct (decide (prefixFor y = prefixFor x)) as [E|E]; [|by rewrite lookup_insert_ne].
    rewrite E. rewrite (Hx y Hy E). apply lookup_insert_eq. }
  apply (IH _ Hc'); [| | |done].
  - intros prefix y. rewrite lookup_insert_Some. intros [[<- <-]|[_ Hy]]; [done|by apply Hseen].
  - by apply Hkept.
  - by apply Hkept.
Qed.

(** The plugins that pass the check have prefixes of their own. *)
Lemma prefix_inj ids id id' : ValidatePluginHashCollisions calls ids = None -> id ∈ ids -> id' ∈ ids ->
  pluginPathPrefix calls id = pluginPathPrefix calls id' -> id = id'.
Proof.
  intros Hc Hi Hi'. apply (check_collisions_spec _ ids ∅ Hc); [|by left..].
  intros prefix y H. by rewrite lookup_empty in H.
Qed.

Lemma len_take_bytes n s : (n <= String.length s)%nat -> String.length (take_bytes n s) = n.
Proof. revert s. induction n as [|n IH]; intros [|a s] H; simpl in *; try lia. rewrite IH; lia. Qed.

Lemma append_inj_len a a' b b' : String.length a = String.length a' -> a +:+ b = a' +:+ b' -> a = a'.
Proof.
  revert a'. induction a as [|c a IH]; intros [|c' a'] Hl Heq; simpl in *; try lia; [done|].
  injection Heq as -> Heq. f_equal. apply (IH a'); [lia|done].
Qed.

Lemma prefix_length id : (forall content, String.length (ac_sum calls content) = 32%nat) ->
  String.length (pluginPathPrefix calls id) = 10%nat.
Proof.
  intros Hs. apply len_take_bytes. pose proof (len_base64_of (bytes_of (ac_sum calls id))) as H.
  unfold bytes_of in H. rewrite length_map in H.
  assert (Hl : forall s, length (String.list_ascii_of_string s) = String.length s) by (induction s; simpl; congruence).
  unfold bytes_of. rewrite Hl, Hs in H. unfold len in H. lia.
Qed.

(** One path is of one plugin. *)
Lemma path_plugin ids known v v' a a' path : Packages calls ids known -> known v -> known v' ->
  derivedDevicePath calls (pk_PluginID v) a = inl path -> derivedDevicePath calls (pk_PluginID v') a' = inl path ->
  pk_PluginID v = pk_PluginID v'.
Proof.
  intros [Hids Hplugin _ _ Hsum] Hv Hv' H H'. unfold derivedDevicePath in H, H'.
  destruct (media_extension (ad_MediaType a) =s EmptyString); [done|]. destruct (unhex_of (ad_SHA256 a)) as [x|]; [|done].
  destruct (media_extension (ad_MediaType a') =s EmptyString); [done|]. destruct (unhex_of (ad_SHA256 a')) as [x'|]; [|done].
  destruct (Nat.eqb (length x) 32); [|done]. destruct (Nat.eqb (length x') 32); [|done].
  injection H as <-. injection H' as H'. apply (prefix_inj ids); [done|by apply Hplugin..|].
  symmetry. apply append_inj_len in H'; [done|]. by rewrite !prefix_length.
Qed.

Lemma storage_inj path path' : storageAssetPath path = storageAssetPath path' -> path = path'.
Proof. unfold storageAssetPath. intros H. by repeat (injection H as H). Qed.
Lemma check_assets_sources p sources paths total assets : check_assets calls p sources paths total assets = None ->
  NoDup (map ad_Source assets) /\ (forall a, a ∈ assets -> ad_Source a ∉ sources) /\ (forall a, a ∈ assets -> ad_SHA256 a <> EmptyString).
Proof.
  revert sources paths total. induction assets as [|a assets IH]; intros sources paths total H; cbn [check_assets map] in *.
  { split; [constructor|]. split; by intros a []%elem_of_nil. }
  destruct (is_some _); [done|]. destruct (decide (_ ∈ sources)) as [|Hn]; [done|].
  destruct (derivedDevicePath calls p a) as [path|]; [|done]. destruct (validatePhysicalPath calls path); [done|].
  destruct (decide (path ∈ paths)); [done|]. destruct (negb (len _ =? 64) || negb _) eqn:Esha; [done|].
  destruct ((ad_Size a <? 1) || _); [done|]. destruct (MaxPackageAssetBytes <? _); [done|].
  destruct (IH _ _ _ H) as (H1 & H2 & H3). split; [|split].
  - constructor; [|done]. intros (a' & Ha & Ha')%list_elem_of_In%in_map_iff. apply list_elem_of_In in Ha'.
    destruct (H2 _ Ha'). rewrite Ha. set_solver.
  - intros a' [->|Ha']%elem_of_cons; [done|]. specialize (H2 _ Ha'). set_solver.
  - intros a' [->|Ha']%elem_of_cons; [|by apply H3]. intros He. by rewrite He in Esha.
Qed.

Lemma valid_assets v : ValidatePackage calls v = None ->
  NoDup (map ad_Source (pk_Assets v)) /\ (forall a, a ∈ pk_Assets v -> ad_SHA256 a <> EmptyString).
Proof.
  unfold ValidatePackage. destruct (_ || _); [done|]. destruct (Nat.eqb (length (pk_Assets v)) 0) eqn:El.
  { apply Nat.eqb_eq, length_zero_iff_nil in El. rewrite El. split; [constructor|]. by intros a []%elem_of_nil. }
  destruct (negb _); [done|]. destruct (_ <? _); [done|]. by intros (H1 & _ & H3)%check_assets_sources.
Qed.
End Paths.

(** ** What the reconciler holds *)

Section Safe.
Context {W : Type} (calls : AssetCalls (W := W)) (d : AssetDevice (W := W)) `{!Storage calls d}.
Context (ids : list string) (known : Package -> Prop) (pkgs : Packages calls ids known).
Notation Run := (Run AssetReconciler asEvent W).
Notation act := (act AssetReconciler asEvent W).

(** A path of a file of one of the packages. *)
Definition from_package (p path h : string) : Prop :=
  exists v a, known v /\ pk_PluginID v = p /\ a ∈ pk_Assets v /\ derivedDevicePath calls p a = inl path
              /\ (h = EmptyString \/ h = ad_SHA256 a).

(** A plugin that is ready was settled for a package, of which every file was observed, and
    whose files are the ones that are resolved. *)
Record ready_for (st : AssetReconciler) (p : string) (v : Package) : Prop := {
  rf_known : known v;
  rf_plugin : pk_PluginID v = p;
  rf_valid : ValidatePackage calls v = None;
  rf_fingerprint : ar_fingerprints st !! p = Some (manifestFingerprint calls v);
  rf_files a : a ∈ pk_Assets v -> exists path, derivedDevicePath calls p a = inl path
    /\ paths_of st p !! ad_Source a = Some path /\ observed_of st p !! path = Some (ad_SHA256 a);
  rf_paths source path : paths_of st p !! source = Some path ->
    exists a, a ∈ pk_Assets v /\ ad_Source a = source /\ derivedDevicePath calls p a = inl path;
}.

Record plugin_ok (st : AssetReconciler) (p : string) : Prop := {
  po_state : is_Some (ar_observed st !! p) -> is_Some (ar_states st !! p);
  po_observed path h : observed_of st p !! path = Some h -> from_package p path h;
  po_ready : phase_of st p = AssetsReady -> exists v, ready_for st p v;
}.

Definition state_ok (st : AssetReconciler) : Prop := forall p, plugin_ok st p.

(** The plugin has the same entries. *)
Record same_plugin (st st' : AssetReconciler) (p : string) : Prop := {
  sp_states : ar_states st' !! p = ar_states st !! p;
  sp_paths : ar_paths st' !! p = ar_paths st !! p;
  sp_fingerprints : ar_fingerprints st' !! p = ar_fingerprints st !! p;
  sp_observed : ar_observed st' !! p = ar_observed st !! p;
}.

Lemma same_plugin_ok st st' p : same_plugin st st' p -> plugin_ok st p -> plugin_ok st' p.
Proof.
  intros [H1 H2 H3 H4] [K1 K2 K3].
  assert (Ho : observed_of st' p = observed_of st p) by (unfold observed_of; by rewrite H4).
  assert (Hp : paths_of st' p = paths_of st p) by (unfold paths_of; by rewrite H2).
  split; [by rewrite H1, H4|by rewrite Ho|]. unfold phase_of. rewrite H1. intros Hr. destruct (K3 Hr) as [v [L1 L2 L3 L4 L5 L6]].
  exists v. split; rewrite ?H3, ?Ho, ?Hp; done.
Qed.

(** ** Invalidation *)

Definition forgotten (st : AssetReconciler) (p : string) : Prop := forall path h, observed_of st p !! path = Some h -> h = EmptyString.

Lemma observed_invalidated st p : observed_of (InvalidateConnection st) p
  = if has_files st p then forget_hashes (observed_of st p) else observed_of st p.
Proof.
  unfold observed_of. cbn [ar_observed InvalidateConnection]. rewrite map_lookup_imap.
  destruct (ar_observed st !! p) as [m|]; cbn; [done|]. destruct (has_files st p); [|done]. symmetry. apply fmap_empty.
Qed.

Lemma invalidated_phase st p : phase_of (InvalidateConnection st) p = if has_files st p then AssetsPending else phase_of st p.
Proof.
  unfold phase_of. cbn [ar_states InvalidateConnection]. rewrite map_lookup_imap.
  destruct (ar_states st !! p) as [s|] eqn:E; cbn; [by destruct (has_files st p)|]. unfold has_files. by rewrite E.
Qed.

Lemma no_files st p : plugin_ok st p -> has_files st p = false -> observed_of st p = ∅ /\ (is_Some (ar_states st !! p) -> paths_of st p = ∅).
Proof.
  intros [H1 _ _]. unfold has_files. rewrite andb_false_iff, negb_false_iff, andb_true_iff, !Nat.eqb_eq.
  intros [Hs|[Hp Ho]]; [|by rewrite map_size_empty_iff in Hp, Ho].
  destruct (ar_states st !! p) eqn:Es; [done|]. split; [|by intros []]. unfold observed_of.
  destruct (ar_observed st !! p) eqn:E; [|done]. destruct H1 as [x Hx]; [by eexists|congruence].
Qed.

Lemma invalidate_plugin st p : plugin_ok st p -> plugin_ok (InvalidateConnection st) p /\ forgotten (InvalidateConnection st) p.
Proof.
  intros HP. pose proof HP as [H1 H2 H3]. split.
  - split.
    + cbn [ar_observed ar_states InvalidateConnection]. rewrite !map_lookup_imap.
      destruct (ar_observed st !! p) eqn:Eo; [|by intros []]. intros _. destruct H1 as [s Hs]; [by eexists|]. rewrite Hs. by eexists.
    + intros path h. rewrite observed_invalidated. destruct (has_files st p); [|apply H2].
      unfold forget_hashes. rewrite lookup_fmap_Some. intros (h' & <- & Hh). destruct (H2 _ _ Hh) as (v & a & K1 & K2 & K3 & K4 & _).
      exists v, a. by repeat (split; [done|]); left.
    + rewrite invalidated_phase. destruct (has_files st p) eqn:Ef; [done|]. intros Hr. destruct (H3 Hr) as [v [L1 L2 L3 L4 L5 L6]].
      exists v. assert (Ho : observed_of (InvalidateConnection st) p = observed_of st p) by (by rewrite observed_invalidated, Ef).
      split; [done..| | |done].
      * cbn [ar_fingerprints InvalidateConnection]. by apply map_lookup_filter_Some_2.
      * intros a Ha. rewrite Ho. by apply L5.
  - intros path h. rewrite observed_invalidated. destruct (has_files st p) eqn:Ef.
    + unfold forget_hashes. rewrite lookup_fmap_Some. by intros (h' & <- & _).
    + destruct (no_files st p HP Ef) as [-> _]. by rewrite lookup_empty.
Qed.

Lemma invalidations n st : state_ok st -> state_ok (Nat.iter (S n) InvalidateConnection st)
  /\ (forall p, forgotten (Nat.iter (S n) InvalidateConnection st) p).
Proof.
  induction n as [|n IH]; intros H.
  - split; intros p; by apply invalidate_plugin.
  - destruct (IH H) as [H1 _]. split; intros p; by apply invalidate_plugin.
Qed.

(** ** The device *)

Definition files (r : Run) : gmap string string := st_files (rn_world r).

(** The file is on the device with this hash, unless a removal of it has failed. *)
Definition held (path h : string) (r : Run) : Prop := path ∉ doubts (rn_events r) ->
  exists content, files r !! storageAssetPath path = Some content /\ hex_sum calls content = h.

(** The reconciler is well formed, and what it has observed of the plugins but [off] is on
    the device. *)
Record tracks (off : option string) (r : Run) : Prop := {
  tk_ok : state_ok (rn_state r);
  tk_epoch : ar_connectionEpoch (rn_state r) = u64 (Z.of_nat (reconnects (rn_events r)));
  tk_held p path h : Some p <> off -> observed_of (rn_state r) p !! path = Some h -> h <> EmptyString -> held path h r;
}.

(** While a package of the plugin is worked on, since the connection was established for the
    [n]th time: what the work has observed is on the device; and if the connection was
    invalidated meanwhile, the reconciler has forgotten what it had observed. If [k], the
    reconciler itself has observed nothing else. *)
Record working (k : bool) (p : string) (n : nat) (observed : paths_map) (r : Run) : Prop := {
  wk_tracks : tracks (Some p) r;
  wk_since : (n <= reconnects (rn_events r))%nat;
  wk_from path h : observed !! path = Some h -> from_package p path h;
  wk_fresh path h : reconnects (rn_events r) = n -> observed !! path = Some h -> h <> EmptyString -> held path h r;
  wk_forgotten : reconnects (rn_events r) <> n -> forgotten (rn_state r) p;
  wk_kept path h : k = true -> observed_of (rn_state r) p !! path = Some h -> h <> EmptyString -> observed !! path = Some h;
}.

Lemma forgotten_tracks p r : tracks (Some p) r -> forgotten (rn_state r) p -> tracks None r.
Proof.
  intros [H1 H2 H3] Hf. split; [done..|]. intros q path h _ Hq Hn. destruct (decide (q = p)) as [->|Hqp].
  - by rewrite (Hf _ _ Hq) in Hn.
  - apply (H3 q); congruence.
Qed.

(** An event and a world that change nothing for what is held. *)
Lemma held_same path h r st e w : st_files w !! storageAssetPath path = files r !! storageAssetPath path ->
  doubts (rn_events r) ⊆ doubts (rn_events r ++ [e]) -> held path h r -> held path h (mkRun st (rn_events r ++ [e]) w).
Proof. intros Hf Hd H Hn. unfold files in *. cbn in *. rewrite Hf. apply H. set_solver. Qed.

Lemma wp_interfere off r : tracks off r -> wp (interfere calls) (fun _ r' => tracks off r'
  /\ (reconnects (rn_events r) <= reconnects (rn_events r'))%nat
  /\ (reconnects (rn_events r') = reconnects (rn_events r) -> rn_state r' = rn_state r /\ forall path h, held path h r -> held path h r')
  /\ (reconnects (rn_events r') <> reconnects (rn_events r) -> forall p, forgotten (rn_state r') p)) r.
Proof.
  intros [H1 H2 H3]. unfold interfere. wp_run. pose proof (st_reconnects (rn_world r)) as Hw.
  destruct (ac_reconnects calls (rn_world r)) as [[|n] w]; cbn [fst snd] in *; rewrite reconnects_snoc.
  - change (Nat.iter 0 InvalidateConnection (rn_state r)) with (rn_state r).
    assert (Hs : forall path h, held path h r -> held path h (mkRun (rn_state r) (rn_events r ++ [AsReconnect 0]) w)).
    { intros path h. apply held_same; [by rewrite Hw|]. by rewrite doubts_snoc. }
    split; [|split; [lia|split; [done|lia]]]. split; cbn [rn_state rn_events]; [done|rewrite reconnects_snoc, H2; f_equal; lia|].
    intros p path h Hp Ho Hn. by apply Hs, (H3 p).
  - destruct (invalidations n (rn_state r) H1) as [K1 K2]. split; [|split; [lia|split; [lia|done]]].
    split; cbn [rn_state rn_events]; [done| |].
    + rewrite reconnects_snoc. generalize (S n). intros k. induction k as [|k IH]; [change (Nat.iter 0 InvalidateConnection (rn_state r)) with (rn_state r); rewrite H2; f_equal; lia|].
      change (u64_succ (ar_connectionEpoch (Nat.iter k InvalidateConnection (rn_state r))) = u64 (Z.of_nat (reconnects (rn_events r) + S k))). rewrite IH. unfold u64_succ, u64.
      rewrite Zplus_mod_idemp_l. f_equal. lia.
    + intros p path h _ Ho Hn. by rewrite (K2 _ _ _ Ho) in Hn.
Qed.

Lemma working_interfere k p n observed r : working k p n observed r ->
  wp (interfere calls) (fun _ r' => working k p n observed r'
    /\ (reconnects (rn_events r') = n -> rn_state r' = rn_state r /\ reconnects (rn_events r) = n
        /\ forall path h, held path h r -> held path h r')) r.
Proof.
  intros [H1 H2 H3 H4 H5 H6]. eapply wp_mono; [by apply wp_interfere|]. intros _ r' (K1 & K2 & K3 & K4).
  destruct (decide (reconnects (rn_events r') = reconnects (rn_events r))) as [E|E].
  - destruct (K3 E) as [K5 K6]. split; [split|]; [done|lia|done| | | |].
    + intros path h Hn Ho Hh. apply K6, H4; [lia|done..].
    + intros Hn. rewrite K5. apply H5. lia.
    + by rewrite K5.
    + intros Hn. split; [done|]. split; [lia|done].
  - split; [split|]; [done|lia|done|lia| | |lia]; [intros _; by apply K4|].
    intros path h _ Ho Hh. by rewrite (K4 E p _ _ Ho) in Hh.
Qed.

(** A call that changes at most one file of the plugin, and has an event. *)
Lemma working_call k p n observed observed' r e w path : working k p n observed r ->
  (forall m, e <> AsReconnect m) -> (exists h, from_package p path h) ->
  doubts (rn_events r) ⊆ doubts (rn_events r ++ [e]) ->
  (forall other, other <> storageAssetPath path -> st_files w !! other = files r !! other) ->
  (forall other h, observed' !! other = Some h -> observed !! other = Some h /\
     (other = path -> h <> EmptyString -> path ∈ doubts (rn_events r ++ [e]) \/ st_files w = files r)) ->
  k = false \/ observed' = observed ->
  working k p n observed' (mkRun (rn_state r) (rn_events r ++ [e]) w).
Proof.
  intros [[H1 H2 H3] H4 H5 H6 H7 H8] He Hpath Hd Hw Hobs Hk.
  assert (Hr : reconnects (rn_events r ++ [e]) = reconnects (rn_events r)).
  { rewrite reconnects_snoc. destruct e; try lia. by destruct (He times). }
  assert (Hs : forall other h, other <> path -> held other h r -> held other h (mkRun (rn_state r) (rn_events r ++ [e]) w)).
  { intros other h Ho. apply held_same; [|done]. apply Hw. by intros ?%storage_inj. }
  split; [split|..]; cbn [rn_state rn_events]; rewrite ?Hr; try done.
  - intros q other h Hq Ho Hh. apply Hs; [|by apply (H3 q)]. intros ->. apply Hq. f_equal.
    destruct Hpath as (h' & v & a & K1 & K2 & _ & K3 & _). destruct (H1 q) as [_ Hfrom _].
    destruct (Hfrom _ _ Ho) as (v' & a' & L1 & L2 & _ & L3 & _). rewrite <- K2 in *. rewrite <- L2 in *.
    by eapply path_plugin.
  - intros other h Ho. apply H5, Hobs, Ho.
  - intros other h Hn Ho Hh. destruct (Hobs _ _ Ho) as [Ho' Hp]. destruct (decide (other = path)) as [->|Hne].
    + destruct (Hp eq_refl Hh) as [Hin|Hw']; [by intros []|]. apply held_same; [by rewrite Hw'|done|by apply H6].
    + apply Hs; [done|]. by apply H6.
  - intros other h Hkt Ho Hh. destruct Hk as [Hk| ->]; [congruence|by apply H8].
Qed.

(** A world with the same files. *)
Lemma working_quiet k p n observed r w : working k p n observed r -> st_files w = files r ->
  working k p n observed (mkRun (rn_state r) (rn_events r) w).
Proof.
  intros [[H1 H2 H3] H4 H5 H6 H7 H8] Hw. assert (Hs : forall path h, held path h r -> held path h (mkRun (rn_state r) (rn_events r) w)).
  { intros path h. unfold held, files in *. cbn. by rewrite Hw. }
  split; [split|..]; try done; [intros q path h Hq Ho Hh|intros path h Hn Ho Hh]; eauto.
Qed.

Lemma wp_do_Remove p n observed r path : working false p n observed r -> is_Some (observed !! path) ->
  wp (do_Remove calls d path) (fun err r' => working false p n (match err with None => delete path observed | Some _ => observed end) r'
    /\ (reconnects (rn_events r') = n -> rn_state r' = rn_state r /\ reconnects (rn_events r) = n)) r.
Proof.
  intros HW [h Hh]. unfold do_Remove. wp_run. pose proof (st_remove (storageAssetPath path) (rn_world r)) as Hs.
  destruct (av_Remove d (storageAssetPath path) (rn_world r)) as [err w]. cbn [fst snd]. destruct Hs as [Hs _].
  set (r1 := mkRun _ _ _). set (observed' := match err with None => delete path observed | Some _ => observed end).
  assert (HW1 : working false p n observed' r1).
  { eapply working_call; [exact HW|by intros|exists h; by apply (wk_from _ _ _ _ _ HW)| |exact Hs| |by left].
    - rewrite doubts_snoc. destruct err; cbn; set_solver.
    - intros other h'. unfold observed'. destruct err as [err|].
      + intros Ho. split; [done|]. intros -> _. left. rewrite doubts_snoc. cbn. set_solver.
      + rewrite lookup_delete_Some. intros [Hne Ho]. by split. }
  eapply wp_mono; [by apply working_interfere|]. intros _ r' [K1 K2]. wp_run. split; [done|].
  intros Hn. destruct (K2 Hn) as (K3 & K4 & _). split; [done|]. revert K4. unfold r1. cbn [rn_events]. rewrite reconnects_snoc. lia.
Qed.

Lemma wp_remove_files p n paths observed r : working false p n observed r -> NoDup paths -> (forall path, path ∈ paths -> is_Some (observed !! path)) ->
  wp (remove_files calls d paths observed) (fun result r' => working false p n result.2 r') r.
Proof.
  revert observed r. induction paths as [|path paths IH]; intros observed r HW Hnd Hin; cbn [remove_files]; [done|].
  apply NoDup_cons in Hnd as [Hnp Hnd]. wp_call (wp_do_Remove p n observed); [apply Hin; by left|].
  intros [err|] r1 [HW1 _]; [done|]. apply IH; [done..|]. intros other Ho.
  rewrite lookup_delete_ne by congruence. apply Hin. by right.
Qed.

(** ** Uploading *)

Lemma wp_matches k p n observed r path asset : working k p n observed r -> (exists h, from_package p path h) ->
  wp (deviceAssetMatches calls d path asset)
     (fun matches r' => working k p n observed r' /\ (matches = true -> reconnects (rn_events r') = n -> held path (ad_SHA256 asset) r')) r.
Proof.
  intros HW Hpath. unfold deviceAssetMatches. wp_run. pose proof (st_read (storageAssetPath path) (rn_world r)) as Hs.
  destruct (av_ReadTo d (storageAssetPath path) (rn_world r)) as [[[content count] err] w]. cbn [fst snd]. destruct Hs as [Hw Hc].
  wp_run. set (matches := negb (is_some err) && _ && _). set (r1 := mkRun _ _ _).
  assert (HW1 : working k p n observed r1).
  { eapply working_call; [exact HW|by intros|exact Hpath|by rewrite doubts_snoc|intros; by rewrite Hw| |by right].
    intros other h Ho. split; [done|]. intros -> Hh. by right. }
  eapply wp_mono; [by apply working_interfere|]. intros _ r' [K1 K2]. wp_run. split; [done|].
  intros Hm Hn. destruct (K2 Hn) as (_ & _ & K3). apply K3. intros _. unfold matches in Hm.
  apply andb_true_iff in Hm as [[He _]%andb_true_iff Hh%String.eqb_eq]. exists content.
  split; [|done]. unfold r1, files. cbn [rn_world]. rewrite Hw. apply Hc. by destruct err.
Qed.

Lemma wp_do_Upload k p n observed r path localPath : working k p n observed r -> (exists h, from_package p path h) ->
  (forall h, observed !! path = Some h -> h = EmptyString) ->
  wp (do_Upload calls d path localPath) (fun _ r' => working k p n observed r') r.
Proof.
  intros HW Hpath Hnone. unfold do_Upload. wp_run. set (r1 := mkRun _ _ _).
  assert (HW1 : working k p n observed r1).
  { eapply working_call; [exact HW|by intros|exact Hpath|by rewrite doubts_snoc|intros; by apply st_upload| |by right].
    intros other h Ho. split; [done|]. intros -> Hh. by rewrite (Hnone _ Ho) in Hh. }
  eapply wp_mono; [by apply working_interfere|]. intros _ r' [K1 _]. by wp_run.
Qed.

Lemma working_insert k p n observed r path h : working k p n observed r -> from_package p path h ->
  (forall h', observed !! path = Some h' -> h' = EmptyString) ->
  (reconnects (rn_events r) = n -> held path h r) -> working k p n (<[path := h]> observed) r.
Proof.
  intros [H1 H2 H3 H4 H5 H6] Hf Hnone Hh. split; [done|done| |intros other h' Hn|done|].
  1, 2: intros *; rewrite lookup_insert_Some; intros [[<- <-]|[_ Ho]]; auto.
  intros other h' Hk Ho Hn. specialize (H6 _ _ Hk Ho Hn). rewrite lookup_insert_ne; [done|]. intros <-. by rewrite (Hnone _ H6) in Hn.
Qed.

Lemma wp_sync_file k p n observed r path localPath asset : working k p n observed r -> from_package p path (ad_SHA256 asset) ->
  (forall h, observed !! path = Some h -> h = EmptyString) ->
  wp (sync_file calls d path localPath asset)
     (fun result r' => working k p n (match result with inl _ => <[path := ad_SHA256 asset]> observed | inr _ => observed end) r') r.
Proof.
  intros HW Hf Hnone. assert (Hpath : exists h, from_package p path h) by (by eexists). unfold sync_file.
  wp_call (wp_matches k p n observed). intros [|] r1 [HW1 Hh1]; [apply working_insert; auto|].
  wp_call (wp_do_Upload k p n observed). intros [err|] r2 HW2; [done|].
  wp_call (wp_matches k p n observed). intros [|] r3 [HW3 Hh3]; [apply working_insert; auto|done].
Qed.

(** ** The loop over the assets *)

(** What the loop has done. *)
Record uploaded (p : string) (done : list Declaration) (resolved observed : paths_map) : Prop := {
  up_files a : a ∈ done -> exists path, derivedDevicePath calls p a = inl path
    /\ resolved !! ad_Source a = Some path /\ observed !! path = Some (ad_SHA256 a);
  up_paths source path : resolved !! source = Some path ->
    exists a, a ∈ done /\ ad_Source a = source /\ derivedDevicePath calls p a = inl path;
}.

(** Where a package is left. *)
Definition left_at (k : bool) (p : string) (n : nat) (observed : paths_map) (result : synced) (r : Run) : Prop :=
  match result with
  | Synced s _ observed => sa_Phase s = AssetsPending /\ working k p n observed r
  | LeftAt s => sa_Phase s <> AssetsReady /\ exists observed, working k p n observed r
  | LeftObserved s observed => sa_Phase s <> AssetsReady /\ working k p n observed r
  end.

Lemma wp_sync_asset k v n assets asset s resolved observed r : known v -> asset ∈ pk_Assets v -> ad_SHA256 asset <> EmptyString ->
  NoDup (map ad_Source (assets ++ [asset])) -> (forall a, a ∈ assets -> a ∈ pk_Assets v) ->
  sa_Phase s = AssetsPending -> working k (pk_PluginID v) n observed r -> uploaded (pk_PluginID v) assets resolved observed ->
  wp (sync_asset calls d v asset s resolved observed) (fun result r' => left_at k (pk_PluginID v) n observed result r'
    /\ match result with Synced _ resolved observed => uploaded (pk_PluginID v) (assets ++ [asset]) resolved observed | _ => True end) r.
Proof.
  intros Hv Hin Hsha Hnd Hassets Hs HW [U1 U2]. unfold sync_asset. wp_run.
  destruct (verifiedLocalPath calls (pk_Root v) asset (rn_world r)) as [localPath|err]; [|by split; [split; [|exists observed]|]].
  destruct (derivedDevicePath calls (pk_PluginID v) asset) as [path|err] eqn:Ed; [|by split; [split; [|exists observed]|]].
  assert (Hf : from_package (pk_PluginID v) path (ad_SHA256 asset)) by (exists v, asset; by repeat (split; [done|]); right).
  assert (Hup : forall observed', (forall other, observed' !! other = (<[path := ad_SHA256 asset]> observed) !! other) ->
    uploaded (pk_PluginID v) (assets ++ [asset]) (<[ad_Source asset := path]> resolved) observed').
  { intros observed' Ho. rewrite map_app in Hnd. apply NoDup_app in Hnd as (_ & Hnd & _). split.
    - intros a [Ha | ->%list_elem_of_singleton]%elem_of_app; [|exists path; split; [done|]; rewrite Ho, !lookup_insert_eq; done].
      destruct (U1 _ Ha) as (path' & K1 & K2 & K3). exists path'. split; [done|].
      assert (Hsrc : ad_Source asset <> ad_Source a).
      { intros E. apply (Hnd (ad_Source a)); [|rewrite <- E; left]. by apply list_elem_of_In, in_map, list_elem_of_In. }
      rewrite lookup_insert_ne by done. split; [done|]. rewrite Ho.
      destruct (decide (path' = path)) as [->|Hp]; [|by rewrite lookup_insert_ne].
      rewrite lookup_insert_eq. f_equal. eapply (pg_content _ _ _ pkgs v v); eauto.
    - intros source p'. rewrite lookup_insert_Some. intros [[<- <-]|[_ Hr]].
      + exists asset. split; [|done]. apply elem_of_app. right. by left.
      + destruct (U2 _ _ Hr) as (a & Ha & K). exists a. split; [|done]. apply elem_of_app. by left. }
  destruct (default EmptyString (observed !! path) =s ad_SHA256 asset) eqn:Eo.
  - apply String.eqb_eq in Eo. wp_run. split; [done|]. apply Hup. intros other.
    destruct (decide (other = path)) as [->|Hne]; [|by rewrite lookup_insert_ne]. rewrite lookup_insert_eq.
    destruct (observed !! path) as [h|] eqn:E; cbn in Eo; [by rewrite Eo|by rewrite <- Eo in Hsha].
  - wp_call (wp_sync_file k (pk_PluginID v) n observed).
    { intros h Ho. destruct (wk_from _ _ _ _ _ HW _ _ Ho) as (v' & a & K1 & K2 & K3 & K4 & [K5|K5]); [done|].
      apply String.eqb_neq in Eo. destruct Eo. rewrite Ho. cbn. rewrite K5.
      apply (pg_content _ _ _ pkgs v' v a asset path); by rewrite ?K2. }
    intros [[]|code] r1 HW1; [split; [done|by apply Hup]|]. wp_run. split; [|done]. split; [cbn; by rewrite Hs|].
    eapply working_quiet; [exact HW1|apply st_now].
Qed.

Lemma wp_sync_assets k v n assets todo s resolved observed r : known v -> ValidatePackage calls v = None -> pk_Assets v = assets ++ todo ->
  sa_Phase s = AssetsPending -> working k (pk_PluginID v) n observed r -> uploaded (pk_PluginID v) assets resolved observed ->
  wp (sync_assets calls d v todo s resolved observed) (fun result r' => left_at k (pk_PluginID v) n observed result r'
    /\ match result with Synced _ resolved observed => uploaded (pk_PluginID v) (pk_Assets v) resolved observed | _ => True end) r.
Proof.
  intros Hv Hval. destruct (valid_assets calls v Hval) as [Hnd Hsha].
  revert assets s resolved observed r. induction todo as [|asset todo IH]; intros assets s resolved observed r Ha Hs HW HU; cbn [sync_assets].
  { wp_run. rewrite app_nil_r in Ha. by rewrite Ha. }
  assert (Hin : asset ∈ pk_Assets v) by (rewrite Ha; apply elem_of_app; right; by left).
  wp_call (wp_sync_asset k v n assets asset s resolved observed); [by apply Hsha| | |].
  { rewrite Ha in Hnd. rewrite (cons_middle asset assets todo), app_assoc in Hnd. rewrite map_app in Hnd. by apply NoDup_app in Hnd as [Hnd _]. }
  { intros a Hx. rewrite Ha. apply elem_of_app. by left. }
  intros [s' resolved' observed'|s'|s' observed'] r1 [H1 H2]; [|done..]. destruct H1 as [Hs' HW'].
  eapply wp_mono; [apply (IH (assets ++ [asset])); [by rewrite <- app_assoc|done..]|]. by intros [] r2 H.
Qed.

(** ** Settling a package *)

Lemma tracks_working p r : tracks None r -> working true p (reconnects (rn_events r)) (observed_of (rn_state r) p) r.
Proof.
  intros [H1 H2 H3]. split; [split|..]; try done; [intros q path h _; by apply H3|..].
  - intros path h. apply H1.
  - intros path h _. by apply H3.
Qed.
Lemma working_weaken k p n observed r : working k p n observed r -> working false p n observed r.
Proof. by intros [H1 H2 H3 H4 H5 H6]. Qed.

Lemma u64_inj a b : 0 <= a < two64 -> 0 <= b < two64 -> u64 a = u64 b -> a = b.
Proof. intros Ha Hb. unfold u64. rewrite !Z.mod_small by done. done. Qed.

Definition no_wrap (r : Run) : Prop := Z.of_nat (reconnects (rn_events r)) < two64.

(** The entries of one plugin are written, unless the connection changed. *)
Lemma settle k p n observed r f : working k p n observed r ->
  (forall st q, q <> p -> same_plugin st (f st) q) -> (forall st, ar_connectionEpoch (f st) = ar_connectionEpoch st) ->
  plugin_ok (f (rn_state r)) p ->
  (forall path h, observed_of (f (rn_state r)) p !! path = Some h -> h <> EmptyString -> observed !! path = Some h) ->
  wp (modify (in_epoch (u64 (Z.of_nat n)) f)) (fun _ r' => no_wrap r' -> tracks None r') r.
Proof.
  intros [H1 H2 H3 H4 H5 H6] Hsame Hepoch Hok Hobs. wp_run. unfold no_wrap. cbn [rn_events]. intros Hwrap.
  unfold in_epoch. rewrite (tk_epoch _ _ H1). destruct (Z.eqb_spec (u64 (Z.of_nat (reconnects (rn_events r)))) (u64 (Z.of_nat n))) as [E|E].
  - apply u64_inj in E; [|lia..]. assert (Hn : reconnects (rn_events r) = n) by lia. split; cbn [rn_state rn_events].
    + intros q. destruct (decide (q = p)) as [->|Hq]; [done|]. eapply same_plugin_ok; [by apply Hsame|apply H1].
    + rewrite Hepoch. apply H1.
    + intros q path h _ Ho Hh. destruct (decide (q = p)) as [->|Hq]; [by apply H4; [|apply Hobs|]|].
      apply (tk_held _ _ H1 q); [congruence| |done]. destruct (Hsame (rn_state r) q Hq) as [_ _ _ Hs].
      unfold observed_of in *. by rewrite <- Hs.
  - assert (Hn : reconnects (rn_events r) <> n) by (intros Hn; by rewrite Hn in E).
    destruct r as [st events w]. by apply (forgotten_tracks p), H5.
Qed.

Lemma put_map_ne p q m (maps : gmap string paths_map) : q <> p -> put_map p m maps !! q = maps !! q.
Proof. intros H. destruct m; cbn; [by rewrite lookup_insert_ne|by rewrite lookup_delete_ne]. Qed.
Lemma put_map_eq p m (maps : gmap string paths_map) : put_map p m maps !! p = m.
Proof. destruct m; cbn; [by rewrite lookup_insert_eq|by rewrite lookup_delete_eq]. Qed.

Lemma same_put_state p s st q : q <> p -> same_plugin st (put_state p s st) q.
Proof. intros H. split; try done. by apply lookup_insert_ne. Qed.
Lemma same_put_observed p m st q : q <> p -> same_plugin st (put_observed p m st) q.
Proof. intros H. split; try done. by apply put_map_ne. Qed.
Lemma same_put_paths p m st q : q <> p -> same_plugin st (put_paths p m st) q.
Proof. intros H. split; try done. by apply put_map_ne. Qed.
Lemma same_put_fingerprint p f st q : q <> p -> same_plugin st (put_fingerprint p f st) q.
Proof. intros H. split; try done. by apply lookup_insert_ne. Qed.
Lemma same_trans st st' st'' q : same_plugin st st' q -> same_plugin st' st'' q -> same_plugin st st'' q.
Proof. intros [] []. split; congruence. Qed.

(** A plugin that is not ready. *)
Lemma not_ready_ok st p s : ar_states st !! p = Some s -> sa_Phase s <> AssetsReady ->
  (forall path h, observed_of st p !! path = Some h -> from_package p path h) -> plugin_ok st p.
Proof. intros Hs Hp Hf. split; [by rewrite Hs|done|]. unfold phase_of. by rewrite Hs. Qed.

Lemma working_ok k p n observed r : working k p n observed r -> plugin_ok (rn_state r) p.
Proof. intros HW. apply (tk_ok _ _ (wk_tracks _ _ _ _ _ HW)). Qed.

Lemma settle_pending p n observed r s : working true p n observed r -> sa_Phase s <> AssetsReady ->
  wp (modify (pending (u64 (Z.of_nat n)) p s)) (fun _ r' => no_wrap r' -> tracks None r') r.
Proof.
  intros HW Hs. eapply settle; [done|intros; by apply same_put_state|done| |].
  - eapply not_ready_ok; [apply lookup_insert_eq|done|apply (working_ok _ _ _ _ _ HW)].
  - intros path h. by apply (wk_kept _ _ _ _ _ HW).
Qed.
Lemma settle_invalid p n observed r s m : working true p n observed r -> sa_Phase s <> AssetsReady ->
  wp (modify (set_assets (u64 (Z.of_nat n)) p s m)) (fun _ r' => no_wrap r' -> tracks None r') r.
Proof.
  intros HW Hs. eapply settle; [done| |done| |].
  - intros st q Hq. eapply same_trans; [by apply same_put_state|by apply same_put_paths].
  - eapply not_ready_ok; [apply lookup_insert_eq|done|apply (working_ok _ _ _ _ _ HW)].
  - intros path h. by apply (wk_kept _ _ _ _ _ HW).
Qed.

Lemma observed_put p m st : observed_of (put_observed p m st) p = default ∅ m.
Proof. unfold observed_of. cbn. by rewrite put_map_eq. Qed.

Lemma settle_observed k p n observed r s : working k p n observed r -> sa_Phase s <> AssetsReady ->
  wp (modify (pendingObserved (u64 (Z.of_nat n)) p s observed)) (fun _ r' => no_wrap r' -> tracks None r') r.
Proof.
  intros HW Hs. eapply settle; [done| |done| |].
  - intros st q Hq. eapply same_trans; [by apply same_put_state|by apply same_put_observed].
  - eapply not_ready_ok; [apply lookup_insert_eq|done|]. intros path h. rewrite observed_put. apply (wk_from _ _ _ _ _ HW).
  - intros path h. by rewrite observed_put.
Qed.

Lemma same_commit s p m m' f st q : q <> p ->
  same_plugin st (put_fingerprint p f (put_observed p m' (put_paths p m (put_state p s st)))) q.
Proof.
  intros H. eapply same_trans; [by apply same_put_state|]. eapply same_trans; [by apply same_put_paths|].
  eapply same_trans; [by apply same_put_observed|by apply same_put_fingerprint].
Qed.

Lemma settle_absent k p n observed r s f : working k p n observed r -> sa_Phase s <> AssetsReady ->
  wp (modify (commit (u64 (Z.of_nat n)) p s None None f)) (fun _ r' => no_wrap r' -> tracks None r') r.
Proof.
  intros HW Hs. eapply settle; [done|intros; by apply same_commit|done| |].
  - eapply not_ready_ok; [apply lookup_insert_eq|done|]. intros path h.
    change (observed_of (put_observed p None (put_paths p None (put_state p s (rn_state r)))) p !! path = Some h -> from_package p path h).
    rewrite observed_put. change (default ∅ None) with (∅ : paths_map). by rewrite lookup_empty.
  - intros path h. change (observed_of (put_observed p None (put_paths p None (put_state p s (rn_state r)))) p !! path = Some h -> h <> EmptyString -> observed !! path = Some h).
    rewrite observed_put. change (default ∅ None) with (∅ : paths_map). by rewrite lookup_empty.
Qed.

Lemma settle_ready k v n observed paths r s : working k (pk_PluginID v) n observed r -> known v -> ValidatePackage calls v = None ->
  uploaded (pk_PluginID v) (pk_Assets v) (default ∅ paths) observed ->
  wp (modify (commit (u64 (Z.of_nat n)) (pk_PluginID v) s paths (Some observed) (manifestFingerprint calls v)))
     (fun _ r' => no_wrap r' -> tracks None r') r.
Proof.
  intros HW Hv Hval [U1 U2]. set (p := pk_PluginID v) in *. eapply settle; [done|intros; by apply same_commit|done| |].
  - set (st := put_fingerprint _ _ _). assert (Ho : observed_of st p = observed).
    { change (observed_of (put_observed p (Some observed) (put_paths p paths (put_state p s (rn_state r)))) p = observed). by rewrite observed_put. }
    assert (Hp : paths_of st p = default ∅ paths) by (unfold paths_of; cbn; by rewrite put_map_eq).
    split.
    + intros _. unfold st. cbn. rewrite lookup_insert_eq. by eexists.
    + rewrite Ho. apply (wk_from _ _ _ _ _ HW).
    + intros _. exists v. split; [done|done|done|apply lookup_insert_eq| |]; rewrite ?Ho, ?Hp; done.
  - intros path h. change (observed_of (put_observed p (Some observed) (put_paths p paths (put_state p s (rn_state r)))) p !! path = Some h -> h <> EmptyString -> observed !! path = Some h).
    by rewrite observed_put.
Qed.

(** ** The connection is counted *)

Definition later (r r' : Run) : Prop := (reconnects (rn_events r) <= reconnects (rn_events r'))%nat.

Lemma later_refl r : later r r.
Proof. by unfold later. Qed.
Lemma later_interfere r0 r : later r0 r -> wp (interfere calls) (fun _ r' => later r0 r') r.
Proof. unfold later, interfere. intros H. wp_run. rewrite reconnects_snoc. lia. Qed.
Lemma later_event r0 r st e w : later r0 r -> later r0 (mkRun st (rn_events r ++ [e]) w).
Proof. unfold later. cbn [rn_events]. rewrite reconnects_snoc. lia. Qed.

Lemma later_Remove r0 path r : later r0 r -> wp (do_Remove calls d path) (fun _ r' => later r0 r') r.
Proof. intros H. unfold do_Remove. wp_run. wp_call (later_interfere r0); [by apply later_event|]. done. Qed.
Lemma later_Upload r0 path localPath r : later r0 r -> wp (do_Upload calls d path localPath) (fun _ r' => later r0 r') r.
Proof. intros H. unfold do_Upload. wp_run. wp_call (later_interfere r0); [by apply later_event|]. done. Qed.
Lemma later_matches r0 path asset r : later r0 r -> wp (deviceAssetMatches calls d path asset) (fun _ r' => later r0 r') r.
Proof.
  intros H. unfold deviceAssetMatches. wp_run. destruct (av_ReadTo _ _ _) as [[[content n] err] w]. cbn [fst snd]. wp_run.
  wp_call (later_interfere r0); [by apply later_event|]. done.
Qed.
Lemma later_remove_files r0 paths observed r : later r0 r -> wp (remove_files calls d paths observed) (fun _ r' => later r0 r') r.
Proof.
  revert observed r. induction paths as [|path paths IH]; intros observed r H; cbn [remove_files]; [done|].
  wp_call (later_Remove r0). intros [err|] r1 H1; [done|]. by apply IH.
Qed.
Lemma later_sync_assets r0 v assets s resolved observed r : later r0 r ->
  wp (sync_assets calls d v assets s resolved observed) (fun _ r' => later r0 r') r.
Proof.
  revert s resolved observed r. induction assets as [|asset assets IH]; intros s resolved observed r H; cbn [sync_assets]; [done|].
  eapply wp_step with (Q := fun _ r' => later r0 r'); [|intros [] r1 H1; [by apply IH|done..]].
  unfold sync_asset. wp_run. destruct (verifiedLocalPath _ _ _ _); [|done]. destruct (derivedDevicePath _ _ _); [|done].
  destruct (_ =s _); [done|]. eapply wp_step with (Q := fun _ r' => later r0 r'); [|by intros [] r1 H1; wp_run].
  unfold sync_file. wp_call (later_matches r0). intros [|] r1 H1; [done|]. wp_call (later_Upload r0). intros [err|] r2 H2; [done|].
  wp_call (later_matches r0). by intros [] r3 H3.
Qed.
Lemma later_collect_files r0 epoch p paths observed r : later r0 r -> wp (collect_files calls d epoch p paths observed) (fun _ r' => later r0 r') r.
Proof.
  revert observed r. induction paths as [|path paths IH]; intros observed r H; cbn [collect_files]; [done|].
  wp_call (later_Remove r0). intros err r1 H1. apply wp_bind, wp_read. destruct (negb _); [done|]. apply wp_bind, wp_modify.
  destruct err; [done|]. by apply IH.
Qed.

Lemma later_no_wrap r r' : later r r' -> no_wrap r' -> no_wrap r.
Proof. unfold later, no_wrap. lia. Qed.

(** What is shown under the assumption that the counter does not wrap can be used before. *)
Lemma wp_later {A} (m : act A) (Q : A -> Run -> Prop) r :
  wp m (fun _ r' => later r r') r -> (no_wrap r -> wp m (fun a r' => no_wrap r' -> Q a r') r) ->
  wp m (fun a r' => no_wrap r' -> Q a r') r.
Proof. unfold wp. intros H1 H2 Hn. apply H2; [|done]. by eapply later_no_wrap. Qed.
End Safe.
