(* ===== verification/AssetsRuns.v ===== *)
(** * Reconciling packages

    [Reconcile] and [CollectGarbage] keep what the reconciler has observed on the device. *)

From Stdlib Require Import ZArith Lia.
From S2P Require Import Prelude GoStrings GoTime GoJson Identifier Protocol Presentation GoEncoding Actions Assets AssetsSafe.

Local Notation paths_map := (gmap string string).

Section Runs.
Context {W : Type} (calls : AssetCalls (W := W)) (d : AssetDevice (W := W)) `{!Storage calls d}.
Context (ids : list string) (known : Package -> Prop) (pkgs : Packages calls ids known) (device : ac_device calls = Some d \/ ac_device calls = None).
Notation Run := (Run AssetReconciler asEvent W).
Notation act := (act AssetReconciler asEvent W).
Notation tracks := (tracks calls d known).
Notation working := (working calls d known).
Notation kept := (fun (_ : unit) (r' : Run) => no_wrap r' -> tracks None r').

Lemma working_tracks p n observed r : working true p n observed r -> tracks None r.
Proof.
  intros [H1 H2 H3 H4 H5 H6]. destruct (decide (reconnects (rn_events r) = n)) as [E|E]; [|by eapply forgotten_tracks, H5].
  destruct H1 as [K1 K2 K3]. split; [done..|]. intros q path h _ Ho Hh.
  destruct (decide (q = p)) as [->|Hq]; [|apply (K3 q); congruence]. apply H4; [done|by apply H6|done].
Qed.

Lemma wp_leave_observed k n observed value s r : working k (pk_PluginID value) n observed r -> sa_Phase s = AssetsPending ->
  wp (leave_observed calls (u64 (Z.of_nat n)) value s observed) kept r.
Proof.
  intros HW Hs. unfold leave_observed. apply wp_bind, wp_query. eapply settle_observed; [|cbn; by rewrite Hs].
  eapply working_quiet; [done|apply st_now].
Qed.

Lemma observed_removable paths (observed : paths_map) : paths ≡ₚ map fst (map_to_list observed) ->
  NoDup paths /\ forall path, path ∈ paths -> is_Some (observed !! path).
Proof.
  intros Hp. split; [rewrite Hp; apply NoDup_fst_map_to_list|]. intros path. rewrite Hp.
  intros ([p h] & -> & H)%list_elem_of_fmap. apply elem_of_map_to_list in H. by eexists.
Qed.

Lemma wp_disabled k n observed value s f r : working k (pk_PluginID value) n observed r -> sa_Phase s = AssetsPending ->
  wp (reconcile_disabled calls (u64 (Z.of_nat n)) value s observed f) kept r.
Proof.
  intros HW Hs. unfold reconcile_disabled. eapply wp_step with (Q := fun removed r' => working false (pk_PluginID value) n removed.2 r').
  - destruct device as [-> | ->]; [|by eapply working_weaken].
    destruct (observed_removable (map fst (map_to_list observed)) observed) as [H1 H2]; [done|].
    eapply wp_remove_files; [done|by eapply working_weaken|done|done].
  - intros [[|] removed] r1 HW1; [by eapply settle_absent|by eapply wp_leave_observed].
Qed.

Lemma uploaded_none p observed : uploaded calls p [] ∅ observed.
Proof. split; [by intros a []%elem_of_nil|]. intros source path. by rewrite lookup_empty. Qed.

Lemma wp_enabled n observed value s r : working true (pk_PluginID value) n observed r -> sa_Phase s = AssetsPending ->
  known value -> ValidatePackage calls value = None ->
  wp (reconcile_enabled calls d (u64 (Z.of_nat n)) value s observed (manifestFingerprint calls value)) kept r.
Proof.
  intros HW Hs Hv Hval. unfold reconcile_enabled. destruct (Nat.eqb (length (pk_Assets value)) 0) eqn:El.
  - apply Nat.eqb_eq, length_zero_iff_nil in El.
    destruct (observed_removable (SortFunc cmp_strings (map fst (map_to_list observed))) observed) as [H1 H2]; [apply SortFunc_perm|].
    eapply wp_step; [eapply wp_remove_files; [done|by eapply working_weaken|done|done]|].
    intros [[|] removed] r1 HW1; [|by eapply wp_leave_observed].
    eapply settle_ready; [done..|]. rewrite El. apply uploaded_none.
  - eapply wp_step; [eapply (wp_sync_assets calls d ids known pkgs true value n []); [done..|apply uploaded_none]|].
    intros [s' resolved observed'|s'|s' observed'] r1 [H1 H2].
    + destruct H1 as [_ HW1]. by eapply settle_ready.
    + destruct H1 as [Hp [o HW1]]. by eapply settle_pending.
    + destruct H1 as [Hp HW1]. by eapply settle_observed.
Qed.

Lemma wp_reconcile value r : known value -> tracks None r -> wp (reconcile calls value) kept r.
Proof.
  intros Hv HT. unfold reconcile. apply wp_bind, wp_read.
  eapply wp_step; [apply (working_interfere calls d ids known pkgs), (tracks_working calls d known (pk_PluginID value) r HT)|].
  intros ? r1 [HW _]. rewrite (tk_epoch _ _ _ _ _ HT). set (n := reconnects (rn_events r)) in *.
  set (observed := observed_of (rn_state r) (pk_PluginID value)) in *. set (s := pending_state value _).
  assert (Hs : sa_Phase s = AssetsPending) by done.
  destruct (ValidatePackage calls value) as [err|] eqn:Hval; cbn [is_some]; [by eapply settle_invalid|].
  destruct (settled calls (rn_state r) value).
  { wp_run. intros _. by eapply working_tracks. }
  destruct (negb (pk_Enabled value)).
  { destruct (_ && _); [by eapply settle_absent|by eapply wp_disabled]. }
  destruct (Nat.eqb (length (pk_Assets value)) 0 && _) eqn:El.
  { apply andb_true_iff in El as [El _]. apply Nat.eqb_eq, length_zero_iff_nil in El.
    eapply settle_ready; [done..|]. rewrite El. apply uploaded_none. }
  destruct device as [-> | ->]; [by apply wp_enabled|].
  apply wp_bind, wp_query. eapply settle_pending; [|by cbn; rewrite ?Hs]. eapply working_quiet; [done|apply st_now].
Qed.

Lemma later_reconcile value r : wp (reconcile calls value) (fun _ r' => later r r') r.
Proof.
  unfold reconcile. apply wp_bind, wp_read. wp_call (later_interfere calls r); [apply later_refl|]. intros ? r1 H1.
  destruct (is_some _); [done|]. destruct (settled _ _ _); [done|].
  assert (Hleave : forall r2 epoch s observed, later r r2 -> wp (leave_observed calls epoch value s observed) (fun _ r' => later r r') r2)
    by (intros; unfold leave_observed; by wp_run).
  destruct (negb _).
  { destruct (_ && _); [done|]. unfold reconcile_disabled. eapply wp_step with (Q := fun _ r' => later r r').
    - destruct device as [-> | ->]; [by apply later_remove_files|done].
    - intros [[|] removed] r2 H2; [done|by apply Hleave]. }
  destruct (_ && _); [done|]. destruct device as [-> | ->]; [|by wp_run]. unfold reconcile_enabled.
  destruct (Nat.eqb _ _); (eapply wp_step with (Q := fun _ r' => later r r'); [by first [apply later_remove_files|apply later_sync_assets]|]).
  - intros [[|] removed] r2 H2; [done|by apply Hleave].
  - intros [] r2 H2; done.
Qed.

(** ** Collecting *)

(** A plugin that is ready is settled for this package. *)
Definition settled_for (value : Package) (st : AssetReconciler) : Prop :=
  phase_of st (pk_PluginID value) = AssetsReady -> ar_fingerprints st !! pk_PluginID value = Some (manifestFingerprint calls value).

Lemma settled_invalidate value st : settled_for value st -> settled_for value (InvalidateConnection st).
Proof.
  unfold settled_for. rewrite invalidated_phase. destruct (has_files st (pk_PluginID value)) eqn:E; [done|].
  intros H Hr. cbn [ar_fingerprints InvalidateConnection]. apply map_lookup_filter_Some_2; [by apply H|done].
Qed.

Lemma settled_interfere value r : settled_for value (rn_state r) -> wp (interfere calls) (fun _ r' => settled_for value (rn_state r')) r.
Proof.
  unfold interfere. intros H. wp_run. generalize (ac_reconnects calls (rn_world r)).1. intros n. induction n as [|n IH]; [done|].
  by apply settled_invalidate.
Qed.
Lemma settled_Remove value path r : settled_for value (rn_state r) -> wp (do_Remove calls d path) (fun _ r' => settled_for value (rn_state r')) r.
Proof. intros H. unfold do_Remove. wp_run. wp_call settled_interfere. done. Qed.

(** One turn of the loop: the files that remain are observed, and the rest is as it was. *)
Lemma collected_ok value st s observed : known value -> state_ok calls known st -> settled_for value st ->
  (forall path h, observed !! path = Some h -> observed_of st (pk_PluginID value) !! path = Some h) ->
  (forall path h, path ∈ desired_paths calls value -> observed_of st (pk_PluginID value) !! path = Some h -> observed !! path = Some h) ->
  sa_Phase s = phase_of st (pk_PluginID value) ->
  plugin_ok calls known (put_observed (pk_PluginID value) (Some observed) (put_state (pk_PluginID value) s st)) (pk_PluginID value)
  /\ settled_for value (put_observed (pk_PluginID value) (Some observed) (put_state (pk_PluginID value) s st)).
Proof.
  intros Hv Hok Hset Hsub Hdes Hs. set (p := pk_PluginID value) in *. set (st' := put_observed _ _ _).
  assert (Hph : phase_of st' p = phase_of st p) by (unfold phase_of, st'; cbn; by rewrite lookup_insert_eq).
  assert (Ho : observed_of st' p = observed) by apply observed_put.
  split; [|unfold settled_for; fold p; by rewrite Hph].
  destruct (Hok p) as [K1 K2 K3]. split.
  - intros _. unfold st'. cbn. rewrite lookup_insert_eq. by eexists.
  - rewrite Ho. intros path h Hh. by apply K2, Hsub.
  - rewrite Hph. intros Hr. destruct (K3 Hr) as [v [L1 L2 L3 L4 L5 L6]].
    assert (v = value) as ->.
    { apply (pg_fingerprint _ _ _ pkgs); [done..|]. specialize (Hset Hr). fold p in Hset. rewrite L4 in Hset. by injection Hset. }
    exists value. split; [done..| |done]. intros a Ha. destruct (L5 a Ha) as (path & M1 & M2 & M3). exists path. split; [done|]. split; [done|].
    rewrite Ho. apply Hdes; [|done]. unfold desired_paths. apply list_elem_of_omap. exists a. split; [done|]. fold p. by rewrite M1.
Qed.

Lemma working_agree p n observed r : working false p n observed r ->
  (reconnects (rn_events r) = n -> observed_of (rn_state r) p = observed) -> working true p n observed r.
Proof.
  intros [H1 H2 H3 H4 H5 _] Ho. split; [done..|]. intros path h _ Hp Hh.
  destruct (decide (reconnects (rn_events r) = n)) as [E|E]; [by rewrite <- Ho|]. by rewrite (H5 E _ _ Hp) in Hh.
Qed.

Lemma working_put value n observed s r : known value -> working false (pk_PluginID value) n observed r ->
  reconnects (rn_events r) = n -> settled_for value (rn_state r) ->
  (forall path h, observed !! path = Some h -> observed_of (rn_state r) (pk_PluginID value) !! path = Some h) ->
  (forall path h, path ∈ desired_paths calls value -> observed_of (rn_state r) (pk_PluginID value) !! path = Some h -> observed !! path = Some h) ->
  sa_Phase s = phase_of (rn_state r) (pk_PluginID value) ->
  let st := put_observed (pk_PluginID value) (Some observed) (put_state (pk_PluginID value) s (rn_state r)) in
  working false (pk_PluginID value) n observed (mkRun st (rn_events r) (rn_world r)) /\ settled_for value st.
Proof.
  intros Hv [[K1 K2 K3] H2 H3 H4 H5 _] Hn Hset Hsub Hdes Hs st. destruct (collected_ok value _ s observed Hv K1 Hset Hsub Hdes Hs) as [L1 L2].
  split; [|done]. assert (Hsame : forall q, q <> pk_PluginID value -> same_plugin (rn_state r) st q).
  { intros q Hq. eapply same_trans; [by apply same_put_state|by apply same_put_observed]. }
  split; [split|..]; try done.
  - intros q. destruct (decide (q = pk_PluginID value)) as [->|Hq]; [done|]. eapply same_plugin_ok; [by apply Hsame|done].
  - intros q path h Hq Ho. apply (K3 q); [done|]. destruct (Hsame q) as [_ _ _ Hs']; [congruence|].
    unfold observed_of in *. by rewrite <- Hs'.
Qed.

Lemma code_phase code st p : sa_Phase (set_code code (default zero_state (ar_states st !! p))) = phase_of st p.
Proof. unfold phase_of. by destruct (ar_states st !! p). Qed.

Lemma wp_collect_files value n paths observed r : known value -> working false (pk_PluginID value) n observed r ->
  settled_for value (rn_state r) -> (reconnects (rn_events r) = n -> observed_of (rn_state r) (pk_PluginID value) = observed) ->
  NoDup paths -> (forall path, path ∈ paths -> is_Some (observed !! path) /\ path ∉ desired_paths calls value) ->
  wp (collect_files calls d (u64 (Z.of_nat n)) (pk_PluginID value) paths observed) kept r.
Proof.
  intros Hv. revert observed r. induction paths as [|path paths IH]; intros observed r HW Hset Hagree Hnd Hin; cbn [collect_files].
  { intros _. by eapply working_tracks, working_agree. }
  apply NoDup_cons in Hnd as [Hnp Hnd]. destruct (Hin path) as [Hsome Hdes]; [by left|].
  eapply wp_step; [apply wp_and; [by apply (wp_do_Remove calls d ids known pkgs (pk_PluginID value) n observed)|by apply (settled_Remove value)]|].
  intros err r1 [[HW1 Hsame] Hset1]. apply wp_bind, wp_read.
  destruct (decide (reconnects (rn_events r1) = n)) as [En|En]; cycle 1.
  { apply wp_later.
    - destruct (negb _); [apply later_refl|]. apply wp_bind, wp_modify. destruct err; [|apply later_collect_files]; by unfold wp, later.
    - intros Hwrap. destruct (negb _) eqn:Ee.
      + intros _. eapply forgotten_tracks; [apply HW1|by apply (wk_forgotten _ _ _ _ _ _ _ _ HW1)].
      + apply negb_false_iff, Z.eqb_eq in Ee. rewrite (tk_epoch _ _ _ _ _ (wk_tracks _ _ _ _ _ _ _ _ HW1)) in Ee.
        pose proof (wk_since _ _ _ _ _ _ _ _ HW1). unfold no_wrap in Hwrap. apply u64_inj in Ee; lia. }
  destruct (Hsame En) as [Hst Hr]. specialize (Hagree Hr).
  rewrite (tk_epoch _ _ _ _ _ (wk_tracks _ _ _ _ _ _ _ _ HW1)), En, Z.eqb_refl. cbn [negb]. apply wp_bind, wp_modify.
  set (observed' := match err with Some _ => observed | None => delete path observed end).
  assert (HW1' : working false (pk_PluginID value) n observed' r1) by (by destruct err).
  destruct (working_put value n observed' (set_code (match err with Some _ => ErrorDeviceUnavailable | None => EmptyString end)
    (default zero_state (ar_states (rn_state r1) !! pk_PluginID value))) r1 Hv HW1' En Hset1) as [HW2 Hset2].
  { rewrite Hst, Hagree. intros other h. unfold observed'. destruct err; [done|]. rewrite lookup_delete_Some. by intros []. }
  { rewrite Hst, Hagree. intros other h Hd Ho. unfold observed'. destruct err; [done|]. rewrite lookup_delete_ne; [done|]. by intros <-. }
  { apply code_phase. }
  destruct err as [err|]; [|apply IH]; try done.
  - intros _. eapply working_tracks, working_agree; [exact HW2|]. intros _. apply observed_put.
  - intros _. apply observed_put.
  - intros other Ho. destruct (Hin other) as [K1 K2]; [by right|]. split; [|done]. unfold observed'. by rewrite lookup_delete_ne by congruence.
Qed.

Lemma wp_collect value r : known value -> tracks None r -> wp (collect calls value) kept r.
Proof.
  intros Hv HT. unfold collect. apply wp_bind, wp_read. destruct device as [-> | ->]; [|by intros _].
  destruct (_ || _ || _) eqn:Eg; [by intros _|]. apply orb_false_iff in Eg as [_ Eg%negb_false_iff].
  assert (Hset : settled_for value (rn_state r)).
  { intros _. unfold ReadyFor in Eg. apply andb_true_iff in Eg as [_ Eg].
    destruct (ar_fingerprints (rn_state r) !! pk_PluginID value); [|done]. by apply String.eqb_eq in Eg as ->. }
  eapply wp_step; [apply wp_and; [by apply (wp_interfere calls d ids known pkgs)|by apply (settled_interfere value)]|].
  intros ? r1 [(HT1 & _) Hset1]. apply wp_bind, wp_read.
  eapply wp_step; [apply wp_and; [apply (working_interfere calls d ids known pkgs), (tracks_working calls d known (pk_PluginID value) r1 HT1)|by apply (settled_interfere value)]|].
  intros ? r2 [[HW2 Hsame] Hset2]. rewrite (tk_epoch _ _ _ _ _ HT1). set (observed := observed_of (rn_state r1) (pk_PluginID value)) in *.
  apply wp_collect_files; [done|by eapply working_weaken|done| | |].
  - intros En. by destruct (Hsame En) as [-> _].
  - unfold obsolete_paths. rewrite SortFunc_perm. apply NoDup_ListNoDup, List.NoDup_filter, NoDup_ListNoDup, NoDup_fst_map_to_list.
  - intros path Hp. unfold obsolete_paths in Hp. apply elem_of_SortFunc, elem_of_List_filter in Hp as [Hp Hd].
    apply negb_true_iff in Hd. split; [by apply (observed_removable (map fst (map_to_list observed)))|].
    intros Hx. apply one_of_spec in Hx. congruence.
Qed.

(** ** All packages *)

Lemma later_collect value r : wp (collect calls value) (fun _ r' => later r r') r.
Proof.
  unfold collect. apply wp_bind, wp_read. destruct device as [-> | ->]; [|apply later_refl]. destruct (_ || _ || _); [apply later_refl|].
  wp_call (later_interfere calls r); [apply later_refl|]. intros ? r1 H1. apply wp_bind, wp_read.
  wp_call (later_interfere calls r). intros ? r2 H2. by apply later_collect_files.
Qed.

Lemma wp_packages (work : Package -> act unit) packages r :
  (forall value r, wp (work value) (fun _ r' => later r r') r) ->
  (forall value r, known value -> tracks None r -> wp (work value) kept r) ->
  (forall value, value ∈ packages -> known value) -> (no_wrap r -> tracks None r) -> wp (for_each work packages) kept r.
Proof.
  intros Hlater Hwork. revert r. induction packages as [|value packages IH]; intros r Hk HT; cbn [for_each]; [done|].
  eapply wp_step; [apply wp_later; [apply Hlater|intros Hn; apply Hwork; [by apply Hk; left|by apply HT]]|].
  intros ? r1 H1. apply IH; [intros v Hv; by apply Hk; right|done].
Qed.

(** What the daemon does with the reconciler, one after the other; and what may happen to
    the device in between, which the reconciler is told of. *)
Inductive as_step : Run -> Run -> Prop :=
  | as_Reconcile packages r : (forall value, value ∈ packages -> known value) -> as_step r (Reconcile calls packages r).2
  | as_CollectGarbage packages r : (forall value, value ∈ packages -> known value) -> as_step r (CollectGarbage calls packages r).2
  | as_Invalidate r w : as_step r (mkRun (InvalidateConnection (rn_state r)) (rn_events r ++ [AsReconnect 1]) w).

Lemma as_step_tracks r r' : as_step r r' -> (no_wrap r -> tracks None r) -> no_wrap r' -> tracks None r'.
Proof.
  intros [packages r0 Hk|packages r0 Hk|r0 w] HT.
  - apply (wp_packages (reconcile calls) packages r0); auto using later_reconcile, wp_reconcile.
  - apply (wp_packages (collect calls) packages r0); auto using later_collect, wp_collect.
  - intros Hn. destruct HT as [H1 H2 H3].
    { revert Hn. unfold no_wrap. cbn [rn_events]. rewrite reconnects_snoc. lia. }
    split; cbn [rn_state rn_events].
    + intros p. by apply invalidate_plugin.
    + cbn [ar_connectionEpoch InvalidateConnection]. rewrite H2, reconnects_snoc. unfold u64_succ, u64. rewrite Zplus_mod_idemp_l. f_equal. lia.
    + intros p path h _ Ho Hh. destruct (invalidate_plugin calls known (rn_state r0) p (H1 p)) as [_ Hf]. by rewrite (Hf _ _ Ho) in Hh.
Qed.

Lemma NewReconciler_tracks w : tracks None (mkRun NewReconciler [] w).
Proof.
  assert (He : forall p, observed_of NewReconciler p = ∅) by (intros p; unfold observed_of; cbn; by rewrite lookup_empty).
  split; cbn [rn_state].
  - intros p. split.
    + cbn. rewrite lookup_empty. by intros [].
    + intros path h. by rewrite He, lookup_empty.
    + unfold phase_of. cbn. by rewrite lookup_empty.
  - done.
  - intros p path h _. by rewrite He, lookup_empty.
Qed.

Lemma reachable_tracks w r : rtc as_step (mkRun NewReconciler [] w) r -> no_wrap r -> tracks None r.
Proof.
  intros H. assert (HT : no_wrap (mkRun NewReconciler [] w) -> tracks None (mkRun NewReconciler [] w)) by (intros _; apply NewReconciler_tracks).
  revert HT. induction H as [|r r1 r2 Hs _ IH]; intros HT; [done|]. apply IH. by eapply as_step_tracks.
Qed.
End Runs.
