(* ===== verification/AssetsClaims.v ===== *)
(** * What the asset reconciler guarantees

    A plugin that is ready has its files on the device; a resolved scene refers to files that
    are there; and over a device that works, a valid package becomes ready. *)

From Stdlib Require Import ZArith Lia.
From S2P Require Import Prelude GoStrings GoTime GoJson Identifier Protocol Presentation GoEncoding Actions Assets AssetsSafe AssetsRuns.

Local Notation paths_map := (gmap string string).

(** ** Resolved scenes *)

Section Resolving.
Context {W : Type} (calls : AssetCalls (W := W)) (d : AssetDevice (W := W)) `{!Storage calls d} (known : Package -> Prop).
Notation Run := (Run AssetReconciler asEvent W).

(** What an element of a resolved scene refers to: nothing; a file of the firmware; or a
    file of the package, of the kind of the element, that is on the device. *)
Inductive refers (v : Package) (r : Run) (element : Element) : string -> Prop :=
  | refers_nothing : resolvedElementAsset element = None -> refers v r element EmptyString
  | refers_stock asset : resolvedElementAsset element = Some asset -> asset_StockName asset <> EmptyString ->
      refers v r element (StockPath (asset_StockName asset) (element_kind element))
  | refers_package asset a path : resolvedElementAsset element = Some asset -> asset_StockName asset = EmptyString ->
      a ∈ pk_Assets v -> ad_Source a = asset_PackagePath asset -> derivedDevicePath calls (pk_PluginID v) a = inl path ->
      packagePathMatchesKind path (element_kind element) = true -> held calls d path (ad_SHA256 a) r ->
      refers v r element path.

(** The scene needs a file of its package. *)
Definition needs_package (scene : Scene) : Prop :=
  exists element asset, element ∈ scene_Elements scene /\ resolvedElementAsset element = Some asset /\ asset_StockName asset = EmptyString.

Lemma ready_held r v a path : tracks calls d known None r -> ready_for calls known (rn_state r) (pk_PluginID v) v ->
  a ∈ pk_Assets v -> derivedDevicePath calls (pk_PluginID v) a = inl path -> held calls d path (ad_SHA256 a) r.
Proof.
  intros [_ _ H] [_ _ Hval _ Hf _] Ha Hd. destruct (Hf a Ha) as (path' & K1 & _ & K3). rewrite Hd in K1. injection K1 as <-.
  apply (H (pk_PluginID v)); [done..|]. by apply (valid_assets calls v Hval).
Qed.

Lemma resolve_element_refers r v element resolved : tracks calls d known None r ->
  (Assets_Ready (rn_state r) (pk_PluginID v) = true -> ready_for calls known (rn_state r) (pk_PluginID v) v) ->
  resolve_element (Assets_Ready (rn_state r) (pk_PluginID v)) (paths_of (rn_state r) (pk_PluginID v)) element = inl resolved ->
  resolved_Element resolved = element /\ refers v r element (resolved_Path resolved).
Proof.
  intros HT Hready. unfold resolve_element. destruct (resolvedElementAsset element) as [asset|] eqn:Ea; [|intros [= <-]; by split; [|constructor]].
  destruct (asset_StockName asset =s EmptyString) eqn:Es; cbn [negb].
  - apply String.eqb_eq in Es. destruct (Assets_Ready _ _) eqn:Er; [|done]. cbn [negb].
    destruct (paths_of _ _ !! _) as [path|] eqn:Ep; [|done]. destruct (packagePathMatchesKind path _) eqn:Ek; [|done].
    intros [= <-]. split; [done|]. specialize (Hready eq_refl). destruct (rf_paths _ _ _ _ _ Hready _ _ Ep) as (a & K1 & K2 & K3).
    eapply refers_package; [done..|]. by apply (ready_held r v).
  - intros [= <-]. split; [done|]. apply (refers_stock v r element asset); [done|]. by apply String.eqb_neq.
Qed.

Lemma resolve_elements_refer r v elements resolved : tracks calls d known None r ->
  (Assets_Ready (rn_state r) (pk_PluginID v) = true -> ready_for calls known (rn_state r) (pk_PluginID v) v) ->
  resolve_elements (Assets_Ready (rn_state r) (pk_PluginID v)) (paths_of (rn_state r) (pk_PluginID v)) elements = inl resolved ->
  Forall2 (fun element resolved => resolved_Element resolved = element /\ refers v r element (resolved_Path resolved)) elements resolved.
Proof.
  intros HT Hready. revert resolved. induction elements as [|element elements IH]; intros resolved; cbn [resolve_elements]; [by intros [= <-]|].
  destruct (resolve_element _ _ element) as [first|] eqn:E; [|done].
  destruct (resolve_elements _ _ elements) as [rest|]; [|done]. intros [= <-]. constructor; [|by apply IH].
  by eapply resolve_element_refers.
Qed.
End Resolving.

(** ** The claims *)

Section Claims.
Context {W : Type} (calls : AssetCalls (W := W)) (d : AssetDevice (W := W)) `{!Storage calls d}.
Context (ids : list string) (known : Package -> Prop).
Notation reachable w := (rtc (as_step calls known) (mkRun NewReconciler [] w)).

(** C13: Whatever fails and whenever the connection is invalidated: when the reconciler has
    done what it was asked, a plugin that it reports as ready was settled for one package;
    each file of it is on the device, under the path that scenes are given, with the declared
    hash, except a file of which a removal has failed since the connection was established
    ([held]): that one is taken for present, although it may be gone ([demo_lost_file]); and
    the plugin is ready for that package only. (The epoch of the connection does not wrap.) *)
Theorem assets_truthful w r p : Packages calls ids known -> ac_device calls = Some d -> reachable w r -> no_wrap r ->
  Assets_Ready (rn_state r) p = true ->
  exists v, known v /\ pk_PluginID v = p /\ ValidatePackage calls v = None
    /\ (forall a, a ∈ pk_Assets v -> exists path, derivedDevicePath calls p a = inl path
         /\ paths_of (rn_state r) p !! ad_Source a = Some path /\ held calls d path (ad_SHA256 a) r)
    /\ (forall value, known value -> pk_PluginID value = p -> ReadyFor calls (rn_state r) value = true <-> value = v).
Proof.
  intros Hp Hd Hr Hn Hready. pose proof (reachable_tracks calls d ids known Hp (or_introl Hd) w r Hr Hn) as HT.
  pose proof Hready as Hph. apply String.eqb_eq in Hph. destruct (po_ready _ _ _ _ (tk_ok _ _ _ _ _ HT p) Hph) as [v Hv].
  pose proof Hv as [K1 <- K3 K4 K5 K6]. exists v. split; [done|]. split; [done|]. split; [done|]. split.
  - intros a Ha. destruct (K5 a Ha) as (path & L1 & L2 & L3). exists path. split; [done|]. split; [done|]. by eapply ready_held.
  - intros value Hvalue Hsame. unfold ReadyFor. rewrite Hsame, Hready, K4. cbn [andb]. rewrite String.eqb_eq. split; [|by intros ->].
    intros Hf. symmetry. by apply (pg_fingerprint _ _ _ Hp).
Qed.

(** A scene that is resolved refers, element by element, to nothing, to a file of the
    firmware, or to a file of the plugin's package, of the kind of the element, that is on
    the device with its declared hash (or whose removal has failed). *)
Theorem resolved_scene_stored w r p scene resolved : Packages calls ids known -> ac_device calls = Some d -> reachable w r -> no_wrap r ->
  Assets_ResolveScene (rn_state r) p scene = inl resolved -> needs_package scene ->
  exists v, known v /\ pk_PluginID v = p
    /\ Forall2 (fun element resolved => resolved_Element resolved = element /\ refers calls d v r element (resolved_Path resolved))
         (scene_Elements scene) (resolved_Elements resolved).
Proof.
  intros Hp Hd Hr Hn Hres (element & asset & Hin & Hasset & Hstock).
  pose proof (reachable_tracks calls d ids known Hp (or_introl Hd) w r Hr Hn) as HT. unfold Assets_ResolveScene in Hres.
  destruct (resolve_elements _ _ _) as [elements|] eqn:E; [|done]. injection Hres as <-.
  destruct (Assets_Ready (rn_state r) p) eqn:Er.
  - pose proof Er as Hph. apply String.eqb_eq in Hph. destruct (po_ready _ _ _ _ (tk_ok _ _ _ _ _ HT p) Hph) as [v Hv].
    pose proof (rf_plugin _ _ _ _ _ Hv) as Hvp. subst p. exists v. split; [by apply Hv|]. split; [done|].
    apply (resolve_elements_refer calls d known); [done|done|by rewrite Er].
  - exfalso. revert elements E Hin. induction (scene_Elements scene) as [|x l IH]; intros elements E Hin; [by apply elem_of_nil in Hin|].
    cbn [resolve_elements] in E. apply elem_of_cons in Hin as [->|Hin].
    + unfold resolve_element in E. by rewrite Hasset, Hstock in E.
    + destruct (resolve_element _ _ x); [|done]. destruct (resolve_elements _ _ l) as [rest|]; [|done]. by eapply IH.
Qed.
End Claims.

(** ** A device that works *)

(** Calls succeed and do what they say, the connection lasts, and the files of packages stay
    as they are. *)
Class Working {W} (calls : AssetCalls (W := W)) (d : AssetDevice (W := W)) `{!Storage calls d} : Prop := {
  wd_remove path w : (av_Remove d path w).1 = None;
  wd_upload path localPath w : (av_UploadFile d AssetApplication path localPath w).1 = None
    /\ st_files (av_UploadFile d AssetApplication path localPath w).2 !! storageAssetPath path
       = Some (lf_Copy (ac_files calls) localPath (MaxAssetBytes + 1) w).1;
  wd_read path content w : st_files w !! path = Some content -> (av_ReadTo d path w).1 = (content, len content, None);
  wd_quiet w : (ac_reconnects calls w).1 = 0%nat;
  wd_local root asset w w' : verifiedLocalPath calls root asset w = verifiedLocalPath calls root asset w';
  wd_copy path limit w w' : lf_Copy (ac_files calls) path limit w = lf_Copy (ac_files calls) path limit w';
}.

Section Working.
Context {W : Type} (calls : AssetCalls (W := W)) (d : AssetDevice (W := W)) `{!Storage calls d} `{!Working calls d}.
Notation Run := (Run AssetReconciler asEvent W).
Notation act := (act AssetReconciler asEvent W).

Lemma wp_quiet r : wp (interfere calls) (fun _ r' => rn_state r' = rn_state r /\ files calls d r' = files calls d r) r.
Proof.
  unfold interfere. wp_run. rewrite (wd_quiet (rn_world r)). split; [done|]. unfold files. cbn. by rewrite st_reconnects; [|apply wd_quiet].
Qed.

Lemma verified_content root asset w path : verifiedLocalPath calls root asset w = inl path ->
  let content := (lf_Copy (ac_files calls) path (MaxAssetBytes + 1) w).1 in len content = ad_Size asset /\ hex_sum calls content = ad_SHA256 asset.
Proof.
  unfold verifiedLocalPath. destruct (filepath_Rel _ _); [|done]. destruct (_ || _); [done|]. destruct (lf_Lstat _ _ _); [|done].
  destruct (_ || _); [done|]. destruct (lf_Open _ _ _); [done|]. destruct (lf_Copy _ _ _ w) as [content err] eqn:Ec.
  destruct (_ || _) eqn:E; [done|]. intros [= <-]. rewrite Ec. cbn. apply orb_false_iff in E as [[_ E1]%orb_false_iff E2].
  by apply negb_false_iff, Z.eqb_eq in E1; apply negb_false_iff, String.eqb_eq in E2.
Qed.

Lemma wp_reads path asset content r : files calls d r !! storageAssetPath path = Some content -> len content = ad_Size asset ->
  hex_sum calls content = ad_SHA256 asset ->
  wp (deviceAssetMatches calls d path asset) (fun matches r' => matches = true /\ rn_state r' = rn_state r) r.
Proof.
  intros Hf Hl Hh. unfold deviceAssetMatches. wp_run. pose proof (wd_read _ _ _ Hf) as Hr.
  destruct (av_ReadTo d (storageAssetPath path) (rn_world r)) as [[[c n] err] w]. cbn [fst snd] in *. injection Hr as -> -> ->.
  rewrite Hl, Z.eqb_refl, Hh, String.eqb_refl. wp_run. wp_call wp_quiet. intros ? r' [H _]. by wp_run.
Qed.

Lemma wp_sync_file_works path root localPath asset r : verifiedLocalPath calls root asset (rn_world r) = inl localPath ->
  wp (sync_file calls d path localPath asset) (fun result r' => result = inl tt /\ rn_state r' = rn_state r) r.
Proof.
  intros Hv. unfold sync_file. eapply wp_step with (Q := fun _ r' => rn_state r' = rn_state r).
  { unfold deviceAssetMatches. wp_run. destruct (av_ReadTo _ _ _) as [[[c n] err] w]. wp_run.
    wp_call wp_quiet. intros ? r' [H _]. by wp_run. }
  intros [|] r1 H1; [done|]. rewrite (wd_local _ _ _ (rn_world r1)) in Hv. destruct (verified_content _ _ _ _ Hv) as [Hl Hh].
  eapply wp_step with (Q := fun err r' => err = None /\ rn_state r' = rn_state r /\ files calls d r' !! storageAssetPath path
    = Some (lf_Copy (ac_files calls) localPath (MaxAssetBytes + 1) (rn_world r1)).1).
  { unfold do_Upload. wp_run. destruct (wd_upload path localPath (rn_world r1)) as [-> K2]. wp_call wp_quiet.
    intros ? r' [H3 H4]. wp_run. split; [done|]. split; [by rewrite H3|]. by rewrite H4. }
  intros err r2 (-> & H2 & Hf). wp_call (wp_reads path asset _ r2 Hf). intros matches r3 [-> H3]. wp_run. split; [done|]. by rewrite H3.
Qed.

Lemma check_assets_paths p sources paths total assets a : check_assets calls p sources paths total assets = None ->
  a ∈ assets -> exists path, derivedDevicePath calls p a = inl path.
Proof.
  revert sources paths total. induction assets as [|x assets IH]; intros sources paths total H Ha; [by apply elem_of_nil in Ha|].
  cbn [check_assets] in H. destruct (is_some _); [done|]. destruct (decide _); [done|].
  destruct (derivedDevicePath calls p x) as [path|] eqn:E; [|done]. apply elem_of_cons in Ha as [->|Ha]; [by exists path|].
  destruct (validatePhysicalPath calls path); [done|]. destruct (decide _); [done|]. destruct (negb (len _ =? 64) || negb _); [done|].
  destruct ((ad_Size x <? 1) || _); [done|]. destruct (MaxPackageAssetBytes <? _); [done|]. by eapply IH.
Qed.

Lemma wp_sync_works value assets s resolved observed r :
  (forall a, a ∈ assets -> (exists path, derivedDevicePath calls (pk_PluginID value) a = inl path)
     /\ exists localPath, verifiedLocalPath calls (pk_Root value) a (rn_world r) = inl localPath) ->
  wp (sync_assets calls d value assets s resolved observed)
     (fun result r' => (exists s resolved observed, result = Synced s resolved observed) /\ rn_state r' = rn_state r) r.
Proof.
  revert s resolved observed r. induction assets as [|a assets IH]; intros s resolved observed r Ha; cbn [sync_assets].
  { split; [by exists s, resolved, observed|done]. }
  eapply wp_step with (Q := fun result r' => (exists s resolved observed, result = Synced s resolved observed) /\ rn_state r' = rn_state r).
  - destruct (Ha a) as [[path Hp] [localPath Hl]]; [by left|]. unfold sync_asset. wp_run. rewrite Hl, Hp.
    destruct (_ =s _); [split; [by do 3 eexists|done]|]. wp_call (wp_sync_file_works path (pk_Root value)).
    intros result r1 [-> H1]. wp_run. split; [by do 3 eexists|done].
  - intros result r1 [(s' & resolved' & observed' & ->) H1]. rewrite <- H1. apply IH. intros a' Ha'.
    rewrite (wd_local _ _ _ (rn_world r)). apply Ha. by right.
Qed.

Lemma wp_remove_works paths observed r :
  wp (remove_files calls d paths observed) (fun result r' => result.1 = true /\ rn_state r' = rn_state r) r.
Proof.
  revert observed r. induction paths as [|path paths IH]; intros observed r; cbn [remove_files]; [done|].
  eapply wp_step with (Q := fun err r' => err = None /\ rn_state r' = rn_state r).
  - unfold do_Remove. wp_run. rewrite wd_remove. wp_call wp_quiet. intros ? r' [H _]. by wp_run.
  - intros err r1 [-> H1]. rewrite <- H1. apply IH.
Qed.

Lemma commit_ready st value s paths observed :
  ReadyFor calls (commit (ar_connectionEpoch st) (pk_PluginID value) (ready_state value s) paths observed (manifestFingerprint calls value) st) value = true.
Proof.
  unfold commit, in_epoch. rewrite Z.eqb_refl. unfold ReadyFor, Assets_Ready, phase_of. cbn. rewrite !lookup_insert_eq. cbn. by rewrite String.eqb_refl.
Qed.

Lemma wp_becomes_ready value r : ac_device calls = Some d -> ValidatePackage calls value = None -> pk_Enabled value = true ->
  (forall a, a ∈ pk_Assets value -> exists path, verifiedLocalPath calls (pk_Root value) a (rn_world r) = inl path) ->
  wp (reconcile calls value) (fun _ r' => ReadyFor calls (rn_state r') value = true) r.
Proof.
  intros Hd Hval Hen Hlocal. unfold reconcile. apply wp_bind, wp_read. wp_call wp_quiet. intros ? r1 [H1 _]. rewrite Hval, Hen, Hd. cbn [is_some negb].
  destruct (settled calls (rn_state r) value) eqn:Es.
  { wp_run. rewrite H1. unfold settled in Es. unfold ReadyFor, Assets_Ready, phase_of. rewrite Hen in Es.
    destruct (ar_states (rn_state r) !! _); [|done]. destruct (ar_fingerprints _ !! _); [|done].
    apply andb_true_iff in Es as [-> Es]. by rewrite andb_true_l, andb_false_l, orb_false_r in Es; rewrite Es. }
  destruct (Nat.eqb (length (pk_Assets value)) 0 && _); [wp_run; rewrite <- H1; apply commit_ready|].
  rewrite <- H1. unfold reconcile_enabled. destruct (Nat.eqb (length (pk_Assets value)) 0) eqn:El.
  - wp_call wp_remove_works. intros [ok observed] r2 [H2 H3]. cbn [fst snd] in H2. rewrite H2. wp_run. rewrite <- H3. apply commit_ready.
  - wp_call wp_sync_works.
    { intros x Hx. rewrite (wd_local _ _ _ (rn_world r)). split; [|by apply Hlocal]. unfold ValidatePackage in Hval. rewrite El in Hval.
      destruct (_ || _); [done|]. destruct (negb _); [done|]. destruct (_ <? _); [done|]. by eapply check_assets_paths. }
    intros result r2 [(s & resolved & observed & ->) H3]. wp_run. rewrite <- H3. apply commit_ready.
Qed.
End Working.

(** C29: Over a device that works, reconciling a valid and enabled package whose local files
    have the declared size and hash makes it ready, whatever the reconciler knew before. *)
Theorem package_becomes_ready {W} (calls : AssetCalls (W := W)) d `{!Storage calls d} `{!Working calls d} value r :
  ac_device calls = Some d -> ValidatePackage calls value = None -> pk_Enabled value = true ->
  (forall a, a ∈ pk_Assets value -> exists path, verifiedLocalPath calls (pk_Root value) a (rn_world r) = inl path) ->
  ReadyFor calls (rn_state (Reconcile calls [value] r).2) value = true.
Proof.
  intros Hd Hval Hen Hlocal. enough (H : wp (Reconcile calls [value]) (fun _ r' => ReadyFor calls (rn_state r') value = true) r) by exact H.
  unfold Reconcile. cbn [for_each]. wp_call (wp_becomes_ready calls d value r). done.
Qed.

(** ** A device *)

(** A device that stores what it is given; the script says which of the next removals fail
    although they take effect, unless the device is reliable. *)
Record demo_storage := mkStorage { ds_files : gmap string string; ds_script : list bool }.

(** 32 bytes of a polynomial of the content. *)
Definition demo_polynomial (content : string) : Z := fold_left (fun h b => (h * 257 + b + 1) mod 2 ^ 256) (bytes_of content) 1.
Fixpoint demo_bytes (n : nat) (h : Z) : string :=
  match n with O => EmptyString | S n => String (ascii_of_byte (h mod 256)) (demo_bytes n (h / 256)) end.
Definition demo_sum (content : string) : string := demo_bytes 32 (demo_polynomial content).

Definition demo_image : string := "an image".
Definition demo_asset : Declaration := mkDeclaration "images/logo.png" (hex_of (bytes_of (demo_sum demo_image))) 8 "image/png".
Definition demo_package (enabled : bool) : Package := mkPackage "dev.bsbctl.test" "1.0.0" "/opt/test" enabled (Some [demo_asset]).

Definition demo_device (reliable : bool) : AssetDevice (W := demo_storage) := {|
  av_UploadFile application path localPath w :=
    (None, mkStorage (<["/ext/user_assets/" +:+ application +:+ "/" +:+ path := demo_image]> (ds_files w)) (ds_script w));
  av_ReadTo path w := match ds_files w !! path with
                      | Some content => ((content, len content, None), w)
                      | None => ((EmptyString, 0, errors_New "not found"), w)
                      end;
  av_Remove path w := (match ds_script w with true :: _ => if reliable then None else errors_New "timeout" | _ => None end,
    mkStorage (delete path (ds_files w)) (tail (ds_script w)));
|}.
Definition demo_local : LocalFiles (W := demo_storage) := {|
  lf_Lstat _ _ := inl (mkFileInfo true false 8);
  lf_Open _ _ := None;
  lf_Copy _ _ _ := (demo_image, None);
|}.
Definition demo_calls (reliable : bool) : AssetCalls (W := demo_storage) := {|
  ac_device := Some (demo_device reliable);
  ac_files := demo_local;
  ac_sum := demo_sum;
  ac_validUpload _ _ := None;
  ac_validWrite _ := None;
  ac_now w := (zero_time, w);
  ac_reconnects w := (0%nat, w);
|}.

#[export] Instance demo_stores reliable : Storage (demo_calls reliable) (demo_device reliable).
Proof.
  refine {| st_files := ds_files |}; try done.
  - intros path [files script]. cbn. split; [by intros other Hne; rewrite lookup_delete_ne|].
    assert (Hd : delete path files !! path = None) by apply lookup_delete_eq. destruct script as [|[] ?], reliable; cbn; auto.
  - intros path localPath [files script] other Hne. cbn. by rewrite lookup_insert_ne.
  - intros path [files script]. cbn. destruct (files !! path); [split; [done|congruence]|done].
Defined.

#[export] Instance demo_works : Working (demo_calls true) (demo_device true).
Proof.
  split; try done.
  - intros path [files [|[] script]]; done.
  - intros path localPath [files script]. split; [done|]. apply lookup_insert_eq.
  - intros path content [files script] H. cbn in *. by rewrite H.
Qed.

Definition demo_known (v : Package) : Prop := v = demo_package true \/ v = demo_package false.

Lemma demo_packages : Packages (demo_calls false) ["dev.bsbctl.test"%string] demo_known.
Proof.
  split; [reflexivity|..].
  - intros v [->| ->]; apply list_elem_of_singleton; reflexivity.
  - assert (Hne : (manifestFingerprint (demo_calls false) (demo_package true) =s manifestFingerprint (demo_calls false) (demo_package false)) = false)
      by (vm_compute; reflexivity).
    apply String.eqb_neq in Hne.
    intros v v' [->| ->] [->| ->] H; [reflexivity|by destruct Hne|destruct Hne; by symmetry|reflexivity].
  - intros v v' a a' path Hv Hv' _ Ha Ha' _ _. assert (He : forall v a, demo_known v -> a ∈ pk_Assets v -> a = demo_asset).
    { intros u x [->| ->] Hx; by apply list_elem_of_singleton in Hx. }
    by rewrite (He v a), (He v' a').
  - intros content. cbn [ac_sum demo_calls]. unfold demo_sum. generalize (demo_polynomial content).
    assert (H : forall n h, String.length (demo_bytes n h) = n) by (induction n as [|n IH]; intros h; [done|cbn; by rewrite IH]).
    apply H.
Qed.

Definition demo_start (script : list bool) : Run AssetReconciler asEvent demo_storage := mkRun NewReconciler [] (mkStorage ∅ script).
(** The package is reconciled, enabled or not, one time after the other. *)
Definition demo_reconciled (script : list bool) (enabled : list bool) : Run AssetReconciler asEvent demo_storage :=
  fold_left (fun r e => (Reconcile (demo_calls false) [demo_package e] r).2) enabled (demo_start script).

Lemma demo_one_known enabled value : value ∈ [demo_package enabled] -> demo_known value.
Proof. intros ->%list_elem_of_singleton. destruct enabled; [by left|by right]. Qed.

Lemma demo_reachable script enabled : rtc (as_step (demo_calls false) demo_known) (demo_start script) (demo_reconciled script enabled).
Proof.
  unfold demo_reconciled. generalize (demo_start script). induction enabled as [|e enabled IH]; intros r; [apply rtc_refl|].
  cbn [fold_left]. eapply rtc_l; [|apply IH]. apply as_Reconcile, demo_one_known.
Qed.

(** The package as the device is asked to show it. *)
Definition demo_logo : AssetRef := mkAssetRef "images/logo.png" EmptyString.
Definition demo_element : Element := mkElement "logo" DisplayFront 0 0 None (Some (mkImageElement demo_logo)) None None None.
Definition demo_scene : Scene := mkScene [demo_element].

Lemma assets_truthful_witness : exists v, demo_known v /\ pk_PluginID v = "dev.bsbctl.test"%string.
Proof.
  destruct (assets_truthful (demo_calls false) (demo_device false) ["dev.bsbctl.test"%string] demo_known (mkStorage ∅ []) (demo_reconciled [] [true; false; true])
    "dev.bsbctl.test" demo_packages eq_refl (demo_reachable [] [true; false; true]) ltac:(vm_compute; reflexivity) ltac:(vm_compute; reflexivity))
    as (v & Hv & Hp & _). by exists v.
Defined.

Lemma resolved_scene_stored_witness : exists resolved v,
  Assets_ResolveScene (rn_state (demo_reconciled [] [true])) "dev.bsbctl.test" demo_scene = inl resolved /\ demo_known v.
Proof.
  destruct (Assets_ResolveScene (rn_state (demo_reconciled [] [true])) "dev.bsbctl.test" demo_scene) as [resolved|err] eqn:E;
    [|exfalso; vm_compute in E; discriminate E].
  destruct (resolved_scene_stored (demo_calls false) (demo_device false) ["dev.bsbctl.test"%string] demo_known (mkStorage ∅ []) (demo_reconciled [] [true])
    "dev.bsbctl.test" demo_scene resolved demo_packages eq_refl (demo_reachable [] [true]) ltac:(vm_compute; reflexivity) E) as (v & Hv & _).
  - exists demo_element, demo_logo. split; [apply list_elem_of_singleton; reflexivity|split; reflexivity].
  - exists resolved, v. split; [reflexivity|exact Hv].
Defined.

Lemma package_becomes_ready_witness :
  ReadyFor (demo_calls true) (rn_state (Reconcile (demo_calls true) [demo_package true] (demo_start [])).2) (demo_package true) = true.
Proof.
  apply (package_becomes_ready (demo_calls true) (demo_device true) (demo_package true) (demo_start [])); [reflexivity|vm_compute; reflexivity|reflexivity|].
  intros a Ha. apply list_elem_of_singleton in Ha as ->. eexists. vm_compute. reflexivity.
Defined.

(** Disabling a package removes its file, but the device reports a failure; the package is
    enabled again, and reported as ready without its file. *)
Example demo_lost_file :
  let r := demo_reconciled [true] [true; false; true] in
  Assets_Ready (rn_state r) "dev.bsbctl.test" = true /\ ds_files (rn_world r) = ∅.
Proof. vm_compute. split; reflexivity. Qed.
