(* ===== verification/JsonText.v ===== *)
(** * JSON texts: tokens, values, validity and compaction

    What the sources use of [encoding/json] to read texts byte for byte: the tokens of a
    text, the value a token sequence stands for, [Valid], [Compact], the strings behind
    string literals, and the encoding of strings without HTML escaping. Texts are split
    into tokens that remember the white space before them, so that [Compact] and
    [RawMessage] fields can be read off the tokens. *)

From Stdlib Require Import ZArith Lia ZifyBool.
From S2P Require Import Prelude GoStrings GoTime GoJson.

(** ** String literals *)

Definition is_hex (b : Z) : bool := between 48 57 b || between 97 102 b || between 65 70 b.
Definition hex_digit_value (b : Z) : Z :=
  if between 48 57 b then b - 48 else if between 97 102 b then b - 87 else b - 55.

(** The body of a literal up to the closing quote, and what follows it; [None] when the
    scanner rejects it. *)
Fixpoint lex_string (s : string) : option (string * string) :=
  match s with
  | EmptyString => None
  | String c s1 =>
    if byte c =? 34 then Some (EmptyString, s1)
    else if byte c =? 92 then
      match s1 with
      | EmptyString => None
      | String e s2 =>
        if byte e =? 117 then
          match s2 with
          | String h1 (String h2 (String h3 (String h4 s3))) =>
            if forallb (fun h => is_hex (byte h)) [h1; h2; h3; h4] then
              match lex_string s3 with
              | Some (body, rest) =>
                Some (String c (String e (String h1 (String h2 (String h3 (String h4 body))))), rest)
              | None => None
              end
            else None
          | _ => None
          end
        else if existsb (Z.eqb (byte e)) [34; 47; 92; 98; 102; 110; 114; 116] then
          match lex_string s2 with
          | Some (body, rest) => Some (String c (String e body), rest)
          | None => None
          end
        else None
      end
    else if byte c <? 32 then None
    else match lex_string s1 with
         | Some (body, rest) => Some (String c body, rest)
         | None => None
         end
  end.

Definition utf8_bytes (bytes : list Z) : string :=
  String.string_of_list_ascii (map ascii_of_byte bytes).

(** [utf8.EncodeRune]. *)
Definition encode_rune (r : Z) : string :=
  if r <? 128 then utf8_bytes [r]
  else if r <? 2048 then utf8_bytes [192 + r / 64; 128 + r mod 64]
  else if between 55296 57343 r || (1114111 <? r) then utf8_bytes [239; 191; 189]
  else if r <? 65536 then utf8_bytes [224 + r / 4096; 128 + r / 64 mod 64; 128 + r mod 64]
  else utf8_bytes [240 + r / 262144; 128 + r / 4096 mod 64; 128 + r / 64 mod 64; 128 + r mod 64].

(** The code unit of an escape [\uXXXX] at the head of a text. *)
Definition getu4 (s : string) : option Z :=
  match s with
  | String b (String u (String h1 (String h2 (String h3 (String h4 _))))) =>
    if (byte b =? 92) && (byte u =? 117) && forallb (fun h => is_hex (byte h)) [h1; h2; h3; h4]
    then Some (((hex_digit_value (byte h1) * 16 + hex_digit_value (byte h2)) * 16
                + hex_digit_value (byte h3)) * 16 + hex_digit_value (byte h4))
    else None
  | _ => None
  end.

Definition unescape (e : ascii) : ascii :=
  if Ascii.eqb e "b" then ascii_of_byte 8 else if Ascii.eqb e "f" then ascii_of_byte 12
  else if Ascii.eqb e "n" then ascii_of_byte 10 else if Ascii.eqb e "r" then ascii_of_byte 13
  else if Ascii.eqb e "t" then ascii_of_byte 9 else e.

(** The string a literal's body stands for: escapes are replaced, and invalid UTF-8 and
    lone surrogates by U+FFFD. [skip] bytes belong to what is already handled. *)
Fixpoint unquote_from (copy : bool) (skip : nat) (s : string) : string :=
  match s with
  | EmptyString => EmptyString
  | String a s' =>
    match skip with
    | S k => if copy then String a (unquote_from copy k s') else unquote_from copy k s'
    | O =>
      if byte a =? 92 then
        match s' with
        | EmptyString => EmptyString
        | String e _ =>
          if byte e =? 117 then
            match getu4 s with
            | None => EmptyString
            | Some r =>
              if between 55296 57343 r then
                match getu4 (drop_bytes 6 s) with
                | Some r2 =>
                  if between 55296 56319 r && between 56320 57343 r2
                  then encode_rune ((r - 55296) * 1024 + (r2 - 56320) + 65536) +:+ unquote_from false 11 s'
                  else encode_rune RuneError +:+ unquote_from false 5 s'
                | None => encode_rune RuneError +:+ unquote_from false 5 s'
                end
              else encode_rune r +:+ unquote_from false 5 s'
            end
          else String (unescape e) (unquote_from false 1 s')
        end
      else if byte a <? 128 then String a (unquote_from true 0 s')
      else
        let '(r, n) := DecodeRuneInString s in
        if (r =? RuneError) && Nat.eqb n 1 then encode_rune RuneError +:+ unquote_from true 0 s'
        else String a (unquote_from true (n - 1) s')
    end
  end.
Definition unquote : string -> string := unquote_from true 0.

(** Strings as an encoder with [SetEscapeHTML(false)] writes them. *)
Definition escape_byte_plain (b : Z) : string :=
  if (b =? 60) || (b =? 62) || (b =? 38) then String (ascii_of_byte b) EmptyString else escape_byte b.
Definition escape_plain : string -> string := escape_with escape_byte_plain true 0.
Definition json_string_plain (s : string) : string := quoted (escape_plain s).

(** ** Number literals *)

Fixpoint span_digits (s : string) : string * string :=
  match s with
  | String c s' => if is_digit (byte c) then let '(d, rest) := span_digits s' in (String c d, rest)
                   else (EmptyString, s)
  | EmptyString => (EmptyString, EmptyString)
  end.

(** At least one digit. *)
Definition some_digits (s : string) : option (string * string) :=
  match span_digits s with
  | (EmptyString, _) => None
  | (d, rest) => Some (d, rest)
  end.

(** An optional part introduced by one of the bytes [marks]: without such a byte it is
    empty, with one it must parse. *)
Definition optional_part (marks : string) (body : string -> option (string * string)) (s : string)
    : option (string * string) :=
  match s with
  | String c s' =>
    if byte_in marks (byte c) then
      match body s' with Some (d, rest) => Some (String c d, rest) | None => None end
    else Some (EmptyString, s)
  | EmptyString => Some (EmptyString, EmptyString)
  end.

Definition lex_exponent (s : string) : option (string * string) :=
  match s with
  | String c s' =>
    if byte_in "+-" (byte c) then
      match some_digits s' with Some (d, rest) => Some (String c d, rest) | None => None end
    else some_digits s
  | EmptyString => None
  end.

Definition lex_natural (s : string) : option (string * string) :=
  match s with
  | String c s' =>
    if byte c =? 48 then Some (String c EmptyString, s')
    else if between 49 57 (byte c) then Some (span_digits s)
    else None
  | EmptyString => None
  end.

(** The longest number literal at the head of [s], and the rest. *)
Definition lex_number (s : string) : option (string * string) :=
  let '(sign, s) := match s with
                    | String c s' => if byte c =? 45 then (String c EmptyString, s') else (EmptyString, s)
                    | EmptyString => (EmptyString, s)
                    end in
  match lex_natural s with
  | None => None
  | Some (integer, s) =>
    match optional_part "." some_digits s with
    | None => None
    | Some (fraction, s) =>
      match optional_part "eE" lex_exponent s with
      | None => None
      | Some (exponent, rest) => Some (sign +:+ integer +:+ fraction +:+ exponent, rest)
      end
    end
  end.

(** ** Tokens *)

Inductive tkind :=
  | TPunct (c : ascii)
  | TString (value : string)
  | TNumber (literal : string)
  | TBool (b : bool)
  | TNull
  | TBad.

Record token := mkToken { tk_kind : tkind; tk_space : string; tk_raw : string }.

Definition json_space (b : Z) : bool := (b =? 32) || (b =? 9) || (b =? 10) || (b =? 13).
Definition is_punct (c : ascii) : bool := byte_in "{}[]:," (byte c).

Fixpoint span_space (s : string) : string * string :=
  match s with
  | String c s' => if json_space (byte c) then let '(w, rest) := span_space s' in (String c w, rest)
                   else (EmptyString, s)
  | EmptyString => (EmptyString, EmptyString)
  end.

(** The token at the head of a text that does not start with white space. *)
Definition lex_token (s : string) : tkind * string * string :=
  match s with
  | EmptyString => (TBad, s, EmptyString)
  | String c s' =>
    if is_punct c then (TPunct c, String c EmptyString, s')
    else if byte c =? 34 then
      match lex_string s' with
      | Some (body, rest) => (TString (unquote body), quoted body, rest)
      | None => (TBad, s, EmptyString)
      end
    else if (byte c =? 45) || is_digit (byte c) then
      match lex_number s with
      | Some (literal, rest) => (TNumber literal, literal, rest)
      | None => (TBad, s, EmptyString)
      end
    else if HasPrefix s "true" then (TBool true, "true", drop_bytes 4 s)
    else if HasPrefix s "false" then (TBool false, "false", drop_bytes 5 s)
    else if HasPrefix s "null" then (TNull, "null", drop_bytes 4 s)
    else (TBad, s, EmptyString)
  end.

Fixpoint lex_from (fuel : nat) (s : string) : list token :=
  match fuel with
  | O => []
  | S fuel =>
    let '(space, s) := span_space s in
    match s with
    | EmptyString => []
    | _ =>
      let '(kind, raw, rest) := lex_token s in
      mkToken kind space raw :: match kind with TBad => [] | _ => lex_from fuel rest end
    end
  end.

(** The tokens of a text, up to the first byte that starts none. *)
Definition lex (s : string) : list token := lex_from (S (String.length s)) s.
Definition kinds (s : string) : list tkind := map tk_kind (lex s).

(** The text of tokens, without white space. *)
Fixpoint render (ts : list token) : string :=
  match ts with [] => EmptyString | t :: ts => tk_raw t +:+ render ts end.

(** The text from the first token to the last, with the white space between them. *)
Fixpoint spaced (ts : list token) : string :=
  match ts with [] => EmptyString | t :: ts => tk_space t +:+ tk_raw t +:+ spaced ts end.
Definition raw_text (ts : list token) : string :=
  match ts with [] => EmptyString | t :: ts => tk_raw t +:+ spaced ts end.

(** ** Values *)

Inductive jvalue :=
  | JNull
  | JBool (b : bool)
  | JNumber (literal : string)
  | JString (value : string)
  | JArray (elements : list jvalue)
  | JObject (members : list (string * jvalue)).

(** The tokens after a delimiter. *)
Definition expect (c : ascii) (ts : list tkind) : option (list tkind) :=
  match ts with
  | TPunct c' :: ts => if Ascii.eqb c' c then Some ts else None
  | _ => None
  end.

(** Reads one value; [fuel] bounds the recursion. In [parse_members] and
    [parse_elements] the flag says whether a comma must come before the next item. *)
Fixpoint parse_value (fuel : nat) (ts : list tkind) {struct fuel} : option (jvalue * list tkind) :=
  match fuel with
  | O => None
  | S fuel =>
    match ts with
    | TPunct c :: ts =>
      if Ascii.eqb c "{" then
        match parse_members fuel false ts with Some (ms, ts) => Some (JObject ms, ts) | None => None end
      else if Ascii.eqb c "[" then
        match parse_elements fuel false ts with Some (vs, ts) => Some (JArray vs, ts) | None => None end
      else None
    | TString value :: ts => Some (JString value, ts)
    | TNumber literal :: ts => Some (JNumber literal, ts)
    | TBool b :: ts => Some (JBool b, ts)
    | TNull :: ts => Some (JNull, ts)
    | _ => None
    end
  end
with parse_members (fuel : nat) (comma : bool) (ts : list tkind) {struct fuel}
    : option (list (string * jvalue) * list tkind) :=
  match fuel with
  | O => None
  | S fuel =>
    match expect "}" ts with
    | Some ts => Some ([], ts)
    | None =>
      match (if comma then expect "," ts else Some ts) with
      | Some (TString name :: ts) =>
        match expect ":" ts with
        | Some ts =>
          match parse_value fuel ts with
          | Some (v, ts) =>
            match parse_members fuel true ts with
            | Some (ms, ts) => Some ((name, v) :: ms, ts)
            | None => None
            end
          | None => None
          end
        | None => None
        end
      | _ => None
      end
    end
  end
with parse_elements (fuel : nat) (comma : bool) (ts : list tkind) {struct fuel}
    : option (list jvalue * list tkind) :=
  match fuel with
  | O => None
  | S fuel =>
    match expect "]" ts with
    | Some ts => Some ([], ts)
    | None =>
      match (if comma then expect "," ts else Some ts) with
      | Some ts =>
        match parse_value fuel ts with
        | Some (v, ts) =>
          match parse_elements fuel true ts with
          | Some (vs, ts) => Some (v :: vs, ts)
          | None => None
          end
        | None => None
        end
      | None => None
      end
    end
  end.

(** Twice the tokens is fuel enough (see [parse_enough]). *)
Definition parse_fuel (ts : list tkind) : nat := S (2 * length ts).
Definition parse (ts : list tkind) : option (jvalue * list tkind) := parse_value (parse_fuel ts) ts.

(** The nesting depth of objects and arrays, and the scanner's bound on it. *)
Fixpoint nesting (v : jvalue) : Z :=
  match v with
  | JArray vs => 1 + foldr Z.max 0 (map nesting vs)
  | JObject ms => 1 + foldr Z.max 0 (map (fun m => nesting m.2) ms)
  | _ => 0
  end.
Definition maxNestingDepth : Z := 10000.

(** The value of a whole text: [None] unless [json.Valid]. *)
Definition value_of (s : string) : option jvalue :=
  match parse (kinds s) with
  | Some (v, []) => if nesting v <=? maxNestingDepth then Some v else None
  | _ => None
  end.
Definition Valid (s : string) : bool := match value_of s with Some _ => true | None => false end.

(** [json.Compact]; [None] is a syntax error. *)
Definition Compact (s : string) : option string := if Valid s then Some (render (lex s)) else None.

Example kinds_example :
  kinds (" [ 1, " +:+ quoted "a\u0062\ud83d\ude00" +:+ ",tru")
  = [TPunct "["; TNumber "1"; TPunct ","; TString ("ab" +:+ utf8_bytes [240; 159; 152; 128]); TPunct ","; TBad].
Proof. vm_compute. reflexivity. Qed.
Example Compact_example :
  Compact (" { " +:+ quoted "a b" +:+ " : [ 1 , -2.5e3, true ] } ") = Some ("{" +:+ quoted "a b" +:+ ":[1,-2.5e3,true]}").
Proof. vm_compute. reflexivity. Qed.
Example Valid_rejects :
  forallb (fun s => negb (Valid s)) ["[1,]"; "[01]"; "{,}"; "[1 2]"; "1."; "-"; "nul"; "[1]]"; ""]%string = true.
Proof. vm_compute. reflexivity. Qed.

(** ** Lemmas: tokens *)

(** What may follow a number literal. *)
Definition stops (t : string) : Prop :=
  match t with
  | EmptyString => True
  | String c _ => is_digit (byte c) = false /\ byte_in "." (byte c) = false /\ byte_in "eE" (byte c) = false
  end.

Lemma lex_string_spec s body rest : lex_string s = Some (body, rest) ->
  s = body +:+ dq +:+ rest /\ forall t, lex_string (body +:+ dq +:+ t) = Some (body, t).
Proof.
  revert body rest. assert (H : forall n s body rest, (String.length s <= n)%nat -> lex_string s = Some (body, rest) ->
    s = body +:+ dq +:+ rest /\ forall t, lex_string (body +:+ dq +:+ t) = Some (body, t)).
  2: { intros body rest. by apply (H (String.length s)). }
  clear s. induction n as [|n IH]; intros [|c s] body rest Hl; try done; simpl in Hl; [lia|]. cbn [lex_string].
  destruct (byte c =? 34) eqn:Hq.
  { intros [= <- <-]. split; [|done]. assert (c = ascii_of_byte 34) as -> by (apply byte_inj; rewrite byte_ascii_of_byte; lia). done. }
  destruct (byte c =? 92) eqn:Hb.
  - destruct s as [|e s]; [done|]. destruct (byte e =? 117) eqn:Hu.
    + destruct s as [|h1 [|h2 [|h3 [|h4 s]]]]; try done.
      destruct (forallb _ _) eqn:Hh; [|done]. destruct (lex_string s) as [[body' rest']|] eqn:Hs; [|done].
      intros [= <- <-]. apply IH in Hs as [-> Hs]; [|simpl in Hl; lia]. split; [done|]. intros t.
      cbn [String.append lex_string]. rewrite Hq, Hb, Hu, Hh. by rewrite Hs.
    + destruct (existsb _ _) eqn:He; [|done]. destruct (lex_string s) as [[body' rest']|] eqn:Hs; [|done].
      intros [= <- <-]. apply IH in Hs as [-> Hs]; [|simpl in Hl; lia]. split; [done|]. intros t.
      cbn [String.append lex_string]. rewrite Hq, Hb, Hu, He. by rewrite Hs.
  - destruct (byte c <? 32) eqn:Hc; [done|]. destruct (lex_string s) as [[body' rest']|] eqn:Hs; [|done].
    intros [= <- <-]. apply IH in Hs as [-> Hs]; [|lia]. split; [done|]. intros t.
    cbn [String.append lex_string]. rewrite Hq, Hb, Hc. by rewrite Hs.
Qed.

(** No digit follows. *)
Definition no_digit (t : string) : Prop := forall c t', t = String c t' -> is_digit (byte c) = false.

Lemma stops_no_digit t : stops t -> no_digit t.
Proof. intros Ht c t' ->. apply Ht. Qed.

(** [f] reads [d] whenever what follows it satisfies [P]. *)
Definition reads_prefix (f : string -> option (string * string)) (P : string -> Prop) : Prop :=
  forall s d rest, f s = Some (d, rest) ->
    s = d +:+ rest /\ d <> EmptyString /\ forall t, P t -> f (d +:+ t) = Some (d, t).

Lemma span_digits_spec s d rest : span_digits s = (d, rest) ->
  s = d +:+ rest /\ no_digit rest /\ forall t, no_digit t -> span_digits (d +:+ t) = (d, t).
Proof.
  revert d rest. induction s as [|c s IH]; intros d rest; cbn [span_digits].
  { intros [= <- <-]. split_and!; [done..|]. intros [|c t] Ht; [done|]. cbn. by rewrite (Ht c t). }
  destruct (is_digit (byte c)) eqn:Hc.
  - destruct (span_digits s) as [d' rest'] eqn:Hs. intros [= <- <-]. destruct (IH _ _ eq_refl) as (-> & Hr & IH').
    split_and!; [done..|]. intros t Ht. cbn [String.append span_digits]. rewrite Hc. by rewrite IH'.
  - intros [= <- <-]. split_and!; [done|by intros ? ? [= <- <-]|].
    intros [|c' t] Ht; [done|]. cbn. by rewrite (Ht c' t).
Qed.

Lemma some_digits_spec : reads_prefix some_digits no_digit.
Proof.
  intros s d rest. unfold some_digits. destruct (span_digits s) as [d' rest'] eqn:Hs. destruct d' as [|c d']; [done|].
  intros [= <- <-]. apply span_digits_spec in Hs as (-> & _ & Hs). split_and!; [done..|]. intros t Ht. by rewrite Hs.
Qed.

Lemma optional_part_spec marks body P s d rest :
  reads_prefix body P -> optional_part marks body s = Some (d, rest) ->
  s = d +:+ rest
  /\ (d = EmptyString \/ exists c d', d = String c d' /\ byte_in marks (byte c) = true)
  /\ forall t, P t -> (d = EmptyString -> forall c t', t = String c t' -> byte_in marks (byte c) = false) ->
    optional_part marks body (d +:+ t) = Some (d, t).
Proof.
  intros Hbody. unfold optional_part. destruct s as [|c s].
  { intros [= <- <-]. split_and!; [done|by left|]. intros [|c t] _ Ht; [done|]. cbn [String.append].
    by rewrite (Ht eq_refl c t). }
  destruct (byte_in marks (byte c)) eqn:Hc.
  - destruct (body s) as [[d' rest']|] eqn:Hs; [|done]. intros [= <- <-]. apply Hbody in Hs as (-> & _ & Hs).
    split_and!; [done|right; eauto|]. intros t Ht _. cbn [String.append]. rewrite Hc. by rewrite Hs.
  - intros [= <- <-]. split_and!; [done|by left|]. intros [|c' t] _ Ht; [done|]. cbn [String.append].
    by rewrite (Ht eq_refl c' t).
Qed.

Lemma lex_exponent_spec : reads_prefix lex_exponent no_digit.
Proof.
  intros s d rest. unfold lex_exponent. destruct s as [|c s]; [done|]. destruct (byte_in "+-" (byte c)) eqn:Hc.
  - destruct (some_digits s) as [[d' rest']|] eqn:Hs; [|done]. intros [= <- <-].
    apply some_digits_spec in Hs as (-> & _ & Hs). split_and!; [done..|]. intros t Ht. cbn [String.append]. rewrite Hc.
    by rewrite Hs.
  - intros Hs. apply some_digits_spec in Hs as (Heq & Hne & Hs). split_and!; [done..|]. intros t Ht.
    destruct d as [|c' d]; [done|]. cbn [String.append] in *. injection Heq as <- _. rewrite Hc. by apply Hs.
Qed.

Lemma lex_natural_spec : reads_prefix lex_natural no_digit.
Proof.
  intros s d rest. unfold lex_natural. destruct s as [|c s]; [done|]. destruct (byte c =? 48) eqn:H0.
  { intros [= <- <-]. split_and!; [done..|]. intros t Ht. cbn [String.append]. by rewrite H0. }
  destruct (between 49 57 (byte c)) eqn:H1; [|done]. cbn [span_digits].
  assert (is_digit (byte c) = true) as Hd by (unfold is_digit, between in *; lia). rewrite Hd.
  destruct (span_digits s) as [d' rest'] eqn:Hs. intros [= <- <-]. apply span_digits_spec in Hs as (-> & _ & Hs).
  split_and!; [done..|]. intros t Ht. cbn [String.append span_digits]. rewrite H0, H1, Hd. by rewrite Hs.
Qed.

Lemma mark_no_digit marks d t :
  (forall b, byte_in marks b = true -> is_digit b = false) ->
  (d = EmptyString \/ exists c d', d = String c d' /\ byte_in marks (byte c) = true) ->
  no_digit t -> no_digit (d +:+ t).
Proof. intros Hm [-> | (c & d' & -> & Hc)] Ht; [done|]. intros ? ? [= <- <-]. by apply Hm. Qed.

Lemma byte_in_cons c set b : byte_in (String c set) b = (byte c =? b) || byte_in set b.
Proof. unfold byte_in. cbn [forall_bytes]. by rewrite negb_andb, negb_involutive. Qed.

(** Evaluates membership in closed sets of bytes. *)
Ltac byte_sets :=
  rewrite ?byte_in_cons in *;
  repeat match goal with
  | |- context [byte (Ascii.Ascii ?a ?b ?c ?d ?e ?f ?g ?h)] =>
    let v := eval vm_compute in (byte (Ascii.Ascii a b c d e f g h)) in
    change (byte (Ascii.Ascii a b c d e f g h)) with v in *
  | H : context [byte (Ascii.Ascii ?a ?b ?c ?d ?e ?f ?g ?h)] |- _ =>
    let v := eval vm_compute in (byte (Ascii.Ascii a b c d e f g h)) in
    change (byte (Ascii.Ascii a b c d e f g h)) with v in *
  end;
  repeat match goal with
  | |- context [byte_in EmptyString ?b] => change (byte_in EmptyString b) with false in *
  | H : context [byte_in EmptyString ?b] |- _ => change (byte_in EmptyString b) with false in *
  end;
  unfold is_digit, between in *.

Lemma dot_no_digit b : byte_in "." b = true -> is_digit b = false.
Proof. byte_sets. lia. Qed.
Lemma e_no_digit b : byte_in "eE" b = true -> is_digit b = false.
Proof. byte_sets. lia. Qed.
Lemma e_no_dot b : byte_in "eE" b = true -> byte_in "." b = false.
Proof. byte_sets. lia. Qed.

Lemma lex_number_spec : reads_prefix lex_number stops.
Proof.
  intros s literal rest. unfold lex_number.
  set (split := fun s => match s with
                         | String c s' => if byte c =? 45 then (String c EmptyString, s') else (EmptyString, s)
                         | EmptyString => (EmptyString, s)
                         end).
  fold (split s). destruct (split s) as [sign s1] eqn:Hsign.
  assert (Hsplit : s = sign +:+ s1 /\ forall u, (sign = EmptyString -> forall c u', u = String c u' -> byte c <> 45) ->
                   split (sign +:+ u) = (sign, u)).
  { unfold split in *. destruct s as [|c s]; [injection Hsign as <- <-; split; [done|]; intros [|c u] Hu; [done|]|].
    - cbn. specialize (Hu eq_refl c u eq_refl). destruct (Z.eqb_spec (byte c) 45); [lia|done].
    - destruct (byte c =? 45) eqn:Hc; injection Hsign as <- <-; (split; [done|]).
      + intros u _. cbn. by rewrite Hc.
      + intros [|c' u] Hu; [done|]. cbn. specialize (Hu eq_refl c' u eq_refl).
        destruct (Z.eqb_spec (byte c') 45); [lia|done]. }
  destruct (lex_natural s1) as [[integer s2]|] eqn:Hi; [|done]. pose proof Hi as Hi0.
  apply lex_natural_spec in Hi as (-> & Hne & Hi).
  destruct (optional_part "." some_digits s2) as [[fraction s3]|] eqn:Hf; [|done].
  apply (optional_part_spec _ _ _ _ _ _ some_digits_spec) in Hf as (-> & Hf1 & Hf).
  destruct (optional_part "eE" lex_exponent s3) as [[exponent s4]|] eqn:He; [|done].
  apply (optional_part_spec _ _ _ _ _ _ lex_exponent_spec) in He as (-> & He1 & He).
  intros [= <- <-]. destruct Hsplit as [-> Hsplit]. rewrite !append_assoc. split_and!; [done| |].
  { destruct sign; [|done]. by destruct integer. }
  intros t Ht. rewrite !append_assoc. fold (split (sign +:+ integer +:+ fraction +:+ exponent +:+ t)). rewrite Hsplit.
  2: { intros _ c u Hu. destruct integer as [|c' integer]; [done|]. cbn in Hu. injection Hu as <- _.
       unfold lex_natural in Hi0. cbn [String.append] in Hi0. destruct (Z.eqb_spec (byte c') 48); [lia|].
       destruct (between 49 57 (byte c')) eqn:Hb; [unfold between in Hb; lia|done]. }
  pose proof (mark_no_digit "eE" exponent t e_no_digit He1 (stops_no_digit t Ht)) as Hnd.
  rewrite Hi by (apply (mark_no_digit "."); [apply dot_no_digit|done|done]).
  rewrite Hf; [|done|].
  2: { intros _ c u Hu. destruct He1 as [-> | (c' & d' & -> & Hc')].
       - cbn in Hu. subst t. apply Ht.
       - cbn in Hu. injection Hu as <- _. by apply e_no_dot. }
  rewrite He; [done|by apply stops_no_digit|]. intros _ c u ->. apply Ht.
Qed.

(** What may follow a token without changing it. *)
Definition follows (k : tkind) (t : string) : Prop := match k with TNumber _ => stops t | _ => True end.

(** [raw] is a text of the token [k]. *)
Definition token_text (k : tkind) (raw : string) : Prop :=
  k <> TBad
  /\ (exists c raw', raw = String c raw' /\ json_space (byte c) = false)
  /\ forall t, follows k t -> lex_token (raw +:+ t) = (k, raw, t).

Lemma lex_token_prefix word s : HasPrefix s word = true -> s = word +:+ drop_bytes (String.length word) s.
Proof. intros H. apply HasPrefix_app in H as [rest ->]. by rewrite drop_bytes_app. Qed.

Lemma HasPrefix_nil t : HasPrefix t EmptyString = true.
Proof. by destruct t. Qed.

Lemma HasPrefix_append word t : HasPrefix (word +:+ t) word = true.
Proof. apply HasPrefix_app. eauto. Qed.

Lemma lex_token_punct c t : is_punct c = true -> lex_token (String c t) = (TPunct c, String c EmptyString, t).
Proof. intros H. unfold lex_token. by rewrite H. Qed.

Lemma punct_text c : is_punct c = true -> token_text (TPunct c) (String c EmptyString).
Proof.
  intros H. split_and!; [done| |intros t _; by apply lex_token_punct]. exists c, EmptyString. split; [done|].
  unfold is_punct, json_space in *. byte_sets. lia.
Qed.

Lemma dq_append s : dq +:+ s = String (ascii_of_byte 34) s.
Proof. done. Qed.

Lemma lex_token_spec s k raw rest : lex_token s = (k, raw, rest) -> k <> TBad -> s = raw +:+ rest /\ token_text k raw.
Proof.
  unfold lex_token. destruct s as [|c s]; [by intros [= <- _ _]|].
  destruct (is_punct c) eqn:Hp; [intros [= <- <- <-] _; split; [done|by apply punct_text]|].
  destruct (byte c =? 34) eqn:Hq.
  { assert (c = ascii_of_byte 34) as -> by (apply byte_inj; rewrite byte_ascii_of_byte; lia).
    destruct (lex_string s) as [[body rest']|] eqn:Hs; [|by intros [= <- _ _]]. intros [= <- <- <-] _.
    apply lex_string_spec in Hs as [-> Hs]. unfold quoted. rewrite !append_assoc. split; [done|].
    split_and!; [done|by do 2 eexists|]. intros t _. rewrite !append_assoc, dq_append.
    cbn [lex_token]. rewrite Hp, Hq. by rewrite Hs. }
  destruct ((byte c =? 45) || is_digit (byte c)) eqn:Hd.
  { destruct (lex_number (String c s)) as [[literal rest']|] eqn:Hs; [|by intros [= <- _ _]]. intros [= <- <- <-] _.
    apply lex_number_spec in Hs as (Heq & Hne & Hs). split; [done|]. destruct literal as [|c' literal]; [done|].
    cbn in Heq. injection Heq as <- ->. split_and!; [done| |].
    - do 2 eexists. split; [done|]. unfold json_space. byte_sets. lia.
    - intros t Ht. cbn [String.append lex_token]. rewrite Hp, Hq, Hd. cbn [follows String.append] in *. by rewrite (Hs t Ht). }
  destruct (HasPrefix (String c s) "true") eqn:Hw1.
  { intros [= <- <- <-] _. split; [by apply (lex_token_prefix "true")|]. split_and!; [done|by do 2 eexists|intros t _; cbn; by rewrite HasPrefix_nil]. }
  destruct (HasPrefix (String c s) "false") eqn:Hw2.
  { intros [= <- <- <-] _. split; [by apply (lex_token_prefix "false")|]. split_and!; [done|by do 2 eexists|intros t _; cbn; by rewrite HasPrefix_nil]. }
  destruct (HasPrefix (String c s) "null") eqn:Hw3; [|by intros [= <- _ _]].
  intros [= <- <- <-] _. split; [by apply (lex_token_prefix "null")|]. split_and!; [done|by do 2 eexists|intros t _; cbn; by rewrite HasPrefix_nil].
Qed.

(** ** Lemmas: token sequences *)

#[global] Arguments lex_token : simpl never.

Lemma span_space_spec s w rest : span_space s = (w, rest) ->
  s = w +:+ rest /\ (forall c s', rest = String c s' -> json_space (byte c) = false).
Proof.
  revert w rest. induction s as [|c s IH]; intros w rest; cbn [span_space]; [by intros [= <- <-]|].
  destruct (json_space (byte c)) eqn:Hc.
  - destruct (span_space s) as [w' rest'] eqn:Hs. intros [= <- <-]. destruct (IH _ _ eq_refl) as [-> IH']. done.
  - intros [= <- <-]. split; [done|]. by intros ? ? [= <- <-].
Qed.

Lemma length_append s t : String.length (s +:+ t) = (String.length s + String.length t)%nat.
Proof. induction s; simpl; congruence. Qed.

Lemma lex_token_length c s k raw rest : lex_token (String c s) = (k, raw, rest) ->
  k <> TBad -> (String.length rest <= String.length s)%nat.
Proof.
  intros Hl Hk. apply lex_token_spec in Hl as [Heq (_ & (c' & raw' & -> & _) & _)]; [|done].
  cbn in Heq. injection Heq as _ ->. rewrite length_append. lia.
Qed.

Lemma lex_from_enough fuel s : (String.length s < fuel)%nat -> lex_from fuel s = lex s.
Proof.
  assert (H : forall n fuel fuel' s, (String.length s <= n)%nat -> (String.length s < fuel)%nat ->
    (String.length s < fuel')%nat -> lex_from fuel s = lex_from fuel' s); [|intros; apply (H (String.length s)); lia].
  clear. induction n as [|n IH]; intros [|fuel] [|fuel'] s Hn Hf Hf'; try lia; cbn [lex_from].
  { destruct s; [done|simpl in Hn; lia]. }
  destruct (span_space s) as [w s1] eqn:Hs. apply span_space_spec in Hs as [-> Hs]. destruct s1 as [|c s1]; [done|].
  rewrite length_append in *. simpl in *. destruct (lex_token (String c s1)) as [[k raw] rest] eqn:Ht.
  f_equal. destruct k; try done; apply lex_token_length in Ht; try done; apply IH; lia.
Qed.

(** One token after another. *)
Lemma lex_step s :
  lex s = let '(space, s) := span_space s in
          match s with
          | EmptyString => []
          | _ => let '(kind, raw, rest) := lex_token s in
                 mkToken kind space raw :: match kind with TBad => [] | _ => lex rest end
          end.
Proof.
  unfold lex at 1. cbn [lex_from]. destruct (span_space s) as [w s1] eqn:Hs. apply span_space_spec in Hs as [-> Hs].
  destruct s1 as [|c s1]; [done|]. rewrite length_append.
  destruct (lex_token (String c s1)) as [[k raw] rest] eqn:Ht. f_equal.
  destruct k; try done; apply lex_token_length in Ht; try done; apply lex_from_enough; simpl; lia.
Qed.

#[global] Arguments lex : simpl never.

Lemma lex_ind (P : string -> list token -> Prop) :
  (forall w, span_space w = (w, EmptyString) -> P w []) ->
  (forall w c s raw, span_space (w +:+ String c s) = (w, String c s) ->
    lex_token (String c s) = (TBad, raw, EmptyString) -> P (w +:+ String c s) [mkToken TBad w raw]) ->
  (forall w k raw rest, span_space (w +:+ raw +:+ rest) = (w, raw +:+ rest) -> token_text k raw ->
    lex_token (raw +:+ rest) = (k, raw, rest) -> P rest (lex rest) ->
    P (w +:+ raw +:+ rest) (mkToken k w raw :: lex rest)) ->
  forall s, P s (lex s).
Proof.
  intros H0 Hbad Hgood s. remember (String.length s) as n eqn:Hn. revert s Hn.
  induction (lt_wf n) as [n _ IH]. intros s ->. rewrite lex_step.
  destruct (span_space s) as [w s1] eqn:Hs. pose proof (span_space_spec _ _ _ Hs) as [-> Hs1].
  destruct s1 as [|c s1].
  { rewrite append_nil_r in *. by apply H0. }
  destruct (lex_token (String c s1)) as [[k raw] rest] eqn:Ht.
  assert (Hk : k = TBad \/ k <> TBad) by (destruct k; (by left) || (by right)). destruct Hk as [-> | Hk].
  { apply Hbad; [done|]. revert Ht. unfold lex_token.
    repeat match goal with |- context [if ?b then _ else _] => destruct b end;
      try destruct (lex_string _) as [[? ?]|]; try destruct (lex_number _) as [[? ?]|]; intros [= <- <-]; done. }
  pose proof (lex_token_length _ _ _ _ _ Ht Hk) as Hlen. pose proof (lex_token_spec _ _ _ _ Ht Hk) as [Heq Htext].
  rewrite Heq in *. replace (match k with TBad => [] | _ => lex rest end) with (lex rest) by (by destruct k).
  apply Hgood; [done..|]. eapply IH; [|reflexivity]. rewrite <- Heq, length_append. simpl. lia.
Qed.

(** Every token but a bad one has its own text. *)
Definition good (t : token) : Prop := token_text (tk_kind t) (tk_raw t).

Lemma lex_good s : Forall (fun t => tk_kind t <> TBad -> good t) (lex s).
Proof.
  apply (lex_ind (fun _ ts => Forall (fun t => tk_kind t <> TBad -> good t) ts)).
  - intros. apply Forall_nil_2.
  - intros. apply Forall_cons_2; [done|apply Forall_nil_2].
  - intros. apply Forall_cons_2; done.
Qed.

(** The text behind the tokens, up to white space at the end. *)
Lemma lex_spaced s : Forall (fun t => tk_kind t <> TBad) (lex s) -> exists w, s = spaced (lex s) +:+ w.
Proof.
  apply (lex_ind (fun s ts => Forall (fun t => tk_kind t <> TBad) ts -> exists w, s = spaced ts +:+ w)).
  - intros w _ _. by exists w.
  - intros w c s' raw _ _ H. by inversion H.
  - intros w k raw rest _ _ _ IH H. inversion H as [|? ? _ Hr]; subst. destruct (IH Hr) as [w' Hw'].
    exists w'. cbn [spaced tk_space tk_raw]. rewrite !append_assoc. by rewrite <- Hw'.
Qed.

Lemma lex_text k raw t : token_text k raw -> follows k t -> lex (raw +:+ t) = mkToken k EmptyString raw :: lex t.
Proof.
  intros (Hk & (c & raw' & -> & Hc) & Ht) Hf. rewrite lex_step. cbn [String.append span_space]. rewrite Hc.
  specialize (Ht t Hf). cbn [String.append] in Ht. rewrite Ht. by destruct k.
Qed.

(** A sequence of tokens in which a number is only followed by punctuation. *)
Definition starts_punct (ks : list tkind) : Prop := match ks with TPunct _ :: _ => True | _ => False end.
Fixpoint sealed (ks : list tkind) : Prop :=
  match ks with
  | [] => True
  | k :: ks => match k with TNumber _ => ks = [] \/ starts_punct ks | TBad => False | _ => True end /\ sealed ks
  end.
Definition ends_number (ks : list tkind) : Prop := exists literal, last ks = Some (TNumber literal).

Lemma punct_stops c t : is_punct c = true -> stops (String c t).
Proof. unfold is_punct, stops. intros. byte_sets. lia. Qed.

Definition strip (t : token) : token := mkToken (tk_kind t) EmptyString (tk_raw t).

Lemma lex_render ts t :
  sealed (map tk_kind ts) -> Forall good ts -> (ends_number (map tk_kind ts) -> stops t) ->
  lex (render ts +:+ t) = map strip ts ++ lex t.
Proof.
  induction ts as [|[k w raw] ts IH]; [done|]. intros [Hk Hs] Hg Ht. inversion Hg as [|? ? Hraw Hg']; subst.
  cbn [render tk_raw map app]. rewrite append_assoc. unfold good in Hraw. cbn [tk_kind tk_raw] in *.
  rewrite (lex_text k raw); [|done|].
  - unfold strip at 1. cbn. f_equal. apply IH; [done..|]. intros [literal Hl]. apply Ht. exists literal.
    cbn [map tk_kind]. by destruct (map tk_kind ts).
  - destruct k; try done. cbn [follows]. destruct ts as [|[k' w' raw'] ts].
    + apply Ht. by exists literal.
    + destruct Hk as [? | Hk]; [done|]. cbn in Hk. destruct k' as [c| | | | |]; try done.
      inversion Hg' as [|? ? (_ & (c' & raw'' & Hc' & Hsp) & Hraw') _]; subst. cbn in Hc', Hraw'. subst raw'.
      cbn [render tk_raw String.append]. specialize (Hraw' EmptyString I). unfold lex_token in Hraw'. cbn in Hraw'.
      destruct (is_punct c') eqn:Hp; [by apply punct_stops|]. exfalso. revert Hraw'. clear.
      repeat match goal with |- context [if ?b then _ else _] => destruct b end;
        try destruct (lex_string _) as [[? ?]|]; try destruct (lex_number _) as [[? ?]|]; congruence.
Qed.

(** ** Lemmas: values *)

Lemma sealed_app xs ys :
  sealed xs -> sealed ys -> (ends_number xs -> ys = [] \/ starts_punct ys) -> sealed (xs ++ ys).
Proof.
  induction xs as [|k xs IH]; [done|]. intros [Hk Hx] Hy Hc. cbn [app sealed].
  assert (Hends : ends_number xs -> ends_number (k :: xs)) by (intros [l Hl]; exists l; by destruct xs).
  split; [|by apply IH; auto]. destruct k; try done. destruct xs as [|k' xs].
  - apply Hc. by exists literal.
  - destruct Hk as [? | Hk]; [done|]. by right.
Qed.

Lemma ends_number_cons k k' ks : ends_number (k :: k' :: ks) -> ends_number (k' :: ks).
Proof. done. Qed.

Lemma ends_number_app xs y ys : ends_number (xs ++ y :: ys) -> ends_number (y :: ys).
Proof. intros [l Hl]. exists l. by rewrite last_app_cons in Hl. Qed.

(** What a successful parse consumed: the tokens [pre], which parse alike whatever
    follows them. *)
Definition consumed {A} (f : list tkind -> option (A * list tkind)) (first : list tkind -> Prop)
    (ts : list tkind) (a : A) (ts' : list tkind) : Prop :=
  exists pre, ts = pre ++ ts' /\ pre <> [] /\ sealed pre /\ first pre /\ forall us, f (pre ++ us) = Some (a, us).

Lemma expect_Some c ts ts' : expect c ts = Some ts' -> ts = TPunct c :: ts'.
Proof. destruct ts as [|[c'| | | | |] ts]; try done. cbn. by destruct (Ascii.eqb_spec c' c) as [->|]; [intros [= ->]|]. Qed.

Lemma expect_cons c ts : expect c (TPunct c :: ts) = Some ts.
Proof. cbn. by rewrite Ascii.eqb_refl. Qed.

Lemma sealed_cons k ks : sealed ks -> k <> TBad -> (forall literal, k <> TNumber literal) -> sealed (k :: ks).
Proof. intros Hs Hb Hn. split; [|done]. destruct k; try done. by destruct (Hn literal). Qed.

Lemma ends_number_other k ks : (forall literal, k <> TNumber literal) -> ends_number (k :: ks) -> ends_number ks.
Proof. intros Hk. destruct ks as [|k' ks]; [|done]. intros [l [= ->]]. by destruct (Hk l). Qed.

(** A comma, when one is due. *)
Lemma comma_spec (comma : bool) ts ts' :
  (if comma then expect "," ts else Some ts) = Some ts' ->
  exists pre, ts = pre ++ ts' /\ pre = (if comma then [TPunct ","] else []).
Proof. destruct comma; [intros ->%expect_Some; by eexists [_]|intros [= ->]; by exists []]. Qed.

Definition closed_items (comma : bool) (pre : list tkind) : Prop :=
  ~ ends_number pre /\ (comma = true -> starts_punct pre).

Lemma expect_not_end c d ts us : c <> d -> expect c (TPunct d :: ts) = None /\ expect c (TPunct d :: us) = None.
Proof. intros H. cbn. destruct (Ascii.eqb_spec d c); [congruence|done]. Qed.

Lemma parse_local fuel :
  (forall ts v ts', parse_value fuel ts = Some (v, ts') ->
     consumed (parse_value fuel) (fun pre => ends_number pre -> exists literal, pre = [TNumber literal]) ts v ts')
  /\ (forall comma ts ms ts', parse_members fuel comma ts = Some (ms, ts') ->
     consumed (parse_members fuel comma) (closed_items comma) ts ms ts')
  /\ (forall comma ts vs ts', parse_elements fuel comma ts = Some (vs, ts') ->
     consumed (parse_elements fuel comma) (closed_items comma) ts vs ts').
Proof.
  induction fuel as [|fuel (IHv & IHm & IHe)]; [done|]. split_and!.
  - intros ts v ts'. cbn [parse_value]. intros H.
    destruct ts as [|[c|value|literal|b| |] ts]; try done.
    all: try (injection H as <- <-; eexists [_]; split_and!; [done|done|by split; auto| |done]; intros [? [=]]; subst; eauto).
    destruct (Ascii.eqb_spec c "{") as [->|Hc1]; [|destruct (Ascii.eqb_spec c "[") as [->|Hc2]; [|done]].
    + destruct (parse_members fuel false ts) as [[ms us]|] eqn:Hm; [|done]. injection H as <- <-.
      apply IHm in Hm as (pre & -> & Hne & Hs & [Hf _] & Hloc). exists (TPunct "{" :: pre).
      split_and!; [done|done|done| |intros us'; cbn; by rewrite Hloc].
      intros He. destruct Hf. by apply ends_number_other in He.
    + destruct (parse_elements fuel false ts) as [[ms us]|] eqn:Hm; [|done]. injection H as <- <-.
      apply IHe in Hm as (pre & -> & Hne & Hs & [Hf _] & Hloc). exists (TPunct "[" :: pre).
      split_and!; [done|done|done| |intros us'; cbn; by rewrite Hloc].
      intros He. destruct Hf. by apply ends_number_other in He.
  - intros comma ts ms ts'. cbn [parse_members]. destruct (expect "}" ts) as [us|] eqn:Hend.
    { intros [= <- <-]. apply expect_Some in Hend as ->. exists [TPunct "}"].
      split_and!; [done|done|by split|split; [by intros [? ?]|done]|done]. }
    destruct (if comma then _ else _) as [[|[|name| | | |] us]|] eqn:Hc; try done.
    apply comma_spec in Hc as (pc & -> & Hpc). destruct (expect ":" us) as [us'|] eqn:Hcolon; [|done].
    apply expect_Some in Hcolon as ->. destruct (parse_value fuel us') as [[v vs]|] eqn:Hv; [|done].
    apply IHv in Hv as (pv & -> & Hvne & Hvs & Hvn & Hvloc).
    destruct (parse_members fuel true vs) as [[ms' ws]|] eqn:Hm; [|done]. intros [= <- <-].
    apply IHm in Hm as (pm & -> & Hmne & Hms & [Hmn Hmp] & Hmloc).
    assert (Hsl : sealed (TString name :: TPunct ":" :: pv ++ pm)).
    { do 2 (apply sealed_cons; [|done..]). apply sealed_app; [done..|]. intros _. by right; apply Hmp. }
    assert (Hnn : ~ ends_number (TString name :: TPunct ":" :: pv ++ pm)).
    { intros He. do 2 (apply ends_number_other in He; [|done]). destruct pm as [|k pm]; [done|].
      by apply ends_number_app in He. }
    exists (pc ++ TString name :: TPunct ":" :: pv ++ pm). split_and!.
    + subst pc. destruct comma; cbn; by rewrite <- app_assoc.
    + by destruct pc.
    + subst pc. destruct comma; [|done]. by apply sealed_cons.
    + split; [|intros ->; by subst pc]. subst pc. destruct comma; [|done]. intros He.
      by apply ends_number_other in He.
    + intros xs. subst pc. destruct comma; cbn; rewrite <- app_assoc, Hvloc, Hmloc; done.
  - intros comma ts ms ts'. cbn [parse_elements]. destruct (expect "]" ts) as [us|] eqn:Hend.
    { intros [= <- <-]. apply expect_Some in Hend as ->. exists [TPunct "]"].
      split_and!; [done|done|by split|split; [by intros [? ?]|done]|done]. }
    destruct (if comma then _ else _) as [us|] eqn:Hc; try done.
    apply comma_spec in Hc as (pc & -> & Hpc). destruct (parse_value fuel us) as [[v vs]|] eqn:Hv; [|done].
    apply IHv in Hv as (pv & -> & Hvne & Hvs & Hvn & Hvloc).
    destruct (parse_elements fuel true vs) as [[ms' ws]|] eqn:Hm; [|done]. intros [= <- <-].
    apply IHe in Hm as (pm & -> & Hmne & Hms & [Hmn Hmp] & Hmloc).
    assert (Hsl : sealed (pv ++ pm)) by (apply sealed_app; [done..|]; intros _; by right; apply Hmp).
    assert (Hnn : ~ ends_number (pv ++ pm)).
    { intros He. destruct pm as [|k pm]; [done|]. by apply ends_number_app in He. }
    exists (pc ++ pv ++ pm). split_and!.
    + subst pc. destruct comma; cbn; by rewrite <- app_assoc.
    + destruct pc; [|done]. by destruct pv.
    + subst pc. destruct comma; [|done]. by apply sealed_cons.
    + split; [|intros ->; by subst pc]. subst pc. destruct comma; [|done]. intros He.
      by apply ends_number_other in He.
    + intros xs. subst pc. destruct comma; cbn [app].
      * rewrite (proj1 (expect_not_end "]" "," _ [] ltac:(done))), expect_cons. rewrite <- app_assoc, Hvloc, Hmloc. done.
      * assert (Hne : expect "]" ((pv ++ pm) ++ xs) = None).
        { destruct pv as [|k pv]; [done|]. cbn in Hend |- *. destruct k; try done. by destruct (Ascii.eqb _ _). }
        rewrite Hne, <- app_assoc, Hvloc, Hmloc. done.
Qed.

Lemma parse_value_shorter fuel ts v ts' : parse_value fuel ts = Some (v, ts') -> (length ts' < length ts)%nat.
Proof.
  intros H. apply (proj1 (parse_local fuel)) in H as (pre & -> & Hne & _). rewrite length_app.
  destruct pre; [done|]. simpl. lia.
Qed.

Lemma expect_shorter c ts ts' : expect c ts = Some ts' -> length ts = S (length ts').
Proof. by intros ->%expect_Some. Qed.

Lemma comma_shorter (comma : bool) ts ts' :
  (if comma then expect "," ts else Some ts) = Some ts' -> (length ts' <= length ts)%nat.
Proof. destruct comma; [intros H%expect_shorter; lia|by intros [= ->]]. Qed.

(** More fuel does not change what is parsed. *)
Lemma parse_enough fuel :
  (forall ts r, parse_value fuel ts = Some r ->
     forall m, (2 * length ts < m)%nat -> parse_value m ts = Some r)
  /\ (forall comma ts r, parse_members fuel comma ts = Some r ->
     forall m, (2 * length ts + 1 < m)%nat -> parse_members m comma ts = Some r)
  /\ (forall comma ts r, parse_elements fuel comma ts = Some r ->
     forall m, (2 * length ts + 1 < m)%nat -> parse_elements m comma ts = Some r).
Proof.
  induction fuel as [|fuel (IHv & IHm & IHe)]; [done|]. split_and!.
  - intros ts r H [|m] Hm; [lia|]. cbn [parse_value] in *. destruct ts as [|[c| | | | |] ts]; try done.
    cbn [length] in Hm. destruct (Ascii.eqb c "{"); [|destruct (Ascii.eqb c "["); [|done]].
    + destruct (parse_members fuel false ts) as [[ms us]|] eqn:E; [|done]. rewrite (IHm _ _ _ E m) by lia. done.
    + destruct (parse_elements fuel false ts) as [[ms us]|] eqn:E; [|done]. rewrite (IHe _ _ _ E m) by lia. done.
  - intros comma ts r H [|m] Hm; [lia|]. cbn [parse_members] in *. destruct (expect "}" ts); [done|].
    destruct (if comma then _ else _) as [[|[|name| | | |] us]|] eqn:Hc; try done. apply comma_shorter in Hc.
    destruct (expect ":" us) as [us'|] eqn:Hcolon; [|done]. apply expect_shorter in Hcolon. cbn [length] in Hc.
    destruct (parse_value fuel us') as [[v vs]|] eqn:Hv; [|done]. pose proof (parse_value_shorter _ _ _ _ Hv).
    rewrite (IHv _ _ Hv) by lia. destruct (parse_members fuel true vs) as [[ms ws]|] eqn:E; [|done].
    rewrite (IHm _ _ _ E) by lia. done.
  - intros comma ts r H [|m] Hm; [lia|]. cbn [parse_elements] in *. destruct (expect "]" ts); [done|].
    destruct (if comma then _ else _) as [us|] eqn:Hc; try done. apply comma_shorter in Hc.
    destruct (parse_value fuel us) as [[v vs]|] eqn:Hv; [|done]. pose proof (parse_value_shorter _ _ _ _ Hv).
    rewrite (IHv _ _ Hv) by lia. destruct (parse_elements fuel true vs) as [[ms ws]|] eqn:E; [|done].
    rewrite (IHe _ _ _ E) by lia. done.
Qed.

Lemma parse_value_parse fuel ts r : parse_value fuel ts = Some r -> parse ts = Some r.
Proof. intros H. apply (proj1 (parse_enough fuel) _ _ H). unfold parse_fuel. lia. Qed.

(** A parsed value parses alike in front of other tokens. *)
Lemma parse_app ts v us : parse ts = Some (v, []) -> parse (ts ++ us) = Some (v, us) /\ sealed ts.
Proof.
  intros H. apply (proj1 (parse_local _)) in H as (pre & Heq & _ & Hs & _ & Hloc). rewrite app_nil_r in Heq. subst pre.
  split; [|done]. by eapply parse_value_parse.
Qed.

(** ** Lemmas: validity and compaction *)

Lemma sealed_no_bad ks : sealed ks -> Forall (fun k => k <> TBad) ks.
Proof. induction ks as [|k ks IH]; [done|]. intros [Hk Hs]. constructor; [by destruct k|by apply IH]. Qed.

Lemma lex_all_good s : sealed (kinds s) -> Forall good (lex s).
Proof.
  intros Hs. apply sealed_no_bad in Hs. unfold kinds in Hs. rewrite Forall_map in Hs.
  pose proof (lex_good s) as Hg. revert Hs Hg. generalize (lex s). induction l as [|t l IH]; [done|].
  intros Hs Hg. inversion Hs; inversion Hg; subst. constructor; auto.
Qed.

Lemma kinds_strip ts : map tk_kind (map strip ts) = map tk_kind ts.
Proof. rewrite map_map. done. Qed.

Lemma render_strip ts : render (map strip ts) = render ts.
Proof. induction ts as [|t ts IH]; [done|]. cbn. by rewrite IH. Qed.

Lemma value_of_parse s v : value_of s = Some v -> parse (kinds s) = Some (v, []) /\ nesting v <= maxNestingDepth.
Proof.
  unfold value_of. destruct (parse (kinds s)) as [[v' [|? ?]]|]; try done.
  destruct (Z.leb_spec (nesting v') maxNestingDepth); [|done]. by intros [= ->].
Qed.

(** A compacted text has the tokens of the text and no white space. *)
Lemma Compact_spec s c : Compact s = Some c ->
  c = render (lex s) /\ lex c = map strip (lex s) /\ kinds c = kinds s /\ value_of c = value_of s
  /\ sealed (kinds s) /\ Forall good (lex s).
Proof.
  unfold Compact, Valid. destruct (value_of s) as [v|] eqn:Hv; [|done]. intros [= <-].
  pose proof (proj1 (value_of_parse _ _ Hv)) as Hp. destruct (parse_app _ _ [] Hp) as [_ Hs].
  pose proof (lex_all_good s Hs) as Hg. pose proof (lex_render (lex s) EmptyString Hs Hg) as Hl.
  rewrite append_nil_r in Hl. cbn in Hl. rewrite app_nil_r in Hl. specialize (Hl (fun _ => I)).
  assert (Hk : kinds (render (lex s)) = kinds s) by (unfold kinds; by rewrite Hl, kinds_strip).
  split_and!; try done. unfold value_of in *. by rewrite Hk, Hv.
Qed.

Lemma Compact_idempotent s c : Compact s = Some c -> Compact c = Some c.
Proof.
  intros H. destruct (Compact_spec _ _ H) as (-> & Hl & Hk & Hv & _). unfold Compact, Valid in *. rewrite Hv.
  destruct (value_of s); [|done]. by rewrite Hl, render_strip.
Qed.

Lemma len_render_spaced ts : len (render ts) <= len (spaced ts).
Proof.
  induction ts as [|t ts IH]; cbn [render spaced]; [done|]. rewrite !len_app. pose proof (len_nonneg (tk_space t)). lia.
Qed.

Lemma len_Compact s c : Compact s = Some c -> len c <= len s.
Proof.
  intros H. destruct (Compact_spec _ _ H) as (-> & _ & _ & _ & Hs & _). apply sealed_no_bad in Hs.
  unfold kinds in Hs. rewrite Forall_map in Hs. destruct (lex_spaced s Hs) as [w Hw]. rewrite Hw at 2.
  rewrite len_app. pose proof (len_render_spaced (lex s)). pose proof (len_nonneg w). lia.
Qed.

(** ** Lemmas: encoded strings and integers *)

Lemma escape_drop escape k s : escape_with escape false k s = escape_with escape true 0 (drop_bytes k s).
Proof. revert k. induction s as [|a s IH]; intros [|k]; [done..|]. apply IH. Qed.

Lemma escape_copy escape k s :
  escape_with escape true k s = take_bytes k s +:+ escape_with escape true 0 (drop_bytes k s).
Proof. revert k. induction s as [|a s IH]; intros [|k]; [done..|]. cbn. by rewrite IH. Qed.

Lemma unquote_drop k s : unquote_from false k s = unquote (drop_bytes k s).
Proof. revert k. induction s as [|a s IH]; intros [|k]; [done..|]. apply IH. Qed.

Lemma unquote_copy k s : unquote_from true k s = take_bytes k s +:+ unquote (drop_bytes k s).
Proof. revert k. induction s as [|a s IH]; intros [|k]; [done..|]. cbn. by rewrite IH. Qed.

(** A rune of several bytes: all of them are above 127, and they decode alike in front of
    other bytes. *)
Lemma DecodeRune_multi a s r n :
  DecodeRuneInString (String a s) = (r, n) -> 128 <= byte a -> valid_rune (r, n) = true ->
  forall_bytes (fun b => 128 <=? b) (take_bytes n (String a s)) = true
  /\ (forall x, DecodeRuneInString (take_bytes n (String a s) +:+ x) = (r, n))
  /\ ((r =? 8232) || (r =? 8233) = true -> take_bytes n (String a s) = encode_rune r /\ n = 3%nat).
Proof.
  unfold DecodeRuneInString, valid_rune, second_of_three, second_of_four, cont, between. intros H Ha Hv.
  replace (byte a <? 128) with false in H by lia.
  assert (Hbad : (r, n) <> (RuneError, 1%nat)) by (intros [= -> ->]; done). clear Hv.
  destruct s as [|a1 s]; [congruence|].
  destruct ((194 <=? byte a) && (byte a <=? 223) && _) eqn:H2.
  { injection H as <- <-. cbn [take_bytes forall_bytes String.append]. split_and!; [lia| |unfold RuneError in *; lia].
    intros x. replace (byte a <? 128) with false by lia. by rewrite H2. }
  destruct s as [|a2 s]; [congruence|].
  destruct ((224 <=? byte a) && (byte a <=? 239) && _ && _) eqn:H3.
  { injection H as <- <-. cbn [take_bytes forall_bytes String.append]. split_and!.
    - destruct (byte a =? 224), (byte a =? 237); lia.
    - intros x. replace (byte a <? 128) with false by lia. by rewrite H2, H3.
    - intros Hr. assert (byte a = 226 /\ byte a1 = 128 /\ (byte a2 = 168 \/ byte a2 = 169)) as (Ea & Ea1 & Ea2)
        by (destruct (byte a =? 224), (byte a =? 237); lia).
      rewrite Ea, Ea1. assert (a = ascii_of_byte 226) as -> by (apply byte_inj; by rewrite Ea).
      assert (a1 = ascii_of_byte 128) as -> by (apply byte_inj; by rewrite Ea1).
      destruct Ea2 as [Ea2 | Ea2]; rewrite Ea2;
        [assert (a2 = ascii_of_byte 168) as -> by (apply byte_inj; by rewrite Ea2)
        |assert (a2 = ascii_of_byte 169) as -> by (apply byte_inj; by rewrite Ea2)]; split; reflexivity. }
  destruct s as [|a3 s]; [congruence|].
  destruct ((240 <=? byte a) && (byte a <=? 244) && _ && _ && _) eqn:H4; [|congruence].
  injection H as <- <-. cbn [take_bytes forall_bytes String.append]. split_and!.
  - destruct (byte a =? 240), (byte a =? 244); lia.
  - intros x. replace (byte a <? 128) with false by lia. by rewrite H2, H3, H4.
  - destruct (byte a =? 240) eqn:?, (byte a =? 244) eqn:?; lia.
Qed.

(** Reading [piece] before [x]. *)
Definition lex_after (piece : string) (x : option (string * string)) : option (string * string) :=
  match x with Some (body, rest) => Some (piece +:+ body, rest) | None => None end.

(** What the encoder writes for one rune reads back as that rune. *)
Record piece_of (text piece : string) : Prop := {
  piece_lex x : lex_string (piece +:+ x) = lex_after piece (lex_string x);
  piece_unquote x : unquote (piece +:+ x) = text +:+ unquote x;
}.

Lemma escape_byte_plain_piece a : byte a < 128 -> piece_of (String a EmptyString) (escape_byte_plain (byte a)).
Proof.
  intros Ha. split; intros x; revert Ha; [|destruct x]; byte_cases a; intros Ha; try (by vm_compute in Ha); reflexivity.
Qed.

Lemma lex_string_high u x :
  forall_bytes (fun b => 128 <=? b) u = true -> lex_string (u +:+ x) = lex_after u (lex_string x).
Proof.
  induction u as [|a u IH]; [intros _; change (EmptyString +:+ x) with x; by destruct (lex_string x) as [[? ?]|]|]. cbn [forall_bytes]. intros [Ha Hu]%andb_prop.
  cbn [String.append lex_string].
  replace (byte a =? 34) with false by lia. replace (byte a =? 92) with false by lia.
  replace (byte a <? 32) with false by lia. rewrite (IH Hu). by destruct (lex_string x) as [[? ?]|].
Qed.

Lemma u202_piece r : (r =? 8232) || (r =? 8233) = true -> piece_of (encode_rune r) ("\u202" +:+ hex_digit (r mod 16)).
Proof. intros Hr. assert (r = 8232 \/ r = 8233) as [-> | ->] by lia; (split; intros x; [|destruct x]); reflexivity. Qed.

Lemma length_take_bytes k s : (k <= String.length s)%nat -> String.length (take_bytes k s) = k.
Proof. revert k. induction s as [|a s IH]; intros [|k] H; simpl in *; try lia. by rewrite IH; [|lia]. Qed.

Lemma take_drop_bytes k s : take_bytes k s +:+ drop_bytes k s = s.
Proof. revert k. induction s as [|a s IH]; intros [|k]; [done..|]. cbn. by rewrite IH. Qed.

Lemma escape_byte_plain_len b : 32 <= b < 127 -> len (escape_byte_plain b) <= 2.
Proof.
  intros Hb. unfold escape_byte_plain, escape_byte.
  repeat case_if; unfold len; simpl; try lia.
Qed.

(** The encoder goes rune by rune. *)
Lemma escape_plain_step a s r n :
  DecodeRuneInString (String a s) = (r, n) -> valid_rune (r, n) = true ->
  exists piece, piece_of (take_bytes n (String a s)) piece
    /\ escape_plain (String a s) = piece +:+ escape_plain (drop_bytes n (String a s))
    /\ (IsControl r = false -> len piece <= 2 * Z.of_nat n).
Proof.
  intros Hd Hv. unfold escape_plain. cbn [escape_with]. destruct (Z.ltb_spec (byte a) 128) as [Ha|Ha].
  - unfold DecodeRuneInString in Hd. replace (byte a <? 128) with true in Hd by lia. injection Hd as <- <-.
    cbn [take_bytes drop_bytes]. eexists. split_and!; [by apply escape_byte_plain_piece|done|].
    intros Hc. unfold IsControl, between in Hc. pose proof (byte_range a).
    apply (escape_byte_plain_len (byte a)). lia.
  - destruct (DecodeRune_multi _ _ _ _ Hd Ha Hv) as (Hhigh & Hdec & H202). rewrite Hd.
    unfold valid_rune in Hv. cbn [fst snd] in Hv. destruct ((r =? RuneError) && Nat.eqb n 1) eqn:Hbad; [done|].
    pose proof (DecodeRune_width a s) as Hw. cbv zeta in Hw. rewrite Hd in Hw. cbn [snd] in Hw.
    destruct n as [|n]; [lia|]. replace (S n - 1)%nat with n by lia. cbn [drop_bytes].
    destruct ((r =? 8232) || (r =? 8233)) eqn:Hr.
    + exists ("\u202" +:+ hex_digit (r mod 16)). destruct (H202 eq_refl) as [-> [= ->]]. split_and!; [by apply u202_piece|by rewrite append_assoc, escape_drop|].
      intros _. rewrite len_app, len_hex_digit. change (len "\u202") with 5. lia.
    + exists (take_bytes (S n) (String a s)). split_and!; [|by rewrite escape_copy|].
      2: { intros _. unfold len. rewrite length_take_bytes; simpl; lia. }
      split; intros x; [by apply lex_string_high|]. specialize (Hdec x). cbn [take_bytes String.append] in *.
      unfold unquote at 1. cbn [unquote_from]. replace (byte a =? 92) with false by lia.
      replace (byte a <? 128) with false by lia. rewrite Hdec.
      rewrite Hbad. f_equal. replace (S n - 1)%nat with (String.length (take_bytes n s)).
      2: { rewrite length_take_bytes; lia. }
      by rewrite unquote_copy, take_bytes_app, drop_bytes_app.
Qed.

Lemma ValidString_step a s r n : DecodeRuneInString (String a s) = (r, n) ->
  ValidString (String a s) = true -> valid_rune (r, n) = true /\ ValidString (drop_bytes n (String a s)) = true.
Proof. intros Hd. unfold ValidString. rewrite runes_step, Hd. cbn [forallb snd]. by intros [? ?]%andb_prop. Qed.

(** The encoded body of a valid string is a literal of that string. *)
Lemma escape_plain_literal s :
  ValidString s = true ->
  unquote (escape_plain s) = s /\ forall t, lex_string (escape_plain s +:+ dq +:+ t) = Some (escape_plain s, t).
Proof.
  induction s as [|a s IH] using runes_ind; [done|]. intros Hv.
  destruct (DecodeRuneInString (String a s)) as [r n] eqn:Hd. cbn [snd] in IH.
  destruct (ValidString_step _ _ _ _ Hd Hv) as [Hr Hrest]. destruct (IH Hrest) as [IHu IHl].
  destruct (escape_plain_step _ _ _ _ Hd Hr) as (piece & [Hl Hu] & -> & _). split.
  - by rewrite Hu, IHu, take_drop_bytes.
  - intros t. rewrite append_assoc, Hl, IHl. done.
Qed.

Lemma string_text s : ValidString s = true -> token_text (TString s) (json_string_plain s).
Proof.
  intros Hv. destruct (escape_plain_literal s Hv) as [Hu Hl]. split_and!; [done|by do 2 eexists|].
  intros t _. unfold json_string_plain, quoted. rewrite !append_assoc, dq_append. unfold lex_token.
  cbn -[escape_plain lex_string dq]. rewrite Hl. by rewrite Hu.
Qed.


(** Without control characters a string at most doubles. *)
Lemma len_escape_plain s :
  ValidString s = true -> forallb (fun rn => negb (IsControl rn.1)) (runes s) = true -> len (escape_plain s) <= 2 * len s.
Proof.
  induction s as [|a s IH] using runes_ind; [done|]. intros Hv Hc.
  destruct (DecodeRuneInString (String a s)) as [r n] eqn:Hd. cbn [snd] in IH.
  destruct (ValidString_step _ _ _ _ Hd Hv) as [Hr Hrest]. rewrite runes_step, Hd in Hc. cbn [forallb fst snd] in Hc.
  apply andb_prop in Hc as [Hc1 Hc2]. specialize (IH Hrest Hc2).
  destruct (escape_plain_step _ _ _ _ Hd Hr) as (piece & _ & -> & Hlen). rewrite len_app.
  pose proof (DecodeRune_width a s) as Hw. cbv zeta in Hw. rewrite Hd in Hw. cbn [snd] in Hw.
  specialize (Hlen ltac:(by destruct (IsControl r))).
  unfold len in *. rewrite length_drop_bytes in IH. cbn [String.length] in *. lia.
Qed.

Lemma len_json_string_plain s :
  ValidString s = true -> forallb (fun rn => negb (IsControl rn.1)) (runes s) = true ->
  len (json_string_plain s) <= 2 * len s + 2.
Proof. intros Hv Hc. unfold json_string_plain. rewrite len_quoted. pose proof (len_escape_plain s Hv Hc). lia. Qed.

(** *** Decimal numbers *)

Lemma digit_byte n : 0 <= n < 10 -> exists c, digit n = String c EmptyString /\ byte c = 48 + n.
Proof. intros Hn. eexists. split; [reflexivity|]. by rewrite byte_ascii_of_byte by lia. Qed.

Lemma format_digits fuel n : 0 <= n -> forall_bytes is_digit (format_uint_from fuel n) = true.
Proof.
  assert (Hd : forall m, 0 <= m < 10 -> forall_bytes is_digit (digit m) = true).
  { intros m Hm. destruct (digit_byte m Hm) as (c & -> & Hc). cbn. unfold is_digit, between. lia. }
  revert n. induction fuel as [|fuel IH]; intros n Hn; cbn [format_uint_from].
  - apply Hd, Z.mod_pos_bound. lia.
  - destruct (Z.ltb_spec n 10); [apply Hd; lia|]. rewrite forall_bytes_app, IH by (apply Z.div_pos; lia).
    apply Hd, Z.mod_pos_bound. lia.
Qed.

Lemma format_head fuel n : 0 < n < 10 ^ (Z.of_nat fuel + 1) ->
  exists c u, format_uint_from fuel n = String c u /\ between 49 57 (byte c) = true.
Proof.
  revert n. induction fuel as [|fuel IH]; intros n Hn; cbn [format_uint_from].
  - change (10 ^ (Z.of_nat 0 + 1)) with 10 in Hn. rewrite Z.mod_small by lia.
    destruct (digit_byte n ltac:(lia)) as (c & -> & Hc). do 2 eexists. split; [done|]. unfold between. lia.
  - destruct (Z.ltb_spec n 10).
    + destruct (digit_byte n ltac:(lia)) as (c & -> & Hc). do 2 eexists. split; [done|]. unfold between. lia.
    + destruct (IH (n / 10)) as (c & u & -> & Hc); [|by do 2 eexists].
      split; [apply Z.div_str_pos; lia|]. apply Z.div_lt_upper_bound; [lia|].
      replace (Z.of_nat (S fuel) + 1) with (Z.succ (Z.of_nat fuel + 1)) in Hn by lia.
      rewrite Z.pow_succ_r in Hn by lia. lia.
Qed.

Lemma span_digits_all u t : forall_bytes is_digit u = true -> no_digit t -> span_digits (u +:+ t) = (u, t).
Proof.
  induction u as [|c u IH]; cbn [forall_bytes String.append].
  - intros _ Ht. destruct t as [|c t]; [done|]. cbn. by rewrite (Ht c t).
  - intros [Hc Hu]%andb_prop Ht. cbn. by rewrite Hc, (IH Hu Ht).
Qed.

Lemma lex_number_digits u t :
  lex_natural (u +:+ t) = Some (u, t) -> (exists c u', u = String c u' /\ is_digit (byte c) = true) -> stops t ->
  lex_number (u +:+ t) = Some (u, t).
Proof.
  intros Hn (c & u' & -> & Hc) Ht. unfold lex_number. cbn [String.append] in *.
  replace (byte c =? 45) with false by (unfold is_digit, between in Hc; lia). rewrite Hn.
  destruct t as [|d t]; cbn -[byte_in]; [by rewrite append_nil_r|]. destruct Ht as (_ & Hdot & He).
  rewrite Hdot. cbn -[byte_in]. by rewrite He, append_nil_r.
Qed.

Lemma two64_digits : two64 <= 10 ^ (Z.of_nat 19 + 1).
Proof. vm_compute. discriminate. Qed.

Lemma uint_text n : 0 <= n < two64 -> token_text (TNumber (format_uint n)) (format_uint n).
Proof.
  intros Hn. pose proof two64_digits as H20.
  assert (Hhead : exists c u, format_uint n = String c u /\ is_digit (byte c) = true
            /\ forall t, stops t -> lex_natural (format_uint n +:+ t) = Some (format_uint n, t)).
  { destruct (Z.eq_dec n 0) as [->|Hne].
    - exists (ascii_of_byte 48), EmptyString. split_and!; [done..|]. intros t Ht. done.
    - destruct (format_head 19 n ltac:(lia)) as (c & u & Heq & Hc). unfold format_uint. exists c, u.
      split_and!; [done|unfold is_digit, between in *; lia|]. intros t Ht.
      pose proof (format_digits 19 n ltac:(lia)) as Hd. rewrite Heq in *. cbn [String.append]. unfold lex_natural.
      replace (byte c =? 48) with false by (unfold between in Hc; lia). rewrite Hc. f_equal.
      apply (span_digits_all (String c u)); [done|by apply stops_no_digit]. }
  destruct Hhead as (c & u & Heq & Hc & Hnat). split_and!; [done| |].
  - exists c, u. split; [done|]. unfold json_space, is_digit, between in *. lia.
  - intros t Ht. cbn [follows] in Ht. specialize (Hnat t Ht).
    pose proof (lex_number_digits _ _ Hnat ltac:(eauto) Ht) as Hl. rewrite Heq in *. cbn [String.append] in *.
    unfold lex_token. assert (is_punct c = false) as -> by (unfold is_punct; byte_sets; lia).
    replace (byte c =? 34) with false by (unfold is_digit, between in Hc; lia).
    rewrite Hc, orb_true_r. by rewrite Hl.
Qed.

(** ** Lemmas: the ends of a text *)

Lemma drop_bytes_append n u t : (n <= String.length u)%nat -> drop_bytes n (u +:+ t) = drop_bytes n u +:+ t.
Proof. revert n. induction u as [|a u IH]; intros [|n] H; simpl in *; try done; [lia|]. apply IH. lia. Qed.

(** A rune never reaches past an ASCII byte. *)
Lemma DecodeRune_before_ascii a u c t : byte c < 128 ->
  ((DecodeRuneInString (String a u +:+ String c t)).2 <= String.length (String a u))%nat.
Proof.
  intros Hc. cbn [String.append]. unfold DecodeRuneInString, second_of_three, second_of_four, cont, between.
  assert (Hcont : (128 <=? byte c) = false) by lia. assert (Hcont' : (144 <=? byte c) = false) by lia.
  assert (Hcont'' : (160 <=? byte c) = false) by lia.
  destruct (byte a <? 128); [simpl; lia|]. destruct u as [|a1 [|a2 [|a3 u]]]; cbn [String.append String.length];
    [destruct t as [|c1 [|c2 t]]|destruct t as [|c1 t]| |]; rewrite ?Hcont, ?Hcont', ?Hcont'', ?andb_false_r;
    repeat match goal with |- context [if byte a =? ?k then _ else _] => destruct (byte a =? k) end;
    rewrite ?andb_false_l, ?andb_false_r;
    repeat match goal with |- context [if ?b then (_, _) else _] => destruct b eqn:? end; simpl; lia.
Qed.

Lemma runes_snoc u c : byte c < 128 -> exists l, runes (u +:+ String c EmptyString) = l ++ [(byte c, 1%nat)].
Proof.
  intros Hc. remember (String.length u) as n eqn:Hn. revert u Hn. induction (lt_wf n) as [n _ IH]. intros [|a u] ->.
  { exists []. cbn [String.append app]. rewrite runes_step. unfold DecodeRuneInString.
    replace (byte c <? 128) with true by lia. done. }
  change (String a u +:+ String c EmptyString) with (String a (u +:+ String c EmptyString)). rewrite runes_step.
  pose proof (DecodeRune_before_ascii a u c EmptyString Hc) as Hle. cbn [String.append] in Hle.
  pose proof (DecodeRune_width a (u +:+ String c EmptyString)) as Hw. cbv zeta in Hw.
  set (d := DecodeRuneInString _) in *. change (String a (u +:+ String c EmptyString)) with (String a u +:+ String c EmptyString).
  rewrite drop_bytes_append by done. edestruct (IH (String.length (drop_bytes d.2 (String a u)))) as [l Hl]; [|done|].
  { rewrite length_drop_bytes. simpl in *. lia. }
  rewrite Hl. by exists (d :: l).
Qed.

(** [TrimSpace] does nothing between two visible ASCII bytes, and nothing but its work
    before one. *)
Definition visible (c : ascii) : Prop := 33 <= byte c < 127.

Lemma visible_not_space c : visible c -> IsSpace (byte c) = false.
Proof. unfold visible, IsSpace, between. lia. Qed.

Lemma TrimSpace_visible c d s u :
  visible c -> visible d -> String c s = u +:+ String d EmptyString -> TrimSpace (String c s) = String c s.
Proof.
  intros Hc Hd Heq. unfold TrimSpace. rewrite runes_step. unfold DecodeRuneInString.
  replace (byte c <? 128) with true by (unfold visible in Hc; lia). cbn [space_width].
  rewrite visible_not_space by done. cbn [drop_bytes].
  destruct (runes_snoc u d) as [l Hl]; [unfold visible in Hd; lia|]. rewrite Heq, Hl, rev_app_distr. cbn [rev app space_width].
  rewrite visible_not_space by done. rewrite Nat.sub_0_r. apply take_bytes_all.
Qed.

Lemma space_width_json w s c : forall_bytes json_space w = true -> visible c ->
  space_width (runes (w +:+ String c s)) = String.length w.
Proof.
  intros Hw Hc. induction w as [|a w IH].
  - cbn [String.append String.length]. rewrite runes_step. unfold DecodeRuneInString.
    replace (byte c <? 128) with true by (unfold visible in Hc; lia). cbn [space_width]. by rewrite visible_not_space.
  - cbn [forall_bytes] in Hw. apply andb_prop in Hw as [Ha Hw]. cbn [String.append String.length]. rewrite runes_step.
    unfold DecodeRuneInString. replace (byte a <? 128) with true by (unfold json_space in Ha; lia). cbn [space_width snd drop_bytes].
    replace (IsSpace (byte a)) with true by (unfold json_space, IsSpace, between in *; lia). by rewrite IH.
Qed.

Lemma TrimSpace_head w s c : forall_bytes json_space w = true -> visible c ->
  TrimSpace (w +:+ String c s) = EmptyString \/ exists t, TrimSpace (w +:+ String c s) = String c t.
Proof.
  intros Hw Hc. unfold TrimSpace. rewrite space_width_json by done. rewrite drop_bytes_app.
  destruct (_ - _)%nat as [|k]; [by left|right; by eexists].
Qed.

Lemma span_space_json s w rest : span_space s = (w, rest) -> forall_bytes json_space w = true.
Proof.
  revert w rest. induction s as [|c s IH]; intros w rest; cbn [span_space]; [by intros [= <- _]|].
  destruct (json_space (byte c)) eqn:Hc; [|by intros [= <- _]].
  destruct (span_space s) as [w' rest']. intros [= <- _]. cbn. rewrite Hc. by eapply IH.
Qed.

Lemma token_text_punct c raw : token_text (TPunct c) raw -> raw = String c EmptyString.
Proof.
  intros (_ & (c' & raw' & -> & _) & H). specialize (H EmptyString I). rewrite append_nil_r in H. revert H. unfold lex_token.
  destruct (is_punct c'); [by intros [= -> <- _]|].
  repeat match goal with |- context [if ?b then _ else _] => destruct b end;
    try destruct (lex_string _) as [[? ?]|]; try destruct (lex_number _) as [[? ?]|]; congruence.
Qed.

(** The head of a token is visible. *)
Lemma token_text_head k raw : token_text k raw -> exists c raw', raw = String c raw' /\ visible c.
Proof.
  intros (Hk & (c & raw' & -> & _) & H). exists c, raw'. split; [done|].
  destruct (decide (visible c)) as [|Hv]; [done|]. exfalso.
  assert (Hbad : forall t, (lex_token (String c t)).1.1 = TBad).
  { intros t. unfold lex_token, visible in *.
    assert (is_punct c = false) as -> by (unfold is_punct; byte_sets; lia).
    replace (byte c =? 34) with false by lia. replace ((byte c =? 45) || is_digit (byte c)) with false by (unfold is_digit, between; lia).
    assert (Hw : forall a w, 33 <= byte a < 127 -> HasPrefix (String c t) (String a w) = false).
    { intros a w Ha. cbn. destruct (Ascii.eqb_spec c a) as [->|]; [lia|done]. }
    by rewrite !Hw by (vm_compute; split; [discriminate|reflexivity]). }
  specialize (H EmptyString ltac:(by destruct k)). rewrite append_nil_r in H. specialize (Hbad raw').
  rewrite H in Hbad. done.
Qed.

(** ** Lemmas: texts of objects *)

Lemma parse_members_last fuel comma ts ms : parse_members fuel comma ts = Some (ms, []) -> last ts = Some (TPunct "}").
Proof.
  revert comma ts ms. induction fuel as [|fuel IH]; intros comma ts ms; [done|]. cbn [parse_members].
  destruct (expect "}" ts) as [us|] eqn:He.
  { intros [= <- ->]. by apply expect_Some in He as ->. }
  destruct (if comma then _ else _) as [[|[|name| | | |] us]|] eqn:Hc; try done.
  apply comma_spec in Hc as (pc & -> & _). destruct (expect ":" us) as [us'|] eqn:Hcolon; [|done].
  apply expect_Some in Hcolon as ->. destruct (parse_value fuel us') as [[v vs]|] eqn:Hv; [|done].
  destruct (parse_members fuel true vs) as [[ms' ws]|] eqn:Hm; [|done]. intros [= <- ->].
  apply (proj1 (parse_local fuel)) in Hv as (pv & -> & _). pose proof Hm as Hlast. apply IH in Hlast.
  destruct vs as [|k vs]; [done|]. change (TString name :: TPunct ":" :: pv ++ k :: vs) with
    ([TString name; TPunct ":"] ++ pv ++ k :: vs). by rewrite !app_assoc, last_app_cons.
Qed.

Lemma value_of_object_kinds s ms : value_of s = Some (JObject ms) ->
  exists ks, kinds s = TPunct "{" :: ks /\ last ks = Some (TPunct "}").
Proof.
  intros [H _]%value_of_parse. unfold parse, parse_fuel in H. cbn [parse_value] in H.
  destruct (kinds s) as [|[c| | | | |] ks]; try done. destruct (Ascii.eqb_spec c "{") as [->|].
  - destruct (parse_members _ false ks) as [[ms' us]|] eqn:Hm; [|done]. injection H as -> ->. exists ks. split; [done|].
    by eapply parse_members_last.
  - destruct (Ascii.eqb c "["); [|done]. by destruct (parse_elements _ false ks) as [[? ?]|].
Qed.

Lemma render_snoc ts t : render (ts ++ [t]) = render ts +:+ tk_raw t.
Proof. induction ts as [|u ts IH]; cbn; [by rewrite append_nil_r|]. by rewrite IH, append_assoc. Qed.

(** A compacted object begins and ends with its braces. *)
Lemma Compact_object s c ms : Compact s = Some c -> value_of s = Some (JObject ms) ->
  exists x y, c = String "{" x /\ c = y +:+ String "}" EmptyString.
Proof.
  intros Hc Hv. destruct (Compact_spec _ _ Hc) as (-> & _ & _ & _ & _ & Hg).
  destruct (value_of_object_kinds _ _ Hv) as (ks & Hk & Hlast). unfold kinds in Hk.
  destruct (lex s) as [|t ts]; [done|]. cbn [map] in Hk. injection Hk as Ht Hks. inversion Hg as [|? ? Hgt Hgts]; subst.
  unfold good in Hgt. rewrite Ht in Hgt. apply token_text_punct in Hgt.
  destruct ts as [|u ts' _] using rev_ind; [done|].
  rewrite map_app in Hlast. cbn [map] in Hlast. rewrite last_app_cons in Hlast. cbn in Hlast. injection Hlast as Hu.
  apply Forall_app in Hgts as [_ Hgu]. inversion Hgu as [|? ? Hgu' _]; subst. unfold good in Hgu'. rewrite Hu in Hgu'.
  apply token_text_punct in Hgu'. exists (render (ts' ++ [u])), (render (t :: ts')). split.
  - cbn [render]. by rewrite Hgt.
  - change (t :: ts' ++ [u]) with ((t :: ts') ++ [u]). by rewrite render_snoc, Hgu'.
Qed.

(** Trimming keeps the first byte of the first token at the head. *)
Lemma TrimSpace_first s v c t : value_of s = Some v -> TrimSpace s = String c t ->
  exists raw, render (lex s) = String c raw.
Proof.
  intros Hv Htrim. destruct (value_of_parse _ _ Hv) as [Hp _]. destruct (parse_app _ _ [] Hp) as [_ Hs].
  pose proof (lex_all_good s Hs) as Hg. unfold kinds in Hp.
  pose proof (lex_step s) as Hl. destruct (span_space s) as [w s1] eqn:Hsp.
  pose proof (span_space_json _ _ _ Hsp) as Hw. pose proof (span_space_spec _ _ _ Hsp) as [Heq _].
  destruct s1 as [|c1 s1]; [by rewrite Hl in Hp|]. destruct (lex_token (String c1 s1)) as [[k raw] rest] eqn:Ht.
  rewrite Hl in Hg. inversion Hg as [|? ? Hgt _]; subst. unfold good in Hgt. cbn [tk_kind tk_raw] in Hgt.
  assert (Hk : k <> TBad) by apply Hgt. destruct (lex_token_spec _ _ _ _ Ht Hk) as [Hraw _].
  destruct (token_text_head _ _ Hgt) as (c' & raw' & -> & Hvis). cbn in Hraw. injection Hraw as <- ->.
  assert (c1 = c) as ->.
  { destruct (TrimSpace_head w (raw' +:+ rest) c1 Hw Hvis) as [He | [t' He]]; rewrite He in Htrim; congruence. }
  rewrite Hl. cbn [render tk_raw String.append]. by eexists.
Qed.

Lemma kinds_punct c t : is_punct c = true -> kinds (String c t) = TPunct c :: kinds t.
Proof.
  intros H. unfold kinds. change (String c t) with (String c EmptyString +:+ t). by rewrite (lex_text (TPunct c)); [|apply punct_text|].
Qed.

(** A text that starts with a brace is an object. *)
Lemma value_of_brace t v : value_of (String "{" t) = Some v -> exists ms, v = JObject ms.
Proof.
  intros [Hp _]%value_of_parse. rewrite kinds_punct in Hp by done. unfold parse, parse_fuel in Hp. cbn [parse_value Ascii.eqb] in Hp.
  destruct (parse_members _ false _) as [[ms us]|]; [|done]. injection Hp as <- _. by exists ms.
Qed.

(** Reading a known sequence of members. *)
Lemma parse_first_member n name rest v rest' ms r :
  parse_value n rest = Some (v, rest') -> parse_members n true rest' = Some (ms, r) ->
  parse_members (S n) false (TString name :: TPunct ":" :: rest) = Some ((name, v) :: ms, r).
Proof. intros Hv Hm. cbn [parse_members expect]. rewrite Ascii.eqb_refl, Hv, Hm. done. Qed.

Lemma parse_next_member n name rest v rest' ms r :
  parse_value n rest = Some (v, rest') -> parse_members n true rest' = Some (ms, r) ->
  parse_members (S n) true (TPunct "," :: TString name :: TPunct ":" :: rest) = Some ((name, v) :: ms, r).
Proof.
  intros Hv Hm. cbn [parse_members]. rewrite (proj1 (expect_not_end "}" "," _ [] ltac:(done))), expect_cons.
  by rewrite expect_cons, Hv, Hm.
Qed.

Lemma parse_object n ts ms r : parse_members n false ts = Some (ms, r) ->
  parse_value (S n) (TPunct "{" :: ts) = Some (JObject ms, r).
Proof. intros H. cbn [parse_value]. by rewrite Ascii.eqb_refl, H. Qed.
