(* ===== verification/JsonNames.v ===== *)
(** * JSON names: exact and unambiguous object names

    Models [src/sdk/internal/jsonnames] ([RejectDuplicates], [RejectUnknownFields] and the
    fields a struct type accepts), [src/sdk/protocol/strictjson.go] and
    [ValidateJSONObject] of [src/sdk/protocol/validation.go]. The checks read a token
    stream; [Token] and [More] are the streaming decoder of [encoding/json], over the
    tokens of [JsonText]. Go types are descriptions ([rtype]) in a table of the named
    struct types, so that types may refer to themselves. *)

From Stdlib Require Import ZArith Lia.
From S2P Require Import Prelude GoStrings Protocol JsonText.

(** ** [encoding/json.Decoder], token by token *)

Inductive tokenState :=
  | tokenTopValue | tokenArrayStart | tokenArrayValue | tokenArrayComma
  | tokenObjectStart | tokenObjectKey | tokenObjectColon | tokenObjectValue | tokenObjectComma.

Record Decoder := mkDecoder { dec_tokens : list tkind; dec_state : tokenState; dec_stack : list tokenState }.
Definition NewDecoder (raw : string) : Decoder := mkDecoder (kinds raw) tokenTopValue [].

(** What [Token] returns; a number, a boolean and null are plain values to its callers. *)
Inductive jtoken := Delim (c : ascii) | NameOrString (s : string) | Scalar.

Definition EOF : error := Errorf "EOF" [].
Definition syntax_error : error := Errorf "invalid character in JSON text" [].

Definition tokenValueAllowed (st : tokenState) : bool :=
  match st with tokenTopValue | tokenArrayStart | tokenArrayValue | tokenObjectValue => true | _ => false end.
Definition tokenValueEnd (st : tokenState) : tokenState :=
  match st with
  | tokenArrayStart | tokenArrayValue => tokenArrayComma
  | tokenObjectValue => tokenObjectComma
  | _ => st
  end.

Definition value_token (t : jtoken) (st : tokenState) (stack : list tokenState) (ts : list tkind)
    : (jtoken * Decoder) + error :=
  if tokenValueAllowed st then inl (t, mkDecoder ts (tokenValueEnd st) stack) else inr syntax_error.

(** A closing delimiter: back to the enclosing value. *)
Definition close_token (c : ascii) (stack : list tokenState) (ts : list tkind) : (jtoken * Decoder) + error :=
  match stack with
  | st :: stack => inl (Delim c, mkDecoder ts (tokenValueEnd st) stack)
  | [] => inr syntax_error
  end.

Fixpoint token_from (st : tokenState) (stack : list tokenState) (ts : list tkind) : (jtoken * Decoder) + error :=
  match ts with
  | [] => inr EOF
  | TPunct c :: ts =>
    if Ascii.eqb c "[" then
      if tokenValueAllowed st then inl (Delim c, mkDecoder ts tokenArrayStart (st :: stack)) else inr syntax_error
    else if Ascii.eqb c "]" then
      match st with tokenArrayStart | tokenArrayComma => close_token c stack ts | _ => inr syntax_error end
    else if Ascii.eqb c "{" then
      if tokenValueAllowed st then inl (Delim c, mkDecoder ts tokenObjectStart (st :: stack)) else inr syntax_error
    else if Ascii.eqb c "}" then
      match st with tokenObjectStart | tokenObjectComma => close_token c stack ts | _ => inr syntax_error end
    else if Ascii.eqb c ":" then
      match st with tokenObjectColon => token_from tokenObjectValue stack ts | _ => inr syntax_error end
    else if Ascii.eqb c "," then
      match st with
      | tokenArrayComma => token_from tokenArrayValue stack ts
      | tokenObjectComma => token_from tokenObjectKey stack ts
      | _ => inr syntax_error
      end
    else inr syntax_error
  | TString value :: ts =>
    match st with
    | tokenObjectStart | tokenObjectKey => inl (NameOrString value, mkDecoder ts tokenObjectColon stack)
    | _ => value_token (NameOrString value) st stack ts
    end
  | TBad :: _ => inr syntax_error
  | _ :: ts => value_token Scalar st stack ts
  end.
Definition Token (d : Decoder) : (jtoken * Decoder) + error := token_from (dec_state d) (dec_stack d) (dec_tokens d).

Definition More (d : Decoder) : bool :=
  match dec_tokens d with
  | [] => false
  | TPunct c :: _ => negb (Ascii.eqb c "]" || Ascii.eqb c "}")
  | _ => true
  end.

(** ** Types *)

(** [RUnmarshaler] is a type of the given kind that, or whose pointer type, implements
    [json.Unmarshaler]; [ROther] has neither elements nor fields. A struct is named. *)
Inductive rtype :=
  | RPointer (element : rtype)
  | RStruct (name : string)
  | RMap (element : rtype)
  | RSlice (element : rtype)
  | RArray (element : rtype)
  | RUnmarshaler (kind : rtype)
  | ROther.

Record structField := mkStructField {
  sf_name : string;
  sf_type : rtype;
  sf_tag : string;
  sf_exported : bool;
  sf_anonymous : bool;
}.

Fixpoint structural (t : rtype) : option rtype :=
  match t with
  | RUnmarshaler _ => None
  | RPointer element => structural element
  | _ => Some t
  end.
Definition structuralType (value : option rtype) : option rtype := value ≫= structural.

Record fieldCandidate := mkCandidate {
  typeOf : rtype;
  fc_depth : Z;
  tagged : bool;
  ambiguous : bool;
}.

(** [unicode.IsLetter] and [unicode.IsDigit] on ASCII, where all tags of the sources are. *)
Definition ascii_letter (r : Z) : bool := between 65 90 r || between 97 122 r.
Definition ascii_digit (r : Z) : bool := between 48 57 r.

Section Fields.
(** The named struct types; and the Unicode letters and digits. *)
Context (types : string -> list structField) (IsLetter IsDigit : Z -> bool).

Definition tag_punctuation : string := "!#$%&()*+-./:;<=>?@[]^_{|}~ ".

Definition validTagName (name : string) : bool :=
  negb (name =s EmptyString)
  && forallb (fun rn => existsb (fun p => p.1 =? rn.1) (runes tag_punctuation) || IsLetter rn.1 || IsDigit rn.1)
       (runes name).

(** [Type.Kind] looks at the kind of a type, whatever methods the type has. *)
Fixpoint kind_of (t : rtype) : rtype := match t with RUnmarshaler kind => kind_of kind | _ => t end.
Definition underlying (t : rtype) : rtype :=
  match kind_of t with RPointer element => kind_of element | kind => kind end.

(** The name a field's tag gives it, when it is a valid one. *)
Definition tag_name (field : structField) : string :=
  let tag := hd EmptyString (split_byte "," (sf_tag field)) in
  if validTagName tag then tag else EmptyString.
Definition skipped (field : structField) : bool :=
  (negb (sf_exported field)
   && (negb (sf_anonymous field) || match underlying (sf_type field) with RStruct _ => false | _ => true end))
  || (hd EmptyString (split_byte "," (sf_tag field)) =s "-").

(** The rule between a candidate and what the name has so far. *)
Definition add_candidate (fields : gmap string fieldCandidate) (nc : string * fieldCandidate)
    : gmap string fieldCandidate :=
  let '(name, candidate) := nc in
  match fields !! name with
  | None => <[name := candidate]> fields
  | Some previous =>
    if (fc_depth candidate <? fc_depth previous)
       || ((fc_depth candidate =? fc_depth previous) && tagged candidate && negb (tagged previous))
    then <[name := candidate]> fields
    else if (fc_depth candidate =? fc_depth previous) && Bool.eqb (tagged candidate) (tagged previous)
    then <[name := mkCandidate (typeOf previous) (fc_depth previous) (tagged previous) true]> fields
    else fields
  end.

Fixpoint collectFields (fuel : nat) (value : string) (depth : Z) (ancestors : gset string)
    (fields : gmap string fieldCandidate) : gmap string fieldCandidate :=
  match fuel with
  | O => fields
  | S fuel =>
    if decide (value ∈ ancestors) then fields
    else
      foldl (fun fields field =>
        if skipped field then fields
        else
          let tag := tag_name field in
          match sf_anonymous field && (tag =s EmptyString), underlying (sf_type field) with
          | true, RStruct embedded => collectFields fuel embedded (depth + 1) ({[value]} ∪ ancestors) fields
          | _, _ =>
            let name := if tag =s EmptyString then sf_name field else tag in
            add_candidate fields
              (name, mkCandidate (sf_type field) depth (negb (tag =s EmptyString)) false)
          end) fields (types value)
  end.

(** The fields of the struct type [value], in a table of at most [fuel] types. *)
Definition jsonFields (fuel : nat) (value : string) : gmap string rtype :=
  omap (fun candidate => if ambiguous candidate then None else Some (typeOf candidate))
    (collectFields fuel value 0 ∅ ∅).
End Fields.

(** ** The checks *)

(** [fields]: the fields of a struct type. *)
Definition fieldTable : Type := string -> gmap string rtype.

Definition requireDelimiter (d : Decoder) (expected : ascii) : Decoder + error :=
  match Token d with
  | inr err => inr err
  | inl (Delim c, d) => if Ascii.eqb c expected then inl d else inr (Errorf "invalid JSON delimiter" [])
  | inl _ => inr (Errorf "invalid JSON delimiter" [])
  end.

Section Reject.
Context (fieldsOf : fieldTable).

Definition object_fields (target : option rtype) : option (gmap string rtype) :=
  match target with Some (RStruct name) => Some (fieldsOf name) | _ => None end.
Definition object_element (target : option rtype) : option rtype :=
  match target with Some (RMap element) => Some element | _ => None end.
Definition array_element (target : option rtype) : option rtype :=
  match target with Some (RSlice element) | Some (RArray element) => Some element | _ => None end.

(** The type of a member, [None] when the name is unknown. *)
Definition member_type (fields : option (gmap string rtype)) (element : option rtype) (name : string)
    : option (option rtype) :=
  match fields with
  | None => Some element
  | Some fields => match fields !! name with Some t => Some (Some t) | None => None end
  end.

(** [None] is running out of fuel. *)
Fixpoint rejectNames (fuel : nat) (target : option rtype) (d : Decoder) {struct fuel} : option (Decoder + error) :=
  match fuel with
  | O => None
  | S fuel =>
    let target := structuralType target in
    match Token d with
    | inr err => Some (inr err)
    | inl (Delim c, d) =>
      if Ascii.eqb c "{" then reject_members fuel (object_fields target) (object_element target) ∅ d
      else if Ascii.eqb c "[" then reject_elements fuel (array_element target) d
      else Some (inr (Errorf "invalid JSON delimiter" []))
    | inl (_, d) => Some (inl d)
    end
  end
with reject_members (fuel : nat) (fields : option (gmap string rtype)) (element : option rtype) (seen : gset string)
    (d : Decoder) {struct fuel} : option (Decoder + error) :=
  match fuel with
  | O => None
  | S fuel =>
    if More d then
      match Token d with
      | inr err => Some (inr err)
      | inl (NameOrString name, d) =>
        if decide (name ∈ seen) then Some (inr (Errorf "duplicate JSON object name %q" [EStr name]))
        else
          match member_type fields element name with
          | None => Some (inr (Errorf "json: unknown field %q" [EStr name]))
          | Some valueType =>
            match rejectNames fuel valueType d with
            | Some (inl d) => reject_members fuel fields element ({[name]} ∪ seen) d
            | r => r
            end
          end
      | inl _ => Some (inr (Errorf "JSON object name is invalid" []))
      end
    else Some (requireDelimiter d "}")
  end
with reject_elements (fuel : nat) (element : option rtype) (d : Decoder) {struct fuel} : option (Decoder + error) :=
  match fuel with
  | O => None
  | S fuel =>
    if More d then
      match rejectNames fuel element d with
      | Some (inl d) => reject_elements fuel element d
      | r => r
      end
    else Some (requireDelimiter d "]")
  end.

(** Twice the tokens is fuel enough (see [rejectNames_runs]). *)
Definition decoder_fuel (d : Decoder) : nat := parse_fuel (dec_tokens d).
Definition RejectUnknownFields (d : Decoder) (target : rtype) : option (Decoder + error) :=
  rejectNames (decoder_fuel d) (Some target) d.
End Reject.

Definition no_fields : fieldTable := fun _ => ∅.
Definition RejectDuplicates (d : Decoder) : option (Decoder + error) :=
  rejectNames no_fields (decoder_fuel d) None d.

(** ** Names of parsed values *)

Section NamesOf.
Context (fieldsOf : fieldTable).

(** The names of every object of a value are distinct, and the objects read into a
    struct have only its fields. *)
Fixpoint names_ok (target : option rtype) (v : jvalue) {struct v} : bool :=
  let target := structuralType target in
  match v with
  | JObject ms =>
    (fix members (seen : gset string) (ms : list (string * jvalue)) : bool :=
       match ms with
       | [] => true
       | (name, v) :: ms =>
         bool_decide (name ∉ seen)
         && match member_type (object_fields fieldsOf target) (object_element target) name with
            | Some t => names_ok t v
            | None => false
            end
         && members ({[name]} ∪ seen) ms
       end) ∅ ms
  | JArray vs => forallb (names_ok (array_element target)) vs
  | _ => true
  end.

Fixpoint members_ok (fields : option (gmap string rtype)) (element : option rtype) (seen : gset string)
    (ms : list (string * jvalue)) : bool :=
  match ms with
  | [] => true
  | (name, v) :: ms =>
    bool_decide (name ∉ seen)
    && match member_type fields element name with Some t => names_ok t v | None => false end
    && members_ok fields element ({[name]} ∪ seen) ms
  end.

Lemma names_ok_object target ms :
  names_ok target (JObject ms)
  = members_ok (object_fields fieldsOf (structuralType target)) (object_element (structuralType target)) ∅ ms.
Proof.
  cbn [names_ok]. generalize (∅ : gset string). induction ms as [|[name v] ms IH]; intros seen; [done|].
  cbn [members_ok]. by rewrite IH.
Qed.
End NamesOf.

(** ** Lemmas: the stream and the value agree *)

(** Which delimiter [c] is. *)
Ltac punct_cases c :=
  destruct (Ascii.eqb_spec c "[") as [->|?]; [|destruct (Ascii.eqb_spec c "]") as [->|?];
    [|destruct (Ascii.eqb_spec c "{") as [->|?]; [|destruct (Ascii.eqb_spec c "}") as [->|?];
      [|destruct (Ascii.eqb_spec c ":") as [->|?]; [|destruct (Ascii.eqb_spec c ",") as [->|?]]]]]].

Section Stream.
Context (fieldsOf : fieldTable).

(** The states in which a value may be read, with the separator due before it. *)
Definition before_value (st : tokenState) (ts : list tkind) : option (list tkind) :=
  match st with
  | tokenTopValue | tokenArrayStart | tokenArrayValue | tokenObjectValue => Some ts
  | tokenObjectColon => expect ":" ts
  | tokenArrayComma => expect "," ts
  | _ => None
  end.
(** The state in which the value itself is read. *)
Definition value_state (st : tokenState) : tokenState :=
  match st with tokenObjectColon => tokenObjectValue | tokenArrayComma => tokenArrayValue | _ => st end.
Definition after_value (st : tokenState) : tokenState := tokenValueEnd (value_state st).

Definition accepted (r : option (Decoder + error)) : option Decoder :=
  match r with Some (inl d) => Some d | _ => None end.

Definition checked {A} (ok : A -> bool) (st : tokenState) (stack : list tokenState) (r : option (A * list tkind))
    : option Decoder :=
  match r with Some (a, ts) => if ok a then Some (mkDecoder ts st stack) else None | None => None end.

(** Reading a value in a state that wants a separator first. *)
Lemma token_separator st stack ts ts1 :
  before_value st ts = Some ts1 -> token_from st stack ts = token_from (value_state st) stack ts1.
Proof. destruct st; try done; cbn; intros H; try (injection H as <-; done); apply expect_Some in H as ->; done. Qed.

Lemma expect_other c ts k : expect c (k :: ts) = None -> k <> TPunct c.
Proof. intros H ->. by rewrite expect_cons in H. Qed.

(** A missing separator is not made up for: no value is read. *)
Lemma rejectNames_no_separator fuel target st stack ts :
  st = tokenObjectColon \/ st = tokenArrayComma -> before_value st ts = None ->
  accepted (rejectNames fieldsOf fuel target (mkDecoder ts st stack)) = None.
Proof.
  intros Hst H. destruct fuel as [|fuel]; [done|]. cbn [rejectNames Token dec_state dec_stack dec_tokens].
  unfold Token. cbn [dec_state dec_stack dec_tokens].
  destruct Hst as [-> | ->]; cbn [before_value] in H; (destruct ts as [|[c| | | | |] ts]; [done| |done..]);
    apply expect_other in H; cbn [token_from];
    punct_cases c; try done; by destruct stack.
Qed.

(** In an object only a string can come next. *)
Lemma token_name (comma : bool) stack ts : expect "}" ts = None ->
  match token_from (if comma then tokenObjectComma else tokenObjectStart) stack ts with
  | inl (NameOrString name, d) => Some (name, d)
  | _ => None
  end
  = match (if comma then expect "," ts else Some ts) with
    | Some (TString name :: us) => Some (name, mkDecoder us tokenObjectColon stack)
    | _ => None
    end.
Proof.
  intros H. destruct ts as [|k ts]; [by destruct comma|]. pose proof (expect_other _ _ _ H) as Hk.
  destruct comma; [|destruct k as [c| | | | |]; try done; cbn [token_from]; punct_cases c; done].
  destruct k as [c| | | | |]; try done. cbn [token_from expect]. punct_cases c; try done.
  all: try (by destruct (Ascii.eqb_spec c ",")). clear.
  cbn [token_from Ascii.eqb]. destruct ts as [|[c| | | | |] ts]; try done. cbn [token_from]. punct_cases c; done.
Qed.

Lemma More_false fuel fields element seen (comma : bool) q stack ts :
  expect "}" ts = None -> More (mkDecoder ts (if comma then tokenObjectComma else tokenObjectStart) (q :: stack)) = false ->
  accepted (Some (requireDelimiter (mkDecoder ts (if comma then tokenObjectComma else tokenObjectStart) (q :: stack)) "}"))
  = checked (members_ok fieldsOf fields element seen) (tokenValueEnd q) stack
      match (if comma then expect "," ts else Some ts) with
      | Some (TString name :: ts) =>
        match expect ":" ts with
        | Some ts =>
          match parse_value fuel ts with
          | Some (v, ts) =>
            match parse_members fuel true ts with
            | Some (ms, ts) => Some ((name, v) :: ms, ts)
            | None => None
            end
          | None => None
          end
        | None => None
        end
      | _ => None
      end.
Proof.
  intros He Hm. destruct ts as [|k ts]; [by destruct comma|]. apply expect_other in He.
  destruct k as [c| | | | |]; try done. unfold More in Hm. cbn in Hm. punct_cases c; try done; by destruct comma.
Qed.

Lemma More_false_array fuel element (comma : bool) q stack ts :
  expect "]" ts = None -> More (mkDecoder ts (if comma then tokenArrayComma else tokenArrayStart) (q :: stack)) = false ->
  accepted (Some (requireDelimiter (mkDecoder ts (if comma then tokenArrayComma else tokenArrayStart) (q :: stack)) "]"))
  = checked (forallb (names_ok fieldsOf element)) (tokenValueEnd q) stack
      match (if comma then expect "," ts else Some ts) with
      | Some ts =>
        match parse_value fuel ts with
        | Some (v, ts) =>
          match parse_elements fuel true ts with Some (vs, ts) => Some (v :: vs, ts) | None => None end
        | None => None
        end
      | None => None
      end.
Proof.
  intros He Hm. destruct ts as [|k ts]; [destruct comma; by destruct fuel|]. apply expect_other in He.
  destruct k as [c| | | | |]; try done. unfold More in Hm. cbn in Hm. punct_cases c; try done; destruct comma; try done.
  by destruct fuel.
Qed.

Definition value_start (st : tokenState) : Prop :=
  st = tokenTopValue \/ st = tokenObjectColon \/ st = tokenArrayStart \/ st = tokenArrayComma.

Lemma rejectNames_accepts fuel :
  (forall target st stack ts, value_start st ->
     accepted (rejectNames fieldsOf fuel target (mkDecoder ts st stack))
     = match before_value st ts with
       | Some ts => checked (names_ok fieldsOf target) (after_value st) stack (parse_value fuel ts)
       | None => None
       end)
  /\ (forall fields element seen (comma : bool) q stack ts,
     accepted (reject_members fieldsOf fuel fields element seen
                 (mkDecoder ts (if comma then tokenObjectComma else tokenObjectStart) (q :: stack)))
     = checked (members_ok fieldsOf fields element seen) (tokenValueEnd q) stack (parse_members fuel comma ts))
  /\ (forall element (comma : bool) q stack ts,
     accepted (reject_elements fieldsOf fuel element
                 (mkDecoder ts (if comma then tokenArrayComma else tokenArrayStart) (q :: stack)))
     = checked (forallb (names_ok fieldsOf element)) (tokenValueEnd q) stack (parse_elements fuel comma ts)).
Proof.
  induction fuel as [|fuel (IHv & IHm & IHe)].
  { split_and!; try done. intros target st stack ts _. by destruct (before_value st ts). }
  split_and!.
  - intros target st stack ts Hst. destruct (before_value st ts) as [ts1|] eqn:Hb.
    2: { destruct Hst as [-> | [-> | [-> | ->]]]; try done; apply rejectNames_no_separator; auto. }
    cbn [rejectNames]. unfold Token. cbn [dec_state dec_stack dec_tokens].
    rewrite (token_separator _ _ _ _ Hb).
    assert (Hallowed : tokenValueAllowed (value_state st) = true)
      by (destruct Hst as [-> | [-> | [-> | ->]]]; done).
    assert (Hkey : value_state st <> tokenObjectStart /\ value_state st <> tokenObjectKey)
      by (destruct Hst as [-> | [-> | [-> | ->]]]; done).
    cbn [parse_value]. destruct ts1 as [|[c|value|literal|b| |] ts1]; try done.
    all: try (cbn [token_from]; unfold value_token; rewrite Hallowed; reflexivity).
    + cbn [token_from]. rewrite Hallowed. destruct (Ascii.eqb_spec c "{") as [->|Hc1].
      * cbn [Ascii.eqb]. specialize (IHm (object_fields fieldsOf (structuralType target))
          (object_element (structuralType target)) ∅ false (value_state st) stack ts1).
        cbn -[reject_members] in IHm |- *. rewrite IHm. unfold checked. destruct (parse_members fuel false ts1) as [[ms us]|]; [|done].
        by rewrite names_ok_object.
      * destruct (Ascii.eqb_spec c "[") as [->|Hc2].
        -- specialize (IHe (array_element (structuralType target)) false (value_state st) stack ts1).
           cbn -[reject_elements] in IHe |- *. rewrite IHe. unfold checked.
           by destruct (parse_elements fuel false ts1) as [[ms us]|].
        -- clear -Hst. destruct Hst as [-> | [-> | [-> | ->]]]; cbn [value_state]; punct_cases c; try done; by destruct stack.
    + clear -Hst. by destruct Hst as [-> | [-> | [-> | ->]]].
  - intros fields element seen comma q stack ts. cbn [reject_members parse_members].
    destruct (expect "}" ts) as [us|] eqn:Hend.
    { apply expect_Some in Hend as ->. by destruct comma. }
    pose proof (token_name comma (q :: stack) ts Hend) as Hname.
    destruct (More _) eqn:Hmore; [|by apply More_false].
    unfold Token. cbn [dec_state dec_stack dec_tokens].
    destruct (if comma then expect "," ts else Some ts) as [[|[|name| | | |] us]|] eqn:Hc.
    all: destruct (token_from _ (q :: stack) ts) as [[[c'|n'|] d']|err] eqn:Ht; try done.
    injection Hname as -> ->. destruct (decide (name ∈ seen)) as [Hin|Hin].
    { unfold checked. destruct (expect ":" us) as [us'|]; [|done]. destruct (parse_value fuel us') as [[v vs]|]; [|done].
      destruct (parse_members fuel true vs) as [[ms ws]|]; [|done]. cbn [members_ok].
      by rewrite bool_decide_false by (by intros ?). }
    assert (Hseen : bool_decide (name ∉ seen) = true) by (by apply bool_decide_true).
    destruct (member_type fields element name) as [t|] eqn:Ht'.
    2: { unfold checked. destruct (expect ":" us) as [us'|]; [|done]. destruct (parse_value fuel us') as [[v vs]|]; [|done].
         destruct (parse_members fuel true vs) as [[ms ws]|]; [|done]. cbn [members_ok]. by rewrite Hseen, Ht'. }
    specialize (IHv t tokenObjectColon (q :: stack) us ltac:(unfold value_start; auto)). cbn [before_value] in IHv.
    destruct (expect ":" us) as [us'|].
    2: { by destruct (rejectNames fieldsOf fuel t _) as [[?|?]|]. }
    destruct (parse_value fuel us') as [[v vs]|]; cbn [checked] in IHv.
    2: { by destruct (rejectNames fieldsOf fuel t _) as [[?|?]|]. }
    destruct (names_ok fieldsOf t v) eqn:Hok.
    + destruct (rejectNames fieldsOf fuel t _) as [[d|?]|]; try done. injection IHv as ->.
      specialize (IHm fields element ({[name]} ∪ seen) true q stack vs). cbn [after_value value_state tokenValueEnd] in *.
      rewrite IHm. unfold checked. destruct (parse_members fuel true vs) as [[ms ws]|]; [|done]. cbn [members_ok].
      by rewrite Hseen, Ht', Hok.
    + unfold checked. destruct (parse_members fuel true vs) as [[ms ws]|].
      * cbn [members_ok]. rewrite Hseen, Ht', Hok. by destruct (rejectNames fieldsOf fuel t _) as [[?|?]|].
      * by destruct (rejectNames fieldsOf fuel t _) as [[?|?]|].
  - intros element comma q stack ts. cbn [reject_elements parse_elements].
    destruct (expect "]" ts) as [us|] eqn:Hend.
    { apply expect_Some in Hend as ->. by destruct comma. }
    destruct (More _) eqn:Hmore; [|by apply More_false_array].
    specialize (IHv element (if comma then tokenArrayComma else tokenArrayStart) (q :: stack) ts
      ltac:(unfold value_start; destruct comma; auto)).
    assert (Hbv : before_value (if comma then tokenArrayComma else tokenArrayStart) ts = if comma then expect "," ts else Some ts)
      by (by destruct comma).
    rewrite Hbv in IHv. clear Hbv. destruct (if comma then expect "," ts else Some ts) as [us|].
    2: { by destruct (rejectNames fieldsOf fuel element _) as [[?|?]|]. }
    destruct (parse_value fuel us) as [[v vs]|]; cbn [checked] in IHv.
    2: { by destruct (rejectNames fieldsOf fuel element _) as [[?|?]|]. }
    destruct (names_ok fieldsOf element v) eqn:Hok.
    + destruct (rejectNames fieldsOf fuel element _) as [[d|?]|]; try done. injection IHv as ->.
      specialize (IHe element true q stack vs).
      replace (after_value (if comma then tokenArrayComma else tokenArrayStart)) with tokenArrayComma by (by destruct comma).
      rewrite IHe. unfold checked. destruct (parse_elements fuel true vs) as [[ms ws]|]; [|done]. cbn [forallb].
      by rewrite Hok.
    + unfold checked. destruct (parse_elements fuel true vs) as [[ms ws]|].
      * cbn [forallb]. rewrite Hok. by destruct (rejectNames fieldsOf fuel element _) as [[?|?]|].
      * by destruct (rejectNames fieldsOf fuel element _) as [[?|?]|].
Qed.
(** ** Termination *)

Definition tokens_left (d : Decoder) : nat := length (dec_tokens d).

Lemma Token_shorter d t d' : Token d = inl (t, d') -> (tokens_left d' < tokens_left d)%nat.
Proof.
  destruct d as [ts st stack]. unfold Token, tokens_left. cbn [dec_tokens dec_state dec_stack].
  revert st stack. induction ts as [|k ts IH]; intros st stack; [done|]. cbn [token_from length].
  assert (Hv : forall t0, value_token t0 st stack ts = inl (t, d') -> (length (dec_tokens d') < S (length ts))%nat).
  { intros t0. unfold value_token. destruct (tokenValueAllowed st); [|done]. intros [= _ <-]. simpl. lia. }
  destruct k as [c|value|literal|b| |]; try (by apply Hv); try done.
  - punct_cases c; cbn [Ascii.eqb]; destruct st; try done;
      try (destruct stack; [done|]); try (intros [= _ <-]; simpl; lia);
      intros H; eapply Nat.lt_lt_succ_r, IH, H.
  - destruct st; try (by apply Hv); intros [= _ <-]; simpl; lia.
Qed.

Lemma requireDelimiter_shorter d c d' : requireDelimiter d c = inl d' -> (tokens_left d' < tokens_left d)%nat.
Proof.
  unfold requireDelimiter. destruct (Token d) as [[t d1]|] eqn:Ht; [|done]. apply Token_shorter in Ht.
  destruct t as [c'|s|]; try done. destruct (Ascii.eqb c' c); [|done]. by intros [= <-].
Qed.

Lemma reject_shorter fuel :
  (forall target d d', rejectNames fieldsOf fuel target d = Some (inl d') -> (tokens_left d' < tokens_left d)%nat)
  /\ (forall fields element seen d d', reject_members fieldsOf fuel fields element seen d = Some (inl d') ->
        (tokens_left d' < tokens_left d)%nat)
  /\ (forall element d d', reject_elements fieldsOf fuel element d = Some (inl d') -> (tokens_left d' < tokens_left d)%nat).
Proof.
  induction fuel as [|fuel (IHv & IHm & IHe)]; [done|]. split_and!.
  - intros target d d'. cbn [rejectNames]. destruct (Token d) as [[t d1]|] eqn:Ht; [|done]. apply Token_shorter in Ht.
    destruct t as [c|s|]; [|by intros [= <-]..].
    destruct (Ascii.eqb c "{"); [intros H%IHm; lia|]. destruct (Ascii.eqb c "["); [intros H%IHe; lia|done].
  - intros fields element seen d d'. cbn [reject_members]. destruct (More d).
    2: { intros [= H]. by apply requireDelimiter_shorter in H. }
    destruct (Token d) as [[t d1]|] eqn:Ht; [|done]. apply Token_shorter in Ht. destruct t as [c|s|]; try done.
    destruct (decide _); [done|]. destruct (member_type _ _ _); [|done].
    destruct (rejectNames _ _ _ d1) as [[d2|?]|] eqn:Hv; try done. apply IHv in Hv. intros H%IHm. lia.
  - intros element d d'. cbn [reject_elements]. destruct (More d).
    2: { intros [= H]. by apply requireDelimiter_shorter in H. }
    destruct (rejectNames _ _ _ d) as [[d2|?]|] eqn:Hv; try done. apply IHv in Hv. intros H%IHe. lia.
Qed.

Lemma rejectNames_enough fuel :
  (forall target d, (2 * tokens_left d < fuel)%nat -> rejectNames fieldsOf fuel target d <> None)
  /\ (forall fields element seen d, (2 * tokens_left d + 1 < fuel)%nat ->
        reject_members fieldsOf fuel fields element seen d <> None)
  /\ (forall element d, (2 * tokens_left d + 1 < fuel)%nat -> reject_elements fieldsOf fuel element d <> None).
Proof.
  induction fuel as [|fuel (IHv & IHm & IHe)]; [split_and!; intros; lia|]. split_and!.
  - intros target d Hd. cbn [rejectNames]. destruct (Token d) as [[t d1]|] eqn:Ht; [|done]. apply Token_shorter in Ht.
    destruct t as [c|s|]; try done.
    destruct (Ascii.eqb c "{"); [apply IHm; lia|]. destruct (Ascii.eqb c "["); [apply IHe; lia|done].
  - intros fields element seen d Hd. cbn [reject_members]. destruct (More d); [|done].
    destruct (Token d) as [[t d1]|] eqn:Ht; [|done]. apply Token_shorter in Ht. destruct t as [c|s|]; try done.
    destruct (decide _); [done|]. destruct (member_type _ _ _); [|done].
    destruct (rejectNames _ _ _ d1) as [[d2|?]|] eqn:Hv; [|done|exfalso; revert Hv; apply IHv; lia].
    apply (proj1 (reject_shorter fuel)) in Hv. apply IHm. lia.
  - intros element d Hd. cbn [reject_elements]. destruct (More d); [|done].
    destruct (rejectNames _ _ _ d) as [[d2|?]|] eqn:Hv; [|done|exfalso; revert Hv; apply IHv; lia].
    apply (proj1 (reject_shorter fuel)) in Hv. apply IHe. lia.
Qed.

Lemma rejectNames_runs target d : rejectNames fieldsOf (decoder_fuel d) target d <> None.
Proof. apply (proj1 (rejectNames_enough _)). unfold decoder_fuel, parse_fuel, tokens_left. lia. Qed.

(** What the check accepts of a whole text, and where it leaves the decoder. *)
Lemma rejectNames_parse target raw :
  accepted (rejectNames fieldsOf (decoder_fuel (NewDecoder raw)) target (NewDecoder raw))
  = checked (names_ok fieldsOf target) tokenTopValue [] (parse (kinds raw)).
Proof.
  unfold NewDecoder. rewrite (proj1 (rejectNames_accepts _)) by (by left). reflexivity.
Qed.
End Stream.

(** ** Well-named values *)

(** Every object has distinct names and, where it is read into a struct, only the
    struct's fields. *)
Inductive well_named (fieldsOf : fieldTable) : option rtype -> jvalue -> Prop :=
  | named_scalar target v : (match v with JArray _ | JObject _ => False | _ => True end) -> well_named fieldsOf target v
  | named_array target vs :
    Forall (well_named fieldsOf (array_element (structuralType target))) vs -> well_named fieldsOf target (JArray vs)
  | named_object target ms :
    NoDup (map fst ms) ->
    Forall (fun m => exists t,
      member_type (object_fields fieldsOf (structuralType target)) (object_element (structuralType target)) m.1 = Some t
      /\ well_named fieldsOf t m.2) ms ->
    well_named fieldsOf target (JObject ms).

Section jvalue_induction.
Context (P : jvalue -> Prop).
Context (Hscalar : forall v, match v with JArray _ | JObject _ => False | _ => True end -> P v).
Context (Harray : forall vs, Forall P vs -> P (JArray vs)).
Context (Hobject : forall ms, Forall (fun m => P m.2) ms -> P (JObject ms)).

Fixpoint jvalue_nested_ind (v : jvalue) : P v :=
  match v with
  | JArray vs =>
    Harray vs ((fix go vs : Forall P vs :=
      match vs with [] => Forall_nil_2 P | v :: vs => Forall_cons_2 P v vs (jvalue_nested_ind v) (go vs) end) vs)
  | JObject ms =>
    Hobject ms ((fix go ms : Forall (fun m => P m.2) ms :=
      match ms with
      | [] => Forall_nil_2 _
      | m :: ms => Forall_cons_2 (fun m => P m.2) m ms (jvalue_nested_ind m.2) (go ms)
      end) ms)
  | v => Hscalar v I
  end.
End jvalue_induction.

Section WellNamed.
Context (fieldsOf : fieldTable).

Lemma members_ok_spec fields element seen ms :
  members_ok fieldsOf fields element seen ms = true
  <-> NoDup (map fst ms) /\ Forall (fun m => m.1 ∉ seen) ms
      /\ Forall (fun m => exists t, member_type fields element m.1 = Some t /\ names_ok fieldsOf t m.2 = true) ms.
Proof.
  revert seen. induction ms as [|[name v] ms IH]; intros seen; cbn [members_ok map].
  { split; [|done]. intros _. split_and!; [apply NoDup_nil_2|apply Forall_nil_2..]. }
  rewrite !andb_true_iff, bool_decide_eq_true, IH, NoDup_cons, !Forall_cons. cbn [fst snd].
  assert (Hfresh : Forall (fun m : string * jvalue => m.1 ∉ {[name]} ∪ seen) ms
                   <-> Forall (fun m : string * jvalue => m.1 ∉ seen) ms /\ name ∉ map fst ms).
  { rewrite !Forall_forall, list_elem_of_In, in_map_iff. split.
    - intros H. split; [intros m Hm; specialize (H m Hm); set_solver|].
      intros (m & Heq & Hm%list_elem_of_In). specialize (H m Hm). set_solver.
    - intros [H Hn] m Hm [Heq%elem_of_singleton | Hs]%elem_of_union; [|by apply (H m)].
      apply Hn. exists m. split; [done|by apply list_elem_of_In]. }
  rewrite Hfresh. destruct (member_type fields element name) as [t|]; naive_solver.
Qed.

Lemma names_ok_spec v : forall target, names_ok fieldsOf target v = true <-> well_named fieldsOf target v.
Proof.
  induction v as [v Hv|vs IH|ms IH] using jvalue_nested_ind; intros target.
  - split; [intros _; by apply named_scalar|]. intros _. by destruct v.
  - cbn [names_ok]. rewrite forallb_forall. split.
    + intros H. apply named_array, Forall_forall. intros v Hv. rewrite Forall_forall in IH.
      apply (IH v Hv), H. by apply list_elem_of_In.
    + intros H v Hv%list_elem_of_In. inversion H as [? ? Hf|? ? Hf|]; subst; [done|].
      rewrite Forall_forall in IH, Hf. by apply (IH v Hv), Hf.
  - rewrite names_ok_object, members_ok_spec. split.
    + intros (Hn & _ & Hm). apply named_object; [done|]. rewrite Forall_forall in *. intros m Hin.
      destruct (Hm m Hin) as (t & Ht & Hok). exists t. split; [done|]. by apply (IH m Hin).
    + intros H. inversion H as [? ? Hf| |? ? Hn Hm]; subst; [done|]. split_and!; [done| |].
      * apply Forall_forall. intros m _. set_solver.
      * rewrite Forall_forall in *. intros m Hin. destruct (Hm m Hin) as (t & Ht & Hok). exists t. split; [done|].
        by apply (IH m Hin).
Qed.
End WellNamed.

(** ** [strictjson.go] and [ValidateJSONObject] *)

Definition is_EOF (err : error) : bool := match err with Errorf format [] => format =s "EOF" | _ => false end.

(** [nil] when nothing but white space is left. *)
Definition requireEnd (d : Decoder) : option error :=
  match Token d with
  | inr err => if is_EOF err then None else Some err
  | inl _ => Some (Errorf "multiple JSON values are not allowed" [])
  end.

(** [Decoder.Decode] up to the typed conversion: the next value. *)
Definition decode_value (d : Decoder) : (jvalue * Decoder) + error :=
  match parse (dec_tokens d) with
  | Some (v, ts) =>
    if nesting v <=? maxNestingDepth then inl (v, mkDecoder ts (dec_state d) (dec_stack d)) else inr syntax_error
  | None => inr syntax_error
  end.

Definition names_error (r : option (Decoder + error)) : option error :=
  match r with Some (inl _) => None | Some (inr err) => Some err | None => Some syntax_error end.

Section Strict.
Context {T : Type} (fieldsOf : fieldTable) (target : rtype).
(** The typed conversion of a value, with the tokens of the text for raw fields. *)
Context (convert : list token -> jvalue -> T + error).

Definition decodeStrict (raw : string) : T + error :=
  if len raw =? 0 then inr (Errorf "JSON value is required" [])
  else
    match names_error (RejectUnknownFields fieldsOf (NewDecoder raw) target) with
    | Some err => inr err
    | None =>
      match decode_value (NewDecoder raw) with
      | inr err => inr err
      | inl (v, decoder) =>
        match convert (lex raw) v with
        | inr err => inr err
        | inl value =>
          match requireEnd decoder with Some err => inr err | None => inl value end
        end
      end
    end.
End Strict.
Definition DecodeStrict {T} := @decodeStrict T.

Definition rejectDuplicateNames (raw : string) : option error :=
  match RejectDuplicates (NewDecoder raw) with
  | Some (inl decoder) => requireEnd decoder
  | r => names_error r
  end.

Definition first_last_braces (trimmed : string) : bool :=
  match trimmed with
  | String c _ => Ascii.eqb c "{" && HasSuffix trimmed "}"
  | EmptyString => false
  end.

Definition ValidateJSONObject (name : string) (raw : string) (optional : bool) : option error :=
  if len raw =? 0 then (if optional then None else Some (Errorf "%s is required" [EStr name]))
  else if MaxJSONObjectBytes <? len raw
  then Some (Errorf "%s exceeds %d bytes" [EStr name; EInt MaxJSONObjectBytes])
  else
    let trimmed := TrimSpace raw in
    if (len trimmed <? 2) || negb (first_last_braces trimmed) || negb (Valid trimmed)
    then Some (Errorf "%s must be one JSON object" [EStr name])
    else
      match rejectDuplicateNames trimmed with
      | Some err => Some (Wrapf "%s must be unambiguous: %w" [EStr name] err)
      | None => None
      end.

(** Reading a value into a struct without fields, unknown fields refused. *)
Definition convert_no_fields (_ : list token) (v : jvalue) : unit + error :=
  match v with
  | JNull | JObject [] => inl tt
  | JObject ((name, _) :: _) => inr (Errorf "json: unknown field %q" [EStr name])
  | _ => inr (Errorf "json: cannot unmarshal into Go value of type struct {}" [])
  end.

Definition ValidateEmptyParams (raw : string) : option error :=
  if len raw =? 0 then None
  else
    match ValidateJSONObject "params" raw false with
    | Some err => Some err
    | None =>
      match DecodeStrict no_fields (RPointer (RStruct "struct {}")) convert_no_fields raw with
      | inl _ => None
      | inr err => Some err
      end
    end.

(** ** Which fields a struct type accepts *)

Section Dominance.
Context (types : string -> list structField) (IsLetter IsDigit : Z -> bool).

(** The candidates in the order of the traversal. *)
Fixpoint candidates (fuel : nat) (value : string) (depth : Z) (ancestors : gset string)
    : list (string * fieldCandidate) :=
  match fuel with
  | O => []
  | S fuel =>
    if decide (value ∈ ancestors) then []
    else
      concat (map (fun field =>
        if skipped field then []
        else
          let tag := tag_name IsLetter IsDigit field in
          match sf_anonymous field && (tag =s EmptyString), underlying (sf_type field) with
          | true, RStruct embedded => candidates fuel embedded (depth + 1) ({[value]} ∪ ancestors)
          | _, _ => [(if tag =s EmptyString then sf_name field else tag,
                      mkCandidate (sf_type field) depth (negb (tag =s EmptyString)) false)]
          end) (types value))
  end.

Lemma collectFields_candidates fuel value depth ancestors fields :
  collectFields types IsLetter IsDigit fuel value depth ancestors fields
  = foldl add_candidate fields (candidates fuel value depth ancestors).
Proof.
  revert value depth ancestors fields. induction fuel as [|fuel IH]; intros value depth ancestors fields; [done|].
  cbn [collectFields candidates]. destruct (decide _); [done|]. revert fields.
  induction (types value) as [|field l IHl]; intros fields; [done|]. cbn [foldl map concat]. rewrite foldl_app, IHl. f_equal.
  destruct (skipped field); [done|].
  destruct (sf_anonymous field && _); [|done]. by destruct (underlying (sf_type field)).
Qed.

(** One candidate hides another: it is shallower, or as deep and tagged. *)
Definition hides (c c' : fieldCandidate) : bool :=
  (fc_depth c <? fc_depth c') || ((fc_depth c =? fc_depth c') && tagged c && negb (tagged c')).
(** Neither hides the other. *)
Definition ties (c c' : fieldCandidate) : bool :=
  (fc_depth c =? fc_depth c') && Bool.eqb (tagged c) (tagged c').

Definition of_name (name : string) (cs : list (string * fieldCandidate)) : list fieldCandidate :=
  map snd (List.filter (fun nc => nc.1 =s name) cs).

(** What the table holds for a name after some candidates: the first that none hides,
    and whether another ties with it. *)
Definition leads (p : option fieldCandidate) (cs : list fieldCandidate) : Prop :=
  match p with
  | None => cs = []
  | Some p => exists l1 c l2, cs = l1 ++ c :: l2
      /\ typeOf p = typeOf c /\ fc_depth p = fc_depth c /\ tagged p = tagged c
      /\ Forall (fun c' => hides c c' = true) l1
      /\ Forall (fun c' => hides c c' || ties c c' = true) l2
      /\ ambiguous p = existsb (ties c) l2
  end.

Definition clean (nc : string * fieldCandidate) : Prop := ambiguous nc.2 = false.

Lemma of_name_app name cs cs' : of_name name (cs ++ cs') = of_name name cs ++ of_name name cs'.
Proof. unfold of_name. by rewrite List.filter_app, map_app. Qed.

Lemma hides_trans_ties c c' d : hides d c = true -> hides c c' || ties c c' = true -> hides d c' = true.
Proof. unfold hides, ties. destruct (tagged c), (tagged c'), (tagged d); simpl; lia. Qed.

Lemma Forall_hides_trans c d l : hides d c = true -> Forall (fun c' => hides c c' || ties c c' = true) l ->
  Forall (fun c' => hides d c' = true) l.
Proof. intros Hd Hl. eapply Forall_impl; [exact Hl|]. intros c' Hc'. by eapply hides_trans_ties. Qed.

Lemma hides_not_ties c c' : hides c c' = true -> ties c c' = false.
Proof. unfold hides, ties. destruct (tagged c), (tagged c'); simpl; lia. Qed.

Lemma hides_or c c' : hides c c' = true -> hides c c' || ties c c' = true.
Proof. by intros ->. Qed.

Lemma add_candidate_leads fields cs nc :
  clean nc -> (forall name, leads (fields !! name) (of_name name cs)) ->
  forall name, leads (add_candidate fields nc !! name) (of_name name (cs ++ [nc])).
Proof.
  destruct nc as [n c]. intros Hclean H name. rewrite of_name_app. unfold clean in Hclean. cbn [snd] in Hclean.
  unfold of_name at 2. cbn [List.filter map fst snd]. destruct (String.eqb_spec n name) as [->|Hne].
  2: { cbn [map]. rewrite app_nil_r. unfold add_candidate. specialize (H name).
       destruct (fields !! n) as [p|]; [|by rewrite lookup_insert_ne].
       repeat case_if; by rewrite ?lookup_insert_ne. }
  specialize (H name). cbn [map snd]. unfold add_candidate. destruct (fields !! name) as [p|] eqn:Hp.
  2: { cbn [leads] in H. rewrite H, lookup_insert_eq. exists [], c, []. by split_and!. }
  destruct H as (l1 & d & l2 & -> & Hty & Hdep & Htag & Hl1 & Hl2 & Hamb). rewrite Hdep, Htag.
  fold (hides c d). destruct (hides c d) eqn:Hcd.
  - rewrite lookup_insert_eq. exists (l1 ++ d :: l2), c, []. split_and!; try done.
    apply Forall_app_2; [|apply Forall_cons_2; [done|by eapply Forall_hides_trans]].
    eapply Forall_hides_trans; [exact Hcd|]. eapply Forall_impl; [exact Hl1|]. intros. by apply hides_or.
  - assert (Heq : (fc_depth c =? fc_depth d) && Bool.eqb (tagged c) (tagged d) = ties d c).
    { unfold ties. rewrite (Z.eqb_sym (fc_depth d)). by destruct (tagged c), (tagged d). }
    rewrite Heq. destruct (ties d c) eqn:Htie.
    + rewrite lookup_insert_eq. exists l1, d, (l2 ++ [c]). split_and!; try done; cbn [typeOf fc_depth tagged ambiguous].
      * by rewrite <- app_assoc.
      * apply Forall_app_2; [done|]. apply Forall_cons_2; [|apply Forall_nil_2]. by rewrite Htie, orb_true_r.
      * rewrite existsb_app. cbn. by rewrite Htie, orb_true_r.
    + rewrite Hp. exists l1, d, (l2 ++ [c]). split_and!; try done.
      * by rewrite <- app_assoc.
      * apply Forall_app_2; [done|]. apply Forall_cons_2; [|apply Forall_nil_2]. rewrite Htie, orb_false_r.
        revert Hcd Htie. unfold hides, ties. destruct (tagged c), (tagged d); simpl; lia.
      * rewrite existsb_app. cbn. by rewrite Htie, !orb_false_r.
Qed.

Lemma candidates_clean fuel value depth ancestors : Forall clean (candidates fuel value depth ancestors).
Proof.
  revert value depth ancestors. induction fuel as [|fuel IH]; intros value depth ancestors; [apply Forall_nil_2|].
  cbn [candidates]. destruct (decide _); [apply Forall_nil_2|].
  induction (types value) as [|field l IHl]; [apply Forall_nil_2|]. cbn [map concat]. apply Forall_app_2; [|exact IHl].
  destruct (skipped field); [apply Forall_nil_2|].
  destruct (sf_anonymous field && _); [destruct (underlying (sf_type field))|]; try apply IH;
    (apply Forall_cons_2; [done|apply Forall_nil_2]).
Qed.

Lemma collectFields_leads fuel value name :
  leads (collectFields types IsLetter IsDigit fuel value 0 ∅ ∅ !! name) (of_name name (candidates fuel value 0 ∅)).
Proof.
  rewrite collectFields_candidates. pose proof (candidates_clean fuel value 0 ∅) as Hclean.
  assert (H : forall cs done fields, Forall clean cs ->
    (forall name, leads (fields !! name) (of_name name done)) ->
    forall name, leads (foldl add_candidate fields cs !! name) (of_name name (done ++ cs))).
  { induction cs as [|nc cs IH]; intros done fields Hc Hf n; [by rewrite app_nil_r|]. inversion Hc; subst.
    cbn [foldl]. rewrite cons_middle, app_assoc. apply IH; [done|]. by apply add_candidate_leads. }
  apply (H _ []); [done|]. intros n. by rewrite lookup_empty.
Qed.
End Dominance.

Lemma app_cons_cases {A} (l1 l2 k1 k2 : list A) d c :
  l1 ++ d :: l2 = k1 ++ c :: k2 -> (l1 = k1 /\ d = c /\ l2 = k2) \/ (d ∈ k1 ++ k2 /\ c ∈ l1 ++ l2).
Proof.
  revert k1. induction l1 as [|x l1 IH]; intros [|y k1]; cbn [app]; intros [= -> Heq].
  - by left.
  - right. subst. split; set_solver.
  - right. subst. split; set_solver.
  - destruct (IH k1 Heq) as [(-> & -> & ->) | [Hd Hc]]; [by left|right]. set_solver.
Qed.

(** C17: the fields a struct type accepts are exactly those the rule of [encoding/json]
    gives: a name is accepted, with a type, when of the candidates for it, taken through
    embedded structs, one hides all others, being shallower or as deep and the only one
    with a tag. *)
Theorem jsonFields_dominant types IsLetter IsDigit fuel value name t :
  jsonFields types IsLetter IsDigit fuel value !! name = Some t
  <-> exists l1 c l2, of_name name (candidates types IsLetter IsDigit fuel value 0 ∅) = l1 ++ c :: l2
        /\ typeOf c = t /\ Forall (fun c' => hides c c' = true) (l1 ++ l2).
Proof.
  unfold jsonFields. rewrite lookup_omap. pose proof (collectFields_leads types IsLetter IsDigit fuel value name) as H.
  destruct (collectFields types IsLetter IsDigit fuel value 0 ∅ ∅ !! name) as [p|]; cbn [leads mbind option_bind] in *.
  2: { rewrite H. split; [done|]. intros (l1 & c & l2 & Heq & _). by destruct l1. }
  destruct H as (l1 & d & l2 & -> & Hty & _ & _ & Hl1 & Hl2 & Hamb). split.
  - destruct (ambiguous p); [done|]. intros [= <-]. exists l1, d, l2. split_and!; try done. apply Forall_app_2; [done|].
    rewrite Forall_forall in Hl2 |- *. intros c' Hc'. specialize (Hl2 c' Hc').
    destruct (hides d c') eqn:Hh; [done|]. exfalso. symmetry in Hamb. apply not_true_iff_false in Hamb. apply Hamb.
    apply existsb_exists. exists c'. split; [by apply list_elem_of_In|done].
  - intros (k1 & c & k2 & Heq & <- & Hh). rewrite Forall_forall in Hh, Hl1, Hl2.
    destruct (app_cons_cases _ _ _ _ _ _ Heq) as [(-> & -> & ->) | [Hd Hc]].
    + rewrite Hty. destruct (ambiguous p); [|done]. exfalso. symmetry in Hamb.
      apply existsb_exists in Hamb as (c' & Hc'%list_elem_of_In & Ht). specialize (Hh c' ltac:(set_solver)).
      by rewrite (hides_not_ties _ _ Hh) in Ht.
    + exfalso. specialize (Hh d Hd). assert (Hdc : hides d c || ties d c = true).
      { apply elem_of_app in Hc as [Hc|Hc]; [by rewrite (Hl1 c Hc)|by apply Hl2]. }
      revert Hh Hdc. unfold hides, ties. destruct (tagged c), (tagged d); simpl; lia.
Qed.

(** In a table closed under embedding, one more step than it has types is fuel enough:
    recursion through embedded structs ends. *)
Lemma candidates_enough types IsLetter IsDigit (universe : gset string) :
  (forall value field embedded, value ∈ universe -> field ∈ types value ->
     underlying (sf_type field) = RStruct embedded -> embedded ∈ universe) ->
  forall fuel fuel' value depth ancestors, value ∈ universe ->
    (size (universe ∖ ancestors) < fuel)%nat -> (size (universe ∖ ancestors) < fuel')%nat ->
    candidates types IsLetter IsDigit fuel value depth ancestors
    = candidates types IsLetter IsDigit fuel' value depth ancestors.
Proof.
  intros Hclosed. induction fuel as [|fuel IH]; intros [|fuel'] value depth ancestors Hv Hf Hf'; try lia.
  cbn [candidates]. destruct (decide (value ∈ ancestors)) as [|Hn]; [done|].
  assert (Hsize : (size (universe ∖ ({[value]} ∪ ancestors)) < size (universe ∖ ancestors))%nat)
    by (apply subset_size; set_solver).
  f_equal. apply map_ext_in. intros field Hfield%list_elem_of_In. destruct (skipped field); [done|].
  destruct (sf_anonymous field && _); [|done]. destruct (underlying (sf_type field)) eqn:Hu; try done.
  apply IH; [by eapply Hclosed|lia..].
Qed.

(** ** Properties *)

(** C5: reading tokens one by one, the check accepts a text exactly when its first value
    parses and every object in it has distinct names and, where the value is read into a
    struct, only names of its fields; it always ends, with the decoder behind that value.
    Without a target type this is [RejectDuplicates]. *)
Theorem rejectNames_exact fieldsOf target raw :
  exists r, rejectNames fieldsOf (decoder_fuel (NewDecoder raw)) target (NewDecoder raw) = Some r
  /\ forall d, r = inl d <->
       exists v ts, parse (kinds raw) = Some (v, ts) /\ well_named fieldsOf target v
                    /\ d = mkDecoder ts tokenTopValue [].
Proof.
  pose proof (rejectNames_runs fieldsOf target (NewDecoder raw)) as Hr.
  pose proof (rejectNames_parse fieldsOf target raw) as Ha.
  destruct (rejectNames _ _ _ _) as [r|]; [|done]. exists r. split; [done|]. intros d.
  unfold checked in Ha. destruct (parse (kinds raw)) as [[v ts]|].
  2: { destruct r as [d'|e]; [done|]. split; [done|]. by intros (? & ? & ? & _). }
  destruct (names_ok fieldsOf target v) eqn:Hok.
  - apply names_ok_spec in Hok. destruct r as [d'|e]; [|done]. injection Ha as ->. split.
    + intros [= <-]. by exists v, ts.
    + by intros (? & ? & [= <- <-] & _ & ->).
  - destruct r as [d'|e]; [done|]. split; [done|]. intros (? & ? & [= <- <-] & Hn%names_ok_spec & _). congruence.
Qed.

Lemma names_ok_target fieldsOf fieldsOf' v : names_ok fieldsOf None v = names_ok fieldsOf' None v.
Proof.
  apply eq_iff_eq_true. rewrite !names_ok_spec. revert v.
  assert (H : forall f f' v, well_named f None v -> well_named f' None v); [|by split; apply H].
  intros f f' v. induction v as [v Hv|vs IH|ms IH] using jvalue_nested_ind; intros H.
  - by apply named_scalar.
  - inversion H as [? ? Hs|? ? Hf|]; subst; [done|]. apply named_array. cbn in *. rewrite Forall_forall in *. auto.
  - inversion H as [? ? Hs| |? ? Hn Hf]; subst; [done|]. apply named_object; [done|]. cbn in *. rewrite Forall_forall in *.
    intros m Hm. destruct (Hf m Hm) as (t & [= <-] & Ht). exists None. split; [done|]. by apply IH.
Qed.

Lemma requireEnd_None ts : requireEnd (mkDecoder ts tokenTopValue []) = None <-> ts = [].
Proof.
  split; [|by intros ->]. unfold requireEnd, Token. cbn [dec_tokens dec_state dec_stack].
  destruct ts as [|k ts]; [done|]. cbn [token_from]. destruct k as [c| | | | |]; try done. punct_cases c; done.
Qed.

(** Where a whole text is one value, the checks read it to its end. *)
Lemma rejectDuplicateNames_spec raw :
  rejectDuplicateNames raw = None <-> exists v, parse (kinds raw) = Some (v, []) /\ names_ok no_fields None v = true.
Proof.
  unfold rejectDuplicateNames, RejectDuplicates. pose proof (rejectNames_parse no_fields None raw) as Ha.
  pose proof (rejectNames_runs no_fields None (NewDecoder raw)) as Hr.
  destruct (rejectNames no_fields _ None (NewDecoder raw)) as [[d|e]|]; [| |done]; cbn [accepted] in Ha; unfold checked in Ha.
  - destruct (parse (kinds raw)) as [[v ts]|]; [|done]. destruct (names_ok _ _ _) eqn:Hok; [|done]. injection Ha as ->.
    split.
    + intros ->%requireEnd_None. by exists v.
    + intros (v' & [= <- ->] & _). done.
  - split; [done|]. intros (v & Hp & Hok). rewrite Hp, Hok in Ha. done.
Qed.

(** Strict decoding reads one whole value with exact and distinct names. *)
Lemma decodeStrict_inl {T} fieldsOf target (convert : list token -> jvalue -> T + error) raw value :
  decodeStrict fieldsOf target convert raw = inl value
  <-> exists v, value_of raw = Some v /\ names_ok fieldsOf (Some target) v = true /\ convert (lex raw) v = inl value.
Proof.
  unfold decodeStrict, RejectUnknownFields, value_of, decode_value. cbn [dec_tokens NewDecoder dec_state dec_stack].
  destruct (Z.eqb_spec (len raw) 0) as [Hl|_].
  { apply len_0 in Hl as ->. split; [done|]. by intros (? & ? & _). }
  pose proof (rejectNames_parse fieldsOf (Some target) raw) as Ha.
  pose proof (rejectNames_runs fieldsOf (Some target) (NewDecoder raw)) as Hr.
  destruct (rejectNames fieldsOf _ (Some target) (NewDecoder raw)) as [[d|e]|]; [| |done]; cbn [accepted names_error] in *;
    unfold checked in Ha; destruct (parse (kinds raw)) as [[v ts]|].
  - destruct (names_ok _ _ _) eqn:Hok; [|done]. destruct (nesting v <=? maxNestingDepth).
    2: { split; [done|]. intros (? & H & _). by destruct ts. }
    destruct (convert (lex raw) v) as [x|err] eqn:Hconv.
    2: { split; [done|]. intros (v' & H & _ & H'). destruct ts; [|done]. injection H as <-. congruence. }
    destruct (requireEnd _) eqn:He.
    + split; [done|]. intros (? & H & _). destruct ts; [by rewrite (proj2 (requireEnd_None []) eq_refl) in He|done].
    + apply requireEnd_None in He as ->. split; [intros [= <-]; by exists v|].
      intros (v' & [= <-] & _ & H'). congruence.
  - done.
  - split; [done|]. intros (v' & H & Hok & _). destruct ts; [|done]. destruct (_ <=? _); [|done]. injection H as <-.
    by rewrite Hok in Ha.
  - split; [done|]. by intros (? & ? & _).
Qed.

Lemma ValidateJSONObject_exact_lemma name raw :
  ValidateJSONObject name raw false = None
  <-> 0 < len raw <= MaxJSONObjectBytes
      /\ exists ms, value_of (TrimSpace raw) = Some (JObject ms) /\ first_last_braces (TrimSpace raw) = true
                    /\ well_named no_fields None (JObject ms).
Proof.
  unfold ValidateJSONObject. pose proof (len_nonneg raw). destruct (Z.eqb_spec (len raw) 0) as [Hl|Hl].
  { split; [done|lia]. }
  destruct (Z.ltb_spec MaxJSONObjectBytes (len raw)) as [Hm|Hm]; [split; [done|lia]|].
  set (s := TrimSpace raw). destruct (first_last_braces s) eqn:Hb; cbn [negb orb].
  2: { rewrite orb_true_r. split; [done|]. intros (_ & ms & _ & ? & _). done. }
  rewrite orb_false_r. unfold Valid. destruct (value_of s) as [v|] eqn:Hv.
  2: { rewrite orb_true_r. split; [done|]. intros (_ & ms & ? & _). done. }
  destruct (value_of_parse _ _ Hv) as [Hp _]. rewrite orb_false_r.
  assert (Hobj : exists ms, v = JObject ms).
  { unfold first_last_braces in Hb. destruct s as [|c t] eqn:Hs; [done|]. apply andb_prop in Hb as [Hc _].
    apply Ascii.eqb_eq in Hc as ->. by eapply value_of_brace. }
  destruct Hobj as [ms ->]. assert (Hlen : (len s <? 2) = false).
  { unfold first_last_braces in Hb. destruct s as [|c [|d t]]; [done| |].
    - exfalso. apply andb_prop in Hb as [Hc Hs]. apply Ascii.eqb_eq in Hc as ->. done.
    - unfold len. cbn [String.length]. lia. }
  rewrite Hlen. cbn [orb]. destruct (rejectDuplicateNames s) as [err|] eqn:Hd.
  - split; [done|]. intros (_ & ms' & [= <-] & _ & Hn%names_ok_spec). exfalso.
    assert (rejectDuplicateNames s = None) by (apply rejectDuplicateNames_spec; eauto). congruence.
  - split; [|done]. intros _. split; [lia|]. exists ms. split_and!; [done..|]. apply names_ok_spec.
    apply rejectDuplicateNames_spec in Hd as (v' & Hp' & Hok). rewrite Hp in Hp'. by injection Hp' as <-.
Qed.

(** [ValidateJSONObject] accepts a required text only if it is at most 64 KiB long and,
    trimmed, one JSON object in which no object repeats a name; such a text it accepts. *)
Theorem ValidateJSONObject_exact name raw :
  ValidateJSONObject name raw false = None
  <-> 0 < len raw <= MaxJSONObjectBytes
      /\ exists ms, value_of (TrimSpace raw) = Some (JObject ms) /\ first_last_braces (TrimSpace raw) = true
                    /\ well_named no_fields None (JObject ms).
Proof. apply ValidateJSONObject_exact_lemma. Qed.

(** [ValidateEmptyParams] accepts nothing, or one object without members. *)
Example empty_params :
  map ValidateEmptyParams [EmptyString; "{}"; " { } "]%string = [None; None; None]
  /\ forallb (fun raw => match ValidateEmptyParams raw with Some _ => true | None => false end)
       [ "null"; "[]"; "{} {}"; "{" +:+ json_string_plain "a" +:+ ":1}" ]%string = true.
Proof. vm_compute. split; reflexivity. Qed.
