(* ===== verification/CheckpointEnvelope.v ===== *)
(** * Checkpoint envelopes: canonical data, encoding and strict decoding

    Models the pure part of [src/internal/checkpoint/store.go]: keys, file names, the
    canonical form of checkpoint data, and the JSON envelope byte for byte, as the store
    writes it ([MarshalJSONCompact]) and as [readEnvelope] decodes it. The hash function is
    a parameter. *)

From Stdlib Require Import ZArith Lia.
From S2P Require Import Prelude GoStrings Identifier Protocol GoTime GoJson GoEncoding JsonText JsonNames.

Definition MaxDataBytes : Z := MaxJSONObjectBytes.
Definition MaxAggregateDataBytes : Z := 16777216.
Definition envelopeVersion : Z := 1.
Definition maxEnvelopeBytes : Z := MaxDataBytes + 1024.

(** ** Keys *)

Record Key := mkKey { key_PluginID : string; key_InstanceID : string; key_Generation : Z }.

#[export] Instance Key_eq_dec : EqDecision Key.
Proof. solve_decision. Defined.
#[export] Instance Key_countable : Countable Key.
Proof.
  apply (inj_countable' (fun k => (key_PluginID k, key_InstanceID k, key_Generation k))
           (fun '(p, i, g) => mkKey p i g)). by intros [].
Defined.

Definition validateKey (key : Key) : option error :=
  match Identifier.Validate "plugin id" (key_PluginID key) with
  | Some err => Some err
  | None =>
    match Identifier.Validate "instance id" (key_InstanceID key) with
    | Some err => Some err
    | None =>
      if key_Generation key =? 0 then Some (Errorf "checkpoint generation must be greater than zero" []) else None
    end
  end.

(** A [uint64] generation. *)
Definition validKey (key : Key) : Prop := validateKey key = None /\ 0 <= key_Generation key < two64.

(** One member of an encoded object. *)
Definition json_member (name value : string) : string := json_string_plain name +:+ ":" +:+ value.

(** What [json.Marshal], which escapes HTML, writes for the identity. *)
Definition identity_json (key : Key) : string :=
  "{" +:+ quoted "plugin_id" +:+ ":" +:+ json_string (key_PluginID key)
  +:+ "," +:+ quoted "instance_id" +:+ ":" +:+ json_string (key_InstanceID key)
  +:+ "," +:+ quoted "generation" +:+ ":" +:+ format_uint (key_Generation key) +:+ "}".

Section Filename.
Context (sha256 : string -> list Z).
Definition filename (key : Key) : string := hex_of (sha256 (identity_json key)) +:+ ".json".
End Filename.

(** ** Canonical data *)

Definition checkpoint_data_error : error :=
  Errorf "checkpoint data must be one JSON object no larger than 64 KiB" [].

(** Reading a value into a [map[string]any]. *)
Definition convert_map (_ : list token) (v : jvalue) : (list (string * jvalue)) + error :=
  match v with
  | JObject ms => inl ms
  | JNull => inl []
  | _ => inr (Errorf "json: cannot unmarshal into Go value of type map[string]interface {}" [])
  end.

Definition canonicalData (data : string) : string + error :=
  match ValidateJSONObject "checkpoint data" data false with
  | Some _ => inr checkpoint_data_error
  | None =>
    match DecodeStrict no_fields (RPointer (RMap ROther)) convert_map data with
    | inr _ => inr checkpoint_data_error
    | inl _ =>
      match Compact data with
      | None => inr (Errorf "checkpoint data must be valid JSON" [])
      | Some compact => inl compact
      end
    end
  end.

(** ** The envelope *)

Record envelope := mkEnvelope {
  ev_Version : Z;
  ev_PluginID : string;
  ev_InstanceID : string;
  ev_Generation : Z;
  ev_Data : string;
}.
Definition zero_envelope : envelope := mkEnvelope 0 EmptyString EmptyString 0 EmptyString.
Definition envelope_key (e : envelope) : Key := mkKey (ev_PluginID e) (ev_InstanceID e) (ev_Generation e).
Definition with_data (data : string) (e : envelope) : envelope :=
  mkEnvelope (ev_Version e) (ev_PluginID e) (ev_InstanceID e) (ev_Generation e) data.

Definition newline : string := String (ascii_of_byte 10) EmptyString.

(** [localstate.MarshalJSONCompact] of an envelope whose data is compact already. *)
Definition encode_envelope (e : envelope) : string :=
  "{" +:+ json_member "version" (format_int (ev_Version e))
  +:+ "," +:+ json_member "plugin_id" (json_string_plain (ev_PluginID e))
  +:+ "," +:+ json_member "instance_id" (json_string_plain (ev_InstanceID e))
  +:+ "," +:+ json_member "generation" (format_uint (ev_Generation e))
  +:+ "," +:+ json_member "data" (ev_Data e) +:+ "}" +:+ newline.

(** The struct type, as [reflect] shows it. *)
Definition envelope_types (name : string) : list structField :=
  if name =s "envelope" then
    [ mkStructField "Version" ROther "version" true false;
      mkStructField "PluginID" ROther "plugin_id" true false;
      mkStructField "InstanceID" ROther "instance_id" true false;
      mkStructField "Generation" ROther "generation" true false;
      mkStructField "Data" (RUnmarshaler (RSlice ROther)) "data" true false ]
  else [].
Definition envelope_fields : fieldTable := jsonFields envelope_types ascii_letter ascii_digit 2.

(** Typed conversions of single values; null leaves a field as it is. *)
Definition type_error : error := Errorf "json: cannot unmarshal value into Go struct field" [].

Definition parse_digits (s : string) : option Z :=
  match s with
  | EmptyString => None
  | _ => if forall_bytes is_digit s then Some (decimal_value 0 s) else None
  end.
Definition convert_uint64 (v : jvalue) : Z + error :=
  match v with
  | JNull => inl 0
  | JNumber literal =>
    match parse_digits literal with
    | Some n => if n <? two64 then inl n else inr type_error
    | None => inr type_error
    end
  | _ => inr type_error
  end.
Definition convert_int (v : jvalue) : Z + error :=
  match v with
  | JNull => inl 0
  | JNumber (String c digits as literal) =>
    let '(negative, digits) := if Ascii.eqb c "-" then (true, digits) else (false, literal) in
    match parse_digits digits with
    | Some n =>
      if negative then (if n <=? two63 then inl (- n) else inr type_error)
      else (if n <? two63 then inl n else inr type_error)
    | None => inr type_error
    end
  | _ => inr type_error
  end.
Definition convert_string (v : jvalue) : string + error :=
  match v with JNull => inl EmptyString | JString s => inl s | _ => inr type_error end.

(** The tokens of the value at the head of [ts], and what follows. *)
Definition value_extent (ts : list token) : option (list token * list token) :=
  match parse (map tk_kind ts) with
  | Some (_, rest) => let n := (length ts - length rest)%nat in Some (take n ts, drop n ts)
  | None => None
  end.

(** The members of an object, after its brace, with the text of their values. *)
Fixpoint member_texts (fuel : nat) (ts : list token) : list (string * string) :=
  match fuel, ts with
  | S fuel, name :: _colon :: ts =>
    match tk_kind name, value_extent ts with
    | TString n, Some (value, rest) =>
      (n, raw_text value) :: match rest with
                             | comma :: rest => match tk_kind comma with
                                                | TPunct "," => member_texts fuel rest
                                                | _ => []
                                                end
                             | [] => []
                             end
    | _, _ => []
    end
  | _, _ => []
  end.

Fixpoint assoc {A} (name : string) (l : list (string * A)) : option A :=
  match l with
  | [] => None
  | (n, a) :: l => if n =s name then Some a else assoc name l
  end.

(** A field that is absent keeps its zero value. *)
Definition convert_member {A} (ms : list (string * jvalue)) (name : string) (zero : A) (convert : jvalue -> A + error)
    : A + error :=
  match assoc name ms with Some v => convert v | None => inl zero end.

Definition convert_envelope (ts : list token) (v : jvalue) : envelope + error :=
  match v with
  | JNull => inl zero_envelope
  | JObject ms =>
    match convert_member ms "version" 0 convert_int, convert_member ms "plugin_id" EmptyString convert_string,
          convert_member ms "instance_id" EmptyString convert_string, convert_member ms "generation" 0 convert_uint64 with
    | inl version, inl plugin, inl instance, inl generation =>
      inl (mkEnvelope version plugin instance generation
             (default EmptyString (assoc "data" (member_texts (length ts) (tail ts)))))
    | _, _, _, _ => inr type_error
    end
  | _ => inr type_error
  end.

(** The checks of [readEnvelope] on the bytes of a file; [None] is [errCorruptEnvelope]. *)
Definition decode_envelope (data : string) : option envelope :=
  if maxEnvelopeBytes <? len data then None
  else
    match DecodeStrict envelope_fields (RPointer (RStruct "envelope")) convert_envelope data with
    | inr _ => None
    | inl value =>
      if negb (ev_Version value =? envelopeVersion)
         || match validateKey (envelope_key value) with Some _ => true | None => false end then None
      else
        match canonicalData (ev_Data value) with
        | inr _ => None
        | inl canonical => Some (with_data canonical value)
        end
    end.

(** ** Lemmas: canonical data *)

Lemma names_ok_other fieldsOf v : names_ok fieldsOf (Some ROther) v = names_ok fieldsOf None v.
Proof.
  apply eq_iff_eq_true. rewrite !names_ok_spec.
  assert (H : forall v, well_named fieldsOf (Some ROther) v <-> well_named fieldsOf None v); [|by apply H].
  clear v. intros v. induction v as [v Hv|vs IH|ms IH] using jvalue_nested_ind.
  - split; intros _; by apply named_scalar.
  - rewrite Forall_forall in IH. split; intros H; inversion H as [? ? Hs|? ? Hf|]; subst; try done; apply named_array; done.
  - rewrite Forall_forall in IH. split; intros H; inversion H as [? ? Hs| |? ? Hn Hf]; subst; try done;
      by apply named_object.
Qed.

Lemma names_ok_map fieldsOf ms :
  names_ok fieldsOf (Some (RPointer (RMap ROther))) (JObject ms) = names_ok fieldsOf None (JObject ms).
Proof.
  rewrite !names_ok_object. cbn. generalize (∅ : gset string).
  induction ms as [|[name v] ms IH]; intros seen; [done|]. cbn. by rewrite IH, names_ok_other.
Qed.

(** The contents of canonical data: a compact JSON object without repeated names. *)
Record canonical (c : string) (ms : list (string * jvalue)) : Prop := {
  canonical_value : value_of c = Some (JObject ms);
  canonical_compact : Compact c = Some c;
  canonical_names : well_named no_fields None (JObject ms);
  canonical_len : len c <= MaxDataBytes;
}.

Lemma canonicalData_spec data c :
  canonicalData data = inl c ->
  exists ms, value_of data = Some (JObject ms) /\ Compact data = Some c /\ len data <= MaxDataBytes /\ canonical c ms.
Proof.
  unfold canonicalData. destruct (ValidateJSONObject _ data false) eqn:Hv; [done|].
  apply ValidateJSONObject_exact_lemma in Hv as (Hlen & ms & Htrim & Hbraces & _). unfold DecodeStrict.
  destruct (decodeStrict no_fields _ convert_map data) as [members|err] eqn:Hd; [|done].
  apply decodeStrict_inl in Hd as (v & Hval & Hok & _). destruct (Compact data) as [c'|] eqn:Hc; [|done]. intros [= <-].
  unfold first_last_braces in Hbraces. destruct (TrimSpace data) as [|b t] eqn:Ht; [done|].
  apply andb_prop in Hbraces as [Hb _]. apply Ascii.eqb_eq in Hb as ->.
  destruct (TrimSpace_first _ _ _ _ Hval Ht) as [raw Hraw].
  destruct (Compact_spec _ _ Hc) as (Hrender & _ & _ & Hvc & _ & _). rewrite Hraw in Hrender.
  assert (Hvc' : value_of (String "{" raw) = Some v) by (by rewrite <- Hrender, Hvc).
  destruct (value_of_brace _ _ Hvc') as [ms' ->]. exists ms'. split_and!; [done|done|apply Hlen|].
  pose proof (len_Compact _ _ Hc) as Hshort.
  split; [by rewrite Hvc|by eapply Compact_idempotent| |etransitivity; [exact Hshort|apply Hlen]].
  apply names_ok_spec. by rewrite names_ok_map in Hok.
Qed.

(** Canonical data is its own canonical form. *)
Lemma canonicalData_canonical c ms : canonical c ms -> canonicalData c = inl c.
Proof.
  intros [Hv Hc Hn Hlen]. destruct (Compact_object _ _ _ Hc Hv) as (x & y & Hx & Hy).
  assert (Htrim : TrimSpace c = c).
  { rewrite Hx. apply (TrimSpace_visible _ "}" _ y); [by vm_compute; split|by vm_compute; split|by rewrite <- Hx]. }
  unfold canonicalData. rewrite (proj2 (ValidateJSONObject_exact_lemma _ _)).
  - unfold DecodeStrict. rewrite (proj2 (decodeStrict_inl no_fields (RPointer (RMap ROther)) convert_map c ms)).
    + by rewrite Hc.
    + exists (JObject ms). split_and!; [done| |done]. rewrite names_ok_map. by apply names_ok_spec.
  - split.
    + split; [|done]. rewrite Hx. unfold len. cbn. lia.
    + exists ms. rewrite Htrim. split_and!; [done| |done]. unfold first_last_braces.
      pose proof (HasSuffix_app y "}") as Hs. change (y +:+ "}") with (y +:+ String "}" EmptyString) in Hs.
      rewrite <- Hy, Hx in Hs. by rewrite Hx, Hs.
Qed.

Lemma canonicalData_idempotent data c : canonicalData data = inl c -> canonicalData c = inl c.
Proof. intros (ms & _ & _ & _ & H)%canonicalData_spec. by eapply canonicalData_canonical. Qed.

(** ** The round trip *)

Definition name (s : string) : tkind * string := (TString s, json_string_plain s).
Definition punct (c : ascii) : tkind * string := (TPunct c, String c EmptyString).

(** The tokens of an encoded envelope before its data. *)
Definition envelope_head (e : envelope) : list (tkind * string) :=
  [ punct "{"; name "version"; punct ":"; (TNumber (format_int (ev_Version e)), format_int (ev_Version e)); punct ",";
    name "plugin_id"; punct ":"; name (ev_PluginID e); punct ",";
    name "instance_id"; punct ":"; name (ev_InstanceID e); punct ",";
    name "generation"; punct ":"; (TNumber (format_uint (ev_Generation e)), format_uint (ev_Generation e)); punct ",";
    name "data"; punct ":" ].

Definition bare (kr : tkind * string) : token := mkToken kr.1 EmptyString kr.2.
Definition close_brace : token := mkToken (TPunct "}") EmptyString "}".

(** Texts of tokens, followed by a text that does not change the last of them. *)
Fixpoint texts_ok (krs : list (tkind * string)) (t : string) : Prop :=
  match krs with
  | [] => True
  | (k, raw) :: krs => token_text k raw /\ follows k (render (map bare krs) +:+ t) /\ texts_ok krs t
  end.

Lemma lex_texts krs t : texts_ok krs t -> lex (render (map bare krs) +:+ t) = map bare krs ++ lex t.
Proof.
  induction krs as [|[k raw] krs IH]; [done|]. intros (Ht & Hf & Hok). cbn [map render tk_raw bare fst snd app].
  rewrite append_assoc, (lex_text k) by done. by rewrite IH.
Qed.

Lemma encode_envelope_render e :
  encode_envelope e = render (map bare (envelope_head e)) +:+ ev_Data e +:+ "}" +:+ newline.
Proof. unfold encode_envelope, json_member. cbn [envelope_head map render bare tk_raw fst snd]. by rewrite !append_assoc. Qed.

Record sound_envelope (e : envelope) (ms : list (string * jvalue)) : Prop := {
  sound_version : ev_Version e = envelopeVersion;
  sound_key : validKey (envelope_key e);
  sound_data : canonical (ev_Data e) ms;
}.

Lemma validKey_ids key : validKey key ->
  ValidIdentifier (key_PluginID key) /\ ValidIdentifier (key_InstanceID key) /\ 0 <= key_Generation key < two64.
Proof.
  unfold validKey, validateKey. intros [H Hg].
  destruct (Identifier.Validate "plugin id" (key_PluginID key)) eqn:Hp; [done|].
  destruct (Identifier.Validate "instance id" (key_InstanceID key)) eqn:Hi; [done|].
  split_and!; [by eapply Validate_None|by eapply Validate_None|lia..].
Qed.

Lemma stops_cons c t : is_punct c = true -> stops (String c t).
Proof. apply punct_stops. Qed.

Lemma texts_punct c krs t : is_punct c = true -> texts_ok krs t -> texts_ok (punct c :: krs) t.
Proof. intros H Hk. split_and!; [by apply punct_text|done|done]. Qed.
Lemma texts_name s krs t : ValidString s = true -> texts_ok krs t -> texts_ok (name s :: krs) t.
Proof. intros H Hk. split_and!; [by apply string_text|done|done]. Qed.
Lemma texts_uint n c krs t : 0 <= n < two64 -> is_punct c = true -> texts_ok (punct c :: krs) t ->
  texts_ok ((TNumber (format_uint n), format_uint n) :: punct c :: krs) t.
Proof. intros H Hc Hk. split_and!; [by apply uint_text|by apply stops_cons|done]. Qed.

Lemma envelope_texts e t : ev_Version e = 1 -> validKey (envelope_key e) -> texts_ok (envelope_head e) t.
Proof.
  intros Hv (Hp & Hi & Hg)%validKey_ids. unfold envelope_head. rewrite Hv. change (format_int 1) with (format_uint 1).
  cbn [envelope_key key_PluginID key_InstanceID key_Generation] in *.
  repeat first [apply texts_punct; [done|] | apply texts_name; [done || by apply vi_utf8|]
               | apply texts_uint; [done|done|]].
  done.
Qed.

Lemma lex_envelope e ms : sound_envelope e ms ->
  lex (encode_envelope e) = map bare (envelope_head e) ++ map strip (lex (ev_Data e)) ++ [close_brace].
Proof.
  intros [Hv Hk Hd]. rewrite encode_envelope_render, lex_texts by (by apply envelope_texts). f_equal.
  destruct (Compact_spec _ _ (canonical_compact _ _ Hd)) as (Hr & _ & _ & _ & Hs & Hg).
  rewrite Hr at 1. rewrite lex_render; [|done|done|intros _; by apply stops_cons]. f_equal.
Qed.

(** The members of an encoded envelope. *)
Definition envelope_members (e : envelope) (ms : list (string * jvalue)) : list (string * jvalue) :=
  [("version"%string, JNumber (format_int (ev_Version e))); ("plugin_id"%string, JString (ev_PluginID e));
   ("instance_id"%string, JString (ev_InstanceID e)); ("generation"%string, JNumber (format_uint (ev_Generation e)));
   ("data"%string, JObject ms)].

Lemma kinds_envelope e ms : sound_envelope e ms ->
  kinds (encode_envelope e) = map fst (envelope_head e) ++ kinds (ev_Data e) ++ [TPunct "}"].
Proof.
  intros H. unfold kinds. rewrite (lex_envelope e ms H), !map_app, kinds_strip. f_equal.
Qed.

Lemma parse_envelope e ms : sound_envelope e ms ->
  parse (kinds (encode_envelope e)) = Some (JObject (envelope_members e ms), []).
Proof.
  intros H. rewrite (kinds_envelope e ms H). destruct H as [_ _ Hd].
  destruct (value_of_parse _ _ (canonical_value _ _ Hd)) as [Hp _].
  destruct (parse_app _ _ [TPunct "}"] Hp) as [Hp' _].
  apply (parse_value_parse (6 + parse_fuel (kinds (ev_Data e) ++ [TPunct "}"]))).
  unfold envelope_head, envelope_members. cbn [map fst name punct app].
  apply parse_object. eapply parse_first_member; [reflexivity|].
  do 3 (eapply parse_next_member; [reflexivity|]). eapply parse_next_member; [exact Hp'|reflexivity].
Qed.

Lemma value_extent_scalar t ts v : parse_value 1 (tk_kind t :: map tk_kind ts) = Some (v, map tk_kind ts) ->
  value_extent (t :: ts) = Some ([t], ts).
Proof.
  intros H. unfold value_extent. cbn [map]. rewrite (parse_value_parse _ _ _ H).
  cbn [length]. rewrite length_map. replace (S (length ts) - length ts)%nat with 1%nat by lia. reflexivity.
Qed.

Lemma value_extent_app ts us v : parse (map tk_kind ts) = Some (v, []) -> value_extent (ts ++ us) = Some (ts, us).
Proof.
  intros H. unfold value_extent. rewrite map_app. destruct (parse_app _ _ (map tk_kind us) H) as [-> _].
  rewrite length_app, length_map. replace (length ts + length us - length us)%nat with (length ts) by lia.
  by rewrite take_app_length, drop_app_length.
Qed.

Lemma raw_text_strip ts : raw_text (map strip ts) = render ts.
Proof.
  assert (H : forall ts, spaced (map strip ts) = render ts).
  { induction ts0 as [|t ts0 IH]; [done|]. cbn. by rewrite IH. }
  destruct ts as [|t ts]; [done|]. cbn. by rewrite H.
Qed.

(** One scalar member before the others. *)
Lemma member_texts_scalar fuel (s : string) t rest v :
  parse_value 1 (tk_kind t :: map tk_kind (bare (punct ",") :: rest)) = Some (v, map tk_kind (bare (punct ",") :: rest)) ->
  member_texts (S fuel) (bare (name s) :: bare (punct ":") :: t :: bare (punct ",") :: rest)
  = (s, tk_raw t +:+ EmptyString) :: member_texts fuel rest.
Proof. intros H. cbn [member_texts bare name tk_kind fst]. by rewrite (value_extent_scalar _ _ _ H). Qed.

Lemma assoc_ne {A} (n m : string) (a : A) l : (n =s m) = false -> assoc m ((n, a) :: l) = assoc m l.
Proof. intros H. cbn. by rewrite H. Qed.

(** The data of an encoded envelope is found as it was written. *)
Lemma envelope_data e ms : sound_envelope e ms ->
  assoc "data" (member_texts (length (lex (encode_envelope e))) (tail (lex (encode_envelope e)))) = Some (ev_Data e).
Proof.
  intros H. rewrite (lex_envelope e ms H). destruct H as [_ _ Hd].
  destruct (value_of_parse _ _ (canonical_value _ _ Hd)) as [Hp _]. unfold kinds in Hp. rewrite <- kinds_strip in Hp.
  destruct (Compact_spec _ _ (canonical_compact _ _ Hd)) as (Hr & _).
  rewrite length_app, length_map. unfold envelope_head. cbn [map app tail length Nat.add].
  do 4 (erewrite member_texts_scalar by reflexivity; rewrite assoc_ne by done).
  cbn [member_texts bare name tk_kind fst]. rewrite (value_extent_app _ [close_brace] _ Hp). cbn [assoc String.eqb].
  by rewrite raw_text_strip, <- Hr.
Qed.

Lemma envelope_names e ms : well_named no_fields None (JObject ms) ->
  names_ok envelope_fields (Some (RPointer (RStruct "envelope"))) (JObject (envelope_members e ms)) = true.
Proof.
  intros Hn. rewrite names_ok_object. apply members_ok_spec. cbn [structuralType structural mbind option_bind].
  assert (Hdata : names_ok envelope_fields None (JObject ms) = true).
  { rewrite (names_ok_target _ no_fields). by apply names_ok_spec. }
  split_and!.
  - change (map fst (envelope_members e ms)) with ["version"; "plugin_id"; "instance_id"; "generation"; "data"]%string.
    apply (bool_decide_unpack _). vm_compute. exact I.
  - apply Forall_forall. intros m _. apply not_elem_of_empty.
  - unfold object_fields, object_element.
    assert (Hf : forall name t, envelope_fields "envelope" !! name = Some t ->
      member_type (Some (envelope_fields "envelope")) None name = Some (Some t)) by (intros name t H; unfold member_type; by rewrite H).
    unfold envelope_members. repeat apply Forall_cons_2; cbn [fst snd]; [..|apply Forall_nil_2].
    1-4: exists (Some ROther); split; [apply Hf; vm_compute; reflexivity|reflexivity].
    exists (Some (RUnmarshaler (RSlice ROther))). split; [apply Hf; vm_compute; reflexivity|].
    rewrite names_ok_object in *. exact Hdata.
Qed.

Lemma parse_digits_format n : 0 <= n < two64 -> parse_digits (format_uint n) = Some n.
Proof.
  intros Hn. pose proof two64_digits. unfold parse_digits. pose proof (format_digits 19 n ltac:(lia)) as Hd.
  pose proof (decimal_value_format_from 19 n ltac:(lia)) as Hv. fold (format_uint n) in *.
  destruct (format_uint n) as [|c s] eqn:E; [|by rewrite Hd, Hv].
  pose proof (len_format_uint n) as Hl. rewrite E in Hl. change (len EmptyString) with 0 in Hl. lia.
Qed.

Lemma convert_envelope_members e ms ts data :
  ev_Version e = envelopeVersion -> 0 <= ev_Generation e < two64 ->
  assoc "data" (member_texts (length ts) (tail ts)) = Some data ->
  convert_envelope ts (JObject (envelope_members e ms)) = inl (with_data data e).
Proof.
  intros Hv Hg Hd. unfold convert_envelope. rewrite Hd. unfold convert_member, envelope_members.
  cbn [assoc String.eqb Ascii.eqb Bool.eqb]. rewrite Hv. change (convert_int (JNumber (format_int envelopeVersion))) with (@inl Z error 1).
  cbn [convert_string convert_uint64]. rewrite parse_digits_format by done.
  replace (ev_Generation e <? two64) with true by lia. unfold with_data. by rewrite Hv.
Qed.

(** The envelope adds less than the kilobyte [maxEnvelopeBytes] allows for it. *)
Lemma len_encode_envelope e ms : sound_envelope e ms -> len (encode_envelope e) <= maxEnvelopeBytes.
Proof.
  intros [Hv Hk Hd]. pose proof (canonical_len _ _ Hd) as Hlen. destruct (validKey_ids _ Hk) as (Hp & Hi & _).
  cbn [envelope_key key_PluginID key_InstanceID] in Hp, Hi.
  assert (Hid : forall s, ValidIdentifier s -> len (json_string_plain s) <= 258).
  { intros s [_ Hb Hu Hc]. unfold MaxBytes in Hb. etransitivity; [apply len_json_string_plain; [done|]|lia].
    apply forallb_forall. intros rn Hrn%list_elem_of_In. by rewrite (Hc rn Hrn). }
  apply Hid in Hp, Hi. unfold encode_envelope, json_member. rewrite !len_app. pose proof (len_format_int (ev_Version e)).
  pose proof (len_format_uint (ev_Generation e)). unfold maxEnvelopeBytes.
  repeat match goal with |- context [len (json_string_plain ?s)] =>
    lazymatch s with ev_PluginID _ => fail | ev_InstanceID _ => fail | _ =>
      let v := eval vm_compute in (len (json_string_plain s)) in change (len (json_string_plain s)) with v end end.
  repeat match goal with |- context [len ?s] =>
    lazymatch s with
    | String _ _ => let v := eval vm_compute in (len s) in change (len s) with v
    | newline => change (len newline) with 1
    end end.
  lia.
Qed.

Lemma nesting_object ms : 0 < nesting (JObject ms).
Proof. cbn [nesting]. assert (H : forall l, 0 <= foldr Z.max 0 l) by (intros l; induction l; simpl; lia). by pose proof (H (map (fun m => nesting m.2) ms)); lia. Qed.

Lemma nesting_envelope e ms : nesting (JObject (envelope_members e ms)) = 1 + nesting (JObject ms).
Proof. pose proof (nesting_object ms). cbn [nesting envelope_members map foldr snd] in *. lia. Qed.

Lemma envelope_roundtrip_lemma e ms :
  sound_envelope e ms -> nesting (JObject ms) < maxNestingDepth -> decode_envelope (encode_envelope e) = Some e.
Proof.
  intros H Hdepth. pose proof H as [Hv Hk Hd]. destruct (validKey_ids _ Hk) as (_ & _ & Hg). unfold decode_envelope.
  pose proof (len_encode_envelope e ms H). destruct (Z.ltb_spec maxEnvelopeBytes (len (encode_envelope e))); [lia|].
  unfold DecodeStrict. rewrite (proj2 (decodeStrict_inl envelope_fields _ convert_envelope _ e)).
  - rewrite Hv. cbn [Z.eqb envelopeVersion Pos.eqb negb orb]. rewrite (proj1 Hk).
    rewrite (canonicalData_canonical _ _ Hd). by destruct e.
  - exists (JObject (envelope_members e ms)). split_and!.
    + unfold value_of. rewrite (parse_envelope e ms H), nesting_envelope.
      by destruct (Z.leb_spec (1 + nesting (JObject ms)) maxNestingDepth); [|lia].
    + apply envelope_names, Hd.
    + rewrite (convert_envelope_members e ms _ (ev_Data e)); [by destruct e|done|apply Hg|by eapply envelope_data].
Qed.

(** ** What is decoded is well formed *)

Lemma decimal_value_nonneg s acc : 0 <= acc -> forall_bytes is_digit s = true -> 0 <= decimal_value acc s.
Proof.
  revert acc. induction s as [|c s IH]; intros acc Ha; [done|]. cbn [forall_bytes decimal_value]. intros [Hc Hs]%andb_prop.
  apply IH; [|done]. unfold is_digit, between in Hc. lia.
Qed.

Lemma parse_digits_nonneg s n : parse_digits s = Some n -> 0 <= n.
Proof.
  unfold parse_digits. destruct s as [|c s]; [done|]. destruct (forall_bytes is_digit (String c s)) eqn:H; [|done].
  intros Hn. assert (n = decimal_value 0 (String c s)) as -> by congruence. by apply decimal_value_nonneg.
Qed.

Lemma convert_uint64_range v n : convert_uint64 v = inl n -> 0 <= n < two64.
Proof.
  destruct v as [| | |literal| |]; try done; cbn [convert_uint64]; [by intros [= <-]|].
  destruct (parse_digits literal) as [m|] eqn:Hm; [|done]. destruct (Z.ltb_spec m two64); [|done]. intros [= <-].
  split; [by eapply parse_digits_nonneg|done].
Qed.

Lemma convert_envelope_range ts v e : convert_envelope ts v = inl e -> 0 <= ev_Generation e < two64.
Proof.
  destruct v as [| | | | |ms]; try done; cbn [convert_envelope]; [by intros [= <-]|].
  destruct (convert_member ms "version" 0 convert_int) as [version|]; [|done].
  destruct (convert_member ms "plugin_id" EmptyString convert_string) as [plugin|]; [|done].
  destruct (convert_member ms "instance_id" EmptyString convert_string) as [instance|]; [|done].
  destruct (convert_member ms "generation" 0 convert_uint64) as [generation|] eqn:Hg; [|done]. intros [= <-].
  cbn [ev_Generation]. unfold convert_member in Hg. destruct (assoc "generation" ms); [by eapply convert_uint64_range|].
  by injection Hg as <-.
Qed.

(** Whatever the bytes of a file are, what [readEnvelope] takes from them is a well-formed
    envelope: of the current version, with identifiers that the protocol allows and a
    generation of 64 bits that is not zero, and with data that is a compact JSON object of
    at most 64 KiB in which no object repeats a name. *)
Theorem decode_envelope_sound data e : decode_envelope data = Some e -> exists ms, sound_envelope e ms.
Proof.
  unfold decode_envelope. destruct (maxEnvelopeBytes <? len data); [done|]. unfold DecodeStrict.
  destruct (decodeStrict envelope_fields _ convert_envelope data) as [value|err] eqn:Hd; [|done].
  apply decodeStrict_inl in Hd as (v & _ & _ & Hconv). destruct (Z.eqb_spec (ev_Version value) envelopeVersion) as [Hv|]; [|done].
  cbn [negb orb]. destruct (validateKey (envelope_key value)) eqn:Hk; [done|].
  destruct (canonicalData (ev_Data value)) as [c|err] eqn:Hc; [|done]. intros [= <-].
  apply canonicalData_spec in Hc as (ms & _ & _ & _ & Hcan). exists ms. split; [done| |done].
  split; [done|]. exact (convert_envelope_range _ _ _ Hconv).
Qed.

(** C6: what the store writes it can read: the bytes of a saved envelope, whose
    identifiers may hold any characters the validation lets through and whose generation
    any 64-bit number, decode to that envelope, provided its data is nested one level
    less than [encoding/json] can follow. *)
Theorem envelope_roundtrip e ms :
  sound_envelope e ms -> nesting (JObject ms) < maxNestingDepth -> decode_envelope (encode_envelope e) = Some e.
Proof. apply envelope_roundtrip_lemma. Qed.

(** At the bound itself it cannot: the envelope adds the level that is one too many. *)
Lemma envelope_too_deep e ms :
  sound_envelope e ms -> nesting (JObject ms) = maxNestingDepth -> decode_envelope (encode_envelope e) = None.
Proof.
  intros H Hdepth. unfold decode_envelope. destruct (_ <? _); [done|]. unfold DecodeStrict.
  destruct (decodeStrict _ _ _ _) as [value|err] eqn:Hdec; [|done].
  apply decodeStrict_inl in Hdec as (v & Hv & _). apply value_of_parse in Hv as [Hp Hn].
  rewrite (parse_envelope e ms H) in Hp. injection Hp as <-. rewrite nesting_envelope in Hn. lia.
Qed.

(** *** Data nested as deep as the store accepts *)

Fixpoint brackets (n : nat) (t : string) : string :=
  match n with O => t | S n => String "[" (brackets n (String "]" t)) end.
Fixpoint bracket_kinds (n : nat) (ts : list tkind) : list tkind :=
  match n with O => ts | S n => TPunct "[" :: bracket_kinds n (TPunct "]" :: ts) end.
Fixpoint nested (n : nat) : list jvalue := match n with O => [] | S n => [JArray (nested n)] end.

Definition deep_data (n : nat) : string := "{" +:+ json_string_plain "a" +:+ ":" +:+ brackets (S n) "}".

Lemma lex_punct c t : is_punct c = true -> lex (String c t) = mkToken (TPunct c) EmptyString (String c EmptyString) :: lex t.
Proof. intros H. change (String c t) with (String c EmptyString +:+ t). by rewrite (lex_text (TPunct c)); [|apply punct_text|]. Qed.

Lemma kinds_brackets n t : kinds (brackets n t) = bracket_kinds n (kinds t).
Proof. revert t. induction n as [|n IH]; intros t; [done|]. cbn [brackets]. rewrite kinds_punct, IH by done. by rewrite kinds_punct. Qed.

Lemma render_brackets n t : render (lex (brackets n t)) = brackets n (render (lex t)).
Proof.
  revert t. induction n as [|n IH]; intros t; [done|]. cbn [brackets]. rewrite lex_punct by done. cbn [render tk_raw String.append].
  rewrite IH, lex_punct by done. done.
Qed.

Lemma parse_brackets n : forall m ts, (2 * n + 1 < m)%nat ->
  parse_elements m false (bracket_kinds n (TPunct "]" :: ts)) = Some (nested n, ts).
Proof.
  induction n as [|n IH]; intros [|m] ts Hm; try lia; [done|]. cbn [bracket_kinds parse_elements nested].
  change (expect "]" (TPunct "[" :: bracket_kinds n (TPunct "]" :: TPunct "]" :: ts))) with (@None (list tkind)). cbv beta iota.
  destruct m as [|m]; [lia|]. cbn [parse_value]. change (Ascii.eqb "[" "{") with false. change (Ascii.eqb "[" "[") with true.
  cbv beta iota. rewrite IH by lia. reflexivity.
Qed.

Lemma nesting_nested n : nesting (JArray (nested n)) = Z.of_nat n + 1.
Proof.
  induction n as [|n IH]; [done|]. change (nesting (JArray (nested (S n)))) with (1 + Z.max (nesting (JArray (nested n))) 0).
  rewrite IH. lia.
Qed.

Lemma len_brackets n t : len (brackets n t) = 2 * Z.of_nat n + len t.
Proof. revert t. induction n as [|n IH]; intros t; [done|]. cbn [brackets]. rewrite len_String, IH, len_String. lia. Qed.

Lemma well_named_nested n : well_named no_fields None (JArray (nested n)).
Proof.
  induction n as [|n IH]; apply named_array; [apply Forall_nil_2|]. apply Forall_cons_2; [exact IH|apply Forall_nil_2].
Qed.

(** The data [{"a":[[...]]}] with [n] + 1 brackets is canonical as long as it is short enough
    and [encoding/json] can follow it. *)
Lemma deep_data_canonical n : Z.of_nat n + 2 <= maxNestingDepth ->
  canonical (deep_data n) [("a"%string, JArray (nested n))]
  /\ nesting (JObject [("a"%string, JArray (nested n))]) = Z.of_nat n + 2.
Proof.
  intros Hn. assert (Hnest : nesting (JObject [("a"%string, JArray (nested n))]) = Z.of_nat n + 2).
  { change (1 + Z.max (nesting (JArray (nested n))) 0 = Z.of_nat n + 2). rewrite nesting_nested. lia. }
  split; [|done].
  assert (Hlex : lex (deep_data n) = bare (punct "{") :: bare (name "a") :: bare (punct ":") :: lex (brackets (S n) "}")).
  { unfold deep_data. cbn [String.append]. rewrite lex_punct by done. rewrite (lex_text (TString "a")); [|by apply string_text|done].
    rewrite lex_punct by done. done. }
  assert (Hval : value_of (deep_data n) = Some (JObject [("a"%string, JArray (nested n))])).
  { unfold value_of, kinds. rewrite Hlex. cbn [map tk_kind bare name punct fst]. fold (kinds (brackets (S n) "}")).
    rewrite kinds_brackets. change (kinds "}") with [TPunct "}"]. cbn [bracket_kinds].
    rewrite (parse_value_parse (2 * n + 6) _ (JObject [("a"%string, JArray (nested n))], [])).
    - rewrite Hnest. by destruct (Z.leb_spec (Z.of_nat n + 2) maxNestingDepth); [|lia].
    - replace (2 * n + 6)%nat with (S (S (2 * n + 4))) by lia. apply parse_object. eapply parse_first_member.
      + replace (2 * n + 4)%nat with (S (2 * n + 3)) by lia. cbn [parse_value]. change (Ascii.eqb "[" "{") with false.
        change (Ascii.eqb "[" "[") with true. cbv beta iota. rewrite parse_brackets by lia. reflexivity.
      + by replace (2 * n + 4)%nat with (S (2 * n + 3)) by lia. }
  split; [done| | |].
  - unfold Compact, Valid. rewrite Hval, Hlex. cbn [render tk_raw bare name punct snd]. by rewrite render_brackets.
  - apply named_object; [apply (bool_decide_unpack _); by vm_compute|]. apply Forall_cons_2; [|apply Forall_nil_2].
    exists None. split; [done|apply well_named_nested].
  - unfold deep_data. rewrite !len_app, len_brackets. change (len "{" + (len (json_string_plain "a") + (len ":" + (2 * Z.of_nat (S n) + len "}"))) <= 65536).
    change (len "{") with 1. change (len (json_string_plain "a")) with 3. change (len ":") with 1. change (len "}") with 1.
    unfold maxNestingDepth in Hn. lia.
Qed.

(** So [Save] accepts data whose file [readEnvelope] then takes for corrupt. *)
Lemma deep_data_unreadable :
  exists data, canonicalData data = inl data
    /\ decode_envelope (encode_envelope (mkEnvelope 1 "plugin" "instance" 1 data)) = None.
Proof.
  assert (Hex : exists n, Z.of_nat n + 2 = maxNestingDepth) by (exists (Z.to_nat 9998); by rewrite Z2Nat.id).
  destruct Hex as [n Hn]. destruct (deep_data_canonical n ltac:(lia)) as [Hc Hnest]. exists (deep_data n).
  split; [exact (canonicalData_canonical _ _ Hc)|].
  rewrite Hn in Hnest. apply (envelope_too_deep (mkEnvelope 1 "plugin" "instance" 1 (deep_data n)) _) with (2 := Hnest).
  split; [reflexivity| |exact Hc]. split; [reflexivity|split; [discriminate|reflexivity]].
Qed.

Definition demo_data : string := "{" +:+ json_string_plain "a<b" +:+ ":[1,2.5e3,null]}".
Definition demo_envelope : envelope := mkEnvelope 1 "dev.bsbctl.codex" "main & other" 18446744073709551615 demo_data.

Lemma demo_sound : exists ms, sound_envelope demo_envelope ms /\ nesting (JObject ms) < maxNestingDepth.
Proof.
  assert (Hc : canonicalData demo_data = inl demo_data) by (vm_compute; reflexivity).
  apply canonicalData_spec in Hc as (ms & Hv & _ & _ & Hc). exists ms. split; [by split|].
  vm_compute in Hv. injection Hv as <-. vm_compute. reflexivity.
Qed.

Lemma envelope_roundtrip_witness : decode_envelope (encode_envelope demo_envelope) = Some demo_envelope.
Proof. destruct demo_sound as (ms & Hs & Hn). exact (envelope_roundtrip demo_envelope ms Hs Hn). Defined.

(** With white space, and with the members in another order. *)
Definition demo_file : string :=
  "{ " +:+ json_member "data" "{ }" +:+ ", " +:+ json_member "generation" "7" +:+ "," +:+ json_member "version" " 1"
  +:+ "," +:+ json_member "plugin_id" (json_string_plain "p") +:+ "," +:+ json_member "instance_id" (json_string_plain "i") +:+ "}".

Lemma decode_envelope_sound_witness : exists ms, sound_envelope (mkEnvelope 1 "p" "i" 7 "{}") ms.
Proof. apply (decode_envelope_sound demo_file). vm_compute. reflexivity. Defined.
