(* ===== verification/Checkpoint.v ===== *)
(** * The checkpoint store

    Models [src/internal/checkpoint/store.go] and [open_unix.go]. The operations hold one
    mutex throughout; they are computations over the store and a world that answers its
    file-system calls. The atomic replacement of a file is [replaceJSON] of [LocalState],
    whose primitive calls ([lops]) the store shares; the other calls are [calls]. *)

From Stdlib Require Import ZArith Lia.
From S2P Require Import Prelude GoStrings LocalState GoEncoding Actions CheckpointEnvelope.

Definition InvalidCode : string := "checkpoint_invalid".
Definition CapacityCode : string := "checkpoint_capacity_exceeded".
Definition CommitFailedCode : string := "checkpoint_commit_failed".
Definition DurabilityUncertainCode : string := "checkpoint_durability_uncertain".
Definition CorruptCode : string := "checkpoint_corrupt".
Definition IOFailedCode : string := "checkpoint_io_failed".

(** [Error{Code, Outcome, Err}]. *)
Definition Error (code outcome : string) (err : error) : error := Wrapf "checkpoint.Error" [EStr code; EStr outcome] err.

Record Status := mkStatus {
  st_Files : Z;
  st_DataBytes : Z;
  st_Failures : Z;
  st_Corruptions : Z;
  st_LastErrorCode : string;
}.

Record record := mkRecord { rc_path : string; rc_data : string }.

Record Store := mkStore {
  sr_status : Status;
  sr_records : gmap Key record;
  sr_initialized : bool;
}.
Definition NewStore : Store := mkStore (mkStatus 0 0 0 0 EmptyString) ∅ false.
Definition DefaultRoot (configPath : string) : string := configPath +:+ ".checkpoints".

(** Assignments to fields of the store. *)
Definition set_counts (files bytes : Z) (s : Store) : Store :=
  let st := sr_status s in
  mkStore (mkStatus files bytes (st_Failures st) (st_Corruptions st) (st_LastErrorCode st))
    (sr_records s) (sr_initialized s).
Definition set_records (records : gmap Key record) (s : Store) : Store := mkStore (sr_status s) records (sr_initialized s).
Definition set_scanned (records : gmap Key record) (initialized : bool) (s : Store) : Store :=
  mkStore (sr_status s) records initialized.
Definition record_failure (code : string) (s : Store) : Store :=
  let st := sr_status s in
  mkStore (mkStatus (st_Files st) (st_DataBytes st) (u64_succ (st_Failures st))
             (if code =s CorruptCode then u64_succ (st_Corruptions st) else st_Corruptions st) code)
    (sr_records s) (sr_initialized s).

(** A directory entry, and what [Lstat] and [Stat] show of a file. *)
Record dirEntry := mkDirEntry { de_Name : string; de_IsDir : bool }.

(** The calls [LocalState.operations] does not have. [unixOpen] is [unix.Open] with
    [O_NOFOLLOW]; [readAll] is [io.ReadAll] of a limited reader. *)
Record calls (W : Type) := mkCalls {
  lstat : string -> W -> ((bool * bool) + error) * W;
  chmodPath : string -> W -> option error * W;
  readDir : string -> W -> (list dirEntry + error) * W;
  unixOpen : string -> W -> (string + error) * W;
  statFile : string -> W -> ((bool * Z) + error) * W;
  readAll : string -> Z -> W -> (string * option error) * W;
  isLoop : error -> bool;
  pathError : error -> option error;
}.
Arguments lstat {W}. Arguments chmodPath {W}. Arguments readDir {W}. Arguments unixOpen {W}.
Arguments statFile {W}. Arguments readAll {W}. Arguments isLoop {W}. Arguments pathError {W}.

(** What [readEnvelope] fails with: the sentinel, or a file-system error. *)
Inductive read_error := errCorruptEnvelope | FilesystemError (err : error).

Definition totalBytes (records : gmap Key record) : Z := map_fold (fun _ r total => total + len (rc_data r)) 0 records.

Definition combineCleanupOutcomes (first second : string) : string :=
  if (first =s CommittedDurabilityUncertain) || (second =s CommittedDurabilityUncertain) then CommittedDurabilityUncertain
  else if (first =s Committed) || (second =s Committed) then Committed
  else NotCommitted.

Record cleanupResult := mkCleanup { cl_outcome : string; cl_removed : list string; cl_err : option error }.

(** What the loop of [scanLocked] has gathered. *)
Record scanning := mkScanning { sc_records : gmap Key record; sc_cleanup : list string; sc_total : Z }.

Section Operations.
Context {W : Type} (root : string) (lops : operations W envelope) (os : calls W) (sha256 : string -> list Z).
Notation act := (act Store unit W).

Definition path_of (key : Key) : string := filepath_Join root (filename sha256 key).

Definition safeFilesystemError (err : error) : error := default err (pathError os err).

Definition recordLocked (code : string) : act unit := modify (record_failure code).
Definition failLocked (code outcome : string) (err : error) : act error :=
  _ ← recordLocked code; mret (Error code outcome err).
Definition cleanupErrorLocked (outcome : string) (err : error) : act error :=
  failLocked (if outcome =s CommittedDurabilityUncertain then DurabilityUncertainCode else IOFailedCode) outcome err.

Definition ensureRoot : act (option error) :=
  err ← query (mkdirAll lops root);
  match err with
  | Some err => mret (Some (safeFilesystemError err))
  | None =>
    info ← query (lstat os root);
    match info with
    | inr err => mret (Some (safeFilesystemError err))
    | inl (isDir, symlink) =>
      if negb isDir || symlink then mret (Some (Errorf "checkpoint root is not a directory" []))
      else err ← query (chmodPath os root); mret (safeFilesystemError <$> err)
    end
  end.

Definition openCheckpointNoFollow (path : string) : act (string + read_error) :=
  file ← query (unixOpen os path);
  mret match file with
       | inl file => inl file
       | inr err => inr (if isLoop os err then errCorruptEnvelope else FilesystemError (safeFilesystemError err))
       end.

Definition readEnvelope (path : string) : act (envelope + read_error) :=
  file ← openCheckpointNoFollow path;
  match file with
  | inr err => mret (inr err)
  | inl file =>
    info ← query (statFile os file);
    match info with
    | inr err => _ ← query (closeFile lops file); mret (inr (FilesystemError (safeFilesystemError err)))
    | inl (regular, size) =>
      if negb regular || (maxEnvelopeBytes <? size) then
        _ ← query (closeFile lops file); mret (inr errCorruptEnvelope)
      else
        err ← query (chmod lops file);
        match err with
        | Some err => _ ← query (closeFile lops file); mret (inr (FilesystemError (safeFilesystemError err)))
        | None =>
          data ← query (readAll os file (maxEnvelopeBytes + 1));
          closeErr ← query (closeFile lops file);
          match errors_Join [data.2; closeErr] with
          | Some err => mret (inr (FilesystemError (safeFilesystemError err)))
          | None =>
            mret match decode_envelope data.1 with Some value => inl value | None => inr errCorruptEnvelope end
          end
        end
    end
  end.

(** [syncDirectory]. *)
Definition syncRoot : act (option error) :=
  directory ← query (openDirectory lops root);
  match directory with
  | inr err => mret (Some (safeFilesystemError err))
  | inl directory =>
    syncErr ← query (syncDirectory lops directory);
    closeErr ← query (closeDirectory lops directory);
    mret (safeFilesystemError <$> errors_Join [syncErr; closeErr])
  end.

(** The loop of [removePaths]: what was removed, and the error that stopped it. *)
Fixpoint remove_each (paths : list string) : act (list string * option error) :=
  match paths with
  | [] => mret ([], None)
  | path :: paths =>
    err ← query (remove lops path);
    match err with
    | Some err =>
      if isNotExist lops err then remove_each paths else mret ([], Some (safeFilesystemError err))
    | None => rest ← remove_each paths; mret (path :: rest.1, rest.2)
    end
  end.

Definition removePaths (paths : list string) : act cleanupResult :=
  removed ← remove_each (SortFunc cmp_strings paths);
  match removed.1 with
  | [] => mret (mkCleanup NotCommitted [] removed.2)
  | _ =>
    syncErr ← syncRoot;
    mret match syncErr with
         | Some err => mkCleanup CommittedDurabilityUncertain removed.1 (errors_Join [removed.2; Some err])
         | None => mkCleanup Committed removed.1 removed.2
         end
  end.

Definition removeAndSync (path : string) : act (string * option error) :=
  result ← removePaths [path]; mret (cl_outcome result, cl_err result).

(** The body of the loop of [scanLocked] for one entry; an error ends the scan. *)
Definition scan_entry (entry : dirEntry) (acc : scanning) : act (scanning + error) :=
  let name := de_Name entry in
  let path := filepath_Join root name in
  let cleanup := mkScanning (sc_records acc) (sc_cleanup acc ++ [path]) (sc_total acc) in
  if HasPrefix name ".bsbctl-state-" then mret (inl cleanup)
  else if de_IsDir entry || negb (HasSuffix name ".json") then mret (inl acc)
  else
    value ← readEnvelope path;
    match value with
    | inr (FilesystemError err) => err ← failLocked IOFailedCode NotCommitted err; mret (inr err)
    | inr errCorruptEnvelope => _ ← recordLocked CorruptCode; mret (inl cleanup)
    | inl value =>
      if negb (name =s filename sha256 (envelope_key value)) then _ ← recordLocked CorruptCode; mret (inl cleanup)
      else if MaxAggregateDataBytes - len (ev_Data value) <? sc_total acc
      then _ ← recordLocked CapacityCode; mret (inl cleanup)
      else mret (inl (mkScanning (<[envelope_key value := mkRecord path (ev_Data value)]> (sc_records acc))
                        (sc_cleanup acc) (sc_total acc + len (ev_Data value))))
    end.

Fixpoint scan_entries (entries : list dirEntry) (acc : scanning) : act (scanning + error) :=
  match entries with
  | [] => mret (inl acc)
  | entry :: entries =>
    acc ← scan_entry entry acc;
    match acc with inl acc => scan_entries entries acc | inr err => mret (inr err) end
  end.

(** The records, the outcome of the clean-up, and the error. *)
Definition scanLocked : act ((gmap Key record * string) + error) :=
  entries ← query (readDir os root);
  match entries with
  | inr err => err ← failLocked IOFailedCode NotCommitted (safeFilesystemError err); mret (inr err)
  | inl entries =>
    acc ← scan_entries (SortFunc (cmp_key de_Name) entries) (mkScanning ∅ [] 0);
    match acc with
    | inr err => mret (inr err)
    | inl acc =>
      _ ← modify (set_counts (Z.of_nat (size (sc_records acc))) (sc_total acc));
      result ← removePaths (sc_cleanup acc);
      match cl_err result with
      | Some err =>
        _ ← modify (set_scanned (sc_records acc) false);
        err ← cleanupErrorLocked (cl_outcome result) err; mret (inr err)
      | None =>
        _ ← modify (set_scanned (sc_records acc) true);
        mret (inl (sc_records acc, cl_outcome result))
      end
    end
  end.

Definition inventoryLocked : act (gmap Key record + error) :=
  s ← read;
  if sr_initialized s then mret (inl (sr_records s))
  else scanned ← scanLocked; mret match scanned with inl (records, _) => inl records | inr err => inr err end.

(** The operations start with these checks. *)
Definition prepare (key : Key) : act (option error) :=
  match validateKey key with
  | Some err => err ← failLocked InvalidCode NotCommitted err; mret (Some err)
  | None =>
    err ← ensureRoot;
    match err with
    | Some err => err ← failLocked IOFailedCode NotCommitted err; mret (Some err)
    | None => mret None
    end
  end.

(** [Save] after the inventory: the capacity check, the replacement and the accounting. *)
Definition save_record (key : Key) (canonical : string) (records : gmap Key record) : act (string * option error) :=
  let total := totalBytes records - match records !! key with Some current => len (rc_data current) | None => 0 end in
  if MaxAggregateDataBytes - len canonical <? total then
    err ← failLocked CapacityCode NotCommitted (Errorf "aggregate checkpoint capacity exceeded" []);
    mret (NotCommitted, Some err)
  else
    let value := mkEnvelope envelopeVersion (key_PluginID key) (key_InstanceID key) (key_Generation key) canonical in
    replaced ← query (fun w => let '(outcome, err, w) := replaceJSON lops (path_of key) value w in ((outcome, err), w));
    let '(outcome, replaceErr) := replaced in
    _ ← run_if (IsCommitted outcome) (modify (fun s =>
      let existed := match records !! key with Some _ => true | None => false end in
      set_records (<[key := mkRecord (path_of key) canonical]> records)
        (set_counts (if existed then st_Files (sr_status s) else st_Files (sr_status s) + 1) (total + len canonical) s)));
    match replaceErr with
    | None => mret (outcome, None)
    | Some err =>
      err ← failLocked (if outcome =s CommittedDurabilityUncertain then DurabilityUncertainCode else CommitFailedCode)
              outcome err;
      mret (outcome, Some err)
    end.

Definition Save (key : Key) (data : string) : act (string * option error) :=
  match validateKey key with
  | Some err => err ← failLocked InvalidCode NotCommitted err; mret (NotCommitted, Some err)
  | None =>
    match canonicalData data with
    | inr err => err ← failLocked InvalidCode NotCommitted err; mret (NotCommitted, Some err)
    | inl canonical =>
      err ← ensureRoot;
      match err with
      | Some err => err ← failLocked IOFailedCode NotCommitted err; mret (NotCommitted, Some err)
      | None =>
        records ← inventoryLocked;
        match records with
        | inr err => mret (NotCommitted, Some err)
        | inl records => save_record key canonical records
        end
      end
    end
  end.

(** The branch of [Load] that removes a file it must not deliver. *)
Definition discard (key : Key) (path : string) : act (option string * option error) :=
  _ ← recordLocked CorruptCode;
  removed ← removeAndSync path;
  let '(outcome, removeErr) := removed in
  _ ← modify (fun s =>
    if IsCommitted outcome && sr_initialized s then
      match sr_records s !! key with
      | Some current =>
        set_records (delete key (sr_records s))
          (set_counts (Z.max 0 (st_Files (sr_status s) - 1))
             (Z.max 0 (st_DataBytes (sr_status s) - len (rc_data current))) s)
      | None => s
      end
    else s);
  match removeErr with
  | Some err => err ← cleanupErrorLocked outcome err; mret (None, Some err)
  | None => mret (None, None)
  end.

(** [Some data] is the data with [true]. *)
Definition Load (key : Key) : act (option string * option error) :=
  err ← prepare key;
  match err with
  | Some err => mret (None, Some err)
  | None =>
    records ← inventoryLocked;
    match records with
    | inr err => mret (None, Some err)
    | inl records =>
      match records !! key with
      | None => mret (None, None)
      | Some current =>
        let path := rc_path current in
        value ← readEnvelope path;
        match value with
        | inr (FilesystemError err) =>
          if isNotExist lops err then mret (None, None)
          else err ← failLocked IOFailedCode NotCommitted err; mret (None, Some err)
        | inr errCorruptEnvelope => discard key path
        | inl value =>
          if negb (bool_decide (envelope_key value = key))
             || negb (filepath_Base path =s filename sha256 (envelope_key value))
          then discard key path
          else
            _ ← modify (fun s =>
              if sr_initialized s then set_records (<[key := mkRecord path (ev_Data value)]> (sr_records s)) s else s);
            mret (Some (ev_Data value), None)
        end
      end
    end
  end.

Definition Reset (key : Key) : act (option error) :=
  err ← prepare key;
  match err with
  | Some err => mret (Some err)
  | None =>
    let path := path_of key in
    value ← readEnvelope path;
    let missing := match value with inr (FilesystemError err) => isNotExist lops err | _ => false end in
    if missing then mret None
    else
      removed ← removeAndSync path;
      let '(outcome, removeErr) := removed in
      _ ← match value with
          | inl value =>
            run_if (IsCommitted outcome && bool_decide (envelope_key value = key)) (modify (fun s =>
              set_counts (Z.max 0 (st_Files (sr_status s) - 1))
                (Z.max 0 (st_DataBytes (sr_status s) - len (ev_Data value)))
                (if sr_initialized s then set_records (delete key (sr_records s)) s else s)))
          | inr _ => mret tt
          end;
      match removeErr with
      | Some err => err ← cleanupErrorLocked outcome err; mret (Some err)
      | None => mret None
      end
  end.

(** The first key that is not valid. *)
Fixpoint first_invalid (active : list Key) : option error :=
  match active with
  | [] => None
  | key :: active => match validateKey key with Some err => Some err | None => first_invalid active end
  end.

Definition Reconcile (active : list Key) : act (option error) :=
  match first_invalid active with
  | Some err => err ← failLocked InvalidCode NotCommitted err; mret (Some err)
  | None =>
    err ← ensureRoot;
    match err with
    | Some err => err ← failLocked IOFailedCode NotCommitted err; mret (Some err)
    | None =>
      scanned ← scanLocked;
      match scanned with
      | inr err => mret (Some err)
      | inl (records, scanOutcome) =>
        let stale := filter (fun kr => kr.1 ∉ active) records in
        result ← removePaths (map (fun kr => rc_path kr.2) (map_to_list stale));
        let kept := filter (fun kr => ~ (kr.1 ∉ active /\ rc_path kr.2 ∈ cl_removed result)) records in
        _ ← modify (fun s => set_counts (Z.of_nat (size kept)) (totalBytes kept) (set_records kept s));
        match cl_err result with
        | Some err =>
          err ← cleanupErrorLocked (combineCleanupOutcomes scanOutcome (cl_outcome result)) err; mret (Some err)
        | None => mret None
        end
      end
    end
  end.

Definition GetStatus : act Status := s ← read; mret (sr_status s).
End Operations.
