(* ===== verification/CheckpointSafe.v ===== *)
(** * The checkpoint store refines a finite map

    [Refines M s w]: on the visible files of the world [w] every key has exactly the data
    the map [M] gives it, and the store's inventory, once it has one, is that map. The
    class [CheckpointFiles] states the documented behaviour of the file-system calls,
    every one of which may fail. *)

From Stdlib Require Import ZArith Lia.
From S2P Require Import Prelude GoStrings Protocol GoTime GoJson JsonText LocalState GoEncoding Actions CheckpointEnvelope Checkpoint.

(** A name that is one element of a path. *)
Definition simple_name (name : string) : Prop :=
  forall_bytes (fun b => negb (b =? 47)) name = true /\ one_of name [EmptyString; "."; ".."]%string = false.

Class CheckpointFiles {W} (root : string) (lops : operations W envelope) (os : calls W)
    (content : W -> string -> option string) (temporary : string -> Prop) : Prop := {
  cf_files :: FileSystem lops content encode_envelope temporary;
  temporary_spec p : temporary p -> HasPrefix (filepath_Base p) ".bsbctl-state-" = true;
  lstat_spec p w q : content (lstat os p w).2 q = content w q;
  chmodPath_spec p w q : content (chmodPath os p w).2 q = content w q;
  readDir_keeps p w q : content (readDir os p w).2 q = content w q;
  unixOpen_keeps p w q : content (unixOpen os p w).2 q = content w q;
  statFile_keeps p w q : content (statFile os p w).2 q = content w q;
  readAll_keeps p n w q : content (readAll os p n w).2 q = content w q;
  (** a directory lists its files, each once *)
  readDir_spec w entries : (readDir os root w).1 = inl entries ->
    NoDup (map de_Name entries) /\ Forall (fun e => simple_name (de_Name e)) entries
    /\ forall name, simple_name name -> content w (filepath_Join root name) <> None ->
         mkDirEntry name false ∈ entries;
  (** files are known by their paths; what is missing or a link cannot be opened *)
  unixOpen_spec p w : match (unixOpen os p w).1 with
    | inl file => file = p
    | inr err => (isLoop os err = true -> content w p = None)
                 /\ (isNotExist lops (safeFilesystemError os err) = true -> content w p = None)
    end;
  statFile_spec p w : match (statFile os p w).1 with
    | inl (regular, size) => match content w p with Some b => regular = true /\ size = len b | None => regular = false end
    | inr err => isNotExist lops (safeFilesystemError os err) = false
    end;
  chmod_exists p w err : (chmod lops p w).1 = Some err -> isNotExist lops (safeFilesystemError os err) = false;
  readAll_spec p n w b : content w p = Some b -> (readAll os p n w).1.2 = None ->
    (readAll os p n w).1.1 = take_bytes (Z.to_nat n) b;
  read_exists p n w w' err :
    errors_Join [(readAll os p n w).1.2; (closeFile lops p w').1] = Some err ->
    isNotExist lops (safeFilesystemError os err) = false;
  remove_missing p w err : (remove lops p w).1 = Some err -> isNotExist lops err = true -> content w p = None;
}.

(** ** Paths *)


Lemma split_snoc x name : forall_bytes (fun b => negb (b =? 47)) name = true ->
  split_byte "/" (x +:+ "/" +:+ name) = split_byte "/" x ++ [name].
Proof.
  intros H. induction x as [|a x IH].
  - change (EmptyString +:+ "/" +:+ name) with (String "/" name). cbn [split_byte]. rewrite Ascii.eqb_refl.
    by rewrite (split_byte_none "/").
  - change (String a x +:+ "/" +:+ name) with (String a (x +:+ "/" +:+ name)). cbn [split_byte]. rewrite IH.
    destruct (Ascii.eqb a "/"); [done|]. pose proof (split_byte_nonempty "/" x) as Hx. by destruct (split_byte "/" x).
Qed.

Lemma HasPrefix_slash root : root <> EmptyString -> forall name, HasPrefix (root +:+ "/" +:+ name) "/" = HasPrefix root "/".
Proof. destruct root as [|a root]; [done|]. intros _ name. cbn. by destruct root. Qed.

Lemma join_snoc (comps : list string) (name : string) : comps <> [] ->
  join_strings "/" (comps ++ [name]) = join_strings "/" comps +:+ "/" +:+ name.
Proof.
  induction comps as [|c comps IH]; [done|]. intros _. destruct comps as [|c' comps]; [done|].
  cbn [app]. change (c :: c' :: comps ++ [name]) with (c :: (c' :: comps) ++ [name]).
  cbn [join_strings]. specialize (IH ltac:(done)). cbn [app] in IH |- *. rewrite IH. by rewrite !append_assoc.
Qed.

(** The base name of a file in the root is the name it was joined with. *)
Lemma Base_Join root name : simple_name name -> filepath_Base (filepath_Join root name) = name.
Proof.
  intros [Hslash Hdots].
  assert (Hne : name <> EmptyString) by (by intros ->).
  assert (Hstep : forall rooted out, clean_step rooted out name = name :: out).
  { intros rooted out. unfold clean_step. unfold one_of in *. cbn in Hdots |- *.
    destruct (name =s EmptyString); [done|]. destruct (name =s "."); [done|]. by destruct (name =s ".."). }
  assert (Hbase : forall x, filepath_Base (x +:+ "/" +:+ name) = name).
  { intros x. unfold filepath_Base. destruct (x +:+ "/" +:+ name =s EmptyString) eqn:E; [by destruct x|].
    rewrite split_snoc by done. rewrite rev_app_distr. cbn [rev app drop_empty]. by destruct name. }
  assert (Hown : filepath_Base name = name).
  { unfold filepath_Base. destruct (String.eqb_spec name EmptyString); [done|].
    rewrite (split_byte_none "/") by done. cbn. by destruct name. }
  unfold filepath_Join, Clean. destruct (String.eqb_spec root EmptyString) as [->|Hroot].
  - destruct (String.eqb_spec name EmptyString); [done|].
    assert (HasPrefix name "/" = false) as ->.
    { destruct name as [|a name]; [done|]. cbn in Hslash |- *. destruct (Ascii.eqb_spec a "/") as [->|]; [done|done]. }
    unfold clean_components. rewrite (split_byte_none "/") by done. cbn [fold_left]. rewrite Hstep. cbn [rev app join_strings].
    by destruct (String.eqb_spec name EmptyString).
  - destruct (String.eqb_spec (root +:+ "/" +:+ name) EmptyString) as [He|_]; [by destruct root|].
    rewrite HasPrefix_slash by done. unfold clean_components. rewrite split_snoc, fold_left_app by done. cbn [fold_left].
    rewrite Hstep. cbn [rev]. set (comps := rev _). destruct (decide (comps = [])) as [->|Hc].
    + cbn [app join_strings]. destruct (HasPrefix root "/"); [apply (Hbase EmptyString)|].
      by destruct (String.eqb_spec name EmptyString).
    + rewrite join_snoc by done. destruct (HasPrefix root "/"); [apply (Hbase (String "/" _))|].
      destruct (String.eqb_spec (join_strings "/" comps +:+ "/" +:+ name) EmptyString) as [He|_]; [|apply Hbase].
      by destruct (join_strings "/" comps).
Qed.

Lemma Join_inj root name name' : simple_name name -> simple_name name' ->
  filepath_Join root name = filepath_Join root name' -> name = name'.
Proof. intros H H' Heq. by rewrite <- (Base_Join root name H), <- (Base_Join root name' H'), Heq. Qed.

(** ** File names *)

Section Names.
Context (root : string) (sha256 : string -> list Z) (Hsha : forall s, Forall (fun b => 0 <= b < 256) (sha256 s)).

Lemma filename_simple key : simple_name (filename sha256 key).
Proof.
  unfold filename. pose proof (hex_of_bytes _ (Hsha (identity_json key))) as Hh. split.
  - rewrite forall_bytes_app. rewrite (forall_bytes_impl is_hex_lower (fun b => negb (b =? 47))); [done| |done].
    intros b Hb. unfold is_hex_lower, between in Hb. lia.
  - unfold one_of. cbn [existsb]. rewrite orb_false_r.
    assert (H : forall t, len t < 5 -> (hex_of (sha256 (identity_json key)) +:+ ".json" =s t) = false).
    { intros t Ht. destruct (String.eqb_spec (hex_of (sha256 (identity_json key)) +:+ ".json") t) as [<-|]; [|done].
      rewrite len_app in Ht. pose proof (len_nonneg (hex_of (sha256 (identity_json key)))). change (len ".json") with 5 in Ht. lia. }
    by rewrite !H.
Qed.

Lemma filename_json key : HasSuffix (filename sha256 key) ".json" = true.
Proof. apply HasSuffix_app. Qed.

Lemma filename_not_temporary key : HasPrefix (filename sha256 key) ".bsbctl-state-" = false.
Proof.
  unfold filename. pose proof (hex_of_bytes _ (Hsha (identity_json key))) as Hh.
  destruct (hex_of (sha256 (identity_json key))) as [|c h]; [done|]. cbn in Hh |- *.
  apply andb_prop in Hh as [Hc _]. destruct (Ascii.eqb_spec c ".") as [->|]; [done|done].
Qed.

Lemma path_inj key name : simple_name name -> path_of root sha256 key = filepath_Join root name -> filename sha256 key = name.
Proof. intros Hn. apply Join_inj; [apply filename_simple|done]. Qed.
End Names.

(** ** Total sizes *)

Lemma totalBytes_insert_delete k r m : m !! k = Some r -> totalBytes m = len (rc_data r) + totalBytes (delete k m).
Proof.
  intros H. unfold totalBytes. rewrite (map_fold_delete_L _ _ k r m); [lia| |done]. intros. lia.
Qed.

Lemma totalBytes_insert k r m : m !! k = None -> totalBytes (<[k := r]> m) = len (rc_data r) + totalBytes m.
Proof. intros H. unfold totalBytes. rewrite map_fold_insert_L; [lia|intros; lia|done]. Qed.

Lemma totalBytes_replace k r m :
  totalBytes (<[k := r]> m) = len (rc_data r) + totalBytes m - match m !! k with Some r' => len (rc_data r') | None => 0 end.
Proof.
  destruct (m !! k) as [r'|] eqn:E; [|rewrite totalBytes_insert by done; lia].
  rewrite (totalBytes_insert_delete k r (<[k := r]> m)) by apply lookup_insert_eq. rewrite delete_insert_eq.
  rewrite (totalBytes_insert_delete k r' m E). lia.
Qed.

Lemma totalBytes_nonneg m : 0 <= totalBytes m.
Proof.
  induction m as [|k r m Hk IH] using map_ind; [done|]. rewrite totalBytes_insert by done.
  pose proof (len_nonneg (rc_data r)). lia.
Qed.

Lemma totalBytes_subseteq m1 m2 : m1 ⊆ m2 -> totalBytes m1 <= totalBytes m2.
Proof.
  revert m2. induction m1 as [|k r m1 Hk IH] using map_ind; intros m2 Hsub; [apply totalBytes_nonneg|].
  assert (H2 : m2 !! k = Some r) by (eapply lookup_weaken; [apply lookup_insert_eq|exact Hsub]).
  rewrite totalBytes_insert, (totalBytes_insert_delete k r m2) by done.
  assert (m1 ⊆ delete k m2). { apply insert_delete_subseteq in Hsub; [|done]. done. }
  specialize (IH _ H). lia.
Qed.

(** ** The operations on the visible files *)

Section Proofs.
Context {W : Type} (root : string) (lops : operations W envelope) (os : calls W)
  (content : W -> string -> option string) (temporary : string -> Prop)
  {Hfiles : CheckpointFiles root lops os content temporary}.
Context (sha256 : string -> list Z) (Hsha : forall s, Forall (fun b => 0 <= b < 256) (sha256 s)).

Notation act := (act Store unit W).
Notation run := (Run Store unit W).
Notation path_of := (path_of root sha256).
Notation readEnvelope := (readEnvelope lops os).

(** Two worlds show the same files. *)
Definition same_files (w w' : W) : Prop := forall p, content w' p = content w p.

Lemma same_files_refl w : same_files w w.
Proof. done. Qed.
Lemma same_files_trans w w1 w2 : same_files w w1 -> same_files w1 w2 -> same_files w w2.
Proof. intros H1 H2 p. by rewrite H2, H1. Qed.

(** The store counts and holds the same checkpoints. *)
Record same_inventory (s s' : Store) : Prop := {
  si_records : sr_records s' = sr_records s;
  si_initialized : sr_initialized s' = sr_initialized s;
  si_files : st_Files (sr_status s') = st_Files (sr_status s);
  si_bytes : st_DataBytes (sr_status s') = st_DataBytes (sr_status s);
}.

Lemma same_inventory_refl s : same_inventory s s.
Proof. done. Qed.
Lemma same_inventory_trans s s1 s2 : same_inventory s s1 -> same_inventory s1 s2 -> same_inventory s s2.
Proof. intros [] []. split; congruence. Qed.
Lemma same_inventory_failure code s : same_inventory s (record_failure code s).
Proof. done. Qed.

(** Nothing happened but calls that change no file, and failures that were noted. *)
Definition calm (r r' : run) : Prop :=
  same_inventory (rn_state r) (rn_state r') /\ same_files (rn_world r) (rn_world r').

Lemma calm_refl r : calm r r.
Proof. split; [apply same_inventory_refl|apply same_files_refl]. Qed.
Lemma calm_trans r r1 r2 : calm r r1 -> calm r1 r2 -> calm r r2.
Proof. intros [] []. split; [by eapply same_inventory_trans|by eapply same_files_trans]. Qed.

Lemma wp_failLocked code outcome err r :
  wp (failLocked code outcome err) (fun e r' => calm r r' /\ e = Error code outcome err) r.
Proof. unfold failLocked, recordLocked. wp_run. split; [split; [apply same_inventory_failure|apply same_files_refl]|done]. Qed.

Lemma wp_cleanupErrorLocked outcome err r :
  wp (cleanupErrorLocked outcome err) (fun _ r' => calm r r') r.
Proof. unfold cleanupErrorLocked. wp_call (wp_failLocked _ _ _ _). by intros a r' [H _]. Qed.

Lemma wp_recordLocked code r : wp (recordLocked code) (fun _ r' => calm r r') r.
Proof. unfold recordLocked. wp_run. split; [apply same_inventory_failure|apply same_files_refl]. Qed.

(** What reading a file tells of its contents. *)
Definition read_result (w : W) (path : string) (v : envelope + read_error) : Prop :=
  match v with
  | inl e => exists b, content w path = Some b /\ decode_envelope b = Some e
  | inr errCorruptEnvelope => forall b, content w path = Some b -> decode_envelope b = None
  | inr (FilesystemError err) => isNotExist lops err = true -> content w path = None
  end.

Lemma take_bytes_long k s : (String.length s <= k)%nat -> take_bytes k s = s.
Proof. revert k. induction s as [|a s IH]; intros [|k] H; simpl in *; try done; [lia|]. by rewrite IH by lia. Qed.

Lemma wp_readEnvelope path r :
  wp (readEnvelope path) (fun v r' => rn_state r' = rn_state r /\ same_files (rn_world r) (rn_world r')
                                     /\ read_result (rn_world r) path v) r.
Proof.
  destruct r as [s ev w]. unfold Checkpoint.readEnvelope, openCheckpointNoFollow. wp_run.
  pose proof (unixOpen_spec path w) as Hopen. pose proof (unixOpen_keeps path w) as K1.
  destruct (unixOpen os path w) as [[file|err] w1]; cbn [fst snd] in *.
  2: { wp_run. split_and!; [done|exact K1|]. destruct Hopen as [Hl Hn]. destruct (isLoop os err); cbn.
       - intros b Hb. specialize (Hl eq_refl). congruence.
       - exact Hn. }
  subst file. wp_run. pose proof (statFile_spec path w1) as Hstat. pose proof (statFile_keeps path w1) as K2.
  rewrite K1 in Hstat. destruct (statFile os path w1) as [[[regular size]|err] w2]; cbn [fst snd] in *.
  2: { wp_run. split_and!; [done|intros p; by rewrite closeFile_spec, K2, K1|]. cbn. congruence. }
  destruct (negb regular || (maxEnvelopeBytes <? size)) eqn:Hbad.
  { wp_run. split_and!; [done|intros p; by rewrite closeFile_spec, K2, K1|]. cbn. intros b Hb. rewrite Hb in Hstat.
    destruct Hstat as [-> ->]. cbn in Hbad. unfold decode_envelope. by rewrite Hbad. }
  apply orb_false_iff in Hbad as [Hreg Hsize]. wp_run.
  pose proof (chmod_exists path w2) as Hch. pose proof (chmod_spec (ops := lops) path w2) as K3.
  destruct (chmod lops path w2) as [[err|] w3]; cbn [fst snd] in *.
  { wp_run. split_and!; [done|intros p; by rewrite closeFile_spec, K3, K2, K1|]. cbn. rewrite (Hch err eq_refl). congruence. }
  wp_run. pose proof (readAll_keeps path (maxEnvelopeBytes + 1) w3) as K4.
  destruct (content w path) as [b|] eqn:Hb; [|by destruct regular].
  destruct Hstat as [_ ->]. pose proof (readAll_spec path (maxEnvelopeBytes + 1) w3 b) as Hread.
  pose proof (read_exists path (maxEnvelopeBytes + 1) w3) as Hexists.
  destruct (readAll os path (maxEnvelopeBytes + 1) w3) as [[data readErr] w4]; cbn [fst snd] in *.
  specialize (Hexists w4). pose proof (closeFile_spec (ops := lops) path w4) as K5.
  destruct (closeFile lops path w4) as [closeErr w5]; cbn [fst snd] in *.
  assert (K : same_files w w5) by (intros p; by rewrite K5, K4, K3, K2, K1).
  destruct (errors_Join [readErr; closeErr]) as [err|] eqn:Hj; wp_run.
  { split_and!; [done|exact K|]. cbn. rewrite (Hexists err eq_refl). congruence. }
  apply errors_Join_None in Hj. rewrite !all_nil_cons in Hj. destruct Hj as (-> & _ & _).
  rewrite Hread; [|by rewrite K3, K2, K1|done]. rewrite take_bytes_long by (unfold len, maxEnvelopeBytes in *; lia).
  split_and!; [done|exact K|]. destruct (decode_envelope b) as [e|] eqn:Hd; cbn; [by exists b|]. intros b' Hb'. congruence.
Qed.

Lemma wp_ensureRoot r :
  wp (ensureRoot root lops os) (fun _ r' => rn_state r' = rn_state r /\ same_files (rn_world r) (rn_world r')) r.
Proof.
  destruct r as [s ev w]. unfold ensureRoot. wp_run. pose proof (mkdirAll_spec (ops := lops) root w) as K1.
  destruct (mkdirAll lops root w) as [[err|] w1]; cbn [fst snd] in *; wp_run; [done|].
  pose proof (lstat_spec root w1) as K2. destruct (lstat os root w1) as [[[d l]|err] w2]; cbn [fst snd] in *; wp_run.
  2: { split; [done|]. intros p. by rewrite K2, K1. }
  destruct (negb d || l); wp_run; (split; [done|]); intros p; [by rewrite K2, K1|by rewrite chmodPath_spec, K2, K1].
Qed.

(** ** Removal *)

Record removes (w w' : W) (paths removed : list string) : Prop := {
  rm_sub : removed ⊆ paths;
  rm_gone p : p ∈ removed -> content w' p = None;
  rm_keep p : p ∉ removed -> content w' p = content w p;
}.

Lemma removes_nil w w' : same_files w w' -> removes w w' [] [].
Proof. intros H. split; [done|by intros p ?%not_elem_of_nil|intros p _; apply H]. Qed.

Lemma wp_remove_each paths r :
  wp (remove_each lops os paths) (fun res r' => rn_state r' = rn_state r
      /\ removes (rn_world r) (rn_world r') paths res.1
      /\ (res.2 = None -> forall p, p ∈ paths -> content (rn_world r') p = None)) r.
Proof.
  revert r. induction paths as [|path paths IH]; intros [s ev w]; cbn [remove_each].
  { wp_run. split_and!; [done|by apply removes_nil|by intros _ p ?%not_elem_of_nil]. }
  wp_run. pose proof (remove_spec (ops := lops) path w) as Hr. pose proof (remove_missing path w) as Hm.
  destruct (remove lops path w) as [[err|] w1]; cbn [fst snd] in *.
  - specialize (Hm err eq_refl). destruct (isNotExist lops err).
    + eapply wp_mono; [apply IH|]. cbn. intros res r' (Hs & [Hsub Hgone Hkeep] & Hall). split_and!; [done| |].
      * split; [set_solver|done|]. intros p Hp. by rewrite Hkeep, Hr.
      * intros He p [-> | Hp]%elem_of_cons; [|by apply Hall]. destruct (decide (path ∈ res.1)) as [Hin|Hn]; [by apply Hgone|].
        rewrite Hkeep, Hr by done. by apply Hm.
    + wp_run. split_and!; [done| |done]. split; [apply list_subseteq_nil|by intros p ?%not_elem_of_nil|]. intros p _. apply Hr.
  - destruct Hr as [Hgone1 Hkeep1]. eapply wp_step; [apply IH|]. cbn. intros res r' (Hs & [Hsub Hgone Hkeep] & Hall).
    wp_run. assert (Hpath : content (rn_world r') path = None).
    { destruct (decide (path ∈ res.1)) as [Hin|Hn]; [by apply Hgone|]. by rewrite Hkeep, Hgone1. }
    split_and!; [done| |].
    + split; [set_solver|intros p [-> | Hp]%elem_of_cons; auto|].
      intros p [Hne Hp]%not_elem_of_cons. by rewrite Hkeep, Hkeep1.
    + intros He p [-> | Hp]%elem_of_cons; auto.
Qed.

Lemma wp_syncRoot r :
  wp (syncRoot root lops os) (fun _ r' => rn_state r' = rn_state r /\ same_files (rn_world r) (rn_world r')) r.
Proof.
  destruct r as [s ev w]. unfold syncRoot. wp_run. pose proof (openDirectory_spec (ops := lops) root w) as K1.
  destruct (openDirectory lops root w) as [[d|err] w1]; cbn [fst snd] in *; wp_run; [|done].
  split; [done|]. intros p. by rewrite closeDirectory_spec, syncDirectory_spec, K1.
Qed.

(** The outcome of a clean-up says whether anything was removed. *)
Definition cleanup_result (w w' : W) (paths : list string) (res : cleanupResult) : Prop :=
  removes w w' paths (cl_removed res)
  /\ (cl_err res = None -> forall p, p ∈ paths -> content w' p = None)
  /\ (IsCommitted (cl_outcome res) = true <-> cl_removed res <> []).

Lemma removes_same w w1 w2 paths removed : removes w w1 paths removed -> same_files w1 w2 -> removes w w2 paths removed.
Proof. intros [] H. split; [done|..]; intros p Hp; rewrite H; auto. Qed.

Lemma wp_removePaths paths r :
  wp (removePaths root lops os paths)
    (fun res r' => rn_state r' = rn_state r /\ cleanup_result (rn_world r) (rn_world r') paths res) r.
Proof.
  unfold removePaths. eapply wp_step; [apply wp_remove_each|]. intros [removed err] r1 (Hs & Hr & Hall). cbn [fst snd] in *.
  assert (Hrem : removes (rn_world r) (rn_world r1) paths removed).
  { destruct Hr as [Hsub Hgone Hkeep]. split; [|done..]. intros p Hp. apply (elem_of_SortFunc cmp_strings), Hsub, Hp. }
  assert (Hall' : err = None -> forall p, p ∈ paths -> content (rn_world r1) p = None).
  { intros He p Hp. apply (Hall He). by apply elem_of_SortFunc. }
  destruct removed as [|p0 removed].
  { wp_run. split; [done|]. unfold cleanup_result. cbn. split_and!; try done. }
  eapply wp_step; [apply wp_syncRoot|]. intros syncErr r2 [Hs2 Hf2]. wp_run. rewrite Hs2. split; [done|].
  unfold cleanup_result. destruct syncErr as [e|]; cbn.
  - split_and!; [by eapply removes_same| |done]. intros He. exfalso. apply errors_Join_None in He.
    rewrite !all_nil_cons in He. by destruct He as (_ & ? & _).
  - split_and!; [by eapply removes_same| |done]. intros He p Hp. rewrite Hf2. by apply Hall'.
Qed.

#[local] Opaque removePaths Checkpoint.readEnvelope failLocked cleanupErrorLocked recordLocked ensureRoot.

(** ** The map behind the files *)

(** The data a reader finds for a key. *)
Definition stored (w : W) (key : Key) : option string :=
  match content w (path_of key) with
  | Some b => match decode_envelope b with
              | Some e => if bool_decide (envelope_key e = key) then Some (ev_Data e) else None
              | None => None
              end
  | None => None
  end.

(** The inventory of a map. *)
Definition records_of (M : gmap Key string) : gmap Key record :=
  map_imap (fun key data => Some (mkRecord (path_of key) data)) M.

Lemma lookup_records_of M key : records_of M !! key = mkRecord (path_of key) <$> M !! key.
Proof. unfold records_of. rewrite map_lookup_imap. by destruct (M !! key). Qed.

Context (inUse : Key -> Prop).

(** The inventory holds the map. It may hold more: a checkpoint [Reset] removed without
    being able to read it stays in it. *)
Record Refines (M : gmap Key string) (s : Store) (w : W) : Prop := {
  rf_stored key : stored w key = M !! key;
  rf_total : totalBytes (records_of M) <= MaxAggregateDataBytes;
  rf_inUse key data : M !! key = Some data -> inUse key;
  rf_records : sr_initialized s = true -> records_of M ⊆ sr_records s;
  rf_paths key r : sr_initialized s = true -> sr_records s !! key = Some r -> rc_path r = path_of key;
  rf_bound : sr_initialized s = true -> totalBytes (sr_records s) <= MaxAggregateDataBytes;
  rf_files : sr_initialized s = true -> st_Files (sr_status s) = Z.of_nat (size (sr_records s));
  rf_bytes : sr_initialized s = true -> st_DataBytes (sr_status s) = totalBytes (sr_records s);
}.

Definition refines (M : gmap Key string) (r : run) : Prop := Refines M (rn_state r) (rn_world r).

Lemma stored_same w w' key : content w' (path_of key) = content w (path_of key) -> stored w' key = stored w key.
Proof. intros H. unfold stored. by rewrite H. Qed.

Lemma stored_gone w key : content w (path_of key) = None -> stored w key = None.
Proof. intros H. unfold stored. by rewrite H. Qed.

Lemma refines_calm M r r' : refines M r -> calm r r' -> refines M r'.
Proof.
  intros [H1 H2 H3 H4 H5 H6 H7 H8] [[E1 E2 E3 E4] Hf]. split; rewrite ?E1, ?E2, ?E3, ?E4; try done.
  intros key. rewrite <- H1. by apply stored_same.
Qed.

Lemma calm_same r r' : rn_state r' = rn_state r -> same_files (rn_world r) (rn_world r') -> calm r r'.
Proof. intros Hs H. split; [by rewrite Hs|done]. Qed.

(** ** The scan *)

Record Scanned (M : gmap Key string) (seen : list string) (acc : scanning) : Prop := {
  sn_records key : sc_records acc !! key
    = if decide (filename sha256 key ∈ seen) then mkRecord (path_of key) <$> M !! key else None;
  sn_total : sc_total acc = totalBytes (sc_records acc);
  sn_cleanup key : M !! key <> None -> path_of key ∉ sc_cleanup acc;
}.

(** An entry of no key of the map. *)
Lemma Scanned_other M seen acc name path :
  Scanned M seen acc -> (forall key, filename sha256 key = name -> M !! key = None) ->
  (path = [] \/ path = [filepath_Join root name]) -> simple_name name ->
  Scanned M (name :: seen) (mkScanning (sc_records acc) (sc_cleanup acc ++ path) (sc_total acc)).
Proof.
  intros [Hrec Htot Hcl] Hnone Hpath Hsimple. split; cbn [sc_records sc_cleanup sc_total]; [|done|].
  - intros key. rewrite Hrec. destruct (decide (filename sha256 key = name)) as [Heq|Hne].
    + rewrite (Hnone key Heq). by repeat destruct (decide _).
    + destruct (decide (filename sha256 key ∈ seen)), (decide (filename sha256 key ∈ name :: seen)); try done; set_solver.
  - intros key Hkey Hin. apply elem_of_app in Hin as [Hin|Hin]; [by apply (Hcl key Hkey)|].
    destruct Hpath as [-> | ->]; [by apply not_elem_of_nil in Hin|]. apply list_elem_of_singleton in Hin.
    apply Hkey, Hnone. by apply (path_inj root sha256 Hsha).
Qed.

Lemma Scanned_skip M seen acc name :
  Scanned M seen acc -> (forall key, filename sha256 key = name -> M !! key = None) -> simple_name name ->
  Scanned M (name :: seen) acc.
Proof.
  intros H Hn Hs. pose proof (Scanned_other M seen acc name [] H Hn (or_introl eq_refl) Hs) as H'.
  rewrite app_nil_r in H'. by destruct acc.
Qed.

Lemma stored_decoded w key b e : content w (path_of key) = Some b -> decode_envelope b = Some e ->
  stored w key = if bool_decide (envelope_key e = key) then Some (ev_Data e) else None.
Proof. intros Hb He. unfold stored. by rewrite Hb, He. Qed.

Lemma path_of_name key name : filename sha256 key = name -> path_of key = filepath_Join root name.
Proof. by intros <-. Qed.

Lemma Scanned_within M seen acc key data : Scanned M seen acc -> M !! key = Some data -> filename sha256 key ∉ seen ->
  totalBytes (records_of M) <= MaxAggregateDataBytes -> sc_total acc <= MaxAggregateDataBytes - len data.
Proof.
  intros [Hrec Htot _] Hkey Hseen HM. rewrite Htot.
  assert (Hsub : <[key := mkRecord (path_of key) data]> (sc_records acc) ⊆ records_of M).
  { apply map_subseteq_spec. intros k r. destruct (decide (k = key)) as [->|Hne].
    - rewrite lookup_insert_eq. intros [= <-]. by rewrite lookup_records_of, Hkey.
    - rewrite lookup_insert_ne, Hrec, lookup_records_of by done. by destruct (decide _). }
  apply totalBytes_subseteq in Hsub. rewrite totalBytes_replace, Hrec in Hsub.
  destruct (decide (filename sha256 key ∈ seen)); [done|]. cbn [rc_data] in Hsub. lia.
Qed.

Lemma Scanned_add M seen acc key data :
  Scanned M seen acc -> M !! key = Some data -> filename sha256 key ∉ seen ->
  (forall key', filename sha256 key' = filename sha256 key -> key' <> key -> M !! key' = None) ->
  Scanned M (filename sha256 key :: seen)
    (mkScanning (<[key := mkRecord (path_of key) data]> (sc_records acc)) (sc_cleanup acc) (sc_total acc + len data)).
Proof.
  intros [Hrec Htot Hcl] Hkey Hseen Hother. split; cbn [sc_records sc_cleanup sc_total]; [| |done].
  - intros k. destruct (decide (k = key)) as [->|Hne].
    + rewrite lookup_insert_eq, Hkey. destruct (decide _); [done|set_solver].
    + rewrite lookup_insert_ne, Hrec by done.
      destruct (decide (filename sha256 k = filename sha256 key)) as [Heq|Hf].
      * rewrite (Hother k Heq Hne). by repeat destruct (decide _).
      * destruct (decide (filename sha256 k ∈ seen)), (decide (filename sha256 k ∈ filename sha256 key :: seen)); try done; set_solver.
  - rewrite totalBytes_replace, Hrec, Htot. destruct (decide _); [done|]. cbn [rc_data]. lia.
Qed.

(** The directory of a map: every file of the map is listed, once. *)
Record listed (M : gmap Key string) (entries : list dirEntry) : Prop := {
  li_nodup : NoDup (map de_Name entries);
  li_simple : Forall (fun e => simple_name (de_Name e)) entries;
  li_files key : M !! key <> None -> mkDirEntry (filename sha256 key) false ∈ entries;
}.

Lemma not_key_file (M : gmap Key string) w key : (forall k, stored w k = M !! k) ->
  (forall b, content w (path_of key) = Some b -> decode_envelope b = None) -> M !! key = None.
Proof.
  intros HM H. rewrite <- HM. unfold stored. destruct (content w (path_of key)) as [b|]; [|done]. by rewrite (H b).
Qed.

Lemma wp_scan_entry M seen acc entry r :
  (forall k, stored (rn_world r) k = M !! k) -> totalBytes (records_of M) <= MaxAggregateDataBytes ->
  Scanned M seen acc -> simple_name (de_Name entry) -> de_Name entry ∉ seen ->
  (de_IsDir entry = true -> forall key, filename sha256 key = de_Name entry -> M !! key = None) ->
  wp (scan_entry root lops os sha256 entry acc)
    (fun res r' => calm r r' /\ match res with inl acc => Scanned M (de_Name entry :: seen) acc | inr _ => True end) r.
Proof.
  destruct entry as [name isDir]. cbn [de_Name de_IsDir]. intros HM Htotal Hacc Hsimple Hseen Hdir.
  unfold scan_entry. cbn [de_Name de_IsDir].
  destruct (HasPrefix name ".bsbctl-state-") eqn:Htemp.
  { wp_run. split; [apply calm_refl|]. apply Scanned_other; auto. intros key <-. by rewrite (filename_not_temporary sha256 Hsha) in Htemp. }
  destruct (isDir || negb (HasSuffix name ".json")) eqn:Hskip.
  { wp_run. split; [apply calm_refl|]. apply Scanned_skip; [done| |done]. intros key Hkey. destruct isDir; [by apply Hdir|].
    cbn in Hskip. rewrite <- Hkey, filename_json in Hskip. done. }
  eapply wp_step; [apply wp_readEnvelope|]. intros value r1 (Hs1 & Hf1 & Hread).
  pose proof (calm_same _ _ Hs1 Hf1) as Hcalm.
  destruct value as [value|[|err]]; cbn [read_result] in Hread.
  - destruct Hread as (b & Hb & Hdec). assert (Hother : forall key, filename sha256 key = name -> envelope_key value <> key -> M !! key = None).
    { intros key Hkey Hne. rewrite <- HM. rewrite <- (path_of_name _ _ Hkey) in Hb. rewrite (stored_decoded _ _ _ _ Hb Hdec).
      by rewrite bool_decide_false. }
    destruct (String.eqb_spec name (filename sha256 (envelope_key value))) as [Heq|Hne]; cbn [negb].
    + assert (Hkey : M !! envelope_key value = Some (ev_Data value)).
      { rewrite <- HM. rewrite Heq in Hb. rewrite (stored_decoded _ _ _ _ Hb Hdec). by rewrite bool_decide_true. }
      subst name. pose proof (Scanned_within _ _ _ _ _ Hacc Hkey Hseen Htotal).
      destruct (Z.ltb_spec (MaxAggregateDataBytes - len (ev_Data value)) (sc_total acc)); [lia|]. wp_run.
      split; [done|]. apply Scanned_add; [done..|]. intros key' Hf Hne'. apply Hother; [done|congruence].
    + eapply wp_step; [apply wp_recordLocked|]. intros [] r2 H2. wp_run. split; [by eapply calm_trans|].
      apply Scanned_other; auto. intros key Hkey. apply Hother; [done|]. intros <-. congruence.
  - eapply wp_step; [apply wp_recordLocked|]. intros [] r2 H2. wp_run. split; [by eapply calm_trans|].
    apply Scanned_other; auto. intros key Hkey. eapply not_key_file; [exact HM|]. by rewrite (path_of_name _ _ Hkey).
  - eapply wp_step; [apply wp_failLocked|]. intros e r2 [H2 _]. wp_run. split; [by eapply calm_trans|done].
Qed.

Lemma stored_calm r r' k : calm r r' -> stored (rn_world r') k = stored (rn_world r) k.
Proof. intros [_ H]. by apply stored_same. Qed.

Lemma wp_scan_entries M entries seen acc r :
  (forall k, stored (rn_world r) k = M !! k) -> totalBytes (records_of M) <= MaxAggregateDataBytes ->
  Scanned M seen acc -> NoDup (map de_Name entries) -> Forall (fun e => simple_name (de_Name e)) entries ->
  (forall e, e ∈ entries -> de_Name e ∉ seen) ->
  (forall e, e ∈ entries -> de_IsDir e = true -> forall key, filename sha256 key = de_Name e -> M !! key = None) ->
  wp (scan_entries root lops os sha256 entries acc)
    (fun res r' => calm r r' /\ match res with
       | inl acc => exists seen', Scanned M seen' acc /\ (forall n, n ∈ seen' <-> n ∈ seen \/ n ∈ map de_Name entries)
       | inr _ => True
       end) r.
Proof.
  revert seen acc r. induction entries as [|e entries IH]; intros seen acc r HM Ht Hacc Hnd Hsimple Hfresh Hdir; cbn [scan_entries].
  { wp_run. split; [apply calm_refl|]. exists seen. split; [done|]. cbn. set_solver. }
  inversion Hnd as [|? ? Hn Hnd']; subst. inversion Hsimple; subst.
  eapply wp_step; [apply (wp_scan_entry M seen); [done..|apply Hfresh; set_solver|apply Hdir; set_solver]|].
  intros [acc'|err] r1 [Hc Hacc']; [|by wp_run]. eapply wp_mono; [apply (IH (de_Name e :: seen)); try done|].
  - intros k. by rewrite (stored_calm r).
  - intros e' He'. apply not_elem_of_cons. split; [|apply Hfresh; set_solver]. intros Heq. apply Hn. rewrite <- Heq.
    apply list_elem_of_In, in_map, list_elem_of_In, He'.
  - intros e' He'. apply Hdir. set_solver.
  - cbn. intros res r2 [Hc2 Hres]. split; [by eapply calm_trans|]. destruct res as [acc2|]; [|done].
    destruct Hres as (seen' & Hsc & Hseen'). exists seen'. split; [done|]. intros n. rewrite Hseen'. cbn [map]. set_solver.
Qed.

(** ** The inventory *)

Lemma Scanned_all M seen acc : Scanned M seen acc -> (forall key, M !! key <> None -> filename sha256 key ∈ seen) ->
  sc_records acc = records_of M.
Proof.
  intros [Hrec _ _] Hall. apply map_eq. intros key. rewrite Hrec, lookup_records_of. destruct (decide _) as [|Hn]; [done|].
  destruct (M !! key) eqn:E; [|done]. exfalso. apply Hn, Hall. by rewrite E.
Qed.

Lemma name_in_entries M entries key : listed M entries -> M !! key <> None ->
  filename sha256 key ∈ map de_Name (SortFunc (cmp_key de_Name) entries).
Proof.
  intros [_ _ Hf] Hk. apply list_elem_of_In. change (filename sha256 key) with (de_Name (mkDirEntry (filename sha256 key) false)).
  apply in_map, list_elem_of_In, elem_of_SortFunc, Hf, Hk.
Qed.

(** Removing files no key of the map has. *)
Lemma stored_removes (M : gmap Key string) w w' paths removed : (forall k, stored w k = M !! k) -> removes w w' paths removed ->
  (forall key, M !! key <> None -> path_of key ∉ paths) -> forall k, stored w' k = M !! k.
Proof.
  intros HM [Hsub Hgone Hkeep] Hcl k. destruct (decide (path_of k ∈ removed)) as [Hin|Hn].
  - rewrite stored_gone by (by apply Hgone). symmetry. apply eq_None_not_Some. intros [d Hd].
    apply (Hcl k); [by rewrite Hd|by apply Hsub].
  - rewrite <- HM. by apply stored_same, Hkeep.
Qed.

Lemma refines_failed_scan M s w w' records : Refines M s w -> (forall k, stored w' k = M !! k) ->
  Refines M (set_scanned records false s) w'.
Proof. intros [_ H2 H3 _ _ _ _ _] H. by split. Qed.

(** An inventory that is exactly the map. *)
Lemma refines_exact M s w : sr_records s = records_of M -> st_Files (sr_status s) = Z.of_nat (size (records_of M)) ->
  st_DataBytes (sr_status s) = totalBytes (records_of M) -> totalBytes (records_of M) <= MaxAggregateDataBytes ->
  (forall key data, M !! key = Some data -> inUse key) -> (forall k, stored w k = M !! k) -> Refines M s w.
Proof.
  intros Hr Hf Hb Ht Hu HM. split; rewrite ?Hr; try done. intros key r _. rewrite lookup_records_of.
  by destruct (M !! key); [intros [= <-]|].
Qed.

Lemma wp_scanLocked M r : refines M r ->
  wp (scanLocked root lops os sha256) (fun res r' => refines M r' /\ match res with
      | inl (records, _) => sr_initialized (rn_state r') = true /\ records = records_of M /\ sr_records (rn_state r') = records
      | inr _ => True
      end) r.
Proof.
  intros HR. destruct r as [s ev w]. unfold scanLocked. wp_run.
  pose proof (readDir_keeps root w) as Kd. pose proof (readDir_spec w) as Hlist.
  destruct (readDir os root w) as [[entries|err] w1]; cbn [fst snd] in *.
  2: { eapply wp_step; [apply wp_failLocked|]. intros e r1 [Hc _]. wp_run. split; [|done].
       eapply refines_calm; [exact HR|]. eapply calm_trans; [|exact Hc]. by apply calm_same. }
  assert (HM1 : forall k, stored w1 k = M !! k).
  { intros k. rewrite <- (rf_stored _ _ _ HR). by apply stored_same. }
  destruct (Hlist entries eq_refl) as (Hnd & Hsimple & Hlisted).
  assert (Hl : listed M entries).
  { split; [done..|]. intros key Hkey. apply Hlisted; [by apply filename_simple|]. intros Hnone. apply Hkey.
    rewrite <- (rf_stored _ _ _ HR). by apply stored_gone. }
  eapply wp_step; [apply (wp_scan_entries M _ []); cbn [rn_world]|].
  - exact HM1.
  - by apply rf_total in HR.
  - split; [|done|by intros ? ? ?%not_elem_of_nil]. intros key. cbn [sc_records]. rewrite lookup_empty. destruct (decide _); [set_solver|done].
  - rewrite (Permutation_map de_Name (SortFunc_perm _ entries)). exact Hnd.
  - rewrite (SortFunc_perm _ entries). exact Hsimple.
  - intros e _. apply not_elem_of_nil.
  - intros e He Hdir key Hkey. apply eq_None_not_Some. intros [d Hd]. apply elem_of_SortFunc in He.
    assert (Hin : mkDirEntry (filename sha256 key) false ∈ entries) by (apply (li_files _ _ Hl); by rewrite Hd).
    assert (Heq : e = mkDirEntry (filename sha256 key) false) by (eapply (NoDup_map_inj de_Name); [exact Hnd|done..]).
    by rewrite Heq in Hdir.
  - intros [acc|err] r2 [Hc2 Hacc].
    2: { wp_run. split; [|done]. eapply refines_calm; [exact HR|]. eapply calm_trans; [|exact Hc2]. by apply calm_same. }
    destruct Hacc as (seen & Hsc & Hseen).
    assert (Hrecords : sc_records acc = records_of M).
    { eapply Scanned_all; [exact Hsc|]. intros key Hkey. apply Hseen. right. by eapply name_in_entries. }
    assert (HR2 : refines M r2).
    { eapply refines_calm; [exact HR|]. eapply calm_trans; [|exact Hc2]. by apply calm_same. }
    destruct r2 as [s2 ev2 w2]. wp_run. eapply wp_mono; [apply wp_removePaths|]. cbn [rn_world rn_state].
    intros result r3 (Hs3 & Hrem & Hall & _). destruct r3 as [s3 ev3 w3]. cbn [rn_world rn_state] in *.
    assert (HM3 : forall k, stored w3 k = M !! k).
    { eapply stored_removes; [apply HR2|exact Hrem|apply (sn_cleanup _ _ _ Hsc)]. }
    destruct (cl_err result) as [err|].
    + wp_run. eapply wp_mono; [apply wp_cleanupErrorLocked|]. intros e r4 Hc4. wp_run. split; [|done].
      eapply refines_calm; [|exact Hc4]. subst s3. split; cbn; try done; apply HR2.
    + wp_run. subst s3. rewrite Hrecords. pose proof (sn_total _ _ _ Hsc) as Ht. rewrite Hrecords in Ht.
      split; [|done]. by apply refines_exact; [| | |apply HR2|apply HR2|].
Qed.

#[local] Opaque scanLocked.

Lemma wp_inventoryLocked M r : refines M r ->
  wp (inventoryLocked root lops os sha256) (fun res r' => refines M r' /\ match res with
      | inl records => sr_initialized (rn_state r') = true /\ records = sr_records (rn_state r')
      | inr _ => True
      end) r.
Proof.
  intros HR. unfold inventoryLocked. wp_run. destruct (sr_initialized (rn_state r)) eqn:Hi.
  - by wp_run.
  - eapply wp_step; [by apply wp_scanLocked|]. intros [[records o]|err] r1 [H1 H2]; wp_run; [|done].
    destruct H2 as (Hi1 & _ & <-). done.
Qed.

#[local] Opaque inventoryLocked.

(** ** The operations refine updates of the map *)

(** The keys in use have distinct file names. *)
Context (Hdistinct : forall key key', inUse key -> inUse key' -> filename sha256 key = filename sha256 key' -> key = key').

Lemma refines_calm_same M r r' : refines M r -> rn_state r' = rn_state r -> same_files (rn_world r) (rn_world r') -> refines M r'.
Proof. intros H Hs Hf. eapply refines_calm; [exact H|by apply calm_same]. Qed.

Lemma wp_prepare M key r : refines M r ->
  wp (prepare root lops os key) (fun err r' => refines M r' /\ (err = None -> validateKey key = None)) r.
Proof.
  intros HR. unfold prepare. destruct (validateKey key) eqn:Hv.
  { eapply wp_step; [apply wp_failLocked|]. intros e' r1 [Hc _]. wp_run. split; [by eapply refines_calm|done]. }
  eapply wp_step; [apply wp_ensureRoot|]. intros [err|] r1 [Hs Hf].
  - eapply wp_step; [apply wp_failLocked|]. intros e r2 [Hc _]. wp_run. split; [|done].
    eapply refines_calm; [by eapply refines_calm_same|done].
  - wp_run. split; [by eapply refines_calm_same|done].
Qed.

Lemma path_not_temporary key : ~ temporary (path_of key).
Proof.
  intros H%temporary_spec. unfold Checkpoint.path_of in H. rewrite Base_Join in H by (by apply filename_simple).
  by rewrite filename_not_temporary in H.
Qed.

Lemma path_of_inj key key' : inUse key -> inUse key' -> path_of key = path_of key' -> key = key'.
Proof. intros Hk Hk' Heq. apply Hdistinct; [done..|]. apply (path_inj root sha256 Hsha); [by apply filename_simple|done]. Qed.

(** A key whose file is another key's is not in the map. *)
Lemma shared_path M s w key key' : Refines M s w -> inUse key -> key' <> key -> path_of key' = path_of key -> M !! key' = None.
Proof.
  intros HR Hk Hne Hp. destruct (M !! key') as [d|] eqn:E; [|done]. exfalso. apply Hne.
  apply path_of_inj; [by eapply rf_inUse|done|done].
Qed.

Lemma records_of_insert M key data : records_of (<[key := data]> M) = <[key := mkRecord (path_of key) data]> (records_of M).
Proof.
  apply map_eq. intros k. rewrite lookup_records_of. destruct (decide (k = key)) as [->|Hne].
  - by rewrite !lookup_insert_eq.
  - by rewrite !lookup_insert_ne, lookup_records_of.
Qed.

Lemma records_of_delete M key : records_of (delete key M) = delete key (records_of M).
Proof.
  apply map_eq. intros k. rewrite lookup_records_of. destruct (decide (k = key)) as [->|Hne].
  - by rewrite !lookup_delete_eq.
  - by rewrite !lookup_delete_ne, lookup_records_of.
Qed.

(** Data the envelope does not nest too deeply. *)
Definition shallow (data : string) : Prop :=
  forall c ms, canonicalData data = inl c -> value_of c = Some (JObject ms) -> nesting (JObject ms) < maxNestingDepth.

Lemma stored_saved w key data c : validKey key -> canonicalData data = inl c -> shallow data ->
  content w (path_of key) = Some (encode_envelope (mkEnvelope envelopeVersion (key_PluginID key) (key_InstanceID key) (key_Generation key) c)) ->
  forall k, path_of k = path_of key -> stored w k = if bool_decide (k = key) then Some c else None.
Proof.
  intros Hkey Hc Hs Hw k Hp. pose proof (canonicalData_spec _ _ Hc) as (ms & _ & _ & _ & Hcan).
  set (e := mkEnvelope _ _ _ _ _) in Hw. assert (Hk : envelope_key e = key) by (by destruct key).
  assert (Hsound : sound_envelope e ms) by (split; [done|by rewrite Hk|done]).
  rewrite <- Hp in Hw. rewrite (stored_decoded _ _ _ _ Hw (envelope_roundtrip_lemma e ms Hsound (Hs c ms Hc (canonical_value _ _ Hcan)))).
  rewrite Hk. destruct (decide (k = key)) as [->|Hne].
  - by rewrite !bool_decide_true.
  - rewrite !bool_decide_false; [done|done|congruence].
Qed.

Lemma set_records_initialized records files bytes s : sr_initialized (set_records records (set_counts files bytes s)) = sr_initialized s.
Proof. done. Qed.

Lemma refines_saved M s w w' key c (existed : bool) :
  Refines M s w -> sr_initialized s = true -> inUse key ->
  totalBytes (sr_records s) - match sr_records s !! key with Some r => len (rc_data r) | None => 0 end
    <= MaxAggregateDataBytes - len c ->
  existed = match sr_records s !! key with Some _ => true | None => false end ->
  (forall k, path_of k = path_of key -> stored w' k = if bool_decide (k = key) then Some c else None) ->
  (forall p, p <> path_of key -> content w' p = content w p) ->
  Refines (<[key := c]> M)
    (set_records (<[key := mkRecord (path_of key) c]> (sr_records s))
       (set_counts (if existed then st_Files (sr_status s) else st_Files (sr_status s) + 1)
          (totalBytes (sr_records s) - match sr_records s !! key with Some r => len (rc_data r) | None => 0 end + len c) s)) w'.
Proof.
  intros HR Hi Hu Hcap Hex Hst Hkeep. pose proof (rf_records _ _ _ HR Hi) as Hsub.
  assert (Hbound : totalBytes (<[key := mkRecord (path_of key) c]> (sr_records s)) <= MaxAggregateDataBytes).
  { rewrite totalBytes_replace. cbn [rc_data]. lia. }
  assert (Hsub' : records_of (<[key := c]> M) ⊆ <[key := mkRecord (path_of key) c]> (sr_records s)).
  { rewrite records_of_insert. by apply insert_mono. }
  split; cbn [set_records set_counts sr_records sr_status sr_initialized st_Files st_DataBytes].
  - intros k. destruct (decide (path_of k = path_of key)) as [Hp|Hp].
    + rewrite (Hst k Hp). destruct (decide (k = key)) as [->|Hne].
      * by rewrite bool_decide_true, lookup_insert_eq.
      * rewrite bool_decide_false, lookup_insert_ne by done. symmetry. by eapply shared_path.
    + rewrite lookup_insert_ne by congruence. rewrite <- (rf_stored _ _ _ HR). by apply stored_same, Hkeep.
  - etransitivity; [by apply totalBytes_subseteq|done].
  - intros k d. destruct (decide (k = key)) as [->|Hne]; [done|]. rewrite lookup_insert_ne by done. by apply (rf_inUse _ _ _ HR).
  - done.
  - intros k r _. destruct (decide (k = key)) as [->|Hne].
    + rewrite lookup_insert_eq. by intros [= <-].
    + rewrite lookup_insert_ne by done. by apply (rf_paths _ _ _ HR).
  - done.
  - intros _. rewrite (rf_files _ _ _ HR Hi), Hex. destruct (sr_records s !! key) eqn:E.
    + by rewrite map_size_insert_Some.
    + rewrite map_size_insert_None by done. lia.
  - intros _. rewrite totalBytes_replace. cbn [rc_data]. lia.
Qed.

#[local] Opaque prepare.

(** A [Save] is committed, and then the map has the canonical data, or it is not, and then
    nothing has changed. *)
Definition saved (M : gmap Key string) (key : Key) (data : string) (res : string * option error) (M' : gmap Key string) : Prop :=
  (res.2 = None <-> res.1 = Committed)
  /\ if IsCommitted res.1 then exists c, canonicalData data = inl c /\ M' = <[key := c]> M else res.1 = NotCommitted /\ M' = M.

Lemma saved_not M key data err : saved M key data (NotCommitted, Some err) M.
Proof. by split. Qed.

Lemma wp_save_record M key data c r :
  refines M r -> sr_initialized (rn_state r) = true -> validKey key -> inUse key -> canonicalData data = inl c -> shallow data ->
  wp (save_record root lops sha256 key c (sr_records (rn_state r)))
    (fun res r' => exists M', refines M' r' /\ saved M key data res M') r.
Proof.
  intros HR Hi Hkey Hu Hc Hs. destruct r as [s ev w]. cbn [rn_state] in *. unfold save_record.
  destruct (Z.ltb_spec (MaxAggregateDataBytes - len c)
    (totalBytes (sr_records s) - match sr_records s !! key with Some current => len (rc_data current) | None => 0 end)) as [Hcap|Hcap].
  { eapply wp_step; [apply wp_failLocked|]. intros e r1 [Hcalm _]. wp_run. exists M.
    split; [by eapply refines_calm|apply saved_not]. }
  wp_run. set (value := mkEnvelope _ _ _ _ _).
  pose proof (replaceJSON_spec (Hfs := cf_files (CheckpointFiles := Hfiles)) (path_of key) value w (path_not_temporary key)) as Hrep.
  destruct (replaceJSON lops (path_of key) value w) as [[outcome err] w1]. destruct Hrep as (Hout & Hyes & Hno). cbn [fst snd].
  assert (Hdone : IsCommitted outcome = true -> refines (<[key := c]> M) (mkRun
     (set_records (<[key := mkRecord (path_of key) c]> (sr_records s))
       (set_counts (if match sr_records s !! key with Some _ => true | None => false end then st_Files (sr_status s) else st_Files (sr_status s) + 1)
         (totalBytes (sr_records s) - match sr_records s !! key with Some current => len (rc_data current) | None => 0 end + len c) s)) ev w1)).
  { intros Hcom. destruct (Hyes Hcom) as [Hfile Hkeep]. eapply refines_saved; try done. by apply stored_saved with data. }
  assert (Hfail : IsCommitted outcome = false -> outcome = NotCommitted /\ refines M (mkRun s ev w1)).
  { intros Hcom. destruct (Hno Hcom) as [-> Hkeep]. split; [done|]. split; try apply HR.
    intros k. rewrite <- (rf_stored _ _ _ HR). apply stored_same, Hkeep. right. apply path_not_temporary. }
  destruct (IsCommitted outcome) eqn:Hcom; cbn [run_if]; wp_run.
  - specialize (Hdone eq_refl). destruct err as [err|]; wp_run.
    + eapply wp_mono; [apply wp_failLocked|]. intros e r1 [Hcalm _]. wp_run. exists (<[key := c]> M).
      split; [by eapply refines_calm|]. split; cbn [fst snd]; [split; [done|]; intros ->; by pose proof (proj1 Hout eq_refl)|].
      rewrite Hcom. by exists c.
    + exists (<[key := c]> M). split; [done|]. split; cbn [fst snd]; [by rewrite (proj2 Hout eq_refl)|]. rewrite Hcom. by exists c.
  - destruct (Hfail eq_refl) as [-> HR1]. destruct err as [err|]; wp_run.
    + eapply wp_mono; [apply wp_failLocked|]. intros e r1 [Hcalm _]. wp_run. exists M.
      split; [by eapply refines_calm|apply saved_not].
    + by pose proof (proj2 Hout eq_refl).
Qed.

#[local] Opaque save_record.

Lemma wp_Save M key data r :
  refines M r -> 0 <= key_Generation key < two64 -> inUse key -> shallow data ->
  wp (Save root lops os sha256 key data) (fun res r' => exists M', refines M' r' /\ saved M key data res M') r.
Proof.
  intros HR Hg Hu Hs. unfold Save.
  assert (Hfail : forall code err, wp (err ← failLocked code NotCommitted err; mret (NotCommitted, Some err))
      (fun res r' => exists M', refines M' r' /\ saved M key data res M') r).
  { intros code err. eapply wp_step; [apply wp_failLocked|]. intros e r1 [Hc _]. wp_run. exists M.
    split; [by eapply refines_calm|apply saved_not]. }
  destruct (validateKey key) eqn:Hv; [apply Hfail|]. destruct (canonicalData data) as [c|] eqn:Hc; [|apply Hfail].
  eapply wp_step; [apply wp_ensureRoot|]. intros [err|] r1 [Hs1 Hf1]; pose proof (refines_calm_same _ _ _ HR Hs1 Hf1) as HR1.
  { eapply wp_step; [apply wp_failLocked|]. intros e r2 [Hc2 _]. wp_run. exists M.
    split; [by eapply refines_calm|apply saved_not]. }
  eapply wp_step; [by apply wp_inventoryLocked|]. intros [records|err] r2 [HR2 Hrec]; wp_run.
  - destruct Hrec as [Hi ->]. by apply wp_save_record.
  - exists M. split; [done|apply saved_not].
Qed.


#[local] Opaque Save.

(** ** Removing a checkpoint *)

Lemma stored_removed M s w w' key removed :
  Refines M s w -> inUse key -> removes w w' [path_of key] removed ->
  forall k, stored w' k = (if bool_decide (removed = []) then M else delete key M) !! k.
Proof.
  intros HR Hu [Hsub Hgone Hkeep] k. destruct removed as [|p removed].
  { cbn. rewrite <- (rf_stored _ _ _ HR). by apply stored_same, Hkeep, not_elem_of_nil. }
  rewrite bool_decide_false by done.
  assert (Hp : path_of key ∈ p :: removed).
  { assert (p ∈ [path_of key]) as ->%list_elem_of_singleton by (apply Hsub, list_elem_of_here). apply list_elem_of_here. }
  destruct (decide (path_of k = path_of key)) as [Heq|Hne].
  - rewrite stored_gone by (by rewrite Heq; apply Hgone). destruct (decide (k = key)) as [->|Hk]; [by rewrite lookup_delete_eq|].
    rewrite lookup_delete_ne by done. symmetry. by eapply shared_path.
  - rewrite lookup_delete_ne by congruence. rewrite <- (rf_stored _ _ _ HR). apply stored_same, Hkeep.
    intros Hin%Hsub%list_elem_of_singleton. done.
Qed.

Lemma wp_removeAndSync M key r : refines M r -> inUse key ->
  wp (removeAndSync root lops os (path_of key)) (fun res r' => rn_state r' = rn_state r
      /\ (forall k, stored (rn_world r') k = (if IsCommitted res.1 then delete key M else M) !! k)
      /\ (res.2 = None -> IsCommitted res.1 = false -> M !! key = None)) r.
Proof.
  intros HR Hu. unfold removeAndSync. eapply wp_step; [apply wp_removePaths|].
  intros result r1 (Hs & Hrem & Hall & Hcom). wp_run. pose proof (stored_removed _ _ _ _ _ _ HR Hu Hrem) as Hst.
  split; [done|]. destruct (IsCommitted (cl_outcome result)) eqn:Hc.
  - rewrite bool_decide_false in Hst by (by apply Hcom). by split.
  - rewrite bool_decide_true in Hst by (destruct (cl_removed result); [done|]; by pose proof (proj2 Hcom ltac:(done))). split; [done|].
    intros He _. rewrite <- Hst. apply stored_gone, (Hall He), list_elem_of_here.
Qed.

#[local] Opaque removeAndSync.

Lemma records_of_mono M M' : M' ⊆ M -> records_of M' ⊆ records_of M.
Proof.
  intros H. apply map_subseteq_spec. intros k r. rewrite !lookup_records_of, !fmap_Some.
  intros (d & Hd & ->). exists d. split; [|done]. by eapply lookup_weaken.
Qed.

(** A file is gone that the inventory may still list. *)
Lemma refines_smaller M M' s w w' : Refines M s w -> M' ⊆ M -> (forall k, stored w' k = M' !! k) -> Refines M' s w'.
Proof.
  intros HR Hsub HM. pose proof (records_of_mono _ _ Hsub) as Hrec. split; try apply HR; try done.
  - etransitivity; [by apply totalBytes_subseteq|apply HR].
  - intros k d Hk. eapply (rf_inUse _ _ _ HR), lookup_weaken; done.
  - intros Hi. etransitivity; [exact Hrec|by apply (rf_records _ _ _ HR)].
Qed.

(** The inventory forgets a checkpoint. *)
Definition forget (key : Key) (bytes : Z) (s : Store) : Store :=
  set_records (delete key (sr_records s))
    (set_counts (Z.max 0 (st_Files (sr_status s) - 1)) (Z.max 0 (st_DataBytes (sr_status s) - bytes)) s).

Lemma refines_forget M s w key rec : Refines M s w -> M !! key = None -> sr_initialized s = true ->
  sr_records s !! key = Some rec -> Refines M (forget key (len (rc_data rec)) s) w.
Proof.
  intros HR HM Hi Hrec. pose proof (totalBytes_insert_delete _ _ _ Hrec) as Ht.
  pose proof (totalBytes_nonneg (delete key (sr_records s))). pose proof (len_nonneg (rc_data rec)).
  pose proof (rf_files _ _ _ HR Hi) as Hf. pose proof (rf_bytes _ _ _ HR Hi) as Hb. pose proof (rf_bound _ _ _ HR Hi).
  assert (Hsize : size (sr_records s) = S (size (delete key (sr_records s)))).
  { rewrite <- (insert_delete_id _ _ _ Hrec) at 1. apply map_size_insert_None, lookup_delete_eq. }
  split; cbn [forget set_records set_counts sr_records sr_status sr_initialized st_Files st_DataBytes]; try apply HR.
  - intros _. apply map_subseteq_spec. intros k r Hk. rewrite lookup_delete_ne.
    + by eapply lookup_weaken, (rf_records _ _ _ HR).
    + intros <-. by rewrite lookup_records_of, HM in Hk.
  - intros k r _ [Hne Hk]%lookup_delete_Some. by apply (rf_paths _ _ _ HR).
  - lia.
  - intros _. rewrite Hf, Hsize. lia.
  - lia.
Qed.

Lemma wp_discard M key r : refines M r -> sr_initialized (rn_state r) = true -> inUse key -> M !! key = None ->
  wp (discard root lops os key (path_of key)) (fun res r' => refines M r' /\ res.1 = None) r.
Proof.
  intros HR Hi Hu HM. unfold discard. eapply wp_step; [apply wp_recordLocked|]. intros [] r1 Hc1.
  pose proof (refines_calm _ _ _ HR Hc1) as HR1. eapply wp_step; [by apply wp_removeAndSync|].
  intros [outcome err] r2 (Hs2 & Hst & _). cbn [fst snd] in Hst. rewrite delete_id in Hst by done.
  destruct r2 as [s2 ev2 w2]. cbn [rn_state rn_world] in *. subst s2.
  assert (HR2 : Refines M (rn_state r1) w2).
  { eapply refines_smaller; [exact HR1|done|]. intros k. rewrite Hst. by destruct (IsCommitted outcome). }
  assert (Hi1 : sr_initialized (rn_state r1) = true) by (destruct Hc1 as [[] _]; congruence).
  wp_run. rewrite Hi1, andb_true_r.
  assert (HR3 : Refines M (if IsCommitted outcome then match sr_records (rn_state r1) !! key with
      | Some current => forget key (len (rc_data current)) (rn_state r1) | None => rn_state r1 end else rn_state r1) w2).
  { destruct (IsCommitted outcome); [|done]. destruct (sr_records (rn_state r1) !! key) eqn:E; [|done]. by apply refines_forget. }
  destruct err as [err|]; wp_run; [|done]. eapply wp_mono; [apply wp_cleanupErrorLocked|]. intros e r3 Hc3. wp_run.
  split; [|done]. eapply refines_calm; [|exact Hc3]. exact HR3.
Qed.

#[local] Opaque discard.

(** What [Load] answers is what the map has; an error gives no data. *)
Definition loaded (M : gmap Key string) (key : Key) (res : option string * option error) : Prop :=
  (res.2 = None -> res.1 = M !! key) /\ (res.2 <> None -> res.1 = None).

Lemma loaded_error M key err : loaded M key (None, Some err).
Proof. by split. Qed.

Lemma unreadable M r key : refines M r ->
  (forall b, content (rn_world r) (path_of key) = Some b -> decode_envelope b = None) -> M !! key = None.
Proof. intros HR. apply not_key_file, HR. Qed.

Lemma wp_Load M key r : refines M r -> inUse key ->
  wp (Load root lops os sha256 key) (fun res r' => refines M r' /\ loaded M key res) r.
Proof.
  intros HR Hu. unfold Load. eapply wp_step; [by apply wp_prepare|]. intros [err|] r1 [HR1 _]; [by wp_run|].
  eapply wp_step; [by apply wp_inventoryLocked|]. intros [records|err] r2 [HR2 Hrec]; [|by wp_run].
  destruct Hrec as [Hi ->]. destruct (sr_records (rn_state r2) !! key) as [current|] eqn:Hcur.
  2: { wp_run. split; [done|]. split; [|done]. intros _. cbn. symmetry. apply eq_None_not_Some. intros [d Hd].
       assert (Hr : records_of M !! key = Some (mkRecord (path_of key) d)) by (by rewrite lookup_records_of, Hd).
       by rewrite (lookup_weaken _ _ _ _ Hr (rf_records _ _ _ HR2 Hi)) in Hcur. }
  rewrite (rf_paths _ _ _ HR2 _ _ Hi Hcur). eapply wp_step; [apply wp_readEnvelope|]. intros value r3 (Hs3 & Hf3 & Hread).
  pose proof (refines_calm_same _ _ _ HR2 Hs3 Hf3) as HR3.
  assert (Hdisc : M !! key = None -> wp (discard root lops os key (path_of key)) (fun res r' => refines M r' /\ loaded M key res) r3).
  { intros HM. eapply wp_mono; [apply (wp_discard M); [done|by rewrite Hs3|done..]|].
    intros [data err] r4 [HR4 Hd]. split; [done|]. cbn in Hd. subst data. split; cbn; [by rewrite HM|done]. }
  destruct value as [value|[|err]]; cbn [read_result] in Hread.
  - destruct Hread as (b & Hb & Hdec). pose proof (stored_decoded _ _ _ _ Hb Hdec) as Hst. rewrite (rf_stored _ _ _ HR2) in Hst.
    destruct (bool_decide (envelope_key value = key)) eqn:Hk; cbn [negb orb].
    2: by apply Hdisc.
    apply bool_decide_eq_true in Hk. unfold Checkpoint.path_of. rewrite Hk, Base_Join, String.eqb_refl by (by apply filename_simple).
    cbn [negb]. wp_run. split; [|by split; cbn]. rewrite Hs3, Hi. rewrite insert_id.
    + destruct r3 as [s3 ev3 w3]. cbn [rn_state] in *. subst s3. by destruct (rn_state r2).
    + eapply lookup_weaken; [|by apply (rf_records _ _ _ HR2)]. by rewrite lookup_records_of, Hst.
  - by apply Hdisc, (unreadable _ r2).
  - destruct (isNotExist lops err) eqn:Hn.
    + wp_run. split; [done|]. split; [|done]. intros _. cbn. symmetry. apply (unreadable M r2); [done|].
      intros b Hb. by rewrite Hread in Hb.
    + eapply wp_step; [apply wp_failLocked|]. intros e r4 [Hc4 _]. wp_run. split; [by eapply refines_calm|apply loaded_error].
Qed.

(** [Reset] removes one key. When it fails the file may be gone or not. *)
Definition was_reset (M : gmap Key string) (key : Key) (err : option error) (M' : gmap Key string) : Prop :=
  (M' = M \/ M' = delete key M) /\ (err = None -> M' = delete key M).

Lemma wp_Reset M key r : refines M r -> inUse key ->
  wp (Reset root lops os sha256 key) (fun err r' => exists M', refines M' r' /\ was_reset M key err M') r.
Proof.
  intros HR Hu. unfold Reset. eapply wp_step; [by apply wp_prepare|]. intros [err|] r1 [HR1 _].
  { wp_run. exists M. split; [done|]. split; [by left|done]. }
  eapply wp_step; [apply wp_readEnvelope|]. intros value r2 (Hs2 & Hf2 & Hread).
  pose proof (refines_calm_same _ _ _ HR1 Hs2 Hf2) as HR2.
  destruct (match value with inr (FilesystemError err) => isNotExist lops err | _ => false end) eqn:Hmissing.
  { wp_run. exists M. split; [done|]. split; [by left|]. intros _. symmetry. apply delete_id.
    destruct value as [|[|err]]; try done. apply (unreadable M r1); [done|]. intros b Hb. by rewrite Hread in Hb. }
  eapply wp_step; [by apply wp_removeAndSync|]. intros [outcome err] r3 (Hs3 & Hst & Hgone). cbn [fst snd] in *.
  set (M' := if IsCommitted outcome then delete key M else M).
  assert (Hsub : M' ⊆ M) by (unfold M'; destruct (IsCommitted outcome); [apply delete_subseteq|done]).
  assert (HR3 : Refines M' (rn_state r2) (rn_world r3)) by (by eapply refines_smaller).
  assert (Hres : forall e, (e = None -> err = None) -> was_reset M key e M').
  { intros e He. unfold M'. split; [destruct (IsCommitted outcome); auto|]. intros ->. destruct (IsCommitted outcome) eqn:Hc; [done|].
    symmetry. apply delete_id. auto. }
  set (update := match value with inl value => _ | inr _ => mret tt end).
  assert (Hupdate : wp update (fun _ r' => refines M' r') r3).
  { destruct r3 as [s3 ev3 w3]. cbn [rn_state rn_world] in *. subst s3. unfold update. destruct value as [value|err']; [|by wp_run].
    destruct (IsCommitted outcome) eqn:Hc; cbn [andb run_if]; [|by wp_run].
    destruct (bool_decide_reflect (envelope_key value = key)) as [Hk|Hk]; cbn [run_if]; [|by wp_run]. wp_run.
    destruct Hread as (b & Hb & Hdec). pose proof (stored_decoded _ _ _ _ Hb Hdec) as HM. rewrite (rf_stored _ _ _ HR1) in HM.
    rewrite bool_decide_true in HM by done. unfold refines. cbn [rn_state rn_world].
    destruct (sr_initialized (rn_state r2)) eqn:Hi.
    - assert (Hrec : sr_records (rn_state r2) !! key = Some (mkRecord (path_of key) (ev_Data value))).
      { eapply lookup_weaken; [|by apply (rf_records _ _ _ HR2)]. by rewrite lookup_records_of, HM. }
      exact (refines_forget _ _ _ _ _ HR3 (lookup_delete_eq _ _) Hi Hrec).
    - destruct HR3 as [H1 H2 H3 _ _ _ _ _]. split; cbn [set_counts sr_initialized]; rewrite ?Hi; done. }
  eapply wp_step; [exact Hupdate|]. intros [] r4 HR4. destruct err as [err|].
  - eapply wp_step; [apply wp_cleanupErrorLocked|]. intros e r5 Hc5. wp_run. exists M'.
    split; [by eapply refines_calm|by apply Hres].
  - wp_run. exists M'. auto.
Qed.

(** [Reconcile] removes only keys that are not active, and when it succeeds all of them. *)
Definition reconciled (M : gmap Key string) (active : list Key) (err : option error) (M' : gmap Key string) : Prop :=
  M' ⊆ M /\ (forall key, key ∈ active -> M' !! key = M !! key) /\ (err = None -> forall key, key ∉ active -> M' !! key = None).

Lemma reconciled_error M active err : reconciled M active (Some err) M.
Proof. by split_and!. Qed.

(** The map without the keys whose files a clean-up removed. *)
Definition without (active : list Key) (removed : list string) (M : gmap Key string) : gmap Key string :=
  filter (fun kd => ~ (kd.1 ∉ active /\ path_of kd.1 ∈ removed)) M.

Lemma kept_records (active : list Key) (removed : list string) M :
  filter (fun kr => ~ (kr.1 ∉ active /\ rc_path kr.2 ∈ removed)) (records_of M) = records_of (without active removed M).
Proof.
  apply map_eq. intros k. rewrite lookup_records_of. unfold without. rewrite !map_lookup_filter, lookup_records_of.
  destruct (M !! k) as [d|]; [|done]. cbn. by repeat case_guard.
Qed.

Lemma without_lookup active removed M key :
  without active removed M !! key = if bool_decide (key ∉ active /\ path_of key ∈ removed) then None else M !! key.
Proof.
  unfold without. rewrite map_lookup_filter. destruct (M !! key) as [d|]; [|by destruct (bool_decide _)].
  cbn. case_bool_decide; by case_guard.
Qed.

Lemma elem_of_stale (active : list Key) M p :
  p ∈ map (fun kr : Key * record => rc_path kr.2) (map_to_list (filter (fun kr => kr.1 ∉ active) (records_of M)))
  <-> exists key, key ∉ active /\ M !! key <> None /\ p = path_of key.
Proof.
  rewrite list_elem_of_In, in_map_iff. split.
  - intros ([k r] & <- & Hin%list_elem_of_In%elem_of_map_to_list). apply map_lookup_filter_Some in Hin as [Hr Hk].
    rewrite lookup_records_of in Hr. exists k. destruct (M !! k); [|done]. by injection Hr as <-.
  - intros (k & Hk & HM & ->). destruct (M !! k) as [d|] eqn:E; [|done]. exists (k, mkRecord (path_of k) d). split; [done|].
    apply list_elem_of_In, elem_of_map_to_list, map_lookup_filter_Some. split; [by rewrite lookup_records_of, E|done].
Qed.

Lemma stored_without (active : list Key) M s w w' removed :
  Refines M s w ->
  removes w w' (map (fun kr : Key * record => rc_path kr.2) (map_to_list (filter (fun kr => kr.1 ∉ active) (records_of M)))) removed ->
  forall k, stored w' k = without active removed M !! k.
Proof.
  intros HR [Hsub Hgone Hkeep] k. rewrite without_lookup. destruct (decide (path_of k ∈ removed)) as [Hin|Hn].
  - rewrite stored_gone by (by apply Hgone). case_bool_decide as Hk; [done|]. symmetry. apply eq_None_not_Some. intros [d Hd].
    apply Hk. split; [|done]. apply Hsub, elem_of_stale in Hin as (k0 & Hk0 & HM0 & Hp).
    assert (k = k0) as ->; [|done]. apply path_of_inj; [by eapply rf_inUse| |done].
    destruct (M !! k0) eqn:E; [|done]. by eapply rf_inUse.
  - rewrite bool_decide_false by naive_solver. rewrite <- (rf_stored _ _ _ HR). by apply stored_same, Hkeep.
Qed.

Lemma without_sub active removed M : without active removed M ⊆ M.
Proof. apply map_filter_subseteq. Qed.

Lemma wp_Reconcile M active r : refines M r ->
  wp (Reconcile root lops os sha256 active) (fun err r' => exists M', refines M' r' /\ reconciled M active err M') r.
Proof.
  intros HR. unfold Reconcile. destruct (first_invalid active) as [err|].
  { eapply wp_step; [apply wp_failLocked|]. intros e r1 [Hc _]. wp_run. exists M.
    split; [by eapply refines_calm|apply reconciled_error]. }
  eapply wp_step; [apply wp_ensureRoot|]. intros [err|] r1 [Hs1 Hf1]; pose proof (refines_calm_same _ _ _ HR Hs1 Hf1) as HR1.
  { eapply wp_step; [apply wp_failLocked|]. intros e r2 [Hc2 _]. wp_run. exists M.
    split; [by eapply refines_calm|apply reconciled_error]. }
  eapply wp_step; [by apply wp_scanLocked|]. intros [[records o]|err] r2 [HR2 Hrec].
  2: { wp_run. exists M. split; [done|apply reconciled_error]. }
  destruct Hrec as (Hi & -> & Hrs). eapply wp_step; [apply wp_removePaths|].
  intros result r3 (Hs3 & Hrem & Hall & _). wp_run. set (M' := without active (cl_removed result) M).
  pose proof (stored_without _ _ _ _ _ _ HR2 Hrem) as Hst. fold M' in Hst. rewrite Hs3, kept_records. fold M'.
  assert (HR3 : refines M' (mkRun (set_counts (Z.of_nat (size (records_of M'))) (totalBytes (records_of M'))
      (set_records (records_of M') (rn_state r2))) (rn_events r3) (rn_world r3))).
  { apply refines_exact; try done.
    - etransitivity; [apply totalBytes_subseteq, records_of_mono, without_sub|apply HR2].
    - intros k d Hk. eapply (rf_inUse _ _ _ HR2), lookup_weaken; [exact Hk|apply without_sub]. }
  assert (Hdone : forall e, (e = None -> cl_err result = None) -> reconciled M active e M').
  { intros e He. split_and!; [apply without_sub| |].
    - intros key Hk. unfold M'. rewrite without_lookup. rewrite bool_decide_false by tauto. done.
    - intros He0 key Hk. rewrite <- Hst. destruct (M !! key) eqn:E.
      + apply stored_gone, (Hall (He He0)), elem_of_stale. exists key. by rewrite E.
      + rewrite Hst. unfold M'. rewrite without_lookup, E. by destruct (bool_decide _). }
  destruct (cl_err result) as [err|]; wp_run; [|exists M'; auto].
  eapply wp_mono; [apply wp_cleanupErrorLocked|]. intros e r4 Hc4. wp_run. exists M'.
  split; [by eapply refines_calm|by apply Hdone].
Qed.

(** A new store on the same files. *)
Lemma refines_restart M s w : Refines M s w -> Refines M NewStore w.
Proof. intros [H1 H2 H3 _ _ _ _ _]. by split. Qed.
End Proofs.
