(* ===== verification/CheckpointClaims.v ===== *)
(** * What the checkpoint store promises

    Sequences of operations on a store, restarts included, against a finite map; and a
    concrete directory with scripted failures. *)

From Stdlib Require Import ZArith Lia.
From S2P Require Import Prelude GoStrings Protocol GoTime GoJson JsonText LocalState GoEncoding Actions CheckpointEnvelope Checkpoint CheckpointSafe.

(** ** The abstract store *)

Inductive operation :=
  | OpSave (key : Key) (data : string)
  | OpLoad (key : Key)
  | OpReset (key : Key)
  | OpReconcile (active : list Key)
  | OpRestart.

Inductive answer :=
  | Saved (res : string * option error)
  | Loaded (res : option string * option error)
  | Finished (err : option error).

(** What one operation may answer and do to the map. *)
Inductive map_step (M : gmap Key string) : operation -> answer -> gmap Key string -> Prop :=
  | step_save key data res M' : saved M key data res M' -> map_step M (OpSave key data) (Saved res) M'
  | step_load key res : loaded M key res -> map_step M (OpLoad key) (Loaded res) M
  | step_reset key err M' : was_reset M key err M' -> map_step M (OpReset key) (Finished err) M'
  | step_reconcile active err M' : reconciled M active err M' -> map_step M (OpReconcile active) (Finished err) M'
  | step_restart : map_step M OpRestart (Finished None) M.

Inductive map_steps : gmap Key string -> list operation -> list answer -> gmap Key string -> Prop :=
  | steps_nil M : map_steps M [] [] M
  | steps_cons M o a M1 ops answers M2 :
    map_step M o a M1 -> map_steps M1 ops answers M2 -> map_steps M (o :: ops) (a :: answers) M2.

Section Runs.
Context {W : Type} (root : string) (lops : operations W envelope) (os : calls W) (sha256 : string -> list Z).
Notation act := (act Store unit W).

(** A restart opens a new store on the same directory. *)
Definition perform (o : operation) : act answer :=
  match o with
  | OpSave key data => res ← Save root lops os sha256 key data; mret (Saved res)
  | OpLoad key => res ← Load root lops os sha256 key; mret (Loaded res)
  | OpReset key => err ← Reset root lops os sha256 key; mret (Finished err)
  | OpReconcile active => err ← Reconcile root lops os sha256 active; mret (Finished err)
  | OpRestart => _ ← modify (fun _ => NewStore); mret (Finished None)
  end.

Fixpoint performs (ops : list operation) : act (list answer) :=
  match ops with
  | [] => mret []
  | o :: ops => a ← perform o; answers ← performs ops; mret (a :: answers)
  end.
End Runs.

(** Keys in use, generations of 64 bits, and data the envelope can hold. *)
Definition allowed (inUse : Key -> Prop) (o : operation) : Prop :=
  match o with
  | OpSave key data => inUse key /\ 0 <= key_Generation key < two64 /\ shallow data
  | OpLoad key | OpReset key => inUse key
  | OpReconcile _ | OpRestart => True
  end.

(** The hash function separates the keys in use. *)
Definition distinct_names (sha256 : string -> list Z) (inUse : Key -> Prop) : Prop :=
  (forall s, Forall (fun b => 0 <= b < 256) (sha256 s))
  /\ forall key key', inUse key -> inUse key' -> filename sha256 key = filename sha256 key' -> key = key'.

Section Claims.
Context {W : Type} (root : string) (lops : operations W envelope) (os : calls W)
  (content : W -> string -> option string) (temporary : string -> Prop).
Context {Hfiles : CheckpointFiles root lops os content temporary}.
Context (sha256 : string -> list Z) (inUse : Key -> Prop) (Hnames : distinct_names sha256 inUse).

Notation Refines := (Refines root content sha256 inUse).
Notation refines M r := (Refines M (rn_state r) (rn_world r)).

Lemma wp_perform M o r : refines M r -> allowed inUse o ->
  wp (perform root lops os sha256 o) (fun a r' => exists M', refines M' r' /\ map_step M o a M') r.
Proof using Hfiles Hnames.
  intros HR Ho. destruct Hnames as [Hsha Hdistinct]. destruct o as [key data|key|key|active|]; cbn [perform allowed] in *.
  - destruct Ho as (Hu & Hg & Hs). eapply wp_step; [by apply (wp_Save root lops os content temporary sha256 Hsha inUse Hdistinct M)|].
    intros res r1 (M' & HR1 & Hres). wp_run. exists M'. split; [done|by constructor].
  - eapply wp_step; [by apply (wp_Load root lops os content temporary sha256 Hsha inUse Hdistinct M)|].
    intros res r1 (HR1 & Hres). wp_run. exists M. split; [done|by constructor].
  - eapply wp_step; [by apply (wp_Reset root lops os content temporary sha256 Hsha inUse Hdistinct M)|].
    intros err r1 (M' & HR1 & Hres). wp_run. exists M'. split; [done|by constructor].
  - eapply wp_step; [by apply (wp_Reconcile root lops os content temporary sha256 Hsha inUse Hdistinct M)|].
    intros err r1 (M' & HR1 & Hres). wp_run. exists M'. split; [done|by constructor].
  - wp_run. exists M. split; [by eapply refines_restart|constructor].
Qed.

Lemma wp_performs ops : forall M r, refines M r -> Forall (allowed inUse) ops ->
  wp (performs root lops os sha256 ops) (fun answers r' => exists M', refines M' r' /\ map_steps M ops answers M') r.
Proof using Hfiles Hnames.
  induction ops as [|o ops IH]; intros M r HR Hops; cbn [performs].
  { wp_run. exists M. split; [done|constructor]. }
  inversion Hops; subst. eapply wp_step; [by apply wp_perform|]. intros a r1 (M1 & HR1 & Hstep).
  eapply wp_step; [by apply (IH M1)|]. intros answers r2 (M2 & HR2 & Hsteps). wp_run. exists M2. split; [done|by econstructor].
Qed.

(** Operations that do not touch a key: [Reconcile] keeps the active ones. *)
Definition spares (key : Key) (o : operation) : Prop :=
  match o with
  | OpSave key' _ | OpReset key' => key' <> key
  | OpLoad _ | OpRestart => True
  | OpReconcile active => key ∈ active
  end.

Lemma map_step_spares M o a M' key : map_step M o a M' -> spares key o -> M' !! key = M !! key.
Proof.
  intros H. destruct H as [key' data res M' [_ H]| |key' err M' [H _]|active err M' (_ & H & _)|]; cbn [spares]; try done.
  - intros Hne. destruct (IsCommitted res.1); [|by destruct H as [_ ->]]. destruct H as (c & _ & ->). by rewrite lookup_insert_ne.
  - intros Hne. destruct H as [-> | ->]; [done|]. by rewrite lookup_delete_ne.
  - apply H.
Qed.

Lemma map_steps_spares M ops answers M' key : map_steps M ops answers M' -> Forall (spares key) ops -> M' !! key = M !! key.
Proof.
  induction 1 as [|M o a M1 ops answers M2 H1 _ IH]; [done|]. intros Hs. inversion Hs; subst.
  rewrite IH by done. by eapply map_step_spares.
Qed.

(** C10: the store refines a finite map, whichever file-system calls fail and however often
    it is restarted: there is a run of the abstract map that gives every operation the
    answer the store gave, and ends in the map that the files hold. A [Save] that is
    committed binds the key to the canonical data, and any other changes nothing; a [Load]
    without an error answers what the map has, exactly; [Reset] and [Reconcile] without
    an error remove exactly what they are asked to, and nothing else otherwise. It is assumed
    that the keys in use have different file names, and that saved data is nested less deeply
    than the decoder reads, less the level that the envelope adds ([shallow]): deeper data is
    committed and then removed as corrupt ([CheckpointEnvelope.deep_data_unreadable]). *)
Theorem store_refines_map ops M s ev w :
  Refines M s w -> Forall (allowed inUse) ops ->
  let '(answers, r') := performs root lops os sha256 ops (mkRun s ev w) in
  exists M', Refines M' (rn_state r') (rn_world r') /\ map_steps M ops answers M'.
Proof using Hfiles Hnames.
  intros HR Hops. pose proof (wp_performs ops M (mkRun s ev w) HR Hops) as H. unfold wp in H.
  by destruct (performs root lops os sha256 ops (mkRun s ev w)).
Qed.

(** C25: whatever happens, once the store has an inventory its status counts the inventory
    exactly, the inventory has every checkpoint on the disk with its data, and its data is
    never more than the aggregate bound of 16 MiB. *)
Theorem inventory_counted ops M s ev w :
  Refines M s w -> Forall (allowed inUse) ops ->
  let r' := (performs root lops os sha256 ops (mkRun s ev w)).2 in
  sr_initialized (rn_state r') = true ->
  st_Files (sr_status (rn_state r')) = Z.of_nat (size (sr_records (rn_state r')))
  /\ st_DataBytes (sr_status (rn_state r')) = totalBytes (sr_records (rn_state r'))
  /\ totalBytes (sr_records (rn_state r')) <= MaxAggregateDataBytes
  /\ forall key data, stored root content sha256 (rn_world r') key = Some data ->
       sr_records (rn_state r') !! key = Some (mkRecord (path_of root sha256 key) data).
Proof using Hfiles Hnames.
  intros HR Hops r' Hi. destruct (wp_performs ops M (mkRun s ev w) HR Hops) as (M' & HR' & _). fold r' in HR'. split_and!.
  - by apply HR'.
  - by apply HR'.
  - by apply HR'.
  - intros key data Hst. rewrite (rf_stored _ _ _ _ _ _ _ HR') in Hst.
    eapply lookup_weaken; [|by apply (rf_records _ _ _ _ _ _ _ HR')]. by rewrite lookup_records_of, Hst.
Qed.

(** C21: a checkpoint that was committed, and whose data is [shallow], lasts: after any
    operations that do not touch its key, failing ones and restarts included, a [Load] that
    succeeds gives its canonical data. As for C10 the keys in use have different file names
    and the other saves are of shallow data; a committed checkpoint that the decoder cannot
    read back does not last. *)
Theorem checkpoint_lasts ops M s ev w key data :
  Refines M s w -> inUse key -> 0 <= key_Generation key < two64 -> shallow data ->
  Forall (allowed inUse) ops -> Forall (spares key) ops ->
  let '(res, r1) := Save root lops os sha256 key data (mkRun s ev w) in
  let r2 := (performs root lops os sha256 ops r1).2 in
  let found := (Load root lops os sha256 key r2).1 in
  IsCommitted res.1 = true -> found.2 = None -> exists c, canonicalData data = inl c /\ found.1 = Some c.
Proof using Hfiles Hnames.
  intros HR Hu Hg Hs Hops Hspares. pose proof Hnames as [Hsha Hdistinct].
  pose proof (wp_Save root lops os content temporary sha256 Hsha inUse Hdistinct M key data (mkRun s ev w) HR Hg Hu Hs) as H1.
  unfold wp in H1. destruct (Save root lops os sha256 key data (mkRun s ev w)) as [res r1]. cbn [fst snd] in H1.
  destruct H1 as (M1 & HR1 & _ & H1). intros r2 found Hc Hok. rewrite Hc in H1. destruct H1 as (c & Hcan & ->).
  destruct (wp_performs ops _ r1 HR1 Hops) as (M2 & HR2 & Hsteps). fold r2 in HR2.
  destruct (wp_Load root lops os content temporary sha256 Hsha inUse Hdistinct M2 key r2 HR2 Hu) as (_ & Hload & _).
  fold found in Hload. exists c. split; [done|]. rewrite (Hload Hok), (map_steps_spares _ _ _ _ _ Hsteps Hspares).
  apply lookup_insert_eq.
Qed.
End Claims.

(** ** A concrete directory with scripted failures *)

Definition files_of (root : string) (files : gmap string string) : list dirEntry :=
  omap (fun path => let name := filepath_Base path in
    if bool_decide (simple_name name) && (path =s filepath_Join root name) then Some (mkDirEntry name false) else None)
    (map fst (map_to_list files)).

Definition disk_try {A} (value : gmap string string -> A + error) (w : Disk) : (A + error) * Disk :=
  match disk_op (fun files => (None, files)) w with
  | (Some err, w) => (inr err, w)
  | (None, w) => (value (disk_files w), w)
  end.

Definition disk_calls : calls Disk := {|
  lstat := fun _ => disk_try (fun _ => inl (true, false));
  chmodPath := fun _ => disk_op (fun files => (None, files));
  readDir := fun root => disk_try (fun files => inl (files_of root files));
  unixOpen := fun path => disk_try (fun files => match files !! path with Some _ => inl path | None => inr disk_missing end);
  statFile := fun path => disk_try (fun files => inl match files !! path with Some b => (true, len b) | None => (false, 0) end);
  readAll := fun path n w =>
    match disk_try (fun files => inl (take_bytes (Z.to_nat n) (default EmptyString (files !! path)))) w with
    | (inl data, w) => ((data, None), w)
    | (inr err, w) => ((EmptyString, Some err), w)
    end;
  isLoop := fun _ => false;
  pathError := fun _ => None;
|}.

Definition directory_ops : operations Disk envelope := disk_ops encode_envelope.

Lemma disk_op_cases run w :
  disk_op run w = (Some disk_error, mkDisk (disk_files w) (tail (disk_faults w)))
  \/ disk_op run w = (let '(err, files) := run (disk_files w) in (err, mkDisk files (tail (disk_faults w)))).
Proof. unfold disk_op. destruct (disk_faults w) as [|[] faults]; [by right|by left|by right]. Qed.

Lemma disk_try_cases {A} (value : gmap string string -> A + error) w :
  disk_try value w = (inr disk_error, mkDisk (disk_files w) (tail (disk_faults w)))
  \/ disk_try value w = (value (disk_files w), mkDisk (disk_files w) (tail (disk_faults w))).
Proof.
  unfold disk_try. destruct (disk_op_cases (fun files => (None, files)) w) as [-> | ->]; [by left|by right].
Qed.

Lemma disk_try_keeps {A} (value : gmap string string -> A + error) w p :
  disk_content (disk_try value w).2 p = disk_content w p.
Proof. by destruct (disk_try_cases value w) as [-> | ->]. Qed.

Lemma elem_of_files_of root files name :
  simple_name name -> files !! filepath_Join root name <> None -> mkDirEntry name false ∈ files_of root files.
Proof.
  intros Hs Hf. destruct (files !! filepath_Join root name) as [b|] eqn:E; [|done].
  unfold files_of. apply list_elem_of_omap. exists (filepath_Join root name). split.
  - apply list_elem_of_In, in_map_iff. exists (filepath_Join root name, b). split; [done|].
    by apply list_elem_of_In, elem_of_map_to_list.
  - rewrite Base_Join by done. by rewrite bool_decide_true, String.eqb_refl by done.
Qed.

Lemma files_of_sound root files e : e ∈ files_of root files -> simple_name (de_Name e).
Proof.
  intros (path & _ & H)%list_elem_of_omap. cbv beta zeta in H. destruct (bool_decide_reflect (simple_name (filepath_Base path))); [|done].
  cbn in H. destruct (path =s filepath_Join root (filepath_Base path)); [|done]. by injection H as <-.
Qed.

Lemma files_of_nodup root files : NoDup (map de_Name (files_of root files)).
Proof.
  unfold files_of. pose proof (NoDup_fst_map_to_list files) as Hnd. revert Hnd.
  change (map fst (map_to_list files)) with ((map_to_list files).*1). induction (map_to_list files).*1 as [|path l IH]; intros Hnd.
  { apply NoDup_nil_2. }
  apply NoDup_cons in Hnd as [Hn Hnd]. cbn [omap list_omap].
  destruct (bool_decide (simple_name (filepath_Base path)) && (path =s filepath_Join root (filepath_Base path))) eqn:Hp; [|by apply IH].
  cbn [map de_Name]. apply NoDup_cons. split; [|by apply IH]. intros Hin. apply Hn.
  apply list_elem_of_In, in_map_iff in Hin as (e & He & Hin%list_elem_of_In). apply list_elem_of_omap in Hin as (path' & Hin & He').
  destruct (bool_decide (simple_name (filepath_Base path')) && _) eqn:Hp'; [|done]. injection He' as <-. cbn [de_Name] in He.
  apply andb_prop in Hp as [_ Hp%String.eqb_eq], Hp' as [_ Hp'%String.eqb_eq]. congruence.
Qed.

Lemma Base_temporary d : filepath_Base (disk_temporary d) = ".bsbctl-state-1"%string.
Proof.
  unfold filepath_Base, disk_temporary. destruct (d +:+ "/.bsbctl-state-1" =s EmptyString) eqn:E; [by destruct d|].
  change (d +:+ "/.bsbctl-state-1") with (d +:+ "/" +:+ ".bsbctl-state-1"). rewrite split_snoc by (by vm_compute).
  by rewrite rev_app_distr.
Qed.

#[export] Instance disk_CheckpointFiles root : CheckpointFiles root directory_ops disk_calls disk_content disk_is_temporary.
Proof.
  split; try apply _; try (intros; apply disk_try_keeps).
  - intros p [d ->]. by rewrite Base_temporary.
  - intros p w q. cbn. by destruct (disk_op_cases (fun files => (None, files)) w) as [-> | ->].
  - intros p n w q. unfold disk_calls. cbn [readAll].
    by destruct (disk_try_cases (fun files => inl (take_bytes (Z.to_nat n) (default EmptyString (files !! p)))) w) as [-> | ->].
  - intros w entries. cbn [readDir disk_calls].
    destruct (disk_try_cases (fun files => inl (files_of root files)) w) as [-> | ->]; [done|]. intros [= <-].
    split_and!; [apply files_of_nodup|apply Forall_forall; intros e; apply files_of_sound|].
    intros name. apply elem_of_files_of.
  - intros p w. cbn [unixOpen disk_calls]. unfold disk_content.
    destruct (disk_try_cases (fun files => match files !! p with Some _ => inl p | None => inr disk_missing end) w) as [-> | ->]; [done|].
    cbn [fst]. by destruct (disk_files w !! p).
  - intros p w. cbn [statFile disk_calls]. unfold disk_content.
    destruct (disk_try_cases (fun files => inl match files !! p with Some b => (true, len b) | None => (false, 0) end) w) as [-> | ->]; [done|].
    cbn [fst]. by destruct (disk_files w !! p).
  - intros p w err. cbn. destruct (disk_op_cases (fun files => (None, files)) w) as [-> | ->]; [|done]. by intros [= <-].
  - intros p n w b Hb. cbn [readAll disk_calls]. unfold disk_content in Hb.
    destruct (disk_try_cases (fun files => inl (take_bytes (Z.to_nat n) (default EmptyString (files !! p)))) w) as [-> | ->]; [done|].
    cbn. by rewrite Hb.
  - intros p n w w' err. cbn [pathError disk_calls safeFilesystemError]. unfold errors_Join.
    destruct (omap id _); [done|]. by intros [= <-].
  - intros p w err. cbn. unfold disk_content.
    destruct (disk_op_cases (fun files => match files !! p with Some _ => (None, delete p files) | None => (Some disk_missing, files) end) w)
      as [-> | ->]; [by intros [= <-]|]. destruct (disk_files w !! p) eqn:E; [done|]. done.
Qed.

(** ** Witnesses *)

Definition demo_root : string := "state/checkpoints".
Definition demo_key (generation : Z) : Key := mkKey "dev.bsbctl.codex" "main" generation.
Definition demo_use (key : Key) : Prop := key = demo_key 1 \/ key = demo_key 2.

Lemma bytes_of_range s : Forall (fun b => 0 <= b < 256) (bytes_of s).
Proof. apply Forall_forall. intros b (c & <- & _)%list_elem_of_In%in_map_iff. apply byte_range. Qed.

Lemma demo_names : distinct_names bytes_of demo_use.
Proof.
  split; [apply bytes_of_range|]. intros key key' [-> | ->] [-> | ->] H; try reflexivity; exfalso; revert H; vm_compute; discriminate.
Qed.

(** A new store on an empty directory, and the calls that will fail. *)
Definition start (faults : list bool) : Run Store unit Disk := mkRun NewStore [] (mkDisk ∅ faults).

Lemma demo_start faults : Refines demo_root disk_content bytes_of demo_use ∅ NewStore (mkDisk ∅ faults).
Proof. split; try done. Qed.

Definition demo_turn (n : Z) : string := "{ " +:+ quoted "turn" +:+ " : " +:+ format_int n +:+ " }".
Definition demo_compact (n : Z) : string := "{" +:+ quoted "turn" +:+ ":" +:+ format_int n +:+ "}".

Lemma demo_shallow n : n = 3 \/ n = 4 -> shallow (demo_turn n).
Proof.
  intros Hn c ms Hc Hv. assert (Heq : canonicalData (demo_turn n) = inl (demo_compact n)).
  { destruct Hn as [-> | ->]; vm_compute; reflexivity. }
  rewrite Heq in Hc. injection Hc as <-. destruct Hn as [-> | ->]; vm_compute in Hv; injection Hv as <-; vm_compute; reflexivity.
Qed.

Definition demo_save (generation n : Z) : operation := OpSave (demo_key generation) (demo_turn n).

Definition demo_ops : list operation :=
  [demo_save 1 3; OpRestart; OpLoad (demo_key 1); demo_save 2 4; OpReconcile [demo_key 1]; OpLoad (demo_key 2);
   OpReset (demo_key 1); OpLoad (demo_key 1)].

Lemma demo_allowed : Forall (allowed demo_use) demo_ops.
Proof.
  repeat apply Forall_cons_2; try apply Forall_nil_2; cbn [allowed demo_save demo_ops]; unfold demo_use; auto;
    (split_and!; [auto|done|done|apply demo_shallow; auto]).
Qed.

(** Without failures. *)
Example demo_answers : (performs demo_root directory_ops disk_calls bytes_of demo_ops (start [])).1 =
  [Saved (Committed, None); Finished None; Loaded (Some (demo_compact 3), None); Saved (Committed, None); Finished None;
   Loaded (None, None); Finished None; Loaded (None, None)].
Proof. vm_compute. reflexivity. Qed.

(** A call of the first [Load] fails. *)
Definition demo_faults : list bool := repeat false 20 ++ [true].

Lemma store_refines_map_witness :
  let '(answers, r') := performs demo_root directory_ops disk_calls bytes_of demo_ops (start demo_faults) in
  exists M', Refines demo_root disk_content bytes_of demo_use M' (rn_state r') (rn_world r')
             /\ map_steps ∅ demo_ops answers M'.
Proof.
  exact (store_refines_map demo_root directory_ops disk_calls disk_content disk_is_temporary bytes_of demo_use demo_names
    demo_ops ∅ NewStore [] (mkDisk ∅ demo_faults) (demo_start _) demo_allowed).
Defined.

(** After these operations the store has an inventory, of the one checkpoint left. *)
Definition demo_kept : list operation := [demo_save 1 3; demo_save 2 4; OpReconcile [demo_key 1]; OpRestart; OpLoad (demo_key 1)].

Lemma demo_kept_allowed : Forall (allowed demo_use) demo_kept.
Proof.
  repeat apply Forall_cons_2; try apply Forall_nil_2; cbn [allowed demo_save demo_kept]; unfold demo_use; auto;
    (split_and!; [auto|done|done|apply demo_shallow; auto]).
Qed.

Lemma inventory_counted_witness :
  let r' := (performs demo_root directory_ops disk_calls bytes_of demo_kept (start [])).2 in
  st_Files (sr_status (rn_state r')) = 1 /\ st_DataBytes (sr_status (rn_state r')) = 10
  /\ st_Files (sr_status (rn_state r')) = Z.of_nat (size (sr_records (rn_state r'))).
Proof.
  pose proof (inventory_counted demo_root directory_ops disk_calls disk_content disk_is_temporary bytes_of demo_use demo_names
    demo_kept ∅ NewStore [] (mkDisk ∅ []) (demo_start _) demo_kept_allowed) as H.
  cbv zeta in H |- *. change (mkRun NewStore [] (mkDisk ∅ [])) with (start []) in H. revert H.
  set (r' := (performs demo_root directory_ops disk_calls bytes_of demo_kept (start [])).2).
  assert (Hf : st_Files (sr_status (rn_state r')) = 1) by (vm_compute; reflexivity).
  assert (Hb : st_DataBytes (sr_status (rn_state r')) = 10) by (vm_compute; reflexivity).
  assert (Hi : sr_initialized (rn_state r') = true) by (vm_compute; reflexivity).
  intros H. destruct (H Hi) as (Hsize & _). split; [exact Hf|split; [exact Hb|exact Hsize]].
Defined.

Definition demo_others : list operation :=
  [demo_save 2 4; OpReset (demo_key 2); OpReconcile [demo_key 1]; OpRestart; OpLoad (demo_key 2)].

Lemma demo_others_allowed : Forall (allowed demo_use) demo_others.
Proof.
  repeat apply Forall_cons_2; try apply Forall_nil_2; cbn [allowed demo_save demo_others]; unfold demo_use; auto;
    (split_and!; [auto|done|done|apply demo_shallow; auto]).
Qed.

Lemma demo_others_spare : Forall (spares (demo_key 1)) demo_others.
Proof.
  repeat apply Forall_cons_2; try apply Forall_nil_2; cbn [spares demo_save demo_others]; try done.
  by apply list_elem_of_singleton.
Qed.

(** The other operations meet a failing call. *)
Definition demo_late_fault : list bool := repeat false 40 ++ [true].

Lemma checkpoint_lasts_witness :
  let r1 := (Save demo_root directory_ops disk_calls bytes_of (demo_key 1) (demo_turn 3) (start demo_late_fault)).2 in
  let r2 := (performs demo_root directory_ops disk_calls bytes_of demo_others r1).2 in
  exists c, canonicalData (demo_turn 3) = inl c
    /\ (Load demo_root directory_ops disk_calls bytes_of (demo_key 1) r2).1.1 = Some c.
Proof.
  pose proof (checkpoint_lasts demo_root directory_ops disk_calls disk_content disk_is_temporary bytes_of demo_use demo_names
    demo_others ∅ NewStore [] (mkDisk ∅ demo_late_fault) (demo_key 1) (demo_turn 3) (demo_start _) (or_introl eq_refl)
    ltac:(split; [discriminate|reflexivity]) (demo_shallow 3 (or_introl eq_refl)) demo_others_allowed demo_others_spare) as H.
  change (mkRun NewStore [] (mkDisk ∅ demo_late_fault)) with (start demo_late_fault) in H.
  cbv zeta in H |- *. revert H.
  assert (Hc : IsCommitted (Save demo_root directory_ops disk_calls bytes_of (demo_key 1) (demo_turn 3) (start demo_late_fault)).1.1 = true)
    by (vm_compute; reflexivity).
  assert (Ho : (Load demo_root directory_ops disk_calls bytes_of (demo_key 1)
    (performs demo_root directory_ops disk_calls bytes_of demo_others
      (Save demo_root directory_ops disk_calls bytes_of (demo_key 1) (demo_turn 3) (start demo_late_fault)).2).2).1.2 = None)
    by (vm_compute; reflexivity).
  destruct (Save demo_root directory_ops disk_calls bytes_of (demo_key 1) (demo_turn 3) (start demo_late_fault)) as [res r1].
  intros H. exact (H Hc Ho).
Defined.

(** ** A stale inventory

    [Reset] removes a file even when it could not read it, but then leaves it in the
    inventory: here the [Stat] of the file fails, the file is gone, [Reset] reports no error,
    and the status still counts it. A [Save] refused for capacity later counts it too. *)
Example reset_unreadable_counted :
  let r1 := (performs demo_root directory_ops disk_calls bytes_of [demo_save 1 3] (start [])).2 in
  let w2 := mkDisk (disk_files (rn_world r1)) [false; false; false; false; true] in
  let '(err, r2) := Reset demo_root directory_ops disk_calls bytes_of (demo_key 1) (mkRun (rn_state r1) [] w2) in
  err = None /\ disk_files (rn_world r2) = ∅ /\ st_Files (sr_status (rn_state r2)) = 1
  /\ st_DataBytes (sr_status (rn_state r2)) = 10.
Proof. vm_compute. repeat split. Qed.
