(* ===== verification/GoText.v ===== *)
(** * Texts as lists of runes

    [utf8.EncodeRune] and what the code uses of [strings.Fields], [strings.Map] and
    conversions between strings and runes; the encoded text of scalar values is valid UTF-8
    and decodes to them. *)

From Stdlib Require Import ZArith Lia ZifyBool.
From S2P Require Import Prelude GoStrings GoJson Identifier JsonText.

(** A Unicode scalar value. *)
Definition scalar (r : Z) : bool := between 0 1114111 r && negb (between 55296 57343 r).

Definition rune_len (r : Z) : nat :=
  if r <? 128 then 1%nat else if r <? 2048 then 2%nat else if r <? 65536 then 3%nat else 4%nat.

(** [string(rs)] and [[]rune(s)]. *)
Fixpoint string_of_runes (rs : list Z) : string :=
  match rs with
  | [] => EmptyString
  | r :: rs => encode_rune r +:+ string_of_runes rs
  end.
Definition runes_of (s : string) : list Z := map fst (runes s).

(** [strings.Map]: an invalid byte is passed on, and written back, as U+FFFD. *)
Definition Map (f : Z -> Z) (s : string) : string := string_of_runes (map f (runes_of s)).

(** [strings.Fields] of a text that is valid UTF-8. *)
Fixpoint fields_from (word : list Z) (rs : list Z) : list (list Z) :=
  match rs with
  | [] => match word with [] => [] | _ => [rev word] end
  | r :: rs =>
    if IsSpace r then match word with [] => fields_from [] rs | _ => rev word :: fields_from [] rs end
    else fields_from (r :: word) rs
  end.
Definition Fields (s : string) : list string := map string_of_runes (fields_from [] (runes_of s)).

(** ** Encoding and decoding *)

Lemma utf8_bytes_cons b bytes : utf8_bytes (b :: bytes) = String (ascii_of_byte b) (utf8_bytes bytes).
Proof. done. Qed.

Lemma div_mod_step r a b : 0 < a -> 0 < b -> r / (a * b) * b + r / a mod b = r / a.
Proof. intros Ha Hb. rewrite <- Z.div_div by lia. pose proof (Z.div_mod (r / a) b). lia. Qed.

Lemma decode_encode r t : scalar r = true ->
  DecodeRuneInString (encode_rune r +:+ t) = (r, rune_len r).
Proof.
  intros Hr. unfold scalar, between in Hr. unfold encode_rune, rune_len, between.
  pose proof (Z.div_mod r 64 ltac:(lia)). pose proof (Z.mod_pos_bound r 64 ltac:(lia)).
  pose proof (Z.div_mod (r / 64) 64 ltac:(lia)). pose proof (Z.mod_pos_bound (r / 64) 64 ltac:(lia)).
  pose proof (Z.div_mod (r / 4096) 64 ltac:(lia)). pose proof (Z.mod_pos_bound (r / 4096) 64 ltac:(lia)).
  assert (Hb : r / 64 / 64 = r / 4096) by (by rewrite Z.div_div by lia).
  assert (Hc : r / 4096 / 64 = r / 262144) by (by rewrite Z.div_div by lia).
  set (a := r / 64) in *. set (b := r / 4096) in *. set (c := r / 262144) in *.
  set (x := r mod 64) in *. set (y := a mod 64) in *. set (z := b mod 64) in *.
  destruct (Z.ltb_spec r 128) as [Hs|Hs].
  { rewrite utf8_bytes_cons. cbn [DecodeRuneInString String.append]. rewrite byte_ascii_of_byte by lia.
    by replace (r <? 128) with true by lia. }
  destruct (Z.ltb_spec r 2048) as [Hs2|Hs2].
  { rewrite !utf8_bytes_cons. cbn [String.append DecodeRuneInString]. rewrite !byte_ascii_of_byte by lia.
    replace (192 + a <? 128) with false by lia. unfold between, cont. unfold between.
    replace ((194 <=? 192 + a) && (192 + a <=? 223) && ((128 <=? 128 + x) && (128 + x <=? 191))) with true by lia.
    f_equal. lia. }
  replace ((55296 <=? r) && (r <=? 57343) || (1114111 <? r)) with false by lia.
  destruct (Z.ltb_spec r 65536) as [Hs3|Hs3].
  { rewrite !utf8_bytes_cons. cbn [String.append DecodeRuneInString]. rewrite !byte_ascii_of_byte by lia.
    replace (224 + b <? 128) with false by lia. unfold second_of_three, cont, between.
    replace ((194 <=? 224 + b) && (224 + b <=? 223)) with false by lia. cbn [andb].
    assert ((if 224 + b =? 224 then (160 <=? 128 + y) && (128 + y <=? 191)
             else if 224 + b =? 237 then (128 <=? 128 + y) && (128 + y <=? 159)
             else (128 <=? 128 + y) && (128 + y <=? 191)) = true) as ->.
    { destruct (Z.eqb_spec (224 + b) 224); [lia|]. destruct (Z.eqb_spec (224 + b) 237); lia. }
    replace ((224 <=? 224 + b) && (224 + b <=? 239) && true && ((128 <=? 128 + x) && (128 + x <=? 191))) with true by lia.
    f_equal. lia. }
  rewrite !utf8_bytes_cons. cbn [String.append DecodeRuneInString]. rewrite !byte_ascii_of_byte by lia.
  replace (240 + c <? 128) with false by lia. unfold second_of_three, second_of_four, cont, between.
  replace ((194 <=? 240 + c) && (240 + c <=? 223)) with false by lia. cbn [andb].
  replace ((224 <=? 240 + c) && (240 + c <=? 239)) with false by lia. cbn [andb].
  assert ((if 240 + c =? 240 then (144 <=? 128 + z) && (128 + z <=? 191)
           else if 240 + c =? 244 then (128 <=? 128 + z) && (128 + z <=? 143)
           else (128 <=? 128 + z) && (128 + z <=? 191)) = true) as ->.
  { destruct (Z.eqb_spec (240 + c) 240); [lia|]. destruct (Z.eqb_spec (240 + c) 244); lia. }
  replace ((240 <=? 240 + c) && (240 + c <=? 244) && true && ((128 <=? 128 + y) && (128 + y <=? 191))
           && ((128 <=? 128 + x) && (128 + x <=? 191))) with true by lia.
  f_equal. lia.
Qed.

Lemma encode_rune_length r : scalar r = true -> String.length (encode_rune r) = rune_len r.
Proof.
  intros Hr. unfold encode_rune, rune_len. destruct (r <? 128); [done|]. destruct (r <? 2048); [done|].
  unfold scalar in Hr. apply andb_prop in Hr as [Hb Hs]. unfold between in Hb.
  replace (between 55296 57343 r || (1114111 <? r)) with false by (destruct (between 55296 57343 r); [done|]; lia).
  by destruct (r <? 65536).
Qed.

Lemma rune_len_bounds r : (1 <= rune_len r <= 4)%nat.
Proof. unfold rune_len. repeat case_if; lia. Qed.

Lemma runes_encode r t : scalar r = true -> runes (encode_rune r +:+ t) = (r, rune_len r) :: runes t.
Proof.
  intros Hr. pose proof (decode_encode r t Hr) as Hd. pose proof (encode_rune_length r Hr) as Hl.
  pose proof (rune_len_bounds r). destruct (encode_rune r) as [|a s] eqn:He; [simpl in Hl; lia|].
  change (String a s +:+ t) with (String a (s +:+ t)) in *. rewrite runes_step, Hd. cbn [snd].
  f_equal. rewrite <- Hl. change (String a (s +:+ t)) with (String a s +:+ t). by rewrite drop_bytes_app.
Qed.

Lemma runes_string rs t : forallb scalar rs = true ->
  runes (string_of_runes rs +:+ t) = map (fun r => (r, rune_len r)) rs ++ runes t.
Proof.
  induction rs as [|r rs IH]; [done|]. cbn [forallb string_of_runes map app]. intros [Hr Hrs]%andb_prop.
  rewrite append_assoc, runes_encode by done. by rewrite IH.
Qed.

Lemma runes_of_string rs : forallb scalar rs = true -> runes_of (string_of_runes rs) = rs.
Proof.
  intros H. unfold runes_of. rewrite <- (append_nil_r (string_of_runes rs)), runes_string, app_nil_r, map_map by done. apply map_id.
Qed.

Lemma rune_valid r : scalar r = true -> valid_rune (r, rune_len r) = true.
Proof. intros _. unfold valid_rune. cbn. destruct (Z.eqb_spec r RuneError) as [->|]; done. Qed.

Lemma ValidString_runes rs : forallb scalar rs = true -> ValidString (string_of_runes rs) = true.
Proof.
  intros H. unfold ValidString. rewrite <- (append_nil_r (string_of_runes rs)), runes_string, app_nil_r by done.
  apply forallb_forall. intros x Hx. apply in_map_iff in Hx as (r & <- & Hr). apply rune_valid.
  rewrite forallb_forall in H. by apply H.
Qed.

Lemma len_string_of_runes rs : forallb scalar rs = true -> len (string_of_runes rs) <= 4 * Z.of_nat (length rs).
Proof.
  induction rs as [|r rs IH]; [done|]. cbn [forallb string_of_runes length]. intros [Hr Hrs]%andb_prop.
  rewrite len_app. specialize (IH Hrs). unfold len at 1. rewrite encode_rune_length by done. pose proof (rune_len_bounds r). lia.
Qed.

Lemma string_of_runes_app xs ys : string_of_runes (xs ++ ys) = string_of_runes xs +:+ string_of_runes ys.
Proof. induction xs as [|x xs IH]; [done|]. cbn. by rewrite IH, append_assoc. Qed.

Lemma string_of_runes_nil rs : forallb scalar rs = true -> string_of_runes rs = EmptyString -> rs = [].
Proof. intros H He. rewrite <- (runes_of_string rs H), He. done. Qed.

(** Whatever the bytes, what is decoded is a scalar value. *)
Lemma decode_scalar s : scalar (DecodeRuneInString s).1 = true.
Proof.
  unfold DecodeRuneInString. destruct s as [|a0 s]; [done|]. pose proof (byte_range a0).
  destruct (Z.ltb_spec (byte a0) 128). { unfold scalar, between. cbn [fst]. lia. }
  destruct s as [|a1 s]; [done|]. pose proof (byte_range a1).
  destruct (between 194 223 (byte a0) && cont (byte a1)) eqn:H2.
  { unfold scalar, between, cont in *. unfold between in H2. cbn [fst]. lia. }
  destruct s as [|a2 s]; [done|].
  destruct (between 224 239 (byte a0) && second_of_three (byte a0) (byte a1) && cont (byte a2)) eqn:H3.
  { unfold scalar, second_of_three, cont, between in *. cbn [fst].
    destruct (Z.eqb_spec (byte a0) 224); [lia|]. destruct (Z.eqb_spec (byte a0) 237); lia. }
  destruct s as [|a3 s]; [done|].
  destruct (between 240 244 (byte a0) && second_of_four (byte a0) (byte a1) && cont (byte a2) && cont (byte a3)) eqn:H4; [|done].
  unfold scalar, second_of_four, cont, between in *. cbn [fst].
  destruct (Z.eqb_spec (byte a0) 240); [lia|]. destruct (Z.eqb_spec (byte a0) 244); lia.
Qed.

Lemma runes_of_scalar s : forallb scalar (runes_of s) = true.
Proof.
  unfold runes_of. induction s as [|a s IH] using runes_ind; [done|]. rewrite runes_step. cbn [map forallb].
  by rewrite decode_scalar, IH.
Qed.

(** ** Fields *)

Lemma fields_from_spec word rs :
  Forall (fun w => w <> [] /\ Forall (fun r => r ∈ word ++ rs /\ IsSpace r = false) w)
    (if bool_decide (Forall (fun r => IsSpace r = false) word) then fields_from word rs else []).
Proof.
  revert word. induction rs as [|r rs IH]; intros word; case_bool_decide as Hw; try by apply Forall_nil_2.
  - cbn [fields_from]. destruct word as [|x word]; [by apply Forall_nil_2|]. apply Forall_singleton. split.
    + intros H. by apply (f_equal length) in H; rewrite length_rev in H.
    + apply Forall_rev. rewrite app_nil_r. rewrite Forall_forall in *. auto.
  - cbn [fields_from]. destruct (IsSpace r) eqn:Hr.
    + specialize (IH []). rewrite bool_decide_true in IH by apply Forall_nil_2.
      assert (Hrest : Forall (fun w => w <> [] /\ Forall (fun x => x ∈ word ++ r :: rs /\ IsSpace x = false) w) (fields_from [] rs)).
      { eapply Forall_impl; [exact IH|]. cbn. intros w [Hn Hall]. split; [done|]. eapply Forall_impl; [exact Hall|]. cbn.
        intros x [Hx ?]. split; [set_solver|done]. }
      destruct word as [|x word]; [exact Hrest|]. apply Forall_cons_2; [|exact Hrest]. split.
      * intros H. by apply (f_equal length) in H; rewrite length_rev in H.
      * apply Forall_rev. rewrite Forall_forall in *. intros y Hy. split; [set_solver|auto].
    + specialize (IH (r :: word)). rewrite bool_decide_true in IH by (by apply Forall_cons_2).
      eapply Forall_impl; [exact IH|]. cbn. intros w [Hn Hall]. split; [done|]. eapply Forall_impl; [exact Hall|]. cbn.
      intros x [Hx ?]. split; [set_solver|done].
Qed.

(** ** Printable ASCII *)

Definition printable (s : string) : bool := forall_bytes (fun b => between 32 126 b) s.

Lemma runes_printable s : printable s = true -> runes s = map (fun a => (byte a, 1%nat)) (String.list_ascii_of_string s).
Proof.
  unfold printable. induction s as [|a s IH]; [done|]. cbn [forall_bytes]. intros [Ha Hs]%andb_prop. unfold between in Ha.
  rewrite runes_step. cbn [DecodeRuneInString]. replace (byte a <? 128) with true by lia. cbn [snd drop_bytes]. rewrite IH by done.
  done.
Qed.

Lemma printable_app s t : printable (s +:+ t) = printable s && printable t.
Proof. apply forall_bytes_app. Qed.

Lemma printable_bytes s : printable s = true -> Forall (fun a => 32 <= byte a <= 126) (String.list_ascii_of_string s).
Proof.
  unfold printable. induction s as [|a s IH]; [by intros; apply Forall_nil_2|]. cbn [forall_bytes].
  intros [Ha Hs]%andb_prop. unfold between in Ha. apply Forall_cons_2; [lia|by apply IH].
Qed.

Lemma printable_valid s : printable s = true -> ValidString s = true.
Proof.
  intros H. unfold ValidString. rewrite runes_printable by done. apply forallb_forall. intros x Hx.
  apply in_map_iff in Hx as (a & <- & Ha%list_elem_of_In). pose proof (printable_bytes _ H) as Hb.
  rewrite Forall_forall in Hb. specialize (Hb a Ha). unfold valid_rune, RuneError. cbn. lia.
Qed.

(** A printable text that starts with something visible. *)
Lemma printable_identifier a s : IsSpace (byte a) = false -> printable (String a s) = true -> len (String a s) <= 128 ->
  ValidIdentifier (String a s).
Proof.
  intros Ha Hp Hl. pose proof (printable_bytes _ Hp) as Hb. split.
  - rewrite runes_printable by done. cbn. eexists. split; [apply list_elem_of_here|exact Ha].
  - exact Hl.
  - by apply printable_valid.
  - rewrite runes_printable by done. rewrite Forall_forall in Hb. intros x Hx%list_elem_of_In. apply in_map_iff in Hx as (c & <- & Hc%list_elem_of_In).
    specialize (Hb c Hc). unfold IsControl, between. cbn. lia.
Qed.

Lemma format_uint_printable n : 0 <= n -> printable (format_uint n) = true.
Proof.
  assert (Hd : forall d, 0 <= d < 10 -> printable (digit d) = true).
  { intros d Hd. unfold printable, digit. cbn [forall_bytes]. rewrite byte_ascii_of_byte by lia. unfold between. lia. }
  unfold format_uint. generalize 19%nat. intros fuel. revert n. induction fuel as [|fuel IH]; intros n Hn; cbn [format_uint_from].
  - apply Hd, Z.mod_pos_bound. lia.
  - destruct (Z.ltb_spec n 10); [apply Hd; lia|]. rewrite printable_app, IH, Hd; [done| |].
    + apply Z.mod_pos_bound. lia.
    + apply Z.div_pos; lia.
Qed.

Lemma format_int_printable n : printable (format_int n) = true.
Proof.
  unfold format_int. destruct (Z.ltb_spec n 0); [rewrite printable_app|]; rewrite format_uint_printable by lia; done.
Qed.
