(* ===== verification/CodexUsage.v ===== *)
(** * Codex usage windows

    Models [src/internal/codexusage/usage.go] and the rate limits of
    [src/plugins/codex/internal/appserver/methods.go]: normalization of account rate-limit
    windows, signals, and the scene that shows them. *)

From Stdlib Require Import ZArith Lia ZifyBool.
From S2P Require Import Prelude GoStrings GoTime GoJson Identifier Protocol JsonText GoText.

Definition CanvasColor : string := "#071522FF".
Definition SurfaceColor : string := "#171A21FF".
Definition BorderColor : string := "#2B3940FF".
Definition TextColor : string := "#EAF4F2FF".
Definition SecondaryColor : string := "#9AAFB2FF".
Definition SignatureColor : string := "#2AC7B5FF".
Definition WarningColor : string := "#F2B84BFF".
Definition DangerColor : string := "#FF786FFF".

Definition Minute : Z := 60000000000.
Definition Day : Z := 24 * Hour.

(** [time.Unix(seconds, 0).UTC()]: the seconds since year 1 are an [int64]. *)
Definition unixSeconds : Z := 62135596800.
Definition time_Unix (seconds : Z) : Time := mkTime (i64 (seconds + unixSeconds) * Second) 0.
(** [time.UnixMilli(milliseconds).UTC()]. *)
Definition time_UnixMilli (milliseconds : Z) : Time := mkTime ((milliseconds + unixSeconds * 1000) * Millisecond) 0.
(** [t.Unix()]. *)
Definition Unix (t : Time) : Z := i64 (instant t / Second - unixSeconds).

Record RawWindow := mkRawWindow { rw_UsedPercent : Z; rw_Duration : Z; rw_ResetsAt : Time }.
Record Window := mkWindow { wn_UsedPercent : Z; wn_RemainingPercent : Z; wn_Duration : Z; wn_ResetsAt : Time }.
Record Snapshot := mkSnapshot { sn_Windows : list Window; sn_UpdatedAt : Time }.
Record PresentationConfig := mkPresentationConfig {
  pc_Label : string;
  pc_Badge : string;
  pc_ShowBadge : bool;
  pc_WarningRemainingPercent : Z;
  pc_CriticalRemainingPercent : Z;
}.

Inductive Signal := SignalNone | SignalLow | SignalCritical.

#[export] Instance Signal_eq_dec : EqDecision Signal.
Proof. solve_decision. Defined.
#[export] Instance Window_eq_dec : EqDecision Window.
Proof. solve_decision. Defined.

Definition normalize_window (source : RawWindow) : Window :=
  let used := Z.min 100 (Z.max 0 (rw_UsedPercent source)) in
  let reset := if IsZero (rw_ResetsAt source) || (Unix (rw_ResetsAt source) <=? 0) then zero_time
               else UTC (rw_ResetsAt source) in
  mkWindow used (100 - used) (rw_Duration source) reset.
Definition cmp_Duration (left right : Window) : Z := wn_Duration left - wn_Duration right.

Definition NormalizeWindows (raw : list RawWindow) (now : Time) : Snapshot + error :=
  match map normalize_window (filter (fun source => 0 < rw_Duration source) raw) with
  | [] => inr (Errorf "usage_windows_unavailable" [])
  | windows => inl (mkSnapshot (SortFunc cmp_Duration windows) (UTC now))
  end.

Definition SignalFor (snapshot : Snapshot) (config : PresentationConfig) : Signal :=
  match sn_Windows snapshot with
  | [] => SignalNone
  | windows =>
    let lowest := fold_left (fun lowest window => Z.min lowest (wn_RemainingPercent window)) windows 101 in
    if lowest <=? pc_CriticalRemainingPercent config then SignalCritical
    else if lowest <=? pc_WarningRemainingPercent config then SignalLow
    else SignalNone
  end.

Definition more_constrained (result window : Window) : Window :=
  if (wn_RemainingPercent window <? wn_RemainingPercent result)
     || ((wn_RemainingPercent window =? wn_RemainingPercent result) && (wn_Duration window <? wn_Duration result))
  then window else result.
(** [None] is the panic on a snapshot without windows. *)
Definition MostConstrained (snapshot : Snapshot) : option Window :=
  match sn_Windows snapshot with [] => None | window :: windows => Some (fold_left more_constrained windows window) end.

Definition FrontWindowLabel (duration : Z) : string :=
  if duration =? 5 * Hour then "5H"
  else if duration =? 7 * Day then "1W"
  else if (28 * Day <=? duration) && (duration <=? 31 * Day) then "1M"
  else "??".
Definition SummaryKey (duration : Z) : string :=
  let label := FrontWindowLabel duration in
  if label =s "5H" then "quota-5h"
  else if label =s "1W" then "quota-1w"
  else if label =s "1M" then "quota-1m"
  else "quota-" +:+ format_int (Z.quot duration Second) +:+ "s".
Definition BackWindowLabel (duration : Z) : string :=
  let label := FrontWindowLabel duration in
  if label =s "5H" then "5 HOURS"
  else if label =s "1W" then "WEEKLY"
  else if label =s "1M" then "MONTHLY"
  else if Z.rem duration Hour =? 0 then format_int (Z.quot duration Hour) +:+ " HOURS"
  else "CUSTOM WINDOW".

Definition rectangle (id display : string) (x y width height : Z) (color : string) : Element :=
  mkElement id display x y None None None (Some (mkRectangleElement width height color)) None.
Definition text (id display value font color : string) (x y : Z) (align : string) : Element :=
  mkElement id display x y (Some (mkTextElement value font color align 0 None)) None None None None.
Definition countdown (id display : string) (timestamp : Z) (color : string) (x y : Z) (align : string) : Element :=
  mkElement id display x y None None None None (Some (mkCountdownElement timestamp CountdownShowHoursWhenNonZero color align)).
Definition image (id display : string) (x y : Z) (path : string) : Element :=
  mkElement id display x y None (Some (mkImageElement (mkAssetRef path EmptyString))) None None None.

Definition quotaColor (remaining : Z) (config : PresentationConfig) : string :=
  if remaining <=? pc_CriticalRemainingPercent config then DangerColor
  else if remaining <=? pc_WarningRemainingPercent config then WarningColor
  else SignatureColor.
Definition formatFrontRemaining (remaining : Z) (config : PresentationConfig) : string :=
  let remaining := Z.min 100 (Z.max 0 remaining) in
  if remaining <=? pc_CriticalRemainingPercent config then format_int remaining +:+ "%!" else format_int remaining +:+ "%".

(** [int(math.Round(float64(width) * float64(remaining) / 100))] of non-negative numbers;
    the products are small, so the floating-point quotient rounds the same way. *)
Definition round_percent (width remaining : Z) : Z := (2 * width * remaining + 100) / 200.

Definition backBar (prefix : string) (remaining : Z) (color : string) (x y width : Z) : list Element :=
  let fillWidth := round_percent (width - 2) remaining in
  [ rectangle (prefix +:+ "-border") "back" x y width 7 BorderColor;
    rectangle (prefix +:+ "-track") "back" (x + 1) (y + 1) (width - 2) 5 SurfaceColor;
    if fillWidth =? 0 then rectangle (prefix +:+ "-fill") "back" (x + 1) (y + 1) 1 5 SurfaceColor
    else rectangle (prefix +:+ "-fill") "back" (x + 1) (y + 1) fillWidth 5 color ].

Definition reset_shown (now reset : Time) : string * Z * string :=
  if IsZero reset || (Unix reset <=? 0) then ("RESET UNKNOWN"%string, 1, CanvasColor)
  else
    let remaining := Sub reset now in
    if (0 <? remaining) && (remaining <? 60 * Hour) then ("RESET IN"%string, Unix reset, SecondaryColor)
    else if 60 * Hour <=? remaining then
      let hours := Z.quot (Z.rem remaining Day) Hour in
      ("RESET IN " +:+ format_int (Z.quot remaining Day) +:+ "D"
         +:+ (if 0 <? hours then " " +:+ format_int hours +:+ "H" else EmptyString), Unix reset, CanvasColor)
    else ("RESETTING"%string, Unix reset, CanvasColor).
Definition resetElements (prefix : string) (now reset : Time) (font : string) (x y countdownX : Z) : list Element :=
  let '(label, timestamp, color) := reset_shown now reset in
  [ text (prefix +:+ "-reset") "back" label font SecondaryColor x y EmptyString;
    countdown (prefix +:+ "-reset-countdown") "back" timestamp color countdownX (y - 2) "top_right" ].

(** [strings.ToUpper] of an ASCII text. *)
Fixpoint ToUpper (s : string) : string :=
  match s with
  | EmptyString => EmptyString
  | String a s => String (if is_lower (byte a) then ascii_of_byte (byte a - 32) else a) (ToUpper s)
  end.

Definition front_elements (focus : Window) (config : PresentationConfig) (signal : Signal) (assetPath : string) : list Element :=
  let label := FrontWindowLabel (wn_Duration focus) in
  let label := if pc_ShowBadge config then pc_Badge config +:+ " " +:+ label else label in
  let '(state, stateColor) := match signal with
    | SignalNone => ("LEFT"%string, SecondaryColor)
    | SignalLow => ("LOW"%string, WarningColor)
    | SignalCritical => ("CRIT"%string, DangerColor)
    end in
  let color := quotaColor (wn_RemainingPercent focus) config in
  let fillWidth := round_percent 36 (wn_RemainingPercent focus) in
  [ rectangle "front-background" "front" 0 0 72 16 CanvasColor;
    rectangle "back-background" "back" 0 0 160 80 CanvasColor;
    image "front-codex-mark" DisplayFront 1 1 assetPath;
    text "front-window-label" "front" label "normal" TextColor 18 1 EmptyString;
    text "front-window-value" "front" (formatFrontRemaining (wn_RemainingPercent focus) config) "normal" color 70 1 "top_right";
    text "front-window-state" "front" state "tiny" stateColor 18 10 EmptyString;
    rectangle "front-window-track" "front" 35 11 36 4 BorderColor;
    if fillWidth =? 0 then rectangle "front-window-fill" "front" 35 11 1 4 BorderColor
    else rectangle "front-window-fill" "front" 35 11 fillWidth 4 color ].

Definition one_window (now : Time) (window : Window) (config : PresentationConfig) : list Element :=
  let color := quotaColor (wn_RemainingPercent window) config in
  [ text "back-window-0-label" "back" (BackWindowLabel (wn_Duration window)) "normal" TextColor 8 18 EmptyString;
    text "back-window-0-value" "back" (format_int (wn_RemainingPercent window) +:+ "% LEFT") "large" color 142 15 "top_right" ]
  ++ backBar "back-window-0" (wn_RemainingPercent window) color 8 38 136
  ++ resetElements "back-window-0" now (wn_ResetsAt window) "normal" 8 54 142.

Definition window_row (now : Time) (index : Z) (window : Window) (config : PresentationConfig) : list Element :=
  let prefix := "back-window-" +:+ format_int index in
  let y := 15 + index * 30 in
  let color := quotaColor (wn_RemainingPercent window) config in
  [ text (prefix +:+ "-label") "back" (BackWindowLabel (wn_Duration window)) "normal" TextColor 8 y EmptyString;
    text (prefix +:+ "-value") "back" (format_int (wn_RemainingPercent window) +:+ "% LEFT") "normal" color 142 y "top_right" ]
  ++ backBar prefix (wn_RemainingPercent window) color 8 (y + 11) 136
  ++ resetElements prefix now (wn_ResetsAt window) "small" 8 (y + 19) 142.

(** The loop shows the first two windows. *)
Fixpoint window_rows (now : Time) (index : Z) (windows : list Window) (config : PresentationConfig) : list Element :=
  match windows with
  | [] => []
  | window :: windows =>
    if 2 <=? index then [] else window_row now index window config ++ window_rows now (index + 1) windows config
  end.

Definition usage_Scene (snapshot : Snapshot) (focus : Window) (config : PresentationConfig) (signal : Signal) (assetPath : string)
    : Scene :=
  let title := "CODEX QUOTA: " +:+ ToUpper (pc_Label config) in
  mkScene (front_elements focus config signal assetPath
    ++ [text "back-title" "back" title "normal" TextColor 74 2 "top_mid"]
    ++ match sn_Windows snapshot with
       | [window] => one_window (sn_UpdatedAt snapshot) window config
       | windows => window_rows (sn_UpdatedAt snapshot) 0 windows config
       end).

(** ** Rate limits of the app server *)

Record RateLimitWindow := mkRateLimitWindow { rl_UsedPercent : Z; rl_WindowDurationMinutes : Z; rl_ResetsAt : Z }.
Record RateLimitSnapshot := mkRateLimitSnapshot {
  rl_LimitID : string;
  rl_Primary : option RateLimitWindow;
  rl_Secondary : option RateLimitWindow;
}.
Definition no_rate_limits : RateLimitSnapshot := mkRateLimitSnapshot EmptyString None None.

Definition mergeRateLimitWindow (current update : option RateLimitWindow) : option RateLimitWindow :=
  match update with
  | None => current
  | Some update =>
    let '(minutes, resets) := match current with
      | Some current => (rl_WindowDurationMinutes current, rl_ResetsAt current)
      | None => (0, 0)
      end in
    Some (mkRateLimitWindow (rl_UsedPercent update)
            (if rl_WindowDurationMinutes update =? 0 then minutes else rl_WindowDurationMinutes update)
            (if rl_ResetsAt update =? 0 then resets else rl_ResetsAt update))
  end.
Definition MergeRateLimits (current update : RateLimitSnapshot) : RateLimitSnapshot :=
  mkRateLimitSnapshot (if rl_LimitID update =s EmptyString then rl_LimitID current else rl_LimitID update)
    (mergeRateLimitWindow (rl_Primary current) (rl_Primary update))
    (mergeRateLimitWindow (rl_Secondary current) (rl_Secondary update)).

(** ** Valid elements *)

Definition good_text (value : string) : Prop := ValidString value = true /\ len value <= MaxTextBytes.

Lemma printable_good s : printable s = true -> len s <= MaxTextBytes -> good_text s.
Proof. intros H Hl. split; [by apply printable_valid|done]. Qed.

Lemma text_valid id display value font color x y align :
  ValidIdentifier id -> on_canvas display x y -> good_text value -> validFont font = true -> colorPattern color = true ->
  validAlign align = true -> ValidElement (text id display value font color x y align).
Proof.
  intros Hid Hc [Hv Hl] Hf Hcol Ha. split; [done|done|]. eexists. split; [reflexivity|]. cbn.
  split_and!; first [done|by right].
Qed.

Lemma rectangle_valid id display x y width height color :
  ValidIdentifier id -> on_canvas display x y -> 0 < width <= MaxInt32 -> 0 < height <= MaxInt32 -> colorPattern color = true ->
  ValidElement (rectangle id display x y width height color).
Proof. intros Hid Hc [] [] Hcol. split; [done|done|]. eexists. split; [reflexivity|]. cbn. by split_and!. Qed.

Lemma countdown_valid id display timestamp color x y align :
  ValidIdentifier id -> on_canvas display x y -> 0 < timestamp -> colorPattern color = true -> validAlign align = true ->
  ValidElement (countdown id display timestamp color x y align).
Proof.
  intros Hid Hc Ht Hcol Ha. split; [done|done|]. eexists. split; [reflexivity|]. cbn. split_and!; first [done|apply list_elem_of_here].
Qed.

Lemma image_valid id display x y path :
  ValidIdentifier id -> on_canvas display x y -> CanonicalPath path -> ValidElement (image id display x y path).
Proof.
  intros Hid Hc Hp. split; [done|done|]. eexists. split; [reflexivity|]. cbn. split; [by left|by left].
Qed.

(** Identifiers and coordinates are literals. *)
Lemma literal_identifier s : Validate EmptyString s = None -> ValidIdentifier s.
Proof. apply Validate_None. Qed.

Lemma literal_front x y : (0 <=? x) && (x <? 72) && (0 <=? y) && (y <? 16) = true -> on_canvas "front" x y.
Proof. intros H. left. split; [done|]. lia. Qed.
Lemma literal_back x y : (0 <=? x) && (x <? 160) && (0 <=? y) && (y <? 80) = true -> on_canvas "back" x y.
Proof. intros H. right. split; [done|]. lia. Qed.

Ltac literal :=
  first [ by apply literal_identifier; vm_compute
        | by apply literal_front; vm_compute
        | by apply literal_back; vm_compute
        | by vm_compute ].

(** ** The scene of a window is valid *)

Lemma quotaColor_valid remaining config : colorPattern (quotaColor remaining config) = true.
Proof. unfold quotaColor. by repeat case_if. Qed.

Lemma round_percent_bounds width remaining : 0 <= width -> 0 <= remaining <= 100 -> 0 <= round_percent width remaining <= width.
Proof.
  intros Hw Hr. unfold round_percent. split; [apply Z.div_pos; nia|]. apply Z.lt_succ_r, Z.div_lt_upper_bound; nia.
Qed.

Definition good_window (window : Window) : Prop := 0 <= wn_RemainingPercent window <= 100 /\ 0 < wn_Duration window.

Lemma percent_text n suffix : 0 <= len suffix <= 8 -> printable suffix = true -> good_text (format_int n +:+ suffix).
Proof.
  intros Hl Hp. apply printable_good; [by rewrite printable_app, format_int_printable|].
  rewrite len_app. pose proof (len_format_int n). unfold MaxTextBytes. lia.
Qed.

Lemma BackWindowLabel_good duration : good_text (BackWindowLabel duration).
Proof.
  unfold BackWindowLabel.
  repeat match goal with
  | |- good_text (if ?b then _ else _) => destruct b
  | |- good_text (format_int ?n +:+ ?suffix) => by apply percent_text; [vm_compute; split; discriminate|]
  | |- good_text _ => by apply printable_good; vm_compute
  end.
Qed.

Lemma backBar_valid prefix remaining color y :
  Forall ValidIdentifier [prefix +:+ "-border"; prefix +:+ "-track"; prefix +:+ "-fill"] -> 0 <= remaining <= 100 ->
  colorPattern color = true -> 0 <= y < 79 -> Forall ValidElement (backBar prefix remaining color 8 y 136).
Proof.
  intros Hid Hr Hc Hy. apply Forall_cons in Hid as [H1 Hid]. apply Forall_cons in Hid as [H2 Hid]. apply Forall_cons in Hid as [H3 _].
  pose proof (round_percent_bounds 134 remaining ltac:(lia) Hr) as Hb. unfold backBar. change (136 - 2) with 134.
  assert (Hcan : forall x z, 0 <= x < 160 -> 0 <= z < 80 -> on_canvas "back" x z) by (intros; by right).
  repeat apply Forall_cons_2; [..|apply Forall_nil_2].
  - apply rectangle_valid; [done|apply Hcan; lia|unfold MaxInt32; lia..|done].
  - apply rectangle_valid; [done|apply Hcan; lia|unfold MaxInt32; lia..|done].
  - destruct (Z.eqb_spec (round_percent 134 remaining) 0);
      (apply rectangle_valid; [done|apply Hcan; lia|unfold MaxInt32; lia|unfold MaxInt32; lia|done]).
Qed.

Lemma reset_shown_good now reset : let '(label, timestamp, color) := reset_shown now reset in
  good_text label /\ 0 < timestamp /\ colorPattern color = true.
Proof.
  unfold reset_shown. destruct (IsZero reset || (Unix reset <=? 0)) eqn:Hr; [by split_and!; [apply printable_good; vm_compute|..]|].
  apply orb_false_iff in Hr as [_ Hr]. assert (0 < Unix reset) by lia.
  destruct ((0 <? Sub reset now) && (Sub reset now <? 60 * Hour)); [by split_and!; [apply printable_good; vm_compute|..]|].
  destruct (60 * Hour <=? Sub reset now); [|by split_and!; [apply printable_good; vm_compute|..]].
  split_and!; [|done..]. set (days := Z.quot _ _). set (hours := Z.quot _ _).
  pose proof (len_format_int days). pose proof (len_format_int hours). apply printable_good.
  - rewrite !printable_app, format_int_printable. destruct (0 <? hours); [|done]. by rewrite !printable_app, format_int_printable.
  - rewrite !len_app. unfold MaxTextBytes. change (len "RESET IN ") with 9. change (len "D") with 1.
    destruct (0 <? hours); [rewrite !len_app; change (len " ") with 1; change (len "H") with 1; lia|]. change (len EmptyString) with 0. lia.
Qed.

Lemma resetElements_valid prefix now reset font y :
  Forall ValidIdentifier [prefix +:+ "-reset"; prefix +:+ "-reset-countdown"] -> validFont font = true -> 2 <= y < 80 ->
  Forall ValidElement (resetElements prefix now reset font 8 y 142).
Proof.
  intros Hid Hf Hy. apply Forall_cons in Hid as [H1 Hid]. apply Forall_cons in Hid as [H2 _]. unfold resetElements.
  pose proof (reset_shown_good now reset) as Hg. destruct (reset_shown now reset) as [[label timestamp] color].
  destruct Hg as (Hl & Ht & Hc). repeat apply Forall_cons_2; [..|apply Forall_nil_2].
  - apply text_valid; try done. right. split; [done|]. lia.
  - apply countdown_valid; try done. right. split; [done|]. lia.
Qed.

Record good_config (config : PresentationConfig) : Prop := {
  gc_label : printable (pc_Label config) = true /\ len (pc_Label config) <= 256;
  gc_badge : printable (pc_Badge config) = true /\ len (pc_Badge config) <= 256;
}.

Lemma ToUpper_printable s : printable s = true -> printable (ToUpper s) = true.
Proof.
  unfold printable. induction s as [|a s IH]; [done|]. cbn [forall_bytes ToUpper]. intros [Ha Hs]%andb_prop.
  rewrite IH by done. rewrite andb_true_r. destruct (is_lower (byte a)) eqn:Hl; [|done].
  unfold is_lower, between in *. rewrite byte_ascii_of_byte by lia. lia.
Qed.
Lemma len_ToUpper s : len (ToUpper s) = len s.
Proof. unfold len. f_equal. induction s as [|a s IH]; [done|]. cbn. by rewrite IH. Qed.

Lemma front_valid focus config signal assetPath :
  good_window focus -> good_config config -> CanonicalPath assetPath ->
  Forall ValidElement (front_elements focus config signal assetPath).
Proof.
  intros [Hr _] [_ [Hbp Hbl]] Hpath. pose proof (round_percent_bounds 36 (wn_RemainingPercent focus) ltac:(lia) Hr).
  unfold front_elements. set (label := if pc_ShowBadge config then _ else _).
  assert (Hlabel : good_text label).
  { assert (Hw : forall d, printable (FrontWindowLabel d) = true /\ len (FrontWindowLabel d) = 2)
      by (intros d; unfold FrontWindowLabel; by repeat case_if).
    destruct (Hw (wn_Duration focus)) as [Hp Hl]. unfold label. destruct (pc_ShowBadge config).
    - apply printable_good; [by rewrite !printable_app, Hbp, Hp|]. rewrite !len_app, Hl. change (len " ") with 1. unfold MaxTextBytes. lia.
    - apply printable_good; [done|]. rewrite Hl. unfold MaxTextBytes. lia. }
  assert (Hvalue : good_text (formatFrontRemaining (wn_RemainingPercent focus) config)).
  { unfold formatFrontRemaining. case_if; (by apply percent_text; [vm_compute; split|]). }
  destruct (match signal with SignalNone => _ | SignalLow => _ | SignalCritical => _ end) as [state stateColor] eqn:Hs.
  assert (Hstate : good_text state /\ colorPattern stateColor = true).
  { destruct signal; injection Hs as <- <-; (split; [by apply printable_good; vm_compute|by vm_compute]). }
  destruct Hstate as [Hst Hsc]. pose proof (quotaColor_valid (wn_RemainingPercent focus) config) as Hqc.
  repeat apply Forall_cons_2; [..|apply Forall_nil_2].
  - apply rectangle_valid; literal.
  - apply rectangle_valid; literal.
  - apply image_valid; [literal..|done].
  - apply text_valid; first [done|literal].
  - apply text_valid; first [done|literal].
  - apply text_valid; first [done|literal].
  - apply rectangle_valid; literal.
  - destruct (Z.eqb_spec (round_percent 36 (wn_RemainingPercent focus)) 0);
      (apply rectangle_valid; [literal|literal|unfold MaxInt32; lia|literal|first [done|literal]]).
Qed.

Lemma one_window_valid now window config : good_window window -> Forall ValidElement (one_window now window config).
Proof.
  intros [Hr _]. unfold one_window. pose proof (quotaColor_valid (wn_RemainingPercent window) config) as Hqc.
  apply Forall_app_2; [|apply Forall_app_2].
  - repeat apply Forall_cons_2; [..|apply Forall_nil_2].
    + apply text_valid; first [apply BackWindowLabel_good|literal].
    + apply text_valid; first [done|apply percent_text; [vm_compute; split; discriminate|done]|literal].
  - apply backBar_valid; [|done..|lia]. repeat apply Forall_cons_2; [..|apply Forall_nil_2]; literal.
  - apply resetElements_valid; [|done|lia]. repeat apply Forall_cons_2; [..|apply Forall_nil_2]; literal.
Qed.

Lemma window_row_valid now index window config : index = 0 \/ index = 1 -> good_window window ->
  Forall ValidElement (window_row now index window config).
Proof.
  intros Hi [Hr _]. unfold window_row. pose proof (quotaColor_valid (wn_RemainingPercent window) config) as Hqc.
  assert (Hcan : on_canvas "back" 8 (15 + index * 30) /\ on_canvas "back" 142 (15 + index * 30))
    by (split; right; (split; [done|lia])).
  destruct Hcan as [Hc1 Hc2]. apply Forall_app_2; [|apply Forall_app_2].
  - repeat apply Forall_cons_2; [..|apply Forall_nil_2].
    + apply text_valid; first [done|apply BackWindowLabel_good|destruct Hi as [-> | ->]; literal].
    + apply text_valid; first [done|apply percent_text; [vm_compute; split; discriminate|done]|destruct Hi as [-> | ->]; literal].
  - apply backBar_valid; [|done..|lia].
    destruct Hi as [-> | ->]; (repeat apply Forall_cons_2; [..|apply Forall_nil_2]; literal).
  - apply resetElements_valid; [|done|lia].
    destruct Hi as [-> | ->]; (repeat apply Forall_cons_2; [..|apply Forall_nil_2]; literal).
Qed.

Definition front_ids : list string :=
  ["front-background"; "back-background"; "front-codex-mark"; "front-window-label"; "front-window-value";
   "front-window-state"; "front-window-track"; "front-window-fill"; "back-title"]%string.
Definition window_ids (prefix : string) : list string :=
  [prefix +:+ "-label"; prefix +:+ "-value"; prefix +:+ "-border"; prefix +:+ "-track"; prefix +:+ "-fill"; prefix +:+ "-reset";
   prefix +:+ "-reset-countdown"].

Lemma front_elements_ids focus config signal assetPath :
  map elem_ID (front_elements focus config signal assetPath) ++ ["back-title"%string] = front_ids.
Proof. unfold front_elements. destruct signal, (round_percent 36 (wn_RemainingPercent focus) =? 0); reflexivity. Qed.

Lemma bar_and_reset_ids prefix remaining color y now reset font y' :
  map elem_ID (backBar prefix remaining color 8 y 136 ++ resetElements prefix now reset font 8 y' 142) = drop 2 (window_ids prefix).
Proof.
  unfold backBar, resetElements. destruct (reset_shown now reset) as [[label timestamp] c].
  by destruct (round_percent (136 - 2) remaining =? 0).
Qed.

Lemma one_window_ids now window config : map elem_ID (one_window now window config) = window_ids "back-window-0".
Proof. unfold one_window. rewrite map_app, bar_and_reset_ids. reflexivity. Qed.

Lemma window_row_ids now index window config :
  map elem_ID (window_row now index window config) = window_ids ("back-window-" +:+ format_int index).
Proof. unfold window_row. rewrite map_app, bar_and_reset_ids. reflexivity. Qed.

Lemma window_rows_spec now windows config : Forall good_window windows ->
  Forall ValidElement (window_rows now 0 windows config)
  /\ map elem_ID (window_rows now 0 windows config)
     = concat (take (length windows) [window_ids "back-window-0"; window_ids "back-window-1"]).
Proof.
  intros Hw. destruct windows as [|w0 windows]; [by split; [apply Forall_nil_2|]|]. inversion Hw as [|? ? H0 Hw']; subst.
  cbn [window_rows]. change (2 <=? 0) with false. cbv iota. change (0 + 1) with 1. destruct windows as [|w1 windows].
  { cbn [window_rows length take]. rewrite app_nil_r, window_row_ids. split; [apply window_row_valid; auto|].
    cbn [concat]. by rewrite app_nil_r. }
  inversion Hw' as [|? ? H1 _]; subst. cbn [window_rows]. change (2 <=? 1) with false. cbv iota. change (1 + 1) with 2.
  assert (window_rows now 2 windows config = []) as ->. { by destruct windows. }
  rewrite app_nil_r, map_app, !window_row_ids. split.
  - apply Forall_app_2; apply window_row_valid; auto.
  - cbn [length take]. rewrite take_nil. cbn [concat]. by rewrite app_nil_r.
Qed.

Lemma usage_scene_valid_lemma snapshot focus config signal assetPath :
  Forall good_window (sn_Windows snapshot) -> good_window focus -> good_config config -> CanonicalPath assetPath ->
  ValidScene (usage_Scene snapshot focus config signal assetPath).
Proof.
  intros Hw Hf Hc Hpath. pose proof (front_valid focus config signal assetPath Hf Hc Hpath) as Hfront.
  unfold usage_Scene. set (rows := match sn_Windows snapshot with [window] => _ | windows => _ end).
  assert (Hrows : Forall ValidElement rows
    /\ exists n, (n <= 2)%nat /\ map elem_ID rows = concat (take n [window_ids "back-window-0"; window_ids "back-window-1"])).
  { unfold rows. pose proof (window_rows_spec (sn_UpdatedAt snapshot) (sn_Windows snapshot) config Hw) as [Hv Hids].
    destruct (sn_Windows snapshot) as [|w [|w' windows]].
    - split; [done|]. exists 0%nat. split; [lia|done].
    - inversion Hw; subst. split; [by apply one_window_valid|]. exists 1%nat. split; [lia|]. rewrite one_window_ids.
      cbn [take concat]. by rewrite app_nil_r.
    - split; [done|]. exists 2%nat. split; [lia|]. rewrite Hids. cbn [length take]. by destruct (length windows). }
  clearbody rows. destruct Hrows as (Hrows & n & Hn & Hids).
  assert (Htitle : ValidElement (text "back-title" "back" ("CODEX QUOTA: " +:+ ToUpper (pc_Label config)) "normal" TextColor 74 2 "top_mid")).
  { destruct Hc as [[Hp Hl] _]. apply text_valid; [literal|literal| |literal..]. apply printable_good.
    - rewrite printable_app, ToUpper_printable; done.
    - rewrite len_app, len_ToUpper. change (len "CODEX QUOTA: ") with 13. unfold MaxTextBytes. lia. }
  assert (Hall : map elem_ID (front_elements focus config signal assetPath
      ++ [text "back-title" "back" ("CODEX QUOTA: " +:+ ToUpper (pc_Label config)) "normal" TextColor 74 2 "top_mid"] ++ rows)
      = front_ids ++ concat (take n [window_ids "back-window-0"; window_ids "back-window-1"])).
  { rewrite app_assoc, map_app, Hids, map_app. f_equal. apply front_elements_ids. }
  split; cbn [scene_Elements].
  - rewrite <- (length_map elem_ID), Hall. unfold MaxSceneElements. destruct n as [|[|[|n]]]; [..|lia]; vm_compute; split; discriminate.
  - apply Forall_app_2; [done|]. apply Forall_app_2; [|done]. apply Forall_cons_2; [done|apply Forall_nil_2].
  - rewrite Hall. destruct n as [|[|[|n]]]; [..|lia]; apply (bool_decide_unpack _); vm_compute; exact I.
Qed.

(** What normalization gives: windows in order, each with a whole percentage. *)
Lemma NormalizeWindows_good raw now snapshot : NormalizeWindows raw now = inl snapshot ->
  sn_Windows snapshot <> [] /\ Forall good_window (sn_Windows snapshot) /\ sn_UpdatedAt snapshot = UTC now.
Proof.
  unfold NormalizeWindows. set (windows := map normalize_window _). intros H.
  assert (Hs : windows <> [] /\ snapshot = mkSnapshot (SortFunc cmp_Duration windows) (UTC now)).
  { destruct windows; [done|]. by injection H as <-. }
  destruct Hs as [Hn ->]. cbn [sn_Windows sn_UpdatedAt]. split_and!; [|apply Forall_forall|done].
  - intros He. apply Hn, length_zero_iff_nil. by rewrite <- (length_SortFunc cmp_Duration), He.
  - intros w Hw. apply elem_of_SortFunc in Hw. unfold windows in Hw. apply list_elem_of_In, in_map_iff in Hw as (source & <- & Hin%list_elem_of_In).
    apply list_elem_of_filter in Hin as [Hd _]. unfold good_window, normalize_window. cbn. lia.
Qed.

Lemma fold_constrained_in windows : forall window, fold_left more_constrained windows window ∈ window :: windows.
Proof.
  induction windows as [|w windows IH]; intros window; [apply list_elem_of_here|]. cbn [fold_left].
  assert (Hm : more_constrained window w = window \/ more_constrained window w = w).
  { unfold more_constrained. case_if; auto. }
  specialize (IH (more_constrained window w)). destruct Hm as [Hm | Hm]; rewrite Hm in IH |- *; set_solver.
Qed.

Lemma MostConstrained_in snapshot window : MostConstrained snapshot = Some window -> window ∈ sn_Windows snapshot.
Proof. unfold MostConstrained. destruct (sn_Windows snapshot); [done|]. intros [= <-]. apply fold_constrained_in. Qed.
