(* ===== verification/CodexReducer.v ===== *)
(** * The Codex plugin's reducer

    Models [src/plugins/codex/reducer.go] and [types.go]: what the plugin knows of the threads
    of a Codex app server, of the requests that wait for an answer, and of the quota. Decoding
    JSON into the parameter structs is a parameter ([decoders]), as is the hash function.
    [clock n] is the [n]-th reading of the clock within one operation. *)

From Stdlib Require Import ZArith Lia ZifyBool.
From S2P Require Import Prelude GoStrings GoTime GoEncoding Protocol JsonText GoText CodexUsage.

Definition reconnectGrace : Z := 5 * Second.
Definition runVisibilityWindow : Z := 8 * Second.
Definition outcomeVisibilityWindow : Z := 30 * Second.
Definition quotaPressureVisibilityWindow : Z := 30 * Second.

Definition ChannelAttention : string := "attention".
Definition ChannelGuidance : string := "guidance".
Definition ChannelOutcome : string := "outcome".
Definition ChannelActivity : string := "activity".
Definition ChannelProgress : string := "progress".
Definition ChannelOverview : string := "overview".
Definition ChannelConnection : string := "connection".
Definition ChannelDetail : string := "detail".
Definition ChannelQuotaSummary : string := "quota-summary".
Definition ChannelQuotaPressure : string := "quota-pressure".

(** ** Data of the app server *)

(** [Connection] is a pointer; 0 is nil. *)
Definition Connection : Type := Z.
Record RawID := mkRawID { id_value : string; id_connection : Connection }.

#[export] Instance RawID_eq_dec : EqDecision RawID.
Proof. solve_decision. Defined.

Definition RawID_Valid (id : RawID) : bool := negb (id_value id =s EmptyString).
Definition RawID_Key (id : RawID) : string := id_value id.
Definition RawID_Equal (id other : RawID) : bool := (id_connection id =? id_connection other) && (id_value id =s id_value other).

(** [json.Unmarshal] into a [string], which leaves it empty on null. *)
Definition unmarshal_string (raw : string) : option string :=
  match value_of raw with
  | Some (JString s) => Some s
  | Some JNull => Some EmptyString
  | _ => None
  end.
(** A number or a string (a [json.Number] is decoded from either). *)
Definition validID (raw : string) : bool :=
  match value_of raw with
  | Some (JNumber _) | Some (JString _) | Some JNull => true
  | _ => false
  end.
Definition ParseRawID (raw : string) : RawID + error :=
  if (len raw =? 0) || (raw =s "null") || negb (validID raw) then inr (Errorf "invalid JSON-RPC request id" [])
  else inl (mkRawID raw 0).

Record ThreadStatus := mkThreadStatus { ts_Type : string; ts_ActiveFlags : list string }.
Record ItemSnapshot := mkItemSnapshot { is_ID : string; is_Type : string; is_Status : string }.
Record TurnSnapshot := mkTurnSnapshot {
  tn_ID : string;
  tn_Status : string;
  tn_Items : list ItemSnapshot;
  tn_StartedAt : option Z;
  tn_CompletedAt : option Z;
  tn_DurationMS : option Z;
  tn_Error : string;
}.
Record ThreadSnapshot := mkThreadSnapshot {
  tp_ID : string;
  tp_Name : string;
  tp_Preview : string;
  tp_CWD : string;
  tp_Status : ThreadStatus;
  tp_LatestTurn : option TurnSnapshot;
}.

Inductive IncomingKind := IncomingNotification | IncomingServerRequest.
Record Incoming := mkIncoming { in_Kind : IncomingKind; in_ID : RawID; in_Method : string; in_Params : string }.

(** [ManagerEvent]: one constructor per kind, with the fields the kind uses. *)
Inductive ManagerEvent :=
  | ManagerConnected (connection : Connection)
  | ManagerDisconnected
  | ManagerIncoming (incoming : Incoming)
  | ManagerThreadsReconciled (threadIDs : list string)
  | ManagerThreadAttached (thread : option ThreadSnapshot)
  | ManagerThreadAttachFailed
  | ManagerRateLimitsSnapshot (rateLimits : option RateLimitSnapshot)
  | ManagerRateLimitsReadFailed.

(** ** [types.go] *)

Inductive requestKind := requestCommand | requestFile | requestPermission | requestQuestion.

#[export] Instance requestKind_eq_dec : EqDecision requestKind.
Proof. solve_decision. Defined.

Record requestOption := mkRequestOption { ro_Label : string; ro_Description : string; ro_AnswerInCodex : bool }.
Record typedQuestion := mkTypedQuestion {
  tq_ID : string;
  tq_Header : string;
  tq_Question : string;
  tq_Options : list requestOption;
}.
Record pendingRequest := mkPendingRequest {
  pr_Key : string;
  pr_ID : RawID;
  pr_ArrivalSequence : Z;
  pr_Kind : requestKind;
  pr_ThreadID : string;
  pr_TurnID : string;
  pr_ItemID : string;
  pr_StartedAt : Time;
  pr_Params : string;
  pr_Actions : list string;
  pr_Questions : list typedQuestion;
  pr_Permissions : string;
  pr_Interactive : bool;
}.
Record threadState := mkThreadState {
  th_ID : string;
  th_Name : string;
  th_Preview : string;
  th_CWD : string;
  th_Status : ThreadStatus;
  th_LatestTurn : option TurnSnapshot;
  th_RunStartedAt : Time;
  th_PlanTotal : Z;
  th_PlanDone : Z;
  th_CompletedPlanTurnID : string;
  th_OutcomeAt : Time;
  th_CompactionItemID : string;
  th_CompactionTurnID : string;
  th_CompactionStartedAt : Time;
  th_CompletedCompactionItemID : string;
  th_CompactionCompletedAt : Time;
  th_liveSequence : Z;
}.
Record ThreadSummary := mkThreadSummary { sm_ThreadID : string; sm_Title : string; sm_Status : string; sm_Pinned : bool }.

Definition no_status : ThreadStatus := mkThreadStatus EmptyString [].
(** [&threadState{ID: threadID}] *)
Definition new_thread (threadID : string) : threadState :=
  mkThreadState threadID EmptyString EmptyString EmptyString no_status None zero_time 0 0 EmptyString zero_time
    EmptyString EmptyString zero_time EmptyString zero_time 0.

(** Assignments to fields of a thread. *)
Definition th_set_status (status : ThreadStatus) (t : threadState) : threadState :=
  mkThreadState (th_ID t) (th_Name t) (th_Preview t) (th_CWD t) status (th_LatestTurn t) (th_RunStartedAt t) (th_PlanTotal t)
    (th_PlanDone t) (th_CompletedPlanTurnID t) (th_OutcomeAt t) (th_CompactionItemID t) (th_CompactionTurnID t)
    (th_CompactionStartedAt t) (th_CompletedCompactionItemID t) (th_CompactionCompletedAt t) (th_liveSequence t).
Definition th_set_turn (turn : option TurnSnapshot) (runStartedAt outcomeAt : Time) (t : threadState) : threadState :=
  mkThreadState (th_ID t) (th_Name t) (th_Preview t) (th_CWD t) (th_Status t) turn runStartedAt (th_PlanTotal t)
    (th_PlanDone t) (th_CompletedPlanTurnID t) outcomeAt (th_CompactionItemID t) (th_CompactionTurnID t)
    (th_CompactionStartedAt t) (th_CompletedCompactionItemID t) (th_CompactionCompletedAt t) (th_liveSequence t).
Definition th_set_plan (total done_ : Z) (completedTurnID : string) (t : threadState) : threadState :=
  mkThreadState (th_ID t) (th_Name t) (th_Preview t) (th_CWD t) (th_Status t) (th_LatestTurn t) (th_RunStartedAt t) total
    done_ completedTurnID (th_OutcomeAt t) (th_CompactionItemID t) (th_CompactionTurnID t)
    (th_CompactionStartedAt t) (th_CompletedCompactionItemID t) (th_CompactionCompletedAt t) (th_liveSequence t).
Definition th_set_compaction (itemID turnID : string) (startedAt : Time) (t : threadState) : threadState :=
  mkThreadState (th_ID t) (th_Name t) (th_Preview t) (th_CWD t) (th_Status t) (th_LatestTurn t) (th_RunStartedAt t) (th_PlanTotal t)
    (th_PlanDone t) (th_CompletedPlanTurnID t) (th_OutcomeAt t) itemID turnID
    startedAt (th_CompletedCompactionItemID t) (th_CompactionCompletedAt t) (th_liveSequence t).
Definition th_set_compacted (itemID : string) (completedAt : Time) (t : threadState) : threadState :=
  mkThreadState (th_ID t) (th_Name t) (th_Preview t) (th_CWD t) (th_Status t) (th_LatestTurn t) (th_RunStartedAt t) (th_PlanTotal t)
    (th_PlanDone t) (th_CompletedPlanTurnID t) (th_OutcomeAt t) (th_CompactionItemID t) (th_CompactionTurnID t)
    (th_CompactionStartedAt t) itemID completedAt (th_liveSequence t).
Definition th_set_sequence (sequence : Z) (t : threadState) : threadState :=
  mkThreadState (th_ID t) (th_Name t) (th_Preview t) (th_CWD t) (th_Status t) (th_LatestTurn t) (th_RunStartedAt t) (th_PlanTotal t)
    (th_PlanDone t) (th_CompletedPlanTurnID t) (th_OutcomeAt t) (th_CompactionItemID t) (th_CompactionTurnID t)
    (th_CompactionStartedAt t) (th_CompletedCompactionItemID t) (th_CompactionCompletedAt t) sequence.

(** ** Texts *)

(** [string(runes[:limit])] of a text with more runes than [limit]. *)
Definition cut_runes (limit : nat) (value : string) : string :=
  let runes := runes_of value in
  if (limit <? length runes)%nat then string_of_runes (take limit runes) else value.

Definition is_control (char : Z) : bool := (char <? 32) || (char =? 127).

Definition safeLine (value : string) : string :=
  let value := TrimSpace value in
  let value := Map (fun char => if is_control char then 32 else char) value in
  let value := join_strings " " (Fields value) in
  cut_runes 96 value.

Definition safeExactText (value : string) (maxBytes : Z) : bool :=
  if (value =s EmptyString) || (maxBytes <? len value) || negb (ValidString value) || negb (TrimSpace value =s value) then false
  else negb (existsb is_control (runes_of value)).

Definition safeThreadID (value : string) : bool := safeExactText value 128.

Definition terminalTurnStatus (status : string) : bool := one_of status ["completed"; "interrupted"; "failed"]%string.
Definition hasPlanItem (items : list ItemSnapshot) : bool := existsb (fun item => is_Type item =s "plan") items.
Definition validThreadStatus (status : string) : bool := one_of status ["notLoaded"; "idle"; "systemError"; "active"]%string.

Definition requestKindForMethod (method : string) : option requestKind :=
  if method =s "item/commandExecution/requestApproval" then Some requestCommand
  else if method =s "item/fileChange/requestApproval" then Some requestFile
  else if method =s "item/permissions/requestApproval" then Some requestPermission
  else if method =s "item/tool/requestUserInput" then Some requestQuestion
  else None.

Definition jsonObject (raw : string) : bool :=
  let trimmed := TrimSpace raw in
  (2 <=? len trimmed) && HasPrefix trimmed "{" && HasSuffix trimmed "}" && Valid raw.

(** ** Questions *)

(** The parameter structs of [projectQuestions]. *)
Record optionParams := mkOptionParams { op_Label : string; op_Description : string }.
Record questionParams := mkQuestionParams {
  qp_ID : string;
  qp_Header : string;
  qp_Question : string;
  qp_IsOther : bool;
  qp_IsSecret : bool;
  qp_Options : list optionParams;
}.

Definition answer_in_codex : requestOption := mkRequestOption "Answer in Codex" "Enter a custom answer in Codex" true.

(** The loop over the options of a question; [None] is [return nil, false]. *)
Fixpoint project_options (labels : list string) (options : list optionParams) : option (list requestOption) :=
  match options with
  | [] => Some []
  | option :: options =>
    if negb (safeExactText (op_Label option) 256) then None
    else if one_of (op_Label option) labels then None
    else
      projected ← project_options (op_Label option :: labels) options;
      Some (mkRequestOption (op_Label option) (safeLine (op_Description option)) false :: projected)
  end.

Definition project_question (question : questionParams) : option typedQuestion :=
  if negb (safeExactText (qp_ID question) 128) || (safeLine (qp_Header question) =s EmptyString)
     || (safeLine (qp_Question question) =s EmptyString) || qp_IsSecret question
     || (Z.of_nat (length (qp_Options question)) =? 0) || (8 <? Z.of_nat (length (qp_Options question))) then None
  else
    options ← project_options [] (qp_Options question);
    Some (mkTypedQuestion (qp_ID question) (safeLine (qp_Header question)) (safeLine (qp_Question question))
            (options ++ (if qp_IsOther question then [answer_in_codex] else []))).

Fixpoint project_each (ids : list string) (questions : list questionParams) : option (list typedQuestion) :=
  match questions with
  | [] => Some []
  | question :: questions =>
    projected ← project_question question;
    if one_of (qp_ID question) ids then None
    else rest ← project_each (qp_ID question :: ids) questions; Some (projected :: rest)
  end.

(** ** The parameter structs, as [encoding/json] decodes them *)

Record itemParams := mkItemParams {
  ip_ThreadID : string;
  ip_TurnID : string;
  ip_At : option Z;
  ip_ItemID : string;
  ip_ItemType : string;
}.
Record requestParams := mkRequestParams {
  rp_ThreadID : string;
  rp_TurnID : string;
  rp_ItemID : string;
  rp_StartedAtMS : option Z;
}.

(** [json.Unmarshal] into each of the structs; [None] is an error. *)
Record decoders := mkDecoders {
  decodeTurn : string -> option (string * TurnSnapshot);
  decodePlan : string -> option (string * string * list string);
  decodeItemStarted : string -> option itemParams;
  decodeItemCompleted : string -> option itemParams;
  decodeStatus : string -> option (string * ThreadStatus);
  decodeResolved : string -> option string;
  decodeRequest : string -> option requestParams;
  decodePermissions : string -> option string;
  decodeAvailable : string -> option (option (list string));
  decodeQuestions : string -> option (list questionParams);
  decodeRateLimits : string -> option RateLimitSnapshot;
}.

(** ** The reducer *)

Record QuotaOptions := mkQuotaOptions { qo_Enabled : bool; qo_AssetPath : string; qo_Presentation : PresentationConfig }.

Record Reducer := mkReducer {
  r_connected : bool;
  r_connection : Connection;
  r_disconnectedAt : Time;
  r_awaitingReconcile : bool;
  r_pending : gmap string pendingRequest;
  r_threads : gmap string threadState;
  r_pinned : string;
  r_quotaOptions : QuotaOptions;
  r_quota : option Snapshot;
  r_quotaSignal : Signal;
  r_quotaPressureUntil : Time;
  r_rateLimits : RateLimitSnapshot;
  r_liveSequence : Z;
  r_requestSequence : Z;
}.

Definition set_connection (connected : bool) (connection : Connection) (disconnectedAt : Time) (awaiting : bool) (r : Reducer) : Reducer :=
  mkReducer connected connection disconnectedAt awaiting (r_pending r) (r_threads r) (r_pinned r) (r_quotaOptions r) (r_quota r)
    (r_quotaSignal r) (r_quotaPressureUntil r) (r_rateLimits r) (r_liveSequence r) (r_requestSequence r).
Definition set_pending (pending : gmap string pendingRequest) (requestSequence : Z) (r : Reducer) : Reducer :=
  mkReducer (r_connected r) (r_connection r) (r_disconnectedAt r) (r_awaitingReconcile r) pending (r_threads r) (r_pinned r)
    (r_quotaOptions r) (r_quota r) (r_quotaSignal r) (r_quotaPressureUntil r) (r_rateLimits r) (r_liveSequence r) requestSequence.
Definition set_threads (threads : gmap string threadState) (liveSequence : Z) (r : Reducer) : Reducer :=
  mkReducer (r_connected r) (r_connection r) (r_disconnectedAt r) (r_awaitingReconcile r) (r_pending r) threads (r_pinned r)
    (r_quotaOptions r) (r_quota r) (r_quotaSignal r) (r_quotaPressureUntil r) (r_rateLimits r) liveSequence (r_requestSequence r).
Definition set_pinned (pinned : string) (r : Reducer) : Reducer :=
  mkReducer (r_connected r) (r_connection r) (r_disconnectedAt r) (r_awaitingReconcile r) (r_pending r) (r_threads r) pinned
    (r_quotaOptions r) (r_quota r) (r_quotaSignal r) (r_quotaPressureUntil r) (r_rateLimits r) (r_liveSequence r) (r_requestSequence r).
Definition set_quota (quota : option Snapshot) (signal : Signal) (pressureUntil : Time) (rateLimits : RateLimitSnapshot) (r : Reducer)
    : Reducer :=
  mkReducer (r_connected r) (r_connection r) (r_disconnectedAt r) (r_awaitingReconcile r) (r_pending r) (r_threads r) (r_pinned r)
    (r_quotaOptions r) quota signal pressureUntil rateLimits (r_liveSequence r) (r_requestSequence r).

Definition NewReducerWithQuota (now : Time) (quota : QuotaOptions) : Reducer :=
  mkReducer false 0 (UTC now) false ∅ ∅ EmptyString quota None SignalNone zero_time no_rate_limits 0 0.

(** [r.thread(threadID)], without its insertion of a new thread. *)
Definition thread (threadID : string) (r : Reducer) : threadState := default (new_thread threadID) (r_threads r !! threadID).

(** A thread that was changed, in the map and marked by [markThreadChanged]. *)
Definition change_thread (t : threadState) (r : Reducer) : Reducer :=
  let sequence := u64_succ (r_liveSequence r) in
  set_threads (<[th_ID t := th_set_sequence sequence t]> (r_threads r)) sequence r.

(** [r.markThreadChanged(r.threads[threadID])] *)
Definition markThreadChanged (threadID : string) (r : Reducer) : Reducer :=
  match r_threads r !! threadID with Some t => change_thread t r | None => r end.

Definition clear_flags (t : threadState) : threadState := th_set_status (mkThreadStatus (ts_Type (th_Status t)) []) t.

Section Reduce.
Context (json : decoders) (sha256 : string -> list Z) (clock : nat -> Time).

Definition observationKey (prefix value : string) : string := prefix +:+ "." +:+ hex_of (take 8 (sha256 value)).

Definition commandRequestActions_from (result : list string) (available : list string) : list string :=
  fold_left (fun result raw =>
    match unmarshal_string raw with
    | Some decision =>
      if one_of decision ["accept"; "decline"; "cancel"]%string && negb (one_of decision result) then result ++ [decision] else result
    | None => result
    end) available result.
Definition commandRequestActions (raw : string) : list string :=
  match decodeAvailable json raw with
  | None => []
  | Some None => ["accept"; "decline"; "cancel"]%string
  | Some (Some available) => commandRequestActions_from [] available
  end.

Definition projectQuestions (raw : string) : list typedQuestion * bool :=
  match decodeQuestions json raw with
  | None => ([], false)
  | Some questions =>
    if (Z.of_nat (length questions) =? 0) || (8 <? Z.of_nat (length questions)) then ([], false)
    else match project_each [] questions with Some result => (result, true) | None => ([], false) end
  end.

Definition raw_window (window : RateLimitWindow) : RawWindow :=
  mkRawWindow (rl_UsedPercent window) (dur_mul (rl_WindowDurationMinutes window) Minute) (time_Unix (rl_ResetsAt window)).

Definition applyRateLimits (snapshot : RateLimitSnapshot) (r : Reducer) : Reducer :=
  let raw := map raw_window (option_list (rl_Primary snapshot) ++ option_list (rl_Secondary snapshot)) in
  match NormalizeWindows raw (clock 0) with
  | inr _ => r
  | inl normalized =>
    let nextSignal := SignalFor normalized (qo_Presentation (r_quotaOptions r)) in
    let until := if bool_decide (nextSignal = r_quotaSignal r) then r_quotaPressureUntil r
                 else Add (UTC (clock 1)) quotaPressureVisibilityWindow in
    set_quota (Some normalized) nextSignal until (MergeRateLimits (r_rateLimits r) snapshot) r
  end.

Definition applyRateLimitsUpdate (raw : string) (r : Reducer) : Reducer :=
  if negb (qo_Enabled (r_quotaOptions r)) then r
  else
    match decodeRateLimits json raw with
    | None => r
    | Some limits =>
      if negb (rl_LimitID limits =s EmptyString) && negb (rl_LimitID limits =s "codex") then r
      else applyRateLimits (MergeRateLimits (r_rateLimits r) limits) r
    end.

Definition reconcileThreads (threadIDs : list string) (r : Reducer) : Reducer :=
  let loaded := list_to_set (C := gset string) (filter (fun id => id <> EmptyString) threadIDs) in
  let threads := filter (fun kt => kt.1 ∈ loaded) (r_threads r) in
  let pending := filter (fun kp => pr_ThreadID kp.2 ∈ loaded) (r_pending r) in
  let r := set_pending pending (r_requestSequence r) (set_threads threads (r_liveSequence r) r) in
  if negb (r_pinned r =s EmptyString) && negb (bool_decide (r_pinned r ∈ loaded)) then set_pinned EmptyString r else r.

Definition applyTurnStarted (raw : string) (r : Reducer) : Reducer :=
  match decodeTurn json raw with
  | None => r
  | Some (threadID, turn) =>
    if (threadID =s EmptyString) || (tn_ID turn =s EmptyString) || negb (tn_Status turn =s "inProgress") then r
    else
      let startedAt := match tn_StartedAt turn with Some seconds => time_Unix seconds | None => UTC (clock 0) end in
      change_thread
        (th_set_compacted EmptyString zero_time
           (th_set_compaction EmptyString EmptyString zero_time
              (th_set_plan 0 0 EmptyString
                 (th_set_turn (Some turn) startedAt zero_time (thread threadID r))))) r
  end.

Definition applyTurnCompleted (raw : string) (r : Reducer) : Reducer :=
  match decodeTurn json raw with
  | None => r
  | Some (threadID, turn) =>
    if (threadID =s EmptyString) || (tn_ID turn =s EmptyString) || negb (terminalTurnStatus (tn_Status turn)) then r
    else
      let t := thread threadID r in
      let completedPlanTurnID :=
        if (tn_Status turn =s "completed") && ((th_CompletedPlanTurnID t =s tn_ID turn) || hasPlanItem (tn_Items turn))
        then tn_ID turn else EmptyString in
      let outcomeAt := match tn_CompletedAt turn with Some seconds => time_Unix seconds | None => UTC (clock 0) end in
      let t := th_set_plan 0 0 completedPlanTurnID (th_set_turn (Some turn) zero_time outcomeAt t) in
      change_thread
        (if th_CompactionTurnID t =s tn_ID turn then th_set_compaction EmptyString EmptyString zero_time t else t) r
  end.

Definition applyPlanUpdate (raw : string) (r : Reducer) : Reducer :=
  match decodePlan json raw with
  | None => r
  | Some (threadID, turnID, plan) =>
    if (threadID =s EmptyString) || (turnID =s EmptyString) then r
    else if negb (forallb (fun status => one_of status ["completed"; "pending"; "inProgress"]%string) plan) then r
    else
      let completed := Z.of_nat (length (List.filter (fun status => status =s "completed") plan)) in
      change_thread (th_set_plan (Z.of_nat (length plan)) completed EmptyString (thread threadID r)) r
  end.

Definition applyItemStarted (raw : string) (r : Reducer) : Reducer :=
  match decodeItemStarted json raw with
  | None => r
  | Some params =>
    match ip_At params with
    | None => r
    | Some startedAt =>
      if (ip_ThreadID params =s EmptyString) || (ip_TurnID params =s EmptyString) || (ip_ItemID params =s EmptyString)
         || negb (ip_ItemType params =s "contextCompaction") then r
      else
        change_thread
          (th_set_compacted EmptyString zero_time
             (th_set_compaction (ip_ItemID params) (ip_TurnID params) (time_UnixMilli startedAt) (thread (ip_ThreadID params) r))) r
    end
  end.

Definition applyItemCompleted (raw : string) (r : Reducer) : Reducer :=
  match decodeItemCompleted json raw with
  | None => r
  | Some params =>
    if (ip_ThreadID params =s EmptyString) || (ip_TurnID params =s EmptyString) || (ip_ItemID params =s EmptyString) then r
    else
      let t := thread (ip_ThreadID params) r in
      if ip_ItemType params =s "plan" then
        match th_LatestTurn t with
        | Some turn =>
          if negb (tn_ID turn =s ip_TurnID params) then r
          else change_thread (th_set_plan (th_PlanTotal t) (th_PlanDone t) (ip_TurnID params) t) r
        | None => change_thread (th_set_plan (th_PlanTotal t) (th_PlanDone t) (ip_TurnID params) t) r
        end
      else if ip_ItemType params =s "contextCompaction" then
        match ip_At params with
        | None => r
        | Some milliseconds =>
          let completedAt := time_UnixMilli milliseconds in
          if negb (th_CompactionItemID t =s EmptyString)
             && (negb (th_CompactionItemID t =s ip_ItemID params) || negb (th_CompactionTurnID t =s ip_TurnID params)) then r
          else if (th_CompactionItemID t =s EmptyString) && negb (IsZero (th_CompactionCompletedAt t))
                  && negb (After completedAt (th_CompactionCompletedAt t)) then r
          else
            change_thread
              (th_set_compacted (ip_ItemID params) completedAt (th_set_compaction EmptyString EmptyString zero_time t)) r
        end
      else r
  end.

Definition applyThreadStatus (raw : string) (r : Reducer) : Reducer :=
  match decodeStatus json raw with
  | None => r
  | Some (threadID, status) =>
    if (threadID =s EmptyString) || negb (validThreadStatus (ts_Type status)) then r
    else change_thread (th_set_status status (thread threadID r)) r
  end.

(** The last compaction item of a turn. *)
Definition last_compaction (items : list ItemSnapshot) : string :=
  fold_left (fun found item =>
    if (is_Type item =s "contextCompaction") && negb (is_ID item =s EmptyString) then is_ID item else found) items EmptyString.

Definition snapshot_turn (turn : TurnSnapshot) (t : threadState) : threadState :=
  let runStartedAt := match tn_StartedAt turn with
    | Some seconds => if tn_Status turn =s "inProgress" then time_Unix seconds else zero_time
    | None => zero_time
    end in
  let completedPlanTurnID :=
    if one_of (tn_Status turn) ["inProgress"; "completed"]%string && hasPlanItem (tn_Items turn) then tn_ID turn else EmptyString in
  let t := th_set_plan 0 0 completedPlanTurnID (th_set_turn (Some turn) runStartedAt zero_time t) in
  if terminalTurnStatus (tn_Status turn) then
    let outcomeAt := match tn_CompletedAt turn with Some seconds => time_Unix seconds | None => UTC (clock 0) end in
    let t := th_set_turn (Some turn) runStartedAt outcomeAt t in
    let compaction := last_compaction (tn_Items turn) in
    if compaction =s EmptyString then t else th_set_compacted compaction outcomeAt t
  else t.

Definition applyThreadSnapshot (snapshot : option ThreadSnapshot) (r : Reducer) : Reducer :=
  match snapshot with
  | None => r
  | Some snapshot =>
    if tp_ID snapshot =s EmptyString then r
    else
      let t := mkThreadState (tp_ID snapshot) (tp_Name snapshot) (tp_Preview snapshot) (tp_CWD snapshot) (tp_Status snapshot)
                 None zero_time 0 0 EmptyString zero_time EmptyString EmptyString zero_time EmptyString zero_time 0 in
      change_thread (match tp_LatestTurn snapshot with Some turn => snapshot_turn turn t | None => t end) r
  end.

Definition applyServerRequestResolved (raw : string) (r : Reducer) : Reducer :=
  match decodeResolved json raw with
  | None => r
  | Some requestID =>
    match ParseRawID requestID with
    | inr _ => r
    | inl id =>
      let key := RawID_Key id in
      let r := match r_pending r !! key with Some request => markThreadChanged (pr_ThreadID request) r | None => r end in
      set_pending (delete key (r_pending r)) (r_requestSequence r) r
    end
  end.

(** The fields that depend on the kind: actions, questions, permissions and whether the
    request can be answered on the device; [None] is an early return. *)
Definition request_details (kind : requestKind) (params : string) : option (list string * list typedQuestion * string * bool) :=
  match kind with
  | requestCommand =>
    let actions := commandRequestActions params in
    Some (actions, [], EmptyString, match actions with [] => false | _ => true end)
  | requestFile => Some (["accept"; "decline"; "cancel"]%string, [], EmptyString, true)
  | requestPermission =>
    match decodePermissions json params with
    | None => None
    | Some permissions =>
      if jsonObject permissions then Some (["grantTurn"; "decline"]%string, [], permissions, true) else None
    end
  | requestQuestion => let '(questions, interactive) := projectQuestions params in Some ([], questions, EmptyString, interactive)
  end.

Definition applyServerRequest (incoming : Incoming) (r : Reducer) : Reducer :=
  match requestKindForMethod (in_Method incoming) with
  | None => r
  | Some kind =>
    if negb (RawID_Valid (in_ID incoming)) then r
    else
      match decodeRequest json (in_Params incoming) with
      | None => r
      | Some params =>
        if (rp_ThreadID params =s EmptyString) || (rp_TurnID params =s EmptyString) || (rp_ItemID params =s EmptyString) then r
        else
          let startedAt := match rp_StartedAtMS params with Some ms => time_UnixMilli ms | None => UTC (clock 0) end in
          let key := RawID_Key (in_ID incoming) in
          let sequence := u64_succ (r_requestSequence r) in
          let r := set_pending (r_pending r) sequence r in
          match request_details kind (in_Params incoming) with
          | None => r
          | Some (actions, questions, permissions, interactive) =>
            let request := mkPendingRequest (observationKey "request" key) (in_ID incoming) sequence kind
              (rp_ThreadID params) (rp_TurnID params) (rp_ItemID params) startedAt (in_Params incoming)
              actions questions permissions interactive in
            let r := set_pending (<[key := request]> (r_pending r)) sequence r in
            change_thread (thread (rp_ThreadID params) r) r
          end
      end
  end.

Definition connect (connection : Connection) (r : Reducer) : Reducer :=
  let awaiting := negb (IsZero (r_disconnectedAt r)) && negb (Before (UTC (clock 0)) (Add (r_disconnectedAt r) reconnectGrace)) in
  let r := if awaiting then set_threads ∅ (r_liveSequence r) r else r in
  set_pending ∅ (r_requestSequence r) (set_connection true connection zero_time awaiting r).

Definition disconnect (r : Reducer) : Reducer :=
  let disconnectedAt := if r_connected r || IsZero (r_disconnectedAt r) then UTC (clock 0) else r_disconnectedAt r in
  set_quota None SignalNone zero_time no_rate_limits
    (set_threads (clear_flags <$> r_threads r) (r_liveSequence r)
       (set_pending ∅ (r_requestSequence r)
          (set_connection false (r_connection r) disconnectedAt false r))).

Definition applyNotification (method params : string) (r : Reducer) : Reducer :=
  if method =s "serverRequest/resolved" then applyServerRequestResolved params r
  else if method =s "thread/status/changed" then applyThreadStatus params r
  else if method =s "turn/plan/updated" then applyPlanUpdate params r
  else if method =s "turn/started" then applyTurnStarted params r
  else if method =s "turn/completed" then applyTurnCompleted params r
  else if method =s "item/started" then applyItemStarted params r
  else if method =s "item/completed" then applyItemCompleted params r
  else if method =s "account/rateLimits/updated" then applyRateLimitsUpdate params r
  else r.

Definition Apply (event : ManagerEvent) (r : Reducer) : Reducer :=
  match event with
  | ManagerConnected connection => connect connection r
  | ManagerDisconnected => disconnect r
  | ManagerRateLimitsSnapshot (Some limits) => if qo_Enabled (r_quotaOptions r) then applyRateLimits limits r else r
  | ManagerRateLimitsSnapshot None => r
  | ManagerThreadAttached thread => applyThreadSnapshot thread r
  | ManagerThreadsReconciled threadIDs =>
    let r := reconcileThreads threadIDs r in
    set_connection (r_connected r) (r_connection r) (r_disconnectedAt r) false r
  | ManagerIncoming incoming =>
    match in_Kind incoming with
    | IncomingServerRequest => applyServerRequest incoming r
    | IncomingNotification => applyNotification (in_Method incoming) (in_Params incoming) r
    end
  | ManagerThreadAttachFailed | ManagerRateLimitsReadFailed => r
  end.

(** ** Queries *)

Definition PendingRequest (key : string) (r : Reducer) : option pendingRequest :=
  head (map snd (List.filter (fun kp => pr_Key kp.2 =s key) (map_to_list (r_pending r)))).

Definition NUL : string := String (ascii_of_byte 0) EmptyString.
Definition runObservationKey (t : threadState) : string :=
  match th_LatestTurn t with
  | None => EmptyString
  | Some turn => observationKey "run" (th_ID t +:+ NUL +:+ tn_ID turn)
  end.

Definition in_progress (t : threadState) : bool :=
  match th_LatestTurn t with Some turn => tn_Status turn =s "inProgress" | None => false end.

Definition InterruptTarget (key : string) (r : Reducer) : option (string * string) :=
  match List.filter (fun kt => in_progress kt.2 && ((observationKey "thread" (th_ID kt.2) =s key) || (runObservationKey kt.2 =s key)))
          (map_to_list (r_threads r)) with
  | [] => None
  | (_, t) :: _ =>
    match th_LatestTurn t with
    | Some turn =>
      if negb (th_ID t =s EmptyString) && negb (tn_ID turn =s EmptyString) then Some (th_ID t, tn_ID turn) else None
    | None => None
    end
  end.

Definition is_active (t : threadState) : bool := (ts_Type (th_Status t) =s "active") || in_progress t.

Definition PinThread (threadID : string) (r : Reducer) : bool * Reducer :=
  if negb (safeThreadID threadID) then (false, r)
  else
    match r_threads r !! threadID with
    | Some t => if is_active t then (true, set_pinned threadID r) else (false, r)
    | None => (false, r)
    end.
Definition RestorePinnedThread (threadID : string) (r : Reducer) : Reducer := set_pinned threadID r.
Definition UnpinThread (r : Reducer) : Reducer := set_pinned EmptyString r.

Definition hasPendingForThread (threadID : string) (r : Reducer) : bool :=
  existsb (fun kp => pr_ThreadID kp.2 =s threadID) (map_to_list (r_pending r)).
End Reduce.
