(* ===== verification/CodexCards.v ===== *)
(** * The Codex plugin's cards

    Models [src/plugins/codex/cards.go], [view.go] and the card functions of [reducer.go]: what
    the plugin shows of the reducer's state, and the scene of a card. *)

From Stdlib Require Import ZArith Lia ZifyBool.
From S2P Require Import Prelude GoStrings GoTime GoJson GoEncoding Protocol JsonText GoText CodexUsage CodexReducer.

Record Card := mkCard {
  cd_Channel : string;
  cd_Key : string;
  cd_StateWord : string;
  cd_ContextLine : string;
  cd_SessionLine : string;
  cd_ProjectLine : string;
  cd_DetailLine : string;
  cd_Disposition : string;
  cd_Impact : string;
  cd_ReasonCode : string;
  cd_ObservedAt : Time;
  cd_ValidUntil : Time;
  cd_Scene : Scene;
}.
Definition no_scene : Scene := mkScene [].

(** Assignments to fields of a card. *)
Definition cd_set_words (channel stateWord detail : string) (c : Card) : Card :=
  mkCard channel (cd_Key c) stateWord (cd_ContextLine c) (cd_SessionLine c) (cd_ProjectLine c) detail (cd_Disposition c)
    (cd_Impact c) (cd_ReasonCode c) (cd_ObservedAt c) (cd_ValidUntil c) (cd_Scene c).
Definition cd_set_rank (disposition impact reason : string) (c : Card) : Card :=
  mkCard (cd_Channel c) (cd_Key c) (cd_StateWord c) (cd_ContextLine c) (cd_SessionLine c) (cd_ProjectLine c) (cd_DetailLine c)
    disposition impact reason (cd_ObservedAt c) (cd_ValidUntil c) (cd_Scene c).
Definition cd_set_times (key : string) (observedAt validUntil : Time) (c : Card) : Card :=
  mkCard (cd_Channel c) key (cd_StateWord c) (cd_ContextLine c) (cd_SessionLine c) (cd_ProjectLine c) (cd_DetailLine c)
    (cd_Disposition c) (cd_Impact c) (cd_ReasonCode c) observedAt validUntil (cd_Scene c).
Definition cd_set_lines (context session project : string) (c : Card) : Card :=
  mkCard (cd_Channel c) (cd_Key c) (cd_StateWord c) context session project (cd_DetailLine c)
    (cd_Disposition c) (cd_Impact c) (cd_ReasonCode c) (cd_ObservedAt c) (cd_ValidUntil c) (cd_Scene c).

(** ** Identity of a thread *)

Definition project_of (cwd : string) : string :=
  if negb (safeExactText cwd 4096) || negb (filepath_IsAbs cwd) then "Project"
  else
    let cleaned := Clean cwd in
    if cleaned =s "/" then "Project"
    else
      let value := safeLine (filepath_Base cleaned) in
      if one_of value [EmptyString; "."; "/"]%string then "Project" else value.
Definition threadIdentity (t : option threadState) : string * string :=
  match t with
  | None => ("Codex session"%string, "Project"%string)
  | Some t =>
    let value := safeLine (th_Name t) in
    (if value =s EmptyString then "Codex session"%string else value, project_of (th_CWD t))
  end.
Definition threadContext (t : threadState) : string := (threadIdentity (Some t)).1.
Definition applyThreadIdentity (c : Card) (t : option threadState) : Card :=
  let '(session, project) := threadIdentity t in cd_set_lines session session project c.

Fixpoint summaries_from (pinned : string) (left : nat) (threads : list (string * threadState)) : list ThreadSummary :=
  match left, threads with
  | S left', (id, t) :: threads =>
    if safeThreadID id
    then mkThreadSummary id (threadContext t) (ts_Type (th_Status t)) (id =s pinned) :: summaries_from pinned left' threads
    else summaries_from pinned left threads
  | _, _ => []
  end.

Section Summaries.
(** Keys in ascending order, with their values. *)
Context {A : Type}.
Definition sorted_items (m : gmap string A) : list (string * A) := SortFunc (cmp_key fst) (map_to_list m).
End Summaries.

Definition ThreadSummaries (r : Reducer) : list ThreadSummary := summaries_from (r_pinned r) 128 (sorted_items (r_threads r)).

(** ** Cards without a thread *)

Definition long : Z := 45 * Second.

Definition connectionCard (connected : bool) (now : Time) : Card :=
  let card := mkCard ChannelConnection "provider" "CODEX OFF" "App server" EmptyString EmptyString "Reconnecting"
    DispositionNotable ImpactNotable "codex_disconnected" now (Add now long) no_scene in
  if connected then
    cd_set_rank DispositionSnapshot ImpactLow "codex_connected" (cd_set_words ChannelConnection "CODEX ON" "Connected" card)
  else card.
Definition reconnectingCard (observedAt validUntil : Time) : Card :=
  mkCard ChannelConnection "provider" "CODEX ..." "App server" EmptyString EmptyString "Reconnecting"
    DispositionSnapshot ImpactLow "codex_reconnecting" observedAt validUntil no_scene.

Definition requestCard (request : pendingRequest) (t : option threadState) (now : Time) : Card :=
  let card := applyThreadIdentity
    (mkCard ChannelAttention (pr_Key request) EmptyString "Codex request" EmptyString EmptyString EmptyString
       DispositionActionable ImpactCritical EmptyString (pr_StartedAt request) (Add now long) no_scene) t in
  match pr_Kind request with
  | requestCommand => cd_set_rank DispositionActionable ImpactCritical "codex_wait_command"
                        (cd_set_words ChannelAttention "WAIT CMD" "Command approval" card)
  | requestFile => cd_set_rank DispositionActionable ImpactCritical "codex_wait_file"
                     (cd_set_words ChannelAttention "WAIT FILE" "File approval" card)
  | requestPermission => cd_set_rank DispositionActionable ImpactCritical "codex_wait_permission"
                           (cd_set_words ChannelAttention "WAIT PERM" "Permission approval" card)
  | requestQuestion =>
    if pr_Interactive request then
      cd_set_rank DispositionActionable ImpactCritical "codex_wait_question"
        (cd_set_words ChannelAttention "ASK" "PLAY TO ANSWER" card)
    else
      cd_set_rank DispositionNotable ImpactNotable "codex_wait_question"
        (cd_set_words ChannelGuidance "OPEN CODEX" "Use Codex" card)
  end.

(** ** Cards of a thread *)

Inductive runVisibilityPolicy := backgroundRun | foregroundRun.

Record threadCandidates := mkThreadCandidates {
  tc_outcome : option Card;
  tc_compaction : option Card;
  tc_plan : option Card;
  tc_activity : option Card;
}.

Section Cards.
Context (sha256 : string -> list Z).
Notation observationKey := (observationKey sha256).
Notation runObservationKey := (runObservationKey sha256).

Definition outcomeCard (t : threadState) (now : Time) : option Card :=
  match th_LatestTurn t with
  | None => None
  | Some turn =>
    if negb (terminalTurnStatus (tn_Status turn)) || IsZero (th_OutcomeAt t) then None
    else if (tn_Status turn =s "completed") && (th_CompletedPlanTurnID t =s tn_ID turn) then None
    else
      let expires := Add (th_OutcomeAt t) outcomeVisibilityWindow in
      if negb (After expires now) then None
      else
        let card := applyThreadIdentity
          (mkCard ChannelOutcome (observationKey "outcome" (th_ID t)) EmptyString (threadContext t) EmptyString EmptyString
             EmptyString DispositionNotable ImpactNormal EmptyString (th_OutcomeAt t) expires no_scene) (Some t) in
        Some (if tn_Status turn =s "completed" then
                cd_set_rank DispositionNotable ImpactNormal "codex_turn_completed" (cd_set_words ChannelOutcome "DONE" "Completed" card)
              else if tn_Status turn =s "interrupted" then
                cd_set_rank DispositionNotable ImpactNotable "codex_turn_interrupted" (cd_set_words ChannelOutcome "STOP" "Interrupted" card)
              else
                cd_set_rank DispositionActionable ImpactCritical "codex_turn_failed" (cd_set_words ChannelOutcome "FAIL" "Failed" card))
  end.

Definition compactionOutcomeCard (t : threadState) (now : Time) : option Card :=
  if (th_CompletedCompactionItemID t =s EmptyString) || IsZero (th_CompactionCompletedAt t) then None
  else
    let expires := Add (th_CompactionCompletedAt t) (30 * Second) in
    if negb (After expires now) then None
    else
      Some (applyThreadIdentity
        (mkCard ChannelOutcome (observationKey "compaction" (th_ID t)) "COMPACTED" (threadContext t) EmptyString EmptyString
           "Context compacted" DispositionNotable ImpactNormal "codex_compacted" (th_CompactionCompletedAt t) expires no_scene) (Some t)).

Definition plan_ready (c : Card) : Card :=
  cd_set_rank DispositionNotable ImpactNotable "codex_plan_ready" (cd_set_words ChannelOutcome "PLAN READY" "Ready in Codex" c).
Definition turn_completed (t : threadState) : bool :=
  match th_LatestTurn t with Some turn => tn_Status turn =s "completed" | None => false end.

Definition planCard (t : threadState) (now : Time) : option Card :=
  if (th_CompletedPlanTurnID t =s EmptyString) && (th_PlanTotal t =? 0) then None
  else
    let card := applyThreadIdentity
      (mkCard ChannelProgress (observationKey "plan" (th_ID t))
         ("PLAN " +:+ format_int (th_PlanDone t) +:+ "/" +:+ format_int (th_PlanTotal t)) (threadContext t) EmptyString EmptyString
         "Plan progress" DispositionNotable ImpactNormal "codex_plan_progress" now (Add now long) no_scene) (Some t) in
    if th_CompletedPlanTurnID t =s EmptyString then Some card
    else if turn_completed t && negb (IsZero (th_OutcomeAt t)) then
      let until := Add (th_OutcomeAt t) outcomeVisibilityWindow in
      if negb (After until now) then None
      else Some (plan_ready (cd_set_times (cd_Key card) (th_OutcomeAt t) until card))
    else Some (plan_ready card).

Definition threadCard (t : threadState) (now : Time) (runPolicy : runVisibilityPolicy) (r : Reducer) : option Card :=
  let card := applyThreadIdentity
    (mkCard ChannelActivity (observationKey "thread" (th_ID t)) "RUN" (threadContext t) EmptyString EmptyString "Active"
       DispositionNotable ImpactNormal "codex_running" now (Add now long) no_scene) (Some t) in
  if ts_Type (th_Status t) =s "systemError" then
    Some (cd_set_rank DispositionActionable ImpactCritical "codex_system_error" (cd_set_words ChannelOutcome "FAIL" "System error" card))
  else if negb (hasPendingForThread (th_ID t) r) && one_of "waitingOnApproval" (ts_ActiveFlags (th_Status t)) then
    Some (cd_set_rank DispositionActionable ImpactNotable "codex_waiting_approval"
            (cd_set_words ChannelAttention "WAIT" "Approval required" card))
  else if negb (hasPendingForThread (th_ID t) r) && one_of "waitingOnUserInput" (ts_ActiveFlags (th_Status t)) then
    Some (cd_set_rank DispositionNotable ImpactNotable "codex_waiting_input" (cd_set_words ChannelGuidance "OPEN CODEX" "Use Codex" card))
  else if negb (th_CompactionItemID t =s EmptyString) && negb (IsZero (th_CompactionStartedAt t)) then
    Some (cd_set_times (observationKey "compaction-active" (th_ID t +:+ NUL +:+ th_CompactionItemID t))
            (th_CompactionStartedAt t) (cd_ValidUntil card)
            (cd_set_rank DispositionNotable ImpactNormal "codex_compacting" (cd_set_words ChannelProgress "COMPACT" "Compacting context" card)))
  else if is_active t && (th_ID t =s r_pinned r) then
    Some (cd_set_rank DispositionNotable ImpactNotable "codex_thread_pinned" (cd_set_words ChannelActivity "PIN" "Pinned focus" card))
  else
    match th_LatestTurn t with
    | None => None
    | Some turn =>
      if negb (is_active t) || (tn_ID turn =s EmptyString) || IsZero (th_RunStartedAt t) then None
      else
        let expires := Add (th_RunStartedAt t) runVisibilityWindow in
        match runPolicy with
        | backgroundRun =>
          if negb (After expires now) then None
          else Some (cd_set_times (runObservationKey t) (th_RunStartedAt t) expires card)
        | foregroundRun =>
          let expires := if After expires now then expires else Add now long in
          Some (cd_set_times (runObservationKey t) (th_RunStartedAt t) expires card)
        end
    end.

Definition threadCardCandidates (t : threadState) (now : Time) (runPolicy : runVisibilityPolicy) (r : Reducer) : threadCandidates :=
  mkThreadCandidates (outcomeCard t now) (compactionOutcomeCard t now) (planCard t now) (threadCard t now runPolicy r).

Definition safeDuringReconnect (c : Card) : bool :=
  one_of (cd_Channel c) [ChannelActivity; ChannelProgress; ChannelOverview; ChannelOutcome].

(** The body of the loop over the threads. *)
Definition cards_of_thread (now : Time) (reconnecting : bool) (r : Reducer) (t : threadState) : list Card :=
  let candidates := threadCardCandidates t now backgroundRun r in
  List.filter (fun c => negb reconnecting || safeDuringReconnect c)
    (omap id [tc_outcome candidates; tc_compaction candidates; tc_plan candidates; tc_activity candidates]).

Definition overviewCard (activeCount : Z) (now : Time) : Card :=
  mkCard ChannelOverview "active" (format_int activeCount +:+ " ACT") "Codex threads" EmptyString EmptyString
    (format_int activeCount +:+ " active") DispositionNotable ImpactLow "codex_active_count" now (Add now long) no_scene.

Definition threadCards (now : Time) (reconnecting : bool) (r : Reducer) : list Card :=
  let requests := if reconnecting then []
    else map (fun kp => requestCard kp.2 (r_threads r !! pr_ThreadID kp.2) now) (sorted_items (r_pending r)) in
  let threads := map snd (sorted_items (r_threads r)) in
  let activeCount := Z.of_nat (length (List.filter is_active threads)) in
  requests ++ concat (map (cards_of_thread now reconnecting r) threads)
  ++ (if 1 <? activeCount then [overviewCard activeCount now] else []).

Definition min_time (left right : Time) : Time := if Before left right then left else right.

(** [None] is the panic of [MostConstrained] on a snapshot without windows. *)
Definition pressureCard (quota : Snapshot) (window : Window) (validUntil : Time) (r : Reducer) : Card :=
  let options := r_quotaOptions r in
  let card := mkCard ChannelQuotaPressure "quota" EmptyString EmptyString EmptyString EmptyString EmptyString
    DispositionNotable ImpactLow "codex_quota_low" (sn_UpdatedAt quota) (min_time validUntil (r_quotaPressureUntil r))
    (usage_Scene quota window (qo_Presentation options) (r_quotaSignal r) (qo_AssetPath options)) in
  if bool_decide (r_quotaSignal r = SignalCritical) then cd_set_rank DispositionActionable ImpactCritical "codex_quota_critical" card
  else card.
Definition summaryCard (quota : Snapshot) (validUntil : Time) (r : Reducer) (window : Window) : Card :=
  let options := r_quotaOptions r in
  mkCard ChannelQuotaSummary (SummaryKey (wn_Duration window)) EmptyString EmptyString EmptyString EmptyString EmptyString
    DispositionNotable ImpactNormal "codex_quota_summary" (sn_UpdatedAt quota) validUntil
    (usage_Scene quota window (qo_Presentation options) SignalNone (qo_AssetPath options)).

Definition quotaCards (now : Time) (r : Reducer) : list Card :=
  match r_quota r with
  | None => []
  | Some quota =>
    if negb (qo_Enabled (r_quotaOptions r)) then []
    else
      match MostConstrained quota with
      | None => []
      | Some window =>
        let validUntil := Add (sn_UpdatedAt quota) (6 * Minute) in
        if negb (After validUntil now) then []
        else
          map (summaryCard quota validUntil r) (sn_Windows quota)
          ++ (if bool_decide (r_quotaSignal r = SignalNone) || negb (Before now (r_quotaPressureUntil r)) then []
              else [pressureCard quota window validUntil r])
      end
  end.

Definition Cards (clock : Time) (r : Reducer) : list Card :=
  let now := UTC clock in
  if negb (r_connected r) then
    let deadline := Add (r_disconnectedAt r) reconnectGrace in
    if negb (IsZero (r_disconnectedAt r)) && Before now deadline
    then reconnectingCard (r_disconnectedAt r) deadline :: threadCards now true r
    else [connectionCard false now]
  else
    connectionCard true now :: (if r_awaitingReconcile r then [] else threadCards now false r ++ quotaCards now r).

Definition ReconnectDeadline (clock : Time) (r : Reducer) : option Time :=
  if r_connected r || IsZero (r_disconnectedAt r) then None
  else
    let deadline := Add (r_disconnectedAt r) reconnectGrace in
    if After deadline (UTC clock) then Some deadline else None.

Definition LauncherCard (clock : Time) (r : Reducer) : Card :=
  let now := UTC clock in
  let detail := if r_connected r then format_int (Z.of_nat (size (r_threads r))) +:+ " loaded sessions"
                else "App server disconnected" in
  mkCard ChannelDetail "launcher" "CODEX" "Codex sessions" EmptyString EmptyString detail
    DispositionSnapshot ImpactNormal "codex_launcher" now (Add now (24 * Hour)) no_scene.

Definition latestLiveThread (r : Reducer) : option threadState :=
  fold_left (fun latest kt =>
    match latest with
    | Some l => if th_liveSequence l <? th_liveSequence kt.2 then Some kt.2 else latest
    | None => Some kt.2
    end) (map_to_list (r_threads r)) None.

Definition latest_pending (threadID : string) (r : Reducer) : option pendingRequest :=
  fold_left (fun latest kp =>
    if negb (pr_ThreadID kp.2 =s threadID) then latest
    else
      match latest with
      | Some l =>
        if (pr_ArrivalSequence l <? pr_ArrivalSequence kp.2)
           || ((pr_ArrivalSequence kp.2 =? pr_ArrivalSequence l) && (0 <? cmp_strings kp.1 (RawID_Key (pr_ID l))))
        then Some kp.2 else latest
      | None => Some kp.2
      end) (map_to_list (r_pending r)) None.
Definition latestPendingCard (t : threadState) (now : Time) (r : Reducer) : option Card :=
  request ← latest_pending (th_ID t) r; Some (requestCard request (Some t) now).

(** The first of the candidates that is present. *)
Definition first_present (candidates : list (option Card)) : option Card := head (omap id candidates).

Definition LiveCard (clock clock' : Time) (r : Reducer) : Card :=
  let now := UTC clock in
  if negb (r_connected r) then
    let deadline := Add (r_disconnectedAt r) reconnectGrace in
    if negb (IsZero (r_disconnectedAt r)) && Before now deadline then reconnectingCard (r_disconnectedAt r) deadline
    else connectionCard false now
  else
    match latestLiveThread r with
    | None => LauncherCard clock' r
    | Some latest =>
      match latestPendingCard latest now r with
      | Some pending => pending
      | None =>
        let candidates := threadCardCandidates latest now foregroundRun r in
        let terminal := match th_LatestTurn latest with Some turn => terminalTurnStatus (tn_Status turn) | None => false end in
        default (LauncherCard clock' r)
          (first_present
            ((if terminal then [tc_outcome candidates; tc_plan candidates; tc_compaction candidates] else [])
             ++ (if th_CompactionItemID latest =s EmptyString then [] else [tc_activity candidates])
             ++ (if th_PlanTotal latest =? 0 then [] else [tc_plan candidates])
             ++ [tc_activity candidates; tc_outcome candidates]))
      end
    end.
End Cards.
