(* ===== verification/CodexScenes.v ===== *)
(** * The scenes of the Codex plugin's cards

    Models [src/plugins/codex/view.go]. Texts from the app server pass through [safeLine], so
    the scene of every card is one that the daemon accepts. *)

From Stdlib Require Import ZArith Lia ZifyBool.
From S2P Require Import Prelude GoStrings GoTime GoJson Identifier GoEncoding Protocol JsonText GoText CodexUsage CodexReducer CodexCards.

Definition canvas : string := "#071522FF".
Definition surface : string := "#171A21FF".
Definition textColor : string := "#EAF4F2FF".
Definition secondary : string := "#9AAFB2FF".
Definition signature : string := "#2AC7B5FF".
Definition information : string := "#42D6E5FF".
Definition success : string := "#35D07FFF".
Definition warning : string := "#F2B84BFF".
Definition counterpoint : string := "#F47A3EFF".
Definition danger : string := "#FF786FFF".
Definition cardMarqueeRate : Z := 1000.
Definition cardMarqueeStartDelay : Z := 1000.
Definition cardMarqueeRepeat : Z := 2500.
Definition codexMarkSource : string := "assets/codex-mark.png".

Definition cardRectangle (id display : string) (x y width height : Z) (color : string) : Element :=
  mkElement id display x y None None None (Some (mkRectangleElement width height color)) None.
Definition cardText (id display value font color : string) (x y : Z) (align : string) : Element :=
  mkElement id display x y (Some (mkTextElement value font color align 0 None)) None None None None.
Definition cardMarquee (id display value font color : string) (x y width : Z) : Element :=
  mkElement id display x y
    (Some (mkTextElement value font color EmptyString width
             (Some (mkMarquee cardMarqueeRate cardMarqueeStartDelay cardMarqueeRepeat)))) None None None None.
Definition cardImage (id display assetPath : string) (x y : Z) : Element :=
  mkElement id display x y None (Some (mkImageElement (mkAssetRef assetPath EmptyString))) None None None.

Definition fitDisplayLine (value : string) (limit : nat) : string := cut_runes limit (safeLine value).

Definition RuneCountInString (s : string) : Z := Z.of_nat (length (runes_of s)).
Definition frontStateFont (state : string) : string := if 8 <? RuneCountInString state then "small" else "normal".
Definition backStateFont (state : string) : string := if 10 <? RuneCountInString state then "normal" else "large".

Definition cardAccent (state : string) : string :=
  if (state =s "DONE") || (state =s "COMPACTED") then success
  else if state =s "STOP" then counterpoint
  else if (state =s "FAIL") || (state =s "CODEX OFF") then danger
  else if (state =s "ASK") || HasPrefix state "WAIT" then warning
  else if HasPrefix state "PLAN" || HasPrefix state "COMPACT" then information
  else signature.

Definition typedQuestionScene (questionPosition questionText optionPosition : string) (option : requestOption) : Scene :=
  let questionText := safeLine questionText in
  let description := fitDisplayLine (ro_Description option) 96 in
  mkScene
    [ cardRectangle "front-background" "front" 0 0 72 16 canvas;
      cardImage "front-codex-mark" "front" codexMarkSource 1 1;
      cardMarquee "front-option-label" "front" (ro_Label option) "normal" textColor 18 1 53;
      cardText "front-option-position" "front" optionPosition "tiny" warning 18 10 EmptyString;
      cardRectangle "back-background" "back" 0 0 160 80 canvas;
      cardText "back-question-position" "back" questionPosition "tiny" warning 8 9 EmptyString;
      cardText "back-option-position" "back" optionPosition "tiny" secondary 140 9 "top_right";
      cardMarquee "back-question" "back" questionText "normal" textColor 8 18 132;
      cardMarquee "back-option-label" "back" (ro_Label option) "normal" textColor 8 42 132;
      cardText "back-option-description" "back" description "tiny" secondary 8 61 EmptyString ].

Definition answerReviewScene (reviewPosition questionText answer : string) : Scene :=
  let questionText := safeLine questionText in
  let answer := safeLine answer in
  mkScene
    [ cardRectangle "front-background" "front" 0 0 72 16 canvas;
      cardImage "front-codex-mark" "front" codexMarkSource 1 1;
      cardMarquee "front-review-answer" "front" answer "normal" textColor 18 1 53;
      cardText "front-review-position" "front" reviewPosition "tiny" warning 18 10 EmptyString;
      cardRectangle "back-background" "back" 0 0 160 80 canvas;
      cardText "back-review-position" "back" reviewPosition "tiny" warning 8 9 EmptyString;
      cardMarquee "back-review-question" "back" questionText "normal" textColor 8 20 144;
      cardMarquee "back-review-answer" "back" answer "normal" textColor 8 43 144;
      cardText "back-review-action" "back" "PLAY: SUBMIT / BACK EDIT" "tiny" secondary 8 63 EmptyString ].

Definition or_else (value fallback : string) : string := if value =s EmptyString then fallback else value.

Definition cardScene (card : Card) : Scene :=
  let state := or_else (fitDisplayLine (cd_StateWord card) 16) "CODEX" in
  let contextLine := or_else (fitDisplayLine (cd_ContextLine card) 28) "Codex" in
  let sessionLine := safeLine (cd_SessionLine card) in
  let projectLine := safeLine (cd_ProjectLine card) in
  let '(contextLine, sessionLabel, workdirLabel) :=
    if negb (sessionLine =s EmptyString) || negb (projectLine =s EmptyString)
    then (EmptyString, "SESSION"%string, "WORKDIR"%string)
    else (contextLine, EmptyString, EmptyString) in
  let '(frontFont, frontStateX, frontStateY, frontStateAlign) :=
    if negb (projectLine =s EmptyString) then ("tiny"%string, 18, 10, EmptyString)
    else (frontStateFont state, 44, 8, "center"%string) in
  let detailLine := fitDisplayLine (cd_DetailLine card) 34 in
  let accent := cardAccent state in
  mkScene
    [ cardRectangle "front-background" "front" 0 0 72 16 canvas;
      cardImage "front-codex-mark" "front" codexMarkSource 1 1;
      cardMarquee "front-workdir" "front" projectLine "normal" textColor 18 0 53;
      cardText "front-state" "front" state frontFont accent frontStateX frontStateY frontStateAlign;
      cardRectangle "back-background" "back" 0 0 160 80 canvas;
      cardRectangle "back-surface" "back" 4 13 140 60 surface;
      cardText "back-eyebrow" "back" "CODEX / APP SERVER" "tiny" secondary 8 3 EmptyString;
      cardText "back-state" "back" state (backStateFont state) accent 8 17 EmptyString;
      cardText "back-context" "back" contextLine "normal" textColor 8 37 EmptyString;
      cardText "back-workdir-label" "back" workdirLabel "tiny" secondary 8 34 EmptyString;
      cardMarquee "back-workdir" "back" projectLine "normal" textColor 50 34 90;
      cardText "back-session-label" "back" sessionLabel "tiny" secondary 8 49 EmptyString;
      cardMarquee "back-session" "back" sessionLine "small" textColor 50 49 90;
      cardText "back-detail" "back" detailLine "small" secondary 8 65 EmptyString ].

(** ** Lines *)

(** A text of at most [limit] runes, none of them a control character. *)
Definition line (limit : nat) (s : string) : Prop :=
  exists rs, s = string_of_runes rs /\ forallb scalar rs = true /\ forallb (fun r => negb (is_control r)) rs = true
    /\ (length rs <= limit)%nat.

Lemma forallb_take {A} (f : A -> bool) n l : forallb f l = true -> forallb f (take n l) = true.
Proof. rewrite <- (take_drop n l) at 1. rewrite forallb_app. by intros [? _]%andb_prop. Qed.

Lemma cut_line limit rs : forallb scalar rs = true -> forallb (fun r => negb (is_control r)) rs = true ->
  line limit (cut_runes limit (string_of_runes rs)).
Proof.
  intros Hs Hc. unfold cut_runes. rewrite runes_of_string by done. destruct (Nat.ltb_spec limit (length rs)).
  - exists (take limit rs). split; [done|]. rewrite length_take. split_and!; [..|lia];
      by apply forallb_take.
  - by exists rs.
Qed.

Lemma join_string_of_runes words : Forall (fun w => forallb scalar w = true /\ forallb (fun r => negb (is_control r)) w = true) words ->
  exists rs, join_strings " " (map string_of_runes words) = string_of_runes rs /\ forallb scalar rs = true
    /\ forallb (fun r => negb (is_control r)) rs = true.
Proof.
  induction 1 as [|w words [Hs Hc] _ (rs & Hrs & Hrs1 & Hrs2)]; [by exists []|].
  destruct words as [|w' words]; [by exists w|].
  exists (w ++ 32 :: rs). change (map string_of_runes (w :: w' :: words)) with (string_of_runes w :: map string_of_runes (w' :: words)).
  change (join_strings " " (string_of_runes w :: map string_of_runes (w' :: words)))
    with (string_of_runes w +:+ " " +:+ join_strings " " (map string_of_runes (w' :: words))).
  rewrite Hrs, string_of_runes_app, !forallb_app. split_and!; [done|by rewrite Hs|by rewrite Hc].
Qed.

Lemma safeLine_line value : line 96 (safeLine value).
Proof.
  unfold safeLine, Fields, Map. set (f := fun char => if is_control char then 32 else char).
  set (rs := map f (runes_of (TrimSpace value))).
  assert (Hrs : forallb scalar rs = true /\ forallb (fun r => negb (is_control r)) rs = true).
  { pose proof (runes_of_scalar (TrimSpace value)) as Hs. rewrite forallb_forall in Hs. unfold rs.
    split; apply forallb_forall; intros x (y & <- & Hy)%in_map_iff; unfold f; destruct (is_control y) eqn:Hc; try done; auto.
    by rewrite Hc. }
  rewrite runes_of_string by apply Hrs. pose proof (fields_from_spec [] rs) as Hf.
  rewrite bool_decide_true in Hf by apply Forall_nil_2. destruct Hrs as [Hs Hc]. rewrite forallb_forall in Hs, Hc.
  destruct (join_string_of_runes (fields_from [] rs)) as (out & -> & Ho1 & Ho2); [|by apply cut_line].
  eapply Forall_impl; [exact Hf|]. cbn. intros w [_ Hw]. rewrite Forall_forall in Hw.
  split; apply forallb_forall; intros x Hx; destruct (Hw x) as [Hin%list_elem_of_In _]; try (by apply list_elem_of_In); auto.
Qed.

Lemma line_good limit s : (limit <= 96)%nat -> line limit s -> good_text s.
Proof.
  intros Hl (rs & -> & Hs & _ & Hn). split; [by apply ValidString_runes|]. pose proof (len_string_of_runes rs Hs).
  unfold MaxTextBytes. lia.
Qed.

Lemma safeLine_good value : good_text (safeLine value).
Proof. apply (line_good 96); [lia|apply safeLine_line]. Qed.

Lemma fitDisplayLine_good value limit : (limit <= 96)%nat -> good_text (fitDisplayLine value limit).
Proof.
  intros Hl. destruct (safeLine_line value) as (rs & Hrs & Hs & Hc & _). unfold fitDisplayLine. rewrite Hrs.
  by apply (line_good limit), cut_line.
Qed.

Lemma or_else_good value fallback : good_text value -> good_text fallback -> good_text (or_else value fallback).
Proof. unfold or_else. by destruct (value =s EmptyString). Qed.

(** ** Valid scenes *)

Lemma codexMarkSource_canonical : CanonicalPath codexMarkSource.
Proof. apply ValidatePackagePath_None. by vm_compute. Qed.

Lemma marquee_valid id display value font color x y width :
  ValidIdentifier id -> on_canvas display x y -> good_text value -> validFont font = true -> colorPattern color = true ->
  (0 <=? width) && (width <? 1000) = true -> ValidElement (cardMarquee id display value font color x y width).
Proof.
  intros Hid Hc [Hv Hl] Hf Hcol Hw. split; [done|done|]. eexists. split; [reflexivity|]. unfold ValidPayload. cbn -[u64].
  assert (0 <= width < 1000) as Hb by lia. rewrite u64_small by (unfold two64; lia). unfold MaxUint32.
  split_and!; first [done | by right | by intros marquee [= <-] | lia].
Qed.

Lemma cardAccent_valid state : colorPattern (cardAccent state) = true.
Proof. unfold cardAccent. repeat case_if; done. Qed.

Lemma stateFonts_valid state : validFont (frontStateFont state) = true /\ validFont (backStateFont state) = true.
Proof. unfold frontStateFont, backStateFont. repeat case_if; done. Qed.

(** The elements of a card's scene. *)
Ltac good_line :=
  first [ done | apply safeLine_good | by apply fitDisplayLine_good; lia | by apply printable_good; vm_compute ].
Ltac valid_elements :=
  repeat apply Forall_cons_2; [..|apply Forall_nil_2];
  first [ apply rectangle_valid; literal
        | apply image_valid; [literal|literal|apply codexMarkSource_canonical]
        | apply marquee_valid; first [good_line|literal]
        | apply text_valid; first [good_line|literal] ].

Lemma cardScene_valid_lemma card : ValidScene (cardScene card).
Proof.
  unfold cardScene. set (state := or_else _ "CODEX"). set (contextLine := or_else _ "Codex").
  assert (Hstate : good_text state) by (apply or_else_good; good_line).
  assert (Hcontext : good_text contextLine) by (apply or_else_good; good_line).
  clearbody state contextLine. pose proof (cardAccent_valid state) as Hacc. pose proof (stateFonts_valid state) as [Hff Hbf].
  destruct (negb (safeLine (cd_SessionLine card) =s EmptyString) || negb (safeLine (cd_ProjectLine card) =s EmptyString));
    (destruct (negb (safeLine (cd_ProjectLine card) =s EmptyString));
     (split; [by vm_compute; split|cbn [scene_Elements]; valid_elements|apply (bool_decide_unpack _); vm_compute; exact I])).
Qed.

Lemma typedQuestionScene_valid questionPosition questionText optionPosition option :
  good_text questionPosition -> good_text optionPosition -> good_text (ro_Label option) ->
  ValidScene (typedQuestionScene questionPosition questionText optionPosition option).
Proof.
  intros Hq Ho Hl. split; [by vm_compute; split|cbn [scene_Elements typedQuestionScene]; valid_elements|].
  apply (bool_decide_unpack _). vm_compute. exact I.
Qed.

Lemma answerReviewScene_valid reviewPosition questionText answer :
  good_text reviewPosition -> ValidScene (answerReviewScene reviewPosition questionText answer).
Proof.
  intros Hr. split; [by vm_compute; split|cbn [scene_Elements answerReviewScene]; valid_elements|].
  apply (bool_decide_unpack _). vm_compute. exact I.
Qed.
