(* ===== verification/CodexPublisher.v ===== *)
(** * The Codex plugin's card publisher

    Models [src/plugins/codex/publisher.go]: cards become observations of the daemon, under
    revisions of the publisher's own. Calls to the host may fail; the calls that were made are
    the events. *)

From Stdlib Require Import ZArith Lia ZifyBool.
From S2P Require Import Prelude GoStrings GoTime GoEncoding Protocol CodexUsage CodexReducer CodexCards CodexScenes Actions.

Record publishedCard := mkPublishedCard { pc_card : Card; pc_revision : Z; pc_detail : bool }.

Record cardPublisher := mkCardPublisher {
  cp_host : bool;
  cp_instance : InstanceRef;
  cp_revision : Z;
  cp_active : gmap string publishedCard;
}.
Definition set_revision (revision : Z) (p : cardPublisher) : cardPublisher :=
  mkCardPublisher (cp_host p) (cp_instance p) revision (cp_active p).
Definition set_active (active : gmap string publishedCard) (p : cardPublisher) : cardPublisher :=
  mkCardPublisher (cp_host p) (cp_instance p) (cp_revision p) active.
Definition newCardPublisher (host : bool) (instance : InstanceRef) : cardPublisher := mkCardPublisher host instance 0 ∅.

Definition observationIdentity (channel key : string) : string := channel +:+ NUL +:+ key.
Definition card_identity (card : Card) : string := observationIdentity (cd_Channel card) (cd_Key card).

Definition cardPresentation (card : Card) : Scene :=
  if negb (Z.of_nat (length (scene_Elements (cd_Scene card))) =? 0) then cd_Scene card else cardScene card.

(** The observation of a card. *)
Definition card_observation (instance : InstanceRef) (revision : Z) (now : Time) (card : Card) : Observation :=
  mkObservation instance (cd_Channel card) (cd_Key card) revision (cd_Disposition card) (cd_Impact card) (cd_ReasonCode card)
    (UTC (cd_ObservedAt card)) (UTC now) (UTC (cd_ValidUntil card)) (Some (cardPresentation card)) None None.
Definition resolved_observation (instance : InstanceRef) (revision : Z) (now : Time) (reason channel key : string) : Observation :=
  mkObservation instance channel key revision DispositionResolved ImpactNormal reason (UTC now) (UTC now) zero_time None None None.

(** The map from identities to cards, unless two cards have one identity. *)
Fixpoint index_cards (desired : gmap string Card) (cards : list Card) : option (gmap string Card) :=
  match cards with
  | [] => Some desired
  | card :: cards =>
    match desired !! card_identity card with
    | Some _ => None
    | None => index_cards (<[card_identity card := card]> desired) cards
    end
  end.

(** A call to the host and whether it was accepted. *)
Inductive hostCall := PublishedObservation (observation : Observation) (accepted : bool).

Section Publisher.
Context {W : Type} (publishObservation : Observation -> W -> option error * W) (now : W -> Time * W).
Notation act := (act cardPublisher hostCall W).

Definition PublishObservation (observation : Observation) : act (option error) :=
  err ← query (publishObservation observation);
  _ ← log (PublishedObservation observation (negb (is_some err)));
  mret err.
Definition next_revision : act Z :=
  _ ← modify (fun p => set_revision (u64_succ (cp_revision p)) p);
  p ← read;
  mret (cp_revision p).
Definition put_active (identity : string) (published : publishedCard) : act unit :=
  modify (fun p => set_active (<[identity := published]> (cp_active p)) p).
Definition drop_active (identity : string) : act unit :=
  modify (fun p => set_active (delete identity (cp_active p)) p).

Definition publish_card (detail : bool) (identity : string) (card : Card) : act (option error) :=
  revision ← next_revision;
  p ← read;
  updated ← query now;
  err ← PublishObservation (card_observation (cp_instance p) revision updated card);
  match err with
  | Some _ => mret err
  | None => _ ← put_active identity (mkPublishedCard card revision detail); mret None
  end.

Definition resolve_card (identity reason channel key : string) : act (option error) :=
  now ← query now;
  revision ← next_revision;
  p ← read;
  err ← PublishObservation (resolved_observation (cp_instance p) revision now reason channel key);
  match err with
  | Some _ => mret err
  | None => _ ← drop_active identity; mret None
  end.

(** A loop that stops at the first error. *)
Fixpoint first_failure {A} (f : A -> act (option error)) (l : list A) : act (option error) :=
  match l with
  | [] => mret None
  | x :: l => err ← f x; match err with Some _ => mret err | None => first_failure f l end
  end.

Definition withdraw_card (desired : gmap string Card) (entry : string * publishedCard) : act (option error) :=
  let '(identity, published) := entry in
  if pc_detail published then mret None
  else
    match desired !! identity with
    | Some _ => mret None
    | None =>
      resolve_card identity "codex_state_cleared" (cd_Channel (pc_card published)) (cd_Key (pc_card published))
    end.

Definition configured (p : cardPublisher) : bool := cp_host p && negb (is_some (InstanceRef_Validate (cp_instance p))).

Definition Publish (cards : list Card) : act (option error) :=
  p ← read;
  if negb (configured p) then mret (errors_New "Codex observation publisher is not configured")
  else
    match index_cards ∅ cards with
    | None => mret (errors_New "Codex cards contain a duplicate identity")
    | Some desired =>
      err ← first_failure (fun entry => publish_card false entry.1 entry.2) (sorted_items desired);
      match err with
      | Some _ => mret err
      | None => p ← read; first_failure (withdraw_card desired) (sorted_items (cp_active p))
      end
    end.

Definition PublishDetail (card : Card) : act (option error) :=
  p ← read;
  if negb (configured p) || negb (cd_Channel card =s ChannelDetail) || (cd_Key card =s EmptyString)
  then mret (errors_New "Codex detail observation publisher is not configured")
  else publish_card true (card_identity card) card.

Definition ResolveDetail (key : string) : act (option error) :=
  p ← read;
  let identity := observationIdentity ChannelDetail key in
  match cp_active p !! identity with
  | Some published =>
    if negb (pc_detail published) then mret None else resolve_card identity "codex_detail_closed" ChannelDetail key
  | None => mret None
  end.
End Publisher.

Definition Lookup (channel key : string) (revision : Z) (p : cardPublisher) : option Card :=
  match cp_active p !! observationIdentity channel key with
  | Some published => if negb (pc_revision published =? revision) then None else Some (pc_card published)
  | None => None
  end.

(** ** What the host shows *)

Notation slot := (string * string)%type.

(** The unresolved observations among those that were accepted. *)
Definition receive (shown : gmap slot Observation) (call : hostCall) : gmap slot Observation :=
  let '(PublishedObservation observation accepted) := call in
  if negb accepted then shown
  else
    let at_ := (obs_Channel observation, obs_Key observation) in
    if obs_Disposition observation =s DispositionResolved then delete at_ shown else <[at_ := observation]> shown.
Definition shown (calls : list hostCall) : gmap slot Observation := fold_left receive calls ∅.

Definition call_revision (call : hostCall) : Z := let '(PublishedObservation observation _) := call in obs_Revision observation.

Definition no_nul (s : string) : Prop := contains_byte (ascii_of_byte 0) s = false.

(** A card that a publisher may be given. *)
Record publishable_card (card : Card) : Prop := {
  pb_channel : no_nul (cd_Channel card);
  pb_live : cd_Disposition card <> DispositionResolved;
}.

(** The publisher knows what the host shows. *)
Record mirrors (p : cardPublisher) (calls : list hostCall) : Prop := {
  mi_active : forall identity published, cp_active p !! identity = Some published ->
    identity = card_identity (pc_card published) /\ no_nul (cd_Channel (pc_card published))
    /\ exists updated, shown calls !! (cd_Channel (pc_card published), cd_Key (pc_card published))
         = Some (card_observation (cp_instance p) (pc_revision published) updated (pc_card published));
  mi_shown : forall channel key observation, shown calls !! (channel, key) = Some observation ->
    no_nul channel /\ is_Some (cp_active p !! observationIdentity channel key);
  mi_revision : cp_revision p = u64 (Z.of_nat (length calls));
  mi_revisions : map call_revision calls = map (fun n => u64 (Z.of_nat n)) (seq 1 (length calls));
}.

(** The publisher's operations, in any order. *)
Inductive publisherOp :=
  | OpPublish (cards : list Card)
  | OpPublishDetail (card : Card)
  | OpResolveDetail (key : string).
Definition op_publishable (op : publisherOp) : Prop :=
  match op with
  | OpPublish cards => Forall publishable_card cards
  | OpPublishDetail card => publishable_card card
  | OpResolveDetail _ => True
  end.
Definition publisher_op {W} publishObservation now (op : publisherOp) : act cardPublisher hostCall W (option error) :=
  match op with
  | OpPublish cards => Publish publishObservation now cards
  | OpPublishDetail card => PublishDetail publishObservation now card
  | OpResolveDetail key => ResolveDetail publishObservation now key
  end.
Fixpoint publisher_ops {W} publishObservation now (ops : list publisherOp) : act cardPublisher hostCall W unit :=
  match ops with
  | [] => mret tt
  | op :: ops => _ ← publisher_op publishObservation now op; publisher_ops publishObservation now ops
  end.

(** ** Lemmas *)

(** Texts before a separator that they do not contain. *)
Lemma separator_inj c a b a' b' : contains_byte c a = false -> contains_byte c a' = false ->
  a +:+ String c b = a' +:+ String c b' -> a = a' /\ b = b'.
Proof.
  assert (Hcons : forall x s, contains_byte c (String x s) = false -> byte x <> byte c /\ contains_byte c s = false).
  { intros x s. unfold contains_byte. rewrite !negb_false_iff. cbn. intros [Hx Hs]%andb_prop. by apply negb_true_iff, Z.eqb_neq in Hx. }
  revert a'. induction a as [|x a IH]; intros [|x' a'] Ha Ha' He.
  - by injection He.
  - exfalso. injection He as <- _. by apply Hcons in Ha' as [? _].
  - exfalso. injection He as -> _. by apply Hcons in Ha as [? _].
  - injection He as <- He. apply Hcons in Ha as [_ Ha], Ha' as [_ Ha']. by destruct (IH a' Ha Ha' He) as [-> ->].
Qed.

Lemma identity_inj c k c' k' : no_nul c -> no_nul c' -> observationIdentity c k = observationIdentity c' k' -> c = c' /\ k = k'.
Proof. apply separator_inj. Qed.

Lemma shown_snoc calls call : shown (calls ++ [call]) = receive (shown calls) call.
Proof. unfold shown. by rewrite fold_left_app. Qed.

Definition same_publisher (p p' : cardPublisher) : Prop := cp_host p' = cp_host p /\ cp_instance p' = cp_instance p.

Lemma mirrors_new host instance : mirrors (newCardPublisher host instance) [].
Proof. by split. Qed.

(** A call under the next revision. *)
Lemma mirrors_call p calls call active : mirrors p calls -> call_revision call = u64_succ (cp_revision p) ->
  let p' := set_active active (set_revision (u64_succ (cp_revision p)) p) in
  cp_revision p' = u64 (Z.of_nat (length (calls ++ [call])))
  /\ map call_revision (calls ++ [call]) = map (fun n => u64 (Z.of_nat n)) (seq 1 (length (calls ++ [call]))).
Proof.
  intros [_ _ Hr Hs] Hc. cbn. assert (Hn : u64_succ (cp_revision p) = u64 (Z.of_nat (S (length calls)))).
  { rewrite Hr. unfold u64_succ, u64. rewrite Nat2Z.inj_succ, <- Z.add_1_r. by rewrite Zplus_mod_idemp_l. }
  rewrite length_app, Nat.add_1_r. split; [done|]. rewrite seq_S, !map_app, Hs. cbn. by rewrite Hc, Hn.
Qed.

Lemma mirrors_refused p calls call : mirrors p calls -> call_revision call = u64_succ (cp_revision p) ->
  shown (calls ++ [call]) = shown calls ->
  mirrors (set_revision (u64_succ (cp_revision p)) p) (calls ++ [call]).
Proof.
  intros Hm Hc Hs. pose proof (mirrors_call p calls call (cp_active p) Hm Hc) as [H1 H2].
  split; [..|done|done]; rewrite Hs; apply Hm.
Qed.

Lemma mirrors_published p calls card detail updated : mirrors p calls -> publishable_card card ->
  let revision := u64_succ (cp_revision p) in
  mirrors (set_active (<[card_identity card := mkPublishedCard card revision detail]> (cp_active p)) (set_revision revision p))
    (calls ++ [PublishedObservation (card_observation (cp_instance p) revision updated card) true]).
Proof.
  intros Hm [Hn Hl] revision. set (call := PublishedObservation _ _).
  pose proof (mirrors_call p calls call (<[card_identity card := mkPublishedCard card revision detail]> (cp_active p)) Hm eq_refl) as [H1 H2].
  assert (Hs : shown (calls ++ [call])
    = <[(cd_Channel card, cd_Key card) := card_observation (cp_instance p) revision updated card]> (shown calls)).
  { rewrite shown_snoc. cbn. rewrite (proj2 (String.eqb_neq _ _)) by done. done. }
  destruct Hm as [Ha Hsh _ _]. split; [| |done|done]; rewrite Hs; cbn [cp_active set_active].
  - intros identity published [[<- <-] | [Hne Hp]]%lookup_insert_Some.
    + split_and!; [done|done|]. exists updated. by rewrite lookup_insert_eq.
    + destruct (Ha identity published Hp) as (Hid & Hnp & up & Hsp). split_and!; [done|done|]. exists up.
      rewrite lookup_insert_ne; [done|]. intros [= Hc Hk]. apply Hne. rewrite Hid. unfold card_identity. by rewrite Hc, Hk.
  - intros channel key observation [[[= <- <-] _] | [Hne Hp]]%lookup_insert_Some.
    + split; [done|]. exists (mkPublishedCard card revision detail). apply lookup_insert_eq.
    + destruct (Hsh channel key observation Hp) as [Hnc Hact]. split; [done|].
      destruct (decide (card_identity card = observationIdentity channel key)) as [He|He].
      * rewrite He, lookup_insert_eq. eauto.
      * by rewrite lookup_insert_ne.
Qed.

Lemma mirrors_resolved p calls reason updated channel key : mirrors p calls -> no_nul channel ->
  let revision := u64_succ (cp_revision p) in
  mirrors (set_active (delete (observationIdentity channel key) (cp_active p)) (set_revision revision p))
    (calls ++ [PublishedObservation (resolved_observation (cp_instance p) revision updated reason channel key) true]).
Proof.
  intros Hm Hn revision. set (call := PublishedObservation _ _).
  pose proof (mirrors_call p calls call (delete (observationIdentity channel key) (cp_active p)) Hm eq_refl) as [H1 H2].
  assert (Hs : shown (calls ++ [call]) = delete (channel, key) (shown calls)) by (rewrite shown_snoc; done).
  destruct Hm as [Ha Hsh _ _]. split; [| |done|done]; rewrite Hs; cbn [cp_active set_active].
  - intros identity published [Hne Hp]%lookup_delete_Some.
    destruct (Ha identity published Hp) as (Hid & Hnp & up & Hsp). split_and!; [done|done|]. exists up.
    rewrite lookup_delete_ne; [done|]. intros [= Hc Hk]. apply Hne. rewrite Hid. unfold card_identity. by rewrite <- Hc, <- Hk.
  - intros channel' key' observation [Hne Hp]%lookup_delete_Some.
    destruct (Hsh channel' key' observation Hp) as [Hnc Hact]. split; [done|].
    rewrite lookup_delete_ne; [done|]. intros He. apply identity_inj in He as [-> ->]; done.
Qed.

Section Proofs.
Context {W : Type} (publishObservation : Observation -> W -> option error * W) (now : W -> Time * W).
Notation Run := (Run cardPublisher hostCall W).
(** The last call was refused, and it was one of [what]. *)
Definition call_refused (what : Observation -> Prop) (r : Run) : Prop :=
  exists observation w, last (rn_events r) = Some (PublishedObservation observation false)
    /\ (publishObservation observation w).1 <> None /\ what observation.
Definition shows (instance : InstanceRef) (card : Card) (observation : Observation) : Prop :=
  exists revision w, observation = card_observation instance revision (now w).1 card.
Definition resolves (instance : InstanceRef) (reason channel key : string) (observation : Observation) : Prop :=
  exists revision w, observation = resolved_observation instance revision (now w).1 reason channel key.
(** What a publication of cards may send. *)
Definition sends (p : cardPublisher) (cards : list Card) (observation : Observation) : Prop :=
  (exists card, card ∈ cards /\ shows (cp_instance p) card observation)
  \/ (exists identity published, cp_active p !! identity = Some published
      /\ resolves (cp_instance p) "codex_state_cleared" (cd_Channel (pc_card published)) (cd_Key (pc_card published)) observation).

Definition truthful (r : Run) : Prop := mirrors (rn_state r) (rn_events r).

(** What publishing a card does: it is active under a new revision, or nothing changed. *)
Lemma wp_publish_card detail card r : truthful r -> publishable_card card ->
  wp (publish_card publishObservation now detail (card_identity card) card)
    (fun err r' => truthful r' /\ same_publisher (rn_state r) (rn_state r')
       /\ match err with
          | None => exists revision, cp_active (rn_state r')
                    = <[card_identity card := mkPublishedCard card revision detail]> (cp_active (rn_state r))
          | Some _ => cp_active (rn_state r') = cp_active (rn_state r) /\ call_refused (shows (cp_instance (rn_state r)) card) r'
          end) r.
Proof.
  intros Hm Hc. unfold publish_card, next_revision, PublishObservation, put_active. wp_run.
  destruct (publishObservation _ _) as [[e|] w] eqn:Hcall; wp_run; (split; [|split; [done|]]).
  - apply mirrors_refused; [done|done|]. by rewrite shown_snoc.
  - split; [done|]. eexists _, _. cbn [rn_events]. rewrite last_snoc. split; [reflexivity|]. split; [by rewrite Hcall|by eexists _, _].
  - exact (mirrors_published _ _ card detail _ Hm Hc).
  - eexists. reflexivity.
Qed.

Lemma wp_resolve_card reason channel key r : truthful r -> no_nul channel ->
  wp (resolve_card publishObservation now (observationIdentity channel key) reason channel key)
    (fun err r' => truthful r' /\ same_publisher (rn_state r) (rn_state r')
       /\ match err with
          | None => cp_active (rn_state r') = delete (observationIdentity channel key) (cp_active (rn_state r))
          | Some _ => cp_active (rn_state r') = cp_active (rn_state r) /\ call_refused (resolves (cp_instance (rn_state r)) reason channel key) r'
          end) r.
Proof.
  intros Hm Hn. unfold resolve_card, next_revision, PublishObservation, drop_active. wp_run.
  destruct (publishObservation _ _) as [[e|] w] eqn:Hcall; wp_run; (split; [|split; [done|]]).
  - apply mirrors_refused; [done|done|]. by rewrite shown_snoc.
  - split; [done|]. eexists _, _. cbn [rn_events]. rewrite last_snoc. split; [reflexivity|]. split; [by rewrite Hcall|by eexists _, _].
  - exact (mirrors_resolved _ _ reason _ channel key Hm Hn).
  - done.
Qed.

Lemma call_refused_mono (P Q : Observation -> Prop) r : call_refused P r -> (forall o, P o -> Q o) -> call_refused Q r.
Proof. intros (o & w & H1 & H2 & H3) H. exists o, w. auto. Qed.

Lemma wp_first_failure {A} (I : list A -> Run -> Prop) (Q : option error -> Run -> Prop) (f : A -> act cardPublisher hostCall W (option error)) l :
  (forall x l' r, I (x :: l') r -> wp (f x) (fun err r' => match err with None => I l' r' | Some _ => Q err r' end) r) ->
  (forall r, I [] r -> Q None r) ->
  forall r, I l r -> wp (first_failure f l) Q r.
Proof.
  intros Hf Hnil. induction l as [|x l IH]; intros r Hr; [by apply Hnil|]. cbn [first_failure].
  eapply wp_step; [by apply Hf|]. intros [e|] r' Hr'; [done|by apply IH].
Qed.

Lemma index_cards_spec cards : forall desired,
  match index_cards desired cards with
  | Some m => forall identity card, m !! identity = Some card <->
      desired !! identity = Some card \/ (card ∈ cards /\ identity = card_identity card)
  | None => ~ (NoDup (map card_identity cards) /\ forall card, card ∈ cards -> desired !! card_identity card = None)
  end.
Proof.
  induction cards as [|c cards IH]; intros desired; cbn [index_cards].
  { intros identity card. split; [by left|]. by intros [?|[?%elem_of_nil ?]]. }
  destruct (desired !! card_identity c) as [c'|] eqn:Hc.
  { intros [_ H]. specialize (H c ltac:(apply list_elem_of_here)). congruence. }
  specialize (IH (<[card_identity c := c]> desired)). destruct (index_cards _ cards) as [m|].
  - intros identity card. rewrite IH, lookup_insert_Some, elem_of_cons. split.
    + intros [[[<- <-] | [Hne H]] | [H ->]]; auto.
    + intros [H | [[-> | H] ->]]; [|by left; left|by right]. left. right. split; [congruence|done].
  - cbn [map]. intros [Hnd Hall]. apply NoDup_cons in Hnd as [Hnin Hnd]. apply IH. split; [done|]. intros card Hin.
    rewrite lookup_insert_ne; [apply Hall; by right|]. intros He. apply Hnin. rewrite He. by apply list_elem_of_fmap_2.
Qed.

Definition put_once (cards : list Card) (p : cardPublisher) : Prop :=
  forall card, card ∈ cards -> exists revision, cp_active p !! card_identity card = Some (mkPublishedCard card revision false).

Lemma elem_of_sorted_items {A} (m : gmap string A) key x : (key, x) ∈ sorted_items m <-> m !! key = Some x.
Proof. unfold sorted_items. rewrite elem_of_SortFunc. apply elem_of_map_to_list. Qed.

Lemma wp_put_cards cards desired r : truthful r -> Forall publishable_card cards ->
  (forall identity card, desired !! identity = Some card <-> card ∈ cards /\ identity = card_identity card) ->
  wp (first_failure (fun entry => publish_card publishObservation now false entry.1 entry.2) (sorted_items desired))
    (fun err r' => truthful r' /\ same_publisher (rn_state r) (rn_state r')
       /\ match err with
          | None => put_once cards (rn_state r')
              /\ forall identity, desired !! identity = None -> cp_active (rn_state r') !! identity = cp_active (rn_state r) !! identity
          | Some _ => call_refused (fun observation => exists card, card ∈ cards /\ shows (cp_instance (rn_state r)) card observation) r'
          end) r.
Proof.
  intros Hm Hc Hd. apply wp_first_failure with (I := fun l r' => truthful r' /\ same_publisher (rn_state r) (rn_state r')
      /\ (forall identity card, (identity, card) ∈ l -> desired !! identity = Some card)
      /\ (forall identity card, desired !! identity = Some card -> (identity, card) ∈ l
           \/ exists revision, cp_active (rn_state r') !! identity = Some (mkPublishedCard card revision false))
      /\ (forall identity, desired !! identity = None -> cp_active (rn_state r') !! identity = cp_active (rn_state r) !! identity)).
  - intros [identity card] l r' (Hm' & [Hh Hi] & Hin & Hdone & Hrest). cbn [fst snd].
    pose proof (Hin identity card ltac:(apply list_elem_of_here)) as Hdes. apply Hd in Hdes as Hcard. destruct Hcard as [Hcard ->].
    rewrite Forall_forall in Hc. wp_call (wp_publish_card false card); [by apply Hc|].
    intros [e|] r'' (Hm'' & [Hh' Hi'] & Hact).
    { split; [done|split; [split; congruence|]]. eapply call_refused_mono; [apply Hact|]. intros o Ho. exists card. by rewrite <- Hi. }
    destruct Hact as [revision Hact]. split_and!; [done|split; congruence| | |].
    + intros. apply Hin. by right.
    + intros id' card' Hd'. rewrite Hact. destruct (decide (id' = card_identity card)) as [->|Hne].
      * right. rewrite lookup_insert_eq. assert (card' = card) as -> by congruence. eauto.
      * rewrite lookup_insert_ne by congruence. destruct (Hdone id' card' Hd') as [[[= -> ->]|Hl]%elem_of_cons|Hr]; auto; done.
    + intros id' Hd'. rewrite Hact, lookup_insert_ne by congruence. by apply Hrest.
  - intros r' (Hm' & Hs & _ & Hdone & Hrest). split; [done|]. split; [done|]. split; [|done].
    intros card Hin. destruct (Hdone (card_identity card) card) as [Hn%elem_of_nil|?]; [by apply Hd|done|done].
  - split_and!; try done; intros identity card; rewrite elem_of_sorted_items; auto.
Qed.

(** While the cards that are gone are withdrawn; [l] is what is left to look at. *)
Definition withdrawing (cards : list Card) (desired : gmap string Card) (r : Run) (l : list (string * publishedCard)) (r' : Run) : Prop :=
  truthful r' /\ same_publisher (rn_state r) (rn_state r')
  /\ (forall identity published, (identity, published) ∈ l -> cp_active (rn_state r) !! identity = Some published)
  /\ put_once cards (rn_state r')
  /\ (forall identity published, desired !! identity = None -> cp_active (rn_state r') !! identity = Some published ->
    cp_active (rn_state r) !! identity = Some published /\ (pc_detail published = true \/ (identity, published) ∈ l))
  /\ (forall identity published, desired !! identity = None -> cp_active (rn_state r) !! identity = Some published ->
    pc_detail published = true -> cp_active (rn_state r') !! identity = Some published).

Lemma wp_withdraw_cards cards desired r : truthful r -> put_once cards (rn_state r) ->
  (forall identity card, desired !! identity = Some card <-> card ∈ cards /\ identity = card_identity card) ->
  wp (first_failure (withdraw_card publishObservation now desired) (sorted_items (cp_active (rn_state r))))
    (fun err r' => truthful r' /\ same_publisher (rn_state r) (rn_state r')
       /\ match err with
          | None => put_once cards (rn_state r')
              /\ forall identity published, desired !! identity = None ->
                   (cp_active (rn_state r') !! identity = Some published
                    <-> pc_detail published = true /\ cp_active (rn_state r) !! identity = Some published)
          | Some _ => call_refused (fun observation => exists identity published, desired !! identity = None
              /\ cp_active (rn_state r) !! identity = Some published
              /\ resolves (cp_instance (rn_state r)) "codex_state_cleared" (cd_Channel (pc_card published)) (cd_Key (pc_card published))
                   observation) r'
          end) r.
Proof.
  intros Hm Hput Hd. apply wp_first_failure with (I := withdrawing cards desired r).
  - intros [identity published] l r' (Hm' & [Hh Hi] & Hin & Hput' & Hleft & Hkept).
    pose proof (Hin identity published ltac:(apply list_elem_of_here)) as Hold.
    destruct (mi_active _ _ Hm _ _ Hold) as (Hid & Hnul & _). unfold withdraw_card.
    assert (Hskip : pc_detail published = true \/ is_Some (desired !! identity) ->
      withdrawing cards desired r l r').
    { intros Hs. split_and!; try done. { intros. apply Hin. by right. }
      intros id' pub' Hn' Ha'. destruct (Hleft id' pub' Hn' Ha') as [Ho [Hdet|[[= -> ->]|Hl]%elem_of_cons]]; auto.
      destruct Hs as [Hs|[c Hs]]; [auto|congruence]. }
    destruct (pc_detail published) eqn:Hdet; [apply wp_ret; auto|]. destruct (desired !! identity) as [c|] eqn:Hdes; [apply wp_ret; eauto|].
    rewrite Hid. change (card_identity (pc_card published)) with (observationIdentity (cd_Channel (pc_card published)) (cd_Key (pc_card published))).
    wp_call wp_resolve_card. intros [e|] r'' (Hm'' & [Hh' Hi'] & Hact).
    { split; [done|split; [split; congruence|]]. eapply call_refused_mono; [apply Hact|]. intros o Ho. exists identity, published. by rewrite <- Hi. }
    change (observationIdentity _ _) with (card_identity (pc_card published)) in Hact. rewrite <- Hid in Hact.
    split_and!; [done|split; congruence|intros; apply Hin; by right| | |].
    + intros card Hcard. destruct (Hput' card Hcard) as [revision Hr]. exists revision. rewrite Hact, lookup_delete_ne; [done|].
      intros He. rewrite (proj2 (Hd identity card)) in Hdes; done.
    + intros id' pub' Hn'. rewrite Hact. intros [Hne Ha']%lookup_delete_Some.
      destruct (Hleft id' pub' Hn' Ha') as [Ho [?|[[= -> ->]|Hl]%elem_of_cons]]; auto; done.
    + intros id' pub' Hn' Ho Hdet'. rewrite Hact, lookup_delete_ne; [by apply Hkept|]. congruence.
  - intros r' (Hm' & Hs & _ & Hput' & Hleft & Hkept). split; [done|]. split; [done|]. split; [done|].
    intros identity published Hn. split; [|intros []; auto].
    intros Ha. by destruct (Hleft identity published Hn Ha) as [Ho [?|?%elem_of_nil]].
  - split_and!; try done. { by intros ? ? ?%elem_of_sorted_items. }
    intros identity published _ Ha. split; [done|]. right. by apply elem_of_sorted_items.
Qed.

Lemma wp_Publish cards r : truthful r -> Forall publishable_card cards ->
  wp (Publish publishObservation now cards)
    (fun err r' => truthful r' /\ same_publisher (rn_state r) (rn_state r')
       /\ match err with
          | None => put_once cards (rn_state r')
              /\ forall identity published, identity ∉ map card_identity cards ->
                   (cp_active (rn_state r') !! identity = Some published
                    <-> pc_detail published = true /\ cp_active (rn_state r) !! identity = Some published)
          | Some _ => configured (rn_state r) = false \/ ~ NoDup (map card_identity cards) \/ call_refused (sends (rn_state r) cards) r'
          end) r.
Proof.
  intros Hm Hc. unfold Publish. wp_run. destruct (configured (rn_state r)) eqn:Hconf; cbn [negb]; [|by split; [done|split; [done|left]]].
  pose proof (index_cards_spec cards ∅) as Hd. destruct (index_cards ∅ cards) as [desired|].
  2:{ wp_run. split; [done|split; [done|]]. right. left. intros Hnd. apply Hd. split; [done|]. intros. apply lookup_empty. }
  assert (Hd' : forall identity card, desired !! identity = Some card <-> card ∈ cards /\ identity = card_identity card).
  { intros identity card. rewrite Hd, lookup_empty. split; [intros [?|?]|]; auto. done. }
  wp_call (wp_put_cards cards desired). intros [e|] r' (Hm' & [Hh Hi] & Hpost); [apply wp_ret; split; [done|split; [done|]]; right; right; eapply call_refused_mono; [apply Hpost|]; intros o Ho; by left|]. destruct Hpost as [Hput Hrest].
  wp_run. wp_call (wp_withdraw_cards cards desired). intros [e|] r'' (Hm'' & [Hh' Hi'] & Hpost).
  { split; [done|split; [split; congruence|]]. right. right. eapply call_refused_mono; [apply Hpost|].
    intros o (identity & published & Hn & Ha & Ho). right. exists identity, published. by rewrite <- (Hrest _ Hn), <- Hi. }
  destruct Hpost as [Hput' Hkept]. split; [done|split; [split; congruence|]]. split; [done|].
  intros identity published Hn. assert (Hnone : desired !! identity = None).
  { apply eq_None_not_Some. intros [card [Hin ->]%Hd']. apply Hn. by apply list_elem_of_fmap_2. }
  by rewrite Hkept, Hrest.
Qed.

Lemma wp_PublishDetail card r : truthful r -> publishable_card card ->
  wp (PublishDetail publishObservation now card)
    (fun _ r' => truthful r' /\ same_publisher (rn_state r) (rn_state r')) r.
Proof.
  intros Hm Hc. unfold PublishDetail. wp_run. destruct (negb _ || _ || _); [wp_run; done|].
  wp_call wp_publish_card. by intros err r' (? & ? & _).
Qed.

Lemma wp_ResolveDetail key r : truthful r ->
  wp (ResolveDetail publishObservation now key)
    (fun err r' => truthful r' /\ same_publisher (rn_state r) (rn_state r')
       /\ match err with
          | None => forall published, cp_active (rn_state r') !! observationIdentity ChannelDetail key = Some published ->
                      pc_detail published = false
          | Some _ => call_refused (resolves (cp_instance (rn_state r)) "codex_detail_closed" ChannelDetail key) r'
          end) r.
Proof.
  intros Hm. unfold ResolveDetail. wp_run.
  destruct (cp_active (rn_state r) !! observationIdentity ChannelDetail key) as [published|] eqn:Ha; [|wp_run; split_and!; try done; congruence].
  destruct (pc_detail published) eqn:Hd; cbn [negb]; [|wp_run; split_and!; try done; congruence].
  wp_call wp_resolve_card. intros [e|] r' (? & ? & Hact); split_and!; try done; [by apply Hact|].
  intros published'. by rewrite Hact, lookup_delete_eq.
Qed.

Lemma wp_publisher_op op r : truthful r -> op_publishable op ->
  wp (publisher_op publishObservation now op) (fun _ r' => truthful r' /\ same_publisher (rn_state r) (rn_state r')) r.
Proof.
  intros Hm Hop. destruct op as [cards|card|key]; cbn [publisher_op].
  - wp_call wp_Publish. by intros err r' (? & ? & _).
  - by apply wp_PublishDetail.
  - wp_call wp_ResolveDetail. by intros err r' (? & ? & _).
Qed.

Lemma wp_publisher_ops ops : forall r, truthful r -> Forall op_publishable ops ->
  wp (publisher_ops publishObservation now ops) (fun _ r' => truthful r' /\ same_publisher (rn_state r) (rn_state r')) r.
Proof.
  induction ops as [|op ops IH]; intros r Hm Hops; [done|]. apply Forall_cons in Hops as [Hop Hops]. cbn [publisher_ops].
  wp_call wp_publisher_op. intros err r' [Hm' [Hh Hi]]. wp_call IH. intros _ r'' [Hm'' [Hh' Hi']]. split; [done|]. split; congruence.
Qed.
End Proofs.

(** What [Lookup] answers, against what the host shows. *)
Definition lookup_truthful (p : cardPublisher) (calls : list hostCall) : Prop :=
  (forall channel key revision card, no_nul channel -> Lookup channel key revision p = Some card ->
     exists updated, shown calls !! (channel, key) = Some (card_observation (cp_instance p) revision updated card))
  /\ (forall channel key observation, shown calls !! (channel, key) = Some observation ->
     exists updated card, observation = card_observation (cp_instance p) (obs_Revision observation) updated card
       /\ Lookup channel key (obs_Revision observation) p = Some card).

Lemma mirrors_lookup p calls : mirrors p calls -> lookup_truthful p calls.
Proof.
  intros [Ha Hs _ _]. unfold lookup_truthful, Lookup. split.
  - intros channel key revision card Hn. destruct (cp_active p !! _) as [published|] eqn:Hp; [|done].
    destruct (Z.eqb_spec (pc_revision published) revision) as [<-|]; [|done]. cbn. intros [= <-].
    destruct (Ha _ _ Hp) as (Hid & Hn' & updated & Hsh). apply identity_inj in Hid as [-> ->]; [eauto|done|done].
  - intros channel key observation Hobs. destruct (Hs channel key observation Hobs) as [Hn [published Hp]].
    destruct (Ha _ _ Hp) as (Hid & Hn' & updated & Hsh). apply identity_inj in Hid as [Hc Hk]; [|done|done]. subst channel key.
    rewrite Hobs in Hsh. injection Hsh as ->. exists updated, (pc_card published). split; [done|]. cbn [obs_Revision card_observation].
    by rewrite Hp, Z.eqb_refl.
Qed.

(** C16: Whatever the host answers and in whatever order cards are published, detail cards
    opened and closed: [Lookup] finds a card under a revision exactly if the host shows that
    card under that revision, and the n-th call carries revision n, so that the host never
    sees a revision again. *)
Theorem publisher_truthful {W} (publishObservation : Observation -> W -> option error * W) (now : W -> Time * W)
    (host : bool) (instance : InstanceRef) (ops : list publisherOp) (w : W) :
  Forall op_publishable ops ->
  let r := (publisher_ops publishObservation now ops (mkRun (newCardPublisher host instance) [] w)).2 in
  cp_instance (rn_state r) = instance /\ lookup_truthful (rn_state r) (rn_events r)
  /\ map call_revision (rn_events r) = map (fun n => u64 (Z.of_nat n)) (seq 1 (length (rn_events r))).
Proof.
  intros Hops r. destruct (wp_publisher_ops publishObservation now ops (mkRun (newCardPublisher host instance) [] w) (mirrors_new host instance) Hops)
    as [Hm [_ Hi]].
  split; [exact Hi|]. split; [by apply mirrors_lookup|apply Hm].
Qed.

Definition demo_ops : list publisherOp :=
  let now := mkTime 1000 0 in
  [OpPublish [connectionCard false now]; OpPublishDetail (mkCard ChannelDetail "launcher" "CODEX" EmptyString EmptyString EmptyString EmptyString DispositionSnapshot ImpactNormal
     "codex_launcher" now (Add now Hour) no_scene); OpPublish [connectionCard true now];
   OpResolveDetail "launcher"].

Lemma publisher_truthful_witness :
  let r := (publisher_ops (fun _ w => (None, w)) (fun w => (w, w)) demo_ops
              (mkRun (newCardPublisher true (mkInstanceRef "codex" 1)) [] (mkTime 2000 0))).2 in
  Forall op_publishable demo_ops /\ cp_instance (rn_state r) = mkInstanceRef "codex" 1 /\ lookup_truthful (rn_state r) (rn_events r)
  /\ map call_revision (rn_events r) = [1; 2; 3; 4].
Proof.
  intros r. assert (Hops : Forall op_publishable demo_ops).
  { repeat (apply Forall_cons_2; [repeat (apply Forall_cons_2 || apply Forall_nil_2); split; by vm_compute|]). apply Forall_nil_2. }
  split; [exact Hops|].
  destruct (publisher_truthful (fun _ w => (None, w)) (fun w => (w, w)) true (mkInstanceRef "codex" 1) demo_ops (mkTime 2000 0) Hops)
    as (H1 & H2 & H3).
  split; [exact H1|]. split; [exact H2|]. refine (eq_trans H3 _). by vm_compute.
Defined.

(** The slot of a card with the host. *)
Definition card_slot (card : Card) : slot := (cd_Channel card, cd_Key card).
Definition is_detail (p : cardPublisher) (s : slot) : Prop :=
  no_nul s.1 /\ exists published, cp_active p !! observationIdentity s.1 s.2 = Some published /\ pc_detail published = true.

Lemma mirrors_slot p calls s : mirrors p calls ->
  match shown calls !! s with
  | Some observation => no_nul s.1 /\ exists published updated, cp_active p !! observationIdentity s.1 s.2 = Some published
      /\ observation = card_observation (cp_instance p) (pc_revision published) updated (pc_card published)
  | None => no_nul s.1 -> cp_active p !! observationIdentity s.1 s.2 = None
  end.
Proof.
  intros [Ha Hs _ _]. destruct s as [channel key]. cbn [fst snd]. destruct (shown calls !! (channel, key)) as [observation|] eqn:Ho.
  - destruct (Hs channel key observation Ho) as [Hn [published Hp]]. split; [done|]. destruct (Ha _ _ Hp) as (Hid & Hn' & updated & Hsh).
    apply identity_inj in Hid as [Hc Hk]; [|done|done]. rewrite <- Hc, <- Hk, Ho in Hsh. injection Hsh as ->. eauto.
  - intros Hn. apply eq_None_not_Some. intros [published Hp]. destruct (Ha _ _ Hp) as (Hid & Hn' & updated & Hsh).
    apply identity_inj in Hid as [Hc Hk]; [|done|done]. rewrite <- Hc, <- Hk in Hsh. congruence.
Qed.

Lemma slot_identity cards s : Forall publishable_card cards -> no_nul s.1 -> s ∉ map card_slot cards ->
  observationIdentity s.1 s.2 ∉ map card_identity cards.
Proof.
  intros Hc Hn Hs Hin. apply Hs. apply list_elem_of_fmap in Hin as (card & Hid & Hin). rewrite Forall_forall in Hc.
  apply identity_inj in Hid as [H1 H2]; [|done|by apply Hc]. apply list_elem_of_fmap. exists card. split; [|done].
  destruct s. unfold card_slot. cbn in *. congruence.
Qed.

(** C30: A publication of cards that succeeds makes the host show exactly them, next to the
    detail cards it showed before; it fails only if the publisher is not configured, two
    cards have one identity, or the host refused its last call. *)
Theorem Publish_exact {W} (publishObservation : Observation -> W -> option error * W) (now : W -> Time * W)
    (r : Run cardPublisher hostCall W) (cards : list Card) :
  mirrors (rn_state r) (rn_events r) -> Forall publishable_card cards ->
  let '(err, r') := Publish publishObservation now cards r in
  let before := shown (rn_events r) in
  let after := shown (rn_events r') in
  match err with
  | None =>
    (forall card, card ∈ cards -> exists revision updated,
       after !! card_slot card = Some (card_observation (cp_instance (rn_state r)) revision updated card))
    /\ (forall s, s ∉ map card_slot cards -> is_detail (rn_state r) s -> exists card revision updated updated',
          before !! s = Some (card_observation (cp_instance (rn_state r)) revision updated card)
          /\ after !! s = Some (card_observation (cp_instance (rn_state r)) revision updated' card))
    /\ (forall s, s ∉ map card_slot cards -> ~ is_detail (rn_state r) s -> after !! s = None)
  | Some _ =>
    configured (rn_state r) = false \/ ~ NoDup (map card_identity cards)
    \/ exists observation, last (rn_events r') = Some (PublishedObservation observation false)
  end.
Proof.
  intros Hm Hc. pose proof (wp_Publish publishObservation now cards r Hm Hc) as H. unfold wp in H.
  destruct (Publish publishObservation now cards r) as [[e|] r']; destruct H as (Hm' & [_ Hi] & H).
  { destruct H as [H|[H|(observation & w & H & _)]]; eauto. }
  destruct H as [Hput Hkept]. cbn [fst snd] in *. split_and!.
  - intros card Hin. destruct (Hput card Hin) as [revision Ha]. destruct (mi_active _ _ Hm' _ _ Ha) as (_ & _ & updated & Hs).
    rewrite Hi in Hs. eauto.
  - intros s Hs (Hn & published & Ha & Hd). pose proof (slot_identity cards s Hc Hn Hs) as Hid.
    pose proof (mirrors_slot _ _ s Hm) as H1. pose proof (mirrors_slot _ _ s Hm') as H2. pose proof (proj2 (Hkept _ published Hid)) as H3.
    specialize (H3 (conj Hd Ha)). destruct (shown (rn_events r) !! s) as [o|]; [|by rewrite (H1 Hn) in Ha].
    destruct (shown (rn_events r') !! s) as [o'|]; [|by rewrite (H2 Hn) in H3]. destruct H1 as (_ & p1 & u1 & Hp1 & ->), H2 as (_ & p2 & u2 & Hp2 & ->).
    assert (p1 = published) as -> by congruence. assert (p2 = published) as -> by congruence. rewrite Hi. eauto 10.
  - intros s Hs Hn. pose proof (mirrors_slot _ _ s Hm') as H2. destruct (shown (rn_events r') !! s) as [o'|]; [|done]. exfalso.
    destruct H2 as (Hnul & published & _ & Ha & _). apply Hkept in Ha as [Hd Ha]; [|by apply slot_identity]. apply Hn. split; eauto.
Qed.

Lemma Publish_exact_witness :
  let cards := [connectionCard true (mkTime 1000 0)] in
  let r := mkRun (newCardPublisher true (mkInstanceRef "codex" 1)) [] (mkTime 2000 0) in
  let '(err, r') := Publish (fun _ w => (None, w)) (fun w => (w, w)) cards r in
  mirrors (rn_state r) (rn_events r) /\ err = None
  /\ exists revision updated, shown (rn_events r') !! (ChannelConnection, "provider"%string)
       = Some (card_observation (mkInstanceRef "codex" 1) revision updated (connectionCard true (mkTime 1000 0))).
Proof.
  intros cards r. assert (Hc : Forall publishable_card cards) by (apply Forall_singleton; split; by vm_compute).
  pose proof (Publish_exact (fun _ w => (None, w)) (fun w => (w, w)) r cards (mirrors_new true (mkInstanceRef "codex" 1)) Hc) as H.
  assert (He : (Publish (fun _ w => (None, w)) (fun w => (w, w)) cards r).1 = None) by (by vm_compute).
  destruct (Publish _ _ cards r) as [err r']. cbn in He. subst err. destruct H as [H _].
  split; [apply mirrors_new|]. split; [done|]. apply (H (connectionCard true (mkTime 1000 0))). apply list_elem_of_here.
Defined.
