(* ===== verification/CodexInteraction.v ===== *)
(** * Interactive sessions of the Codex plugin

    Models the state of a session in [src/plugins/codex/interaction.go]: what a session is
    opened on, how the encoder and the buttons move through questions and actions, what the
    detail card shows and what is answered to the app server. [None] is a panic on an index
    out of range. *)

From Stdlib Require Import ZArith Lia ZifyBool.
From S2P Require Import Prelude GoStrings GoTime GoJson Identifier GoEncoding Protocol ProtocolSession SessionRuntime JsonText GoText CodexUsage CodexReducer CodexCards CodexScenes Actions CodexPublisher.

Record interactionSession := mkInteractionSession {
  is_token : string;
  is_detailKey : string;
  is_card : Card;
  is_request : option pendingRequest;
  is_requestKey : string;
  is_threadID : string;
  is_turnID : string;
  is_actions : list string;
  is_actionIndex : Z;
  is_questionIndex : Z;
  is_choiceIndex : Z;
  is_review : bool;
  is_reviewIndex : Z;
  is_answers : gmap string string;
  is_staged : bool;
  is_processing : bool;
  is_connection : Connection;
  is_sensitive : bool;
  is_launcher : bool;
}.

(** Assignments to fields of a session. *)
Definition set_target (request : option pendingRequest) (requestKey threadID turnID : string) (actions : list string) (s : interactionSession)
    : interactionSession :=
  mkInteractionSession (is_token s) (is_detailKey s) (is_card s) request requestKey threadID turnID actions (is_actionIndex s)
    (is_questionIndex s) (is_choiceIndex s) (is_review s) (is_reviewIndex s) (is_answers s) (is_staged s) (is_processing s)
    (is_connection s) (is_sensitive s) (is_launcher s).
Definition set_position (questionIndex choiceIndex : Z) (review : bool) (reviewIndex : Z) (answers : gmap string string) (s : interactionSession)
    : interactionSession :=
  mkInteractionSession (is_token s) (is_detailKey s) (is_card s) (is_request s) (is_requestKey s) (is_threadID s) (is_turnID s) (is_actions s)
    (is_actionIndex s) questionIndex choiceIndex review reviewIndex answers (is_staged s) (is_processing s)
    (is_connection s) (is_sensitive s) (is_launcher s).
Definition set_action (actionIndex : Z) (staged processing : bool) (s : interactionSession) : interactionSession :=
  mkInteractionSession (is_token s) (is_detailKey s) (is_card s) (is_request s) (is_requestKey s) (is_threadID s) (is_turnID s) (is_actions s)
    actionIndex (is_questionIndex s) (is_choiceIndex s) (is_review s) (is_reviewIndex s) (is_answers s) staged processing
    (is_connection s) (is_sensitive s) (is_launcher s).
Definition set_session_card (card : Card) (s : interactionSession) : interactionSession :=
  mkInteractionSession (is_token s) (is_detailKey s) card (is_request s) (is_requestKey s) (is_threadID s) (is_turnID s) (is_actions s)
    (is_actionIndex s) (is_questionIndex s) (is_choiceIndex s) (is_review s) (is_reviewIndex s) (is_answers s) (is_staged s) (is_processing s)
    (is_connection s) (is_sensitive s) (is_launcher s).
Definition set_choice (choiceIndex : Z) (s : interactionSession) : interactionSession :=
  set_position (is_questionIndex s) choiceIndex (is_review s) (is_reviewIndex s) (is_answers s) s.

(** The results of a response, before they are encoded as JSON. *)
Inductive responseResult :=
  | DecisionResult (decision : string)
  | PermissionsResult (permissions scope : string)
  | AnswersResult (answers : gmap string string).

Record interactionEffect := mkInteractionEffect {
  ie_answerInCodex : bool;
  ie_requestID : RawID;
  ie_result : option responseResult;
  ie_threadID : string;
  ie_turnID : string;
}.
Definition no_id : RawID := mkRawID EmptyString 0.

(** Indexing a slice. *)
Definition at_index {A} (l : list A) (index : Z) : option A := if index <? 0 then None else l !! Z.to_nat index.

Definition wrappedIndex (index length : Z) : Z :=
  if length <=? 0 then 0
  else
    let index := Z.rem index length in
    if index <? 0 then index + length else index.

(** The questions of a session on a request that asks them. *)
Definition asked (s : interactionSession) : option (list typedQuestion) :=
  request ← is_request s;
  if bool_decide (pr_Kind request = requestQuestion) && pr_Interactive request then Some (pr_Questions request) else None.

Definition answerChoiceIndex (questionIndex : Z) (s : interactionSession) : Z :=
  match is_request s with
  | None => 0
  | Some request =>
    if (questionIndex <? 0) || (Z.of_nat (length (pr_Questions request)) <=? questionIndex) then 0
    else
      match at_index (pr_Questions request) questionIndex with
      | None => 0
      | Some question =>
        let answer := default EmptyString (is_answers s !! tq_ID question) in
        match list_find (fun option => ro_Label option = answer) (tq_Options question) with
        | Some (index, _) => Z.of_nat index
        | None => 0
        end
      end
  end.

Definition navigate (delta : Z) (s : interactionSession) : option (bool * interactionSession) :=
  if (delta =? 0) || is_staged s then Some (false, s)
  else
    match asked s with
    | Some questions =>
      if is_review s then
        let index := wrappedIndex (is_reviewIndex s + delta) (Z.of_nat (length questions)) in
        Some (true, set_position (is_questionIndex s) (is_choiceIndex s) true index (is_answers s) s)
      else
        question ← at_index questions (is_questionIndex s);
        Some (true, set_choice (wrappedIndex (is_choiceIndex s + delta) (Z.of_nat (length (tq_Options question)))) s)
    | None =>
      match is_actions s with
      | [] => Some (false, s)
      | actions => Some (true, set_action (wrappedIndex (is_actionIndex s + delta) (Z.of_nat (length actions))) (is_staged s) (is_processing s) s)
      end
    end.

(** The outer option is a panic; the inner one is nil. *)
Definition responseEffect (s : interactionSession) : option (option interactionEffect) :=
  match is_request s with
  | None => Some None
  | Some request =>
    result ← (match pr_Kind request with
      | requestCommand | requestFile => action ← at_index (is_actions s) (is_actionIndex s); Some (DecisionResult action)
      | requestPermission =>
        action ← at_index (is_actions s) (is_actionIndex s);
        Some (PermissionsResult (if action =s "grantTurn" then pr_Permissions request else "{}") "turn")
      | requestQuestion => Some (AnswersResult (is_answers s))
      end);
    Some (Some (mkInteractionEffect false (pr_ID request) (Some result) EmptyString EmptyString))
  end.

(** The effect, whether to refresh the detail card, and the session. *)
Definition activate (s : interactionSession) : option (option interactionEffect * bool * interactionSession) :=
  match asked s with
  | Some questions =>
    if is_review s then effect ← responseEffect s; Some (effect, false, s)
    else
      question ← at_index questions (is_questionIndex s);
      option ← at_index (tq_Options question) (is_choiceIndex s);
      if ro_AnswerInCodex option
      then Some (Some (mkInteractionEffect true no_id None EmptyString EmptyString), false, s)
      else
        let answers := <[tq_ID question := ro_Label option]> (is_answers s) in
        if is_questionIndex s <? Z.of_nat (length questions) - 1 then
          let s := set_position (is_questionIndex s + 1) (is_choiceIndex s) false (is_reviewIndex s) answers s in
          Some (None, true, set_choice (answerChoiceIndex (is_questionIndex s) s) s)
        else Some (None, true, set_position (is_questionIndex s) (is_choiceIndex s) true 0 answers s)
  | None =>
    match is_actions s with
    | [] => Some (None, false, s)
    | _ =>
      if negb (is_staged s) then Some (None, true, set_action (is_actionIndex s) true (is_processing s) s)
      else if negb (is_threadID s =s EmptyString)
      then Some (Some (mkInteractionEffect false no_id None (is_threadID s) (is_turnID s)), false, s)
      else effect ← responseEffect s; Some (effect, false, s)
    end
  end.

Definition questionBack (s : interactionSession) : bool * interactionSession :=
  match asked s with
  | None => (false, s)
  | Some questions =>
    if is_review s then
      let last := Z.of_nat (length questions) - 1 in
      let s := set_position last (is_choiceIndex s) false (is_reviewIndex s) (is_answers s) s in
      (true, set_choice (answerChoiceIndex last s) s)
    else if is_questionIndex s =? 0 then (false, s)
    else
      let s := set_position (is_questionIndex s - 1) (is_choiceIndex s) false (is_reviewIndex s) (is_answers s) s in
      (true, set_choice (answerChoiceIndex (is_questionIndex s) s) s)
  end.

Definition actionLabel (action : string) : string := if action =s "grantTurn" then "GRANT TURN" else ToUpper action.

(** The parameters of a request that its context shows: command, reason and granted root. *)
Record contextParams := mkContextParams { ctx_Command : string; ctx_Reason : string; ctx_GrantRoot : string }.

(** ["%s %d/%d"] *)
Definition position (label : string) (index count : Z) : string := label +:+ format_int index +:+ "/" +:+ format_int count.

Section Detail.
Context (decodeContext : string -> option contextParams).

Definition requestContext (request : pendingRequest) (sensitive : bool) : string :=
  let plain := if negb sensitive then "Codex request"%string
    else
      match decodeContext (pr_Params request) with
      | Some params =>
        default "Codex request"%string
          (head (List.filter (fun value => negb (value =s EmptyString)) (map safeLine [ctx_Command params; ctx_Reason params; ctx_GrantRoot params])))
      | None => "Codex request"%string
      end in
  match pr_Kind request, pr_Questions request with
  | requestQuestion, question :: _ => tq_Question question
  | _, _ => plain
  end.

Definition detail_base (now : Time) (s : interactionSession) : Card :=
  let c := is_card s in
  mkCard ChannelDetail (is_detailKey s) (cd_StateWord c) (cd_ContextLine c) (cd_SessionLine c) (cd_ProjectLine c) "Display only"
    DispositionSnapshot (cd_Impact c) "codex_detail" (UTC now) (Add (UTC now) (24 * Hour)) no_scene.
Definition cd_set_context (context : string) (c : Card) : Card := cd_set_lines context (cd_SessionLine c) (cd_ProjectLine c) c.
Definition cd_set_detail (detail disposition impact : string) (scene : Scene) (c : Card) : Card :=
  mkCard (cd_Channel c) (cd_Key c) (cd_StateWord c) (cd_ContextLine c) (cd_SessionLine c) (cd_ProjectLine c) detail
    disposition impact (cd_ReasonCode c) (cd_ObservedAt c) (cd_ValidUntil c) scene.

(** The detail of the question or the answer that is shown. *)
Definition question_detail (questions : list typedQuestion) (s : interactionSession) (card : Card) : option Card :=
  let count := Z.of_nat (length questions) in
  if is_review s then
    question ← at_index questions (is_reviewIndex s);
    let detail := position "REVIEW " (is_reviewIndex s + 1) count in
    Some (cd_set_detail detail DispositionActionable (cd_Impact card)
      (answerReviewScene detail (tq_Question question) (default EmptyString (is_answers s !! tq_ID question))) card)
  else
    question ← at_index questions (is_questionIndex s);
    option ← at_index (tq_Options question) (is_choiceIndex s);
    let optionPosition := position "OPTION " (is_choiceIndex s + 1) (Z.of_nat (length (tq_Options question))) in
    Some (cd_set_detail optionPosition DispositionActionable (cd_Impact card)
      (typedQuestionScene (position "QUESTION " (is_questionIndex s + 1) count) (tq_Question question) optionPosition option) card).

Definition action_detail (s : interactionSession) (card : Card) : option Card :=
  action ← at_index (is_actions s) (is_actionIndex s);
  Some (cd_set_detail (actionLabel action) DispositionActionable (cd_Impact card) (cd_Scene card) card).
Definition has_actions (s : interactionSession) : bool := match is_actions s with [] => false | _ => true end.

Definition detailCard (now : Time) (s : interactionSession) : option Card :=
  let card := detail_base now s in
  card ← (match is_request s with
    | Some request =>
      let card := cd_set_context (requestContext request (is_sensitive s)) card in
      match asked s with
      | Some questions => question_detail questions s card
      | None =>
        if pr_Interactive request && has_actions s then action_detail s card
        else Some (cd_set_detail "Use Codex" (cd_Disposition card) (cd_Impact card) (cd_Scene card) card)
      end
    | None => if has_actions s then action_detail s card else Some card
    end);
  if is_staged s then
    action ← at_index (is_actions s) (is_actionIndex s);
    Some (cd_set_detail ("PLAY: CONFIRM " +:+ actionLabel action) (cd_Disposition card) ImpactCritical (cd_Scene card) card)
  else Some card.
End Detail.

(** ** The inputs of a session *)

Definition codexInputResult (consumed : bool) : SessionInputResult :=
  mkSessionInputResult (if consumed then SessionInputConsumed else SessionInputNotConsumed).

(** What [handleInput] decides in its first critical section. *)
Record decided := mkDecided { de_consumed : bool; de_refresh : bool; de_close : bool; de_effect : option interactionEffect }.

Definition decide_input (input : SessionInput) (s : interactionSession) : option (decided * interactionSession) :=
  match in_Encoder input with
  | Some encoder => '(refresh, s) ← navigate (ei_Delta encoder) s; Some (mkDecided refresh refresh false None, s)
  | None =>
    match in_Button input with
    | Some button =>
      if negb (bi_Action button =s ButtonPress) then Some (mkDecided false false false None, s)
      else if bi_Button button =s ButtonBack then
        if is_staged s then Some (mkDecided true true false None, set_action (is_actionIndex s) false (is_processing s) s)
        else
          let '(refresh, s) := questionBack s in
          Some (if refresh then mkDecided true true false None else mkDecided true false true None, s)
      else if bi_Button button =s ButtonStart then
        '(effect, refresh, s) ← activate s;
        Some (mkDecided (is_some effect || refresh) refresh false effect,
              if is_some effect then set_action (is_actionIndex s) (is_staged s) true s else s)
      else Some (mkDecided false false false None, s)
    | None => Some (mkDecided false false false None, s)
    end
  end.

(** ** Opening a session *)

Definition displayOnlyActionable (reasonCode : string) : bool := one_of reasonCode ["codex_system_error"; "codex_turn_failed"]%string.

Section Open.
Context (json : decoders) (sha256 : string -> list Z) (clock clock' : Time).

(** The card of the trigger of a request to a worker that is active. *)
Definition trigger_card (trigger : SessionTrigger) (r : Reducer) (p : cardPublisher) : Card + error :=
  if tr_Kind trigger =s SessionTriggerLauncher then
    if is_some (tr_Observation trigger) then inr (Errorf "Codex launcher trigger is invalid" [])
    else inl (LiveCard sha256 clock clock' r)
  else if tr_Kind trigger =s SessionTriggerObservation then
    match tr_Observation trigger with
    | None => inr (Errorf "Codex interaction requires an exact observation trigger" [])
    | Some observation =>
      if or_Revision observation =? 0 then inr (Errorf "Codex interaction requires an exact observation trigger" [])
      else if or_Channel observation =s ChannelDetail then inr (Errorf "Codex detail observations cannot recursively activate" [])
      else
        match Lookup (or_Channel observation) (or_Key observation) (or_Revision observation) p with
        | None => inr (Errorf "Codex observation trigger is stale" [])
        | Some card =>
          if cd_Channel card =s ChannelGuidance then inr (Errorf "Codex guidance observations cannot activate" []) else inl card
        end
    end
  else inr (Errorf "Codex interaction trigger is unsupported" []).

Definition new_session (token : string) (card : Card) (sensitive launcher : bool) (connection : Connection) : interactionSession :=
  mkInteractionSession token (observationKey sha256 "session" token) card None EmptyString EmptyString EmptyString [] 0 0 0 false 0 ∅
    false false connection sensitive launcher.

(** The exact target of a session on an observation. *)
Definition bind_target (card : Card) (r : Reducer) (s : interactionSession) : interactionSession + error :=
  match PendingRequest (cd_Key card) r with
  | Some pending =>
    inl (set_target (Some pending) (pr_Key pending) EmptyString EmptyString (if pr_Interactive pending then pr_Actions pending else []) s)
  | None =>
    match InterruptTarget sha256 (cd_Key card) r with
    | Some (threadID, turnID) => inl (set_target None EmptyString threadID turnID ["interrupt"%string] s)
    | None =>
      if (cd_Disposition card =s DispositionActionable) && negb (displayOnlyActionable (cd_ReasonCode card))
      then inr (Errorf "Codex actionable observation no longer has an exact target" [])
      else inl s
    end
  end.

(** The session that [StartSession] opens for a worker whose session is [current]. *)
Definition open_session (token : string) (trigger : SessionTrigger) (sensitive : bool) (current : option interactionSession)
    (r : Reducer) (p : cardPublisher) : interactionSession + error :=
  match trigger_card trigger r p with
  | inr err => inr err
  | inl card =>
    let s := new_session token card sensitive (tr_Kind trigger =s SessionTriggerLauncher) (r_connection r) in
    if is_some current then inr (Errorf "Codex interaction session is already active" [])
    else if tr_Kind trigger =s SessionTriggerObservation then bind_target card r s else inl s
  end.

(** ** Staleness *)

Definition samePendingRequestIdentity (current captured : pendingRequest) : bool :=
  (pr_Key current =s pr_Key captured) && RawID_Equal (pr_ID current) (pr_ID captured)
  && bool_decide (pr_Kind current = pr_Kind captured) && (pr_ThreadID current =s pr_ThreadID captured)
  && (pr_TurnID current =s pr_TurnID captured) && (pr_ItemID current =s pr_ItemID captured).

Definition request_current (s : interactionSession) (r : Reducer) : bool :=
  if is_requestKey s =s EmptyString then true
  else
    match PendingRequest (is_requestKey s) r, is_request s with
    | Some pending, Some request =>
      samePendingRequestIdentity pending request
      && match r_threads r !! pr_ThreadID request with
         | Some t =>
           match th_LatestTurn t with
           | Some turn => (tn_ID turn =s EmptyString) || (tn_ID turn =s pr_TurnID request)
           | None => true
           end
         | None => true
         end
    | _, _ => false
    end.
Definition interrupt_current (s : interactionSession) (r : Reducer) : bool :=
  if is_threadID s =s EmptyString then true
  else
    match InterruptTarget sha256 (cd_Key (is_card s)) r with
    | Some (threadID, turnID) => (threadID =s is_threadID s) && (turnID =s is_turnID s)
    | None => false
    end.
Definition sessionTargetCurrent (s : interactionSession) (r : Reducer) : bool := request_current s r && interrupt_current s r.

Definition staleSessionToken (disconnected : bool) (session : option interactionSession) (r : Reducer) : string :=
  match session with
  | None => EmptyString
  | Some s =>
    if disconnected && negb (is_launcher s) then is_token s
    else if negb (is_processing s) && negb (sessionTargetCurrent s r) then is_token s
    else EmptyString
  end.
End Open.
