(* ===== verification/CodexInvariant.v ===== *)
(** * The invariant of the Codex plugin's reducer

    Models [src/plugins/codex/config.go] and the reducer that [ReplaceInstances] in
    [handler.go] creates, and shows what every event keeps: a waiting request belongs to a
    thread that is known and can be answered as it was asked. *)

From Stdlib Require Import ZArith Lia ZifyBool.
From S2P Require Import Prelude GoStrings GoTime GoJson Identifier GoEncoding Protocol JsonText GoText CodexUsage CodexReducer CodexCards CodexScenes.

(** ** Configuration *)

Definition maxConfigBytes : Z := 65536.

Record Config := mkConfig {
  cf_ShowSensitiveRequestDetails : bool;
  cf_ShowQuota : bool;
  cf_QuotaWarningRemainingPercent : Z;
  cf_QuotaCriticalRemainingPercent : Z;
}.
Record configJSON := mkConfigJSON {
  cj_ShowSensitiveRequestDetails : option bool;
  cj_ShowQuota : option bool;
  cj_QuotaWarningRemainingPercent : option Z;
  cj_QuotaCriticalRemainingPercent : option Z;
}.

(** [decode] is [DecodeStrict] into a [configJSON]. *)
Definition decodeConfig (decode : string -> configJSON + error) (raw : string) : Config + error :=
  if (len raw =? 0) || (maxConfigBytes <? len raw)
  then inr (Errorf "Codex configuration must contain between 1 and %d bytes" [EInt maxConfigBytes])
  else
    match decode raw with
    | inr err => inr err
    | inl value =>
      let result := mkConfig (default true (cj_ShowSensitiveRequestDetails value)) (default false (cj_ShowQuota value))
        (default 20 (cj_QuotaWarningRemainingPercent value)) (default 5 (cj_QuotaCriticalRemainingPercent value)) in
      if (cf_QuotaCriticalRemainingPercent result <? 0) || (100 <? cf_QuotaWarningRemainingPercent result)
         || (cf_QuotaWarningRemainingPercent result <=? cf_QuotaCriticalRemainingPercent result)
      then inr (Errorf "quota thresholds must satisfy 0 <= critical < warning <= 100" [])
      else inl result
    end.

(** The reducer of a new worker. *)
Definition worker_reducer (config : Config) (now : Time) : Reducer :=
  NewReducerWithQuota now
    (mkQuotaOptions (cf_ShowQuota config) codexMarkSource
       (mkPresentationConfig "MAIN" EmptyString false (cf_QuotaWarningRemainingPercent config) (cf_QuotaCriticalRemainingPercent config))).

(** ** The invariant *)

Definition known_actions : list string := ["accept"; "decline"; "cancel"; "grantTurn"]%string.

Record question_ok (question : typedQuestion) : Prop := {
  qo_some : tq_Options question <> [];
  qo_few : Z.of_nat (length (tq_Options question)) <= 9;
  qo_labels : Forall (fun option => good_text (ro_Label option)) (tq_Options question);
}.
Record questions_ok (questions : list typedQuestion) : Prop := {
  qs_some : questions <> [];
  qs_few : Z.of_nat (length questions) <= 8;
  qs_each : Forall question_ok questions;
  qs_ids : NoDup (map tq_ID questions);
}.
(** A request can be answered on the device exactly if it has something to choose. *)
Definition request_ok (request : pendingRequest) : Prop :=
  match pr_Kind request with
  | requestQuestion => pr_Actions request = [] /\ (pr_Interactive request = true -> questions_ok (pr_Questions request))
  | _ => Forall (fun action => action ∈ known_actions) (pr_Actions request) /\ NoDup (pr_Actions request)
         /\ (pr_Interactive request = true <-> pr_Actions request <> [])
  end.

Section Invariant.
Context (json : decoders) (sha256 : string -> list Z).

Record reducer_ok (r : Reducer) : Prop := {
  rk_pending : forall key request, r_pending r !! key = Some request ->
    RawID_Key (pr_ID request) = key /\ key <> EmptyString /\ pr_Key request = observationKey sha256 "request" key
    /\ is_Some (r_threads r !! pr_ThreadID request) /\ request_ok request;
  rk_threads : forall id t, r_threads r !! id = Some t -> th_ID t = id /\ id <> EmptyString;
  rk_quota : forall quota, r_quota r = Some quota ->
    sn_Windows quota <> [] /\ Forall good_window (sn_Windows quota) /\ IsZero (sn_UpdatedAt quota) = false;
  rk_config : good_config (qo_Presentation (r_quotaOptions r)) /\ CanonicalPath (qo_AssetPath (r_quotaOptions r));
}.

(** What happens to a reducer: events of the app server under any clock, and the operations
    of the plugin on the pinned thread. *)
Inductive reducer_step (r : Reducer) : Reducer -> Prop :=
  | step_apply (clock : nat -> Time) (event : ManagerEvent) : (forall n, 0 < instant (clock n)) ->
      reducer_step r (Apply json sha256 clock event r)
  | step_pin (threadID : string) : reducer_step r (PinThread threadID r).2
  | step_restore (threadID : string) : reducer_step r (RestorePinnedThread threadID r)
  | step_unpin : reducer_step r (UnpinThread r).
Inductive reducer_reached (config : Config) : Reducer -> Prop :=
  | reached_new (now : Time) : reducer_reached config (worker_reducer config now)
  | reached_step (r r' : Reducer) : reducer_reached config r -> reducer_step r r' -> reducer_reached config r'.

(** ** Questions *)

Lemma safeExactText_good value limit : safeExactText value limit = true -> limit <= MaxTextBytes -> good_text value /\ value <> EmptyString.
Proof.
  unfold safeExactText. destruct ((value =s EmptyString) || (limit <? len value) || negb (ValidString value) || negb (TrimSpace value =s value)) eqn:H; [done|].
  apply orb_false_iff in H as [H _]. apply orb_false_iff in H as [H Hv]. apply orb_false_iff in H as [He Hl].
  intros _ Hlim. apply negb_false_iff in Hv. apply String.eqb_neq in He. split; [split; [done|lia]|done].
Qed.

Lemma project_options_ok options : forall labels projected, project_options labels options = Some projected ->
  length projected = length options /\ Forall (fun option => good_text (ro_Label option) /\ ro_AnswerInCodex option = false) projected.
Proof.
  induction options as [|option options IH]; intros labels projected; cbn [project_options].
  { intros [= <-]. by split; [|apply Forall_nil_2]. }
  destruct (safeExactText (op_Label option) 256) eqn:Hs; [cbn [negb]|done]. destruct (one_of _ _); [done|].
  destruct (project_options _ options) as [rest|] eqn:Hr; cbn; [|done]. intros [= <-]. destruct (IH _ _ Hr) as [Hl Hf].
  split; [cbn; congruence|]. apply Forall_cons_2; [|done]. cbn. split; [|done].
  apply (safeExactText_good _ 256 Hs). unfold MaxTextBytes. lia.
Qed.

Lemma project_question_ok question projected : project_question question = Some projected ->
  question_ok projected /\ tq_ID projected = qp_ID question.
Proof.
  unfold project_question. destruct (_ || _ || _ || _ || _ || _) eqn:Hc; [done|].
  apply orb_false_iff in Hc as [Hc H8]. apply orb_false_iff in Hc as [_ H0].
  destruct (project_options [] (qp_Options question)) as [options|] eqn:Ho; cbn; [|done]. intros [= <-].
  destruct (project_options_ok _ _ _ Ho) as [Hl Hf]. split; [|done]. split; cbn [tq_Options].
  - destruct options; [|done]. exfalso. destruct (qp_Options question); [cbn in H0; lia|done].
  - rewrite length_app. destruct (qp_IsOther question); cbn [length]; lia.
  - apply Forall_app_2; [eapply Forall_impl; [exact Hf|by intros ? []]|]. destruct (qp_IsOther question); [|apply Forall_nil_2].
    apply Forall_singleton. by apply printable_good; vm_compute.
Qed.

Lemma project_each_ok questions : forall ids result, project_each ids questions = Some result ->
  length result = length questions /\ Forall question_ok result /\ NoDup (map tq_ID result)
  /\ (forall id, id ∈ map tq_ID result -> id ∉ ids).
Proof.
  induction questions as [|question questions IH]; intros ids result; cbn [project_each].
  { intros [= <-]. split_and!; [done|apply Forall_nil_2|apply NoDup_nil_2|]. by intros id ?%elem_of_nil. }
  destruct (project_question question) as [projected|] eqn:Hp; cbn [mbind option_bind]; [|done].
  destruct (one_of (qp_ID question) ids) eqn:Hid; [done|].
  destruct (project_each _ questions) as [rest|] eqn:Hr; cbn; [|done]. intros [= <-].
  destruct (IH _ _ Hr) as (Hl & Hf & Hnd & Hnew). destruct (project_question_ok _ _ Hp) as [Hok Heq].
  split_and!; [cbn; congruence|by apply Forall_cons_2| |].
  - cbn [map]. rewrite Heq. apply NoDup_cons. split; [|done]. intros Hin. apply (Hnew _ Hin). apply list_elem_of_here.
  - cbn [map]. intros id [->|Hin]%elem_of_cons; [|intros ?; apply (Hnew _ Hin); by right].
    rewrite Heq. intros Hin. by rewrite (proj2 (one_of_spec _ _)) in Hid.
Qed.

Lemma projectQuestions_ok raw questions : projectQuestions json raw = (questions, true) -> questions_ok questions.
Proof.
  unfold projectQuestions. destruct (decodeQuestions json raw) as [params|]; [|done].
  destruct (_ || _) eqn:Hn; [done|]. destruct (project_each [] params) as [result|] eqn:Hp; [|done]. intros [= <-].
  destruct (project_each_ok _ _ _ Hp) as (Hl & Hf & Hnd & _). split; [|lia|done|done].
  intros ->. destruct params; [cbn in Hn; lia|done].
Qed.

Definition choices_ok (actions : list string) : Prop := Forall (fun action => action ∈ known_actions) actions /\ NoDup actions.

Lemma choices_decide actions : bool_decide (choices_ok actions) = true -> choices_ok actions.
Proof. apply bool_decide_eq_true. Qed.

Lemma commandRequestActions_from_ok available : forall result, choices_ok result -> choices_ok (commandRequestActions_from result available).
Proof.
  unfold commandRequestActions_from. induction available as [|text available IH]; intros result Hr; [done|]. cbn [fold_left]. apply IH.
  destruct (unmarshal_string text) as [decision|]; [|done].
  destruct (one_of decision _ && negb (one_of decision result)) eqn:Hd; [|done]. apply andb_prop in Hd as [Hin Hnew].
  apply one_of_spec in Hin. destruct Hr as [Hf Hnd]. split.
  - apply Forall_app_2; [done|]. apply Forall_singleton. unfold known_actions. set_solver.
  - apply NoDup_app. split; [done|]. split; [|apply NoDup_singleton]. intros x Hx ->%list_elem_of_singleton.
    by rewrite (proj2 (one_of_spec _ _)) in Hnew.
Qed.

Lemma commandRequestActions_ok raw : choices_ok (commandRequestActions json raw).
Proof.
  unfold commandRequestActions. destruct (decodeAvailable json raw) as [[available|]|].
  - apply commandRequestActions_from_ok. by apply choices_decide.
  - by apply choices_decide; vm_compute.
  - by apply choices_decide.
Qed.

Lemma request_details_ok kind params actions questions permissions interactive id key arrival threadID turnID itemID startedAt raw :
  request_details json kind params = Some (actions, questions, permissions, interactive) ->
  request_ok (mkPendingRequest key id arrival kind threadID turnID itemID startedAt raw actions questions permissions interactive).
Proof.
  unfold request_details, request_ok. destruct kind; cbn [pr_Kind pr_Actions pr_Interactive pr_Questions].
  - intros [= <- <- <- <-]. destruct (commandRequestActions_ok params) as [Hf Hnd]. split_and!; [done|done|].
    by destruct (commandRequestActions json params).
  - intros [= <- <- <- <-]. assert (choices_ok ["accept"; "decline"; "cancel"]%string) as [Hf Hnd] by (by apply choices_decide; vm_compute).
    by split_and!.
  - destruct (decodePermissions json params) as [p|]; [|done]. destruct (jsonObject p); [|done]. intros [= <- <- <- <-].
    assert (choices_ok ["grantTurn"; "decline"]%string) as [Hf Hnd] by (by apply choices_decide; vm_compute). by split_and!.
  - destruct (projectQuestions json params) as [qs i] eqn:Hq. intros [= <- <- <- <-]. split; [done|]. intros ->.
    by apply (projectQuestions_ok params).
Qed.

(** ** Every step keeps the invariant *)

Lemma thread_id threadID r : reducer_ok r -> th_ID (thread threadID r) = threadID.
Proof.
  intros [_ Ht _ _]. unfold thread. destruct (r_threads r !! threadID) as [t|] eqn:H; [|done]. by apply Ht.
Qed.

Lemma change_thread_ok t r : reducer_ok r -> th_ID t <> EmptyString -> reducer_ok (change_thread t r).
Proof.
  intros [Hp Ht Hq Hc] Hid. split; cbn; [| |done|done].
  - intros key request Hr. destruct (Hp key request Hr) as (? & ? & ? & ? & ?). split_and!; try done.
    apply lookup_insert_is_Some. destruct (decide (th_ID t = pr_ThreadID request)); auto.
  - intros id t' [[<- <-] | [Hne Hl]]%lookup_insert_Some; [done|by apply Ht].
Qed.

Lemma markThreadChanged_ok threadID r : reducer_ok r -> reducer_ok (markThreadChanged threadID r).
Proof.
  intros H. unfold markThreadChanged. destruct (r_threads r !! threadID) as [t|] eqn:Hl; [|done].
  apply change_thread_ok; [done|]. destruct (rk_threads _ H _ _ Hl) as [-> ?]. done.
Qed.

Lemma set_pending_ok pending sequence r : reducer_ok r ->
  (forall key request, pending !! key = Some request -> r_pending r !! key = Some request) -> reducer_ok (set_pending pending sequence r).
Proof. intros [Hp Ht Hq Hc] Hs. split; cbn; [|done..]. intros key request Hr. by apply Hp, Hs. Qed.

(** The events that change one thread. *)
Ltac one_thread :=
  repeat match goal with
  | |- reducer_ok (if ?b then _ else _) => destruct b eqn:?
  | |- reducer_ok (match ?x with _ => _ end) => destruct x eqn:?
  | |- reducer_ok (let '(_, _) := ?x in _) => destruct x eqn:?
  | |- reducer_ok (change_thread _ _) => apply change_thread_ok; [assumption|]
  | _ => assumption
  end.
Ltac not_empty :=
  repeat match goal with
  | H : (_ || _) = false |- _ => apply orb_false_iff in H as [? ?]
  | H : (_ =s EmptyString) = false |- _ => apply String.eqb_neq in H
  end; try done.

Section Clock.
Context (clock : nat -> Time) (Hclock : forall n, 0 < instant (clock n)).

Lemma applyTurnStarted_ok raw r : reducer_ok r -> reducer_ok (applyTurnStarted json clock raw r).
Proof. intros H. unfold applyTurnStarted. one_thread. cbn. rewrite thread_id by done. not_empty. Qed.

Lemma applyTurnCompleted_ok raw r : reducer_ok r -> reducer_ok (applyTurnCompleted json clock raw r).
Proof.
  intros H. unfold applyTurnCompleted. one_thread. cbn. destruct (th_CompactionTurnID _ =s _); cbn; rewrite thread_id by done; not_empty.
Qed.

Lemma applyPlanUpdate_ok raw r : reducer_ok r -> reducer_ok (applyPlanUpdate json raw r).
Proof. intros H. unfold applyPlanUpdate. one_thread. cbn. rewrite thread_id by done. not_empty. Qed.

Lemma applyItemStarted_ok raw r : reducer_ok r -> reducer_ok (applyItemStarted json raw r).
Proof. intros H. unfold applyItemStarted. one_thread. cbn. rewrite thread_id by done. not_empty. Qed.

Lemma applyItemCompleted_ok raw r : reducer_ok r -> reducer_ok (applyItemCompleted json raw r).
Proof. intros H. unfold applyItemCompleted. one_thread; cbn; rewrite thread_id by done; not_empty. Qed.

Lemma applyThreadStatus_ok raw r : reducer_ok r -> reducer_ok (applyThreadStatus json raw r).
Proof. intros H. unfold applyThreadStatus. one_thread. cbn. rewrite thread_id by done. not_empty. Qed.

Lemma snapshot_turn_id turn t : th_ID (snapshot_turn clock turn t) = th_ID t.
Proof. unfold snapshot_turn. destruct (terminalTurnStatus _); [|done]. by destruct (last_compaction _ =s _). Qed.

Lemma applyThreadSnapshot_ok snapshot r : reducer_ok r -> reducer_ok (applyThreadSnapshot clock snapshot r).
Proof.
  intros H. unfold applyThreadSnapshot. destruct snapshot as [snapshot|]; [|done]. destruct (tp_ID snapshot =s EmptyString) eqn:He; [done|].
  apply change_thread_ok; [done|]. apply String.eqb_neq in He. destruct (tp_LatestTurn snapshot); [|done]. by rewrite snapshot_turn_id.
Qed.

Lemma applyServerRequestResolved_ok raw r : reducer_ok r -> reducer_ok (applyServerRequestResolved json raw r).
Proof.
  intros H. unfold applyServerRequestResolved. destruct (decodeResolved json raw) as [requestID|]; [|done].
  destruct (ParseRawID requestID) as [id|]; [|done].
  assert (Hm : reducer_ok (match r_pending r !! RawID_Key id with Some request => markThreadChanged (pr_ThreadID request) r | None => r end)).
  { destruct (r_pending r !! RawID_Key id); [by apply markThreadChanged_ok|done]. }
  apply set_pending_ok; [done|]. by intros key request [_ Hl]%lookup_delete_Some.
Qed.

Lemma applyServerRequest_ok incoming r : reducer_ok r -> reducer_ok (applyServerRequest json sha256 clock incoming r).
Proof.
  intros H. unfold applyServerRequest. destruct (requestKindForMethod (in_Method incoming)) as [kind|]; [|done].
  destruct (RawID_Valid (in_ID incoming)) eqn:Hid; [cbn [negb]|done]. destruct (decodeRequest json (in_Params incoming)) as [params|]; [|done].
  destruct (_ || _ || _) eqn:He; [done|]. not_empty.
  assert (Hs : reducer_ok (set_pending (r_pending r) (u64_succ (r_requestSequence r)) r)) by (by apply set_pending_ok).
  destruct (request_details json kind (in_Params incoming)) as [[[[actions questions] permissions] interactive]|] eqn:Hd; [|done].
  set (request := mkPendingRequest _ _ _ _ _ _ _ _ _ _ _ _ _). set (r' := set_pending (<[_ := request]> _) _ _).
  assert (Hid' : th_ID (thread (rp_ThreadID params) r') = rp_ThreadID params) by apply (thread_id _ _ Hs).
  destruct Hs as [Hp Ht Hq Hc]. split; cbn; [| |done|done].
  - intros key request' [[<- <-] | [Hne Hl]]%lookup_insert_Some.
    + split_and!; [done| |done| |by apply (request_details_ok _ _ _ _ _ _ _ _ _ _ _ _ _ _ Hd)].
      * intros Hz. unfold RawID_Valid in Hid. unfold RawID_Key in Hz. by rewrite Hz in Hid.
      * rewrite Hid'. cbn. rewrite lookup_insert_eq. eauto.
    + destruct (Hp key request' Hl) as (? & ? & ? & ? & ?). split_and!; try done.
      apply lookup_insert_is_Some. destruct (decide (th_ID (thread (rp_ThreadID params) r') = pr_ThreadID request')); auto.
  - intros id t [[<- <-] | [Hne Hl]]%lookup_insert_Some; [|by apply Ht]. cbn. rewrite Hid'. done.
Qed.

Lemma set_quota_ok quota signal until limits r : reducer_ok r ->
  (forall q, quota = Some q -> sn_Windows q <> [] /\ Forall good_window (sn_Windows q) /\ IsZero (sn_UpdatedAt q) = false) ->
  reducer_ok (set_quota quota signal until limits r).
Proof. intros [Hp Ht Hq Hc] H. by split. Qed.

Lemma applyRateLimits_ok limits r : reducer_ok r -> reducer_ok (applyRateLimits clock limits r).
Proof.
  intros H. unfold applyRateLimits. destruct (NormalizeWindows _ _) as [quota|] eqn:Hn; [|done].
  apply set_quota_ok; [done|]. intros q [= <-]. destruct (NormalizeWindows_good _ _ _ Hn) as (? & ? & ->). split_and!; [done|done|].
  specialize (Hclock 0%nat). unfold IsZero, UTC. cbn. lia.
Qed.

Lemma reconcileThreads_ok threadIDs r : reducer_ok r -> reducer_ok (reconcileThreads threadIDs r).
Proof.
  intros [Hp Ht Hq Hc]. unfold reconcileThreads. set (loaded := list_to_set _).
  assert (H : reducer_ok (set_pending (filter (fun kp => pr_ThreadID kp.2 ∈ loaded) (r_pending r)) (r_requestSequence r)
    (set_threads (filter (fun kt => kt.1 ∈ loaded) (r_threads r)) (r_liveSequence r) r))).
  { split; cbn; [| |done|done].
    - intros key request [Hl Hin]%map_lookup_filter_Some. destruct (Hp key request Hl) as (? & ? & ? & [t Hth] & ?). split_and!; try done.
      exists t. by apply map_lookup_filter_Some.
    - intros id t [Hl _]%map_lookup_filter_Some. by apply Ht. }
  destruct (negb _ && negb _); [|done]. by destruct H; split.
Qed.

Lemma Apply_ok event r : reducer_ok r -> reducer_ok (Apply json sha256 clock event r).
Proof.
  intros H. destruct event as [connection| |incoming|threadIDs|snapshot| |limits|]; cbn [Apply]; try done.
  - unfold connect. destruct H as [Hp Ht Hq Hc]. destruct (negb _ && negb _); split; cbn; try done.
  - unfold disconnect. destruct H as [Hp Ht Hq Hc]. split; cbn; try done.
    intros id t (t' & <- & Hl)%lookup_fmap_Some. exact (Ht id t' Hl).
  - destruct (in_Kind incoming); [|by apply applyServerRequest_ok]. unfold applyNotification, applyRateLimitsUpdate.
    repeat match goal with |- reducer_ok (if ?b then _ else _) => destruct b end; try done;
      first [by apply applyServerRequestResolved_ok|by apply applyThreadStatus_ok|by apply applyPlanUpdate_ok|by apply applyTurnStarted_ok
            |by apply applyTurnCompleted_ok|by apply applyItemStarted_ok|by apply applyItemCompleted_ok|idtac].
    destruct (decodeRateLimits json _) as [limits|]; [|done]. destruct (_ && _); [done|]. by apply applyRateLimits_ok.
  - by destruct (reconcileThreads_ok threadIDs r H); split.
  - by apply applyThreadSnapshot_ok.
  - destruct limits as [limits|]; [|done]. destruct (qo_Enabled _); [|done]. by apply applyRateLimits_ok.
Qed.
End Clock.

Lemma worker_reducer_ok config now : reducer_ok (worker_reducer config now).
Proof.
  split; cbn; try done. split; [|apply codexMarkSource_canonical]. by split; split; vm_compute.
Qed.

Lemma set_pinned_ok threadID r : reducer_ok r -> reducer_ok (set_pinned threadID r).
Proof. by intros []; split. Qed.

Lemma reducer_reached_ok config r : reducer_reached config r -> reducer_ok r.
Proof.
  induction 1 as [now|r r' _ IH Hs]; [apply worker_reducer_ok|]. destruct Hs as [clock event Hclock|threadID|threadID|].
  - by apply Apply_ok.
  - unfold PinThread. destruct (negb _); [done|]. destruct (r_threads r !! threadID) as [t|]; [|done]. destruct (is_active t); [|done].
    by apply set_pinned_ok.
  - by apply set_pinned_ok.
  - by apply set_pinned_ok.
Qed.
End Invariant.
