(* ===== verification/CodexSessions.v ===== *)
(** * Interactive sessions of the Codex plugin stay in bounds and say what they do

    What holds of every session that is reached from one that was opened: no index is out of
    range, what is answered was shown, and questions are answered completely. *)

From Stdlib Require Import ZArith Lia ZifyBool.
From S2P Require Import Prelude GoStrings GoTime GoJson Identifier GoEncoding Protocol ProtocolSession SessionRuntime JsonText GoText CodexUsage CodexReducer CodexCards CodexScenes Actions CodexPublisher CodexInteraction CodexInvariant.

(** A label among the options of a question that are answered on the device. *)
Definition offered (question : typedQuestion) (label : string) : Prop :=
  exists option, option ∈ tq_Options question /\ ro_Label option = label /\ ro_AnswerInCodex option = false.

Record asking (s : interactionSession) (questions : list typedQuestion) : Prop := {
  ak_question : exists question, at_index questions (is_questionIndex s) = Some question
    /\ 0 <= is_choiceIndex s < Z.of_nat (length (tq_Options question));
  ak_review : is_review s = true -> 0 <= is_reviewIndex s < Z.of_nat (length questions);
  ak_answered : forall index question, questions !! index = Some question ->
    is_review s = true \/ Z.of_nat index < is_questionIndex s -> is_Some (is_answers s !! tq_ID question);
  ak_offered : forall id label, is_answers s !! id = Some label ->
    exists question, question ∈ questions /\ tq_ID question = id /\ offered question label;
}.

Record session_ok (s : interactionSession) : Prop := {
  so_request : forall request, is_request s = Some request ->
    request_ok request /\ is_threadID s = EmptyString
    /\ is_actions s = (if pr_Interactive request then pr_Actions request else []);
  so_asking : forall questions, asked s = Some questions -> asking s questions /\ is_staged s = false;
  so_action : match is_actions s with
              | [] => is_staged s = false
              | actions => 0 <= is_actionIndex s < Z.of_nat (length actions)
              end;
  so_target : is_request s = None ->
    if is_threadID s =s EmptyString then is_actions s = [] else is_actions s = ["interrupt"%string];
}.

(** Every session that is reached: opened on a reducer and a publisher, moved by inputs,
    refreshed with a new card, and released when the daemon refuses an execution. *)
Inductive session_reached (json : decoders) (sha256 : string -> list Z) : interactionSession -> Prop :=
  | session_opened config r p token trigger sensitive current clock clock' s :
      reducer_reached json sha256 config r -> open_session sha256 clock clock' token trigger sensitive current r p = inl s ->
      session_reached json sha256 s
  | session_moved s input decision s' :
      session_reached json sha256 s -> decide_input input s = Some (decision, s') -> session_reached json sha256 s'
  | session_refreshed s card : session_reached json sha256 s -> session_reached json sha256 (set_session_card card s)
  | session_released s :
      session_reached json sha256 s -> session_reached json sha256 (set_action (is_actionIndex s) (is_staged s) false s).

(** ** Indices *)

Lemma at_index_Some {A} (l : list A) index : 0 <= index < Z.of_nat (length l) -> exists x, at_index l index = Some x.
Proof.
  intros H. unfold at_index. replace (index <? 0) with false by lia. apply lookup_lt_is_Some. lia.
Qed.

Lemma at_index_inv {A} (l : list A) index x : at_index l index = Some x ->
  0 <= index < Z.of_nat (length l) /\ l !! Z.to_nat index = Some x.
Proof. unfold at_index. destruct (Z.ltb_spec index 0); [done|]. intros Hl. pose proof (lookup_lt_Some _ _ _ Hl). split; [lia|done]. Qed.

Lemma at_index_nat {A} (l : list A) index : at_index l (Z.of_nat index) = l !! index.
Proof. unfold at_index. replace (Z.of_nat index <? 0) with false by lia. by rewrite Nat2Z.id. Qed.

Lemma at_index_in {A} (l : list A) index x : at_index l index = Some x -> x ∈ l.
Proof. intros [_ H]%at_index_inv. by apply list_elem_of_lookup_2 in H. Qed.

Lemma wrappedIndex_bounds index length : 0 < length -> 0 <= wrappedIndex index length < length.
Proof.
  intros Hl. unfold wrappedIndex. replace (length <=? 0) with false by lia.
  pose proof (Z.rem_bound_abs index length ltac:(lia)). destruct (Z.ltb_spec (Z.rem index length) 0); lia.
Qed.

Lemma answerChoiceIndex_bounds index s questions question : asked s = Some questions -> at_index questions index = Some question ->
  tq_Options question <> [] -> 0 <= answerChoiceIndex index s < Z.of_nat (length (tq_Options question)).
Proof.
  intros Ha Hq Hn. assert (Hpos : 0 < Z.of_nat (length (tq_Options question))) by (destruct (tq_Options question); [done|cbn; lia]).
  unfold asked in Ha. unfold answerChoiceIndex. destruct (is_request s) as [request|]; [|done]. cbn in Ha.
  destruct (bool_decide _ && _); [|done]. injection Ha as <-. destruct (_ || _); [lia|]. rewrite Hq.
  destruct (list_find _ _) as [[i option]|] eqn:Hf; [|lia]. apply list_find_Some in Hf as [Hl _]. apply lookup_lt_Some in Hl. lia.
Qed.

Lemma asked_request s questions : asked s = Some questions -> exists request, is_request s = Some request
  /\ pr_Kind request = requestQuestion /\ pr_Interactive request = true /\ questions = pr_Questions request.
Proof.
  unfold asked. destruct (is_request s) as [request|]; [|done]. cbn. destruct (bool_decide _ && _) eqn:H; [|done].
  apply andb_prop in H as [Hk%bool_decide_eq_true Hi]. intros [= <-]. eauto.
Qed.

Lemma asked_ok s questions : session_ok s -> asked s = Some questions -> questions_ok questions /\ is_actions s = [].
Proof.
  intros Hs (request & Hr & Hk & Hi & ->)%asked_request. destruct (so_request _ Hs _ Hr) as (Hok & _ & Ha).
  unfold request_ok in Hok. rewrite Hk in Hok. rewrite Hi in Ha. destruct Hok as [He Hq]. split; [by apply Hq|congruence].
Qed.

Lemma question_at questions index question : questions_ok questions -> at_index questions index = Some question -> question_ok question.
Proof. intros [_ _ Hf _] Hin%at_index_in. rewrite Forall_forall in Hf. by apply Hf. Qed.

(** ** Moving *)

(** Only the position of a session on questions changes. *)
Lemma question_position_ok qi ci review ri answers s : session_ok s ->
  (forall questions, asked s = Some questions -> asking (set_position qi ci review ri answers s) questions) ->
  session_ok (set_position qi ci review ri answers s).
Proof.
  intros [Hr Ha Hc Ht] H. split; [exact Hr| |exact Hc|exact Ht]. intros questions Hq. split; [by apply H|]. by destruct (Ha questions Hq).
Qed.

Lemma set_action_ok index staged processing s : session_ok s -> asked s = None -> is_actions s <> [] ->
  0 <= index < Z.of_nat (length (is_actions s)) -> session_ok (set_action index staged processing s).
Proof.
  intros [Hr Ha Hc Ht] Hn He Hi. split; [exact Hr| | |exact Ht]; cbn [is_actions set_action is_staged is_actionIndex].
  - intros questions Hq. change (asked s = Some questions) in Hq. congruence.
  - by destruct (is_actions s).
Qed.

Lemma set_processing_ok processing s : session_ok s -> session_ok (set_action (is_actionIndex s) (is_staged s) processing s).
Proof.
  intros [Hr Ha Hc Ht]. split; [exact Hr| |exact Hc|exact Ht]. intros questions Hq. by destruct (Ha questions Hq) as [[] ?]; split; [split|].
Qed.

(** Going to a question that earlier ones were answered before. *)
Lemma move_ok index review' s answers questions : session_ok s -> asked s = Some questions ->
  is_Some (at_index questions index) ->
  (forall i question, questions !! i = Some question -> Z.of_nat i < index -> is_Some (answers !! tq_ID question)) ->
  (forall id label, answers !! id = Some label ->
     exists question, question ∈ questions /\ tq_ID question = id /\ offered question label) ->
  let s' := set_position index (is_choiceIndex s) false review' answers s in
  session_ok (set_choice (answerChoiceIndex index s') s').
Proof.
  intros Hs Hq [question Hat] Hans Hoff s'. destruct (asked_ok _ _ Hs Hq) as [Hqs _].
  apply (question_position_ok _ _ false review' answers s); [done|]. intros questions' Hq'. assert (questions' = questions) as -> by congruence.
  split; cbn [set_position is_questionIndex is_choiceIndex is_review is_answers is_reviewIndex]; [|done| |done].
  - exists question. split; [done|]. apply (answerChoiceIndex_bounds index s' questions); [done|done|]. by apply (question_at questions index).
  - intros i q Hi [?|Hlt]; [done|]. by apply (Hans i q).
Qed.

Lemma navigate_ok delta s : session_ok s -> exists refresh s', navigate delta s = Some (refresh, s') /\ session_ok s'.
Proof.
  intros Hs. unfold navigate. destruct ((delta =? 0) || is_staged s); [eauto|]. destruct (asked s) as [questions|] eqn:Hq.
  - destruct (so_asking _ Hs _ Hq) as [Hask _]. destruct (asked_ok _ _ Hs Hq) as [Hqs _]. destruct Hask as [(question & Hat & Hc) Hr Han Hoff].
    destruct (is_review s) eqn:Hrev.
    + eexists _, _. split; [reflexivity|]. apply question_position_ok; [done|]. intros questions' Hq'. assert (questions' = questions) as -> by congruence.
      split; cbn; [eauto| |done|done]. intros _. apply wrappedIndex_bounds. destruct questions; [|cbn; lia]. by destruct (qs_some _ Hqs).
    + rewrite Hat. cbn. eexists _, _. split; [reflexivity|]. apply question_position_ok; [done|]. intros questions' Hq'.
      assert (questions' = questions) as -> by congruence. split; cbn; rewrite ?Hrev; try done.
      exists question. split; [done|]. apply wrappedIndex_bounds. lia.
  - destruct (is_actions s) as [|action actions] eqn:Ha; [eauto|]. eexists _, _. split; [reflexivity|].
    apply set_action_ok; [done|done|by rewrite Ha|]. rewrite Ha. apply wrappedIndex_bounds. cbn. lia.
Qed.

Lemma responseEffect_ok s : session_ok s -> asked s <> None \/ is_actions s <> [] -> exists effect, responseEffect s = Some effect.
Proof.
  intros Hs Hn. unfold responseEffect. destruct (is_request s) as [request|] eqn:Hr; [|eauto].
  assert (Hact : is_actions s <> [] -> exists action, at_index (is_actions s) (is_actionIndex s) = Some action).
  { intros He. apply at_index_Some. pose proof (so_action _ Hs) as H. by destruct (is_actions s). }
  assert (Hq : pr_Kind request <> requestQuestion -> is_actions s <> []).
  { intros Hk. destruct Hn as [Ha|Ha]; [|done]. destruct (asked s) as [questions|] eqn:Hask; [|done].
    apply asked_request in Hask as (request' & Hr' & Hk' & _). congruence. }
  destruct (pr_Kind request); cbn; try (destruct Hact as [action Ha]; [by apply Hq|]; rewrite Ha; cbn); eauto.
Qed.

Lemma activate_ok s : session_ok s -> exists effect refresh s', activate s = Some (effect, refresh, s') /\ session_ok s'.
Proof.
  intros Hs. unfold activate. destruct (asked s) as [questions|] eqn:Hq.
  - destruct (so_asking _ Hs _ Hq) as [Hask _]. destruct (asked_ok _ _ Hs Hq) as [Hqs _].
    destruct (is_review s) eqn:Hrev.
    { destruct (responseEffect_ok s Hs) as [effect He]; [left; congruence|]. rewrite He. cbn. eauto. }
    destruct Hask as [(question & Hat & Hc) Hr Han Hoff]. rewrite Hat. cbn. destruct (at_index_Some _ _ Hc) as [option Ho]. rewrite Ho. cbn.
    destruct (ro_AnswerInCodex option) eqn:Hcodex; [eauto|].
    assert (Han' : forall i q, questions !! i = Some q -> Z.of_nat i < is_questionIndex s + 1 ->
      is_Some (<[tq_ID question := ro_Label option]> (is_answers s) !! tq_ID q)).
    { intros i q Hi Hlt. apply lookup_insert_is_Some'. destruct (decide (Z.of_nat i = is_questionIndex s)) as [He|He].
      - left. rewrite <- He, at_index_nat in Hat. congruence.
      - right. apply (Han i q Hi). right. lia. }
    assert (Hoff' : forall id label, <[tq_ID question := ro_Label option]> (is_answers s) !! id = Some label ->
      exists q, q ∈ questions /\ tq_ID q = id /\ offered q label).
    { intros id label [[<- <-] | [_ Hl]]%lookup_insert_Some; [|by apply Hoff]. exists question.
      split; [by apply (at_index_in _ _ _ Hat)|]. split; [done|]. exists option. split; [by apply (at_index_in _ _ _ Ho)|done]. }
    destruct (Z.ltb_spec (is_questionIndex s) (Z.of_nat (length questions) - 1)) as [Hlast|Hlast].
    + eexists _, _, _. split; [reflexivity|]. apply (move_ok (is_questionIndex s + 1) _ s _ questions); [done|done| |done|done].
      apply at_index_inv in Hat as [Hb _]. apply at_index_Some. lia.
    + eexists _, _, _. split; [reflexivity|]. apply question_position_ok; [done|]. intros questions' Hq'. assert (questions' = questions) as -> by congruence.
      split; cbn; [eauto| | |done].
      * intros _. apply at_index_inv in Hat as [Hb _]. lia.
      * intros i q Hi _. apply (Han' i q Hi). apply lookup_lt_Some in Hi. lia.
  - destruct (is_actions s) as [|action actions] eqn:Ha; [eauto|].
    assert (Hidx : 0 <= is_actionIndex s < Z.of_nat (length (is_actions s))) by (pose proof (so_action _ Hs) as H; rewrite Ha in H |- *; done).
    destruct (is_staged s); cbn [negb].
    + destruct (is_threadID s =s EmptyString); cbn [negb]; [|eauto]. destruct (responseEffect_ok s Hs) as [effect He]; [right; by rewrite Ha|].
      rewrite He. cbn. eauto.
    + eexists _, _, _. split; [reflexivity|]. apply set_action_ok; [done|done|by rewrite Ha|done].
Qed.

Lemma questionBack_ok s : session_ok s -> session_ok (questionBack s).2.
Proof.
  intros Hs. unfold questionBack. destruct (asked s) as [questions|] eqn:Hq; [|done].
  destruct (so_asking _ Hs _ Hq) as [[(question & Hat & Hc) Hr Han Hoff] _]. destruct (asked_ok _ _ Hs Hq) as [Hqs _].
  apply at_index_inv in Hat as [Hb _]. destruct (is_review s) eqn:Hrev; cbn [snd].
  - apply (move_ok _ _ s _ questions); [done|done|apply at_index_Some; lia| |done]. intros i q Hi _. apply (Han i q Hi). by left.
  - destruct (Z.eqb_spec (is_questionIndex s) 0); [done|]. cbn [snd].
    apply (move_ok (is_questionIndex s - 1) _ s _ questions); [done|done|apply at_index_Some; lia| |done]. intros i q Hi Hlt. apply (Han i q Hi). right. lia.
Qed.

Lemma decide_input_ok input s : session_ok s -> exists decision s', decide_input input s = Some (decision, s') /\ session_ok s'.
Proof.
  intros Hs. unfold decide_input. destruct (in_Encoder input) as [encoder|].
  { destruct (navigate_ok (ei_Delta encoder) s Hs) as (refresh & s' & -> & Hs'). cbn. eauto. }
  destruct (in_Button input) as [button|]; [|eauto]. destruct (bi_Action button =s ButtonPress); cbn [negb]; [|eauto].
  destruct (bi_Button button =s ButtonBack).
  - destruct (is_staged s) eqn:Hst.
    + eexists _, _. split; [reflexivity|]. pose proof (so_action _ Hs) as Ha. destruct (asked s) as [questions|] eqn:Hq.
      { destruct (so_asking _ Hs _ Hq). congruence. }
      destruct (is_actions s) as [|action actions] eqn:Hac; [congruence|]. apply set_action_ok; [done|done|by rewrite Hac|by rewrite Hac].
    + pose proof (questionBack_ok s Hs) as Hb. destruct (questionBack s) as [refresh s']. cbn in Hb. eauto.
  - destruct (bi_Button button =s ButtonStart); [|eauto].
    destruct (activate_ok s Hs) as (effect & refresh & s' & -> & Hs'). cbn. eexists _, _. split; [reflexivity|].
    destruct effect; cbn; [by apply set_processing_ok|done].
Qed.

(** ** Opening *)

Lemma plain_session_ok s : is_request s = None -> is_threadID s = EmptyString -> is_actions s = [] -> is_staged s = false -> session_ok s.
Proof.
  intros Hr Ht Ha Hst. split; rewrite ?Ha; [congruence| |done|by rewrite Ht]. intros questions (request & Hr' & _)%asked_request. congruence.
Qed.

Lemma PendingRequest_in key r request : PendingRequest key r = Some request ->
  pr_Key request = key /\ exists id, r_pending r !! id = Some request.
Proof.
  unfold PendingRequest. destruct (List.filter _ _) as [|[id request'] rest] eqn:Hf; [done|]. cbn. intros [= <-].
  assert (Hin : In (id, request') (List.filter (fun kp => pr_Key kp.2 =s key) (map_to_list (r_pending r)))) by (rewrite Hf; by left).
  apply filter_In in Hin as [Hin Hk]. cbn in Hk. apply String.eqb_eq in Hk. split; [done|]. exists id.
  by apply elem_of_map_to_list, list_elem_of_In.
Qed.

Lemma InterruptTarget_some sha256 key r threadID turnID : InterruptTarget sha256 key r = Some (threadID, turnID) -> threadID <> EmptyString.
Proof.
  unfold InterruptTarget. destruct (List.filter _ _) as [|[id t] rest]; [done|]. destruct (th_LatestTurn t) as [turn|]; [|done].
  destruct (th_ID t =s EmptyString) eqn:He; [done|]. destruct (tn_ID turn =s EmptyString); [done|]. intros [= <- <-].
  by apply String.eqb_neq.
Qed.

Lemma bound_session_ok request token sha256 card sensitive launcher connection : request_ok request ->
  session_ok (set_target (Some request) (pr_Key request) EmptyString EmptyString (if pr_Interactive request then pr_Actions request else [])
                (new_session sha256 token card sensitive launcher connection)).
Proof.
  intros Hok. split; cbn [is_request set_target is_threadID is_actions is_staged is_actionIndex new_session]; [| | |done].
  - intros request' [= <-]. done.
  - intros questions Hq. pose proof Hq as (request' & Hr & Hk & Hi & ->)%asked_request. cbn in Hr. injection Hr as <-. split; [|done].
    unfold request_ok in Hok. rewrite Hk in Hok. destruct Hok as [_ Hqs]. specialize (Hqs Hi). destruct Hqs as [Hne _ Hf _].
    destruct (pr_Questions request) as [|question questions] eqn:Hpq; [done|]. inversion Hf as [|? ? Hqo _]; subst.
    split; cbn; [|done|by intros i q _ [?|?]; [done|lia]|done]. exists question. split; [done|].
    destruct Hqo as [Hopts _ _]. destruct (tq_Options question); [done|cbn; lia].
  - destruct (if pr_Interactive request then pr_Actions request else []); [done|cbn; lia].
Qed.

Lemma open_session_ok json sha256 config r p token trigger sensitive current clock clock' s : reducer_reached json sha256 config r ->
  open_session sha256 clock clock' token trigger sensitive current r p = inl s -> session_ok s.
Proof.
  intros Hr. apply reducer_reached_ok in Hr. unfold open_session. destruct (trigger_card _ _ _ _ _ _) as [card|]; [|done].
  destruct (is_some current); [done|].
  destruct (tr_Kind trigger =s SessionTriggerObservation); [|intros [= <-]; by apply plain_session_ok].
  unfold bind_target. destruct (PendingRequest (cd_Key card) r) as [request|] eqn:Hp.
  { intros [= <-]. apply PendingRequest_in in Hp as [_ [id Hp]]. apply bound_session_ok. by apply (rk_pending _ _ Hr _ _ Hp). }
  destruct (InterruptTarget sha256 (cd_Key card) r) as [[threadID turnID]|] eqn:Hi.
  { intros [= <-]. apply InterruptTarget_some in Hi. split; cbn; [done|done|lia|]. intros _. by rewrite (proj2 (String.eqb_neq _ _)). }
  destruct (_ && _); [done|]. intros [= <-]. by apply plain_session_ok.
Qed.

Lemma set_session_card_ok card s : session_ok s -> session_ok (set_session_card card s).
Proof.
  intros [Hr Ha Hc Ht]. split; [exact Hr| |exact Hc|exact Ht]. intros questions Hq. by destruct (Ha questions Hq) as [[] ?]; split; [split|].
Qed.

Lemma session_reached_ok json sha256 s : session_reached json sha256 s -> session_ok s.
Proof.
  induction 1 as [config r p token trigger sensitive current clock clock' s Hr Ho|s input decision s' _ IH Hd|s card _ IH|s _ IH].
  - by eapply open_session_ok.
  - destruct (decide_input_ok input s IH) as (decision' & s'' & Hd' & Hok). congruence.
  - by apply set_session_card_ok.
  - by apply set_processing_ok.
Qed.

(** ** Detail cards *)

Lemma position_good label index count : printable label = true -> len label <= 20 -> good_text (position label index count).
Proof.
  intros Hp Hl. unfold position. pose proof (len_format_int index). pose proof (len_format_int count). apply printable_good.
  - by rewrite !printable_app, Hp, !format_int_printable.
  - rewrite !len_app. change (len "/") with 1. unfold MaxTextBytes. lia.
Qed.

(** A card that the publisher shows by its own scene, or by the scene of its words. *)
Definition shown_well (card : Card) : Prop := scene_Elements (cd_Scene card) = [] \/ ValidScene (cd_Scene card).

Lemma shown_well_valid card : shown_well card -> ValidScene (cardPresentation card).
Proof.
  intros H. unfold cardPresentation. destruct (Z.eqb_spec (Z.of_nat (length (scene_Elements (cd_Scene card)))) 0) as [He|He]; cbn [negb].
  - apply cardScene_valid_lemma.
  - destruct H as [H|H]; [by rewrite H in He|done].
Qed.

(** What every detail card of a session has. *)
Definition detail_of (now : Time) (s : interactionSession) (card : Card) : Prop :=
  cd_Channel card = ChannelDetail /\ cd_Key card = is_detailKey s
  /\ cd_ObservedAt card = UTC now /\ cd_ValidUntil card = Add (UTC now) (24 * Hour)
  /\ cd_ReasonCode card = "codex_detail"%string /\ shown_well card
  /\ cd_Disposition card ∈ [DispositionSnapshot; DispositionActionable]
  /\ cd_Impact card ∈ [cd_Impact (is_card s); ImpactCritical].

Lemma question_detail_ok now questions s card : session_ok s -> asked s = Some questions -> detail_of now s card ->
  exists card', question_detail questions s card = Some card' /\ detail_of now s card'.
Proof.
  intros Hs Hq (H1 & H2 & H3 & H4 & H5 & H6 & H7 & H8). destruct (so_asking _ Hs _ Hq) as [[(question & Hat & Hc) Hr _ _] _].
  destruct (asked_ok _ _ Hs Hq) as [Hqs _]. unfold question_detail. destruct (is_review s).
  - destruct (at_index_Some _ _ (Hr eq_refl)) as [question' Hat']. rewrite Hat'. cbn [mbind option_bind]. eexists. split; [reflexivity|].
    split_and!; try done; [|apply (bool_decide_unpack _); by vm_compute]. right. apply answerReviewScene_valid. by apply position_good; vm_compute.
  - rewrite Hat. cbn [mbind option_bind]. destruct (at_index_Some _ _ Hc) as [option Ho]. rewrite Ho. cbn [mbind option_bind]. eexists. split; [reflexivity|].
    split_and!; try done; [|apply (bool_decide_unpack _); by vm_compute]. right.
    apply typedQuestionScene_valid; [by apply position_good; vm_compute..|].
    pose proof (qo_labels _ (question_at _ _ _ Hqs Hat)) as Hl. rewrite Forall_forall in Hl. apply Hl. by apply (at_index_in _ _ _ Ho).
Qed.

Lemma action_detail_ok now s card : session_ok s -> has_actions s = true -> detail_of now s card ->
  exists card', action_detail s card = Some card' /\ detail_of now s card'.
Proof.
  intros Hs Ha (H1 & H2 & H3 & H4 & H5 & H6 & H7 & H8). pose proof (so_action _ Hs) as Hi. unfold has_actions in Ha. unfold action_detail.
  destruct (is_actions s) as [|action actions]; [done|]. destruct (at_index_Some _ _ Hi) as [x ->]. cbn. eexists. split; [reflexivity|].
  split_and!; try done. apply (bool_decide_unpack _). by vm_compute.
Qed.

Lemma detailCard_ok decodeContext now s : session_ok s ->
  exists card, detailCard decodeContext now s = Some card /\ detail_of now s card.
Proof.
  intros Hs. assert (Hbase : detail_of now s (detail_base now s)).
  { split_and!; try done; [by left|apply (bool_decide_unpack _); by vm_compute|apply list_elem_of_here]. }
  unfold detailCard. set (body := match is_request s with Some request => _ | None => _ end).
  assert (Hbody : exists card, body = Some card /\ detail_of now s card).
  { unfold body. destruct (is_request s) as [request|].
    - assert (Hctx : detail_of now s (cd_set_context (requestContext decodeContext request (is_sensitive s)) (detail_base now s))) by exact Hbase.
      destruct (asked s) as [questions|] eqn:Hq; [by apply question_detail_ok|].
      destruct (pr_Interactive request && has_actions s) eqn:Ha; [apply andb_prop in Ha as [_ Ha]; by apply action_detail_ok|].
      eexists. split; [reflexivity|exact Hbase].
    - destruct (has_actions s) eqn:Ha; [by apply action_detail_ok|eauto]. }
  destruct Hbody as (card & -> & H1 & H2 & H3 & H4 & H5 & H6 & H7 & H8). cbn [mbind option_bind].
  destruct (is_staged s) eqn:Hst; [|eexists; split; [reflexivity|by split_and!]].
  pose proof (so_action _ Hs) as Hi. destruct (is_actions s) as [|action actions]; [congruence|].
  destruct (at_index_Some _ _ Hi) as [x ->]. cbn. eexists. split; [reflexivity|]. split_and!; try done. right. apply list_elem_of_here.
Qed.

(** ** Properties *)

(** C34: No input panics in any session that is reached, whatever the app server asked: every
    index into questions, options and actions is in range, and the session has a detail
    card whose scene the daemon accepts. *)
Theorem session_in_bounds json sha256 decodeContext (s : interactionSession) :
  session_reached json sha256 s ->
  (forall input, is_Some (decide_input input s))
  /\ (forall now, exists card, detailCard decodeContext now s = Some card
       /\ cd_Channel card = ChannelDetail /\ cd_Key card = is_detailKey s /\ ValidScene (cardPresentation card)).
Proof.
  intros Hs%session_reached_ok. split.
  - intros input. destruct (decide_input_ok input s Hs) as (decision & s' & -> & _). eauto.
  - intros now. destruct (detailCard_ok decodeContext now s Hs) as (card & -> & H1 & H2 & _ & _ & _ & Hw & _).
    exists card. split_and!; try done. by apply shown_well_valid.
Qed.

(** The START press behind an effect. *)
Lemma effect_activates input s decision s' effect : decide_input input s = Some (decision, s') -> de_effect decision = Some effect ->
  exists refresh s'', activate s = Some (Some effect, refresh, s'').
Proof.
  unfold decide_input. destruct (in_Encoder input) as [encoder|].
  { destruct (navigate _ s) as [[refresh s'']|]; [|done]. cbn. by intros [= <- <-]. }
  destruct (in_Button input) as [button|]; [|by intros [= <- <-]]. destruct (negb _); [by intros [= <- <-]|].
  destruct (bi_Button button =s ButtonBack).
  { destruct (is_staged s); [by intros [= <- <-]|]. destruct (questionBack s) as [[|] s'']; by intros [= <- <-]. }
  destruct (bi_Button button =s ButtonStart); [|by intros [= <- <-]].
  destruct (activate s) as [[[effect' refresh] s'']|]; [|done]. cbn. intros [= <- <-]. cbn. intros ->. eauto.
Qed.

(** A session without questions sends no answers. *)
Lemma actions_no_answers s effect refresh s' answers : session_ok s -> asked s = None ->
  (match is_actions s with
   | [] => Some (None, false, s)
   | _ => if negb (is_staged s) then Some (None, true, set_action (is_actionIndex s) true (is_processing s) s)
          else if negb (is_threadID s =s EmptyString)
          then Some (Some (mkInteractionEffect false no_id None (is_threadID s) (is_turnID s)), false, s)
          else effect ← responseEffect s; Some (effect, false, s)
   end) = Some (Some effect, refresh, s') -> ie_result effect <> Some (AnswersResult answers).
Proof.
  intros Hs Hq Hact. destruct (is_actions s) as [|action actions] eqn:Hac; [done|]. destruct (negb (is_staged s)); [done|].
  destruct (negb _); [by injection Hact as <- _ _|]. unfold responseEffect in Hact. destruct (is_request s) as [request|] eqn:Hr; [|done].
  destruct (pr_Kind request) eqn:Hk; cbn in Hact; try (destruct (at_index _ _); [|done]; cbn in Hact; by injection Hact as <- _ _).
  destruct (so_request _ Hs _ Hr) as (Hok & _ & Hacts). unfold request_ok in Hok. rewrite Hk in Hok. destruct Hok as [Hnone _].
  rewrite Hac, Hnone in Hacts. by destruct (pr_Interactive request).
Qed.

(** C22: When a session answers a question request it has shown the review, and the answer has
    every question of the request, once, each with one of the options that the question
    offers on the device, under the identifier of the request. *)
Theorem answers_complete json sha256 (s s' : interactionSession) input decision effect answers :
  session_reached json sha256 s -> decide_input input s = Some (decision, s') ->
  de_effect decision = Some effect -> ie_result effect = Some (AnswersResult answers) ->
  exists request, is_request s = Some request /\ ie_requestID effect = pr_ID request /\ is_review s = true
    /\ dom answers = list_to_set (C := gset string) (map tq_ID (pr_Questions request)) /\ NoDup (map tq_ID (pr_Questions request))
    /\ (forall question, question ∈ pr_Questions request ->
          exists label, answers !! tq_ID question = Some label /\ offered question label).
Proof.
  intros Hs%session_reached_ok Hd He Ha. destruct (effect_activates _ _ _ _ _ Hd He) as (refresh & s'' & Hact). clear Hd He.
  unfold activate in Hact. destruct (asked s) as [questions|] eqn:Hq; [|exfalso; by eapply actions_no_answers].
  pose proof Hq as (request & Hr & Hk & Hi & ->)%asked_request. destruct (so_asking _ Hs _ Hq) as [[_ _ Han Hoff] _].
  destruct (asked_ok _ _ Hs Hq) as [[_ _ _ Hids] _]. exists request. destruct (is_review s) eqn:Hrev.
  - unfold responseEffect in Hact. rewrite Hr, Hk in Hact. cbn in Hact. injection Hact as <- _ _. cbn in Ha. injection Ha as <-.
    assert (Hall : forall question, question ∈ pr_Questions request -> exists label, is_answers s !! tq_ID question = Some label /\ offered question label).
    { intros question Hin. pose proof Hin as (i & Hl)%list_elem_of_lookup_1. destruct (Han i question Hl) as [label Hlab]; [by left|].
      exists label. split; [done|]. destruct (Hoff _ _ Hlab) as (question' & Hin' & Hid & Ho).
      by assert (question' = question) as -> by (by eapply (NoDup_map_inj tq_ID)). }
    split_and!; try done. apply set_eq. intros id. rewrite elem_of_dom, elem_of_list_to_set, list_elem_of_fmap. split.
    + intros [label Hlab]. destruct (Hoff _ _ Hlab) as (question & Hin & <- & _). eauto.
    + intros (question & -> & Hin). destruct (Hall question Hin) as (label & -> & _). eauto.
  - exfalso. destruct (at_index (pr_Questions request) _) as [question|]; [|done]. cbn in Hact.
    destruct (at_index (tq_Options question) _) as [option|]; [|done]. cbn in Hact.
    destruct (ro_AnswerInCodex option); [by injection Hact as <- _ _|]. by destruct (_ <? _).
Qed.

Definition confirmable : list string := "interrupt"%string :: known_actions.

(** What sending an action to the app server means. *)
Definition effect_of (action : string) (s : interactionSession) : interactionEffect :=
  match is_request s with
  | Some request =>
    mkInteractionEffect false (pr_ID request)
      (Some (match pr_Kind request with
             | requestPermission => PermissionsResult (if action =s "grantTurn" then pr_Permissions request else "{}") "turn"
             | _ => DecisionResult action
             end)) EmptyString EmptyString
  | None => mkInteractionEffect false no_id None (is_threadID s) (is_turnID s)
  end.

Lemma actions_confirmable s action : session_ok s -> asked s = None -> at_index (is_actions s) (is_actionIndex s) = Some action ->
  action ∈ confirmable /\ forall request, is_request s = Some request -> pr_Kind request <> requestQuestion.
Proof.
  intros Hs Hq Hat%at_index_in. destruct (is_request s) as [request|] eqn:Hr.
  - destruct (so_request _ Hs _ Hr) as (Hok & _ & Ha). rewrite Ha in Hat. destruct (pr_Interactive request); [|by apply elem_of_nil in Hat].
    unfold request_ok in Hok. destruct (pr_Kind request) eqn:Hk;
      try (destruct Hok as [Hf _]; rewrite Forall_forall in Hf; split; [right; by apply Hf|intros ? [= <-]; congruence]).
    destruct Hok as [Hn _]. by rewrite Hn in Hat; apply elem_of_nil in Hat.
  - pose proof (so_target _ Hs Hr) as Ht. destruct (is_threadID s =s EmptyString); rewrite Ht in Hat; [by apply elem_of_nil in Hat|].
    apply list_elem_of_singleton in Hat as ->. split; [apply list_elem_of_here|done].
Qed.

Lemma actionLabel_inj a b : a ∈ confirmable -> b ∈ confirmable -> actionLabel a = actionLabel b -> a = b.
Proof.
  assert (H : Forall (fun a => Forall (fun b => actionLabel a = actionLabel b -> a = b) confirmable) confirmable).
  { apply (bool_decide_unpack _). by vm_compute. }
  intros Ha Hb. rewrite Forall_forall in H. specialize (H a Ha). rewrite Forall_forall in H. by apply H.
Qed.

(** The effect of START on a session whose action is staged. *)
Lemma staged_effect s effect refresh s' : session_ok s -> asked s = None -> activate s = Some (Some effect, refresh, s') ->
  is_staged s = true /\ exists action, at_index (is_actions s) (is_actionIndex s) = Some action /\ effect = effect_of action s.
Proof.
  intros Hs Hq Hact. unfold activate in Hact. rewrite Hq in Hact. destruct (is_actions s) as [|first actions] eqn:Hac; [done|].
  destruct (is_staged s) eqn:Hst; cbn [negb] in Hact; [|done]. split; [done|].
  assert (Hidx : exists action, at_index (is_actions s) (is_actionIndex s) = Some action).
  { apply at_index_Some. pose proof (so_action _ Hs) as H. by rewrite Hac in H |- *. }
  destruct Hidx as [action Hat]. destruct (actions_confirmable s action Hs Hq Hat) as [_ Hnq]. exists action. rewrite <- Hac. split; [done|]. unfold effect_of.
  destruct (is_request s) as [request|] eqn:Hr.
  - destruct (so_request _ Hs _ Hr) as (_ & Ht & _). rewrite Ht in Hact. unfold responseEffect in Hact. rewrite Hr, Hat in Hact.
    specialize (Hnq request eq_refl). destruct (pr_Kind request); cbn in Hact; by injection Hact as <- _ _.
  - pose proof (so_target _ Hs Hr) as Ht. destruct (is_threadID s =s EmptyString); [congruence|]. cbn in Hact. by injection Hact as <- _ _.
Qed.

Lemma detail_staged decodeContext now s action : session_ok s -> is_staged s = true ->
  at_index (is_actions s) (is_actionIndex s) = Some action ->
  exists card, detailCard decodeContext now s = Some card
    /\ cd_DetailLine card = "PLAY: CONFIRM " +:+ actionLabel action /\ cd_Impact card = ImpactCritical.
Proof.
  intros Hs Hst Hat. destruct (detailCard_ok decodeContext now s Hs) as (card & Hcard & _). exists card. split; [exact Hcard|].
  unfold detailCard in Hcard. destruct (match is_request s with Some request => _ | None => _ end) as [body|]; [|done].
  cbn [mbind option_bind] in Hcard. rewrite Hst, Hat in Hcard. cbn [mbind option_bind] in Hcard. by injection Hcard as <-.
Qed.

(** C12: Nothing is approved, declined or interrupted by accident: an action is sent only for a
    session whose detail card asks to confirm exactly that action, and what is sent is that
    action on the target of the session. *)
Theorem confirmed_action_shown json sha256 decodeContext (s s' : interactionSession) input decision effect :
  session_reached json sha256 s -> decide_input input s = Some (decision, s') -> de_effect decision = Some effect ->
  asked s = None ->
  exists action, action ∈ confirmable /\ effect = effect_of action s
    /\ forall now, exists card, detailCard decodeContext now s = Some card /\ cd_Impact card = ImpactCritical
       /\ cd_DetailLine card = "PLAY: CONFIRM " +:+ actionLabel action
       /\ forall other, other ∈ confirmable -> cd_DetailLine card = "PLAY: CONFIRM " +:+ actionLabel other -> other = action.
Proof.
  intros Hs%session_reached_ok Hd He Hq. destruct (effect_activates _ _ _ _ _ Hd He) as (refresh & s'' & Hact).
  destruct (staged_effect s effect refresh s'' Hs Hq Hact) as (Hst & action & Hat & Heff).
  destruct (actions_confirmable s action Hs Hq Hat) as [Hin _]. exists action. split_and!; [done|done|]. intros now.
  destruct (detail_staged decodeContext now s action Hs Hst Hat) as (card & Hcard & Hline & Himpact). exists card. split_and!; try done.
  intros other Ho Hl. rewrite Hline in Hl. apply actionLabel_inj; [done..|]. cbn [String.append] in Hl. by injection Hl.
Qed.

(** ** Sessions on a question and on a command *)

Fixpoint run_inputs (inputs : list SessionInput) (s : interactionSession) : option interactionSession :=
  match inputs with
  | [] => Some s
  | input :: inputs => '(_, s) ← decide_input input s; run_inputs inputs s
  end.

Lemma run_inputs_reached json sha256 inputs : forall s s', session_reached json sha256 s -> run_inputs inputs s = Some s' ->
  session_reached json sha256 s'.
Proof.
  induction inputs as [|input inputs IH]; intros s s' Hs; cbn [run_inputs]; [by intros [= <-]|].
  destruct (decide_input input s) as [[decision s'']|] eqn:Hd; [|done]. cbn. apply IH. by eapply session_moved.
Qed.

Definition demo_option (label : string) : optionParams := mkOptionParams label "an option".
Definition demo_questions : list questionParams :=
  [mkQuestionParams "size" "Size" "How large?" false false [demo_option "small"; demo_option "large"];
   mkQuestionParams "colour" "Colour" "Which colour?" true false [demo_option "red"; demo_option "blue"]].
Definition demo_json : decoders :=
  mkDecoders (fun _ => None) (fun _ => None) (fun _ => None) (fun _ => None) (fun _ => None) (fun _ => None)
    (fun _ => Some (mkRequestParams "thread" "turn" "item" None)) (fun _ => None) (fun _ => Some None) (fun _ => Some demo_questions)
    (fun _ => None).
Definition demo_sha (s : string) : list Z := take 32 (bytes_of s ++ replicate 32 0).
Definition demo_time : Time := mkTime (2000 * Second) 0.
Definition demo_config : Config := mkConfig true false 20 5.
Definition demo_request (method : string) : Reducer :=
  Apply demo_json demo_sha (fun _ => demo_time) (ManagerIncoming (mkIncoming IncomingServerRequest (mkRawID "7" 1) method "{}"))
    (Apply demo_json demo_sha (fun _ => demo_time) (ManagerConnected 1) (worker_reducer demo_config demo_time)).
Definition demo_publisher (r : Reducer) : cardPublisher :=
  rn_state (Publish (fun _ w => (None, w)) (fun w => (w, w)) (Cards demo_sha demo_time r)
              (mkRun (newCardPublisher true (mkInstanceRef "codex" 1)) [] demo_time)).2.
Definition demo_trigger : SessionTrigger :=
  mkSessionTrigger SessionTriggerObservation (Some (mkObservationRef ChannelAttention (observationKey demo_sha "request" "7") 1)).
Definition demo_start : SessionInput := mkSessionInput (Some (mkButtonInput ButtonStart ButtonPress)) None.
Definition demo_turn : SessionInput := mkSessionInput None (Some (mkEncoderInput (-1))).

(** A session on a request of a method, after some inputs. *)
Definition demo_session (method : string) (inputs : list SessionInput) : option interactionSession :=
  match open_session demo_sha demo_time demo_time "token" demo_trigger true None (demo_request method) (demo_publisher (demo_request method)) with
  | inl s => run_inputs inputs s
  | inr _ => None
  end.

Lemma demo_session_reached method inputs s : demo_session method inputs = Some s -> session_reached demo_json demo_sha s.
Proof.
  unfold demo_session. destruct (open_session _ _ _ _ _ _ _ _ _) as [s0|] eqn:Ho; [|done]. intros Hi.
  eapply run_inputs_reached; [|exact Hi]. eapply (session_opened demo_json demo_sha demo_config (demo_request method)); [|exact Ho].
  eapply reached_step; [eapply reached_step; [apply reached_new|]|]; by apply step_apply.
Qed.

Definition demo_ask : string := "item/tool/requestUserInput".
Definition demo_command : string := "item/commandExecution/requestApproval".

Lemma session_in_bounds_witness : exists s, demo_session demo_ask [demo_turn; demo_start; demo_start] = Some s /\ is_review s = true
  /\ (forall input, is_Some (decide_input input s)).
Proof.
  destruct (demo_session demo_ask [demo_turn; demo_start; demo_start]) as [s|] eqn:Hs; [|by vm_compute in Hs].
  exists s. split; [reflexivity|]. split; [by vm_compute in Hs; injection Hs as <-|].
  apply (session_in_bounds demo_json demo_sha (fun _ => None) s (demo_session_reached _ _ _ Hs)).
Defined.

Lemma answers_complete_witness : exists s s' decision effect,
  session_reached demo_json demo_sha s /\ decide_input demo_start s = Some (decision, s') /\ de_effect decision = Some effect
  /\ ie_result effect = Some (AnswersResult (<["size"%string := "large"%string]> {["colour"%string := "red"%string]}))
  /\ is_review s = true.
Proof.
  destruct (demo_session demo_ask [demo_turn; demo_start; demo_start]) as [s|] eqn:Hs; [|by vm_compute in Hs].
  pose proof (demo_session_reached _ _ _ Hs) as Hr. vm_compute in Hs. injection Hs as <-.
  match type of Hr with session_reached _ _ ?s => exists s end. eexists _, _, _. split; [exact Hr|]. split; [vm_compute; reflexivity|].
  split; [reflexivity|]. split; [reflexivity|].
  by destruct (answers_complete demo_json demo_sha _ _ demo_start _ _ _ Hr eq_refl eq_refl eq_refl) as (request & _ & _ & Hrev & _).
Defined.

Lemma confirmed_action_shown_witness : exists s s' decision effect,
  session_reached demo_json demo_sha s /\ decide_input demo_start s = Some (decision, s') /\ de_effect decision = Some effect
  /\ asked s = None /\ ie_result effect = Some (DecisionResult "cancel")
  /\ exists action, action ∈ confirmable /\ effect = effect_of action s.
Proof.
  destruct (demo_session demo_command [demo_turn; demo_start]) as [s|] eqn:Hs; [|by vm_compute in Hs].
  pose proof (demo_session_reached _ _ _ Hs) as Hr. vm_compute in Hs. injection Hs as <-.
  match type of Hr with session_reached _ _ ?s => exists s end. eexists _, _, _. split; [exact Hr|]. split; [vm_compute; reflexivity|].
  split; [reflexivity|]. split; [reflexivity|]. split; [reflexivity|].
  destruct (confirmed_action_shown demo_json demo_sha (fun _ => None) _ _ demo_start _ _ Hr eq_refl eq_refl eq_refl) as (action & Hin & He & _).
  eauto.
Defined.
