(* ===== verification/CodexClaims.v ===== *)
(** * What the Codex plugin publishes

    Every card of a reducer that is reached makes an observation that the daemon accepts,
    and a publication of the cards succeeds; which needs a clock that is past the zero time,
    identifiers that do not collide, and windows with different labels. *)

From Stdlib Require Import ZArith Lia ZifyBool.
From S2P Require Import Prelude GoStrings GoTime GoJson Identifier GoEncoding Protocol ProtocolSession JsonText GoText CodexUsage CodexReducer CodexCards CodexScenes Actions CodexPublisher CodexInteraction CodexInvariant CodexSessions.

Definition codex_channels : list string :=
  [ChannelAttention; ChannelGuidance; ChannelOutcome; ChannelActivity; ChannelProgress; ChannelOverview; ChannelConnection;
   ChannelDetail; ChannelQuotaSummary; ChannelQuotaPressure].

(** A card whose observation is valid at [now]. *)
Record valid_card (now : Time) (card : Card) : Prop := {
  vd_channel : cd_Channel card ∈ codex_channels;
  vd_key : ValidIdentifier (cd_Key card);
  vd_disposition : cd_Disposition card ∈ [DispositionSnapshot; DispositionNotable; DispositionActionable];
  vd_impact : cd_Impact card ∈ [ImpactLow; ImpactNormal; ImpactNotable; ImpactCritical];
  vd_reason : reasonCodePattern (cd_ReasonCode card) = true;
  vd_observed : IsZero (cd_ObservedAt card) = false;
  vd_until : After (cd_ValidUntil card) now = true;
  vd_scene : shown_well card;
}.

Lemma channels_valid channel : channel ∈ codex_channels -> ValidIdentifier channel /\ no_nul channel.
Proof.
  assert (H : Forall (fun channel => Validate EmptyString channel = None /\ no_nul channel) codex_channels).
  { apply (bool_decide_unpack _). by vm_compute. }
  intros Hin. rewrite Forall_forall in H. destruct (H _ Hin) as [Hv Hn]. split; [by apply Validate_None in Hv|done].
Qed.

Lemma valid_card_publishable now card : valid_card now card -> publishable_card card.
Proof.
  intros H. split; [by apply channels_valid, H|]. intros He. pose proof (vd_disposition _ _ H) as Hd. rewrite He in Hd.
  revert Hd. apply (bool_decide_unpack _). by vm_compute.
Qed.

Lemma valid_card_observation now instance revision updated card : valid_card now card -> 0 < instant now ->
  InstanceRef_Validate instance = None -> revision <> 0 -> IsZero updated = false ->
  Observation_Validate (card_observation instance revision updated card) now = None.
Proof.
  intros H Hnow Hinst Hrev Hupd. apply Observation_Validate_None. destruct (channels_valid _ (vd_channel _ _ H)) as [Hch _].
  pose proof (vd_until _ _ H) as Hu. apply After_spec in Hu.
  split; [split; cbn|]; try apply H; try done.
  - by apply InstanceRef_Validate_None.
  - pose proof (vd_disposition _ _ H) as Hd. clear -Hd. set_solver.
  - split; [exact (vd_observed _ _ H)|done].
  - cbn [obs_Disposition card_observation]. rewrite decide_False by (by apply (valid_card_publishable now)). split; cbn.
    + split; [apply Z.eqb_neq; cbn; lia|done].
    + by apply After_spec.
    + left. eexists. split_and!; [done|done|]. by apply shown_well_valid, H.
    + done.
Qed.

(** ** Each card *)

(** Membership in a list that is written out. *)
Ltac member := first [apply list_elem_of_here | apply list_elem_of_further; member].

Section Cards.
Context (sha256 : string -> list Z) (Hsha : forall s, Forall (fun b => 0 <= b < 256) (sha256 s)).

Definition key_prefixes : list string :=
  ["request"; "outcome"; "compaction"; "plan"; "thread"; "compaction-active"; "run"; "session"]%string.

Lemma observationKey_valid prefix value : prefix ∈ key_prefixes -> ValidIdentifier (observationKey sha256 prefix value).
Proof.
  intros Hp. assert (H : Forall (fun p => exists a s, p = String a s /\ IsSpace (byte a) = false /\ printable p = true /\ len p <= 32) key_prefixes).
  { repeat (apply Forall_cons_2; [eexists _, _; split; [reflexivity|]; by vm_compute|]). apply Forall_nil_2. }
  rewrite Forall_forall in H. destruct (H _ Hp) as (a & s & -> & Ha & Hpr & Hl). unfold observationKey.
  assert (Hh : printable (hex_of (take 8 (sha256 value))) = true).
  { unfold printable. eapply forall_bytes_impl; [|apply hex_of_bytes, Forall_take, Hsha]. unfold is_hex_lower, between. lia. }
  apply (printable_identifier a (s +:+ "." +:+ hex_of (take 8 (sha256 value)))); [done| |].
  - change (String a (s +:+ "." +:+ hex_of (take 8 (sha256 value)))) with (String a s +:+ "." +:+ hex_of (take 8 (sha256 value))).
    by rewrite !printable_app, Hpr, Hh.
  - change (String a (s +:+ "." +:+ hex_of (take 8 (sha256 value)))) with (String a s +:+ "." +:+ hex_of (take 8 (sha256 value))).
    rewrite !len_app, len_hex_of, length_take. change (len ".") with 1. lia.
Qed.

Context (now : Time) (Hnow : 0 < instant now).

Lemma after_long : After (Add now long) now = true.
Proof. apply After_spec. cbn. unfold long, Second. lia. Qed.

Lemma now_not_zero : IsZero now = false.
Proof. unfold IsZero. lia. Qed.

Lemma SummaryKey_valid duration : ValidIdentifier (SummaryKey duration).
Proof.
  unfold SummaryKey. destruct (FrontWindowLabel duration =s "5H"); [by apply literal_identifier; vm_compute|].
  destruct (FrontWindowLabel duration =s "1W"); [by apply literal_identifier; vm_compute|].
  destruct (FrontWindowLabel duration =s "1M"); [by apply literal_identifier; vm_compute|].
  pose proof (len_format_int (Z.quot duration Second)).
  apply (printable_identifier "q" ("uota-" +:+ format_int (Z.quot duration Second) +:+ "s")); [done| |].
  - change (String "q" ("uota-" +:+ ?x)) with ("quota-" +:+ x). rewrite !printable_app, format_int_printable. done.
  - change (len ("quota-" +:+ format_int (Z.quot duration Second) +:+ "s") <= 128). rewrite !len_app. change (len "quota-") with 6. change (len "s") with 1. lia.
Qed.

(** Whatever remains of a card's validity is a literal or an assumption. *)
Ltac valid_literal :=
  lazymatch goal with
  | |- _ ∈ _ => member
  | |- ValidIdentifier _ =>
    first [assumption | apply SummaryKey_valid | apply observationKey_valid; member | by apply literal_identifier; vm_compute]
  | |- reasonCodePattern _ = true => by vm_compute
  | |- IsZero _ = false => first [assumption | apply now_not_zero]
  | |- After _ _ = true => first [assumption | apply after_long]
  | |- shown_well _ => by left
  end.

Lemma connectionCard_valid connected : valid_card now (connectionCard connected now).
Proof. destruct connected; split; valid_literal. Qed.

Lemma reconnectingCard_valid observedAt validUntil : IsZero observedAt = false -> After validUntil now = true ->
  valid_card now (reconnectingCard observedAt validUntil).
Proof. intros. split; valid_literal. Qed.

Lemma LauncherCard_valid clock r : UTC clock = now -> valid_card now (LauncherCard clock r).
Proof. intros He. unfold LauncherCard. cbv zeta. rewrite He. split; try valid_literal. apply After_spec. cbn. unfold Hour. lia. Qed.

Lemma overviewCard_valid count : valid_card now (overviewCard count now).
Proof. split; valid_literal. Qed.

Lemma applyThreadIdentity_valid card t : valid_card now card -> valid_card now (applyThreadIdentity card t).
Proof. unfold applyThreadIdentity. destruct (threadIdentity t) as [session project]. intros []. by split. Qed.

Lemma applyThreadIdentity_eq card t : exists session project, applyThreadIdentity card t = cd_set_lines session session project card.
Proof. unfold applyThreadIdentity. destruct (threadIdentity t) as [session project]. eauto. Qed.

Lemma requestCard_valid request t : ValidIdentifier (pr_Key request) -> IsZero (pr_StartedAt request) = false ->
  valid_card now (requestCard request t now).
Proof.
  intros Hk Hs. unfold requestCard. destruct (applyThreadIdentity_eq (mkCard ChannelAttention (pr_Key request) EmptyString "Codex request" EmptyString
    EmptyString EmptyString DispositionActionable ImpactCritical EmptyString (pr_StartedAt request) (Add now long) no_scene) t) as (session & project & ->).
  destruct (pr_Kind request); [..|destruct (pr_Interactive request)]; split; valid_literal.
Qed.

Lemma outcomeCard_valid t card : outcomeCard sha256 t now = Some card -> valid_card now card.
Proof.
  unfold outcomeCard. destruct (th_LatestTurn t) as [turn|]; [|done]. destruct (negb _ || _) eqn:Hz; [done|]. apply orb_false_iff in Hz as [_ Hz].
  destruct (_ && _); [done|]. destruct (After _ now) eqn:Ha; [cbn [negb]|done]. intros [= <-].
  match goal with |- context [applyThreadIdentity ?c ?t] => destruct (applyThreadIdentity_eq c t) as (session & project & ->) end.
  destruct (tn_Status turn =s "completed"); [|destruct (tn_Status turn =s "interrupted")]; split; valid_literal.
Qed.

Lemma compactionOutcomeCard_valid t card : compactionOutcomeCard sha256 t now = Some card -> valid_card now card.
Proof.
  unfold compactionOutcomeCard. destruct (_ || _) eqn:Hz; [done|]. apply orb_false_iff in Hz as [_ Hz].
  destruct (After _ now) eqn:Ha; [cbn [negb]|done]. intros [= <-]. apply applyThreadIdentity_valid. split; valid_literal.
Qed.

Lemma planCard_valid t card : planCard sha256 t now = Some card -> valid_card now card.
Proof.
  unfold planCard. destruct (_ && _); [done|].
  match goal with |- context [applyThreadIdentity ?c ?t] => destruct (applyThreadIdentity_eq c t) as (session & project & ->) end.
  destruct (th_CompletedPlanTurnID t =s EmptyString); [intros [= <-]; split; valid_literal|].
  destruct (turn_completed t && negb (IsZero (th_OutcomeAt t))) eqn:Hc; [|intros [= <-]; split; valid_literal].
  apply andb_prop in Hc as [_ Hz%negb_true_iff]. destruct (After _ now) eqn:Ha; [cbn [negb]|done]. intros [= <-]. split; valid_literal.
Qed.

Lemma threadCard_valid t policy r card : threadCard sha256 t now policy r = Some card -> valid_card now card.
Proof.
  unfold threadCard.
  match goal with |- context [applyThreadIdentity ?c ?t] => destruct (applyThreadIdentity_eq c t) as (session & project & ->) end.
  destruct (ts_Type (th_Status t) =s "systemError"); [intros [= <-]; split; valid_literal|].
  destruct (_ && one_of "waitingOnApproval" _); [intros [= <-]; split; valid_literal|].
  destruct (_ && one_of "waitingOnUserInput" _); [intros [= <-]; split; valid_literal|].
  destruct (negb _ && negb (IsZero (th_CompactionStartedAt t))) eqn:Hc.
  { apply andb_prop in Hc as [_ Hz%negb_true_iff]. intros [= <-]. split; valid_literal. }
  destruct (is_active t && _); [intros [= <-]; split; valid_literal|].
  destruct (th_LatestTurn t) as [turn|] eqn:Ht; [|done]. destruct (_ || _ || _) eqn:Hz; [done|]. apply orb_false_iff in Hz as [_ Hz].
  assert (Hkey : ValidIdentifier (runObservationKey sha256 t)).
  { unfold runObservationKey. rewrite Ht. apply observationKey_valid. member. }
  destruct policy.
  - destruct (After _ now) eqn:Ha; [cbn [negb]|done]. intros [= <-]. split; valid_literal.
  - intros [= <-]. destruct (After (Add (th_RunStartedAt t) runVisibilityWindow) now) eqn:Ha; split; valid_literal.
Qed.

Lemma cards_of_thread_valid reconnecting r t card : card ∈ cards_of_thread sha256 now reconnecting r t -> valid_card now card.
Proof.
  unfold cards_of_thread. intros [Hin _]%list_elem_of_In%filter_In. apply list_elem_of_In, list_elem_of_omap in Hin as (c & Hc & Hs).
  cbn in Hs. subst c. cbn [tc_outcome tc_compaction tc_plan tc_activity threadCardCandidates] in Hc. rewrite !elem_of_cons in Hc.
  destruct Hc as [Hc|[Hc|[Hc|[Hc|Hc%elem_of_nil]]]]; [..|done].
  - by apply (outcomeCard_valid t).
  - by apply (compactionOutcomeCard_valid t).
  - by apply (planCard_valid t).
  - by apply (threadCard_valid t backgroundRun r).
Qed.

Lemma quotaCards_valid r card : reducer_ok sha256 r -> card ∈ quotaCards now r -> valid_card now card.
Proof.
  intros Hr. unfold quotaCards. destruct (r_quota r) as [quota|] eqn:Hq; [|by intros ?%elem_of_nil].
  destruct (negb _); [by intros ?%elem_of_nil|]. destruct (MostConstrained quota) as [window|] eqn:Hw; [|by intros ?%elem_of_nil].
  destruct (After (Add (sn_UpdatedAt quota) (6 * Minute)) now) eqn:Hu; cbn [negb]; [|by intros ?%elem_of_nil].
  destruct (rk_quota _ _ Hr _ Hq) as (_ & Hgood & Hz). destruct (rk_config _ _ Hr) as [Hc Hp].
  assert (Hscene : forall w signal, w ∈ sn_Windows quota ->
    shown_well (mkCard EmptyString EmptyString EmptyString EmptyString EmptyString EmptyString EmptyString EmptyString EmptyString EmptyString now now
      (usage_Scene quota w (qo_Presentation (r_quotaOptions r)) signal (qo_AssetPath (r_quotaOptions r))))).
  { intros w signal Hin. right. apply usage_scene_valid_lemma; [done| |done|done]. rewrite Forall_forall in Hgood. by apply Hgood. }
  intros [Hin|Hin]%elem_of_app.
  - apply list_elem_of_fmap in Hin as (w & -> & Hin). split; try valid_literal. by apply (Hscene w SignalNone).
  - destruct (bool_decide _ || _) eqn:Hs; [by apply elem_of_nil in Hin|]. apply orb_false_iff in Hs as [_ Hb%negb_false_iff].
    apply list_elem_of_singleton in Hin as ->. apply MostConstrained_in in Hw.
    assert (Huntil : After (min_time (Add (sn_UpdatedAt quota) (6 * Minute)) (r_quotaPressureUntil r)) now = true).
    { unfold min_time. destruct (Before (Add _ _) _); [done|]. unfold Before, After in *. lia. }
    unfold pressureCard. destruct (bool_decide _); split; try valid_literal; by apply (Hscene window (r_quotaSignal r)).
Qed.

Definition requests_dated (r : Reducer) : Prop :=
  forall key request, r_pending r !! key = Some request -> IsZero (pr_StartedAt request) = false.

Lemma threadCards_valid reconnecting r card : reducer_ok sha256 r -> requests_dated r ->
  card ∈ threadCards sha256 now reconnecting r -> valid_card now card.
Proof.
  intros Hr Hd. unfold threadCards. rewrite !elem_of_app. intros [Hin|[Hin|Hin]].
  - destruct reconnecting; [by apply elem_of_nil in Hin|]. apply list_elem_of_fmap in Hin as ([key request] & -> & Hin%elem_of_sorted_items).
    cbn [snd]. destruct (rk_pending _ _ Hr _ _ Hin) as (_ & _ & Hk & _). apply requestCard_valid; [|by apply (Hd key)].
    rewrite Hk. apply observationKey_valid. member.
  - apply list_elem_of_In, in_concat in Hin as (cards & Hin & Hc). apply in_map_iff in Hin as (t & <- & _).
    apply list_elem_of_In in Hc. by apply cards_of_thread_valid in Hc.
  - destruct (1 <? _); [|by apply elem_of_nil in Hin]. apply list_elem_of_singleton in Hin as ->. apply overviewCard_valid.
Qed.
End Cards.

Lemma Cards_valid sha256 (Hsha : forall s, Forall (fun b => 0 <= b < 256) (sha256 s)) clock r card :
  0 < instant clock -> reducer_ok sha256 r -> requests_dated r -> card ∈ Cards sha256 clock r -> valid_card (UTC clock) card.
Proof.
  intros Hclock Hr Hd. unfold Cards. destruct (r_connected r); cbn [negb].
  - intros [->|Hin]%elem_of_cons; [by apply connectionCard_valid|]. destruct (r_awaitingReconcile r); [by apply elem_of_nil in Hin|].
    apply elem_of_app in Hin as [Hin|Hin]; [by eapply threadCards_valid|by eapply quotaCards_valid].
  - destruct (negb _ && _) eqn:Hrec.
    + apply andb_prop in Hrec as [Hz%negb_true_iff Hb]. intros [->|Hin]%elem_of_cons; [|by eapply threadCards_valid].
      apply reconnectingCard_valid; [done|]. unfold Before, After in *. done.
    + intros ->%list_elem_of_singleton. by apply connectionCard_valid.
Qed.

(** ** Identities *)

(** A text that belongs to a thread: its identifier, or a part of it. *)
Inductive owns (id : string) : string -> Prop :=
  | owns_self : owns id id
  | owns_part (part : string) : owns id (observationIdentity id part).

Lemma owns_unique id id' value : no_nul id -> no_nul id' -> owns id value -> owns id' value -> id = id'.
Proof.
  intros Hn Hn' [|part] H; inversion H as [He|part' He]; subst; try done.
  - exfalso. clear -Hn. unfold no_nul, observationIdentity, contains_byte in Hn. rewrite forall_bytes_app in Hn. cbn in Hn.
    rewrite andb_false_r in Hn. done.
  - exfalso. clear -Hn'. unfold no_nul, observationIdentity, contains_byte in Hn'. rewrite forall_bytes_app in Hn'. cbn in Hn'.
    rewrite andb_false_r in Hn'. done.
  - by apply identity_inj in He as [-> _].
Qed.

(** The texts of a thread whose digests may be in keys. *)
Definition parts (t : threadState) : list string :=
  th_ID t :: (if th_CompactionItemID t =s EmptyString then [] else [observationIdentity (th_ID t) (th_CompactionItemID t)])
  ++ option_list ((fun turn => observationIdentity (th_ID t) (tn_ID turn)) <$> th_LatestTurn t).

Lemma parts_owned t value : value ∈ parts t -> owns (th_ID t) value.
Proof.
  unfold parts. rewrite elem_of_cons, elem_of_app. intros [->|[H|H]]; [apply owns_self| |].
  - destruct (_ =s _); [by apply elem_of_nil in H|]. apply list_elem_of_singleton in H as ->. apply owns_part.
  - destruct (th_LatestTurn t); cbn in H; [|by apply elem_of_nil in H]. apply list_elem_of_singleton in H as ->. apply owns_part.
Qed.

Definition thread_prefixes : list string := ["outcome"; "compaction"; "plan"; "thread"; "compaction-active"; "run"]%string.

Section Identities.
Context (sha256 : string -> list Z).

(** The texts whose digests are in the keys of the cards of a reducer. *)
Definition hashed (r : Reducer) (value : string) : Prop :=
  is_Some (r_pending r !! value) \/ exists id t, r_threads r !! id = Some t /\ value ∈ parts t.
(** The eight bytes of the digest that a key has tell these texts apart. *)
Definition digests_distinct (r : Reducer) : Prop :=
  forall value value', hashed r value -> hashed r value' ->
    hex_of (take 8 (sha256 value)) = hex_of (take 8 (sha256 value')) -> value = value'.

Lemma observationKey_inj prefix prefix' value value' : prefix ∈ key_prefixes -> prefix' ∈ key_prefixes ->
  observationKey sha256 prefix value = observationKey sha256 prefix' value' ->
  prefix = prefix' /\ hex_of (take 8 (sha256 value)) = hex_of (take 8 (sha256 value')).
Proof.
  assert (H : Forall (fun p => contains_byte "." p = false) key_prefixes) by (apply (bool_decide_unpack _); by vm_compute).
  rewrite Forall_forall in H. intros Hp Hp'. apply separator_inj; by apply H.
Qed.

(** The key of a card of a thread. *)
Definition thread_key (prefixes : list string) (t : threadState) (card : Card) : Prop :=
  exists prefix value, prefix ∈ prefixes /\ value ∈ parts t /\ cd_Key card = observationKey sha256 prefix value.

Lemma set_lines_key context session project card : cd_Key (cd_set_lines context session project card) = cd_Key card.
Proof. done. Qed.
Lemma applyThreadIdentity_key card t : cd_Key (applyThreadIdentity card t) = cd_Key card.
Proof. unfold applyThreadIdentity. by destruct (threadIdentity t). Qed.

Lemma outcomeCard_key t now card : outcomeCard sha256 t now = Some card -> thread_key ["outcome"%string] t card.
Proof.
  unfold outcomeCard. destruct (th_LatestTurn t) as [turn|]; [|done]. destruct (_ || _); [done|]. destruct (_ && _); [done|]. destruct (negb _); [done|].
  intros [= <-]. exists "outcome"%string, (th_ID t). split; [apply list_elem_of_here|]. split; [apply list_elem_of_here|].
  destruct (_ =s "completed"); [|destruct (_ =s "interrupted")]; apply applyThreadIdentity_key.
Qed.

Lemma compactionOutcomeCard_key t now card : compactionOutcomeCard sha256 t now = Some card -> thread_key ["compaction"%string] t card.
Proof.
  unfold compactionOutcomeCard. destruct (_ || _); [done|]. destruct (negb _); [done|]. intros [= <-].
  exists "compaction"%string, (th_ID t). split; [apply list_elem_of_here|]. split; [apply list_elem_of_here|]. apply applyThreadIdentity_key.
Qed.

Lemma planCard_key t now card : planCard sha256 t now = Some card -> thread_key ["plan"%string] t card.
Proof.
  unfold planCard. destruct (_ && _); [done|]. set (base := applyThreadIdentity _ _).
  assert (Hbase : cd_Key base = observationKey sha256 "plan" (th_ID t)) by apply applyThreadIdentity_key. clearbody base.
  intros H. exists "plan"%string, (th_ID t). split; [apply list_elem_of_here|]. split; [apply list_elem_of_here|].
  destruct (th_CompletedPlanTurnID t =s EmptyString); [by injection H as <-|].
  destruct (_ && _); [|by injection H as <-]. destruct (negb _); [done|]. by injection H as <-.
Qed.

Lemma threadCard_key t now policy r card : threadCard sha256 t now policy r = Some card ->
  thread_key ["thread"; "compaction-active"; "run"]%string t card.
Proof.
  unfold threadCard. set (base := applyThreadIdentity _ _). assert (Hbase : cd_Key base = observationKey sha256 "thread" (th_ID t)) by apply applyThreadIdentity_key.
  clearbody base. assert (Hself : thread_key ["thread"; "compaction-active"; "run"]%string t base).
  { exists "thread"%string, (th_ID t). split; [apply list_elem_of_here|]. split; [apply list_elem_of_here|done]. }
  destruct (_ =s "systemError"); [by intros [= <-]|]. destruct (_ && one_of "waitingOnApproval" _); [by intros [= <-]|].
  destruct (_ && one_of "waitingOnUserInput" _); [by intros [= <-]|]. destruct (negb (th_CompactionItemID t =s EmptyString) && negb _) eqn:Hitem.
  { apply andb_prop in Hitem as [Hitem%negb_true_iff _]. intros [= <-]. exists "compaction-active"%string, (observationIdentity (th_ID t) (th_CompactionItemID t)).
    split; [member|]. split; [|done]. unfold parts. rewrite Hitem. member. }
  destruct (is_active t && _); [by intros [= <-]|]. destruct (th_LatestTurn t) as [turn|] eqn:Ht; [|done]. destruct (_ || _ || _); [done|].
  assert (Hrun : forall observedAt until, thread_key ["thread"; "compaction-active"; "run"]%string t
    (cd_set_times (runObservationKey sha256 t) observedAt until base)).
  { intros. exists "run"%string, (observationIdentity (th_ID t) (tn_ID turn)). split; [member|]. split; [unfold parts; rewrite Ht; set_solver|].
    cbn. unfold runObservationKey. by rewrite Ht. }
  clear Hitem. destruct policy; [destruct (negb _); [done|]|]; intros [= <-]; apply Hrun.
Qed.

Lemma thread_key_mono prefixes prefixes' t card : thread_key prefixes t card -> prefixes ⊆ prefixes' -> thread_key prefixes' t card.
Proof. intros (prefix & value & Hp & Ho & Hk) Hs. exists prefix, value. split; [by apply Hs|done]. Qed.

(** Keys under different prefixes differ. *)
Lemma thread_key_ne prefixes prefixes' t t' card card' : thread_key prefixes t card -> thread_key prefixes' t' card' ->
  prefixes ⊆ key_prefixes -> prefixes' ⊆ key_prefixes -> prefixes ## prefixes' -> cd_Key card <> cd_Key card'.
Proof.
  intros (p & v & Hp & _ & ->) (p' & v' & Hp' & _ & ->) Hs Hs' Hd He. apply observationKey_inj in He as [-> _]; [|by apply Hs|by apply Hs'].
  by apply (Hd p').
Qed.

Lemma NoDup_filter_keys (f : Card -> bool) cards : NoDup (map cd_Key cards) -> NoDup (map cd_Key (List.filter f cards)).
Proof.
  induction cards as [|card cards IH]; [done|]. cbn [map List.filter]. intros [Hn Hnd]%NoDup_cons. destruct (f card); [|by apply IH].
  cbn [map]. apply NoDup_cons. split; [|by apply IH]. intros Hin. apply Hn. apply list_elem_of_fmap in Hin as (c & -> & Hc).
  apply list_elem_of_In, filter_In in Hc as [Hc%list_elem_of_In _]. by apply list_elem_of_fmap_2.
Qed.

(** A card that may be there, in front of others of the thread. *)
Lemma present_keys t (candidate : option Card) cards prefixes prefixes' :
  (forall card, candidate = Some card -> thread_key prefixes t card) ->
  Forall (thread_key prefixes' t) cards /\ NoDup (map cd_Key cards) ->
  forallb (fun p => one_of p key_prefixes) (prefixes ++ prefixes') && forallb (fun p => negb (one_of p prefixes')) prefixes = true ->
  Forall (thread_key (prefixes ++ prefixes') t) (option_list candidate ++ cards) /\ NoDup (map cd_Key (option_list candidate ++ cards)).
Proof.
  intros Hc [Hf Hnd] [Hk Hd]%andb_prop. rewrite forallb_forall in Hk, Hd.
  assert (Hs : prefixes ⊆ key_prefixes) by (intros p Hp; apply one_of_spec, Hk, list_elem_of_In; set_solver).
  assert (Hs' : prefixes' ⊆ key_prefixes) by (intros p Hp; apply one_of_spec, Hk, list_elem_of_In; set_solver).
  assert (Hdis : prefixes ## prefixes').
  { intros p Hp Hp'. specialize (Hd p (proj1 (list_elem_of_In _ _) Hp)). by rewrite (proj2 (one_of_spec _ _) Hp') in Hd. }
  assert (Hf' : Forall (thread_key (prefixes ++ prefixes') t) cards).
  { eapply Forall_impl; [exact Hf|]. intros card Hkey. eapply thread_key_mono; [exact Hkey|]. set_solver. }
  destruct candidate as [card|]; cbn [option_list app map]; [|done]. specialize (Hc card eq_refl). split.
  - apply Forall_cons_2; [|done]. eapply thread_key_mono; [exact Hc|]. set_solver.
  - apply NoDup_cons. split; [|done]. intros (card' & He & Hin)%list_elem_of_fmap. rewrite Forall_forall in Hf.
    by apply (thread_key_ne prefixes prefixes' t t card card' Hc (Hf _ Hin)).
Qed.

(** The cards of one thread. *)
Lemma cards_of_thread_keys now reconnecting r t :
  Forall (thread_key thread_prefixes t) (cards_of_thread sha256 now reconnecting r t)
  /\ NoDup (map cd_Key (cards_of_thread sha256 now reconnecting r t)).
Proof.
  unfold cards_of_thread. cbn [tc_outcome tc_compaction tc_plan tc_activity threadCardCandidates].
  pose proof (present_keys t _ [] _ [] (threadCard_key t now backgroundRun r) ltac:(by split; [apply Forall_nil_2|apply NoDup_nil_2]) eq_refl) as H.
  pose proof (present_keys t _ _ _ _ (planCard_key t now) H eq_refl) as H'. clear H.
  pose proof (present_keys t _ _ _ _ (compactionOutcomeCard_key t now) H' eq_refl) as H. clear H'.
  pose proof (present_keys t _ _ _ _ (outcomeCard_key t now) H eq_refl) as [Hf Hnd]. clear H.
  match type of Hf with Forall _ ?cards => match goal with |- context [omap id ?l] => assert (Hl : omap id l = cards) end end.
  { cbn. destruct (outcomeCard _ _ _), (compactionOutcomeCard _ _ _), (planCard _ _ _), (threadCard _ _ _ _ _); reflexivity. }
  rewrite Hl. split; [|by apply NoDup_filter_keys]. apply Forall_forall. intros card Hin%list_elem_of_In.
  apply filter_In in Hin as [Hin%list_elem_of_In _]. rewrite Forall_forall in Hf. by apply Hf.
Qed.

Lemma NoDup_concat_map {A B} (f : A -> list B) l : NoDup l -> (forall x, x ∈ l -> NoDup (f x)) ->
  (forall x y b, x ∈ l -> y ∈ l -> b ∈ f x -> b ∈ f y -> x = y) -> NoDup (concat (map f l)).
Proof.
  induction l as [|x l IH]; intros Hnd Hf Hd; [apply NoDup_nil_2|]. apply NoDup_cons in Hnd as [Hn Hnd]. cbn [map concat]. apply NoDup_app.
  split; [apply Hf, list_elem_of_here|]. split.
  - intros b Hb Hin. apply list_elem_of_In, in_concat in Hin as (bs & Hbs & Hin). apply in_map_iff in Hbs as (y & <- & Hy%list_elem_of_In).
    apply Hn. rewrite (Hd x y b); [done|apply list_elem_of_here|by right|done|by apply list_elem_of_In].
  - apply IH; [done| |]; intros; [apply Hf|eapply Hd]; try by right. all: done.
Qed.

Lemma NoDup_sorted_items {A} (m : gmap string A) : NoDup (sorted_items m).
Proof. unfold sorted_items. rewrite SortFunc_perm. apply NoDup_map_to_list. Qed.

Lemma requestCard_key request t now : cd_Key (requestCard request t now) = pr_Key request.
Proof.
  unfold requestCard. set (base := applyThreadIdentity _ _). assert (Hbase : cd_Key base = pr_Key request) by apply applyThreadIdentity_key.
  clearbody base. destruct (pr_Kind request); [done..|]. by destruct (pr_Interactive request).
Qed.

Section Reached.
Context (r : Reducer) (Hr : reducer_ok sha256 r) (Hdig : digests_distinct r).
Context (Hids : forall id t, r_threads r !! id = Some t -> no_nul id).

Lemma request_keys now :
  Forall (fun key => exists value, hashed r value /\ key = observationKey sha256 "request" value)
    (map cd_Key (map (fun kp => requestCard kp.2 (r_threads r !! pr_ThreadID kp.2) now) (sorted_items (r_pending r))))
  /\ NoDup (map cd_Key (map (fun kp => requestCard kp.2 (r_threads r !! pr_ThreadID kp.2) now) (sorted_items (r_pending r)))).
Proof.
  rewrite map_map. assert (Hkey : forall kp, kp ∈ sorted_items (r_pending r) ->
    cd_Key (requestCard kp.2 (r_threads r !! pr_ThreadID kp.2) now) = observationKey sha256 "request" kp.1 /\ hashed r kp.1).
  { intros [key request] Hin%elem_of_sorted_items. cbn [fst snd]. rewrite requestCard_key. split; [by apply (rk_pending _ _ Hr)|]. left. eauto. }
  split.
  - apply Forall_forall. intros key (kp & -> & Hin)%list_elem_of_fmap. destruct (Hkey kp Hin) as [-> Hh]. eauto.
  - apply (NoDup_fmap_2_strong _ (sorted_items (r_pending r))); [|apply NoDup_sorted_items]. intros [k1 q1] [k2 q2] H1 H2 He.
    destruct (Hkey _ H1) as [E1 Hh1], (Hkey _ H2) as [E2 Hh2]. rewrite E1, E2 in He. apply observationKey_inj in He as [_ He]; [|member|member].
    apply Hdig in He; [|done|done]. cbn in He. subst k2. apply elem_of_sorted_items in H1, H2. congruence.
Qed.

Lemma thread_key_hashed t card : r_threads r !! th_ID t = Some t -> thread_key thread_prefixes t card ->
  exists prefix value, prefix ∈ thread_prefixes /\ value ∈ parts t /\ hashed r value /\ cd_Key card = observationKey sha256 prefix value.
Proof. intros Ht (prefix & value & Hp & Ho & Hk). exists prefix, value. split_and!; try done. right. eauto. Qed.

Lemma sorted_threads t : t ∈ map snd (sorted_items (r_threads r)) -> r_threads r !! th_ID t = Some t.
Proof.
  intros ([id t'] & -> & Hin%elem_of_sorted_items)%list_elem_of_fmap. cbn [snd]. by destruct (rk_threads _ _ Hr _ _ Hin) as [-> _].
Qed.

Lemma thread_keys now reconnecting :
  Forall (fun key => exists prefix value, prefix ∈ thread_prefixes /\ hashed r value /\ key = observationKey sha256 prefix value)
    (map cd_Key (concat (map (cards_of_thread sha256 now reconnecting r) (map snd (sorted_items (r_threads r))))))
  /\ NoDup (map cd_Key (concat (map (cards_of_thread sha256 now reconnecting r) (map snd (sorted_items (r_threads r)))))).
Proof.
  rewrite concat_map, map_map. set (threads := map snd (sorted_items (r_threads r))).
  assert (Hkey : forall t key, t ∈ threads -> key ∈ map cd_Key (cards_of_thread sha256 now reconnecting r t) ->
    exists prefix value, prefix ∈ thread_prefixes /\ value ∈ parts t /\ hashed r value /\ key = observationKey sha256 prefix value).
  { intros t key Ht (card & -> & Hin)%list_elem_of_fmap. destruct (cards_of_thread_keys now reconnecting r t) as [Hf _].
    rewrite Forall_forall in Hf. apply thread_key_hashed; [by apply sorted_threads|by apply Hf]. }
  assert (Hsub : thread_prefixes ⊆ key_prefixes).
  { intros p Hp. apply one_of_spec. unfold thread_prefixes in Hp. rewrite !elem_of_cons, elem_of_nil in Hp.
    by destruct Hp as [->|[->|[->|[->|[->|[->|[]]]]]]]. }
  split.
  - apply Forall_forall. intros key Hin. apply list_elem_of_In, in_concat in Hin as (keys & Hks & Hin).
    apply in_map_iff in Hks as (t & <- & Ht%list_elem_of_In). destruct (Hkey t key Ht) as (p & v & ? & _ & ? & ?); [by apply list_elem_of_In|eauto].
  - apply NoDup_concat_map.
    + apply (NoDup_fmap_2_strong snd (sorted_items (r_threads r))); [|apply NoDup_sorted_items].
      intros [k1 t1] [k2 t2] H1%elem_of_sorted_items H2%elem_of_sorted_items He. cbn in He. subst t2.
      destruct (rk_threads _ _ Hr _ _ H1) as [<- _], (rk_threads _ _ Hr _ _ H2) as [<- _]. done.
    + intros t _. apply cards_of_thread_keys.
    + intros t t' key Ht Ht' Hk Hk'. destruct (Hkey t key Ht Hk) as (p & v & Hp & Ho & Hh & ->), (Hkey t' _ Ht' Hk') as (p' & v' & Hp' & Ho' & Hh' & He).
      apply observationKey_inj in He as [_ He]; [|by apply Hsub|by apply Hsub]. apply Hdig in He as ->; [|done|done].
      apply sorted_threads in Ht, Ht'. assert (Hid : th_ID t = th_ID t') by (apply (owns_unique _ _ v'); eauto using parts_owned). rewrite Hid in Ht. congruence.
Qed.

(** The windows of the quota have different labels. *)
Definition windows_distinct : Prop :=
  match r_quota r with
  | Some quota => NoDup (map (fun window => SummaryKey (wn_Duration window)) (sn_Windows quota))
  | None => True
  end.

Lemma NoDup_app_apart (P Q : string -> Prop) l l' : Forall P l /\ NoDup l -> Forall Q l' /\ NoDup l' -> (forall key, P key -> Q key -> False) ->
  NoDup (l ++ l').
Proof.
  intros [Hf Hnd] [Hf' Hnd'] Hapart. apply NoDup_app. split; [done|]. split; [|done]. intros key Hin Hin'.
  rewrite Forall_forall in Hf, Hf'. eauto.
Qed.

Definition of_thread (key : string) : Prop :=
  key = "active"%string \/ exists prefix value, prefix ∈ key_prefixes /\ key = observationKey sha256 prefix value.
Definition of_quota (key : string) : Prop := exists rest, key = "quota" +:+ rest.

Lemma of_thread_not_provider : ~ of_thread "provider".
Proof.
  intros [?|(prefix & value & Hp & He)]; [done|]. revert He. unfold key_prefixes in Hp.
  repeat (apply elem_of_cons in Hp as [->|Hp]; [discriminate|]). by apply elem_of_nil in Hp.
Qed.
Lemma of_thread_not_quota key : of_thread key -> of_quota key -> False.
Proof.
  intros [->|(prefix & value & Hp & ->)] [rest He]; [done|]. revert He. unfold key_prefixes in Hp.
  repeat (apply elem_of_cons in Hp as [->|Hp]; [discriminate|]). by apply elem_of_nil in Hp.
Qed.

Lemma threadCards_keys now reconnecting :
  Forall of_thread (map cd_Key (threadCards sha256 now reconnecting r)) /\ NoDup (map cd_Key (threadCards sha256 now reconnecting r)).
Proof.
  unfold threadCards. rewrite !map_app. destruct (thread_keys now reconnecting) as [Htf Htn]. destruct (request_keys now) as [Hrf Hrn].
  set (threads := map cd_Key (concat _)) in *. set (active := map cd_Key (if 1 <? _ then _ else _)).
  set (request := fun key => exists value, hashed r value /\ key = observationKey sha256 "request" value) in *.
  set (thread := fun key => exists prefix value, prefix ∈ thread_prefixes /\ hashed r value /\ key = observationKey sha256 prefix value) in *.
  assert (Ha : Forall (eq "active"%string) active /\ NoDup active).
  { unfold active. destruct (1 <? _); cbn [map]; [|split; [apply Forall_nil_2|apply NoDup_nil_2]]. split; [by apply Forall_singleton|apply NoDup_singleton]. }
  set (requests := map cd_Key (if reconnecting then @nil Card else _)).
  assert (Hreq : Forall request requests /\ NoDup requests).
  { unfold requests. destruct reconnecting; [split; [apply Forall_nil_2|apply NoDup_nil_2]|exact (conj Hrf Hrn)]. }
  clearbody requests. destruct Hreq as [Hf Hn].
  assert (Hprefix : forall prefix, prefix ∈ thread_prefixes -> prefix ∈ key_prefixes /\ prefix <> "request"%string).
  { intros prefix Hp. assert (He : forallb (fun p => one_of p key_prefixes && negb (p =s "request")) thread_prefixes = true) by (by vm_compute).
    rewrite forallb_forall in He. apply list_elem_of_In, He, andb_prop in Hp as [Hp%one_of_spec Hn'%negb_true_iff]. split; [done|]. by apply String.eqb_neq. }
  assert (Hthread : forall key, thread key -> of_thread key).
  { intros key (prefix & value & Hp & _ & ->). right. exists prefix, value. split; [by apply Hprefix|done]. }
  assert (Hrequest : forall key, request key -> of_thread key).
  { intros key (value & _ & ->). right. eexists _, _. split; [|done]. member. }
  assert (Happ : NoDup (threads ++ active)).
  { apply (NoDup_app_apart thread (eq "active"%string)); [by split|done|]. intros key (prefix & value & Hp & _ & ->) He.
    apply Hprefix in Hp as [Hp _]. unfold key_prefixes in Hp. revert He. repeat (apply elem_of_cons in Hp as [->|Hp]; [discriminate|]). by apply elem_of_nil in Hp. }
  split.
  - rewrite !Forall_app. split_and!; [by eapply Forall_impl|by eapply Forall_impl|]. eapply Forall_impl; [apply Ha|]. intros key <-. by left.
  - apply (NoDup_app_apart request (fun key => thread key \/ key = "active"%string)); [done| |].
    + split; [|done]. apply Forall_app. split; [eapply Forall_impl; [exact Htf|by left]|]. eapply Forall_impl; [apply Ha|]. intros key <-. by right.
    + intros key (value & _ & ->) [(prefix & value' & Hp & _ & He)|He]; [|done]. apply Hprefix in Hp as [Hp Hne].
      apply observationKey_inj in He as [He _]; [congruence|member|done].
Qed.

Lemma SummaryKey_quota duration : exists rest, SummaryKey duration = "quota-" +:+ rest.
Proof.
  unfold SummaryKey. destruct (_ =s "5H"); [by exists "5h"%string|]. destruct (_ =s "1W"); [by exists "1w"%string|].
  destruct (_ =s "1M"); [by exists "1m"%string|]. by eexists.
Qed.

Lemma quotaCards_keys now : windows_distinct ->
  Forall of_quota (map cd_Key (quotaCards now r)) /\ NoDup (map cd_Key (quotaCards now r)).
Proof.
  assert (Hnil : Forall of_quota (map cd_Key (@nil Card)) /\ NoDup (map cd_Key (@nil Card))) by (split; [apply Forall_nil_2|apply NoDup_nil_2]).
  unfold windows_distinct, quotaCards. destruct (r_quota r) as [quota|]; [|done]. intros Hw. destruct (negb _); [done|].
  destruct (MostConstrained quota) as [window|]; [|done]. destruct (negb _); [done|]. rewrite map_app.
  set (summaries := map cd_Key (map _ _)). set (pressure := map cd_Key (if bool_decide _ || _ then @nil Card else _)).
  assert (Hs : Forall (fun key => exists rest, key = "quota-" +:+ rest) summaries /\ NoDup summaries).
  { unfold summaries. rewrite map_map. split; [|exact Hw]. apply Forall_forall. intros key (w & -> & _)%list_elem_of_fmap. apply SummaryKey_quota. }
  assert (Hp : Forall (eq "quota"%string) pressure /\ NoDup pressure).
  { unfold pressure. destruct (_ || _); cbn [map]; [split; [apply Forall_nil_2|apply NoDup_nil_2]|]. split; [apply Forall_singleton|apply NoDup_singleton].
    unfold pressureCard. by destruct (bool_decide _). }
  split.
  - apply Forall_app. split; [eapply Forall_impl; [apply Hs|]|eapply Forall_impl; [apply Hp|]].
    + intros key [rest ->]. by exists ("-" +:+ rest).
    + intros key <-. by exists EmptyString.
  - eapply NoDup_app_apart; [exact Hs|exact Hp|]. by intros key [rest ->].
Qed.

(** No two cards have one key. *)
Lemma Cards_keys clock : windows_distinct -> NoDup (map cd_Key (Cards sha256 clock r)).
Proof.
  intros Hw. unfold Cards. destruct (r_connected r); cbn [negb].
  - cbn [map]. apply NoDup_cons. destruct (r_awaitingReconcile r); [split; [apply not_elem_of_nil|apply NoDup_nil_2]|]. rewrite map_app.
    destruct (threadCards_keys (UTC clock) false) as [Htf Htn], (quotaCards_keys (UTC clock) Hw) as [Hqf Hqn]. split.
    + intros [Hin|Hin]%elem_of_app; [rewrite Forall_forall in Htf; by apply of_thread_not_provider, Htf|].
      rewrite Forall_forall in Hqf. by destruct (Hqf _ Hin).
    + by apply (NoDup_app_apart of_thread of_quota); [| |apply of_thread_not_quota].
  - destruct (_ && _); [|apply NoDup_singleton]. cbn [map]. destruct (threadCards_keys (UTC clock) true) as [Htf Htn].
    apply NoDup_cons. split; [|done]. intros Hin. rewrite Forall_forall in Htf. by apply of_thread_not_provider, Htf.
Qed.
End Reached.
End Identities.

Lemma identities_distinct now cards : Forall (valid_card now) cards -> NoDup (map cd_Key cards) -> NoDup (map card_identity cards).
Proof.
  intros Hv Hn. assert (Hi : forall card, card ∈ cards -> no_nul (cd_Channel card)).
  { intros card Hin. rewrite Forall_forall in Hv. by apply channels_valid, Hv. }
  clear Hv. induction cards as [|card cards IH]; [apply NoDup_nil_2|]. cbn [map] in *. apply NoDup_cons in Hn as [Hnin Hn]. apply NoDup_cons.
  split; [|apply IH; [done|]; intros; apply Hi; by right]. intros (card' & He & Hin)%list_elem_of_fmap. apply Hnin.
  apply identity_inj in He as [_ ->]; [|apply Hi; apply list_elem_of_here|apply Hi; by right]. by apply list_elem_of_fmap_2.
Qed.

(** ** Publication *)

(** What the publisher showed is under identifiers that the daemon accepts. *)
Definition publisher_good (p : cardPublisher) : Prop := InstanceRef_Validate (cp_instance p) = None
  /\ forall identity published, cp_active p !! identity = Some published ->
       ValidIdentifier (cd_Channel (pc_card published)) /\ ValidIdentifier (cd_Key (pc_card published)).

Lemma resolved_observation_valid now instance revision updated reason channel key : InstanceRef_Validate instance = None ->
  ValidIdentifier channel -> ValidIdentifier key -> revision <> 0 -> reasonCodePattern reason = true -> IsZero updated = false ->
  Observation_Validate (resolved_observation instance revision updated reason channel key) now = None.
Proof.
  intros Hinst Hc Hk Hrev Hr Hu. apply Observation_Validate_None. split; [split; cbn; try done|].
  - by apply InstanceRef_Validate_None.
  - set_solver.
  - set_solver.
  - cbn. by rewrite decide_True.
Qed.

Lemma last_revision p calls call : mirrors p calls -> last calls = Some call -> Z.of_nat (length calls) < two64 -> call_revision call <> 0.
Proof.
  intros Hm Hl Hlen. pose proof (mi_revisions _ _ Hm) as Hr. destruct calls as [|c calls _] using rev_ind; [done|].
  rewrite last_snoc in Hl. injection Hl as ->. rewrite length_app, Nat.add_1_r, seq_S, !map_app in Hr. apply app_inj_tail in Hr as [_ Hr].
  rewrite Hr. rewrite length_app, Nat.add_1_r in Hlen. unfold u64. rewrite Z.mod_small; lia.
Qed.

Section Publication.
Context {W : Type} (publishObservation : Observation -> W -> option error * W) (now : W -> Time * W).

(** A publication of valid cards under keys of their own, to a host that accepts valid
    observations. *)
Lemma Publish_accepted time cards run : 0 < instant time -> Forall (valid_card time) cards -> NoDup (map cd_Key cards) ->
  mirrors (rn_state run) (rn_events run) -> configured (rn_state run) = true -> publisher_good (rn_state run) ->
  (forall observation w, Observation_Validate observation time = None -> (publishObservation observation w).1 = None) ->
  (forall w, IsZero (now w).1 = false) ->
  let '(err, run') := Publish publishObservation now cards run in
  Z.of_nat (length (rn_events run')) < two64 -> err = None /\ publisher_good (rn_state run').
Proof.
  intros Ht Hv Hk Hm Hconf [Hinst Hact] Hhost Hnow.
  assert (Hp : Forall publishable_card cards) by (eapply Forall_impl; [exact Hv|apply valid_card_publishable]).
  pose proof (wp_Publish publishObservation now cards run Hm Hp) as H. unfold wp in H.
  destruct (Publish publishObservation now cards run) as [[e|] run']; destruct H as (Hm' & [_ Hi] & H); cbn [fst snd] in *; intros Hlen.
  - exfalso. destruct H as [H|[H|(observation & w & Hlast & Hrefused & Hwhat)]]; [congruence|by apply H, (identities_distinct time)|].
    pose proof (last_revision _ _ _ Hm' Hlast Hlen) as Hrev. apply Hrefused, Hhost.
    destruct Hwhat as [(card & Hin & revision & w' & ->)|(identity & published & Ha & revision & w' & ->)].
    + rewrite Forall_forall in Hv. by apply valid_card_observation; [apply Hv| | | |].
    + destruct (Hact _ _ Ha). by apply resolved_observation_valid.
  - destruct H as [Hput Hkept]. split; [done|]. split; [by rewrite Hi|]. intros identity published Ha.
    destruct (decide (identity ∈ map card_identity cards)) as [Hin|Hin]; [|by apply Hkept in Ha as [_ Ha]; [apply (Hact identity)|]].
    apply list_elem_of_fmap in Hin as (card & -> & Hin). destruct (Hput card Hin) as [revision Ha']. rewrite Ha' in Ha. injection Ha as <-. cbn [pc_card].
    rewrite Forall_forall in Hv. split; [by apply channels_valid, Hv|by apply Hv].
Qed.
End Publication.

(** C8: Whatever the app server sent and the user did, the status of Codex gets to the device:
    a publication of the cards succeeds at every clock past the zero time, with a host that
    accepts valid observations, and the host shows each of them. The requests must have a
    date, the windows of the quota different labels, and the digests in the keys must tell
    the threads and requests apart. The next publication finds the publisher as this one did. *)
Theorem status_published {W} (publishObservation : Observation -> W -> option error * W) (now : W -> Time * W)
    (json : decoders) (sha256 : string -> list Z) (config : Config) (r : Reducer) (clock : Time) (run : Run cardPublisher hostCall W) :
  (forall s, Forall (fun b => 0 <= b < 256) (sha256 s)) ->
  reducer_reached json sha256 config r -> 0 < instant clock ->
  requests_dated r -> windows_distinct r -> digests_distinct sha256 r ->
  (forall id t, r_threads r !! id = Some t -> no_nul id) ->
  mirrors (rn_state run) (rn_events run) -> configured (rn_state run) = true -> publisher_good (rn_state run) ->
  (forall observation w, Observation_Validate observation (UTC clock) = None -> (publishObservation observation w).1 = None) ->
  (forall w, IsZero (now w).1 = false) ->
  let '(err, run') := Publish publishObservation now (Cards sha256 clock r) run in
  Z.of_nat (length (rn_events run')) < two64 ->
  err = None /\ publisher_good (rn_state run') /\ mirrors (rn_state run') (rn_events run')
  /\ forall card, card ∈ Cards sha256 clock r -> exists revision updated,
       shown (rn_events run') !! card_slot card = Some (card_observation (cp_instance (rn_state run)) revision updated card).
Proof.
  intros Hsha Hr%reducer_reached_ok Hclock Hd Hw Hdig Hids Hm Hconf Hgood Hhost Hnow.
  assert (Hv : Forall (valid_card (UTC clock)) (Cards sha256 clock r)).
  { apply Forall_forall. intros card. by apply Cards_valid. }
  assert (Hp : Forall publishable_card (Cards sha256 clock r)) by (eapply Forall_impl; [exact Hv|apply valid_card_publishable]).
  pose proof (Publish_accepted publishObservation now (UTC clock) _ run Hclock Hv (Cards_keys sha256 r Hr Hdig Hids clock Hw)
    Hm Hconf Hgood Hhost Hnow) as Ha.
  pose proof (wp_Publish publishObservation now _ run Hm Hp) as H. unfold wp in H.
  destruct (Publish _ _ _ _) as [err run']. intros Hlen. destruct (Ha Hlen) as [-> Hg]. destruct H as (Hm' & [_ Hi] & Hput & _). cbn [snd] in *.
  split_and!; [done|done|done|]. intros card Hin. destruct (Hput card Hin) as [revision Hact].
  destruct (mi_active _ _ Hm' _ _ Hact) as (_ & _ & updated & Hs). cbn in Hs. rewrite Hi in Hs. eauto.
Qed.

Definition demo_host (observation : Observation) (w : unit) : option error * unit := (Observation_Validate observation (UTC demo_time), w).
Definition demo_run : Run cardPublisher hostCall unit := mkRun (newCardPublisher true (mkInstanceRef "codex" 1)) [] tt.

Lemma demo_sha_bytes s : Forall (fun b => 0 <= b < 256) (demo_sha s).
Proof.
  apply Forall_take, Forall_app. split; [|by apply Forall_replicate]. unfold bytes_of. apply Forall_forall. intros b (a & -> & _)%list_elem_of_fmap.
  apply byte_range.
Qed.

Lemma status_published_witness :
  let r := demo_request demo_command in
  let '(err, run') := Publish demo_host (fun w => (demo_time, w)) (Cards demo_sha demo_time r) demo_run in
  err = None /\ length (rn_events run') = 2%nat /\ size (r_pending r) = 1%nat
  /\ forall card, card ∈ Cards demo_sha demo_time r -> exists revision updated,
       shown (rn_events run') !! card_slot card = Some (card_observation (mkInstanceRef "codex" 1) revision updated card).
Proof.
  intros r. assert (Hr : reducer_reached demo_json demo_sha demo_config r).
  { eapply reached_step; [eapply reached_step; [apply reached_new|]|]; by apply step_apply. }
  assert (Hd : map_Forall (fun _ request => IsZero (pr_StartedAt request) = false) (r_pending r)) by (apply (bool_decide_unpack _); by vm_compute).
  assert (Hids : map_Forall (fun id _ => no_nul id) (r_threads r)) by (unfold no_nul; apply (bool_decide_unpack _); by vm_compute).
  assert (Hdig : digests_distinct demo_sha r).
  { set (texts := ["7"; "thread"]%string). assert (Hp : map_Forall (fun key _ => key ∈ texts) (r_pending r)) by (apply (bool_decide_unpack _); by vm_compute).
    assert (Ht : map_Forall (fun _ t => Forall (fun value => value ∈ texts) (parts t)) (r_threads r)) by (apply (bool_decide_unpack _); by vm_compute).
    assert (Hin : forall value, hashed r value -> value ∈ texts).
    { intros value [[request Hl]|(id & t & Hl & Hv)]; [by apply (Hp value request)|]. specialize (Ht id t Hl). rewrite Forall_forall in Ht. by apply Ht. }
    intros value value' Hv%Hin Hv'%Hin. unfold texts in *. rewrite !elem_of_cons, elem_of_nil in Hv, Hv'.
    by destruct Hv as [->|[->|[]]], Hv' as [->|[->|[]]]; vm_compute. }
  assert (Hw : r_quota r = None) by (by vm_compute).
  assert (Hn : length (rn_events (Publish demo_host (fun w => (demo_time, w)) (Cards demo_sha demo_time r) demo_run).2) = 2%nat) by (by vm_compute).
  assert (Hs : size (r_pending r) = 1%nat) by (by vm_compute).
  clearbody r. assert (Hwin : windows_distinct r) by (unfold windows_distinct; by rewrite Hw).
  pose proof (status_published demo_host (fun w => (demo_time, w)) demo_json demo_sha demo_config r demo_time demo_run demo_sha_bytes Hr
    eq_refl Hd Hwin Hdig Hids (mirrors_new true (mkInstanceRef "codex" 1)) eq_refl) as H.
  destruct (Publish _ _ _ _) as [err run']. cbn [snd] in Hn.
  destruct H as (He & _ & _ & Hshown); [by split|by intros|by intros|by rewrite Hn|]. done.
Defined.

(** ** Two states whose cards are not published *)

(** Windows of 28 and of 30 days are both labelled a month, and the second card of one
    identity makes the whole publication fail. *)
Definition demo_months : RateLimitSnapshot :=
  mkRateLimitSnapshot "codex" (Some (mkRateLimitWindow 10 40320 5000)) (Some (mkRateLimitWindow 20 43200 5000)).
Definition demo_quota : Reducer :=
  Apply demo_json demo_sha (fun _ => demo_time) (ManagerRateLimitsSnapshot (Some demo_months))
    (Apply demo_json demo_sha (fun _ => demo_time) (ManagerThreadsReconciled [])
      (Apply demo_json demo_sha (fun _ => demo_time) (ManagerConnected 1) (worker_reducer (mkConfig true true 20 5) demo_time))).

Example equal_windows_unpublished :
  map cd_Key (Cards demo_sha demo_time demo_quota) = ["provider"; "quota-1m"; "quota-1m"]%string
  /\ let '(err, run') := Publish demo_host (fun w => (demo_time, w)) (Cards demo_sha demo_time demo_quota) demo_run in
     is_Some err /\ rn_events run' = [].
Proof. split; [by vm_compute|]. vm_compute. eauto. Qed.

(** A request whose [startedAtMs] is the zero time has a card that the daemon refuses. *)
Definition undated_json : decoders :=
  mkDecoders (fun _ => None) (fun _ => None) (fun _ => None) (fun _ => None) (fun _ => None) (fun _ => None)
    (fun _ => Some (mkRequestParams "thread" "turn" "item" (Some (-62135596800000)))) (fun _ => None) (fun _ => Some None) (fun _ => None)
    (fun _ => None).
Definition demo_undated : Reducer :=
  Apply undated_json demo_sha (fun _ => demo_time) (ManagerIncoming (mkIncoming IncomingServerRequest (mkRawID "7" 1) demo_command "{}"))
    (Apply undated_json demo_sha (fun _ => demo_time) (ManagerConnected 1) (worker_reducer demo_config demo_time)).

Example undated_request_refused :
  let '(err, run') := Publish demo_host (fun w => (demo_time, w)) (Cards demo_sha demo_time demo_undated) demo_run in
  is_Some err /\ shown (rn_events run') = ∅.
Proof. vm_compute. eauto. Qed.
